(* ===== verification/_CoqProject ===== *)
-Q . S2P
Prelude.v
Machine.v
Board.v
Gic.v
Irq.v
Double.v
Uart.v
Ptimer.v
Sched.v
Tasks.v
System.v
Run.v
Shell.v
Echo.v
Lmb.v
Cmem.v
Crc32.v
Ctype.v
CString.v
Strto.v
Charset.v
Vsprintf.v
Format.v
Uuid.v
Printf.v
HashTable.v
Qsort.v
EnvText.v
Membuff.v
Circbuf.v
Image.v
Bootm.v
Blk.v
Ext4.v
Extents.v
Ext4Dir.v
Ext4Path.v
Ext4Image.v
Part.v
Fs.v
Carray.v
Terminal.v
Command.v
Blkcache.v
Readline.v
Cli.v
Atags.v
Boot.v
Chain.v
Nor.v
EnvTable.v
EnvFlags.v
Environ.v
EnvStore.v
MmcTypes.v
Mmc.v
Pl180.v
SdCard.v
SdInit.v
Emmc.v
SdWrite.v
SdHost.v
SdBoot.v
MmcCmd.v
MmcSession.v
SdDemo.v
EmmcDemo.v
MmcDemo.v
