(* ===== verification/Prelude.v ===== *)
(** * Verification of the bare-metal ARM program and of its boot loader

    ** The program

    The repository builds, chapter by chapter, a bare-metal program for the
    Versatile Express board (Cortex-A9) and boots it with the U-Boot tree under
    src/src/common_uboot.  The last chapter, src/src/08_scheduler, is the complete
    program: [main] configures the UART and the interrupt controller, registers
    the handlers of the UART and of the private timer, adds two tasks and runs a
    cooperative scheduler on the millisecond counter that the timer interrupt
    advances.  mkimage wraps the program in a legacy image with load address
    and entry point 0x60000000; U-Boot reads it from the SD card to 0x60000000 and
    starts it with [bootm 0x60000000].

    This library models the chapters' C programs completely, from [main] on, and of
    U-Boot the path that boots it, with the library routines on which that path and
    the environment stand.

    ** The files

    This file: w-bit unsigned integers as integers with explicit wrap-around
    ([u8], [u16], [u32]), bit-wise reasoning, the hint databases.

    The program (src/src/08_scheduler/src):
    - Machine.v: the file-scope variables of all source files as one record
      ([statics]), the world (variables, device board, trace of register accesses,
      interrupt flag), the state-and-failure monad in which the C functions are
      written, and its weakest preconditions ([wp]).  A failure is an access
      outside an array, a call through a null pointer or a loop out of fuel.
      The devices are any state that implements the class [Bus]: reads, writes,
      the passing of time and the state of the interrupt line.
    - Board.v: one small executable board, for the examples.
    - Gic.v (gic.c), Irq.v (irq.c), Double.v and Uart.v (uart_pl011.c), Ptimer.v
      (ptimer.c, systime.c), Sched.v (sched.c), Tasks.v (tasks.c): one definition per
      C function, with the same name.  The drivers take the interruption point as
      an argument, which they run before every access to shared state.  What one
      component needs of another is a class: [Pl011] (the UART drains within
      [pl_bound] polls), [IsrTable] (the registered handlers), [Clock] (the time
      the scheduler reads), [ThreadIO] (what the tasks need of their environment).
    - System.v: [main] and the interrupts.  [preempt] is the interruption point of
      the whole program: the hardware may raise any pending interrupts, each of
      which runs [irq_handler] on the same world.  It provides the instances of
      the classes.
    - Run.v: the scheduler with the tasks, from reset to any number of passes.

    The programs of the earlier chapters:
    - Shell.v: the polled echo program of chapter 6 with its command line, and the
      program of chapters 4 and 5.
    - Echo.v: the interrupt-driven echo program of chapter 7.

    The boot loader (src/src/common_uboot):
    - Cmem.v: a byte at every address, words and C strings in it.
    - Crc32.v (lib/crc32.c), Ctype.v (lib/ctype.c, include/linux/ctype.h), CString.v
      (lib/string.c), Strto.v (lib/strto.c), Qsort.v (lib/qsort.c), Membuff.v
      (lib/membuff.c), Circbuf.v (lib/circbuf.c), Lmb.v (lib/lmb.c).
    - Charset.v (lib/charset.c): UTF-8 and UTF-16.  Vsprintf.v (lib/vsprintf.c): the
      writer behind [printf]; Format.v describes the text of a format and proves
      that the writer writes it; Uuid.v (lib/uuid.c, lib/rand.c) closes the loop
      between [sprintf] and the printing of UUIDs; Printf.v has the functions that
      callers use and their theorems.
    - HashTable.v and EnvText.v (lib/hashtable.c): the hash table of environment
      variables, and its export to and import from text.
    - EnvTable.v: the map of checked variables that the hash table refines, and its
      import and export.  EnvFlags.v (env/attr.c, env/flags.c, env/callback.c,
      lib/linux_string.c): attribute lists, types and access rights of variables, which
      are the check and the initialisers of the table's entries.  Nor.v (common/flash.c,
      cmd/flash.c): banks and sectors of flash memory with the commands on them, on the
      interface [Chip] of the driver; [Works] says what working chips do.  Environ.v
      (env/common.c, cmd/nvedit.c, env/env.c, env/flash.c): the environment's commands,
      its defaults, the drivers of storage locations and the storage in flash memory.
      EnvStore.v: what the environment promises, proved against EnvTable.v and [Works].
    - Image.v (include/image.h, common/image.c, tools/default_image.c): the legacy
      image, its checks and the header that mkimage writes.
    - Bootm.v (common/bootm.c): [bootm] for a legacy image, up to the point where the
      program is in its place.  Atags.v (arch/arm/lib/bootm.c): the list of tags that
      describes the machine, its writers and the reader's loop.  Boot.v (common/bootm.c,
      cmd/bootm.c, common/bootm_os.c, common/image.c, common/image-fdt.c,
      arch/arm/lib/bootm.c): the whole command with its states and subcommands, from the
      arguments to the entry into the program.
    - Blk.v (fs/fs_internal.c): byte ranges of a partition of a block device.
    - Ext4.v, Extents.v, Ext4Dir.v (fs/ext4): the reading side of ext2 and ext4: the
      blocks of a file through indirect blocks with their caches or through extent
      trees, the read loop, inodes, directories, symbolic links, mounting and
      opening.  Ext4Path.v describes files, inodes and directories by the bytes of the
      disk ([stored], [inode_on_disk]) and has the properties of directories and paths;
      Ext4Image.v has a small volume for the witnesses and examples.
    - Part.v (disk/part.c, disk/part_dos.c): partition tables and device names.
    - Fs.v (fs/fs.c, cmd/ext2.c): the table of file systems, a record of operations
      each, and the commands [ext2load] and [ext2ls].
    - Carray.v: character arrays with bounds, for the buffers of the command line.
      Command.v (common/command.c): the command table, look-up, dispatch, help and
      completion, on the interface [Console].  Readline.v (common/cli_readline.c): the
      line editor with its history, for any completion that satisfies [Completer],
      which Command.v provides; Terminal.v describes the terminal it draws on.  Cli.v
      (common/cli_simple.c, common/cli.c): the simple parser.
    - Chain.v: [ext2load] and [bootm] one after the other.
    - MmcTypes.v (include/mmc.h): commands, devices and the machine below them, a class
      [Platform] of register accesses and delays, with its monad.  Mmc.v
      (drivers/mmc/mmc.c, mmc_write.c, mmc_legacy.c): the MMC core, on the interface
      [MmcHost] of a host driver.  Pl180.v (drivers/mmc/arm_pl180_mmci.c): the driver of
      the board's card controller.  SdCard.v states what an SD card answers ([SdCard]) and
      what a host driver promises ([Works]) and proves the reading of blocks against them;
      SdInit.v does so for the start of a card and SdWrite.v for the writing of blocks of
      a card with changing contents ([SdWriter]); SdHost.v states what the controller's
      registers show ([Controller]) and proves that the driver keeps the promise;
      SdBoot.v (with disk/part.c and disk/part_dos.c on a running device) puts them
      together for the board; SdDemo.v has a controller and a card that follow the
      interfaces.
    - Emmc.v (drivers/mmc/mmc.c): the division of an eMMC into hardware partitions and
      the areas that the start of the card finds, on the interface [EmmcCard]; EmmcDemo.v
      has such a card.  MmcCmd.v (cmd/mmc.c, lib/display_options.c, disk/part_dos.c): the
      command [mmc] with its output.  MmcSession.v: sequences of these commands on the
      board, proved against SdBoot.v; MmcDemo.v runs some.
    - Blkcache.v (drivers/block/blkcache.c, include/blk.h, cmd/blkcache.c): the cache of
      blocks between the file systems and a device.

    ** What the theorems show

    - The chapter 8 program: [main_setup_boots] (the set-up returns with the
      handlers, tasks and interrupts in place), [preempt_keeps_time] (whatever
      interrupts arrive at an interruption point, the counter stays the number of
      timer interrupts modulo 2^32 and nothing else changes), the dispatch of
      interrupts and the refinement of the handler table by a write-once map, the
      exact register programmes of the drivers with their error branches (the UART is
      enabled only when its handler is registered), the periods of the scheduler
      across the wrap-around of the counter, and the
      schedule of the whole program ([main_keeps_schedule]): until the print buffer
      of the tasks overflows at 10^8 ms, every pass returns within a fixed time, no
      task is started before a period has passed since its last start and none later
      than a pass after it is due.
    - The earlier chapters: chapter 6 is the abstract shell ([main06_refines]);
      chapter 7 makes exactly the accesses of its set-up and then touches the devices
      from its handlers only ([main07_echoes]).
    - Booting: the chapters' two commands run the program ([card_boots]): from an image
      in a file on the card to the entry into the program, with its bytes in place and
      the tags written, whose list reads back ([write_tags_reads]).  One changed byte
      anywhere makes [bootm] refuse the image ([bootm_refuses]; in the data, unless the
      variable verify turns that checksum off).  A program larger than
      8 KB is overwritten by the tags ([bootm_tags_overwrite]).
    - The command line: [cli_readline] is an editor of a line with a history of the last
      lines ([cli_readline_edits]), the terminal shows the line at every key
      ([cread_line_shows]) and the ring of the history stays well-typed
      ([ring_well_typed]); words mean the command they abbreviate ([find_cmd_meant]) and
      TAB completes them ([tab_completes]); variables are expanded
      ([process_macros_expands]) and the commands of a line run in order, each with the
      variables that the earlier ones left ([run_command_runs]).
    - Loading: [ext2load_loads] (from the device name and the path to the bytes in
      memory, from the bytes of the disk, with everything closed again), on top of the
      choice of a partition
      ([device_part_selects]), mounting, opening and the two maps of a file
      ([ext4fs_read_file_reads] for indirect blocks, [ext4fs_read_file_extents] for
      extent trees of any depth).
    - The environment: the hash table is a map of checked variables
      ([hashtable_refines_map]); what [saveenv] stores survives a reset
      ([saveenv_survives]) and one changed byte of it makes the start fall back to the
      defaults ([corrupt_env_defaults]); a write-once variable keeps its value through
      any commands that are not forced and leave .flags alone ([sealed_kept]; a change of
      .flags takes the seal away, [flags_unseal]); the look-up before relocation,
      which scans the text, agrees with the one after it ([early_get_agrees]); the check
      of a value admits exactly the values of the type ([validate_type_admits]); a range
      of flash memory is erased as whole sectors or not at all.
    - The SD card: from power-on through registration, identification and start to the
      blocks in memory ([card_reads]); a started card is a block device as Blk.v and the
      file systems need it, in every state that reads lead to ([card_is_block_device]);
      what is written is read back and the other blocks keep their bytes ([card_stores]);
      an empty slot is given up ([empty_slot]); the clock of the bus is the fastest one
      within the limits that the divider can express ([set_ios_clock]).  Any sequence of
      [mmc] commands moves blocks between memory and card as their arguments say, with
      failures beyond the end of the card and restarts that leave the card's contents and
      all memory but the driver's buffer as they were ([mmc_session_refines]).
    - The eMMC: a configuration is written completely or the card keeps its registers,
      and it is written if and only if it fits the card ([hwpart_all_or_nothing]); a card
      that was divided shows these areas at its next start ([partitions_survive]).
    - The block cache: reads, writes and erasures of any devices give with the cache what
      they give without it ([cache_transparent]).
    - The libraries: equivalence of the optimised routines with plain references
      ([crc32], [memchr_inv], the chunked moves and checksums), exact effect and
      frame of the memory routines, soundness and completeness of the memory-block
      allocator, the hash table as a finite map, sortedness and permutation for
      [qsort], round trips (printing and reading numbers and UUIDs, UTF-8 and UTF-16,
      export and import of the environment), queues as lists.  [snprintf] refines
      the description of its text ([snprintf_writes]) and stays inside its buffer.
    - Where the code fails, a theorem says how: buffer overrun in [uart_write_uint],
      lost reservations, a live hash table entry overwritten, holes taken for blocks,
      nodes freed twice, caches of another volume, loops that do not end.

    ** Bounds and fuel

    Loops whose number of rounds is known take a [nat] that counts them.  The other
    loops take fuel and return [None], or fail, when it runs out, and their
    theorems show that a stated amount is enough: [pl_bound] polls of the UART flag
    register, one round per byte for the string and buffer loops, one round per
    character of a format, five digits per round of [put_dec], the bound of the
    next prime for [hcreate_r], one round per directory entry, path component, extent
    level and extended partition table, one per character of a command line.  The line
    editor is a loop over the keys that are typed; it waits when they run out.
    [sched_run] never returns; its theorems are about
    every number of passes.  [burst] bounds the interrupts taken at one interruption
    point and is arbitrary.  The loops that poll the card controller take [patience]
    rounds, which has to exceed [polls], the reads for which the status may stay quiet, by
    2^14, the words of the longest transfer; a card may be busy for a thousand rounds of
    its identification, as the code allows.

    ** Not modelled

    The start-up assembly and the linker scripts: the model starts at [main], with
    the variables zero and interrupts off.  The printed messages, boot stages and
    caches of U-Boot; FIT and Android images, which the board's configuration leaves
    out; regular-expression matching in the export; the text of EFI device paths,
    decompression, the device-tree library with the relocation of a tree, the start of
    operating systems other than Linux and the FAT file system, which are parameters.
    The writing side of ext4, other partition tables than DOS ones, the redundant copy and
    other stores of the environment than flash memory, the callbacks of the variables
    other than .flags and that of .flags during an import, its interactive commands (asking,
    editing, searching), the hush shell, which the board uses in place of the simple
    parser.  Of the drivers of U-Boot only the one of the card controller is modelled; the
    flash chips are an interface.  Of the MMC core UHS, HS200, signal voltages, RPMB, boot
    partitions of an eMMC, background operations and the driver model, which the board is
    built without.  The theorems about whole cards are about SD cards of version 2 or
    later; of an eMMC they show its division and the areas at its start, while the choice
    of its mode and the erasing of blocks are modelled without theorems.  Pointers are
    addresses: undefined behaviour of C on pointers
    is a failure only where the model bounds an array. *)

From stdpp Require Import base list numbers.
From Stdlib Require Import ZArith Lia.

#[global] Open Scope Z_scope.

(** ** Machine integers

    A [w]-bit unsigned C integer is a [Z] in [0, 2^w); arithmetic wraps. *)

Definition wrap (w z : Z) : Z := z mod 2 ^ w.
Definition u8 (z : Z) : Z := wrap 8 z.
Definition u16 (z : Z) : Z := wrap 16 z.
Definition u32 (z : Z) : Z := wrap 32 z.
Definition u64 (z : Z) : Z := wrap 64 z.

(** Two's complement reading of a [w]-bit pattern (the C signed types). *)
Definition sgn (w z : Z) : Z :=
  let m := wrap w z in if m <? 2 ^ (w - 1) then m else m - 2 ^ w.

Definition in_range (w z : Z) : Prop := 0 <= z < 2 ^ w.

Lemma wrap_range w z : 0 <= w -> in_range w (wrap w z).
Proof. intros. apply Z.mod_pos_bound. apply Z.pow_pos_nonneg; lia. Qed.

Lemma wrap_small w z : in_range w z -> wrap w z = z.
Proof. intros. apply Z.mod_small. exact H. Qed.

Lemma sgn_small x : 0 <= x < 2 ^ 31 -> sgn 32 x = x.
Proof. intros H. unfold sgn. rewrite wrap_small by (unfold in_range; lia). change (2 ^ (32 - 1)) with (2 ^ 31). replace (x <? 2 ^ 31) with true by lia. reflexivity. Qed.

Lemma u64_small x : 0 <= x < 2 ^ 64 -> u64 x = x.
Proof. intros H. apply wrap_small. exact H. Qed.

Lemma wrap_idem w z : 0 <= w -> wrap w (wrap w z) = wrap w z.
Proof. intros. apply wrap_small, wrap_range. lia. Qed.

Lemma u8_range z : 0 <= u8 z < 256.
Proof. apply (wrap_range 8). lia. Qed.
Lemma u16_range z : 0 <= u16 z < 65536.
Proof. apply (wrap_range 16). lia. Qed.
Lemma u32_range z : 0 <= u32 z < 4294967296.
Proof. apply (wrap_range 32). lia. Qed.

Lemma u8_small z : 0 <= z < 256 -> u8 z = z.
Proof. apply (wrap_small 8). Qed.
Lemma u16_small z : 0 <= z < 65536 -> u16 z = z.
Proof. apply (wrap_small 16). Qed.
Lemma u32_small z : 0 <= z < 4294967296 -> u32 z = z.
Proof. apply (wrap_small 32). Qed.

Lemma u32_u32 z : u32 (u32 z) = u32 z.
Proof. apply wrap_idem. lia. Qed.

Lemma u32_add_l a b : u32 (u32 a + b) = u32 (a + b).
Proof. apply Zplus_mod_idemp_l. Qed.
Lemma u32_add_r a b : u32 (a + u32 b) = u32 (a + b).
Proof. apply Zplus_mod_idemp_r. Qed.
Lemma u32_sub_l a b : u32 (u32 a - b) = u32 (a - b).
Proof. apply Zminus_mod_idemp_l. Qed.
Lemma u32_sub_r a b : u32 (a - u32 b) = u32 (a - b).
Proof. apply Zminus_mod_idemp_r. Qed.

Lemma u32_land_ones z : u32 z = Z.land z (Z.ones 32).
Proof. unfold u32, wrap. rewrite Z.land_ones by lia. reflexivity. Qed.

Lemma u32_testbit z n : 0 <= n -> Z.testbit (u32 z) n = (n <? 32) && Z.testbit z n.
Proof.
  intros. rewrite u32_land_ones, Z.land_spec, Z.testbit_ones_nonneg by lia.
  rewrite andb_comm. reflexivity.
Qed.

(** Bitwise operations on [w]-bit words stay [w]-bit words. *)
Lemma in_range_land w a : 0 <= w -> in_range w a -> Z.land a (Z.ones w) = a.
Proof. intros. rewrite Z.land_ones by lia. apply wrap_small. assumption. Qed.

Lemma land_range w a b : 0 <= w -> in_range w a -> in_range w (Z.land a b).
Proof.
  intros Hw Ha. rewrite <- (in_range_land w a), <- Z.land_assoc, (Z.land_comm (Z.ones w)),
    Z.land_assoc, Z.land_ones by assumption.
  apply wrap_range. assumption.
Qed.

Lemma lor_range w a b : 0 <= w -> in_range w a -> in_range w b -> in_range w (Z.lor a b).
Proof.
  intros Hw Ha Hb. rewrite <- (in_range_land w a), <- (in_range_land w b) by assumption.
  rewrite <- Z.land_lor_distr_l, Z.land_ones by lia. apply wrap_range. assumption.
Qed.

Lemma lxor_range w a b : 0 <= w -> in_range w a -> in_range w b -> in_range w (Z.lxor a b).
Proof.
  intros Hw Ha Hb.
  replace (Z.lxor a b) with (Z.land (Z.lxor a b) (Z.ones w)).
  - rewrite Z.land_ones by lia. apply wrap_range. assumption.
  - rewrite <- (in_range_land w a) at 2 by assumption.
    rewrite <- (in_range_land w b) at 2 by assumption.
    apply Z.bits_inj'. intros i Hi. rewrite !Z.land_spec, !Z.lxor_spec, !Z.land_spec.
    destruct (Z.testbit a i), (Z.testbit b i), (Z.testbit (Z.ones w) i); reflexivity.
Qed.

Lemma shiftr_range w a k : 0 <= w -> 0 <= k -> in_range w a -> in_range w (Z.shiftr a k).
Proof.
  intros Hw Hk [Ha1 Ha2]. split; [apply Z.shiftr_nonneg; lia|].
  rewrite Z.shiftr_div_pow2 by lia.
  apply Z.le_lt_trans with a; [|assumption].
  apply Z.div_le_upper_bound; [apply Z.pow_pos_nonneg; lia|].
  assert (0 < 2 ^ k) by (apply Z.pow_pos_nonneg; lia). nia.
Qed.

(** ** Reasoning bit by bit

    [bitwise] reduces an equation between words to an equation between the
    bits of index [i >= 0]. *)
Ltac bitwise i Hi :=
  apply Z.bits_inj'; intros i Hi;
  repeat progress rewrite ?Z.lxor_spec, ?Z.lor_spec, ?Z.land_spec, ?Z.ldiff_spec.

(** [case_bools] splits on every boolean comparison in the goal or context and
    leaves arithmetic facts. *)
Ltac case_bools :=
  repeat match goal with
  | |- context [Z.ltb ?a ?b] => destruct (Z.ltb_spec a b)
  | |- context [Z.leb ?a ?b] => destruct (Z.leb_spec a b)
  | |- context [Z.eqb ?a ?b] => destruct (Z.eqb_spec a b)
  | H : context [Z.ltb ?a ?b] |- _ => destruct (Z.ltb_spec a b)
  | H : context [Z.leb ?a ?b] |- _ => destruct (Z.leb_spec a b)
  | H : context [Z.eqb ?a ?b] |- _ => destruct (Z.eqb_spec a b)
  end.

Create HintDb word discriminated.
#[export] Hint Resolve u8_range u16_range u32_range : word.
Create Rewrite HintDb words.
#[export] Hint Rewrite u32_u32 u32_add_l u32_add_r u32_sub_l u32_sub_r : words.
