(* ===== verification/Machine.v ===== *)
(** * Machine: the bare-metal program's view of the hardware

    The chapter programs run on the bare CPU: their state is the static
    variables of their C files plus the devices they reach through volatile
    memory-mapped accesses.  This file holds that state ([world]), the interface
    a board gives to the program ([Bus]), the monad the C functions are
    translated to ([M]), and the total-correctness calculus ([wp]) their
    specifications are proved with.  The devices themselves are hardware, so
    they are a parameter: [D] with its [Bus] operations.  Every volatile access
    is recorded in [trace], which is what the drivers are specified against. *)

From stdpp Require Import base list strings.
From S2P Require Import Prelude.

(** ** Data of the headers *)

(** The interrupt service routines whose address the program stores in
    [callbacks] (irq.h's [isr_ptr]; [NULL] is [None]). *)
Inductive isr_ptr := uart_isr_ptr | ptimer_isr_ptr.

(** The task bodies whose address the program stores in [task_table]
    (sched.h's [task_entry_ptr]; [NULL] is [None]). *)
Inductive task_entry_ptr := task0_ptr | task1_ptr | task2_ptr.

#[export] Instance isr_ptr_eq_dec : EqDecision isr_ptr.
Proof. solve_decision. Defined.
#[export] Instance task_entry_ptr_eq_dec : EqDecision task_entry_ptr.
Proof. solve_decision. Defined.

Record task_desc := Task {
  entry : option task_entry_ptr;
  period : Z;
  last_run : Z;
}.

Definition MAX_NUM_TASKS : Z := 10.
Definition ISR_COUNT : Z := 1024.
Definition MAX_ISR : Z := ISR_COUNT - 1.

(** ** The static variables of the program *)

Record statics := Statics {
  gic_dregs : Z;                       (* gic.c *)
  gic_ifregs : Z;                      (* gic.c *)
  callbacks : list (option isr_ptr);   (* irq.c *)
  systime : Z;                         (* systime.c *)
  ptimer_regs : Z;                     (* ptimer.c: regs *)
  task_table : list task_desc;         (* sched.c *)
  table_idx : Z;                       (* sched.c *)
}.

(** The contents of [.data] and [.bss] when [main] is entered: every static
    pointer is [NULL], every table is zeroed. *)
Definition statics0 : statics := {|
  gic_dregs := 0; gic_ifregs := 0;
  callbacks := replicate (Z.to_nat ISR_COUNT) None;
  systime := 0; ptimer_regs := 0;
  task_table := replicate (Z.to_nat MAX_NUM_TASKS) (Task None 0 0);
  table_idx := 0;
|}.

Definition set_gic_regs d i s := {| gic_dregs := d; gic_ifregs := i;
  callbacks := callbacks s; systime := systime s; ptimer_regs := ptimer_regs s;
  task_table := task_table s; table_idx := table_idx s |}.
Definition set_callbacks c s := {| gic_dregs := gic_dregs s; gic_ifregs := gic_ifregs s;
  callbacks := c; systime := systime s; ptimer_regs := ptimer_regs s;
  task_table := task_table s; table_idx := table_idx s |}.
Definition set_systime t s := {| gic_dregs := gic_dregs s; gic_ifregs := gic_ifregs s;
  callbacks := callbacks s; systime := t; ptimer_regs := ptimer_regs s;
  task_table := task_table s; table_idx := table_idx s |}.
Definition set_ptimer_regs r s := {| gic_dregs := gic_dregs s; gic_ifregs := gic_ifregs s;
  callbacks := callbacks s; systime := systime s; ptimer_regs := r;
  task_table := task_table s; table_idx := table_idx s |}.
Definition set_task_table t s := {| gic_dregs := gic_dregs s; gic_ifregs := gic_ifregs s;
  callbacks := callbacks s; systime := systime s; ptimer_regs := ptimer_regs s;
  task_table := t; table_idx := table_idx s |}.
Definition set_table_idx i s := {| gic_dregs := gic_dregs s; gic_ifregs := gic_ifregs s;
  callbacks := callbacks s; systime := systime s; ptimer_regs := ptimer_regs s;
  task_table := task_table s; table_idx := i |}.

(** ** Register blocks

    A packed struct of 32-bit registers is the list of its fields with the
    number of words of each; the offset of a field is the size of those before
    it.  An array register is only accessed inside its bounds. *)

Definition layout := list (string * Z).

Fixpoint offset_of (l : layout) (f : string) : Z :=
  match l with
  | [] => 0
  | (g, n) :: l => if String.eqb f g then 0 else 4 * n + offset_of l f
  end.

Fixpoint words_of (l : layout) (f : string) : Z :=
  match l with
  | [] => 0
  | (g, n) :: l => if String.eqb f g then n else words_of l f
  end.

Definition sizeof (l : layout) : Z := foldr (fun fn acc => 4 * fn.2 + acc) 0 l.

(** [&base->f] and [&base->f[i]] *)
Definition field (base : Z) (l : layout) (f : string) : Z := base + offset_of l f.
Definition elem (base : Z) (l : layout) (f : string) (i : Z) : option Z :=
  if (0 <=? i) && (i <? words_of l f) then Some (field base l f + 4 * i) else None.

(** ** Devices *)

(** One volatile access: address and the 32-bit value transferred. *)
Inductive mmio := Rd (a v : Z) | Wr (a v : Z).

(** What the board offers: volatile reads and writes, the state of the CPU's
    IRQ line, the passing of time between two accesses, and the value of the
    [PERIPHBASE] coprocessor register. *)
Class Bus (D : Type) := {
  bus_read : Z -> D -> Z * D;
  bus_write : Z -> Z -> D -> D;
  bus_irq : D -> bool;
  bus_tick : D -> D;
  bus_periphbase : Z;
}.

Record world (D : Type) := World {
  dev : D;
  trace : list mmio;
  st : statics;
  irqs_on : bool;     (* CPSR.I and CPSR.F clear *)
}.
Arguments World {D}.
Arguments dev {D}. Arguments trace {D}. Arguments st {D}. Arguments irqs_on {D}.

(** ** The monad *)

(** A C function either returns, keeps polling for longer than the fuel it was
    given ([Hang]), or runs into undefined behaviour ([Fault]: an array access
    out of bounds, an out-of-range conversion). *)
Inductive outcome (A : Type) := Done (a : A) | Hang | Fault.
Arguments Done {A}. Arguments Hang {A}. Arguments Fault {A}.

Definition M (D A : Type) := world D -> outcome (A * world D).

Definition ret {D A} (a : A) : M D A := fun w => Done (a, w).
Definition bind {D A B} (m : M D A) (k : A -> M D B) : M D B :=
  fun w => match m w with
           | Done (a, w') => k a w'
           | Hang => Hang
           | Fault => Fault
           end.
Definition fault {D A} : M D A := fun _ => Fault.
Definition hang {D A} : M D A := fun _ => Hang.

Declare Scope c_scope.
Delimit Scope c_scope with C.
Notation "'let!' x ':=' m 'in' k" := (bind m (fun x => k))
  (at level 10, x name, m at level 100, k at level 200) : c_scope.
Notation "m1 ;;; m2" := (bind m1 (fun _ => m2))
  (at level 199, right associativity) : c_scope.
#[global] Open Scope c_scope.

Definition with_st {D} (s : statics) (w : world D) : world D :=
  World (dev w) (trace w) s (irqs_on w).

Definition get_st {D} : M D statics := fun w => Done (st w, w).
Definition modify_st {D} (f : statics -> statics) : M D unit :=
  fun w => Done (tt, with_st (f (st w)) w).

Definition of_option {D A} (o : option A) : M D A :=
  match o with Some a => ret a | None => fault end.

Section Access.
Context {D : Type} {B : Bus D}.

(** One volatile load / store, not interrupted. *)
Definition raw_read (a : Z) : M D Z := fun w =>
  let '(v, d) := bus_read a (dev w) in
  Done (u32 v, World d (trace w ++ [Rd a (u32 v)]) (st w) (irqs_on w)).
Definition raw_write (a v : Z) : M D unit := fun w =>
  Done (tt, World (bus_write a (u32 v) (dev w)) (trace w ++ [Wr a (u32 v)]) (st w) (irqs_on w)).

(** An interrupt can be taken before any access to state shared with a handler.
    [pre] is what runs there: nothing inside a handler (IRQs are masked on
    exception entry), the pending handlers in thread context. *)
Context (pre : M D unit).

Definition reg_read (a : Z) : M D Z := pre ;;; raw_read a.
Definition reg_write (a v : Z) : M D unit := pre ;;; raw_write a v.

(** [while (reg & mask);] *)
Fixpoint poll_while (fuel : nat) (a mask : Z) : M D unit :=
  match fuel with
  | O => hang
  | S n =>
    let! v := reg_read a in
    if Z.land v mask =? 0 then ret tt else poll_while n a mask
  end.

End Access.

(** ** Total correctness *)

(** [wp m Q w]: started in [w], [m] returns (no hang, no fault) and the result
    satisfies [Q]. *)
Definition wp {D A} (m : M D A) (Q : A -> world D -> Prop) (w : world D) : Prop :=
  match m w with Done (a, w') => Q a w' | _ => False end.

Section Wp.
Context {D : Type}.
Implicit Types w : world D.

Lemma wp_ret {A} (a : A) Q w : Q a w -> wp (ret a) Q w.
Proof. exact id. Qed.

Lemma wp_bind {A B} (m : M D A) (k : A -> M D B) Q w :
  wp m (fun a => wp (k a) Q) w -> wp (bind m k) Q w.
Proof. unfold wp, bind. destruct (m w) as [[a w']| |]; auto. Qed.

Lemma wp_mono {A} (m : M D A) (P Q : A -> world D -> Prop) w :
  wp m P w -> (forall a w', P a w' -> Q a w') -> wp m Q w.
Proof. unfold wp. destruct (m w) as [[a w']| |]; auto. Qed.

Lemma wp_done {A} (m : M D A) Q w :
  wp m Q w -> exists a w', m w = Done (a, w') /\ Q a w'.
Proof. unfold wp. destruct (m w) as [[a w']| |]; eauto; contradiction. Qed.

Lemma wp_of_done {A} (m : M D A) (Q : A -> world D -> Prop) w a w' :
  m w = Done (a, w') -> Q a w' -> wp m Q w.
Proof. unfold wp. intros ->. auto. Qed.

Lemma wp_get_st (Q : statics -> world D -> Prop) w : Q (st w) w -> wp get_st Q w.
Proof. exact id. Qed.

Lemma wp_modify_st f (Q : unit -> world D -> Prop) w :
  Q tt (with_st (f (st w)) w) -> wp (modify_st f) Q w.
Proof. exact id. Qed.

Lemma wp_of_option {A} (o : option A) a (Q : A -> world D -> Prop) w :
  o = Some a -> Q a w -> wp (of_option o) Q w.
Proof. intros ->. exact id. Qed.

Context {B : Bus D}.

Lemma wp_raw_read a (Q : Z -> world D -> Prop) w :
  (forall v d, bus_read a (dev w) = (v, d) ->
     Q (u32 v) (World d (trace w ++ [Rd a (u32 v)]) (st w) (irqs_on w))) ->
  wp (raw_read a) Q w.
Proof. unfold wp, raw_read. destruct (bus_read a (dev w)) eqn:E. auto. Qed.

Lemma wp_raw_write a v (Q : unit -> world D -> Prop) w :
  Q tt (World (bus_write a (u32 v) (dev w)) (trace w ++ [Wr a (u32 v)]) (st w) (irqs_on w)) ->
  wp (raw_write a v) Q w.
Proof. exact id. Qed.

End Wp.

(** ** Executions without interrupts

    Inside a handler, and in [main] before [cpu_enable_interrupts], nothing but
    the passing of time happens at an interruption point. *)

Section Quiet.
Context {D : Type} {B : Bus D}.

Definition ticked (d d' : D) : Prop := d' = d \/ d' = bus_tick d.

Class Quiet (pre : M D unit) : Prop :=
  quiet : forall w, irqs_on w = false ->
    exists d', ticked (dev w) d' /\ pre w = Done (tt, World d' (trace w) (st w) false).

#[export] Instance quiet_ret : Quiet (ret tt).
Proof. intros [d t s i] Hi. cbn in *. subst. exists d. split; [left|]; reflexivity. Qed.

(** Polling [a] sees [mask] clear within [n] reads, however time passes between
    the reads. *)
Fixpoint clears_within (a mask : Z) (n : nat) (d : D) : Prop :=
  match n with
  | O => False
  | S n => forall d0, ticked d d0 ->
      Z.land (u32 (bus_read a d0).1) mask = 0 \/ clears_within a mask n (bus_read a d0).2
  end.

(** The accesses of a finished polling loop: every read but the last saw the
    mask set, the last one saw it clear. *)
Inductive poll_trace (a mask : Z) : list mmio -> Prop :=
| poll_clear v : Z.land v mask = 0 -> poll_trace a mask [Rd a v]
| poll_again v es : Z.land v mask <> 0 -> poll_trace a mask es -> poll_trace a mask (Rd a v :: es).

(** A predicate on devices that every access and the passing of time keep. *)
Class Stable (P : D -> Prop) : Prop := {
  stable_read : forall a d, P d -> P (bus_read a d).2;
  stable_write : forall a v d, P d -> P (bus_write a v d);
  stable_tick : forall d, P d -> P (bus_tick d);
}.

Lemma stable_ticked P `{!Stable P} d d' : ticked d d' -> P d -> P d'.
Proof. intros [-> | ->] HP; [exact HP | exact (stable_tick d HP)]. Qed.

(** [extends P w w' es]: [w'] is [w] after the accesses [es], with the statics
    and the interrupt mask unchanged and a device still satisfying [P]. *)
Record extends (P : D -> Prop) (w w' : world D) (es : list mmio) : Prop := {
  ext_trace : trace w' = trace w ++ es;
  ext_st : st w' = st w;
  ext_irqs : irqs_on w' = irqs_on w;
  ext_dev : P (dev w');
}.

Lemma extends_refl P w : P (dev w) -> extends P w w [].
Proof. intros. constructor; auto. symmetry. apply app_nil_r. Qed.

Lemma extends_trans P w1 w2 w3 es1 es2 :
  extends P w1 w2 es1 -> extends P w2 w3 es2 -> extends P w1 w3 (es1 ++ es2).
Proof.
  intros [T1 S1 I1 D1] [T2 S2 I2 D2]. constructor; try congruence; auto.
  rewrite T2, T1. symmetry. apply app_assoc.
Qed.

Lemma extends_with_st P s w w' es :
  extends P w w' es -> extends P (with_st s w) (with_st s w') es.
Proof. intros [T1 S1 I1 D1]. constructor; auto. Qed.

Lemma with_st_id (w : world D) : with_st (st w) w = w.
Proof. destruct w. reflexivity. Qed.

Context (pre : M D unit) `{!Quiet pre} (P : D -> Prop) `{!Stable P}.

Lemma wp_reg_read a (Q : Z -> world D -> Prop) w :
  irqs_on w = false -> P (dev w) ->
  (forall v w', extends P w w' [Rd a v] -> 0 <= v < 2 ^ 32 -> Q v w') ->
  wp (reg_read pre a) Q w.
Proof.
  intros Hi HP HQ. apply wp_bind.
  destruct (quiet w Hi) as (d' & Ht & E). apply (wp_of_done _ _ _ _ _ E).
  apply wp_raw_read. intros v d2 Er. apply HQ; [|apply u32_range].
  constructor; cbn; auto.
  pose proof (stable_read a d' (stable_ticked P _ _ Ht HP)) as Hs.
  cbn in Er. rewrite Er in Hs. exact Hs.
Qed.

Lemma wp_reg_write a v (Q : unit -> world D -> Prop) w :
  irqs_on w = false -> P (dev w) ->
  (forall w', extends P w w' [Wr a (u32 v)] -> Q tt w') ->
  wp (reg_write pre a v) Q w.
Proof.
  intros Hi HP HQ. apply wp_bind.
  destruct (quiet w Hi) as (d' & Ht & E). apply (wp_of_done _ _ _ _ _ E).
  apply wp_raw_write, HQ. constructor; cbn; auto.
  apply stable_write, (stable_ticked P _ _ Ht HP).
Qed.

Lemma wp_poll_while a mask n fuel (Q : unit -> world D -> Prop) w :
  irqs_on w = false -> P (dev w) -> clears_within a mask n (dev w) -> (n <= fuel)%nat ->
  (forall w' es, extends P w w' es -> poll_trace a mask es -> Q tt w') ->
  wp (poll_while pre fuel a mask) Q w.
Proof.
  revert fuel Q w. induction n as [|n IH]; intros fuel Q w Hi HP Hc Hf HQ; [destruct Hc|].
  destruct fuel as [|fuel]; [lia|]. cbn [poll_while].
  apply wp_bind, wp_bind.
  destruct (quiet w Hi) as (d' & Ht & E). apply (wp_of_done _ _ _ _ _ E).
  apply wp_raw_read. intros v d2 Er. cbn in Er.
  specialize (Hc d' Ht). rewrite Er in Hc. cbn in Hc.
  assert (P d2) as HP2.
  { pose proof (stable_read a d' (stable_ticked P _ _ Ht HP)) as Hs. rewrite Er in Hs. exact Hs. }
  set (w2 := World d2 _ _ _).
  assert (extends P w w2 [Rd a (u32 v)]) as Hext by (constructor; cbn; auto).
  destruct (Z.eqb_spec (Z.land (u32 v) mask) 0) as [Hz|Hz].
  - apply wp_ret, (HQ w2 [Rd a (u32 v)] Hext). constructor. exact Hz.
  - destruct Hc as [|Hc]; [contradiction|].
    apply IH; auto; [lia|]. intros w' es Hx Ht2.
    apply (HQ w' (Rd a (u32 v) :: es)); [exact (extends_trans _ _ _ _ _ _ Hext Hx)|].
    constructor; assumption.
Qed.

(** An interruption point that traps in the states that [ok] rejects: a program
    that runs with it without a fault is in an accepted state wherever it may be
    interrupted. *)
Definition guard (ok : world D -> bool) : M D unit := fun w => if ok w then pre w else Fault.

Lemma wp_guard_read ok a (Q : Z -> world D -> Prop) w :
  ok w = true -> wp (reg_read pre a) Q w -> wp (reg_read (guard ok) a) Q w.
Proof. unfold wp, reg_read, bind, guard. intros ->. auto. Qed.

Lemma wp_guard_write ok a v (Q : unit -> world D -> Prop) w :
  ok w = true -> wp (reg_write pre a v) Q w -> wp (reg_write (guard ok) a v) Q w.
Proof. unfold wp, reg_write, bind, guard. intros ->. auto. Qed.

Lemma wp_guard_poll ok a mask fuel (Q : unit -> world D -> Prop) w :
  irqs_on w = false -> P (dev w) -> ok w = true -> (forall w' es v, extends P w w' (es ++ [Rd a v]) -> ok w' = true) ->
  wp (poll_while pre fuel a mask) Q w -> wp (poll_while (guard ok) fuel a mask) Q w.
Proof.
  revert w. induction fuel as [|fuel IH]; intros w Hi HP Hok Hall; [auto|]. cbn [poll_while].
  destruct (wp_done (reg_read pre a) (fun v w1 => extends P w w1 [Rd a v]) w) as (v & w1 & E & Hx); [by apply wp_reg_read|].
  assert (reg_read (guard ok) a w = Done (v, w1)) as Eg by (rewrite <- E; unfold reg_read, bind, guard; rewrite Hok; reflexivity).
  unfold wp, bind. rewrite E, Eg. destruct (Z.land v mask =? 0); [auto|]. apply IH; [|exact (ext_dev _ _ _ _ Hx)|exact (Hall w1 [] v Hx)|].
  - rewrite (ext_irqs _ _ _ _ Hx). exact Hi.
  - intros w' es v' Hx'. apply (Hall w' (Rd a v :: es) v'). exact (extends_trans _ _ _ _ _ _ Hx Hx').
Qed.

End Quiet.

(** ** Automation for driver specifications

    [wp_step] peels one command off the goal; volatile accesses leave an
    [extends] hypothesis.  [wp_run P] does it as long as it can, and
    [extends_solve] assembles the [extends] hypotheses of a run. *)

Lemma extends_eq {D} (P : D -> Prop) (w w' : world D) es es' :
  extends P w w' es -> es = es' -> extends P w w' es'.
Proof. intros H <-. exact H. Qed.

Ltac world_solve :=
  cbn [dev irqs_on st trace with_st];
  repeat match goal with
  | H : extends ?P ?w ?w' _ |- _ =>
      lazymatch goal with
      | _ : P (dev w') |- _ => fail
      | _ => pose proof (ext_irqs _ _ _ _ H); pose proof (ext_st _ _ _ _ H);
             pose proof (ext_dev _ _ _ _ H); cbn [dev irqs_on st with_st] in *
      end
  end; first [assumption | congruence].

Ltac wp_step P :=
  lazymatch goal with
  | |- wp (bind _ _) _ _ => apply wp_bind
  | |- wp (ret _) _ _ => apply wp_ret
  | |- wp get_st _ _ => apply wp_get_st
  | |- wp (modify_st _) _ _ => apply wp_modify_st
  | |- wp (reg_read ?pre _) _ _ =>
      apply (wp_reg_read pre P); [world_solve | world_solve |
        let v := fresh "v" in let w := fresh "w" in
        let H := fresh "Hx" in let Hv := fresh "Hv" in intros v w H Hv]
  | |- wp (reg_write ?pre _ _) _ _ =>
      apply (wp_reg_write pre P); [world_solve | world_solve |
        let w := fresh "w" in let H := fresh "Hx" in intros w H]
  end.
Ltac wp_run P := repeat wp_step P.

Ltac extends_solve :=
  eapply extends_eq;
  [ repeat first [eassumption | eapply extends_trans; [eassumption|]] | reflexivity].
