(* ===== verification/Board.v ===== *)
(** * Board: a small executable board

    A concrete device for the [Bus] interface, used to run the program and to
    show that the device hypotheses of the theorems can hold.  It has a PL011
    with a 16-byte transmit FIFO that drains one byte per flag-register read, an
    interrupt controller that hands out pending ids in order, a private timer
    that fires every [b_reload] ticks once started, and plain storage for every
    other register. *)

From stdpp Require Import base list.
From S2P Require Import Prelude Machine.

Module Board.

Record board := MkBoard {
  b_fifo : Z;             (* bytes in the transmit FIFO *)
  b_rx : list Z;          (* received bytes *)
  b_regs : list (Z * Z);  (* other registers, last write first *)
  b_pending : list Z;     (* pending interrupt ids *)
  b_count : Z;            (* private timer counter, 0 when stopped *)
  b_reload : Z;
}.

Definition UART_DR : Z := 0x10009000.
Definition UART_FR : Z := 0x10009018.
Definition UART_MIS : Z := 0x10009040.
Definition PERIPHBASE : Z := 0x1E000000.
Definition GIC_CIAR : Z := PERIPHBASE + 0x10C.
Definition PTIMER_CTRL : Z := PERIPHBASE + 0x608.

Fixpoint regs_get (a : Z) (l : list (Z * Z)) : Z :=
  match l with
  | [] => 0
  | (b, v) :: l => if a =? b then v else regs_get a l
  end.

Definition flags (b : board) : Z :=
  (if 16 <=? b_fifo b then 32 else 0) + (if 0 <? b_fifo b then 8 else 0)
  + (match b_rx b with [] => 16 | _ => 0 end).

Definition drain (b : board) : board :=
  MkBoard (Z.max 0 (b_fifo b - 1)) (b_rx b) (b_regs b) (b_pending b) (b_count b) (b_reload b).

Definition read (a : Z) (b : board) : Z * board :=
  if a =? UART_FR then (flags b, drain b) else
  if a =? UART_DR then
    match b_rx b with
    | [] => (0, b)
    | c :: rx => (c, MkBoard (b_fifo b) rx (b_regs b) (b_pending b) (b_count b) (b_reload b))
    end else
  if a =? UART_MIS then (match b_rx b with [] => 0 | _ => 16 end, b) else
  if a =? GIC_CIAR then
    match b_pending b with
    | [] => (1023, b)
    | i :: p => (i, MkBoard (b_fifo b) (b_rx b) (b_regs b) p (b_count b) (b_reload b))
    end else
  (regs_get a (b_regs b), b).

Definition write (a v : Z) (b : board) : board :=
  if a =? UART_DR then
    MkBoard (Z.min 16 (b_fifo b + 1)) (b_rx b) (b_regs b) (b_pending b) (b_count b) (b_reload b)
  else
    MkBoard (b_fifo b) (b_rx b) ((a, v) :: b_regs b) (b_pending b)
      (if a =? PTIMER_CTRL then b_reload b else b_count b) (b_reload b).

Definition tick (b : board) : board :=
  if b_count b =? 0 then b else
  if b_count b =? 1
  then MkBoard (b_fifo b) (b_rx b) (b_regs b) (b_pending b ++ [29]) (b_reload b) (b_reload b)
  else MkBoard (b_fifo b) (b_rx b) (b_regs b) (b_pending b) (b_count b - 1) (b_reload b).

#[global] Instance board_bus : Bus board := {
  bus_read := read;
  bus_write := write;
  bus_irq := fun b => match b_pending b with [] => false | _ => true end;
  bus_tick := tick;
  bus_periphbase := PERIPHBASE;
}.

(** At reset nothing is queued and the timer is stopped; [reload] sets how often
    it will fire once started. *)
Definition reset (reload : Z) (rx : list Z) : board := MkBoard 0 rx [] [] 0 reload.

Definition start (reload : Z) (rx : list Z) : world board :=
  World (reset reload rx) [] statics0 false.

Definition fifo_ok (b : board) : Prop := 0 <= b_fifo b <= 16.

#[global] Instance fifo_ok_stable : Stable fifo_ok.
Proof.
  constructor; unfold fifo_ok; cbn [bus_read bus_write bus_tick board_bus].
  - intros a d H. unfold read.
    destruct (a =? UART_FR); [cbn; lia|]. destruct (a =? UART_DR); [destruct (b_rx d); exact H|].
    destruct (a =? UART_MIS); [exact H|].
    destruct (a =? GIC_CIAR); [destruct (b_pending d); exact H|exact H].
  - intros a v d H. unfold write. destruct (a =? UART_DR); cbn; lia.
  - intros d H. unfold tick. destruct (b_count d =? 0); [exact H|].
    destruct (b_count d =? 1); exact H.
Qed.

Lemma ticked_fifo d d' : ticked d d' -> b_fifo d' = b_fifo d.
Proof.
  intros [-> | ->]; [reflexivity|]. cbn. unfold tick.
  destruct (b_count d =? 0); [reflexivity|]. destruct (b_count d =? 1); reflexivity.
Qed.

Lemma land_flags b m : (m = 32 \/ m = 8) -> Z.land (u32 (flags b)) m =
  if m =? 32 then (if 16 <=? b_fifo b then 32 else 0) else (if 0 <? b_fifo b then 8 else 0).
Proof.
  intros Hm. unfold flags.
  destruct (16 <=? b_fifo b), (0 <? b_fifo b), (b_rx b); destruct Hm as [-> | ->]; reflexivity.
Qed.

(** Both flags clear once the FIFO has drained. *)
Lemma flags_clear m n d : (m = 32 \/ m = 8) -> 0 <= b_fifo d < Z.of_nat n ->
  clears_within UART_FR m n d.
Proof.
  intros Hm. revert d. induction n as [|n IH]; intros d Hd; [lia|].
  cbn [clears_within]. intros d0 Ht. pose proof (ticked_fifo _ _ Ht) as Hf.
  cbn [bus_read board_bus]. unfold read. rewrite Z.eqb_refl. cbn [fst snd].
  destruct (Z.eq_dec (b_fifo d) 0) as [Hz|Hz].
  - left. rewrite land_flags, Hf, Hz by exact Hm. destruct Hm as [-> | ->]; reflexivity.
  - right. apply IH. cbn. lia.
Qed.

End Board.
