(* ===== verification/Gic.v ===== *)
(** * Gic: the interrupt controller driver (gic.c, gic.h, cpu_a9.h)

    The driver keeps two static pointers to the distributor and CPU interface
    register blocks and reads and writes their registers.  [Gic] below is the
    driver; its theorems say which registers each call touches, in which order
    and with which values, for every device. *)

From stdpp Require Import base list strings.
From S2P Require Import Prelude Machine Board.

Module Gic.

Definition gic_distributor_registers : layout := [
  ("DCTLR", 1); ("DTYPER", 1); ("DIIDR", 1); ("_reserved0", 29);
  ("DIGROUPR", 32); ("DISENABLER", 32); ("DICENABLER", 32); ("DISPENDR", 32);
  ("DICPENDR", 32); ("DICDABR", 32); ("_reserved1", 32); ("DIPRIORITY", 255);
  ("_reserved2", 1); ("DITARGETSRO", 8); ("DITARGETSR", 246); ("_reserved3", 1);
  ("DICFGR", 64)]%string.

Definition gic_cpu_interface_registers : layout := [
  ("CCTLR", 1); ("CCPMR", 1); ("CBPR", 1); ("CIAR", 1); ("CEOIR", 1);
  ("CRPR", 1); ("CHPPIR", 1); ("CABPR", 1); ("CAIAR", 1); ("CAEOIR", 1);
  ("CAHPPIR", 1)]%string.

Definition GIC_IFACE_OFFSET : Z := 0x100.
Definition GIC_DISTRIBUTOR_OFFSET : Z := 0x1000.
Definition DCTRL_ENABLE : Z := 1.
Definition CCTRL_ENABLE : Z := 1.
Definition CIAR_ID_MASK : Z := 0x3FF.
Definition CEOIR_ID_MASK : Z := 0x3FF.

Abbreviation dreg := (fun b f => field b gic_distributor_registers f).
Abbreviation ireg := (fun b f => field b gic_cpu_interface_registers f).

Section Driver.
Context {D : Type} {B : Bus D} (pre : M D unit).

(** The inline assembly of cpu_a9.h: [mrc p15, #4, r, c15, c0, #0]. *)
Definition cpu_get_periphbase : M D Z := ret (u32 bus_periphbase).

(** [cpsie if] *)
Definition cpu_enable_interrupts : M D unit :=
  fun w => Done (tt, World (dev w) (trace w) (st w) true).

Definition GIC_DIST_BASE : M D Z :=
  let! p := cpu_get_periphbase in ret (u32 (p + GIC_DISTRIBUTOR_OFFSET)).
Definition GIC_IFACE_BASE : M D Z :=
  let! p := cpu_get_periphbase in ret (u32 (p + GIC_IFACE_OFFSET)).

Definition gic_init : M D unit :=
  let! ifb := GIC_IFACE_BASE in
  modify_st (fun s => set_gic_regs (gic_dregs s) ifb s) ;;;
  let! db := GIC_DIST_BASE in
  modify_st (fun s => set_gic_regs db (gic_ifregs s) s) ;;;
  let! s := get_st in
  reg_write pre (ireg (gic_ifregs s) "CCPMR") 0xFFFF ;;;
  reg_write pre (ireg (gic_ifregs s) "CCTLR") CCTRL_ENABLE ;;;
  (* a local [gic_dregs] shadows the static one from here *)
  let! local_dregs := GIC_DIST_BASE in
  reg_write pre (dreg local_dregs "DCTLR") DCTRL_ENABLE.

Definition gic_enable_interrupt (number : Z) : M D unit :=
  let reg := u8 (number / 32) in
  let bit := u8 (number mod 32) in
  let! s := get_st in
  let! a := of_option (elem (gic_dregs s) gic_distributor_registers "DISENABLER" reg) in
  let! reg_val := reg_read pre a in
  let reg_val := Z.lor reg_val (u32 (Z.shiftl 1 bit)) in
  reg_write pre a reg_val ;;;
  let reg := u8 (number / 4) in
  let bit := u8 ((number mod 4) * 8) in
  let! a := of_option (elem (gic_dregs s) gic_distributor_registers "DITARGETSR" reg) in
  let! reg_val := reg_read pre a in
  let reg_val := Z.lor reg_val (u32 (Z.shiftl 1 bit)) in
  reg_write pre a reg_val.

Definition gic_acknowledge_interrupt : M D Z :=
  let! s := get_st in
  let! v := reg_read pre (ireg (gic_ifregs s) "CIAR") in
  ret (u16 (Z.land v CIAR_ID_MASK)).

Definition gic_end_interrupt (number : Z) : M D unit :=
  let! s := get_st in
  reg_write pre (ireg (gic_ifregs s) "CEOIR") (Z.land number CEOIR_ID_MASK).

End Driver.

(** ** Properties *)

Section Spec.
Context {D : Type} {B : Bus D} (pre : M D unit) `{!Quiet pre} (P : D -> Prop) `{!Stable P}.
Implicit Types w : world D.

Lemma elem_in base l f i a : elem base l f i = Some a ->
  0 <= i < words_of l f /\ a = field base l f + 4 * i.
Proof. unfold elem. intros H. case_bools; cbn in H; simplify_eq; lia. Qed.

Lemma disenabler_elem base n : 0 <= n < 1024 ->
  elem base gic_distributor_registers "DISENABLER" (u8 (n / 32)) =
    Some (base + 0x100 + 4 * (n / 32)).
Proof.
  intros Hn. unfold elem, field. rewrite u8_small by (split; [apply Z.div_pos|
    apply Z.div_lt_upper_bound]; lia).
  change (words_of _ _) with 32. change (offset_of _ _) with 0x100.
  assert (0 <= n / 32 < 32) by (split; [apply Z.div_pos|apply Z.div_lt_upper_bound]; lia).
  case_bools; try lia. reflexivity.
Qed.

Lemma ditargetsr_elem base n : 0 <= n < 1024 ->
  elem base gic_distributor_registers "DITARGETSR" (u8 (n / 4)) =
    if n <? 984 then Some (base + 0x820 + 4 * (n / 4)) else None.
Proof.
  intros Hn. unfold elem, field. rewrite u8_small by (split; [apply Z.div_pos|
    apply Z.div_lt_upper_bound]; lia).
  change (words_of _ _) with 246. change (offset_of _ _) with 0x820.
  pose proof (Z.div_mod n 4 ltac:(lia)). pose proof (Z.mod_pos_bound n 4 ltac:(lia)).
  case_bools; try lia; reflexivity.
Qed.

Lemma u32_bit k : 0 <= k < 32 -> u32 (Z.shiftl 1 k) = 2 ^ k.
Proof.
  intros Hk. rewrite Z.shiftl_mul_pow2, Z.mul_1_l by lia. apply u32_small.
  split; [apply Z.pow_nonneg; lia|]. apply (Z.pow_lt_mono_r 2 k 32); lia.
Qed.

Lemma u32_lor_bit v k : 0 <= v < 2 ^ 32 -> 0 <= k < 32 ->
  u32 (Z.lor v (2 ^ k)) = Z.lor v (2 ^ k).
Proof.
  intros Hv Hk. apply wrap_small. apply lor_range; [lia|exact Hv|].
  split; [apply Z.pow_nonneg; lia|]. apply Z.pow_lt_mono_r; lia.
Qed.

Lemma gic_init_spec w :
  irqs_on w = false -> P (dev w) ->
  let ib := u32 (u32 bus_periphbase + 0x100) in
  let db := u32 (u32 bus_periphbase + 0x1000) in
  wp (gic_init pre) (fun _ w' =>
      extends P (with_st (set_gic_regs db ib (st w)) w) w'
        [Wr (ireg ib "CCPMR") 0xFFFF; Wr (ireg ib "CCTLR") 1; Wr (dreg db "DCTLR") 1]) w.
Proof.
  intros Hi HP ib db. unfold gic_init, GIC_IFACE_BASE, GIC_DIST_BASE, cpu_get_periphbase.
  wp_run P. extends_solve.
Qed.

Lemma gic_enable_interrupt_spec w n :
  irqs_on w = false -> P (dev w) -> 0 <= n < 984 ->
  wp (gic_enable_interrupt pre n) (fun _ w' => exists v1 v2,
      let a1 := gic_dregs (st w) + 0x100 + 4 * (n / 32) in
      let a2 := gic_dregs (st w) + 0x820 + 4 * (n / 4) in
      extends P w w'
        [Rd a1 v1; Wr a1 (Z.lor v1 (2 ^ (n mod 32)));
         Rd a2 v2; Wr a2 (Z.lor v2 (2 ^ (8 * (n mod 4))))]) w.
Proof.
  intros Hi HP Hn. unfold gic_enable_interrupt.
  pose proof (Z.mod_pos_bound n 32 ltac:(lia)). pose proof (Z.mod_pos_bound n 4 ltac:(lia)).
  rewrite (u8_small (n mod 32)), (u8_small (n mod 4 * 8)), !u32_bit by lia.
  wp_step P. wp_step P. wp_step P.
  apply (wp_of_option _ _ _ _ (disenabler_elem _ n ltac:(lia))). wp_run P.
  eapply wp_of_option; [rewrite ditargetsr_elem by lia; case_bools; [reflexivity|lia]|].
  wp_run P. exists v, v0. cbn zeta.
  rewrite !u32_lor_bit in * by lia. rewrite (Z.mul_comm (n mod 4) 8) in *. extends_solve.
Qed.

End Spec.

(** ** Theorems *)

(** The offsets the comments of gic.h give for the fields after the reserved
    words of the distributor block. *)
Definition documented_offsets : layout := [
  ("DCTLR", 0x0); ("DTYPER", 0x4); ("DIIDR", 0x8); ("DIGROUPR", 0x80);
  ("DISENABLER", 0x100); ("DICENABLER", 0x180); ("DISPENDR", 0x200);
  ("DICPENDR", 0x280); ("DICDABR", 0x300); ("_reserved1", 0x380); ("DIPRIORITY", 0x400);
  ("_reserved2", 0x7FC); ("DITARGETSRO", 0x800); ("DITARGETSR", 0x820)]%string.

(** The packed distributor struct puts every register up to [DITARGETSR] at its
    documented offset, but [DITARGETSR] is one word short, so [_reserved3] and
    [DICFGR] come 4 bytes before the 0xBFC and 0xC00 of the comments. *)
Theorem distributor_layout :
  Forall (fun fo => offset_of gic_distributor_registers (fst fo) = snd fo) documented_offsets /\
  offset_of gic_distributor_registers "_reserved3" = 0xBFC - 4 /\
  offset_of gic_distributor_registers "DICFGR" = 0xC00 - 4.
Proof. split; [repeat constructor|split; reflexivity]. Qed.

(** The interrupt whose target byte, at distributor offset 0x800 + id in the GIC
    architecture, holds bit [k] of the word at address [a]. *)
Definition target_of (dist a k : Z) : Z := a + k / 8 - (dist + 0x800).

Section Theorems.
Context {D : Type} {B : Bus D} (pre : M D unit) `{!Quiet pre} (P : D -> Prop) `{!Stable P}.
Implicit Types w : world D.

(** [gic_init] points the driver at the two register blocks and switches on the
    CPU interface (all priorities first) and then the distributor. *)
Theorem gic_init_programs w :
  irqs_on w = false -> P (dev w) ->
  let ib := u32 (u32 bus_periphbase + 0x100) in
  let db := u32 (u32 bus_periphbase + 0x1000) in
  wp (gic_init pre) (fun _ w' =>
      gic_dregs (st w') = db /\ gic_ifregs (st w') = ib /\
      extends P (with_st (set_gic_regs db ib (st w)) w) w'
        [Wr (ireg ib "CCPMR") 0xFFFF; Wr (ireg ib "CCTLR") 1; Wr (dreg db "DCTLR") 1]) w.
Proof.
  intros Hi HP ib db. eapply wp_mono; [exact (gic_init_spec pre P w Hi HP)|].
  intros u w' Hx. rewrite (ext_st _ _ _ _ Hx). auto.
Qed.

(** Enabling interrupt [n] reads its set-enable word and writes it back with
    exactly bit [n mod 32] added, then does the same with one bit of the target
    word [DITARGETSR[n / 4]]; that bit is in the target byte of interrupt
    [n + 32], not of [n], because the array starts at id 32. *)
Theorem gic_enable_interrupt_sets w n :
  irqs_on w = false -> P (dev w) -> 0 <= n < 984 ->
  wp (gic_enable_interrupt pre n) (fun _ w' => exists v1 v2 v1' v2' a1 a2,
      extends P w w' [Rd a1 v1; Wr a1 v1'; Rd a2 v2; Wr a2 v2'] /\
      elem (gic_dregs (st w)) gic_distributor_registers "DISENABLER" (n / 32) = Some a1 /\
      elem (gic_dregs (st w)) gic_distributor_registers "DITARGETSR" (n / 4) = Some a2 /\
      (forall k, 0 <= k -> Z.testbit v1' k = (k =? n mod 32) || Z.testbit v1 k) /\
      (forall k, 0 <= k -> Z.testbit v2' k = (k =? 8 * (n mod 4)) || Z.testbit v2 k) /\
      target_of (gic_dregs (st w)) a2 (8 * (n mod 4)) = n + 32) w.
Proof.
  intros Hi HP Hn. eapply wp_mono; [exact (gic_enable_interrupt_spec pre P w n Hi HP Hn)|].
  intros u w' (v1 & v2 & Hx). cbn zeta in Hx. eexists v1, v2, _, _, _, _.
  pose proof (Z.mod_pos_bound n 32 ltac:(lia)). pose proof (Z.mod_pos_bound n 4 ltac:(lia)) as H4.
  pose proof (Z.div_mod n 4 ltac:(lia)).
  assert (0 <= n / 32 < 256 /\ 0 <= n / 4 < 256) as [Hq1 Hq2].
  { split; split; first [apply Z.div_pos; lia | apply Z.div_lt_upper_bound; lia]. }
  pose proof (disenabler_elem (gic_dregs (st w)) n ltac:(lia)) as E1. rewrite u8_small in E1 by assumption.
  pose proof (ditargetsr_elem (gic_dregs (st w)) n ltac:(lia)) as E2. rewrite u8_small in E2 by assumption.
  rewrite (proj2 (Z.ltb_lt n 984)) in E2 by lia.
  assert (forall v j k, 0 <= j -> 0 <= k -> Z.testbit (Z.lor v (2 ^ j)) k = (k =? j) || Z.testbit v k) as Hbit.
  { intros v j k Hj Hk. rewrite Z.lor_spec, Z.pow2_bits_eqb by lia. rewrite (Z.eqb_sym j k). apply orb_comm. }
  split_and!; [exact Hx|exact E1|exact E2|intros; apply Hbit; lia|intros; apply Hbit; lia|].
  unfold target_of. rewrite (Z.mul_comm 8), Z.div_mul by lia. lia.
Qed.

(** Ids 984 to 1023 index past the end of [DITARGETSR]. *)
Theorem gic_enable_interrupt_out_of_bounds w n :
  irqs_on w = false -> P (dev w) -> 984 <= n < 1024 -> gic_enable_interrupt pre n w = Fault.
Proof.
  intros Hi HP Hn. unfold gic_enable_interrupt.
  unfold bind at 1. cbn [get_st]. unfold bind at 1. rewrite disenabler_elem by lia. cbn [of_option ret].
  destruct (wp_done (reg_read pre (gic_dregs (st w) + 256 + 4 * (n / 32)))
    (fun _ w' => irqs_on w' = false /\ P (dev w')) w) as (v & w1 & E & H1 & H2).
  { apply (wp_reg_read pre P); auto. intros v w' Hx _. split; world_solve. }
  unfold bind at 1. rewrite E. unfold bind at 1.
  match goal with |- context [reg_write pre ?a ?v] =>
    destruct (wp_done (reg_write pre a v) (fun _ _ => True) w1) as (u & w2 & E2 & _) end.
  { apply (wp_reg_write pre P); auto. }
  rewrite E2. unfold bind. rewrite ditargetsr_elem by lia.
  destruct (Z.ltb_spec n 984); [lia|]. reflexivity.
Qed.

End Theorems.

Lemma gic_init_programs_witness :
  wp (gic_init (ret tt)) (fun _ w' => gic_ifregs (st w') = 0x1E000100) (Board.start 5 []).
Proof.
  eapply wp_mono; [apply (gic_init_programs (ret tt) Board.fifo_ok (Board.start 5 []));
    [reflexivity|vm_compute; split; discriminate]|].
  intros u w' (_ & H & _). exact H.
Defined.

Lemma gic_enable_interrupt_sets_witness :
  wp (gic_enable_interrupt (ret tt) 37) (fun _ w' => exists a2,
    target_of 0 a2 (8 * (37 mod 4)) = 69) (Board.start 5 []).
Proof.
  eapply wp_mono; [apply (gic_enable_interrupt_sets (ret tt) Board.fifo_ok (Board.start 5 []) 37);
    [reflexivity|vm_compute; split; discriminate|lia]|].
  intros u w' (v1 & v2 & v1' & v2' & a1 & a2 & _ & _ & _ & _ & _ & H). exists a2. exact H.
Defined.

Lemma gic_enable_interrupt_out_of_bounds_witness :
  gic_enable_interrupt (ret tt) 1000 (Board.start 5 []) = Fault.
Proof.
  apply (gic_enable_interrupt_out_of_bounds (ret tt) Board.fifo_ok);
    [reflexivity|vm_compute; split; discriminate|lia].
Defined.

End Gic.
