(* ===== verification/Irq.v ===== *)
(** * Irq: interrupt dispatch (irq.c, irq.h)

    [callbacks] maps the 1024 interrupt ids to handlers; [irq_register_isr]
    fills it, [irq_handler] is the IRQ exception entry.  The handlers are
    reached through function pointers, so [irq_handler] is proved against the
    interface [IsrTable] below, which System.v discharges for the handlers the
    program registers. *)

From stdpp Require Import base list strings gmap.
From S2P Require Import Prelude Machine Board Gic.
Import Gic.

Module Irq.

Inductive irq_error := IRQ_OK | IRQ_INVALID_IRQ_ID | IRQ_ALREADY_REGISTERED.

#[export] Instance irq_error_eq_dec : EqDecision irq_error.
Proof. solve_decision. Defined.

Section Driver.
Context {D : Type} {B : Bus D}.

(** [callbacks[i]], undefined outside the array. *)
Definition read_callbacks (i : Z) : M D (option isr_ptr) :=
  let! s := get_st in
  if 0 <=? i then of_option (callbacks s !! Z.to_nat i) else fault.

Definition write_callbacks (i : Z) (cb : option isr_ptr) : M D unit :=
  let! s := get_st in
  if (0 <=? i) && (i <? Z.of_nat (length (callbacks s)))
  then modify_st (fun s => set_callbacks (<[Z.to_nat i := cb]> (callbacks s)) s)
  else fault.

Definition irq_register_isr (irq_number : Z) (callback : option isr_ptr) : M D irq_error :=
  if MAX_ISR <? irq_number then ret IRQ_INVALID_IRQ_ID else
  let! c := read_callbacks irq_number in
  match c with
  | Some _ => ret IRQ_ALREADY_REGISTERED
  | None => write_callbacks irq_number callback ;;; ret IRQ_OK
  end.

Definition callback (number : Z) : M D (option isr_ptr) :=
  if MAX_ISR <? number then ret None else read_callbacks number.

Context (pre : M D unit) (isr_body : isr_ptr -> M D unit).

Definition irq_handler : M D unit :=
  let! irq := gic_acknowledge_interrupt pre in
  let! isr := callback irq in
  (match isr with Some p => isr_body p | None => ret tt end) ;;;
  gic_end_interrupt pre irq.

End Driver.

(** ** The registry *)

(** The table always has its C size. *)
Definition table_wf (s : statics) : Prop := length (callbacks s) = Z.to_nat ISR_COUNT.

(** What the table means: a finite map from interrupt ids to handlers. *)
Definition registry (s : statics) (i : Z) : option isr_ptr :=
  if 0 <=? i then mjoin (callbacks s !! Z.to_nat i) else None.

(** Write-once registration on the abstract map. *)
Definition spec_register (m : Z -> option isr_ptr) (i : Z) (cb : option isr_ptr)
  : irq_error * (Z -> option isr_ptr) :=
  if MAX_ISR <? i then (IRQ_INVALID_IRQ_ID, m) else
  match m i with
  | Some _ => (IRQ_ALREADY_REGISTERED, m)
  | None => (IRQ_OK, fun j => if j =? i then cb else m j)
  end.

Section Spec.
Context {D : Type} {B : Bus D}.
Implicit Types (w : world D) (s : statics).

Lemma table_lookup s i : table_wf s -> 0 <= i <= MAX_ISR ->
  callbacks s !! Z.to_nat i = Some (registry s i).
Proof.
  intros Hw Hi. unfold registry, MAX_ISR, ISR_COUNT in *. case_bools; [|lia].
  destruct (lookup_lt_is_Some_2 (callbacks s) (Z.to_nat i)) as [c Hc].
  - unfold table_wf, ISR_COUNT in Hw. lia.
  - rewrite Hc. reflexivity.
Qed.

Lemma wp_read_callbacks i (Q : option isr_ptr -> world D -> Prop) w :
  table_wf (st w) -> 0 <= i <= MAX_ISR -> Q (registry (st w) i) w -> wp (read_callbacks i) Q w.
Proof.
  intros Hw Hi HQ. unfold read_callbacks. apply wp_bind, wp_get_st.
  case_bools; [|lia]. eapply wp_of_option; [|exact HQ]. apply table_lookup; auto.
Qed.

Lemma registry_insert s i cb j : table_wf s -> 0 <= i <= MAX_ISR ->
  registry (set_callbacks (<[Z.to_nat i := cb]> (callbacks s)) s) j =
    if j =? i then cb else registry s j.
Proof.
  intros Hw Hi. unfold registry, table_wf, MAX_ISR, ISR_COUNT in *. cbn [callbacks set_callbacks].
  case_bools; subst; try lia; try reflexivity.
  - rewrite list_lookup_insert_eq by lia. reflexivity.
  - rewrite list_lookup_insert_ne by lia. reflexivity.
Qed.

(** The registration as a relation between the static states. *)
Lemma wp_irq_register_isr i cb w :
  table_wf (st w) -> 0 <= i ->
  wp (irq_register_isr i cb) (fun r w' => exists s',
      w' = with_st s' w /\ table_wf s' /\
      (exists c, s' = set_callbacks c (st w)) /\
      r = fst (spec_register (registry (st w)) i cb) /\
      forall j, registry s' j = snd (spec_register (registry (st w)) i cb) j) w.
Proof.
  intros Hw Hi. unfold irq_register_isr, spec_register.
  assert (forall w : world D, exists s', w = with_st s' w /\ s' = st w) as Hid.
  { intros [d t s q]. exists s. split; reflexivity. }
  assert (set_callbacks (callbacks (st w)) (st w) = st w) as Hset by (destruct (st w); reflexivity).
  destruct (Z.ltb_spec MAX_ISR i).
  - apply wp_ret. destruct (Hid w) as (s' & Hs1 & ->). exists (st w). repeat split; eauto.
  - apply wp_bind, wp_read_callbacks; [auto|lia|].
    destruct (registry (st w) i) as [c|] eqn:Er.
    + apply wp_ret. destruct (Hid w) as (s' & Hs1 & ->). exists (st w). repeat split; eauto.
    + apply wp_bind. unfold write_callbacks. apply wp_bind, wp_get_st.
      assert ((0 <=? i) && (i <? Z.of_nat (length (callbacks (st w)))) = true) as ->.
      { unfold table_wf, MAX_ISR, ISR_COUNT in *. case_bools; lia || reflexivity. }
      apply wp_modify_st, wp_ret.
      exists (set_callbacks (<[Z.to_nat i := cb]> (callbacks (st w))) (st w)).
      repeat split; eauto.
      * unfold table_wf in *. cbn. rewrite length_insert. exact Hw.
      * intros j. apply registry_insert; auto; lia.
Qed.

End Spec.

(** ** The exception entry *)

(** What a handler promises to [irq_handler]: started with interrupts masked it
    returns, leaves the interrupt controller's pointers and the callback table
    alone, and makes the accesses [isr_trace] allows it. *)
Class IsrTable {D : Type} {B : Bus D} (P : D -> Prop) (ok : statics -> Prop)
    (isr_body : isr_ptr -> M D unit) := {
  isr_effect : isr_ptr -> statics -> list mmio -> statics -> Prop;
  isr_frame : forall p s es s', isr_effect p s es s' -> ok s ->
    ok s' /\ gic_ifregs s' = gic_ifregs s /\ callbacks s' = callbacks s;
  isr_returns : forall p w, irqs_on w = false -> P (dev w) -> ok (st w) ->
    wp (isr_body p) (fun _ w' => exists es s',
      isr_effect p (st w) es s' /\ extends P (with_st s' w) w' es) w;
}.

Section Handler.
Context {D : Type} {B : Bus D} (pre : M D unit) `{!Quiet pre} (P : D -> Prop) `{!Stable P}.
Context (ok : statics -> Prop) (isr_body : isr_ptr -> M D unit) {T : IsrTable P ok isr_body}.
Implicit Types w : world D.

(** The effect of dispatching interrupt [irq]: the registered handler's, or
    nothing. *)
Definition dispatch_effect (irq : Z) (s : statics) (es : list mmio) (s' : statics) : Prop :=
  match registry s irq with
  | Some p => isr_effect p s es s'
  | None => es = [] /\ s' = s
  end.

Lemma land_id_range v : 0 <= Z.land v 0x3FF < 1024.
Proof. change 0x3FF with (Z.ones 10). rewrite Z.land_ones by lia. apply Z.mod_pos_bound. lia. Qed.

Lemma wp_irq_handler w :
  irqs_on w = false -> P (dev w) -> ok (st w) -> table_wf (st w) ->
  wp (irq_handler pre isr_body) (fun _ w' => exists v es s',
      let irq := Z.land v CIAR_ID_MASK in
      dispatch_effect irq (st w) es s' /\
      extends P (with_st s' w) w'
        ([Rd (ireg (gic_ifregs (st w)) "CIAR") v] ++ es ++
         [Wr (ireg (gic_ifregs (st w)) "CEOIR") irq])) w.
Proof.
  intros Hi HP Hok Hw. unfold irq_handler, gic_acknowledge_interrupt. wp_run P.
  pose proof (land_id_range v) as Hr.
  rewrite (u16_small (Z.land v CIAR_ID_MASK)) by (unfold CIAR_ID_MASK; lia).
  unfold callback, CIAR_ID_MASK in *.
  destruct (Z.ltb_spec MAX_ISR (Z.land v 1023)); [unfold MAX_ISR, ISR_COUNT in *; lia|].
  pose proof (ext_st _ _ _ _ Hx) as Hst.
  apply wp_read_callbacks; [rewrite Hst; exact Hw|lia|]. rewrite Hst.
  assert (forall (s' : statics) w1 es, gic_ifregs s' = gic_ifregs (st w) ->
    dispatch_effect (Z.land v 1023) (st w) es s' -> extends P (with_st s' w0) w1 es ->
    wp (gic_end_interrupt pre (Z.land v 1023)) (fun _ w' => exists v es s',
      dispatch_effect (Z.land v 1023) (st w) es s' /\
      extends P (with_st s' w) w'
        ([Rd (ireg (gic_ifregs (st w)) "CIAR") v] ++ es ++
         [Wr (ireg (gic_ifregs (st w)) "CEOIR") (Z.land v 1023)])) w1) as Hend.
  { intros s' w1 es Hg He Hx1. unfold gic_end_interrupt.
    pose proof (ext_irqs _ _ _ _ Hx). pose proof (ext_irqs _ _ _ _ Hx1) as Hq. cbn in Hq.
    pose proof (ext_st _ _ _ _ Hx1) as Hs. cbn in Hs.
    wp_run P. exists v, es, s'. split; [exact He|].
    assert (Z.land (Z.land v 1023) CEOIR_ID_MASK = Z.land v 1023) as Hm.
    { unfold CEOIR_ID_MASK. rewrite <- Z.land_assoc. reflexivity. }
    rewrite Hm, Hs, Hg, u32_small in Hx0 by lia.
    eapply extends_trans; [|eapply extends_trans; [exact Hx1|exact Hx0]].
    destruct Hx as [T1 S1 I1 D1]. constructor; cbn; auto. }
  apply wp_bind. destruct (registry (st w) (Z.land v 1023)) as [p|] eqn:Er.
  - eapply wp_mono; [apply (isr_returns (ok := ok)); [world_solve|world_solve|congruence]|].
    intros _ w1 (es & s' & He & Hx1). rewrite Hst in He.
    destruct (isr_frame p (st w) es s' He Hok) as (_ & Hg & _).
    apply (Hend s' w1 es); auto. unfold dispatch_effect. rewrite Er. exact He.
  - apply wp_ret, (Hend (st w) w0 []); auto.
    + unfold dispatch_effect. rewrite Er. auto.
    + constructor; cbn; [symmetry; apply app_nil_r|congruence|reflexivity|world_solve].
Qed.

End Handler.

(** ** Theorems *)

Section Theorems.
Context {D : Type} {B : Bus D}.
Implicit Types w : world D.

(** C6: Registration refines write-once insertion into a map from ids to handlers:
    ids above 1023 are refused, a taken id is refused, and otherwise exactly that
    id is bound; no other variable changes and the array is never overrun. *)
Theorem irq_register_refines i cb w :
  table_wf (st w) -> 0 <= i ->
  exists r s', irq_register_isr i cb w = Done (r, with_st s' w) /\
    table_wf s' /\ set_callbacks (callbacks (st w)) s' = st w /\
    r = fst (spec_register (registry (st w)) i cb) /\
    forall j, registry s' j = snd (spec_register (registry (st w)) i cb) j.
Proof.
  intros Hw Hi.
  destruct (wp_done _ _ _ (wp_irq_register_isr i cb w Hw Hi)) as
    (r & w' & E & s' & -> & Hw' & (c & Hc) & Hr & Hreg).
  exists r, s'. split_and!; auto. rewrite Hc. destruct (st w). reflexivity.
Qed.

Context (pre : M D unit) `{!Quiet pre} (P : D -> Prop) `{!Stable P}.
Context (ok : statics -> Prop) (isr_body : isr_ptr -> M D unit) {T : IsrTable P ok isr_body}.

(** C5: The IRQ exception: the id is acknowledged first, then exactly the handler
    registered for it runs (or none), and last the same id is written to the
    end-of-interrupt register; the handler table is left as it was. *)
Theorem irq_handler_dispatches w :
  irqs_on w = false -> P (dev w) -> ok (st w) -> table_wf (st w) ->
  wp (irq_handler pre isr_body) (fun _ w' => exists v es,
      let irq := Z.land v CIAR_ID_MASK in
      0 <= irq <= MAX_ISR /\
      trace w' = trace w ++ [Rd (ireg (gic_ifregs (st w)) "CIAR") v] ++ es ++
                            [Wr (ireg (gic_ifregs (st w)) "CEOIR") irq] /\
      dispatch_effect P ok isr_body irq (st w) es (st w') /\
      callbacks (st w') = callbacks (st w)) w.
Proof.
  intros Hi HP Hok Hw. eapply wp_mono; [exact (wp_irq_handler pre P ok isr_body w Hi HP Hok Hw)|].
  intros u w' (v & es & s' & He & [Tx Sx _ _]). exists v, es. cbn in Tx, Sx. cbv zeta in *.
  pose proof (land_id_range v). rewrite Sx.
  split_and!; auto; try (unfold MAX_ISR, ISR_COUNT, CIAR_ID_MASK in *; lia).
  unfold dispatch_effect in He. destruct (registry _ _) as [p|].
  - exact (proj2 (proj2 (isr_frame p (st w) es s' He Hok))).
  - destruct He as [_ ->]. reflexivity.
Qed.

End Theorems.

Lemma irq_register_refines_witness :
  exists r s', irq_register_isr 37 (Some uart_isr_ptr) (Board.start 5 []) = Done (r, with_st s' (Board.start 5 []))
    /\ r = IRQ_OK /\ registry s' 37 = Some uart_isr_ptr.
Proof.
  destruct (irq_register_refines 37 (Some uart_isr_ptr) (Board.start 5 [])) as (r & s' & E & _ & _ & Hr & Hs);
    [reflexivity|lia|].
  exists r, s'. split_and!; [exact E|exact Hr|exact (Hs 37)].
Defined.

End Irq.
