(* ===== verification/Double.v ===== *)
(** * Double: the C [double] arithmetic the drivers use

    uart_pl011.c and ptimer.c compute in [double]: IEEE-754 binary64 with
    rounding to nearest even, given here by the Standard Library's executable
    specification of floating point (SpecFloat) at precision 53. *)

From stdpp Require Import base numbers.
From Stdlib Require Import SpecFloat.
From S2P Require Import Prelude.

Module Double.

Definition prec : Z := 53.
Definition emax : Z := 1024.
Definition double := spec_float.

(** Conversion of an integer that fits the significand (all are 32-bit). *)
Definition of_int (z : Z) : double := binary_normalize prec emax z 0 false.

Definition div : double -> double -> double := SFdiv prec emax.
Definition mul : double -> double -> double := SFmul prec emax.
Definition add : double -> double -> double := SFadd prec emax.
Definition sub : double -> double -> double := SFsub prec emax.

(** Truncation towards zero of a finite number. *)
Definition trunc (x : double) : option Z :=
  match x with
  | S754_zero _ => Some 0
  | S754_finite s m e =>
      let v := if 0 <=? e then Z.shiftl (Zpos m) e else Z.shiftr (Zpos m) (- e) in
      Some (if s then - v else v)
  | _ => None
  end.

(** Conversion to an unsigned [w]-bit type: undefined when the truncated value
    does not fit. *)
Definition to_uint (w : Z) (x : double) : option Z :=
  match trunc x with
  | Some v => if (0 <=? v) && (v <? 2 ^ w) then Some v else None
  | None => None
  end.

(** [modf]: the integral part, as a double, and the exact remainder. *)
Definition modf (x : double) : option (double * double) :=
  match trunc x with
  | Some v => let i := of_int v in Some (sub x i, i)
  | None => None
  end.

(** The literals: [0.001] and [0.5] rounded to nearest. *)
Definition lit_0_001 : double := div (of_int 1) (of_int 1000).
Definition lit_0_5 : double := div (of_int 1) (of_int 2).

Lemma to_uint_range w x v : to_uint w x = Some v -> 0 <= v < 2 ^ w.
Proof.
  unfold to_uint. destruct (trunc x) as [t|]; [|discriminate].
  intros H. case_bools; cbn in H; simplify_eq; lia.
Qed.

End Double.
