(* ===== verification/Uart.v ===== *)
(** * Uart: the PL011 driver (uart_pl011.c, uart_pl011.h)

    The driver configures the UART, transmits by polling the transmit FIFO,
    receives by polling or from its interrupt handler.  Its theorems are stated
    on the volatile accesses it makes, for every device that obeys [Pl011]. *)

From stdpp Require Import base list strings.
From S2P Require Import Prelude Machine Board Irq Double.
Import Irq.

Module Uart.

Definition uart_registers : layout := [
  ("DR", 1); ("RSRECR", 1); ("_reserved0", 4); ("FR", 1); ("_reserved1", 1);
  ("ILPR", 1); ("IBRD", 1); ("FBRD", 1); ("LCRH", 1); ("CR", 1); ("IFLS", 1);
  ("IMSC", 1); ("RIS", 1); ("MIS", 1); ("ICR", 1)]%string.

Inductive uart_error :=
  | UART_OK | UART_INVALID_ARGUMENT_BAUDRATE | UART_INVALID_ARGUMENT_WORDSIZE
  | UART_INVALID_ARGUMENT_STOP_BITS | UART_RECEIVE_ERROR | UART_NO_DATA.

#[export] Instance uart_error_eq_dec : EqDecision uart_error.
Proof. solve_decision. Defined.

Record uart_config := UartConfig {
  data_bits : Z;
  stop_bits : Z;
  parity : bool;
  baudrate : Z;
}.

Definition UART0_INTERRUPT : Z := 37.
Definition DR_DATA_MASK : Z := 0xFF.
Definition ECR_BE : Z := Z.shiftl 1 2.
Definition FR_BUSY : Z := Z.shiftl 1 3.
Definition FR_RXFE : Z := Z.shiftl 1 4.
Definition FR_TXFF : Z := Z.shiftl 1 5.
Definition RSRECR_ERR_MASK : Z := 0xF.
Definition LCRH_FEN : Z := Z.shiftl 1 4.
Definition LCRH_PEN : Z := Z.shiftl 1 1.
Definition LCRH_EPS : Z := Z.shiftl 1 2.
Definition LCRH_STP2 : Z := Z.shiftl 1 3.
Definition LCRH_SPS : Z := Z.shiftl 1 7.
Definition CR_UARTEN : Z := Z.shiftl 1 0.
Definition LCRH_WLEN_5BITS : Z := Z.shiftl 0 5.
Definition LCRH_WLEN_6BITS : Z := Z.shiftl 1 5.
Definition LCRH_WLEN_7BITS : Z := Z.shiftl 2 5.
Definition LCRH_WLEN_8BITS : Z := Z.shiftl 3 5.
Definition IMSC_RXIM : Z := Z.shiftl 1 4.
Definition IMSC_TXIM : Z := Z.shiftl 1 5.
Definition RX_INTERRUPT : Z := Z.shiftl 1 4.
Definition BE_INTERRUPT : Z := Z.shiftl 1 9.
Definition ICR_ALL_MASK : Z := 0x7FF.

Definition uart0 : Z := 0x10009000.
Definition refclock : Z := 24000000.
Abbreviation ureg := (fun f => field uart0 uart_registers f).

(** [~m] on a 32-bit register value *)
Definition clear (v m : Z) : Z := Z.land v (u32 (Z.lnot m)).

(** The bytes of a string literal, without the terminating NUL. *)
Definition bytes_of (s : string) : list Z :=
  map (fun c => Z.of_N (Ascii.N_of_ascii c)) (String.list_ascii_of_string s).

(** ** Pure parts of uart_configure *)

(** The divisor registers: [IBRD] and [FBRD] for a baud rate. *)
Definition baud_divisor (baud : Z) : option (Z * Z) :=
  let baudrate_divisor := Double.div (Double.of_int refclock) (Double.of_int (u32 (16 * baud))) in
  match Double.modf baudrate_divisor with
  | None => None
  | Some (fractpart, intpart) =>
    match Double.to_uint 16 intpart,
          Double.to_uint 8 (Double.add (Double.mul fractpart (Double.of_int 64)) Double.lit_0_5) with
    | Some i, Some f => Some (i, f)
    | _, _ => None
    end
  end.

(** The line control word built up from the configuration. *)
Definition lcrh_word (config : uart_config) : Z :=
  let lcrh := 0 in
  let lcrh :=
    match data_bits config with
    | 5 => Z.lor lcrh LCRH_WLEN_5BITS
    | 6 => Z.lor lcrh LCRH_WLEN_6BITS
    | 7 => Z.lor lcrh LCRH_WLEN_7BITS
    | 8 => Z.lor lcrh LCRH_WLEN_8BITS
    | _ => lcrh
    end in
  let lcrh :=
    if parity config then
      Z.lor (Z.lor (Z.lor lcrh LCRH_PEN) LCRH_EPS) LCRH_SPS
    else
      clear (clear (clear lcrh LCRH_PEN) LCRH_EPS) LCRH_SPS in
  let lcrh :=
    if stop_bits config =? 1 then clear lcrh LCRH_STP2
    else if stop_bits config =? 2 then Z.lor lcrh LCRH_STP2
    else lcrh in
  Z.lor lcrh LCRH_FEN.

Section Driver.
Context {D : Type} {B : Bus D} (pre : M D unit) (fuel : nat).

Definition uart_init : M D uart_error := ret UART_OK.

Definition uart_configure (config : uart_config) : M D uart_error :=
  if (data_bits config <? 5) || (8 <? data_bits config) then ret UART_INVALID_ARGUMENT_WORDSIZE else
  if (stop_bits config =? 0) || (2 <? stop_bits config) then ret UART_INVALID_ARGUMENT_STOP_BITS else
  if (baudrate config <? 110) || (460800 <? baudrate config) then ret UART_INVALID_ARGUMENT_BAUDRATE else
  let! cr := reg_read pre (ureg "CR") in
  reg_write pre (ureg "CR") (clear cr CR_UARTEN) ;;;
  poll_while pre fuel (ureg "FR") FR_BUSY ;;;
  let! lc := reg_read pre (ureg "LCRH") in
  reg_write pre (ureg "LCRH") (clear lc LCRH_FEN) ;;;
  let! d := of_option (baud_divisor (baudrate config)) in
  reg_write pre (ureg "IBRD") (fst d) ;;;
  reg_write pre (ureg "FBRD") (snd d) ;;;
  reg_write pre (ureg "LCRH") (lcrh_word config) ;;;
  let! imsc := reg_read pre (ureg "IMSC") in
  reg_write pre (ureg "IMSC") (Z.lor imsc IMSC_RXIM) ;;;
  irq_register_isr UART0_INTERRUPT (Some uart_isr_ptr) ;;;
  let! cr := reg_read pre (ureg "CR") in
  reg_write pre (ureg "CR") (Z.lor cr CR_UARTEN) ;;;
  ret UART_OK.

Definition uart_putchar (c : Z) : M D unit :=
  poll_while pre fuel (ureg "FR") FR_TXFF ;;;
  reg_write pre (ureg "DR") c.

(** [data] is the C string, the bytes before its NUL. *)
Fixpoint uart_write (data : list Z) : M D unit :=
  match data with
  | [] => ret tt
  | c :: data => uart_putchar c ;;; uart_write data
  end.

(** The digit loop of [uart_write_uint]: [buf] holds the digits stored so far,
    least significant first; storing a ninth one is out of the bounds of
    [buf[8]].  Ten iterations are enough for any 32-bit number. *)
Fixpoint digits (n : nat) (buf : list Z) (num : Z) : option (list Z) :=
  match n with
  | O => None
  | S n =>
    let remainder := u8 (num mod 10) in
    if Z.of_nat (length buf) <? 8 then
      let buf := buf ++ [u8 (48 + remainder)] in
      let num := num / 10 in
      if num =? 0 then Some buf else digits n buf num
    else None
  end.

Definition uart_write_uint (num : Z) : M D unit :=
  let! buf := of_option (digits 10 [] num) in
  uart_write (rev buf).

Definition uart_getchar : M D (uart_error * option Z) :=
  let! fr := reg_read pre (ureg "FR") in
  if negb (Z.land fr FR_RXFE =? 0) then ret (UART_NO_DATA, None) else
  let! dr := reg_read pre (ureg "DR") in
  let c := u8 (Z.land dr DR_DATA_MASK) in
  let! e := reg_read pre (ureg "RSRECR") in
  if negb (Z.land e RSRECR_ERR_MASK =? 0) then
    let! e := reg_read pre (ureg "RSRECR") in
    reg_write pre (ureg "RSRECR") (Z.land e RSRECR_ERR_MASK) ;;;
    ret (UART_RECEIVE_ERROR, Some c)
  else ret (UART_OK, Some c).

Definition uart_isr : M D unit :=
  let! status := reg_read pre (ureg "MIS") in
  if negb (Z.land status RX_INTERRUPT =? 0) then
    let! dr := reg_read pre (ureg "DR") in
    let c := u8 (Z.land dr DR_DATA_MASK) in
    uart_putchar c ;;;
    if c =? 13 then uart_write [10] else ret tt
  else if negb (Z.land status BE_INTERRUPT =? 0) then
    uart_write (bytes_of "Break error detected!" ++ [10]) ;;;
    reg_write pre (ureg "RSRECR") ECR_BE ;;;
    reg_write pre (ureg "ICR") BE_INTERRUPT
  else ret tt.

End Driver.

(** ** Decimal printing *)

Definition is_digit (c : Z) : Prop := 48 <= c <= 57.

(** The number a list of digits denotes, most significant first. *)
Definition dec_value (ds : list Z) : Z := fold_left (fun a c => 10 * a + (c - 48)) ds 0.

Lemma dec_value_rev ds : dec_value (rev ds) = foldr (fun c a => 10 * a + (c - 48)) 0 ds.
Proof. unfold dec_value. rewrite <- fold_left_rev_right, rev_involutive. reflexivity. Qed.

(** One turn of the digit loop while [buf] has room. *)
Lemma digits_step n buf num : (length buf < 8)%nat ->
  digits (S n) buf num =
    if num / 10 =? 0 then Some (buf ++ [48 + num mod 10])
    else digits n (buf ++ [48 + num mod 10]) (num / 10).
Proof.
  intros Hl. cbn [digits]. pose proof (Z.mod_pos_bound num 10 ltac:(lia)).
  rewrite (u8_small (num mod 10)), u8_small by lia.
  destruct (Z.ltb_spec (Z.of_nat (length buf)) 8); [reflexivity|lia].
Qed.

Lemma digits_fit k : forall n buf num,
  0 <= num < 10 ^ Z.of_nat k -> (length buf + k <= 8)%nat -> (0 < k <= n)%nat ->
  exists ds, digits n buf num = Some (buf ++ ds) /\
    Forall is_digit ds /\ foldr (fun c a => 10 * a + (c - 48)) 0 ds = num /\
    (exists c ds', ds = ds' ++ [c] /\ (ds' <> [] -> c <> 48)).
Proof.
  induction k as [|k IH]; intros n buf num Hn Hl Hk; [lia|].
  destruct n as [|n]; [lia|]. rewrite digits_step by lia.
  pose proof (Z.mod_pos_bound num 10 ltac:(lia)). pose proof (Z.div_mod num 10 ltac:(lia)).
  assert (is_digit (48 + num mod 10)) as Hd by (unfold is_digit; lia).
  destruct (Z.eqb_spec (num / 10) 0) as [Hz|Hz].
  - exists [48 + num mod 10]. repeat split; [constructor; auto|cbn; lia|].
    exists (48 + num mod 10), []. split; [reflexivity|]. congruence.
  - rewrite Nat2Z.inj_succ, Z.pow_succ_r in Hn by lia.
    assert (0 <= num / 10 < 10 ^ Z.of_nat k) as Hn'.
    { split; [apply Z.div_pos; lia|apply Z.div_lt_upper_bound; lia]. }
    destruct k as [|k]; [cbn in Hn'; lia|].
    destruct (IH n (buf ++ [48 + num mod 10]) (num / 10) Hn') as (ds & E & HF & Hv & c & ds' & -> & Hc).
    { rewrite length_app. cbn. lia. } { lia. }
    exists ((48 + num mod 10) :: ds' ++ [c]). rewrite E, <- app_assoc.
    repeat split; [constructor; auto|cbn [foldr]; rewrite Hv; lia|].
    exists c, ((48 + num mod 10) :: ds'). split; [reflexivity|]. intros _.
    destruct ds' as [|x ds']; [|apply Hc; discriminate].
    cbn in Hv. intros ->. apply Hz. rewrite <- Hv. reflexivity.
Qed.

Lemma digits_overflow n : forall buf num,
  (length buf <= 8)%nat -> 10 ^ (8 - Z.of_nat (length buf)) <= num -> digits n buf num = None.
Proof.
  induction n as [|n IH]; intros buf num Hl Hn; [reflexivity|].
  destruct (decide (length buf = 8%nat)) as [E|E].
  - cbn [digits]. rewrite E. reflexivity.
  - rewrite digits_step by lia.
    replace (8 - Z.of_nat (length buf)) with (Z.succ (7 - Z.of_nat (length buf))) in Hn by lia.
    rewrite Z.pow_succ_r in Hn by lia.
    assert (10 ^ (7 - Z.of_nat (length buf)) <= num / 10) as Hd by (apply Z.div_le_lower_bound; lia).
    assert (0 < 10 ^ (7 - Z.of_nat (length buf))) by (apply Z.pow_pos_nonneg; lia).
    destruct (Z.eqb_spec (num / 10) 0); [lia|].
    apply IH; rewrite length_app; cbn; [lia|].
    replace (8 - Z.of_nat (length buf + 1)) with (7 - Z.of_nat (length buf)) by lia. exact Hd.
Qed.

(** ** Line control *)

Definition valid_config (c : uart_config) : Prop :=
  5 <= data_bits c <= 8 /\ 1 <= stop_bits c <= 2 /\ 110 <= baudrate c <= 460800.

Lemma valid_cases c : valid_config c ->
  (data_bits c = 5 \/ data_bits c = 6 \/ data_bits c = 7 \/ data_bits c = 8) /\
  (stop_bits c = 1 \/ stop_bits c = 2).
Proof. unfold valid_config. lia. Qed.

(** ** The device *)

(** What the driver relies on of the PL011: its transmit FIFO drains and its
    shift register empties, each within [pl_bound] polls of the flag register,
    however time passes in between. *)
Class Pl011 {D : Type} {B : Bus D} (P : D -> Prop) := {
  pl_stable :: Stable P;
  pl_bound : nat;
  pl_tx : forall d, P d -> clears_within (ureg "FR") FR_TXFF pl_bound d;
  pl_busy : forall d, P d -> clears_within (ureg "FR") FR_BUSY pl_bound d;
}.

(** The accesses that transmit [cs]: before each data register write the flag
    register is polled until the transmit FIFO has room. *)
Inductive tx_trace : list Z -> list mmio -> Prop :=
| tx_nil : tx_trace [] []
| tx_cons c cs ps es : poll_trace (ureg "FR") FR_TXFF ps -> tx_trace cs es ->
    tx_trace (c :: cs) (ps ++ Wr (ureg "DR") (u32 c) :: es).

(** The bytes handed to the transmitter in a trace. *)
Fixpoint sent (es : list mmio) : list Z :=
  match es with
  | [] => []
  | Wr a v :: es => if a =? ureg "DR" then v :: sent es else sent es
  | Rd _ _ :: es => sent es
  end.

Lemma sent_app es1 es2 : sent (es1 ++ es2) = sent es1 ++ sent es2.
Proof. induction es1 as [|[a v|a v] es1 IH]; cbn; auto. destruct (a =? _); cbn; congruence. Qed.

Lemma sent_poll a m es : poll_trace a m es -> sent es = [].
Proof. induction 1; auto. Qed.

Definition bytes (cs : list Z) : Prop := Forall (fun c => 0 <= c < 256) cs.

Lemma sent_tx cs es : tx_trace cs es -> bytes cs -> sent es = cs.
Proof.
  induction 1 as [|c cs ps es Hp Ht IH]; intros Hb; [reflexivity|].
  inversion Hb as [|? ? Hc Hb']; subst.
  rewrite sent_app, (sent_poll _ _ _ Hp). cbn [sent app].
  rewrite Z.eqb_refl, IH, u32_small by (auto; lia). reflexivity.
Qed.

Lemma tx_trace_app cs1 cs2 es1 es2 :
  tx_trace cs1 es1 -> tx_trace cs2 es2 -> tx_trace (cs1 ++ cs2) (es1 ++ es2).
Proof.
  induction 1; intros; cbn; auto.
  rewrite <- app_assoc. cbn. constructor; auto.
Qed.

(** What the handler transmits for a received byte. *)
Definition echo (c : Z) : list Z := if c =? 13 then [c; 10] else [c].

Definition break_message : list Z := bytes_of "Break error detected!" ++ [10].

(** The accesses of one run of [uart_isr]. *)
Inductive isr_trace : list mmio -> Prop :=
| isr_rx status dr es :
    Z.land status RX_INTERRUPT <> 0 -> tx_trace (echo (Z.land dr DR_DATA_MASK)) es ->
    isr_trace (Rd (ureg "MIS") status :: Rd (ureg "DR") dr :: es)
| isr_break status es :
    Z.land status RX_INTERRUPT = 0 -> Z.land status BE_INTERRUPT <> 0 ->
    tx_trace break_message es ->
    isr_trace (Rd (ureg "MIS") status :: es ++
      [Wr (ureg "RSRECR") ECR_BE; Wr (ureg "ICR") BE_INTERRUPT])
| isr_none status :
    Z.land status RX_INTERRUPT = 0 -> Z.land status BE_INTERRUPT = 0 ->
    isr_trace [Rd (ureg "MIS") status].

Lemma land_byte v : 0 <= Z.land v DR_DATA_MASK < 256.
Proof.
  change DR_DATA_MASK with (Z.ones 8). rewrite Z.land_ones by lia. apply Z.mod_pos_bound. lia.
Qed.

(** Range bookkeeping of the register updates. *)
Lemma u32_clear v m : 0 <= v < 2 ^ 32 -> u32 (clear v m) = clear v m.
Proof. intros H. apply wrap_small. apply land_range; [lia|exact H]. Qed.

Lemma u32_lor v m : 0 <= v < 2 ^ 32 -> 0 <= m < 2 ^ 32 -> u32 (Z.lor v m) = Z.lor v m.
Proof. intros H Hm. apply wrap_small. apply lor_range; [lia|exact H|exact Hm]. Qed.

Lemma lcrh_word_cases c : valid_config c ->
  exists x s, lcrh_word c = Z.lor (Z.lor (Z.shiftl x 5) (if parity c then 0x86 else 0)) (Z.lor s 0x10)
    /\ x = data_bits c - 5 /\ s = (if stop_bits c =? 2 then 8 else 0).
Proof.
  intros Hc. destruct (valid_cases c Hc) as [Hd Hs]. eexists _, _. split_and!; [|reflexivity|reflexivity].
  unfold lcrh_word. destruct (parity c);
    destruct Hd as [-> | [-> | [-> | ->]]], Hs as [-> | ->]; reflexivity.
Qed.

Lemma lcrh_word_range c : valid_config c -> 0 <= lcrh_word c < 256.
Proof.
  intros Hc. destruct (lcrh_word_cases c Hc) as (x & s & -> & -> & ->).
  destruct (valid_cases c Hc) as [Hd Hs].
  destruct (parity c), Hd as [-> | [-> | [-> | ->]]], Hs as [-> | ->]; vm_compute; split; congruence.
Qed.

Lemma baud_divisor_range b i f : baud_divisor b = Some (i, f) -> 0 <= i < 2 ^ 16 /\ 0 <= f < 2 ^ 8.
Proof.
  unfold baud_divisor. intros Hb. destruct (Double.modf _) as [[fr ip]|]; [|discriminate].
  destruct (Double.to_uint 16 ip) as [i'|] eqn:E1; [|discriminate].
  destruct (Double.to_uint 8 _) as [f'|] eqn:E2; [|discriminate]. simplify_eq.
  split; eapply Double.to_uint_range; eassumption.
Qed.

(** The answer of the argument checks. *)
Definition config_error (c : uart_config) : option uart_error :=
  if decide (5 <= data_bits c <= 8) then
    if decide (1 <= stop_bits c <= 2) then
      if decide (110 <= baudrate c <= 460800) then None
      else Some UART_INVALID_ARGUMENT_BAUDRATE
    else Some UART_INVALID_ARGUMENT_STOP_BITS
  else Some UART_INVALID_ARGUMENT_WORDSIZE.

Lemma config_error_valid c : config_error c = None <-> valid_config c.
Proof. unfold config_error, valid_config. repeat case_decide; split; intros; try discriminate; tauto. Qed.

Lemma bytes_digits ds : Forall is_digit ds -> bytes ds.
Proof. intros H. eapply Forall_impl; [exact H|]. unfold is_digit. lia. Qed.

(** The accesses of a successful [uart_configure]. *)
Inductive configure_trace (c : uart_config) (i f : Z) : list mmio -> Prop :=
| configure_steps cr1 polls lc imsc cr2 :
    poll_trace (ureg "FR") FR_BUSY polls ->
    configure_trace c i f
      ([Rd (ureg "CR") cr1; Wr (ureg "CR") (clear cr1 CR_UARTEN)] ++ polls ++
       [Rd (ureg "LCRH") lc; Wr (ureg "LCRH") (clear lc LCRH_FEN);
        Wr (ureg "IBRD") i; Wr (ureg "FBRD") f; Wr (ureg "LCRH") (lcrh_word c);
        Rd (ureg "IMSC") imsc; Wr (ureg "IMSC") (Z.lor imsc IMSC_RXIM);
        Rd (ureg "CR") cr2; Wr (ureg "CR") (Z.lor cr2 CR_UARTEN)]).

Lemma sent_configure c i f es : configure_trace c i f es -> sent es = [].
Proof. destruct 1 as [cr1 polls lc imsc cr2 Hp]. rewrite !sent_app, (sent_poll _ _ _ Hp). reflexivity. Qed.

Lemma poll_trace_last a m es : poll_trace a m es -> exists es' v, es = es' ++ [Rd a v].
Proof. induction 1 as [v _|v es _ _ (es' & v' & ->)]; [by exists [], v|by exists (Rd a v :: es'), v']. Qed.

(** The steps of a guarded run: [accepted] shows that the guard lets it go on. *)
Ltac accepted :=
  match goal with
  | H : ?ok ?w = true |- ?ok ?w = true => exact H
  | H : forall w' : world _, st w' = _ -> ?ok w' = true |- ?ok _ = true => apply H; world_solve
  | H : extends _ _ ?w [Rd _ _], Hok : forall (w' : world _) (v : Z), extends _ _ w' [Rd _ v] -> ?ok w' = true |- ?ok ?w = true =>
      exact (Hok _ _ H)
  | Hok : forall wk wk' es e, extends _ wk wk' [e] -> _ |- ?ok ?w = true =>
      eapply Hok; [eassumption|extends_solve|intros ?; discriminate]
  end.
Ltac guard_run P :=
  repeat first [
    match goal with
    | |- wp (reg_read (guard _ _) _) _ _ => apply wp_guard_read; [accepted|]
    | |- wp (reg_write (guard _ _) _ _) _ _ => apply wp_guard_write; [accepted|]
    end
  | wp_step P ].

Section Spec.
Context {D : Type} {B : Bus D} (pre : M D unit) `{!Quiet pre} (P : D -> Prop) {PL : Pl011 P}.
Context (fuel : nat) (Hfuel : (pl_bound <= fuel)%nat).
Implicit Types w : world D.

Lemma wp_uart_putchar c w (Q : unit -> world D -> Prop) :
  irqs_on w = false -> P (dev w) ->
  (forall w' es, tx_trace [c] es -> extends P w w' es -> Q tt w') ->
  wp (uart_putchar pre fuel c) Q w.
Proof.
  intros Hi HP HQ. unfold uart_putchar. apply wp_bind.
  eapply (wp_poll_while pre P); [exact Hi|exact HP|exact (pl_tx _ HP)|exact Hfuel|].
  intros w1 es Hx Hp. wp_step P.
  apply (HQ w0 (es ++ [Wr (ureg "DR") (u32 c)])); [constructor; auto; constructor|extends_solve].
Qed.

Lemma wp_uart_write data w (Q : unit -> world D -> Prop) :
  irqs_on w = false -> P (dev w) ->
  (forall w' es, tx_trace data es -> extends P w w' es -> Q tt w') ->
  wp (uart_write pre fuel data) Q w.
Proof.
  revert w Q. induction data as [|c data IH]; intros w Q Hi HP HQ; cbn [uart_write].
  - apply wp_ret, (HQ w []); [constructor|]. apply extends_refl. exact HP.
  - apply wp_bind, wp_uart_putchar; auto. intros w1 es1 Ht1 Hx1.
    apply IH; [world_solve|world_solve|]. intros w2 es2 Ht2 Hx2.
    apply (HQ w2 (es1 ++ es2)); [exact (tx_trace_app [c] data _ _ Ht1 Ht2)|extends_solve].
Qed.

Lemma wp_uart_isr w (Q : unit -> world D -> Prop) :
  irqs_on w = false -> P (dev w) ->
  (forall w' es, isr_trace es -> extends P w w' es -> Q tt w') ->
  wp (uart_isr pre fuel) Q w.
Proof.
  intros Hi HP HQ. unfold uart_isr. wp_run P.
  destruct (Z.eqb_spec (Z.land v RX_INTERRUPT) 0) as [Hr|Hr]; cbn [negb];
    [destruct (Z.eqb_spec (Z.land v BE_INTERRUPT) 0) as [Hb|Hb]; cbn [negb]|].
  - wp_run P. apply (HQ w0 _ (isr_none v Hr Hb) Hx).
  - wp_run P. apply wp_uart_write; [world_solve|world_solve|]. intros w1 es Ht Hx1. wp_run P.
    apply (HQ _ _ (isr_break v es Hr Hb Ht)). extends_solve.
  - wp_run P. pose proof (land_byte v0) as Hv1. rewrite u8_small by lia.
    apply wp_uart_putchar; [world_solve|world_solve|]. intros w2 es Ht Hx1.
    destruct (Z.land v0 DR_DATA_MASK =? 13) eqn:Ec.
    + apply wp_uart_write; [world_solve|world_solve|]. intros w3 es2 Ht2 Hx2.
      apply (HQ w3 (Rd (ureg "MIS") v :: Rd (ureg "DR") v0 :: es ++ es2)); [|extends_solve].
      constructor; auto. unfold echo. rewrite Ec. exact (tx_trace_app [_] [_] _ _ Ht Ht2).
    + apply wp_ret, (HQ w2 (Rd (ureg "MIS") v :: Rd (ureg "DR") v0 :: es)); [|extends_solve].
      constructor; auto. unfold echo. rewrite Ec. exact Ht.
Qed.

(** The configuration at a guarded interruption point.  [ok] has to accept the
    states whose last access does not read the control register, the one after
    the first access, and those in which the interrupt has a handler. *)
Lemma wp_configure_guarded ok c i f w (Q : uart_error -> world D -> Prop) :
  irqs_on w = false -> P (dev w) -> table_wf (st w) ->
  valid_config c -> baud_divisor (baudrate c) = Some (i, f) ->
  ok w = true -> (forall w' v, extends P w w' [Rd (ureg "CR") v] -> ok w' = true) ->
  (forall w' es e, extends P w w' (es ++ [e]) -> (forall v, e <> Rd (ureg "CR") v) -> ok w' = true) ->
  (forall w', registry (st w') UART0_INTERRUPT <> None -> ok w' = true) ->
  (forall w' s' es, configure_trace c i f es -> extends P (with_st s' w) w' es ->
      (exists cs, s' = set_callbacks cs (st w)) -> table_wf s' ->
      (forall n, registry s' n =
        snd (spec_register (registry (st w)) UART0_INTERRUPT (Some uart_isr_ptr)) n) ->
      Q UART_OK w') ->
  wp (uart_configure (guard pre ok) fuel c) Q w.
Proof.
  intros Hi HP Hw Hc Hb Hok0 Hok1 Hok2 Hok3 HQ.
  assert (forall wk wk' es e, extends P wk wk' [e] -> extends P w wk es -> (forall v, e <> Rd (ureg "CR") v) -> ok wk' = true) as Hok
    by (intros wk wk' es e Hx Ha; apply (Hok2 wk' es e); exact (extends_trans _ _ _ _ _ _ Ha Hx)).
  pose proof (baud_divisor_range _ _ _ Hb) as [Hri Hrf].
  pose proof (lcrh_word_range c Hc) as Hl.
  unfold uart_configure. pose proof Hc as (Hc1 & Hc2 & Hc3).
  repeat match goal with |- context [if ?b then ret _ else _] =>
    replace b with false by (case_bools; cbn; lia || reflexivity) end.
  guard_run P. apply (wp_guard_poll pre P); [world_solve|world_solve|accepted| |].
  { intros w' es v' Hx'. eapply (Hok2 w' (_ ++ es) (Rd (ureg "FR") v')); [|intros v0; discriminate].
    rewrite <- app_assoc. eapply extends_trans; [|exact Hx']. extends_solve. }
  eapply (wp_poll_while pre P); [world_solve|world_solve|apply pl_busy; world_solve|exact Hfuel|].
  intros w2 polls Hx1 Hp.
  assert (ok w2 = true) as Hw2.
  { destruct (poll_trace_last _ _ _ Hp) as (es & v' & ->). eapply (Hok2 w2 (_ ++ es) (Rd (ureg "FR") v')); [|intros v0; discriminate].
    rewrite <- app_assoc. eapply extends_trans; [|exact Hx1]. extends_solve. }
  guard_run P. eapply wp_of_option; [exact Hb|]. guard_run P.
  assert (st w9 = st w) as Hst by world_solve.
  eapply wp_mono; [apply wp_irq_register_isr; [congruence|unfold UART0_INTERRUPT; lia]|].
  intros r w10 (s' & -> & Hw' & Hcs & _ & Hreg). rewrite Hst in *.
  assert (forall w', st w' = s' -> ok w' = true) as Hhandled.
  { intros w' Es. apply Hok3. rewrite Es, Hreg. unfold spec_register. change (MAX_ISR <? UART0_INTERRUPT) with false.
    destruct (registry (st w) UART0_INTERRUPT) eqn:Er; cbn [snd]; [congruence|rewrite Z.eqb_refl; discriminate]. }
  guard_run P.
  eapply (HQ w11 s'); auto; [exact (configure_steps c i f v polls v0 v1 v2 Hp)|].
  rewrite ?u32_clear, ?u32_lor, ?u32_small in *
    by first [assumption | cbn; lia | vm_compute; split; congruence].
  assert (extends P w w9
    ([Rd (ureg "CR") v; Wr (ureg "CR") (clear v CR_UARTEN)] ++ polls ++
     [Rd (ureg "LCRH") v0; Wr (ureg "LCRH") (clear v0 LCRH_FEN);
      Wr (ureg "IBRD") i; Wr (ureg "FBRD") f; Wr (ureg "LCRH") (lcrh_word c);
      Rd (ureg "IMSC") v1; Wr (ureg "IMSC") (Z.lor v1 IMSC_RXIM)])) as Hall by extends_solve.
  eapply extends_eq; [eapply extends_trans; [exact (extends_with_st P s' _ _ _ Hall)|extends_solve]|].
  rewrite <- !app_assoc. reflexivity.
Qed.

Lemma wp_uart_configure c i f w (Q : uart_error -> world D -> Prop) :
  irqs_on w = false -> P (dev w) -> table_wf (st w) ->
  valid_config c -> baud_divisor (baudrate c) = Some (i, f) ->
  (forall w' s' es, configure_trace c i f es -> extends P (with_st s' w) w' es ->
      (exists cs, s' = set_callbacks cs (st w)) -> table_wf s' ->
      (forall n, registry s' n =
        snd (spec_register (registry (st w)) UART0_INTERRUPT (Some uart_isr_ptr)) n) ->
      Q UART_OK w') ->
  wp (uart_configure pre fuel c) Q w.
Proof. intros. change pre with (guard pre (fun _ => true)). by apply (wp_configure_guarded (fun _ => true) c i f). Qed.

End Spec.

(** The board's UART meets the interface. *)
#[global] Instance board_pl011 : Pl011 Board.fifo_ok.
Proof.
  refine {| pl_stable := Board.fifo_ok_stable; pl_bound := 17 |};
    intros d Hd; apply Board.flags_clear; auto; unfold Board.fifo_ok in Hd; lia.
Defined.

(** The UART is about to be enabled: its interrupt was unmasked and then the
    control register read. *)
Definition arming (es : list mmio) : bool :=
  match rev es with
  | Rd a _ :: Wr b _ :: _ => (a =? ureg "CR") && (b =? ureg "IMSC")
  | _ => false
  end.

(** When the UART is about to be enabled, its interrupt has a handler; the
    accesses are those since [w0]. *)
Definition handler_first {D} (w0 w : world D) : bool :=
  negb (arming (drop (length (trace w0)) (trace w))) ||
  match registry (st w) UART0_INTERRUPT with Some _ => true | None => false end.

(** ** Theorems *)

Section Theorems.
Context {D : Type} {B : Bus D} (pre : M D unit) `{!Quiet pre} (P : D -> Prop) {PL : Pl011 P}.
Context (fuel : nat).
Implicit Types w : world D.

(** [uart_write] returns and transmits exactly its argument, each byte only
    after the transmit FIFO was seen not full. *)
Theorem uart_write_transmits data w :
  (pl_bound <= fuel)%nat -> irqs_on w = false -> P (dev w) -> bytes data ->
  wp (uart_write pre fuel data) (fun _ w' => exists es,
    extends P w w' es /\ tx_trace data es /\ sent es = data) w.
Proof.
  intros Hf Hi HP Hb. apply (wp_uart_write pre P fuel Hf); auto.
  intros w' es Ht Hx. exists es. auto using sent_tx.
Qed.

(** Below 10^8, [uart_write_uint] prints the decimal representation of its
    argument: digits that evaluate to it, without leading zeros. *)
Theorem uart_write_uint_prints num w :
  (pl_bound <= fuel)%nat -> irqs_on w = false -> P (dev w) -> 0 <= num < 10 ^ 8 ->
  wp (uart_write_uint pre fuel num) (fun _ w' => exists es,
    extends P w w' es /\ tx_trace (sent es) es /\ Forall is_digit (sent es) /\
    dec_value (sent es) = num /\
    (forall ds, sent es = 48 :: ds -> ds = [])) w.
Proof.
  intros Hf Hi HP Hn. unfold uart_write_uint.
  destruct (digits_fit 8 10 [] num) as (ds & E & HF & Hv & c & ds' & -> & Hc); [exact Hn|cbn; lia|lia|].
  apply wp_bind. eapply wp_of_option; [exact E|]. cbn [app].
  apply (wp_uart_write pre P fuel Hf); auto. intros w' es Ht Hx.
  assert (Forall is_digit (rev (ds' ++ [c]))) as Hrev by (apply Forall_rev, HF).
  assert (sent es = rev (ds' ++ [c])) as Hs by (apply sent_tx; auto using bytes_digits).
  exists es. rewrite Hs. split_and!; auto.
  - rewrite dec_value_rev. exact Hv.
  - rewrite rev_app_distr. cbn. intros ds [= Hz <-].
    destruct ds' as [|x ds']; [reflexivity|]. destruct Hc; [discriminate|exact Hz].
Qed.

(** From 10^8 on, the digit loop writes past the end of [buf[8]]. *)
Theorem uart_write_uint_overruns num w :
  10 ^ 8 <= num < 2 ^ 32 -> uart_write_uint pre fuel num w = Fault.
Proof.
  intros Hn. unfold uart_write_uint, bind. rewrite digits_overflow; [reflexivity|cbn; lia|exact (proj1 Hn)].
Qed.

(** C10: A configuration outside the documented ranges is refused with the error of
    its first bad field, and no register is touched. *)
Theorem uart_configure_rejects c e w :
  0 <= stop_bits c -> config_error c = Some e -> uart_configure pre fuel c w = Done (e, w).
Proof.
  intros Hs He. unfold config_error, uart_configure in *.
  repeat case_decide; case_bools; cbn in *; simplify_eq; try lia; reflexivity.
Qed.

(** What a successful configuration leaves behind. *)
Definition programmed (c : uart_config) (i f : Z) w (r : uart_error) (w' : world D) : Prop :=
  r = UART_OK /\ exists s' es, configure_trace c i f es /\ extends P (with_st s' w) w' es /\
    (exists cs, s' = set_callbacks cs (st w)) /\ table_wf s' /\
    (forall n, registry s' n = snd (spec_register (registry (st w)) UART0_INTERRUPT (Some uart_isr_ptr)) n).

(** C9: A valid configuration: the exact register programme.  The UART is disabled
    and drained before the divisors and the line control word are written, and
    enabled by the last access, after the receive interrupt was unmasked; it
    returns with the handler registered, unless the interrupt had one already.
    The order of the registration: with an interruption point that traps when the
    UART is about to be enabled (the interrupt was unmasked and the control
    register read) while its interrupt has no handler, the function runs to its
    end all the same. *)
Theorem uart_configure_programs c i f w :
  (pl_bound <= fuel)%nat -> irqs_on w = false -> P (dev w) -> table_wf (st w) ->
  valid_config c -> baud_divisor (baudrate c) = Some (i, f) ->
  wp (uart_configure pre fuel c) (programmed c i f w) w /\
  wp (uart_configure (guard pre (handler_first w)) fuel c) (programmed c i f w) w.
Proof.
  intros Hf Hi HP Hw Hc Hb. split.
  - apply (wp_uart_configure pre P fuel Hf c i f); auto. intros w' s' es Ht Hx Hcs Hw' Hr. split; [reflexivity|]. exists s', es. auto.
  - assert (forall w' es, extends P w w' es -> arming es = false -> handler_first w w' = true) as Hok.
    { intros w' es Hx Ha. unfold handler_first. rewrite (ext_trace _ _ _ _ Hx), drop_app_length, Ha. reflexivity. }
    apply (wp_configure_guarded pre P fuel Hf (handler_first w) c i f); auto.
    + apply (Hok w [] (extends_refl P w HP)). reflexivity.
    + intros w' v Hx. exact (Hok w' _ Hx eq_refl).
    + intros w' es e Hx He. apply (Hok w' _ Hx). unfold arming. rewrite rev_app_distr. destruct e as [a v|a v]; [|reflexivity].
      cbn [rev app]. destruct (rev es) as [|[|b v'] l]; [reflexivity|reflexivity|]. destruct (Z.eqb_spec a (ureg "CR")) as [->|]; [destruct (He v eq_refl)|reflexivity].
    + intros w' Hr. unfold handler_first. destruct (registry (st w') UART0_INTERRUPT); [apply orb_true_r|congruence].
    + intros w' s' es Ht Hx Hcs Hw' Hr. split; [reflexivity|]. exists s', es. auto.
Qed.

(** [uart_getchar]: without data only the flag register is read; with data the
    byte is taken, and a receive error is reported and written back. *)
Theorem uart_getchar_branches w :
  irqs_on w = false -> P (dev w) ->
  wp (uart_getchar pre) (fun r w' => exists fr,
    (r = (UART_NO_DATA, None) /\ Z.land fr FR_RXFE <> 0 /\
     extends P w w' [Rd (ureg "FR") fr]) \/
    (exists dr e, Z.land fr FR_RXFE = 0 /\ Z.land e RSRECR_ERR_MASK = 0 /\
     r = (UART_OK, Some (Z.land dr DR_DATA_MASK)) /\
     extends P w w' [Rd (ureg "FR") fr; Rd (ureg "DR") dr; Rd (ureg "RSRECR") e]) \/
    (exists dr e e', Z.land fr FR_RXFE = 0 /\ Z.land e RSRECR_ERR_MASK <> 0 /\
     r = (UART_RECEIVE_ERROR, Some (Z.land dr DR_DATA_MASK)) /\
     extends P w w' [Rd (ureg "FR") fr; Rd (ureg "DR") dr; Rd (ureg "RSRECR") e;
       Rd (ureg "RSRECR") e'; Wr (ureg "RSRECR") (Z.land e' RSRECR_ERR_MASK)])) w.
Proof.
  intros Hi HP. unfold uart_getchar. wp_run P.
  destruct (Z.eqb_spec (Z.land v FR_RXFE) 0) as [Hz|Hz]; cbn [negb]; wp_run P; [|exists v; auto].
  pose proof (land_byte v0). rewrite u8_small by lia.
  destruct (Z.eqb_spec (Z.land v1 RSRECR_ERR_MASK) 0) as [He|He]; cbn [negb]; wp_run P.
  - exists v. right. left. exists v0, v1. split_and!; auto. extends_solve.
  - exists v. right. right. exists v0, v1, v2. split_and!; auto.
    assert (0 <= Z.land v2 RSRECR_ERR_MASK < 2 ^ 32) by (apply land_range; [lia|exact Hv2]).
    rewrite u32_small in Hx3 by assumption. extends_solve.
Qed.

(** One run of the interrupt handler: a pending receive interrupt takes one byte
    and echoes it (a carriage return as CR LF), otherwise a break error is
    reported and cleared, otherwise nothing happens; the statics are untouched. *)
Theorem uart_isr_echoes w :
  (pl_bound <= fuel)%nat -> irqs_on w = false -> P (dev w) ->
  wp (uart_isr pre fuel) (fun _ w' => exists es, isr_trace es /\ extends P w w' es) w.
Proof. intros Hf Hi HP. apply (wp_uart_isr pre P fuel Hf); auto. intros w' es Ht Hx. exists es. auto. Qed.

End Theorems.

(** The line control word encodes the configuration: word length in bits 5-6,
    two stop bits in bit 3, FIFOs on, and the three parity bits PEN, EPS and SPS
    (stick parity) all equal to the parity switch. *)
Theorem lcrh_word_encodes c :
  valid_config c ->
  Z.land (Z.shiftr (lcrh_word c) 5) 3 = data_bits c - 5 /\
  Z.testbit (lcrh_word c) 3 = (stop_bits c =? 2) /\
  Z.testbit (lcrh_word c) 4 = true /\
  Z.testbit (lcrh_word c) 1 = parity c /\
  Z.testbit (lcrh_word c) 2 = parity c /\
  Z.testbit (lcrh_word c) 7 = parity c /\
  0 <= lcrh_word c < 256.
Proof.
  intros Hc. split_and!; try apply (lcrh_word_range c Hc);
    destruct (lcrh_word_cases c Hc) as (x & s & -> & -> & ->), (valid_cases c Hc) as [Hd Hs];
    destruct (parity c), Hd as [-> | [-> | [-> | ->]]], Hs as [-> | ->]; reflexivity.
Qed.

(** The divisor computed for every standard rate is the nearest multiple of 1/64
    of [refclock / (16 * baud)]. *)
Definition standard_rates : list Z :=
  [110; 300; 600; 1200; 2400; 4800; 9600; 14400; 19200; 38400; 57600; 115200; 230400; 460800].

Theorem standard_rates_divisors :
  Forall (fun b => baud_divisor b =
    Some (1500000 / b, ((1500000 mod b) * 128 + b) / (2 * b))) standard_rates.
Proof. repeat constructor. Qed.

(** A valid rate for which the rounded fraction is 64, which the six-bit
    fractional divisor register cannot hold: the integer part should have been
    one more. *)
Theorem fbrd_overflows :
  valid_config (UartConfig 8 1 false 307) /\ baud_divisor 307 = Some (4885, 64) /\
  (1500000 * 128 + 307) / (2 * 307) = 64 * (4885 + 1).
Proof. split; [unfold valid_config; cbn; lia|]. split; reflexivity. Qed.

(** ** Witnesses *)

Lemma uart_write_transmits_witness :
  wp (uart_write (ret tt) 17 (bytes_of "hi")) (fun _ w' => sent (trace w') = [104; 105]) (Board.start 5 []).
Proof.
  eapply wp_mono; [apply (uart_write_transmits (ret tt) Board.fifo_ok 17 (bytes_of "hi") (Board.start 5 []));
    [reflexivity|reflexivity|vm_compute; split; discriminate|repeat constructor; discriminate]|].
  intros u w' (es & [T _ _ _] & _ & Hs). rewrite T. exact Hs.
Defined.

Lemma uart_write_uint_prints_witness :
  wp (uart_write_uint (ret tt) 17 2048) (fun _ w' => dec_value (sent (trace w')) = 2048) (Board.start 5 []).
Proof.
  eapply wp_mono; [apply (uart_write_uint_prints (ret tt) Board.fifo_ok 17 2048 (Board.start 5 []));
    [reflexivity|reflexivity|vm_compute; split; discriminate|lia]|].
  intros u w' (es & [T _ _ _] & _ & _ & Hs & _). rewrite T. exact Hs.
Defined.

Lemma uart_write_uint_overruns_witness :
  uart_write_uint (ret tt) 17 100000000 (Board.start 5 []) = Fault.
Proof. apply (uart_write_uint_overruns (ret tt) 17 100000000). lia. Defined.

Lemma uart_configure_rejects_witness :
  uart_configure (ret tt) 17 (UartConfig 9 1 false 9600) (Board.start 5 []) =
    Done (UART_INVALID_ARGUMENT_WORDSIZE, Board.start 5 []).
Proof. apply (uart_configure_rejects (ret tt) 17); [cbn; lia|reflexivity]. Defined.

Lemma uart_configure_programs_witness :
  wp (uart_configure (ret tt) 17 (UartConfig 8 1 false 9600)) (fun r w' => r = UART_OK /\
    registry (st w') 37 = Some uart_isr_ptr) (Board.start 5 []).
Proof.
  eapply wp_mono; [refine (proj1 (uart_configure_programs (ret tt) Board.fifo_ok 17
    (UartConfig 8 1 false 9600) 156 16 (Board.start 5 []) _ _ _ _ _ _));
    [reflexivity|reflexivity|vm_compute; split; discriminate|reflexivity|unfold valid_config; cbn; lia|reflexivity]|].
  intros r w' (-> & s' & es & _ & [_ S _ _] & _ & _ & Hr). split; [reflexivity|].
  rewrite S. exact (Hr 37).
Defined.

Lemma uart_getchar_branches_witness :
  wp (uart_getchar (ret tt)) (fun r _ => exists fr, r = (UART_NO_DATA, None) \/ Z.land fr FR_RXFE = 0)
    (Board.start 5 [65]).
Proof.
  eapply wp_mono; [apply (uart_getchar_branches (ret tt) Board.fifo_ok (Board.start 5 [65]));
    [reflexivity|vm_compute; split; discriminate]|].
  intros r w' (fr & [(-> & _)|[(dr & e & H & _)|(dr & e & e' & H & _)]]); exists fr; auto.
Defined.

Lemma uart_isr_echoes_witness :
  wp (uart_isr (ret tt) 17) (fun _ w' => exists es, isr_trace es /\ trace w' = es) (Board.start 5 [13]).
Proof.
  eapply wp_mono; [apply (uart_isr_echoes (ret tt) Board.fifo_ok 17 (Board.start 5 [13]));
    [reflexivity|reflexivity|vm_compute; split; discriminate]|].
  intros u w' (es & Ht & [T _ _ _]). exists es. split; [exact Ht|exact T].
Defined.

Lemma lcrh_word_encodes_witness : Z.testbit (lcrh_word (UartConfig 7 2 true 9600)) 7 = true.
Proof.
  destruct (lcrh_word_encodes (UartConfig 7 2 true 9600)) as (_ & _ & _ & _ & _ & H & _);
    [unfold valid_config; cbn; lia|]. exact H.
Defined.

End Uart.
