(* ===== verification/Ptimer.v ===== *)
(** * Ptimer: system time and the private timer driver
    (systime.c, systime.h, ptimer.c, ptimer.h)

    [systime] is a 32-bit millisecond counter that the private timer's
    interrupt handler increments. *)

From stdpp Require Import base list strings.
From S2P Require Import Prelude Machine Board Irq Double.
Import Irq.

Module Systime.
Section Driver.
Context {D : Type} (pre : M D unit).

Definition systime_tick : M D unit :=
  modify_st (fun s => set_systime (u32 (systime s + 1)) s).

(** [systime] is volatile and shared with the handler: an interrupt can be taken
    right before it is read. *)
Definition systime_get : M D Z :=
  pre ;;; let! s := get_st in ret (systime s).

End Driver.
End Systime.
Import Systime.

Module Ptimer.

Definition private_timer_registers : layout :=
  [("LR", 1); ("CR", 1); ("CTRL", 1); ("ISR", 1)]%string.

Inductive ptimer_error := PTIMER_OK | PTIMER_INVALID_PERIOD.

#[export] Instance ptimer_error_eq_dec : EqDecision ptimer_error.
Proof. solve_decision. Defined.

Definition PTIMER_OFFSET : Z := 0x600.
Definition CTRL_IRQ_ENABLE : Z := Z.shiftl 1 2.
Definition CTRL_AUTORELOAD : Z := Z.shiftl 1 1.
Definition CTRL_ENABLE : Z := 1.
Definition ISR_CLEAR : Z := 1.
Definition PTIMER_INTERRUPT : Z := 29.
Definition refclock : Z := 24000000.
Definition UINT32_MAX : Z := 2 ^ 32 - 1.

Abbreviation treg := (fun b f => field b private_timer_registers f).

Definition validate_config (millisecs : Z) : bool :=
  let max_period := UINT32_MAX / refclock in
  let max_millis := u32 (max_period * 1000) in
  millisecs <? max_millis.

(** Undefined when the [double] does not fit [uint32_t]. *)
Definition millisecs_to_timer_value (millisecs : Z) : option Z :=
  let period := Double.mul (Double.of_int millisecs) Double.lit_0_001 in
  match Double.to_uint 32 (Double.sub (Double.mul period (Double.of_int refclock)) (Double.of_int 1)) with
  | Some value => Some (u32 (value * 3))
  | None => None
  end.

Section Driver.
Context {D : Type} {B : Bus D} (pre : M D unit).

Definition PTIMER_BASE : Z := u32 (u32 bus_periphbase + PTIMER_OFFSET).

Definition ptimer_init (millisecs : Z) : M D ptimer_error :=
  modify_st (fun s => set_ptimer_regs PTIMER_BASE s) ;;;
  if negb (validate_config millisecs) then ret PTIMER_INVALID_PERIOD else
  let! load_val := of_option (millisecs_to_timer_value millisecs) in
  let! s := get_st in
  reg_write pre (treg (ptimer_regs s) "LR") load_val ;;;
  irq_register_isr PTIMER_INTERRUPT (Some ptimer_isr_ptr) ;;;
  let ctrl := Z.lor (Z.lor CTRL_AUTORELOAD CTRL_IRQ_ENABLE) CTRL_ENABLE in
  let! s := get_st in
  reg_write pre (treg (ptimer_regs s) "CTRL") ctrl ;;;
  ret PTIMER_OK.

Definition ptimer_isr : M D unit :=
  let! s := get_st in
  reg_write pre (treg (ptimer_regs s) "ISR") ISR_CLEAR ;;;
  systime_tick.

End Driver.

(** ** Properties *)

Section Spec.
Context {D : Type} {B : Bus D} (pre : M D unit) `{!Quiet pre} (P : D -> Prop) `{!Stable P}.
Implicit Types w : world D.

Lemma wp_ptimer_isr w (Q : unit -> world D -> Prop) :
  irqs_on w = false -> P (dev w) ->
  (forall w', extends P (with_st (set_systime (u32 (systime (st w) + 1)) (st w)) w) w'
      [Wr (treg (ptimer_regs (st w)) "ISR") ISR_CLEAR] -> Q tt w') ->
  wp (ptimer_isr pre) Q w.
Proof.
  intros Hi HP HQ. unfold ptimer_isr, systime_tick. wp_run P. apply HQ.
  rewrite (ext_st _ _ _ _ Hx). apply extends_with_st. exact Hx.
Qed.

(** Every [uint16_t] period passes the check, so [PTIMER_INVALID_PERIOD] is
    never returned. *)
Lemma validate_config_always ms : 0 <= ms < 2 ^ 16 -> validate_config ms = true.
Proof.
  intros Hm. unfold validate_config. change (u32 _) with 178000. apply Z.ltb_lt. lia.
Qed.

Lemma wp_ptimer_init ms v w (Q : ptimer_error -> world D -> Prop) :
  irqs_on w = false -> P (dev w) -> table_wf (st w) -> 0 <= ms < 2 ^ 16 ->
  millisecs_to_timer_value ms = Some v ->
  (forall w' s', (exists cs, s' = set_callbacks cs (set_ptimer_regs PTIMER_BASE (st w))) -> table_wf s' ->
    (forall n, registry s' n =
      snd (spec_register (registry (st w)) PTIMER_INTERRUPT (Some ptimer_isr_ptr)) n) ->
    extends P (with_st s' w) w'
      [Wr (treg PTIMER_BASE "LR") v; Wr (treg PTIMER_BASE "CTRL") 7] -> Q PTIMER_OK w') ->
  wp (ptimer_init pre ms) Q w.
Proof.
  intros Hi HP Hw Hms Hv HQ. unfold ptimer_init. wp_run P.
  rewrite validate_config_always by exact Hms. cbn [negb]. wp_step P.
  eapply wp_of_option; [exact Hv|]. wp_run P. cbn [st with_st ptimer_regs set_ptimer_regs] in Hx.
  assert (u32 v = v) as Hvr.
  { unfold millisecs_to_timer_value in Hv. destruct (Double.to_uint _ _); [|discriminate].
    simplify_eq. apply u32_u32. }
  rewrite Hvr in Hx. pose proof (ext_st _ _ _ _ Hx) as Hst. cbn [st with_st] in Hst.
  eapply wp_mono; [apply wp_irq_register_isr; [rewrite Hst; exact Hw|unfold PTIMER_INTERRUPT; lia]|].
  rewrite Hst. intros r w1 (s' & -> & Hw' & (cs & Hcs) & _ & Hreg). wp_run P.
  apply (HQ w1 s'); auto; [eauto|]. cbn [st with_st] in Hx0.
  assert (ptimer_regs s' = PTIMER_BASE) as Hb by (rewrite Hcs; reflexivity). rewrite Hb in Hx0.
  eapply extends_eq; [eapply extends_trans; [exact (extends_with_st P s' _ _ _ Hx)|exact Hx0]|].
  reflexivity.
Qed.

End Spec.

(** ** Theorems *)

(** Every [uint16_t] period passes [validate_config] (the limit is 178 s), so
    the error branch of [ptimer_init] is dead. *)
Theorem validate_config_accepts ms : 0 <= ms < 2 ^ 16 -> validate_config ms = true.
Proof. apply validate_config_always. Qed.

(** The check ignores the slowdown factor: a 60 s period is accepted, but
    tripling its load value overflows 32 bits and programs about 0.35 s. *)
Theorem timer_value_overflows :
  validate_config 60000 = true /\
  millisecs_to_timer_value 60000 = Some ((24000 * 60000 - 1) * 3 - 2 ^ 32) /\
  (24000 * 60000 - 1) * 3 - 2 ^ 32 < 24000 * 3 * 355.
Proof. split_and!; [reflexivity|reflexivity|lia]. Qed.

(** The millisecond period used by [main] gives exactly three times the
    documented load value, but the [double] product truncates one tick short at
    145 ms. *)
Theorem timer_value_rounding :
  millisecs_to_timer_value 1 = Some (3 * (24000 - 1)) /\
  millisecs_to_timer_value 145 = Some (3 * (145 * 24000 - 2)).
Proof. split; reflexivity. Qed.

Section Theorems.
Context {D : Type} {B : Bus D} (pre : M D unit) `{!Quiet pre} (P : D -> Prop) `{!Stable P}.
Implicit Types w : world D.

(** [ptimer_init] loads the timer before it starts it, and registers the handler
    in between, so no tick is lost to a missing handler. *)
Theorem ptimer_init_programs ms v w :
  irqs_on w = false -> P (dev w) -> table_wf (st w) -> 0 <= ms < 2 ^ 16 ->
  millisecs_to_timer_value ms = Some v ->
  wp (ptimer_init pre ms) (fun r w' => r = PTIMER_OK /\ ptimer_regs (st w') = PTIMER_BASE /\
    trace w' = trace w ++ [Wr (treg PTIMER_BASE "LR") v; Wr (treg PTIMER_BASE "CTRL") 7] /\
    forall n, registry (st w') n =
      snd (spec_register (registry (st w)) PTIMER_INTERRUPT (Some ptimer_isr_ptr)) n) w.
Proof.
  intros Hi HP Hw Hms Hv. apply (wp_ptimer_init pre P ms v); auto.
  intros w' s' (cs & Hcs) _ Hr [T S _ _]. cbn in T, S. rewrite S.
  split_and!; auto. rewrite Hcs. reflexivity.
Qed.

(** The timer handler clears the interrupt at the device, then advances
    [systime] by one modulo 2^32, and changes no other variable. *)
Theorem ptimer_isr_ticks w :
  irqs_on w = false -> P (dev w) ->
  wp (ptimer_isr pre) (fun _ w' =>
    trace w' = trace w ++ [Wr (treg (ptimer_regs (st w)) "ISR") ISR_CLEAR] /\
    st w' = set_systime (u32 (systime (st w) + 1)) (st w)) w.
Proof.
  intros Hi HP. apply (wp_ptimer_isr pre P); auto. intros w' [T S _ _]. cbn in T, S. auto.
Qed.

End Theorems.

Lemma validate_config_accepts_witness : validate_config 60000 = true.
Proof. apply (validate_config_accepts 60000). lia. Defined.

Lemma ptimer_init_programs_witness :
  wp (ptimer_init (ret tt) 1) (fun r w' => r = PTIMER_OK /\ registry (st w') 29 = Some ptimer_isr_ptr)
    (Board.start 5 []).
Proof.
  eapply wp_mono; [apply (ptimer_init_programs (ret tt) Board.fifo_ok 1 71997 (Board.start 5 []));
    [reflexivity|vm_compute; split; discriminate|reflexivity|lia|reflexivity]|].
  intros r w' (Hr & _ & _ & Hreg). split; [exact Hr|exact (Hreg 29)].
Defined.

Lemma ptimer_isr_ticks_witness :
  wp (ptimer_isr (ret tt)) (fun _ w' => systime (st w') = 1) (Board.start 5 []).
Proof.
  eapply wp_mono; [apply (ptimer_isr_ticks (ret tt) Board.fifo_ok (Board.start 5 []));
    [reflexivity|vm_compute; split; discriminate]|].
  intros u w' (_ & S). rewrite S. reflexivity.
Defined.

End Ptimer.
