(* ===== verification/Sched.v ===== *)
(** * Sched: the cooperative scheduler (sched.c, sched.h)

    A table of ten task descriptors and an endless loop that visits the slots
    in order and runs every task whose period has elapsed.  The task bodies are
    reached through function pointers and are a parameter here; Tasks.v and
    System.v supply them. *)

From stdpp Require Import base list.
From S2P Require Import Prelude Machine Ptimer.
Import Systime.

Module Sched.

Inductive sched_error := SCHED_OK | SCHED_TOO_MANY_TASKS.

#[export] Instance sched_error_eq_dec : EqDecision sched_error.
Proof. solve_decision. Defined.

Section Driver.
Context {D : Type}.

Definition sched_add_task (entry : option task_entry_ptr) (period : Z) : M D sched_error :=
  let! s := get_st in
  if MAX_NUM_TASKS <=? table_idx s then ret SCHED_TOO_MANY_TASKS else
  let task := Task entry period 0 in
  let idx := table_idx s in
  if (0 <=? idx) && (idx <? Z.of_nat (length (task_table s))) then
    modify_st (fun s => set_table_idx (u8 (idx + 1))
                          (set_task_table (<[Z.to_nat idx := task]> (task_table s)) s)) ;;;
    ret SCHED_OK
  else fault.

Context (pre : M D unit) (task_body : task_entry_ptr -> M D unit).

(** [task_table[i]], undefined outside the array. *)
Definition get_task (i : nat) : M D task_desc :=
  let! s := get_st in of_option (task_table s !! i).

Definition set_last_run (i : nat) (t : Z) : M D unit :=
  let! task := get_task i in
  modify_st (fun s => set_task_table
    (<[i := Task (entry task) (period task) t]> (task_table s)) s).

(** The due test: [systime_get() - task->last_run >= task->period]. *)
Definition due (now : Z) (task : task_desc) : bool :=
  period task <=? u32 (now - last_run task).

(** The loop body for slot [i]. *)
Definition sched_slot (i : nat) : M D unit :=
  let! task := get_task i in
  match entry task with
  | None => ret tt
  | Some e =>
    let! now := systime_get pre in
    if due now task then
      let! t := systime_get pre in
      set_last_run i t ;;;
      task_body e
    else ret tt
  end.

Fixpoint sched_slots (i n : nat) : M D unit :=
  match n with
  | O => ret tt
  | S n => sched_slot i ;;; sched_slots (S i) n
  end.

(** One turn of [while (1)]: the slots from 0 to [MAX_NUM_TASKS - 1]. *)
Definition sched_pass : M D unit := sched_slots 0 (Z.to_nat MAX_NUM_TASKS).

(** [n] turns, and the endless loop cut off after [fuel] turns. *)
Fixpoint sched_passes (n : nat) : M D unit :=
  match n with
  | O => ret tt
  | S n => sched_pass ;;; sched_passes n
  end.

Definition sched_run (fuel : nat) : M D unit := sched_passes fuel ;;; hang.

End Driver.

(** ** The table *)

(** The C size of the table, and every slot from [table_idx] on still empty. *)
Definition sched_wf (s : statics) : Prop :=
  length (task_table s) = Z.to_nat MAX_NUM_TASKS /\
  0 <= table_idx s <= MAX_NUM_TASKS /\
  forall i t, task_table s !! i = Some t -> table_idx s <= Z.of_nat i -> entry t = None.

(** The tasks added so far, in order: what the table means. *)
Definition added (s : statics) : list task_desc := take (Z.to_nat (table_idx s)) (task_table s).

Lemma statics0_wf : sched_wf statics0.
Proof.
  split_and!; [reflexivity|cbn; lia|cbn; unfold MAX_NUM_TASKS; lia|]. intros i t Hi _.
  apply lookup_replicate in Hi. destruct Hi as [-> _]. reflexivity.
Qed.

Section Table.
Context {D : Type}.
Implicit Types (w : world D) (s : statics).

Lemma wp_sched_add_task e p w (Q : sched_error -> world D -> Prop) :
  sched_wf (st w) ->
  (table_idx (st w) = MAX_NUM_TASKS -> Q SCHED_TOO_MANY_TASKS w) ->
  (forall s', table_idx (st w) < MAX_NUM_TASKS -> sched_wf s' ->
     table_idx s' = table_idx (st w) + 1 ->
     added s' = added (st w) ++ [Task e p 0] ->
     s' = set_table_idx (table_idx s') (set_task_table (task_table s') (st w)) ->
     Q SCHED_OK (with_st s' w)) ->
  wp (sched_add_task e p) Q w.
Proof.
  intros (Hl & Hr & He) Hfull Hok. unfold sched_add_task. apply wp_bind, wp_get_st.
  unfold MAX_NUM_TASKS in *.
  destruct (Z.leb_spec 10 (table_idx (st w))); [apply wp_ret, Hfull; lia|].
  replace ((0 <=? _) && _) with true by (case_bools; cbn; lia || reflexivity).
  apply wp_bind, wp_modify_st, wp_ret. set (i := Z.to_nat (table_idx (st w))) in *.
  assert (u8 (table_idx (st w) + 1) = table_idx (st w) + 1) as Hu by (apply u8_small; lia).
  rewrite Hu. apply Hok; cbn; auto.
  - split_and!; cbn; [rewrite length_insert; exact Hl|lia|unfold MAX_NUM_TASKS; lia|].
    intros j t Hj Hge. apply (He j t); [|lia].
    rewrite list_lookup_insert_ne in Hj by (unfold i; lia). exact Hj.
  - unfold added. cbn. replace (Z.to_nat (table_idx (st w) + 1)) with (S i) by (unfold i; lia).
    rewrite (take_S_r _ _ (Task e p 0)) by (apply list_lookup_insert_eq; unfold i; lia).
    rewrite take_insert_ge by lia. reflexivity.
Qed.

End Table.

(** ** Timing *)

(** What the scheduler relies on at an interruption point and of a task body.
    [time] is the true number of milliseconds since boot, of which [systime] is
    the low 32 bits; interrupts and tasks return, let time pass forwards and
    leave the task table alone. *)
Class Clock {D : Type} (I : world D -> Prop) (time : world D -> Z) : Prop := {
  clock_systime : forall w, I w -> systime (st w) = u32 (time w);
  clock_nonneg : forall w, I w -> 0 <= time w;
  clock_table : forall w t, I w ->
    I (with_st (set_task_table t (st w)) w) /\ time (with_st (set_task_table t (st w)) w) = time w;
}.

(** [m] returns, keeps [I] and the task table, and does not turn time back. *)
Definition passes_time {D A} (I : world D -> Prop) (time : world D -> Z) (m : M D A) : Prop :=
  forall w, I w -> wp m (fun _ w' => I w' /\ time w <= time w' /\
    task_table (st w') = task_table (st w)) w.

(** The due test compares true elapsed time, as long as that fits 32 bits. *)
Lemma due_true now L e p : 0 <= L <= now -> now - L < 2 ^ 32 ->
  due (u32 now) (Task e p (u32 L)) = (p <=? now - L).
Proof.
  intros H1 H2. unfold due. cbn. autorewrite with words.
  rewrite u32_small by lia. reflexivity.
Qed.

(** It never fires early, however often the counter has wrapped. *)
Lemma due_safe now L e p : L <= now -> due (u32 now) (Task e p (u32 L)) = true -> p <= now - L.
Proof.
  intros H1. unfold due. cbn. autorewrite with words. intros H2%Z.leb_le.
  assert (u32 (now - L) <= now - L) by (apply Z.mod_le; lia). lia.
Qed.

Section Timing.
Context {D : Type} (I : world D -> Prop) (time : world D -> Z) {C : Clock I time}.
Context (pre : M D unit) (Hpre : passes_time I time pre).
Context (task_body : task_entry_ptr -> M D unit).
Implicit Types w : world D.

Lemma wp_systime_get w (Q : Z -> world D -> Prop) :
  I w -> (forall w', I w' -> time w <= time w' -> task_table (st w') = task_table (st w) ->
    Q (u32 (time w')) w') -> wp (systime_get pre) Q w.
Proof.
  intros HI HQ. apply wp_bind. eapply wp_mono; [apply Hpre, HI|].
  intros _ w' (HI' & Ht & Htab). apply wp_bind, wp_get_st, wp_ret.
  rewrite (clock_systime w' HI'). auto.
Qed.

Lemma wp_get_task i t w (Q : task_desc -> world D -> Prop) :
  task_table (st w) !! i = Some t -> Q t w -> wp (get_task i) Q w.
Proof. intros Ht HQ. apply wp_bind, wp_get_st. eapply wp_of_option; eauto. Qed.

(** The world in which a started task's body begins. *)
Definition started (i : nat) (t : task_desc) (w1 : world D) : world D :=
  with_st (set_task_table
    (<[i := Task (entry t) (period t) (u32 (time w1))]> (task_table (st w1))) (st w1)) w1.

Lemma wp_sched_slot i e p lr w (Q : unit -> world D -> Prop) :
  I w -> task_table (st w) !! i = Some (Task (Some e) p lr) ->
  (forall w0, I w0 -> time w <= time w0 -> task_table (st w0) = task_table (st w) ->
     due (u32 (time w0)) (Task (Some e) p lr) = false -> Q tt w0) ->
  (forall w0 w1, I w0 -> time w <= time w0 -> I w1 -> time w0 <= time w1 ->
     task_table (st w1) = task_table (st w) ->
     due (u32 (time w0)) (Task (Some e) p lr) = true ->
     wp (task_body e) Q (started i (Task (Some e) p lr) w1)) ->
  wp (sched_slot pre task_body i) Q w.
Proof.
  intros HI Hi Hskip Hrun. unfold sched_slot. apply wp_bind.
  eapply wp_get_task; [exact Hi|]. cbn [entry].
  apply wp_bind, wp_systime_get; auto. intros w0 HI0 Ht0 Htab0.
  destruct (due _ _) eqn:Hd; [|apply wp_ret; auto].
  apply wp_bind, wp_systime_get; auto. intros w1 HI1 Ht1 Htab1.
  apply wp_bind. unfold set_last_run. apply wp_bind.
  eapply wp_get_task; [rewrite Htab1, Htab0; exact Hi|]. apply wp_modify_st. cbn [entry period].
  apply (Hrun w0 w1); auto. congruence.
Qed.

(** *** Whole passes *)

(** Every task in the table returns. *)
Definition tasks_return (tab : list task_desc) : Prop :=
  forall i t e, tab !! i = Some t -> entry t = Some e -> passes_time I time (task_body e).

(** Two tables hold the same tasks: only [last_run] may differ. *)
Definition same_tasks (t1 t2 : list task_desc) : Prop :=
  map (fun t => (entry t, period t)) t1 = map (fun t => (entry t, period t)) t2.

Lemma same_tasks_length t1 t2 : same_tasks t1 t2 -> length t1 = length t2.
Proof. intros H. apply (f_equal length) in H. rewrite !length_map in H. exact H. Qed.

Lemma same_tasks_return t1 t2 : same_tasks t1 t2 -> tasks_return t1 -> tasks_return t2.
Proof.
  intros Hs H1 i t e Hi He. apply (f_equal (fun l => l !! i)) in Hs.
  rewrite !list_lookup_fmap, Hi in Hs.
  destruct (t1 !! i) as [t'|] eqn:E; cbn in Hs; [|discriminate]. simplify_eq.
  apply (H1 i t'); congruence.
Qed.

Lemma same_tasks_insert tab i e p lr lr' :
  tab !! i = Some (Task e p lr) -> same_tasks tab (<[i := Task e p lr']> tab).
Proof.
  intros Hi. unfold same_tasks. change (map ?f ?l) with (f <$> l).
  rewrite list_fmap_insert. symmetry. apply list_insert_id.
  rewrite list_lookup_fmap, Hi. reflexivity.
Qed.

(** One slot: it returns, and its task was started at most once, not before its
    period had elapsed since its previous start. *)
Lemma wp_sched_slot_safe i w :
  I w -> (i < length (task_table (st w)))%nat -> tasks_return (task_table (st w)) ->
  wp (sched_slot pre task_body i) (fun _ w' => I w' /\ time w <= time w' /\
    same_tasks (task_table (st w)) (task_table (st w'))) w.
Proof.
  intros HI Hi Hret. destruct (lookup_lt_is_Some_2 _ _ Hi) as [[[e|] p lr] Ht].
  - apply (wp_sched_slot i e p lr); auto.
    + intros w0 HI0 Ht0 Htab _. rewrite Htab. split_and!; auto. reflexivity.
    + intros w0 w1 HI0 Ht0 HI1 Ht1 Htab _.
      destruct (clock_table w1 (<[i := Task (Some e) p (u32 (time w1))]> (task_table (st w1))) HI1)
        as [HIs Hts].
      eapply wp_mono; [apply (Hret i (Task (Some e) p lr) e Ht eq_refl _ HIs)|].
      intros _ w' (HI' & Ht' & Htab'). split_and!; auto; [lia|].
      rewrite Htab'. cbn. rewrite Htab. apply same_tasks_insert with lr. exact Ht.
  - unfold sched_slot. apply wp_bind. eapply wp_get_task; [exact Ht|].
    apply wp_ret. split_and!; auto; [lia|reflexivity].
Qed.

Lemma wp_sched_slots n : forall i w,
  I w -> (i + n <= length (task_table (st w)))%nat -> tasks_return (task_table (st w)) ->
  wp (sched_slots pre task_body i n) (fun _ w' => I w' /\ time w <= time w' /\
    same_tasks (task_table (st w)) (task_table (st w'))) w.
Proof.
  induction n as [|n IH]; intros i w HI Hn Hret; cbn [sched_slots].
  - apply wp_ret. split_and!; auto; [lia|reflexivity].
  - apply wp_bind. eapply wp_mono; [apply wp_sched_slot_safe; auto; lia|].
    intros _ w1 (HI1 & Ht1 & Hs1). pose proof (same_tasks_length _ _ Hs1).
    eapply wp_mono; [apply (IH (S i) w1 HI1); [lia|exact (same_tasks_return _ _ Hs1 Hret)]|].
    intros _ w2 (HI2 & Ht2 & Hs2). split_and!; auto; [lia|]. unfold same_tasks in *. congruence.
Qed.

End Timing.

(** ** Theorems *)

(** [sched_add_task] appends to the list of tasks until the table is full; then
    it refuses and changes nothing. *)
Theorem sched_add_task_appends {D} (w : world D) e p :
  sched_wf (st w) ->
  wp (sched_add_task e p) (fun r w' => sched_wf (st w') /\
    ((r = SCHED_OK /\ (length (added (st w)) < 10)%nat /\
      added (st w') = added (st w) ++ [Task e p 0]) \/
     (r = SCHED_TOO_MANY_TASKS /\ length (added (st w)) = 10%nat /\ w' = w))) w.
Proof.
  intros Hw. pose proof Hw as (Hl & Hr & _). unfold MAX_NUM_TASKS in *.
  assert (length (added (st w)) = Z.to_nat (table_idx (st w))) as Hlen
    by (unfold added; rewrite length_take; lia).
  apply wp_sched_add_task; auto; unfold MAX_NUM_TASKS.
  - intros Hf. split; [auto|]. right. split_and!; auto. lia.
  - intros s' Hlt Hw' Hi Ha _. cbn [st with_st]. split; [auto|]. left. split_and!; auto. lia.
Qed.

(** C34: The due test is right across counter wrap-around: with [now] and [L] the true
    times of the check and of the last start, it never fires early, and it fires
    as soon as the period has elapsed provided less than 2^32 ms went by. *)
Theorem due_wraparound now L e p :
  0 <= L <= now ->
  (due (u32 now) (Task e p (u32 L)) = true -> p <= now - L) /\
  (now - L < 2 ^ 32 -> p <= now - L -> due (u32 now) (Task e p (u32 L)) = true).
Proof.
  intros H. split; [apply due_safe; lia|]. intros H1 H2.
  rewrite due_true by lia. apply Z.leb_le. exact H2.
Qed.

Section Theorems.
Context {D : Type} (I : world D -> Prop) (time : world D -> Z) {C : Clock I time}.
Context (pre : M D unit) (task_body : task_entry_ptr -> M D unit).
Implicit Types w : world D.

(** C3: Visiting the slot of a task last started at true time [L]: either the task
    is not started, and then it was not due, or its body runs once, at a time no
    earlier than [L + p], from the table with [last_run] set to the start time. *)
Theorem sched_slot_respects_period i e p L w :
  passes_time I time pre -> passes_time I time (task_body e) ->
  I w -> task_table (st w) !! i = Some (Task (Some e) p (u32 L)) -> 0 <= L <= time w ->
  wp (sched_slot pre task_body i) (fun _ w' => I w' /\
    ((task_table (st w') = task_table (st w) /\
      exists T, time w <= T <= time w' /\ (T - L < 2 ^ 32 -> T - L < p)) \/
     (exists w1, I w1 /\ task_body e (started time i (Task (Some e) p (u32 L)) w1) = Done (tt, w') /\
        time w <= time w1 <= time w' /\ p <= time w1 - L /\
        task_table (st w') = <[i := Task (Some e) p (u32 (time w1))]> (task_table (st w))))) w.
Proof.
  intros Hpre Hbody HI Hi HL. apply (wp_sched_slot I time pre Hpre task_body i e p (u32 L)); auto.
  - intros w0 HI0 Ht0 Htab Hd. split; [auto|]. left. split; [auto|]. exists (time w0).
    split; [lia|]. intros Hlt. rewrite due_true in Hd by lia. apply Z.leb_gt in Hd. exact Hd.
  - intros w0 w1 HI0 Ht0 HI1 Ht1 Htab Hd. apply due_safe in Hd; [|lia].
    destruct (clock_table w1 (<[i := Task (Some e) p (u32 (time w1))]> (task_table (st w1))) HI1)
      as [HIs Hts].
    destruct (wp_done _ _ _ (Hbody _ HIs)) as ([] & w' & E & HI' & Ht' & Htab').
    apply (wp_of_done _ _ _ _ _ E). split; [auto|]. right. exists w1.
    rewrite Hts in Ht'. cbn in Htab'. rewrite Htab in Htab'. split_and!; auto; lia.
Qed.

(** If every task returns, so does every number of passes of the scheduler loop,
    and the table keeps its tasks. *)
Theorem sched_passes_return n w :
  passes_time I time pre -> I w -> tasks_return I time task_body (task_table (st w)) ->
  length (task_table (st w)) = 10%nat ->
  wp (sched_passes pre task_body n) (fun _ w' => I w' /\ time w <= time w' /\
    same_tasks (task_table (st w)) (task_table (st w'))) w.
Proof.
  intros Hpre. revert w. induction n as [|n IH]; intros w HI Hret Hlen; cbn [sched_passes].
  - apply wp_ret. split_and!; auto; [lia|reflexivity].
  - apply wp_bind. eapply wp_mono; [apply (wp_sched_slots I time pre Hpre task_body); auto; rewrite Hlen; reflexivity|].
    intros u w1 (HI1 & Ht1 & Hs1). pose proof (same_tasks_length _ _ Hs1).
    eapply wp_mono; [apply (IH w1 HI1); [exact (same_tasks_return I time _ _ _ Hs1 Hret)|lia]|].
    intros u2 w2 (HI2 & Ht2 & Hs2). split_and!; auto; [lia|]. unfold same_tasks in *. congruence.
Qed.

(** The scheduler is cooperative: a due task that never returns stops it. *)
Theorem sched_slot_hangs i e p lr w :
  passes_time I time pre -> (forall w, task_body e w = Hang) ->
  I w -> task_table (st w) !! i = Some (Task (Some e) p lr) ->
  (forall w0, I w0 -> time w <= time w0 -> due (u32 (time w0)) (Task (Some e) p lr) = true) ->
  sched_slot pre task_body i w = Hang.
Proof.
  intros Hpre Hh HI Hi Hd.
  assert (forall w (k : Z -> M D unit), I w -> exists w', I w' /\ time w <= time w' /\
    task_table (st w') = task_table (st w) /\
    bind (systime_get pre) k w = k (u32 (time w')) w') as Hget.
  { intros w1 k HI1. destruct (wp_done _ _ _ (Hpre w1 HI1)) as ([] & w' & E & HI' & Ht & Htab).
    exists w'. split_and!; auto. unfold systime_get, bind, get_st, ret. rewrite E, (clock_systime w' HI').
    reflexivity. }
  unfold sched_slot, get_task. unfold bind at 1. unfold bind at 1. cbn [get_st]. rewrite Hi. cbn [of_option ret entry].
  destruct (Hget w (fun now => if due now (Task (Some e) p lr) then
      (let! t := systime_get pre in set_last_run i t ;;; task_body e) else ret tt) HI)
    as (w0 & HI0 & Ht0 & Htab0 & E0).
  rewrite E0, Hd by auto.
  destruct (Hget w0 (fun t => set_last_run i t ;;; task_body e) HI0) as (w1 & HI1 & Ht1 & Htab1 & E1).
  rewrite E1. unfold set_last_run, get_task, bind. cbn [get_st]. rewrite Htab1, Htab0, Hi. apply Hh.
Qed.

End Theorems.

(** ** Witnesses

    A clock that stands still at 7 ms and one task of period 5 ms. *)

Definition still (w : world unit) : Prop := systime (st w) = 7.

#[local] Instance still_clock : Clock still (fun _ => 7).
Proof. constructor; [auto|lia|]. intros w t Hw. auto. Qed.

Lemma still_ret : passes_time still (fun _ => 7) (ret tt).
Proof. intros w Hw. apply wp_ret. split_and!; auto; lia. Qed.

Definition still_world : world unit :=
  World tt [] (set_task_table (<[0%nat := Task (Some task0_ptr) 5 0]> (task_table statics0))
    (set_systime 7 statics0)) true.

Lemma sched_add_task_appends_witness :
  wp (sched_add_task (Some task0_ptr) 5000) (fun r w' => r = SCHED_OK \/ r = SCHED_TOO_MANY_TASKS)
    (World tt [] statics0 true).
Proof.
  eapply wp_mono; [apply (sched_add_task_appends (World tt [] statics0 true) (Some task0_ptr) 5000);
    exact statics0_wf|].
  intros r w' (_ & [(H & _)|(H & _)]); auto.
Defined.

Lemma due_wraparound_witness :
  due (u32 (2 ^ 32 + 10)) (Task None 20 (u32 (2 ^ 32 - 10))) = true.
Proof. apply (proj2 (due_wraparound (2 ^ 32 + 10) (2 ^ 32 - 10) None 20 ltac:(lia))); lia. Defined.

Lemma sched_slot_respects_period_witness :
  wp (sched_slot (ret tt) (fun _ => ret tt) 0) (fun _ w' => still w') still_world.
Proof.
  eapply wp_mono; [apply (sched_slot_respects_period still (fun _ => 7) (ret tt) (fun _ => ret tt)
    0 task0_ptr 5 0 still_world);
    [exact still_ret|exact still_ret|reflexivity|reflexivity|lia]|].
  intros u w' (H & _). exact H.
Defined.

Lemma sched_passes_return_witness :
  wp (sched_passes (ret tt) (fun _ => ret tt) 3) (fun _ w' => still w') still_world.
Proof.
  eapply wp_mono; [apply (sched_passes_return still (fun _ => 7) (ret tt) (fun _ => ret tt) 3 still_world);
    [exact still_ret|reflexivity|intros i t e _ _; exact still_ret|reflexivity]|].
  intros u w' (H & _). exact H.
Defined.

Lemma sched_slot_hangs_witness :
  sched_slot (ret tt) (fun _ => hang) 0 still_world = Hang.
Proof.
  apply (sched_slot_hangs still (fun _ => 7) (ret tt) (fun _ => hang) 0 task0_ptr 5 0 still_world);
    [exact still_ret|reflexivity|reflexivity|reflexivity|reflexivity].
Defined.

End Sched.
