(* ===== verification/Tasks.v ===== *)
(** * Tasks: the demonstration tasks (tasks.c, tasks.h)

    Each task prints the system time and then spins on [systime_get] for a
    second ([task2] for ever).  They run in thread context, so an interrupt may
    be taken before each of their accesses; the theorems are stated for any
    interruption hook that keeps an invariant and lets time pass. *)

From stdpp Require Import base list strings.
From S2P Require Import Prelude Machine Uart Ptimer Sched.
Import Uart Systime Sched.

Module Tasks.

Definition enter_message (k : string) : list Z := bytes_of ("Entering task " ++ k ++ "... systime ").
Definition exit_message (k : string) : list Z := bytes_of ("Exiting task " ++ k ++ "...") ++ [10].

Section Driver.
Context {D : Type} {B : Bus D} (pre : M D unit) (fuel : nat).

(** [while (start + 1000u > systime_get());] *)
Fixpoint busy_wait (n : nat) (start : Z) : M D unit :=
  match n with
  | O => hang
  | S n =>
    let! now := systime_get pre in
    if now <? u32 (start + 1000) then busy_wait n start else ret tt
  end.

Definition task0 : M D unit :=
  let! start := systime_get pre in
  uart_write pre fuel (enter_message "0") ;;;
  uart_write_uint pre fuel start ;;;
  uart_write pre fuel [10] ;;;
  busy_wait fuel start ;;;
  uart_write pre fuel (exit_message "0").

Definition task1 : M D unit :=
  let! start := systime_get pre in
  uart_write pre fuel (enter_message "1") ;;;
  uart_write_uint pre fuel start ;;;
  uart_write pre fuel [10] ;;;
  busy_wait fuel start ;;;
  uart_write pre fuel (exit_message "1").

(** [while(1);] outlives any fuel. *)
Definition task2 : M D unit :=
  let! start := systime_get pre in
  uart_write pre fuel (enter_message "2") ;;;
  uart_write_uint pre fuel start ;;;
  uart_write pre fuel [10] ;;;
  hang.

Definition task_body (t : task_entry_ptr) : M D unit :=
  match t with task0_ptr => task0 | task1_ptr => task1 | task2_ptr => task2 end.

End Driver.

(** ** Waiting *)

Section Wait.
Context {D : Type} (I : world D -> Prop) (time : world D -> Z) {C : Clock I time}.
Context (pre : M D unit) (jump : Z).
Implicit Types w : world D.

(** Within [k] interruption points the clock advances, by at most [jump]. *)
Fixpoint ticks_within (k : nat) (w : world D) : Prop :=
  match k with
  | O => False
  | S k => wp pre (fun _ w' => I w' /\ time w <= time w' <= time w + jump /\
      task_table (st w') = task_table (st w) /\
      (time w < time w' \/ ticks_within k w')) w
  end.

Context (K : nat) (Hticks : forall w, I w -> ticks_within K w).

(** Reading the low 32 bits inside one wrap period of the counter. *)
Lemma u32_epoch T0 T : T0 <= T < T0 - u32 T0 + 2 ^ 32 -> u32 T = T - (T0 - u32 T0).
Proof.
  intros H. pose proof (u32_range T0). unfold u32, wrap in *.
  replace T with ((T - (T0 - T0 mod 2 ^ 32)) + (T0 / 2 ^ 32) * 2 ^ 32) at 1
    by (pose proof (Z.div_mod T0 (2 ^ 32) ltac:(lia)); lia).
  rewrite Z_mod_plus_full. apply Z.mod_small. lia.
Qed.

(** The wait ends, and not before a full second of true time, as long as it
    stays inside one wrap period of the counter. *)
Lemma wp_busy_wait T0 n : forall k w,
  let epoch_end := T0 - u32 T0 + 2 ^ 32 in
  I w -> ticks_within k w -> T0 <= time w ->
  time w + jump < epoch_end -> T0 + 1000 + jump < epoch_end ->
  Z.of_nat K * Z.max 0 (T0 + 1000 - time w) + Z.of_nat k <= Z.of_nat n ->
  wp (busy_wait pre n (u32 T0)) (fun _ w' => I w' /\ T0 + 1000 <= time w' <= Z.max (time w) (T0 + 1000) + jump /\
    time w <= time w' /\ task_table (st w') = task_table (st w)) w.
Proof.
  induction n as [|n IH]; intros k w ee HI Hk HT Hw1 Hw2 Hn; (destruct k as [|k]; [destruct Hk|]);
    [nia|].
  cbn [busy_wait]. unfold systime_get. apply wp_bind, wp_bind. eapply wp_mono; [exact Hk|].
  intros _ w' (HI' & Hle & Htab & Hor). apply wp_bind, wp_get_st, wp_ret.
  rewrite (clock_systime w' HI'), (u32_epoch T0 (time w')), (u32_small (u32 T0 + 1000))
    by (pose proof (u32_range T0); lia).
  destruct (Z.ltb_spec (time w' - (T0 - u32 T0)) (u32 T0 + 1000)) as [Hlt|Hge].
  - assert (exists k', ticks_within k' w' /\
      Z.of_nat K * Z.max 0 (T0 + 1000 - time w') + Z.of_nat k' <= Z.of_nat n) as (k' & Hk' & Hn').
    { destruct Hor as [Hadv|Hk'].
      - exists K. split; [auto|]. nia.
      - exists k. split; [auto|]. nia. }
    eapply wp_mono; [apply (IH k' w'); auto; lia|].
    intros _ w2 (HI2 & H1 & H2 & H3). split_and!; auto; [lia|lia|lia|congruence].
  - apply wp_ret. split_and!; auto; lia.
Qed.

End Wait.

(** ** Printing in thread context *)

Section Thread.
Context {D : Type} {B : Bus D} (I : world D -> Prop) (time : world D -> Z) {C : Clock I time}.
Context (pre : M D unit) (fuel : nat) (jump slack : Z).
Implicit Types w : world D.

(** [m] returns, keeps [I] and the task table, and takes at most [n] ms. *)
Definition takes {A} (n : Z) (m : M D A) : Prop :=
  forall w, I w -> wp m (fun _ w' => I w' /\ time w <= time w' <= time w + n /\
    task_table (st w') = task_table (st w)) w.

Lemma takes_seq {A A'} n1 n2 (m1 : M D A) (m2 : M D A') :
  takes n1 m1 -> takes n2 m2 -> takes (n1 + n2) (m1 ;;; m2).
Proof.
  intros H1 H2 w HI. apply wp_bind. eapply wp_mono; [exact (H1 w HI)|].
  intros u w1 (HI1 & Ht1 & Htab1). eapply wp_mono; [exact (H2 w1 HI1)|].
  intros u2 w2 (HI2 & Ht2 & Htab2). split_and!; auto; [lia|lia|congruence].
Qed.

(** What printing relies on while interrupts are on: an interruption point takes
    at most [jump] ms, a writable transmit FIFO is seen within [slack] ms, and
    writing the data register disturbs neither the invariant nor the clock. *)
Class ThreadIO : Prop := {
  io_pre : takes jump pre;
  io_poll : takes slack (poll_while pre fuel (ureg "FR") FR_TXFF);
  io_write : forall c, takes 0 (raw_write (ureg "DR") c);
}.

Context {IO : ThreadIO}.

Lemma takes_putchar c : takes (slack + jump) (uart_putchar pre fuel c).
Proof.
  apply takes_seq; [exact io_poll|]. replace jump with (jump + 0) by lia.
  apply takes_seq; [exact io_pre|apply io_write].
Qed.

Lemma takes_write data :
  takes (Z.of_nat (length data) * (slack + jump)) (uart_write pre fuel data).
Proof.
  induction data as [|c data IH]; cbn [uart_write length].
  - intros w HI. apply wp_ret. split_and!; auto; lia.
  - replace (Z.of_nat (S (length data)) * (slack + jump))
      with ((slack + jump) + Z.of_nat (length data) * (slack + jump)) by lia.
    apply takes_seq; [apply takes_putchar|exact IH].
Qed.

(** Printing a time stamp below 10^8: at most eight characters. *)
Lemma takes_write_uint num : 0 <= slack + jump -> 0 <= num < 10 ^ 8 ->
  takes (8 * (slack + jump)) (uart_write_uint pre fuel num).
Proof.
  intros Hs Hn w HI. unfold uart_write_uint.
  destruct (digits_fit 8 10 [] num) as (ds & E & HF & Hv & _); [exact Hn|cbn; lia|lia|].
  assert (length ds <= 8)%nat as Hlen.
  { assert (forall n b x l, digits n b x = Some l -> (length l <= 8)%nat) as Hd; [|exact (Hd _ _ _ _ E)].
    clear. induction n as [|n IH]; intros b x l; cbn [digits]; [discriminate|].
    destruct (Z.ltb_spec (Z.of_nat (length b)) 8); [|discriminate].
    destruct (x / 10 =? 0); [|apply IH]. intros [= <-]. rewrite length_app. cbn. lia. }
  apply wp_bind. eapply wp_of_option; [exact E|]. eapply wp_mono; [apply takes_write; exact HI|].
  intros u w' (HI' & Ht & Htab). rewrite length_rev in Ht. cbn [app] in Ht. split_and!; auto; nia.
Qed.

(** The longest time [task0] and [task1] take: the second they wait, and what 54
    characters and two looks at the clock take. *)
Definition task_cost : Z := 1000 + 54 * (slack + jump) + 2 * jump.

Lemma wp_timed_task enter exit K w :
  length enter = 27%nat -> length exit = 18%nat ->
  0 <= slack -> 0 <= jump -> (forall w, I w -> ticks_within I time pre jump K w) ->
  I w -> time w + task_cost < 10 ^ 8 -> (K * 1001 <= fuel)%nat ->
  wp (let! start := systime_get pre in
      uart_write pre fuel enter ;;; uart_write_uint pre fuel start ;;; uart_write pre fuel [10] ;;;
      busy_wait pre fuel start ;;; uart_write pre fuel exit)
    (fun _ w' => I w' /\ time w + 1000 <= time w' <= time w + task_cost /\
      task_table (st w') = task_table (st w)) w.
Proof.
  intros Hen Hex Hs0 Hj0 Hticks HI Hlt Hfuel. unfold task_cost in *. apply wp_bind, wp_bind.
  eapply wp_mono; [exact (io_pre w HI)|]. intros u0 w1 (HI1 & Ht1 & Htab1).
  apply wp_bind, wp_get_st, wp_ret. rewrite (clock_systime w1 HI1).
  pose proof (clock_nonneg w HI). pose proof (u32_small (time w1) ltac:(lia)) as Hu.
  apply wp_bind. eapply wp_mono; [exact (takes_write enter w1 HI1)|]. rewrite Hen. change (Z.of_nat 27) with 27.
  intros u1 w2 (HI2 & Ht2 & Htab2). apply wp_bind.
  eapply wp_mono; [apply (takes_write_uint (u32 (time w1))); [lia|lia|exact HI2]|].
  intros u2 w3 (HI3 & Ht3 & Htab3). apply wp_bind.
  eapply wp_mono; [exact (takes_write [10] w3 HI3)|]. change (Z.of_nat (length [10])) with 1.
  intros u3 w4 (HI4 & Ht4 & Htab4). apply wp_bind.
  eapply wp_mono; [apply (wp_busy_wait I time pre jump K Hticks (time w1) fuel K); auto; nia|].
  intros u4 w5 (HI5 & Ht5 & Ht5' & Htab5).
  eapply wp_mono; [exact (takes_write exit w5 HI5)|]. rewrite Hex. change (Z.of_nat 18) with 18.
  intros u5 w6 (HI6 & Ht6 & Htab6). split_and!; auto; [lia|lia|congruence].
Qed.

Lemma wp_task_body t K w : t <> task2_ptr ->
  0 <= slack -> 0 <= jump -> (forall w, I w -> ticks_within I time pre jump K w) ->
  I w -> time w + task_cost < 10 ^ 8 -> (K * 1001 <= fuel)%nat ->
  wp (task_body pre fuel t) (fun _ w' => I w' /\ time w + 1000 <= time w' <= time w + task_cost /\
    task_table (st w') = task_table (st w)) w.
Proof. intros Ht. destruct t; [| |congruence]; apply wp_timed_task; reflexivity. Qed.

(** ** Theorems *)

(** C35: Once started early enough that neither the print buffer nor the counter
    overflows, [task0] and [task1] return, after a full second of true time and
    not much later. *)
Theorem tasks_take_a_second t K w : t <> task2_ptr ->
  0 <= slack -> 0 <= jump -> (forall w, I w -> ticks_within I time pre jump K w) ->
  I w -> time w + task_cost < 10 ^ 8 -> (K * 1001 <= fuel)%nat ->
  wp (task_body pre fuel t) (fun _ w' => I w' /\ time w + 1000 <= time w' <= time w + task_cost /\
    task_table (st w') = task_table (st w)) w.
Proof. exact (wp_task_body t K w). Qed.

(** [task2] never returns. *)
Lemma task2_loops w : task2 pre fuel w = Hang \/ task2 pre fuel w = Fault.
Proof.
  unfold task2, bind, hang. destruct (systime_get pre w) as [[a w1]| |]; auto.
  destruct (uart_write pre fuel _ w1) as [[? w2]| |]; auto.
  destruct (uart_write_uint pre fuel a w2) as [[? w3]| |]; auto.
  destruct (uart_write pre fuel [10] w3) as [[? w4]| |]; auto.
Qed.

(** In the last second before the counter wraps, the deadline [start + 1000u]
    wraps too and the wait ends at its first look at the clock. *)
Theorem busy_wait_wraps n start w w1 :
  2 ^ 32 - 1000 <= start < 2 ^ 32 -> pre w = Done (tt, w1) -> start <= systime (st w1) ->
  busy_wait pre (S n) start w = Done (tt, w1).
Proof.
  intros Hs E Hle. cbn [busy_wait]. unfold systime_get, bind, get_st, ret. rewrite E.
  assert (u32 (start + 1000) = start + 1000 - 2 ^ 32) as ->.
  { symmetry. apply (Z.mod_unique _ _ 1); lia. }
  destruct (Z.ltb_spec (systime (st w1)) (start + 1000 - 2 ^ 32)); [lia|reflexivity].
Qed.

End Thread.

Lemma busy_wait_wraps_witness :
  busy_wait (ret tt) 1 (2 ^ 32 - 1) (World tt [] (set_systime (2 ^ 32 - 1) statics0) true) =
    Done (tt, World tt [] (set_systime (2 ^ 32 - 1) statics0) true).
Proof. apply (busy_wait_wraps (ret tt) 0 (2 ^ 32 - 1)); [lia|reflexivity|cbn; lia]. Defined.

End Tasks.
