(* ===== verification/System.v ===== *)
(** * System: the chapter 8 program put together (cstart.c, startup.s's IRQ entry)

    [preempt] is what the CPU does at an interruption point of thread code: time
    passes, and while interrupts are unmasked and the IRQ line is high the
    exception handler runs with interrupts masked.  [main] is the program.  The
    handlers meet the interface [irq_handler] needs, and the whole meets the
    interface the scheduler and the tasks need. *)

From stdpp Require Import base list strings.
From S2P Require Import Prelude Machine Board Gic Irq Double Uart Ptimer Sched Tasks.
Import Gic Irq Uart Systime Ptimer Sched Tasks.

Module System.

Section Program.
Context {D : Type} {B : Bus D} (fuel : nat).

(** The functions behind the [isr_ptr] values; they run with IRQs masked. *)
Definition isr_body (p : isr_ptr) : M D unit :=
  match p with
  | uart_isr_ptr => uart_isr (ret tt) fuel
  | ptimer_isr_ptr => ptimer_isr (ret tt)
  end.

Definition pass_tick : M D unit :=
  fun w => Done (tt, World (bus_tick (dev w)) (trace w) (st w) (irqs_on w)).

Definition set_irqs (b : bool) : M D unit :=
  fun w => Done (tt, World (dev w) (trace w) (st w) b).

(** Exception entry masks interrupts, exception return restores the mask. *)
Definition take_irq : M D unit :=
  set_irqs false ;;; irq_handler (ret tt) isr_body ;;; set_irqs true.

(** At most [burst] exceptions are taken back to back at one point. *)
Fixpoint service (burst : nat) : M D unit :=
  match burst with
  | O => ret tt
  | S n => fun w =>
      if irqs_on w && bus_irq (dev w) then (take_irq ;;; service n) w else Done (tt, w)
  end.

Definition preempt (burst : nat) : M D unit := pass_tick ;;; service burst.

(** [main] up to the call of [sched_run]. *)
Definition main_setup (burst : nat) : M D unit :=
  let pre := preempt burst in
  uart_configure pre fuel (UartConfig 8 1 false 9600) ;;;
  uart_write pre fuel (bytes_of "Welcome to Chapter 8, Scheduling!" ++ [10]) ;;;
  gic_init pre ;;;
  gic_enable_interrupt pre UART0_INTERRUPT ;;;
  gic_enable_interrupt pre PTIMER_INTERRUPT ;;;
  cpu_enable_interrupts ;;;
  let! r := ptimer_init pre 1 in
  (if decide (r = PTIMER_OK) then ret tt
   else uart_write pre fuel (bytes_of "Failed to initialize CPU timer!" ++ [10])) ;;;
  sched_add_task (Some task0_ptr) 5000 ;;;
  sched_add_task (Some task1_ptr) 2000 ;;;
  ret tt.

(** [main], with [sched_run] cut off after [n] turns of its endless loop. *)
Definition main (burst n : nat) : M D unit :=
  main_setup burst ;;;
  sched_run (preempt burst) (task_body (preempt burst) fuel) n.

End Program.

(** Running the program on the board: the console output of the first passes. *)
Definition console {D A} (o : outcome (A * world D)) : list Z :=
  match o with Done (_, w) => sent (trace w) | _ => [] end.

#[global] Instance quiet_preempt {D} {B : Bus D} fuel burst : Quiet (preempt (D := D) fuel burst).
Proof.
  intros w Hi. exists (bus_tick (dev w)). split; [right; reflexivity|].
  unfold preempt, bind, pass_tick. rewrite Hi. destruct burst; cbn; [reflexivity|].
  reflexivity.
Qed.

(** ** True time *)

(** The private timer's interrupt status register, and the number of timer
    interrupts acknowledged in a trace: the true number of elapsed ticks. *)
Definition timer_isr_reg {D} {B : Bus D} : Z := treg (PTIMER_BASE (D := D)) "ISR".

Section Ticks.
Context {D : Type} {B : Bus D}.

Definition is_tick (e : mmio) : bool :=
  match e with
  | Wr a v => (a =? timer_isr_reg (D := D)) && (v =? ISR_CLEAR)
  | Rd _ _ => false
  end.

Fixpoint ticks (tr : list mmio) : Z :=
  match tr with
  | [] => 0
  | e :: tr => (if is_tick e then 1 else 0) + ticks tr
  end.

Lemma ticks_app es1 es2 : ticks (es1 ++ es2) = ticks es1 + ticks es2.
Proof. induction es1; cbn [ticks app]; lia. Qed.

Lemma ticks_nonneg es : 0 <= ticks es.
Proof. induction es as [|e es IH]; cbn; [lia|]. destruct (is_tick e); lia. Qed.

Lemma ticks_poll a m es : poll_trace a m es -> ticks es = 0.
Proof. induction 1; cbn; auto. Qed.

(** The peripherals of the board do not overlap. *)
Class BoardMap : Prop := {
  map_periph : 0 <= bus_periphbase <= 2 ^ 32 - 0x2000;
  map_uart : timer_isr_reg (D := D) < uart0 \/ uart0 + sizeof uart_registers <= timer_isr_reg (D := D);
}.

Context {BM : BoardMap}.

Lemma timer_isr_reg_eq : timer_isr_reg (D := D) = bus_periphbase + 0x60C.
Proof.
  unfold timer_isr_reg, PTIMER_BASE, field. pose proof map_periph.
  change (offset_of _ _) with 12. rewrite (u32_small bus_periphbase), u32_small by (unfold PTIMER_OFFSET; lia).
  unfold PTIMER_OFFSET. lia.
Qed.

(** A write elsewhere is no tick. *)
Lemma ticks_other a v es : a <> timer_isr_reg (D := D) -> ticks (Wr a v :: es) = ticks es.
Proof. intros H. cbn [ticks is_tick]. rewrite (proj2 (Z.eqb_neq _ _) H). reflexivity. Qed.

Lemma ureg_no_tick o : 0 <= o < sizeof uart_registers -> uart0 + o <> timer_isr_reg (D := D).
Proof. pose proof map_uart. lia. Qed.

Lemma gic_no_tick b o : b = bus_periphbase + 0x100 \/ b = bus_periphbase + 0x1000 ->
  0 <= o -> (b = bus_periphbase + 0x100 -> o < 0x100) -> b + o <> timer_isr_reg (D := D).
Proof. rewrite timer_isr_reg_eq. lia. Qed.

Lemma ticks_tx cs es : tx_trace cs es -> ticks es = 0.
Proof.
  induction 1 as [|c cs ps es Hp Ht IH]; [reflexivity|].
  rewrite ticks_app, (ticks_poll _ _ _ Hp), ticks_other; [exact IH|].
  apply ureg_no_tick. vm_compute. split; congruence.
Qed.

Lemma ticks_isr es : isr_trace es -> ticks es = 0.
Proof.
  destruct 1 as [s d es ? Ht|s es ? ? Ht|]; [exact (ticks_tx _ _ Ht)| |reflexivity].
  cbn [ticks is_tick]. rewrite ticks_app, (ticks_tx _ _ Ht), !ticks_other; [reflexivity| |];
    apply ureg_no_tick; vm_compute; split; congruence.
Qed.

End Ticks.
Arguments BoardMap D {B}.
Arguments ticks D {B}.

(** ** The interrupt handlers meet [irq_handler]'s interface *)

Section Handlers.
Context {D : Type} {B : Bus D} (P : D -> Prop) {PL : Pl011 P} (fuel : nat).
Context (Hfuel : (pl_bound <= fuel)%nat).

#[local] Instance isr_table : IsrTable P table_wf (isr_body fuel).
Proof.
  refine {| isr_effect := fun p s es s' =>
    match p with
    | uart_isr_ptr => s' = s /\ isr_trace es
    | ptimer_isr_ptr => s' = set_systime (u32 (systime s + 1)) s /\
                        es = [Wr (treg (ptimer_regs s) "ISR") ISR_CLEAR]
    end |}.
  - intros [] s es s' [-> _] Hok; auto.
  - intros [] w Hi HP Hok; cbn [isr_body].
    + apply (wp_uart_isr _ P fuel Hfuel); auto. intros w' es Ht Hx.
      exists es, (st w). rewrite with_st_id. auto.
    + apply (wp_ptimer_isr _ P); auto. intros w' Hx. eexists _, _. split; [split; reflexivity|exact Hx].
Defined.

Context {BM : BoardMap D}.

(** The program after its set-up: device, tables and pointers in order, and
    [systime] the low 32 bits of the true time. *)
Record ready (w : world D) : Prop := {
  rdy_dev : P (dev w);
  rdy_table : table_wf (st w);
  rdy_gic : gic_ifregs (st w) = bus_periphbase + 0x100;
  rdy_timer : ptimer_regs (st w) = PTIMER_BASE (D := D);
  rdy_time : systime (st w) = u32 (ticks D (trace w));
}.

(** What interrupts may do to the statics: move [systime] on. *)
Definition only_time (s s' : statics) : Prop := s' = set_systime (systime s') s.

Lemma only_time_refl s : only_time s s.
Proof. destruct s. reflexivity. Qed.

Lemma only_time_trans s1 s2 s3 : only_time s1 s2 -> only_time s2 s3 -> only_time s1 s3.
Proof. unfold only_time. intros H1 H2. rewrite H2, H1. reflexivity. Qed.

(** [interrupted n w w']: between [w] and [w'] at most [n] timer interrupts were
    taken; only [systime], the device and the trace moved on. *)
Record interrupted (n : Z) (w w' : world D) : Prop := {
  int_ready : ready w';
  int_irqs : irqs_on w' = irqs_on w;
  int_time : ticks D (trace w) <= ticks D (trace w') <= ticks D (trace w) + n;
  int_st : only_time (st w) (st w');
  int_trace : trace w `prefix_of` trace w';
}.

Lemma interrupted_refl n w : 0 <= n -> ready w -> interrupted n w w.
Proof. intros Hn Hr. constructor; auto using only_time_refl; first [lia | reflexivity]. Qed.

Lemma interrupted_trans n1 n2 w1 w2 w3 :
  interrupted n1 w1 w2 -> interrupted n2 w2 w3 -> interrupted (n1 + n2) w1 w3.
Proof.
  intros [R1 I1 T1 S1 X1] [R2 I2 T2 S2 X2].
  constructor; [exact R2|congruence|lia|exact (only_time_trans _ _ _ S1 S2)|].
  etransitivity; eassumption.
Qed.

(** The effect of one dispatched interrupt on the clock. *)
Lemma dispatch_time irq w es s' :
  ready w -> dispatch_effect P table_wf (isr_body fuel) irq (st w) es s' ->
  only_time (st w) s' /\ table_wf s' /\ 0 <= ticks D es <= 1 /\
    systime s' = u32 (systime (st w) + ticks D es).
Proof.
  intros [Hd Ht Hg Hp Hs] He. unfold dispatch_effect in He.
  destruct (registry _ _) as [[|]|]; cbn in He.
  - destruct He as [-> He]. rewrite (ticks_isr _ He), Hs, Z.add_0_r, u32_u32.
    split_and!; auto using only_time_refl; lia.
  - destruct He as [-> ->]. rewrite Hp. cbn [ticks is_tick].
    change (treg PTIMER_BASE "ISR") with (timer_isr_reg (D := D)). rewrite !Z.eqb_refl. cbn.
    split_and!; auto; try lia. reflexivity.
  - destruct He as [-> ->]. cbn. rewrite Hs, Z.add_0_r, u32_u32.
    split_and!; auto using only_time_refl; lia.
Qed.

(** One exception advances the true time by one tick or not at all. *)
Lemma wp_take_irq w :
  ready w -> irqs_on w = true -> wp (take_irq fuel) (fun _ w' => interrupted 1 w w') w.
Proof.
  intros Hr Hi. pose proof Hr as [Hd Ht Hg Hp Hs]. unfold take_irq. apply wp_bind.
  change (wp (set_irqs false) ?Q w) with (Q tt (World (dev w) (trace w) (st w) false)).
  cbv beta. apply wp_bind.
  eapply wp_mono; [apply (wp_irq_handler _ P table_wf (isr_body fuel)); auto|].
  cbn [st trace dev irqs_on]. intros _ w' (v & es & s' & He & [Tx Sx Ix Dx]).
  change (wp (set_irqs true) ?Q w') with (Q tt (World (dev w') (trace w') (st w') true)). cbv beta.
  cbn in Tx, Sx, Dx. destruct (dispatch_time _ w es s' Hr He) as (Ho & Hw' & He1 & Hsys).
  assert (ticks D (trace w') = ticks D (trace w) + ticks D es) as Htk.
  { rewrite Tx, Hg, ticks_app. change (ticks D (Rd ?a ?x :: ?l)) with (ticks D l).
    rewrite ticks_app, ticks_other; [cbn; lia|].
    unfold field. change (offset_of _ _) with 16. apply gic_no_tick; lia. }
  constructor; cbn [st trace irqs_on]; rewrite ?Sx; auto; [|lia|rewrite Tx; apply prefix_app_r; reflexivity].
  constructor; cbn [dev st trace]; rewrite ?Sx; auto; try (rewrite Ho; assumption).
  rewrite Hsys, Hs, Htk, u32_add_l. reflexivity.
Qed.

Lemma wp_service n : forall w,
  ready w -> wp (service fuel n) (fun _ w' => interrupted (Z.of_nat n) w w') w.
Proof.
  induction n as [|n IH]; intros w Hr; cbn [service].
  - apply wp_ret, interrupted_refl; [lia|exact Hr].
  - unfold wp at 1. destruct (irqs_on w && bus_irq (dev w)) eqn:E.
    2: { apply interrupted_refl; [lia|exact Hr]. }
    apply andb_true_iff in E as [Ei _].
    change (wp (take_irq fuel ;;; service fuel n) (fun _ w' => interrupted (Z.of_nat (S n)) w w') w).
    apply wp_bind. eapply wp_mono; [exact (wp_take_irq w Hr Ei)|].
    intros u1 w1 H1. eapply wp_mono; [exact (IH w1 (int_ready _ _ _ H1))|].
    intros u2 w2 H2. replace (Z.of_nat (S n)) with (1 + Z.of_nat n) by lia.
    exact (interrupted_trans _ _ _ _ _ H1 H2).
Qed.

Lemma wp_preempt burst w :
  ready w -> wp (preempt fuel burst) (fun _ w' => interrupted (Z.of_nat burst) w w') w.
Proof.
  intros [Hd Ht Hg Hp Hs]. unfold preempt. apply wp_bind.
  change (wp pass_tick ?Q w) with (Q tt (World (bus_tick (dev w)) (trace w) (st w) (irqs_on w))).
  cbv beta. eapply wp_mono; [apply wp_service|].
  - constructor; auto. apply stable_tick. exact Hd.
  - intros _ w' [R I T S X]. constructor; auto.
Qed.

(** *** Thread code with interrupts on *)

Lemma wp_thread_write burst a v w (Q : unit -> world D -> Prop) :
  ready w -> a <> timer_isr_reg (D := D) ->
  (forall w', interrupted (Z.of_nat burst) w w' -> Q tt w') ->
  wp (reg_write (preempt fuel burst) a v) Q w.
Proof.
  intros Hr Ha HQ. apply wp_bind. eapply wp_mono; [exact (wp_preempt burst w Hr)|].
  intros _ w1 [[Hd Ht Hg Hp Hs] I T S X]. apply wp_raw_write, HQ.
  assert (ticks D (trace w1 ++ [Wr a (u32 v)]) = ticks D (trace w1)) as E.
  { rewrite ticks_app, ticks_other by exact Ha. cbn. lia. }
  constructor; cbn [dev st trace irqs_on]; rewrite ?E; auto; [|apply prefix_app_r; exact X].
  constructor; cbn [dev st trace]; rewrite ?E; auto. apply stable_write. exact Hd.
Qed.

Lemma ready_callbacks w c : ready w -> length c = Z.to_nat ISR_COUNT ->
  ready (with_st (set_callbacks c (st w)) w).
Proof. intros [Hd Ht Hg Hp Hs] Hc. constructor; auto. Qed.

Lemma wp_ptimer_init_thread burst ms v w (Q : ptimer_error -> world D -> Prop) :
  P (dev w) -> table_wf (st w) -> gic_ifregs (st w) = bus_periphbase + 0x100 ->
  systime (st w) = u32 (ticks D (trace w)) ->
  0 <= ms < 2 ^ 16 -> millisecs_to_timer_value ms = Some v ->
  (forall w', ready w' -> irqs_on w' = irqs_on w -> trace w `prefix_of` trace w' ->
    ticks D (trace w') <= ticks D (trace w) + 2 * Z.of_nat burst ->
    (exists cs t, st w' = set_systime t (set_callbacks cs (set_ptimer_regs PTIMER_BASE (st w)))) ->
    (forall n, registry (st w') n =
      snd (spec_register (registry (st w)) PTIMER_INTERRUPT (Some ptimer_isr_ptr)) n) ->
    Q PTIMER_OK w') ->
  wp (ptimer_init (preempt fuel burst) ms) Q w.
Proof.
  intros Hd Ht Hg Hs Hms Hv HQ. unfold ptimer_init.
  apply wp_bind, wp_modify_st. rewrite validate_config_always by exact Hms. cbn [negb].
  apply wp_bind. eapply wp_of_option; [exact Hv|]. apply wp_bind, wp_get_st.
  cbn [st with_st ptimer_regs set_ptimer_regs]. pose proof (map_periph (D := D)).
  assert (PTIMER_BASE (D := D) = bus_periphbase + 0x600) as Hb.
  { unfold PTIMER_BASE, PTIMER_OFFSET. rewrite (u32_small bus_periphbase), u32_small by lia. reflexivity. }
  apply wp_bind, wp_thread_write; [constructor; auto| |].
  { rewrite timer_isr_reg_eq, Hb. unfold field. change (offset_of _ _) with 0. lia. }
  intros w1 [R1 I1 T1 S1 X1]. apply wp_bind.
  eapply wp_mono; [apply wp_irq_register_isr; [exact (rdy_table _ R1)|unfold PTIMER_INTERRUPT; lia]|].
  intros r w2 (s' & -> & Hw' & (cs & Hcs) & _ & Hreg). apply wp_bind, wp_get_st. cbn [st with_st].
  assert (ready (with_st s' w1)) as R2 by (rewrite Hcs; apply ready_callbacks; [exact R1|rewrite Hcs in Hw'; exact Hw']).
  apply wp_bind, wp_thread_write; [exact R2| |].
  { rewrite timer_isr_reg_eq, (rdy_timer _ R2 : ptimer_regs s' = _), Hb. unfold field.
    change (offset_of _ _) with 8. lia. }
  intros w3 [R3 I3 T3 S3 X3]. apply wp_ret, HQ; auto.
  - cbn in I1, I3. congruence.
  - cbn in X1, X3. etransitivity; eassumption.
  - cbn in T1, T3. lia.
  - exists cs, (systime (st w3)). unfold only_time in S1, S3. cbn [st with_st] in S1, S3.
    rewrite S3 at 1. rewrite Hcs, S1. reflexivity.
  - intros n. unfold only_time in S1, S3. cbn [st with_st] in S1, S3.
    assert (registry (st w3) n = registry s' n) as -> by (rewrite S3; reflexivity).
    assert (registry (st w1) = registry (st w)) as E by (rewrite S1; reflexivity).
    rewrite Hreg, E.
    reflexivity.
Qed.

#[local] Instance ready_clock : Clock ready (fun w => ticks D (trace w)).
Proof.
  constructor.
  - intros w Hr. exact (rdy_time w Hr).
  - intros w _. apply ticks_nonneg.
  - intros w t [Hd Ht Hg Hp Hs]. split; [constructor; auto|reflexivity].
Qed.

Lemma preempt_passes_time burst :
  passes_time ready (fun w => ticks D (trace w)) (preempt fuel burst).
Proof.
  intros w Hr. eapply wp_mono; [exact (wp_preempt burst w Hr)|].
  intros u w' [R I T S X]. unfold only_time in S. split_and!; auto; [lia|]. rewrite S. reflexivity.
Qed.

(** *** Boot *)

Lemma ticks_configure c i f es : configure_trace c i f es -> ticks D es = 0.
Proof.
  destruct 1 as [cr1 polls lc imsc cr2 Hp]. rewrite ticks_app, ticks_app, (ticks_poll _ _ _ Hp).
  change (ticks D (Rd ?a ?v :: ?l)) with (ticks D l).
  repeat first [rewrite ticks_other by (apply ureg_no_tick; vm_compute; split; congruence)
               | progress change (ticks D (Rd ?a ?v :: ?l)) with (ticks D l)].
  reflexivity.
Qed.

(** Accesses to the interrupt controller are no ticks. *)
Lemma ticks_gic es :
  Forall (fun e => match e with
    | Rd _ _ => True
    | Wr a _ => bus_periphbase + 0x100 <= a < bus_periphbase + 0x200 \/ bus_periphbase + 0x1000 <= a
    end) es -> ticks D es = 0.
Proof.
  induction 1 as [|[a v|a v] es He _ IH]; [reflexivity|exact IH|].
  rewrite ticks_other; [exact IH|]. rewrite timer_isr_reg_eq. lia.
Qed.

Lemma registry0 n : registry statics0 n = None.
Proof.
  unfold registry. destruct (0 <=? n); [|reflexivity]. unfold statics0. cbn [callbacks].
  destruct (replicate _ _ !! _) as [c|] eqn:E; [|reflexivity].
  apply lookup_replicate in E. destruct E as [-> _]. reflexivity.
Qed.

Definition welcome : list Z := bytes_of "Welcome to Chapter 8, Scheduling!" ++ [10].

(** [main]'s interrupt controller calls. *)
Lemma wp_boot_gic burst w (Q : unit -> world D -> Prop) :
  irqs_on w = false -> P (dev w) ->
  (forall w' es, extends P (with_st (set_gic_regs (bus_periphbase + 0x1000)
      (bus_periphbase + 0x100) (st w)) w) w' es -> ticks D es = 0 -> Q tt w') ->
  let pre := preempt fuel burst in
  wp (gic_init pre ;;; gic_enable_interrupt pre UART0_INTERRUPT ;;;
      gic_enable_interrupt pre PTIMER_INTERRUPT) Q w.
Proof.
  intros Hi HP HQ pre. pose proof (map_periph (D := D)) as Hm.
  apply wp_bind. eapply wp_mono; [apply (gic_init_spec pre P w); world_solve|].
  rewrite (u32_small bus_periphbase), !u32_small by lia. intros _ w1 Hx1.
  apply wp_bind. eapply wp_mono; [apply (gic_enable_interrupt_spec pre P w1);
    [world_solve|world_solve|unfold UART0_INTERRUPT; lia]|].
  intros _ w2 (v1 & v2 & Hx2).
  eapply wp_mono; [apply (gic_enable_interrupt_spec pre P w2);
    [world_solve|world_solve|unfold PTIMER_INTERRUPT; lia]|].
  intros [] w3 (v3 & v4 & Hx3). cbn zeta in Hx2, Hx3.
  eapply HQ; [extends_solve|].
  rewrite (ext_st _ _ _ _ Hx2), (ext_st _ _ _ _ Hx1). cbn [st with_st gic_dregs set_gic_regs].
  apply ticks_gic. cbn [app]. rewrite !Forall_cons, Forall_nil. unfold field, UART0_INTERRUPT, PTIMER_INTERRUPT.
  change (37 / 32) with 1. change (37 / 4) with 9. change (29 / 32) with 0. change (29 / 4) with 7.
  cbn. split_and!; auto; lia.
Qed.

(** [main] up to [cpu_enable_interrupts]: the banner is the first output, and no
    time has passed. *)
Lemma wp_boot burst w (Q : unit -> world D -> Prop) :
  irqs_on w = false -> P (dev w) -> st w = statics0 -> trace w = [] ->
  (forall w' e1 e2, P (dev w') ->
    (exists cs, length cs = Z.to_nat ISR_COUNT /\
      st w' = set_gic_regs (bus_periphbase + 0x1000) (bus_periphbase + 0x100) (set_callbacks cs statics0)) ->
    (forall n, registry (st w') n = if n =? UART0_INTERRUPT then Some uart_isr_ptr else None) ->
    trace w' = e1 ++ e2 -> sent e1 = welcome -> ticks D (trace w') = 0 -> Q tt w') ->
  let pre := preempt fuel burst in
  wp (uart_configure pre fuel (UartConfig 8 1 false 9600) ;;; uart_write pre fuel welcome ;;;
      gic_init pre ;;; gic_enable_interrupt pre UART0_INTERRUPT ;;;
      gic_enable_interrupt pre PTIMER_INTERRUPT) Q w.
Proof.
  intros Hi HP Hst Htr HQ pre.
  apply wp_bind, (wp_uart_configure pre P fuel Hfuel _ 156 16); auto.
  { rewrite Hst. reflexivity. }
  { unfold valid_config. cbn. lia. }
  intros w1 s1 es1 Ht1 Hx1 (cs & Hcs) Hw1 Hr1.
  apply wp_bind, (wp_uart_write pre P fuel Hfuel); [world_solve|world_solve|].
  intros w2 es2 Ht2 Hx2. apply wp_boot_gic; [world_solve|world_solve|]. intros w3 es3 Hx3 Hz.
  assert (st w2 = s1) as Hs2 by world_solve. rewrite Hs2 in Hx3.
  destruct Hx1 as [T1 _ _ _], Hx2 as [T2 _ _ _], Hx3 as [T3 S3 _ D3]. cbn [trace st with_st] in T1, T3, S3.
  rewrite Htr in T1. cbn in T1. rewrite T1 in T2. rewrite T2 in T3.
  apply (HQ w3 (es1 ++ es2) es3 D3); auto.
  - exists cs. rewrite S3, Hcs, Hst. split; [|reflexivity]. rewrite Hcs in Hw1. exact Hw1.
  - intros n. rewrite S3. change (registry (set_gic_regs _ _ s1) n) with (registry s1 n).
    rewrite Hr1, Hst. unfold spec_register. change (MAX_ISR <? UART0_INTERRUPT) with false.
    rewrite registry0. cbn [snd].
    destruct (n =? _); [reflexivity|apply registry0].
  - rewrite sent_app, (sent_configure _ _ _ _ Ht1). apply (sent_tx _ _ Ht2). repeat constructor; lia.
  - rewrite T3, !ticks_app, (ticks_configure _ _ _ _ Ht1), (ticks_tx _ _ Ht2). lia.
Qed.

(** Sequencing is associative: the first five calls of [main_setup] as one. *)
Lemma wp_assoc5 {A1 A2 A3 A4 A5 R} (m1 : M D A1) (m2 : M D A2) (m3 : M D A3) (m4 : M D A4)
    (m5 : M D A5) (k : M D R) Q w :
  wp ((m1 ;;; m2 ;;; m3 ;;; m4 ;;; m5) ;;; k) Q w -> wp (m1 ;;; m2 ;;; m3 ;;; m4 ;;; m5 ;;; k) Q w.
Proof.
  unfold wp, bind. destruct (m1 w) as [[? w1]| |]; auto. destruct (m2 w1) as [[? w2]| |]; auto.
  destruct (m3 w2) as [[? w3]| |]; auto. destruct (m4 w3) as [[? w4]| |]; auto.
Qed.

(** The whole of [main_setup]. *)
Lemma wp_main_setup burst w :
  irqs_on w = false -> P (dev w) -> st w = statics0 -> trace w = [] ->
  wp (main_setup fuel burst) (fun _ w' =>
    ready w' /\ irqs_on w' = true /\ sched_wf (st w') /\
    (forall n, registry (st w') n =
       if n =? UART0_INTERRUPT then Some uart_isr_ptr
       else if n =? PTIMER_INTERRUPT then Some ptimer_isr_ptr else None) /\
    added (st w') = [Task (Some task0_ptr) 5000 0; Task (Some task1_ptr) 2000 0] /\
    (exists e1 e2, trace w' = e1 ++ e2 /\ sent e1 = welcome) /\ ticks D (trace w') <= 2 * Z.of_nat burst) w.
Proof.
  intros Hi HP Hst Htr. unfold main_setup. cbv zeta. fold welcome.
  apply (wp_assoc5 _ _ _ _ _ _ _ w), wp_bind, wp_boot; auto.
  intros w1 e1 e2 D1 (cs & Hl & S1) R1 T1 Hsent Hz. cbv beta.
  apply wp_bind.
  change (wp cpu_enable_interrupts ?Q w1) with (Q tt (World (dev w1) (trace w1) (st w1) true)). cbv beta.
  apply wp_bind, (wp_ptimer_init_thread burst 1 71997); cbn [st dev trace]; auto; try lia;
    try (rewrite S1; first [exact Hl | reflexivity]).
  { rewrite S1, Hz. reflexivity. }
  intros w2 R2 I2 X2 K2 (cs2 & t & S2) Reg2. apply wp_bind. rewrite decide_True by reflexivity.
  cbn [st irqs_on trace] in *. rewrite S1 in S2. apply wp_ret.
  apply wp_bind, wp_sched_add_task; [rewrite S2; exact statics0_wf|rewrite S2; discriminate|].
  intros s3 _ W3 N3 A3 E3. apply wp_bind, wp_sched_add_task; cbn [st with_st]; auto.
  { rewrite N3, S2. discriminate. }
  intros s4 _ W4 N4 A4 E4. apply wp_ret. cbn [st with_st trace irqs_on].
  assert (ready (with_st s4 (with_st s3 w2))) as R4.
  { destruct R2 as [Hd Ht Hg Hp Hs]. rewrite E4, E3. constructor; auto. }
  split_and!; auto.
  - intros n. assert (registry s4 n = registry (st w2) n) as -> by (rewrite E4, E3; reflexivity).
    rewrite Reg2. unfold spec_register. change (MAX_ISR <? PTIMER_INTERRUPT) with false.
    rewrite R1. change (PTIMER_INTERRUPT =? UART0_INTERRUPT) with false. cbn [snd]. rewrite R1.
    unfold PTIMER_INTERRUPT, UART0_INTERRUPT. case_bools; lia || reflexivity.
  - rewrite A4, A3, S2. reflexivity.
  - destruct X2 as [e3 X2]. exists e1, (e2 ++ e3). rewrite X2, T1, app_assoc. auto.
  - rewrite Hz in K2. lia.
Qed.

End Handlers.

(** ** Theorems *)

Section Theorems.
Context {D : Type} {B : Bus D} (P : D -> Prop) {PL : Pl011 P} {BM : BoardMap D} (fuel burst : nat).
Implicit Types w : world D.

(** C1: [main] brings the system up: from reset, on any board whose UART drains, the
    set-up returns with the banner printed first, interrupts on, both handlers
    registered under their ids and nothing else, the two tasks in the table, the
    invariant [ready] established, and at most as many timer interrupts taken as
    can be at two interruption points. *)
Theorem main_setup_boots w :
  (pl_bound <= fuel)%nat -> irqs_on w = false -> P (dev w) -> st w = statics0 -> trace w = [] ->
  wp (main_setup fuel burst) (fun _ w' =>
    ready P w' /\ irqs_on w' = true /\ sched_wf (st w') /\
    (forall n, registry (st w') n =
       if n =? UART0_INTERRUPT then Some uart_isr_ptr
       else if n =? PTIMER_INTERRUPT then Some ptimer_isr_ptr else None) /\
    added (st w') = [Task (Some task0_ptr) 5000 0; Task (Some task1_ptr) 2000 0] /\
    (exists e1 e2, trace w' = e1 ++ e2 /\ sent e1 = welcome) /\ ticks D (trace w') <= 2 * Z.of_nat burst) w.
Proof. intros Hf. exact (wp_main_setup P fuel Hf burst w). Qed.

(** C2: At every interruption point, whatever interrupts are pending: the handlers
    return, [systime] stays the low 32 bits of the number of timer interrupts
    taken, no other static variable changes, and the trace only grows. *)
Theorem preempt_keeps_time w :
  (pl_bound <= fuel)%nat -> ready P w ->
  wp (preempt fuel burst) (fun _ w' => ready P w' /\ irqs_on w' = irqs_on w /\
    ticks D (trace w) <= ticks D (trace w') <= ticks D (trace w) + Z.of_nat burst /\
    st w' = set_systime (u32 (ticks D (trace w'))) (st w) /\ trace w `prefix_of` trace w') w.
Proof.
  intros Hf Hr. eapply wp_mono; [exact (wp_preempt P fuel Hf burst w Hr)|].
  intros u w' [R I T S X]. split_and!; auto; try lia.
  unfold only_time in S. rewrite <- (rdy_time P w' R). exact S.
Qed.

End Theorems.

(** ** Witnesses *)

#[global] Instance board_map : BoardMap Board.board.
Proof. constructor; vm_compute; [split; congruence|]. right. discriminate. Qed.

Lemma main_setup_boots_witness :
  wp (main_setup 17 2) (fun _ w' => irqs_on w' = true /\
    added (st w') = [Task (Some task0_ptr) 5000 0; Task (Some task1_ptr) 2000 0]) (Board.start 5 [72]).
Proof.
  eapply wp_mono; [apply (main_setup_boots Board.fifo_ok 17 2); vm_compute; first [reflexivity|split; discriminate]|].
  intros u w' (_ & H1 & _ & _ & H2 & _ & _). split; assumption.
Defined.

Lemma board_fuel : (pl_bound (P := Board.fifo_ok) <= 17)%nat.
Proof. vm_compute. lia. Qed.

Lemma irq_handler_dispatches_witness :
  wp (irq_handler (ret tt) (isr_body 17)) (fun _ w' => callbacks (st w') = callbacks statics0) (Board.start 5 []).
Proof.
  eapply wp_mono; [apply (irq_handler_dispatches (ret tt) Board.fifo_ok table_wf (isr_body 17)
    (T := isr_table Board.fifo_ok 17 board_fuel) (Board.start 5 []));
    [reflexivity|vm_compute; split; discriminate|reflexivity|reflexivity]|].
  intros u w' (v & es & _ & _ & _ & H). exact H.
Defined.

(** A board whose timer interrupt is always pending and whose UART is always
    ready: the clock advances at every interruption point. *)
Definition metronome_read (a : Z) (d : unit) : Z * unit :=
  (if a =? Board.GIC_CIAR then PTIMER_INTERRUPT else 0, tt).

Definition metronome_bus : Bus unit := {|
  bus_read := metronome_read;
  bus_write := fun _ _ d => d;
  bus_irq := fun _ => true;
  bus_tick := fun d => d;
  bus_periphbase := Board.PERIPHBASE;
|}.

#[local] Existing Instance metronome_bus.

Definition always (d : unit) : Prop := True.

#[local] Instance metronome_pl011 : Pl011 always.
Proof.
  refine {| pl_bound := 1 |}; [constructor; constructor| |]; intros d _ d0 _; left; reflexivity.
Defined.

#[local] Instance metronome_map : BoardMap unit.
Proof. constructor; vm_compute; [split; congruence|]. right. discriminate. Qed.

(** The running system on that board. *)
Definition running (w : world unit) : Prop :=
  ready always w /\ irqs_on w = true /\ registry (st w) PTIMER_INTERRUPT = Some ptimer_isr_ptr.

Lemma metronome_step fuel tr s :
  gic_ifregs s = Board.PERIPHBASE + 0x100 -> ptimer_regs s = PTIMER_BASE (D := unit) ->
  callbacks s !! 29%nat = Some (Some ptimer_isr_ptr) ->
  preempt fuel 1 (World tt tr s true) = Done (tt, World tt
    (((tr ++ [Rd Board.GIC_CIAR 29]) ++ [Wr (timer_isr_reg (D := unit)) 1]) ++
      [Wr (Board.PERIPHBASE + 0x110) 29])
    (set_systime (u32 (systime s + 1)) s) true).
Proof.
  intros Hg Hp Hc.
  unfold preempt, pass_tick, service, take_irq, set_irqs, irq_handler, gic_acknowledge_interrupt,
    gic_end_interrupt, callback, read_callbacks, isr_body, ptimer_isr, systime_tick,
    reg_read, reg_write, raw_read, raw_write, modify_st, get_st, bind, ret.
  cbn [dev st trace irqs_on andb bus_irq bus_tick bus_read bus_write metronome_bus].
  rewrite Hg. change (metronome_read _ tt) with (29, tt). cbn [fst snd].
  change (u16 (Z.land (u32 29) CIAR_ID_MASK)) with 29. change (MAX_ISR <? 29) with false.
  change (0 <=? 29) with true. cbn [st]. change (Z.to_nat 29) with 29%nat. rewrite Hc.
  cbn [of_option ret st dev trace irqs_on with_st]. rewrite Hp. cbn [gic_ifregs set_systime]. rewrite Hg.
  reflexivity.
Qed.

Lemma metronome_beat fuel w : running w ->
  wp (preempt fuel 1) (fun _ w' => running w' /\
    ticks unit (trace w') = ticks unit (trace w) + 1 /\ task_table (st w') = task_table (st w)) w.
Proof.
  intros (Hr & Hi & Hreg). destruct w as [[] tr s i]. cbn in Hi, Hreg. subst i.
  destruct Hr as [Hd Ht Hg Hp Hs]. cbn [st trace] in Ht, Hg, Hp, Hs.
  eapply wp_of_done; [apply metronome_step; [exact Hg|exact Hp|]|].
  { pose proof (table_lookup s 29 Ht ltac:(unfold MAX_ISR, ISR_COUNT; lia)) as Hl.
    change (Z.to_nat 29) with 29%nat in Hl. rewrite Hl. f_equal. exact Hreg. }
  assert (ticks unit (((tr ++ [Rd Board.GIC_CIAR 29]) ++ [Wr (timer_isr_reg (D := unit)) 1]) ++
      [Wr (Board.PERIPHBASE + 0x110) 29]) = ticks unit tr + 1) as E
    by (rewrite !ticks_app;
        replace (ticks unit [Rd _ _]) with 0 by reflexivity;
        replace (ticks unit [Wr timer_isr_reg 1]) with 1 by reflexivity;
        replace (ticks unit [Wr (_ + _) _]) with 0 by reflexivity; lia).
  cbn [trace st]. rewrite E. split_and!; auto. split_and!; auto.
  constructor; cbn [dev st trace]; auto. rewrite E. cbn [systime set_systime].
  rewrite Hs. apply u32_add_l.
Qed.

#[local] Instance running_clock : Clock running (fun w => ticks unit (trace w)).
Proof.
  constructor.
  - intros w (Hr & _). exact (rdy_time always w Hr).
  - intros w _. apply ticks_nonneg.
  - intros w t ([Hd Ht Hg Hp Hs] & Hi & Hreg). split; [|reflexivity].
    split_and!; auto. constructor; auto.
Qed.

Lemma metronome_takes fuel : takes running (fun w => ticks unit (trace w)) 1 (preempt fuel 1).
Proof.
  intros w Hw. eapply wp_mono; [exact (metronome_beat _ w Hw)|].
  intros u w' (H1 & H2 & H3). split_and!; auto; lia.
Qed.

Lemma running_read a v w : running w ->
  running (World tt (trace w ++ [Rd a v]) (st w) (irqs_on w)) /\
  ticks unit (trace w ++ [Rd a v]) = ticks unit (trace w).
Proof.
  intros ([Hd Ht Hg Hp Hs] & Hi & Hreg).
  assert (ticks unit (trace w ++ [Rd a v]) = ticks unit (trace w)) as E
    by (rewrite ticks_app; cbn; lia).
  split; [|exact E]. split_and!; auto. constructor; auto. cbn [st trace]. rewrite E. exact Hs.
Qed.

#[local] Instance metronome_io fuel n : ThreadIO running (fun w => ticks unit (trace w)) (preempt fuel 1) (S n) 1 1.
Proof.
  constructor.
  - exact (metronome_takes fuel).
  - intros w Hw. cbn [poll_while]. apply wp_bind, wp_bind. eapply wp_mono; [exact (metronome_takes fuel w Hw)|].
    intros u w1 (H1 & H2 & H3). apply wp_raw_read. intros v d E. cbn in E. injection E as <- <-.
    apply wp_ret. destruct (running_read (ureg "FR") (u32 0) w1 H1) as [R1 R2].
    cbn [trace st]. rewrite R2. split_and!; auto; lia.
  - intros c w ([Hd Ht Hg Hp Hs] & Hi & Hreg). apply wp_raw_write. cbn [dev st trace].
    assert (ticks unit (trace w ++ [Wr (ureg "DR") (u32 c)]) = ticks unit (trace w)) as E.
    { rewrite ticks_app, ticks_other; [cbn; lia|]. apply ureg_no_tick. vm_compute. split; congruence. }
    rewrite E. split_and!; auto; try lia. split_and!; auto. constructor; auto.
    cbn [st trace]. rewrite E. exact Hs.
Qed.

(** The world after [main_setup] on that board. *)
Definition booted : world unit :=
  match main_setup 1 1 (World tt [] statics0 false) with
  | Done (_, w) => w
  | _ => World tt [] statics0 false
  end.

Lemma booted_running : running booted.
Proof.
  unfold running. split_and!; [constructor|..]; vm_compute; reflexivity || exact I.
Qed.

Lemma tasks_take_a_second_witness :
  wp (task_body (preempt 1 1) (S (Z.to_nat 2000)) task0_ptr) (fun _ w' => ticks unit (trace booted) + 1000 <= ticks unit (trace w')) booted.
Proof.
  eapply wp_mono;
    [apply (tasks_take_a_second running (fun w => ticks unit (trace w)) (preempt 1 1) _ 1 1 task0_ptr 1 booted);
     [discriminate|lia|lia| |exact booted_running|vm_compute; reflexivity|lia]|].
  - intros w Hw. cbn [ticks_within]. eapply wp_mono; [exact (metronome_beat _ w Hw)|].
    intros u w' (H1 & H2 & H3). split_and!; auto; lia.
  - intros u w' (_ & H & _). exact (proj1 H).
Defined.

Lemma preempt_keeps_time_witness :
  wp (preempt 1 1) (fun _ w' => systime (st w') = u32 (ticks unit (trace w'))) booted.
Proof.
  eapply wp_mono; [apply (preempt_keeps_time always 1 1 booted); [reflexivity|exact (proj1 booted_running)]|].
  intros u w' (_ & _ & _ & H & _). rewrite H. reflexivity.
Defined.

End System.
