(* ===== verification/Run.v ===== *)
(** * Run: the running program

    The scheduler of sched.c with the tasks of tasks.c: as long as the time stays
    below 10^8 ms, which the print buffer of the tasks needs, every pass returns
    within a fixed time, and no task waits for its turn longer than its period
    and one pass. *)

From stdpp Require Import base list.
From S2P Require Import Prelude Machine Board Gic Irq Double Uart Ptimer Sched Tasks System.
Import Gic Irq Uart Systime Ptimer Sched Tasks System.

Module Run.

Section Response.
Context {D : Type} (I : world D -> Prop) (time : world D -> Z) {C : Clock I time}.
Context (pre : M D unit) (task_body : task_entry_ptr -> M D unit) (jump cost limit : Z).
Context (Hpre : takes I time jump pre) (Hjump : 0 <= jump) (Hcost : 0 <= cost).
Implicit Types (w : world D) (tab : list task_desc) (Ls : list Z).

(** Below [limit], every task of the table returns within [cost]. *)
Definition tasks_take tab : Prop := forall i t e, tab !! i = Some t -> entry t = Some e ->
  forall w, I w -> time w + cost < limit ->
  wp (task_body e) (fun _ w' => I w' /\ time w <= time w' <= time w + cost /\
    task_table (st w') = task_table (st w)) w.

(** The longest time of one slot and of one pass. *)
Definition slot_cost : Z := 2 * jump + cost.
Definition pass_cost : Z := MAX_NUM_TASKS * slot_cost.

(** [Ls] are the true times of the last starts, which the table records modulo 2^32. *)
Definition records tab Ls (now : Z) : Prop :=
  length Ls = length tab /\
  forall i t L, tab !! i = Some t -> entry t <> None -> Ls !! i = Some L -> last_run t = u32 L /\ 0 <= L <= now /\ 0 <= period t.

(** At [now], the task of slot [i] was last started at most its period and [late] ago. *)
Definition on_time tab Ls (late now : Z) (i : nat) : Prop :=
  forall t L, tab !! i = Some t -> entry t <> None -> Ls !! i = Some L -> now - L <= period t + late.

(** The scheduler went from [w] to [w'] within [bound] ms: the tasks are the same,
    a task that was started again was started at least a period after its last
    start, and the tasks in [served] are late by at most the time that went by. *)
Record progress (bound : Z) (served : nat -> Prop) w Ls w' Ls' : Prop := {
  pr_inv : I w';
  pr_time : time w <= time w' <= time w + bound;
  pr_same : same_tasks (task_table (st w)) (task_table (st w'));
  pr_records : records (task_table (st w')) Ls' (time w');
  pr_spaced : forall i t L L', task_table (st w) !! i = Some t -> entry t <> None -> Ls !! i = Some L -> Ls' !! i = Some L' ->
    L' = L \/ L + period t <= L';
  pr_served : forall i, served i -> on_time (task_table (st w')) Ls' (time w' - time w) (time w') i;
}.

Lemma same_tasks_lookup t1 t2 i b : same_tasks t1 t2 -> t2 !! i = Some b ->
  exists a, t1 !! i = Some a /\ entry a = entry b /\ period a = period b.
Proof.
  intros Hs Hb. apply (f_equal (fun l => l !! i)) in Hs. rewrite !list_lookup_fmap, Hb in Hs.
  destruct (t1 !! i) as [a|]; cbn in Hs; [|discriminate]. injection Hs as E1 E2. exists a. auto.
Qed.

Lemma records_last tab Ls now i t : records tab Ls now -> tab !! i = Some t -> exists L, Ls !! i = Some L.
Proof. intros [Hl _] Ht. apply lookup_lt_is_Some_2. rewrite Hl. eapply lookup_lt_Some. exact Ht. Qed.

Lemma progress_trans b1 b2 (s1 s2 : nat -> Prop) w Ls w1 Ls1 w2 Ls2 :
  progress b1 s1 w Ls w1 Ls1 -> progress b2 s2 w1 Ls1 w2 Ls2 -> records (task_table (st w)) Ls (time w) ->
  progress (b1 + b2) (fun i => s1 i \/ s2 i) w Ls w2 Ls2.
Proof.
  intros [I1 T1 S1 R1 P1 V1] [I2 T2 S2 R2 P2 V2] R0. split; auto; [lia|unfold same_tasks in *; congruence| |].
  - intros i t L L2 Ht He HL HL2.
    destruct (same_tasks_lookup _ _ i t (eq_sym S1) Ht) as (t1 & Ht1 & Ee & Ep).
    destruct (records_last _ _ _ i t1 R1 Ht1) as [L1 HL1]. pose proof (proj2 R0 i t L Ht He HL) as (_ & _ & Hp).
    specialize (P1 i t L L1 Ht He HL HL1). specialize (P2 i t1 L1 L2 Ht1 ltac:(congruence) HL1 HL2). lia.
  - intros i [Hs|Hs] t L Ht He HL; [|pose proof (V2 i Hs t L Ht He HL); lia].
    destruct (same_tasks_lookup _ _ i t S2 Ht) as (t1 & Ht1 & Ee & Ep).
    destruct (records_last _ _ _ i t1 R1 Ht1) as [L1 HL1]. pose proof (proj2 R1 i t1 L1 Ht1 ltac:(congruence) HL1) as (_ & _ & Hp).
    specialize (P2 i t1 L1 L Ht1 ltac:(congruence) HL1 HL). specialize (V1 i Hs t1 L1 Ht1 ltac:(congruence) HL1). lia.
Qed.

Lemma progress_refl (bound : Z) w Ls : 0 <= bound -> I w -> records (task_table (st w)) Ls (time w) ->
  progress bound (fun _ => False) w Ls w Ls.
Proof. intros Hb HI HR. split; auto; [lia|reflexivity|intros; left; congruence|tauto]. Qed.

Lemma progress_weaken b1 b2 (s1 s2 : nat -> Prop) w Ls w' Ls' : b1 <= b2 -> (forall i, s2 i -> s1 i) ->
  progress b1 s1 w Ls w' Ls' -> progress b2 s2 w Ls w' Ls'.
Proof. intros Hb Hs [A T S R P V]. split; auto. lia. Qed.

Lemma takes_passes n (m : M D unit) : takes I time n m -> passes_time I time m.
Proof. intros H w HI. eapply wp_mono; [exact (H w HI)|]. intros u w' (A & B & E). split_and!; auto; lia. Qed.

Lemma tasks_take_same t1 t2 : same_tasks t1 t2 -> tasks_take t1 -> tasks_take t2.
Proof.
  intros Hs H i t e Ht He. destruct (same_tasks_lookup _ _ i t Hs Ht) as (a & Ha & Ee & _).
  apply (H i a e Ha). congruence.
Qed.

(** A start of the task in slot [i] at [now] is recorded. *)
Lemma records_start tab Ls t0 now i t T : records tab Ls t0 -> t0 <= now <= T -> 0 <= now -> tab !! i = Some t -> entry t <> None ->
  records (<[i := Task (entry t) (period t) (u32 now)]> tab) (<[i := now]> Ls) T.
Proof.
  intros [Hl Hr] Hn H0 Ht Hen. split; [rewrite !length_insert; exact Hl|]. intros j t' L Hj He HL.
  destruct (records_last tab Ls t0 i t (conj Hl Hr) Ht) as [L0 HL0]. pose proof (Hr i t L0 Ht Hen HL0) as (_ & _ & Hp).
  destruct (decide (j = i)) as [->|Hne].
  - rewrite list_lookup_insert_eq in Hj by (eapply lookup_lt_Some; exact Ht).
    rewrite list_lookup_insert_eq in HL by (eapply lookup_lt_Some; exact HL0).
    injection Hj as <-. injection HL as <-. cbn. split_and!; auto; lia.
  - rewrite list_lookup_insert_ne in Hj by auto. rewrite list_lookup_insert_ne in HL by auto. destruct (Hr j t' L Hj He HL) as (A & B & E). split_and!; auto; lia.
Qed.

(** One slot. *)
Lemma wp_slot_progress i w Ls : limit <= 2 ^ 32 -> I w -> (i < length (task_table (st w)))%nat ->
  records (task_table (st w)) Ls (time w) -> tasks_take (task_table (st w)) -> time w + slot_cost < limit ->
  wp (sched_slot pre task_body i) (fun _ w' => exists Ls', progress slot_cost (fun j => j = i) w Ls w' Ls') w.
Proof.
  intros Hlim HI Hi HR Htk Hlt. pose proof (clock_nonneg w HI) as H0. unfold slot_cost in *.
  destruct (lookup_lt_is_Some_2 _ _ Hi) as [t Ht]. destruct (records_last _ _ _ i t HR Ht) as [L HL].
  destruct t as [[e|] p lr].
  2: { unfold sched_slot. apply wp_bind. eapply wp_get_task; [exact Ht|]. apply wp_ret. exists Ls.
       destruct (progress_refl (2 * jump + cost) w Ls ltac:(lia) HI HR) as [A B E F G _]. split; auto.
       intros j -> t0 L0 Ht0. rewrite Ht in Ht0. injection Ht0 as <-. intros He. destruct (He eq_refl). }
  destruct (proj2 HR i _ L Ht ltac:(discriminate) HL) as (Hlr & HLt & Hp). cbn [last_run period] in *. subst lr.
  unfold sched_slot. apply wp_bind. eapply wp_get_task; [exact Ht|]. cbn [entry]. unfold systime_get.
  apply wp_bind, wp_bind. eapply wp_mono; [exact (Hpre w HI)|]. intros _ w0 (I0 & T0 & B0). apply wp_bind, wp_get_st, wp_ret.
  rewrite (clock_systime w0 I0), due_true by lia. destruct (Z.leb_spec p (time w0 - L)) as [Hdue|Hnot].
  - apply wp_bind, wp_bind. eapply wp_mono; [exact (Hpre w0 I0)|]. intros _ w1 (I1 & T1 & B1). apply wp_bind, wp_get_st, wp_ret.
    apply wp_bind. unfold set_last_run. apply wp_bind. eapply wp_get_task; [rewrite B1, B0; exact Ht|]. apply wp_modify_st.
    rewrite (clock_systime w1 I1). cbn [entry period].
    destruct (clock_table w1 (<[i := Task (Some e) p (u32 (time w1))]> (task_table (st w1))) I1) as [HIs Hts].
    eapply wp_mono; [apply (Htk i _ e Ht eq_refl _ HIs); rewrite Hts; lia|]. rewrite Hts. cbn [st with_st task_table set_task_table].
    rewrite B1, B0. intros _ w' (I' & T' & B'). exists (<[i := time w1]> Ls). split; rewrite ?B'; auto; try lia.
    + apply same_tasks_insert with (u32 L). exact Ht.
    + apply (records_start _ _ (time w) (time w1) i (Task (Some e) p (u32 L))); auto; first [lia | discriminate].
    + intros j t0 L0 L' Hj _ HL0 HL'. destruct (decide (j = i)) as [->|Hne].
      * rewrite list_lookup_insert_eq in HL' by (eapply lookup_lt_Some; exact HL). simplify_eq. cbn [period]. right. lia.
      * rewrite list_lookup_insert_ne in HL' by auto. left. congruence.
    + intros j -> t0 L0 Hj _ HL0. rewrite list_lookup_insert_eq in Hj by exact Hi.
      rewrite list_lookup_insert_eq in HL0 by (eapply lookup_lt_Some; exact HL). simplify_eq. cbn [period]. lia.
  - apply wp_ret. exists Ls. split; rewrite ?B0; auto; try lia; [reflexivity| | |].
    + destruct HR as [Hl Hr]. split; [exact Hl|]. intros j t0 L0 Hj He HL0. destruct (Hr j t0 L0 Hj He HL0) as (A & B & E). split_and!; auto; lia.
    + intros j t0 L0 L' _ _ HL0 HL'. left. congruence.
    + intros j -> t0 L0 Hj _ HL0. simplify_eq. cbn [period]. lia.
Qed.

Lemma wp_slots_progress n : forall i w Ls, limit <= 2 ^ 32 -> I w -> (i + n <= length (task_table (st w)))%nat ->
  records (task_table (st w)) Ls (time w) -> tasks_take (task_table (st w)) -> time w + Z.of_nat n * slot_cost < limit ->
  wp (sched_slots pre task_body i n) (fun _ w' => exists Ls',
    progress (Z.of_nat n * slot_cost) (fun j => (i <= j < i + n)%nat) w Ls w' Ls') w.
Proof.
  assert (0 <= slot_cost) as Hsc by (unfold slot_cost; lia).
  induction n as [|n IH]; intros i w Ls Hlim HI Hi HR Htk Hlt; cbn [sched_slots].
  - apply wp_ret. exists Ls. eapply progress_weaken; [| |apply (progress_refl 0); auto; lia]; [lia|]. intros j Hj. lia.
  - apply wp_bind. eapply wp_mono; [apply (wp_slot_progress i w Ls); auto; lia|]. intros _ w1 (Ls1 & P1).
    pose proof P1 as [I1 T1 S1 R1 X1 V1]. pose proof (same_tasks_length _ _ S1).
    eapply wp_mono; [apply (IH (S i) w1 Ls1); auto; [lia|exact (tasks_take_same _ _ S1 Htk)|lia]|].
    intros _ w2 (Ls2 & P2). exists Ls2.
    eapply progress_weaken; [| |eapply progress_trans; [exact P1|exact P2|exact HR]]; [lia|]. cbn beta. intros j Hj. lia.
Qed.

(** [n] passes of the scheduler from [w] to [w'], one after the other: each returns
    within [pass_cost], starts a task again only a period or more after its last
    start, which is the one the passes before it left in [Ls], and serves every
    slot. *)
Inductive schedule : nat -> world D -> list Z -> world D -> list Z -> Prop :=
| schedule_done w Ls : schedule 0 w Ls w Ls
| schedule_pass n w Ls w1 Ls1 w2 Ls2 :
    sched_pass pre task_body w = Done (tt, w1) -> progress pass_cost (fun _ => True) w Ls w1 Ls1 ->
    schedule n w1 Ls1 w2 Ls2 -> schedule (S n) w Ls w2 Ls2.

(** One pass serves every slot of the table. *)
Lemma pass_progress w Ls : limit <= 2 ^ 32 -> I w -> length (task_table (st w)) = Z.to_nat MAX_NUM_TASKS ->
  records (task_table (st w)) Ls (time w) -> tasks_take (task_table (st w)) -> time w + pass_cost < limit ->
  exists w1 Ls1, sched_pass pre task_body w = Done (tt, w1) /\ progress pass_cost (fun _ => True) w Ls w1 Ls1.
Proof.
  intros Hlim HI Hlen HR Htk Hlt.
  assert (Z.of_nat (Z.to_nat MAX_NUM_TASKS) * slot_cost = pass_cost) as E by (unfold pass_cost; rewrite Z2Nat.id by (unfold MAX_NUM_TASKS; lia); reflexivity).
  destruct (wp_done _ _ _ (wp_slots_progress (Z.to_nat MAX_NUM_TASKS) 0 w Ls Hlim HI ltac:(lia) HR Htk ltac:(lia))) as ([] & w1 & Ew & Ls1 & P1).
  rewrite E in P1. exists w1, Ls1. split; [exact Ew|]. destruct P1 as [I1 T1 S1 R1 X1 V1]. split; auto.
  intros i _ t L Ht. apply (V1 i); [|exact Ht]. apply lookup_lt_Some in Ht. pose proof (same_tasks_length _ _ S1). lia.
Qed.

(** The passes; after at least one, no task of the table is late by more than the
    time of a pass. *)
Lemma passes_schedule n : forall w Ls, limit <= 2 ^ 32 -> I w -> length (task_table (st w)) = Z.to_nat MAX_NUM_TASKS ->
  records (task_table (st w)) Ls (time w) -> tasks_take (task_table (st w)) -> time w + Z.of_nat n * pass_cost < limit ->
  exists w' Ls', sched_passes pre task_body n w = Done (tt, w') /\ schedule n w Ls w' Ls' /\
    time w' <= time w + Z.of_nat n * pass_cost /\
    (n <> 0%nat -> forall i, on_time (task_table (st w')) Ls' pass_cost (time w') i).
Proof.
  assert (0 <= pass_cost) as Hpc by (unfold pass_cost, slot_cost, MAX_NUM_TASKS; lia).
  induction n as [|n IH]; intros w Ls Hlim HI Hlen HR Htk Hlt; cbn [sched_passes].
  - exists w, Ls. split_and!; [reflexivity|constructor|lia|congruence].
  - destruct (pass_progress w Ls Hlim HI Hlen HR Htk ltac:(nia)) as (w1 & Ls1 & E1 & P1).
    pose proof P1 as [I1 T1 S1 R1 X1 V1]. pose proof (same_tasks_length _ _ S1) as Hl1.
    destruct (IH w1 Ls1 Hlim I1 ltac:(lia) R1 (tasks_take_same _ _ S1 Htk) ltac:(nia)) as (w2 & Ls2 & E2 & P2 & T2 & O2).
    exists w2, Ls2. split_and!; [unfold bind; rewrite E1; exact E2|econstructor; eassumption|nia|].
    intros _ i. destruct n as [|n]; [|apply O2; congruence]. inversion P2; subst.
    intros t L Ht He HL. specialize (V1 i Logic.I t L Ht He HL). lia.
Qed.

End Response.
(** ** The program *)

Section Program.
Context {D : Type} {B : Bus D} (P : D -> Prop) {PL : Pl011 P} {BM : BoardMap D} (fuel burst : nat).
Context (I : world D -> Prop) (time : world D -> Z) {C : Clock I time} (jump slack : Z) (K : nat).
Implicit Types w : world D.

(** What the board has to do once the program is set up: a thread that prints
    gets on, and the timer ticks. *)
Record live : Prop := {
  lv_start : forall w, ready P w -> irqs_on w = true -> registry (st w) PTIMER_INTERRUPT = Some ptimer_isr_ptr ->
    registry (st w) UART0_INTERRUPT = Some uart_isr_ptr -> I w /\ time w = ticks D (trace w);
  lv_io :: ThreadIO I time (preempt fuel burst) fuel jump slack;
  lv_ticks : forall w, I w -> ticks_within I time (preempt fuel burst) jump K w;
  lv_costs : 0 <= slack /\ 0 <= jump;
}.

(** The longest time of a pass of the scheduler over the two tasks. *)
Definition program_pass : Z := pass_cost jump (task_cost jump slack).

(** The set-up table: the two tasks, never started, and empty slots. *)
Lemma setup_table s : sched_wf s -> added s = [Task (Some task0_ptr) 5000 0; Task (Some task1_ptr) 2000 0] ->
  length (task_table s) = Z.to_nat MAX_NUM_TASKS /\
  task_table s !! 0%nat = Some (Task (Some task0_ptr) 5000 0) /\ task_table s !! 1%nat = Some (Task (Some task1_ptr) 2000 0) /\
  forall i t, task_table s !! i = Some t -> (2 <= i)%nat -> entry t = None.
Proof.
  intros (Hl & Hr & He) Ha. split; [exact Hl|]. unfold added in Ha.
  assert (Z.to_nat (table_idx s) = 2%nat) as Hi.
  { apply (f_equal length) in Ha. rewrite length_take in Ha. cbn in Ha. unfold MAX_NUM_TASKS in *. lia. }
  rewrite Hi in Ha. split_and!.
  - rewrite <- (lookup_take_lt (task_table s) 2 0) by lia. rewrite Ha. reflexivity.
  - rewrite <- (lookup_take_lt (task_table s) 2 1) by lia. rewrite Ha. reflexivity.
  - intros i t Ht Hge. apply (He i t Ht). lia.
Qed.

(** C4: The program keeps its schedule.  From reset, on a live board, [main] sets up
    with its two tasks in the table, and its scheduler makes any number of passes
    that ends before the clock reaches 10^8 ms, one after the other: each pass
    takes at most [program_pass] and leaves the tasks in the table; in each pass a
    task is started again only if its period has passed since its last start, and
    after each pass no task was last started longer ago than its period and the
    time of this pass. *)
Theorem main_keeps_schedule n w : live ->
  (pl_bound <= fuel)%nat -> (K * 1001 <= fuel)%nat -> 2 * Z.of_nat burst + Z.of_nat n * program_pass < 10 ^ 8 ->
  irqs_on w = false -> P (dev w) -> st w = statics0 -> trace w = [] ->
  exists w1 w2 Ls,
    main_setup fuel burst w = Done (tt, w1) /\
    added (st w1) = [Task (Some task0_ptr) 5000 0; Task (Some task1_ptr) 2000 0] /\
    sched_passes (preempt fuel burst) (task_body (preempt fuel burst) fuel) n w1 = Done (tt, w2) /\
    schedule I time (preempt fuel burst) (task_body (preempt fuel burst) fuel) jump (task_cost jump slack)
      n w1 (replicate (Z.to_nat MAX_NUM_TASKS) 0) w2 Ls /\
    time w2 <= 2 * Z.of_nat burst + Z.of_nat n * program_pass /\
    (n <> 0%nat -> forall i, on_time (task_table (st w2)) Ls program_pass (time w2) i).
Proof.
  intros [Hst HIO Htk [Hs0 Hj0]] Hf1 Hf2 Hlt Hi HP Hw0 Htr.
  destruct (wp_done _ _ _ (wp_main_setup P fuel Hf1 burst w Hi HP Hw0 Htr)) as ([] & w1 & E1 & R1 & I1 & W1 & G1 & A1 & _ & K1).
  destruct (Hst w1 R1 I1) as [HI1 Ht1]; [rewrite G1; reflexivity|rewrite G1; reflexivity|].
  destruct (setup_table _ W1 A1) as (Hl & H0 & H1 & H2).
  assert (0 <= task_cost jump slack) as Hc by (unfold task_cost; lia). pose proof (clock_nonneg w1 HI1) as Hn1.
  assert (records (task_table (st w1)) (replicate (Z.to_nat MAX_NUM_TASKS) 0) (time w1)) as HR.
  { split; [rewrite length_replicate; symmetry; exact Hl|]. intros i t L Ht He HL. apply lookup_replicate in HL as [-> _].
    destruct i as [|[|i]]; [simplify_eq; cbn [last_run period]; split_and!; first [reflexivity | lia]..|]. destruct (He (H2 _ _ Ht ltac:(lia))). }
  assert (tasks_take I time (task_body (preempt fuel burst) fuel) (task_cost jump slack) (10 ^ 8) (task_table (st w1))) as Htt.
  { intros i t e Ht He w' HI' Hlt'. assert (e <> task2_ptr) as Hne.
    { destruct i as [|[|i]]; [simplify_eq; cbn in He; congruence..|]. rewrite (H2 _ _ Ht ltac:(lia)) in He. discriminate. }
    eapply wp_mono; [apply (wp_task_body I time (preempt fuel burst) fuel jump slack e K w'); auto|].
    intros u w2 (A & T & E). split_and!; auto; lia. }
  destruct (passes_schedule I time (preempt fuel burst) (task_body (preempt fuel burst) fuel) jump
    (task_cost jump slack) (10 ^ 8) (io_pre _ _ _ _ _ _) Hj0 Hc n w1 _ ltac:(lia) HI1 Hl HR Htt) as (w2 & Ls & E2 & Sc & T2 & On);
    fold program_pass in *; [lia|].
  exists w1, w2, Ls. split_and!; auto. lia.
Qed.

End Program.

(** On the board whose timer interrupt is always pending, the program makes its
    first hundred passes. *)
#[local] Existing Instances metronome_bus metronome_pl011 metronome_map running_clock metronome_io.

Lemma metronome_live fuel : live always (S fuel) 1 running (fun w => ticks unit (trace w)) 1 1 1.
Proof.
  split; [|apply _| |lia].
  - intros w Hr Hi Ht _. split; [|reflexivity]. split_and!; auto.
  - intros w Hw. cbn [ticks_within]. eapply wp_mono; [exact (metronome_beat _ w Hw)|].
    intros u w' (H1 & H2 & H3). split_and!; auto; lia.
Qed.

Lemma main_keeps_schedule_witness : exists w1 w2 Ls,
  main_setup 1001 1 (World tt [] statics0 false) = Done (tt, w1) /\
  sched_passes (preempt 1001 1) (task_body (preempt 1001 1) 1001) 100 w1 = Done (tt, w2) /\
  forall i, on_time (task_table (st w2)) Ls 11120 (ticks unit (trace w2)) i.
Proof.
  destruct (main_keeps_schedule always 1001 1 running (fun w => ticks unit (trace w)) 1 1 1 100 (World tt [] statics0 false))
    as (w1 & w2 & Ls & E1 & _ & E2 & _ & _ & On); [apply (metronome_live 1000)|cbn; lia|lia|reflexivity|reflexivity|exact Logic.I|reflexivity|reflexivity|].
  exists w1, w2, Ls. split_and!; [exact E1|exact E2|apply On; discriminate].
Defined.

End Run.
