(* ===== verification/Shell.v ===== *)
(** * Shell: the program of chapter 6 (06_uart)

    The polled UART program: it configures the UART, prints a greeting and then
    echoes what is typed, keeping the line in a buffer of 64 characters and
    answering two commands.  The driver is Uart.v's but for [uart_configure],
    which does not use interrupts yet; interrupts stay off. *)

From stdpp Require Import base list strings.
From Stdlib Require Import ZifyBool.
From S2P Require Import Prelude Machine Board Gic Irq Double Uart.
Import Uart.

Module Shell.

(** The file-scope variables of 06_uart/src/cstart.c. *)
Record shell := MkShell { buf : list Z; buf_idx : Z }.

Definition shell0 : shell := MkShell (replicate 64 0) 0.

(** [strncmp(s, p, n) == 0] of the C library; [s] is a literal without its NUL. *)
Fixpoint strncmp_eq (s p : list Z) (n : nat) : bool :=
  match n, s, p with
  | O, _, _ => true
  | S n, c :: s, d :: p => if c =? d then if c =? 0 then true else strncmp_eq s p n else false
  | S _, [], d :: _ => d =? 0
  | S _, _, [] => false
  end.

Definition help_cmd : list Z := bytes_of "help" ++ [13].
Definition uname_cmd : list Z := bytes_of "uname" ++ [13].
Definition help_text : list Z := bytes_of "Just type and see what happens!" ++ [10].
Definition uname_text : list Z := bytes_of "bare-metal arm 06_uart" ++ [10].

Section Program.
Context {D : Type} {B : Bus D} (pre : M D unit) (fuel : nat).

(** [uart_configure] of 06_uart/src/uart_pl011.c. *)
Definition uart_configure06 (config : uart_config) : M D uart_error :=
  if (data_bits config <? 5) || (8 <? data_bits config) then ret UART_INVALID_ARGUMENT_WORDSIZE else
  if (stop_bits config =? 0) || (2 <? stop_bits config) then ret UART_INVALID_ARGUMENT_STOP_BITS else
  if (baudrate config <? 110) || (460800 <? baudrate config) then ret UART_INVALID_ARGUMENT_BAUDRATE else
  let! cr := reg_read pre (ureg "CR") in
  reg_write pre (ureg "CR") (clear cr CR_UARTEN) ;;;
  poll_while pre fuel (ureg "FR") FR_BUSY ;;;
  let! lc := reg_read pre (ureg "LCRH") in
  reg_write pre (ureg "LCRH") (clear lc LCRH_FEN) ;;;
  let! d := of_option (baud_divisor (baudrate config)) in
  reg_write pre (ureg "IBRD") (fst d) ;;;
  reg_write pre (ureg "FBRD") (snd d) ;;;
  reg_write pre (ureg "LCRH") (lcrh_word config) ;;;
  let! cr := reg_read pre (ureg "CR") in
  reg_write pre (ureg "CR") (Z.lor cr CR_UARTEN) ;;;
  ret UART_OK.

Definition parse_cmd (s : shell) : M D unit :=
  if strncmp_eq help_cmd (buf s) (length help_cmd) then uart_write pre fuel help_text
  else if strncmp_eq uname_cmd (buf s) (length uname_cmd) then uart_write pre fuel uname_text
  else ret tt.

(** [buf[buf_idx % 64] = c; buf_idx++;] *)
Definition store (c : Z) (s : shell) : shell :=
  MkShell (<[Z.to_nat (buf_idx s mod 64) := c]> (buf s)) (u8 (buf_idx s + 1)).

(** The body of the endless loop. *)
Definition shell_step (s : shell) : M D shell :=
  let! r := uart_getchar pre in
  match r with
  | (UART_OK, Some c) =>
    uart_putchar pre fuel c ;;;
    let s := store c s in
    if c =? 13 then
      uart_write pre fuel [10] ;;;
      let s := MkShell (buf s) 0 in
      parse_cmd s ;;; ret s
    else ret s
  | _ => ret s
  end.

(** [n] turns of the loop. *)
Fixpoint shell_loop (n : nat) (s : shell) : M D shell :=
  match n with
  | O => ret s
  | S n => let! s := shell_step s in shell_loop n s
  end.

(** [main], its loop cut off after [n] turns. *)
Definition main06 (n : nat) : M D shell :=
  uart_configure06 (UartConfig 8 1 false 9600) ;;;
  uart_putchar pre fuel 65 ;;;
  uart_putchar pre fuel 66 ;;;
  uart_putchar pre fuel 67 ;;;
  uart_putchar pre fuel 10 ;;;
  uart_write pre fuel (bytes_of "I love drivers!" ++ [10]) ;;;
  uart_write pre fuel (bytes_of "Type below..." ++ [10]) ;;;
  shell_loop n shell0.

End Program.

(** ** The abstract shell

    Its state is the line typed so far, of any length. *)

(** The last [k] characters of the line end at a multiple of 64 plus [k]: what it
    takes for them to be seen as a command. *)
Definition seen (cmd line : list Z) : Prop :=
  Z.of_nat (length line) mod 64 = Z.of_nat (length cmd) /\ exists l, line = l ++ cmd.

#[global] Instance seen_dec cmd line : Decision (seen cmd line).
Proof.
  unfold seen. destruct (decide (Z.of_nat (length line) mod 64 = Z.of_nat (length cmd))); [|right; tauto].
  destruct (decide (cmd `suffix_of` line)) as [H|H]; [left|right]; [split; [assumption|exact H]|intros [_ E]; exact (H E)].
Defined.

Definition response (line : list Z) : list Z :=
  if decide (seen (bytes_of "help") line) then help_text
  else if decide (seen (bytes_of "uname") line) then uname_text
  else [].

(** What is printed while [cs] is typed. *)
Fixpoint transcript (line cs : list Z) : list Z :=
  match cs with
  | [] => []
  | c :: cs => if c =? 13 then [13; 10] ++ response line ++ transcript [] cs else c :: transcript (line ++ [c]) cs
  end.

Fixpoint line_after (line cs : list Z) : list Z :=
  match cs with
  | [] => line
  | c :: cs => if c =? 13 then line_after [] cs else line_after (line ++ [c]) cs
  end.

(** ** The buffer and the line *)

(** The buffer holds the last 64 characters of the line, each at its index modulo
    64. *)
Record shows (s : shell) (line : list Z) : Prop := {
  sh_len : length (buf s) = 64%nat;
  sh_idx : buf_idx s = u8 (Z.of_nat (length line));
  sh_cr : Forall (fun c => c <> 13) line;
  sh_buf : forall i, (i < length line)%nat -> (length line <= i + 64)%nat -> buf s !! (i mod 64)%nat = line !! i;
}.

(** The index of the next character. *)
Definition next (line : list Z) : nat := (length line mod 64)%nat.

Lemma shows_next s line : shows s line -> Z.to_nat (buf_idx s mod 64) = next line.
Proof.
  intros [_ Hi _ _]. rewrite Hi. unfold u8, wrap, next.
  rewrite Z.mod_mod_divide by (exists 4; reflexivity).
  change 64 with (Z.of_nat 64). rewrite <- Nat2Z.inj_mod, Nat2Z.id. reflexivity.
Qed.

Lemma shows_empty s : length (buf s) = 64%nat -> shows (MkShell (buf s) 0) [].
Proof. intros Hl. split; [exact Hl|reflexivity|constructor|]. cbn. intros i Hi. lia. Qed.

Lemma next_lt line : (next line < 64)%nat.
Proof. apply Nat.mod_upper_bound. discriminate. Qed.

Lemma shows_store s line c : shows s line -> c <> 13 -> shows (store c s) (line ++ [c]).
Proof.
  intros Hs Hc. pose proof Hs as [Hl Hi Hcr Hb]. pose proof (shows_next s line Hs) as Hn. pose proof (next_lt line).
  split; unfold store; cbn [buf buf_idx]; rewrite ?Hn.
  - rewrite length_insert. exact Hl.
  - rewrite Hi, length_app. cbn [length]. unfold u8, wrap. rewrite Zplus_mod_idemp_l. f_equal. lia.
  - apply Forall_app. auto.
  - rewrite length_app. cbn [length]. intros i H1 H2. destruct (decide (i = length line)) as [->|Hne].
    + fold (next line). rewrite list_lookup_insert_eq by lia. rewrite lookup_app_r, Nat.sub_diag by lia. reflexivity.
    + rewrite lookup_app_l by lia. rewrite <- Hb by lia. apply list_lookup_insert_ne. unfold next. intros E.
      apply Hne. pose proof (Nat.div_mod_eq i 64). pose proof (Nat.div_mod_eq (length line) 64). lia.
Qed.

(** The characters of the buffer before the next index are the end of the line. *)
Lemma buffer_recent s line m : shows s line -> (m < next line)%nat ->
  buf s !! m = line !! (length line - (next line - m))%nat.
Proof.
  intros [_ _ _ Hb] Hm. unfold next in *. pose proof (Nat.div_mod_eq (length line) 64) as Hd.
  pose proof (Nat.mod_upper_bound (length line) 64 ltac:(discriminate)) as Hu.
  set (i := (length line - (length line mod 64 - m))%nat). assert (i mod 64 = m)%nat as Ei by (symmetry; apply (Nat.mod_unique i 64 (length line / 64)); lia).
  rewrite <- Ei at 1. apply Hb; lia.
Qed.

Lemma strncmp_prefix s p : Forall (fun c => c <> 0) s -> strncmp_eq s p (length s) = true <-> take (length s) p = s.
Proof.
  intros Hs. revert p. induction Hs as [|c s Hc _ IH]; intros [|d p]; cbn [strncmp_eq length take]; try tauto.
  - split; discriminate.
  - destruct (Z.eqb_spec c d) as [->|Hne].
    + replace (d =? 0) with false by lia. rewrite IH. split; congruence.
    + split; congruence.
Qed.

(** After the carriage return, a command stands at the start of the buffer exactly
    when the abstract shell sees it. *)
Lemma command_seen s line cmd : shows s line -> Forall (fun c => c <> 0 /\ c <> 13) cmd -> (length cmd < 64)%nat ->
  strncmp_eq (cmd ++ [13]) (buf (store 13 s)) (length (cmd ++ [13])) = true <-> seen cmd line.
Proof.
  intros Hs Hc Hk. pose proof Hs as [Hl _ Hcr _]. pose proof (next_lt line) as Hn.
  rewrite strncmp_prefix by (apply Forall_app; split; [eapply Forall_impl; [exact Hc|cbn; tauto]|repeat constructor; lia]).
  unfold store. cbn [buf]. rewrite (shows_next s line Hs). set (b := <[next line := 13]> (buf s)).
  assert (forall m, (m < next line)%nat -> b !! m = line !! (length line - (next line - m))%nat) as Hrec.
  { intros m Hm. unfold b. rewrite list_lookup_insert_ne by lia. apply buffer_recent; assumption. }
  assert (b !! next line = Some 13) as Hcr' by (apply list_lookup_insert_eq; lia).
  assert (next line <= length line)%nat as Hle by (unfold next; apply Nat.Div0.mod_le).
  assert (Z.of_nat (length line) mod 64 = Z.of_nat (length cmd) <-> next line = length cmd) as Hmod.
  { unfold next. change 64 with (Z.of_nat 64). rewrite <- Nat2Z.inj_mod. lia. }
  rewrite length_app. cbn [length]. unfold seen. rewrite Hmod. split.
  - intros E. assert (forall m, (m <= length cmd)%nat -> b !! m = (cmd ++ [13]) !! m) as Hb.
    { intros m Hm. rewrite <- E. symmetry. apply lookup_take_lt. lia. }
    assert (b !! length cmd = Some 13) as Hbk by (rewrite Hb, lookup_app_r, Nat.sub_diag by lia; reflexivity).
    assert (next line = length cmd) as Hj.
    { destruct (Nat.lt_trichotomy (next line) (length cmd)) as [Hlt|[E1|Hgt]]; [exfalso|exact E1|exfalso].
      - rewrite Hb, lookup_app_l in Hcr' by lia. rewrite Forall_lookup in Hc. apply Hc in Hcr'. tauto.
      - rewrite Hrec in Hbk by lia. rewrite Forall_lookup in Hcr. apply Hcr in Hbk. congruence. }
    split; [exact Hj|]. exists (take (length line - length cmd) line).
    rewrite <- (take_drop (length line - length cmd) line) at 1. f_equal. apply list_eq. intros m.
    rewrite lookup_drop. destruct (decide (m < length cmd)%nat) as [Hm|Hm].
    + rewrite <- (lookup_app_l cmd [13] m), <- Hb, Hrec by lia. f_equal. lia.
    + rewrite !lookup_ge_None_2 by lia. reflexivity.
  - intros [Hj (l & El)]. apply list_eq. intros m. destruct (decide (m < length cmd + 1)%nat) as [Hm|Hm].
    + rewrite lookup_take_lt by exact Hm. destruct (decide (m = length cmd)) as [->|Hne].
      * rewrite <- Hj at 1. rewrite Hcr', lookup_app_r, Nat.sub_diag by lia. reflexivity.
      * assert (length line = length l + length cmd)%nat as HL by (rewrite El, length_app; reflexivity).
        rewrite Hrec, (lookup_app_l cmd), Hj, HL, El by lia. rewrite lookup_app_r by lia. f_equal. lia.
    + rewrite !lookup_ge_None_2; [reflexivity|rewrite length_app; cbn; lia|rewrite length_take; lia].
Qed.

(** A line that fits the buffer is a command exactly when it is its name. *)
Lemma seen_short cmd line : (length line < 64)%nat -> seen cmd line <-> line = cmd.
Proof.
  intros Hl. unfold seen. rewrite Z.mod_small by lia. split.
  - intros [E (l & ->)]. rewrite length_app in E. destruct l; [reflexivity|cbn in E; lia].
  - intros ->. split; [reflexivity|]. exists []. reflexivity.
Qed.

Lemma response_short line : (length line < 64)%nat ->
  response line = if decide (line = bytes_of "help") then help_text else if decide (line = bytes_of "uname") then uname_text else [].
Proof.
  intros Hl. unfold response. pose proof (seen_short (bytes_of "help") line Hl). pose proof (seen_short (bytes_of "uname") line Hl).
  repeat case_decide; tauto.
Qed.

(** ** Sessions *)

(** The accesses of a number of turns of the loop that start with [line] typed and
    accept the characters [cs]: turns without a character, turns with a receive
    error, whose character is dropped, and turns that echo and answer. *)
Inductive session : list Z -> list Z -> list mmio -> Prop :=
| session_end line : session line [] []
| session_idle line cs es fr : Z.land fr FR_RXFE <> 0 -> session line cs es -> session line cs (Rd (ureg "FR") fr :: es)
| session_error line cs es fr dr e e' : Z.land fr FR_RXFE = 0 -> Z.land e RSRECR_ERR_MASK <> 0 -> session line cs es ->
    session line cs ([Rd (ureg "FR") fr; Rd (ureg "DR") dr; Rd (ureg "RSRECR") e; Rd (ureg "RSRECR") e';
      Wr (ureg "RSRECR") (Z.land e' RSRECR_ERR_MASK)] ++ es)
| session_char line c cs es fr dr e ts : Z.land fr FR_RXFE = 0 -> Z.land e RSRECR_ERR_MASK = 0 ->
    c = Z.land dr DR_DATA_MASK -> c <> 13 -> tx_trace [c] ts -> session (line ++ [c]) cs es ->
    session line (c :: cs) ([Rd (ureg "FR") fr; Rd (ureg "DR") dr; Rd (ureg "RSRECR") e] ++ ts ++ es)
| session_return line cs es fr dr e ts : Z.land fr FR_RXFE = 0 -> Z.land e RSRECR_ERR_MASK = 0 ->
    Z.land dr DR_DATA_MASK = 13 -> tx_trace ([13; 10] ++ response line) ts -> session [] cs es ->
    session line (13 :: cs) ([Rd (ureg "FR") fr; Rd (ureg "DR") dr; Rd (ureg "RSRECR") e] ++ ts ++ es).

Lemma bytes_of_bytes s : bytes (bytes_of s).
Proof.
  unfold bytes, bytes_of. induction (String.list_ascii_of_string s) as [|a l IH]; constructor; auto.
  pose proof (Ascii.N_ascii_bounded a). lia.
Qed.

Lemma response_bytes line : bytes ([13; 10] ++ response line).
Proof.
  unfold bytes. apply Forall_app. split; [repeat constructor; lia|]. unfold response, help_text, uname_text.
  repeat case_decide; [| |constructor]; apply Forall_app; (split; [apply bytes_of_bytes|repeat constructor; lia]).
Qed.

Lemma session_sent line cs es : session line cs es -> sent es = transcript line cs.
Proof.
  induction 1 as [| |line cs es fr dr e e' _ _ _ IH|line c cs es fr dr e ts _ _ Hc Hne Ht _ IH|line cs es fr dr e ts _ _ _ Ht _ IH];
    [reflexivity|assumption|exact IH|cbn [transcript]..].
  - replace (c =? 13) with false by lia. rewrite !sent_app, IH, (sent_tx [c] ts Ht); [reflexivity|].
    constructor; [rewrite Hc; apply land_byte|constructor].
  - rewrite Z.eqb_refl, !sent_app, IH, (sent_tx _ ts Ht) by apply response_bytes. rewrite app_assoc. reflexivity.
Qed.

Section Spec.
Context {D : Type} {B : Bus D} (pre : M D unit) `{!Quiet pre} (P : D -> Prop) {PL : Pl011 P}.
Context (fuel : nat) (Hfuel : (pl_bound <= fuel)%nat).
Implicit Types w : world D.

Lemma wp_parse_cmd s line w (Q : unit -> world D -> Prop) : irqs_on w = false -> P (dev w) -> shows s line ->
  (forall w' es, tx_trace (response line) es -> extends P w w' es -> Q tt w') ->
  wp (parse_cmd pre fuel (MkShell (buf (store 13 s)) 0)) Q w.
Proof.
  intros Hi HP Hs HQ. unfold parse_cmd. cbn [buf].
  pose proof (command_seen s line (bytes_of "help") Hs ltac:(repeat constructor; discriminate) ltac:(cbn; lia)) as Hh.
  pose proof (command_seen s line (bytes_of "uname") Hs ltac:(repeat constructor; discriminate) ltac:(cbn; lia)) as Hu.
  fold help_cmd in Hh. fold uname_cmd in Hu. unfold response in HQ.
  destruct (strncmp_eq help_cmd _ _); [rewrite decide_True in HQ by (apply Hh; reflexivity); apply (wp_uart_write pre P fuel Hfuel); auto|].
  rewrite decide_False in HQ by (rewrite <- Hh; discriminate).
  destruct (strncmp_eq uname_cmd _ _); [rewrite decide_True in HQ by (apply Hu; reflexivity); apply (wp_uart_write pre P fuel Hfuel); auto|].
  rewrite decide_False in HQ by (rewrite <- Hu; discriminate).
  apply wp_ret, (HQ w []); [constructor|]. apply extends_refl. exact HP.
Qed.

(** One turn followed by the rest of a session. *)
Lemma wp_shell_step s line w (Q : shell -> world D -> Prop) : irqs_on w = false -> P (dev w) -> shows s line ->
  (forall s' w' es0 cs0 line1, extends P w w' es0 -> shows s' line1 -> line1 = line_after line cs0 ->
    (forall cs es, session line1 cs es -> session line (cs0 ++ cs) (es0 ++ es)) -> Q s' w') ->
  wp (shell_step pre fuel s) Q w.
Proof.
  intros Hi HP Hs HQ. unfold shell_step. apply wp_bind.
  eapply wp_mono; [exact (uart_getchar_branches pre P w Hi HP)|].
  intros r w1 (fr & [(-> & Hf & Hx)|[(dr & e & Hf & He & -> & Hx)|(dr & e & e' & Hf & He & -> & Hx)]]).
  - apply wp_ret. apply (HQ s w1 _ [] line Hx Hs eq_refl). intros cs es H. apply session_idle; assumption.
  - set (c := Z.land dr DR_DATA_MASK) in *. apply wp_bind, (wp_uart_putchar pre P fuel Hfuel); [world_solve|world_solve|].
    intros w2 es2 Ht2 Hx2. cbv zeta. destruct (Z.eqb_spec c 13) as [Ec|Hne].
    + rewrite Ec in Ht2. rewrite Ec.
      apply wp_bind, (wp_uart_write pre P fuel Hfuel); [world_solve|world_solve|]. intros w3 es3 Ht3 Hx3.
      apply wp_bind, (wp_parse_cmd s line); [world_solve|world_solve|exact Hs|]. intros w4 es4 Ht4 Hx4. apply wp_ret.
      eapply (HQ _ w4 _ [13] []); [extends_solve| |reflexivity|].
      * apply shows_empty. unfold store. cbn [buf]. rewrite length_insert. apply Hs.
      * intros cs es H. rewrite <- !app_assoc. cbn [app]. 
        pose proof (session_return line cs es fr dr e (es2 ++ es3 ++ es4) Hf He Ec
          (tx_trace_app [13] _ _ _ Ht2 (tx_trace_app [10] _ _ _ Ht3 Ht4)) H) as Hses. rewrite <- !app_assoc in Hses. exact Hses.
    + apply wp_ret. eapply (HQ _ w2 _ [c] (line ++ [c])); [extends_solve|apply shows_store; assumption| |].
      * cbn [line_after]. replace (c =? 13) with false by lia. reflexivity.
      * intros cs es H. rewrite <- !app_assoc. apply (session_char line c cs es fr dr e es2); auto.
  - apply wp_ret. apply (HQ s w1 _ [] line Hx Hs eq_refl). intros cs es H. apply session_error; assumption.
Qed.

Lemma line_after_app line cs1 cs2 : line_after line (cs1 ++ cs2) = line_after (line_after line cs1) cs2.
Proof. revert line. induction cs1 as [|c cs1 IH]; intros line; cbn [line_after app]; [reflexivity|]. case_match; apply IH. Qed.

Lemma wp_shell_loop n : forall s line w, irqs_on w = false -> P (dev w) -> shows s line ->
  wp (shell_loop pre fuel n s) (fun s' w' => exists cs es, extends P w w' es /\ session line cs es /\ shows s' (line_after line cs)) w.
Proof.
  induction n as [|n IH]; intros s line w Hi HP Hs; cbn [shell_loop].
  - apply wp_ret. exists [], []. split_and!; [apply extends_refl; exact HP|constructor|exact Hs].
  - apply wp_bind, (wp_shell_step s line); auto. intros s1 w1 es0 cs0 line1 Hx Hs1 -> Hses.
    eapply wp_mono; [apply (IH s1 (line_after line cs0) w1); [world_solve|world_solve|exact Hs1]|].
    intros s2 w2 (cs & es & Hx2 & H & Hs2). exists (cs0 ++ cs), (es0 ++ es).
    split_and!; [eapply extends_trans; eassumption|apply Hses; exact H|rewrite line_after_app; exact Hs2].
Qed.

(** The UART is configured as in chapter 8, but for the interrupt. *)
Lemma wp_uart_configure06 c i f w (Q : uart_error -> world D -> Prop) :
  irqs_on w = false -> P (dev w) -> valid_config c -> baud_divisor (baudrate c) = Some (i, f) ->
  (forall w' es cr1 polls lc cr2, poll_trace (ureg "FR") FR_BUSY polls ->
    es = [Rd (ureg "CR") cr1; Wr (ureg "CR") (clear cr1 CR_UARTEN)] ++ polls ++
         [Rd (ureg "LCRH") lc; Wr (ureg "LCRH") (clear lc LCRH_FEN); Wr (ureg "IBRD") i; Wr (ureg "FBRD") f;
          Wr (ureg "LCRH") (lcrh_word c); Rd (ureg "CR") cr2; Wr (ureg "CR") (Z.lor cr2 CR_UARTEN)] ->
    extends P w w' es -> Q UART_OK w') ->
  wp (uart_configure06 pre fuel c) Q w.
Proof.
  intros Hi HP Hc Hb HQ. pose proof (baud_divisor_range _ _ _ Hb) as [Hri Hrf]. pose proof (lcrh_word_range c Hc) as Hl.
  unfold uart_configure06. pose proof Hc as (Hc1 & Hc2 & Hc3).
  repeat match goal with |- context [if ?b then ret _ else _] => replace b with false by (case_bools; cbn; lia || reflexivity) end.
  wp_run P. eapply (wp_poll_while pre P); [world_solve|world_solve|apply pl_busy; world_solve|exact Hfuel|].
  intros w2 polls Hx1 Hp. wp_run P. eapply wp_of_option; [exact Hb|]. wp_run P.
  eapply HQ; [exact Hp|reflexivity|].
  rewrite ?u32_clear, ?u32_lor, ?u32_small in * by first [assumption | cbn; lia | vm_compute; split; congruence].
  extends_solve.
Qed.

Definition greeting : list Z := [65; 66; 67; 10] ++ bytes_of "I love drivers!" ++ [10] ++ bytes_of "Type below..." ++ [10].

Lemma greeting_bytes : bytes greeting.
Proof. unfold bytes. repeat constructor; discriminate || reflexivity. Qed.

(** [main] prints its greeting and then keeps a session. *)
Lemma wp_main06 n w : irqs_on w = false -> P (dev w) ->
  wp (main06 pre fuel n) (fun s w' => exists cs es1 es2, extends P w w' (es1 ++ es2) /\ sent es1 = greeting /\
    session [] cs es2 /\ shows s (line_after [] cs)) w.
Proof.
  intros Hi HP. unfold main06.
  apply wp_bind, (wp_uart_configure06 _ 156 16); auto; [unfold valid_config; cbn; lia|].
  intros w0 es0 cr1 polls lc cr2 Hp Ees Hx0. assert (sent es0 = []) as Hs0 by (rewrite Ees, !sent_app, (sent_poll _ _ _ Hp); reflexivity).
  do 4 (apply wp_bind, (wp_uart_putchar pre P fuel Hfuel); [world_solve|world_solve|];
    let w := fresh "w" in let es := fresh "es" in let Ht := fresh "Ht" in let Hx := fresh "Hx" in intros w es Ht Hx).
  do 2 (apply wp_bind, (wp_uart_write pre P fuel Hfuel); [world_solve|world_solve|];
    let w := fresh "w" in let es := fresh "es" in let Ht := fresh "Ht" in let Hx := fresh "Hx" in intros w es Ht Hx).
  eapply wp_mono; [apply (wp_shell_loop n shell0 []); [world_solve|world_solve|apply (shows_empty shell0); reflexivity]|].
  intros s w' (cs & esl & Hx' & Hses & Hsh). exists cs, (es0 ++ es ++ es1 ++ es2 ++ es3 ++ es4 ++ es5), esl.
  split_and!; [| |exact Hses|exact Hsh].
  - eapply extends_eq; [repeat first [eassumption | eapply extends_trans; [eassumption|]]|rewrite <- !app_assoc; reflexivity].
  - rewrite sent_app, Hs0. cbn [app]. apply sent_tx; [|exact greeting_bytes].
    unfold greeting.
    apply (tx_trace_app [65]); [assumption|]. apply (tx_trace_app [66]); [assumption|]. apply (tx_trace_app [67]); [assumption|].
    apply (tx_trace_app [10]); [assumption|]. rewrite !app_assoc. rewrite <- app_assoc.
    apply tx_trace_app; assumption.
Qed.

End Spec.

(** ** Theorem *)

(** C36: The program of chapter 6 is the abstract shell: from reset, on any board whose
    UART drains, it prints its greeting, and every number of turns of its loop
    prints the transcript of the characters received without error, each echoed
    and each carriage return answered with a line feed and the response to the
    line; [buf] and [buf_idx] hold the line typed since.  A line of fewer than 64
    characters is answered exactly when it is a command. *)
Theorem main06_refines {D : Type} {B : Bus D} (pre : M D unit) `{!Quiet pre} (P : D -> Prop) {PL : Pl011 P} (fuel n : nat) (w : world D) :
  (pl_bound <= fuel)%nat -> irqs_on w = false -> P (dev w) ->
  wp (main06 pre fuel n) (fun s w' => exists cs es1 es2,
    extends P w w' (es1 ++ es2) /\ sent es1 = greeting /\ session [] cs es2 /\ sent es2 = transcript [] cs /\
    shows s (line_after [] cs)) w /\
  (forall line, (length line < 64)%nat ->
    response line = if decide (line = bytes_of "help") then help_text else if decide (line = bytes_of "uname") then uname_text else []).
Proof.
  intros Hf Hi HP. split; [|exact response_short].
  eapply wp_mono; [exact (wp_main06 pre P fuel Hf n w Hi HP)|].
  intros s w' (cs & es1 & es2 & Hx & Hg & Hs & Hsh). exists cs, es1, es2. split_and!; auto using session_sent.
Qed.

(** Typing [uname] on the board, one character per turn. *)
Lemma main06_refines_witness : exists s w' cs es1 es2,
  main06 (ret tt) 17 6 (Board.start 5 [117; 110; 97; 109; 101; 13]) = Done (s, w') /\
  trace w' = es1 ++ es2 /\ sent es1 = greeting /\ session [] cs es2 /\ sent es2 = transcript [] cs.
Proof.
  destruct (main06_refines (ret tt) Board.fifo_ok 17 6 (Board.start 5 [117; 110; 97; 109; 101; 13])) as [H _];
    [reflexivity|reflexivity|vm_compute; split; discriminate|].
  destruct (wp_done _ _ _ H) as (s & w' & E & cs & es1 & es2 & Hx & Hg & Hs & Ht & _).
  exists s, w', cs, es1, es2. split_and!; [exact E|exact (ext_trace _ _ _ _ Hx)|exact Hg|exact Hs|exact Ht].
Defined.

(** The output of that run. *)
Example uname_answered :
  (match main06 (ret tt) 17 6 (Board.start 5 [117; 110; 97; 109; 101; 13]) with
   | Done (_, w') => sent (trace w') = greeting ++ bytes_of "uname" ++ [13; 10] ++ uname_text
   | _ => False
   end).
Proof. vm_compute. reflexivity. Qed.

(** 64 characters before the name make no difference: the index wraps. *)
Example long_line_answered l : length l = 64%nat -> response (l ++ bytes_of "help") = help_text.
Proof.
  intros Hl. unfold response. rewrite decide_True; [reflexivity|]. split; [rewrite length_app, Hl; reflexivity|]. exists l. reflexivity.
Qed.

(** ** The programs of chapters 4 and 5

    04_cenv/cstart.c and its copy in 05_cmake write to the data register without
    looking at the flags. *)

Section Hello.
Context {D : Type} {B : Bus D} (pre : M D unit).

Definition hello : list Z := bytes_of "Hello world from bare-metal!" ++ [10].

Fixpoint write04 (str : list Z) : M D unit :=
  match str with
  | [] => ret tt
  | c :: str => reg_write pre (ureg "DR") c ;;; write04 str
  end.

(** [main] up to its endless loop; [s] is not moved by [write(s)]. *)
Definition main04 : M D unit :=
  write04 hello ;;;
  reg_write pre (ureg "DR") 65 ;;;
  reg_write pre (ureg "DR") 66 ;;;
  reg_write pre (ureg "DR") 67 ;;;
  reg_write pre (ureg "DR") 10 ;;;
  write04 hello.

Context `{!Quiet pre} (P : D -> Prop) `{!Stable P}.

Lemma wp_write04 str w (Q : unit -> world D -> Prop) : irqs_on w = false -> P (dev w) ->
  (forall w', extends P w w' (map (fun c => Wr (ureg "DR") (u32 c)) str) -> Q tt w') -> wp (write04 str) Q w.
Proof.
  revert w Q. induction str as [|c str IH]; intros w Q Hi HP HQ; cbn [write04 map] in *.
  - apply wp_ret, HQ, extends_refl, HP.
  - wp_step P. wp_step P. apply IH; [world_solve|world_solve|]. intros w1 Hx1. apply HQ. extends_solve.
Qed.

(** Chapter 4 prints its text twice, with [ABC] in between, and reads nothing: it
    relies on the transmit FIFO always having room. *)
Lemma main04_prints w : irqs_on w = false -> P (dev w) ->
  wp main04 (fun _ w' => extends P w w' (map (Wr (ureg "DR")) (hello ++ [65; 66; 67; 10] ++ hello))) w.
Proof.
  intros Hi HP. unfold main04. apply wp_bind, wp_write04; auto. intros w1 Hx. do 8 wp_step P.
  apply wp_write04; [world_solve|world_solve|]. intros w5 Hx5. extends_solve.
Qed.

End Hello.

End Shell.
