(* ===== verification/Echo.v ===== *)
(** * Echo: the program of chapter 7 (07_interrupts)

    The UART with interrupts: [main] sets up the UART, the interrupt controller and
    the CPU and then idles; what is typed is echoed by the interrupt handler.  The
    drivers are those of chapter 8, whose files they became unchanged but for
    [uart_write_uint]; [preempt] is System.v's interruption point. *)

From stdpp Require Import base list strings.
From S2P Require Import Prelude Machine Board Gic Irq Double Uart Ptimer System.
Import Gic Irq Uart System.

Module Echo.

Section Program.
Context {D : Type} {B : Bus D} (fuel : nat).

(** [main] up to its endless loop. *)
Definition main07_setup (burst : nat) : M D unit :=
  let pre := preempt fuel burst in
  uart_configure pre fuel (UartConfig 8 1 false 9600) ;;;
  uart_putchar pre fuel 65 ;;;
  uart_putchar pre fuel 66 ;;;
  uart_putchar pre fuel 67 ;;;
  uart_putchar pre fuel 10 ;;;
  uart_write pre fuel (bytes_of "Welcome to Chapter 7, Interrupts!" ++ [10]) ;;;
  gic_init pre ;;;
  gic_enable_interrupt pre UART0_INTERRUPT ;;;
  cpu_enable_interrupts.

(** [n] turns of [while (1) { }]. *)
Fixpoint idle (burst n : nat) : M D unit :=
  match n with
  | O => ret tt
  | S n => preempt fuel burst ;;; idle burst n
  end.

Definition main07 (burst n : nat) : M D unit := main07_setup burst ;;; idle burst n.

End Program.

Definition greeting07 : list Z := [65; 66; 67; 10] ++ bytes_of "Welcome to Chapter 7, Interrupts!" ++ [10].

Lemma greeting07_bytes : bytes greeting07.
Proof. unfold bytes. repeat constructor; discriminate || reflexivity. Qed.

Section Spec.
Context {D : Type} {B : Bus D} (P : D -> Prop) {PL : Pl011 P} (fuel : nat) (Hfuel : (pl_bound <= fuel)%nat).
Implicit Types w : world D.

(** The accesses of the interrupts taken: each is acknowledged, handled if it is
    the UART's, and ended. *)
Inductive echoes : list mmio -> Prop :=
| echoes_none : echoes []
| echoes_irq v es es' : let irq := Z.land v CIAR_ID_MASK in
    (if irq =? UART0_INTERRUPT then isr_trace es else es = []) -> echoes es' ->
    echoes ([Rd (ireg (bus_periphbase + 0x100) "CIAR") v] ++ es ++ [Wr (ireg (bus_periphbase + 0x100) "CEOIR") irq] ++ es').

Lemma echoes_app es1 es2 : echoes es1 -> echoes es2 -> echoes (es1 ++ es2).
Proof.
  induction 1 as [|v es es' irq H _ IH]; intros H2; [exact H2|]. rewrite <- !app_assoc.
  apply (echoes_irq v es (es' ++ es2)); auto.
Qed.

(** The program once it is set up. *)
Record listening w : Prop := {
  ls_dev : P (dev w);
  ls_table : table_wf (st w);
  ls_gic : gic_ifregs (st w) = bus_periphbase + 0x100;
  ls_isrs : forall n, registry (st w) n = if n =? UART0_INTERRUPT then Some uart_isr_ptr else None;
}.

(** Interrupts were taken from [w] to [w']: they are the only accesses, and no
    variable changed. *)
Definition echoed w w' : Prop :=
  listening w' /\ irqs_on w' = irqs_on w /\ st w' = st w /\ exists es, trace w' = trace w ++ es /\ echoes es.

Lemma echoed_refl w : listening w -> echoed w w.
Proof. intros Hl. split_and!; auto. exists []. split; [symmetry; apply app_nil_r|constructor]. Qed.

Lemma echoed_trans w1 w2 w3 : echoed w1 w2 -> echoed w2 w3 -> echoed w1 w3.
Proof.
  intros (_ & I1 & S1 & e1 & T1 & E1) (L & I2 & S2 & e2 & T2 & E2). split_and!; auto; [congruence|congruence|].
  exists (e1 ++ e2). split; [rewrite T2, T1; symmetry; apply app_assoc|apply echoes_app; assumption].
Qed.

Lemma wp_take_irq_echoes w : listening w -> irqs_on w = true -> wp (take_irq fuel) (fun _ w' => echoed w w') w.
Proof.
  intros [Hd Ht Hg Hr] Hi. unfold take_irq. apply wp_bind.
  change (wp (set_irqs false) ?Q w) with (Q tt (World (dev w) (trace w) (st w) false)). cbv beta. apply wp_bind.
  eapply wp_mono; [apply (wp_irq_handler _ P table_wf (isr_body fuel) (T := isr_table P fuel Hfuel)); auto|].
  cbn [st trace dev irqs_on]. intros _ w' (v & es & s' & He & [Tx Sx Ix Dx]).
  change (wp (set_irqs true) ?Q w') with (Q tt (World (dev w') (trace w') (st w') true)). cbv beta.
  cbn in Tx, Sx, Dx. unfold dispatch_effect in He. rewrite Hr in He.
  assert (s' = st w /\ if Z.land v CIAR_ID_MASK =? UART0_INTERRUPT then isr_trace es else es = []) as [-> He'].
  { destruct (_ =? _); cbn in He; tauto. }
  split_and!; cbn [irqs_on st trace]; auto; [split; cbn [dev st]; rewrite ?Sx; auto|].
  eexists. split; [rewrite Tx, Hg; reflexivity|].
  pose proof (echoes_irq v es [] He' echoes_none) as H. rewrite !app_nil_r in H. exact H.
Qed.

Lemma wp_service_echoes n : forall w, listening w -> wp (service fuel n) (fun _ w' => echoed w w') w.
Proof.
  induction n as [|n IH]; intros w Hl; cbn [service]; [apply wp_ret, echoed_refl, Hl|].
  unfold wp at 1. destruct (irqs_on w && bus_irq (dev w)) eqn:E; [|apply echoed_refl, Hl]. apply andb_true_iff in E as [Ei _].
  change (wp (take_irq fuel ;;; service fuel n) (fun _ w' => echoed w w') w).
  apply wp_bind. eapply wp_mono; [exact (wp_take_irq_echoes w Hl Ei)|]. intros u1 w1 H1.
  eapply wp_mono; [exact (IH w1 (proj1 H1))|]. intros u2 w2 H2. exact (echoed_trans _ _ _ H1 H2).
Qed.

Lemma wp_preempt_echoes burst w : listening w -> wp (preempt fuel burst) (fun _ w' => echoed w w') w.
Proof.
  intros [Hd Ht Hg Hr]. unfold preempt. apply wp_bind.
  change (wp pass_tick ?Q w) with (Q tt (World (bus_tick (dev w)) (trace w) (st w) (irqs_on w))). cbv beta.
  eapply wp_mono; [apply wp_service_echoes; split; auto; apply stable_tick; exact Hd|].
  intros _ w' (L & I & S & es & T & E). split_and!; auto. exists es. auto.
Qed.

Lemma wp_idle_echoes burst n : forall w, listening w -> wp (idle fuel burst n) (fun _ w' => echoed w w') w.
Proof.
  induction n as [|n IH]; intros w Hl; cbn [idle]; [apply wp_ret, echoed_refl, Hl|].
  apply wp_bind. eapply wp_mono; [exact (wp_preempt_echoes burst w Hl)|]. intros u1 w1 H1.
  eapply wp_mono; [exact (IH w1 (proj1 H1))|]. intros u2 w2 H2. exact (echoed_trans _ _ _ H1 H2).
Qed.

Context (Hmap : 0 <= bus_periphbase <= 2 ^ 32 - 0x2000).

(** The accesses of the set-up: the UART is configured (8 data bits, one stop bit,
    9600 baud) and the greeting sent; then the CPU interface lets every priority
    through and is enabled, the distributor is enabled, and interrupt 37 of the
    UART is enabled with bit 5 of the second set-enable word and a bit of the tenth
    target word. *)
Inductive setup_trace : list mmio -> Prop :=
| setup_steps cfg tx v1 v2 :
    let ib := bus_periphbase + 0x100 in let db := bus_periphbase + 0x1000 in
    configure_trace (UartConfig 8 1 false 9600) 156 16 cfg -> tx_trace greeting07 tx ->
    setup_trace (cfg ++ tx ++
      [Wr (ireg ib "CCPMR") 0xFFFF; Wr (ireg ib "CCTLR") 1; Wr (dreg db "DCTLR") 1;
       Rd (db + 0x100 + 4) v1; Wr (db + 0x100 + 4) (Z.lor v1 (2 ^ 5));
       Rd (db + 0x820 + 36) v2; Wr (db + 0x820 + 36) (Z.lor v2 (2 ^ 8))]).

Lemma wp_main07_setup burst w : irqs_on w = false -> P (dev w) -> st w = statics0 -> trace w = [] ->
  wp (main07_setup fuel burst) (fun _ w' => listening w' /\ irqs_on w' = true /\ setup_trace (trace w')) w.
Proof.
  intros Hi HP Hst Htr. unfold main07_setup. set (pre := preempt fuel burst). cbv zeta.
  apply wp_bind, (wp_uart_configure pre P fuel Hfuel _ 156 16); auto; [rewrite Hst; reflexivity|unfold valid_config; cbn; lia|].
  intros w0 s0 es0 Ht0 Hx0 (cs & Hcs) Hw0 Hr0.
  do 4 (apply wp_bind, (wp_uart_putchar pre P fuel Hfuel); [world_solve|world_solve|];
    let w := fresh "w" in let es := fresh "es" in let Ht := fresh "Ht" in let Hx := fresh "Hx" in intros w es Ht Hx).
  apply wp_bind, (wp_uart_write pre P fuel Hfuel); [world_solve|world_solve|]. intros w5 es5 Ht5 Hx5.
  assert (extends P (with_st s0 w) w5 (es0 ++ es ++ es1 ++ es2 ++ es3 ++ es5)) as Hall
    by (repeat first [eassumption | eapply extends_trans; [eassumption|]]).
  apply wp_bind. eapply wp_mono; [apply (gic_init_spec pre P w5); world_solve|].
  rewrite (u32_small bus_periphbase), !u32_small by lia. intros _ w6 Hx6.
  apply wp_bind. eapply wp_mono; [apply (gic_enable_interrupt_spec pre P w6); [world_solve|world_solve|unfold UART0_INTERRUPT; lia]|].
  intros _ w7 (v1 & v2 & Hx7). cbv zeta in Hx7. destruct Hall as [T5 S5 _ _], Hx6 as [T6 S6 _ _], Hx7 as [T7 S7 _ D7].
  cbn [trace st with_st] in *. rewrite Htr in T5. cbn [app] in T5.
  change (wp cpu_enable_interrupts ?Q w7) with (Q tt (World (dev w7) (trace w7) (st w7) true)). cbv beta. cbn [irqs_on trace].
  split_and!; [|reflexivity|].
  - split; cbn [dev st]; auto; rewrite S7, S6, S5; cbn [st gic_ifregs set_gic_regs]; auto.
    intros n. change (registry (set_gic_regs _ _ s0) n) with (registry s0 n). rewrite Hr0, Hst. unfold spec_register.
    change (MAX_ISR <? UART0_INTERRUPT) with false. rewrite registry0. cbn [snd]. destruct (n =? _); [reflexivity|apply registry0].
  - assert (tx_trace greeting07 (es ++ es1 ++ es2 ++ es3 ++ es5)) as Htx.
    { unfold greeting07. apply (tx_trace_app [65]); [assumption|]. apply (tx_trace_app [66]); [assumption|].
      apply (tx_trace_app [67]); [assumption|]. apply (tx_trace_app [10]); assumption. }
    pose proof (setup_steps es0 _ v1 v2 Ht0 Htx) as H. rewrite T7, T6, T5. rewrite <- !app_assoc in *. rewrite S6 in *. exact H.
Qed.

End Spec.

(** ** Theorem *)

(** C37: The program of chapter 7: from reset, on any board whose UART drains, [main]
    sets up with exactly the accesses of [setup_trace] (the UART programmed, the
    greeting sent, the interrupt controller and the UART's interrupt enabled) and
    leaves interrupts on with the UART's handler as the only one registered; during
    any number of turns of its loop, whatever interrupts arrive, the only accesses
    are those of the handlers, each interrupt acknowledged, handled if it is the
    UART's and ended, and no variable changes. *)
Theorem main07_echoes {D : Type} {B : Bus D} (P : D -> Prop) {PL : Pl011 P} (fuel burst n : nat) (w : world D) :
  (pl_bound <= fuel)%nat -> 0 <= bus_periphbase <= 2 ^ 32 - 0x2000 ->
  irqs_on w = false -> P (dev w) -> st w = statics0 -> trace w = [] ->
  exists w1 w2, main07_setup fuel burst w = Done (tt, w1) /\ main07 fuel burst n w = Done (tt, w2) /\
    setup_trace (trace w1) /\ listening P w1 /\ irqs_on w1 = true /\
    st w2 = st w1 /\ listening P w2 /\ irqs_on w2 = true /\ exists es, trace w2 = trace w1 ++ es /\ echoes es.
Proof.
  intros Hf Hm Hi HP Hst Htr.
  destruct (wp_done _ _ _ (wp_main07_setup P fuel Hf Hm burst w Hi HP Hst Htr)) as ([] & w1 & E1 & Hl & I1 & Hs).
  destruct (wp_done _ _ _ (wp_idle_echoes P fuel Hf burst n w1 Hl)) as ([] & w2 & E2 & L2 & I2 & S2 & es & T2 & He).
  exists w1, w2. split_and!; auto; [unfold main07, bind; rewrite E1; exact E2|congruence|]. exists es. auto.
Qed.

Lemma main07_echoes_witness : exists w1 w2, main07_setup 17 2 (Board.start 5 [72]) = Done (tt, w1) /\
  main07 17 2 3 (Board.start 5 [72]) = Done (tt, w2) /\ setup_trace (trace w1) /\ st w2 = st w1 /\
  exists es, trace w2 = trace w1 ++ es /\ echoes es.
Proof.
  destruct (main07_echoes Board.fifo_ok 17 2 3 (Board.start 5 [72]) board_fuel
    ltac:(vm_compute; split; discriminate) ltac:(reflexivity) ltac:(vm_compute; split; discriminate) ltac:(reflexivity) ltac:(reflexivity))
    as (w1 & w2 & E1 & E2 & Hs & _ & _ & S2 & _ & _ & Hes).
  exists w1, w2. auto.
Defined.

End Echo.
