(* ===== verification/Lmb.v ===== *)
(** * Lmb: the logical memory block allocator that places the image

    U-Boot's lib/lmb.c and include/lmb.h.  [bootm] describes the board's RAM
    with [lmb_add], reserves what must not be overwritten with [lmb_reserve] and
    finds room with [lmb_alloc_base].  A [lmb_region] is an array of
    [MAX_LMB_REGIONS + 1] slots with a count; addresses and sizes are 32 bits
    wide (vexpress has no [CONFIG_PHYS_64BIT]).  [None] is an access outside the
    array or a loop out of fuel; the theorems show that neither happens. *)

From stdpp Require Import base list option.
From Stdlib Require Import ZifyBool.
From S2P Require Import Prelude.

Module Lmb.

Record lmb_property := LmbProperty { rbase : Z; rsize : Z }.

Record lmb_region := LmbRegion { cnt : Z; total : Z; region : list lmb_property }.

Record lmb := MkLmb { memory : lmb_region; reserved : lmb_region }.

Definition MAX_LMB_REGIONS : Z := 8.
Definition LMB_ALLOC_ANYWHERE : Z := 0.

(** ** Operations *)

(** [rgn->region[i]], read and written. *)
Definition get (rgn : lmb_region) (i : Z) : option lmb_property :=
  if 0 <=? i then region rgn !! Z.to_nat i else None.

Definition put (rgn : lmb_region) (i : Z) (p : lmb_property) : option lmb_region :=
  if (0 <=? i) && (i <? Z.of_nat (length (region rgn)))
  then Some (LmbRegion (cnt rgn) (total rgn) (<[Z.to_nat i := p]> (region rgn)))
  else None.

Definition set_cnt (rgn : lmb_region) (n : Z) : lmb_region :=
  LmbRegion n (total rgn) (region rgn).

Definition lmb_addrs_overlap (base1 size1 base2 size2 : Z) : bool :=
  (base1 <? u32 (base2 + size2)) && (base2 <? u32 (base1 + size1)).

Definition lmb_addrs_adjacent (base1 size1 base2 size2 : Z) : Z :=
  if base2 =? u32 (base1 + size1) then 1
  else if base1 =? u32 (base2 + size2) then -1
  else 0.

Definition lmb_regions_adjacent (rgn : lmb_region) (r1 r2 : Z) : option Z :=
  p1 ← get rgn r1; p2 ← get rgn r2;
  Some (lmb_addrs_adjacent (rbase p1) (rsize p1) (rbase p2) (rsize p2)).

(** Every loop below stops at [cnt] or at the first access outside the array. *)
Definition loop_fuel (rgn : lmb_region) : nat := S (length (region rgn)).

Fixpoint shift_down (fuel : nat) (rgn : lmb_region) (i : Z) : option lmb_region :=
  match fuel with
  | O => None
  | S n =>
    if i <? u32 (cnt rgn - 1) then
      p ← get rgn (i + 1); rgn' ← put rgn i p; shift_down n rgn' (i + 1)
    else Some rgn
  end.

Definition lmb_remove_region (rgn : lmb_region) (r : Z) : option lmb_region :=
  rgn ← shift_down (loop_fuel rgn) rgn r;
  Some (set_cnt rgn (u32 (cnt rgn - 1))).

Definition lmb_coalesce_regions (rgn : lmb_region) (r1 r2 : Z) : option lmb_region :=
  p1 ← get rgn r1; p2 ← get rgn r2;
  rgn ← put rgn r1 (LmbProperty (rbase p1) (u32 (rsize p1 + rsize p2)));
  lmb_remove_region rgn r2.

(** [for (i = 0; i < rgn->cnt; i++) if (cond) break;], with [cond] on the slot
    [i]: the loop variable when the loop is left. *)
Fixpoint search (fuel : nat) (cond : lmb_property -> bool) (rgn : lmb_region) (i : Z) : option Z :=
  match fuel with
  | O => None
  | S n =>
    if i <? cnt rgn then
      p ← get rgn i;
      if cond p then Some i else search n cond rgn (i + 1)
    else Some i
  end.

(** [lmb_init] writes slot 0 of both tables and leaves the other slots alone. *)
Definition init_region (rgn : lmb_region) : lmb_region :=
  LmbRegion 1 0 (<[0%nat := LmbProperty 0 0]> (region rgn)).

Definition lmb_init (l : lmb) : lmb :=
  MkLmb (init_region (memory l)) (init_region (reserved l)).

(** The first loop of [lmb_add_region]: it returns early when the block is
    already there, and otherwise leaves the loop with the table, the loop
    variable and [coalesced]. *)
Inductive scan_result := AlreadyThere | LeftLoop (rgn : lmb_region) (i coalesced : Z).

Fixpoint coalesce_scan (fuel : nat) (rgn : lmb_region) (base size i : Z) : option scan_result :=
  match fuel with
  | O => None
  | S n =>
    if i <? cnt rgn then
      p ← get rgn i;
      if (rbase p =? base) && (rsize p =? size) then Some AlreadyThere else
      let adjacent := lmb_addrs_adjacent base size (rbase p) (rsize p) in
      if 0 <? adjacent then
        rgn' ← put rgn i (LmbProperty (u32 (rbase p - size)) (u32 (rsize p + size)));
        Some (LeftLoop rgn' i 1)
      else if adjacent <? 0 then
        rgn' ← put rgn i (LmbProperty (rbase p) (u32 (rsize p + size)));
        Some (LeftLoop rgn' i 1)
      else coalesce_scan n rgn base size (i + 1)
    else Some (LeftLoop rgn i 0)
  end.

(** The insertion loop; [k] iterations are left and [i = k - 1]. *)
Fixpoint insert_scan (k : nat) (rgn : lmb_region) (base size : Z) : option lmb_region :=
  match k with
  | O => Some rgn
  | S k =>
    let i := Z.of_nat k in
    p ← get rgn i;
    if base <? rbase p then
      rgn' ← put rgn (i + 1) p; insert_scan k rgn' base size
    else put rgn (i + 1) (LmbProperty base size)
  end.

(** The block that the first loop grew may now touch the next one. *)
Definition coalesce_next (rgn : lmb_region) (i coalesced : Z) : option (lmb_region * Z) :=
  if i <? u32 (cnt rgn - 1) then
    adjacent ← lmb_regions_adjacent rgn i (i + 1);
    if adjacent =? 0 then Some (rgn, coalesced)
    else rgn ← lmb_coalesce_regions rgn i (i + 1); Some (rgn, coalesced + 1)
  else Some (rgn, coalesced).

Definition lmb_add_region (rgn : lmb_region) (base size : Z) : option (Z * lmb_region) :=
  p0 ← get rgn 0;
  if (cnt rgn =? 1) && (rsize p0 =? 0) then
    rgn ← put rgn 0 (LmbProperty base size); Some (0, rgn)
  else
  scanned ← coalesce_scan (loop_fuel rgn) rgn base size 0;
  match scanned with
  | AlreadyThere => Some (0, rgn)
  | LeftLoop rgn i coalesced =>
    '(rgn, coalesced) ← coalesce_next rgn i coalesced;
    if negb (coalesced =? 0) then Some (coalesced, rgn) else
    if MAX_LMB_REGIONS <=? cnt rgn then Some (-1, rgn) else
    rgn ← insert_scan (Z.to_nat (cnt rgn)) rgn base size;
    p0 ← get rgn 0;
    rgn ← (if base <? rbase p0 then put rgn 0 (LmbProperty base size) else Some rgn);
    Some (0, set_cnt rgn (u32 (cnt rgn + 1)))
  end.

Definition lmb_add (l : lmb) (base size : Z) : option (Z * lmb) :=
  '(r, rgn) ← lmb_add_region (memory l) base size; Some (r, MkLmb rgn (reserved l)).

Definition lmb_reserve (l : lmb) (base size : Z) : option (Z * lmb) :=
  '(r, rgn) ← lmb_add_region (reserved l) base size; Some (r, MkLmb (memory l) rgn).

Definition lmb_free (l : lmb) (base size : Z) : option (Z * lmb) :=
  let rgn := reserved l in
  let end_ := u32 (base + size) in
  let done r rgn := Some (r, MkLmb (memory l) rgn) in
  let inside p := (rbase p <=? base) && (end_ <=? u32 (rbase p + rsize p)) in
  i ← search (loop_fuel rgn) inside rgn 0;
  if i =? cnt rgn then done (-1) rgn else
  p ← get rgn i;
  let rgnbegin := rbase p in
  let rgnend := u32 (rgnbegin + rsize p) in
  if (rgnbegin =? base) && (rgnend =? end_) then
    rgn ← lmb_remove_region rgn i; done 0 rgn
  else if rgnbegin =? base then
    rgn ← put rgn i (LmbProperty end_ (u32 (rsize p - size))); done 0 rgn
  else if rgnend =? end_ then
    rgn ← put rgn i (LmbProperty rgnbegin (u32 (rsize p - size))); done 0 rgn
  else
    rgn ← put rgn i (LmbProperty rgnbegin (u32 (base - rgnbegin)));
    '(r, rgn) ← lmb_add_region rgn end_ (u32 (rgnend - end_)); done r rgn.

Definition lmb_overlaps_region (rgn : lmb_region) (base size : Z) : option Z :=
  let overlaps p := lmb_addrs_overlap base size (rbase p) (rsize p) in
  i ← search (loop_fuel rgn) overlaps rgn 0;
  Some (if i <? cnt rgn then i else -1).

Definition lmb_align_down (addr size : Z) : Z := Z.land addr (u32 (Z.lnot (u32 (size - 1)))).

Definition lmb_align_up (addr size : Z) : Z :=
  Z.land (u32 (addr + u32 (size - 1))) (u32 (Z.lnot (u32 (size - 1)))).

(** The [while] loop of [__lmb_alloc_base] over one memory region: [Some None]
    is the loop left without an allocation, [Some (Some (b, l))] the function
    returning [b]. *)
Fixpoint alloc_scan (fuel : nat) (l : lmb) (lmbbase base size align : Z)
  : option (option (Z * lmb)) :=
  match fuel with
  | O => None
  | S n =>
    if negb (base =? 0) && (lmbbase <=? base) then
      j ← lmb_overlaps_region (reserved l) base size;
      if j <? 0 then
        '(r, rgn) ← lmb_add_region (reserved l) base (lmb_align_up size align);
        Some (Some (if r <? 0 then 0 else base, MkLmb (memory l) rgn))
      else
        p ← get (reserved l) j;
        if rbase p <? size then Some None
        else alloc_scan n l lmbbase (lmb_align_down (u32 (rbase p - size)) align) size align
    else Some None
  end.

(** The first candidate in a memory region; [None] is [continue]. *)
Definition first_base (p : lmb_property) (size align max_addr : Z) : option Z :=
  if rsize p <? size then None
  else if max_addr =? LMB_ALLOC_ANYWHERE then
    Some (lmb_align_down (u32 (u32 (rbase p + rsize p) - size)) align)
  else if rbase p <? max_addr then
    let base := u32 (rbase p + rsize p) in
    let base := if base <? rbase p then u32 (-1) else base in
    let base := Z.min base max_addr in
    Some (lmb_align_down (u32 (base - size)) align)
  else None.

(** The outer loop, [k = i + 1] iterations left. *)
Fixpoint alloc_regions (k : nat) (l : lmb) (size align max_addr : Z) : option (Z * lmb) :=
  match k with
  | O => Some (0, l)
  | S k =>
    p ← get (memory l) (Z.of_nat k);
    match first_base p size align max_addr with
    | None => alloc_regions k l size align max_addr
    | Some base =>
      left ← alloc_scan (S (loop_fuel (reserved l))) l (rbase p) base size align;
      match left with
      | Some result => Some result
      | None => alloc_regions k l size align max_addr
      end
    end
  end.

Definition __lmb_alloc_base (l : lmb) (size align max_addr : Z) : option (Z * lmb) :=
  alloc_regions (Z.to_nat (cnt (memory l))) l size align max_addr.

(** The failure message is console output and is not part of the model. *)
Definition lmb_alloc_base (l : lmb) (size align max_addr : Z) : option (Z * lmb) :=
  __lmb_alloc_base l size align max_addr.

Definition lmb_alloc (l : lmb) (size align : Z) : option (Z * lmb) :=
  lmb_alloc_base l size align LMB_ALLOC_ANYWHERE.

Definition lmb_is_reserved (l : lmb) (addr : Z) : option Z :=
  let rgn := reserved l in
  let inside p := (rbase p <=? addr) && (addr <=? u32 (rbase p + rsize p - 1)) in
  i ← search (loop_fuel rgn) inside rgn 0;
  Some (if i <? cnt rgn then 1 else 0).

(** ** The table as a list of blocks *)

Definition regs (rgn : lmb_region) : list lmb_property := take (Z.to_nat (cnt rgn)) (region rgn).

Definition rend (p : lmb_property) : Z := rbase p + rsize p.

Definition covers (l : list lmb_property) (a : Z) : Prop :=
  exists i p, l !! i = Some p /\ rbase p <= a < rend p.

(** A block that does not wrap and is not empty. *)
Definition block (p : lmb_property) : Prop := 0 <= rbase p /\ 0 < rsize p /\ rend p < 2 ^ 32.

(** Blocks in address order, none overlapping the next. *)
Definition ordered (l : list lmb_property) : Prop :=
  forall i j p q, (i < j)%nat -> l !! i = Some p -> l !! j = Some q -> rend p <= rbase q.

Definition blocks (l : list lmb_property) : Prop := forall i p, l !! i = Some p -> block p.

(** The dummy region of [lmb_init]. *)
Definition dummy (rgn : lmb_region) : Prop :=
  cnt rgn = 1 /\ region rgn !! 0%nat = Some (LmbProperty 0 0).

Record filled (rgn : lmb_region) : Prop := {
  f_len : length (region rgn) = Z.to_nat (MAX_LMB_REGIONS + 1);
  f_cnt : 1 <= cnt rgn <= MAX_LMB_REGIONS;
  f_blocks : blocks (regs rgn);
  f_ordered : ordered (regs rgn);
}.

Definition wf (rgn : lmb_region) : Prop :=
  (length (region rgn) = Z.to_nat (MAX_LMB_REGIONS + 1) /\ dummy rgn) \/ filled rgn.

Definition disjoint (p q : lmb_property) : Prop := rend p <= rbase q \/ rend q <= rbase p.

(** *** Lists *)

Definition insert_at (n : nat) (x : lmb_property) (l : list lmb_property) : list lmb_property :=
  take n l ++ x :: drop n l.

Lemma insert_at_lookup n x l k : (n <= length l)%nat ->
  insert_at n x l !! k =
    if decide (k < n)%nat then l !! k else if decide (k = n) then Some x else l !! (k - 1)%nat.
Proof.
  intros Hn. unfold insert_at. destruct (decide (k < n)%nat) as [Hk|Hk].
  - rewrite lookup_app_l by (rewrite length_take; lia). apply lookup_take_lt. exact Hk.
  - rewrite lookup_app_r by (rewrite length_take; lia). rewrite length_take.
    destruct (decide (k = n)) as [->|Hne].
    + replace (n - n `min` length l)%nat with 0%nat by lia. reflexivity.
    + rewrite lookup_cons_ne_0, lookup_drop by lia. f_equal. lia.
Qed.

Lemma regs_lookup rgn k : (k < Z.to_nat (cnt rgn))%nat -> regs rgn !! k = region rgn !! k.
Proof. intros. apply lookup_take_lt. assumption. Qed.

Lemma regs_lookup_Some rgn k p :
  regs rgn !! k = Some p <-> region rgn !! k = Some p /\ (k < Z.to_nat (cnt rgn))%nat.
Proof. unfold regs. apply lookup_take_Some. Qed.

(** *** The array accesses *)

Lemma get_region rgn (i : nat) : get rgn (Z.of_nat i) = region rgn !! i.
Proof. unfold get. replace (0 <=? Z.of_nat i) with true by lia. rewrite Nat2Z.id. reflexivity. Qed.

Lemma put_region rgn (i : nat) p : (i < length (region rgn))%nat ->
  put rgn (Z.of_nat i) p = Some (LmbRegion (cnt rgn) (total rgn) (<[i := p]> (region rgn))).
Proof.
  intros. unfold put.
  replace ((0 <=? Z.of_nat i) && (Z.of_nat i <? Z.of_nat (length (region rgn)))) with true by lia.
  rewrite Nat2Z.id. reflexivity.
Qed.

(** [lmb_remove_region] moves the later blocks down one slot. *)
Lemma shift_down_spec fuel rgn (i : nat) (m : nat) :
  cnt rgn = Z.of_nat (S m) -> (m < length (region rgn))%nat -> Z.of_nat m < 2 ^ 32 ->
  (m - i < fuel)%nat ->
  exists rgn', shift_down fuel rgn (Z.of_nat i) = Some rgn' /\ cnt rgn' = cnt rgn /\
    total rgn' = total rgn /\ length (region rgn') = length (region rgn) /\
    forall k, region rgn' !! k =
      if decide (i <= k < m)%nat then region rgn !! S k else region rgn !! k.
Proof.
  revert rgn i. induction fuel as [|fuel IH]; intros rgn i Hc Hl Hm Hf; [lia|].
  cbn [shift_down]. rewrite Hc. replace (Z.of_nat (S m) - 1) with (Z.of_nat m) by lia.
  rewrite u32_small by lia. destruct (Z.ltb_spec (Z.of_nat i) (Z.of_nat m)) as [Hi|Hi].
  - replace (Z.of_nat i + 1) with (Z.of_nat (S i)) by lia. rewrite get_region.
    destruct (lookup_lt_is_Some_2 (region rgn) (S i)) as [p Hp]; [lia|].
    rewrite Hp. cbn [mbind option_bind]. rewrite put_region by lia. cbn [mbind option_bind].
    destruct (IH (LmbRegion (cnt rgn) (total rgn) (<[i := p]> (region rgn))) (S i))
      as (rgn' & E & H1 & H2 & H3 & H4); cbn [cnt region]; rewrite ?length_insert; try lia.
    exists rgn'. rewrite E. cbn [cnt total region] in *. rewrite length_insert in H3.
    split_and!; auto; [congruence|]. intros k. rewrite H4.
    destruct (decide (S i <= k < m)%nat), (decide (i <= k < m)%nat); try lia.
    + apply list_lookup_insert_ne. lia.
    + replace k with i by lia. rewrite list_lookup_insert_eq by lia. auto.
    + apply list_lookup_insert_ne. lia.
  - exists rgn. split_and!; auto. intros k. destruct (decide (i <= k < m)%nat); [lia|reflexivity].
Qed.

Lemma lmb_remove_region_spec rgn (i : nat) :
  length (region rgn) = 9%nat -> 1 <= cnt rgn <= 9 -> Z.of_nat i < cnt rgn ->
  exists rgn', lmb_remove_region rgn (Z.of_nat i) = Some rgn' /\ cnt rgn' = cnt rgn - 1 /\
    length (region rgn') = 9%nat /\ regs rgn' = delete i (regs rgn).
Proof.
  intros Hl Hc Hi. unfold lmb_remove_region.
  destruct (shift_down_spec (loop_fuel rgn) rgn i (Z.to_nat (cnt rgn - 1)))
    as (rgn' & E & H1 & H2 & H3 & H4); unfold loop_fuel; try lia.
  unfold loop_fuel in E. rewrite E. cbn [mbind option_bind].
  eexists; split; [reflexivity|]. unfold set_cnt, regs. cbn [cnt region].
  rewrite H1, u32_small by lia. split_and!; [reflexivity|lia|].
  apply list_eq. intros k. destruct (decide (k < Z.to_nat (cnt rgn - 1))%nat) as [Hk|Hk].
  - rewrite lookup_take_lt by lia. rewrite H4.
    destruct (decide (i <= k < Z.to_nat (cnt rgn - 1))%nat).
    + rewrite list_lookup_delete_ge, lookup_take_lt by lia. reflexivity.
    + rewrite list_lookup_delete_lt, lookup_take_lt by lia. reflexivity.
  - rewrite lookup_take_ge by lia. symmetry. apply lookup_ge_None.
    rewrite length_delete, length_take; [lia|].
    apply lookup_lt_is_Some_2. rewrite length_take. lia.
Qed.

(** A search loop stops at the first block that satisfies the condition, or at
    [cnt]. *)
Lemma search_spec fuel cond rgn (i m : nat) :
  cnt rgn = Z.of_nat m -> (m <= length (region rgn))%nat -> (i <= m)%nat -> (m - i < fuel)%nat ->
  exists j, search fuel cond rgn (Z.of_nat i) = Some (Z.of_nat j) /\ (i <= j <= m)%nat /\
    (forall k p, (i <= k < j)%nat -> regs rgn !! k = Some p -> cond p = false) /\
    (j < m -> exists p, regs rgn !! j = Some p /\ cond p = true)%nat.
Proof.
  revert i. induction fuel as [|fuel IH]; intros i Hc Hl Hi Hf; [lia|].
  cbn [search]. rewrite Hc. destruct (Z.ltb_spec (Z.of_nat i) (Z.of_nat m)) as [Him|Him].
  - rewrite get_region. destruct (lookup_lt_is_Some_2 (region rgn) i) as [p Hp]; [lia|].
    assert (regs rgn !! i = Some p) as Hr by (apply regs_lookup_Some; split; [exact Hp|lia]).
    rewrite Hp. cbn [mbind option_bind]. destruct (cond p) eqn:Ec.
    + exists i. split_and!; eauto; lia.
    + replace (Z.of_nat i + 1) with (Z.of_nat (S i)) by lia.
      destruct (IH (S i)) as (j & E & Hj & Hk & Hx); try lia.
      exists j. split_and!; auto; try lia. intros k q Hkj Hq.
      destruct (decide (k = i)) as [->|]; [congruence|]. apply (Hk k); [lia|exact Hq].
  - exists i. split_and!; auto; lia.
Qed.

Lemma search_full cond rgn :
  0 <= cnt rgn <= 9 -> length (region rgn) = 9%nat ->
  exists j, search (loop_fuel rgn) cond rgn 0 = Some (Z.of_nat j) /\ Z.of_nat j <= cnt rgn /\
    (forall k p, (k < j)%nat -> regs rgn !! k = Some p -> cond p = false) /\
    (Z.of_nat j < cnt rgn -> exists p, regs rgn !! j = Some p /\ cond p = true).
Proof.
  intros Hc Hl. destruct (search_spec (loop_fuel rgn) cond rgn 0 (Z.to_nat (cnt rgn)))
    as (j & E & H1 & H2 & H3); unfold loop_fuel in *; try lia.
  exists j. split_and!; auto; try lia.
  - intros k p Hk. apply H2. lia.
  - intros Hj. apply H3. lia.
Qed.

(** *** Adjacency and overlap without wrap-around *)

Lemma overlap_spec b s p : block (LmbProperty b s) -> block p ->
  lmb_addrs_overlap b s (rbase p) (rsize p) = false <-> disjoint (LmbProperty b s) p.
Proof.
  unfold block, lmb_addrs_overlap, disjoint, rend. cbn [rbase rsize]. intros H1 H2.
  rewrite !u32_small by lia. lia.
Qed.

Lemma adjacent_spec b s p : block (LmbProperty b s) -> block p ->
  lmb_addrs_adjacent b s (rbase p) (rsize p) =
    if rbase p =? b + s then 1 else if b =? rend p then -1 else 0.
Proof.
  unfold block, rend, lmb_addrs_adjacent. cbn [rbase rsize]. intros H1 H2.
  rewrite !u32_small by lia. reflexivity.
Qed.

(** What the first loop of [lmb_add_region] did to a table that holds neither
    the block nor one overlapping it. *)
Inductive scanned (rgn : lmb_region) (b s : Z) : scan_result -> Prop :=
| scanned_above j p rgn' : regs rgn !! j = Some p -> rbase p = b + s ->
    cnt rgn' = cnt rgn -> region rgn' = <[j := LmbProperty b (s + rsize p)]> (region rgn) ->
    scanned rgn b s (LeftLoop rgn' (Z.of_nat j) 1)
| scanned_below j p rgn' : regs rgn !! j = Some p -> b = rend p ->
    cnt rgn' = cnt rgn -> region rgn' = <[j := LmbProperty (rbase p) (rsize p + s)]> (region rgn) ->
    scanned rgn b s (LeftLoop rgn' (Z.of_nat j) 1)
| scanned_none : (forall k p, regs rgn !! k = Some p -> rbase p <> b + s /\ b <> rend p) ->
    scanned rgn b s (LeftLoop rgn (cnt rgn) 0).

Lemma coalesce_scan_spec fuel rgn b s (i : nat) :
  filled rgn -> block (LmbProperty b s) ->
  (forall k p, regs rgn !! k = Some p -> disjoint (LmbProperty b s) p) ->
  Z.of_nat i <= cnt rgn -> (Z.to_nat (cnt rgn) - i < fuel)%nat ->
  (forall k p, (k < i)%nat -> regs rgn !! k = Some p -> rbase p <> b + s /\ b <> rend p) ->
  exists r, coalesce_scan fuel rgn b s (Z.of_nat i) = Some r /\ scanned rgn b s r.
Proof.
  intros [Hl Hc Hb Ho] Hn Hd. unfold MAX_LMB_REGIONS in *.
  revert i. induction fuel as [|fuel IH]; intros i Hi Hf Hk; [lia|].
  cbn [coalesce_scan]. destruct (Z.ltb_spec (Z.of_nat i) (cnt rgn)) as [Him|Him].
  2:{ replace (Z.of_nat i) with (cnt rgn) by lia. eexists. split; [reflexivity|].
      apply scanned_none. intros k p Hp. apply (Hk k p); [|exact Hp].
      apply regs_lookup_Some in Hp. lia. }
  rewrite get_region. destruct (lookup_lt_is_Some_2 (region rgn) i) as [p Hp]; [lia|].
  assert (regs rgn !! i = Some p) as Hr by (apply regs_lookup_Some; split; [exact Hp|lia]).
  rewrite Hp. cbn [mbind option_bind].
  specialize (Hb i p Hr) as Hbp. specialize (Hd i p Hr) as Hdp.
  rewrite adjacent_spec by assumption.
  unfold block, disjoint, rend in Hn, Hbp, Hdp. cbn [rbase rsize] in Hn, Hdp.
  replace ((rbase p =? b) && (rsize p =? s)) with false by lia.
  destruct (Z.eqb_spec (rbase p) (b + s)) as [Ha|Ha]; [|destruct (Z.eqb_spec b (rend p)) as [Hw|Hw]].
  - cbn [Z.ltb Z.compare]. rewrite put_region by lia. cbn [mbind option_bind].
    eexists. split; [reflexivity|]. eapply scanned_above; [exact Hr|exact Ha|reflexivity|].
    cbn [region]. rewrite !u32_small by lia. f_equal. f_equal; lia.
  - cbn [Z.ltb Z.compare]. rewrite put_region by lia. cbn [mbind option_bind].
    unfold rend in Hw. eexists. split; [reflexivity|].
    eapply scanned_below; [exact Hr|exact Hw|reflexivity|].
    cbn [region]. rewrite !u32_small by lia. reflexivity.
  - cbn [Z.ltb Z.compare]. replace (Z.of_nat i + 1) with (Z.of_nat (S i)) by lia.
    apply IH; try lia. intros k q Hki Hq.
    destruct (decide (k = i)) as [->|]; [rewrite Hr in Hq; injection Hq as <-; auto|].
    apply (Hk k); [lia|exact Hq].
Qed.

(** *** Merging and inserting, on lists *)

Definition good (l : list lmb_property) : Prop := blocks l /\ ordered l.

Definition in_block (a : Z) (p : lmb_property) : Prop := rbase p <= a < rend p.

(** [l'] is a good table covering what [l] covers and the block [n]. *)
Definition adds (n : lmb_property) (l l' : list lmb_property) : Prop :=
  good l' /\ forall a, covers l' a <-> covers l a \/ in_block a n.

(** Writing a block over slot [j] of a good table. *)
Lemma ordered_insert l j q : ordered l ->
  (forall i x, (i < j)%nat -> l !! i = Some x -> rend x <= rbase q) ->
  (forall k x, (j < k)%nat -> l !! k = Some x -> rend q <= rbase x) ->
  ordered (<[j := q]> l).
Proof.
  intros Ho Hlt Hgt i k x y Hik Hx Hy.
  apply list_lookup_insert_Some in Hx as [(-> & -> & _)|(Hi & Hx)];
    apply list_lookup_insert_Some in Hy as [(-> & -> & _)|(Hk & Hy)]; eauto; lia.
Qed.

Lemma blocks_insert l j q : blocks l -> block q -> blocks (<[j := q]> l).
Proof.
  intros Hb Hq i x Hx. apply list_lookup_insert_Some in Hx as [(_ & <- & _)|(_ & Hx)]; eauto.
Qed.

Lemma covers_insert l j p q a : l !! j = Some p ->
  (forall b, in_block b p -> in_block b q) ->
  covers (<[j := q]> l) a <-> covers l a \/ in_block a q.
Proof.
  intros Hp Hpq. assert (j < length l)%nat by eauto using lookup_lt_Some. split.
  - intros (i & x & Hx & Ha). apply list_lookup_insert_Some in Hx as [(_ & <- & _)|(_ & Hx)].
    + right. exact Ha.
    + left. exists i, x. auto.
  - intros [(i & x & Hx & Ha)|Ha].
    + destruct (decide (i = j)) as [->|Hne].
      * exists j, q. rewrite list_lookup_insert_eq by lia. split; [reflexivity|].
        apply Hpq. rewrite Hp in Hx. injection Hx as <-. exact Ha.
      * exists i, x. rewrite list_lookup_insert_ne by lia. auto.
    + exists j, q. rewrite list_lookup_insert_eq by lia. auto.
Qed.

(** A block next to slot [j] is merged into it. *)
Lemma merge_adds l j p n q : good l -> l !! j = Some p -> block n ->
  (forall k x, l !! k = Some x -> disjoint n x) ->
  (rbase p = rend n /\ q = LmbProperty (rbase n) (rsize n + rsize p)) \/
  (rbase n = rend p /\ q = LmbProperty (rbase p) (rsize p + rsize n)) ->
  adds n l (<[j := q]> l).
Proof.
  intros [Hb Ho] Hp Hn Hd Hq.
  assert (forall k x, l !! k = Some x -> block x /\ disjoint n x) as Hx by eauto.
  unfold block, disjoint, rend in *. pose proof (Hx j p Hp) as Hbp.
  split; [split|].
  - apply blocks_insert; [exact Hb|]. unfold block, rend.
    destruct Hq as [[Ha ->]|[Ha ->]]; cbn [rbase rsize]; lia.
  - apply ordered_insert; [exact Ho|intros k x Hk Hl..]; unfold rend.
    + specialize (Ho k j x p Hk Hl Hp). specialize (Hx k x Hl). unfold rend in Ho.
      destruct Hq as [[Ha ->]|[Ha ->]]; cbn [rbase rsize]; lia.
    + specialize (Ho j k p x Hk Hp Hl). specialize (Hx k x Hl). unfold rend in Ho.
      destruct Hq as [[Ha ->]|[Ha ->]]; cbn [rbase rsize]; lia.
  - intros a. rewrite (covers_insert l j p q a Hp).
    + unfold covers, in_block, rend. split; intros [Hc|Hc]; auto.
      * destruct Hq as [[Ha ->]|[Ha ->]]; cbn [rbase rsize] in Hc.
        -- destruct (Z.lt_ge_cases a (rbase n + rsize n)); [right; lia|].
           left. exists j, p. split; [exact Hp|unfold rend; lia].
        -- destruct (Z.lt_ge_cases a (rbase p + rsize p)); [|right; lia].
           left. exists j, p. split; [exact Hp|unfold rend; lia].
      * right. destruct Hq as [[Ha ->]|[Ha ->]]; cbn [rbase rsize]; lia.
    + intros c. unfold in_block, rend. destruct Hq as [[Ha ->]|[Ha ->]]; cbn [rbase rsize]; lia.
Qed.

Lemma delete_lookup_Some (l : list lmb_property) (j k : nat) (x : lmb_property) : delete j l !! k = Some x ->
  (k < j /\ l !! k = Some x \/ j <= k /\ l !! S k = Some x)%nat.
Proof.
  intros H. destruct (decide (k < j)%nat).
  - rewrite list_lookup_delete_lt in H by lia. auto.
  - rewrite list_lookup_delete_ge in H by lia. right. split; [lia|exact H].
Qed.

Lemma good_delete l j : good l -> good (delete j l).
Proof.
  intros [Hb Ho]. split.
  - intros i x Hx. apply delete_lookup_Some in Hx as [[_ Hx]|[_ Hx]]; eauto.
  - intros i k x y Hik Hx Hy.
    apply delete_lookup_Some in Hx as [[? Hx]|[? Hx]];
      apply delete_lookup_Some in Hy as [[? Hy]|[? Hy]];
      (eapply Ho; [|exact Hx|exact Hy]; lia).
Qed.

Lemma covers_delete l j a : covers l a <-> covers (delete j l) a \/ (exists p, l !! j = Some p /\ in_block a p).
Proof.
  split.
  - intros (i & x & Hx & Ha). destruct (decide (i = j)) as [->|Hne]; [right; eauto|left].
    exists (if decide (i < j)%nat then i else (i - 1)%nat), x. split; [|exact Ha].
    destruct (decide (i < j)%nat).
    + rewrite list_lookup_delete_lt by lia. exact Hx.
    + rewrite list_lookup_delete_ge by lia. replace (S (i - 1)) with i by lia. exact Hx.
  - intros [(i & x & Hx & Ha)|(p & Hp & Ha)]; [|exists j, p; auto].
    apply delete_lookup_Some in Hx as [[_ Hx]|[_ Hx]]; eexists _, x; eauto.
Qed.

Lemma insert_delete_later (l : list lmb_property) j x :
  delete (S j) (<[j := x]> l) = <[j := x]> (delete (S j) l).
Proof.
  revert j. induction l as [|y l IH]; intros j; [destruct j; reflexivity|].
  destruct j as [|j]; cbn; [destruct l; reflexivity|]. f_equal. apply IH.
Qed.

(** Two blocks that touch are merged. *)
Lemma coalesce_good l j p q : good l -> l !! j = Some p -> l !! S j = Some q -> rend p = rbase q ->
  rend q < 2 ^ 32 ->
  let l' := delete (S j) (<[j := LmbProperty (rbase p) (rsize p + rsize q)]> l) in
  good l' /\ forall a, covers l' a <-> covers l a.
Proof.
  intros Hg Hp Hq Ha Hw. cbn zeta. rewrite insert_delete_later.
  destruct (merge_adds (delete (S j) l) j p q (LmbProperty (rbase p) (rsize p + rsize q)))
    as [Hg' Hc].
  - apply good_delete, Hg.
  - rewrite list_lookup_delete_lt by lia. exact Hp.
  - destruct Hg as [Hb _]. eapply Hb. exact Hq.
  - intros k x Hx. destruct Hg as [_ Ho]. unfold disjoint.
    apply delete_lookup_Some in Hx as [[Hk Hx]|[Hk Hx]].
    + right. eapply Ho; [|exact Hx|exact Hq]. exact Hk.
    + left. eapply Ho; [|exact Hq|exact Hx]. lia.
  - right. split; [lia|reflexivity].
  - split; [exact Hg'|]. intros a. rewrite Hc, (covers_delete l (S j) a). split; intros [H|H]; auto.
    + right. exists q. auto.
    + right. destruct H as (q' & Hq' & Hb). rewrite Hq in Hq'. injection Hq' as <-. exact Hb.
Qed.

(** Inserting a block between its neighbours. *)
Lemma insert_at_adds l i n : good l -> block n -> (i <= length l)%nat ->
  (forall k x, l !! k = Some x -> disjoint n x) ->
  (forall k x, (k < i)%nat -> l !! k = Some x -> rbase x <= rbase n) ->
  (forall k x, (i <= k)%nat -> l !! k = Some x -> rbase n < rbase x) ->
  adds n l (insert_at i n l).
Proof.
  intros [Hb Ho] Hn Hi Hd Hlo Hhi.
  assert (forall k x, insert_at i n l !! k = Some x ->
    (k < i /\ l !! k = Some x) \/ (k = i /\ x = n) \/ (i < k /\ l !! (k - 1) = Some x))%nat as Hcase.
  { intros k x. rewrite insert_at_lookup by exact Hi.
    destruct (decide (k < i)%nat); [auto|]. destruct (decide (k = i)); [intros [= <-]; auto|].
    intros Hx. right. right. split; [lia|exact Hx]. }
  unfold block, disjoint, rend in *. split; [split|].
  - intros k x Hx. apply Hcase in Hx as [[_ Hx]|[[_ ->]|[_ Hx]]]; [apply (Hb k x Hx)|exact Hn|].
    exact (Hb _ x Hx).
  - intros k m x y Hkm Hx Hy.
    apply Hcase in Hx as [[? Hx]|[[? ->]|[? Hx]]];
      apply Hcase in Hy as [[? Hy]|[[? ->]|[? Hy]]]; try lia.
    + eapply Ho; [|exact Hx|exact Hy]. lia.
    + pose proof (Hd _ _ Hx). pose proof (Hlo _ _ ltac:(eassumption) Hx). unfold rend.
      pose proof (Hb _ _ Hx). unfold block, rend in *. lia.
    + eapply Ho; [|exact Hx|exact Hy]. lia.
    + pose proof (Hd _ _ Hy). pose proof (Hhi (m - 1)%nat y ltac:(lia) Hy). unfold rend.
      pose proof (Hb _ _ Hy). unfold block, rend in *. lia.
    + eapply Ho; [|exact Hx|exact Hy]. lia.
  - intros a. unfold covers. split.
    + intros (k & x & Hx & Ha).
      apply Hcase in Hx as [[_ Hx]|[[_ ->]|[_ Hx]]]; [left; eauto|right; exact Ha|left; eauto].
    + intros [(k & x & Hx & Ha)|Ha].
      * exists (if decide (k < i)%nat then k else S k), x. split; [|exact Ha].
        rewrite insert_at_lookup by exact Hi. destruct (decide (k < i)%nat).
        -- destruct (decide (k < i)%nat); [exact Hx|lia].
        -- destruct (decide (S k < i)%nat); [lia|]. destruct (decide (S k = i)); [lia|].
           replace (S k - 1)%nat with k by lia. exact Hx.
      * exists i, n. split; [|exact Ha]. rewrite insert_at_lookup by exact Hi.
        destruct (decide (i < i)%nat); [lia|]. destruct (decide (i = i)); [reflexivity|congruence].
Qed.

(** The insertion loop shifts the blocks above [base] up one slot and writes the
    new one below them, unless it ends up below all of them. *)
Lemma insert_scan_spec k rgn b s : (k < length (region rgn))%nat ->
  exists rgn' i, insert_scan k rgn b s = Some rgn' /\ cnt rgn' = cnt rgn /\ (i <= k)%nat /\
    length (region rgn') = length (region rgn) /\
    (forall j p, (i <= j < k)%nat -> region rgn !! j = Some p -> b < rbase p) /\
    ((0 < i)%nat -> exists p, region rgn !! (i - 1)%nat = Some p /\ rbase p <= b) /\
    (forall j, region rgn' !! j =
       if decide (j < i)%nat then region rgn !! j
       else if decide (j = i) then (if decide (i = 0)%nat then region rgn !! 0%nat else Some (LmbProperty b s))
       else if decide (j <= k)%nat then region rgn !! (j - 1)%nat else region rgn !! j).
Proof.
  revert rgn. induction k as [|k IH]; intros rgn Hk.
  { exists rgn, 0%nat. split_and!; auto; try lia. intros j.
    destruct (decide (j < 0)%nat); [lia|]. destruct (decide (j = 0)%nat); [subst; reflexivity|].
    destruct (decide (j <= 0)%nat); [lia|reflexivity]. }
  cbn [insert_scan]. rewrite get_region.
  destruct (lookup_lt_is_Some_2 (region rgn) k) as [p Hp]; [lia|].
  rewrite Hp. cbn [mbind option_bind]. replace (Z.of_nat k + 1) with (Z.of_nat (S k)) by lia.
  rewrite !put_region by lia. destruct (Z.ltb_spec b (rbase p)) as [Hb|Hb].
  - cbn [mbind option_bind].
    destruct (IH (LmbRegion (cnt rgn) (total rgn) (<[S k := p]> (region rgn))))
      as (rgn' & i & E & H1 & H2 & H3 & H4 & H5 & H6); cbn [region] in *; rewrite ?length_insert in *; [lia|].
    exists rgn', i. split_and!; auto.
    + intros j q Hj Hq. destruct (decide (j = k)) as [->|]; [congruence|].
      apply (H4 j q); [lia|]. rewrite list_lookup_insert_ne by lia. exact Hq.
    + intros Hi. destruct (H5 Hi) as (q & Hq & Hle). exists q.
      rewrite list_lookup_insert_ne in Hq by lia. auto.
    + intros j. rewrite H6. repeat case_decide; try lia; subst;
        rewrite ?list_lookup_insert_ne by lia; try reflexivity;
        (replace j with (S k) by lia; rewrite list_lookup_insert_eq, <- Hp by lia; f_equal; lia).
  - eexists _, (S k). split; [reflexivity|]. cbn [cnt region]. rewrite length_insert.
    split_and!; auto; try lia.
    + intros _. exists p. replace (S k - 1)%nat with k by lia. auto.
    + intros j. repeat case_decide; try lia; subst.
      * rewrite list_lookup_insert_ne by lia. reflexivity.
      * rewrite list_lookup_insert_eq by lia. reflexivity.
      * rewrite list_lookup_insert_ne by lia. reflexivity.
Qed.

(** *** [lmb_add_region] *)

Lemma regs_insert rgn rgn' j p : cnt rgn' = cnt rgn -> region rgn' = <[j := p]> (region rgn) ->
  regs rgn' = <[j := p]> (regs rgn).
Proof.
  intros Hc Hr. unfold regs. rewrite Hc, Hr. clear. revert j.
  generalize (Z.to_nat (cnt rgn)), (region rgn). induction n as [|n IH]; intros [|x l] [|j]; cbn;
    try reflexivity. f_equal. apply IH.
Qed.

Lemma filled_intro rgn : length (region rgn) = 9%nat -> 1 <= cnt rgn <= 8 -> good (regs rgn) -> filled rgn.
Proof. intros Hl Hc [Hb Ho]. constructor; auto. Qed.

Lemma filled_good rgn : filled rgn -> good (regs rgn).
Proof. intros [Hl Hc Hb Ho]. split; assumption. Qed.

Lemma coalesce_next_spec rgn (j : nat) : filled rgn -> Z.of_nat j < cnt rgn ->
  exists rgn' c, coalesce_next rgn (Z.of_nat j) 1 = Some (rgn', c) /\ 1 <= c <= 2 /\
    filled rgn' /\ cnt rgn' = cnt rgn + 1 - c /\ forall a, covers (regs rgn') a <-> covers (regs rgn) a.
Proof.
  intros Hf Hj. pose proof Hf as [Hl Hc Hb Ho]. unfold MAX_LMB_REGIONS in *.
  unfold coalesce_next. rewrite u32_small by lia.
  destruct (Z.ltb_spec (Z.of_nat j) (cnt rgn - 1)) as [Hn|Hn].
  2:{ exists rgn, 1. split_and!; auto; lia. }
  unfold lmb_regions_adjacent, lmb_coalesce_regions.
  replace (Z.of_nat j + 1) with (Z.of_nat (S j)) by lia. rewrite !get_region.
  destruct (lookup_lt_is_Some_2 (region rgn) j) as [p Hp]; [lia|].
  destruct (lookup_lt_is_Some_2 (region rgn) (S j)) as [q Hq]; [lia|].
  assert (regs rgn !! j = Some p) as Hrp by (apply regs_lookup_Some; split; [exact Hp|lia]).
  assert (regs rgn !! S j = Some q) as Hrq by (apply regs_lookup_Some; split; [exact Hq|lia]).
  pose proof (Hb _ _ Hrp) as Hbp. pose proof (Hb _ _ Hrq) as Hbq.
  pose proof (Ho _ _ _ _ (Nat.lt_succ_diag_r j) Hrp Hrq) as Hpq.
  rewrite Hp, Hq. cbn [mbind option_bind]. rewrite adjacent_spec by (destruct p; assumption).
  unfold block, rend in Hbp, Hbq, Hpq.
  destruct (Z.eqb_spec (rbase q) (rbase p + rsize p)) as [Ha|Ha].
  - cbn [Z.eqb]. rewrite put_region by lia. cbn [mbind option_bind].
    set (rgn1 := LmbRegion _ _ _).
    assert (length (region rgn1) = 9%nat) as Hl1 by (cbn [region rgn1]; rewrite length_insert; exact Hl).
    assert (cnt rgn1 = cnt rgn) as Hc1 by reflexivity.
    destruct (lmb_remove_region_spec rgn1 (S j)) as (rgn2 & E & H1 & H2 & H3); try lia.
    rewrite E. cbn [mbind option_bind].
    rewrite (regs_insert rgn rgn1 j _ eq_refl eq_refl), u32_small in H3 by lia.
    destruct (coalesce_good (regs rgn) j p q) as [Hg Hcov]; auto using filled_good.
    { unfold rend. lia. }
    exists rgn2, 2. split_and!; auto; try lia.
    + apply filled_intro; [exact H2|lia|]. rewrite H3. exact Hg.
    + rewrite H3. exact Hcov.
  - destruct (Z.eqb_spec (rbase p) (rend q)) as [Hw|Hw]; [unfold rend in Hw; lia|].
    cbn [Z.eqb]. exists rgn, 1. split_and!; auto; lia.
Qed.

Lemma dummy_regs rgn : dummy rgn -> regs rgn = [LmbProperty 0 0].
Proof.
  intros [Hc Hp]. unfold regs. rewrite Hc. destruct (region rgn) as [|p l]; [discriminate|].
  injection Hp as ->. reflexivity.
Qed.

Lemma dummy_covers rgn a : dummy rgn -> ~ covers (regs rgn) a.
Proof.
  intros Hd (i & q & Hq & Ha). rewrite (dummy_regs _ Hd) in Hq.
  apply list_lookup_singleton_Some in Hq as [_ <-]. unfold rend in Ha. cbn in Ha. lia.
Qed.

(** The insertion of a block that touches no other. *)
Lemma insert_new_spec rgn b s : filled rgn -> cnt rgn < 8 -> block (LmbProperty b s) ->
  (forall k p, regs rgn !! k = Some p -> disjoint (LmbProperty b s) p) ->
  exists rgn1 p0 rgn2, insert_scan (Z.to_nat (cnt rgn)) rgn b s = Some rgn1 /\ get rgn1 0 = Some p0 /\
    (if b <? rbase p0 then put rgn1 0 (LmbProperty b s) else Some rgn1) = Some rgn2 /\
    let rgn' := set_cnt rgn2 (u32 (cnt rgn2 + 1)) in
    filled rgn' /\ cnt rgn' = cnt rgn + 1 /\ adds (LmbProperty b s) (regs rgn) (regs rgn').
Proof.
  intros Hf Hlt Hn Hd. pose proof Hf as [Hl Hc Hb Ho]. unfold MAX_LMB_REGIONS in *.
  destruct (insert_scan_spec (Z.to_nat (cnt rgn)) rgn b s) as (rgn1 & i & E & H1 & H2 & H3 & H4 & H5 & H6); [lia|].
  destruct (lookup_lt_is_Some_2 (region rgn) 0) as [q0 Hq0]; [lia|].
  assert (region rgn1 !! 0%nat = if decide (i = 0%nat) then Some q0 else Some q0) as Hr0.
  { rewrite H6. repeat case_decide; try lia; auto. }
  assert (region rgn1 !! 0%nat = Some q0) as Hg0 by (rewrite Hr0; case_decide; reflexivity). clear Hr0.
  assert (forall k x, (k < i)%nat -> regs rgn !! k = Some x -> rbase x <= b) as Hlo.
  { intros k x Hk Hx. destruct H5 as (p & Hp & Hle); [lia|].
    destruct (decide (k = i - 1)%nat) as [->|]; [apply regs_lookup_Some in Hx; destruct Hx; congruence|].
    assert (regs rgn !! (i - 1)%nat = Some p) as Hp' by (apply regs_lookup_Some; split; [exact Hp|lia]).
    specialize (Ho k (i - 1)%nat x p ltac:(lia) Hx Hp'). specialize (Hb k x Hx).
    unfold block, rend in *. lia. }
  assert (forall k x, (i <= k)%nat -> regs rgn !! k = Some x -> b < rbase x) as Hhi.
  { intros k x Hk Hx. apply regs_lookup_Some in Hx as [Hx Hkc]. apply (H4 k x); [lia|exact Hx]. }
  assert (regs rgn !! 0%nat = Some q0) as Hrq by (apply regs_lookup_Some; split; [exact Hq0|lia]).
  assert (length (regs rgn) = Z.to_nat (cnt rgn)) as Hlen by (unfold regs; rewrite length_take; lia).
  set (rgn2 := if b <? rbase q0 then LmbRegion (cnt rgn) (total rgn1) (<[0%nat := LmbProperty b s]> (region rgn1)) else rgn1).
  assert (cnt rgn2 = cnt rgn) as Hc2 by (unfold rgn2; destruct (b <? rbase q0); auto).
  assert (length (region rgn2) = 9%nat) as Hl2
    by (unfold rgn2; destruct (b <? rbase q0); cbn [region]; rewrite ?length_insert; lia).
  assert (regs (set_cnt rgn2 (cnt rgn + 1)) = insert_at i (LmbProperty b s) (regs rgn)) as Hregs.
  { apply list_eq. intros k. rewrite insert_at_lookup by lia. unfold regs, set_cnt. cbn [cnt region].
    destruct (decide (k < Z.to_nat (cnt rgn + 1))%nat) as [Hk|Hk].
    2:{ rewrite lookup_take_ge by lia. repeat case_decide; try lia;
          rewrite lookup_take_ge by lia; reflexivity. }
    rewrite lookup_take_lt by lia. unfold rgn2.
    destruct (Z.ltb_spec b (rbase q0)) as [Hb0|Hb0]; cbn [region].
    - assert (i = 0%nat) as -> by (destruct i; [reflexivity|]; specialize (Hlo 0%nat q0 ltac:(lia) Hrq); lia).
      destruct k as [|k]; [rewrite list_lookup_insert_eq by lia; reflexivity|].
      rewrite list_lookup_insert_ne, H6 by lia. repeat case_decide; try lia.
      rewrite lookup_take_lt by lia. reflexivity.
    - assert (i <> 0%nat) by (intros ->; specialize (Hhi 0%nat q0 ltac:(lia) Hrq); lia).
      rewrite H6. repeat case_decide; try lia; try reflexivity; rewrite lookup_take_lt by lia; reflexivity. }
  exists rgn1, q0, rgn2. split; [exact E|]. split; [exact Hg0|]. split.
  - unfold rgn2. destruct (b <? rbase q0); [|reflexivity].
    rewrite (put_region rgn1 0) by lia. rewrite H1. reflexivity.
  - cbn zeta. rewrite Hc2, u32_small by lia.
    assert (adds (LmbProperty b s) (regs rgn) (regs (set_cnt rgn2 (cnt rgn + 1)))) as Ha.
    { rewrite Hregs. apply insert_at_adds; auto using filled_good. lia. }
    split_and!; [|reflexivity|exact Ha].
    apply filled_intro; [exact Hl2|cbn [cnt set_cnt]; lia|exact (proj1 Ha)].
Qed.

(** What [lmb_add_region] does to a well-formed table and a new block that
    overlaps none of its blocks. *)
Record added (n : lmb_property) (rgn : lmb_region) (r : Z) (rgn' : lmb_region) : Prop := {
  a_ret : 0 <= r <= 2;
  a_filled : filled rgn';
  a_covers : forall a, covers (regs rgn') a <-> covers (regs rgn) a \/ in_block a n;
}.

Definition apart (n : lmb_property) (rgn : lmb_region) : Prop :=
  forall k p, regs rgn !! k = Some p -> disjoint n p /\ rbase p <> rend n /\ rbase n <> rend p.

Lemma lmb_add_region_filled rgn b s : filled rgn -> block (LmbProperty b s) ->
  (forall k p, regs rgn !! k = Some p -> disjoint (LmbProperty b s) p) ->
  exists r rgn', lmb_add_region rgn b s = Some (r, rgn') /\
    (r = -1 /\ rgn' = rgn /\ cnt rgn = 8 /\ apart (LmbProperty b s) rgn \/
     added (LmbProperty b s) rgn r rgn' /\ cnt rgn' = cnt rgn + 1 - r).
Proof.
  intros Hf Hn Hd. pose proof Hf as [Hl Hc Hb Ho]. unfold MAX_LMB_REGIONS in *.
  unfold lmb_add_region. destruct (lookup_lt_is_Some_2 (region rgn) 0) as [p0 Hp0]; [lia|].
  change (get rgn 0) with (region rgn !! 0%nat). rewrite Hp0. cbn [mbind option_bind].
  assert (regs rgn !! 0%nat = Some p0) as Hr0 by (apply regs_lookup_Some; split; [exact Hp0|lia]).
  pose proof (Hb _ _ Hr0) as Hb0. unfold block in Hb0.
  replace ((cnt rgn =? 1) && (rsize p0 =? 0)) with false by lia.
  destruct (coalesce_scan_spec (loop_fuel rgn) rgn b s 0) as (res & E & Hres);
    unfold loop_fuel in *; auto; try lia.
  change (Z.of_nat 0) with 0 in E. rewrite E. cbn [mbind option_bind].
  assert (forall j p q rgn1, regs rgn !! j = Some p -> cnt rgn1 = cnt rgn ->
    region rgn1 = <[j := q]> (region rgn) ->
    (rbase p = b + s /\ q = LmbProperty b (s + rsize p)) \/
    (b = rend p /\ q = LmbProperty (rbase p) (rsize p + s)) ->
    exists rgn' c, coalesce_next rgn1 (Z.of_nat j) 1 = Some (rgn', c) /\ 1 <= c /\
      added (LmbProperty b s) rgn c rgn' /\ cnt rgn' = cnt rgn + 1 - c) as Hmerge.
  { intros j p q rgn1 Hp Hc1 Hr1 Hq.
    destruct (merge_adds (regs rgn) j p (LmbProperty b s) q) as [Hg Hcov]; auto using filled_good.
    rewrite <- (regs_insert rgn rgn1 j q Hc1 Hr1) in Hg, Hcov.
    apply regs_lookup_Some in Hp as [Hp Hj].
    assert (filled rgn1) as Hf1 by (apply filled_intro; [rewrite Hr1, length_insert; exact Hl|lia|exact Hg]).
    destruct (coalesce_next_spec rgn1 j Hf1) as (rgn' & c & E' & Hc' & Hf' & Hcnt & Hcov'); [lia|].
    exists rgn', c. split_and!; auto; try lia. constructor; [lia|exact Hf'|].
    intros a. rewrite Hcov'. apply Hcov. }
  destruct Hres as [j p rgn1 Hp Ha Hc1 Hr1|j p rgn1 Hp Ha Hc1 Hr1|Hnone].
  - destruct (Hmerge j p _ rgn1 Hp Hc1 Hr1) as (rgn' & c & E' & Hc' & Hadd & Hcnt); [auto|].
    rewrite E'. cbn [mbind option_bind]. replace (c =? 0) with false by lia. cbn [negb]. eauto 6.
  - destruct (Hmerge j p _ rgn1 Hp Hc1 Hr1) as (rgn' & c & E' & Hc' & Hadd & Hcnt); [auto|].
    rewrite E'. cbn [mbind option_bind]. replace (c =? 0) with false by lia. cbn [negb]. eauto 6.
  - unfold coalesce_next at 1. rewrite u32_small by lia.
    replace (cnt rgn <? cnt rgn - 1) with false by lia. cbn [mbind option_bind Z.eqb negb].
    unfold MAX_LMB_REGIONS. destruct (Z.leb_spec 8 (cnt rgn)) as [H8|H8].
    + exists (-1), rgn. split; [reflexivity|left]. split_and!; auto; [lia|].
      intros k p Hp. destruct (Hnone k p Hp). split; [exact (Hd k p Hp)|split; assumption].
    + destruct (insert_new_spec rgn b s Hf ltac:(lia) Hn Hd)
        as (rgn1 & q0 & rgn2 & E1 & E2 & E3 & Hf2 & Hc2 & Ha).
      rewrite E1. cbn [mbind option_bind]. rewrite E2. cbn [mbind option_bind]. rewrite E3.
      cbn [mbind option_bind]. eexists _, _. split; [reflexivity|right].
      split; [|lia]. constructor; [lia|exact Hf2|exact (proj2 Ha)].
Qed.

(** *** Free ranges *)

Definition free (rgn : lmb_region) (b s : Z) : Prop :=
  forall a, b <= a < b + s -> ~ covers (regs rgn) a.

Lemma free_disjoint rgn b s k p : blocks (regs rgn) -> block (LmbProperty b s) ->
  free rgn b s -> regs rgn !! k = Some p -> disjoint (LmbProperty b s) p.
Proof.
  intros Hb Hn Hf Hp. specialize (Hb k p Hp). unfold block, disjoint, rend in *. cbn [rbase rsize] in *.
  destruct (Z.le_gt_cases (b + s) (rbase p)); [lia|].
  destruct (Z.le_gt_cases (rbase p + rsize p) b); [lia|].
  exfalso. apply (Hf (Z.max b (rbase p))); [lia|]. exists k, p. unfold rend. split; [exact Hp|lia].
Qed.

Lemma disjoint_free rgn b s :
  (forall k p, regs rgn !! k = Some p -> disjoint (LmbProperty b s) p) -> free rgn b s.
Proof.
  intros Hd a Ha (k & p & Hp & Hin). specialize (Hd k p Hp).
  unfold disjoint, rend in *. cbn [rbase rsize] in *. lia.
Qed.

Lemma filled_length rgn : filled rgn -> length (regs rgn) = Z.to_nat (cnt rgn).
Proof. intros [Hl Hc Hb Ho]. unfold MAX_LMB_REGIONS in *. unfold regs. rewrite length_take. lia. Qed.

Lemma lmb_overlaps_region_spec rgn b s : wf rgn -> block (LmbProperty b s) ->
  (lmb_overlaps_region rgn b s = Some (-1) /\ free rgn b s) \/
  exists j p, lmb_overlaps_region rgn b s = Some (Z.of_nat j) /\ filled rgn /\
    regs rgn !! j = Some p /\ b < rend p /\ rbase p < b + s.
Proof.
  intros [[Hl Hd]|Hf] Hn; unfold lmb_overlaps_region.
  - left. split; [|intros a _; apply dummy_covers, Hd].
    destruct Hd as [Hc Hp]. cbn [search loop_fuel]. rewrite Hc. cbn [Z.ltb Z.compare].
    change (get rgn 0) with (region rgn !! 0%nat). rewrite Hp. cbn [mbind option_bind rbase rsize].
    unfold lmb_addrs_overlap. cbn [rbase rsize] in *. unfold block in Hn. cbn [rbase rsize] in Hn.
    replace (b <? u32 (0 + 0)) with false by (change (u32 (0 + 0)) with 0; lia). cbn [andb].
    change (Z.to_nat (MAX_LMB_REGIONS + 1)) with 9%nat in Hl. rewrite Hl. cbn [search]. rewrite Hc. reflexivity.
  - pose proof Hf as [Hl Hc Hb Ho]. unfold MAX_LMB_REGIONS in *.
    destruct (search_full (fun p => lmb_addrs_overlap b s (rbase p) (rsize p)) rgn) as (j & E & Hj & Hno & Hyes); [lia..|].
    rewrite E. cbn [mbind option_bind]. destruct (Z.ltb_spec (Z.of_nat j) (cnt rgn)) as [H|H].
    + right. destruct (Hyes H) as (p & Hp & Ht). exists j, p. split_and!; auto;
      specialize (Hb j p Hp); revert Ht; unfold lmb_addrs_overlap, block, rend in *; cbn [rbase rsize] in *;
      rewrite !u32_small by lia; lia.
    + left. split; [reflexivity|]. apply disjoint_free. intros k p Hp. apply overlap_spec; eauto.
      apply (Hno k p); [|exact Hp]. apply lookup_lt_Some in Hp. rewrite filled_length in Hp by exact Hf. lia.
Qed.

(** The whole of [lmb_add_region] on a free block. *)
Lemma lmb_add_region_spec rgn b s : wf rgn -> block (LmbProperty b s) -> free rgn b s ->
  exists r rgn', lmb_add_region rgn b s = Some (r, rgn') /\
    (r = -1 /\ rgn' = rgn /\ cnt rgn = MAX_LMB_REGIONS /\ apart (LmbProperty b s) rgn \/
     added (LmbProperty b s) rgn r rgn').
Proof.
  intros [[Hl Hd]|Hf] Hn Hfree.
  - change (Z.to_nat (MAX_LMB_REGIONS + 1)) with 9%nat in Hl.
    pose proof Hd as [Hc Hp]. unfold lmb_add_region. change (get rgn 0) with (region rgn !! 0%nat).
    rewrite Hp, Hc. cbn [mbind option_bind Z.eqb Pos.eqb rsize andb].
    rewrite (put_region rgn 0) by lia. cbn [mbind option_bind].
    eexists _, _. split; [reflexivity|right].
    assert (regs (LmbRegion (cnt rgn) (total rgn) (<[0%nat := LmbProperty b s]> (region rgn))) = [LmbProperty b s]) as Hr.
    { unfold regs. cbn [cnt region]. rewrite Hc. destruct (region rgn); [discriminate|reflexivity]. }
    assert (forall i p, [LmbProperty b s] !! i = Some p -> i = 0%nat /\ p = LmbProperty b s) as H1.
    { intros i p Hi. apply list_lookup_singleton_Some in Hi as [-> <-]. auto. }
    constructor; [lia|apply filled_intro|].
    + cbn [region]. rewrite length_insert. exact Hl.
    + cbn [cnt]. lia.
    + rewrite Hr. split.
      * intros i p Hi. apply H1 in Hi as [_ ->]. exact Hn.
      * intros i j p q Hij Hi Hj. apply H1 in Hi as [-> _]. apply H1 in Hj as [-> _]. lia.
    + intros a. rewrite Hr. split.
      * intros (i & p & Hi & Ha). apply H1 in Hi as [_ ->]. right. exact Ha.
      * intros [Hx|Ha]; [destruct (dummy_covers _ _ Hd Hx)|]. exists 0%nat, (LmbProperty b s). auto.
  - destruct (lmb_add_region_filled rgn b s Hf Hn) as (r & rgn' & E & Hres).
    { intros k p. apply free_disjoint; auto. apply Hf. }
    exists r, rgn'. split; [exact E|]. destruct Hres as [?|[? _]]; auto.
Qed.

(** *** Alignment *)

Definition aligned (k a : Z) : Prop := (2 ^ k | a).

Lemma align_down_spec a k : 0 <= k < 32 -> 0 <= a < 2 ^ 32 ->
  lmb_align_down a (2 ^ k) = 2 ^ k * (a / 2 ^ k).
Proof.
  intros Hk Ha. unfold lmb_align_down.
  assert (2 ^ k < 2 ^ 32) by (apply Z.pow_lt_mono_r; lia).
  assert (0 < 2 ^ k) by (apply Z.pow_pos_nonneg; lia).
  rewrite (u32_small (2 ^ k - 1)) by lia. change (2 ^ k - 1) with (Z.pred (2 ^ k)). rewrite <- Z.ones_equiv.
  transitivity (Z.ldiff a (Z.ones k)).
  - bitwise i Hi. rewrite u32_testbit, Z.lnot_spec by lia.
    destruct (Z.ltb_spec i 32); [reflexivity|]. cbn [andb].
    rewrite (Z.bits_above_log2 a i), andb_false_l; [reflexivity|lia|].
    destruct (Z.eq_dec a 0) as [->|]; [cbn; lia|]. apply Z.lt_le_trans with 32; [|lia].
    apply Z.log2_lt_pow2; lia.
  - rewrite Z.ldiff_ones_r, Z.shiftl_mul_pow2, Z.shiftr_div_pow2 by lia. lia.
Qed.

Lemma align_down_props a k : 0 <= k < 32 -> 0 <= a < 2 ^ 32 ->
  0 <= lmb_align_down a (2 ^ k) <= a /\ aligned k (lmb_align_down a (2 ^ k)) /\
  forall c, aligned k c -> c <= a -> c <= lmb_align_down a (2 ^ k).
Proof.
  intros Hk Ha. rewrite align_down_spec by assumption.
  assert (0 < 2 ^ k) by (apply Z.pow_pos_nonneg; lia).
  pose proof (Z.div_pos a (2 ^ k)). pose proof (Z.mul_div_le a (2 ^ k)).
  split_and!; [nia|lia|exists (a / 2 ^ k); lia|].
  intros c [q ->] Hc. assert (q <= a / 2 ^ k) by (apply Z.div_le_lower_bound; lia). nia.
Qed.

Lemma align_up_aligned s k : 0 <= k < 32 -> 0 < s < 2 ^ 32 - 2 ^ k -> aligned k s ->
  lmb_align_up s (2 ^ k) = s.
Proof.
  intros Hk Hs [q ->]. assert (0 < 2 ^ k) by (apply Z.pow_pos_nonneg; lia).
  unfold lmb_align_up. fold (lmb_align_down (u32 (q * 2 ^ k + u32 (2 ^ k - 1))) (2 ^ k)).
  rewrite (u32_small (2 ^ k - 1)) by lia. rewrite u32_small by lia.
  rewrite align_down_spec by lia.
  replace ((q * 2 ^ k + (2 ^ k - 1)) / 2 ^ k) with q; [lia|].
  rewrite Z.add_comm, Z.div_add, Z.div_small by lia. lia.
Qed.

(** *** Allocation *)

(** Where an allocation may go: inside a memory block and below the limit. *)
Definition limit (p : lmb_property) (max_addr : Z) : Z :=
  if max_addr =? LMB_ALLOC_ANYWHERE then rend p else Z.min (rend p) max_addr.

Lemma limit_rend p max_addr : limit p max_addr <= rend p.
Proof. unfold limit. destruct (max_addr =? LMB_ALLOC_ANYWHERE); lia. Qed.

Section Alloc.
Context (k size : Z).
Context (Hk : 0 <= k < 32) (Hsize : 0 < size < 2 ^ 32 - 2 ^ k) (Hmult : aligned k size).

(** A place for [size] bytes: nonzero, aligned and unreserved. *)
Definition candidate (rgn : lmb_region) (c : Z) : Prop := c <> 0 /\ aligned k c /\ free rgn c size.

(** The outcome of the function once a candidate [b0] has been found. *)
Inductive taken (l : lmb) (b0 : Z) : Z * lmb -> Prop :=
| taken_ok rgn r : added (LmbProperty b0 size) (reserved l) r rgn ->
    taken l b0 (b0, MkLmb (memory l) rgn)
| taken_full : cnt (reserved l) = MAX_LMB_REGIONS -> apart (LmbProperty b0 size) (reserved l) ->
    taken l b0 (0, l).

(** [n] bounds the index of the reserved blocks that start below the end of the
    candidate range: each turn of the loop lowers it. *)
Lemma alloc_scan_spec l lb fuel : wf (reserved l) -> 0 <= lb -> forall n base,
  (n < fuel)%nat ->
  (forall i p, (n <= i)%nat -> regs (reserved l) !! i = Some p -> base + size <= rbase p) ->
  0 <= base -> base + size < 2 ^ 32 -> aligned k base ->
  exists res, alloc_scan fuel l lb base size (2 ^ k) = Some res /\
    match res with
    | None => forall c, lb <= c <= base -> ~ candidate (reserved l) c
    | Some r => exists b0, lb <= b0 <= base /\ candidate (reserved l) b0 /\ taken l b0 r
    end.
Proof.
  intros Hwf Hlb. induction fuel as [|fuel IH]; intros n base Hn Hhigh H0 Hw Hal; [lia|].
  cbn [alloc_scan].
  destruct (Z.eqb_spec base 0) as [->|Hb0]; cbn [negb andb].
  { exists None. split; [reflexivity|]. intros c Hc [Hnz _]. lia. }
  destruct (Z.leb_spec lb base) as [Hge|Hlt].
  2:{ exists None. split; [reflexivity|]. intros c Hc _. lia. }
  assert (block (LmbProperty base size)) as Hblk by (unfold block, rend; cbn [rbase rsize]; lia).
  destruct (lmb_overlaps_region_spec (reserved l) base size Hwf Hblk)
    as [[E Hfree]|(j & p & E & Hf & Hp & Hov1 & Hov2)]; rewrite E; cbn [mbind option_bind].
  - cbn [Z.ltb Z.compare]. rewrite align_up_aligned by assumption.
    destruct (lmb_add_region_spec (reserved l) base size Hwf Hblk Hfree)
      as (r & rgn' & Ea & [(-> & -> & Hc & Hap)|Hadd]); rewrite Ea; cbn [mbind option_bind].
    + eexists. split; [reflexivity|]. exists base. split_and!; auto; [lia|split_and!; auto|].
      cbn [Z.ltb Z.compare]. destruct l. apply taken_full; assumption.
    + eexists. split; [reflexivity|]. exists base. split_and!; auto; [lia|split_and!; auto|].
      replace (r <? 0) with false by (destruct Hadd; lia). eapply taken_ok. exact Hadd.
  - replace (Z.of_nat j <? 0) with false by lia. rewrite get_region.
    pose proof Hp as Hp'. apply regs_lookup_Some in Hp' as [Hreg _]. rewrite Hreg. cbn [mbind option_bind].
    pose proof Hf as [Hl Hc Hb Ho]. pose proof (Hb j p Hp) as Hbp. unfold block, rend in Hbp, Hov1.
    assert (forall c, rbase p - size < c <= base -> ~ candidate (reserved l) c) as Hskip.
    { intros c Hcr (_ & _ & Hfr). apply (Hfr (Z.max c (rbase p))); [lia|].
      exists j, p. unfold rend. split; [exact Hp|lia]. }
    destruct (Z.ltb_spec (rbase p) size) as [Hlow|Hlow].
    + exists None. split; [reflexivity|]. intros c Hcr. apply Hskip. lia.
    + assert (j < n)%nat as Hjn.
      { destruct (decide (j < n)%nat); [assumption|]. specialize (Hhigh j p ltac:(lia) Hp). lia. }
      rewrite u32_small by lia.
      destruct (align_down_props (rbase p - size) k Hk ltac:(lia)) as (Hd1 & Hd2 & Hd3).
      destruct (IH j (lmb_align_down (rbase p - size) (2 ^ k))) as (res & Er & Hres); auto; try lia.
      { intros i q Hi Hq. destruct (decide (i = j)) as [->|]; [replace q with p by congruence; lia|].
        specialize (Ho j i p q ltac:(lia) Hp Hq). unfold rend in Ho. lia. }
      exists res. split; [exact Er|]. destruct res as [r|].
      * destruct Hres as (b0 & Hbb & Hc0 & Ht). exists b0. split_and!; auto; lia.
      * intros c Hcr Hcand. destruct (Z.le_gt_cases c (rbase p - size)) as [Hle|Hgt].
        -- apply (Hres c); [|exact Hcand]. destruct Hcand as (_ & Hca & _).
           specialize (Hd3 c Hca Hle). lia.
        -- apply (Hskip c); [lia|exact Hcand].
Qed.

Definition fits (mem : lmb_region) (max_addr c : Z) : Prop :=
  exists i p, regs mem !! i = Some p /\ rbase p <= c /\ c + size <= limit p max_addr.

Lemma first_base_spec p max_addr : block p -> max_addr = 0 \/ size <= max_addr < 2 ^ 32 ->
  match first_base p size (2 ^ k) max_addr with
  | None => forall c, rbase p <= c -> c + size <= limit p max_addr -> False
  | Some b => 0 <= b /\ b + size <= limit p max_addr /\ aligned k b /\
      forall c, aligned k c -> c + size <= limit p max_addr -> c <= b
  end.
Proof.
  intros Hb Hm. unfold block, rend in Hb. unfold first_base, limit, rend, LMB_ALLOC_ANYWHERE.
  destruct (Z.ltb_spec (rsize p) size) as [Hs|Hs]; [intros c; destruct (max_addr =? 0); lia|].
  destruct (Z.eqb_spec max_addr 0) as [->|Hnz].
  - rewrite (u32_small (rbase p + rsize p)), u32_small by lia.
    destruct (align_down_props (rbase p + rsize p - size) k Hk ltac:(lia)) as (H1 & H2 & H3).
    split_and!; auto; try lia. intros c Hc Hle. apply H3; [exact Hc|lia].
  - destruct (Z.ltb_spec (rbase p) max_addr) as [Hlt|Hge]; [|intros c; lia].
    rewrite (u32_small (rbase p + rsize p)) by lia.
    replace (rbase p + rsize p <? rbase p) with false by lia. rewrite u32_small by lia.
    destruct (align_down_props (Z.min (rbase p + rsize p) max_addr - size) k Hk ltac:(lia)) as (H1 & H2 & H3).
    split_and!; auto; try lia. intros c Hc Hle. apply H3; [exact Hc|lia].
Qed.

Lemma alloc_regions_spec l max_addr n : filled (memory l) -> wf (reserved l) ->
  max_addr = 0 \/ size <= max_addr < 2 ^ 32 -> Z.of_nat n <= cnt (memory l) ->
  exists b l', alloc_regions n l size (2 ^ k) max_addr = Some (b, l') /\
    ((exists b0, fits (memory l) max_addr b0 /\ candidate (reserved l) b0 /\ taken l b0 (b, l')) \/
     (b = 0 /\ l' = l /\ forall i p c, (i < n)%nat -> regs (memory l) !! i = Some p ->
        rbase p <= c -> c + size <= limit p max_addr -> ~ candidate (reserved l) c)).
Proof.
  intros Hf Hwf Hm. induction n as [|n IH]; intros Hn; cbn [alloc_regions].
  { exists 0, l. split; [reflexivity|]. right. split_and!; auto. intros i p c Hi. lia. }
  pose proof Hf as [Hl Hc Hb Ho]. unfold MAX_LMB_REGIONS in *.
  rewrite get_region. destruct (lookup_lt_is_Some_2 (region (memory l)) n) as [p Hp]; [lia|].
  assert (regs (memory l) !! n = Some p) as Hr by (apply regs_lookup_Some; split; [exact Hp|lia]).
  rewrite Hp. cbn [mbind option_bind]. pose proof (Hb n p Hr) as Hbp.
  pose proof (first_base_spec p max_addr Hbp Hm) as Hfb. pose proof (limit_rend p max_addr) as Hlim.
  destruct IH as (b' & l' & E' & Hres'); [lia|].
  assert (forall dead : (forall c, rbase p <= c -> c + size <= limit p max_addr -> ~ candidate (reserved l) c),
    exists b l', alloc_regions n l size (2 ^ k) max_addr = Some (b, l') /\
    ((exists b0, fits (memory l) max_addr b0 /\ candidate (reserved l) b0 /\ taken l b0 (b, l')) \/
     (b = 0 /\ l' = l /\ forall i p c, (i < S n)%nat -> regs (memory l) !! i = Some p ->
        rbase p <= c -> c + size <= limit p max_addr -> ~ candidate (reserved l) c))) as Hnext.
  { intros dead. exists b', l'. split; [exact E'|]. destruct Hres' as [?|(-> & -> & Hno)]; [auto|right].
    split_and!; auto. intros i q c Hi Hq. destruct (decide (i = n)) as [->|].
    - replace q with p by congruence. apply dead.
    - apply (Hno i q c); [lia|exact Hq]. }
  unfold block, rend in Hbp, Hlim.
  destruct (first_base p size (2 ^ k) max_addr) as [base|].
  2:{ apply Hnext. intros c H1 H2 _. exact (Hfb c H1 H2). }
  destruct Hfb as (Hb0 & Hb1 & Hb2 & Hb3).
  destruct (alloc_scan_spec l (rbase p) (S (loop_fuel (reserved l))) Hwf ltac:(lia) 9 base)
    as (res & Er & Hres); auto; try lia.
  { unfold loop_fuel. destruct Hwf as [[Hlr _]|[Hlr _ _ _]]; rewrite Hlr; unfold MAX_LMB_REGIONS; lia. }
  { intros i q Hi Hq. exfalso. apply regs_lookup_Some in Hq as [Hq _]. apply lookup_lt_Some in Hq.
    destruct Hwf as [[Hlr _]|[Hlr _ _ _]]; rewrite Hlr in Hq; unfold MAX_LMB_REGIONS in Hq; lia. }
  rewrite Er. cbn [mbind option_bind]. destruct res as [[b l2]|].
  - destruct Hres as (b0 & Hle & Hcand & Ht). exists b, l2. split; [reflexivity|left].
    exists b0. split_and!; auto. exists n, p. split_and!; auto; lia.
  - apply Hnext. intros c H1 H2 Hcand. apply (Hres c); [|exact Hcand].
    destruct Hcand as (_ & Hca & _). specialize (Hb3 c Hca H2). lia.
Qed.

End Alloc.

(** *** Freeing *)

Lemma covers_delete_apart l j p a : good l -> l !! j = Some p ->
  covers (delete j l) a <-> covers l a /\ ~ in_block a p.
Proof.
  intros [Hb Ho] Hp. split.
  - intros (i & x & Hx & Ha). apply delete_lookup_Some in Hx as [[Hi Hx]|[Hi Hx]]; unfold in_block, rend in *.
    + split; [exists i, x; auto|]. specialize (Ho i j x p Hi Hx Hp). unfold rend in Ho. lia.
    + split; [exists (S i), x; auto|]. specialize (Ho j (S i) p x ltac:(lia) Hp Hx). unfold rend in Ho. lia.
  - intros [Hc Hn]. apply (covers_delete l j) in Hc as [Hc|(q & Hq & Hin)]; [exact Hc|].
    replace q with p in Hin by congruence. contradiction.
Qed.

(** Cutting a block down. *)
Lemma shrink_good l j p q : good l -> l !! j = Some p -> block q ->
  rbase p <= rbase q -> rend q <= rend p ->
  good (<[j := q]> l) /\
  forall a, covers (<[j := q]> l) a <-> covers l a /\ (in_block a p -> in_block a q).
Proof.
  intros [Hb Ho] Hp Hq H1 H2. split; [split|].
  - apply blocks_insert; assumption.
  - apply ordered_insert; [exact Ho|intros i x Hi Hx..].
    + specialize (Ho i j x p Hi Hx Hp). lia.
    + specialize (Ho j i p x Hi Hp Hx). lia.
  - intros a. assert (j < length l)%nat by eauto using lookup_lt_Some. split.
    + intros (i & x & Hx & Ha). apply list_lookup_insert_Some in Hx as [(<- & <- & _)|(Hne & Hx)].
      * split; [exists j, p; split; [exact Hp|lia]|]. intros _. exact Ha.
      * split; [exists i, x; auto|]. intros Hin. exfalso. unfold in_block, rend in *.
        destruct (decide (i < j)%nat).
        -- specialize (Ho i j x p ltac:(lia) Hx Hp). unfold rend in Ho. lia.
        -- specialize (Ho j i p x ltac:(lia) Hp Hx). unfold rend in Ho. lia.
    + intros [(i & x & Hx & Ha) Himp]. destruct (decide (i = j)) as [->|Hne].
      * exists j, q. rewrite list_lookup_insert_eq by lia. split; [reflexivity|].
        apply Himp. replace p with x by congruence. exact Ha.
      * exists i, x. rewrite list_lookup_insert_ne by lia. auto.
Qed.

Lemma filled_put rgn j q : filled rgn -> (j < Z.to_nat (cnt rgn))%nat -> good (<[j := q]> (regs rgn)) ->
  exists rgn', put rgn (Z.of_nat j) q = Some rgn' /\ filled rgn' /\ cnt rgn' = cnt rgn /\
    regs rgn' = <[j := q]> (regs rgn).
Proof.
  intros [Hl Hc Hb Ho] Hj Hg. unfold MAX_LMB_REGIONS in *. rewrite put_region by lia.
  eexists. split; [reflexivity|]. 
  pose proof (regs_insert rgn (LmbRegion (cnt rgn) (total rgn) (<[j := q]> (region rgn))) j q eq_refl eq_refl) as Hr.
  split_and!; [|reflexivity|exact Hr].
  apply filled_intro; [cbn [region]; rewrite length_insert; exact Hl|exact Hc|rewrite Hr; exact Hg].
Qed.

(** [lmb_free] looks for the one block that holds the range. *)
Lemma free_search rgn b s j p : filled rgn -> block (LmbProperty b s) -> regs rgn !! j = Some p ->
  rbase p <= b -> b + s <= rend p ->
  search (loop_fuel rgn) (fun p => (rbase p <=? b) && (u32 (b + s) <=? u32 (rbase p + rsize p))) rgn 0
    = Some (Z.of_nat j).
Proof.
  intros Hf Hn Hp H1 H2. pose proof Hf as [Hl Hc Hb Ho]. unfold MAX_LMB_REGIONS in *.
  unfold block, rend in Hn, H2. cbn [rbase rsize] in Hn.
  destruct (search_full (fun p => (rbase p <=? b) && (u32 (b + s) <=? u32 (rbase p + rsize p))) rgn)
    as (i & E & Hi & Hno & Hyes); [lia..|].
  rewrite E. f_equal. f_equal. pose proof Hp as Hpl. apply regs_lookup_Some in Hpl as [_ Hj].
  pose proof (Hb j p Hp) as Hbp. unfold block, rend in Hbp.
  destruct (lt_eq_lt_dec i j) as [[Hlt|Heq]|Hgt]; [|exact Heq|].
  - destruct Hyes as (q & Hq & Ht); [lia|]. specialize (Ho i j q p Hlt Hq Hp). specialize (Hb i q Hq).
    unfold block, rend in *. rewrite !u32_small in Ht by lia. lia.
  - specialize (Hno j p Hgt Hp). rewrite !u32_small in Hno by lia. lia.
Qed.

(** The state after the search: the freed range is cut out of block [j]. *)
Lemma lmb_free_found l b s j p : let rgn := reserved l in
  filled rgn -> block (LmbProperty b s) -> regs rgn !! j = Some p -> rbase p <= b -> b + s <= rend p ->
  2 <= cnt rgn \/ p <> LmbProperty b s ->
  exists r rgn', lmb_free l b s = Some (r, MkLmb (memory l) rgn') /\ filled rgn' /\
    (0 <= r /\ (forall a, covers (regs rgn') a <-> covers (regs rgn) a /\ ~ b <= a < b + s) \/
     r = -1 /\ cnt rgn = 8 /\ rbase p < b /\ b + s < rend p /\
     forall a, covers (regs rgn') a <-> covers (regs rgn) a /\ ~ b <= a < rend p).
Proof.
  intros rgn Hf Hn Hp H1 H2 Hlast. pose proof Hf as [Hl Hc Hb Ho]. unfold MAX_LMB_REGIONS in *.
  unfold lmb_free. fold rgn. rewrite (free_search rgn b s j p) by assumption.
  cbn [mbind option_bind]. pose proof Hp as Hpl. apply regs_lookup_Some in Hpl as [Hreg Hj].
  pose proof (Hb j p Hp) as Hbp. unfold block, rend in Hbp, H2, Hn. cbn [rbase rsize] in Hn.
  replace (Z.of_nat j =? cnt rgn) with false by lia. rewrite get_region, Hreg. cbn [mbind option_bind].
  rewrite (u32_small (b + s)), (u32_small (rbase p + rsize p)) by lia.
  assert (forall q, block q -> rbase p <= rbase q -> rend q <= rend p ->
    exists rgn', put rgn (Z.of_nat j) q = Some rgn' /\ filled rgn' /\ cnt rgn' = cnt rgn /\
      forall a, covers (regs rgn') a <-> covers (regs rgn) a /\ (in_block a p -> in_block a q)) as Hcut.
  { intros q Hq Hq1 Hq2. destruct (shrink_good (regs rgn) j p q) as [Hg Hcov]; auto using filled_good.
    destruct (filled_put rgn j q Hf) as (rgn' & E & Hf' & Hc' & Hr'); [lia|exact Hg|].
    exists rgn'. split_and!; auto. rewrite Hr'. exact Hcov. }
  destruct (Z.eqb_spec (rbase p) b) as [Hfront|Hfront];
    destruct (Z.eqb_spec (rbase p + rsize p) (b + s)) as [Hback|Hback]; cbn [andb].
  - destruct (lmb_remove_region_spec rgn j) as (rgn' & E & Hc' & Hl' & Hr'); [lia..|].
    rewrite E. cbn [mbind option_bind]. eexists _, _. split; [reflexivity|].
    destruct (decide (cnt rgn = 1)) as [H1c|H1c].
    { destruct Hlast as [?|Hne]; [lia|]. destruct p. cbn [rbase rsize] in *. exfalso. apply Hne. f_equal; lia. }
    split; [apply filled_intro; [exact Hl'|lia|rewrite Hr'; apply good_delete, filled_good, Hf]|].
    left. split; [lia|]. intros a. rewrite Hr', (covers_delete_apart _ _ p) by (auto using filled_good).
    unfold in_block, rend. replace (rbase p) with b by lia. replace (b + rsize p) with (b + s) by lia. tauto.
  - destruct (Hcut (LmbProperty (b + s) (rsize p - s))) as (rgn' & E & Hf' & Hc' & Hcov);
      [unfold block, rend; cbn [rbase rsize]; lia|cbn [rbase]; lia|unfold rend; cbn [rbase rsize]; lia|].
    rewrite u32_small, E by lia. cbn [mbind option_bind]. eexists _, _. split; [reflexivity|].
    split; [exact Hf'|left]. split; [lia|]. intros a. rewrite Hcov.
    split; intros [Hca Hx]; (split; [exact Hca|]); unfold in_block, rend in *; cbn [rbase rsize] in *; lia.
  - destruct (Hcut (LmbProperty (rbase p) (rsize p - s))) as (rgn' & E & Hf' & Hc' & Hcov);
      [unfold block, rend; cbn [rbase rsize]; lia|cbn [rbase]; lia|unfold rend; cbn [rbase rsize]; lia|].
    rewrite u32_small, E by lia. cbn [mbind option_bind]. eexists _, _. split; [reflexivity|].
    split; [exact Hf'|left]. split; [lia|]. intros a. rewrite Hcov.
    split; intros [Hca Hx]; (split; [exact Hca|]); unfold in_block, rend in *; cbn [rbase rsize] in *; lia.
  - destruct (Hcut (LmbProperty (rbase p) (b - rbase p))) as (rgn1 & E & Hf1 & Hc1 & Hcov);
      [unfold block, rend; cbn [rbase rsize]; lia|cbn [rbase]; lia|unfold rend; cbn [rbase rsize]; lia|].
    rewrite (u32_small (b - rbase p)), E, u32_small by lia. cbn [mbind option_bind].
    set (n := LmbProperty (b + s) (rbase p + rsize p - (b + s))).
    destruct (lmb_add_region_spec rgn1 (b + s) (rbase p + rsize p - (b + s))) as (r & rgn2 & Ea & Hres).
    { right. exact Hf1. } { unfold block, rend; cbn [rbase rsize]; lia. }
    { intros a Ha Hx. apply Hcov in Hx as [_ Hx]. unfold in_block, rend in Hx. cbn [rbase rsize] in Hx. lia. }
    rewrite Ea. cbn [mbind option_bind]. eexists _, _. split; [reflexivity|].
    destruct Hres as [(-> & -> & H8 & _)|[Hr Hf2 Hcov2]].
    + split; [exact Hf1|right]. unfold MAX_LMB_REGIONS in H8. split_and!; try lia; [unfold rend; lia|].
      intros a. rewrite Hcov. unfold in_block, rend. cbn [rbase rsize].
      split; intros [Hca Hx]; (split; [exact Hca|lia]).
    + split; [exact Hf2|left]. split; [lia|]. intros a. rewrite Hcov2, Hcov. unfold in_block, rend. cbn [rbase rsize].
      split.
      * intros [[Hca Hx]|Ha]; [split; [exact Hca|lia]|]. split; [|lia]. exists j, p. split; [exact Hp|unfold rend; lia].
      * intros [Hca Hx]. destruct (Z.lt_ge_cases a (rbase p + rsize p)); [|left; split; [exact Hca|lia]].
        destruct (Z.lt_ge_cases a b); [left; split; [exact Hca|lia]|right; lia].
Qed.

Lemma filled_single rgn p : length (region rgn) = 9%nat -> cnt rgn = 1 ->
  region rgn !! 0%nat = Some p -> block p -> filled rgn.
Proof.
  intros Hl Hc Hp Hb. assert (regs rgn = [p]) as Hr.
  { unfold regs. rewrite Hc. destruct (region rgn); [discriminate|]. injection Hp as ->. reflexivity. }
  apply filled_intro; [exact Hl|lia|]. rewrite Hr. split.
  - intros i x Hx. apply list_lookup_singleton_Some in Hx as [_ <-]. exact Hb.
  - intros i j x y Hij Hx Hy. apply list_lookup_singleton_Some in Hx as [-> _].
    apply list_lookup_singleton_Some in Hy as [-> _]. lia.
Qed.

(** With a count of 0, slot 0 is still compared with the new block, and the new
    block is stored only when it lies below. *)
Lemma add_region_emptied t p rs b s : block p -> rbase p <> 0 -> rbase p <= b ->
  lmb_add_region (LmbRegion 0 t (p :: LmbProperty 0 0 :: rs)) b s =
    Some (0, LmbRegion 1 t (p :: LmbProperty 0 0 :: rs)).
Proof.
  intros Hb Hnz Hle. unfold block, rend in Hb. set (rgn := LmbRegion 0 t _).
  assert (coalesce_next rgn 0 0 = Some (rgn, 0)) as E.
  { unfold coalesce_next. change (0 <? u32 (cnt rgn - 1)) with true. cbn iota.
    change (lmb_regions_adjacent rgn 0 (0 + 1)) with (Some (lmb_addrs_adjacent (rbase p) (rsize p) 0 0)).
    unfold lmb_addrs_adjacent. change (u32 (0 + 0)) with 0. rewrite u32_small by lia.
    replace (0 =? rbase p + rsize p) with false by lia. replace (rbase p =? 0) with false by lia. reflexivity. }
  unfold lmb_add_region. change (get rgn 0) with (Some p).
  change (coalesce_scan (loop_fuel rgn) rgn b s 0) with (Some (LeftLoop rgn 0 0)).
  cbn [mbind option_bind]. change (cnt rgn =? 1) with false. cbn [andb]. rewrite E.
  cbn [mbind option_bind Z.eqb negb]. change (MAX_LMB_REGIONS <=? cnt rgn) with false.
  change (insert_scan (Z.to_nat (cnt rgn)) rgn b s) with (Some rgn). cbn [mbind option_bind].
  change (get rgn 0) with (Some p). cbn [mbind option_bind].
  replace (b <? rbase p) with false by lia. reflexivity.
Qed.

(** ** The properties *)

(** Reserving an unreserved range adds exactly that range to the reserved
    addresses and keeps the table sorted, disjoint and within its bounds.  The
    only failure is a full table none of whose blocks touches the range, and it
    changes nothing. *)
Theorem lmb_reserve_covers l b s :
  wf (reserved l) -> block (LmbProperty b s) -> free (reserved l) b s ->
  exists r l', lmb_reserve l b s = Some (r, l') /\ memory l' = memory l /\
    (r = -1 /\ l' = l /\ cnt (reserved l) = MAX_LMB_REGIONS /\ apart (LmbProperty b s) (reserved l) \/
     0 <= r <= 2 /\ filled (reserved l') /\
     forall a, covers (regs (reserved l')) a <-> covers (regs (reserved l)) a \/ b <= a < b + s).
Proof.
  intros Hwf Hb Hf. destruct (lmb_add_region_spec _ _ _ Hwf Hb Hf) as (r & rgn & E & Hres).
  exists r, (MkLmb (memory l) rgn). unfold lmb_reserve. rewrite E. split; [reflexivity|].
  split; [reflexivity|]. destruct Hres as [(-> & -> & Hc & Ha)|[Hr Hfl Hcov]].
  - left. destruct l. auto.
  - right. auto.
Qed.


(** Freeing a range inside a reserved block makes exactly that range available
    again, whichever part of the block it is, except in two cases: when it is
    the whole of the only block ([lmb_reserve_lost]), and when the table is full
    and the block has to be split: then the call fails, and it has freed the
    rest of the block as well. *)
Theorem lmb_free_uncovers l b s j p :
  filled (reserved l) -> block (LmbProperty b s) -> regs (reserved l) !! j = Some p ->
  rbase p <= b -> b + s <= rend p -> 2 <= cnt (reserved l) \/ p <> LmbProperty b s ->
  exists r l', lmb_free l b s = Some (r, l') /\ memory l' = memory l /\ filled (reserved l') /\
    (0 <= r /\ (forall a, covers (regs (reserved l')) a <->
                         covers (regs (reserved l)) a /\ ~ b <= a < b + s) \/
     r = -1 /\ cnt (reserved l) = MAX_LMB_REGIONS /\ b + s < rend p /\
       forall a, covers (regs (reserved l')) a <->
               covers (regs (reserved l)) a /\ ~ b <= a < rend p).
Proof.
  intros Hf Hn Hp H1 H2 Hlast.
  destruct (lmb_free_found l b s j p Hf Hn Hp H1 H2 Hlast) as (r & rgn' & E & Hf' & Hres).
  exists r, (MkLmb (memory l) rgn'). split_and!; auto.
  destruct Hres as [?|(-> & Hc & _ & Hlt & Hcov)]; [auto|]. right. auto.
Qed.

(** Freeing the whole of the only reserved block leaves a table of count 0, and
    the next reservation at a higher address is lost: the call reports success
    and the table holds the block that was freed. *)
Theorem lmb_reserve_lost l p b s :
  length (region (reserved l)) = 9%nat -> cnt (reserved l) = 1 ->
  region (reserved l) !! 0%nat = Some p -> region (reserved l) !! 1%nat = Some (LmbProperty 0 0) ->
  block p -> rbase p <> 0 -> rbase p <= b ->
  exists l1 l2, lmb_free l (rbase p) (rsize p) = Some (0, l1) /\ cnt (reserved l1) = 0 /\
    lmb_reserve l1 b s = Some (0, l2) /\ regs (reserved l2) = [p].
Proof.
  intros Hl Hc Hp Hp1 Hb Hnz Hle. destruct l as [mem [c t rs]]. cbn [memory reserved region cnt] in *.
  destruct rs as [|q [|q1 rs]]; try discriminate. injection Hp as ->. injection Hp1 as ->. subst c.
  unfold block, rend in Hb. exists (MkLmb mem (LmbRegion 0 t (p :: LmbProperty 0 0 :: rs))), (MkLmb mem (LmbRegion 1 t (p :: LmbProperty 0 0 :: rs))).
  split_and!.
  - assert (filled (LmbRegion 1 t (p :: LmbProperty 0 0 :: rs))) as Hf.
    { apply (filled_single _ p); auto. }
    unfold lmb_free. cbn [reserved memory]. rewrite (free_search _ _ _ 0 p Hf); try reflexivity;
      [|destruct p; exact Hb].
    cbn [mbind option_bind]. change (Z.of_nat 0 =? cnt _) with false.
    change (get _ (Z.of_nat 0)) with (Some p). cbn [mbind option_bind]. rewrite !Z.eqb_refl. reflexivity.
  - reflexivity.
  - unfold lmb_reserve. cbn [reserved memory]. rewrite add_region_emptied by assumption. reflexivity.
  - reflexivity.
Qed.

(** [lmb_is_reserved] answers whether a reserved block holds the address, once
    anything has been reserved. *)
Theorem lmb_is_reserved_covers l a : filled (reserved l) ->
  exists r, lmb_is_reserved l a = Some r /\ (r = 0 \/ r = 1) /\ (r = 1 <-> covers (regs (reserved l)) a).
Proof.
  intros Hf. pose proof Hf as [Hl Hc Hb Ho]. unfold MAX_LMB_REGIONS in *. unfold lmb_is_reserved.
  destruct (search_full (fun p => (rbase p <=? a) && (a <=? u32 (rbase p + rsize p - 1))) (reserved l))
    as (j & E & Hj & Hno & Hyes); [lia..|].
  rewrite E. cbn [mbind option_bind]. eexists. split; [reflexivity|].
  assert (forall p, block p -> (rbase p <=? a) && (a <=? u32 (rbase p + rsize p - 1)) = true <-> in_block a p) as Hin.
  { intros p Hbp. unfold block, in_block, rend in *. rewrite u32_small by lia. lia. }
  destruct (Z.ltb_spec (Z.of_nat j) (cnt (reserved l))) as [H|H]; (split; [auto|split]); try congruence.
  - intros _. destruct (Hyes H) as (p & Hp & Ht). exists j, p. split; [exact Hp|]. apply Hin; eauto.
  - intros (i & p & Hp & Ha). exfalso.
    assert (i < Z.to_nat (cnt (reserved l)))%nat by (rewrite <- filled_length by exact Hf; eapply lookup_lt_Some; exact Hp).
    specialize (Hno i p ltac:(lia) Hp). apply (Hin p) in Ha; [congruence|eauto].
Qed.

(** Before the first reservation, the size-0 dummy of [lmb_init] makes the upper
    bound wrap around, and every address is reported as reserved. *)
Theorem lmb_is_reserved_dummy l a : length (region (reserved l)) = 9%nat -> 0 <= a < 2 ^ 32 ->
  lmb_is_reserved (lmb_init l) a = Some 1 /\ ~ covers (regs (reserved (lmb_init l))) a.
Proof.
  intros Hl Ha. destruct l as [mem [c t rs]]. cbn [reserved region] in Hl.
  destruct rs as [|q rs]; [discriminate|]. split; [|apply dummy_covers; split; reflexivity].
  unfold lmb_is_reserved, lmb_init, init_region, loop_fuel.
  cbn [reserved memory region search cnt Z.ltb Z.compare insert list_insert].
  change (get (LmbRegion 1 0 (LmbProperty 0 0 :: rs)) 0) with (Some (LmbProperty 0 0)).
  cbn [mbind option_bind rbase rsize]. change (u32 (0 + 0 - 1)) with 4294967295.
  replace ((0 <=? a) && (a <=? 4294967295)) with true by lia. reflexivity.
Qed.

(** With a limit below the size, the first candidate wraps around: the range
    returned lies outside every memory block. *)
Theorem lmb_alloc_base_escapes l base size max_addr :
  regs (memory l) = [LmbProperty 0 base] -> cnt (memory l) = 1 -> dummy (reserved l) ->
  length (region (reserved l)) = 9%nat ->
  0 < max_addr < size -> size <= base < 2 ^ 32 ->
  exists b l', lmb_alloc_base l size 1 max_addr = Some (b, l') /\
    b = 2 ^ 32 - (size - max_addr) /\ ~ fits size (memory l) max_addr b.
Proof.
  intros Hm Hc Hd Hl Hmax Hsz.
  assert (get (memory l) 0 = Some (LmbProperty 0 base)) as Hg.
  { assert (regs (memory l) !! 0%nat = Some (LmbProperty 0 base)) as H by (rewrite Hm; reflexivity).
    apply regs_lookup_Some in H as [H _]. exact H. }
  unfold lmb_alloc_base, __lmb_alloc_base. rewrite Hc. change (Z.to_nat 1) with 1%nat.
  cbn [alloc_regions]. change (Z.of_nat 0) with 0. rewrite Hg. cbn [mbind option_bind].
  assert (first_base (LmbProperty 0 base) size 1 max_addr = Some (2 ^ 32 - (size - max_addr))) as Hfb.
  { unfold first_base, LMB_ALLOC_ANYWHERE. cbn [rbase rsize].
    replace (base <? size) with false by lia. replace (max_addr =? 0) with false by lia.
    replace (0 <? max_addr) with true by lia. rewrite Z.add_0_l, (u32_small base) by lia.
    replace (base <? 0) with false by lia. rewrite Z.min_r by lia.
    replace (u32 (max_addr - size)) with (2 ^ 32 - (size - max_addr)).
    - change 1 with (2 ^ 0) at 1. rewrite align_down_spec, Z.pow_0_r, Z.div_1_r by lia. f_equal. lia.
    - unfold u32, wrap. apply (Z.mod_unique _ _ (-1)); lia. }
  rewrite Hfb. cbn [rbase]. cbn [alloc_scan]. set (b := 2 ^ 32 - (size - max_addr)).
  assert (0 < b < 2 ^ 32) as Hb by (unfold b; lia).
  replace (b =? 0) with false by lia. replace (0 <=? b) with true by lia. cbn [negb andb].
  assert (lmb_overlaps_region (reserved l) b size = Some (-1)) as Eo.
  { destruct Hd as [Hc0 Hp0]. unfold lmb_overlaps_region, loop_fuel. rewrite Hl. cbn [search].
    rewrite Hc0. change (get (reserved l) 0) with (region (reserved l) !! 0%nat). rewrite Hp0.
    cbn [Z.ltb Z.compare mbind option_bind]. unfold lmb_addrs_overlap. cbn [rbase rsize].
    change (u32 (0 + 0)) with 0. replace (b <? 0) with false by lia. cbn [andb search].
    reflexivity. }
  rewrite Eo. cbn [mbind option_bind Z.ltb Z.compare]. unfold lmb_add_region.
  destruct Hd as [Hc0 Hp0]. change (get (reserved l) 0) with (region (reserved l) !! 0%nat).
  rewrite Hp0, Hc0. cbn [mbind option_bind Z.eqb Pos.eqb rsize andb].
  rewrite (put_region (reserved l) 0) by lia. cbn [mbind option_bind Z.ltb Z.compare].
  eexists _, _. split; [reflexivity|]. split; [reflexivity|].
  intros (i & p & Hp & H1 & H2). rewrite Hm in Hp. apply list_lookup_singleton_Some in Hp as [_ <-].
  pose proof (limit_rend (LmbProperty 0 base) max_addr) as Hlim. unfold rend in Hlim. cbn [rbase rsize] in Hlim. lia.
Qed.

(** ** The board's memory map *)

(** RAM from 0x60000000, with U-Boot itself reserved at its top. *)
Definition zeroed : lmb_region := LmbRegion 0 0 (replicate 9 (LmbProperty 0 0)).
Definition vexpress_ram : lmb_property := LmbProperty 0x60000000 0x20000000.
Definition uboot_top : lmb_property := LmbProperty 0x7fe00000 0x200000.
Definition one_block (p : lmb_property) : lmb_region := LmbRegion 1 0 (p :: replicate 8 (LmbProperty 0 0)).
Definition vexpress : lmb := MkLmb (one_block vexpress_ram) (one_block uboot_top).

Lemma vexpress_built :
  (l ← lmb_add (lmb_init (MkLmb zeroed zeroed)) 0x60000000 0x20000000;
   lmb_reserve l.2 0x7fe00000 0x200000) = Some (0, vexpress).
Proof. reflexivity. Qed.

Ltac concrete := vm_compute; first [reflexivity | discriminate | split_and!; first [reflexivity | discriminate]].

Lemma one_block_filled p : block p -> filled (one_block p).
Proof. intros Hb. exact (filled_single (one_block p) p eq_refl eq_refl eq_refl Hb). Qed.

Lemma vexpress_ram_block : block vexpress_ram.
Proof. concrete. Qed.
Lemma uboot_top_block : block uboot_top.
Proof. concrete. Qed.

Lemma one_block_covers p a : covers (regs (one_block p)) a <-> in_block a p.
Proof.
  split; [|intros H; exists 0%nat, p; split; [reflexivity|exact H]].
  intros (i & q & Hq & Ha). apply list_lookup_singleton_Some in Hq as [_ <-]. exact Ha.
Qed.

Lemma lmb_reserve_covers_witness :
  exists r l', lmb_reserve vexpress 0x60000000 0x8000 = Some (r, l') /\ memory l' = memory vexpress.
Proof.
  destruct (lmb_reserve_covers vexpress 0x60000000 0x8000) as (r & l' & E & Hm & _).
  - right. apply one_block_filled, uboot_top_block.
  - concrete.
  - intros a Ha Hc. apply one_block_covers in Hc. unfold in_block, rend, uboot_top in Hc. cbn in Hc. lia.
  - exists r, l'. split; assumption.
Defined.


Lemma lmb_free_uncovers_witness :
  exists r l', lmb_free vexpress 0x7fe10000 0x1000 = Some (r, l') /\ filled (reserved l').
Proof.
  destruct (lmb_free_uncovers vexpress 0x7fe10000 0x1000 0 uboot_top) as (r & l' & E & _ & Hf & _).
  - apply one_block_filled, uboot_top_block.
  - concrete.
  - reflexivity.
  - concrete.
  - concrete.
  - right. discriminate.
  - exists r, l'. split; assumption.
Defined.

Lemma lmb_reserve_lost_witness :
  exists l1 l2, lmb_free vexpress 0x7fe00000 0x200000 = Some (0, l1) /\ cnt (reserved l1) = 0 /\
    lmb_reserve l1 0x7ff00000 0x1000 = Some (0, l2) /\ regs (reserved l2) = [uboot_top].
Proof. apply (lmb_reserve_lost vexpress uboot_top 0x7ff00000 0x1000); concrete || discriminate. Defined.

Lemma lmb_is_reserved_covers_witness :
  exists r, lmb_is_reserved vexpress 0x7fe00000 = Some r /\ (r = 0 \/ r = 1).
Proof.
  destruct (lmb_is_reserved_covers vexpress 0x7fe00000 (one_block_filled _ uboot_top_block)) as (r & E & Hr & _).
  exists r. split; assumption.
Defined.

Lemma lmb_is_reserved_dummy_witness : lmb_is_reserved (lmb_init vexpress) 5 = Some 1.
Proof. apply (lmb_is_reserved_dummy vexpress 5); [reflexivity|lia]. Defined.

Lemma lmb_alloc_base_escapes_witness :
  exists b l', lmb_alloc_base (MkLmb (one_block (LmbProperty 0 0x1000)) (init_region zeroed)) 0x800 1 0x100
    = Some (b, l') /\ b = 0xfffff900.
Proof.
  destruct (lmb_alloc_base_escapes (MkLmb (one_block (LmbProperty 0 0x1000)) (init_region zeroed)) 0x1000 0x800 0x100)
    as (b & l' & E & Hb & _); try reflexivity; try lia; [split; reflexivity|].
  exists b, l'. split; [exact E|rewrite Hb; reflexivity].
Defined.

End Lmb.
