(* ===== verification/Cmem.v ===== *)
(** * Cmem: byte-addressed memory

    The memory the boot loader's library routines work on: a byte at every
    address, little-endian words on it, and NUL-terminated strings in it.
    Pointers are addresses; [char] is unsigned on ARM. *)

From stdpp Require Import base list.
From Stdlib Require Import ZifyBool.
From S2P Require Import Prelude.

Definition mem := Z -> Z.

Definition ld (m : mem) (a : Z) : Z := u8 (m a).
Definition st (m : mem) (a v : Z) : mem := fun x => if x =? a then u8 v else m x.

Definition ld32 (m : mem) (a : Z) : Z :=
  ld m a + 2 ^ 8 * (ld m (a + 1) + 2 ^ 8 * (ld m (a + 2) + 2 ^ 8 * ld m (a + 3))).
Definition st32 (m : mem) (a v : Z) : mem :=
  st (st (st (st m a v) (a + 1) (Z.shiftr v 8)) (a + 2) (Z.shiftr v 16)) (a + 3) (Z.shiftr v 24).

(** [n] bytes at [p], and a list of bytes written at [p]. *)
Fixpoint bytes (m : mem) (p : Z) (n : nat) : list Z :=
  match n with O => [] | S n => ld m p :: bytes m (p + 1) n end.

Fixpoint wr (m : mem) (p : Z) (l : list Z) : mem :=
  match l with [] => m | x :: l => wr (st m p x) (p + 1) l end.

(** [s] is the string at [p]: its bytes are not NUL and a NUL follows. *)
Definition cstr (m : mem) (p : Z) (s : list Z) : Prop :=
  bytes m p (length s) = s /\ Forall (fun c => c <> 0) s /\ ld m (p + Z.of_nat (length s)) = 0.

(** Two memories with the same contents. *)
Definition mem_eq (m1 m2 : mem) : Prop := forall a, ld m1 a = ld m2 a.

#[export] Instance mem_eq_equiv : Equivalence mem_eq.
Proof.
  split; [intros m a; reflexivity|intros m1 m2 H a; symmetry; apply H|].
  intros m1 m2 m3 H1 H2 a. etransitivity; [apply H1|apply H2].
Qed.

#[export] Instance ld_proper : Proper (mem_eq ==> eq ==> eq) ld.
Proof. intros m1 m2 H a b <-. apply H. Qed.

Lemma u8_u8 z : u8 (u8 z) = u8 z.
Proof. apply u8_small, u8_range. Qed.

Lemma ld_range m a : 0 <= ld m a < 256.
Proof. apply u8_range. Qed.
#[export] Hint Resolve ld_range : word.

Lemma ld_st m a v x : ld (st m a v) x = if x =? a then u8 v else ld m x.
Proof. unfold ld, st. destruct (x =? a); [apply u8_u8|reflexivity]. Qed.

Lemma ld_st_same m a v : ld (st m a v) a = u8 v.
Proof. rewrite ld_st, Z.eqb_refl. reflexivity. Qed.

Lemma ld_st_other m a v x : x <> a -> ld (st m a v) x = ld m x.
Proof. intros H. rewrite ld_st. replace (x =? a) with false by lia. reflexivity. Qed.

#[export] Instance st_proper : Proper (mem_eq ==> eq ==> eq ==> mem_eq) st.
Proof. intros m1 m2 H a _ <- v _ <- x. rewrite !ld_st, H. reflexivity. Qed.

(** ** Byte ranges *)

Lemma length_bytes m p n : length (bytes m p n) = n.
Proof. revert p. induction n; intros p; cbn; auto. Qed.

Lemma bytes_lookup m p n i : (i < n)%nat -> bytes m p n !! i = Some (ld m (p + Z.of_nat i)).
Proof.
  revert p i. induction n as [|n IH]; intros p i Hi; [lia|].
  destruct i as [|i]; cbn [bytes lookup list_lookup]; [do 2 f_equal; lia|].
  change (list_lookup i (bytes m (p + 1) n)) with (bytes m (p + 1) n !! i).
  rewrite IH by lia. do 2 f_equal. lia.
Qed.

Lemma bytes_app m p n k : bytes m p (n + k) = bytes m p n ++ bytes m (p + Z.of_nat n) k.
Proof.
  revert p. induction n as [|n IH]; intros p; cbn [bytes app Nat.add].
  - f_equal. lia.
  - rewrite IH. f_equal. f_equal. f_equal. lia.
Qed.

Lemma bytes_ext m1 m2 p n : (forall a, p <= a < p + Z.of_nat n -> ld m1 a = ld m2 a) ->
  bytes m1 p n = bytes m2 p n.
Proof.
  revert p. induction n as [|n IH]; intros p H; [reflexivity|]. cbn [bytes].
  f_equal; [apply H; lia|]. apply IH. intros a Ha. apply H. lia.
Qed.

Lemma bytes_eq_nth m1 p1 m2 p2 n : bytes m1 p1 n = bytes m2 p2 n <->
  forall i, 0 <= i < Z.of_nat n -> ld m1 (p1 + i) = ld m2 (p2 + i).
Proof.
  split.
  - intros H i Hi.
    assert (bytes m1 p1 n !! Z.to_nat i = bytes m2 p2 n !! Z.to_nat i) as E by congruence.
    rewrite !bytes_lookup in E by lia. rewrite !Z2Nat.id in E by lia. congruence.
  - revert p1 p2. induction n as [|n IH]; intros p1 p2 H; [reflexivity|]. cbn [bytes]. f_equal.
    + specialize (H 0 ltac:(lia)). rewrite !Z.add_0_r in H. exact H.
    + apply IH. intros i Hi. specialize (H (1 + i) ltac:(lia)). rewrite !Z.add_assoc in H. exact H.
Qed.

Lemma ld_wr m p l x : ld (wr m p l) x =
  if (p <=? x) && (x <? p + Z.of_nat (length l)) then u8 (nth (Z.to_nat (x - p)) l 0) else ld m x.
Proof.
  revert m p. induction l as [|y l IH]; intros m p; cbn [wr length].
  { replace ((p <=? x) && (x <? p + Z.of_nat 0)) with false by lia. reflexivity. }
  rewrite IH, ld_st. destruct (Z.eqb_spec x p) as [->|Hne].
  - replace ((p + 1 <=? p) && (p <? p + 1 + Z.of_nat (length l))) with false by lia.
    replace ((p <=? p) && (p <? p + Z.of_nat (S (length l)))) with true by lia.
    rewrite Z.sub_diag. reflexivity.
  - destruct ((p <=? x) && (x <? p + Z.of_nat (S (length l)))) eqn:E.
    + replace ((p + 1 <=? x) && (x <? p + 1 + Z.of_nat (length l))) with true by lia.
      replace (Z.to_nat (x - p)) with (S (Z.to_nat (x - (p + 1)))) by lia. reflexivity.
    + replace ((p + 1 <=? x) && (x <? p + 1 + Z.of_nat (length l))) with false by lia. reflexivity.
Qed.

Lemma bytes_wr m p l : Forall (fun c => 0 <= c < 256) l -> bytes (wr m p l) p (length l) = l.
Proof.
  intros H. apply list_eq. intros i. destruct (decide (i < length l)%nat) as [Hi|Hi].
  - rewrite bytes_lookup, ld_wr by exact Hi.
    replace ((p <=? p + Z.of_nat i) && (p + Z.of_nat i <? p + Z.of_nat (length l))) with true by lia.
    replace (Z.to_nat (p + Z.of_nat i - p)) with i by lia.
    destruct (lookup_lt_is_Some_2 l i Hi) as [x Hx]. rewrite Hx.
    rewrite (nth_lookup_Some _ _ _ _ Hx). f_equal. apply u8_small.
    rewrite Forall_lookup in H. exact (H i x Hx).
  - rewrite !lookup_ge_None_2; [reflexivity|lia|rewrite length_bytes; lia].
Qed.

Lemma wr_app m p l1 l2 : wr m p (l1 ++ l2) = wr (wr m p l1) (p + Z.of_nat (length l1)) l2.
Proof.
  revert m p. induction l1 as [|c l1 IH]; intros m p; cbn [app wr length].
  - rewrite Z.add_0_r. reflexivity.
  - rewrite IH. f_equal. lia.
Qed.

#[export] Instance wr_proper : Proper (mem_eq ==> eq ==> eq ==> mem_eq) wr.
Proof. intros m1 m2 H p _ <- l _ <- x. rewrite !ld_wr. case_match; [reflexivity|apply H]. Qed.

Lemma st_st m a x y : mem_eq (st (st m a x) a y) (st m a y).
Proof. intros z. rewrite !ld_st. destruct (z =? a); reflexivity. Qed.

(** ** Words *)

Lemma byte_split b w : 0 <= b < 256 -> Z.land (b + 2 ^ 8 * w) 255 = b /\ Z.shiftr (b + 2 ^ 8 * w) 8 = w.
Proof.
  intros Hb. change 255 with (Z.ones 8). rewrite Z.land_ones, Z.shiftr_div_pow2 by lia.
  rewrite (Z.mul_comm (2 ^ 8)), Z.mod_add, Z.div_add, Z.mod_small, Z.div_small by lia. lia.
Qed.

Lemma ld32_range m a : 0 <= ld32 m a < 2 ^ 32.
Proof.
  unfold ld32. pose proof (ld_range m a). pose proof (ld_range m (a + 1)).
  pose proof (ld_range m (a + 2)). pose proof (ld_range m (a + 3)). lia.
Qed.

Lemma u8_byte b w : 0 <= b < 256 -> u8 (b + 2 ^ 8 * w) = b.
Proof. intros H. unfold u8, wrap. rewrite (Z.mul_comm (2 ^ 8)), Z.mod_add, Z.mod_small by lia. reflexivity. Qed.

(** Copying a word copies its four bytes. *)
Lemma st32_ld32 m1 m a b :
  mem_eq (st32 m1 a (ld32 m b))
    (st (st (st (st m1 a (ld m b)) (a + 1) (ld m (b + 1))) (a + 2) (ld m (b + 2))) (a + 3) (ld m (b + 3))).
Proof.
  intros x. unfold st32, ld32. rewrite !ld_st.
  pose proof (ld_range m b) as H0. pose proof (ld_range m (b + 1)) as H1.
  pose proof (ld_range m (b + 2)) as H2. pose proof (ld_range m (b + 3)) as H3.
  change 24 with (16 + 8). change 16 with (8 + 8). rewrite <- !Z.shiftr_shiftr by lia.
  rewrite !(proj2 (byte_split _ _ H0)), !(proj2 (byte_split _ _ H1)), !(proj2 (byte_split _ _ H2)).
  rewrite !u8_byte by assumption. rewrite !(u8_small (ld _ _)) by assumption. reflexivity.
Qed.

(** ** Strings *)

Lemma cstr_nil m p : cstr m p [] <-> ld m p = 0.
Proof.
  unfold cstr. cbn [length bytes Z.of_nat]. rewrite Z.add_0_r. split; [tauto|]. intros H. auto.
Qed.

Lemma cstr_cons m p c s : cstr m p (c :: s) <-> c <> 0 /\ ld m p = c /\ cstr m (p + 1) s.
Proof.
  unfold cstr. cbn [length bytes]. rewrite Forall_cons.
  replace (p + Z.of_nat (S (length s))) with (p + 1 + Z.of_nat (length s)) by lia. split.
  - intros (E & [Hc Hs] & Hz). injection E as E1 E2. auto.
  - intros (Hc & E & E2 & Hs & Hz). rewrite E, E2. auto.
Qed.

Lemma cstr_nonzero m p s : cstr m p s -> Forall (fun c => c <> 0) s.
Proof. intros (_ & H & _). exact H. Qed.

Lemma cstr_byte m p s i c : cstr m p s -> s !! i = Some c -> ld m (p + Z.of_nat i) = c.
Proof.
  intros (E & _ & _) Hi. assert (bytes m p (length s) !! i = Some c) as H by congruence.
  rewrite bytes_lookup in H by (eapply lookup_lt_Some; exact Hi). congruence.
Qed.

Lemma cstr_bytes_range m p s : cstr m p s -> Forall (fun c => 0 < c < 256) s.
Proof.
  intros H. apply Forall_lookup. intros i c Hi. pose proof (cstr_byte _ _ _ _ _ H Hi) as E.
  destruct H as (_ & Hn & _). rewrite Forall_lookup in Hn. specialize (Hn i c Hi).
  pose proof (ld_range m (p + Z.of_nat i)). cbn beta in Hn. lia.
Qed.

Lemma cstr_ext m1 m2 p s : (forall a, p <= a <= p + Z.of_nat (length s) -> ld m1 a = ld m2 a) ->
  cstr m1 p s -> cstr m2 p s.
Proof.
  intros H (E & Hn & Hz). split; [|split; [exact Hn|]].
  - rewrite <- E at 2. apply bytes_ext. intros a Ha. symmetry. apply H. lia.
  - rewrite <- Hz. symmetry. apply H. lia.
Qed.

Lemma cstr_wr m p s : Forall (fun c => 0 < c < 256) s -> cstr (wr m p (s ++ [0])) p s.
Proof.
  intros Hs. rewrite wr_app. split; [|split]; cbn [wr].
  - rewrite (bytes_ext _ (wr m p s)) by (intros a Ha; apply ld_st_other; lia). apply bytes_wr. eapply Forall_impl; [exact Hs|]. cbn beta. lia.
  - eapply Forall_impl; [exact Hs|]. cbn beta. lia.
  - apply ld_st_same.
Qed.

Lemma cstr_mem_eq m1 m2 p s : mem_eq m1 m2 -> cstr m2 p s -> cstr m1 p s.
Proof. intros H. apply cstr_ext. intros a _. symmetry. apply H. Qed.

(** The string at an address is unique. *)
Lemma cstr_fun m p s1 s2 : cstr m p s1 -> cstr m p s2 -> s1 = s2.
Proof.
  revert p s2. induction s1 as [|c s1 IH]; intros p [|d s2] H1 H2; auto.
  - apply cstr_nil in H1. apply cstr_cons in H2 as (? & ? & _). congruence.
  - apply cstr_nil in H2. apply cstr_cons in H1 as (? & ? & _). congruence.
  - apply cstr_cons in H1 as (_ & E1 & H1). apply cstr_cons in H2 as (_ & E2 & H2).
    f_equal; [congruence|]. exact (IH _ _ H1 H2).
Qed.

(** A memory that holds the list [l] at [p] and NULs elsewhere, for examples. *)
Definition mem_of (p : Z) (l : list Z) : mem := wr (fun _ => 0) p l.
