(* ===== verification/Crc32.v ===== *)
(** * Crc32: the checksum that guards every image

    U-Boot's lib/crc32.c, in the configuration of the board: little-endian,
    static table, no watchdog (the table generator and the watchdog loop are
    modelled too).  [crc32_no_comp] reads the buffer a word at a time once it is
    aligned; it is shown equal to the bit-serial shift register over the bytes. *)

From stdpp Require Import base list.
From Stdlib Require Import ZifyBool.
From S2P Require Import Prelude Cmem.

Module Crc32.

(** ** The code *)

(** [c & 1 ? poly ^ (c >> 1) : c >> 1] *)
Definition crc_step (poly c : Z) : Z :=
  if Z.land c 1 =? 0 then Z.shiftr c 1 else Z.lxor poly (Z.shiftr c 1).

Definition poly_terms : list Z := [0; 1; 2; 4; 5; 7; 8; 10; 11; 12; 16; 22; 23; 26].

(** [make_crc_table]: the polynomial's pattern and the table it generates. *)
Definition poly : Z := fold_left (fun acc p => Z.lor acc (Z.shiftl 1 (31 - p))) poly_terms 0.

Definition make_crc_table : list Z :=
  map (fun n => Nat.iter 8 (crc_step poly) (Z.of_nat n)) (seq 0 256).

(** The table the board's build uses. *)
Definition crc_table : list Z := [
  0x00000000; 0x77073096; 0xee0e612c; 0x990951ba; 0x076dc419; 0x706af48f;
  0xe963a535; 0x9e6495a3; 0x0edb8832; 0x79dcb8a4; 0xe0d5e91e; 0x97d2d988;
  0x09b64c2b; 0x7eb17cbd; 0xe7b82d07; 0x90bf1d91; 0x1db71064; 0x6ab020f2;
  0xf3b97148; 0x84be41de; 0x1adad47d; 0x6ddde4eb; 0xf4d4b551; 0x83d385c7;
  0x136c9856; 0x646ba8c0; 0xfd62f97a; 0x8a65c9ec; 0x14015c4f; 0x63066cd9;
  0xfa0f3d63; 0x8d080df5; 0x3b6e20c8; 0x4c69105e; 0xd56041e4; 0xa2677172;
  0x3c03e4d1; 0x4b04d447; 0xd20d85fd; 0xa50ab56b; 0x35b5a8fa; 0x42b2986c;
  0xdbbbc9d6; 0xacbcf940; 0x32d86ce3; 0x45df5c75; 0xdcd60dcf; 0xabd13d59;
  0x26d930ac; 0x51de003a; 0xc8d75180; 0xbfd06116; 0x21b4f4b5; 0x56b3c423;
  0xcfba9599; 0xb8bda50f; 0x2802b89e; 0x5f058808; 0xc60cd9b2; 0xb10be924;
  0x2f6f7c87; 0x58684c11; 0xc1611dab; 0xb6662d3d; 0x76dc4190; 0x01db7106;
  0x98d220bc; 0xefd5102a; 0x71b18589; 0x06b6b51f; 0x9fbfe4a5; 0xe8b8d433;
  0x7807c9a2; 0x0f00f934; 0x9609a88e; 0xe10e9818; 0x7f6a0dbb; 0x086d3d2d;
  0x91646c97; 0xe6635c01; 0x6b6b51f4; 0x1c6c6162; 0x856530d8; 0xf262004e;
  0x6c0695ed; 0x1b01a57b; 0x8208f4c1; 0xf50fc457; 0x65b0d9c6; 0x12b7e950;
  0x8bbeb8ea; 0xfcb9887c; 0x62dd1ddf; 0x15da2d49; 0x8cd37cf3; 0xfbd44c65;
  0x4db26158; 0x3ab551ce; 0xa3bc0074; 0xd4bb30e2; 0x4adfa541; 0x3dd895d7;
  0xa4d1c46d; 0xd3d6f4fb; 0x4369e96a; 0x346ed9fc; 0xad678846; 0xda60b8d0;
  0x44042d73; 0x33031de5; 0xaa0a4c5f; 0xdd0d7cc9; 0x5005713c; 0x270241aa;
  0xbe0b1010; 0xc90c2086; 0x5768b525; 0x206f85b3; 0xb966d409; 0xce61e49f;
  0x5edef90e; 0x29d9c998; 0xb0d09822; 0xc7d7a8b4; 0x59b33d17; 0x2eb40d81;
  0xb7bd5c3b; 0xc0ba6cad; 0xedb88320; 0x9abfb3b6; 0x03b6e20c; 0x74b1d29a;
  0xead54739; 0x9dd277af; 0x04db2615; 0x73dc1683; 0xe3630b12; 0x94643b84;
  0x0d6d6a3e; 0x7a6a5aa8; 0xe40ecf0b; 0x9309ff9d; 0x0a00ae27; 0x7d079eb1;
  0xf00f9344; 0x8708a3d2; 0x1e01f268; 0x6906c2fe; 0xf762575d; 0x806567cb;
  0x196c3671; 0x6e6b06e7; 0xfed41b76; 0x89d32be0; 0x10da7a5a; 0x67dd4acc;
  0xf9b9df6f; 0x8ebeeff9; 0x17b7be43; 0x60b08ed5; 0xd6d6a3e8; 0xa1d1937e;
  0x38d8c2c4; 0x4fdff252; 0xd1bb67f1; 0xa6bc5767; 0x3fb506dd; 0x48b2364b;
  0xd80d2bda; 0xaf0a1b4c; 0x36034af6; 0x41047a60; 0xdf60efc3; 0xa867df55;
  0x316e8eef; 0x4669be79; 0xcb61b38c; 0xbc66831a; 0x256fd2a0; 0x5268e236;
  0xcc0c7795; 0xbb0b4703; 0x220216b9; 0x5505262f; 0xc5ba3bbe; 0xb2bd0b28;
  0x2bb45a92; 0x5cb36a04; 0xc2d7ffa7; 0xb5d0cf31; 0x2cd99e8b; 0x5bdeae1d;
  0x9b64c2b0; 0xec63f226; 0x756aa39c; 0x026d930a; 0x9c0906a9; 0xeb0e363f;
  0x72076785; 0x05005713; 0x95bf4a82; 0xe2b87a14; 0x7bb12bae; 0x0cb61b38;
  0x92d28e9b; 0xe5d5be0d; 0x7cdcefb7; 0x0bdbdf21; 0x86d3d2d4; 0xf1d4e242;
  0x68ddb3f8; 0x1fda836e; 0x81be16cd; 0xf6b9265b; 0x6fb077e1; 0x18b74777;
  0x88085ae6; 0xff0f6a70; 0x66063bca; 0x11010b5c; 0x8f659eff; 0xf862ae69;
  0x616bffd3; 0x166ccf45; 0xa00ae278; 0xd70dd2ee; 0x4e048354; 0x3903b3c2;
  0xa7672661; 0xd06016f7; 0x4969474d; 0x3e6e77db; 0xaed16a4a; 0xd9d65adc;
  0x40df0b66; 0x37d83bf0; 0xa9bcae53; 0xdebb9ec5; 0x47b2cf7f; 0x30b5ffe9;
  0xbdbdf21c; 0xcabac28a; 0x53b39330; 0x24b4a3a6; 0xbad03605; 0xcdd70693;
  0x54de5729; 0x23d967bf; 0xb3667a2e; 0xc4614ab8; 0x5d681b02; 0x2a6f2b94;
  0xb40bbe37; 0xc30c8ea1; 0x5a05df1b; 0x2d02ef8d].

(** The macro [DO_CRC(x)] with [tab = crc_table]. *)
Definition DO_CRC (crc x : Z) : Z :=
  Z.lxor (nth (Z.to_nat (Z.land (Z.lxor crc x) 255)) crc_table 0) (Z.shiftr crc 8).

Section Run.
Context (m : mem).

(** [do { DO_CRC( *p++ ); } while ((--len) && ((long)p & 3));] *)
Fixpoint align_loop (fuel : nat) (crc p len : Z) : option (Z * Z * Z) :=
  match fuel with
  | O => None
  | S n =>
    let crc := DO_CRC crc (ld m p) in
    let p := p + 1 in
    let len := u32 (len - 1) in
    if negb (len =? 0) && negb (Z.land p 3 =? 0) then align_loop n crc p len
    else Some (crc, p, len)
  end.

(** The word loop, [n] words left at [b]. *)
Fixpoint word_loop (n : nat) (crc b : Z) : Z * Z :=
  match n with
  | O => (crc, b)
  | S n =>
    let crc := Z.lxor crc (ld32 m b) in
    let crc := DO_CRC (DO_CRC (DO_CRC (DO_CRC crc 0) 0) 0) 0 in
    word_loop n crc (b + 4)
  end.

(** The last few bytes. *)
Fixpoint tail_loop (n : nat) (crc p : Z) : Z :=
  match n with
  | O => crc
  | S n => tail_loop n (DO_CRC crc (ld m p)) (p + 1)
  end.

Definition crc32_no_comp (crc buf len : Z) : option Z :=
  match
    (if negb (Z.land buf 3 =? 0) && negb (len =? 0) then align_loop 4 crc buf len
     else Some (crc, buf, len))
  with
  | None => None
  | Some (crc, b, len) =>
    let rem_len := Z.land len 3 in
    let len := Z.shiftr len 2 in
    let (crc, b) := word_loop (Z.to_nat len) crc b in
    Some (if rem_len =? 0 then crc else tail_loop (Z.to_nat rem_len) crc b)
  end.

Definition crc32 (crc p len : Z) : option Z :=
  match crc32_no_comp (Z.lxor crc 0xffffffff) p len with
  | Some c => Some (Z.lxor c 0xffffffff)
  | None => None
  end.

(** Without a watchdog, [crc32_wd] is [crc32]. *)
Definition crc32_wd (crc buf len chunk_sz : Z) : option Z := crc32 crc buf len.

(** The loop of [crc32_wd] in a build with a watchdog; [chunk] is an [int]
    compared as an unsigned number. *)
Fixpoint crc32_wd_loop (fuel : nat) (crc curr end_ chunk_sz : Z) : option Z :=
  match fuel with
  | O => None
  | S n =>
    if curr <? end_ then
      let chunk := end_ - curr in
      let chunk := if chunk_sz <? u32 chunk then sgn 32 chunk_sz else chunk in
      match crc32 crc curr (u32 chunk) with
      | Some crc => crc32_wd_loop n crc (curr + chunk) end_ chunk_sz
      | None => None
      end
    else Some crc
  end.

Definition crc32_wd_watchdog (fuel : nat) (crc buf len chunk_sz : Z) : option Z :=
  crc32_wd_loop fuel crc buf (buf + len) chunk_sz.

(** [crc32_wd_buf]: [htonl] (a byte swap on a little-endian CPU), then [memcpy] of the 4 bytes. *)
Definition swab32 (x : Z) : Z :=
  Z.lor (Z.lor (Z.lor (u32 (Z.shiftl (Z.land x 0x000000ff) 24)) (u32 (Z.shiftl (Z.land x 0x0000ff00) 8)))
    (Z.shiftr (Z.land x 0x00ff0000) 8)) (Z.shiftr (Z.land x 0xff000000) 24).

Definition crc32_wd_buf (input ilen output chunk_sz : Z) : option mem :=
  match crc32_wd 0 input ilen chunk_sz with
  | Some crc => Some (st32 m output (swab32 crc))
  | None => None
  end.

End Run.

(** ** The reference: a shift register fed bit by bit *)

Definition crc_byte (crc b : Z) : Z := Nat.iter 8 (crc_step poly) (Z.lxor crc b).

Definition crc_reference (crc : Z) (data : list Z) : Z := fold_left crc_byte data crc.

(** ** Lemmas *)

Lemma table_generated : make_crc_table = crc_table.
Proof. vm_compute. reflexivity. Qed.

Lemma crc_step_alt c : crc_step poly c = Z.lxor (Z.shiftr c 1) (if Z.testbit c 0 then poly else 0).
Proof.
  unfold crc_step. change 1 with (Z.ones 1) at 1. rewrite Z.land_ones, Z.pow_1_r, Zmod_odd, Z.bit0_odd by lia.
  destruct (Z.odd c); cbn [Z.eqb]; [apply Z.lxor_comm|]. rewrite Z.lxor_0_r. reflexivity.
Qed.

Lemma lxor_4 a b c d : Z.lxor (Z.lxor a b) (Z.lxor c d) = Z.lxor (Z.lxor a c) (Z.lxor b d).
Proof. rewrite !Z.lxor_assoc. f_equal. rewrite <- !Z.lxor_assoc. f_equal. apply Z.lxor_comm. Qed.

(** The register is linear over exclusive or. *)
Lemma crc_step_lxor a b : crc_step poly (Z.lxor a b) = Z.lxor (crc_step poly a) (crc_step poly b).
Proof.
  rewrite !crc_step_alt, Z.shiftr_lxor, Z.lxor_spec, lxor_4. f_equal.
  destruct (Z.testbit a 0), (Z.testbit b 0); cbn [xorb];
    rewrite ?Z.lxor_nilpotent, ?Z.lxor_0_r, ?Z.lxor_0_l; reflexivity.
Qed.

Lemma iter_lxor n a b :
  Nat.iter n (crc_step poly) (Z.lxor a b) =
    Z.lxor (Nat.iter n (crc_step poly) a) (Nat.iter n (crc_step poly) b).
Proof. induction n as [|n IH]; [reflexivity|]. rewrite !Nat.iter_succ, IH. apply crc_step_lxor. Qed.

Lemma crc_step_shiftl y : crc_step poly (Z.shiftl y 1) = y.
Proof.
  rewrite crc_step_alt, Z.shiftr_shiftl_l, Z.shiftl_0_r, Z.shiftl_spec_low, Z.lxor_0_r by lia. reflexivity.
Qed.

Lemma iter_shiftl n y : Nat.iter n (crc_step poly) (Z.shiftl y (Z.of_nat n)) = y.
Proof.
  revert y. induction n as [|n IH]; intros y; [apply Z.shiftl_0_r|].
  rewrite Nat.iter_succ_r. replace (Z.of_nat (S n)) with (Z.of_nat n + 1) by lia.
  rewrite <- Z.shiftl_shiftl by lia. rewrite crc_step_shiftl. apply IH.
Qed.

Lemma split_low c : c = Z.lxor (Z.land c 255) (Z.shiftl (Z.shiftr c 8) 8).
Proof.
  bitwise i Hi. change 255 with (Z.ones 8). rewrite Z.testbit_ones_nonneg by lia.
  destruct (Z.ltb_spec i 8) as [H|H].
  - rewrite Z.shiftl_spec_low, andb_true_r, xorb_false_r by lia. reflexivity.
  - rewrite Z.shiftl_spec, Z.shiftr_spec by lia. replace (i - 8 + 8) with i by lia.
    rewrite andb_false_r, xorb_false_l. reflexivity.
Qed.

Lemma land_255_range z : 0 <= Z.land z 255 < 256.
Proof. change 255 with (Z.ones 8). rewrite Z.land_ones by lia. apply Z.mod_pos_bound. lia. Qed.

Lemma table_entry z : 0 <= z < 256 -> nth (Z.to_nat z) crc_table 0 = Nat.iter 8 (crc_step poly) z.
Proof.
  intros Hz. rewrite <- table_generated. unfold make_crc_table.
  rewrite (nth_indep _ 0 (Nat.iter 8 (crc_step poly) (Z.of_nat 0))), (map_nth (fun n => Nat.iter 8 (crc_step poly) (Z.of_nat n)))
    by (rewrite length_map, length_seq; lia).
  rewrite seq_nth by lia. f_equal. lia.
Qed.

(** One table step is eight steps of the register. *)
Lemma DO_CRC_byte crc x : 0 <= x < 256 -> DO_CRC crc x = crc_byte crc x.
Proof.
  intros Hx. unfold DO_CRC, crc_byte. rewrite table_entry by apply land_255_range.
  rewrite (split_low (Z.lxor crc x)) at 2. rewrite iter_lxor. f_equal.
  change 8 with (Z.of_nat 8) at 3. rewrite iter_shiftl, Z.shiftr_lxor.
  rewrite (Z.shiftr_div_pow2 x), Z.div_small, Z.lxor_0_r by lia. reflexivity.
Qed.

(** Xoring a word into the register and stepping feeds its low byte and leaves
    the rest to be fed. *)
Lemma DO_CRC_word crc b w : 0 <= b < 256 -> 0 <= w ->
  DO_CRC (Z.lxor crc (b + 2 ^ 8 * w)) 0 = Z.lxor (DO_CRC crc b) w.
Proof.
  intros Hb Hw. unfold DO_CRC. rewrite Z.lxor_0_r, Z.shiftr_lxor.
  destruct (byte_split b w Hb) as [H1 H2]. rewrite H2, <- Z.lxor_assoc. f_equal. f_equal.
  f_equal. f_equal. bitwise i Hi. rewrite <- H1 at 2. rewrite Z.land_spec.
  destruct (Z.testbit 255 i); [|rewrite !andb_false_r; reflexivity].
  rewrite !andb_true_r. reflexivity.
Qed.

Section Correct.
Context (m : mem).

Lemma word_step crc a :
  DO_CRC (DO_CRC (DO_CRC (DO_CRC (Z.lxor crc (ld32 m a)) 0) 0) 0) 0 = crc_reference crc (bytes m a 4).
Proof.
  unfold ld32, crc_reference. cbn [bytes fold_left].
  replace (a + 1 + 1) with (a + 2) by lia. replace (a + 2 + 1) with (a + 3) by lia.
  pose proof (ld_range m a). pose proof (ld_range m (a + 1)).
  pose proof (ld_range m (a + 2)). pose proof (ld_range m (a + 3)).
  rewrite <- !DO_CRC_byte by assumption.
  rewrite DO_CRC_word by lia. rewrite DO_CRC_word by lia. rewrite DO_CRC_word by lia.
  replace (ld m (a + 3)) with (ld m (a + 3) + 2 ^ 8 * 0) at 1 by lia.
  rewrite DO_CRC_word, Z.lxor_0_r by lia. reflexivity.
Qed.

Lemma reference_app crc l1 l2 : crc_reference crc (l1 ++ l2) = crc_reference (crc_reference crc l1) l2.
Proof. apply fold_left_app. Qed.

Lemma word_loop_spec n crc b :
  word_loop m n crc b = (crc_reference crc (bytes m b (4 * n)), b + 4 * Z.of_nat n).
Proof.
  revert crc b. induction n as [|n IH]; intros crc b; cbn [word_loop].
  - cbn [Nat.mul bytes]. f_equal. lia.
  - rewrite IH, word_step. replace (4 * S n)%nat with (4 + 4 * n)%nat by lia.
    rewrite bytes_app, reference_app. f_equal. lia.
Qed.

Lemma tail_loop_spec n crc p : tail_loop m n crc p = crc_reference crc (bytes m p n).
Proof.
  revert crc p. induction n as [|n IH]; intros crc p; cbn [tail_loop bytes]; [reflexivity|].
  rewrite IH, DO_CRC_byte by apply ld_range. reflexivity.
Qed.

Lemma land_3 p : Z.land p 3 = p mod 4.
Proof. change 3 with (Z.ones 2). apply Z.land_ones. lia. Qed.

Lemma some_triple {A B C} (a a' : A) (b b' : B) (c c' : C) :
  a = a' -> b = b' -> c = c' -> Some (a, b, c) = Some (a', b', c').
Proof. congruence. Qed.

(** The alignment loop runs at most three times and feeds what it skips. *)
Lemma align_loop_spec fuel crc p len : 0 < len < 2 ^ 32 -> 4 - p mod 4 <= Z.of_nat fuel -> p mod 4 <> 0 ->
  exists k, align_loop m fuel crc p len
    = Some (crc_reference crc (bytes m p k), p + Z.of_nat k, len - Z.of_nat k) /\ Z.of_nat k <= len.
Proof.
  revert crc p len. induction fuel as [|fuel IH]; intros crc p len Hlen Hf Hp.
  { pose proof (Z.mod_pos_bound p 4). lia. }
  cbn [align_loop]. rewrite DO_CRC_byte by apply ld_range. rewrite u32_small, land_3 by lia.
  destruct (Z.eqb_spec (len - 1) 0) as [Hl|Hl]; cbn [negb andb].
  { exists 1%nat. split; [|lia]. reflexivity. }
  destruct (Z.eqb_spec ((p + 1) mod 4) 0) as [Ha|Ha]; cbn [negb].
  { exists 1%nat. split; [|lia]. reflexivity. }
  destruct (IH (crc_byte crc (ld m p)) (p + 1) (len - 1)) as (k & E & Hk); try lia.
  { pose proof (Z.mod_pos_bound p 4). rewrite Z.add_mod in Ha |- * by lia. change (1 mod 4) with 1 in *.
    destruct (Z.eq_dec (p mod 4) 3) as [E3|]; [rewrite E3 in Ha; contradiction|].
    rewrite Z.mod_small in Ha |- * by lia. lia. }
  exists (S k). rewrite E. split; [|lia]. apply some_triple; [reflexivity|lia..].
Qed.

Lemma crc32_no_comp_spec crc buf len : 0 <= len < 2 ^ 32 ->
  crc32_no_comp m crc buf len = Some (crc_reference crc (bytes m buf (Z.to_nat len))).
Proof.
  intros Hlen. unfold crc32_no_comp. rewrite land_3.
  assert (exists k, (if negb (buf mod 4 =? 0) && negb (len =? 0) then align_loop m 4 crc buf len
     else Some (crc, buf, len)) = Some (crc_reference crc (bytes m buf k), buf + Z.of_nat k, len - Z.of_nat k)
     /\ Z.of_nat k <= len) as (k & E & Hk).
  { destruct (Z.eqb_spec (buf mod 4) 0) as [Ha|Ha]; cbn [negb andb];
      [exists 0%nat; split; [apply some_triple; [reflexivity|lia..]|lia]|].
    destruct (Z.eqb_spec len 0) as [->|Hl]; cbn [negb];
      [exists 0%nat; split; [apply some_triple; [reflexivity|lia..]|lia]|].
    pose proof (Z.mod_pos_bound buf 4). apply align_loop_spec; lia. }
  rewrite E. rewrite word_loop_spec, land_3. 
  assert (exists rest, rest = len - Z.of_nat k) as (rest & Hrest) by eauto. rewrite <- Hrest.
  rewrite Z.shiftr_div_pow2 by lia. change (2 ^ 2) with 4.
  set (n := Z.to_nat (rest / 4)). set (r := Z.to_nat (rest mod 4)).
  assert (Z.of_nat n = rest / 4) as Hn by (unfold n; rewrite Z2Nat.id; [reflexivity|apply Z.div_pos; lia]).
  pose proof (Z.mod_pos_bound rest 4) as Hr4.
  assert (Z.to_nat len = k + (4 * n + r))%nat as ->.
  { pose proof (Z.div_mod rest 4 ltac:(lia)). unfold r. lia. }
  rewrite !bytes_app, !reference_app. f_equal.
  replace (buf + Z.of_nat k + Z.of_nat (4 * n)) with (buf + Z.of_nat k + 4 * Z.of_nat n) by lia.
  destruct (Z.eqb_spec (rest mod 4) 0) as [H0|H0]; [|apply tail_loop_spec].
  replace r with 0%nat by (unfold r; lia). reflexivity.
Qed.

(** The checksum of a list of bytes as [crc32] defines it. *)
Definition checksum (crc : Z) (data : list Z) : Z :=
  Z.lxor (crc_reference (Z.lxor crc 0xffffffff) data) 0xffffffff.

Lemma crc32_spec crc buf len : 0 <= len < 2 ^ 32 ->
  crc32 m crc buf len = Some (checksum crc (bytes m buf (Z.to_nat len))).
Proof. intros H. unfold crc32. rewrite crc32_no_comp_spec by exact H. reflexivity. Qed.

Lemma checksum_app crc l1 l2 : checksum (checksum crc l1) l2 = checksum crc (l1 ++ l2).
Proof.
  unfold checksum. rewrite reference_app, Z.lxor_assoc, Z.lxor_nilpotent, Z.lxor_0_r. reflexivity.
Qed.

Lemma checksum_nil crc : checksum crc [] = crc.
Proof. unfold checksum. cbn. rewrite Z.lxor_assoc, Z.lxor_nilpotent, Z.lxor_0_r. reflexivity. Qed.

Lemma crc32_wd_loop_spec chunk_sz fuel crc curr n : 0 < chunk_sz < 2 ^ 31 -> Z.of_nat n < 2 ^ 31 ->
  (n < fuel)%nat ->
  crc32_wd_loop m fuel crc curr (curr + Z.of_nat n) chunk_sz = Some (checksum crc (bytes m curr n)).
Proof.
  intros Hc. revert crc curr n. induction fuel as [|fuel IH]; intros crc curr n Hn Hf; [lia|].
  cbn [crc32_wd_loop]. destruct n as [|n].
  { replace (curr <? curr + Z.of_nat 0) with false by lia. rewrite checksum_nil. reflexivity. }
  replace (curr <? curr + Z.of_nat (S n)) with true by lia.
  replace (curr + Z.of_nat (S n) - curr) with (Z.of_nat (S n)) by lia.
  assert (sgn 32 chunk_sz = chunk_sz) as Hsg.
  { unfold sgn. change (wrap 32 chunk_sz) with (u32 chunk_sz). rewrite u32_small by lia.
    replace (chunk_sz <? 2 ^ (32 - 1)) with true by lia. reflexivity. }
  rewrite (u32_small (Z.of_nat (S n))), Hsg by lia.
  assert (exists k, (if chunk_sz <? Z.of_nat (S n) then chunk_sz else Z.of_nat (S n)) = Z.of_nat k /\ (0 < k <= S n)%nat)
    as (k & -> & Hk).
  { destruct (Z.ltb_spec chunk_sz (Z.of_nat (S n))); [exists (Z.to_nat chunk_sz)|exists (S n)]; lia. }
  rewrite u32_small, crc32_spec, Nat2Z.id by lia.
  replace (curr + Z.of_nat (S n)) with (curr + Z.of_nat k + Z.of_nat (S n - k)) by lia.
  rewrite IH, checksum_app, <- bytes_app by lia. do 3 f_equal. lia.
Qed.

End Correct.

(** *** The register loses nothing *)

Lemma poly_value : poly = 0xedb88320.
Proof. reflexivity. Qed.

Lemma crc_step_range c : 0 <= c < 2 ^ 32 -> 0 <= crc_step poly c < 2 ^ 32.
Proof.
  intros Hc. rewrite crc_step_alt. apply (lxor_range 32); [lia|apply shiftr_range; unfold in_range; lia|].
  destruct (Z.testbit c 0); rewrite ?poly_value; unfold in_range; lia.
Qed.

Lemma crc_step_top c : 0 <= c < 2 ^ 32 -> Z.testbit (crc_step poly c) 31 = Z.testbit c 0.
Proof.
  intros Hc. rewrite crc_step_alt, Z.lxor_spec, Z.shiftr_spec by lia.
  replace (Z.testbit c (31 + 1)) with false; [destruct (Z.testbit c 0); reflexivity|].
  symmetry. change (31 + 1) with 32. destruct (Z.eq_dec c 0) as [->|]; [reflexivity|].
  apply Z.bits_above_log2; [lia|]. apply Z.log2_lt_pow2; lia.
Qed.

Lemma crc_step_inj a b : 0 <= a < 2 ^ 32 -> 0 <= b < 2 ^ 32 -> crc_step poly a = crc_step poly b -> a = b.
Proof.
  intros Ha Hb E. assert (Z.testbit a 0 = Z.testbit b 0) as H0
    by (rewrite <- !crc_step_top by assumption; congruence).
  rewrite !crc_step_alt, H0 in E. set (k := if Z.testbit b 0 then poly else 0) in E.
  assert (Z.shiftr a 1 = Z.shiftr b 1) as H1.
  { rewrite <- (Z.lxor_0_r (Z.shiftr a 1)), <- (Z.lxor_0_r (Z.shiftr b 1)), <- (Z.lxor_nilpotent k),
      <- !Z.lxor_assoc. congruence. }
  apply Z.bits_inj'. intros i Hi. destruct (Z.eq_dec i 0) as [->|]; [exact H0|].
  replace i with (i - 1 + 1) by lia. rewrite <- !Z.shiftr_spec by lia. congruence.
Qed.

Lemma iter_range n c : 0 <= c < 2 ^ 32 -> 0 <= Nat.iter n (crc_step poly) c < 2 ^ 32.
Proof. induction n; intros; [assumption|]. rewrite Nat.iter_succ. apply crc_step_range. auto. Qed.

Lemma iter_inj n a b : 0 <= a < 2 ^ 32 -> 0 <= b < 2 ^ 32 ->
  Nat.iter n (crc_step poly) a = Nat.iter n (crc_step poly) b -> a = b.
Proof.
  induction n as [|n IH]; intros Ha Hb E; [exact E|]. rewrite !Nat.iter_succ in E.
  apply IH; auto. apply crc_step_inj in E; auto using iter_range.
Qed.

Lemma lxor_cancel_l a b c : Z.lxor a b = Z.lxor a c -> b = c.
Proof.
  intros E. rewrite <- (Z.lxor_0_l b), <- (Z.lxor_0_l c), <- (Z.lxor_nilpotent a), !Z.lxor_assoc. congruence.
Qed.

Lemma lxor_byte_range c b : 0 <= c < 2 ^ 32 -> 0 <= b < 256 -> 0 <= Z.lxor c b < 2 ^ 32.
Proof. intros. apply (lxor_range 32); unfold in_range; lia. Qed.

Lemma reference_range data : forall crc, 0 <= crc < 2 ^ 32 -> Forall (fun b => 0 <= b < 256) data ->
  0 <= crc_reference crc data < 2 ^ 32.
Proof.
  induction data as [|b data IH]; intros crc Hc Hd; [exact Hc|]. apply Forall_cons in Hd as [Hb Hd].
  cbn [crc_reference fold_left]. apply IH; [|exact Hd]. apply iter_range, lxor_byte_range; assumption.
Qed.

Lemma reference_inj data : forall c1 c2, 0 <= c1 < 2 ^ 32 -> 0 <= c2 < 2 ^ 32 ->
  Forall (fun b => 0 <= b < 256) data -> crc_reference c1 data = crc_reference c2 data -> c1 = c2.
Proof.
  induction data as [|b data IH]; intros c1 c2 H1 H2 Hd E; [exact E|]. apply Forall_cons in Hd as [Hb Hd].
  cbn [crc_reference fold_left] in E.
  apply IH in E; auto; try (apply iter_range, lxor_byte_range; assumption).
  apply iter_inj in E; auto using lxor_byte_range.
  rewrite !(Z.lxor_comm _ b) in E. exact (lxor_cancel_l _ _ _ E).
Qed.

Lemma bytes_byte_range m p n : Forall (fun b => 0 <= b < 256) (bytes m p n).
Proof. revert p. induction n; intros p; cbn [bytes]; constructor; auto. apply ld_range. Qed.

Lemma checksum_detects c l1 l2 x y : 0 <= c < 2 ^ 32 -> 0 <= x < 256 -> 0 <= y < 256 ->
  Forall (fun b => 0 <= b < 256) l1 -> Forall (fun b => 0 <= b < 256) l2 ->
  checksum c (l1 ++ x :: l2) = checksum c (l1 ++ y :: l2) -> x = y.
Proof.
  intros Hc Hx Hy H1 H2 E. unfold checksum in E.
  rewrite !(Z.lxor_comm _ 0xffffffff) in E. apply lxor_cancel_l in E. rewrite !reference_app in E.
  set (c0 := crc_reference _ l1) in E.
  assert (0 <= c0 < 2 ^ 32) as H0
    by (apply reference_range; [apply (lxor_range 32); unfold in_range; lia|exact H1]).
  cbn [crc_reference fold_left] in E.
  apply reference_inj in E; auto; try (apply iter_range, lxor_byte_range; assumption).
  apply iter_inj in E; auto using lxor_byte_range. exact (lxor_cancel_l _ _ _ E).
Qed.

(** ** The properties *)

(** C39: [crc32], with its alignment prologue, table look-ups and word-wide loop, is
    the bit-serial CRC-32 of the buffer's bytes, for every buffer address and
    length. *)
Theorem crc32_correct m crc buf len : 0 <= len < 2 ^ 32 ->
  crc32 m crc buf len =
    Some (Z.lxor (fold_left (fun c b => Nat.iter 8 (crc_step 0xedb88320) (Z.lxor c b))
                   (bytes m buf (Z.to_nat len)) (Z.lxor crc 0xffffffff)) 0xffffffff).
Proof. intros H. rewrite (crc32_spec m crc buf len H), <- poly_value. reflexivity. Qed.

Lemma crc32_correct_witness :
  crc32 (mem_of 0x1001 [49; 50; 51; 52; 53; 54; 55; 56; 57]) 0 0x1001 9 = Some 0xcbf43926.
Proof. rewrite (crc32_correct _ 0 0x1001 9) by lia. vm_compute. reflexivity. Defined.

(** The static table is the one [make_crc_table] generates. *)
Theorem crc_table_static : make_crc_table = crc_table.
Proof. exact table_generated. Qed.

(** Feeding the buffer in chunks of any positive size, as the watchdog build
    does, gives the checksum of the whole buffer, and the loop terminates within
    one turn per byte. *)
Theorem crc32_wd_chunks m crc buf len chunk_sz :
  0 <= len < 2 ^ 31 -> 0 < chunk_sz < 2 ^ 31 ->
  crc32_wd_watchdog m (S (Z.to_nat len)) crc buf len chunk_sz = crc32_wd m crc buf len chunk_sz.
Proof.
  intros Hl Hc. unfold crc32_wd_watchdog, crc32_wd. rewrite crc32_spec by lia.
  rewrite <- (Z2Nat.id len) at 2 by lia. apply crc32_wd_loop_spec; lia.
Qed.

Lemma crc32_wd_chunks_witness :
  crc32_wd_watchdog (mem_of 0x1000 [1; 2; 3; 4; 5; 6; 7]) 8 0 0x1000 7 3 =
  crc32_wd (mem_of 0x1000 [1; 2; 3; 4; 5; 6; 7]) 0 0x1000 7 3.
Proof. apply (crc32_wd_chunks (mem_of 0x1000 [1; 2; 3; 4; 5; 6; 7]) 0 0x1000 7 3); lia. Defined.

(** Changing one byte of the buffer changes the checksum. *)
Theorem crc32_detects_byte m crc buf len a v :
  0 <= len < 2 ^ 32 -> 0 <= crc < 2 ^ 32 -> buf <= a < buf + len -> u8 v <> ld m a ->
  crc32 (st m a v) crc buf len <> crc32 m crc buf len.
Proof.
  intros Hl Hc Ha Hv. rewrite !crc32_spec by exact Hl. intros [= E]. apply Hv.
  set (i := Z.to_nat (a - buf)). set (k := Z.to_nat (buf + len - (a + 1))).
  assert (forall m', (forall x, x <> a -> ld m' x = ld m x) ->
    bytes m' buf (Z.to_nat len) = bytes m buf i ++ ld m' a :: bytes m (a + 1) k) as Hsplit.
  { intros m' Hm. replace (Z.to_nat len) with (i + (1 + k))%nat by lia. rewrite !bytes_app.
    cbn [bytes app]. f_equal; [apply bytes_ext; intros; apply Hm; lia|].
    replace (buf + Z.of_nat i) with a by lia. f_equal.
    replace (a + Z.of_nat 1) with (a + 1) by lia. apply bytes_ext. intros. apply Hm. lia. }
  rewrite (Hsplit m), (Hsplit (st m a v)) in E by (intros; auto using ld_st_other).
  apply checksum_detects in E; auto using bytes_byte_range, ld_range. rewrite ld_st_same in E. exact E.
Qed.

Lemma crc32_detects_byte_witness :
  crc32 (st (mem_of 0x1000 [1; 2; 3; 4; 5]) 0x1002 9) 0 0x1000 5 <> crc32 (mem_of 0x1000 [1; 2; 3; 4; 5]) 0 0x1000 5.
Proof.
  apply (crc32_detects_byte (mem_of 0x1000 [1; 2; 3; 4; 5]) 0 0x1000 5 0x1002 9); try lia.
  vm_compute. discriminate.
Defined.

End Crc32.
