(* ===== verification/Ctype.v ===== *)
(** * Ctype: character classes

    U-Boot's include/linux/ctype.h and lib/ctype.c: a table of class bits
    indexed by the unsigned character, and the macros that test it. *)

From stdpp Require Import base list.
From Stdlib Require Import ZifyBool.
From S2P Require Import Prelude.

Module Ctype.

Definition _U : Z := 0x01.
Definition _L : Z := 0x02.
Definition _D : Z := 0x04.
Definition _C : Z := 0x08.
Definition _P : Z := 0x10.
Definition _S : Z := 0x20.
Definition _X : Z := 0x40.
Definition _SP : Z := 0x80.

Notation "a .| b" := (Z.lor a b) (at level 50, left associativity).

Definition _ctype : list Z := [
  _C; _C; _C; _C; _C; _C; _C; _C;
  _C; _C.|_S; _C.|_S; _C.|_S; _C.|_S; _C.|_S; _C; _C;
  _C; _C; _C; _C; _C; _C; _C; _C;
  _C; _C; _C; _C; _C; _C; _C; _C;
  _S.|_SP; _P; _P; _P; _P; _P; _P; _P;
  _P; _P; _P; _P; _P; _P; _P; _P;
  _D; _D; _D; _D; _D; _D; _D; _D;
  _D; _D; _P; _P; _P; _P; _P; _P;
  _P; _U.|_X; _U.|_X; _U.|_X; _U.|_X; _U.|_X; _U.|_X; _U;
  _U; _U; _U; _U; _U; _U; _U; _U;
  _U; _U; _U; _U; _U; _U; _U; _U;
  _U; _U; _U; _P; _P; _P; _P; _P;
  _P; _L.|_X; _L.|_X; _L.|_X; _L.|_X; _L.|_X; _L.|_X; _L;
  _L; _L; _L; _L; _L; _L; _L; _L;
  _L; _L; _L; _L; _L; _L; _L; _L;
  _L; _L; _L; _P; _P; _P; _P; _C;
  0; 0; 0; 0; 0; 0; 0; 0; 0; 0; 0; 0; 0; 0; 0; 0;
  0; 0; 0; 0; 0; 0; 0; 0; 0; 0; 0; 0; 0; 0; 0; 0;
  _S.|_SP; _P; _P; _P; _P; _P; _P; _P; _P; _P; _P; _P; _P; _P; _P; _P;
  _P; _P; _P; _P; _P; _P; _P; _P; _P; _P; _P; _P; _P; _P; _P; _P;
  _U; _U; _U; _U; _U; _U; _U; _U; _U; _U; _U; _U; _U; _U; _U; _U;
  _U; _U; _U; _U; _U; _U; _U; _P; _U; _U; _U; _U; _U; _U; _U; _L;
  _L; _L; _L; _L; _L; _L; _L; _L; _L; _L; _L; _L; _L; _L; _L; _L;
  _L; _L; _L; _L; _L; _L; _L; _P; _L; _L; _L; _L; _L; _L; _L; _L].

Definition __ismask (x : Z) : Z := nth (Z.to_nat (u8 x)) _ctype 0.

Definition isalnum (c : Z) : bool := negb (Z.land (__ismask c) (_U .| _L .| _D) =? 0).
Definition isalpha (c : Z) : bool := negb (Z.land (__ismask c) (_U .| _L) =? 0).
Definition iscntrl (c : Z) : bool := negb (Z.land (__ismask c) _C =? 0).
Definition isdigit (c : Z) : bool := negb (Z.land (__ismask c) _D =? 0).
Definition isgraph (c : Z) : bool := negb (Z.land (__ismask c) (_P .| _U .| _L .| _D) =? 0).
Definition islower (c : Z) : bool := negb (Z.land (__ismask c) _L =? 0).
Definition isprint (c : Z) : bool := negb (Z.land (__ismask c) (_P .| _U .| _L .| _D .| _SP) =? 0).
Definition ispunct (c : Z) : bool := negb (Z.land (__ismask c) _P =? 0).
Definition isspace (c : Z) : bool := negb (Z.land (__ismask c) _S =? 0).
Definition isupper (c : Z) : bool := negb (Z.land (__ismask c) _U =? 0).
Definition isxdigit (c : Z) : bool := negb (Z.land (__ismask c) (_D .| _X) =? 0).
Definition isblank (c : Z) : bool := (c =? 32) || (c =? 9).
Definition isascii (c : Z) : bool := u8 c <=? 0x7f.
Definition toascii (c : Z) : Z := Z.land (u8 c) 0x7f.

(** [c -= 'A' - 'a'] and [c -= 'a' - 'A'] on an [unsigned char]. *)
Definition __tolower (c : Z) : Z := if isupper c then u8 (c - (65 - 97)) else c.
Definition __toupper (c : Z) : Z := if islower c then u8 (c - (97 - 65)) else c.
Definition tolower (c : Z) : Z := __tolower (u8 c).
Definition toupper (c : Z) : Z := __toupper (u8 c).

(** ** The table agrees with the ranges *)

(** A statement about all bytes, decided by evaluation. *)
Definition all_bytes (f : Z -> bool) : bool := forallb (fun n => f (Z.of_nat n)) (seq 0 256).

Lemma all_bytes_spec f c : all_bytes f = true -> 0 <= c < 256 -> f c = true.
Proof.
  intros H Hc. unfold all_bytes in H. rewrite forallb_forall in H.
  specialize (H (Z.to_nat c)). rewrite Z2Nat.id in H by lia. apply H, in_seq. lia.
Qed.

Ltac by_bytes f Hc :=
  let H := fresh in pose proof (all_bytes_spec f _ ltac:(vm_compute; reflexivity) Hc) as H;
  cbn beta in H; lia.

Lemma isdigit_spec c : 0 <= c < 256 -> isdigit c = (48 <=? c) && (c <=? 57).
Proof. intros Hc. by_bytes (fun c => Bool.eqb (isdigit c) ((48 <=? c) && (c <=? 57))) Hc. Qed.

Lemma isxdigit_spec c : 0 <= c < 256 -> isxdigit c =
  ((48 <=? c) && (c <=? 57)) || ((65 <=? c) && (c <=? 70)) || ((97 <=? c) && (c <=? 102)).
Proof.
  intros Hc. by_bytes (fun c => Bool.eqb (isxdigit c)
    (((48 <=? c) && (c <=? 57)) || ((65 <=? c) && (c <=? 70)) || ((97 <=? c) && (c <=? 102)))) Hc.
Qed.

(** In the ASCII half, the cases are the letters; the Latin-1 half has its own
    letters and [tolower] maps those too. *)
Lemma tolower_ascii c : 0 <= c < 128 -> tolower c = if (65 <=? c) && (c <=? 90) then c + 32 else c.
Proof.
  intros Hc. assert (0 <= c < 256) as H by lia.
  by_bytes (fun c => (128 <=? c) || (tolower c =? if (65 <=? c) && (c <=? 90) then c + 32 else c)) H.
Qed.

Lemma toupper_ascii c : 0 <= c < 128 -> toupper c = if (97 <=? c) && (c <=? 122) then c - 32 else c.
Proof.
  intros Hc. assert (0 <= c < 256) as H by lia.
  by_bytes (fun c => (128 <=? c) || (toupper c =? if (97 <=? c) && (c <=? 122) then c - 32 else c)) H.
Qed.

Lemma tolower_idem c : tolower (tolower c) = tolower c.
Proof.
  assert (tolower c = tolower (u8 c)) as -> by (unfold tolower; rewrite (u8_small (u8 c)) by apply u8_range; reflexivity).
  pose proof (u8_range c) as Hc. by_bytes (fun c => tolower (tolower c) =? tolower c) Hc.
Qed.

Lemma tolower_range c : 0 <= tolower c < 256.
Proof.
  unfold tolower, __tolower. destruct (isupper (u8 c)); apply u8_range.
Qed.

(** No character other than NUL is mapped to NUL. *)
Lemma tolower_zero c : 0 <= c < 256 -> tolower c = 0 -> c = 0.
Proof. intros Hc. by_bytes (fun c => negb (tolower c =? 0) || (c =? 0)) Hc. Qed.

End Ctype.
