(* ===== verification/CString.v ===== *)
(** * CString: the boot loader's string and memory routines

    U-Boot's lib/string.c.  Loops over strings take a fuel argument, [None] when
    it runs out; loops that count a [size_t] down are structural in the count.
    [NULL] is 0.  On the board, [memcpy] and [memset] also have assembler
    versions; the C versions are the ones modelled. *)

From stdpp Require Import base list option.
From Stdlib Require Import ZifyBool.
From S2P Require Import Prelude Cmem Ctype.

Module CString.
Import Ctype.

Definition NULL : Z := 0.

Section Read.
Context (m : mem).

(** ** Lengths and comparison *)

Fixpoint strlen_loop (fuel : nat) (sc : Z) : option Z :=
  match fuel with
  | O => None
  | S n => if ld m sc =? 0 then Some sc else strlen_loop n (sc + 1)
  end.

Definition strlen (fuel : nat) (s : Z) : option Z := sc ← strlen_loop fuel s; Some (sc - s).

Fixpoint strnlen_loop (count : nat) (sc : Z) : Z :=
  match count with
  | O => sc
  | S n => if ld m sc =? 0 then sc else strnlen_loop n (sc + 1)
  end.

Definition strnlen (s count : Z) : Z := strnlen_loop (Z.to_nat count) s - s.

Fixpoint strncasecmp_loop (fuel : nat) (s1 s2 len : Z) : option Z :=
  match fuel with
  | O => None
  | S n =>
    let c1 := ld m s1 in
    let c2 := ld m s2 in
    let s1 := s1 + 1 in
    let s2 := s2 + 1 in
    if c1 =? 0 then Some (c1 - c2) else
    if c2 =? 0 then Some (c1 - c2) else
    let len := u32 (len - 1) in
    if c1 =? c2 then
      if len =? 0 then Some (c1 - c2) else strncasecmp_loop n s1 s2 len
    else
      let c1 := tolower c1 in
      let c2 := tolower c2 in
      if negb (c1 =? c2) then Some (c1 - c2) else
      if len =? 0 then Some (c1 - c2) else strncasecmp_loop n s1 s2 len
  end.

Definition strncasecmp (fuel : nat) (s1 s2 len : Z) : option Z :=
  if len =? 0 then Some 0 else strncasecmp_loop fuel s1 s2 len.

Definition strcasecmp (fuel : nat) (s1 s2 : Z) : option Z := strncasecmp fuel s1 s2 (u32 (-1)).

(** [__res] is a [signed char]. *)
Fixpoint strcmp (fuel : nat) (cs ct : Z) : option Z :=
  match fuel with
  | O => None
  | S n =>
    let __res := sgn 8 (ld m cs - ld m ct) in
    if negb (__res =? 0) || (ld m cs =? 0) then Some __res else strcmp n (cs + 1) (ct + 1)
  end.

Fixpoint strncmp_loop (count : nat) (__res cs ct : Z) : Z :=
  match count with
  | O => __res
  | S n =>
    let __res := sgn 8 (ld m cs - ld m ct) in
    if negb (__res =? 0) || (ld m cs =? 0) then __res else strncmp_loop n __res (cs + 1) (ct + 1)
  end.

Definition strncmp (cs ct count : Z) : Z := strncmp_loop (Z.to_nat count) 0 cs ct.

Fixpoint memcmp_loop (count : nat) (res su1 su2 : Z) : Z :=
  match count with
  | O => res
  | S n =>
    let res := ld m su1 - ld m su2 in
    if negb (res =? 0) then res else memcmp_loop n res (su1 + 1) (su2 + 1)
  end.

Definition memcmp (cs ct count : Z) : Z := memcmp_loop (Z.to_nat count) 0 cs ct.

(** ** Searching *)

Fixpoint strchr (fuel : nat) (s c : Z) : option Z :=
  match fuel with
  | O => None
  | S n =>
    if negb (ld m s =? u8 c) then
      if ld m s =? 0 then Some NULL else strchr n (s + 1) c
    else Some s
  end.

Fixpoint strchrnul (fuel : nat) (s c : Z) : option Z :=
  match fuel with
  | O => None
  | S n =>
    if negb (ld m s =? u8 c) then
      if ld m s =? 0 then Some s else strchrnul n (s + 1) c
    else Some s
  end.

Fixpoint strrchr_loop (fuel : nat) (p s c : Z) : option Z :=
  match fuel with
  | O => None
  | S n =>
    if ld m p =? u8 c then Some p else
    let p := p - 1 in
    if s <=? p then strrchr_loop n p s c else Some NULL
  end.

Definition strrchr (fuel : nat) (s c : Z) : option Z :=
  len ← strlen fuel s; strrchr_loop fuel (s + len) s c.

(** The inner loop of [strspn], [strcspn] and [strpbrk]:
    [for (a = set; *a != '\0'; ++a) if (c == *a) break;] *)
Fixpoint set_loop (fuel : nat) (a c : Z) : option Z :=
  match fuel with
  | O => None
  | S n => if ld m a =? 0 then Some a else if c =? ld m a then Some a else set_loop n (a + 1) c
  end.

Fixpoint strspn_loop (fuel : nat) (p accept count : Z) : option Z :=
  match fuel with
  | O => None
  | S n =>
    if ld m p =? 0 then Some count else
    a ← set_loop fuel accept (ld m p);
    if ld m a =? 0 then Some count else strspn_loop n (p + 1) accept (count + 1)
  end.

Definition strspn (fuel : nat) (s accept : Z) : option Z := strspn_loop fuel s accept 0.

Fixpoint strcspn_loop (fuel : nat) (p reject count : Z) : option Z :=
  match fuel with
  | O => None
  | S n =>
    if ld m p =? 0 then Some count else
    r ← set_loop fuel reject (ld m p);
    if ld m r =? 0 then strcspn_loop n (p + 1) reject (count + 1) else Some count
  end.

Definition strcspn (fuel : nat) (s reject : Z) : option Z := strcspn_loop fuel s reject 0.

Fixpoint strpbrk (fuel : nat) (sc1 ct : Z) : option Z :=
  match fuel with
  | O => None
  | S n =>
    if ld m sc1 =? 0 then Some NULL else
    sc2 ← set_loop fuel ct (ld m sc1);
    if ld m sc2 =? 0 then strpbrk n (sc1 + 1) ct else Some sc1
  end.

(** [c] is an [int] here and is compared as it is. *)
Fixpoint memscan_loop (size : nat) (p c : Z) : Z :=
  match size with
  | O => p
  | S n => if ld m p =? c then p else memscan_loop n (p + 1) c
  end.

Definition memscan (addr c size : Z) : Z := memscan_loop (Z.to_nat size) addr c.

Fixpoint memchr_loop (n : nat) (p c : Z) : Z :=
  match n with
  | O => NULL
  | S n => if u8 c =? ld m p then p else memchr_loop n (p + 1) c
  end.

Definition memchr (s c n : Z) : Z := memchr_loop (Z.to_nat n) s c.

Fixpoint strstr_loop (fuel : nat) (s1 s2 l1 l2 : Z) : option Z :=
  match fuel with
  | O => None
  | S n =>
    if l2 <=? l1 then
      if memcmp s1 s2 l2 =? 0 then Some s1 else strstr_loop n (s1 + 1) s2 (l1 - 1) l2
    else Some NULL
  end.

Definition strstr (fuel : nat) (s1 s2 : Z) : option Z :=
  l2 ← strlen fuel s2;
  if l2 =? 0 then Some s1 else
  l1 ← strlen fuel s1;
  strstr_loop fuel s1 s2 l1 l2.

Fixpoint check_bytes8_loop (bytes : nat) (start value : Z) : Z :=
  match bytes with
  | O => NULL
  | S n => if negb (ld m start =? value) then start else check_bytes8_loop n (start + 1) value
  end.

Definition check_bytes8 (start value bytes : Z) : Z := check_bytes8_loop (Z.to_nat bytes) start value.

Definition ld64 (a : Z) : Z := ld32 m a + 2 ^ 32 * ld32 m (a + 4).

(** The word loop of [memchr_inv], [words] left: the pointer it returns, or the
    one it goes on with. *)
Fixpoint inv_loop (words : nat) (start value value64 : Z) : Z + Z :=
  match words with
  | O => inr start
  | S n =>
    if negb (ld64 start =? value64) then inl (check_bytes8 start value 8)
    else inv_loop n (start + 8) value value64
  end.

Definition memchr_inv (start c bytes : Z) : Z :=
  let value := u8 c in
  if bytes <=? 16 then check_bytes8 start value bytes else
  let value64 := value in
  let value64 := Z.lor value64 (u64 (Z.shiftl value64 8)) in
  let value64 := Z.lor value64 (u64 (Z.shiftl value64 16)) in
  let value64 := Z.lor value64 (u64 (Z.shiftl value64 32)) in
  let prefix := start mod 8 in
  let r := if prefix =? 0 then NULL else check_bytes8 start value (8 - prefix) in
  if negb (r =? 0) then r else
  let prefix := if prefix =? 0 then 0 else 8 - prefix in
  let start := start + prefix in
  let bytes := bytes - prefix in
  match inv_loop (Z.to_nat (bytes / 8)) start value value64 with
  | inl r => r
  | inr start => check_bytes8 start value (bytes mod 8)
  end.

End Read.

(** ** Copying and filling *)

Fixpoint strcpy_loop (fuel : nat) (m : mem) (dest src : Z) : option mem :=
  match fuel with
  | O => None
  | S n =>
    let c := ld m src in
    let m := st m dest c in
    if negb (c =? 0) then strcpy_loop n m (dest + 1) (src + 1) else Some m
  end.

Definition strcpy (fuel : nat) (m : mem) (dest src : Z) : option (Z * mem) :=
  m ← strcpy_loop fuel m dest src; Some (dest, m).

Fixpoint strncpy_loop (count : nat) (m : mem) (dest src : Z) : mem :=
  match count with
  | O => m
  | S n =>
    let c := ld m src in
    let m := st m dest c in
    if negb (c =? 0) then strncpy_loop n m (dest + 1) (src + 1) else m
  end.

Definition strncpy (m : mem) (dest src count : Z) : Z * mem :=
  (dest, strncpy_loop (Z.to_nat count) m dest src).

(** [while (count--) *d8++ = *s8++;] *)
Fixpoint copy_bytes (count : nat) (m : mem) (d8 s8 : Z) : mem :=
  match count with
  | O => m
  | S n => copy_bytes n (st m d8 (ld m s8)) (d8 + 1) (s8 + 1)
  end.

(** [while (count >= 4) { *dl++ = *sl++; count -= 4; }], [words] turns. *)
Fixpoint copy_words (words : nat) (m : mem) (dl sl : Z) : mem :=
  match words with
  | O => m
  | S n => copy_words n (st32 m dl (ld32 m sl)) (dl + 4) (sl + 4)
  end.

Definition memcpy (m : mem) (dest src count : Z) : Z * mem :=
  if src =? dest then (dest, m) else
  let words := if Z.land (Z.lor dest src) 3 =? 0 then count / 4 else 0 in
  let m := copy_words (Z.to_nat words) m dest src in
  let dl := dest + 4 * words in
  let sl := src + 4 * words in
  (dest, copy_bytes (Z.to_nat (count - 4 * words)) m dl sl).

(** [while (count--) *--tmp = *--s;] *)
Fixpoint copy_back (count : nat) (m : mem) (tmp s : Z) : mem :=
  match count with
  | O => m
  | S n => copy_back n (st m (tmp - 1) (ld m (s - 1))) (tmp - 1) (s - 1)
  end.

Definition memmove (m : mem) (dest src count : Z) : Z * mem :=
  if dest <=? src then (dest, (memcpy m dest src count).2)
  else (dest, copy_back (Z.to_nat count) m (dest + count) (src + count)).

Fixpoint fill_bytes (count : nat) (m : mem) (s8 c : Z) : mem :=
  match count with
  | O => m
  | S n => fill_bytes n (st m s8 c) (s8 + 1) c
  end.

Fixpoint fill_words (words : nat) (m : mem) (sl cl : Z) : mem :=
  match words with
  | O => m
  | S n => fill_words n (st32 m sl cl) (sl + 4) cl
  end.

(** [for (i = 0; i < 4; i++) { cl <<= 8; cl |= c & 0xff; }] *)
Definition fill_word (c : Z) : Z :=
  Nat.iter 4 (fun cl => Z.lor (u32 (Z.shiftl cl 8)) (Z.land c 0xff)) 0.

Definition memset (m : mem) (s c count : Z) : Z * mem :=
  let words := if Z.land s 3 =? 0 then count / 4 else 0 in
  let m := fill_words (Z.to_nat words) m s (fill_word c) in
  (s, fill_bytes (Z.to_nat (count - 4 * words)) m (s + 4 * words) c).

Definition strlcpy (fuel : nat) (m : mem) (dest src size : Z) : option (Z * mem) :=
  ret ← strlen m fuel src;
  if size =? 0 then Some (ret, m) else
  let len := if size <=? ret then size - 1 else ret in
  let m := (memcpy m dest src len).2 in
  Some (ret, st m (dest + len) 0).

Definition strcat (fuel : nat) (m : mem) (dest src : Z) : option (Z * mem) :=
  d ← strlen_loop m fuel dest; m ← strcpy_loop fuel m d src; Some (dest, m).

Fixpoint strncat_loop (fuel : nat) (m : mem) (dest src count : Z) : option mem :=
  match fuel with
  | O => None
  | S n =>
    let c := ld m src in
    let m := st m dest c in
    let dest := dest + 1 in
    if negb (c =? 0) then
      let count := u32 (count - 1) in
      if count =? 0 then Some (st m dest 0) else strncat_loop n m dest (src + 1) count
    else Some m
  end.

Definition strncat (fuel : nat) (m : mem) (dest src count : Z) : option (Z * mem) :=
  if count =? 0 then Some (dest, m) else
  d ← strlen_loop m fuel dest; m ← strncat_loop fuel m d src count; Some (dest, m).

(** The allocator (common/dlmalloc.c) is a parameter: it returns [NULL] or the
    address of a block, and may write its own bookkeeping. *)
Definition strdup (malloc : Z -> mem -> Z * mem) (fuel : nat) (m : mem) (s : Z) : option (Z * mem) :=
  if s =? NULL then Some (NULL, m) else
  len ← strlen m fuel s;
  let (new, m) := malloc (len + 1) m in
  if new =? NULL then Some (NULL, m) else
  '(_, m) ← strcpy fuel m new s;
  Some (new, m).

(** ** Splitting *)

(** [strtok] keeps its place in the static [___strtok]. *)
Definition strtok (fuel : nat) (m : mem) (tok s ct : Z) : option (Z * mem * Z) :=
  let sbegin := if s =? NULL then tok else s in
  if sbegin =? NULL then Some (NULL, m, tok) else
  skip ← strspn m fuel sbegin ct;
  let sbegin := sbegin + skip in
  if ld m sbegin =? 0 then Some (NULL, m, NULL) else
  send ← strpbrk m fuel sbegin ct;
  if negb (send =? NULL) && negb (ld m send =? 0)
  then Some (sbegin, st m send 0, send + 1)
  else Some (sbegin, m, send).

(** [strsep] updates the caller's pointer: the result is the token, the memory
    and the new pointer. *)
Definition strsep (fuel : nat) (m : mem) (s ct : Z) : option (Z * mem * Z) :=
  let sbegin := s in
  if sbegin =? NULL then Some (NULL, m, s) else
  end_ ← strpbrk m fuel sbegin ct;
  if end_ =? NULL then Some (sbegin, m, NULL)
  else Some (sbegin, st m end_ 0, end_ + 1).

Fixpoint strswab_loop (fuel : nat) (m : mem) (p q : Z) : option mem :=
  match fuel with
  | O => None
  | S n =>
    if negb (ld m p =? 0) && negb (ld m q =? 0) then
      let tmp := ld m p in
      let m := st m p (ld m q) in
      let m := st m q tmp in
      strswab_loop n m (p + 2) (q + 2)
    else Some m
  end.

Definition strswab (fuel : nat) (m : mem) (s : Z) : option (Z * mem) :=
  if (s =? NULL) || (ld m s =? 0) then Some (NULL, m) else
  m ← strswab_loop fuel m s (s + 1); Some (s, m).

(** ** Moving memory *)

(** [m'] is [m] with the [n] bytes at [s] copied to [d]. *)
Definition moved (m : mem) (d s n : Z) (m' : mem) : Prop :=
  forall a, ld m' a = if (d <=? a) && (a <? d + n) then ld m (s + (a - d)) else ld m a.

#[export] Instance copy_bytes_proper n : Proper (mem_eq ==> eq ==> eq ==> mem_eq) (copy_bytes n).
Proof.
  induction n as [|n IH]; intros m1 m2 H d _ <- s _ <-; [exact H|]. cbn [copy_bytes].
  apply IH; auto. rewrite H. reflexivity.
Qed.

#[export] Instance fill_bytes_proper n : Proper (mem_eq ==> eq ==> eq ==> mem_eq) (fill_bytes n).
Proof.
  induction n as [|n IH]; intros m1 m2 H s _ <- c _ <-; [exact H|]. cbn [fill_bytes].
  apply IH; auto. rewrite H. reflexivity.
Qed.

Lemma copy_bytes_moved n m d s : d <= s \/ s + Z.of_nat n <= d ->
  moved m d s (Z.of_nat n) (copy_bytes n m d s).
Proof.
  revert m d s. induction n as [|n IH]; intros m d s H a; cbn [copy_bytes].
  { replace ((d <=? a) && (a <? d + Z.of_nat 0)) with false by lia. reflexivity. }
  rewrite (IH (st m d (ld m s)) (d + 1) (s + 1)) by lia.
  destruct (Z.eqb_spec a d) as [->|Hne].
  - replace ((d + 1 <=? d) && (d <? d + 1 + Z.of_nat n)) with false by lia.
    replace ((d <=? d) && (d <? d + Z.of_nat (S n))) with true by lia.
    rewrite ld_st_same, u8_small, Z.sub_diag, Z.add_0_r by apply ld_range. reflexivity.
  - destruct ((d <=? a) && (a <? d + Z.of_nat (S n))) eqn:E.
    + replace ((d + 1 <=? a) && (a <? d + 1 + Z.of_nat n)) with true by lia.
      rewrite ld_st_other by lia. f_equal. lia.
    + replace ((d + 1 <=? a) && (a <? d + 1 + Z.of_nat n)) with false by lia.
      apply ld_st_other. exact Hne.
Qed.

Lemma copy_back_moved n m d s : s <= d -> moved m d s (Z.of_nat n) (copy_back n m (d + Z.of_nat n) (s + Z.of_nat n)).
Proof.
  revert m. induction n as [|n IH]; intros m H a; cbn [copy_back].
  { replace ((d <=? a) && (a <? d + Z.of_nat 0)) with false by lia. reflexivity. }
  replace (d + Z.of_nat (S n) - 1) with (d + Z.of_nat n) by lia.
  replace (s + Z.of_nat (S n) - 1) with (s + Z.of_nat n) by lia.
  rewrite IH by exact H. rewrite !ld_st.
  destruct (Z.eqb_spec a (d + Z.of_nat n)) as [->|Hne].
  - replace ((d <=? d + Z.of_nat n) && (d + Z.of_nat n <? d + Z.of_nat n)) with false by lia.
    replace ((d <=? d + Z.of_nat n) && (d + Z.of_nat n <? d + Z.of_nat (S n))) with true by lia.
    rewrite u8_small by apply ld_range. f_equal. lia.
  - destruct ((d <=? a) && (a <? d + Z.of_nat (S n))) eqn:E.
    + replace ((d <=? a) && (a <? d + Z.of_nat n)) with true by lia.
      replace (s + (a - d) =? d + Z.of_nat n) with false by lia. reflexivity.
    + replace ((d <=? a) && (a <? d + Z.of_nat n)) with false by lia. reflexivity.
Qed.

(** A word is copied as its four bytes when source and destination do not
    overlap in a part of it. *)
Lemma word_copy m d s : d = s \/ d + 4 <= s \/ s + 4 <= d ->
  mem_eq (st32 m d (ld32 m s)) (copy_bytes 4 m d s).
Proof.
  intros H. rewrite st32_ld32. cbn [copy_bytes].
  replace (d + 1 + 1) with (d + 2) by lia. replace (d + 2 + 1) with (d + 3) by lia.
  replace (s + 1 + 1) with (s + 2) by lia. replace (s + 2 + 1) with (s + 3) by lia.
  intros x. rewrite !ld_st. case_bools; try lia; reflexivity.
Qed.

Lemma copy_bytes_app n k m d s :
  copy_bytes (n + k) m d s = copy_bytes k (copy_bytes n m d s) (d + Z.of_nat n) (s + Z.of_nat n).
Proof.
  revert m d s. induction n as [|n IH]; intros m d s; cbn [copy_bytes Nat.add].
  - f_equal; lia.
  - rewrite IH. f_equal; lia.
Qed.

Lemma copy_words_bytes n m d s : d = s \/ d + 4 <= s \/ s + 4 <= d ->
  mem_eq (copy_words n m d s) (copy_bytes (4 * n) m d s).
Proof.
  intros H. revert m d s H. induction n as [|n IH]; intros m d s H; [reflexivity|].
  cbn [copy_words]. rewrite IH by lia. replace (4 * S n)%nat with (4 + 4 * n)%nat by lia.
  rewrite copy_bytes_app. apply copy_bytes_proper; try lia. apply word_copy. exact H.
Qed.

Lemma land_3_zero a : Z.land a 3 = 0 <-> a mod 4 = 0.
Proof. change 3 with (Z.ones 2). rewrite Z.land_ones by lia. reflexivity. Qed.

Lemma lor_aligned a b : Z.land (Z.lor a b) 3 = 0 -> a mod 4 = 0 /\ b mod 4 = 0.
Proof.
  rewrite Z.land_lor_distr_l, Z.lor_eq_0_iff, !land_3_zero. tauto.
Qed.

(** The word loop of [memcpy] is not observable. *)
Lemma memcpy_bytes m d s n : 0 <= n -> mem_eq (memcpy m d s n).2 (copy_bytes (Z.to_nat n) m d s).
Proof.
  intros Hn. unfold memcpy. destruct (Z.eqb_spec s d) as [->|Hne]; cbn [snd].
  { intros a. rewrite (copy_bytes_moved (Z.to_nat n) m d d) by lia.
    destruct (_ && _); [f_equal; lia|reflexivity]. }
  destruct (Z.eqb_spec (Z.land (Z.lor d s) 3) 0) as [Ha|Ha]; cbn [snd].
  - apply lor_aligned in Ha as [Hd Hs]. set (w := Z.to_nat (n / 4)).
    assert (n / 4 = Z.of_nat w) as -> by (unfold w; rewrite Z2Nat.id; [reflexivity|apply Z.div_pos; lia]).
    pose proof (Z.mul_div_le n 4 ltac:(lia)) as Hle. assert (Z.of_nat w = n / 4) as Hw.
    { unfold w. rewrite Z2Nat.id; [reflexivity|apply Z.div_pos; lia]. }
    rewrite copy_words_bytes.
    + replace (Z.to_nat n) with (4 * w + Z.to_nat (n - 4 * Z.of_nat w))%nat by lia.
      rewrite copy_bytes_app. replace (Z.of_nat (4 * w)) with (4 * Z.of_nat w) by lia. reflexivity.
    + pose proof (Z.div_mod d 4). pose proof (Z.div_mod s 4). lia.
  - cbn [copy_words Z.to_nat]. rewrite !Z.mul_0_r, !Z.add_0_r, Z.sub_0_r. reflexivity.
Qed.

Lemma memcpy_moved m d s n : 0 <= n -> d <= s \/ s + n <= d -> moved m d s n (memcpy m d s n).2.
Proof.
  intros Hn H a. rewrite (memcpy_bytes m d s n Hn a), (copy_bytes_moved (Z.to_nat n)) by lia.
  rewrite Z2Nat.id by lia. reflexivity.
Qed.

Lemma memmove_moved m d s n : 0 <= n -> moved m d s n (memmove m d s n).2.
Proof.
  intros Hn. unfold memmove. destruct (Z.leb_spec d s) as [Hle|Hgt]; cbn [snd].
  - apply memcpy_moved; lia.
  - rewrite <- (Z2Nat.id n) by lia. rewrite Nat2Z.id. apply copy_back_moved. lia.
Qed.

(** *** Filling *)

Definition filled (m : mem) (s c n : Z) (m' : mem) : Prop :=
  forall a, ld m' a = if (s <=? a) && (a <? s + n) then u8 c else ld m a.

Lemma fill_bytes_filled n m s c : filled m s c (Z.of_nat n) (fill_bytes n m s c).
Proof.
  revert m s. induction n as [|n IH]; intros m s a; cbn [fill_bytes].
  { replace ((s <=? a) && (a <? s + Z.of_nat 0)) with false by lia. reflexivity. }
  rewrite IH, ld_st. case_bools; try lia; reflexivity.
Qed.

Lemma fill_word_bytes c : fill_word c = u8 c + 2 ^ 8 * (u8 c + 2 ^ 8 * (u8 c + 2 ^ 8 * u8 c)).
Proof.
  unfold fill_word. change 0xff with (Z.ones 8). rewrite Z.land_ones by lia.
  change (c mod 2 ^ 8) with (u8 c). pose proof (u8_range c) as Hr. revert Hr. generalize (u8 c). clear c.
  intros b Hb. pose proof (Ctype.all_bytes_spec (fun b => Nat.iter 4 (fun cl => Z.lor (u32 (Z.shiftl cl 8)) b) 0
    =? b + 2 ^ 8 * (b + 2 ^ 8 * (b + 2 ^ 8 * b))) b ltac:(vm_compute; reflexivity) Hb). lia.
Qed.

Lemma fill_word_st m s c : mem_eq (st32 m s (fill_word c)) (fill_bytes 4 m s c).
Proof.
  intros x. pose proof (u8_range c) as H. rewrite fill_word_bytes. unfold st32. cbn [fill_bytes].
  change 24 with (16 + 8). change 16 with (8 + 8). rewrite <- !Z.shiftr_shiftr by lia.
  rewrite !(proj2 (byte_split _ _ H)), !ld_st, !u8_byte by exact H.
  replace (s + 1 + 1) with (s + 2) by lia. replace (s + 2 + 1) with (s + 3) by lia.
  rewrite (u8_small (u8 c)) by exact H. reflexivity.
Qed.

Lemma fill_bytes_app n k m s c :
  fill_bytes (n + k) m s c = fill_bytes k (fill_bytes n m s c) (s + Z.of_nat n) c.
Proof.
  revert m s. induction n as [|n IH]; intros m s; cbn [fill_bytes Nat.add]; [f_equal; lia|].
  rewrite IH. f_equal. lia.
Qed.

Lemma fill_words_bytes n m s c : mem_eq (fill_words n m s (fill_word c)) (fill_bytes (4 * n) m s c).
Proof.
  revert m s. induction n as [|n IH]; intros m s; [reflexivity|]. cbn [fill_words].
  rewrite IH. replace (4 * S n)%nat with (4 + 4 * n)%nat by lia. rewrite fill_bytes_app.
  apply fill_bytes_proper; try lia. apply fill_word_st.
Qed.

Lemma memset_filled m s c n : 0 <= n -> filled m s c n (memset m s c n).2.
Proof.
  intros Hn a. unfold memset. cbn [snd]. set (w := if Z.land s 3 =? 0 then n / 4 else 0).
  assert (0 <= w /\ 4 * w <= n) as [Hw0 Hw].
  { unfold w. destruct (Z.land s 3 =? 0); [|lia]. pose proof (Z.mul_div_le n 4). pose proof (Z.div_pos n 4). lia. }
  rewrite (fill_bytes_proper _ _ _ (fill_words_bytes (Z.to_nat w) m s c) _ _ eq_refl _ _ eq_refl a).
  replace (s + 4 * w) with (s + Z.of_nat (4 * Z.to_nat w)) by lia.
  rewrite <- fill_bytes_app, fill_bytes_filled.
  replace (Z.of_nat (4 * Z.to_nat w + Z.to_nat (n - 4 * w))) with n by lia. reflexivity.
Qed.

(** ** Strings *)

Lemma strlen_loop_cstr m s fuel p : cstr m p s -> (length s < fuel)%nat ->
  strlen_loop m fuel p = Some (p + Z.of_nat (length s)).
Proof.
  revert fuel p. induction s as [|c s IH]; intros fuel p H Hf;
    (destruct fuel as [|fuel]; [cbn in Hf; lia|]); cbn [strlen_loop length].
  - apply cstr_nil in H. rewrite H. cbn. f_equal. lia.
  - apply cstr_cons in H as (Hc & E & H). rewrite E. replace (c =? 0) with false by lia.
    cbn in Hf. rewrite (IH fuel (p + 1) H) by lia. f_equal. lia.
Qed.

Lemma strlen_cstr m s fuel p : cstr m p s -> (length s < fuel)%nat ->
  strlen m fuel p = Some (Z.of_nat (length s)).
Proof.
  intros H Hf. unfold strlen. rewrite (strlen_loop_cstr m s) by assumption. cbn. f_equal. lia.
Qed.

Lemma strnlen_cstr m s p count : cstr m p s -> 0 <= count ->
  strnlen m p count = Z.min (Z.of_nat (length s)) count.
Proof.
  intros H Hc. unfold strnlen. rewrite <- (Z2Nat.id count) at 2 by exact Hc.
  generalize (Z.to_nat count) as n. clear count Hc. intros n.
  assert (strnlen_loop m n p = p + Z.min (Z.of_nat (length s)) (Z.of_nat n)) as ->; [|lia].
  revert p s H. induction n as [|n IH]; intros p s H; cbn [strnlen_loop]; [lia|].
  destruct s as [|c s].
  - apply cstr_nil in H. rewrite H. cbn [length Z.eqb]. lia.
  - apply cstr_cons in H as (Hc & E & H). rewrite E. replace (c =? 0) with false by lia.
    rewrite (IH _ s H). cbn [length]. lia.
Qed.

(** *** Comparison *)

(** The order [strcmp] means to decide. *)
Fixpoint lex (s t : list Z) : comparison :=
  match s, t with
  | [], [] => Eq
  | [], _ => Lt
  | _, [] => Gt
  | c :: s, d :: t => if c =? d then lex s t else if c <? d then Lt else Gt
  end.

Definition sign_of (c : comparison) : Z := match c with Eq => 0 | Lt => -1 | Gt => 1 end.

Lemma sgn8_zero a b : 0 <= a < 256 -> 0 <= b < 256 -> sgn 8 (a - b) = 0 <-> a = b.
Proof.
  intros Ha Hb. unfold sgn, wrap. change (2 ^ (8 - 1)) with 128. change (2 ^ 8) with 256.
  pose proof (Z.mod_pos_bound (a - b) 256 ltac:(lia)) as H.
  pose proof (Z.div_mod (a - b) 256 ltac:(lia)) as E. case_bools; lia.
Qed.

Lemma sgn8_small d : -128 <= d < 128 -> sgn 8 d = d.
Proof.
  intros H. unfold sgn, wrap. change (2 ^ (8 - 1)) with 128. change (2 ^ 8) with 256.
  pose proof (Z.mod_pos_bound d 256 ltac:(lia)). pose proof (Z.div_mod d 256 ltac:(lia)). case_bools; lia.
Qed.

(** The byte pair at which [strcmp] stops, and what it returns there. *)
Fixpoint first_diff (s t : list Z) : Z :=
  match s, t with
  | [], [] => 0
  | [], d :: _ => sgn 8 (0 - d)
  | c :: _, [] => sgn 8 c
  | c :: s, d :: t => if c =? d then first_diff s t else sgn 8 (c - d)
  end.

Lemma strcmp_first_diff m s : forall t fuel cs ct, cstr m cs s -> cstr m ct t ->
  (length s < fuel)%nat -> strcmp m fuel cs ct = Some (first_diff s t).
Proof.
  induction s as [|c s IH]; intros t fuel cs ct Hs Ht Hf; (destruct fuel as [|fuel]; [cbn in Hf; lia|]);
    cbn [strcmp].
  - apply cstr_nil in Hs. rewrite Hs. rewrite orb_true_r.
    destruct t as [|d t]; [apply cstr_nil in Ht|apply cstr_cons in Ht as (_ & Ht & _)]; rewrite Ht; reflexivity.
  - apply cstr_cons in Hs as (Hc & Ec & Hs). pose proof (ld_range m cs) as Hrc. pose proof (ld_range m ct) as Hrd.
    rewrite Ec in *. replace (c =? 0) with false by lia. rewrite orb_false_r. cbn in Hf.
    destruct t as [|d t].
    + apply cstr_nil in Ht. rewrite Ht in *. rewrite Z.sub_0_r. cbn [first_diff].
      pose proof (proj1 (sgn8_zero c 0 Hrc ltac:(lia))) as Hz. rewrite Z.sub_0_r in Hz.
      replace (sgn 8 c =? 0) with false by lia. reflexivity.
    + apply cstr_cons in Ht as (Hd & Ed & Ht). rewrite Ed in *. cbn [first_diff].
      pose proof (sgn8_zero c d Hrc Hrd) as Hz. destruct (Z.eqb_spec c d) as [->|Hne].
      * replace (sgn 8 (d - d) =? 0) with true by lia. cbn [negb]. apply IH; auto. lia.
      * replace (sgn 8 (c - d) =? 0) with false by lia. reflexivity.
Qed.

Lemma first_diff_zero s : forall t, Forall (fun c => 0 < c < 256) s -> Forall (fun c => 0 < c < 256) t ->
  first_diff s t = 0 <-> s = t.
Proof.
  induction s as [|c s IH]; intros [|d t] Hs Ht; cbn [first_diff]; try (split; congruence).
  - apply Forall_cons_1 in Ht as [Hd _]. pose proof (sgn8_zero 0 d). split; [lia|discriminate].
  - apply Forall_cons_1 in Hs as [Hc _]. pose proof (sgn8_zero c 0). rewrite Z.sub_0_r in *. split; [lia|discriminate].
  - apply Forall_cons_1 in Hs as [Hc Hs]. apply Forall_cons_1 in Ht as [Hd Ht].
    destruct (Z.eqb_spec c d) as [->|Hne].
    + rewrite IH by assumption. split; congruence.
    + pose proof (sgn8_zero c d). split; [lia|congruence].
Qed.

Lemma first_diff_ascii s : forall t, Forall (fun c => 0 < c < 128) s -> Forall (fun c => 0 < c < 128) t ->
  Z.sgn (first_diff s t) = sign_of (lex s t).
Proof.
  induction s as [|c s IH]; intros [|d t] Hs Ht; cbn [first_diff lex]; try reflexivity.
  - apply Forall_cons_1 in Ht as [Hd _]. rewrite sgn8_small by lia. cbn. lia.
  - apply Forall_cons_1 in Hs as [Hc _]. rewrite sgn8_small by lia. cbn. lia.
  - apply Forall_cons_1 in Hs as [Hc Hs]. apply Forall_cons_1 in Ht as [Hd Ht].
    destruct (Z.eqb_spec c d) as [->|Hne]; [apply IH; assumption|]. rewrite sgn8_small by lia.
    destruct (Z.ltb_spec c d); cbn; lia.
Qed.

(** *** Searching *)

(** Length of the longest prefix whose characters satisfy [f]. *)
Fixpoint prefix_len (f : Z -> bool) (s : list Z) : nat :=
  match s with
  | [] => 0%nat
  | c :: s => if f c then S (prefix_len f s) else 0%nat
  end.

Lemma prefix_len_le f s : (prefix_len f s <= length s)%nat.
Proof. induction s as [|c s IH]; cbn; [lia|]. destruct (f c); lia. Qed.

Lemma prefix_len_all f s i c : (i < prefix_len f s)%nat -> s !! i = Some c -> f c = true.
Proof.
  revert i. induction s as [|d s IH]; intros i Hi Hc; [cbn in Hi; lia|]. cbn [prefix_len] in Hi.
  destruct (f d) eqn:E; [|lia]. destruct i as [|i]; [injection Hc as <-; exact E|].
  apply (IH i); [lia|exact Hc].
Qed.

Lemma prefix_len_stop f s c : s !! prefix_len f s = Some c -> f c = false.
Proof.
  induction s as [|d s IH]; cbn [prefix_len]; [discriminate|]. destruct (f d) eqn:E; [exact IH|].
  intros [= <-]. exact E.
Qed.

Definition mem_of_set (set : list Z) (c : Z) : bool := existsb (Z.eqb c) set.

Lemma set_loop_cstr m set fuel a c : cstr m a set -> (length set < fuel)%nat ->
  exists a', set_loop m fuel a c = Some a' /\ (ld m a' =? 0) = negb (mem_of_set set c).
Proof.
  revert fuel a. induction set as [|d set IH]; intros fuel a H Hf; (destruct fuel as [|fuel]; [cbn in Hf; lia|]);
    cbn [set_loop].
  - apply cstr_nil in H. rewrite H. exists a. split; [reflexivity|]. rewrite H. reflexivity.
  - apply cstr_cons in H as (Hd & E & H). rewrite E. replace (d =? 0) with false by lia.
    cbn [mem_of_set existsb]. destruct (Z.eqb_spec c d) as [->|Hne].
    + exists a. split; [reflexivity|]. rewrite E. cbn [orb negb]. lia.
    + cbn in Hf. destruct (IH fuel (a + 1) H) as (a' & Ea & Hz); [lia|]. exists a'. auto.
Qed.

Lemma strspn_cstr m set a : cstr m a set -> forall s fuel p k, cstr m p s ->
  (length s + length set < fuel)%nat ->
  strspn_loop m fuel p a k = Some (k + Z.of_nat (prefix_len (mem_of_set set) s)).
Proof.
  intros Ha. induction s as [|c s IH]; intros fuel p k H Hf; (destruct fuel as [|fuel]; [cbn in Hf; lia|]);
    cbn [strspn_loop].
  - apply cstr_nil in H. rewrite H. cbn. f_equal. lia.
  - apply cstr_cons in H as (Hc & E & H). rewrite E. replace (c =? 0) with false by lia.
    cbn [length] in Hf. destruct (set_loop_cstr m set (S fuel) a c Ha) as (a' & Ea & Hz); [lia|].
    rewrite Ea. cbn [mbind option_bind prefix_len]. rewrite Hz. destruct (mem_of_set set c); cbn [negb].
    + rewrite (IH fuel (p + 1) (k + 1) H) by lia. f_equal. lia.
    + f_equal. lia.
Qed.

Lemma strcspn_cstr m set a : cstr m a set -> forall s fuel p k, cstr m p s ->
  (length s + length set < fuel)%nat ->
  strcspn_loop m fuel p a k = Some (k + Z.of_nat (prefix_len (fun c => negb (mem_of_set set c)) s)).
Proof.
  intros Ha. induction s as [|c s IH]; intros fuel p k H Hf; (destruct fuel as [|fuel]; [cbn in Hf; lia|]);
    cbn [strcspn_loop].
  - apply cstr_nil in H. rewrite H. cbn. f_equal. lia.
  - apply cstr_cons in H as (Hc & E & H). rewrite E. replace (c =? 0) with false by lia.
    cbn [length] in Hf. destruct (set_loop_cstr m set (S fuel) a c Ha) as (a' & Ea & Hz); [lia|].
    rewrite Ea. cbn [mbind option_bind prefix_len]. rewrite Hz. destruct (mem_of_set set c); cbn [negb].
    + f_equal. lia.
    + rewrite (IH fuel (p + 1) (k + 1) H) by lia. f_equal. lia.
Qed.

Lemma found_succ p k n : (if decide (k < n)%nat then p + 1 + Z.of_nat k else NULL) =
  if decide (S k < S n)%nat then p + Z.of_nat (S k) else NULL.
Proof. destruct (decide (k < n)%nat), (decide (S k < S n)%nat); lia || reflexivity. Qed.

(** The first character of the string that is in the set, if any. *)
Lemma strpbrk_cstr m set a : cstr m a set -> forall s fuel p, cstr m p s ->
  (length s + length set < fuel)%nat ->
  let k := prefix_len (fun c => negb (mem_of_set set c)) s in
  strpbrk m fuel p a = Some (if decide (k < length s)%nat then p + Z.of_nat k else NULL).
Proof.
  intros Ha. induction s as [|c s IH]; intros fuel p H Hf; (destruct fuel as [|fuel]; [cbn in Hf; lia|]);
    cbn [strpbrk].
  - apply cstr_nil in H. rewrite H. reflexivity.
  - apply cstr_cons in H as (Hc & E & H). rewrite E. replace (c =? 0) with false by lia.
    cbn [length] in Hf. destruct (set_loop_cstr m set (S fuel) a c Ha) as (a' & Ea & Hz); [lia|].
    rewrite Ea. cbn [mbind option_bind prefix_len length]. rewrite Hz. destruct (mem_of_set set c); cbn [negb].
    + f_equal. destruct (decide (0 < S (length s))%nat); [lia|lia].
    + rewrite (IH fuel (p + 1) H) by lia. f_equal. apply found_succ.
Qed.

(** *** Copying strings *)

(** [dest] can be filled from the [n] bytes at [src] front to back. *)
Definition copies_forward (dest src n : Z) : Prop := dest <= src \/ src + n <= dest.

Lemma cstr_st m p s a v : cstr m p s -> a < p \/ p + Z.of_nat (length s) < a -> cstr (st m a v) p s.
Proof. intros H Ha. apply (cstr_ext m); [|exact H]. intros x Hx. symmetry. apply ld_st_other. lia. Qed.

Lemma strcpy_loop_copies s : forall m fuel dest src, cstr m src s ->
  copies_forward dest src (Z.of_nat (length s) + 1) -> (length s < fuel)%nat ->
  strcpy_loop fuel m dest src = Some (copy_bytes (S (length s)) m dest src).
Proof.
  induction s as [|c s IH]; intros m fuel dest src H Hd Hf; (destruct fuel as [|fuel]; [cbn in Hf; lia|]);
    cbn [strcpy_loop].
  - apply cstr_nil in H. rewrite H. cbn. rewrite H. reflexivity.
  - apply cstr_cons in H as (Hc & E & H). cbn [length copy_bytes]. rewrite E.
    replace (negb (c =? 0)) with true by lia. cbn [length] in *. unfold copies_forward in *.
    apply (IH (st m dest c) fuel (dest + 1) (src + 1)); [apply cstr_st; [exact H|]| |]; lia.
Qed.

Lemma strncpy_loop_copies n : forall m s dest src, cstr m src s ->
  copies_forward dest src (Z.of_nat (length s) + 1) ->
  strncpy_loop n m dest src = copy_bytes (Nat.min n (S (length s))) m dest src.
Proof.
  induction n as [|n IH]; intros m s dest src H Hd; [reflexivity|]. cbn [strncpy_loop].
  destruct s as [|c s].
  - apply cstr_nil in H. cbn [length]. rewrite Nat.min_comm. cbn [Nat.min copy_bytes]. rewrite H. reflexivity.
  - apply cstr_cons in H as (Hc & E & H). cbn [length Nat.min copy_bytes]. rewrite E.
    replace (negb (c =? 0)) with true by lia. unfold copies_forward in *. cbn [length] in *.
    apply (IH (st m dest c) s (dest + 1) (src + 1)); [apply cstr_st; [exact H|]|]; lia.
Qed.

(** A string moved with its terminator, or cut off at [k] and terminated there. *)
Lemma moved_bytes m d s n m' k : moved m d s n m' -> Z.of_nat k <= n -> bytes m' d k = bytes m s k.
Proof.
  intros H Hk. apply bytes_eq_nth. intros i Hi. rewrite (H (d + i)).
  replace ((d <=? d + i) && (d + i <? d + n)) with true by lia. f_equal. lia.
Qed.

Lemma bytes_take m p s k : bytes m p (length s) = s -> (k <= length s)%nat -> bytes m p k = take k s.
Proof.
  intros E Hk. rewrite <- E at 1. replace (length s) with (k + (length s - k))%nat by lia.
  rewrite bytes_app. symmetry. apply take_app_length'. symmetry. apply length_bytes.
Qed.

Lemma cstr_intro m p s : bytes m p (length s) = s -> Forall (fun c => c <> 0) s ->
  ld m (p + Z.of_nat (length s)) = 0 -> cstr m p s.
Proof. intros. split; auto. Qed.

Lemma moved_cstr m d p s n m' : cstr m p s -> moved m d p n m' -> Z.of_nat (length s) + 1 <= n -> cstr m' d s.
Proof.
  intros (E & Hn & Hz) Hm Hl. apply cstr_intro; auto.
  - rewrite (moved_bytes m d p n) by (auto; lia). exact E.
  - rewrite (Hm (d + Z.of_nat (length s))).
    replace ((d <=? d + Z.of_nat (length s)) && (d + Z.of_nat (length s) <? d + n)) with true by lia.
    rewrite <- Hz. f_equal. lia.
Qed.

(** [memcpy] of [k] characters followed by a terminator. *)
Lemma truncated_cstr m d p s k m' : cstr m p s -> (k <= length s)%nat -> moved m d p (Z.of_nat k) m' ->
  cstr (st m' (d + Z.of_nat k) 0) d (take k s).
Proof.
  intros (E & Hn & Hz) Hk Hm. assert (length (take k s) = k) as Hl by (rewrite length_take; lia).
  apply cstr_intro; rewrite ?Hl.
  - rewrite <- (bytes_take m p s k E Hk), <- (moved_bytes m d p (Z.of_nat k) m' k Hm) by lia.
    apply bytes_ext. intros a Ha. apply ld_st_other. lia.
  - apply Forall_take. exact Hn.
  - apply ld_st_same.
Qed.

Lemma strncat_loop_copies s : forall m fuel dest src count, cstr m src s ->
  copies_forward dest src (Z.of_nat (length s) + 1) -> 0 < count < 2 ^ 32 -> (length s < fuel)%nat ->
  let k := Nat.min (Z.to_nat count) (length s) in
  exists m', strncat_loop fuel m dest src count = Some m' /\
    mem_eq m' (st (copy_bytes k m dest src) (dest + Z.of_nat k) 0).
Proof.
  induction s as [|c s IH]; intros m fuel dest src count H Hd Hc Hf; (destruct fuel as [|fuel]; [cbn in Hf; lia|]);
    cbn [strncat_loop].
  - apply cstr_nil in H. rewrite H. cbn [negb Z.eqb]. eexists. split; [reflexivity|].
    cbn [length]. rewrite Nat.min_0_r. cbn [copy_bytes Z.of_nat]. rewrite Z.add_0_r. reflexivity.
  - apply cstr_cons in H as (Hnz & E & H). rewrite E. replace (negb (c =? 0)) with true by lia.
    cbn [length] in *. rewrite u32_small by lia. unfold copies_forward in *.
    destruct (Z.eqb_spec (count - 1) 0) as [H1|H1].
    + eexists. split; [reflexivity|].
      replace (Nat.min (Z.to_nat count) (S (length s))) with 1%nat by lia. cbn [copy_bytes].
      rewrite E. change (Z.of_nat 1) with 1. reflexivity.
    + destruct (IH (st m dest c) fuel (dest + 1) (src + 1) (count - 1)) as (m' & Em & Heq);
        [apply cstr_st; [exact H|lia]|lia..|].
      exists m'. split; [exact Em|]. rewrite Heq.
      replace (Nat.min (Z.to_nat count) (S (length s))) with (S (Nat.min (Z.to_nat (count - 1)) (length s))) by lia.
      cbn [copy_bytes]. rewrite E.
      replace (dest + Z.of_nat (S (Nat.min (Z.to_nat (count - 1)) (length s))))
        with (dest + 1 + Z.of_nat (Nat.min (Z.to_nat (count - 1)) (length s))) by lia. reflexivity.
Qed.

(** *** Occurrences *)

Lemma memcmp_zero m a b n : memcmp m a b (Z.of_nat n) = 0 <-> bytes m a n = bytes m b n.
Proof.
  unfold memcmp. rewrite Nat2Z.id. revert a b. induction n as [|n IH]; intros a b; cbn [memcmp_loop bytes].
  { split; reflexivity. }
  destruct (Z.eqb_spec (ld m a - ld m b) 0) as [E|E]; cbn [negb].
  - rewrite E, IH. replace (ld m b) with (ld m a) by lia. split; [congruence|]. intros [= H]. exact H.
  - split; [lia|]. intros [= H _]. lia.
Qed.

Definition occurs_at (i : nat) (s t : list Z) : Prop := (i + length t <= length s)%nat /\ take (length t) (drop i s) = t.

Lemma cstr_drop m p s i : cstr m p s -> (i <= length s)%nat -> cstr m (p + Z.of_nat i) (drop i s).
Proof.
  intros H. revert p s H. induction i as [|i IH]; intros p s H Hi.
  - rewrite drop_0, Z.add_0_r. exact H.
  - destruct s as [|c s]; [cbn in Hi; lia|]. apply cstr_cons in H as (_ & _ & H). cbn [drop length] in *.
    replace (p + Z.of_nat (S i)) with (p + 1 + Z.of_nat i) by lia. apply IH; [exact H|lia].
Qed.

Lemma strstr_loop_spec m p1 s1 p2 s2 : cstr m p1 s1 -> cstr m p2 s2 -> s2 <> [] -> forall fuel i,
  (length s1 - i < fuel)%nat -> (i <= length s1)%nat ->
  exists r, strstr_loop m fuel (p1 + Z.of_nat i) p2 (Z.of_nat (length s1) - Z.of_nat i) (Z.of_nat (length s2)) = Some r /\
    ((exists j, (i <= j)%nat /\ r = p1 + Z.of_nat j /\ occurs_at j s1 s2 /\
        forall k, (i <= k < j)%nat -> ~ occurs_at k s1 s2) \/
     (r = NULL /\ forall k, (i <= k)%nat -> ~ occurs_at k s1 s2)).
Proof.
  intros H1 H2 Hne. induction fuel as [|fuel IH]; intros i Hf Hi; [lia|]. cbn [strstr_loop].
  destruct (Z.leb_spec (Z.of_nat (length s2)) (Z.of_nat (length s1) - Z.of_nat i)) as [Hle|Hgt].
  2:{ exists NULL. split; [reflexivity|right]. split; [reflexivity|]. intros k Hk [Ho _]. lia. }
  pose proof (memcmp_zero m (p1 + Z.of_nat i) p2 (length s2)) as Hz.
  assert (bytes m (p1 + Z.of_nat i) (length s2) = take (length s2) (drop i s1)) as Eb.
  { apply bytes_take; [apply (cstr_drop m p1 s1 i H1 Hi)|rewrite length_drop; lia]. }
  rewrite Eb, (proj1 H2) in Hz.
  destruct (Z.eqb_spec (memcmp m (p1 + Z.of_nat i) p2 (Z.of_nat (length s2))) 0) as [E|E].
  - eexists. split; [reflexivity|left]. exists i. split_and!; auto; try lia. split; [lia|]. apply Hz, E.
  - assert (~ occurs_at i s1 s2) as Hno by (intros [_ Ho]; apply E, Hz, Ho).
    assert (length s2 <> 0%nat) by (destruct s2; [contradiction|cbn; lia]).
    destruct (IH (S i)) as (r & Er & Hr); [lia..|].
    exists r. replace (p1 + Z.of_nat i + 1) with (p1 + Z.of_nat (S i)) by lia.
    replace (Z.of_nat (length s1) - Z.of_nat i - 1) with (Z.of_nat (length s1) - Z.of_nat (S i)) by lia.
    split; [exact Er|]. destruct Hr as [(j & Hj & -> & Ho & Hk)|(-> & Hk)]; [left; exists j|right].
    + split_and!; auto; [lia|]. intros k Hkj. destruct (decide (k = i)) as [->|]; [exact Hno|]. apply Hk. lia.
    + split; [reflexivity|]. intros k Hki. destruct (decide (k = i)) as [->|]; [exact Hno|]. apply Hk. lia.
Qed.

(** *** [memchr_inv] *)

Lemma check_bytes8_app m n k start v : start > 0 ->
  check_bytes8_loop m (n + k) start v =
    (let r := check_bytes8_loop m n start v in
     if r =? 0 then check_bytes8_loop m k (start + Z.of_nat n) v else r).
Proof.
  cbn zeta. revert start. induction n as [|n IH]; intros start Hs; cbn [check_bytes8_loop Nat.add].
  - cbn [Z.eqb]. f_equal. lia.
  - destruct (Z.eqb_spec (ld m start) v) as [E|E]; cbn [negb].
    + rewrite IH by lia. destruct (_ =? 0); [f_equal; lia|reflexivity].
    + replace (start =? 0) with false by lia. reflexivity.
Qed.

Lemma check_bytes8_null m n start v : start > 0 ->
  check_bytes8_loop m n start v = 0 <-> bytes m start n = replicate n v.
Proof.
  revert start. induction n as [|n IH]; intros start Hs; cbn [check_bytes8_loop bytes replicate]; [split; reflexivity|].
  destruct (Z.eqb_spec (ld m start) v) as [E|E]; cbn [negb].
  - rewrite IH by lia. rewrite E. split; [congruence|]. intros [= H]. exact H.
  - split; [lia|]. intros [= H _]. contradiction.
Qed.

Definition value64 (v : Z) : Z :=
  let a := Z.lor v (u64 (Z.shiftl v 8)) in
  let b := Z.lor a (u64 (Z.shiftl a 16)) in
  Z.lor b (u64 (Z.shiftl b 32)).

Lemma value64_spec v : 0 <= v < 256 -> value64 v = v * 0x0101010101010101.
Proof.
  intros Hv. pose proof (Ctype.all_bytes_spec (fun v => value64 v =? v * 0x0101010101010101) v
    ltac:(vm_compute; reflexivity) Hv) as H. cbn beta in H. lia.
Qed.

Lemma bytes_8 m a : bytes m a 8 =
  [ld m a; ld m (a + 1); ld m (a + 2); ld m (a + 3); ld m (a + 4); ld m (a + 5); ld m (a + 6); ld m (a + 7)].
Proof.
  cbn [bytes]. replace (a + 1 + 1) with (a + 2) by lia. replace (a + 2 + 1) with (a + 3) by lia.
  replace (a + 3 + 1) with (a + 4) by lia. replace (a + 4 + 1) with (a + 5) by lia.
  replace (a + 5 + 1) with (a + 6) by lia. replace (a + 6 + 1) with (a + 7) by lia. reflexivity.
Qed.

Lemma ld64_value m a v : a > 0 -> 0 <= v < 256 -> (ld64 m a =? value64 v) = (check_bytes8 m a v 8 =? 0).
Proof.
  intros Ha Hv. unfold check_bytes8. change (Z.to_nat 8) with 8%nat.
  apply eq_true_iff_eq. rewrite !Z.eqb_eq, check_bytes8_null, value64_spec by assumption.
  rewrite bytes_8. unfold ld64, ld32. cbn [replicate].
  replace (a + 4 + 1) with (a + 5) by lia. replace (a + 4 + 2) with (a + 6) by lia.
  replace (a + 4 + 3) with (a + 7) by lia.
  pose proof (ld_range m a). pose proof (ld_range m (a + 1)). pose proof (ld_range m (a + 2)).
  pose proof (ld_range m (a + 3)). pose proof (ld_range m (a + 4)). pose proof (ld_range m (a + 5)).
  pose proof (ld_range m (a + 6)). pose proof (ld_range m (a + 7)).
  split; [|intros [= -> -> -> -> -> -> -> ->]; lia]. intros E.
  assert (forall b w w', 0 <= b < 256 -> b + 2 ^ 8 * w = v + 2 ^ 8 * w' -> b = v /\ w = w') as Hd
    by (clear - Hv; intros; lia).
  set (x7 := v). set (x6 := v + 2 ^ 8 * x7). set (x5 := v + 2 ^ 8 * x6). set (x4 := v + 2 ^ 8 * x5).
  set (x3 := v + 2 ^ 8 * x4). set (x2 := v + 2 ^ 8 * x3). set (x1 := v + 2 ^ 8 * x2).
  destruct (Hd (ld m a) (ld m (a + 1) + 2 ^ 8 * (ld m (a + 2) + 2 ^ 8 * (ld m (a + 3) + 2 ^ 8 * (ld m (a + 4) +
    2 ^ 8 * (ld m (a + 5) + 2 ^ 8 * (ld m (a + 6) + 2 ^ 8 * ld m (a + 7))))))) x1) as [-> E1];
    [assumption|subst x1 x2 x3 x4 x5 x6 x7; lia|].
  apply Hd in E1 as [-> E1]; [|assumption]. apply Hd in E1 as [-> E1]; [|assumption].
  apply Hd in E1 as [-> E1]; [|assumption]. apply Hd in E1 as [-> E1]; [|assumption].
  apply Hd in E1 as [-> E1]; [|assumption]. apply Hd in E1 as [-> E1]; [|assumption].
  rewrite E1. reflexivity.
Qed.

(** The word loop is the byte loop. *)
Lemma inv_loop_spec m v r : 0 <= v < 256 -> forall words start, start > 0 ->
  match inv_loop m words start v (value64 v) with
  | inl p => p
  | inr start' => check_bytes8_loop m r start' v
  end = check_bytes8_loop m (8 * words + r) start v.
Proof.
  intros Hv. induction words as [|w IH]; intros start Hs; [reflexivity|]. cbn [inv_loop].
  replace (8 * S w + r)%nat with (8 + (8 * w + r))%nat by lia. rewrite check_bytes8_app by exact Hs. cbn zeta.
  rewrite ld64_value by assumption. unfold check_bytes8. change (Z.to_nat 8) with 8%nat.
  destruct (check_bytes8_loop m 8 start v =? 0) eqn:E; cbn [negb]; [|reflexivity]. apply IH. lia.
Qed.

Lemma strncasecmp_loop_spec m s : forall t fuel p q n, cstr m p s -> cstr m q t ->
  (length s < fuel)%nat -> Z.of_nat (S n) < 2 ^ 32 ->
  exists r, strncasecmp_loop m fuel p q (Z.of_nat (S n)) = Some r /\
    (r = 0 <-> take (S n) (map tolower s) = take (S n) (map tolower t)).
Proof.
  induction s as [|c s IH]; intros t fuel p q n Hs Ht Hf Hn; (destruct fuel as [|fuel]; [cbn in Hf; lia|]);
    cbn [strncasecmp_loop].
  - apply cstr_nil in Hs. rewrite Hs. cbn [Z.eqb]. eexists. split; [reflexivity|].
    destruct t as [|d t]; [apply cstr_nil in Ht|apply cstr_cons in Ht as (Hd & Ht & _)]; rewrite Ht; cbn;
      [tauto|split; [lia|discriminate]].
  - apply cstr_cons in Hs as (Hc & Ec & Hs). rewrite Ec. replace (c =? 0) with false by lia.
    destruct t as [|d t].
    { apply cstr_nil in Ht. rewrite Ht. cbn [Z.eqb]. eexists. split; [reflexivity|].
      cbn. split; [lia|discriminate]. }
    apply cstr_cons in Ht as (Hd & Ed & Ht). rewrite Ed. replace (d =? 0) with false by lia.
    replace (u32 (Z.of_nat (S n) - 1)) with (Z.of_nat n) by (rewrite u32_small; lia). cbn in Hf.
    assert (exists r, (if Z.of_nat n =? 0 then Some 0 else strncasecmp_loop m fuel (p + 1) (q + 1) (Z.of_nat n)) = Some r
      /\ (r = 0 <-> take n (map tolower s) = take n (map tolower t))) as (r & Er & Hr).
    { destruct n as [|n]; [exists 0; split; [reflexivity|cbn; tauto]|].
      replace (Z.of_nat (S n) =? 0) with false by lia. apply (IH t fuel (p + 1) (q + 1) n); auto; lia. }
    cbn [map take]. destruct (Z.eqb_spec c d) as [->|Hne].
    + rewrite Z.sub_diag. exists r. split; [exact Er|]. rewrite Hr. split; [congruence|]. intros [= H]. exact H.
    + destruct (Z.eqb_spec (tolower c) (tolower d)) as [E|E]; cbn [negb].
      * rewrite E, Z.sub_diag. exists r. split; [exact Er|]. rewrite Hr. split; [congruence|]. intros [= H]. exact H.
      * eexists. split; [reflexivity|]. split; [lia|]. intros [= H _]. contradiction.
Qed.

(** *** Splitting *)

(** Writing a NUL over character [k] cuts the string in two. *)
Lemma cut_cstr m p s k : cstr m p s -> (k < length s)%nat ->
  cstr (st m (p + Z.of_nat k) 0) p (take k s) /\
  cstr (st m (p + Z.of_nat k) 0) (p + Z.of_nat k + 1) (drop (S k) s).
Proof.
  intros H Hk. split.
  - pose proof H as (E & Hn & _). assert (length (take k s) = k) as Hl by (rewrite length_take; lia).
    apply cstr_intro; rewrite ?Hl; [|apply Forall_take; exact Hn|apply ld_st_same].
    rewrite <- (bytes_take m p s k E) by lia. apply bytes_ext. intros a Ha. apply ld_st_other. lia.
  - apply cstr_st; [|lia]. replace (p + Z.of_nat k + 1) with (p + Z.of_nat (S k)) by lia.
    apply cstr_drop; [exact H|lia].
Qed.

(** What is left of [s] at [p] for the next call: cut after its first token. *)
Definition split_at (m' : mem) (p : Z) (s : list Z) (k : nat) (next : Z) : Prop :=
  cstr m' p (take k s) /\
  if decide (k < length s)%nat then next = p + Z.of_nat k + 1 /\ cstr m' next (drop (S k) s) else next = NULL.

Lemma take_prefix_all f s : ~ (prefix_len f s < length s)%nat -> take (prefix_len f s) s = s.
Proof. intros H. apply take_ge. lia. Qed.

(** *** Single characters *)

Lemma strchr_cstr m s : forall fuel p c, cstr m p s -> (length s < fuel)%nat -> u8 c <> 0 ->
  let k := prefix_len (fun d => negb (d =? u8 c)) s in
  strchr m fuel p c = Some (if decide (k < length s)%nat then p + Z.of_nat k else NULL).
Proof.
  induction s as [|d s IH]; intros fuel p c H Hf Hc; (destruct fuel as [|fuel]; [cbn in Hf; lia|]); cbn [strchr].
  - apply cstr_nil in H. rewrite H. replace (0 =? u8 c) with false by lia. reflexivity.
  - apply cstr_cons in H as (Hd & E & H). rewrite E. replace (d =? 0) with false by lia.
    cbn [length prefix_len] in *. destruct (d =? u8 c); cbn [negb].
    + f_equal. destruct (decide (0 < S (length s))%nat); lia.
    + rewrite (IH fuel (p + 1) c H) by (auto; lia). f_equal. apply found_succ.
Qed.

Lemma memchr_spec m s c n : 0 <= n ->
  let k := prefix_len (fun d => negb (u8 c =? d)) (bytes m s (Z.to_nat n)) in
  memchr m s c n = if Z.of_nat k <? n then s + Z.of_nat k else NULL.
Proof.
  intros Hn. cbn zeta. unfold memchr. rewrite <- (Z2Nat.id n) at 3 by exact Hn. generalize (Z.to_nat n). clear n Hn.
  intros n. revert s. induction n as [|n IH]; intros s; cbn [memchr_loop bytes prefix_len]; [reflexivity|].
  destruct (u8 c =? ld m s); cbn [negb].
  - replace (Z.of_nat 0 <? Z.of_nat (S n)) with true by lia. lia.
  - rewrite IH. case_bools; lia.
Qed.

Lemma memscan_spec m s c n : 0 <= n ->
  memscan m s c n = s + Z.of_nat (prefix_len (fun d => negb (d =? c)) (bytes m s (Z.to_nat n))).
Proof.
  intros _. unfold memscan. generalize (Z.to_nat n). clear n. intros n. revert s.
  induction n as [|n IH]; intros s; cbn [memscan_loop bytes prefix_len]; [lia|].
  destruct (ld m s =? c); cbn [negb]; [lia|]. rewrite IH. lia.
Qed.

(** Searching from the end finds the last occurrence. *)
Lemma strrchr_loop_spec m s c k : forall fuel, (k < fuel)%nat -> 0 < s ->
  exists r, strrchr_loop m fuel (s + Z.of_nat k) s c = Some r /\
    ((exists j, (j <= k)%nat /\ r = s + Z.of_nat j /\ ld m r = u8 c /\
        forall i, (j < i <= k)%nat -> ld m (s + Z.of_nat i) <> u8 c) \/
     (r = NULL /\ forall i, (i <= k)%nat -> ld m (s + Z.of_nat i) <> u8 c)).
Proof.
  induction k as [|k IH]; intros fuel Hf Hs; (destruct fuel as [|fuel]; [lia|]); cbn [strrchr_loop].
  - destruct (Z.eqb_spec (ld m (s + Z.of_nat 0)) (u8 c)) as [E|E].
    + eexists. split; [reflexivity|left]. exists 0%nat. split_and!; auto; lia.
    + replace (s <=? s + Z.of_nat 0 - 1) with false by lia. exists NULL. split; [reflexivity|right].
      split; [reflexivity|]. intros i Hi. replace i with 0%nat by lia. exact E.
  - destruct (Z.eqb_spec (ld m (s + Z.of_nat (S k))) (u8 c)) as [E|E].
    + eexists. split; [reflexivity|left]. exists (S k). split_and!; auto; lia.
    + replace (s <=? s + Z.of_nat (S k) - 1) with true by lia.
      replace (s + Z.of_nat (S k) - 1) with (s + Z.of_nat k) by lia.
      destruct (IH fuel ltac:(lia) Hs) as (r & Er & Hr). exists r. split; [exact Er|].
      destruct Hr as [(j & Hj & -> & Hl & Hi)|(-> & Hi)]; [left; exists j|right]; split_and!; auto; try lia;
        intros i Hik; (destruct (decide (i = S k)) as [->|]; [exact E|apply Hi; lia]).
Qed.

(** *** Swapping *)

Fixpoint swap_pairs (s : list Z) : list Z :=
  match s with
  | a :: b :: s => b :: a :: swap_pairs s
  | _ => s
  end.

Lemma strswab_loop_spec fuel : forall m p s, cstr m p s -> (length s < fuel)%nat ->
  exists m', strswab_loop fuel m p (p + 1) = Some m' /\ cstr m' p (swap_pairs s) /\
    forall x, x < p \/ p + Z.of_nat (length s) <= x -> ld m' x = ld m x.
Proof.
  induction fuel as [|fuel IH]; intros m p s H Hf; [lia|]. cbn [strswab_loop].
  destruct s as [|a [|b s]].
  - pose proof H as Hz. apply cstr_nil in Hz. rewrite Hz. exists m. auto.
  - pose proof H as Hz. apply cstr_cons in Hz as (_ & _ & Hz). apply cstr_nil in Hz. rewrite Hz, andb_false_r.
    exists m. auto.
  - apply cstr_cons in H as (Ha & Ea & H). apply cstr_cons in H as (Hb & Eb & H). rewrite Ea, Eb.
    replace (negb (a =? 0) && negb (b =? 0)) with true by lia. cbn [length] in Hf.
    replace (p + 1 + 2) with (p + 2 + 1) by lia. replace (p + 1 + 1) with (p + 2) in H by lia.
    destruct (IH (st (st m p b) (p + 1) a) (p + 2) s) as (m' & E & Hs & Hout);
      [apply cstr_st; [apply cstr_st; [exact H|lia]|lia]|lia|].
    exists m'. split; [exact E|]. pose proof (ld_range m p) as Ra. pose proof (ld_range m (p + 1)) as Rb.
    split; [|intros x Hx; cbn [length] in Hx; rewrite Hout, !ld_st_other by lia; reflexivity].
    cbn [swap_pairs]. apply cstr_cons. split_and!; [exact Hb| |].
    + rewrite Hout, ld_st_other, ld_st_same by lia. apply u8_small. lia.
    + apply cstr_cons. split_and!; [exact Ha| |].
      * rewrite Hout, ld_st_same by lia. apply u8_small. lia.
      * replace (p + 1 + 1) with (p + 2) by lia. exact Hs.
Qed.

(** ** The properties *)

(** [memmove] copies correctly whether or not the ranges overlap: the
    destination holds what the source held before, every other byte is
    unchanged, and the word-wide copy inside [memcpy] is not observable. *)
Theorem memmove_copies m dest src count : 0 <= count ->
  (memmove m dest src count).1 = dest /\ moved m dest src count (memmove m dest src count).2.
Proof.
  intros Hn. split; [unfold memmove; case_match; reflexivity|apply memmove_moved; exact Hn].
Qed.

Lemma memmove_copies_witness :
  moved (mem_of 0x1000 [1; 2; 3; 4; 5; 6]) 0x1002 0x1000 4 (memmove (mem_of 0x1000 [1; 2; 3; 4; 5; 6]) 0x1002 0x1000 4).2.
Proof. apply (memmove_copies (mem_of 0x1000 [1; 2; 3; 4; 5; 6]) 0x1002 0x1000 4). lia. Defined.

(** [memset] fills exactly the range, whatever the alignment and the length. *)
Theorem memset_fills m s c count : 0 <= count -> filled m s c count (memset m s c count).2.
Proof. apply memset_filled. Qed.

Lemma memset_fills_witness : filled (mem_of 0 []) 0x1000 0x1ff 7 (memset (mem_of 0 []) 0x1000 0x1ff 7).2.
Proof. apply (memset_fills (mem_of 0 []) 0x1000 0x1ff 7). lia. Defined.

(** [strcmp] returns 0 exactly on equal strings, and for ASCII strings the sign
    of its result is their lexicographic order. *)
Theorem strcmp_decides m cs ct s t fuel : cstr m cs s -> cstr m ct t -> (length s < fuel)%nat ->
  exists r, strcmp m fuel cs ct = Some r /\ (r = 0 <-> s = t) /\
    (Forall (fun c => c < 128) s -> Forall (fun c => c < 128) t -> Z.sgn r = sign_of (lex s t)).
Proof.
  intros Hs Ht Hf. exists (first_diff s t). split; [apply strcmp_first_diff; assumption|].
  pose proof (cstr_bytes_range _ _ _ Hs) as Rs. pose proof (cstr_bytes_range _ _ _ Ht) as Rt.
  split; [apply first_diff_zero; assumption|]. intros As At.
  apply first_diff_ascii; rewrite Forall_forall in *; intros x Hx; [specialize (Rs x Hx); specialize (As x Hx)|
    specialize (Rt x Hx); specialize (At x Hx)]; cbn beta in *; lia.
Qed.

Definition two_strings : mem := mem_of 0x100 [97; 98; 0; 97; 99; 0].

Lemma two_strings_cstr : cstr two_strings 0x100 [97; 98] /\ cstr two_strings 0x103 [97; 99].
Proof. split; (apply cstr_intro; [reflexivity|repeat constructor; discriminate|reflexivity]). Qed.

Lemma strcmp_decides_witness : exists r, strcmp two_strings 3 0x100 0x103 = Some r /\ Z.sgn r = -1.
Proof.
  destruct (strcmp_decides two_strings 0x100 0x103 [97; 98] [97; 99] 3) as (r & E & _ & Hsgn);
    [apply two_strings_cstr..|cbn; lia|]. exists r. split; [exact E|].
  rewrite Hsgn; [reflexivity|repeat constructor; lia..].
Defined.

(** The difference is kept in a [signed char], so strings that first differ in
    characters more than 128 apart are ordered the wrong way round. *)
Theorem strcmp_misorders m cs ct s c d t1 t2 fuel :
  cstr m cs (s ++ c :: t1) -> cstr m ct (s ++ d :: t2) -> c + 128 < d -> (length (s ++ c :: t1) < fuel)%nat ->
  exists r, strcmp m fuel cs ct = Some r /\ 0 < r.
Proof.
  intros Hs Ht Hcd Hf. exists (first_diff (s ++ c :: t1) (s ++ d :: t2)).
  split; [apply strcmp_first_diff; assumption|].
  pose proof (cstr_bytes_range _ _ _ Hs) as Rs. pose proof (cstr_bytes_range _ _ _ Ht) as Rt.
  clear Hs Ht Hf. induction s as [|x s IH]; cbn [app first_diff] in *.
  - apply Forall_cons_1 in Rs as [Hc _]. apply Forall_cons_1 in Rt as [Hd _].
    replace (c =? d) with false by lia. unfold sgn, wrap. change (2 ^ (8 - 1)) with 128. change (2 ^ 8) with 256.
    replace ((c - d) mod 256) with (c - d + 256) by (apply (Z.mod_unique _ _ (-1)); lia).
    case_bools; lia.
  - rewrite Z.eqb_refl. apply Forall_cons_1 in Rs as [_ Rs]. apply Forall_cons_1 in Rt as [_ Rt]. auto.
Qed.

Lemma strcmp_misorders_witness :
  exists r, strcmp (mem_of 0x100 [97; 0; 233; 0]) 2 0x100 0x102 = Some r /\ 0 < r.
Proof.
  apply (strcmp_misorders (mem_of 0x100 [97; 0; 233; 0]) 0x100 0x102 [] 97 233 [] [] 2);
    [apply cstr_intro; [reflexivity|repeat constructor; discriminate|reflexivity]..|lia|cbn; lia].
Defined.

(** [strcasecmp] returns 0 exactly when the strings agree up to case. *)
Theorem strcasecmp_decides m s1 s2 s t fuel : cstr m s1 s -> cstr m s2 t -> (length s < fuel)%nat ->
  Z.of_nat (length s) < 2 ^ 32 - 1 -> Z.of_nat (length t) < 2 ^ 32 - 1 ->
  exists r, strcasecmp m fuel s1 s2 = Some r /\ (r = 0 <-> map tolower s = map tolower t).
Proof.
  intros Hs Ht Hf Ls Lt. unfold strcasecmp, strncasecmp. change (u32 (-1) =? 0) with false. cbn iota.
  destruct (Z_of_nat_complete (2 ^ 32 - 2) ltac:(lia)) as [n Hn].
  replace (u32 (-1)) with (Z.of_nat (S n)) by (change (u32 (-1)) with (2 ^ 32 - 1); lia).
  destruct (strncasecmp_loop_spec m s t fuel s1 s2 n Hs Ht Hf ltac:(lia)) as (r & E & Hr).
  exists r. split; [exact E|].
  rewrite Hr, !take_ge by (rewrite length_map; lia). reflexivity.
Qed.

Lemma strcasecmp_decides_witness :
  exists r, strcasecmp (mem_of 0x100 [65; 98; 0; 97; 66; 0]) 3 0x100 0x103 = Some r /\ r = 0.
Proof.
  destruct (strcasecmp_decides (mem_of 0x100 [65; 98; 0; 97; 66; 0]) 0x100 0x103 [65; 98] [97; 66] 3) as (r & E & Hr);
    [apply cstr_intro; [reflexivity|repeat constructor; discriminate|reflexivity]..|cbn; lia|cbn; lia|cbn; lia|].
  exists r. split; [exact E|]. apply Hr. reflexivity.
Defined.

(** [strlcpy] always leaves a terminated string in a non-empty buffer: the source
    cut to [size - 1] characters.  It returns the length of the source, and
    writes nothing outside the buffer. *)
Theorem strlcpy_bounded m dest src size s fuel : cstr m src s -> (length s < fuel)%nat -> 0 < size ->
  copies_forward dest src (Z.of_nat (length s)) ->
  exists m', strlcpy fuel m dest src size = Some (Z.of_nat (length s), m') /\
    cstr m' dest (take (Z.to_nat (size - 1)) s) /\
    forall a, ~ (dest <= a < dest + size) -> ld m' a = ld m a.
Proof.
  intros Hs Hf Hsz Hfw. unfold strlcpy. rewrite (strlen_cstr m s) by assumption. cbn [mbind option_bind].
  replace (size =? 0) with false by lia. eexists. split; [reflexivity|].
  set (k := Nat.min (Z.to_nat (size - 1)) (length s)).
  assert ((if size <=? Z.of_nat (length s) then size - 1 else Z.of_nat (length s)) = Z.of_nat k) as ->
    by (unfold k; case_bools; lia).
  assert (moved m dest src (Z.of_nat k) (memcpy m dest src (Z.of_nat k)).2) as Hm
    by (apply memcpy_moved; unfold copies_forward in *; lia).
  split.
  - replace (take (Z.to_nat (size - 1)) s) with (take k s).
    + apply (truncated_cstr m dest src); [exact Hs|lia|exact Hm].
    + unfold k. destruct (Nat.min_spec (Z.to_nat (size - 1)) (length s)) as [[_ ->]|[Hge ->]]; [reflexivity|].
      rewrite !take_ge by lia. reflexivity.
  - intros a Ha. rewrite ld_st_other by lia. rewrite (Hm a).
    replace ((dest <=? a) && (a <? dest + Z.of_nat k)) with false by lia. reflexivity.
Qed.

Lemma strlcpy_bounded_witness :
  exists m', strlcpy 3 two_strings 0x200 0x100 2 = Some (2, m') /\ cstr m' 0x200 [97].
Proof.
  destruct (strlcpy_bounded two_strings 0x200 0x100 2 [97; 98] 3) as (m' & E & H & _);
    [apply two_strings_cstr|cbn; lia|lia|right; cbn; lia|]. exists m'. split; [exact E|exact H].
Defined.

(** [strcat] appends: the destination holds the concatenation, and only the
    bytes after the old contents change. *)
Theorem strcat_appends m dest src s t fuel : cstr m dest s -> cstr m src t ->
  (length s < fuel)%nat -> (length t < fuel)%nat ->
  copies_forward (dest + Z.of_nat (length s)) src (Z.of_nat (length t) + 1) ->
  exists m', strcat fuel m dest src = Some (dest, m') /\ cstr m' dest (s ++ t) /\
    forall a, a < dest + Z.of_nat (length s) \/ dest + Z.of_nat (length s + length t) < a -> ld m' a = ld m a.
Proof.
  intros Hs Ht Hf1 Hf2 Hfw. unfold strcat. rewrite (strlen_loop_cstr m s) by assumption. cbn [mbind option_bind].
  rewrite (strcpy_loop_copies t) by assumption. cbn [mbind option_bind]. eexists. split; [reflexivity|].
  set (d := dest + Z.of_nat (length s)) in *.
  pose proof (copy_bytes_moved (S (length t)) m d src ltac:(unfold copies_forward in *; lia)) as Hm.
  set (m' := copy_bytes (S (length t)) m d src) in *.
  assert (cstr m' d t) as Ht' by (eapply moved_cstr; [exact Ht|exact Hm|lia]).
  assert (forall a, a < d \/ d + Z.of_nat (length t) < a -> ld m' a = ld m a) as Hout.
  { intros a Ha. rewrite (Hm a). replace ((d <=? a) && (a <? d + Z.of_nat (S (length t)))) with false by lia. reflexivity. }
  split; [|intros a Ha; apply Hout; lia].
  destruct Hs as (Es & Ns & _). destruct Ht' as (Et & Nt & Zt). apply cstr_intro.
  - rewrite length_app, bytes_app. fold d. rewrite Et. f_equal. rewrite <- Es at 2. apply bytes_ext. intros a Ha. apply Hout. lia.
  - apply Forall_app. auto.
  - rewrite length_app. replace (dest + Z.of_nat (length s + length t)) with (d + Z.of_nat (length t)) by lia. exact Zt.
Qed.

Lemma strcat_appends_witness :
  exists m', strcat 3 (wr two_strings 0x200 [97; 0]) 0x200 0x100 = Some (0x200, m') /\ cstr m' 0x200 [97; 97; 98].
Proof.
  destruct (strcat_appends (wr two_strings 0x200 [97; 0]) 0x200 0x100 [97] [97; 98] 3) as (m' & E & H & _);
    [apply cstr_intro; [reflexivity|repeat constructor; discriminate|reflexivity]..|cbn; lia|cbn; lia|right; cbn; lia|].
  exists m'. split; [exact E|exact H].
Defined.

(** [strncat] appends at most [count] characters and always terminates. *)
Theorem strncat_appends m dest src s t count fuel : cstr m dest s -> cstr m src t ->
  (length s < fuel)%nat -> (length t < fuel)%nat -> 0 < count < 2 ^ 32 ->
  copies_forward (dest + Z.of_nat (length s)) src (Z.of_nat (length t) + 1) ->
  exists m', strncat fuel m dest src count = Some (dest, m') /\ cstr m' dest (s ++ take (Z.to_nat count) t).
Proof.
  intros Hs Ht Hf1 Hf2 Hc Hfw. unfold strncat. replace (count =? 0) with false by lia.
  rewrite (strlen_loop_cstr m s) by assumption. cbn [mbind option_bind].
  destruct (strncat_loop_copies t m fuel (dest + Z.of_nat (length s)) src count Ht Hfw Hc Hf2) as (m' & E & Heq).
  rewrite E. cbn [mbind option_bind]. exists m'. split; [reflexivity|].
  set (k := Nat.min (Z.to_nat count) (length t)) in *. set (d := dest + Z.of_nat (length s)) in *.
  pose proof (copy_bytes_moved k m d src ltac:(unfold copies_forward in *; lia)) as Hm.
  pose proof (truncated_cstr m d src t k _ Ht ltac:(lia) Hm) as (Et & Nt & Zt).
  assert (take (Z.to_nat count) t = take k t) as ->.
  { unfold k. destruct (Nat.min_spec (Z.to_nat count) (length t)) as [[_ ->]|[Hge ->]]; [reflexivity|].
    rewrite !take_ge by lia. reflexivity. }
  destruct Hs as (Es & Ns & _). apply cstr_intro.
  - rewrite length_app, bytes_app. fold d. f_equal.
    + rewrite <- Es at 2. apply bytes_ext. intros a Ha. rewrite (Heq a), ld_st_other, (Hm a) by lia.
      replace ((d <=? a) && (a <? d + Z.of_nat k)) with false by lia. reflexivity.
    + rewrite <- Et at 2. apply bytes_ext. intros a _. apply Heq.
  - apply Forall_app. auto.
  - rewrite length_app, (Heq _). replace (dest + Z.of_nat (length s + length (take k t))) with (d + Z.of_nat (length (take k t))) by lia.
    exact Zt.
Qed.

Lemma strncat_appends_witness :
  exists m', strncat 3 (wr two_strings 0x200 [97; 0]) 0x200 0x100 1 = Some (0x200, m') /\ cstr m' 0x200 [97; 97].
Proof.
  destruct (strncat_appends (wr two_strings 0x200 [97; 0]) 0x200 0x100 [97] [97; 98] 1 3) as (m' & E & H);
    [apply cstr_intro; [reflexivity|repeat constructor; discriminate|reflexivity]..|cbn; lia|cbn; lia|lia|right; cbn; lia|].
  exists m'. split; [exact E|exact H].
Defined.

(** [strstr] finds the first occurrence, or reports that there is none. *)
Theorem strstr_first m p1 p2 s1 s2 fuel : cstr m p1 s1 -> cstr m p2 s2 ->
  (length s1 < fuel)%nat -> (length s2 < fuel)%nat ->
  exists r, strstr m fuel p1 p2 = Some r /\
    ((exists j, r = p1 + Z.of_nat j /\ occurs_at j s1 s2 /\ forall k, (k < j)%nat -> ~ occurs_at k s1 s2) \/
     (r = NULL /\ forall k, ~ occurs_at k s1 s2)).
Proof.
  intros H1 H2 Hf1 Hf2. unfold strstr. rewrite (strlen_cstr m s2 fuel p2) by assumption. cbn [mbind option_bind].
  destruct s2 as [|c s2].
  { exists p1. split; [reflexivity|left]. exists 0%nat. split_and!; [lia|split; [cbn; lia|reflexivity]|intros; lia]. }
  replace (Z.of_nat (length (c :: s2)) =? 0) with false by (cbn; lia).
  rewrite (strlen_cstr m s1) by assumption. cbn [mbind option_bind].
  destruct (strstr_loop_spec m p1 s1 p2 (c :: s2) H1 H2 ltac:(discriminate) fuel 0) as (r & E & Hr); [lia..|].
  change (Z.of_nat 0) with 0 in E. rewrite Z.add_0_r, Z.sub_0_r in E. exists r. split; [exact E|].
  destruct Hr as [(j & _ & -> & Ho & Hk)|(-> & Hk)]; [left|right].
  - exists j. split_and!; auto. intros k Hkj. apply Hk. lia.
  - split; [reflexivity|]. intros k. apply Hk. lia.
Qed.

Lemma strstr_first_witness : exists r, strstr two_strings 3 0x100 0x103 = Some r.
Proof.
  destruct (strstr_first two_strings 0x100 0x103 [97; 98] [97; 99] 3) as (r & E & _);
    [apply two_strings_cstr..|cbn; lia|cbn; lia|]. exists r. exact E.
Defined.

(** [memchr_inv], which compares eight bytes at a time once aligned, returns
    what the byte-by-byte scan of the whole range returns. *)
Theorem memchr_inv_scans m start c bytes : 0 < start -> 0 <= bytes ->
  memchr_inv m start c bytes = check_bytes8 m start (u8 c) bytes.
Proof.
  intros Hs Hb. unfold memchr_inv. destruct (Z.leb_spec bytes 16) as [|Hbig]; [reflexivity|].
  fold (value64 (u8 c)). set (v := u8 c). pose proof (u8_range c) as Hv. fold v in Hv.
  set (pre := if start mod 8 =? 0 then 0 else 8 - start mod 8).
  pose proof (Z.mod_pos_bound start 8 ltac:(lia)) as Hm.
  assert (0 <= pre < 8) as Hpre by (unfold pre; case_bools; lia).
  assert ((if start mod 8 =? 0 then NULL else check_bytes8 m start v (8 - start mod 8))
    = check_bytes8_loop m (Z.to_nat pre) start v) as ->.
  { unfold pre, check_bytes8. case_bools; reflexivity. }
  pose proof (Z.div_mod (bytes - pre) 8 ltac:(lia)) as Hdm.
  pose proof (Z.mod_pos_bound (bytes - pre) 8 ltac:(lia)) as Hmb.
  pose proof (Z.div_pos (bytes - pre) 8 ltac:(lia) ltac:(lia)) as Hdp.
  unfold check_bytes8. set (w := Z.to_nat ((bytes - pre) / 8)). set (r := Z.to_nat ((bytes - pre) mod 8)).
  replace (Z.to_nat bytes) with (Z.to_nat pre + (8 * w + r))%nat by lia.
  rewrite check_bytes8_app by lia. cbn zeta. rewrite Z2Nat.id by lia.
  destruct (check_bytes8_loop m (Z.to_nat pre) start v =? 0) eqn:E; cbn [negb]; [|reflexivity].
  unfold check_bytes8. fold r. apply inv_loop_spec; lia.
Qed.

Lemma memchr_inv_scans_witness :
  memchr_inv (mem_of 0x1003 (replicate 30 7)) 0x1003 7 30 = check_bytes8 (mem_of 0x1003 (replicate 30 7)) 0x1003 7 30.
Proof. apply (memchr_inv_scans (mem_of 0x1003 (replicate 30 7)) 0x1003 7 30); lia. Defined.

(** [strsep] cuts the string at its first delimiter: the token is the longest
    prefix without delimiters, the caller's pointer moves to what follows the
    delimiter or becomes [NULL], and the delimiter set is untouched. *)
Theorem strsep_splits m p ct s set fuel : cstr m p s -> cstr m ct set -> 0 < p ->
  ct + Z.of_nat (length set) < p \/ p + Z.of_nat (length s) < ct -> (length s + length set < fuel)%nat ->
  exists m' next, strsep fuel m p ct = Some (p, m', next) /\ cstr m' ct set /\
    split_at m' p s (prefix_len (fun c => negb (mem_of_set set c)) s) next.
Proof.
  intros Hs Hset Hp Hdis Hf. unfold strsep. replace (p =? NULL) with false by (unfold NULL; lia).
  rewrite (strpbrk_cstr m set ct Hset s fuel p Hs Hf). cbn [mbind option_bind]. unfold split_at.
  set (k := prefix_len _ s). destruct (decide (k < length s)%nat) as [Hk|Hk].
  - replace (p + Z.of_nat k =? NULL) with false by (unfold NULL; lia).
    eexists _, _. split; [reflexivity|]. destruct (cut_cstr m p s k Hs Hk) as [H1 H2].
    split_and!; auto. apply cstr_st; [exact Hset|lia].
  - exists m, NULL. split; [reflexivity|]. split_and!; auto. unfold k. rewrite take_prefix_all by exact Hk. exact Hs.
Qed.

(** "a,b" split at commas. *)
Definition comma_mem : mem := mem_of 0x100 [97; 44; 98; 0; 44; 0].

Lemma comma_cstr : cstr comma_mem 0x100 [97; 44; 98] /\ cstr comma_mem 0x104 [44].
Proof. split; (apply cstr_intro; [reflexivity|repeat constructor; discriminate|reflexivity]). Qed.

Lemma strsep_splits_witness :
  exists m' next, strsep 5 comma_mem 0x100 0x104 = Some (0x100, m', next) /\ cstr m' 0x100 [97].
Proof.
  destruct (strsep_splits comma_mem 0x100 0x104 [97; 44; 98] [44] 5) as (m' & next & E & _ & H);
    [apply comma_cstr..|lia|right; cbn; lia|cbn; lia|]. exists m', next. split; [exact E|apply H].
Defined.

(** [strtok] skips leading delimiters, returns the token before the next one and
    remembers where to go on; it returns [NULL] when only delimiters are left. *)
Theorem strtok_splits m tok p ct s set fuel : cstr m p s -> cstr m ct set -> 0 < p ->
  ct + Z.of_nat (length set) < p \/ p + Z.of_nat (length s) < ct -> (length s + length set < fuel)%nat ->
  let j := prefix_len (mem_of_set set) s in
  let rest := drop j s in
  if decide (rest = []) then strtok fuel m tok p ct = Some (NULL, m, NULL)
  else exists m' tok', strtok fuel m tok p ct = Some (p + Z.of_nat j, m', tok') /\ cstr m' ct set /\
    split_at m' (p + Z.of_nat j) rest (prefix_len (fun c => negb (mem_of_set set c)) rest) tok'.
Proof.
  intros Hs Hset Hp Hdis Hf. cbn zeta. unfold strtok. replace (p =? NULL) with false by (unfold NULL; lia).
  cbn iota. replace (p =? NULL) with false by (unfold NULL; lia).
  unfold strspn. rewrite (strspn_cstr m set ct Hset s fuel p 0 Hs Hf), Z.add_0_l. cbn [mbind option_bind].
  set (j := prefix_len (mem_of_set set) s). pose proof (prefix_len_le (mem_of_set set) s) as Hj. fold j in Hj.
  pose proof (cstr_drop m p s j Hs Hj) as Hrest.
  assert (length (drop j s) = length s - j)%nat as Hlen by apply length_drop.
  destruct (decide (drop j s = [])) as [E|E].
  - rewrite E in Hrest. apply cstr_nil in Hrest. rewrite Hrest. reflexivity.
  - destruct (drop j s) as [|c r] eqn:Er; [contradiction|]. rewrite <- Er in *.
    assert (ld m (p + Z.of_nat j) <> 0) as Hnz.
    { pose proof Hrest as H. rewrite Er in H. apply cstr_cons in H as (? & -> & _). assumption. }
    replace (ld m (p + Z.of_nat j) =? 0) with false by lia.
    rewrite (strpbrk_cstr m set ct Hset (drop j s) fuel (p + Z.of_nat j) Hrest) by lia.
    cbn [mbind option_bind]. unfold split_at. set (k := prefix_len _ (drop j s)).
    destruct (decide (k < length (drop j s))%nat) as [Hk|Hk].
    + destruct (lookup_lt_is_Some_2 (drop j s) k Hk) as [d Hd].
      pose proof (cstr_byte _ _ _ _ _ Hrest Hd) as Ed. pose proof (cstr_nonzero _ _ _ Hrest) as Hn.
      rewrite Forall_lookup in Hn. specialize (Hn k d Hd). cbn beta in Hn.
      replace (p + Z.of_nat j + Z.of_nat k =? NULL) with false by (unfold NULL; lia).
      replace (ld m (p + Z.of_nat j + Z.of_nat k) =? 0) with false by lia. cbn [negb andb].
      eexists _, _. split; [reflexivity|]. destruct (cut_cstr m (p + Z.of_nat j) (drop j s) k Hrest Hk) as [H1 H2].
      split_and!; auto. apply cstr_st; [exact Hset|lia].
    + cbn [negb Z.eqb NULL andb]. exists m, NULL. split; [reflexivity|]. split_and!; auto.
      unfold k. rewrite take_prefix_all by exact Hk. exact Hrest.
Qed.

Lemma strtok_splits_witness :
  exists m' tok, strtok 5 comma_mem 0 0x100 0x104 = Some (0x100, m', tok) /\ cstr m' 0x100 [97].
Proof.
  pose proof (strtok_splits comma_mem 0 0x100 0x104 [97; 44; 98] [44] 5) as H.
  destruct H as (m' & tok & E & _ & H); [apply comma_cstr..|lia|right; cbn; lia|cbn; lia|].
  exists m', tok. split; [exact E|apply H].
Defined.

(** [strrchr] finds the last occurrence, the terminator counting as a character. *)
Theorem strrchr_last m p s c fuel : cstr m p s -> 0 < p -> (length s < fuel)%nat ->
  exists r, strrchr m fuel p c = Some r /\
    ((exists j, (j <= length s)%nat /\ r = p + Z.of_nat j /\ ld m r = u8 c /\
        forall i, (j < i <= length s)%nat -> ld m (p + Z.of_nat i) <> u8 c) \/
     (r = NULL /\ forall i, (i <= length s)%nat -> ld m (p + Z.of_nat i) <> u8 c)).
Proof.
  intros H Hp Hf. unfold strrchr. rewrite (strlen_cstr m s) by assumption. cbn [mbind option_bind].
  apply strrchr_loop_spec; assumption.
Qed.

Lemma strrchr_last_witness : exists r, strrchr comma_mem 4 0x100 44 = Some r.
Proof.
  destruct (strrchr_last comma_mem 0x100 [97; 44; 98] 44 4) as (r & E & _); [apply comma_cstr|lia|cbn; lia|].
  exists r. exact E.
Defined.

(** [strswab] swaps the characters of each pair and leaves an odd last character
    and everything outside the string alone. *)
Theorem strswab_swaps m p s fuel : cstr m p s -> s <> [] -> 0 < p -> (length s < fuel)%nat ->
  exists m', strswab fuel m p = Some (p, m') /\ cstr m' p (swap_pairs s) /\
    forall x, x < p \/ p + Z.of_nat (length s) <= x -> ld m' x = ld m x.
Proof.
  intros H Hne Hp Hf. unfold strswab. replace (p =? NULL) with false by (unfold NULL; lia).
  replace (ld m p =? 0) with false.
  2:{ destruct s as [|c s]; [contradiction|]. apply cstr_cons in H as (Hc & E & _). lia. }
  destruct (strswab_loop_spec fuel m p s H Hf) as (m' & E & H1 & H2). cbn [orb]. rewrite E.
  exists m'. auto.
Qed.

Lemma strswab_swaps_witness : exists m', strswab 4 comma_mem 0x100 = Some (0x100, m') /\ cstr m' 0x100 [44; 97; 98].
Proof.
  destruct (strswab_swaps comma_mem 0x100 [97; 44; 98] 4) as (m' & E & H & _);
    [apply comma_cstr|discriminate|lia|cbn; lia|]. exists m'. split; [exact E|exact H].
Defined.

(** [strdup] with a working allocator returns a fresh copy and leaves the
    original alone.  The hypothesis on [malloc] is that it returns a block that
    does not overlap the string and does not touch the string. *)
Theorem strdup_copies malloc m p s new m1 fuel : cstr m p s -> 0 < p -> (length s < fuel)%nat ->
  malloc (Z.of_nat (length s) + 1) m = (new, m1) -> 0 < new ->
  new + Z.of_nat (length s) < p \/ p + Z.of_nat (length s) < new ->
  (forall a, p <= a <= p + Z.of_nat (length s) -> ld m1 a = ld m a) ->
  exists m', strdup malloc fuel m p = Some (new, m') /\ cstr m' new s /\ cstr m' p s.
Proof.
  intros H Hp Hf Hm Hnew Hdis Hkeep. unfold strdup. replace (p =? NULL) with false by (unfold NULL; lia).
  rewrite (strlen_cstr m s) by assumption. cbn [mbind option_bind]. rewrite Hm.
  replace (new =? NULL) with false by (unfold NULL; lia).
  assert (cstr m1 p s) as H1 by (apply (cstr_ext m); [intros a Ha; symmetry; apply Hkeep; lia|exact H]).
  unfold strcpy. rewrite (strcpy_loop_copies s m1) by (auto; unfold copies_forward; lia). cbn [mbind option_bind].
  eexists. split; [reflexivity|].
  pose proof (copy_bytes_moved (S (length s)) m1 new p ltac:(lia)) as Hc. split.
  - eapply moved_cstr; [exact H1|exact Hc|lia].
  - apply (cstr_ext m1); [|exact H1]. intros a Ha. rewrite (Hc a).
    replace ((new <=? a) && (a <? new + Z.of_nat (S (length s)))) with false by lia. reflexivity.
Qed.

Lemma strdup_copies_witness :
  exists m', strdup (fun _ m => (0x200, m)) 4 comma_mem 0x100 = Some (0x200, m') /\ cstr m' 0x200 [97; 44; 98].
Proof.
  destruct (strdup_copies (fun _ m => (0x200, m)) comma_mem 0x100 [97; 44; 98] 0x200 comma_mem 4) as (m' & E & H & _);
    [apply comma_cstr|lia|cbn; lia|reflexivity|lia|right; cbn; lia|reflexivity|].
  exists m'. split; [exact E|exact H].
Defined.

End CString.
