(* ===== verification/Strto.v ===== *)
(** * Strto: numbers on the command line

    U-Boot's lib/strto.c.  Every address and size the boot commands take is read
    by these routines.  [unsigned long] is 32 bits, [unsigned long long] 64; an
    overflowing number wraps. *)

From stdpp Require Import base list option.
From Stdlib Require Import ZifyBool.
From S2P Require Import Prelude Cmem Ctype CString.

Module Strto.
Import Ctype CString.

Definition EINVAL : Z := 22.

Section Run.
Context (m : mem).

Definition _parse_integer_fixup_radix (s base : Z) : Z * Z :=
  let base :=
    if base =? 0 then
      if ld m s =? 48 then
        if (tolower (ld m (s + 1)) =? 120) && isxdigit (ld m (s + 2)) then 16 else 8
      else 10
    else base in
  if (base =? 16) && (ld m s =? 48) && (tolower (ld m (s + 1)) =? 120) then (s + 2, base) else (s, base).

(** [isdigit( *cp ) ? *cp-'0' : (islower( *cp ) ? toupper( *cp ) : *cp)-'A'+10] *)
Definition digit_value (c : Z) : Z :=
  if isdigit c then c - 48 else (if islower c then toupper c else c) - 65 + 10.

(** The digit loop, for a result [w] bits wide. *)
Fixpoint digit_loop (w : Z) (fuel : nat) (cp base result : Z) : option (Z * Z) :=
  match fuel with
  | O => None
  | S n =>
    let c := ld m cp in
    if isxdigit c && (wrap w (digit_value c) <? base)
    then digit_loop w n (cp + 1) base (wrap w (result * base + wrap w (digit_value c)))
    else Some (result, cp)
  end.

(** The result and the value stored through [endp]. *)
Definition simple_strtoul (fuel : nat) (cp base : Z) : option (Z * Z) :=
  let (cp, base) := _parse_integer_fixup_radix cp base in digit_loop 32 fuel cp base 0.

Definition simple_strtoull (fuel : nat) (cp base : Z) : option (Z * Z) :=
  let (cp, base) := _parse_integer_fixup_radix cp base in digit_loop 64 fuel cp base 0.

(** The return code and [*res]. *)
Definition strict_strtoul (fuel : nat) (cp base : Z) : option (Z * Z) :=
  len ← strlen m fuel cp;
  if len =? 0 then Some (- EINVAL, 0) else
  '(val, tail) ← simple_strtoul fuel cp base;
  if tail =? cp then Some (- EINVAL, 0) else
  if (ld m tail =? 0) || ((len =? tail - cp + 1) && (ld m tail =? 10)) then Some (0, val)
  else Some (- EINVAL, 0).

Definition simple_strtol (fuel : nat) (cp base : Z) : option (Z * Z) :=
  if ld m cp =? 45 then
    '(r, e) ← simple_strtoul fuel (cp + 1) base; Some (sgn 32 (u32 (- r)), e)
  else '(r, e) ← simple_strtoul fuel cp base; Some (sgn 32 r, e).

(** The suffix switch of [ustrtoul] and [ustrtoull], with its fall-throughs. *)
Definition scale_suffix (w result endp : Z) : Z * Z :=
  let c := ld m endp in
  let skip := if ld m (endp + 1) =? 105 then if ld m (endp + 2) =? 66 then 3 else 2 else 0 in
  if c =? 71 then (wrap w (wrap w (wrap w (result * 1024) * 1024) * 1024), endp + skip)
  else if c =? 77 then (wrap w (wrap w (result * 1024) * 1024), endp + skip)
  else if (c =? 75) || (c =? 107) then (wrap w (result * 1024), endp + skip)
  else (result, endp).

Definition ustrtoul (fuel : nat) (cp base : Z) : option (Z * Z) :=
  '(result, endp) ← simple_strtoul fuel cp base; Some (scale_suffix 32 result endp).

Definition ustrtoull (fuel : nat) (cp base : Z) : option (Z * Z) :=
  '(result, endp) ← simple_strtoull fuel cp base; Some (scale_suffix 64 result endp).

(** [for (p = end - 1; p > str; p--) if (!isdigit( *p )) return ...;] *)
Fixpoint trailing_loop (k fuel : nat) (str p : Z) : option Z :=
  match k with
  | O => None
  | S k =>
    if str <? p then
      if negb (isdigit (ld m p)) then
        '(r, _) ← simple_strtoul fuel (p + 1) 10; Some (sgn 32 r)
      else trailing_loop k fuel str (p - 1)
    else Some (-1)
  end.

Definition trailing_strtoln (fuel : nat) (str end_ : Z) : option Z :=
  end_ ← (if end_ =? NULL then len ← strlen m fuel str; Some (str + len) else Some end_);
  if isdigit (ld m (end_ - 1)) then trailing_loop fuel fuel str (end_ - 1) else Some (-1).

Definition trailing_strtol (fuel : nat) (str : Z) : option Z := trailing_strtoln fuel str NULL.

End Run.

(** ** What the digits mean *)

Definition is_digit_of (base c : Z) : bool := isxdigit c && (digit_value c <? base).

Definition numeral (base : Z) (ds : list Z) (acc : Z) : Z :=
  fold_left (fun r c => r * base + digit_value c) ds acc.

Lemma digit_value_range c : 0 <= c < 256 -> isxdigit c = true -> 0 <= digit_value c < 16.
Proof.
  intros Hc. pose proof (all_bytes_spec (fun c => negb (isxdigit c) ||
    ((0 <=? digit_value c) && (digit_value c <? 16))) c ltac:(vm_compute; reflexivity) Hc) as H.
  cbn beta in H. intros E. rewrite E in H. cbn in H. lia.
Qed.

Lemma wrap_horner w r b v : 0 <= w -> wrap w (wrap w r * b + v) = wrap w (r * b + v).
Proof.
  intros. unfold wrap. rewrite <- (Z.add_mod_idemp_l (r mod 2 ^ w * b)), Z.mul_mod_idemp_l, Z.add_mod_idemp_l;
    [reflexivity|..]; pose proof (Z.pow_pos_nonneg 2 w); lia.
Qed.

(** The loop reads the longest run of digits of the base. *)
Lemma digit_loop_spec m w base : 4 <= w -> forall s fuel p r, cstr m p s -> (length s < fuel)%nat ->
  let k := prefix_len (is_digit_of base) s in
  digit_loop m w fuel p base (wrap w r) = Some (wrap w (numeral base (take k s) r), p + Z.of_nat k).
Proof.
  intros Hw. induction s as [|c s IH]; intros fuel p r H Hf; (destruct fuel as [|fuel]; [cbn in Hf; lia|]);
    cbn [digit_loop].
  - apply cstr_nil in H. rewrite H. change (isxdigit 0) with false. cbn. do 2 f_equal. lia.
  - pose proof (ld_range m p) as Hr. apply cstr_cons in H as (Hc & E & H). rewrite E in *.
    cbn [prefix_len]. unfold is_digit_of at 1 3. cbn [length] in Hf.
    destruct (isxdigit c) eqn:Ex; cbn [andb]; [|do 2 f_equal; lia].
    pose proof (digit_value_range c Hr Ex) as Hv.
    assert (wrap w (digit_value c) = digit_value c) as ->.
    { apply wrap_small. split; [lia|]. apply Z.lt_le_trans with (2 ^ 4); [lia|]. apply Z.pow_le_mono_r; lia. }
    destruct (digit_value c <? base); [|do 2 f_equal; lia].
    rewrite wrap_horner by lia. rewrite (IH fuel (p + 1) (r * base + digit_value c) H) by lia.
    cbn [take]. do 2 f_equal. lia.
Qed.

Lemma prefix_len_forall f s t : Forall (fun c => f c = true) s -> (forall c r, t = c :: r -> f c = false) ->
  prefix_len f (s ++ t) = length s.
Proof.
  intros Hs Ht. induction Hs as [|c s Hc Hs IH]; cbn [app prefix_len length].
  - destruct t as [|c t]; [reflexivity|]. cbn. rewrite (Ht c t eq_refl). reflexivity.
  - rewrite Hc. f_equal. exact IH.
Qed.

(** In a base that takes no prefix, the number is the longest run of digits. *)
Lemma strtoul_plain m fuel p s base : cstr m p s -> (length s < fuel)%nat -> base <> 0 -> base <> 16 ->
  let k := prefix_len (is_digit_of base) s in
  simple_strtoul m fuel p base = Some (u32 (numeral base (take k s) 0), p + Z.of_nat k).
Proof.
  intros H Hf H0 H16. unfold simple_strtoul, _parse_integer_fixup_radix.
  replace (base =? 0) with false by lia. replace (base =? 16) with false by lia. cbn [andb].
  exact (digit_loop_spec m 32 base ltac:(lia) s fuel p 0 H Hf).
Qed.

(** In base 16 a "0x" is skipped when it is there. *)
Lemma strtoul_hex m fuel p s : cstr m p s -> (length s < fuel)%nat ->
  ~ (exists c r, s = 48 :: c :: r /\ tolower c = 120) ->
  let k := prefix_len (is_digit_of 16) s in
  simple_strtoul m fuel p 16 = Some (u32 (numeral 16 (take k s) 0), p + Z.of_nat k).
Proof.
  intros H Hf Hno. unfold simple_strtoul, _parse_integer_fixup_radix. cbn [Z.eqb Pos.eqb andb].
  replace ((ld m p =? 48) && (tolower (ld m (p + 1)) =? 120)) with false.
  { exact (digit_loop_spec m 32 16 ltac:(lia) s fuel p 0 H Hf). }
  symmetry. apply andb_false_iff. destruct (Z.eqb_spec (ld m p) 48) as [E|E]; [right|left; reflexivity].
  apply Z.eqb_neq. intros Ex. destruct s as [|a s]; [apply cstr_nil in H; congruence|].
  apply cstr_cons in H as (_ & Ea & H). destruct s as [|c s].
  - apply cstr_nil in H. rewrite H in Ex. discriminate.
  - apply cstr_cons in H as (_ & Ec & _). apply Hno. exists c, s. split; [congruence|congruence].
Qed.

Lemma strtoul_0x m fuel p x s base : cstr m p (48 :: x :: s) -> tolower x = 120 -> (length s < fuel)%nat ->
  base = 16 \/ base = 0 /\ (exists c r, s = c :: r /\ isxdigit c = true) ->
  let k := prefix_len (is_digit_of 16) s in
  simple_strtoul m fuel p base = Some (u32 (numeral 16 (take k s) 0), p + 2 + Z.of_nat k).
Proof.
  intros H Hx Hf Hb. apply cstr_cons in H as (_ & E0 & H). apply cstr_cons in H as (_ & Ex & H).
  replace (p + 1 + 1) with (p + 2) in H by lia.
  unfold simple_strtoul, _parse_integer_fixup_radix. rewrite E0, Ex, Hx.
  assert ((if base =? 0 then if 48 =? 48 then if (120 =? 120) && isxdigit (ld m (p + 2)) then 16 else 8 else 10
    else base) = 16) as ->.
  { destruct Hb as [->|[-> (c & r & -> & Hc)]]; [reflexivity|]. apply cstr_cons in H as (_ & Ec & _).
    rewrite Ec, Hc. reflexivity. }
  cbn [Z.eqb Pos.eqb andb]. exact (digit_loop_spec m 32 16 ltac:(lia) s fuel (p + 2) 0 H Hf).
Qed.

(** ** Printing, for the round trip *)

Definition digit_char (d : Z) : Z := if d <? 10 then 48 + d else 97 + (d - 10).

Fixpoint print_loop (n : nat) (base v : Z) (acc : list Z) : list Z :=
  match n with
  | O => acc
  | S n =>
    let acc := digit_char (v mod base) :: acc in
    if v / base =? 0 then acc else print_loop n base (v / base) acc
  end.

Definition print_base (base v : Z) : list Z := print_loop 32 base v [].

Lemma digit_char_ok base d : 2 <= base <= 16 -> 0 <= d < base ->
  is_digit_of base (digit_char d) = true /\ digit_value (digit_char d) = d /\ 0 < digit_char d < 128.
Proof.
  intros Hb Hd. pose proof (all_bytes_spec (fun d => (16 <=? d) ||
    (isxdigit (digit_char d) && (digit_value (digit_char d) =? d) && (0 <? digit_char d) && (digit_char d <? 128)))
    d ltac:(vm_compute; reflexivity) ltac:(lia)) as H. cbn beta in H. unfold is_digit_of.
  destruct (isxdigit (digit_char d)); cbn [andb] in *; lia.
Qed.

Lemma print_loop_digits base : 2 <= base <= 16 -> forall n v acc, 0 <= v ->
  Forall (fun c => is_digit_of base c = true) acc ->
  Forall (fun c => is_digit_of base c = true) (print_loop n base v acc).
Proof.
  intros Hb. induction n as [|n IH]; intros v acc Hv Ha; cbn [print_loop]; [exact Ha|].
  pose proof (Z.mod_pos_bound v base ltac:(lia)) as Hm.
  assert (Forall (fun c => is_digit_of base c = true) (digit_char (v mod base) :: acc)) as Ha'
    by (constructor; [apply digit_char_ok; lia|exact Ha]).
  destruct (v / base =? 0); [exact Ha'|]. apply IH; [apply Z.div_pos; lia|exact Ha'].
Qed.

Lemma print_loop_value base : 2 <= base <= 16 -> forall n v acc, 0 <= v < 2 ^ Z.of_nat n -> (0 < n)%nat ->
  numeral base (print_loop n base v acc) 0 = numeral base acc v.
Proof.
  intros Hb. induction n as [|n IH]; intros v acc Hv Hn; [lia|]. cbn [print_loop].
  pose proof (Z.mod_pos_bound v base ltac:(lia)) as Hm. pose proof (Z.div_mod v base ltac:(lia)) as Hdm.
  pose proof (Z.div_pos v base ltac:(lia) ltac:(lia)) as Hdp.
  destruct (digit_char_ok base (v mod base) Hb Hm) as (_ & Hv0 & _).
  destruct (Z.eqb_spec (v / base) 0) as [E|E].
  - cbn [numeral fold_left]. unfold numeral. rewrite Hv0. f_equal. lia.
  - assert (v / base < 2 ^ Z.of_nat n) as Hlt.
    { apply Z.div_lt_upper_bound; [lia|]. rewrite Nat2Z.inj_succ, Z.pow_succ_r in Hv by lia. nia. }
    destruct n as [|n]; [cbn in Hlt; lia|].
    rewrite IH by lia. cbn [numeral fold_left]. unfold numeral. rewrite Hv0. f_equal. lia.
Qed.

Lemma print_base_value base v : 2 <= base <= 16 -> 0 <= v < 2 ^ 32 -> numeral base (print_base base v) 0 = v.
Proof. intros Hb Hv. unfold print_base. rewrite print_loop_value by (auto; lia). reflexivity. Qed.

Lemma print_base_digits base v : 2 <= base <= 16 -> 0 <= v ->
  Forall (fun c => is_digit_of base c = true) (print_base base v).
Proof. intros. apply print_loop_digits; auto. Qed.

Lemma print_base_prefix base v : 2 <= base <= 16 -> 0 <= v ->
  prefix_len (is_digit_of base) (print_base base v) = length (print_base base v).
Proof.
  intros Hb Hv. rewrite <- (app_nil_r (print_base base v)) at 1. apply prefix_len_forall; [|discriminate].
  apply print_base_digits; assumption.
Qed.

Lemma print_loop_grows n base : forall v acc, (length acc <= length (print_loop n base v acc))%nat.
Proof.
  induction n as [|n IH]; intros v acc; cbn [print_loop]; [lia|].
  destruct (v / base =? 0); cbn; [lia|]. etransitivity; [|apply IH]. cbn. lia.
Qed.

Lemma print_base_cons base v : 2 <= base <= 16 -> 0 <= v ->
  exists c r, print_base base v = c :: r /\ isxdigit c = true.
Proof.
  intros Hb Hv. pose proof (print_base_digits base v Hb Hv) as Hd.
  destruct (print_base base v) as [|c r] eqn:E.
  - exfalso. unfold print_base in E. cbn [print_loop] in E. change (Z.pos 1) with 1 in E.
    pose proof (print_loop_grows 31 base (v / base) [digit_char (v mod base)]) as Hg.
    destruct (v / base =? 0); [discriminate|]. unfold print_loop in Hg at 1. rewrite E in Hg. cbn in Hg. lia.
  - exists c, r. split; [reflexivity|]. apply Forall_cons_1 in Hd as [Hd _]. unfold is_digit_of in Hd.
    destruct (isxdigit c); [reflexivity|discriminate].
Qed.

(** No digit is an "x". *)
Lemma digit_not_x base c : 0 <= c < 256 -> is_digit_of base c = true -> tolower c <> 120.
Proof.
  intros Hc H. pose proof (all_bytes_spec (fun c => negb (isxdigit c) || negb (tolower c =? 120)) c
    ltac:(vm_compute; reflexivity) Hc) as H'. cbn beta in H'. unfold is_digit_of in H. lia.
Qed.

(** *** The trailing number *)

Lemma trailing_found m str fuel i : 0 < i -> isdigit (ld m (str + i)) = false -> forall d k, (d < k)%nat ->
  (forall x, i < x <= i + Z.of_nat d -> isdigit (ld m (str + x)) = true) ->
  trailing_loop m k fuel str (str + i + Z.of_nat d) =
    '(r, _) ← simple_strtoul m fuel (str + i + 1) 10; Some (sgn 32 r).
Proof.
  intros Hi Hno. induction d as [|d IH]; intros k Hk Hall; (destruct k as [|k]; [lia|]); cbn [trailing_loop].
  - rewrite Z.add_0_r. replace (str <? str + i) with true by lia. rewrite Hno. reflexivity.
  - replace (str <? str + i + Z.of_nat (S d)) with true by lia. rewrite <- Z.add_assoc, (Hall (i + Z.of_nat (S d))) by lia.
    cbn [negb]. replace (str + (i + Z.of_nat (S d)) - 1) with (str + i + Z.of_nat d) by lia.
    apply IH; [lia|]. intros x Hx. apply Hall. lia.
Qed.

Lemma trailing_none m str fuel : forall j k, (j < k)%nat ->
  (forall x, 0 < x <= Z.of_nat j -> isdigit (ld m (str + x)) = true) ->
  trailing_loop m k fuel str (str + Z.of_nat j) = Some (-1).
Proof.
  induction j as [|j IH]; intros k Hk Hall; (destruct k as [|k]; [lia|]); cbn [trailing_loop].
  - replace (str <? str + Z.of_nat 0) with false by lia. reflexivity.
  - replace (str <? str + Z.of_nat (S j)) with true by lia. rewrite Hall by lia. cbn [negb].
    replace (str + Z.of_nat (S j) - 1) with (str + Z.of_nat j) by lia. apply IH; [lia|]. intros x Hx. apply Hall. lia.
Qed.

Lemma digit_of_10 c : 0 <= c < 256 -> isdigit c = true -> is_digit_of 10 c = true.
Proof.
  intros Hc H. pose proof (all_bytes_spec (fun c => negb (isdigit c) || is_digit_of 10 c) c
    ltac:(vm_compute; reflexivity) Hc) as H'. cbn beta in H'. rewrite H in H'. exact H'.
Qed.

(** A digit of [ds] in its place in [pre ++ ds]. *)
Lemma suffix_digit m str pre ds x : cstr m str (pre ++ ds) -> Forall (fun c => isdigit c = true) ds ->
  Z.of_nat (length pre) <= x < Z.of_nat (length pre + length ds) -> isdigit (ld m (str + x)) = true.
Proof.
  intros H Hd Hx. destruct (lookup_lt_is_Some_2 ds (Z.to_nat x - length pre)) as [c Hc]; [lia|].
  rewrite <- (Z2Nat.id x) by lia. rewrite (cstr_byte m str (pre ++ ds) (Z.to_nat x) c H).
  - rewrite Forall_lookup in Hd. exact (Hd _ _ Hc).
  - rewrite lookup_app_r by lia. exact Hc.
Qed.

(** ** The properties *)

(** Reading back a printed number: decimal in base 10, hexadecimal in base 16
    with or without "0x", and "0x" in base 0, all give the number and leave
    [endp] at the terminator. *)
Theorem strtoul_roundtrip m p v fuel : 0 <= v < 2 ^ 32 ->
  (forall s, cstr m p s -> (length s < fuel)%nat -> forall base,
     (s = print_base 10 v /\ base = 10) \/ (s = print_base 16 v /\ base = 16) \/
     (s = 48 :: 120 :: print_base 16 v /\ (base = 16 \/ base = 0)) ->
     simple_strtoul m fuel p base = Some (v, p + Z.of_nat (length s))).
Proof.
  intros Hv s H Hf base Hcase.
  assert (forall b, 2 <= b <= 16 -> take (prefix_len (is_digit_of b) (print_base b v)) (print_base b v) = print_base b v) as Htk.
  { intros b Hb. rewrite print_base_prefix by lia. apply take_ge. lia. }
  destruct Hcase as [ [-> ->] | [ [-> ->] | [-> Hbase] ] ].
  - rewrite (strtoul_plain m fuel p (print_base 10 v) 10 H Hf) by lia.
    rewrite Htk, print_base_value, u32_small, print_base_prefix by lia. reflexivity.
  - rewrite (strtoul_hex m fuel p (print_base 16 v) H Hf).
    + rewrite Htk, print_base_value, u32_small, print_base_prefix by lia. reflexivity.
    + intros (c & r & E & Hx). pose proof (print_base_digits 16 v ltac:(lia) ltac:(lia)) as Hd.
      pose proof (cstr_bytes_range _ _ _ H) as Hr. rewrite E in Hd, Hr.
      apply Forall_cons_1 in Hd as [_ Hd]. apply Forall_cons_1 in Hd as [Hd _].
      apply Forall_cons_1 in Hr as [_ Hr]. apply Forall_cons_1 in Hr as [Hr _].
      exact (digit_not_x 16 c ltac:(lia) Hd Hx).
  - cbn [length] in *. destruct (print_base_cons 16 v ltac:(lia) ltac:(lia)) as (c & r & E & Hc).
    rewrite (strtoul_0x m fuel p 120 (print_base 16 v) base H eq_refl);
      [|lia|destruct Hbase as [-> | ->]; [left; reflexivity|right; split; [reflexivity|exists c, r; auto]]].
    rewrite Htk, print_base_value, u32_small, print_base_prefix by lia. do 2 f_equal. lia.
Qed.

Lemma strtoul_roundtrip_witness :
  simple_strtoul (mem_of 0x100 (48 :: 120 :: print_base 16 0x60000000 ++ [0])) 12 0x100 16 = Some (0x60000000, 0x10a).
Proof.
  apply (strtoul_roundtrip (mem_of 0x100 (48 :: 120 :: print_base 16 0x60000000 ++ [0])) 0x100 0x60000000 12 ltac:(lia)
    (48 :: 120 :: print_base 16 0x60000000)).
  - apply cstr_intro; [reflexivity|vm_compute; repeat constructor; discriminate|reflexivity].
  - vm_compute. lia.
  - right. right. auto.
Defined.

(** [strict_strtoul] accepts exactly the strings that are a number, optionally
    followed by one newline, and then stores it (modulo 2^32); everything else
    is [-EINVAL] with 0 stored. *)
Theorem strict_strtoul_accepts m p s fuel : cstr m p s -> (length s < fuel)%nat ->
  let k := prefix_len (is_digit_of 10) s in
  let ok := (0 < k)%nat /\ (k = length s \/ S k = length s /\ s !! k = Some 10) in
  (ok -> strict_strtoul m fuel p 10 = Some (0, u32 (numeral 10 (take k s) 0))) /\
  (~ ok -> strict_strtoul m fuel p 10 = Some (- EINVAL, 0)).
Proof.
  intros H Hf. cbn zeta. unfold strict_strtoul. rewrite (strlen_cstr m s) by assumption. cbn [mbind option_bind].
  rewrite (strtoul_plain m fuel p s 10 H Hf) by lia.
  pose proof (prefix_len_le (is_digit_of 10) s) as Hk. set (k := prefix_len (is_digit_of 10) s) in *.
  destruct (decide (length s = 0)%nat) as [E0|E0].
  { rewrite E0. cbn [Z.of_nat Z.eqb]. split; [lia|reflexivity]. }
  replace (Z.of_nat (length s) =? 0) with false by lia. cbn [mbind option_bind].
  destruct (decide (k = 0)%nat) as [Ek|Ek].
  { rewrite Ek. replace (p + Z.of_nat 0 =? p) with true by lia. split; [lia|reflexivity]. }
  replace (p + Z.of_nat k =? p) with false by lia.
  destruct (decide (k = length s)) as [El|El].
  - replace (ld m (p + Z.of_nat k) =? 0) with true by (rewrite El; destruct H as (_ & _ & ->); reflexivity).
    cbn [orb]. split; [reflexivity|]. intros Hno. exfalso. apply Hno. split; [lia|auto].
  - destruct (lookup_lt_is_Some_2 s k ltac:(lia)) as [c Hc]. rewrite (cstr_byte m p s k c H Hc), Hc.
    pose proof (cstr_nonzero _ _ _ H) as Hn. rewrite Forall_lookup in Hn. specialize (Hn k c Hc). cbn beta in Hn.
    replace (c =? 0) with false by lia. cbn [orb].
    destruct (decide (S k = length s /\ c = 10)) as [ [Es ->] |Hne].
    + replace ((Z.of_nat (length s) =? p + Z.of_nat k - p + 1) && (10 =? 10)) with true by lia.
      split; [reflexivity|]. intros Hno. exfalso. apply Hno. split; [lia|auto].
    + replace ((Z.of_nat (length s) =? p + Z.of_nat k - p + 1) && (c =? 10)) with false by lia.
      split; [|reflexivity]. intros [_ [?|[? Hc10]]]; [lia|]. exfalso. apply Hne. split; [assumption|congruence].
Qed.

Lemma strict_strtoul_accepts_witness :
  strict_strtoul (mem_of 0x100 [52; 50; 10; 0]) 4 0x100 10 = Some (0, 42).
Proof.
  apply (strict_strtoul_accepts (mem_of 0x100 [52; 50; 10; 0]) 0x100 [52; 50; 10] 4).
  - apply cstr_intro; [reflexivity|repeat constructor; discriminate|reflexivity].
  - cbn. lia.
  - vm_compute. split; [lia|right; split; reflexivity].
Defined.

(** [trailing_strtol] returns the number after the last non-digit when at least
    one more character precedes that non-digit; with a one-character prefix, or
    none, it returns -1 although the string ends in a number. *)
Theorem trailing_strtol_reads m str pre c ds fuel :
  cstr m str (pre ++ c :: ds) -> 0 < str -> isdigit c = false -> ds <> [] -> Forall (fun c => isdigit c = true) ds ->
  numeral 10 ds 0 < 2 ^ 31 -> (length (pre ++ c :: ds) < fuel)%nat ->
  trailing_strtol m fuel str = Some (if decide (pre = []) then -1 else numeral 10 ds 0).
Proof.
  intros H Hstr Hc Hne Hd Hv Hf. unfold trailing_strtol, trailing_strtoln. cbn [NULL Z.eqb].
  rewrite (strlen_cstr m (pre ++ c :: ds)) by assumption. cbn [mbind option_bind].
  assert (exists n, length ds = S n) as [n Hn] by (destruct ds; [contradiction|cbn; eauto]).
  assert (cstr m str ((pre ++ [c]) ++ ds)) as H2 by (rewrite <- app_assoc; exact H).
  assert (length (pre ++ [c]) = S (length pre)) as Hl1 by (rewrite length_app; cbn; lia).
  assert (length (pre ++ c :: ds) = length pre + 1 + length ds)%nat as Hl2 by (rewrite length_app; cbn; lia).
  rewrite Hl2 in *. pose proof (suffix_digit m str (pre ++ [c]) ds) as Hdig.
  replace (str + Z.of_nat (length pre + 1 + length ds) - 1) with (str + Z.of_nat (length pre + length ds)) by lia.
  rewrite (Hdig (Z.of_nat (length pre + length ds)) H2 Hd) by lia.
  destruct (decide (pre = [])) as [->|Hpre].
  - cbn [length Nat.add] in *. apply trailing_none; [lia|]. intros x Hx. apply (Hdig x H2 Hd). lia.
  - assert (length pre <> 0)%nat by (destruct pre; [contradiction|cbn; lia]).
    replace (str + Z.of_nat (length pre + length ds)) with (str + Z.of_nat (length pre) + Z.of_nat (length ds)) by lia.
    rewrite trailing_found; [|lia| |lia|].
    + pose proof (cstr_drop m str _ (S (length pre)) H2 ltac:(rewrite length_app; lia)) as Hds.
      rewrite <- Hl1, drop_app_length in Hds. rewrite Hl1 in Hds.
      replace (str + Z.of_nat (length pre) + 1) with (str + Z.of_nat (S (length pre))) by lia.
      rewrite (strtoul_plain m fuel _ ds 10 Hds) by lia. cbn [mbind option_bind].
      assert (prefix_len (is_digit_of 10) ds = length ds) as ->.
      { rewrite <- (app_nil_r ds) at 1. apply prefix_len_forall; [|discriminate].
        pose proof (cstr_bytes_range _ _ _ Hds) as Hr. rewrite Forall_forall in *. intros x Hx.
        apply digit_of_10; [specialize (Hr x Hx); cbn beta in Hr; lia|exact (Hd x Hx)]. }
      rewrite take_ge by lia. assert (0 <= numeral 10 ds 0) as Hge.
      { pose proof (cstr_bytes_range _ _ _ Hds) as Hr. clear - Hr Hd. assert (forall a, 0 <= a -> 0 <= numeral 10 ds a) as Hg; [|apply Hg; lia].
        induction ds as [|x ds IH]; intros a Ha; [exact Ha|]. apply Forall_cons_1 in Hd as [Hx Hd]. apply Forall_cons_1 in Hr as [Hr1 Hr].
        cbn [numeral fold_left]. apply IH; auto. unfold digit_value. rewrite Hx.
        rewrite isdigit_spec in Hx by lia. lia. }
      rewrite u32_small by lia. f_equal. unfold sgn. change (wrap 32 ?z) with (u32 z). rewrite u32_small by lia.
      change (2 ^ (32 - 1)) with (2 ^ 31). replace (numeral 10 ds 0 <? 2 ^ 31) with true by lia. reflexivity.
    + rewrite (cstr_byte m str (pre ++ c :: ds) (length pre) c H); [exact Hc|]. apply list_lookup_middle. reflexivity.
    + intros x Hx. apply (Hdig x H2 Hd). lia.
Qed.

Lemma trailing_strtol_reads_witness :
  trailing_strtol (mem_of 0x100 [109; 109; 99; 49; 50; 0]) 6 0x100 = Some 12 /\
  trailing_strtol (mem_of 0x100 [97; 49; 50; 0]) 6 0x100 = Some (-1).
Proof.
  split; [apply (trailing_strtol_reads (mem_of 0x100 [109; 109; 99; 49; 50; 0]) 0x100 [109; 109] 99 [49; 50] 6)|
          apply (trailing_strtol_reads (mem_of 0x100 [97; 49; 50; 0]) 0x100 [] 97 [49; 50] 6)];
    first [lia | discriminate | reflexivity | cbn; lia |
           apply cstr_intro; [reflexivity|repeat constructor; discriminate|reflexivity] | repeat constructor].
Defined.

(** A size suffix scales the number by 1024 per step, modulo 2^32. *)
Theorem ustrtoul_scales m p ds c rest fuel :
  cstr m p (ds ++ c :: rest) -> Forall (fun c => isdigit c = true) ds -> isxdigit c = false ->
  (length (ds ++ c :: rest) < fuel)%nat ->
  exists endp, ustrtoul m fuel p 10 = Some (u32 (numeral 10 ds 0 *
    (if c =? 71 then 2 ^ 30 else if c =? 77 then 2 ^ 20 else if (c =? 75) || (c =? 107) then 2 ^ 10 else 1)), endp).
Proof.
  intros H Hd Hc Hf. unfold ustrtoul. rewrite (strtoul_plain m fuel p _ 10 H Hf) by lia. cbn [mbind option_bind].
  assert (prefix_len (is_digit_of 10) (ds ++ c :: rest) = length ds) as ->.
  { apply prefix_len_forall.
    - pose proof (cstr_bytes_range _ _ _ H) as Hr. apply Forall_app in Hr as [Hr _]. rewrite Forall_forall in *. intros x Hx.
      apply digit_of_10; [specialize (Hr x Hx); cbn beta in Hr; lia|exact (Hd x Hx)].
    - intros x r [= <- _]. unfold is_digit_of. rewrite Hc. reflexivity. }
  rewrite take_app_length. unfold scale_suffix.
  rewrite (cstr_byte m p _ (length ds) c H (list_lookup_middle ds rest c _ eq_refl)).
  change (wrap 32 ?z) with (u32 z). set (n := numeral 10 ds 0).
  assert (forall x k, u32 (u32 x * k) = u32 (x * k)) as Hmul by (intros x k; apply Z.mul_mod_idemp_l; lia).
  destruct (c =? 71); [|destruct (c =? 77); [|destruct ((c =? 75) || (c =? 107))]]; eexists; do 2 f_equal;
    repeat (rewrite Hmul || rewrite <- Z.mul_assoc); rewrite ?Z.mul_1_r; f_equal; lia.
Qed.

Lemma ustrtoul_scales_witness :
  exists endp, ustrtoul (mem_of 0x100 [52; 77; 105; 66; 0]) 5 0x100 10 = Some (u32 (4 * 2 ^ 20), endp).
Proof.
  apply (ustrtoul_scales (mem_of 0x100 [52; 77; 105; 66; 0]) 0x100 [52] 77 [105; 66] 5);
    first [reflexivity | cbn; lia |
           apply cstr_intro; [reflexivity|repeat constructor; discriminate|reflexivity] | repeat constructor].
Defined.

End Strto.
