(* ===== verification/Charset.v ===== *)
(** * Charset: UTF-8 and UTF-16

    U-Boot's lib/charset.c, which the "%ls" format and the EFI code use.  The
    conversions read one array and write another; an array is the list of its
    elements, and the conversions give what they store, [None] when they read
    beyond the end of the source.  The theorems compare them with plain encoders
    of Unicode scalar values. *)

From stdpp Require Import base list option.
From Stdlib Require Import ZifyBool.
From S2P Require Import Prelude Cmem.

#[local] Ltac Zify.zify_post_hook ::= Z.to_euclidean_division_equations.

Module Charset.

Definition MAX_UTF8_PER_UTF16 : Z := 3.

Definition ld16 (m : mem) (a : Z) : Z := ld m a + 2 ^ 8 * ld m (a + 1).
Definition st16 (m : mem) (a v : Z) : mem := st (st m a v) (a + 1) (Z.shiftr v 8).

Fixpoint utf16_strlen (m : mem) (fuel : nat) (in_ : Z) (i : Z) : option Z :=
  match fuel with
  | O => None
  | S fuel => if negb (ld16 m (in_ + 2 * i) =? 0) then utf16_strlen m fuel in_ (i + 1) else Some i
  end.

Fixpoint utf16_strnlen (m : mem) (count : nat) (in_ : Z) (i : Z) : Z :=
  match count with
  | O => i
  | S count => if negb (ld16 m (in_ + 2 * i) =? 0) then utf16_strnlen m count in_ (i + 1) else i
  end.

Fixpoint utf16_strcpy (fuel : nat) (m : mem) (dest src : Z) : option mem :=
  match fuel with
  | O => None
  | S fuel =>
    let c := ld16 m src in
    let m := st16 m dest c in
    if negb (c =? 0) then utf16_strcpy fuel m (dest + 2) (src + 2) else Some m
  end.

(** [malloc] gives an address, or 0. *)
Definition utf16_strdup (malloc : Z -> Z) (fuel : nat) (m : mem) (s : Z) : option (Z * mem) :=
  if s =? 0 then Some (0, m) else
  len ← utf16_strlen m fuel s 0;
  let new := malloc (u32 ((len + 1) * 2)) in
  if new =? 0 then Some (0, m) else
  m ← utf16_strcpy fuel m new s; Some (new, m).

(** [utf16_to_utf8]: the bytes it stores. *)
Fixpoint to_utf8 (size : nat) (code_high : Z) (src : list Z) : option (list Z) :=
  match size, src with
  | O, _ => Some []
  | S _, [] => None
  | S size, code :: src' =>
    if negb (code_high =? 0) then
      if (0xDC00 <=? code) && (code <=? 0xDFFF) then
        let code := u32 (u32 (Z.shiftl (u32 (code_high - 0xD800)) 10) + (code - 0xDC00) + 0x10000) in
        rest ← to_utf8 size 0 src';
        Some (u8 (Z.lor (Z.shiftr code 18) 0xF0) :: u8 (Z.lor (Z.land (Z.shiftr code 12) 0x3F) 0x80) ::
              u8 (Z.lor (Z.land (Z.shiftr code 6) 0x3F) 0x80) :: u8 (Z.lor (Z.land code 0x3F) 0x80) :: rest)
      else
        rest ← to_utf8 size 0 src; Some (63 :: rest)
    else
      if code <=? 0x007F then
        rest ← to_utf8 size code_high src'; Some (u8 code :: rest)
      else if code <=? 0x07FF then
        rest ← to_utf8 size code_high src';
        Some (u8 (Z.lor (Z.shiftr code 6) 0xC0) :: u8 (Z.lor (Z.land code 0x3F) 0x80) :: rest)
      else if (0xD800 <=? code) && (code <=? 0xDBFF) then to_utf8 size code src'
      else if (0xDC00 <=? code) && (code <=? 0xDFFF) then
        rest ← to_utf8 size code_high src'; Some (63 :: rest)
      else if code <? 0x10000 then
        rest ← to_utf8 size code_high src';
        Some (u8 (Z.lor (Z.shiftr code 12) 0xE0) :: u8 (Z.lor (Z.land (Z.shiftr code 6) 0x3F) 0x80) ::
              u8 (Z.lor (Z.land code 0x3F) 0x80) :: rest)
      else
        rest ← to_utf8 size code_high src';
        Some (u8 (Z.lor (Z.shiftr code 18) 0xF0) :: u8 (Z.lor (Z.land (Z.shiftr code 12) 0x3F) 0x80) ::
              u8 (Z.lor (Z.land (Z.shiftr code 6) 0x3F) 0x80) :: u8 (Z.lor (Z.land code 0x3F) 0x80) :: rest)
  end.

Definition utf16_to_utf8 (src : list Z) (size : nat) : option (list Z) := to_utf8 size 0 src.

(** The loop over the extension bytes: the code, the size and the source left. *)
Fixpoint extension_loop (extension_bytes size : nat) (code : Z) (src : list Z) : option (Z * nat * list Z) :=
  match extension_bytes, size with
  | S extension_bytes, S size =>
    match src with
    | [] => None
    | b :: src =>
      if Z.land b 0xc0 =? 0x80 then
        extension_loop extension_bytes size (Z.lor (u32 (Z.shiftl code 6)) (Z.land b 0x3f)) src
      else Some (63, size, src)
    end
  | _, _ => Some (code, size, src)
  end.

Definition units (code : Z) : list Z :=
  if code <? 0x10000 then [u16 code]
  else [u16 (Z.shiftr code 10 + 0xd7c0); u16 (Z.lor (Z.land code 0x3ff) 0xdc00)].

(** [while (size--)], each round of which takes at least one from [size]. *)
Fixpoint to_utf16 (fuel size : nat) (src : list Z) : option (list Z) :=
  match fuel, size, src with
  | _, O, _ => Some []
  | O, _, _ => None
  | _, _, [] => None
  | S fuel, S size, b :: src' =>
    let '(code, extension_bytes, size, src) :=
      if b <=? 0x7f then (b, O, if b =? 0 then O else size, src')
      else if b <=? 0xbf then (63, O, size, src)
      else if b <=? 0xdf then (Z.land b 0x1f, 1%nat, size, src')
      else if b <=? 0xef then (Z.land b 0x0f, 2%nat, size, src')
      else if b <=? 0xf7 then (Z.land b 0x07, 3%nat, size, src')
      else (63, O, size, src) in
    '(code, size, src) ← extension_loop extension_bytes size code src;
    rest ← to_utf16 fuel size src; Some (units code ++ rest)
  end.

(** [utf8_to_utf16]: the units it stores. *)
Definition utf8_to_utf16 (src : list Z) (size : nat) : option (list Z) := to_utf16 size size src.

(** ** The encodings

    A scalar value other than NUL, and its encodings. *)

Definition scalar (c : Z) : bool :=
  (0 <? c) && (c <? 0x110000) && negb ((0xD800 <=? c) && (c <? 0xE000)).

Definition enc8 (c : Z) : list Z :=
  if c <? 0x80 then [c]
  else if c <? 0x800 then [192 + c / 64; 128 + c mod 64]
  else if c <? 0x10000 then [224 + c / 4096; 128 + c / 64 mod 64; 128 + c mod 64]
  else [240 + c / 262144; 128 + c / 4096 mod 64; 128 + c / 64 mod 64; 128 + c mod 64].

Definition enc16 (c : Z) : list Z :=
  if c <? 0x10000 then [c] else [0xD800 + (c - 0x10000) / 1024; 0xDC00 + (c - 0x10000) mod 1024].

Definition encode8 (cs : list Z) : list Z := concat (map enc8 cs).
Definition encode16 (cs : list Z) : list Z := concat (map enc16 cs).

(** *** Bits *)

Lemma lor_disjoint n a b : 0 <= n -> 0 <= a < 2 ^ n -> Z.lor a (b * 2 ^ n) = a + b * 2 ^ n.
Proof.
  intros Hn Ha. pose proof (Z.add_lor_land a (b * 2 ^ n)) as E.
  enough (Z.land a (b * 2 ^ n) = 0) as E2 by (rewrite <- E, E2, Z.add_0_r; reflexivity).
  destruct (Z.eqb_spec a 0) as [->|]; [reflexivity|]. apply Z.bits_inj'. intros i Hi. rewrite Z.land_spec, Z.bits_0.
  destruct (Z.ltb_spec i n).
  - rewrite Z.mul_pow2_bits_low by assumption. apply andb_false_r.
  - rewrite (Z.bits_above_log2 a i); [reflexivity|lia|].
    apply Z.log2_lt_pow2; [lia|].
    apply Z.lt_le_trans with (2 ^ n); [lia|]. apply Z.pow_le_mono_r; lia.
Qed.

Lemma tail_byte x : Z.lor (Z.land x 0x3F) 0x80 = 128 + x mod 64.
Proof.
  change 0x3F with (Z.ones 6). rewrite Z.land_ones by lia. change 0x80 with (2 * 2 ^ 6).
  pose proof (Z.mod_pos_bound x 64 ltac:(lia)). change (2 ^ 6) with 64.
  rewrite (lor_disjoint 6) by lia. lia.
Qed.

Lemma extend x b : 0 <= x -> Z.lor (Z.shiftl x 6) (Z.land b 0x3f) = x * 64 + b mod 64.
Proof.
  intros. change 0x3f with (Z.ones 6). rewrite Z.land_ones, Z.shiftl_mul_pow2, Z.lor_comm by lia.
  pose proof (Z.mod_pos_bound b 64 ltac:(lia)). change (2 ^ 6) with 64 in *. rewrite (lor_disjoint 6) by lia. lia.
Qed.

Lemma is_tail x : Z.land (128 + x mod 64) 0xc0 = 0x80.
Proof.
  pose proof (Z.mod_pos_bound x 64 ltac:(lia)) as H.
  replace (128 + x mod 64) with (Z.lor (x mod 64) (2 * 2 ^ 6)) by (rewrite lor_disjoint by lia; lia).
  rewrite Z.land_lor_distr_l. replace (Z.land (x mod 64) 0xc0) with 0; [reflexivity|].
  change 64 with (2 ^ 6). rewrite <- Z.land_ones, <- Z.land_assoc by lia. change (Z.land (Z.ones 6) 0xc0) with 0.
  symmetry. apply Z.land_0_r.
Qed.

Lemma tail_bits x : (128 + x mod 64) mod 64 = x mod 64.
Proof. rewrite <- (Z.mod_mod x 64) at 2 by lia. replace (128 + x mod 64) with (x mod 64 + 2 * 64) by lia. apply Z.mod_add. lia. Qed.

(** *** One scalar value *)

Lemma scalar_cases c : scalar c = true ->
  0 < c < 0x80 \/ 0x80 <= c < 0x800 \/ (0x800 <= c < 0xD800 \/ 0xE000 <= c < 0x10000) \/ 0x10000 <= c < 0x110000.
Proof. unfold scalar. lia. Qed.

(** The surrogates hold the twenty bits above 0x10000. *)
Lemma surrogates c : 0x10000 <= c < 0x110000 ->
  let hi := 0xD800 + (c - 0x10000) / 1024 in
  let lo := 0xDC00 + (c - 0x10000) mod 1024 in
  0xD800 <= hi <= 0xDBFF /\ 0xDC00 <= lo <= 0xDFFF /\
  u32 (u32 (Z.shiftl (u32 (hi - 0xD800)) 10) + (lo - 0xDC00) + 0x10000) = c.
Proof.
  intros H hi lo. assert (0xD800 <= hi <= 0xDBFF) as Hh by (subst hi; lia).
  assert (0xDC00 <= lo <= 0xDFFF) as Hl by (subst lo; lia). split; [exact Hh|split; [exact Hl|]].
  rewrite Z.shiftl_mul_pow2, (u32_small (hi - _)), (u32_small (_ * _)) by lia.
  change (2 ^ 10) with 1024. subst hi lo. rewrite u32_small; lia.
Qed.

Lemma lead_byte n k v x : v = k * 2 ^ n -> 0 <= n -> 0 <= x < 2 ^ n -> Z.lor x v = v + x.
Proof. intros ->. intros. rewrite lor_disjoint by assumption. apply Z.add_comm. Qed.

Lemma to_utf8_scalar c n src : scalar c = true ->
  to_utf8 (length (enc16 c) + n) 0 (enc16 c ++ src) = rest ← to_utf8 n 0 src; Some (enc8 c ++ rest).
Proof.
  intros H. apply scalar_cases in H. unfold enc16, enc8.
  destruct (Z.ltb_spec c 0x10000) as [Hc|Hc]; cbn [length app Nat.add to_utf8 negb Z.eqb].
  - destruct (Z.ltb_spec c 0x80).
    { replace (c <=? 0x7F) with true by lia. rewrite u8_small by lia. reflexivity. }
    replace (c <=? 0x7F) with false by lia. rewrite !tail_byte, !Z.shiftr_div_pow2 by lia.
    change (2 ^ 6) with 64. change (2 ^ 12) with 4096. destruct (Z.ltb_spec c 0x800).
    { replace (c <=? 0x7FF) with true by lia. rewrite (lead_byte 5 6 _ (c / 64)) by lia.
      rewrite !u8_small by lia. reflexivity. }
    replace (c <=? 0x7FF) with false by lia.
    replace ((0xD800 <=? c) && (c <=? 0xDBFF)) with false by lia.
    replace ((0xDC00 <=? c) && (c <=? 0xDFFF)) with false by lia.
    replace (c <? 0x10000) with true by lia. rewrite (lead_byte 4 14 _ (c / 4096)) by lia.
    rewrite !u8_small by lia. reflexivity.
  - destruct (surrogates c ltac:(lia)) as (Hh & Hl & E). set (hi := 0xD800 + _) in *. set (lo := 0xDC00 + _) in *.
    replace (hi <=? 0x7F) with false by lia. replace (hi <=? 0x7FF) with false by lia.
    replace ((0xD800 <=? hi) && (hi <=? 0xDBFF)) with true by lia.
    replace (hi =? 0) with false by lia. cbn [negb].
    replace ((0xDC00 <=? lo) && (lo <=? 0xDFFF)) with true by lia. rewrite E.
    replace (c <? 0x80) with false by lia. replace (c <? 0x800) with false by lia.
    rewrite !tail_byte, !Z.shiftr_div_pow2 by lia.
    change (2 ^ 6) with 64. change (2 ^ 12) with 4096. change (2 ^ 18) with 262144.
    rewrite (lead_byte 3 30 _ (c / 262144)) by lia. rewrite !u8_small by lia. reflexivity.
Qed.

Lemma lead_bits n k v w x : v = k * 2 ^ n -> w = Z.ones n -> 0 <= n -> 0 <= x < 2 ^ n -> Z.land (v + x) w = x.
Proof.
  intros -> -> Hn Hx. rewrite Z.land_ones, Z.add_comm, Z_mod_plus_full by assumption. apply Z.mod_small, Hx.
Qed.

Lemma units_enc16 c : scalar c = true -> units c = enc16 c.
Proof.
  intros H. apply scalar_cases in H. unfold units, enc16. destruct (Z.ltb_spec c 0x10000).
  - rewrite u16_small by lia. reflexivity.
  - rewrite Z.shiftr_div_pow2 by lia. change (2 ^ 10) with 1024.
    change 0x3ff with (Z.ones 10). rewrite Z.land_ones by lia. change (2 ^ 10) with 1024.
    rewrite (lead_byte 10 55 0xdc00) by lia. rewrite !u16_small by lia. f_equal; [lia|f_equal; lia].
Qed.

Lemma extension_tail k n code x src : 0 <= code < 2 ^ 20 ->
  extension_loop (S k) (S n) code (128 + x mod 64 :: src) = extension_loop k n (code * 64 + x mod 64) src.
Proof.
  intros H. cbn [extension_loop]. rewrite is_tail. cbn [Z.eqb Pos.eqb].
  rewrite u32_small, extend, tail_bits by (rewrite ?Z.shiftl_mul_pow2; lia). reflexivity.
Qed.

Lemma to_utf16_scalar c fuel n src : scalar c = true ->
  to_utf16 (S fuel) (length (enc8 c) + n) (enc8 c ++ src) = rest ← to_utf16 fuel n src; Some (enc16 c ++ rest).
Proof.
  intros H. rewrite <- (units_enc16 c H). apply scalar_cases in H. unfold enc8.
  destruct (Z.ltb_spec c 0x80) as [H0|H0]; [|destruct (Z.ltb_spec c 0x800) as [H1|H1]; [|destruct (Z.ltb_spec c 0x10000) as [H2|H2]]];
    cbn [length app Nat.add to_utf16].
  - replace (c <=? 0x7f) with true by lia. replace (c =? 0) with false by lia. reflexivity.
  - set (b := 192 + c / 64). replace (b <=? 0x7f) with false by lia. replace (b <=? 0xbf) with false by lia.
    replace (b <=? 0xdf) with true by lia. subst b. rewrite (lead_bits 5 6 _ _ (c / 64)) by first [reflexivity | lia].
    rewrite extension_tail by lia. replace (c / 64 * 64 + c mod 64) with c by lia. reflexivity.
  - set (b := 224 + c / 4096). replace (b <=? 0x7f) with false by lia. replace (b <=? 0xbf) with false by lia.
    replace (b <=? 0xdf) with false by lia. replace (b <=? 0xef) with true by lia. subst b.
    rewrite (lead_bits 4 14 _ _ (c / 4096)) by first [reflexivity | lia]. rewrite !extension_tail by lia.
    replace ((c / 4096 * 64 + c / 64 mod 64) * 64 + c mod 64) with c by lia. reflexivity.
  - set (b := 240 + c / 262144). replace (b <=? 0x7f) with false by lia. replace (b <=? 0xbf) with false by lia.
    replace (b <=? 0xdf) with false by lia. replace (b <=? 0xef) with false by lia. replace (b <=? 0xf7) with true by lia.
    subst b. rewrite (lead_bits 3 30 _ _ (c / 262144)) by first [reflexivity | lia]. rewrite !extension_tail by lia.
    replace (((c / 262144 * 64 + c / 4096 mod 64) * 64 + c / 64 mod 64) * 64 + c mod 64) with c by lia. reflexivity.
Qed.

Lemma to_utf8_encode cs n src : Forall (fun c => scalar c = true) cs ->
  to_utf8 (length (encode16 cs) + n) 0 (encode16 cs ++ src) = rest ← to_utf8 n 0 src; Some (encode8 cs ++ rest).
Proof.
  unfold encode16, encode8. induction 1 as [|c cs Hc _ IH]; cbn [map concat app length Nat.add].
  { destruct (to_utf8 n 0 src); reflexivity. }
  rewrite length_app, <- Nat.add_assoc, <- app_assoc, to_utf8_scalar, IH by exact Hc.
  destruct (to_utf8 n 0 src); cbn [mbind option_bind]; [|reflexivity]. rewrite app_assoc. reflexivity.
Qed.

Lemma enc8_length c : (1 <= length (enc8 c))%nat.
Proof. unfold enc8. repeat case_match; cbn; lia. Qed.

Lemma to_utf16_encode cs : Forall (fun c => scalar c = true) cs -> forall fuel n src,
  (length cs <= fuel)%nat -> to_utf16 fuel (length (encode8 cs) + n) (encode8 cs ++ src) =
    rest ← to_utf16 (fuel - length cs) n src; Some (encode16 cs ++ rest).
Proof.
  unfold encode16, encode8. induction 1 as [|c cs Hc _ IH]; intros fuel n src Hf; cbn [map concat app length Nat.add].
  { rewrite Nat.sub_0_r. destruct (to_utf16 fuel n src); reflexivity. }
  destruct fuel as [|fuel]; [cbn in Hf; lia|]. cbn [length] in Hf.
  rewrite length_app, <- Nat.add_assoc, <- app_assoc, to_utf16_scalar, IH by (exact Hc || lia).
  cbn [Nat.sub]. destruct (to_utf16 (fuel - length cs) n src); cbn [mbind option_bind]; [|reflexivity].
  rewrite app_assoc. reflexivity.
Qed.

Lemma encode8_length cs : (length cs <= length (encode8 cs))%nat.
Proof.
  unfold encode8. induction cs as [|c cs IH]; cbn [map concat length]; [lia|].
  rewrite length_app. pose proof (enc8_length c). lia.
Qed.

(** *** Bounds *)

Lemma to_utf8_bound : forall size h src, (size <= length src)%nat -> Forall (fun c => 0 <= c < 0x10000) src ->
  exists out, to_utf8 size h src = Some out /\ (length out <= 3 * size + if (h =? 0)%Z then 0 else 1)%nat.
Proof.
  induction size as [|size IH]; intros h src Hl Hr; [exists []; cbn; split; [reflexivity|lia]|].
  destruct src as [|c src]; [cbn in Hl; lia|]. cbn [length] in Hl. cbn [to_utf8].
  pose proof Hr as [Hc Hr']%Forall_cons_1.
  pose proof (IH 0 src ltac:(lia) Hr') as (o0 & E0 & L0). cbn [Z.eqb] in L0.
  pose proof (IH 0 (c :: src) ltac:(cbn; lia) Hr) as (o1 & E1 & L1). cbn [Z.eqb] in L1.
  pose proof (IH c src ltac:(lia) Hr') as (o2 & E2 & L2). revert L2.
  destruct (Z.eqb_spec h 0) as [->|Hh]; cbn [negb]; rewrite E0, ?E1, ?E2; cbn [mbind option_bind];
    repeat case_match; intros; eexists; (split; [reflexivity|]); cbn [length]; lia.
Qed.

Lemma land_small b n : 0 <= n -> 0 <= Z.land b (Z.ones n) < 2 ^ n.
Proof. intros. rewrite Z.land_ones by lia. apply Z.mod_pos_bound. apply Z.pow_pos_nonneg; lia. Qed.

(** The source keeps pace with the size, and every extension byte adds six bits. *)
Lemma extension_bound : forall k n j code src, 0 <= j -> j + 6 * Z.of_nat k <= 24 -> 0 <= code < 2 ^ j -> 63 < 2 ^ (j + 6) ->
  (n <= length src)%nat -> exists code' n' src', extension_loop k n code src = Some (code', n', src') /\
    (n' <= n <= n' + k)%nat /\ src' = drop (n - n') src /\ 0 <= code' < 2 ^ (j + 6 * Z.of_nat (n - n')).
Proof.
  induction k as [|k IH]; intros n j code src Hj Hk Hc H63 Hl; (destruct n as [|n]; cbn [extension_loop]).
  1-3: eexists _, _, _; split; [reflexivity|]; rewrite ?Nat.sub_diag, ?Z.mul_0_r, ?Z.add_0_r; cbn; repeat split; lia.
  destruct src as [|b src]; [cbn in Hl; lia|]. cbn [length] in Hl. destruct (Z.land b 0xc0 =? 0x80).
  - assert (0 <= code * 64 + b mod 64 < 2 ^ (j + 6)) as Hc' by (rewrite Z.pow_add_r by lia; change (2 ^ 6) with 64; nia).
    assert (2 ^ j <= 2 ^ 18) as H18 by (apply Z.pow_le_mono_r; lia).
    assert (2 ^ (j + 6) <= 2 ^ (j + 6 + 6)) as H24 by (apply Z.pow_le_mono_r; lia).
    rewrite u32_small by (rewrite Z.shiftl_mul_pow2; lia). rewrite extend by lia.
    destruct (IH n (j + 6) (code * 64 + b mod 64) src) as (c' & n' & s' & E & Hn & Hs & Hb); try lia.
    exists c', n', s'. split; [exact E|]. split; [lia|]. replace (S n - n')%nat with (S (n - n')) by lia.
    split; [exact Hs|].
    rewrite Nat2Z.inj_succ. replace (j + 6 * Z.succ _) with (j + 6 + 6 * Z.of_nat (n - n')) by lia.
    exact Hb.
  - eexists _, _, _. split; [reflexivity|]. split; [lia|]. replace (S n - n)%nat with 1%nat by lia. split; [reflexivity|].
    change (6 * Z.of_nat 1) with 6. lia.
Qed.

Lemma units_length code : (length (units code) <= if (code <? 0x10000)%Z then 1 else 2)%nat.
Proof. unfold units. case_match; cbn; lia. Qed.

(** One round takes at least one from the size, and as many as it stores units. *)
Lemma to_utf16_bound : forall fuel size src, (size <= fuel)%nat -> (size <= length src)%nat ->
  Forall (fun c => 0 <= c < 256) src -> exists out, to_utf16 fuel size src = Some out /\ (length out <= size)%nat.
Proof.
  induction fuel as [|fuel IH]; intros size src Hf Hl Hr.
  { replace size with O by lia. exists []. split; [reflexivity|cbn; lia]. }
  destruct size as [|size]; [exists []; split; [reflexivity|cbn; lia]|].
  destruct src as [|b src]; [cbn in Hl; lia|]. cbn [length] in Hl. cbn [to_utf16].
  pose proof Hr as [Hb Hr']%Forall_cons_1. cbn beta in Hb.
  assert (forall k code n s j, (n <= size)%nat -> (n <= length s)%nat -> Forall (fun c => 0 <= c < 256) s -> 4 < 2 ^ j -> 0 <= j <= 16 -> j + 6 * Z.of_nat k <= 24 ->
    0 <= code < 2 ^ j -> exists out, ('(code, size, src) ← extension_loop k n code s;
      rest ← to_utf16 fuel size src; Some (units code ++ rest)) = Some out /\ (length out <= S size)%nat) as Hstep.
  { intros k code n s j Hn Hs Hf' H4 Hj Hk Hc.
    destruct (extension_bound k n j code s) as (c & n' & s' & -> & Hn' & -> & Hc'); try lia; [rewrite Z.pow_add_r by lia; lia|].
    destruct (IH n' (drop (n - n') s)) as (out & E & Ho); [lia|rewrite length_drop; lia|apply Forall_drop, Hf'|].
    cbn [mbind option_bind]. rewrite E. eexists. split; [reflexivity|]. rewrite length_app.
    pose proof (units_length c) as Hu. destruct (decide (n' = n)) as [->|].
    - rewrite Nat.sub_diag, Z.mul_0_r, Z.add_0_r in Hc'. assert (2 ^ j <= 2 ^ 16) by (apply Z.pow_le_mono_r; lia).
      replace (c <? 0x10000) with true in Hu by lia. lia.
    - destruct (c <? 0x10000); lia. }
  destruct (Z.leb_spec b 0x7f); [|destruct (b <=? 0xbf); [|destruct (b <=? 0xdf); [|destruct (b <=? 0xef); [|destruct (b <=? 0xf7)]]]].
  - apply (Hstep O b _ src 7); try exact Hr'; destruct (b =? 0); lia.
  - apply (Hstep O 63 size (b :: src) 7); try exact Hr; cbn; lia.
  - pose proof (land_small b 5 ltac:(lia) : 0 <= Z.land b 0x1f < 2 ^ 5). apply (Hstep 1%nat (Z.land b 0x1f) size src 5); try exact Hr'; lia.
  - pose proof (land_small b 4 ltac:(lia) : 0 <= Z.land b 0xf < 2 ^ 4). apply (Hstep 2%nat (Z.land b 0xf) size src 4); try exact Hr'; lia.
  - pose proof (land_small b 3 ltac:(lia) : 0 <= Z.land b 0x7 < 2 ^ 3). apply (Hstep 3%nat (Z.land b 0x7) size src 3); try exact Hr'; lia.
  - apply (Hstep O 63 size (b :: src) 7); try exact Hr; cbn; lia.
Qed.

(** *** Wide strings *)

Fixpoint halves (m : mem) (p : Z) (n : nat) : list Z :=
  match n with O => [] | S n => ld16 m p :: halves m (p + 2) n end.

Definition wstr (m : mem) (p : Z) (us : list Z) : Prop :=
  halves m p (length us) = us /\ Forall (fun u => u <> 0) us /\ ld16 m (p + 2 * Z.of_nat (length us)) = 0.

Lemma ld16_range m a : 0 <= ld16 m a < 0x10000.
Proof. unfold ld16. pose proof (ld_range m a). pose proof (ld_range m (a + 1)). lia. Qed.

Lemma wstr_nil m p : wstr m p [] <-> ld16 m p = 0.
Proof. unfold wstr. cbn [length halves]. replace (p + 2 * Z.of_nat 0) with p by lia. split; [tauto|auto]. Qed.

Lemma wstr_cons m p u us : wstr m p (u :: us) <-> u <> 0 /\ ld16 m p = u /\ wstr m (p + 2) us.
Proof.
  unfold wstr. cbn [length halves]. rewrite Forall_cons_iff.
  replace (p + 2 * Z.of_nat (S (length us))) with (p + 2 + 2 * Z.of_nat (length us)) by lia. split.
  - intros (E & [Hc Hs] & Hz). injection E as E1 E2. auto.
  - intros (Hc & E & E2 & Hs & Hz). rewrite E, E2. auto.
Qed.

Lemma ld16_ext m1 m2 a : ld m1 a = ld m2 a -> ld m1 (a + 1) = ld m2 (a + 1) -> ld16 m1 a = ld16 m2 a.
Proof. unfold ld16. intros H1 H2. rewrite H1, H2. reflexivity. Qed.

Lemma wstr_ext m1 m2 us : forall p, (forall a, p <= a < p + 2 * (Z.of_nat (length us) + 1) -> ld m1 a = ld m2 a) ->
  wstr m1 p us -> wstr m2 p us.
Proof.
  induction us as [|u us IH]; intros p He H.
  - apply wstr_nil in H. apply wstr_nil. rewrite <- H. symmetry. apply ld16_ext; apply He; cbn [length]; lia.
  - apply wstr_cons in H as (Hu & E & H). apply wstr_cons. split; [exact Hu|]. split.
    + rewrite <- E. symmetry. apply ld16_ext; apply He; cbn [length]; lia.
    + apply IH; [|exact H]. intros a Ha. apply He. cbn [length]. lia.
Qed.

Lemma ld_st16 m a v x : ld (st16 m a v) x = if x =? a + 1 then u8 (Z.shiftr v 8) else if x =? a then u8 v else ld m x.
Proof. unfold st16. rewrite !ld_st. reflexivity. Qed.

Lemma ld16_st16 m a v : 0 <= v < 0x10000 -> ld16 (st16 m a v) a = v.
Proof.
  intros. unfold ld16. rewrite !ld_st16, !Z.eqb_refl. replace (a =? a + 1) with false by lia.
  rewrite Z.shiftr_div_pow2 by lia. rewrite (u8_small (v / 2 ^ 8)) by lia. unfold u8, wrap. lia.
Qed.

Lemma utf16_strlen_wstr m us : forall fuel p i, wstr m (p + 2 * i) us -> (length us < fuel)%nat ->
  utf16_strlen m fuel p i = Some (i + Z.of_nat (length us)).
Proof.
  induction us as [|u us IH]; intros fuel p i H Hf; (destruct fuel as [|fuel]; [cbn in Hf; lia|]); cbn [utf16_strlen].
  - apply wstr_nil in H. rewrite H. cbn. f_equal. lia.
  - apply wstr_cons in H as (Hu & E & H). rewrite E. replace (u =? 0) with false by lia. cbn [negb].
    rewrite IH; [cbn [length]; f_equal; lia| |cbn in Hf; lia]. replace (p + 2 * (i + 1)) with (p + 2 * i + 2) by lia. exact H.
Qed.

(** [utf16_strnlen] counts to the first NUL within the count. *)
Lemma utf16_strnlen_spec m p : forall count i, exists k, (k <= count)%nat /\ utf16_strnlen m count p i = i + Z.of_nat k /\
  Forall (fun u => u <> 0) (halves m (p + 2 * i) k) /\ (k = count \/ ld16 m (p + 2 * i + 2 * Z.of_nat k) = 0).
Proof.
  induction count as [|count IH]; intros i; cbn [utf16_strnlen].
  { exists O. repeat split; cbn; auto; lia. }
  destruct (Z.eqb_spec (ld16 m (p + 2 * i)) 0) as [E|E]; cbn [negb].
  - exists O. repeat split; cbn [halves]; auto; try lia. right. rewrite <- E. f_equal. lia.
  - destruct (IH (i + 1)) as (k & Hk & -> & Hnz & Hend). exists (S k). split; [lia|]. split; [lia|].
    replace (p + 2 * (i + 1)) with (p + 2 * i + 2) in * by lia. cbn [halves]. split; [constructor; assumption|].
    destruct Hend as [->|Hend]; [left; reflexivity|right]. rewrite <- Hend. f_equal. lia.
Qed.

(** [utf16_strcpy] into a place apart from the source. *)
Lemma utf16_strcpy_copies us : forall fuel m d p, wstr m p us -> (length us < fuel)%nat ->
  (d + 2 * (Z.of_nat (length us) + 1) <= p \/ p + 2 * (Z.of_nat (length us) + 1) <= d) ->
  exists m', utf16_strcpy fuel m d p = Some m' /\ wstr m' d us /\
    (forall a, ~ d <= a < d + 2 * (Z.of_nat (length us) + 1) -> ld m' a = ld m a).
Proof.
  induction us as [|u us IH]; intros fuel m d p H Hf Hd; (destruct fuel as [|fuel]; [cbn in Hf; lia|]); cbn [utf16_strcpy].
  - apply wstr_nil in H. rewrite H. eexists. split; [reflexivity|]. split; [apply wstr_nil, ld16_st16; lia|].
    intros a Ha. cbn in Ha. rewrite ld_st16. replace (a =? d + 1) with false by lia. replace (a =? d) with false by lia. reflexivity.
  - apply wstr_cons in H as (Hu & E & H). rewrite E. replace (u =? 0) with false by lia. cbn [negb length] in *.
    assert (forall a, a <> d -> a <> d + 1 -> ld (st16 m d u) a = ld m a) as Hst.
    { intros a ? ?. rewrite ld_st16. replace (a =? d + 1) with false by lia. replace (a =? d) with false by lia. reflexivity. }
    destruct (IH fuel (st16 m d u) (d + 2) (p + 2)) as (m' & Em & Hw & Hfr); try lia.
    { eapply wstr_ext; [|exact H]. intros a Ha. symmetry. apply Hst; lia. }
    exists m'. split; [exact Em|]. split.
    + apply wstr_cons. split; [exact Hu|]. split; [|exact Hw]. rewrite (ld16_ext m' (st16 m d u)) by (apply Hfr; lia).
      apply ld16_st16. pose proof (ld16_range m p). lia.
    + intros a Ha. rewrite Hfr by lia. apply Hst; lia.
Qed.

(** ** The properties *)

(** [utf16_strdup] returns a copy of the string in fresh memory, which is all it
    changes. *)
Theorem utf16_strdup_copies malloc m s us fuel : wstr m s us -> (length us < fuel)%nat -> s <> 0 ->
  let size := 2 * (Z.of_nat (length us) + 1) in
  let new := malloc size in
  size < 2 ^ 32 -> new <> 0 -> new + size <= s \/ s + size <= new ->
  exists m', utf16_strdup malloc fuel m s = Some (new, m') /\ wstr m' new us /\
    forall a, ~ new <= a < new + size -> ld m' a = ld m a.
Proof.
  intros H Hf Hs size new Hsz Hnew Hd. unfold utf16_strdup. replace (s =? 0) with false by lia.
  rewrite (utf16_strlen_wstr m us) by (rewrite ?Z.mul_0_r, ?Z.add_0_r; assumption). cbn [mbind option_bind].
  rewrite u32_small by lia. replace ((0 + Z.of_nat (length us) + 1) * 2) with size by lia. fold new.
  replace (new =? 0) with false by lia.
  destruct (utf16_strcpy_copies us fuel m new s H Hf Hd) as (m' & -> & Hw & Hfr). exists m'. auto.
Qed.

(** The two conversions are inverse encodings: on the UTF-8 and UTF-16 forms of
    any text they give exactly the other form, surrogate pairs included;
    [utf8_to_utf16] also stops at a NUL, which it copies, when the size is larger. *)
Theorem utf_conversions cs n rest : Forall (fun c => scalar c = true) cs ->
  utf16_to_utf8 (encode16 cs) (length (encode16 cs)) = Some (encode8 cs) /\
  utf8_to_utf16 (encode8 cs) (length (encode8 cs)) = Some (encode16 cs) /\
  utf8_to_utf16 (encode8 cs ++ 0 :: rest) (length (encode8 cs) + S n) = Some (encode16 cs ++ [0]).
Proof.
  intros Hcs. pose proof (encode8_length cs) as Hl. unfold utf16_to_utf8, utf8_to_utf16. split; [|split].
  - pose proof (to_utf8_encode cs 0 [] Hcs) as E. rewrite Nat.add_0_r, app_nil_r in E. rewrite E. cbn.
    rewrite app_nil_r. reflexivity.
  - pose proof (to_utf16_encode cs Hcs (length (encode8 cs)) 0 [] Hl) as E. rewrite Nat.add_0_r, app_nil_r in E.
    rewrite E. destruct (length (encode8 cs) - length cs)%nat; cbn; rewrite app_nil_r; reflexivity.
  - rewrite to_utf16_encode by (exact Hcs || lia).
    replace (length (encode8 cs) + S n - length cs)%nat with (S (length (encode8 cs) - length cs + n)) by lia.
    cbn. destruct (_ + n)%nat; reflexivity.
Qed.

Lemma utf_conversions_witness :
  utf8_to_utf16 [0xC3; 0xA5; 0xF0; 0x9F; 0x98; 0x80; 0; 7] 8 = Some [0xE5; 0xD83D; 0xDE00; 0].
Proof. exact (proj2 (proj2 (utf_conversions [0xE5; 0x1F600] 1 [7] ltac:(repeat constructor)))). Defined.

(** Whatever the input, the output fits: three bytes per unit for [utf16_to_utf8],
    as MAX_UTF8_PER_UTF16 says, and one unit per byte for [utf8_to_utf16]. *)
Theorem utf_bounds src : 
  (Forall (fun c => 0 <= c < 0x10000) src ->
    exists out, utf16_to_utf8 src (length src) = Some out /\ Z.of_nat (length out) <= MAX_UTF8_PER_UTF16 * Z.of_nat (length src)) /\
  (Forall (fun c => 0 <= c < 256) src ->
    exists out, utf8_to_utf16 src (length src) = Some out /\ (length out <= length src)%nat).
Proof.
  split; intros Hr.
  - destruct (to_utf8_bound (length src) 0 src (le_n _) Hr) as (out & E & Ho). exists out. split; [exact E|].
    unfold MAX_UTF8_PER_UTF16. cbn in Ho. lia.
  - exact (to_utf16_bound (length src) (length src) src (le_n _) (le_n _) Hr).
Qed.

(** An illegal byte is not consumed: from it on every output unit is a '?', and the
    text behind it is lost. *)
Lemma utf8_to_utf16_sticks b src size : 0x80 <= b <= 0xbf \/ 0xf8 <= b ->
  utf8_to_utf16 (b :: src) size = Some (replicate size 63).
Proof.
  intros Hb. unfold utf8_to_utf16. induction size as [|size IH]; [reflexivity|]. cbn [to_utf16 replicate].
  replace (b <=? 0x7f) with false by lia.
  destruct (Z.leb_spec b 0xbf); [|replace (b <=? 0xdf) with false by lia; replace (b <=? 0xef) with false by lia;
    replace (b <=? 0xf7) with false by lia]; cbn [extension_loop mbind option_bind]; rewrite IH; reflexivity.
Qed.

(** After an unpaired high surrogate the next unit is read again although the size
    has counted it, so the last unit of the text is lost. *)
Example utf16_to_utf8_drops : utf16_to_utf8 [0xD800; 65; 66] 3 = Some [63; 65].
Proof. reflexivity. Qed.

End Charset.
