(* ===== verification/Vsprintf.v ===== *)
(** * Vsprintf: formatted output

    U-Boot's lib/vsprintf.c: the digit conversions, [number], [string], the pointer
    formats of the network code and [vsnprintf] on top of them.  The output goes to
    the memory of Cmem.v; a format is the list of its characters before the NUL.
    The text of an EFI device path is a parameter.  The theorems compare the writer with a description of
    the text it means to write, and read the text back with Strto.v. *)

From stdpp Require Import base list option.
From Stdlib Require Import ZifyBool.
From S2P Require Import Prelude Cmem Ctype CString Strto Charset.
Import Ctype.

Module Vsprintf.

Definition is_digit (c : Z) : bool := (48 <=? c) && (c <=? 57).

(** The character a format pointer points at. *)
Definition peek (fmt : list Z) : Z := match fmt with c :: _ => c | [] => 0 end.

(** The number at the head of the format, and what follows; [None] when the [int]
    overflows. *)
Fixpoint skip_atoi (i : Z) (fmt : list Z) : option (Z * list Z) :=
  match fmt with
  | c :: fmt' =>
    if is_digit c then
      if i * 10 + c <? 2 ^ 31 then skip_atoi (i * 10 + c - 48) fmt' else None
    else Some (i, fmt)
  | [] => Some (i, [])
  end.

(** ** Digits

    The conversions give the characters they store, the least significant digit
    first. *)

Definition put_dec_trunc (q : Z) : list Z :=
  let d1 := Z.land (Z.shiftr q 4) 0xf in
  let d2 := Z.land (Z.shiftr q 8) 0xf in
  let d3 := Z.shiftr q 12 in
  let d0 := u32 (6 * (d3 + d2 + d1) + Z.land q 0xf) in
  let q := Z.shiftr (u32 (d0 * 0xcd)) 11 in
  let d0 := u32 (d0 - 10 * q) in
  u8 (d0 + 48) ::
  let d1 := u32 (q + 9 * d3 + 5 * d2 + d1) in
  if negb (d1 =? 0) then
    let q := Z.shiftr (u32 (d1 * 0xcd)) 11 in
    let d1 := u32 (d1 - 10 * q) in
    u8 (d1 + 48) ::
    let d2 := u32 (q + 2 * d2) in
    if negb (d2 =? 0) || negb (d3 =? 0) then
      let q := Z.shiftr (u32 (d2 * 0xd)) 7 in
      let d2 := u32 (d2 - 10 * q) in
      u8 (d2 + 48) ::
      let d3 := u32 (q + 4 * d3) in
      if negb (d3 =? 0) then
        let q := Z.shiftr (u32 (d3 * 0xcd)) 11 in
        let d3 := u32 (d3 - 10 * q) in
        u8 (d3 + 48) :: if negb (q =? 0) then [u8 (q + 48)] else []
      else []
    else []
  else [].

Definition put_dec_full (q : Z) : list Z :=
  let d1 := Z.land (Z.shiftr q 4) 0xf in
  let d2 := Z.land (Z.shiftr q 8) 0xf in
  let d3 := Z.shiftr q 12 in
  let d0 := u32 (6 * (d3 + d2 + d1) + Z.land q 0xf) in
  let q0 := Z.shiftr (u32 (d0 * 0xcd)) 11 in
  let d0 := u32 (d0 - 10 * q0) in
  let d1 := u32 (q0 + 9 * d3 + 5 * d2 + d1) in
  let q1 := Z.shiftr (u32 (d1 * 0xcd)) 11 in
  let d1 := u32 (d1 - 10 * q1) in
  let d2 := u32 (q1 + 2 * d2) in
  let q2 := Z.shiftr (u32 (d2 * 0xd)) 7 in
  let d2 := u32 (d2 - 10 * q2) in
  let d3 := u32 (q2 + 4 * d3) in
  let q3 := Z.shiftr (u32 (d3 * 0xcd)) 11 in
  let d3 := u32 (d3 - 10 * q3) in
  [u8 (d0 + 48); u8 (d1 + 48); u8 (d2 + 48); u8 (d3 + 48); u8 (q3 + 48)].

(** [do_div] divides in place and gives the remainder. *)
Fixpoint put_dec (fuel : nat) (num : Z) : option (list Z) :=
  match fuel with
  | O => None
  | S fuel =>
    if num <? 100000 then Some (put_dec_trunc num)
    else rest ← put_dec fuel (num / 100000); Some (put_dec_full (num mod 100000) ++ rest)
  end.

Definition ZEROPAD : Z := 1.
Definition SIGN : Z := 2.
Definition PLUS : Z := 4.
Definition SPACE : Z := 8.
Definition LEFT : Z := 16.
Definition SMALL : Z := 32.
Definition SPECIAL : Z := 64.

Definition has (flags f : Z) : bool := negb (Z.land flags f =? 0).

(** [static const char digits[16]] *)
Definition digits : list Z := [48; 49; 50; 51; 52; 53; 54; 55; 56; 57; 65; 66; 67; 68; 69; 70].

(** The digit loop of the bases 8 and 16. *)
Fixpoint bits_loop (fuel : nat) (mask shift locase num : Z) : option (list Z) :=
  match fuel with
  | O => None
  | S fuel =>
    let c := Z.lor (nth (Z.to_nat (Z.land (u8 num) mask)) digits 0) locase in
    let num := Z.shiftr num shift in
    if negb (num =? 0) then rest ← bits_loop fuel mask shift locase num; Some (c :: rest) else Some [c]
  end.

(** ** The output

    The memory and the position [str], which runs on beyond [end_]. *)

Definition out : Type := mem * Z.

Definition ADDCH (end_ : Z) (o : out) (ch : Z) : out :=
  (if o.2 <? end_ then st o.1 o.2 ch else o.1, o.2 + 1).

(** [while (n-- > 0) ADDCH(buf, c)], for the padding loops. *)
Fixpoint pad (end_ : Z) (o : out) (n : nat) (c : Z) : out :=
  match n with O => o | S n => pad end_ (ADDCH end_ o c) n c end.

(** A local array of characters, in order. *)
Fixpoint addchs (end_ : Z) (o : out) (l : list Z) : out :=
  match l with [] => o | c :: l => addchs end_ (ADDCH end_ o c) l end.

(** What [while (--size >= 0)] leaves in [size]. *)
Definition spent (size : Z) : Z := if 0 <=? size then -1 else size - 1.

(** [number]; [size] and [precision] are mathematical integers: they leave the
    range of [int] only for a precision within 4 of its maximum. *)
Definition number (end_ : Z) (o : out) (num base size precision type : Z) : option out :=
  let need_pfx := has type SPECIAL && negb (base =? 10) in
  let locase := Z.land type SMALL in
  let type := if has type LEFT then Z.land type (Z.lnot ZEROPAD) else type in
  let '(sign, num, size) :=
    if has type SIGN then
      if sgn 64 num <? 0 then (45, u64 (- sgn 64 num), size - 1)
      else if has type PLUS then (43, num, size - 1)
      else if has type SPACE then (32, num, size - 1)
      else (0, num, size)
    else (0, num, size) in
  let size := if need_pfx then if base =? 16 then size - 1 - 1 else size - 1 else size in
  tmp ←
    (if num =? 0 then Some [48]
     else if negb (base =? 10) then bits_loop 64 (base - 1) (if base =? 16 then 4 else 3) locase num
     else put_dec 5 num);
  let i := Z.of_nat (length tmp) in
  let precision := if precision <? i then i else precision in
  let size := size - precision in
  let '(o, size) := if negb (has type (ZEROPAD + LEFT)) then (pad end_ o (Z.to_nat size) 32, spent size) else (o, size) in
  let o := if negb (sign =? 0) then ADDCH end_ o sign else o in
  let o := if need_pfx then
      let o := ADDCH end_ o 48 in if base =? 16 then ADDCH end_ o (Z.lor 88 locase) else o
    else o in
  let '(o, size) := if negb (has type LEFT)
    then (pad end_ o (Z.to_nat size) (if has type ZEROPAD then 48 else 32), spent size) else (o, size) in
  let o := pad end_ o (Z.to_nat (precision - i)) 48 in
  let o := addchs end_ o (rev tmp) in
  Some (pad end_ o (Z.to_nat size) 32).

(** [while (len < field_width--)]: the number of rounds, and what is left. *)
Definition wait_width (len field_width : Z) : nat * Z :=
  if len <? field_width then (Z.to_nat (field_width - len), len - 1) else (O, field_width - 1).

(** [for (i = 0; i < len; ++i) ADDCH(buf, *s++)], reading memory as it is written. *)
Fixpoint copy_chars (end_ : Z) (o : out) (len : nat) (s : Z) : out :=
  match len with O => o | S len => copy_chars end_ (ADDCH end_ o (ld o.1 s)) len (s + 1) end.

Definition NULL_text : list Z := [60; 78; 85; 76; 76; 62].

(** The three loops around a text in a local array. *)
Definition fill (end_ : Z) (o : out) (s : list Z) (field_width flags : Z) : out :=
  let len := Z.of_nat (length s) in
  let '(o, field_width) :=
    if negb (has flags LEFT) then
      let '(n, field_width) := wait_width len field_width in (pad end_ o n 32, field_width)
    else (o, field_width) in
  let o := addchs end_ o s in
  pad end_ o (wait_width len field_width).1 32.

(** The first [precision] elements of an array, which -1 does not limit. *)
Definition upto {A} (precision : Z) (s : list A) : list A :=
  take (Z.to_nat (Z.min (Z.of_nat (length s)) (u32 precision))) s.

(** [string] for a string in a local array or a literal. *)
Definition string_local (end_ : Z) (o : out) (s : list Z) (field_width precision flags : Z) : out :=
  fill end_ o (upto precision s) field_width flags.

(** [string]; a precision of -1 is the largest [size_t]. *)
Definition string (end_ : Z) (o : out) (s field_width precision flags : Z) : out :=
  if s =? 0 then string_local end_ o NULL_text field_width precision flags else
  let len := CString.strnlen o.1 s (u32 precision) in
  let '(o, field_width) :=
    if negb (has flags LEFT) then
      let '(n, field_width) := wait_width len field_width in (pad end_ o n 32, field_width)
    else (o, field_width) in
  let o := copy_chars end_ o (Z.to_nat len) s in
  pad end_ o (wait_width len field_width).1 32.

(** [string16] for a wide string in another array. *)
Definition string16_local (end_ : Z) (o : out) (str : list Z) (field_width precision flags : Z) : option out :=
  let str := upto precision str in
  utf8 ← Charset.utf16_to_utf8 str (length str);
  Some (fill end_ o utf8 field_width flags).

(** [string16]: it converts the string into a local array before it writes. *)
Definition string16 (end_ : Z) (o : out) (s field_width precision flags : Z) : option out :=
  if s =? 0 then string16_local end_ o NULL_text field_width precision flags else
  let utf16_len := Charset.utf16_strnlen o.1 (Z.to_nat (u32 precision)) s 0 in
  utf8 ← Charset.utf16_to_utf8 (Charset.halves o.1 s (Z.to_nat utf16_len)) (Z.to_nat utf16_len);
  Some (fill end_ o utf8 field_width flags).

(** ** Addresses *)

Definition hex_asc : list Z := [48; 49; 50; 51; 52; 53; 54; 55; 56; 57; 97; 98; 99; 100; 101; 102].

Definition hex_byte_pack (byte : Z) : list Z :=
  [nth (Z.to_nat (Z.shiftr (Z.land byte 0xf0) 4)) hex_asc 0; nth (Z.to_nat (Z.land byte 0x0f)) hex_asc 0].

(** The text of [mac_address_string]; [k] bytes are left. *)
Fixpoint mac_chars (m : mem) (addr : Z) (colons : bool) (k : nat) : list Z :=
  match k with
  | O => []
  | S k => hex_byte_pack (ld m addr) ++ (if colons && (0 <? Z.of_nat k) then [58] else []) ++ mac_chars m (addr + 1) colons k
  end.

Definition mac_address_string (end_ : Z) (o : out) (addr field_width precision flags : Z) : out :=
  string_local end_ o (mac_chars o.1 addr (negb (has flags SPECIAL)) 6) field_width precision (Z.land flags (Z.lnot SPECIAL)).

Fixpoint ip6_chars (m : mem) (addr : Z) (colons : bool) (k : nat) : list Z :=
  match k with
  | O => []
  | S k => hex_byte_pack (ld m addr) ++ hex_byte_pack (ld m (addr + 1)) ++
      (if colons && (0 <? Z.of_nat k) then [58] else []) ++ ip6_chars m (addr + 2) colons k
  end.

Definition ip6_addr_string (end_ : Z) (o : out) (addr field_width precision flags : Z) : out :=
  string_local end_ o (ip6_chars o.1 addr (negb (has flags SPECIAL)) 8) field_width precision (Z.land flags (Z.lnot SPECIAL)).

Fixpoint ip4_chars (m : mem) (addr : Z) (k : nat) : list Z :=
  match k with
  | O => []
  | S k => rev (put_dec_trunc (ld m addr)) ++ (if 0 <? Z.of_nat k then [46] else []) ++ ip4_chars m (addr + 1) k
  end.

Definition ip4_addr_string (end_ : Z) (o : out) (addr field_width precision flags : Z) : out :=
  string_local end_ o (ip4_chars o.1 addr 4) field_width precision (Z.land flags (Z.lnot SPECIAL)).

(** ** Arguments

    A variable argument: a 32-bit word ([int], [long], [size_t]), a 64-bit one or
    a pointer; taking one of another kind is undefined. *)
Inductive arg := Int (v : Z) | Quad (v : Z) | Ptr (p : Z).

Definition va_int (args : list arg) : option (Z * list arg) :=
  match args with Int v :: args => Some (u32 v, args) | _ => None end.
Definition va_quad (args : list arg) : option (Z * list arg) :=
  match args with Quad v :: args => Some (u64 v, args) | _ => None end.
Definition va_ptr (args : list arg) : option (Z * list arg) :=
  match args with Ptr p :: args => Some (u32 p, args) | _ => None end.

(** ** Conversion specifications *)

(** [repeat:], from the character behind the last flag. *)
Fixpoint parse_flags (flags : Z) (fmt : list Z) : Z * list Z :=
  match fmt with
  | c :: fmt' =>
    if c =? 45 then parse_flags (Z.lor flags LEFT) fmt'
    else if c =? 43 then parse_flags (Z.lor flags PLUS) fmt'
    else if c =? 32 then parse_flags (Z.lor flags SPACE) fmt'
    else if c =? 35 then parse_flags (Z.lor flags SPECIAL) fmt'
    else if c =? 48 then parse_flags (Z.lor flags ZEROPAD) fmt'
    else (flags, fmt)
  | [] => (flags, [])
  end.

(** The width, the flags and what is left. *)
Definition parse_width (flags : Z) (fmt : list Z) (args : list arg) : option (Z * Z * list Z * list arg) :=
  if is_digit (peek fmt) then '(w, fmt) ← skip_atoi 0 fmt; Some (w, flags, fmt, args)
  else if peek fmt =? 42 then
    '(v, args) ← va_int args;
    let w := sgn 32 v in
    if w =? - 2 ^ 31 then None else
    if w <? 0 then Some (- w, Z.lor flags LEFT, drop 1 fmt, args) else Some (w, flags, drop 1 fmt, args)
  else Some (-1, flags, fmt, args).

Definition parse_precision (fmt : list Z) (args : list arg) : option (Z * list Z * list arg) :=
  if peek fmt =? 46 then
    let fmt := drop 1 fmt in
    '(p, fmt, args) ←
      (if is_digit (peek fmt) then '(p, fmt) ← skip_atoi 0 fmt; Some (p, fmt, args)
       else if peek fmt =? 42 then '(v, args) ← va_int args; Some (sgn 32 v, drop 1 fmt, args)
       else Some (-1, fmt, args));
    Some (if p <? 0 then 0 else p, fmt, args)
  else Some (-1, fmt, args).

(** The qualifier, -1 for none; [ll] is [L]. *)
Definition parse_qualifier (fmt : list Z) : Z * list Z :=
  let q := peek fmt in
  if (q =? 104) || (q =? 108) || (q =? 76) || (q =? 90) || (q =? 122) || (q =? 116) then
    let fmt := drop 1 fmt in
    if (q =? 108) && (peek fmt =? 108) then (76, drop 1 fmt) else (q, fmt)
  else (-1, fmt).

(** The number of an integer conversion. *)
Definition va_number (qualifier flags : Z) (args : list arg) : option (Z * list arg) :=
  if qualifier =? 76 then va_quad args else
  '(v, args) ← va_int args;
  Some (if qualifier =? 108 then (if has flags SIGN then u64 (sgn 32 v) else v)
        else if (qualifier =? 90) || (qualifier =? 122) then v
        else if qualifier =? 116 then u64 (sgn 32 v)
        else if qualifier =? 104 then (if has flags SIGN then u64 (sgn 16 (u16 v)) else u16 v)
        else (if has flags SIGN then u64 (sgn 32 v) else v), args).

(** Error pointers. *)
Definition MAX_ERRNO : Z := 4095.
Definition ENOMEM : Z := 12.
Definition ERR_PTR (err : Z) : Z := u32 err.
Definition IS_ERR (p : Z) : bool := u32 (- MAX_ERRNO) <=? p.
Definition PTR_ERR (p : Z) : Z := sgn 32 p.

(** A conversion specification between the percent sign and its letter. *)
Record spec := { flags : Z; field_width : Z; precision : Z; qualifier : Z }.

(** The specification, the format at its letter and the arguments left. *)
Definition parse_spec (fmt : list Z) (args : list arg) : option (spec * list Z * list arg) :=
  let '(flags, fmt) := parse_flags 0 fmt in
  '(field_width, flags, fmt, args) ← parse_width flags fmt args;
  '(precision, fmt, args) ← parse_precision fmt args;
  let '(qualifier, fmt) := parse_qualifier fmt in
  Some ({| flags := flags; field_width := field_width; precision := precision; qualifier := qualifier |}, fmt, args).

Fixpoint skip_alnum (fmt : list Z) : list Z :=
  match fmt with c :: fmt' => if isalnum c then skip_alnum fmt' else fmt | [] => [] end.

(** A round of the loop: it goes on, or returns an error. *)
Inductive round := Next (o : out) (fmt : list Z) (args : list arg) | Error (m : mem) (err : Z).

Section Printf.
(** The text of an EFI device path, in UTF-16, unless there is no memory for it. *)
Context (efi_dp_str : mem -> Z -> option (list Z)).
(** The text that [uuid_bin_to_str], which itself calls [sprintf], puts into a
    local array: from the memory, the address and the format of the UUID. *)
Context (uuid_bin_to_str : mem -> Z -> Z -> option (list Z)).

Definition device_path_string (end_ : Z) (o : out) (dp field_width precision flags : Z) : option out :=
  if dp =? 0 then string16 end_ o dp field_width precision flags else
  match efi_dp_str o.1 dp with
  | None => Some (o.1, ERR_PTR (- ENOMEM))
  | Some str => string16_local end_ o str field_width precision flags
  end.

Definition UUID_STR_FORMAT_STD : Z := 0.
Definition UUID_STR_FORMAT_GUID : Z := 1.

Definition uuid_string (end_ : Z) (o : out) (addr field_width precision flags : Z) (fmt : list Z) : option out :=
  let c := peek (drop 1 fmt) in
  let str_format := if (c =? 76) || (c =? 108) then UUID_STR_FORMAT_GUID else UUID_STR_FORMAT_STD in
  uuid ← (if negb (addr =? 0) then uuid_bin_to_str o.1 addr str_format else Some NULL_text);
  Some (string_local end_ o uuid field_width precision flags).

(** The number at the end of [pointer]. *)
Definition pointer_number (end_ : Z) (o : out) (num field_width precision flags : Z) : option out :=
  let flags := Z.lor flags SMALL in
  let '(field_width, flags) := if field_width =? -1 then (8, Z.lor flags ZEROPAD) else (field_width, flags) in
  number end_ o num 16 field_width precision flags.

(** [pointer]; [fmt] is the format behind the [p]. *)
Definition pointer (end_ : Z) (o : out) (fmt : list Z) (ptr field_width precision flags : Z) : option out :=
  let c := peek fmt in
  if c =? 68 then device_path_string end_ o ptr field_width precision flags
  else if c =? 97 then pointer_number end_ o (ld32 o.1 ptr) 10 precision (Z.lor flags (Z.lor SPECIAL ZEROPAD))
  else if (c =? 109) || (c =? 77) then
    Some (mac_address_string end_ o ptr field_width precision (if c =? 109 then Z.lor flags SPECIAL else flags))
  else if (c =? 105) || (c =? 73) then
    let flags := if c =? 105 then Z.lor flags SPECIAL else flags in
    let d := peek (drop 1 fmt) in
    if d =? 54 then Some (ip6_addr_string end_ o ptr field_width precision flags)
    else if d =? 52 then Some (ip4_addr_string end_ o ptr field_width precision flags)
    else pointer_number end_ o ptr field_width precision (Z.land flags (Z.lnot SPECIAL))
  else if c =? 85 then uuid_string end_ o ptr field_width precision flags fmt
  else pointer_number end_ o ptr field_width precision flags.

(** The rest of an integer conversion. *)
Definition convert_number (end_ : Z) (o : out) (sp : spec) (base flags : Z) (fmt : list Z) (args : list arg) : option round :=
  '(num, args) ← va_number (qualifier sp) flags args;
  o ← number end_ o num base (field_width sp) (precision sp) flags;
  Some (Next o fmt args).

(** The switch on the letter of a conversion; [start] is the buffer. *)
Definition convert (start end_ : Z) (o : out) (sp : spec) (fmt : list Z) (args : list arg) : option round :=
  let c := peek fmt in
  let fmt := drop 1 fmt in
  if c =? 99 then
    '(v, args) ← va_int args;
    let '(o, field_width) :=
      if negb (has (flags sp) LEFT)
      then (pad end_ o (Z.to_nat (field_width sp - 1)) 32, Z.min (field_width sp - 1) 0)
      else (o, field_width sp) in
    let o := ADDCH end_ o (u8 v) in
    Some (Next (pad end_ o (Z.to_nat (field_width - 1)) 32) fmt args)
  else if c =? 115 then
    '(p, args) ← va_ptr args;
    o ← (if qualifier sp =? 108 then string16 end_ o p (field_width sp) (precision sp) (flags sp)
         else Some (string end_ o p (field_width sp) (precision sp) (flags sp)));
    Some (Next o fmt args)
  else if c =? 112 then
    '(p, args) ← va_ptr args;
    o ← pointer end_ o fmt p (field_width sp) (precision sp) (flags sp);
    if IS_ERR o.2 then Some (Error o.1 (PTR_ERR o.2)) else Some (Next o (skip_alnum fmt) args)
  else if c =? 110 then
    '(p, args) ← va_ptr args;
    Some (Next (st32 o.1 p (u32 (o.2 - start)), o.2) fmt args)
  else if c =? 37 then Some (Next (ADDCH end_ o 37) fmt args)
  else if c =? 111 then convert_number end_ o sp 8 (flags sp) fmt args
  else if c =? 120 then convert_number end_ o sp 16 (Z.lor (flags sp) SMALL) fmt args
  else if c =? 88 then convert_number end_ o sp 16 (flags sp) fmt args
  else if (c =? 100) || (c =? 105) then convert_number end_ o sp 10 (Z.lor (flags sp) SIGN) fmt args
  else if c =? 117 then convert_number end_ o sp 10 (flags sp) fmt args
  else
    let o := ADDCH end_ o 37 in
    Some (Next (if negb (c =? 0) then ADDCH end_ o c else o) fmt args).

(** The loop of [vsnprintf_internal]: the output at its end, or the error. *)
Fixpoint vsn_loop (fuel : nat) (start end_ : Z) (o : out) (fmt : list Z) (args : list arg) : option (out + (mem * Z)) :=
  match fuel with
  | O => None
  | S fuel =>
    match fmt with
    | [] => Some (inl o)
    | c :: fmt =>
      r ← (if negb (c =? 37) then Some (Next (ADDCH end_ o c) fmt args)
           else '(sp, fmt, args) ← parse_spec fmt args; convert start end_ o sp fmt args);
      match r with
      | Next o fmt args => vsn_loop fuel start end_ o fmt args
      | Error m err => Some (inr (m, err))
      end
    end
  end.

(** [vsnprintf_internal]: the result and the memory; [None] when an argument is of
    the wrong kind or a width or precision overflows. *)
Definition vsnprintf_internal (m : mem) (buf size : Z) (fmt : list Z) (args : list arg) : option (Z * mem) :=
  let end_ := u32 (buf + size) in
  let '(end_, size) := if end_ <? buf then (2 ^ 32 - 1, 2 ^ 32 - 1 - buf) else (end_, size) in
  r ← vsn_loop (S (length fmt)) buf end_ (m, buf) fmt args;
  match r with
  | inr (m, err) => Some (err, m)
  | inl o =>
    if 0 <? size then
      let o := ADDCH end_ o 0 in
      let m := if end_ <? o.2 then st o.1 (end_ - 1) 0 else o.1 in
      Some (o.2 - 1 - buf, m)
    else Some (o.2 - buf, o.1)
  end.

Definition vsnprintf (m : mem) (buf size : Z) (fmt : list Z) (args : list arg) : option (Z * mem) :=
  vsnprintf_internal m buf size fmt args.

(** [snprintf], [scnprintf] and [sprintf] are these on their own arguments. *)
Definition vscnprintf (m : mem) (buf size : Z) (fmt : list Z) (args : list arg) : option (Z * mem) :=
  '(i, m) ← vsnprintf m buf size fmt args;
  Some (if u32 i <? size then i else if negb (size =? 0) then size - 1 else 0, m).

Definition INT_MAX : Z := 2 ^ 31 - 1.

Definition vsprintf (m : mem) (buf : Z) (fmt : list Z) (args : list arg) : option (Z * mem) :=
  vsnprintf_internal m buf INT_MAX fmt args.

(** [printf]: the result and the string it passes to [puts], if any; [printbuffer]
    is the address of the array on the stack, [pbsize] its size. *)
Definition printf (fuel : nat) (m : mem) (printbuffer pbsize : Z) (fmt : list Z) (args : list arg) : option (Z * option (list Z)) :=
  '(i, m) ← vscnprintf m printbuffer pbsize fmt args;
  let i := u32 i in
  if i <=? 0 then Some (i, None) else
  len ← CString.strlen m fuel printbuffer;
  Some (i, Some (bytes m printbuffer (Z.to_nat len))).

End Printf.

(** [simple_itoa]: the string it returns in its static buffer. *)
Fixpoint itoa_loop (fuel : nat) (i : Z) (s : list Z) : option (list Z) :=
  match fuel with
  | O => None
  | S fuel =>
    let s := u8 (48 + i mod 10) :: s in
    let i := i / 10 in
    if 0 <? i then itoa_loop fuel i s else Some s
  end.

Definition simple_itoa (i : Z) : option (list Z) := itoa_loop 21 i [].

(** [str2off]: whether the string is a number, and the number. *)
Definition str2off (m : mem) (fuel : nat) (p : Z) : option (bool * Z) :=
  '(num, endptr) ← Strto.simple_strtoull m fuel p 16;
  Some (negb (ld m p =? 0) && (ld m endptr =? 0), num).

(** [str2long]: whether the string is a number, and the number. *)
Definition str2long (m : mem) (fuel : nat) (p : Z) : option (bool * Z) :=
  '(num, endptr) ← Strto.simple_strtoul m fuel p 16;
  Some (negb (ld m p =? 0) && (ld m endptr =? 0), num).

End Vsprintf.
