(* ===== verification/Format.v ===== *)
(** * Format: what the formatted output says

    A description of the text each conversion of lib/vsprintf.c means, and the
    theorem that [vsnprintf] of Vsprintf.v writes that text, cut to the size of the
    buffer and terminated, and nothing else. *)

From stdpp Require Import base list option.
From Stdlib Require Import ZifyBool.
From S2P Require Import Prelude Cmem Ctype CString Strto Charset Vsprintf.
Import CString Vsprintf.

#[local] Ltac Zify.zify_post_hook ::= Z.to_euclidean_division_equations.

Module Format.

(** ** Digits *)

(** The digits of a number, the least significant first. *)
Fixpoint digs (n : nat) (base v : Z) : list Z :=
  match n with
  | O => []
  | S n => v mod base :: if v / base =? 0 then [] else digs n base (v / base)
  end.

(** The character of a digit; [locase] is 32 for small letters, 0 for capitals. *)
Definition digit (locase d : Z) : Z := if d <? 10 then 48 + d else 55 + d + locase.

Lemma digs_step n base r k : 0 <= r < base -> digs (S n) base (r + base * k) = r :: if k =? 0 then [] else digs n base k.
Proof.
  intros H. cbn [digs]. rewrite (Z.mul_comm base), Z.mod_add, Z.div_add, Z.mod_small, Z.div_small by lia. reflexivity.
Qed.

Lemma digs_range base v n : 0 < base -> Forall (fun d => 0 <= d < base) (digs n base v).
Proof.
  intros Hb. revert v. induction n as [|n IH]; intros v; cbn [digs]; [constructor|].
  constructor; [apply Z.mod_pos_bound; lia|]. destruct (v / base =? 0); [constructor|apply IH].
Qed.

(** The divisions by ten of [put_dec_trunc], exact in the range they are used for. *)
Lemma approx_cd x : 0 <= x <= 340 -> Z.shiftr (u32 (x * 0xcd)) 11 = x / 10.
Proof.
  intros H. rewrite u32_small, Z.shiftr_div_pow2 by lia. change (2 ^ 11) with 2048.
  symmetry. apply Z.div_unique with (x * 205 - 2048 * (x / 10)); pose proof (Z.div_mod x 10); pose proof (Z.mod_pos_bound x 10); lia.
Qed.

Lemma approx_d x : 0 <= x <= 68 -> Z.shiftr (u32 (x * 0xd)) 7 = x / 10.
Proof.
  intros H. rewrite u32_small, Z.shiftr_div_pow2 by lia. change (2 ^ 7) with 128.
  symmetry. apply Z.div_unique with (x * 13 - 128 * (x / 10)); pose proof (Z.div_mod x 10); pose proof (Z.mod_pos_bound x 10); lia.
Qed.

Lemma nibbles q : 0 <= q < 100000 -> exists d3 d2 d1 d0,
  Z.land q 0xf = d0 /\ Z.land (Z.shiftr q 4) 0xf = d1 /\ Z.land (Z.shiftr q 8) 0xf = d2 /\ Z.shiftr q 12 = d3 /\
  q = d0 + 16 * d1 + 256 * d2 + 4096 * d3 /\ 0 <= d0 < 16 /\ 0 <= d1 < 16 /\ 0 <= d2 < 16 /\ 0 <= d3 <= 24.
Proof.
  intros H. change 0xf with (Z.ones 4). rewrite !Z.land_ones, !Z.shiftr_div_pow2 by lia.
  change (2 ^ 4) with 16. change (2 ^ 8) with 256. change (2 ^ 12) with 4096.
  exists (q / 4096), (q / 256 mod 16), (q / 16 mod 16), (q mod 16). repeat split; lia.
Qed.

(** The five digits of [put_dec_full], and the quotients on the way to them. *)
Lemma five_digits d3 d2 d1 d0 : 0 <= d0 < 16 -> 0 <= d1 < 16 -> 0 <= d2 < 16 -> 0 <= d3 <= 24 ->
  d0 + 16 * d1 + 256 * d2 + 4096 * d3 < 100000 ->
  exists r0 q0 r1 q1 r2 q2 r3 q3, let e0 := 6 * (d3 + d2 + d1) + d0 in let e1 := q0 + 9 * d3 + 5 * d2 + d1 in
    let e2 := q1 + 2 * d2 in let e3 := q2 + 4 * d3 in
    e0 / 10 = q0 /\ e0 - 10 * q0 = r0 /\ e1 / 10 = q1 /\ e1 - 10 * q1 = r1 /\ e2 / 10 = q2 /\ e2 - 10 * q2 = r2 /\
    e3 / 10 = q3 /\ e3 - 10 * q3 = r3 /\ 0 <= r0 < 10 /\ 0 <= r1 < 10 /\ 0 <= r2 < 10 /\ 0 <= r3 < 10 /\ 0 <= q3 < 10 /\
    0 <= e0 <= 340 /\ 0 <= e1 <= 340 /\ 0 <= e2 <= 68 /\ 0 <= e3 <= 340 /\
    d0 + 16 * d1 + 256 * d2 + 4096 * d3 = r0 + 10 * (r1 + 10 * (r2 + 10 * (r3 + 10 * q3))) /\
    (e1 = 0 <-> r1 + 10 * (r2 + 10 * (r3 + 10 * q3)) = 0) /\
    ((e2 = 0 /\ d3 = 0) <-> r2 + 10 * (r3 + 10 * q3) = 0) /\ (e3 = 0 <-> r3 + 10 * q3 = 0).
Proof.
  intros H0 H1 H2 H3 Hq. do 8 eexists. cbn zeta. do 8 (split; [reflexivity|]). repeat split; lia.
Qed.

Definition dec (d : Z) : Z := 48 + d.

Lemma put_dec_trunc_digs q k : 0 <= q < 100000 -> put_dec_trunc q = map dec (digs (5 + k) 10 q).
Proof.
  intros H. destruct (nibbles q H) as (d3 & d2 & d1 & d0 & N0 & N1 & N2 & N3 & Eq & H0 & H1 & H2 & H3).
  unfold put_dec_trunc. rewrite N0, N1, N2, N3. cbv zeta.
  destruct (five_digits d3 d2 d1 d0) as (r0 & q0 & r1 & q1 & r2 & q2 & r3 & q3 & E0 & F0 & E1 & F1 & E2 & F2 & E3 & F3 &
    R0 & R1 & R2 & R3 & Q3 & B0 & B1 & B2 & B3 & Ev & Z1 & Z2 & Z3); [lia..|].
  rewrite (u32_small (6 * (d3 + d2 + d1) + d0)), (approx_cd (6 * (d3 + d2 + d1) + d0)), E0, F0, (u32_small r0) by lia.
  rewrite (u32_small (q0 + 9 * d3 + 5 * d2 + d1)), (approx_cd (q0 + 9 * d3 + 5 * d2 + d1)), E1, F1, (u32_small r1) by lia.
  rewrite (u32_small (q1 + 2 * d2)), (approx_d (q1 + 2 * d2)), E2, F2, (u32_small r2) by lia.
  rewrite (u32_small (q2 + 4 * d3)), (approx_cd (q2 + 4 * d3)), E3, F3, (u32_small r3) by lia.
  rewrite (u8_small (r0 + 48)), (u8_small (r1 + 48)), (u8_small (r2 + 48)), (u8_small (r3 + 48)), (u8_small (q3 + 48)) by lia.
  clear E0 F0 E1 F1 E2 F2 E3 F3. rewrite Eq, Ev. cbn [Nat.add].
  rewrite !(Z.add_comm _ 48). rewrite digs_step by lia. cbn [map]. fold (dec r0). f_equal.
  set (v1 := r1 + _) in *. destruct (Z.eqb_spec v1 0) as [V|V].
  { replace (q0 + 9 * d3 + 5 * d2 + d1 =? 0) with true by lia. reflexivity. }
  replace (q0 + 9 * d3 + 5 * d2 + d1 =? 0) with false by lia. cbn [negb]. subst v1.
  rewrite digs_step by lia. cbn [map]. fold (dec r1). f_equal. set (v2 := r2 + _) in *.
  destruct (Z.eqb_spec v2 0) as [V2|V2].
  { replace (q1 + 2 * d2 =? 0) with true by lia. replace (d3 =? 0) with true by lia. reflexivity. }
  replace (negb (q1 + 2 * d2 =? 0) || negb (d3 =? 0)) with true by lia. subst v2.
  rewrite digs_step by lia. cbn [map]. fold (dec r2). f_equal. set (v3 := r3 + _) in *.
  destruct (Z.eqb_spec v3 0) as [V3|V3].
  { replace (q2 + 4 * d3 =? 0) with true by lia. reflexivity. }
  replace (q2 + 4 * d3 =? 0) with false by lia. cbn [negb]. subst v3.
  rewrite digs_step by lia. cbn [map]. fold (dec r3). f_equal.
  destruct (Z.eqb_spec q3 0) as [V4|V4]; [reflexivity|]. cbn [negb].
  replace q3 with (q3 + 10 * 0) at 2 by lia. rewrite digs_step by lia. reflexivity.
Qed.

Lemma put_dec_full_digs q v k : 0 <= q < 100000 -> 0 < v ->
  put_dec_full q ++ map dec (digs k 10 v) = map dec (digs (5 + k) 10 (q + 100000 * v)).
Proof.
  intros H Hv. destruct (nibbles q H) as (d3 & d2 & d1 & d0 & N0 & N1 & N2 & N3 & Eq & H0 & H1 & H2 & H3).
  unfold put_dec_full. rewrite N0, N1, N2, N3. cbv zeta.
  destruct (five_digits d3 d2 d1 d0) as (r0 & q0 & r1 & q1 & r2 & q2 & r3 & q3 & E0 & F0 & E1 & F1 & E2 & F2 & E3 & F3 &
    R0 & R1 & R2 & R3 & Q3 & B0 & B1 & B2 & B3 & Ev & _); [lia..|].
  rewrite (u32_small (6 * (d3 + d2 + d1) + d0)), (approx_cd (6 * (d3 + d2 + d1) + d0)), E0, F0, (u32_small r0) by lia.
  rewrite (u32_small (q0 + 9 * d3 + 5 * d2 + d1)), (approx_cd (q0 + 9 * d3 + 5 * d2 + d1)), E1, F1, (u32_small r1) by lia.
  rewrite (u32_small (q1 + 2 * d2)), (approx_d (q1 + 2 * d2)), E2, F2, (u32_small r2) by lia.
  rewrite (u32_small (q2 + 4 * d3)), (approx_cd (q2 + 4 * d3)), E3, F3, (u32_small r3) by lia.
  rewrite (u8_small (r0 + 48)), (u8_small (r1 + 48)), (u8_small (r2 + 48)), (u8_small (r3 + 48)), (u8_small (q3 + 48)) by lia.
  replace (q + 100000 * v) with (r0 + 10 * (r1 + 10 * (r2 + 10 * (r3 + 10 * (q3 + 10 * v))))) by lia.
  clear E0 F0 E1 F1 E2 F2 E3 F3 Eq Ev. rewrite !(Z.add_comm _ 48). cbn [Nat.add app].
  rewrite digs_step by lia. set (v1 := r1 + _). replace (v1 =? 0) with false by lia. subst v1.
  rewrite digs_step by lia. set (v1 := r2 + _). replace (v1 =? 0) with false by lia. subst v1.
  rewrite digs_step by lia. set (v1 := r3 + _). replace (v1 =? 0) with false by lia. subst v1.
  rewrite digs_step by lia. set (v1 := q3 + _). replace (v1 =? 0) with false by lia. subst v1.
  rewrite digs_step by lia. replace (v =? 0) with false by lia. reflexivity.
Qed.

Lemma put_dec_digs : forall f k num, 0 <= num < 100000 ^ Z.of_nat f -> (0 < f)%nat ->
  put_dec f num = Some (map dec (digs (5 * f + k) 10 num)).
Proof.
  induction f as [|f IH]; intros k num Hn Hf; [lia|]. cbn [put_dec]. destruct (Z.ltb_spec num 100000).
  - rewrite (put_dec_trunc_digs num (5 * f + k)) by lia. do 3 f_equal. lia.
  - rewrite Nat2Z.inj_succ, Z.pow_succ_r in Hn by lia. assert (0 < num / 100000) by lia.
    assert (num / 100000 < 100000 ^ Z.of_nat f) as Hq by (apply Z.div_lt_upper_bound; lia).
    rewrite (IH k (num / 100000)); [|lia|]. 2: { destruct f; [cbn in Hq; lia|lia]. }
    cbn [mbind option_bind]. f_equal. rewrite put_dec_full_digs by lia. do 2 f_equal; lia.
Qed.

(** The mask and shift loop. *)
Lemma land_mask num k : 0 <= k <= 8 -> Z.land (u8 num) (2 ^ k - 1) = num mod 2 ^ k.
Proof.
  intros. replace (2 ^ k - 1) with (Z.ones k) by (rewrite Z.ones_equiv; lia). rewrite Z.land_ones by lia. unfold u8, wrap.
  replace 8 with (k + (8 - k)) by lia. rewrite Z.pow_add_r, Z.rem_mul_r by lia.
  rewrite (Z.mul_comm (2 ^ k)), Z.mod_add by (apply Z.pow_nonzero; lia). apply Z.mod_mod. apply Z.pow_nonzero; lia.
Qed.

Lemma digit_char locase d : locase = 0 \/ locase = 32 -> 0 <= d < 16 ->
  Z.lor (nth (Z.to_nat d) digits 0) locase = digit locase d.
Proof.
  intros Hl Hd. assert (d = 0 \/ d = 1 \/ d = 2 \/ d = 3 \/ d = 4 \/ d = 5 \/ d = 6 \/ d = 7 \/ d = 8 \/ d = 9 \/ d = 10 \/
    d = 11 \/ d = 12 \/ d = 13 \/ d = 14 \/ d = 15) as Hc by lia.
  destruct Hl as [-> | ->]; repeat (destruct Hc as [-> | Hc]; [reflexivity|]); subst d; reflexivity.
Qed.

Lemma bits_loop_digs k locase : locase = 0 \/ locase = 32 -> 1 <= k <= 4 -> forall n num, (0 < n)%nat -> 0 <= num < 2 ^ (k * Z.of_nat n) ->
  bits_loop n (2 ^ k - 1) k locase num = Some (map (digit locase) (digs n (2 ^ k) num)).
Proof.
  intros Hl Hk. assert (0 < 2 ^ k) as Hp by (apply Z.pow_pos_nonneg; lia).
  assert (2 ^ k <= 2 ^ 4) as Hp4 by (apply Z.pow_le_mono_r; lia).
  induction n as [|n IH]; intros num Hn Hnum; [lia|]. cbn [bits_loop digs map].
  rewrite land_mask, Z.shiftr_div_pow2 by lia. pose proof (Z.mod_pos_bound num (2 ^ k) Hp).
  rewrite digit_char by (assumption || lia). destruct (Z.eqb_spec (num / 2 ^ k) 0) as [E|E]; cbn [negb]; [reflexivity|].
  assert (0 <= num / 2 ^ k < 2 ^ (k * Z.of_nat n)) as Hq.
  { split; [apply Z.div_pos; lia|]. apply Z.div_lt_upper_bound; [lia|]. rewrite <- Z.pow_add_r by lia.
    replace (k + k * Z.of_nat n) with (k * Z.of_nat (S n)) by lia. lia. }
  rewrite IH; [reflexivity| |exact Hq]. destruct n; [|lia]. replace (k * Z.of_nat 0) with 0 in Hq by lia. cbn in Hq. lia.
Qed.

(** ** The output as a list *)

Lemma addchs_app end_ o l1 l2 : addchs end_ o (l1 ++ l2) = addchs end_ (addchs end_ o l1) l2.
Proof. revert o. induction l1 as [|c l1 IH]; intros o; [reflexivity|]. apply IH. Qed.

Lemma pad_addchs end_ o n c : pad end_ o n c = addchs end_ o (replicate n c).
Proof. revert o. induction n as [|n IH]; intros o; [reflexivity|]. apply IH. Qed.

Lemma addch_addchs end_ o c : ADDCH end_ o c = addchs end_ o [c].
Proof. reflexivity. Qed.

(** ** Numbers *)

Lemma has_bit f i : 0 <= i -> has f (2 ^ i) = Z.testbit f i.
Proof.
  intros Hi. unfold has. rewrite Z.land_comm. destruct (Z.testbit f i) eqn:E.
  - destruct (Z.eqb_spec (Z.land (2 ^ i) f) 0) as [H|H]; [|reflexivity].
    assert (Z.testbit (Z.land (2 ^ i) f) i = false) as H' by (rewrite H; apply Z.bits_0).
    rewrite Z.land_spec, Z.pow2_bits_true, E in H' by lia. discriminate.
  - replace (Z.land (2 ^ i) f) with 0; [reflexivity|]. symmetry. apply Z.bits_inj'. intros j Hj.
    rewrite Z.land_spec, Z.bits_0, Z.pow2_bits_eqb by lia. destruct (Z.eqb_spec i j) as [<-|]; [exact E|reflexivity].
Qed.

Lemma has_flag f : has f ZEROPAD = Z.testbit f 0 /\ has f SIGN = Z.testbit f 1 /\ has f PLUS = Z.testbit f 2 /\
  has f SPACE = Z.testbit f 3 /\ has f LEFT = Z.testbit f 4 /\ has f SMALL = Z.testbit f 5 /\ has f SPECIAL = Z.testbit f 6 /\
  has f (ZEROPAD + LEFT) = Z.testbit f 0 || Z.testbit f 4.
Proof.
  split; [apply (has_bit f 0); lia|]. split; [apply (has_bit f 1); lia|]. split; [apply (has_bit f 2); lia|].
  split; [apply (has_bit f 3); lia|]. split; [apply (has_bit f 4); lia|]. split; [apply (has_bit f 5); lia|].
  split; [apply (has_bit f 6); lia|]. rewrite <- !has_bit by lia. unfold has. change (ZEROPAD + LEFT) with (Z.lor (2 ^ 0) (2 ^ 4)).
  rewrite Z.land_lor_distr_r. apply eq_true_iff_eq. rewrite orb_true_iff, !negb_true_iff, !Z.eqb_neq, Z.lor_eq_0_iff. lia.
Qed.

(** The sign in front of a number, its magnitude and the prefix of its base. *)
Definition sign_text (flags num : Z) : list Z :=
  if has flags SIGN then
    if sgn 64 num <? 0 then [45] else if has flags PLUS then [43] else if has flags SPACE then [32] else []
  else [].

Definition magnitude (flags num : Z) : Z := if has flags SIGN && (sgn 64 num <? 0) then - sgn 64 num else num.

Definition prefix_text (flags base : Z) : list Z :=
  if has flags SPECIAL && negb (base =? 10) then
    if base =? 16 then [48; if has flags SMALL then 120 else 88] else [48]
  else [].

Definition digit_text (flags base v : Z) : list Z :=
  rev (map (digit (if has flags SMALL then 32 else 0)) (digs 64 base v)).

(** A number in its field: zeros up to the precision, then the width filled with
    spaces behind, with zeros behind the sign and prefix, or with spaces before. *)
Definition number_text (num base width prec flags : Z) : list Z :=
  let ds := digit_text flags base (magnitude flags num) in
  let body := replicate (Z.to_nat (prec - Z.of_nat (length ds))) 48 ++ ds in
  let head := sign_text flags num ++ prefix_text flags base in
  let room := Z.to_nat (width - Z.of_nat (length (head ++ body))) in
  if has flags LEFT then head ++ body ++ replicate room 32
  else if has flags ZEROPAD then head ++ replicate room 48 ++ body
  else replicate room 32 ++ head ++ body.

Lemma locase_flag f : Z.land f SMALL = if has f SMALL then 32 else 0.
Proof.
  unfold has. destruct (Z.eqb_spec (Z.land f SMALL) 0) as [->|H]; cbn [negb]; [reflexivity|].
  assert (has f SMALL = true) as Hb by (unfold has; lia). change SMALL with (2 ^ 5) in Hb.
  rewrite (has_bit f 5) in Hb by lia.
  apply Z.bits_inj'. intros j Hj. rewrite Z.land_spec. change 32 with (2 ^ 5). change SMALL with (2 ^ 5).
  rewrite Z.pow2_bits_eqb by lia. destruct (Z.eqb_spec 5 j) as [<-|]; [rewrite Hb; reflexivity|apply andb_false_r].
Qed.

Definition is_base (base : Z) : Prop := base = 8 \/ base = 10 \/ base = 16.

(** The digits [number] collects in its array. *)
Lemma tmp_digits f base v : is_base base -> 0 <= v < 2 ^ 64 ->
  (if v =? 0 then Some [48]
   else if negb (base =? 10) then bits_loop 64 (base - 1) (if base =? 16 then 4 else 3) (Z.land f SMALL) v
   else put_dec 5 v) = Some (rev (digit_text f base v)).
Proof.
  intros Hb Hv. unfold digit_text. rewrite rev_involutive, locase_flag. set (lc := if has f SMALL then 32 else 0).
  assert (lc = 0 \/ lc = 32) as Hlc by (subst lc; destruct (has f SMALL); auto). destruct (Z.eqb_spec v 0) as [->|Hv0].
  { destruct Hb as [-> | [-> | ->] ]; reflexivity. }
  destruct Hb as [-> | [-> | ->] ]; cbn [Z.eqb Pos.eqb negb].
  - apply (bits_loop_digs 3); [exact Hlc|lia|lia|]. split; [lia|]. apply Z.lt_le_trans with (2 ^ 64); [lia|]. apply Z.pow_le_mono_r; lia.
  - rewrite (put_dec_digs 5 39) by lia. f_equal. apply map_ext_in. intros d Hd.
    pose proof (digs_range 10 v 64 ltac:(lia)) as Hr. rewrite List.Forall_forall in Hr. specialize (Hr d Hd). cbn beta in Hr.
    unfold digit, dec. replace (d <? 10) with true by lia. reflexivity.
  - apply (bits_loop_digs 4); [exact Hlc|lia|lia|]. split; [lia|]. apply Z.lt_le_trans with (2 ^ 64); [lia|]. apply Z.pow_le_mono_r; lia.
Qed.

Lemma left_clears_zeropad f : let f' := if has f LEFT then Z.land f (Z.lnot ZEROPAD) else f in
  has f' LEFT = has f LEFT /\ has f' SIGN = has f SIGN /\ has f' PLUS = has f PLUS /\ has f' SPACE = has f SPACE /\
  has f' ZEROPAD = negb (has f LEFT) && has f ZEROPAD /\ has f' (ZEROPAD + LEFT) = has f ZEROPAD || has f LEFT.
Proof.
  intros f'. destruct (has_flag f) as (E0 & E1 & E2 & E3 & E4 & _ & _ & _). destruct (has_flag f') as (F0 & F1 & F2 & F3 & F4 & _ & _ & F5).
  rewrite F0, F1, F2, F3, F4, F5. subst f'. rewrite E0, E1, E2, E3, E4. destruct (Z.testbit f 4) eqn:E; [|rewrite E; auto 8].
  rewrite !Z.land_spec, !Z.lnot_spec by lia. rewrite E. change (Z.testbit ZEROPAD 0) with true. change (Z.testbit ZEROPAD 1) with false.
  change (Z.testbit ZEROPAD 2) with false. change (Z.testbit ZEROPAD 3) with false. change (Z.testbit ZEROPAD 4) with false.
  cbn [negb andb orb]. rewrite !andb_true_r, ?andb_false_r, ?orb_true_r. auto 8.
Qed.

(** The sign step of [number]. *)
Lemma sign_step f num size : 0 <= num < 2 ^ 64 ->
  (if has f SIGN then
     if sgn 64 num <? 0 then (45, u64 (- sgn 64 num), size - 1)
     else if has f PLUS then (43, num, size - 1) else if has f SPACE then (32, num, size - 1) else (0, num, size)
   else (0, num, size)) =
  (nth 0 (sign_text f num) 0, magnitude f num, size - Z.of_nat (length (sign_text f num))) /\
  0 <= magnitude f num < 2 ^ 64 /\ Forall (fun c => c <> 0) (sign_text f num) /\ (length (sign_text f num) <= 1)%nat.
Proof.
  intros Hn. unfold sign_text, magnitude. assert (- 2 ^ 63 <= sgn 64 num < 2 ^ 63) as Hs.
  { unfold sgn, wrap. rewrite Z.mod_small by lia. destruct (Z.ltb_spec num (2 ^ (64 - 1))); lia. }
  destruct (has f SIGN); cbn [andb]; [|cbn; repeat split; [f_equal; lia|lia..|constructor|lia]].
  destruct (Z.ltb_spec (sgn 64 num) 0).
  - unfold u64. rewrite wrap_small by (unfold in_range; lia). cbn. repeat split; [lia..|repeat constructor; lia|lia].
  - destruct (has f PLUS); [|destruct (has f SPACE)]; cbn; repeat split; try lia; try (f_equal; lia); repeat constructor; lia.
Qed.

(** The prefix step, and the room it takes. *)
Lemma prefix_step end_ o f base :
  (if has f SPECIAL && negb (base =? 10) then
     if base =? 16 then ADDCH end_ (ADDCH end_ o 48) (Z.lor 88 (Z.land f SMALL)) else ADDCH end_ o 48
   else o) = addchs end_ o (prefix_text f base).
Proof.
  unfold prefix_text. rewrite locase_flag. destruct (has f SPECIAL && negb (base =? 10)); [|reflexivity].
  destruct (base =? 16); [|reflexivity]. destruct (has f SMALL); reflexivity.
Qed.

Lemma prefix_size f base size :
  (if has f SPECIAL && negb (base =? 10) then if base =? 16 then size - 1 - 1 else size - 1 else size) =
  size - Z.of_nat (length (prefix_text f base)).
Proof. unfold prefix_text. repeat case_match; cbn; lia. Qed.

Lemma sign_write end_ o sg : Forall (fun c => c <> 0) sg -> (length sg <= 1)%nat ->
  (if negb (nth 0 sg 0 =? 0) then ADDCH end_ o (nth 0 sg 0) else o) = addchs end_ o sg.
Proof.
  intros Hnz Hl. destruct sg as [|c [|d sg]]; cbn in Hl |- *; [reflexivity| |lia].
  apply Forall_cons_1 in Hnz as [Hc _]. replace (c =? 0) with false by lia. reflexivity.
Qed.

Lemma spent_pad size : Z.to_nat (spent size) = O /\ Z.to_nat (spent (spent size)) = O.
Proof. unfold spent. split; repeat case_match; lia. Qed.

(** [number] writes the text of the number. *)
Lemma number_writes end_ o num base width prec f : is_base base -> 0 <= num < 2 ^ 64 ->
  number end_ o num base width prec f = Some (addchs end_ o (number_text num base width prec f)).
Proof.
  intros Hb Hnum. unfold number, number_text. cbv zeta.
  set (f' := if has f LEFT then _ else f). destruct (left_clears_zeropad f) as (L1 & L2 & L3 & L4 & L5 & L6). fold f' in L1, L2, L3, L4, L5, L6.
  rewrite L1, L2, L3, L4, L5, L6. clearbody f'. clear L1 L2 L3 L4 L5 L6.
  destruct (sign_step f num width Hnum) as (-> & Hm & Hnz & Hl). rewrite (tmp_digits f base _ Hb Hm). cbn [mbind option_bind].
  rewrite length_rev, rev_involutive, prefix_size. set (ds := digit_text _ _ _). set (sg := sign_text f num) in *.
  set (pfx := prefix_text f base). set (size := _ - _ - _).
  set (n := (if prec <? Z.of_nat (length ds) then Z.of_nat (length ds) else prec) - Z.of_nat (length ds)).
  replace (Z.to_nat (prec - Z.of_nat (length ds))) with (Z.to_nat n) by (subst n; destruct (Z.ltb_spec prec (Z.of_nat (length ds))); lia).
  replace (Z.to_nat (width - _)) with (Z.to_nat size).
  2: { rewrite !length_app, length_replicate. subst size n. destruct (Z.ltb_spec prec (Z.of_nat (length ds))); lia. }
  destruct (spent_pad size) as [Sp1 Sp2].
  destruct (has f LEFT); [|destruct (has f ZEROPAD)]; rewrite ?orb_true_r, ?orb_false_r; cbn [negb andb];
    rewrite sign_write, prefix_step by assumption; fold pfx; rewrite ?Sp1, ?Sp2, !pad_addchs, <- !addchs_app, <- ?app_assoc;
    cbn [replicate]; rewrite ?app_nil_r; reflexivity.
Qed.

(** ** Texts in fields *)

Definition justify (left : bool) (width : Z) (s : list Z) : list Z :=
  let room := replicate (Z.to_nat (width - Z.of_nat (length s))) 32 in if left then s ++ room else room ++ s.

Definition string_text (s : list Z) (width prec flags : Z) : list Z := justify (has flags LEFT) width (upto prec s).

Lemma wait_width_text len w : (wait_width len w).1 = Z.to_nat (w - len) /\ (wait_width len (wait_width len w).2).1 = O.
Proof. unfold wait_width. destruct (Z.ltb_spec len w); cbn [fst snd]; split; try lia; case_match; cbn; lia. Qed.

Lemma fill_writes end_ o s w f : fill end_ o s w f = addchs end_ o (justify (has f LEFT) w s).
Proof.
  unfold fill, justify. destruct (wait_width_text (Z.of_nat (length s)) w) as [E1 E2].
  destruct (has f LEFT); cbn [negb].
  - rewrite E1, pad_addchs, <- addchs_app. reflexivity.
  - destruct (wait_width (Z.of_nat (length s)) w) as [n w']. cbn [fst snd] in E1, E2. rewrite E1, E2, !pad_addchs, <- !addchs_app.
    cbn [replicate]. rewrite app_nil_r. reflexivity.
Qed.

(** ** The buffer

    The output position is not below [lo], and memory outside [lo, hi) is as in [m]. *)

Definition agree (lo hi : Z) (m m' : mem) : Prop := forall a, ~ lo <= a < hi -> ld m' a = ld m a.

Definition within (lo hi : Z) (m : mem) (o : out) : Prop := lo <= o.2 /\ agree lo hi m o.1.

Lemma within_addch lo hi m o c : within lo hi m o -> within lo hi m (ADDCH hi o c).
Proof.
  intros [Hp Ha]. unfold ADDCH, within. cbn [fst snd]. split; [lia|]. intros a Hn.
  destruct (Z.ltb_spec o.2 hi); [|apply Ha, Hn]. rewrite ld_st_other by lia. apply Ha, Hn.
Qed.

Lemma within_addchs lo hi m l : forall o, within lo hi m o -> within lo hi m (addchs hi o l).
Proof. induction l as [|c l IH]; intros o H; [exact H|]. apply IH, within_addch, H. Qed.

Lemma addchs_pos end_ l : forall o, (addchs end_ o l).2 = o.2 + Z.of_nat (length l).
Proof. induction l as [|c l IH]; intros o; cbn [addchs length]; [lia|]. rewrite IH. cbn [ADDCH snd]. lia. Qed.

(** The buffer takes what fits. *)
Lemma addchs_wr end_ l : forall m p, (addchs end_ (m, p) l).1 = wr m p (take (Z.to_nat (end_ - p)) l).
Proof.
  induction l as [|c l IH]; intros m p; cbn [addchs]; [rewrite take_nil; reflexivity|].
  unfold ADDCH. cbn [fst snd]. rewrite IH. destruct (Z.ltb_spec p end_).
  - replace (Z.to_nat (end_ - p)) with (S (Z.to_nat (end_ - (p + 1)))) by lia. reflexivity.
  - replace (Z.to_nat (end_ - (p + 1))) with O by lia. replace (Z.to_nat (end_ - p)) with O by lia. rewrite !take_0. reflexivity.
Qed.

Lemma addchs_eta end_ o l : addchs end_ o l = (wr o.1 o.2 (take (Z.to_nat (end_ - o.2)) l), o.2 + Z.of_nat (length l)).
Proof. rewrite (surjective_pairing (addchs end_ o l)), addchs_pos. destruct o as [m p]. rewrite addchs_wr. reflexivity. Qed.

(** The last lines of [vsnprintf_internal]: what does not fit is cut for the NUL. *)
Lemma terminate_writes m p size s : 0 < size ->
  let o := ADDCH (p + size) (addchs (p + size) (m, p) s) 0 in
  o.2 - 1 - p = Z.of_nat (length s) /\
  mem_eq (if p + size <? o.2 then st o.1 (p + size - 1) 0 else o.1) (wr m p (take (Z.to_nat (size - 1)) s ++ [0])).
Proof.
  intros Hs o. assert (o = addchs (p + size) (m, p) (s ++ [0])) as E by (rewrite addchs_app; reflexivity).
  rewrite addchs_eta in E. cbn [fst snd] in E. rewrite length_app in E. replace (p + size - p) with size in E by lia.
  rewrite E. cbn [fst snd length]. clear E o. split; [lia|]. destruct (Z.ltb_spec (p + size) (p + Z.of_nat (length s + 1))).
  - rewrite take_app_le by lia. destruct (lookup_lt_is_Some_2 s (Z.to_nat (size - 1)) ltac:(lia)) as [x Hx].
    replace (Z.to_nat size) with (S (Z.to_nat (size - 1))) by lia. rewrite (take_S_r _ _ _ Hx), !wr_app, length_take.
    replace (p + Z.of_nat (Z.to_nat (size - 1) `min` length s)%nat) with (p + size - 1) by lia. cbn [wr].
    intros a. rewrite !ld_st. destruct (a =? p + size - 1); reflexivity.
  - rewrite !take_ge by (rewrite ?length_app; cbn; lia). reflexivity.
Qed.

(** [n] bytes at [p] apart from the buffer. *)
Definition apart (lo hi p n : Z) : bool := (p + n <=? lo) || (hi <=? p).

Lemma apart_ld lo hi m m' p n a : apart lo hi p n = true -> agree lo hi m m' -> p <= a < p + n -> ld m' a = ld m a.
Proof. unfold apart. intros Hp Ha Hr. apply Ha. lia. Qed.

Lemma copy_chars_writes lo hi m n : forall s o, within lo hi m o -> apart lo hi s (Z.of_nat n) = true ->
  copy_chars hi o n s = addchs hi o (bytes m s n).
Proof.
  induction n as [|n IH]; intros s o Ho Hs; [reflexivity|]. cbn [copy_chars bytes addchs].
  rewrite (apart_ld lo hi m o.1 s (Z.of_nat (S n)) s Hs (proj2 Ho)) by lia.
  apply IH; [apply within_addch, Ho|]. unfold apart in *. lia.
Qed.

(** The string at [p], cut at [prec] characters; [k] bounds the search. *)
Fixpoint text_at (k : nat) (m : mem) (p prec : Z) : option (list Z) :=
  match k with
  | O => None
  | S k => if (prec =? 0) || (ld m p =? 0) then Some [] else rest ← text_at k m (p + 1) (prec - 1); Some (ld m p :: rest)
  end.

Lemma text_at_spec m m' k : forall p prec s, text_at k m p prec = Some s -> 0 <= prec ->
  (forall a, p <= a <= p + Z.of_nat (length s) -> ld m' a = ld m a) ->
  strnlen m' p prec = Z.of_nat (length s) /\ bytes m p (length s) = s.
Proof.
  induction k as [|k IH]; intros p prec s H Hp Ha; [discriminate|]. cbn [text_at] in H. unfold strnlen.
  destruct (Z.eqb_spec prec 0) as [->|Hp0]; cbn [orb] in H.
  { injection H as <-. change (Z.to_nat 0) with O. cbn. split; [lia|reflexivity]. }
  destruct (Z.to_nat prec) as [|n] eqn:En; [lia|]. cbn [strnlen_loop].
  rewrite (Ha p) by lia. destruct (Z.eqb_spec (ld m p) 0) as [E0|E0].
  { injection H as <-. cbn. split; [lia|reflexivity]. }
  destruct (text_at k m (p + 1) (prec - 1)) as [rest|] eqn:E; [|discriminate]. injection H as <-. cbn [length] in *.
  destruct (IH (p + 1) (prec - 1) rest E ltac:(lia)) as [IH1 IH2]; [intros a Hr; apply Ha; lia|].
  cbn [bytes]. rewrite IH2. unfold strnlen in IH1. replace (Z.to_nat (prec - 1)) with n in IH1 by lia. split; [lia|reflexivity].
Qed.

Lemma string_writes lo hi m o p w prec f k s : within lo hi m o -> p <> 0 -> text_at k m p (u32 prec) = Some s ->
  apart lo hi p (Z.of_nat (length s) + 1) = true ->
  string hi o p w prec f = addchs hi o (justify (has f LEFT) w s).
Proof.
  intros Ho Hp Ht Hs. unfold string. replace (p =? 0) with false by lia.
  destruct (text_at_spec m o.1 k p (u32 prec) s Ht) as [-> Hb]; [pose proof (u32_range prec); lia| |].
  { intros a Ha. apply (apart_ld lo hi m o.1 p (Z.of_nat (length s) + 1) a Hs (proj2 Ho)). lia. }
  assert (apart lo hi p (Z.of_nat (length s)) = true) as Hs' by (unfold apart in *; lia).
  rewrite Nat2Z.id. destruct (wait_width_text (Z.of_nat (length s)) w) as [E1 E2]. unfold justify.
  destruct (has f LEFT); cbn [negb].
  - rewrite (copy_chars_writes lo hi m), Hb, E1, pad_addchs, <- addchs_app by assumption. reflexivity.
  - destruct (wait_width (Z.of_nat (length s)) w) as [n w']. cbn [fst snd] in E1, E2. rewrite E1, E2, !pad_addchs.
    rewrite (copy_chars_writes lo hi m), Hb, <- !addchs_app by (try apply within_addchs; assumption).
    cbn [replicate]. rewrite app_nil_r. reflexivity.
Qed.

(** The wide string at [p], likewise. *)
Fixpoint wide_at (k : nat) (m : mem) (p prec : Z) : option (list Z) :=
  match k with
  | O => None
  | S k => if (prec =? 0) || (Charset.ld16 m p =? 0) then Some []
           else rest ← wide_at k m (p + 2) (prec - 1); Some (Charset.ld16 m p :: rest)
  end.

Lemma wide_at_spec m m' k : forall p prec i s, wide_at k m (p + 2 * i) prec = Some s -> 0 <= prec ->
  (forall a, p + 2 * i <= a < p + 2 * i + 2 * (Z.of_nat (length s) + 1) -> ld m' a = ld m a) ->
  Charset.utf16_strnlen m' (Z.to_nat prec) p i = i + Z.of_nat (length s) /\
  Charset.halves m' (p + 2 * i) (length s) = s.
Proof.
  induction k as [|k IH]; intros p prec i s H Hp Ha; [discriminate|]. cbn [wide_at] in H.
  destruct (Z.eqb_spec prec 0) as [->|Hp0]; cbn [orb] in H.
  { injection H as <-. change (Z.to_nat 0) with O. cbn. split; [lia|reflexivity]. }
  destruct (Z.to_nat prec) as [|n] eqn:En; [lia|]. cbn [Charset.utf16_strnlen].
  rewrite (Charset.ld16_ext m' m (p + 2 * i)) by (apply Ha; lia). destruct (Z.eqb_spec (Charset.ld16 m (p + 2 * i)) 0) as [E0|E0]; cbn [negb].
  { injection H as <-. cbn. split; [lia|reflexivity]. }
  replace (p + 2 * i + 2) with (p + 2 * (i + 1)) in H by lia.
  destruct (wide_at k m (p + 2 * (i + 1)) (prec - 1)) as [rest|] eqn:E; [|discriminate]. injection H as <-. cbn [length] in *.
  destruct (IH p (prec - 1) (i + 1) rest E ltac:(lia)) as [IH1 IH2]; [intros a Hr; apply Ha; lia|].
  cbn [Charset.halves]. rewrite (Charset.ld16_ext m' m (p + 2 * i)) by (apply Ha; lia).
  replace (p + 2 * i + 2) with (p + 2 * (i + 1)) by lia. rewrite IH2.
  replace (Z.to_nat (prec - 1)) with n in IH1 by lia. rewrite IH1. split; [lia|reflexivity].
Qed.

(** The UTF-8 form of a wide string; it exists for every sequence of units. *)
Definition narrow (us : list Z) : option (list Z) := Charset.utf16_to_utf8 us (length us).

Lemma string16_writes lo hi m o p w prec f k us s : within lo hi m o -> p <> 0 -> wide_at k m p (u32 prec) = Some us ->
  narrow us = Some s -> apart lo hi p (2 * (Z.of_nat (length us) + 1)) = true ->
  string16 hi o p w prec f = Some (addchs hi o (justify (has f LEFT) w s)).
Proof.
  intros Ho Hp Ht Hn Hs. unfold string16. replace (p =? 0) with false by lia.
  destruct (wide_at_spec m o.1 k p (u32 prec) 0 us) as [E1 E2]; rewrite ?Z.mul_0_r, ?Z.add_0_r in *; [exact Ht|pose proof (u32_range prec); lia| |].
  { intros a Ha. apply (apart_ld lo hi m o.1 p (2 * (Z.of_nat (length us) + 1)) a Hs (proj2 Ho)). lia. }
  rewrite E1, Z.add_0_l, Nat2Z.id, E2. unfold narrow in Hn. rewrite Hn. cbn [mbind option_bind]. f_equal. apply fill_writes.
Qed.

Lemma narrow_ascii us : Forall (fun c => 0 <= c < 128) us -> narrow us = Some us.
Proof.
  unfold narrow, Charset.utf16_to_utf8. induction 1 as [|c us Hc _ IH]; [reflexivity|]. cbn [length Charset.to_utf8 Z.eqb negb].
  replace (c <=? 0x7F) with true by lia. rewrite IH. cbn [mbind option_bind]. rewrite u8_small by lia. reflexivity.
Qed.

Lemma string16_null end_ o w prec f : string16 end_ o 0 w prec f = Some (addchs end_ o (string_text NULL_text w prec f)).
Proof.
  unfold string16, string16_local. cbn [Z.eqb].
  pose proof (narrow_ascii (upto prec NULL_text)) as E. unfold narrow in E. rewrite E.
  - cbn [mbind option_bind]. f_equal. apply fill_writes.
  - apply Forall_take. repeat constructor; lia.
Qed.

Lemma mac_chars_ext m m' colons k : forall p, (forall a, p <= a < p + Z.of_nat k -> ld m' a = ld m a) ->
  mac_chars m' p colons k = mac_chars m p colons k.
Proof.
  induction k as [|k IH]; intros p H; [reflexivity|]. cbn [mac_chars]. rewrite H by lia.
  rewrite IH by (intros a Ha; apply H; lia). reflexivity.
Qed.

Lemma ip6_chars_ext m m' colons k : forall p, (forall a, p <= a < p + 2 * Z.of_nat k -> ld m' a = ld m a) ->
  ip6_chars m' p colons k = ip6_chars m p colons k.
Proof.
  induction k as [|k IH]; intros p H; [reflexivity|]. cbn [ip6_chars]. rewrite !H by lia.
  rewrite IH by (intros a Ha; apply H; lia). reflexivity.
Qed.

Lemma ip4_chars_ext m m' k : forall p, (forall a, p <= a < p + Z.of_nat k -> ld m' a = ld m a) ->
  ip4_chars m' p k = ip4_chars m p k.
Proof.
  induction k as [|k IH]; intros p H; [reflexivity|]. cbn [ip4_chars]. rewrite H by lia.
  rewrite IH by (intros a Ha; apply H; lia). reflexivity.
Qed.

(** ** The text of a format *)

Section Text.
Context (uuid_bin_to_str : mem -> Z -> Z -> option (list Z)).
(** The bound on the search for the end of a string, the buffer and the memory. *)
Context (k : nat) (lo hi : Z) (m : mem).

Definition guard (b : bool) : option unit := if b then Some tt else None.

Definition pointer_number_text (num width prec flags : Z) : list Z :=
  if width =? -1 then number_text num 16 8 prec (Z.lor (Z.lor flags SMALL) ZEROPAD)
  else number_text num 16 width prec (Z.lor flags SMALL).

(** [None] for a device path, and when the pointer is into the buffer.  The letters
    are D, a, m and M, i and I with 6 or 4, and U. *)
Definition pointer_text (fmt : list Z) (ptr width prec flags : Z) : option (list Z) :=
  let c := peek fmt in
  let d := peek (drop 1 fmt) in
  if c =? 68 then if ptr =? 0 then Some (string_text NULL_text width prec flags) else None
  else if c =? 97 then
    _ ← guard (apart lo hi ptr 4); Some (pointer_number_text (ld32 m ptr) 10 prec (Z.lor flags (Z.lor SPECIAL ZEROPAD)))
  else if (c =? 109) || (c =? 77) then
    _ ← guard (apart lo hi ptr 6);
    Some (string_text (mac_chars m ptr (negb (has flags SPECIAL || (c =? 109))) 6) width prec flags)
  else if (c =? 105) || (c =? 73) then
    if d =? 54 then
      _ ← guard (apart lo hi ptr 16);
      Some (string_text (ip6_chars m ptr (negb (has flags SPECIAL || (c =? 105))) 8) width prec flags)
    else if d =? 52 then _ ← guard (apart lo hi ptr 4); Some (string_text (ip4_chars m ptr 4) width prec flags)
    else Some (pointer_number_text ptr width prec (Z.land (if c =? 105 then Z.lor flags SPECIAL else flags) (Z.lnot SPECIAL)))
  else if c =? 85 then
    if ptr =? 0 then Some (string_text NULL_text width prec flags) else
    _ ← guard (apart lo hi ptr 16);
    uuid ← uuid_bin_to_str m ptr (if (d =? 76) || (d =? 108) then UUID_STR_FORMAT_GUID else UUID_STR_FORMAT_STD);
    Some (string_text uuid width prec flags)
  else Some (pointer_number_text ptr width prec flags).

Definition integer_text (sp : spec) (base flags : Z) (fmt : list Z) (args : list arg) : option (list Z * list Z * list arg) :=
  '(num, args) ← va_number (qualifier sp) flags args;
  Some (number_text num base (field_width sp) (precision sp) flags, fmt, args).

(** The string of "%s" or "%ls". *)
Definition pointed_text (sp : spec) (p : Z) : option (list Z) :=
  if p =? 0 then Some (string_text NULL_text (field_width sp) (precision sp) (flags sp))
  else if qualifier sp =? 108 then
    us ← wide_at k m p (u32 (precision sp));
    _ ← guard (apart lo hi p (2 * (Z.of_nat (length us) + 1)));
    s ← narrow us; Some (justify (has (flags sp) LEFT) (field_width sp) s)
  else
    s ← text_at k m p (u32 (precision sp));
    _ ← guard (apart lo hi p (Z.of_nat (length s) + 1));
    Some (justify (has (flags sp) LEFT) (field_width sp) s).

(** The text of one conversion, the format and the arguments behind it; [None] for
    "%n" and for arguments of the wrong kind.  The letters are c, s, p, n, the
    percent sign, o, x, X, d and i, and u. *)
Definition convert_text (sp : spec) (fmt : list Z) (args : list arg) : option (list Z * list Z * list arg) :=
  let c := peek fmt in
  let fmt := drop 1 fmt in
  if c =? 99 then '(v, args) ← va_int args; Some (justify (has (flags sp) LEFT) (field_width sp) [u8 v], fmt, args)
  else if c =? 115 then '(p, args) ← va_ptr args; s ← pointed_text sp p; Some (s, fmt, args)
  else if c =? 112 then
    '(p, args) ← va_ptr args;
    s ← pointer_text fmt p (field_width sp) (precision sp) (flags sp);
    Some (s, skip_alnum fmt, args)
  else if c =? 110 then None
  else if c =? 37 then Some ([37], fmt, args)
  else if c =? 111 then integer_text sp 8 (flags sp) fmt args
  else if c =? 120 then integer_text sp 16 (Z.lor (flags sp) SMALL) fmt args
  else if c =? 88 then integer_text sp 16 (flags sp) fmt args
  else if (c =? 100) || (c =? 105) then integer_text sp 10 (Z.lor (flags sp) SIGN) fmt args
  else if c =? 117 then integer_text sp 10 (flags sp) fmt args
  else Some (37 :: (if c =? 0 then [] else [c]), fmt, args).

Fixpoint text_loop (fuel : nat) (fmt : list Z) (args : list arg) : option (list Z) :=
  match fuel with
  | O => None
  | S fuel =>
    match fmt with
    | [] => Some []
    | c :: fmt =>
      '(s, fmt, args) ← (if c =? 37 then '(sp, fmt, args) ← parse_spec fmt args; convert_text sp fmt args
                         else Some ([c], fmt, args));
      rest ← text_loop fuel fmt args; Some (s ++ rest)
    end
  end.

(** The text of the whole format. *)
Definition text (fmt : list Z) (args : list arg) : option (list Z) := text_loop (S (length fmt)) fmt args.

(** The fuel of the loop: a round consumes at least one character. *)
Lemma skip_atoi_length fmt : forall i w rest, skip_atoi i fmt = Some (w, rest) -> (length rest <= length fmt)%nat.
Proof.
  induction fmt as [|c fmt IH]; intros i w rest H; cbn [skip_atoi] in H; [simplify_eq; cbn; lia|].
  destruct (is_digit c); [|simplify_eq; cbn; lia]. destruct (_ <? _); [|discriminate]. apply IH in H. cbn. lia.
Qed.

Lemma parse_flags_length fmt : forall f, (length (parse_flags f fmt).2 <= length fmt)%nat.
Proof.
  induction fmt as [|c fmt IH]; intros f; cbn [parse_flags]; [cbn; lia|].
  repeat case_match; cbn [snd length]; try lia; (etransitivity; [apply IH|lia]).
Qed.

Lemma drop_length_le {A} n (l : list A) : (length (drop n l) <= length l)%nat.
Proof. rewrite length_drop. lia. Qed.

Lemma parse_spec_length fmt args sp fmt' args' : parse_spec fmt args = Some (sp, fmt', args') -> (length fmt' <= length fmt)%nat.
Proof.
  unfold parse_spec. pose proof (parse_flags_length fmt 0) as H1. destruct (parse_flags 0 fmt) as [f fmt1]. cbn [snd] in H1.
  destruct (parse_width f fmt1 args) as [ [ [ [w f2] fmt2] args2]|] eqn:E2; [|discriminate]. cbn [mbind option_bind].
  assert (length fmt2 <= length fmt1)%nat as H2.
  { unfold parse_width in E2. pose proof (drop_length_le 1 fmt1). destruct (is_digit _); [|destruct (_ =? 42)].
    - destruct (skip_atoi 0 fmt1) as [ [? ?]|] eqn:E; simplify_eq/=. exact (skip_atoi_length _ _ _ _ E).
    - destruct (va_int args) as [ [? ?]|]; cbn [mbind option_bind] in E2; [|discriminate]. repeat case_match; simplify_eq/=; lia.
    - simplify_eq. lia. }
  destruct (parse_precision fmt2 args2) as [ [ [p fmt3] args3]|] eqn:E3; [|discriminate]. cbn [mbind option_bind].
  assert (length fmt3 <= length fmt2)%nat as H3.
  { unfold parse_precision in E3. pose proof (drop_length_le 1 fmt2). destruct (peek fmt2 =? 46); [|simplify_eq; lia].
    destruct (is_digit _); [|destruct (_ =? 42)].
    - destruct (skip_atoi 0 (drop 1 fmt2)) as [ [? ?]|] eqn:E; simplify_eq/=. apply skip_atoi_length in E. lia.
    - destruct (va_int args2) as [ [? ?]|]; simplify_eq/=. pose proof (drop_length_le 1 (drop 1 fmt2)). lia.
    - simplify_eq/=. lia. }
  intros H. assert (length fmt' <= length fmt3)%nat; [|lia]. unfold parse_qualifier in H.
  pose proof (drop_length_le 1 fmt3). pose proof (drop_length_le 1 (drop 1 fmt3)). repeat case_match; simplify_eq/=; lia.
Qed.

Lemma skip_alnum_length fmt : (length (skip_alnum fmt) <= length fmt)%nat.
Proof. induction fmt as [|c fmt IH]; cbn; [lia|]. case_match; cbn; lia. Qed.

Lemma convert_text_length sp fmt args s fmt' args' : convert_text sp fmt args = Some (s, fmt', args') -> (length fmt' <= length fmt)%nat.
Proof.
  unfold convert_text, integer_text. pose proof (drop_length_le 1 fmt). pose proof (skip_alnum_length (drop 1 fmt)).
  assert (forall (x : option (list Z)) (a : list arg) (f : list Z), (length f <= length fmt)%nat ->
    (s0 ← x; Some (s0, f, a)) = Some (s, fmt', args') -> (length fmt' <= length fmt)%nat) as Hb by (intros [?|] ? ? ? ?; simplify_eq/=; assumption).
  repeat case_match; intros Hx; try discriminate;
    repeat match goal with
    | H : (_ ← ?x; _) = Some _ |- _ => destruct x as [ [? ?]|] eqn:?; cbn [mbind option_bind] in H; [|discriminate]
    end; try (eapply Hb; [|exact Hx]; lia); simplify_eq/=; lia.
Qed.

(** Any fuel above the length of the format gives the same text. *)
Lemma text_loop_fuel : forall n n' fmt args, (length fmt < n)%nat -> (length fmt < n')%nat ->
  text_loop n fmt args = text_loop n' fmt args.
Proof.
  induction n as [|n IH]; intros n' fmt args Hn Hn'; [lia|]. destruct n' as [|n']; [lia|]. cbn [text_loop].
  destruct fmt as [|c fmt]; [reflexivity|]. cbn [length] in *. destruct (c =? 37); cbn [mbind option_bind].
  - destruct (parse_spec fmt args) as [ [ [sp fmt1] args1]|] eqn:E1; [|reflexivity]. cbn [mbind option_bind].
    destruct (convert_text sp fmt1 args1) as [ [ [s1 fmt2] args2]|] eqn:E2; [|reflexivity]. cbn [mbind option_bind].
    apply parse_spec_length in E1. apply convert_text_length in E2. rewrite (IH n' fmt2 args2) by lia. reflexivity.
  - rewrite (IH n' fmt args) by lia. reflexivity.
Qed.

(** The text of ordinary characters, and of one conversion. *)
Lemma text_nil args : text [] args = Some [].
Proof. reflexivity. Qed.

Lemma text_char c fmt args : c <> 37 -> text (c :: fmt) args = rest ← text fmt args; Some (c :: rest).
Proof. intros Hc. unfold text. cbn [length text_loop]. replace (c =? 37) with false by lia. reflexivity. Qed.

Lemma text_convert fmt args sp fmt1 args1 s fmt2 args2 : parse_spec fmt args = Some (sp, fmt1, args1) ->
  convert_text sp fmt1 args1 = Some (s, fmt2, args2) ->
  text (37 :: fmt) args = rest ← text fmt2 args2; Some (s ++ rest).
Proof.
  intros E1 E2. unfold text. cbn [length]. pose proof (parse_spec_length _ _ _ _ _ E1). pose proof (convert_text_length _ _ _ _ _ _ E2).
  rewrite <- (text_loop_fuel (S (length fmt)) (S (length fmt2)) fmt2 args2) by lia.
  generalize (S (length fmt)) as n. intros n. cbn [text_loop Z.eqb Pos.eqb]. rewrite E1. cbn [mbind option_bind]. rewrite E2. reflexivity.
Qed.

(** ** The writer writes the text *)

Context (efi_dp_str : mem -> Z -> option (list Z)).
(** The text of a UUID depends on its sixteen bytes. *)
Context (uuid_local : forall m1 m2 p f, (forall a, p <= a < p + 16 -> ld m1 a = ld m2 a) ->
  uuid_bin_to_str m1 p f = uuid_bin_to_str m2 p f).

Lemma guard_true {A} b (f : option A) x : (_ ← guard b; f) = Some x -> b = true /\ f = Some x.
Proof. destruct b; cbn; [auto|discriminate]. Qed.

Lemma guard_some {A} b (y x : A) : (_ ← guard b; Some y) = Some x -> b = true /\ x = y.
Proof. destruct b; cbn; [intros H; apply (inj Some) in H; auto|discriminate]. Qed.

Lemma string_local_writes o s w prec f : string_local hi o s w prec f = addchs hi o (string_text s w prec f).
Proof. apply fill_writes. Qed.

Lemma special_flag f : has (Z.land f (Z.lnot SPECIAL)) LEFT = has f LEFT /\
  has (Z.lor f SPECIAL) LEFT = has f LEFT /\ has (Z.lor f SPECIAL) SPECIAL = true.
Proof.
  destruct (has_flag f) as (_ & _ & _ & _ & -> & _ & _ & _).
  destruct (has_flag (Z.land f (Z.lnot SPECIAL))) as (_ & _ & _ & _ & -> & _ & _ & _).
  destruct (has_flag (Z.lor f SPECIAL)) as (_ & _ & _ & _ & -> & _ & -> & _).
  rewrite Z.land_spec, !Z.lor_spec, Z.lnot_spec by lia. change (Z.testbit SPECIAL 4) with false. change (Z.testbit SPECIAL 6) with true.
  cbn [negb]. rewrite andb_true_r, orb_false_r, orb_true_r. auto.
Qed.

(** The raw letters only set SPECIAL, which the padding does not look at. *)
Lemma special_text s w prec f (raw : bool) :
  string_text s w prec (Z.land (if raw then Z.lor f SPECIAL else f) (Z.lnot SPECIAL)) = string_text s w prec f.
Proof.
  unfold string_text. rewrite (proj1 (special_flag _)). destruct raw; [|reflexivity].
  rewrite (proj1 (proj2 (special_flag f))). reflexivity.
Qed.

Lemma special_raw f (raw : bool) : has (if raw then Z.lor f SPECIAL else f) SPECIAL = has f SPECIAL || raw.
Proof. destruct raw; [rewrite (proj2 (proj2 (special_flag f))), orb_true_r; reflexivity|rewrite orb_false_r; reflexivity]. Qed.

Lemma pointer_number_writes o num w prec f : 0 <= num < 2 ^ 64 ->
  pointer_number hi o num w prec f = Some (addchs hi o (pointer_number_text num w prec f)).
Proof.
  intros Hn. unfold pointer_number, pointer_number_text. destruct (w =? -1); apply number_writes; unfold is_base; auto.
Qed.

Lemma pointer_writes o fmt ptr w prec f s : within lo hi m o -> 0 <= ptr < 2 ^ 32 ->
  pointer_text fmt ptr w prec f = Some s ->
  pointer efi_dp_str uuid_bin_to_str hi o fmt ptr w prec f = Some (addchs hi o s).
Proof.
  intros Ho Hptr. unfold pointer_text, pointer. pose proof (proj2 Ho) as Hag.
  assert (forall n, apart lo hi ptr n = true -> forall a, ptr <= a < ptr + n -> ld o.1 a = ld m a) as Hld
    by (intros n Hn a Ha; exact (apart_ld lo hi m o.1 ptr n a Hn Hag Ha)).
  destruct (peek fmt =? 68).
  { unfold device_path_string. destruct (Z.eqb_spec ptr 0) as [->|]; [|discriminate]. intros [= <-]. apply string16_null. }
  destruct (peek fmt =? 97).
  { intros [Hp ->]%guard_some. assert (ld32 o.1 ptr = ld32 m ptr) as ->.
    { unfold ld32. rewrite !(Hld 4 Hp) by lia. reflexivity. }
    apply pointer_number_writes. pose proof (ld32_range m ptr). lia. }
  destruct ((peek fmt =? 109) || (peek fmt =? 77)).
  { intros [Hp ->]%guard_some. unfold mac_address_string. rewrite string_local_writes, special_text, special_raw.
    rewrite (mac_chars_ext m o.1) by exact (Hld 6 Hp). reflexivity. }
  destruct ((peek fmt =? 105) || (peek fmt =? 73)).
  { destruct (peek (drop 1 fmt) =? 54).
    { intros [Hp ->]%guard_some. unfold ip6_addr_string. rewrite string_local_writes, special_text, special_raw.
      rewrite (ip6_chars_ext m o.1) by exact (Hld 16 Hp). reflexivity. }
    destruct (peek (drop 1 fmt) =? 52).
    { intros [Hp ->]%guard_some. unfold ip4_addr_string. rewrite string_local_writes, special_text.
      rewrite (ip4_chars_ext m o.1) by exact (Hld 4 Hp). reflexivity. }
    intros [= <-]. apply pointer_number_writes. lia. }
  destruct (peek fmt =? 85).
  { unfold uuid_string. destruct (Z.eqb_spec ptr 0) as [->|Hnz]; cbn [negb].
    { intros [= <-]. cbn [mbind option_bind]. rewrite string_local_writes. reflexivity. }
    intros [Hp H]%guard_true. rewrite (uuid_local o.1 m ptr _ (Hld 16 Hp)).
    destruct (uuid_bin_to_str m ptr _) as [u|]; [|discriminate]. injection H as <-. cbn [mbind option_bind].
    rewrite string_local_writes. reflexivity. }
  intros [= <-]. apply pointer_number_writes. lia.
Qed.

Lemma va_number_range q f args num args' : va_number q f args = Some (num, args') -> 0 <= num < 2 ^ 64.
Proof.
  unfold va_number, va_quad, va_int. intros H. assert (forall x, 0 <= u64 x < 2 ^ 64) as H64 by (intros x; apply (wrap_range 64); lia).
  destruct args as [|[v|v|v] args]; repeat case_match; simplify_eq/=; try apply H64;
    first [pose proof (u32_range v); lia | pose proof (u16_range (u32 v)); lia].
Qed.

Lemma va_ptr_range args p args' : va_ptr args = Some (p, args') -> 0 <= p < 2 ^ 32.
Proof. unfold va_ptr. intros H. destruct args as [|[v|v|v] args]; simplify_eq/=. apply u32_range. Qed.

Lemma integer_writes o sp base f fmt args s fmt' args' : is_base base ->
  integer_text sp base f fmt args = Some (s, fmt', args') -> convert_number hi o sp base f fmt args = Some (Next (addchs hi o s) fmt' args').
Proof.
  intros Hb. unfold integer_text, convert_number. destruct (va_number _ f args) as [ [num args1]|] eqn:E; [|discriminate].
  cbn [mbind option_bind]. intros [= <- <- <-]. rewrite number_writes; [reflexivity|exact Hb|]. exact (va_number_range _ _ _ _ _ E).
Qed.

Lemma pointed_writes o sp p s : within lo hi m o -> pointed_text sp p = Some s ->
  (if qualifier sp =? 108 then string16 hi o p (field_width sp) (precision sp) (flags sp)
   else Some (string hi o p (field_width sp) (precision sp) (flags sp))) = Some (addchs hi o s).
Proof.
  intros Ho. unfold pointed_text. destruct (Z.eqb_spec p 0) as [->|Hp].
  { intros [= <-]. destruct (qualifier sp =? 108); [apply string16_null|]. unfold string. cbn [Z.eqb]. rewrite string_local_writes. reflexivity. }
  destruct (qualifier sp =? 108).
  - destruct (wide_at k m p _) as [us|] eqn:E; [|discriminate]. intros [Ha H]%guard_true.
    destruct (narrow us) as [u|] eqn:En; [|discriminate]. injection H as <-. exact (string16_writes lo hi m o p _ _ _ k us u Ho Hp E En Ha).
  - destruct (text_at k m p _) as [u|] eqn:E; [|discriminate]. intros [Ha ->]%guard_some.
    f_equal. exact (string_writes lo hi m o p _ _ _ k u Ho Hp E Ha).
Qed.

(** A character in its field. *)
Lemma char_writes o c w f :
  (let '(o, w) := if negb (has f LEFT) then (pad hi o (Z.to_nat (w - 1)) 32, Z.min (w - 1) 0) else (o, w) in
   pad hi (ADDCH hi o c) (Z.to_nat (w - 1)) 32) = addchs hi o (justify (has f LEFT) w [c]).
Proof.
  unfold justify. cbn [length]. change (Z.of_nat 1) with 1. destruct (has f LEFT); cbn [negb].
  - rewrite addch_addchs, pad_addchs, <- addchs_app. reflexivity.
  - replace (Z.to_nat (Z.min (w - 1) 0 - 1)) with O by lia. rewrite addch_addchs, !pad_addchs, <- !addchs_app. reflexivity.
Qed.

(** The highest position of output that is no error pointer. *)
Definition POS_MAX : Z := 2 ^ 32 - 4096.

Lemma is_err_pos p : p <= POS_MAX -> IS_ERR p = false.
Proof. unfold IS_ERR, POS_MAX. change (u32 (- MAX_ERRNO)) with 4294963201. lia. Qed.

Lemma convert_writes start o sp fmt args s fmt' args' : within lo hi m o -> o.2 + Z.of_nat (length s) <= POS_MAX ->
  convert_text sp fmt args = Some (s, fmt', args') ->
  convert efi_dp_str uuid_bin_to_str start hi o sp fmt args = Some (Next (addchs hi o s) fmt' args').
Proof.
  intros Ho Hpos. unfold convert_text, convert. cbv zeta.
  destruct (peek fmt =? 99).
  { destruct (va_int args) as [ [v a]|]; [|discriminate]. cbn [mbind option_bind]. intros H. apply (inj Some) in H. simplify_eq.
    rewrite <- (char_writes o (u8 v) (field_width sp) (flags sp)). destruct (negb _); reflexivity. }
  destruct (peek fmt =? 115).
  { destruct (va_ptr args) as [ [p a]|]; [|discriminate]. cbn [mbind option_bind].
    destruct (pointed_text sp p) as [u|] eqn:E; [|discriminate]. cbn [mbind option_bind]. intros [= <- <- <-].
    rewrite (pointed_writes o sp p u Ho E). reflexivity. }
  destruct (peek fmt =? 112).
  { destruct (va_ptr args) as [ [p a]|] eqn:Ep; [|discriminate]. cbn [mbind option_bind].
    destruct (pointer_text _ p _ _ _) as [u|] eqn:E; [|discriminate]. cbn [mbind option_bind]. intros [= -> <- <-].
    rewrite (pointer_writes o _ p _ _ _ s Ho (va_ptr_range _ _ _ Ep) E). cbn [mbind option_bind].
    rewrite is_err_pos by (rewrite addchs_pos; exact Hpos). reflexivity. }
  destruct (peek fmt =? 110); [discriminate|]. destruct (peek fmt =? 37); [intros [= <- <- <-]; reflexivity|].
  assert (is_base 8 /\ is_base 10 /\ is_base 16) as (B8 & B10 & B16) by (unfold is_base; auto).
  destruct (peek fmt =? 111); [apply integer_writes, B8|]. destruct (peek fmt =? 120); [apply integer_writes, B16|].
  destruct (peek fmt =? 88); [apply integer_writes, B16|].
  destruct ((peek fmt =? 100) || (peek fmt =? 105)); [apply integer_writes, B10|].
  destruct (peek fmt =? 117); [apply integer_writes, B10|].
  intros [= <- <- <-]. destruct (peek fmt =? 0); reflexivity.
Qed.

Lemma loop_writes start n : forall o fmt args s, within lo hi m o -> o.2 + Z.of_nat (length s) <= POS_MAX ->
  text_loop n fmt args = Some s ->
  vsn_loop efi_dp_str uuid_bin_to_str n start hi o fmt args = Some (inl (addchs hi o s)).
Proof.
  induction n as [|n IH]; intros o fmt args s Ho Hpos H; [discriminate|]. cbn [text_loop vsn_loop] in *.
  destruct fmt as [|c fmt]; [injection H as <-; reflexivity|].
  assert (forall s1 fmt1 args1, (rest ← text_loop n fmt1 args1; Some (s1 ++ rest)) = Some s ->
    o.2 + Z.of_nat (length s1) <= POS_MAX /\
    vsn_loop efi_dp_str uuid_bin_to_str n start hi (addchs hi o s1) fmt1 args1 = Some (inl (addchs hi o s))) as Hrest.
  { intros s1 fmt1 args1 E. destruct (text_loop n fmt1 args1) as [rest|] eqn:Et; [|discriminate]. injection E as <-.
    rewrite length_app in Hpos. split; [lia|]. rewrite addchs_app. apply IH; [apply within_addchs, Ho| |exact Et].
    rewrite addchs_pos. lia. }
  destruct (c =? 37); cbn [negb].
  - destruct (parse_spec fmt args) as [ [ [sp fmt1] args1]|]; [|discriminate]. cbn [mbind option_bind] in *.
    destruct (convert_text sp fmt1 args1) as [ [ [s1 fmt2] args2]|] eqn:E; [|discriminate]. cbn [mbind option_bind] in H.
    destruct (Hrest _ _ _ H) as [Hp1 Hl]. rewrite (convert_writes start o sp fmt1 args1 s1 fmt2 args2 Ho Hp1 E). exact Hl.
  - cbn [mbind option_bind] in *. exact (proj2 (Hrest _ _ _ H)).
Qed.

(** [vsnprintf] writes the text, cut to the size with its NUL, and returns the length
    of the whole text.  A buffer that would wrap around ends at the last address. *)
Lemma vsnprintf_text size fmt args s : 0 <= lo < 2 ^ 32 -> 0 <= size < 2 ^ 32 -> hi = Z.min (lo + size) (2 ^ 32 - 1) ->
  lo + Z.of_nat (length s) <= POS_MAX -> text fmt args = Some s ->
  exists m', vsnprintf efi_dp_str uuid_bin_to_str m lo size fmt args = Some (Z.of_nat (length s), m') /\
    mem_eq m' (if hi =? lo then m else wr m lo (take (Z.to_nat (hi - lo - 1)) s ++ [0])).
Proof.
  intros Hlo Hsz Hh Hpos Ht. unfold vsnprintf, vsnprintf_internal.
  assert ((if u32 (lo + size) <? lo then (2 ^ 32 - 1, 2 ^ 32 - 1 - lo) else (u32 (lo + size), size)) = (hi, hi - lo)) as ->.
  { destruct (Z.ltb_spec (lo + size) (2 ^ 32)).
    - rewrite (u32_small (lo + size)) by lia. replace (lo + size <? lo) with false by lia. f_equal; lia.
    - assert (u32 (lo + size) = lo + size - 2 ^ 32) as E by (unfold u32, wrap; lia). rewrite E.
      replace (lo + size - 2 ^ 32 <? lo) with true by lia. f_equal; lia. }
  rewrite (loop_writes lo (S (length fmt)) (m, lo) fmt args s); [|split; [cbn; lia|intros a _; reflexivity]|exact Hpos|exact Ht].
  cbn [mbind option_bind]. destruct (Z.ltb_spec 0 (hi - lo)).
  - replace (hi =? lo) with false by lia. destruct (terminate_writes m lo (hi - lo) s) as [E1 E2]; [lia|].
    replace (lo + (hi - lo)) with hi in E1, E2 by lia. eexists. split; [|exact E2]. rewrite E1. reflexivity.
  - replace (hi =? lo) with true by lia. rewrite addchs_eta. cbn [fst snd]. eexists. split; [do 2 f_equal; lia|].
    replace (Z.to_nat (hi - lo)) with O by lia. rewrite take_0. reflexivity.
Qed.

End Text.

End Format.
