(* ===== verification/Uuid.v ===== *)
(** * Uuid: identifiers as text

    U-Boot's lib/uuid.c without the table of partition names, which the board's
    configuration leaves out, and lib/rand.c.  [uuid_bin_to_str] prints with [sprintf], which may
    print a UUID with [uuid_bin_to_str]; its own format does not, so the inner
    [sprintf] is the one without UUIDs. *)

From stdpp Require Import base list option.
From Stdlib Require Import ZifyBool.
From S2P Require Import Prelude Cmem Ctype CString Strto Charset Vsprintf Format.
Import Ctype CString Vsprintf.

#[local] Ltac Zify.zify_post_hook ::= Z.to_euclidean_division_equations.

Module Uuid.

Definition UUID_STR_LEN : Z := 36.
Definition EINVAL : Z := 22.

(** The loop of [uuid_str_valid]: the index and [valid] at its end. *)
Fixpoint valid_loop (fuel : nat) (m : mem) (uuid i : Z) (valid : bool) : option (Z * bool) :=
  match fuel with
  | O => None
  | S fuel =>
    let c := ld m (uuid + i) in
    if negb (c =? 0) && valid then
      valid_loop fuel m uuid (i + 1)
        (if (i =? 8) || (i =? 13) || (i =? 18) || (i =? 23) then c =? 45 else isxdigit c)
    else Some (i, valid)
  end.

Definition uuid_str_valid (fuel : nat) (m : mem) (uuid : Z) : option bool :=
  if uuid =? 0 then Some false else
  '(i, valid) ← valid_loop fuel m uuid 0 true;
  Some (negb (negb (i =? UUID_STR_LEN) || negb valid)).

(** The bytes of [cpu_to_be16(v)] and the others in memory. *)
Definition be16 (v : Z) : list Z := [u8 (Z.shiftr v 8); u8 v].
Definition be32 (v : Z) : list Z := be16 (Z.shiftr v 16) ++ be16 v.
Definition be64 (v : Z) : list Z := be32 (Z.shiftr v 32) ++ be32 v.
Definition le16 (v : Z) : list Z := [u8 v; u8 (Z.shiftr v 8)].
Definition le32 (v : Z) : list Z := le16 v ++ le16 (Z.shiftr v 16).

(** [uuid_str_to_bin]: the return code and the memory. *)
Definition uuid_str_to_bin (fuel : nat) (m : mem) (uuid_str uuid_bin str_format : Z) : option (Z * mem) :=
  valid ← uuid_str_valid fuel m uuid_str;
  if negb valid then Some (- EINVAL, m) else
  let std := str_format =? UUID_STR_FORMAT_STD in
  let cpu_to_32 := if std then be32 else le32 in
  let cpu_to_16 := if std then be16 else le16 in
  '(v, _) ← Strto.simple_strtoul m fuel uuid_str 16;
  let m := wr m uuid_bin (cpu_to_32 v) in
  '(v, _) ← Strto.simple_strtoul m fuel (uuid_str + 9) 16;
  let m := wr m (uuid_bin + 4) (cpu_to_16 v) in
  '(v, _) ← Strto.simple_strtoul m fuel (uuid_str + 14) 16;
  let m := wr m (uuid_bin + 6) (cpu_to_16 v) in
  '(v, _) ← Strto.simple_strtoul m fuel (uuid_str + 19) 16;
  let m := wr m (uuid_bin + 8) (be16 v) in
  '(v, _) ← Strto.simple_strtoull m fuel (uuid_str + 24) 16;
  let m := wr m (uuid_bin + 10) (drop 2 (be64 v)) in
  Some (0, m).

Definition uuid_char_order : list Z := [0; 1; 2; 3; 4; 5; 6; 7; 8; 9; 10; 11; 12; 13; 14; 15].
Definition guid_char_order : list Z := [3; 2; 1; 0; 5; 4; 7; 6; 8; 9; 10; 11; 12; 13; 14; 15].

(** "%02x" *)
Definition fmt_02x : list Z := [37; 48; 50; 120].

(** The [sprintf] that prints no UUIDs and no device paths. *)
Definition sprintf_plain (m : mem) (buf : Z) (fmt : list Z) (args : list arg) : option (Z * mem) :=
  vsprintf (fun _ _ => None) (fun _ _ _ => None) m buf fmt args.

(** The loop of [uuid_bin_to_str]; [uuid_bin m k] is the byte [k] of the UUID. *)
Fixpoint str_loop (uuid_bin : mem -> Z -> Z) (char_order : list Z) (i : Z) (m : mem) (uuid_str : Z) : option mem :=
  match char_order with
  | [] => Some m
  | k :: char_order =>
    '(_, m) ← sprintf_plain m uuid_str fmt_02x [Int (uuid_bin m k)];
    let uuid_str := uuid_str + 2 in
    if (i =? 3) || (i =? 5) || (i =? 7) || (i =? 9)
    then str_loop uuid_bin char_order (i + 1) (st m uuid_str 45) (uuid_str + 1)
    else str_loop uuid_bin char_order (i + 1) m uuid_str
  end.

Definition char_order (str_format : Z) : list Z :=
  if str_format =? UUID_STR_FORMAT_STD then uuid_char_order else guid_char_order.

Definition uuid_bin_to_str (m : mem) (uuid_bin uuid_str str_format : Z) : option mem :=
  str_loop (fun m k => ld m (uuid_bin + k)) (char_order str_format) 0 m uuid_str.

(** [uuid_bin_to_str] into an array of its own, for the conversion "%pU". *)
Definition uuid_local_str (m : mem) (uuid_bin str_format : Z) : option (list Z) :=
  m' ← str_loop (fun _ k => ld m (uuid_bin + k)) (char_order str_format) 0 (fun _ => 0) 0;
  Some (bytes m' 0 36).

(** ** Random identifiers *)

Definition rand_r (seed : Z) : Z :=
  let seed := Z.lxor seed (u32 (Z.shiftl seed 13)) in
  let seed := Z.lxor seed (Z.shiftr seed 17) in
  Z.lxor seed (u32 (Z.shiftl seed 5)).

(** [rand]: the number, which is the new value of [y]. *)
Definition rand (y : Z) : Z * Z := let y := rand_r y in (y, y).
Definition srand (seed : Z) : Z := u32 seed.

Definition UUID_VERSION_MASK : Z := 0xf000.
Definition UUID_VERSION_SHIFT : Z := 12.
Definition UUID_VERSION : Z := 0x4.
Definition UUID_VARIANT_MASK : Z := 0xc0.
Definition UUID_VARIANT_SHIFT : Z := 7.
Definition UUID_VARIANT : Z := 0x1.

(** [gen_rand_uuid]: the sixteen bytes and the new [y].  The version is in the
    bytes 6 and 7, the variant in the byte 8. *)
Definition gen_rand_uuid (y : Z) : list Z * Z :=
  let '(r0, y) := rand y in
  let '(r1, y) := rand y in
  let '(r2, y) := rand y in
  let '(r3, y) := rand y in
  let uuid := be32 r0 ++ be32 r1 ++ be32 r2 ++ be32 r3 in
  let ver := nth 6 uuid 0 * 2 ^ 8 + nth 7 uuid 0 in
  let ver := Z.lor (Z.land ver (Z.lnot UUID_VERSION_MASK)) (Z.shiftl UUID_VERSION UUID_VERSION_SHIFT) in
  let var := Z.lor (Z.land (nth 8 uuid 0) (Z.lnot UUID_VARIANT_MASK)) (Z.shiftl UUID_VARIANT UUID_VARIANT_SHIFT) in
  (take 6 uuid ++ be16 ver ++ [u8 var] ++ drop 9 uuid, y).

(** [gen_rand_uuid_str]: the memory and the new [y]; the binary form is in an array
    of its own. *)
Definition gen_rand_uuid_str (m : mem) (y uuid_str str_format : Z) : option (mem * Z) :=
  let '(uuid_bin, y) := gen_rand_uuid y in
  m ← str_loop (fun _ k => nth (Z.to_nat k) uuid_bin 0) (char_order str_format) 0 m uuid_str;
  Some (m, y).

(** ** The text of an identifier *)

Definition hex (b : Z) : list Z := [Format.digit 32 (b / 16); Format.digit 32 (b mod 16)].

Definition dash_after (i : Z) : bool := (i =? 3) || (i =? 5) || (i =? 7) || (i =? 9).

Fixpoint uuid_text (h : Z -> Z) (order : list Z) (i : Z) : list Z :=
  match order with
  | [] => []
  | k :: order => hex (h k) ++ (if dash_after i then [45] else []) ++ uuid_text h order (i + 1)
  end.

Lemma text_02x b : 0 <= b < 256 -> Format.number_text b 16 2 (-1) (Z.lor ZEROPAD SMALL) = hex b.
Proof.
  intros Hb. assert (all_bytes (fun b => bool_decide (Format.number_text b 16 2 (-1) (Z.lor ZEROPAD SMALL) = hex b)) = true) as H
    by (vm_compute; reflexivity). exact (bool_decide_eq_true_1 _ (all_bytes_spec _ b H Hb)).
Qed.

Lemma hex_length b : length (hex b) = 2%nat.
Proof. reflexivity. Qed.

Lemma sprintf_02x m s b : 0 <= b < 256 -> 0 <= s -> s + 2 <= Format.POS_MAX ->
  exists m', sprintf_plain m s fmt_02x [Int b] = Some (2, m') /\ mem_eq m' (wr m s (hex b ++ [0])).
Proof.
  intros Hb Hs Hp. pose proof (eq_refl : Format.POS_MAX = 2 ^ 32 - 4096) as HP.
  destruct (Format.vsnprintf_text (fun _ _ _ => None) O s (Z.min (s + INT_MAX) (2 ^ 32 - 1)) m (fun _ _ => None)
    ltac:(reflexivity) INT_MAX fmt_02x [Int b] (hex b)) as (m' & E & Hm).
  - lia.
  - unfold INT_MAX. lia.
  - reflexivity.
  - rewrite hex_length. lia.
  - rewrite <- text_02x by exact Hb. unfold Format.text. cbn [length fmt_02x Format.text_loop Z.eqb Pos.eqb].
    change (parse_spec [48; 50; 120] [Int b]) with
      (Some ({| flags := ZEROPAD; field_width := 2; precision := -1; qualifier := -1 |}, [120], [Int b])).
    cbn [mbind option_bind]. unfold Format.convert_text. cbn [peek drop Z.eqb Pos.eqb orb]. unfold Format.integer_text, va_number. cbn [qualifier Z.eqb va_int mbind option_bind].
    change (has (Z.lor (flags _) SMALL) SIGN) with false. cbn [orb].
    rewrite u32_small by lia. cbn [flags field_width precision]. rewrite app_nil_r. reflexivity.
  - exists m'. split; [exact E|]. rewrite Hm. replace (_ =? s) with false by (unfold INT_MAX; lia).
    rewrite take_ge by (rewrite hex_length; unfold INT_MAX; lia). reflexivity.
Qed.

(** A NUL that the next write covers. *)
Lemma wr_over m s l l2 : l2 <> [] -> mem_eq (wr (wr m s (l ++ [0])) (s + Z.of_nat (length l)) l2) (wr m s (l ++ l2)).
Proof.
  intros Hl. destruct l2 as [|c l2]; [contradiction|]. rewrite !wr_app. cbn [wr].
  apply wr_proper; [apply st_st|reflexivity..].
Qed.

Definition apart_reads (uuid_bin : mem -> Z -> Z) (h : Z -> Z) (m : mem) (lo : Z) : Prop :=
  forall m' k, 0 <= k < 16 -> (forall a, a < lo \/ lo + 37 <= a -> ld m' a = ld m a) -> uuid_bin m' k = h k.

(** The loop writes the text from byte [i] on; the last byte is followed by no dash. *)
Lemma str_loop_writes uuid_bin h m0 lo order : (forall k, 0 <= h k < 256) -> 0 <= lo -> lo + 37 <= Format.POS_MAX ->
  apart_reads uuid_bin h m0 lo -> forall k i m s, Forall (fun k => 0 <= k < 16) (k :: order) -> i + Z.of_nat (length order) = 15 -> 0 <= i -> lo <= s ->
  s + Z.of_nat (length (uuid_text h (k :: order) i)) + 1 <= lo + 37 -> (forall a, a < lo \/ lo + 37 <= a -> ld m a = ld m0 a) ->
  exists m', str_loop uuid_bin (k :: order) i m s = Some m' /\ mem_eq m' (wr m s (uuid_text h (k :: order) i ++ [0])).
Proof.
  intros Hh Hlo Hhi Hrd. induction order as [|k2 order IH]; intros k i m s Hk Hi Hi0 Hs Hlen Hm; cbn [str_loop];
    rewrite (Hrd m k (Forall_inv Hk) Hm).
  - destruct (sprintf_02x m s (h k) (Hh k)) as (m' & -> & E); [lia| |].
    { cbn [uuid_text] in Hlen. rewrite !length_app, hex_length in Hlen. lia. }
    cbn [mbind option_bind]. assert (i = 15) as -> by (cbn in Hi; lia). cbn [Z.eqb Pos.eqb orb]. exists m'. split; [reflexivity|].
    etransitivity; [exact E|]. reflexivity.
  - set (rest := uuid_text h (k2 :: order) (i + 1)) in *.
    assert (length (uuid_text h (k :: k2 :: order) i) = (2 + (if dash_after i then 1 else 0) + length rest)%nat) as Hl.
    { subst rest. cbn [uuid_text]. rewrite !length_app, hex_length. destruct (dash_after i); cbn [length]; lia. }
    rewrite Hl in Hlen. cbn [length] in Hi.
    destruct (sprintf_02x m s (h k) (Hh k)) as (m' & -> & E); [lia|lia|]. cbn [mbind option_bind].
    change ((i =? 3) || (i =? 5) || (i =? 7) || (i =? 9)) with (dash_after i).
    assert (uuid_text h (k :: k2 :: order) i ++ [0] = hex (h k) ++ (if dash_after i then [45] else []) ++ rest ++ [0]) as ->.
    { subst rest. cbn [uuid_text]. rewrite <- !app_assoc. reflexivity. }
    set (m1 := if dash_after i then st m' (s + 2) 45 else m').
    assert (mem_eq m1 (wr m s (hex (h k) ++ if dash_after i then [45] else [0]))) as E1.
    { subst m1. destruct (dash_after i); [|exact E].
      etransitivity; [apply st_proper; [exact E|reflexivity..]|]. exact (wr_over m s (hex (h k)) [45] ltac:(discriminate)). }
    assert (forall s', s' = s + 2 + Z.of_nat (length (if dash_after i then [45] else [])) ->
      exists mm, str_loop uuid_bin (k2 :: order) (i + 1) m1 s' = Some mm /\
        mem_eq mm (wr m s (hex (h k) ++ (if dash_after i then [45] else []) ++ rest ++ [0]))) as Hgo.
    { intros s' Hs'. destruct (IH k2 (i + 1) m1 s' (Forall_inv_tail Hk)) as (mm & Emm & Hmm); try lia.
      { fold rest. destruct (dash_after i); cbn [length] in *; lia. }
      { intros a Ha. rewrite (E1 a), ld_wr, length_app, hex_length, <- Hm by exact Ha.
        replace ((s <=? a) && _) with false; [reflexivity|]. destruct (dash_after i); cbn [length] in *; lia. }
      exists mm. split; [exact Emm|]. etransitivity; [exact Hmm|]. etransitivity; [apply wr_proper; [exact E1|reflexivity..]|].
      fold rest. subst s'. destruct (dash_after i).
      - rewrite (app_assoc (hex (h k))), (wr_app m s (hex (h k) ++ [45])). replace (s + 2 + _) with (s + Z.of_nat (length (hex (h k) ++ [45]))) by (cbn; lia). reflexivity.
      - cbn [app length]. replace (s + 2 + Z.of_nat 0) with (s + Z.of_nat (length (hex (h k)))) by (cbn; lia).
        apply wr_over. destruct rest; discriminate. }
    subst m1. destruct (dash_after i); apply Hgo; cbn [length]; lia.
Qed.

Lemma char_order_range f : Forall (fun k => 0 <= k < 16) (char_order f) /\ length (char_order f) = 16%nat.
Proof. unfold char_order. destruct (f =? UUID_STR_FORMAT_STD); (split; [repeat constructor; lia|reflexivity]). Qed.

Lemma uuid_text_length h f : length (uuid_text h (char_order f) 0) = 36%nat.
Proof. unfold char_order. destruct (f =? UUID_STR_FORMAT_STD); reflexivity. Qed.

Lemma str_loop_text uuid_bin h f m s : (forall k, 0 <= h k < 256) -> 0 <= s -> s + 37 <= Format.POS_MAX ->
  apart_reads uuid_bin h m s ->
  exists m', str_loop uuid_bin (char_order f) 0 m s = Some m' /\ mem_eq m' (wr m s (uuid_text h (char_order f) 0 ++ [0])).
Proof.
  intros Hh Hs Hp Hrd. destruct (char_order_range f) as [Hk Hl]. pose proof (uuid_text_length h f) as Ht.
  destruct (char_order f) as [|k order]; [discriminate|]. cbn [length] in Hl.
  apply (str_loop_writes uuid_bin h m s order Hh Hs Hp Hrd k 0 m s Hk); try lia.
Qed.

Lemma uuid_text_ext h1 h2 order : Forall (fun k => h1 k = h2 k) order -> forall i, uuid_text h1 order i = uuid_text h2 order i.
Proof. induction 1 as [|k order E _ IH]; intros i; cbn [uuid_text]; [reflexivity|]. rewrite E, IH. reflexivity. Qed.

(** The text of the sixteen bytes at [p]. *)
Definition text_of (m : mem) (p f : Z) : list Z := uuid_text (fun k => ld m (p + k)) (char_order f) 0.

Lemma text_of_ext m1 m2 p f : (forall a, p <= a < p + 16 -> ld m1 a = ld m2 a) -> text_of m1 p f = text_of m2 p f.
Proof.
  intros H. apply uuid_text_ext. eapply Forall_impl; [|exact (proj1 (char_order_range f))]. intros k Hk. apply H. cbn beta in Hk. lia.
Qed.

Lemma digit_byte d : 0 <= d < 16 -> 48 <= Format.digit 32 d < 128.
Proof. unfold Format.digit. destruct (Z.ltb_spec d 10); lia. Qed.

Lemma uuid_text_bytes h order : (forall k, 0 <= h k < 256) -> forall i, Forall (fun c => 45 <= c < 128) (uuid_text h order i).
Proof.
  intros Hh. induction order as [|k order IH]; intros i; cbn [uuid_text]; [constructor|].
  pose proof (Hh k). pose proof (digit_byte (h k / 16) ltac:(lia)). pose proof (digit_byte (h k mod 16) ltac:(lia)).
  apply Forall_app_2; [repeat constructor; lia|]. apply Forall_app_2; [|apply IH]. destruct (dash_after i); repeat constructor; lia.
Qed.

Lemma text_of_range m p f : Forall (fun c => 45 <= c < 128) (text_of m p f).
Proof. apply uuid_text_bytes. intros k. apply ld_range. Qed.

(** "%pU" prints that text. *)
Lemma uuid_local_text m p f : uuid_local_str m p f = Some (text_of m p f).
Proof.
  unfold uuid_local_str. destruct (str_loop_text (fun _ k => ld m (p + k)) (fun k => ld m (p + k)) f (fun _ => 0) 0) as (m' & -> & E);
    [intros; apply ld_range|lia|unfold Format.POS_MAX; lia|intros ? ? _ _; reflexivity|].
  cbn [mbind option_bind]. f_equal. fold (text_of m p f) in E. pose proof (uuid_text_length (fun k => ld m (p + k)) f) as Hl.
  fold (text_of m p f) in Hl. rewrite (bytes_ext m' (wr (fun _ => 0) 0 (text_of m p f ++ [0]))) by (intros a _; apply E).
  pose proof (bytes_wr (fun _ => 0) 0 (text_of m p f ++ [0])) as H. rewrite length_app, Hl, bytes_app in H.
  apply app_inj_1 in H; [exact (proj1 H)|rewrite length_bytes; symmetry; exact Hl|].
  apply Forall_app_2; [|repeat constructor; lia]. eapply Forall_impl; [|apply text_of_range]. cbn beta. lia.
Qed.

(** What Format.v asks of the UUIDs. *)
Lemma uuid_local m1 m2 p f : (forall a, p <= a < p + 16 -> ld m1 a = ld m2 a) -> uuid_local_str m1 p f = uuid_local_str m2 p f.
Proof. intros H. rewrite !uuid_local_text. f_equal. apply text_of_ext, H. Qed.

(** [uuid_bin_to_str] writes the text of the UUID. *)
Lemma uuid_bin_to_str_text m bin s f : 0 <= s -> s + 37 <= Format.POS_MAX -> bin + 16 <= s \/ s + 37 <= bin ->
  exists m', uuid_bin_to_str m bin s f = Some m' /\ mem_eq m' (wr m s (text_of m bin f ++ [0])).
Proof.
  intros Hs Hp Hd. apply (str_loop_text (fun m k => ld m (bin + k)) (fun k => ld m (bin + k)) f m s); auto.
  - intros k. apply ld_range.
  - intros m' k Hk Hm. apply Hm. lia.
Qed.

(** ** Reading the text *)

(** The characters from position [i] on are hexadecimal digits and dashes in their places. *)
Fixpoint shape_ok (i : nat) (s : list Z) : bool :=
  match s with
  | [] => true
  | c :: s => (if ((i =? 8) || (i =? 13) || (i =? 18) || (i =? 23))%nat then c =? 45 else isxdigit c) && shape_ok (S i) s
  end.

Lemma valid_loop_spec m p : forall s fuel j valid, cstr m (p + Z.of_nat j) s -> (length s < fuel)%nat ->
  exists i' v', valid_loop fuel m p (Z.of_nat j) valid = Some (i', v') /\
    (i' =? 36) && v' = valid && shape_ok j s && (j + length s =? 36)%nat.
Proof.
  induction s as [|c s IH]; intros fuel j valid H Hf; (destruct fuel as [|fuel]; [cbn in Hf; lia|]); cbn [valid_loop].
  - apply cstr_nil in H. rewrite H. cbn [Z.eqb negb andb shape_ok length]. eexists _, _. split; [reflexivity|].
    destruct valid; [cbn [andb]; lia|apply andb_false_r].
  - apply cstr_cons in H as (Hc & E & H). rewrite E. replace (c =? 0) with false by lia. cbn [negb andb length] in *.
    destruct valid; [|eexists _, _; split; [reflexivity|apply andb_false_r]].
    replace (Z.of_nat j + 1) with (Z.of_nat (S j)) by lia.
    replace ((Z.of_nat j =? 8) || (Z.of_nat j =? 13) || (Z.of_nat j =? 18) || (Z.of_nat j =? 23)) with
      ((j =? 8) || (j =? 13) || (j =? 18) || (j =? 23))%nat by lia.
    destruct (IH fuel (S j) (if ((j =? 8) || (j =? 13) || (j =? 18) || (j =? 23))%nat then c =? 45 else isxdigit c)) as (i' & v' & Ev & Hv);
      [|lia|].
    { replace (p + Z.of_nat (S j)) with (p + Z.of_nat j + 1) by lia. exact H. }
    exists i', v'. split; [exact Ev|]. rewrite Hv. cbn [shape_ok andb]. rewrite Nat.add_succ_r. reflexivity.
Qed.

Lemma uuid_str_valid_spec m p s fuel : cstr m p s -> (length s < fuel)%nat -> p <> 0 ->
  uuid_str_valid fuel m p = Some (shape_ok 0 s && (length s =? 36)%nat).
Proof.
  intros H Hf Hp. unfold uuid_str_valid. replace (p =? 0) with false by lia.
  destruct (valid_loop_spec m p s fuel O true) as (i' & v' & Ev & Hv); [rewrite Z.add_0_r; exact H|exact Hf|].
  change (Z.of_nat 0) with 0 in Ev. rewrite Ev. cbn [mbind option_bind]. cbn [andb Nat.add] in Hv. rewrite <- Hv.
  f_equal. unfold UUID_STR_LEN. destruct (i' =? 36), v'; reflexivity.
Qed.

(** A group of hexadecimal bytes and its value. *)
Definition group (bs : list Z) : list Z := concat (map hex bs).
Definition be_val (bs : list Z) : Z := fold_left (fun a b => a * 256 + b) bs 0.

Lemma hex_digit d : 0 <= d < 16 -> Strto.is_digit_of 16 (Format.digit 32 d) = true /\ Strto.digit_value (Format.digit 32 d) = d.
Proof.
  intros Hd. assert (Format.digit 32 d = Strto.digit_char d) as -> by (unfold Format.digit, Strto.digit_char; destruct (d <? 10); lia).
  destruct (Strto.digit_char_ok 16 d ltac:(lia) Hd) as (? & ? & _). auto.
Qed.

Lemma group_digits bs : Forall (fun b => 0 <= b < 256) bs -> Forall (fun c => Strto.is_digit_of 16 c = true) (group bs).
Proof.
  unfold group. induction 1 as [|b bs Hb _ IH]; cbn [map concat]; [constructor|].
  apply Forall_app_2; [|exact IH]. repeat constructor; apply hex_digit; lia.
Qed.

Lemma group_value bs : Forall (fun b => 0 <= b < 256) bs -> forall a,
  Strto.numeral 16 (group bs) a = fold_left (fun a b => a * 256 + b) bs a.
Proof.
  unfold group, Strto.numeral. induction 1 as [|b bs Hb _ IH]; intros a; [reflexivity|]. cbn [map concat hex app fold_left].
  rewrite (proj2 (hex_digit (b / 16) ltac:(lia))), (proj2 (hex_digit (b mod 16) ltac:(lia))), IH. f_equal. lia.
Qed.

Lemma group_length bs : length (group bs) = (2 * length bs)%nat.
Proof. unfold group. induction bs as [|b bs IH]; cbn [map concat length]; [reflexivity|]. rewrite length_app, IH, hex_length. lia. Qed.

(** [strtoul] and [strtoull] read a group up to the dash or the end. *)
Lemma strtoul_group m fuel p bs rest : cstr m p (group bs ++ rest) -> bs <> [] -> Forall (fun b => 0 <= b < 256) bs ->
  (rest = [] \/ exists r, rest = 45 :: r) -> (length (group bs ++ rest) < fuel)%nat ->
  exists e, Strto.simple_strtoul m fuel p 16 = Some (u32 (be_val bs), e) /\ Strto.simple_strtoull m fuel p 16 = Some (u64 (be_val bs), e).
Proof.
  intros H Hne Hb Hr Hf. pose proof (group_digits bs Hb) as Hd.
  assert (prefix_len (Strto.is_digit_of 16) (group bs ++ rest) = length (group bs)) as Hk.
  { apply Strto.prefix_len_forall; [exact Hd|]. intros c r E. destruct Hr as [->|[r' ->] ]; [discriminate|]. injection E as <- _. reflexivity. }
  assert (Strto._parse_integer_fixup_radix m p 16 = (p, 16)) as E.
  { unfold Strto._parse_integer_fixup_radix. cbn [Z.eqb Pos.eqb andb].
    replace (tolower (ld m (p + 1)) =? 120) with false; [rewrite andb_false_r; reflexivity|]. symmetry. apply Z.eqb_neq.
    destruct bs as [|b bs]; [contradiction|]. unfold group in H. cbn [map concat hex app] in H.
    apply cstr_cons in H as (_ & _ & H). apply cstr_cons in H as (_ & -> & _). pose proof (Forall_inv Hb) as Hb0. cbn beta in Hb0.
    pose proof (digit_byte (b mod 16) ltac:(lia)). apply (Strto.digit_not_x 16); [lia|]. apply hex_digit. lia. }
  unfold Strto.simple_strtoul, Strto.simple_strtoull. rewrite E. exists (p + Z.of_nat (length (group bs))).
  pose proof (Strto.digit_loop_spec m 32 16 ltac:(lia) _ fuel p 0 H Hf) as E1. pose proof (Strto.digit_loop_spec m 64 16 ltac:(lia) _ fuel p 0 H Hf) as E2.
  cbn zeta in E1, E2. rewrite Hk, take_app_length, group_value in E1, E2 by exact Hb. split; [exact E1|exact E2].
Qed.

(** The bytes of a value in big- and little-endian order. *)
Lemma be16_val a b : 0 <= a < 256 -> 0 <= b < 256 -> be16 (u32 (be_val [a; b])) = [a; b] /\ le16 (u32 (be_val [b; a])) = [a; b].
Proof.
  intros Ha Hb. unfold be16, le16, be_val. cbn [fold_left]. rewrite !u32_small, !Z.shiftr_div_pow2 by lia.
  change (2 ^ 8) with 256. unfold u8, wrap. change (2 ^ 8) with 256. split; f_equal; try lia; f_equal; lia.
Qed.

Lemma be32_val a b c d : 0 <= a < 256 -> 0 <= b < 256 -> 0 <= c < 256 -> 0 <= d < 256 ->
  be32 (u32 (be_val [a; b; c; d])) = [a; b; c; d] /\ le32 (u32 (be_val [d; c; b; a])) = [a; b; c; d].
Proof.
  intros Ha Hb Hc Hd. unfold be32, le32, be16, le16, be_val. cbn [fold_left app]. rewrite !u32_small, !Z.shiftr_div_pow2 by lia.
  change (2 ^ 8) with 256. change (2 ^ 16) with 65536. unfold u8, wrap. change (2 ^ 8) with 256.
  split; repeat (f_equal; [lia|]); f_equal; lia.
Qed.

Lemma be48_val a b c d e f : 0 <= a < 256 -> 0 <= b < 256 -> 0 <= c < 256 -> 0 <= d < 256 -> 0 <= e < 256 -> 0 <= f < 256 ->
  drop 2 (be64 (u64 (be_val [a; b; c; d; e; f]))) = [a; b; c; d; e; f].
Proof.
  intros Ha Hb Hc Hd He Hf. unfold be64, be32, be16, be_val. cbn [fold_left app drop].
  unfold u64. rewrite wrap_small by (unfold in_range; lia). rewrite !Z.shiftr_div_pow2 by lia.
  change (2 ^ 8) with 256. change (2 ^ 16) with 65536. change (2 ^ 32) with 4294967296. unfold u8, wrap. change (2 ^ 8) with 256.
  repeat (f_equal; [lia|]); f_equal; lia.
Qed.

Definition groups (g0 g1 g2 g3 g4 : list Z) : list Z :=
  group g0 ++ 45 :: group g1 ++ 45 :: group g2 ++ 45 :: group g3 ++ 45 :: group g4.

Lemma cstr_skip m p g r : cstr m p (group g ++ 45 :: r) -> cstr m (p + (2 * Z.of_nat (length g) + 1)) r.
Proof.
  intros H. replace (group g ++ 45 :: r) with ((group g ++ [45]) ++ r) in H by (rewrite <- app_assoc; reflexivity).
  pose proof (cstr_drop m p _ (length (group g ++ [45])) H ltac:(rewrite !length_app; lia)) as Hd.
  rewrite drop_app_length in Hd. rewrite length_app, group_length in Hd. cbn [length] in Hd.
  replace (2 * Z.of_nat (length g) + 1) with (Z.of_nat (2 * length g + 1)) by lia. exact Hd.
Qed.

Lemma cstr_wr_apart m p t bin l : cstr m p t -> bin + Z.of_nat (length l) <= p \/ p + Z.of_nat (length t) < bin -> cstr (wr m bin l) p t.
Proof.
  intros H Hd. eapply cstr_ext; [|exact H]. intros a Ha. rewrite ld_wr.
  replace ((bin <=? a) && (a <? bin + Z.of_nat (length l))) with false by lia. reflexivity.
Qed.

Definition byte_list (n : nat) (l : list Z) : Prop := length l = n /\ Forall (fun b => 0 <= b < 256) l.

Lemma group_ne n l : byte_list (S n) l -> l <> [].
Proof. intros [H _] ->. discriminate. Qed.

Section Groups.
Context (g0 g1 g2 g3 g4 : list Z).
Context (B0 : byte_list 4 g0) (B1 : byte_list 2 g1) (B2 : byte_list 2 g2) (B3 : byte_list 2 g3) (B4 : byte_list 6 g4).

Lemma groups_length : length (groups g0 g1 g2 g3 g4) = 36%nat.
Proof.
  unfold groups. repeat (rewrite !length_app; cbn [length]).
  rewrite !group_length, (proj1 B0), (proj1 B1), (proj1 B2), (proj1 B3), (proj1 B4). reflexivity.
Qed.

(** The calls that read the five groups. *)
Lemma read_groups m s fuel : cstr m s (groups g0 g1 g2 g3 g4) -> (36 < fuel)%nat ->
  exists e0 e1 e2 e3 e4, Strto.simple_strtoul m fuel s 16 = Some (u32 (be_val g0), e0) /\
    Strto.simple_strtoul m fuel (s + 9) 16 = Some (u32 (be_val g1), e1) /\
    Strto.simple_strtoul m fuel (s + 14) 16 = Some (u32 (be_val g2), e2) /\
    Strto.simple_strtoul m fuel (s + 19) 16 = Some (u32 (be_val g3), e3) /\
    Strto.simple_strtoull m fuel (s + 24) 16 = Some (u64 (be_val g4), e4).
Proof.
  intros H Hf. pose proof groups_length as Hl. unfold groups in *.
  pose proof (cstr_skip m s g0 _ H) as H1. rewrite (proj1 B0) in H1. change (2 * Z.of_nat 4 + 1) with 9 in H1.
  pose proof (cstr_skip m _ g1 _ H1) as H2. rewrite (proj1 B1), <- Z.add_assoc in H2. change (9 + (2 * Z.of_nat 2 + 1)) with 14 in H2.
  pose proof (cstr_skip m _ g2 _ H2) as H3. rewrite (proj1 B2), <- Z.add_assoc in H3. change (14 + (2 * Z.of_nat 2 + 1)) with 19 in H3.
  pose proof (cstr_skip m _ g3 _ H3) as H4. rewrite (proj1 B3), <- Z.add_assoc in H4. change (19 + (2 * Z.of_nat 2 + 1)) with 24 in H4.
  assert (forall g n t r, byte_list (S n) g -> cstr m t (group g ++ 45 :: r) -> (length (group g ++ 45%Z :: r) < fuel)%nat ->
    exists e, Strto.simple_strtoul m fuel t 16 = Some (u32 (be_val g), e)) as Hgo.
  { intros g n t r Hg Ht Hft. destruct (strtoul_group m fuel t g _ Ht (group_ne _ _ Hg) (proj2 Hg)) as (e & E & _); eauto. }
  assert (forall x y : list Z, (length y <= length (x ++ 45%Z :: y))%nat) as Hle by (intros x y; rewrite length_app; cbn; lia).
  pose proof (Hle (group g0) (group g1 ++ 45 :: group g2 ++ 45 :: group g3 ++ 45 :: group g4)) as L1. rewrite Hl in L1.
  pose proof (Hle (group g1) (group g2 ++ 45 :: group g3 ++ 45 :: group g4)) as L2. pose proof (Hle (group g2) (group g3 ++ 45 :: group g4)) as L3.
  pose proof (Hle (group g3) (group g4)) as L4.
  destruct (Hgo _ _ _ _ B0 H ltac:(lia)) as [e0 E0]. destruct (Hgo _ _ _ _ B1 H1 ltac:(lia)) as [e1 E1].
  destruct (Hgo _ _ _ _ B2 H2 ltac:(lia)) as [e2 E2]. destruct (Hgo _ _ _ _ B3 H3 ltac:(lia)) as [e3 E3].
  rewrite <- (app_nil_r (group g4)) in H4.
  destruct (strtoul_group m fuel _ g4 [] H4 (group_ne _ _ B4) (proj2 B4)) as (e4 & _ & E4); [auto|rewrite app_nil_r; lia|].
  exists e0, e1, e2, e3, e4. auto.
Qed.

(** Reading five groups writes their values, each in its byte order. *)
Lemma str_to_bin_groups m s bin f fuel : cstr m s (groups g0 g1 g2 g3 g4) -> (36 < fuel)%nat -> s <> 0 ->
  bin + 16 <= s \/ s + 37 <= bin -> shape_ok 0 (groups g0 g1 g2 g3 g4) = true ->
  let std := f =? UUID_STR_FORMAT_STD in
  uuid_str_to_bin fuel m s bin f = Some (0, wr m bin (
    (if std then be32 else le32) (u32 (be_val g0)) ++ (if std then be16 else le16) (u32 (be_val g1)) ++
    (if std then be16 else le16) (u32 (be_val g2)) ++ be16 (u32 (be_val g3)) ++ drop 2 (be64 (u64 (be_val g4))))).
Proof.
  intros H Hf Hs Hd Hsh std. unfold uuid_str_to_bin. pose proof groups_length as Hl.
  rewrite (uuid_str_valid_spec m s _ fuel H ltac:(lia) Hs), Hsh, Hl. cbn [mbind option_bind Nat.eqb andb negb]. cbv zeta. fold std.
  set (l0 := (if std then be32 else le32) (u32 (be_val g0))). set (l1 := (if std then be16 else le16) (u32 (be_val g1))).
  set (l2 := (if std then be16 else le16) (u32 (be_val g2))). set (l3 := be16 (u32 (be_val g3))).
  assert (length l0 = 4%nat) as L0 by (subst l0; destruct std; reflexivity). assert (length l1 = 2%nat) as L1 by (subst l1; destruct std; reflexivity).
  assert (length l2 = 2%nat) as L2 by (subst l2; destruct std; reflexivity). assert (length l3 = 2%nat) as L3 by reflexivity.
  assert (forall l, (length l <= 16)%nat -> cstr (wr m bin l) s (groups g0 g1 g2 g3 g4)) as Hw by (intros l Hll; apply cstr_wr_apart; [exact H|lia]).
  destruct (read_groups m s fuel H Hf) as (? & _ & _ & _ & _ & -> & _). cbn [mbind option_bind]. fold l0.
  destruct (read_groups (wr m bin l0) s fuel) as (_ & ? & _ & _ & _ & _ & -> & _); [apply Hw; lia|exact Hf|]. cbn [mbind option_bind]. fold l1.
  replace (bin + 4) with (bin + Z.of_nat (length l0)) by lia. rewrite <- wr_app.
  destruct (read_groups (wr m bin (l0 ++ l1)) s fuel) as (_ & _ & ? & _ & _ & _ & _ & -> & _); [apply Hw; rewrite length_app; lia|exact Hf|].
  cbn [mbind option_bind]. fold l2. replace (bin + 6) with (bin + Z.of_nat (length (l0 ++ l1))) by (rewrite length_app; lia). rewrite <- wr_app.
  destruct (read_groups (wr m bin ((l0 ++ l1) ++ l2)) s fuel) as (_ & _ & _ & ? & _ & _ & _ & _ & -> & _); [apply Hw; rewrite !length_app; lia|exact Hf|].
  cbn [mbind option_bind]. fold l3. replace (bin + 8) with (bin + Z.of_nat (length ((l0 ++ l1) ++ l2))) by (rewrite !length_app; lia). rewrite <- wr_app.
  destruct (read_groups (wr m bin (((l0 ++ l1) ++ l2) ++ l3)) s fuel) as (_ & _ & _ & _ & ? & _ & _ & _ & _ & ->); [apply Hw; rewrite !length_app; lia|exact Hf|].
  cbn [mbind option_bind]. replace (bin + 10) with (bin + Z.of_nat (length (((l0 ++ l1) ++ l2) ++ l3))) by (rewrite !length_app; lia). rewrite <- wr_app.
  rewrite <- !app_assoc. reflexivity.
Qed.

End Groups.

Lemma isxdigit_digit d : 0 <= d < 16 -> isxdigit (Format.digit 32 d) = true.
Proof. intros Hd. pose proof (proj1 (hex_digit d Hd)) as H. unfold Strto.is_digit_of in H. destruct (isxdigit _); [reflexivity|discriminate]. Qed.

Lemma shape_hex i b s : 0 <= b < 256 -> ((i =? 8) || (i =? 13) || (i =? 18) || (i =? 23))%nat = false ->
  ((S i =? 8) || (S i =? 13) || (S i =? 18) || (S i =? 23))%nat = false -> shape_ok i (hex b ++ s) = shape_ok (S (S i)) s.
Proof. intros Hb H1 H2. cbn [hex app shape_ok]. rewrite H1, H2, !isxdigit_digit by lia. reflexivity. Qed.

Lemma shape_dash i s : ((i =? 8) || (i =? 13) || (i =? 18) || (i =? 23))%nat = true -> shape_ok i (45 :: s) = shape_ok (S i) s.
Proof. intros H. cbn [shape_ok]. rewrite H. reflexivity. Qed.

(** The groups of the text are the bytes in order, and it has the right shape. *)
Lemma text_groups h f : uuid_text h (char_order f) 0 =
  if f =? UUID_STR_FORMAT_STD
  then groups [h 0; h 1; h 2; h 3] [h 4; h 5] [h 6; h 7] [h 8; h 9] [h 10; h 11; h 12; h 13; h 14; h 15]
  else groups [h 3; h 2; h 1; h 0] [h 5; h 4] [h 7; h 6] [h 8; h 9] [h 10; h 11; h 12; h 13; h 14; h 15].
Proof. unfold char_order. destruct (f =? UUID_STR_FORMAT_STD); reflexivity. Qed.

Lemma text_shape h f : (forall k, 0 <= h k < 256) -> shape_ok 0 (uuid_text h (char_order f) 0) = true.
Proof.
  intros Hh. rewrite text_groups. unfold groups, group. destruct (f =? UUID_STR_FORMAT_STD); cbn [map concat];
    repeat (rewrite <- !app_assoc; cbn [app]);
    repeat first [rewrite shape_hex; [|apply Hh|reflexivity|reflexivity] | rewrite shape_dash; [|reflexivity] ]; reflexivity.
Qed.

Lemma str_to_bin_text m s bin h f fuel : (forall k, 0 <= h k < 256) -> cstr m s (uuid_text h (char_order f) 0) -> (36 < fuel)%nat -> s <> 0 ->
  bin + 16 <= s \/ s + 37 <= bin ->
  uuid_str_to_bin fuel m s bin f = Some (0, wr m bin (map h uuid_char_order)).
Proof.
  intros Hh H Hf Hs Hd. pose proof (text_shape h f Hh) as Hsh. rewrite text_groups in H, Hsh.
  assert (forall l, byte_list (length (map h l)) (map h l)) as Hb.
  { intros l. split; [reflexivity|]. apply Forall_map. apply List.Forall_forall. intros k _. apply Hh. }
  destruct (f =? UUID_STR_FORMAT_STD) eqn:Ef.
  - rewrite (str_to_bin_groups _ _ _ _ _ (Hb [0; 1; 2; 3]) (Hb [4; 5]) (Hb [6; 7]) (Hb [8; 9]) (Hb [10; 11; 12; 13; 14; 15]) m s bin f fuel H Hf Hs Hd Hsh), Ef. cbn [map].
    rewrite (proj1 (be32_val _ _ _ _ (Hh 0) (Hh 1) (Hh 2) (Hh 3))), (proj1 (be16_val _ _ (Hh 4) (Hh 5))), (proj1 (be16_val _ _ (Hh 6) (Hh 7))),
      (proj1 (be16_val _ _ (Hh 8) (Hh 9))), be48_val by apply Hh. reflexivity.
  - rewrite (str_to_bin_groups _ _ _ _ _ (Hb [3; 2; 1; 0]) (Hb [5; 4]) (Hb [7; 6]) (Hb [8; 9]) (Hb [10; 11; 12; 13; 14; 15]) m s bin f fuel H Hf Hs Hd Hsh), Ef. cbn [map].
    rewrite (proj2 (be32_val _ _ _ _ (Hh 0) (Hh 1) (Hh 2) (Hh 3))), (proj2 (be16_val _ _ (Hh 4) (Hh 5))), (proj2 (be16_val _ _ (Hh 6) (Hh 7))),
      (proj1 (be16_val _ _ (Hh 8) (Hh 9))), be48_val by apply Hh. reflexivity.
Qed.

(** ** The properties *)

(** A UUID or GUID survives the way through text: [uuid_bin_to_str] writes 36
    characters and a NUL and nothing else, the text is accepted as valid, and
    [uuid_str_to_bin] in the same format turns it back into the same sixteen bytes,
    the only ones it writes. *)
Theorem uuid_roundtrip m bin s bin' f fuel : 0 < s -> s + 37 <= Format.POS_MAX -> (36 < fuel)%nat ->
  bin + 16 <= s \/ s + 37 <= bin -> bin' + 16 <= s \/ s + 37 <= bin' ->
  exists m1 m2 t, uuid_bin_to_str m bin s f = Some m1 /\ length t = 36%nat /\ mem_eq m1 (wr m s (t ++ [0])) /\
    uuid_str_valid fuel m1 s = Some true /\
    uuid_str_to_bin fuel m1 s bin' f = Some (0, m2) /\ mem_eq m2 (wr m1 bin' (bytes m bin 16)).
Proof.
  intros Hs Hp Hf Hd Hd'. destruct (uuid_bin_to_str_text m bin s f) as (m1 & E1 & Hm1); [lia|lia|exact Hd|].
  set (h := fun k => ld m (bin + k)). assert (forall k, 0 <= h k < 256) as Hh by (intros k; apply ld_range).
  change (text_of m bin f) with (uuid_text h (char_order f) 0) in Hm1. pose proof (uuid_text_length h f) as Hl.
  pose proof (uuid_text_bytes h (char_order f) Hh 0) as Hb. pose proof (text_shape h f Hh) as Hsh. set (t := uuid_text h (char_order f) 0) in *.
  assert (cstr m1 s t) as Hc.
  { apply (cstr_mem_eq _ _ _ _ Hm1), cstr_wr. eapply Forall_impl; [|exact Hb]. cbn beta. lia. }
  exists m1, (wr m1 bin' (map h uuid_char_order)), t. split; [exact E1|]. split; [exact Hl|]. split; [exact Hm1|]. split; [|split].
  - rewrite (uuid_str_valid_spec m1 s t fuel Hc) by lia. rewrite Hsh, Hl. reflexivity.
  - apply str_to_bin_text; [exact Hh|exact Hc|exact Hf|lia|exact Hd'].
  - replace (map h uuid_char_order) with (bytes m bin 16); [reflexivity|]. subst h. unfold uuid_char_order. cbn [map bytes].
    rewrite <- !Z.add_assoc, Z.add_0_r. reflexivity.
Qed.

Lemma uuid_roundtrip_witness : exists m1 m2 t,
  uuid_bin_to_str (mem_of 0x100 uuid_char_order) 0x100 0x200 UUID_STR_FORMAT_GUID = Some m1 /\ length t = 36%nat /\
  mem_eq m1 (wr (mem_of 0x100 uuid_char_order) 0x200 (t ++ [0])) /\ uuid_str_valid 37 m1 0x200 = Some true /\
  uuid_str_to_bin 37 m1 0x200 0x300 UUID_STR_FORMAT_GUID = Some (0, m2) /\
  mem_eq m2 (wr m1 0x300 (bytes (mem_of 0x100 uuid_char_order) 0x100 16)).
Proof.
  apply (uuid_roundtrip (mem_of 0x100 uuid_char_order) 0x100 0x200 0x300 UUID_STR_FORMAT_GUID 37); unfold Format.POS_MAX; lia.
Defined.

(** [uuid_str_valid] decides the shape: 36 characters, dashes at 8, 13, 18 and 23,
    hexadecimal digits elsewhere; other strings are refused by [uuid_str_to_bin],
    which then writes nothing. *)
Theorem uuid_str_to_bin_rejects m s t bin f fuel : cstr m s t -> (length t < fuel)%nat -> s <> 0 ->
  shape_ok 0 t && (length t =? 36)%nat = false -> uuid_str_to_bin fuel m s bin f = Some (- EINVAL, m).
Proof. intros H Hf Hs Hno. unfold uuid_str_to_bin. rewrite (uuid_str_valid_spec m s t fuel H Hf Hs), Hno. reflexivity. Qed.

(** The top bits of a byte cut from a word. *)
Lemma top_bits v n w c : 0 <= n -> 0 <= w <= 8 -> 0 <= c < 2 ^ w ->
  (forall i, 0 <= i < w -> Z.testbit v (i + (8 - w) + n) = Z.testbit c i) -> u8 (Z.shiftr v n) / 2 ^ (8 - w) = c.
Proof.
  intros Hn Hw Hc H. rewrite <- Z.shiftr_div_pow2 by lia. unfold u8, wrap. rewrite <- Z.land_ones by lia.
  apply Z.bits_inj'. intros i Hi. rewrite Z.shiftr_spec, Z.land_spec, Z.shiftr_spec by lia.
  destruct (Z.ltb_spec i w).
  - rewrite Z.ones_spec_low, andb_true_r by lia. apply H. lia.
  - rewrite Z.ones_spec_high, andb_false_r by lia. symmetry. destruct (Z.eqb_spec c 0) as [->|]; [apply Z.bits_0|].
    apply Z.bits_above_log2; [lia|]. apply Z.log2_lt_pow2; [lia|]. apply Z.lt_le_trans with (2 ^ w); [lia|]. apply Z.pow_le_mono_r; lia.
Qed.

(** The random identifiers are of version 4 and of the RFC variant. *)
Theorem gen_rand_uuid_version y : let b := (gen_rand_uuid y).1 in length b = 16%nat /\ Forall (fun x => 0 <= x < 256) b /\
  nth 6 b 0 / 2 ^ 4 = UUID_VERSION /\ nth 8 b 0 / 2 ^ 6 = 2.
Proof.
  unfold gen_rand_uuid, rand. cbn [fst]. set (r0 := rand_r y). set (r1 := rand_r r0). set (r2 := rand_r r1). set (r3 := rand_r r2).
  clearbody r0 r1 r2 r3. unfold be32, be16. cbn [app take drop nth].
  set (v6 := u8 _ * _ + _). clearbody v6. set (v8 := u8 (Z.shiftr (Z.shiftr r2 16) 8)). clearbody v8.
  cbn [length]. split; [reflexivity|]. split; [repeat constructor; apply u8_range|]. split.
  - apply (top_bits _ 8 4 UUID_VERSION); [lia|lia|unfold UUID_VERSION; lia|]. intros i Hi. rewrite Z.lor_spec, Z.land_spec, Z.lnot_spec by lia.
    assert (i = 0 \/ i = 1 \/ i = 2 \/ i = 3) as [-> | [-> | [-> | ->] ] ] by lia; rewrite andb_false_r; reflexivity.
  - rewrite <- (Z.shiftr_0_r (Z.lor _ _)). apply (top_bits _ 0 2 2); [lia|lia|lia|]. intros i Hi. rewrite Z.lor_spec, Z.land_spec, Z.lnot_spec by lia.
    assert (i = 0 \/ i = 1) as [-> | ->] by lia; rewrite andb_false_r; reflexivity.
Qed.

Lemma shift_left_fixed x n : 0 < n -> x = u32 (Z.shiftl x n) -> x = 0.
Proof.
  intros Hn E. apply Z.bits_inj'. intros i Hi. rewrite Z.bits_0. revert i Hi. apply (Z_lt_induction (fun i => Z.testbit x i = false)).
  intros j IH. destruct (Z.ltb_spec j 0); [apply Z.testbit_neg_r; lia|]. rewrite E, u32_testbit, Z.shiftl_spec by lia.
  destruct (Z.ltb_spec (j - n) 0); [rewrite (Z.testbit_neg_r x) by lia|rewrite IH by lia]; apply andb_false_r.
Qed.

(** A generator that is not seeded with 0 never reaches 0, where it would stay. *)
Theorem rand_nonzero y : 0 < y < 2 ^ 32 -> 0 < rand_r y < 2 ^ 32.
Proof.
  intros Hy. unfold rand_r. assert (forall x y, in_range 32 x -> in_range 32 y -> x <> y -> 0 < Z.lxor x y < 2 ^ 32) as Hx.
  { intros a b Ha Hb Hne. pose proof (lxor_range 32 a b ltac:(lia) Ha Hb) as Hr. destruct (Z.eqb_spec (Z.lxor a b) 0) as [E|E].
    - apply Z.lxor_eq in E. contradiction.
    - unfold in_range in Hr. lia. }
  assert (forall x n, 0 < n -> 0 < x < 2 ^ 32 -> 0 < Z.lxor x (u32 (Z.shiftl x n)) < 2 ^ 32) as Hl.
  { intros x n Hn Hr. apply Hx; [unfold in_range; lia|apply wrap_range; lia|]. intros E. apply shift_left_fixed in E; lia. }
  apply Hl; [lia|]. pose proof (Hl y 13 ltac:(lia) Hy) as H1. set (x := Z.lxor y _) in *. clearbody x.
  apply Hx; [unfold in_range; lia| |]; rewrite Z.shiftr_div_pow2 by lia; unfold in_range; change (2 ^ 17) with 131072; lia.
Qed.

Lemma rand_nonzero_witness : 0 < rand_r 1 < 2 ^ 32.
Proof. apply (rand_nonzero 1). lia. Defined.

End Uuid.
