(* ===== verification/Printf.v ===== *)
(** * Printf: the formatting functions

    The functions of lib/vsprintf.c that the rest of U-Boot calls, with the UUID
    printer of Uuid.v in place, and their theorems. *)

From stdpp Require Import base list option.
From Stdlib Require Import ZifyBool.
From S2P Require Import Prelude Cmem Ctype CString Strto Charset Vsprintf Format Uuid.
Import CString Vsprintf.

#[local] Ltac Zify.zify_post_hook ::= Z.to_euclidean_division_equations.

Module Printf.

Section Printf.
Context (efi_dp_str : mem -> Z -> option (list Z)).

Definition snprintf := vsnprintf efi_dp_str Uuid.uuid_local_str.
Definition scnprintf := vscnprintf efi_dp_str Uuid.uuid_local_str.
Definition sprintf := vsprintf efi_dp_str Uuid.uuid_local_str.
Definition printf := Vsprintf.printf efi_dp_str Uuid.uuid_local_str.

(** The text of a format whose output buffer is [buf, buf + size); a string is looked
    for up to [k] characters. *)
Definition text (k : nat) (m : mem) (buf size : Z) (fmt : list Z) (args : list arg) : option (list Z) :=
  Format.text Uuid.uuid_local_str k buf (Z.min (buf + size) (2 ^ 32 - 1)) m fmt args.

Lemma snprintf_text k m buf size fmt args s : 0 <= buf < 2 ^ 32 -> 0 <= size < 2 ^ 32 ->
  buf + Z.of_nat (length s) <= Format.POS_MAX -> text k m buf size fmt args = Some s ->
  exists m', snprintf m buf size fmt args = Some (Z.of_nat (length s), m') /\
    mem_eq m' (if Z.min (buf + size) (2 ^ 32 - 1) =? buf then m
               else wr m buf (take (Z.to_nat (Z.min (buf + size) (2 ^ 32 - 1) - buf - 1)) s ++ [0])).
Proof.
  intros Hb Hs Hp Ht.
  exact (Format.vsnprintf_text Uuid.uuid_local_str k buf _ m efi_dp_str Uuid.uuid_local size fmt args s Hb Hs eq_refl Hp Ht).
Qed.

End Printf.

(** ** Numbers read back *)

Lemma print_loop_digs base n : forall v acc, 2 <= base <= 16 -> 0 <= v ->
  Strto.print_loop n base v acc = rev (map (Format.digit 32) (Format.digs n base v)) ++ acc.
Proof.
  induction n as [|n IH]; intros v acc Hb Hv; [reflexivity|]. cbn [Strto.print_loop Format.digs map rev].
  assert (Format.digit 32 (v mod base) = Strto.digit_char (v mod base)) as -> by (unfold Format.digit, Strto.digit_char; destruct (_ <? 10); lia).
  rewrite <- app_assoc. destruct (v / base =? 0); [reflexivity|]. apply IH; [exact Hb|]. apply Z.div_pos; lia.
Qed.

Lemma digs_fuel base : 2 <= base -> forall n k v, 0 <= v < 2 ^ Z.of_nat n -> (0 < n)%nat ->
  Format.digs (n + k) base v = Format.digs n base v.
Proof.
  intros Hb. induction n as [|n IH]; intros k v Hv Hn; [lia|]. cbn [Nat.add Format.digs].
  destruct (Z.eqb_spec (v / base) 0) as [E|E]; [reflexivity|]. f_equal. pose proof (Z.div_pos v base ltac:(lia) ltac:(lia)).
  assert (v / base < 2 ^ Z.of_nat n) as Hlt.
  { apply Z.div_lt_upper_bound; [lia|]. rewrite Nat2Z.inj_succ, Z.pow_succ_r in Hv by lia. nia. }
  destruct n as [|n]; [cbn in Hlt; lia|]. apply IH; lia.
Qed.

Lemma digs_length base : 2 <= base -> forall n k v, 0 <= v < base ^ Z.of_nat k -> (0 < k)%nat -> (length (Format.digs n base v) <= k)%nat.
Proof.
  intros Hb. induction n as [|n IH]; intros k v Hv Hk; cbn [Format.digs length]; [lia|].
  destruct (Z.eqb_spec (v / base) 0) as [E|E]; [cbn; lia|]. destruct k as [|k]; [lia|].
  pose proof (Z.div_pos v base ltac:(lia) ltac:(lia)). rewrite Nat2Z.inj_succ, Z.pow_succ_r in Hv by lia.
  assert (v / base < base ^ Z.of_nat k) as Hlt by (apply Z.div_lt_upper_bound; lia).
  destruct k as [|k]; [cbn in Hlt; lia|]. specialize (IH (S k) (v / base) ltac:(lia) ltac:(lia)). lia.
Qed.

Lemma digit_text_print f base v : 2 <= base <= 16 -> has f SMALL = true \/ base = 10 -> 0 <= v < 2 ^ 32 ->
  Format.digit_text f base v = Strto.print_base base v.
Proof.
  intros Hb Hf Hv. unfold Format.digit_text, Strto.print_base. rewrite print_loop_digs, app_nil_r by lia.
  change 64%nat with (32 + 32)%nat. rewrite digs_fuel by lia. f_equal. apply map_ext_in. intros d Hd.
  pose proof (Format.digs_range base v 32 ltac:(lia)) as Hr. rewrite List.Forall_forall in Hr. specialize (Hr d Hd). cbn beta in Hr.
  unfold Format.digit. destruct (has f SMALL); [reflexivity|]. destruct Hf as [Hf | ->]; [discriminate|]. replace (d <? 10) with true by lia. reflexivity.
Qed.

(** A number without width and precision. *)
Lemma number_text_plain num base w p f : has f SIGN = false -> w < 0 -> p < 0 ->
  Format.number_text num base w p f = Format.prefix_text f base ++ Format.digit_text f base num.
Proof.
  intros Hs Hw Hp. unfold Format.number_text, Format.sign_text, Format.magnitude. rewrite Hs. cbn [andb app].
  replace (Z.to_nat (p - _)) with O by lia. cbn [replicate app]. replace (Z.to_nat (w - _)) with O by lia. cbn [replicate app].
  rewrite app_nil_r. destruct (has f LEFT); [reflexivity|]. destruct (has f ZEROPAD); reflexivity.
Qed.

Definition fmt_lu : list Z := [37; 108; 117].
Definition fmt_lx : list Z := [37; 108; 120].
Definition fmt_hash_lx : list Z := [37; 35; 108; 120].

Lemma text_numbers k m buf size v : 0 <= v < 2 ^ 32 ->
  text k m buf size fmt_lu [Int v] = Some (Strto.print_base 10 v) /\
  text k m buf size fmt_lx [Int v] = Some (Strto.print_base 16 v) /\
  text k m buf size fmt_hash_lx [Int v] = Some (48 :: 120 :: Strto.print_base 16 v).
Proof.
  intros Hv. unfold text.
  assert (forall fmt sp c base f pre, parse_spec fmt [Int v] = Some (sp, [c], [Int v]) -> field_width sp = -1 -> precision sp = -1 -> qualifier sp = 108 ->
    (c = 117 /\ base = 10 /\ f = flags sp \/ c = 120 /\ base = 16 /\ f = Z.lor (flags sp) SMALL) -> has f SIGN = false ->
    has f SMALL = true \/ base = 10 -> Format.prefix_text f base = pre -> 2 <= base <= 16 ->
    Format.text Uuid.uuid_local_str k buf (Z.min (buf + size) (2 ^ 32 - 1)) m (37 :: fmt) [Int v] = Some (pre ++ Strto.print_base base v)) as Hgo.
  { intros fmt sp c base f pre Hsp Hw Hp Hq Hc Hs Hsm Hpre Hb.
    rewrite (Format.text_convert _ _ _ _ _ fmt [Int v] sp [c] [Int v] (pre ++ Strto.print_base base v) [] [] Hsp).
    { cbn [Format.text]. rewrite Format.text_nil. cbn [mbind option_bind]. rewrite app_nil_r. reflexivity. }
    assert (Format.integer_text sp base f [] [Int v] = Some (pre ++ Strto.print_base base v, [], [])) as E.
    { unfold Format.integer_text, va_number. rewrite Hq, Hs, Hw, Hp. cbn [Z.eqb Pos.eqb va_int mbind option_bind].
      rewrite u32_small, number_text_plain, Hpre, digit_text_print by (assumption || lia). reflexivity. }
    destruct Hc as [(-> & -> & ->) | (-> & -> & ->)]; exact E. }
  split; [|split].
  - apply (Hgo _ {| flags := 0; field_width := -1; precision := -1; qualifier := 108 |} 117 10 0 []); auto; lia.
  - apply (Hgo _ {| flags := 0; field_width := -1; precision := -1; qualifier := 108 |} 120 16 SMALL []); auto; lia.
  - apply (Hgo _ {| flags := SPECIAL; field_width := -1; precision := -1; qualifier := 108 |} 120 16 (Z.lor SPECIAL SMALL) [48; 120]); auto; lia.
Qed.

Lemma print_base_length v : 0 <= v < 2 ^ 32 -> (length (Strto.print_base 10 v) <= 10)%nat /\ (length (Strto.print_base 16 v) <= 8)%nat.
Proof.
  intros Hv. unfold Strto.print_base. rewrite !print_loop_digs, !app_nil_r, !length_rev, !length_map by lia.
  split; apply digs_length; lia.
Qed.

Lemma print_base_bytes base v : 2 <= base <= 16 -> 0 <= v -> Forall (fun c => 0 < c < 256) (Strto.print_base base v).
Proof.
  intros Hb Hv. unfold Strto.print_base. rewrite print_loop_digs, app_nil_r by lia. apply Forall_rev, Forall_map.
  eapply Forall_impl; [|apply (Format.digs_range base v 32); lia]. intros d Hd. cbn beta in Hd. unfold Format.digit. destruct (Z.ltb_spec d 10); cbn; lia.
Qed.

(** ** The properties *)

(** C40: [snprintf] writes exactly the text of its format: flags, widths, precisions,
    signs and bases of numbers, strings, wide strings, characters, pointers, network
    addresses and UUIDs as described in Format.v, cut to [size - 1] characters and
    terminated by a NUL, and no byte outside the buffer; it returns the length of
    the whole text.  The strings it reads may not lie in the buffer. *)
Theorem snprintf_writes efi_dp_str k m buf size fmt args s : 0 <= buf -> 0 <= size -> buf + size < 2 ^ 32 ->
  buf + Z.of_nat (length s) <= Format.POS_MAX -> text k m buf size fmt args = Some s ->
  exists m', snprintf efi_dp_str m buf size fmt args = Some (Z.of_nat (length s), m') /\
    mem_eq m' (if size =? 0 then m else wr m buf (take (Z.to_nat (size - 1)) s ++ [0])).
Proof.
  intros Hb Hs Hbs Hp Ht. destruct (snprintf_text efi_dp_str k m buf size fmt args s) as (m' & E & Hm); [lia|lia|exact Hp|exact Ht|].
  rewrite Z.min_l in Hm by lia. replace (buf + size =? buf) with (size =? 0) in Hm by lia.
  replace (buf + size - buf - 1) with (size - 1) in Hm by lia. exists m'. auto.
Qed.

(** "%-4d|%s" with -42 and "abc" into seven bytes. *)
Lemma snprintf_writes_witness : let m := mem_of 0x100 [97; 98; 99; 0] in
  exists m', snprintf (fun _ _ => None) m 0x200 7 [37; 45; 52; 100; 124; 37; 115] [Int (-42); Ptr 0x100] = Some (8, m') /\
    mem_eq m' (wr m 0x200 [45; 52; 50; 32; 124; 97; 0]).
Proof.
  exact (snprintf_writes (fun _ _ => None) 8 (mem_of 0x100 [97; 98; 99; 0]) 0x200 7 [37; 45; 52; 100; 124; 37; 115] [Int (-42); Ptr 0x100]
    [45; 52; 50; 32; 124; 97; 98; 99] ltac:(lia) ltac:(lia) ltac:(lia) ltac:(unfold Format.POS_MAX; cbn; lia) ltac:(vm_compute; reflexivity)).
Defined.

(** A 32-bit number printed with "%lu", "%lx" or "%#lx" is read back by
    [simple_strtoul] in base 10, in base 16, and in base 16 or 0. *)
Theorem printed_number_reads efi_dp_str m buf size v fuel fmt base : 0 <= v < 2 ^ 32 -> 0 < buf -> 11 <= size ->
  buf + size < Format.POS_MAX -> (10 < fuel)%nat ->
  (fmt = fmt_lu /\ base = 10 \/ fmt = fmt_lx /\ base = 16 \/ fmt = fmt_hash_lx /\ (base = 16 \/ base = 0)) ->
  exists n m', snprintf efi_dp_str m buf size fmt [Int v] = Some (n, m') /\
    Strto.simple_strtoul m' fuel buf base = Some (v, buf + n).
Proof.
  intros Hv Hb Hs Hbs Hf Hc. destruct (text_numbers O m buf size v Hv) as (T1 & T2 & T3). pose proof (print_base_length v Hv) as [L1 L2].
  pose proof (eq_refl : Format.POS_MAX = 2 ^ 32 - 4096) as HP.
  assert (exists s, text O m buf size fmt [Int v] = Some s /\ (length s <= 10)%nat /\ Forall (fun c => 0 < c < 256) s /\
    ((s = Strto.print_base 10 v /\ base = 10) \/ (s = Strto.print_base 16 v /\ base = 16) \/
     (s = 48 :: 120 :: Strto.print_base 16 v /\ (base = 16 \/ base = 0)))) as (s & Ht & Hl & Hr & Hcase).
  { pose proof (print_base_bytes 10 v ltac:(lia) ltac:(lia)) as R1. pose proof (print_base_bytes 16 v ltac:(lia) ltac:(lia)) as R2.
    destruct Hc as [ [-> ->] | [ [-> ->] | [-> Hbase] ] ]; [exists (Strto.print_base 10 v)|exists (Strto.print_base 16 v)|exists (48 :: 120 :: Strto.print_base 16 v)].
    - split; [exact T1|]. split; [exact L1|]. split; [exact R1|]. left. split; reflexivity.
    - split; [exact T2|]. split; [lia|]. split; [exact R2|]. right. left. split; reflexivity.
    - split; [exact T3|]. split; [cbn [length]; lia|]. split; [repeat constructor; (exact R2 || lia)|]. right. right. split; [reflexivity|exact Hbase]. }
  destruct (snprintf_text efi_dp_str O m buf size fmt [Int v] s) as (m' & E & Hm); [lia|lia|lia|exact Ht|].
  rewrite Z.min_l in Hm by lia. replace (buf + size =? buf) with false in Hm by lia. rewrite take_ge in Hm by lia.
  exists (Z.of_nat (length s)), m'. split; [exact E|].
  apply (Strto.strtoul_roundtrip m' buf v fuel Hv s); [|lia|exact Hcase]. exact (cstr_mem_eq _ _ _ _ Hm (cstr_wr m buf s Hr)).
Qed.

Lemma printed_number_reads_witness : exists n m',
  snprintf (fun _ _ => None) (fun _ => 0) 0x200 16 fmt_hash_lx [Int 0x60000000] = Some (n, m') /\
  Strto.simple_strtoul m' 20 0x200 0 = Some (0x60000000, 0x200 + n).
Proof.
  apply (printed_number_reads (fun _ _ => None) (fun _ => 0) 0x200 16 0x60000000 20 fmt_hash_lx 0); unfold Format.POS_MAX; auto; lia.
Defined.

(** [printf] passes the text to [puts], cut to the size of its buffer, and
    returns the number of characters printed. *)
Theorem printf_prints efi_dp_str k fuel m printbuffer pbsize fmt args s : 0 <= printbuffer -> 1 < pbsize < 2 ^ 31 ->
  printbuffer + pbsize < 2 ^ 32 -> printbuffer + Z.of_nat (length s) <= Format.POS_MAX -> Z.of_nat (length s) < 2 ^ 31 ->
  Forall (fun c => 0 < c < 256) s -> s <> [] -> (Z.to_nat pbsize <= fuel)%nat ->
  text k m printbuffer pbsize fmt args = Some s ->
  let shown := take (Z.to_nat (pbsize - 1)) s in
  printf efi_dp_str fuel m printbuffer pbsize fmt args = Some (Z.of_nat (length shown), Some shown).
Proof.
  intros Hb Hs Hbs Hp Hs31 Hr Hne Hf Ht shown. destruct (snprintf_text efi_dp_str k m printbuffer pbsize fmt args s) as (m' & E & Hm); [lia|lia|exact Hp|exact Ht|].
  rewrite Z.min_l in Hm by lia. replace (printbuffer + pbsize =? printbuffer) with false in Hm by lia.
  replace (printbuffer + pbsize - printbuffer - 1) with (pbsize - 1) in Hm by lia. fold shown in Hm.
  assert (0 < length shown <= Z.to_nat (pbsize - 1))%nat as Hsh.
  { subst shown. rewrite length_take. destruct s; [contradiction|]. cbn [length]. lia. }
  assert (cstr m' printbuffer shown) as Hc.
  { apply (cstr_mem_eq _ _ _ _ Hm), cstr_wr. apply Forall_take, Hr. }
  unfold printf, Vsprintf.printf, vscnprintf. unfold snprintf in E. rewrite E. cbn [mbind option_bind].
  assert ((if u32 (Z.of_nat (length s)) <? pbsize then Z.of_nat (length s) else if negb (pbsize =? 0) then pbsize - 1 else 0) = Z.of_nat (length shown)) as ->.
  { rewrite u32_small by lia. subst shown. rewrite length_take. destruct (Z.ltb_spec (Z.of_nat (length s)) pbsize); [lia|].
    replace (pbsize =? 0) with false by lia. cbn [negb]. lia. }
  rewrite u32_small by lia. replace (Z.of_nat (length shown) <=? 0) with false by lia.
  rewrite (strlen_cstr m' shown) by (assumption || lia). cbn [mbind option_bind]. rewrite Nat2Z.id. do 3 f_equal. exact (proj1 Hc).
Qed.

(** "%05u" with 42. *)
Lemma printf_prints_witness : printf (fun _ _ => None) 64 (fun _ => 0) 0x1000 64 [37; 48; 53; 117] [Int 42] = Some (5, Some [48; 48; 48; 52; 50]).
Proof.
  exact (printf_prints (fun _ _ => None) O 64 (fun _ => 0) 0x1000 64 [37; 48; 53; 117] [Int 42] [48; 48; 48; 52; 50] ltac:(lia) ltac:(lia) ltac:(lia)
    ltac:(unfold Format.POS_MAX; cbn; lia) ltac:(cbn; lia) ltac:(repeat constructor; lia) ltac:(discriminate) ltac:(lia) ltac:(vm_compute; reflexivity)).
Defined.

(** The error of a device path is lost: [vscnprintf] compares it as unsigned and
    returns [size - 1], and [printf], which keeps it in an unsigned variable, prints
    whatever string the buffer holds. *)
Lemma vscnprintf_loses_error efi_dp_str m buf size fmt args err m' :
  snprintf efi_dp_str m buf size fmt args = Some (err, m') -> - MAX_ERRNO <= err < 0 -> 0 < size < 2 ^ 31 ->
  scnprintf efi_dp_str m buf size fmt args = Some (size - 1, m').
Proof.
  intros E He Hs. unfold scnprintf, vscnprintf. unfold snprintf in E. rewrite E. cbn [mbind option_bind].
  unfold MAX_ERRNO in He. assert (u32 err = err + 2 ^ 32) as -> by (unfold u32, wrap; lia).
  replace (err + 2 ^ 32 <? size) with false by lia. replace (size =? 0) with false by lia. reflexivity.
Qed.

Example printf_device_path_error : printf (fun _ _ => None) 64 (mem_of 0x1000 [104; 105; 0]) 0x1000 64 [37; 112; 68] [Ptr 0x2000] = Some (63, Some [104; 105]).
Proof. vm_compute. reflexivity. Qed.

(** [simple_itoa] gives the decimal form. *)
Lemma itoa_loop_print n : forall fuel v acc, 0 <= v < 2 ^ 32 -> itoa_loop fuel v acc <> None -> (fuel <= n)%nat ->
  itoa_loop fuel v acc = Some (Strto.print_loop n 10 v acc).
Proof.
  induction n as [|n IH]; intros fuel v acc Hv Hne Hf; (destruct fuel as [|fuel]; [contradiction|]); [lia|]. cbn [itoa_loop Strto.print_loop] in *.
  assert (u8 (48 + v mod 10) = Strto.digit_char (v mod 10)) as E.
  { unfold Strto.digit_char. rewrite u8_small by lia. replace (v mod 10 <? 10) with true by lia. reflexivity. }
  rewrite E in *. destruct (Z.ltb_spec 0 (v / 10)).
  - replace (v / 10 =? 0) with false by lia. apply IH; [lia|exact Hne|lia].
  - replace (v / 10 =? 0) with true by lia. reflexivity.
Qed.

Lemma itoa_loop_total fuel : forall v acc, 0 <= v < 10 ^ Z.of_nat fuel -> (0 < fuel)%nat -> itoa_loop fuel v acc <> None.
Proof.
  induction fuel as [|fuel IH]; intros v acc Hv Hf; [lia|]. cbn [itoa_loop]. destruct (Z.ltb_spec 0 (v / 10)); [|discriminate].
  rewrite Nat2Z.inj_succ, Z.pow_succ_r in Hv by lia. destruct fuel as [|fuel]; [cbn in Hv; lia|]. apply IH; lia.
Qed.

Theorem simple_itoa_prints i : 0 <= i < 2 ^ 32 -> simple_itoa i = Some (Strto.print_base 10 i).
Proof. intros Hi. apply (itoa_loop_print 32); [exact Hi| |lia]. apply itoa_loop_total; lia. Qed.

End Printf.
