(* ===== verification/HashTable.v ===== *)
(** * HashTable: the boot loader's environment table

    U-Boot's lib/hashtable.c and include/search.h: open addressing with double
    hashing over a prime number of slots, deleted slots marked with [-1], and the
    textual import and export of the environment.  Strings are lists of non-NUL
    characters (their C representation and [strcmp] are in CString.v); the
    table owns copies of them.  [strdup], [calloc] and the look-up of callbacks
    and flags (env/callback.c, env/flags.c) are parameters. *)

From stdpp Require Import base list option.
From Stdlib Require Import ZifyBool Znumtheory.
From S2P Require Import Prelude.

Module HashTable.

Abbreviation str := (list Z).

(** ** Data *)

Inductive env_op := env_op_create | env_op_delete | env_op_overwrite.
Inductive ACTION := FIND | ENTER.

Record ENTRY := Entry {
  key : str;
  data : option str;                                       (* NULL is [None] *)
  callback : option (str -> option str -> env_op -> Z -> Z);
  flags : Z;
}.

(** A slot: [used] is 0 when never used, -1 when deleted, else the first hash. *)
Record _ENTRY := Slot { used : Z; entry : ENTRY }.

Record hsearch_data := Htab {
  table : option (list _ENTRY);                            (* NULL is [None] *)
  size : Z;
  filled : Z;
  change_ok : option (ENTRY -> option str -> env_op -> Z -> Z);
}.

Definition EPERM : Z := 1.
Definition ESRCH : Z := 3.
Definition ENOMEM : Z := 12.
Definition EINVAL : Z := 22.

Definition H_NOCLEAR : Z := Z.shiftl 1 0.
Definition H_FORCE : Z := Z.shiftl 1 1.
Definition H_INTERACTIVE : Z := Z.shiftl 1 2.
Definition H_HIDE_DOT : Z := Z.shiftl 1 3.
Definition H_MATCH_KEY : Z := Z.shiftl 1 4.
Definition H_MATCH_DATA : Z := Z.shiftl 1 5.
Definition H_MATCH_IDENT : Z := Z.shiftl 1 6.
Definition H_MATCH_SUBSTR : Z := Z.shiftl 1 7.
Definition H_MATCH_REGEX : Z := Z.shiftl 1 8.
Definition H_MATCH_METHOD : Z := Z.lor (Z.lor H_MATCH_IDENT H_MATCH_SUBSTR) H_MATCH_REGEX.

Definition CONFIG_ENV_MIN_ENTRIES : Z := 64.
Definition CONFIG_ENV_MAX_ENTRIES : Z := 512.

Definition empty_entry : ENTRY := Entry [] None None 0.
Definition empty_slot : _ENTRY := Slot 0 empty_entry.

(** [htab->table[i]]; [None] is an access outside the table. *)
Definition slot_at (t : list _ENTRY) (i : Z) : option _ENTRY :=
  if 0 <=? i then t !! Z.to_nat i else None.

Definition set_table (h : hsearch_data) (t : list _ENTRY) : hsearch_data :=
  Htab (Some t) (size h) (filled h) (change_ok h).
Definition set_filled (h : hsearch_data) (n : Z) : hsearch_data :=
  Htab (table h) (size h) n (change_ok h).
Definition set_slot (h : hsearch_data) (t : list _ENTRY) (i : Z) (s : _ENTRY) : hsearch_data :=
  set_table h (<[Z.to_nat i := s]> t).

Definition str_eqb (a b : str) : bool := bool_decide (a = b).

(** ** Creating and destroying *)

Fixpoint isprime_loop (fuel : nat) (number div : Z) : option bool :=
  match fuel with
  | O => None
  | S n =>
    if (u32 (div * div) <? number) && negb (number mod div =? 0)
    then isprime_loop n number (div + 2)
    else Some (negb (number mod div =? 0))
  end.

Definition isprime (number : Z) : option bool := isprime_loop (S (Z.to_nat (Z.sqrt number))) number 3.

Fixpoint next_prime (fuel : nat) (nel : Z) : option Z :=
  match fuel with
  | O => None
  | S n => p ← isprime nel; if (p : bool) then Some nel else next_prime n (nel + 2)
  end.

Section Run.
Context (strdup : str -> option str) (calloc : Z -> bool).
Context (env_callback_init env_flags_init : ENTRY -> ENTRY).

(** [htab == NULL] is not representable.  [None] is a search for a prime that
    outlasts its fuel. *)
Definition hcreate_r (fuel : nat) (nel : Z) (h : hsearch_data) : option (Z * hsearch_data) :=
  if table h is Some _ then Some (0, h) else
  nel ← next_prime fuel (Z.lor nel 1);
  if calloc (nel + 1)
  then Some (1, Htab (Some (replicate (Z.to_nat (nel + 1)) empty_slot)) nel 0 (change_ok h))
  else Some (0, Htab None nel 0 (change_ok h)).

(** The entries are freed; [size] and [filled] keep their values. *)
Definition hdestroy_r (h : hsearch_data) : hsearch_data :=
  Htab None (size h) (filled h) (change_ok h).

(** ** Searching *)

(** The result of a search: the return value, [*retval] as the index of the
    entry, [errno] if it was set, and the table. *)
Record result := Result { ret : Z; retval : option Z; errno : option Z; htab : hsearch_data }.

Definition hash_string (s : str) : Z :=
  fold_right (fun c hval => u32 (u32 (Z.shiftl hval 4) + c)) (Z.of_nat (length s)) s.

Definition first_hash (s : str) (sz : Z) : Z :=
  let hval := hash_string s mod sz in if hval =? 0 then hval + 1 else hval.

Definition second_hash (hval sz : Z) : Z := 1 + hval mod u32 (sz - 2).

Definition next_idx (sz hval2 idx : Z) : Z :=
  if idx <=? hval2 then sz + idx - hval2 else idx - hval2.

Definition with_data (s : _ENTRY) (d : option str) : _ENTRY :=
  Slot (used s) (Entry (key (entry s)) d (callback (entry s)) (flags (entry s))).

(** [Some None] is -1: keep searching. *)
Definition _compare_and_overwrite_entry (h : hsearch_data) (t : list _ENTRY) (item : ENTRY)
    (action : ACTION) (flag hval idx : Z) : option (option result) :=
  s ← slot_at t idx;
  if (used s =? hval) && str_eqb (key item) (key (entry s)) then
    match action, data item with
    | ENTER, Some d =>
      if match change_ok h with
         | Some ok => negb (ok (entry s) (Some d) env_op_overwrite flag =? 0)
         | None => false
         end
      then Some (Some (Result 0 None (Some EPERM) h)) else
      if match callback (entry s) with
         | Some cb => negb (cb (key item) (Some d) env_op_overwrite flag =? 0)
         | None => false
         end
      then Some (Some (Result 0 None (Some EINVAL) h)) else
      let h' := set_slot h t idx (with_data s (strdup d)) in
      match strdup d with
      | None => Some (Some (Result 0 None (Some ENOMEM) h'))
      | Some _ => Some (Some (Result idx (Some idx) None h'))
      end
    | _, _ => Some (Some (Result idx (Some idx) None h))
    end
  else Some None.

(** Where the probing stops: at an entry with the key, or at a slot to use. *)
Inductive probe := Found (r : result) | Stopped (idx : Z).

Fixpoint probe_loop (fuel : nat) (h : hsearch_data) (t : list _ENTRY) (item : ENTRY)
    (action : ACTION) (flag hval hval2 idx : Z) : option probe :=
  match fuel with
  | O => None
  | S n =>
    let idx := next_idx (size h) hval2 idx in
    if idx =? hval then Some (Stopped idx) else
    r ← _compare_and_overwrite_entry h t item action flag hval idx;
    match r with
    | Some r => Some (Found r)
    | None =>
      s ← slot_at t idx;
      if used s =? 0 then Some (Stopped idx)
      else probe_loop n h t item action flag hval hval2 idx
    end
  end.

(** [_hdelete]: the strings are freed and the slot is marked deleted. *)
Definition _hdelete (h : hsearch_data) (t : list _ENTRY) (idx : Z) : option hsearch_data :=
  s ← slot_at t idx;
  let e := Entry (key (entry s)) (data (entry s)) None 0 in
  Some (set_filled (set_slot h t idx (Slot (-1) e)) (u32 (filled h - 1))).

(** The second half of [hsearch_r]: a new entry in slot [idx]. *)
Definition enter_new (h : hsearch_data) (t : list _ENTRY) (item : ENTRY) (flag hval idx : Z) : option result :=
  if filled h =? size h then Some (Result 0 None (Some ENOMEM) h) else
  s ← slot_at t idx;
  match strdup (key item), d ← data item; strdup d with
  | Some k, Some d =>
    let e := Entry k (Some d) (callback (entry s)) (flags (entry s)) in
    let e := env_flags_init (env_callback_init e) in
    let t := <[Z.to_nat idx := Slot hval e]> t in
    let h := set_filled (set_table h t) (u32 (filled h + 1)) in
    if match change_ok h with
       | Some ok => negb (ok e (data item) env_op_create flag =? 0)
       | None => false
       end
    then h ← _hdelete h t idx; Some (Result 0 None (Some EPERM) h) else
    if match callback e with
       | Some cb => negb (cb (key item) (data item) env_op_create flag =? 0)
       | None => false
       end
    then h ← _hdelete h t idx; Some (Result 0 None (Some EINVAL) h) else
    Some (Result 1 (Some idx) None h)
  | k, d =>
    let e := Entry (default [] k) d (callback (entry s)) (flags (entry s)) in
    Some (Result 0 None (Some ENOMEM) (set_slot h t idx (Slot hval e)))
  end.

Definition hsearch_r (item : ENTRY) (action : ACTION) (h : hsearch_data) (flag : Z) : option result :=
  t ← table h;
  let hval := first_hash (key item) (size h) in
  s ← slot_at t hval;
  let first_deleted := if used s =? -1 then hval else 0 in
  p ←
    (if used s =? 0 then Some (Stopped hval) else
     r ← _compare_and_overwrite_entry h t item action flag hval hval;
     match r with
     | Some r => Some (Found r)
     | None => probe_loop (Z.to_nat (size h)) h t item action flag hval (second_hash hval (size h)) hval
     end);
  match p with
  | Found r => Some r
  | Stopped idx =>
    match action with
    | ENTER => enter_new h t item flag hval (if first_deleted =? 0 then idx else first_deleted)
    | FIND => Some (Result 0 None (Some ESRCH) h)
    end
  end.

(** The return value, [errno] and the table. *)
Definition hdelete_r (k : str) (h : hsearch_data) (flag : Z) : option (Z * option Z * hsearch_data) :=
  r ← hsearch_r (Entry k None None 0) FIND h 0;
  let idx := ret r in
  if idx =? 0 then Some (0, Some ESRCH, h) else
  t ← table h;
  s ← slot_at t idx;
  if match change_ok h with
     | Some ok => negb (ok (entry s) None env_op_delete flag =? 0)
     | None => false
     end
  then Some (0, Some EPERM, h) else
  if match callback (entry s) with
     | Some cb => negb (cb k None env_op_delete flag =? 0)
     | None => false
     end
  then Some (0, Some EINVAL, h) else
  h ← _hdelete h t idx;
  Some (1, None, h).

(** [for (idx = last_idx + 1; idx < htab->size; ++idx)], the match by prefix. *)
Fixpoint match_loop (fuel : nat) (h : hsearch_data) (t : list _ENTRY) (mtch : str) (idx : Z) : option Z :=
  match fuel with
  | O => None
  | S n =>
    if idx <? size h then
      s ← slot_at t idx;
      if used s <=? 0 then match_loop n h t mtch (idx + 1) else
      if str_eqb mtch (take (length mtch) (key (entry s))) then Some idx
      else match_loop n h t mtch (idx + 1)
    else Some 0
  end.

Definition hmatch_r (mtch : str) (last_idx : Z) (h : hsearch_data) : option Z :=
  t ← table h; match_loop (S (Z.to_nat (size h))) h t mtch (last_idx + 1).

(** [hwalk_r] stops at the first entry whose callback returns nonzero; [k]
    iterations are left. *)
Fixpoint walk_loop (k : nat) (t : list _ENTRY) (cb : ENTRY -> Z) (i : Z) : option Z :=
  match k with
  | O => Some 0
  | S k =>
    s ← slot_at t i;
    if 0 <? used s then
      let retval := cb (entry s) in
      if retval =? 0 then walk_loop k t cb (i + 1) else Some retval
    else walk_loop k t cb (i + 1)
  end.

Definition hwalk_r (h : hsearch_data) (cb : ENTRY -> Z) : option Z :=
  t ← table h; walk_loop (Z.to_nat (size h)) t cb 1.

End Run.

(** ** The probe sequence *)

Section Probing.
Context (p h s : Z) (Hp : Z.prime p) (Hh : 1 <= h <= p) (Hs : 1 <= s < p).

Definition probe_at (j : nat) : Z := Nat.iter j (next_idx p s) h.

Lemma next_idx_range idx : 1 <= idx <= p -> 1 <= next_idx p s idx <= p.
Proof. intros H. unfold next_idx. case_bools; lia. Qed.

Lemma next_idx_mod idx : (next_idx p s idx) mod p = (idx - s) mod p.
Proof.
  unfold next_idx. case_bools; [|reflexivity].
  replace (p + idx - s) with (idx - s + 1 * p) by lia. apply Z.mod_add. lia.
Qed.

Lemma probe_at_range j : 1 <= probe_at j <= p.
Proof. induction j; [exact Hh|]. unfold probe_at. rewrite Nat.iter_succ. apply next_idx_range. exact IHj. Qed.

Lemma probe_at_succ j : probe_at (S j) = next_idx p s (probe_at j).
Proof. apply Nat.iter_succ. Qed.

Lemma probe_at_mod j : probe_at j mod p = (h - Z.of_nat j * s) mod p.
Proof.
  induction j as [|j IH]; [change (probe_at 0) with h; f_equal; lia|]. rewrite probe_at_succ, next_idx_mod.
  rewrite <- Zminus_mod_idemp_l, IH, Zminus_mod_idemp_l. f_equal. lia.
Qed.

(** Indices between 1 and [p] are told apart by their remainder. *)
Lemma index_inj a b : 1 <= a <= p -> 1 <= b <= p -> a mod p = b mod p -> a = b.
Proof.
  intros Ha Hb E. destruct (Z.eq_dec a p) as [->|Hna], (Z.eq_dec b p) as [->|Hnb]; auto.
  - rewrite Z.mod_same, Z.mod_small in E by lia. lia.
  - rewrite Z.mod_same, Z.mod_small in E by lia. lia.
  - rewrite !Z.mod_small in E by lia. exact E.
Qed.

(** The step is invertible modulo the prime: within one round no slot repeats ... *)
Lemma probe_at_inj i j : (i < Z.to_nat p)%nat -> (j < Z.to_nat p)%nat -> probe_at i = probe_at j -> i = j.
Proof.
  intros Hi Hj E. assert (Hd : (p | (Z.of_nat i - Z.of_nat j) * s)).
  { apply Z.mod_divide; [lia|]. assert ((h - Z.of_nat j * s) mod p = (h - Z.of_nat i * s) mod p) as E'
      by (rewrite <- !probe_at_mod; congruence).
    replace ((Z.of_nat i - Z.of_nat j) * s) with ((h - Z.of_nat j * s) - (h - Z.of_nat i * s)) by lia.
    rewrite Zminus_mod, E', Z.sub_diag. apply Z.mod_0_l. lia. }
  apply Z.divide_prime_mul in Hd; [|exact Hp]. destruct Hd as [ [q Hq] | [q Hq] ].
  - assert (q = 0) as ->; [|lia]. destruct (Z.lt_trichotomy q 0) as [Hlt|[?|Hgt]]; [exfalso|assumption|exfalso].
    + assert (q * p <= -1 * p) by (apply Z.mul_le_mono_nonneg_r; lia). lia.
    + assert (1 * p <= q * p) by (apply Z.mul_le_mono_nonneg_r; lia). lia.
  - exfalso. destruct (Z.le_gt_cases q 0).
    + assert (q * p <= 0 * p) by (apply Z.mul_le_mono_nonneg_r; lia). lia.
    + assert (1 * p <= q * p) by (apply Z.mul_le_mono_nonneg_r; lia). lia.
Qed.

(** ... every slot is reached ... *)
Lemma probe_at_surj i : 1 <= i <= p -> exists j, (j < Z.to_nat p)%nat /\ probe_at j = i.
Proof.
  intros Hi. assert (Z.coprime p s) as Hrel by (apply Z.coprime_prime_small; assumption).
  apply Z.Bezout_coprime in Hrel as (v & u & Huv).
  exists (Z.to_nat (((h - i) * u) mod p)). pose proof (Z.mod_pos_bound ((h - i) * u) p ltac:(lia)) as Hb.
  split; [lia|]. apply index_inj; [apply probe_at_range|exact Hi|].
  rewrite probe_at_mod, Z2Nat.id by lia.
  rewrite <- Zminus_mod_idemp_r, Z.mul_mod_idemp_l, Zminus_mod_idemp_r by lia.
  replace (h - (h - i) * u * s) with (i + ((h - i) * v) * p) by nia. apply Z.mod_add. lia.
Qed.

(** ... and after [p] steps the probe is back at its start, and not before. *)
Lemma probe_at_cycle j : (0 < j <= Z.to_nat p)%nat -> probe_at j = h <-> j = Z.to_nat p.
Proof.
  intros Hj. split.
  - intros E. destruct (decide (j < Z.to_nat p)%nat) as [Hlt|]; [|lia].
    assert (j = 0%nat) by (apply probe_at_inj; [lia|lia|exact E]). lia.
  - intros ->. apply index_inj; [apply probe_at_range|exact Hh|]. rewrite probe_at_mod, Z2Nat.id by lia.
    replace (h - p * s) with (h + (- s) * p) by lia. apply Z.mod_add. lia.
Qed.

End Probing.

(** ** Tables that respect the probing *)

Section Invariant.
Context (h : hsearch_data) (t : list _ENTRY).

Definition fh (k : str) : Z := first_hash k (size h).
Definition sh (k : str) : Z := second_hash (fh k) (size h).
Definition probe_of (k : str) (j : nat) : Z := probe_at (size h) (fh k) (sh k) j.

(** The [used] field of slot [i]. *)
Definition used_at (i : Z) : Z := match slot_at t i with Some s => used s | None => 0 end.

(** The slots probed for [k] before the [j]-th are not empty. *)
Definition chain (k : str) (j : nat) : Prop := forall l, (l < j)%nat -> used_at (probe_of k l) <> 0.

Definition in_table (i : Z) : Prop := 1 <= i <= size h.

Definition live_at (i : Z) (s : _ENTRY) : Prop := in_table i /\ slot_at t i = Some s /\ 0 < used s.

Definition present (k : str) : Prop := exists i s, live_at i s /\ key (entry s) = k.

(** The contents of the table as a relation between names and values. *)
Definition holds (k : str) (d : str) : Prop :=
  exists i s, live_at i s /\ key (entry s) = k /\ data (entry s) = Some d.

Record inv : Prop := {
  i_table : table h = Some t;
  i_len : Z.of_nat (length t) = size h + 1;
  i_prime : Z.prime (size h);
  i_size : 5 <= size h < 2 ^ 31;
  i_live : forall i s, live_at i s -> used s = fh (key (entry s)) /\
    exists j, (j < Z.to_nat (size h))%nat /\ probe_of (key (entry s)) j = i /\ chain (key (entry s)) j;
  i_unique : forall i i' s s', live_at i s -> live_at i' s' -> key (entry s) = key (entry s') -> i = i';
  i_data : forall i s, live_at i s -> data (entry s) <> None;
}.

Lemma slot_exists i : inv -> 0 <= i <= size h -> exists s, slot_at t i = Some s.
Proof.
  intros [] Hi. unfold slot_at. replace (0 <=? i) with true by lia. apply lookup_lt_is_Some_2. lia.
Qed.

Lemma fh_range k : 5 <= size h -> 1 <= fh k <= size h - 1.
Proof.
  intros Hs. unfold fh, first_hash. pose proof (Z.mod_pos_bound (hash_string k) (size h) ltac:(lia)). case_bools; lia.
Qed.

Lemma sh_range k : 5 <= size h < 2 ^ 31 -> 1 <= sh k < size h.
Proof.
  intros Hs. unfold sh, second_hash. rewrite u32_small by lia.
  pose proof (Z.mod_pos_bound (fh k) (size h - 2) ltac:(lia)). lia.
Qed.

Lemma probe_of_range k j : inv -> in_table (probe_of k j).
Proof.
  intros []. apply probe_at_range; [pose proof (fh_range k); lia|apply sh_range; assumption].
Qed.

Lemma probe_of_surj k i : inv -> in_table i -> exists j, (j < Z.to_nat (size h))%nat /\ probe_of k j = i.
Proof.
  intros [] Hi. apply probe_at_surj; auto; [pose proof (fh_range k); lia|apply sh_range; assumption].
Qed.

Lemma probe_of_cycle k j : inv -> (0 < j <= Z.to_nat (size h))%nat -> probe_of k j = fh k <-> j = Z.to_nat (size h).
Proof.
  intros [] Hj. apply probe_at_cycle; auto; [pose proof (fh_range k); lia|apply sh_range; assumption].
Qed.

Lemma probe_of_succ k j : probe_of k (S j) = next_idx (size h) (sh k) (probe_of k j).
Proof. apply Nat.iter_succ. Qed.

(** The test of [_compare_and_overwrite_entry]. *)
Definition hit (k : str) (i : Z) : Prop :=
  exists s, slot_at t i = Some s /\ used s = fh k /\ key (entry s) = k.

Lemma hit_live k i : inv -> in_table i -> hit k i <-> exists s, live_at i s /\ key (entry s) = k.
Proof.
  intros Hinv Hi. split.
  - intros (s & Hs & Hu & Hk). exists s. split; [|exact Hk]. split_and!; auto.
    pose proof (fh_range k). destruct Hinv. lia.
  - intros (s & (_ & Hs & Hu) & Hk). exists s. split_and!; auto.
    destruct Hinv as [_ _ _ _ Hl _ _]. destruct (Hl i s) as [-> _]; [split_and!; auto|]. congruence.
Qed.

(** No hit up to an empty slot, or in a whole round, means the key is absent. *)
Lemma absent_at_empty k j : inv -> (j < Z.to_nat (size h))%nat -> used_at (probe_of k j) = 0 ->
  (forall l, (l <= j)%nat -> ~ hit k (probe_of k l)) -> ~ present k.
Proof.
  intros Hinv Hj He Hno (i & s & Hl & Hk). pose proof Hl as (Hi & Hs & Hu).
  pose proof Hinv as [_ _ _ _ Hlive _ _]. destruct (Hlive i s Hl) as (Hus & J & HJ & Hpi & Hch). rewrite Hk in *.
  destruct (decide (J <= j)%nat) as [Hle|Hgt].
  - apply (Hno J Hle). rewrite Hpi. apply hit_live; eauto.
  - apply (Hch j); [lia|exact He].
Qed.

Lemma absent_after_round k : inv ->
  (forall l, (l < Z.to_nat (size h))%nat -> ~ hit k (probe_of k l)) -> ~ present k.
Proof.
  intros Hinv Hno (i & s & Hl & Hk). destruct (probe_of_surj k i Hinv (proj1 Hl)) as (j & Hj & <-).
  apply (Hno j Hj). apply hit_live; [exact Hinv|exact (proj1 Hl)|eauto].
Qed.

End Invariant.

Section Search.
Context (strdup : str -> option str).
Context (env_callback_init env_flags_init : ENTRY -> ENTRY).
Context (h : hsearch_data) (t : list _ENTRY) (Hinv : inv h t).

Abbreviation compare := (_compare_and_overwrite_entry strdup h t).

Lemma compare_miss item action flag i s : slot_at t i = Some s -> ~ hit h t (key item) i ->
  compare item action flag (fh h (key item)) i = Some None.
Proof.
  intros Hs Hno. unfold _compare_and_overwrite_entry. rewrite Hs. cbn [mbind option_bind].
  destruct ((used s =? fh h (key item)) && str_eqb (key item) (key (entry s))) eqn:E; [|reflexivity].
  exfalso. apply Hno. apply andb_true_iff in E as [E1 E2]. unfold str_eqb in E2. apply bool_decide_eq_true in E2.
  exists s. split_and!; auto. lia.
Qed.

Lemma compare_hit item action flag i : hit h t (key item) i ->
  exists r, compare item action flag (fh h (key item)) i = Some (Some r).
Proof.
  intros (s & Hs & Hu & Hk). unfold _compare_and_overwrite_entry. rewrite Hs. cbn [mbind option_bind].
  replace (used s =? fh h (key item)) with true by lia.
  unfold str_eqb. rewrite bool_decide_eq_true_2 by congruence. cbn [andb].
  destruct action, (data item); eauto. repeat case_match; eauto.
Qed.

Lemma hit_dec k i : {hit h t k i} + {~ hit h t k i}.
Proof.
  destruct (slot_at t i) as [s|] eqn:Es.
  - destruct (Z.eq_dec (used s) (fh h k)) as [Hu|Hu].
    + destruct (decide (key (entry s) = k)) as [Hk|Hk]; [left; exists s; auto|right].
      intros (s' & E & _ & Hk'). rewrite Es in E. injection E as <-. contradiction.
    + right. intros (s' & E & Hu' & _). rewrite Es in E. injection E as <-. contradiction.
  - right. intros (s' & E & _). congruence.
Qed.

(** Where a search for [item] ends. *)
Inductive outcome (item : ENTRY) (action : ACTION) (flag : Z) : probe -> Prop :=
| hit_at i r : in_table h i -> hit h t (key item) i ->
    compare item action flag (fh h (key item)) i = Some (Some r) -> outcome item action flag (Found r)
| empty_at j : (j < Z.to_nat (size h))%nat -> used_at t (probe_of h (key item) j) = 0 ->
    chain h t (key item) j -> ~ present h t (key item) -> outcome item action flag (Stopped (probe_of h (key item) j))
| round_done : (forall i, in_table h i -> used_at t i <> 0) -> ~ present h t (key item) ->
    outcome item action flag (Stopped (fh h (key item))).

Lemma probe_loop_outcome item action flag : forall fuel j, let k := key item in
  (j < Z.to_nat (size h))%nat -> (Z.to_nat (size h) - j <= fuel)%nat ->
  chain h t k (S j) -> (forall l, (l <= j)%nat -> ~ hit h t k (probe_of h k l)) ->
  exists pr, probe_loop strdup fuel h t item action flag (fh h k) (sh h k) (probe_of h k j) = Some pr /\
    outcome item action flag pr.
Proof.
  intros fuel. induction fuel as [|fuel IH]; intros j k Hj Hf Hch Hno; [lia|]. cbn [probe_loop].
  rewrite <- probe_of_succ. pose proof (probe_of_cycle h t k (S j) Hinv ltac:(lia)) as Hcyc.
  destruct (Z.eqb_spec (probe_of h k (S j)) (fh h k)) as [E|E].
  - eexists. split; [reflexivity|]. rewrite E. apply Hcyc in E. apply round_done.
    + intros i Hi. destruct (probe_of_surj h t k i Hinv Hi) as (l & Hl & <-). apply Hch. lia.
    + apply (absent_after_round h t k Hinv). intros l Hl. apply Hno. lia.
  - assert (S j < Z.to_nat (size h))%nat as HSj by (destruct (decide (S j = Z.to_nat (size h))); [tauto|lia]).
    pose proof (probe_of_range h t k (S j) Hinv) as Hr. unfold in_table in Hr.
    destruct (slot_exists h t (probe_of h k (S j)) Hinv ltac:(lia)) as [s Hs].
    destruct (hit_dec k (probe_of h k (S j))) as [Hhit|Hmiss].
    + destruct (compare_hit item action flag _ Hhit) as [r Er]. fold k in Er. rewrite Er. cbn [mbind option_bind].
      eexists. split; [reflexivity|]. eapply hit_at; [exact Hr|exact Hhit|exact Er].
    + pose proof (compare_miss item action flag _ s Hs Hmiss) as Em. fold k in Em. rewrite Em.
      cbn [mbind option_bind]. rewrite Hs. cbn [mbind option_bind].
      assert (forall l, (l <= S j)%nat -> ~ hit h t k (probe_of h k l)) as Hno'.
      { intros l Hl. destruct (decide (l = S j)) as [->|]; [exact Hmiss|]. apply Hno. lia. }
      assert (used_at t (probe_of h k (S j)) = used s) as Hus by (unfold used_at; rewrite Hs; reflexivity).
      destruct (Z.eqb_spec (used s) 0) as [E0|E0].
      * eexists. split; [reflexivity|]. apply empty_at; [exact HSj|exact (eq_trans Hus E0)|exact Hch|].
        exact (absent_at_empty h t k (S j) Hinv HSj (eq_trans Hus E0) Hno').
      * apply IH; auto; [lia|]. intros l Hl. destruct (decide (l = S j)) as [->|]; [exact (fun E1 => E0 (eq_trans (eq_sym Hus) E1))|]. apply Hch. lia.
Qed.

(** The search part of [hsearch_r]. *)
Lemma search_outcome item action flag : let k := key item in
  exists s pr, slot_at t (fh h k) = Some s /\ outcome item action flag pr /\
    hsearch_r strdup env_callback_init env_flags_init item action h flag =
      match pr with
      | Found r => Some r
      | Stopped idx =>
        match action with
        | ENTER => enter_new strdup env_callback_init env_flags_init h t item flag (fh h k)
            (if (if used s =? -1 then fh h k else 0) =? 0 then idx else if used s =? -1 then fh h k else 0)
        | FIND => Some (Result 0 None (Some ESRCH) h)
        end
      end.
Proof.
  intros k. pose proof Hinv as [Ht Hlen Hp Hsz _ _ _]. pose proof (fh_range h k ltac:(lia)) as Hfh.
  destruct (slot_exists h t (fh h k) Hinv ltac:(lia)) as [s Hs]. exists s.
  assert (probe_of h k 0 = fh h k) as H0 by reflexivity.
  assert (used_at t (fh h k) = used s) as Hus by (unfold used_at; rewrite Hs; reflexivity).
  unfold hsearch_r. rewrite Ht. cbn [mbind option_bind]. fold (fh h (key item)). fold k. rewrite Hs. cbn [mbind option_bind].
  destruct (Z.eqb_spec (used s) 0) as [E0|E0].
  - exists (Stopped (fh h k)). split; [reflexivity|]. split; [|reflexivity]. rewrite <- H0. apply empty_at.
    + lia.
    + fold k. rewrite H0. congruence.
    + intros l Hl. lia.
    + apply (absent_at_empty h t k 0); auto; [lia|rewrite H0; congruence|].
      intros l Hl. replace l with 0%nat by lia. rewrite H0. intros (s' & Hs' & Hu & _).
      rewrite Hs in Hs'. injection Hs' as <-. lia.
  - destruct (hit_dec k (fh h k)) as [Hhit|Hmiss].
    + destruct (compare_hit item action flag _ Hhit) as [r Er]. fold k in Er. rewrite Er. cbn [mbind option_bind].
      exists (Found r). split; [reflexivity|]. split; [|reflexivity]. eapply hit_at; [|exact Hhit|exact Er]. unfold in_table. lia.
    + pose proof (compare_miss item action flag _ s Hs Hmiss) as Em. fold k in Em. rewrite Em.
      cbn [mbind option_bind]. fold (sh h k).
      destruct (probe_loop_outcome item action flag (Z.to_nat (size h)) 0) as (pr & Epr & Hout).
      * lia.
      * lia.
      * intros l Hl. replace l with 0%nat by lia. fold k. rewrite H0. congruence.
      * intros l Hl. replace l with 0%nat by lia. exact Hmiss.
      * fold k in Epr. rewrite H0 in Epr. rewrite Epr. cbn [mbind option_bind]. exists pr. auto.
Qed.

End Search.

(** ** Changing one slot *)

Section Update.
Context (h : hsearch_data) (t : list _ENTRY) (Hinv : inv h t).
Context (i : Z) (s' : _ENTRY) (Hi : in_table h i) (Hused : used s' <> 0).
Context (h' : hsearch_data) (Hsize : size h' = size h).
Abbreviation t' := (<[Z.to_nat i := s']> t).
Context (Htab : table h' = Some t').

Lemma slot_at_update x : slot_at t' x = if x =? i then Some s' else slot_at t x.
Proof.
  unfold slot_at. pose proof Hinv as [_ Hlen _ _ _ _ _]. unfold in_table in Hi.
  destruct (Z.eqb_spec x i) as [->|Hne].
  - replace (0 <=? i) with true by lia. apply list_lookup_insert_eq. lia.
  - destruct (Z.leb_spec 0 x); [|reflexivity]. apply list_lookup_insert_ne. lia.
Qed.

Lemma live_at_update x s : live_at h' t' x s <-> (x = i /\ s = s' /\ 0 < used s') \/ (x <> i /\ live_at h t x s).
Proof.
  unfold live_at, in_table. rewrite slot_at_update, Hsize. unfold in_table in Hi.
  destruct (Z.eqb_spec x i) as [->|Hne]; split.
  - intros (_ & [= <-] & H). auto.
  - intros [(_ & -> & H)|(Hne & _)]; [auto|contradiction].
  - intros H. right. auto.
  - intros [(-> & _)|(_ & H)]; [contradiction|exact H].
Qed.

Lemma probe_of_size k j : probe_of h' k j = probe_of h k j.
Proof. unfold probe_of, sh, fh. rewrite Hsize. reflexivity. Qed.

Lemma chain_update k j : chain h t k j -> chain h' t' k j.
Proof.
  intros Hc l Hl. rewrite probe_of_size. unfold used_at. rewrite slot_at_update.
  destruct (probe_of h k l =? i); [exact Hused|]. exact (Hc l Hl).
Qed.

Lemma inv_update :
  (0 < used s' -> used s' = fh h (key (entry s')) /\ data (entry s') <> None /\
     (exists j, (j < Z.to_nat (size h))%nat /\ probe_of h (key (entry s')) j = i /\ chain h t (key (entry s')) j) /\
     (forall x s, x <> i -> live_at h t x s -> key (entry s) <> key (entry s'))) ->
  inv h' t'.
Proof.
  intros Hnew. pose proof Hinv as [_ Hlen Hp Hsz Hlive Huniq Hdata].
  constructor; rewrite ?Hsize, ?length_insert; auto.
  - intros x s Hl. assert (forall k, fh h' k = fh h k) as Hfh by (intros; unfold fh; rewrite Hsize; reflexivity).
    rewrite Hfh. apply live_at_update in Hl as [(-> & -> & Hpos)|(Hne & Hl)].
    + destruct (Hnew Hpos) as (Hu & _ & (j & Hj & Hpj & Hch) & _). split; [exact Hu|]. exists j.
      rewrite probe_of_size. auto using chain_update.
    + destruct (Hlive x s Hl) as (Hu & j & Hj & Hpj & Hch). split; [exact Hu|]. exists j.
      rewrite probe_of_size. auto using chain_update.
  - intros x y s1 s2 H1 H2 Hk. apply live_at_update in H1 as [(-> & -> & Hp1)|(Hn1 & H1)];
      apply live_at_update in H2 as [(-> & -> & Hp2)|(Hn2 & H2)]; auto.
    + exfalso. destruct (Hnew Hp1) as (_ & _ & _ & Hu). apply (Hu y s2 Hn2 H2). congruence.
    + exfalso. destruct (Hnew Hp2) as (_ & _ & _ & Hu). apply (Hu x s1 Hn1 H1). congruence.
    + exact (Huniq x y s1 s2 H1 H2 Hk).
  - intros x s Hl. apply live_at_update in Hl as [(-> & -> & Hpos)|(Hne & Hl)]; [apply (Hnew Hpos)|exact (Hdata x s Hl)].
Qed.

(** The contents after the change: slot [i] now counts as [s'] does, the others as
    before. *)
Lemma holds_update k d : holds h' t' k d <->
  (0 < used s' /\ key (entry s') = k /\ data (entry s') = Some d) \/
  (exists x s, x <> i /\ live_at h t x s /\ key (entry s) = k /\ data (entry s) = Some d).
Proof.
  split.
  - intros (x & s & Hl & Hk & Hd). apply live_at_update in Hl as [(-> & -> & Hpos)|(Hne & Hl)]; [left; auto|right; eauto 6].
  - intros [(Hpos & Hk & Hd)|(x & s & Hne & Hl & Hk & Hd)].
    + exists i, s'. split_and!; auto. apply live_at_update. auto.
    + exists x, s. split_and!; auto. apply live_at_update. auto.
Qed.

End Update.

Lemma holds_present h t k d : holds h t k d -> present h t k.
Proof. intros (i & s & Hl & Hk & _). exists i, s. auto. Qed.

(** Storing the value [d] for [k] and nothing else. *)
Definition stores (h : hsearch_data) (t : list _ENTRY) (k d : str) (h' : hsearch_data) (t' : list _ENTRY) : Prop :=
  inv h' t' /\ forall k' d', holds h' t' k' d' <-> (k' = k /\ d' = d) \/ (k' <> k /\ holds h t k' d').

(** A new value in the live slot of [k], or a new entry in a free one. *)
Lemma stores_update h t k d i s' h' : inv h t -> in_table h i -> size h' = size h ->
  table h' = Some (<[Z.to_nat i := s']> t) ->
  used s' = fh h k -> key (entry s') = k -> data (entry s') = Some d ->
  (forall s, live_at h t i s -> key (entry s) = k) ->
  (exists j, (j < Z.to_nat (size h))%nat /\ probe_of h k j = i /\ chain h t k j) ->
  (forall x s, x <> i -> live_at h t x s -> key (entry s) <> k) ->
  stores h t k d h' (<[Z.to_nat i := s']> t).
Proof.
  intros Hinv Hi Hsz Ht Hu Hk Hd Hold Hj Hoth. pose proof (fh_range h k ltac:(apply Hinv)) as Hfh.
  assert (used s' <> 0) as Hnz by lia. split.
  - apply (inv_update h t Hinv i s' Hi Hnz h' Hsz Ht). intros _. rewrite Hk. split_and!; auto. congruence.
  - intros k' d'. rewrite (holds_update h t Hinv i s' Hi h' Hsz). split.
    + intros [(_ & Hk' & Hd')|(x & s & Hne & Hl & Hk' & Hd')]; [left; split; congruence|right].
      split; [intros ->; exact (Hoth x s Hne Hl Hk')|exists x, s; auto].
    + intros [[-> ->]|[Hne (x & s & Hl & Hk' & Hd')]]; [left; split_and!; auto; lia|right].
      exists x, s. split_and!; auto. intros ->. apply Hne. rewrite <- Hk'. exact (Hold s Hl).
Qed.

(** ** The prime search and a fresh table *)

Lemma no_small_divisor n div : 3 <= div -> n <= div * div -> n mod div <> 0 -> 1 < n ->
  (forall d, 1 < d < div -> ~ (d | n)) -> Z.prime n.
Proof.
  intros Hd Hsq Hm Hn Hsmall. split; [exact Hn|]. intros d Hdn [e He].
  assert (~ (div | n)) as Hdiv by (intros Hx; apply Hm; apply Z.mod_divide; [lia|exact Hx]).
  destruct (Z.lt_trichotomy d div) as [Hlt|[->|Hgt]].
  - apply (Hsmall d); [lia|exists e; exact He].
  - apply Hdiv. exists e. exact He.
  - apply (Hsmall e); [|exists d; lia]. nia.
Qed.

Lemma isprime_loop_spec n : 3 < n < 2 ^ 31 -> Z.odd n = true -> forall fuel div,
  3 <= div < n -> Z.odd div = true -> (forall d, 1 < d < div -> ~ (d | n)) -> div <= Z.sqrt n + 2 ->
  Z.sqrt n < div + Z.of_nat fuel ->
  exists b, isprime_loop (S fuel) n div = Some b /\ (b = true <-> Z.prime n).
Proof.
  intros Hn Hodd. pose proof (Z.sqrt_spec n ltac:(lia)) as Hsq. cbv zeta in Hsq.
  assert (Z.sqrt n < 2 ^ 16 - 2) as Hs by (apply Z.sqrt_lt_square; lia).
  induction fuel as [|fuel IH]; intros div Hd Hdo Hsmall Hle Hf; cbn [isprime_loop];
    rewrite (u32_small (div * div)) by nia.
  all: destruct (Z.eqb_spec (n mod div) 0) as [E|E]; cbn [negb]; rewrite ?andb_false_r, ?andb_true_r.
  1,3: exists false; split; [reflexivity|split; [discriminate|]]; intros [_ Hp]; exfalso;
    apply (Hp div); [lia|apply Z.mod_divide; [lia|exact E]].
  - assert (n <= div * div) by nia.
    replace (div * div <? n) with false by lia. exists true. split; [reflexivity|split; [intros _|reflexivity]].
    apply (no_small_divisor n div); [lia|lia|exact E|lia|exact Hsmall].
  - destruct (Z.ltb_spec (div * div) n) as [Hlt|Hge].
    + apply IH; [nia| | |nia|lia].
      * rewrite Z.odd_add, Hdo. reflexivity.
      * intros d Hdd. destruct (Z.lt_trichotomy d div) as [?|[->|?]]; [apply Hsmall; lia| |].
        { intros Hx. apply E. apply Z.mod_divide; [lia|exact Hx]. }
        { replace d with (div + 1) by lia. intros [e He]. rewrite He, Z.odd_mul, Z.odd_add, Hdo, andb_comm in Hodd. discriminate. }
    + exists true. split; [reflexivity|split; [intros _|reflexivity]]. apply (no_small_divisor n div); [lia|lia|exact E|lia|exact Hsmall].
Qed.

(** [isprime] decides whether an odd number above 3 is prime. *)
Lemma isprime_spec n : 3 < n < 2 ^ 31 -> Z.odd n = true ->
  exists b, isprime n = Some b /\ (b = true <-> Z.prime n).
Proof.
  intros Hn Ho. apply isprime_loop_spec; auto; [lia|..].
  - intros d Hd. replace d with 2 by lia. intros [e He]. rewrite He, Z.odd_mul, andb_comm in Ho. discriminate.
  - pose proof (Z.sqrt_le_mono 4 n ltac:(lia)) as H. change (Z.sqrt 4) with 2 in H. lia.
  - pose proof (Z.sqrt_nonneg n). lia.
Qed.

Lemma prime_odd p : 3 < p -> Z.prime p -> Z.odd p = true.
Proof.
  intros Hp [_ Hd]. destruct (Z.odd p) eqn:E; [reflexivity|exfalso]. apply (Hd 2); [lia|].
  apply Z.mod_divide; [lia|]. rewrite Zmod_odd, E. reflexivity.
Qed.

(** The search for a prime ends at the first one, if there is one in reach. *)
Lemma next_prime_spec q : Z.prime q -> q < 2 ^ 31 -> forall fuel n,
  3 < n <= q -> Z.odd n = true -> q < n + 2 * Z.of_nat fuel ->
  exists p, next_prime fuel n = Some p /\ n <= p <= q /\ Z.prime p /\ forall x, n <= x < p -> ~ Z.prime x.
Proof.
  intros Hq Hq31. induction fuel as [|fuel IH]; intros n Hn Ho Hf; [lia|]. cbn [next_prime].
  destruct (isprime_spec n ltac:(lia) Ho) as (b & -> & Hb). cbn [mbind option_bind]. destruct b.
  { exists n. split_and!; [reflexivity|lia|lia|apply Hb; reflexivity|lia]. }
  assert (~ Z.prime n) as Hnp by (rewrite <- Hb; discriminate).
  assert (~ Z.prime (n + 1)) as Hnp1.
  { intros Hp. apply prime_odd in Hp; [|lia]. rewrite Z.odd_add, Ho in Hp. discriminate. }
  assert (n + 2 <= q) as Hle.
  { destruct (Z.eq_dec n q) as [->|]; [contradiction|]. destruct (Z.eq_dec (n + 1) q) as [<-|]; [contradiction|lia]. }
  destruct (IH (n + 2)) as (p & -> & Hp & Hpp & Hmin); [lia|rewrite Z.odd_add, Ho; reflexivity|lia|].
  exists p. split_and!; [reflexivity|lia|lia|exact Hpp|]. intros x Hx.
  destruct (Z.eq_dec x n) as [->|]; [exact Hnp|]. destruct (Z.eq_dec x (n + 1)) as [->|]; [exact Hnp1|]. apply Hmin. lia.
Qed.

Definition fresh (size : Z) (ok : option (ENTRY -> option str -> env_op -> Z -> Z)) : hsearch_data :=
  Htab (Some (replicate (Z.to_nat (size + 1)) empty_slot)) size 0 ok.

Definition slots (h : hsearch_data) : list _ENTRY := default [] (table h).

Lemma fresh_not_live p ok i s : ~ live_at (fresh p ok) (slots (fresh p ok)) i s.
Proof.
  intros (Hi & Hs & Hu). unfold slot_at in Hs. case_match; [|discriminate]. cbn [slots fresh table default] in Hs.
  apply lookup_replicate in Hs as [-> _]. cbn in Hu. lia.
Qed.

Lemma fresh_inv p ok : Z.prime p -> 5 <= p < 2 ^ 31 -> inv (fresh p ok) (slots (fresh p ok)).
Proof.
  intros Hp Hs. split; try (intros; exfalso; eapply fresh_not_live; eassumption); auto.
  unfold slots, fresh. cbn [table size default from_option id]. unfold id. rewrite length_replicate. lia.
Qed.

(** [hcreate_r] on a table that is not there makes an empty one, whose size is
    the first prime that is not below the number asked for; on one that is there
    it fails and changes nothing. *)
Theorem hcreate_makes calloc fuel nel h q : (forall n, calloc n = true) -> 3 < nel <= q -> Z.prime q -> q < 2 ^ 31 ->
  q < nel + 2 * Z.of_nat fuel ->
  match table h with
  | Some _ => hcreate_r calloc fuel nel h = Some (0, h)
  | None => exists p, hcreate_r calloc fuel nel h = Some (1, fresh p (change_ok h)) /\ nel <= p <= q /\
      (forall x, nel <= x < p -> ~ Z.prime x) /\ inv (fresh p (change_ok h)) (slots (fresh p (change_ok h))) /\
      forall k, ~ present (fresh p (change_ok h)) (slots (fresh p (change_ok h))) k
  end.
Proof.
  intros Hc Hn Hq Hq31 Hf. unfold hcreate_r. destruct (table h); [reflexivity|].
  assert (Z.odd q = true) as Hqo by (apply prime_odd; [lia|exact Hq]).
  assert (Z.lor nel 1 = if Z.odd nel then nel else nel + 1) as Hl.
  { destruct (Z.odd nel) eqn:Ho.
    - destruct nel as [|[]|[]]; try discriminate; try lia; reflexivity.
    - destruct nel as [|[]|[]]; try discriminate; try lia; reflexivity. }
  assert (nel <= Z.lor nel 1 <= q /\ Z.odd (Z.lor nel 1) = true /\ Z.lor nel 1 <= nel + 1) as (Hr & Ho & Hr1).
  { rewrite Hl. destruct (Z.odd nel) eqn:Ho; [lia|]. split_and!; try lia; [|rewrite Z.odd_add, Ho; reflexivity].
    destruct (Z.eq_dec nel q) as [->|]; [congruence|lia]. }
  destruct (next_prime_spec q Hq Hq31 fuel (Z.lor nel 1)) as (p & -> & Hp & Hpp & Hmin); [lia|exact Ho|lia|].
  assert (p <> 4) as Hp4 by (intros ->; apply prime_odd in Hpp; [discriminate|lia]).
  cbn [mbind option_bind]. rewrite Hc. exists p. split_and!; [reflexivity|lia|lia| |apply fresh_inv; [exact Hpp|lia]|].
  - intros x Hx. destruct (Z_lt_dec x (Z.lor nel 1)) as [Hlt|]; [|apply Hmin; lia]. rewrite Hl in Hlt.
    destruct (Z.odd nel) eqn:Hno; [lia|]. replace x with nel by lia. intros Hpr. apply prime_odd in Hpr; [congruence|lia].
  - intros k (i & s & Hl' & _). exact (fresh_not_live _ _ _ _ Hl').
Qed.

(** ** Matching by prefix *)

Definition matches (t : list _ENTRY) (mtch : str) (i : Z) : Prop :=
  exists s, slot_at t i = Some s /\ 0 < used s /\ mtch `prefix_of` key (entry s).

Lemma str_eqb_prefix a b : str_eqb a (take (length a) b) = true <-> a `prefix_of` b.
Proof.
  unfold str_eqb. rewrite bool_decide_eq_true. split.
  - intros E. exists (drop (length a) b). rewrite E at 1. symmetry. apply take_drop.
  - intros [c ->]. symmetry. apply take_app_length.
Qed.

Lemma match_loop_first h t mtch : inv h t -> forall fuel i, 0 <= i <= Z.max 1 (size h) -> size h <= i + Z.of_nat fuel ->
  exists r, match_loop (S fuel) h t mtch i = Some r /\
    ((i <= r < size h /\ matches t mtch r /\ forall x, i <= x < r -> ~ matches t mtch x) \/
     (r = 0 /\ forall x, i <= x < size h -> ~ matches t mtch x)).
Proof.
  intros Hinv. assert (forall i s, slot_at t i = Some s -> matches t mtch i -> 0 < used s /\ str_eqb mtch (take (length mtch) (key (entry s))) = true) as Hm.
  { intros i s Hs (s' & Hs' & Hu & Hp). rewrite Hs in Hs'. injection Hs' as <-. rewrite str_eqb_prefix. auto. }
  induction fuel as [|fuel IH]; intros i Hi Hf.
  { cbn [match_loop]. replace (i <? size h) with false by lia. exists 0. split; [reflexivity|right]. split; [reflexivity|]. lia. }
  remember (S fuel) as f eqn:Ef. cbn [match_loop]. subst f. destruct (Z.ltb_spec i (size h)) as [Hlt|Hge].
  2: { exists 0. split; [reflexivity|right]. split; [reflexivity|]. lia. }
  destruct (slot_exists h t i Hinv ltac:(lia)) as [s Hs]. rewrite Hs. cbn [mbind option_bind].
  destruct (Z.leb_spec (used s) 0) as [Hu|Hu].
  2: destruct (str_eqb _ _) eqn:E.
  2: { exists i. split; [reflexivity|left]. split_and!; [lia|lia| |lia]. exists s. rewrite str_eqb_prefix in E. auto. }
  all: destruct (IH (i + 1)) as (r & -> & Hr); [lia|lia|]; exists r; split; [reflexivity|];
    assert (~ matches t mtch i) as Hni by (intros H; destruct (Hm i s Hs H); [lia || congruence]);
    destruct Hr as [(Hr1 & Hr2 & Hr3)|[-> Hr]]; [left|right]; split_and!; auto; try lia;
    intros x Hx; (destruct (Z.eq_dec x i) as [->|]; [exact Hni|]); [apply Hr3|apply Hr]; lia.
Qed.

(** [hmatch_r] returns the first live slot above [last_idx] whose name starts
    with the prefix, or 0; the loop ends before the last slot, [htab->size],
    although the other operations use it. *)
Theorem hmatch_first h t mtch last : inv h t -> 0 <= last < size h ->
  exists r, hmatch_r mtch last h = Some r /\
    ((last < r < size h /\ matches t mtch r /\ forall x, last < x < r -> ~ matches t mtch x) \/
     (r = 0 /\ forall x, last < x < size h -> ~ matches t mtch x)).
Proof.
  intros Hinv Hl. unfold hmatch_r. rewrite (i_table h t Hinv). cbn [mbind option_bind].
  destruct (match_loop_first h t mtch Hinv (Z.to_nat (size h)) (last + 1)) as (r & -> & Hr); [lia|lia|].
  exists r. split; [reflexivity|]. destruct Hr as [(Hr & Hm & Hn)|[-> Hn]]; [left|right]; split_and!; auto; try lia;
    intros x Hx; apply Hn; lia.
Qed.

(** What the table relies on from its environment: enough memory for the copies,
    and look-ups of callbacks and flags that leave the strings alone. *)
Class Env (strdup : str -> option str) (cbi fli : ENTRY -> ENTRY) : Prop := {
  env_dup : forall s, strdup s = Some s;
  env_init : forall e, key (fli (cbi e)) = key e /\ data (fli (cbi e)) = data e;
}.

(** Neither [change_ok] nor a callback of the table or of a new entry objects. *)
Definition approving (cb : str -> option str -> env_op -> Z -> Z) : Prop := forall k d op fl, cb k d op fl = 0.

Record permissive (cbi fli : ENTRY -> ENTRY) (h : hsearch_data) (t : list _ENTRY) : Prop := {
  p_change : forall ok, change_ok h = Some ok -> forall e d op fl, ok e d op fl = 0;
  p_live : forall i s cb, live_at h t i s -> callback (entry s) = Some cb -> approving cb;
  p_new : forall e cb, callback (fli (cbi e)) = Some cb -> approving cb;
}.

Section Properties.
Context (strdup : str -> option str) (cbi fli : ENTRY -> ENTRY) `{!Env strdup cbi fli}.

Abbreviation search := (hsearch_r strdup cbi fli).

Lemma change_approved h t e d op fl : permissive cbi fli h t ->
  match change_ok h with Some ok => negb (ok e d op fl =? 0) | None => false end = false.
Proof. intros Hp. destruct (change_ok h) as [ok|] eqn:E; [|reflexivity]. rewrite (p_change _ _ h t Hp ok E). reflexivity. Qed.

Lemma callback_approved e k d op fl : (forall cb, callback e = Some cb -> approving cb) ->
  match callback e with Some cb => negb (cb k d op fl =? 0) | None => false end = false.
Proof. intros Hp. destruct (callback e) as [cb|]; [|reflexivity]. rewrite (Hp cb eq_refl). reflexivity. Qed.

(** An update of one slot, after which the environment still agrees to changes. *)
Definition grows (h : hsearch_data) (t : list _ENTRY) (h' : hsearch_data) (t' : list _ENTRY) : Prop :=
  permissive cbi fli h' t' /\ size h' = size h /\ (filled h' = filled h \/ filled h' = u32 (filled h + 1)) /\
  exists i s', in_table h i /\ t' = <[Z.to_nat i := s']> t.

Lemma permissive_update h t h' i s' : inv h t -> permissive cbi fli h t -> in_table h i -> size h' = size h ->
  change_ok h' = change_ok h -> (forall cb, callback (entry s') = Some cb -> approving cb) ->
  permissive cbi fli h' (<[Z.to_nat i := s']> t).
Proof.
  intros Hinv Hperm Hi Hsz Hok Hcb. split.
  - rewrite Hok. exact (p_change _ _ h t Hperm).
  - intros x s cb Hl. apply (live_at_update h t Hinv i s' Hi h' Hsz) in Hl as [(-> & -> & _)|[_ Hl]]; [apply Hcb|].
    exact (p_live _ _ h t Hperm x s cb Hl).
  - exact (p_new _ _ h t Hperm).
Qed.

(** Overwriting the entry that was found. *)
Lemma overwrite_stores h t item d flag i r : inv h t -> permissive cbi fli h t -> data item = Some d ->
  in_table h i -> hit h t (key item) i ->
  _compare_and_overwrite_entry strdup h t item ENTER flag (fh h (key item)) i = Some (Some r) ->
  ret r = i /\ exists t', stores h t (key item) d (htab r) t' /\ grows h t (htab r) t'.
Proof.
  intros Hinv Hperm Hd Hi Hhit. pose proof Hhit as (s & Hs & Hu & Hk).
  pose proof (proj1 (hit_live h t (key item) i Hinv Hi) Hhit) as (s0 & Hl & _).
  assert (s0 = s) as -> by (destruct Hl as (_ & E & _); congruence).
  unfold _compare_and_overwrite_entry. rewrite Hs. cbn [mbind option_bind].
  replace (used s =? fh h (key item)) with true by lia. unfold str_eqb.
  rewrite bool_decide_eq_true_2 by congruence. cbn [andb]. rewrite Hd, (change_approved h t) by exact Hperm.
  rewrite callback_approved by (intros cb; exact (p_live _ _ h t Hperm i s cb Hl)).
  rewrite env_dup. intros [= <-]. cbn [ret htab]. split; [reflexivity|].
  exists (<[Z.to_nat i := with_data s (Some d)]> t). split; [apply stores_update; auto|].
  4: { split_and!; auto; [|exists i; eauto]. apply (permissive_update h t); auto. intros cb. exact (p_live _ _ h t Hperm i s cb Hl). }
  - intros s1 (_ & E & _). rewrite Hs in E. injection E as <-. exact Hk.
  - destruct (i_live h t Hinv i s Hl) as (_ & j & Hj). rewrite Hk in Hj. exists j. exact Hj.
  - intros x s1 Hne Hl1 Hk1. apply Hne. apply (i_unique h t Hinv x i s1 s Hl1 Hl). congruence.
Qed.

(** A new entry in a slot that holds none. *)
Lemma enter_new_stores h t item d flag i : inv h t -> permissive cbi fli h t -> data item = Some d ->
  filled h <> size h -> in_table h i -> (forall s, ~ live_at h t i s) -> ~ present h t (key item) ->
  (exists j, (j < Z.to_nat (size h))%nat /\ probe_of h (key item) j = i /\ chain h t (key item) j) ->
  exists r t', enter_new strdup cbi fli h t item flag (fh h (key item)) i = Some r /\ ret r = 1 /\
    stores h t (key item) d (htab r) t' /\ grows h t (htab r) t'.
Proof.
  intros Hinv Hperm Hd Hnf Hi Hfree Habs Hj. unfold enter_new.
  replace (filled h =? size h) with false by lia.
  destruct (slot_exists h t i Hinv ltac:(unfold in_table in Hi; lia)) as [s Hs]. rewrite Hs. cbn [mbind option_bind].
  rewrite Hd. cbn [mbind option_bind]. rewrite !env_dup.
  set (e0 := Entry (key item) (Some d) (callback (entry s)) (flags (entry s))).
  destruct (env_init e0) as [Ek Ed]. set (e := fli (cbi e0)) in *.
  cbn [change_ok set_filled set_table]. rewrite (change_approved h t) by exact Hperm.
  rewrite callback_approved by (intros cb; exact (p_new _ _ h t Hperm e0 cb)).
  eexists _, (<[Z.to_nat i := Slot (fh h (key item)) e]> t). split; [reflexivity|]. cbn [ret retval htab].
  split_and!; auto; [apply stores_update; auto; cbn [entry used]|].
  3: { split_and!; auto; [|exists i; eauto]. apply (permissive_update h t); auto.
       intros cb. exact (p_new _ _ h t Hperm e0 cb). }
  - intros s1 Hl. destruct (Hfree s1 Hl).
  - intros x s1 _ Hl Hk. apply Habs. exists x, s1. auto.
Qed.

(** [hsearch_r] with [FIND] returns the index of the entry with the name, or 0 and
    [ESRCH] when the table holds none; the probing always ends. *)
Theorem hsearch_finds h t k flag : inv h t ->
  exists r, search (Entry k None None 0) FIND h flag = Some r /\ htab r = h /\
    ((exists i s, live_at h t i s /\ key (entry s) = k /\ ret r = i /\ retval r = Some i) \/
     (~ present h t k /\ ret r = 0 /\ retval r = None /\ errno r = Some ESRCH)).
Proof.
  intros Hinv. destruct (search_outcome strdup cbi fli h t Hinv (Entry k None None 0) FIND flag) as (s & pr & Hs & Hout & ->).
  destruct Hout as [i r Hi Hhit Er|j Hj He Hch Habs|Hall Habs]; cbn [key] in *.
  - exists r. split; [reflexivity|]. apply (hit_live h t k i Hinv Hi) in Hhit as (s1 & Hl & Hk).
    revert Er. unfold _compare_and_overwrite_entry. cbn [key]. destruct Hl as (Hi' & Hs1 & Hu). rewrite Hs1. cbn [mbind option_bind].
    case_match; intros [= <-]. cbn [htab]. split; [reflexivity|left].
    exists i, s1. split_and!; auto. split_and!; auto.
  - eexists. split; [reflexivity|]. split; [reflexivity|right]. auto.
  - eexists. split; [reflexivity|]. split; [reflexivity|right]. auto.
Qed.

Lemma enters h t item d flag : inv h t -> permissive cbi fli h t -> data item = Some d ->
  filled h <> size h ->
  present h t (key item) \/ used_at t (fh h (key item)) = -1 \/ (exists i, in_table h i /\ used_at t i = 0) ->
  exists r t', search item ENTER h flag = Some r /\ 0 < ret r /\ stores h t (key item) d (htab r) t' /\ grows h t (htab r) t'.
Proof.
  intros Hinv Hperm Hd Hnf Hroom.
  destruct (search_outcome strdup cbi fli h t Hinv item ENTER flag) as (s & pr & Hs & Hout & ->).
  pose proof (fh_range h (key item) ltac:(apply Hinv)) as Hfh.
  assert (used_at t (fh h (key item)) = used s) as Hus by (unfold used_at; rewrite Hs; reflexivity).
  assert (forall i, ~ present h t (key item) -> in_table h i -> used_at t i <= 0 ->
    (exists j, (j < Z.to_nat (size h))%nat /\ probe_of h (key item) j = i /\ chain h t (key item) j) ->
    exists r t', enter_new strdup cbi fli h t item flag (fh h (key item)) i = Some r /\ 0 < ret r /\
      stores h t (key item) d (htab r) t' /\ grows h t (htab r) t') as Hnew.
  { intros i Habs Hi Hle Hj. destruct (enter_new_stores h t item d flag i) as (r & t' & E & Hr & Hst & Hg); auto.
    - intros s1 (_ & Hs1 & Hu). unfold used_at in Hle. rewrite Hs1 in Hle. lia.
    - exists r, t'. rewrite Hr. split_and!; auto. lia. }
  assert (exists j, (j < Z.to_nat (size h))%nat /\ probe_of h (key item) j = fh h (key item) /\ chain h t (key item) j) as Hfirst.
  { exists 0%nat. split_and!; [lia|reflexivity|]. intros l Hl. lia. }
  destruct Hout as [i r Hi Hhit Er|j Hj He Hch Habs|Hall Habs].
  - destruct (overwrite_stores h t item d flag i r Hinv Hperm Hd Hi Hhit Er) as (Hr & t' & Hst & Hg).
    exists r, t'. split_and!; auto. unfold in_table in Hi. lia.
  - destruct (Z.eqb_spec (used s) (-1)) as [E1|E1].
    + replace (fh h (key item) =? 0) with false by lia. apply Hnew; auto; [unfold in_table; lia|lia].
    + cbn [Z.eqb]. apply Hnew; auto; [apply (probe_of_range h t); exact Hinv|lia|eauto].
  - destruct (Z.eqb_spec (used s) (-1)) as [E1|E1].
    + replace (fh h (key item) =? 0) with false by lia. apply Hnew; auto; [unfold in_table; lia|lia].
    + exfalso. destruct Hroom as [?|[?|(i & Hi & He)]]; [contradiction|congruence|exact (Hall i Hi He)].
Qed.

(** [hsearch_r] with [ENTER] stores the value under the name and changes nothing
    else, overwriting the entry that is there or using a free slot of the probe
    sequence, as long as the name is present, its first slot is a deleted one,
    or the table has a slot that was never used. *)
Theorem hsearch_enters h t item d flag : inv h t -> permissive cbi fli h t -> data item = Some d ->
  filled h <> size h ->
  present h t (key item) \/ used_at t (fh h (key item)) = -1 \/ (exists i, in_table h i /\ used_at t i = 0) ->
  exists r t', search item ENTER h flag = Some r /\ 0 < ret r /\ stores h t (key item) d (htab r) t'.
Proof.
  intros Hinv Hperm Hd Hnf Hroom. destruct (enters h t item d flag Hinv Hperm Hd Hnf Hroom) as (r & t' & E & Hr & Hst & _).
  exists r, t'. auto.
Qed.

(** When every slot is in use or deleted and the first slot probed is in use, a
    new name is written over the entry of that first slot, which is lost although
    the call succeeds. *)
Theorem hsearch_overwrites_live h t item d flag s : inv h t -> permissive cbi fli h t -> data item = Some d ->
  filled h <> size h -> (forall i, in_table h i -> used_at t i <> 0) -> ~ present h t (key item) ->
  live_at h t (fh h (key item)) s ->
  exists r t', search item ENTER h flag = Some r /\ ret r = 1 /\ table (htab r) = Some t' /\
    ~ present (htab r) t' (key (entry s)).
Proof.
  intros Hinv Hperm Hd Hnf Hall Habs Hlive.
  destruct (search_outcome strdup cbi fli h t Hinv item ENTER flag) as (s1 & pr & Hs1 & Hout & ->).
  pose proof Hlive as (Hi & Hs & Hu). rewrite Hs in Hs1. injection Hs1 as <-.
  replace (used s =? -1) with false by lia. cbn [Z.eqb].
  destruct Hout as [i r Hi' Hhit Er|j Hj He _ _|_ _].
  { exfalso. apply (hit_live h t _ i Hinv Hi') in Hhit as (s2 & Hl2 & Hk2). apply Habs. exists i, s2. auto. }
  { exfalso. apply (Hall (probe_of h (key item) j)); [apply (probe_of_range h t _ j Hinv)|exact He]. }
  unfold enter_new. replace (filled h =? size h) with false by lia. rewrite Hs. cbn [mbind option_bind].
  rewrite Hd. cbn [mbind option_bind]. rewrite !env_dup.
  set (e0 := Entry (key item) (Some d) (callback (entry s)) (flags (entry s))).
  destruct (env_init e0) as [Ek Ed]. set (e := fli (cbi e0)) in *.
  cbn [change_ok set_filled set_table]. rewrite (change_approved h t) by exact Hperm.
  rewrite callback_approved by (intros cb; exact (p_new _ _ h t Hperm e0 cb)).
  eexists _, _. split; [reflexivity|]. split; [reflexivity|]. split; [reflexivity|]. cbn [htab].
  intros (x & s2 & Hl2 & Hk2). apply (live_at_update h t Hinv _ (Slot (fh h (key item)) e) Hi _ eq_refl) in Hl2
    as [(-> & -> & _)|(Hne & Hl2)].
  - cbn [entry] in Hk2. apply Habs. exists (fh h (key item)), s. split; [exact Hlive|]. rewrite Ek in Hk2. symmetry. exact Hk2.
  - apply Hne. apply (i_unique h t Hinv x _ s2 s Hl2 Hlive). exact Hk2.
Qed.

Lemma deletes h t k flag : inv h t -> permissive cbi fli h t ->
  exists rc e h', hdelete_r strdup cbi fli k h flag = Some (rc, e, h') /\
    ((present h t k /\ rc = 1 /\ exists t', inv h' t' /\ permissive cbi fli h' t' /\
        forall k' d', holds h' t' k' d' <-> k' <> k /\ holds h t k' d') \/
     (~ present h t k /\ rc = 0 /\ e = Some ESRCH /\ h' = h)).
Proof.
  intros Hinv Hperm. unfold hdelete_r.
  destruct (search_outcome strdup cbi fli h t Hinv (Entry k None None 0) FIND 0) as (s0 & pr & Hs0 & Hout & ->).
  pose proof Hinv as [Ht _ _ _ _ _ _].
  destruct Hout as [i r Hi Hhit Er|j Hj He Hch Habs|Hall Habs]; cbn [key] in *.
  2,3: cbn [mbind option_bind ret Z.eqb]; eexists _, _, _; (split; [reflexivity|right]); auto.
  pose proof (proj1 (hit_live h t k i Hinv Hi) Hhit) as (s & Hl & Hk). pose proof Hl as (_ & Hs & Hu).
  assert (r = Result i (Some i) None h) as ->.
  { revert Er. unfold _compare_and_overwrite_entry. rewrite Hs. cbn [mbind option_bind]. case_match; congruence. }
  cbn [mbind option_bind ret]. unfold in_table in Hi. replace (i =? 0) with false by lia. rewrite Ht. cbn [mbind option_bind].
  rewrite Hs. cbn [mbind option_bind]. rewrite (change_approved h t) by exact Hperm.
  rewrite callback_approved by (intros cb; exact (p_live _ _ h t Hperm i s cb Hl)).
  unfold _hdelete. rewrite Hs. cbn [mbind option_bind]. eexists _, _, _. split; [reflexivity|left].
  split; [exists i, s; auto|]. split; [reflexivity|].
  set (s' := Slot (-1) _). exists (<[Z.to_nat i := s']> t). split_and!.
  - apply (inv_update h t Hinv i s' Hi); [discriminate|reflexivity|reflexivity|]. cbn [used s']. lia.
  - apply (permissive_update h t); auto; discriminate.
  - intros k' d'. rewrite (holds_update h t Hinv i s' Hi); [|reflexivity]. cbn [used s']. split.
    + intros [(Hx & _)|(x & s1 & Hne & Hl1 & Hk1 & Hd1)]; [lia|]. split; [|exists x, s1; auto].
      intros ->. apply Hne. apply (i_unique h t Hinv x i s1 s Hl1 Hl). congruence.
    + intros [Hne (x & s1 & Hl1 & Hk1 & Hd1)]. right. exists x, s1. split_and!; auto.
      intros ->. apply Hne. destruct Hl1 as (_ & Hs1 & _). congruence.
Qed.
(** [hdelete_r] removes the entry and nothing else; deleting a name that is not
    there fails and changes nothing. *)
Theorem hdelete_removes h t k flag : inv h t -> permissive cbi fli h t ->
  exists rc e h', hdelete_r strdup cbi fli k h flag = Some (rc, e, h') /\
    ((present h t k /\ rc = 1 /\ exists t', inv h' t' /\
        forall k' d', holds h' t' k' d' <-> k' <> k /\ holds h t k' d') \/
     (~ present h t k /\ rc = 0 /\ e = Some ESRCH /\ h' = h)).
Proof.
  intros Hinv Hperm. destruct (deletes h t k flag Hinv Hperm) as (rc & e & h' & E & Hr).
  exists rc, e, h'. split; [exact E|]. destruct Hr as [(Hp & Hrc & t' & Hi & _ & Hh)|Hr]; [left|right; exact Hr].
  split_and!; auto. exists t'. auto.
Qed.

(** Whatever the state of the table, entering ends and keeps the invariant. *)
Lemma enter_total h t item d flag : inv h t -> permissive cbi fli h t -> data item = Some d ->
  exists r t', search item ENTER h flag = Some r /\ inv (htab r) t' /\ permissive cbi fli (htab r) t'.
Proof.
  intros Hinv Hperm Hd.
  destruct (search_outcome strdup cbi fli h t Hinv item ENTER flag) as (s & pr & Hs & Hout & ->).
  pose proof (fh_range h (key item) ltac:(apply Hinv)) as Hfh.
  assert (forall i, ~ present h t (key item) -> in_table h i ->
    (exists j, (j < Z.to_nat (size h))%nat /\ probe_of h (key item) j = i /\ chain h t (key item) j) ->
    exists r t', enter_new strdup cbi fli h t item flag (fh h (key item)) i = Some r /\ inv (htab r) t' /\
      permissive cbi fli (htab r) t') as Hnew.
  { intros i Habs Hi Hj. unfold enter_new. destruct (Z.eqb_spec (filled h) (size h)) as [E|E].
    { eexists _, t. split; [reflexivity|]. auto. }
    destruct (slot_exists h t i Hinv ltac:(unfold in_table in Hi; lia)) as [s1 Hs1]. rewrite Hs1. cbn [mbind option_bind].
    rewrite Hd. cbn [mbind option_bind]. rewrite !env_dup.
    set (e0 := Entry (key item) (Some d) (callback (entry s1)) (flags (entry s1))).
    destruct (env_init e0) as [Ek Ed]. set (e := fli (cbi e0)) in *.
    cbn [change_ok set_filled set_table]. rewrite (change_approved h t) by exact Hperm.
    rewrite callback_approved by (intros cb; exact (p_new _ _ h t Hperm e0 cb)).
    eexists _, (<[Z.to_nat i := Slot (fh h (key item)) e]> t). split; [reflexivity|]. cbn [htab]. split.
    - apply (inv_update h t Hinv i (Slot (fh h (key item)) e) Hi); auto; [cbn [used]; lia|]. cbn [used entry]. intros _.
      rewrite Ek, Ed. cbn [e0 key data]. split_and!; auto. intros x s2 _ Hl Hk. apply Habs. exists x, s2. auto.
    - apply (permissive_update h t); auto. intros cb. exact (p_new _ _ h t Hperm e0 cb). }
  assert (exists j, (j < Z.to_nat (size h))%nat /\ probe_of h (key item) j = fh h (key item) /\ chain h t (key item) j) as Hfirst.
  { exists 0%nat. split_and!; [lia|reflexivity|]. intros l Hl. lia. }
  destruct Hout as [i r Hi Hhit Er|j Hj He Hch Habs|Hall Habs].
  - destruct (overwrite_stores h t item d flag i r Hinv Hperm Hd Hi Hhit Er) as (_ & t' & [Hi' _] & [Hp' _]).
    exists r, t'. auto.
  - pose proof (probe_of_range h t (key item) j Hinv) as Hpr.
    repeat case_match; apply Hnew; eauto; unfold in_table; lia.
  - repeat case_match; apply Hnew; eauto; unfold in_table; lia.
Qed.

End Properties.

(** ** Concrete tables *)

(** Five slots, ["a"] = ["1"] in the third; the others never used or deleted. *)
Definition demo_slots (u : Z) : list _ENTRY :=
  [empty_slot; Slot u empty_entry; Slot u empty_entry; Slot 3 (Entry [97] (Some [49]) None 0);
   Slot u empty_entry; Slot u empty_entry].
Definition demo (u : Z) : hsearch_data := Htab (Some (demo_slots u)) 5 1 None.

Lemma prime_5 : Z.prime 5.
Proof. destruct (isprime_spec 5) as (b & E & Hb); [lia|reflexivity|]. apply Hb. vm_compute in E. congruence. Qed.

Lemma demo_live u i s : u <= 0 -> live_at (demo u) (demo_slots u) i s -> i = 3 /\ s = Slot 3 (Entry [97] (Some [49]) None 0).
Proof.
  intros Hu (Hi & Hs & Hus). unfold in_table in Hi. cbn [size demo] in Hi.
  assert (i = 1 \/ i = 2 \/ i = 3 \/ i = 4 \/ i = 5) as Hc by lia.
  destruct Hc as [->|[->|[->|[->| ->]]]]; cbn in Hs; injection Hs as <-; cbn [used] in Hus; try lia. auto.
Qed.

Lemma demo_inv u : u <= 0 -> inv (demo u) (demo_slots u).
Proof.
  intros Hu. split; try reflexivity; [exact prime_5|cbn; lia|..].
  - intros i s Hl. apply demo_live in Hl as [-> ->]; [|exact Hu]. split; [reflexivity|].
    exists 0%nat. split_and!; [cbn; lia|reflexivity|]. intros l Hl. lia.
  - intros i i' s s' H H' _. apply demo_live in H as [-> _]; [|exact Hu]. apply demo_live in H' as [-> _]; auto.
  - intros i s Hl. apply demo_live in Hl as [_ ->]; [discriminate|exact Hu].
Qed.

(** A variable without a callback of its own. *)
Definition no_callback (e : ENTRY) : ENTRY := Entry (key e) (data e) None (flags e).

#[export] Instance plain_env : Env Some no_callback id.
Proof. split; [reflexivity|split; reflexivity]. Qed.

Lemma demo_permissive u : u <= 0 -> permissive no_callback id (demo u) (demo_slots u).
Proof.
  intros Hu. split; try discriminate. intros i s cb Hl. apply demo_live in Hl as [_ ->]; [discriminate|exact Hu].
Qed.

Lemma demo_absent u k : u <= 0 -> k <> [97] -> ~ present (demo u) (demo_slots u) k.
Proof. intros Hu Hk (i & s & Hl & <-). apply demo_live in Hl as [_ ->]; [auto|exact Hu]. Qed.

Lemma hcreate_makes_witness :
  exists p, hcreate_r (fun _ => true) 4 4 (Htab None 0 0 None) = Some (1, fresh p None) /\ 4 <= p <= 5.
Proof.
  destruct (hcreate_makes (fun _ => true) 4 4 (Htab None 0 0 None) 5) as (p & H & Hp & _);
    [reflexivity|lia|exact prime_5|lia|lia|]. exists p. split; [exact H|exact Hp].
Defined.

Lemma hmatch_first_witness : exists r, hmatch_r [97] 0 (demo 0) = Some r /\ r = 3.
Proof.
  destruct (hmatch_first (demo 0) (demo_slots 0) [97] 0) as (r & H & _); [apply demo_inv; lia|cbn; lia|].
  exists r. split; [exact H|]. vm_compute in H. congruence.
Defined.

Lemma hsearch_finds_witness : exists r, hsearch_r Some no_callback id (Entry [97] None None 0) FIND (demo (-1)) 0 = Some r /\ ret r = 3.
Proof.
  destruct (hsearch_finds Some no_callback id (demo (-1)) (demo_slots (-1)) [97] 0) as (r & H & _); [apply demo_inv; lia|].
  exists r. split; [exact H|]. vm_compute in H. injection H as <-. reflexivity.
Defined.

Lemma hsearch_enters_witness : exists r t', hsearch_r Some no_callback id (Entry [98] (Some [50]) None 0) ENTER (demo 0) 0 = Some r /\
  stores (demo 0) (demo_slots 0) [98] [50] (htab r) t'.
Proof.
  destruct (hsearch_enters Some no_callback id (demo 0) (demo_slots 0) (Entry [98] (Some [50]) None 0) [50] 0) as (r & t' & H & _ & Hs).
  - apply demo_inv. lia.
  - apply demo_permissive. lia.
  - reflexivity.
  - discriminate.
  - right; right. exists 1. split; [split; cbn; lia|reflexivity].
  - exists r, t'. split; [exact H|exact Hs].
Defined.

Lemma hsearch_overwrites_live_witness :
  exists r t', hsearch_r Some no_callback id (Entry [102] (Some [50]) None 0) ENTER (demo (-1)) 0 = Some r /\ ret r = 1 /\
    table (htab r) = Some t' /\ ~ present (htab r) t' [97].
Proof.
  apply (hsearch_overwrites_live Some no_callback id (demo (-1)) (demo_slots (-1)) (Entry [102] (Some [50]) None 0) [50] 0
    (Slot 3 (Entry [97] (Some [49]) None 0))).
  - apply demo_inv. lia.
  - apply demo_permissive. lia.
  - reflexivity.
  - discriminate.
  - intros i Hi. unfold in_table in Hi. cbn [size demo] in Hi.
    assert (i = 1 \/ i = 2 \/ i = 3 \/ i = 4 \/ i = 5) as [->|[->|[->|[->| ->]]]] by lia; discriminate.
  - apply demo_absent; [lia|discriminate].
  - split; [vm_compute; split; discriminate|split; [reflexivity|cbn; lia]].
Defined.

Lemma hdelete_removes_witness :
  exists rc e h', hdelete_r Some no_callback id [97] (demo 0) 0 = Some (rc, e, h') /\ rc = 1.
Proof.
  destruct (hdelete_removes Some no_callback id (demo 0) (demo_slots 0) [97] 0) as (rc & e & h' & H & _);
    [apply demo_inv; lia|apply demo_permissive; lia|].
  exists rc, e, h'. split; [exact H|]. vm_compute in H. congruence.
Defined.

End HashTable.
