(* ===== verification/Qsort.v ===== *)
(** * Qsort: the boot loader's sort

    U-Boot's lib/qsort.c, a shell sort on an array of [nel] elements of [width]
    bytes in memory, with the byte-wise exchange of two elements.  [shell] is the
    same algorithm on a list of elements; [qsort] refines it, and its result is a
    sorted permutation of the array. *)

From stdpp Require Import base list option sorting.
From Stdlib Require Import ZifyBool.
From S2P Require Import Prelude Cmem.

Module Qsort.

(** ** The code *)

Section Code.
(** [comp] looks at the contents of two elements. *)
Context (comp : list Z -> list Z -> Z).

(** [do { tmp = *a; *a++ = *b; *b++ = tmp; } while (--k)]. *)
Fixpoint swap_loop (k : nat) (m : mem) (a b : Z) : mem :=
  match k with
  | O => m
  | S k => let tmp := ld m a in swap_loop k (st (st m a (ld m b)) b tmp) (a + 1) (b + 1)
  end.

Section Array.
Context (base : Z) (width : nat).

Fixpoint inner (fuel : nat) (wgap j : Z) (m : mem) : option mem :=
  match fuel with
  | O => None
  | S fuel =>
    let j := u32 (j - wgap) in
    let a := j + base in
    let b := a + wgap in
    if comp (bytes m a width) (bytes m b width) <=? 0 then Some m else
    let m := swap_loop width m a b in
    if wgap <=? j then inner fuel wgap j m else Some m
  end.

Fixpoint middle (fuel : nat) (wnel wgap i : Z) (m : mem) : option mem :=
  match fuel with
  | O => None
  | S fuel' =>
    m ← inner (Z.to_nat i) wgap i m;
    let i := u32 (i + Z.of_nat width) in
    if i <? wnel then middle fuel' wnel wgap i m else Some m
  end.

Fixpoint outer (fuel : nat) (wnel wgap : Z) (m : mem) : option mem :=
  match fuel with
  | O => None
  | S fuel' =>
    m ← middle (Z.to_nat wnel) wnel wgap wgap m;
    let wgap := u32 (wgap - Z.of_nat width) / 3 in
    if wgap =? 0 then Some m else outer fuel' wnel wgap m
  end.

End Array.

(** [do { wgap = 3 * wgap + 1; } while (wgap < (nel - 1) / 3)]. *)
Fixpoint first_gap (fuel : nat) (nel wgap : Z) : option Z :=
  match fuel with
  | O => None
  | S fuel =>
    let wgap := u32 (3 * wgap + 1) in
    if wgap <? (nel - 1) / 3 then first_gap fuel nel wgap else Some wgap
  end.

Definition qsort (base nel : Z) (width : nat) (m : mem) : option mem :=
  if (1 <? nel) && (0 <? Z.of_nat width) then
    wgap ← first_gap (Z.to_nat nel) nel 0;
    outer base width (Z.to_nat nel) (u32 (nel * Z.of_nat width)) (u32 (wgap * Z.of_nat width)) m
  else Some m.

End Code.

(** ** Shell sort on lists *)

Section List.
Context {A : Type} (cmp : A -> A -> Z).

Definition exchange (i j : nat) (l : list A) : list A :=
  match l !! i, l !! j with
  | Some a, Some b => <[i := b]> (<[j := a]> l)
  | _, _ => l
  end.

(** Whether the elements at [i] and [j] are out of order. *)
Definition inverted (l : list A) (i j : nat) : bool :=
  match l !! i, l !! j with Some a, Some b => 0 <? cmp a b | _, _ => false end.

Fixpoint sift (fuel gap j : nat) (l : list A) : list A :=
  match fuel with
  | O => l
  | S fuel =>
    if inverted l (j - gap) j then
      let l := exchange (j - gap) j l in
      if (gap <=? j - gap)%nat then sift fuel gap (j - gap) l else l
    else l
  end.

Fixpoint pass (k gap i : nat) (l : list A) : list A :=
  match k with O => l | S k => pass k gap (S i) (sift i gap i l) end.

Fixpoint passes (fuel gap : nat) (l : list A) : list A :=
  match fuel with
  | O => l
  | S fuel =>
    let l := pass (length l - gap) gap gap l in
    if ((gap - 1) / 3 =? 0)%nat then l else passes fuel ((gap - 1) / 3) l
  end.

(** *** Permutation *)

Lemma exchange_length i j l : length (exchange i j l) = length l.
Proof. unfold exchange. repeat case_match; rewrite ?length_insert; reflexivity. Qed.

Lemma exchange_lookup i j l a b x : l !! i = Some a -> l !! j = Some b ->
  exchange i j l !! x = if decide (x = i) then Some b else if decide (x = j) then Some a else l !! x.
Proof.
  intros Hi Hj. unfold exchange. rewrite Hi, Hj.
  pose proof (lookup_lt_Some _ _ _ Hi). pose proof (lookup_lt_Some _ _ _ Hj).
  destruct (decide (x = i)) as [->|]; [apply list_lookup_insert_eq; rewrite length_insert; lia|].
  rewrite list_lookup_insert_ne by congruence.
  destruct (decide (x = j)) as [->|]; [apply list_lookup_insert_eq; lia|apply list_lookup_insert_ne; congruence].
Qed.

Lemma exchange_perm i j l : exchange i j l ≡ₚ l.
Proof. unfold exchange. repeat case_match; [apply Permutation_insert_swap; assumption|reflexivity..]. Qed.

Lemma sift_perm fuel gap j l : sift fuel gap j l ≡ₚ l.
Proof.
  revert j l. induction fuel as [|fuel IH]; intros j l; cbn [sift]; [reflexivity|].
  repeat case_match; rewrite ?IH, ?exchange_perm; reflexivity.
Qed.

Lemma pass_perm k gap i l : pass k gap i l ≡ₚ l.
Proof. revert i l. induction k as [|k IH]; intros i l; cbn [pass]; [reflexivity|]. rewrite IH. apply sift_perm. Qed.

Lemma passes_perm fuel gap l : passes fuel gap l ≡ₚ l.
Proof.
  revert gap l. induction fuel as [|fuel IH]; intros gap l; cbn [passes]; [reflexivity|].
  case_match; rewrite ?IH; apply pass_perm.
Qed.

(** *** Order: the last pass, with gap 1, is an insertion sort *)

Definition le (a b : A) : Prop := cmp a b <= 0.

Context (Htotal : forall a b, le a b \/ le b a) (Htrans : forall a b c, le a b -> le b c -> le a c).

Definition sorted_upto (l : list A) (n : nat) : Prop :=
  forall p q a b, (p < q < n)%nat -> l !! p = Some a -> l !! q = Some b -> le a b.

(** The first [i + 1] elements are in order but for the one at [j], which is not
    above those after it. *)
Definition sifting (l : list A) (j i : nat) : Prop :=
  (forall p q a b, (p < q <= i)%nat -> p <> j -> q <> j -> l !! p = Some a -> l !! q = Some b -> le a b) /\
  (forall q a b, (j < q <= i)%nat -> l !! j = Some a -> l !! q = Some b -> le a b).

Lemma sifting_step l j i : (S j <= i)%nat -> sifting l (S j) i -> inverted l j (S j) = true ->
  sifting (exchange j (S j) l) j i.
Proof.
  intros Hj [H1 H2] Hinv. unfold inverted in Hinv.
  destruct (l !! j) as [y|] eqn:Ey; [|discriminate]. destruct (l !! S j) as [x|] eqn:Ex; [|discriminate].
  assert (le x y) as Hxy by (destruct (Htotal x y) as [|H]; [assumption|unfold le in H; lia]).
  split.
  - intros p q a b Hpq Hp Hq. rewrite !(exchange_lookup j (S j) l y x) by assumption.
    repeat case_decide; intros Ha Hb; simplify_eq; eauto with lia.
    + apply (H1 j q); auto with lia.
    + apply (H1 p j); auto with lia.
  - intros q a b Hq. rewrite !(exchange_lookup j (S j) l y x) by assumption.
    repeat case_decide; intros Ha Hb; simplify_eq; try lia; [exact Hxy|]. apply (H2 q); auto with lia.
Qed.

Lemma sifting_done l j i : (j <= i)%nat -> sifting l j i ->
  match j with O => True | S j' => inverted l j' j = false end -> sorted_upto l (S i).
Proof.
  intros Hj [H1 H2] Hd p q a b Hpq Ha Hb.
  destruct (decide (p = j)) as [->|Hp]; [apply (H2 q); auto with lia|].
  destruct (decide (q = j)) as [->|Hq]; [|apply (H1 p q); auto with lia].
  destruct j as [|j']; [lia|]. unfold inverted in Hd. rewrite Hb in Hd.
  destruct (l !! j') as [y|] eqn:Ey.
  - assert (le y b) as Hyb by (unfold le; lia).
    destruct (decide (p = j')) as [->|Hpj]; [congruence|]. apply (Htrans a y b); [|exact Hyb]. apply (H1 p j'); auto with lia.
  - apply lookup_ge_None in Ey. apply lookup_lt_Some in Hb. lia.
Qed.

Lemma sift_sorts i fuel j l : (0 < j <= i)%nat -> (j <= fuel)%nat -> sifting l j i -> sorted_upto (sift fuel 1 j l) (S i).
Proof.
  revert j l. induction fuel as [|fuel IH]; intros j l Hj Hf Hs; [lia|]. destruct j as [|j]; [lia|].
  cbn [sift]. replace (S j - 1)%nat with j by lia. destruct (inverted l j (S j)) eqn:E.
  - pose proof (sifting_step l j i ltac:(lia) Hs E) as E'. destruct (Nat.leb_spec 1 j).
    + apply IH; [lia|lia|exact E'].
    + apply (sifting_done _ j i); [lia|exact E'|]. destruct j; [exact I|lia].
  - apply (sifting_done _ (S j) i); [lia|exact Hs|exact E].
Qed.

Lemma pass_sorts k i l : (0 < i)%nat -> sorted_upto l i -> sorted_upto (pass k 1 i l) (i + k).
Proof.
  revert i l. induction k as [|k IH]; intros i l Hi Hs; cbn [pass]; [rewrite Nat.add_0_r; exact Hs|].
  replace (i + S k)%nat with (S i + k)%nat by lia. apply IH; [lia|]. apply sift_sorts; [lia|lia|].
  split; [|lia]. intros p q a b Hpq Hp Hq. apply Hs. lia.
Qed.

Lemma sorted_upto_strongly l : sorted_upto l (length l) -> StronglySorted le l.
Proof.
  induction l as [|a l IH]; intros Hs; constructor.
  - apply IH. intros p q x y Hpq Hx Hy. apply (Hs (S p) (S q)); cbn; auto with lia.
  - apply Forall_lookup. intros i x Hx. apply (Hs 0%nat (S i)); cbn; auto. pose proof (lookup_lt_Some _ _ _ Hx). lia.
Qed.

End List.

(** The gaps 1, 4, 13, ... *)
Inductive gap : nat -> Prop :=
| gap_one : gap 1
| gap_next g : gap g -> gap (3 * g + 1).

Lemma gap_pred g : gap g -> (g = 1 /\ (g - 1) / 3 = 0)%nat \/ (exists h, gap h /\ (g = 3 * h + 1)%nat /\ ((g - 1) / 3 = h)%nat /\ (0 < h)%nat).
Proof.
  intros [|h Hh]; [left; auto|right]. exists h. assert (0 < h)%nat by (clear -Hh; induction Hh; lia).
  split_and!; auto. replace (3 * h + 1 - 1)%nat with (h * 3)%nat by lia. apply Nat.div_mul. lia.
Qed.

Lemma passes_sorted {A} (cmp : A -> A -> Z) fuel g l :
  (forall a b, le cmp a b \/ le cmp b a) -> (forall a b c, le cmp a b -> le cmp b c -> le cmp a c) ->
  gap g -> (g <= fuel)%nat -> StronglySorted (le cmp) (passes cmp fuel g l).
Proof.
  intros Ht Htr. revert g l. induction fuel as [|fuel IH]; intros g l Hg Hf; [inversion Hg; lia|]. cbn [passes].
  destruct (gap_pred g Hg) as [[-> E]|(h & Hh & -> & E & Hpos)]; rewrite E.
  - cbn [Nat.eqb]. apply sorted_upto_strongly. rewrite (Permutation_length (pass_perm cmp (length l - 1) 1 1 l)).
    destruct l as [|a l]; [intros p q x y Hpq; cbn in Hpq; lia|].
    replace (length (a :: l)) with (1 + (length (a :: l) - 1))%nat by (cbn; lia).
    replace (1 + (length (a :: l) - 1) - 1)%nat with (length (a :: l) - 1)%nat by lia.
    apply pass_sorts; auto. intros p q x y Hpq. lia.
  - replace (h =? 0)%nat with false by lia. apply IH; [exact Hh|lia].
Qed.

(** ** The array in memory *)

Lemma ld_swap_loop k m a b x : a + Z.of_nat k <= b ->
  ld (swap_loop k m a b) x =
    if (a <=? x) && (x <? a + Z.of_nat k) then ld m (x - a + b)
    else if (b <=? x) && (x <? b + Z.of_nat k) then ld m (x - b + a) else ld m x.
Proof.
  revert m a b. induction k as [|k IH]; intros m a b Hab; cbn [swap_loop].
  { replace ((a <=? x) && (x <? a + Z.of_nat 0)) with false by lia.
    replace ((b <=? x) && (x <? b + Z.of_nat 0)) with false by lia. reflexivity. }
  rewrite IH by lia. rewrite !ld_st, !(u8_small (ld _ _)) by apply ld_range.
  destruct (decide (x = a)) as [->|Ha]; [|destruct (decide (x = b)) as [->|Hb]].
  - replace ((a + 1 <=? a) && (a <? a + 1 + Z.of_nat k)) with false by lia.
    replace ((b + 1 <=? a) && (a <? b + 1 + Z.of_nat k)) with false by lia.
    replace ((a <=? a) && (a <? a + Z.of_nat (S k))) with true by lia.
    replace (a =? b) with false by lia. rewrite Z.eqb_refl. f_equal. lia.
  - replace ((a + 1 <=? b) && (b <? a + 1 + Z.of_nat k)) with false by lia.
    replace ((b + 1 <=? b) && (b <? b + 1 + Z.of_nat k)) with false by lia.
    replace ((a <=? b) && (b <? a + Z.of_nat (S k))) with false by lia.
    replace ((b <=? b) && (b <? b + Z.of_nat (S k))) with true by lia.
    rewrite Z.eqb_refl. f_equal. lia.
  - replace ((a <=? x) && (x <? a + Z.of_nat (S k))) with ((a + 1 <=? x) && (x <? a + 1 + Z.of_nat k)) by lia.
    replace ((b <=? x) && (x <? b + Z.of_nat (S k))) with ((b + 1 <=? x) && (x <? b + 1 + Z.of_nat k)) by lia.
    destruct ((a + 1 <=? x) && _) eqn:E1; [|destruct ((b + 1 <=? x) && _) eqn:E2].
    + replace (x - (a + 1) + (b + 1)) with (x - a + b) by lia.
      replace (x - a + b =? b) with false by lia. replace (x - a + b =? a) with false by lia. reflexivity.
    + replace (x - (b + 1) + (a + 1)) with (x - b + a) by lia.
      replace (x - b + a =? b) with false by lia. replace (x - b + a =? a) with false by lia. reflexivity.
    + replace (x =? b) with false by lia. replace (x =? a) with false by lia. reflexivity.
Qed.

Section Refinement.
Context (comp : list Z -> list Z -> Z) (base : Z) (width n : nat).
Context (Hwidth : (0 < width)%nat) (Hfit : Z.of_nat n * Z.of_nat width < 2 ^ 32).

Abbreviation w := (Z.of_nat width).

(** The elements of the array. *)
Definition elems (m : mem) : list (list Z) := map (fun i => bytes m (Z.of_nat i * w + base) width) (seq 0 n).

Lemma elems_lookup m i : (i < n)%nat -> elems m !! i = Some (bytes m (Z.of_nat i * w + base) width).
Proof. intros Hi. unfold elems. rewrite list_lookup_fmap, lookup_seq_lt by exact Hi. reflexivity. Qed.

Lemma elems_length m : length (elems m) = n.
Proof. unfold elems. rewrite length_map, length_seq. reflexivity. Qed.

(** [m'] holds [l] in the array and is [m] elsewhere. *)
Definition array_is (m m' : mem) (l : list (list Z)) : Prop :=
  elems m' = l /\ forall x, x < base \/ base + Z.of_nat n * w <= x -> ld m' x = ld m x.

Lemma array_is_trans m m1 m2 l1 l : array_is m m1 l1 -> array_is m1 m2 l -> array_is m m2 l.
Proof. intros [_ H1] [E H2]. split; [exact E|]. intros x Hx. rewrite H2, H1 by exact Hx. reflexivity. Qed.

Lemma swap_exchanges m i j : (i < j < n)%nat ->
  array_is m (swap_loop width m (Z.of_nat i * w + base) (Z.of_nat j * w + base)) (exchange i j (elems m)).
Proof.
  intros Hij. split; [|intros x Hx; rewrite ld_swap_loop by nia;
    replace ((_ <=? x) && (x <? _)) with false by nia; replace ((_ <=? x) && (x <? _)) with false by nia; reflexivity].
  apply list_eq. intros k. destruct (decide (k < n)%nat) as [Hk|Hk].
  2: { rewrite !lookup_ge_None_2; [reflexivity|rewrite exchange_length, elems_length; lia|rewrite elems_length; lia]. }
  rewrite (exchange_lookup i j _ _ _ k (elems_lookup m i ltac:(lia)) (elems_lookup m j ltac:(lia))), !elems_lookup by lia.
  repeat case_decide; subst; f_equal; apply bytes_eq_nth; intros x Hx; rewrite ld_swap_loop by nia.
  - replace ((_ <=? _) && (_ <? _)) with true by nia. f_equal. lia.
  - replace ((_ <=? _) && (_ <? _)) with false by nia. replace ((_ <=? _) && (_ <? _)) with true by nia. f_equal. lia.
  - replace ((_ <=? _) && (_ <? _)) with false by nia. replace ((_ <=? _) && (_ <? _)) with false by nia. reflexivity.
Qed.

Lemma inner_refines g : (0 < g)%nat -> forall f1 f2 j m, (g <= j < n)%nat -> (j <= f1)%nat -> (j <= f2)%nat ->
  exists m', inner comp base width f1 (Z.of_nat g * w) (Z.of_nat j * w) m = Some m' /\
    array_is m m' (sift comp f2 g j (elems m)).
Proof.
  intros Hg. induction f1 as [|f1 IH]; intros f2 j m Hj Hf1 Hf2; [lia|]. destruct f2 as [|f2]; [lia|].
  cbn [inner sift]. rewrite u32_small by nia.
  replace (Z.of_nat j * w - Z.of_nat g * w) with (Z.of_nat (j - g) * w) by nia.
  replace (Z.of_nat (j - g) * w + base + Z.of_nat g * w) with (Z.of_nat j * w + base) by nia.
  unfold inverted. rewrite !elems_lookup by lia.
  set (a := bytes m _ width). set (b := bytes m _ width).
  destruct (Z.leb_spec (comp a b) 0) as [Hle|Hgt].
  { replace (0 <? comp a b) with false by lia. exists m. split; [reflexivity|]. split; auto. }
  replace (0 <? comp a b) with true by lia.
  pose proof (swap_exchanges m (j - g) j ltac:(lia)) as Hsw. set (m1 := swap_loop _ _ _ _) in *.
  replace (Z.of_nat g * w <=? Z.of_nat (j - g) * w) with (g <=? j - g)%nat by nia.
  destruct (Nat.leb_spec g (j - g)) as [Hc|Hc].
  - destruct (IH f2 (j - g)%nat m1) as (m' & -> & Hm'); [lia|lia|lia|]. exists m'. split; [reflexivity|].
    rewrite (proj1 Hsw) in Hm'. exact (array_is_trans _ _ _ _ _ Hsw Hm').
  - exists m1. split; [reflexivity|exact Hsw].
Qed.

Lemma middle_refines g : (0 < g)%nat -> forall k fuel i m, (g <= i)%nat -> (i + S k = n)%nat -> (k < fuel)%nat ->
  exists m', middle comp base width fuel (Z.of_nat n * w) (Z.of_nat g * w) (Z.of_nat i * w) m = Some m' /\
    array_is m m' (pass comp (S k) g i (elems m)).
Proof.
  intros Hg. induction k as [|k IH]; intros fuel i m Hi Hk Hf; (destruct fuel as [|fuel]; [lia|]); cbn [middle pass].
  all: destruct (inner_refines g Hg (Z.to_nat (Z.of_nat i * w)) i i m) as (m1 & -> & H1); [lia|nia|lia|].
  all: cbn [mbind option_bind]; replace (Z.of_nat i * w + w) with (Z.of_nat (S i) * w) by lia; rewrite u32_small by nia.
  - replace (Z.of_nat (S i) * w <? Z.of_nat n * w) with false by nia. exists m1. auto.
  - replace (Z.of_nat (S i) * w <? Z.of_nat n * w) with true by nia.
    destruct (IH fuel (S i) m1) as (m' & -> & H2); [lia|lia|lia|]. exists m'. split; [reflexivity|].
    rewrite (proj1 H1) in H2. exact (array_is_trans _ _ _ _ _ H1 H2).
Qed.

Lemma outer_refines fuel g m : gap g -> (g < n)%nat -> (g <= fuel)%nat ->
  exists m', outer comp base width fuel (Z.of_nat n * w) (Z.of_nat g * w) m = Some m' /\
    array_is m m' (passes comp fuel g (elems m)).
Proof.
  revert g m. induction fuel as [|fuel IH]; intros g m Hg Hn Hf; [inversion Hg; lia|]. cbn [outer passes].
  assert (0 < g)%nat as Hg0 by (destruct (gap_pred g Hg) as [?|(h & ?)]; lia).
  destruct (middle_refines g Hg0 (n - g - 1) (Z.to_nat (Z.of_nat n * w)) g m) as (m1 & -> & H1); [lia|lia|nia|].
  rewrite elems_length. replace (S (n - g - 1)) with (n - g)%nat in H1 by lia.
  cbn [mbind option_bind]. rewrite u32_small by nia.
  destruct (gap_pred g Hg) as [[-> E]|(h & Hh & -> & E & Hpos)]; rewrite E.
  - replace ((Z.of_nat 1 * w - w) / 3) with 0 by (replace (Z.of_nat 1 * w - w) with 0 by lia; reflexivity).
    cbn [Z.eqb Nat.eqb]. exists m1. auto.
  - replace ((Z.of_nat (3 * h + 1) * w - w) / 3) with (Z.of_nat h * w)
      by (apply (Z.div_unique _ _ _ 0); nia).
    replace (Z.of_nat h * w =? 0) with false by nia. replace (h =? 0)%nat with false by lia.
    destruct (IH h m1) as (m' & -> & H2); [exact Hh|lia|lia|]. exists m'. split; [reflexivity|].
    rewrite (proj1 H1) in H2. exact (array_is_trans _ _ _ _ _ H1 H2).
Qed.

End Refinement.

Lemma first_gap_gap n : (1 < n)%nat -> Z.of_nat n < 2 ^ 32 -> forall fuel g,
  g = O \/ gap g /\ Z.of_nat g < (Z.of_nat n - 1) / 3 -> (n < g + fuel + 1)%nat ->
  exists g', first_gap fuel (Z.of_nat n) (Z.of_nat g) = Some (Z.of_nat g') /\ gap g' /\ (g' < n)%nat.
Proof.
  intros Hn Hn32. pose proof (Z.mul_div_le (Z.of_nat n - 1) 3 ltac:(lia)) as Hdiv.
  induction fuel as [|fuel IH]; intros g Hg Hf; [lia|]. cbn [first_gap].
  replace (3 * Z.of_nat g + 1) with (Z.of_nat (3 * g + 1)) by lia. rewrite u32_small by lia.
  assert (gap (3 * g + 1)) as Hgap by (destruct Hg as [->|[Hg _]]; constructor; exact Hg).
  destruct (Z.ltb_spec (Z.of_nat (3 * g + 1)) ((Z.of_nat n - 1) / 3)) as [Hlt|Hge].
  - apply IH; [right; auto|lia].
  - exists (3 * g + 1)%nat. split; [reflexivity|]. split; [exact Hgap|]. lia.
Qed.

(** The sort of a list, with the gaps of the code. *)
Definition sort_list {A} (cmp : A -> A -> Z) (l : list A) : list A :=
  if (1 <? length l)%nat then
    match first_gap (length l) (Z.of_nat (length l)) 0 with
    | Some g => passes cmp (length l) (Z.to_nat g) l
    | None => l
    end
  else l.

Lemma sort_list_perm {A} (cmp : A -> A -> Z) l : sort_list cmp l ≡ₚ l.
Proof. unfold sort_list. repeat case_match; [apply passes_perm|reflexivity..]. Qed.

Lemma sort_list_sorted {A} (cmp : A -> A -> Z) l : Z.of_nat (length l) < 2 ^ 32 ->
  (forall a b, le cmp a b \/ le cmp b a) -> (forall a b c, le cmp a b -> le cmp b c -> le cmp a c) ->
  StronglySorted (le cmp) (sort_list cmp l).
Proof.
  intros Hn Ht Htr. unfold sort_list. destruct (Nat.ltb_spec 1 (length l)) as [H1|H1].
  - destruct (first_gap_gap (length l) H1 Hn (length l) 0) as (g & Hfg & Hg & Hgn); [auto|lia|].
    change (Z.of_nat 0) with 0 in Hfg. rewrite Hfg, Nat2Z.id. apply passes_sorted; auto. lia.
  - destruct l as [|a [|b l]]; [constructor|repeat constructor|cbn in H1; lia].
Qed.

(** Only the sign of the comparison of the elements matters. *)
Section Ext.
Context {A : Type} (cmp cmp' : A -> A -> Z) (P : A -> Prop).
Context (Hcmp : forall a b, P a -> P b -> (0 <? cmp a b) = (0 <? cmp' a b)).

Lemma inverted_ext l i j : Forall P l -> inverted cmp l i j = inverted cmp' l i j.
Proof.
  intros Hl. rewrite Forall_lookup in Hl. unfold inverted.
  destruct (l !! i) eqn:Ei; [|reflexivity]. destruct (l !! j) eqn:Ej; [|reflexivity]. apply Hcmp; eapply Hl; eassumption.
Qed.

Lemma sift_ext fuel gap j l : Forall P l -> sift cmp fuel gap j l = sift cmp' fuel gap j l.
Proof.
  revert j l. induction fuel as [|fuel IH]; intros j l Hl; cbn [sift]; [reflexivity|]. rewrite inverted_ext by exact Hl.
  repeat case_match; auto. apply IH. rewrite exchange_perm. exact Hl.
Qed.

Lemma pass_ext k gap i l : Forall P l -> pass cmp k gap i l = pass cmp' k gap i l.
Proof.
  revert i l. induction k as [|k IH]; intros i l Hl; cbn [pass]; [reflexivity|]. rewrite sift_ext by exact Hl.
  apply IH. rewrite sift_perm. exact Hl.
Qed.

Lemma passes_ext fuel gap l : Forall P l -> passes cmp fuel gap l = passes cmp' fuel gap l.
Proof.
  revert gap l. induction fuel as [|fuel IH]; intros gap l Hl; cbn [passes]; [reflexivity|]. rewrite pass_ext by exact Hl.
  case_match; auto. apply IH. rewrite pass_perm. exact Hl.
Qed.

Lemma sort_list_ext l : Forall P l -> sort_list cmp l = sort_list cmp' l.
Proof. intros Hl. unfold sort_list. repeat case_match; auto using passes_ext. Qed.

End Ext.

(** [qsort] on the array in memory is [sort_list] on its elements. *)
Lemma qsort_refines comp base n width m : Z.of_nat n * Z.of_nat width < 2 ^ 32 -> (0 < width)%nat ->
  exists m', qsort comp base (Z.of_nat n) width m = Some m' /\
    array_is base width n m m' (sort_list comp (elems base width n m)).
Proof.
  intros Hfit Hw. unfold qsort, sort_list. rewrite elems_length. replace (0 <? Z.of_nat width) with true by lia.
  rewrite andb_true_r. replace (1 <? Z.of_nat n) with (1 <? n)%nat by lia.
  destruct (Nat.ltb_spec 1 n) as [H1|H1]; [|exists m; split; [reflexivity|split; auto]].
  destruct (first_gap_gap n H1 ltac:(nia) n 0) as (g & Hfg & Hg & Hgn); [auto|lia|].
  change (Z.of_nat 0) with 0 in Hfg. rewrite !Nat2Z.id, Hfg, Nat2Z.id. cbn [mbind option_bind].
  rewrite !u32_small by nia. apply outer_refines; auto; lia.
Qed.

(** [qsort] terminates, leaves the memory outside the array alone, and makes the
    array a permutation of what it was; with a comparison that is a total
    preorder, the elements are in order. *)
Theorem qsort_sorts comp base n width m : Z.of_nat n * Z.of_nat width < 2 ^ 32 -> (0 < width)%nat ->
  exists m', qsort comp base (Z.of_nat n) width m = Some m' /\
    elems base width n m' ≡ₚ elems base width n m /\
    (forall x, x < base \/ base + Z.of_nat n * Z.of_nat width <= x -> ld m' x = ld m x) /\
    ((forall a b, le comp a b \/ le comp b a) -> (forall a b c, le comp a b -> le comp b c -> le comp a c) ->
     StronglySorted (le comp) (elems base width n m')).
Proof.
  intros Hfit Hw. destruct (qsort_refines comp base n width m Hfit Hw) as (m' & H & E & Hfr).
  exists m'. rewrite E. split_and!; [exact H|apply sort_list_perm|exact Hfr|].
  apply sort_list_sorted. rewrite elems_length. nia.
Qed.

Definition byte_order (a b : list Z) : Z := nth 0 a 0 - nth 0 b 0.

Lemma qsort_sorts_witness : exists m', qsort byte_order 16 5 1 (mem_of 16 [4; 2; 9; 1; 2]) = Some m' /\
  bytes m' 16 5 = [1; 2; 2; 4; 9].
Proof.
  destruct (qsort_sorts byte_order 16 5 1 (mem_of 16 [4; 2; 9; 1; 2])) as (m' & H & _); [lia|lia|].
  exists m'. split; [exact H|]. vm_compute in H. injection H as <-. reflexivity.
Defined.

End Qsort.
