(* ===== verification/EnvText.v ===== *)
(** * EnvText: the environment as text

    [hexport_r] and [himport_r] of U-Boot's lib/hashtable.c: the environment
    table written as a sequence of "name=value" lines into a buffer, and read
    back.  The table and its operations are in HashTable.v, the sort in Qsort.v.
    The separator is a parameter of the code: NUL in the saved environment,
    newline in text files. *)

From stdpp Require Import base list option sorting.
From Stdlib Require Import ZifyBool.
From S2P Require Import Prelude Cmem Ctype CString Qsort HashTable.
Import HashTable.

Module EnvText.

Definition NUL : Z := 0.
Definition BACKSLASH : Z := 92.
Definition EQUALS : Z := 61.
Definition HASH : Z := 35.
Definition CR : Z := 13.
Definition LF : Z := 10.
Definition DOT : Z := 46.

(** ** Export *)

Definition cmpkey (e1 e2 : ENTRY) : Z := CString.first_diff (key e1) (key e2).

(** Whether [pat] occurs in [s], what [strstr] finds. *)
Fixpoint occurs (pat s : str) : bool :=
  str_eqb pat (take (length pat) s) || match s with [] => false | _ :: s => occurs pat s end.

Section Export.
(** The regular expressions of lib/slre.c: [slre p] is the matcher compiled from
    [p], [None] if it does not compile. *)
Context (slre : str -> option (str -> bool)).

Definition match_string (flag : Z) (s pat : str) (priv : str -> bool) : bool :=
  let method := Z.land flag H_MATCH_METHOD in
  if method =? H_MATCH_IDENT then str_eqb s pat
  else if method =? H_MATCH_SUBSTR then occurs pat s
  else if method =? H_MATCH_REGEX then priv s
  else false.

(** An entry without a value does not reach [match_string]. *)
Fixpoint match_entry (e : ENTRY) (flag : Z) (argv : list str) : bool :=
  match argv with
  | [] => false
  | arg :: argv =>
    match slre arg with
    | None => false
    | Some priv =>
      if negb (Z.land flag H_MATCH_KEY =? 0) && match_string flag (key e) arg priv then true else
      if negb (Z.land flag H_MATCH_DATA =? 0) && match_string flag (default [] (data e)) arg priv then true else
      match_entry e flag argv
    end
  end.

(** Which entries pass 1 keeps. *)
Definition selected (flag : Z) (argv : list str) (e : ENTRY) : bool :=
  if (0 <? length argv)%nat && negb (match_entry e flag argv) then false else
  if negb (Z.land flag H_HIDE_DOT =? 0) && (nth 0 (key e) 0 =? DOT) then false else true.

(** The room pass 1 counts for the value of an entry. *)
Fixpoint value_len (sep : Z) (s : str) : Z :=
  match s with
  | [] => 0
  | c :: s => 1 + (if (c =? sep) || (c =? BACKSLASH) then 1 else 0) + value_len sep s
  end.

Definition entry_len (sep : Z) (e : ENTRY) : Z :=
  let d := default [] (data e) in
  Z.of_nat (length (key e)) + (if sep =? NUL then Z.of_nat (length d) else value_len sep d) + 2.

(** Pass 1 from slot [i] on, [k] slots left: the entries kept, in slot order,
    and [totlen]. *)
Fixpoint pass1 (k : nat) (t : list _ENTRY) (sep flag : Z) (argv : list str) (i : Z) (l : list ENTRY) (totlen : Z) :
    option (list ENTRY * Z) :=
  match k with
  | O => Some (l, totlen)
  | S k =>
    s ← slot_at t i;
    if (0 <? used s) && selected flag argv (entry s)
    then pass1 k t sep flag argv (i + 1) (l ++ [entry s]) (totlen + entry_len sep (entry s))
    else pass1 k t sep flag argv (i + 1) l totlen
  end.

(** The copy of a string up to its NUL. *)
Fixpoint put (m : mem) (p : Z) (s : str) : mem * Z :=
  match s with [] => (m, p) | c :: s => put (st m p c) (p + 1) s end.

(** The same with escapes. *)
Fixpoint put_escaped (sep : Z) (m : mem) (p : Z) (s : str) : mem * Z :=
  match s with
  | [] => (m, p)
  | c :: s =>
    let '(m, p) := if (c =? sep) || (c =? BACKSLASH) then (st m p BACKSLASH, p + 1) else (m, p) in
    put_escaped sep (st m p c) (p + 1) s
  end.

Fixpoint pass2 (sep : Z) (l : list ENTRY) (m : mem) (p : Z) : mem * Z :=
  match l with
  | [] => (m, p)
  | e :: l =>
    let '(m, p) := put m p (key e) in
    let '(m, p) := (st m p EQUALS, p + 1) in
    let '(m, p) := put_escaped sep m p (default [] (data e)) in
    pass2 sep l (st m p sep) (p + 1)
  end.

(** The buffer of the caller, or none. *)
Inductive buffer := User (res : Z) | Allocate.

Definition buffer_at (calloc : Z -> option Z) (resp : buffer) (size : Z) : option Z :=
  match resp with User res => Some res | Allocate => calloc size end.

(** The result: the size and the buffer, or [-1] with [ENOMEM].  [calloc n] is the
    address of [n] new bytes. *)
Definition hexport_r (calloc : Z -> option Z) (h : hsearch_data) (sep flag : Z) (resp : buffer) (size : Z)
    (argv : list str) (m : mem) : option (mem * (Z * Z + Z)) :=
  t ← table h;
  '(l, totlen) ← pass1 (Z.to_nat (HashTable.size h)) t sep flag argv 1 [] 0;
  let l := Qsort.sort_list cmpkey l in
  if negb (size =? 0) && (size <? totlen + 1) then Some (m, inr ENOMEM) else
  let size := if size =? 0 then totlen else size in
  match buffer_at calloc resp size with
  | None => Some (m, inr ENOMEM)
  | Some res =>
    let m := wr m res (replicate (Z.to_nat size) 0) in
    let '(m, p) := pass2 sep l m res in
    Some (st m p NUL, inl (size, res))
  end.

End Export.

(** ** Import *)

(** [drop_var_from_set] returns whether the variable is to be processed and the
    list with its occurrences struck out. *)
Definition drop_var_from_set (name : str) (vars : list (option str)) : bool * list (option str) :=
  if (length vars =? 0)%nat then (true, vars) else
  let hit v := bool_decide (v = Some name) in
  (existsb hit vars, map (fun v => if hit v then None else v) vars).

(** Removing carriage returns in front of line feeds, in place. *)
Fixpoint crlf_loop (fuel : nat) (d : list Z) (size dp ignored_crs : Z) : list Z * Z :=
  match fuel with
  | O => (d, ignored_crs)
  | S fuel =>
    let c := nth (Z.to_nat dp) d 0 in
    if (dp <? size) && negb (c =? 0) then
      if (c =? CR) && (dp <? size - 1) && (nth (Z.to_nat (dp + 1)) d 0 =? LF)
      then crlf_loop fuel d size (dp + 1) (ignored_crs + 1)
      else crlf_loop fuel (<[Z.to_nat (dp - ignored_crs) := c]> d) size (dp + 1) ignored_crs
    else (d, ignored_crs)
  end.

(** The parser works on the bytes from [dp] to the end of the copy of the
    environment; [None] is a read beyond it. *)
Fixpoint skip_while (p : Z -> bool) (l : list Z) : option (list Z) :=
  match l with [] => None | c :: l' => if p c then skip_while p l' else Some l end.

Fixpoint span (p : Z -> bool) (l : list Z) : option (list Z * list Z) :=
  match l with
  | [] => None
  | c :: l' => if p c then '(a, r) ← span p l'; Some (c :: a, r) else Some ([], l)
  end.

(** The value up to NUL or the separator, escapes resolved. *)
Fixpoint parse_value (sep : Z) (l : list Z) : option (list Z * list Z) :=
  match l with
  | [] => None
  | c :: l' =>
    if (c =? 0) || (c =? sep) then Some ([], l) else
    if c =? BACKSLASH then
      match l' with
      | [] => None
      | c2 :: l2 =>
        if c2 =? 0 then '(v, r) ← parse_value sep l'; Some (c :: v, r)
        else '(v, r) ← parse_value sep l2; Some (c2 :: v, r)
      end
    else '(v, r) ← parse_value sep l'; Some (c :: v, r)
  end.

Inductive action := Comment | Delete (name : str) | Insert (name value : str).

(** One round of the parsing loop, and the bytes it leaves. *)
Definition parse_entry (sep : Z) (l : list Z) : option (action * list Z) :=
  l ← skip_while Ctype.isblank l;
  c ← head l;
  if c =? HASH then
    l ← skip_while (fun c => negb (c =? 0) && negb (c =? sep)) l;
    Some (Comment, drop 1 l)
  else
    '(name, l) ← span (fun c => negb (c =? EQUALS) && negb (c =? 0) && negb (c =? sep)) l;
    c ← head l;
    del ← (if (c =? 0) then Some true else
           c1 ← l !! 1%nat; Some ((c1 =? 0) || (c =? sep) || (c1 =? sep)));
    if (del : bool) then
      Some (Delete name, drop (if c =? EQUALS then 2 else 1) l)
    else
      '(value, l) ← parse_value sep (drop 1 l);
      Some (Insert name value, drop 1 l).

Section Import.
Context (strdup : str -> option str) (calloc : Z -> bool) (malloc : Z -> bool).
Context (cbi fli : ENTRY -> ENTRY).

(** What the loop leaves: it went on to the end, or returned 0 with [EINVAL]. *)
Inductive parsed := Done (h : hsearch_data) (vars : list (option str)) | Rejected (h : hsearch_data).

Fixpoint import_loop (fuel : nat) (sep flag ignored_crs : Z) (h : hsearch_data) (vars : list (option str)) (l : list Z) :
    option parsed :=
  match fuel with
  | O => None
  | S fuel =>
    '(act, l) ← parse_entry sep l;
    let continue h vars :=
      if (1 + ignored_crs <? Z.of_nat (length l)) && negb (nth 0 l 0 =? 0)
      then import_loop fuel sep flag ignored_crs h vars l else Some (Done h vars) in
    match act with
    | Comment => continue h vars
    | Delete name =>
      let '(found, vars) := drop_var_from_set name vars in
      if found then '(_, _, h) ← hdelete_r strdup cbi fli name h flag; continue h vars
      else continue h vars
    | Insert name value =>
      if (length name =? 0)%nat then Some (Rejected h) else
      let '(found, vars) := drop_var_from_set name vars in
      if found then
        r ← hsearch_r strdup cbi fli (Entry name (Some value) None 0) ENTER h flag;
        continue (htab r) vars
      else continue h vars
    end
  end.

(** Variables that were asked for and not imported are deleted. *)
Fixpoint delete_rest (vars : list (option str)) (h : hsearch_data) (flag : Z) : option hsearch_data :=
  match vars with
  | [] => Some h
  | None :: vars => delete_rest vars h flag
  | Some v :: vars => '(_, _, h) ← hdelete_r strdup cbi fli v h flag; delete_rest vars h flag
  end.

(** The bound on the search for the size of a new table. *)
Definition hcreate_fuel : nat := 300.

(** The table the import works on: the old one, or a new one when there is none
    or the old one is cleared; the flag is the result of [hcreate_r]. *)
Definition open_table (h : hsearch_data) (size flag : Z) (vars : list str) : option (Z * hsearch_data) :=
  let h := if (Z.land flag H_NOCLEAR =? 0) && (length vars =? 0)%nat
           then match table h with Some _ => hdestroy_r h | None => h end else h in
  match table h with
  | Some _ => Some (1, h)
  | None =>
    let nent := CONFIG_ENV_MIN_ENTRIES + size / 8 in
    let nent := if CONFIG_ENV_MAX_ENTRIES <? nent then CONFIG_ENV_MAX_ENTRIES else nent in
    hcreate_r calloc hcreate_fuel nent h
  end.

(** The return value, [errno] and the table.  [env] holds at least [size] bytes. *)
Definition himport_r (h : hsearch_data) (env : list Z) (size sep flag : Z) (crlf_is_lf : bool) (vars : list str) :
    option (Z * option Z * hsearch_data) :=
  if negb (malloc (size + 1)) then Some (0, Some ENOMEM, h) else
  let data := take (Z.to_nat size) env ++ [0] in
  let localvars := map Some vars in
  '(ok, h) ← open_table h size flag vars;
  if ok =? 0 then Some (0, None, h) else
  if size =? 0 then Some (1, None, h) else
  let '(data, ignored_crs) := if crlf_is_lf then crlf_loop (Z.to_nat size) data size 0 0 else (data, 0) in
  r ← import_loop (length data) sep flag ignored_crs h localvars data;
  match r with
  | Rejected h => Some (0, Some EINVAL, h)
  | Done h localvars =>
    if negb (Z.land flag H_NOCLEAR =? 0) then Some (1, None, h) else
    h ← delete_rest localvars h flag;
    Some (1, None, h)
  end.

End Import.

(** ** The parser stays inside its buffer *)

(** What is left to parse: nothing, or bytes that end in NUL. *)
Definition ends_nul (l : list Z) : Prop := exists a, l = a ++ [0].

Lemma ends_nul_tail c l : ends_nul (c :: l) -> l = [] /\ c = 0 \/ ends_nul l.
Proof. intros [[|x a] E]; injection E as -> ->; [left; auto|right; exists a; reflexivity]. Qed.

Lemma ends_nul_cons c l : ends_nul (c :: l) -> c <> 0 -> ends_nul l.
Proof. intros H Hc. apply ends_nul_tail in H as [[_ ?]|H]; [contradiction|exact H]. Qed.

Lemma skip_while_total p l : p 0 = false -> ends_nul l ->
  exists r, skip_while p l = Some r /\ ends_nul r /\ (length r <= length l)%nat.
Proof.
  intros Hp. induction l as [|c l IH]; intros Hl; [destruct Hl as [[] E]; discriminate|]. cbn [skip_while].
  destruct (p c) eqn:E; [|eauto]. destruct IH as (r & -> & Hr & Hle).
  - apply (ends_nul_cons c l Hl). congruence.
  - exists r. split_and!; [reflexivity|exact Hr|cbn; lia].
Qed.

Lemma span_total p l : p 0 = false -> ends_nul l ->
  exists a r, span p l = Some (a, r) /\ ends_nul r /\ (length r <= length l)%nat.
Proof.
  intros Hp. induction l as [|c l IH]; intros Hl; [destruct Hl as [[] E]; discriminate|]. cbn [span].
  destruct (p c) eqn:E; [|eauto]. destruct IH as (a & r & -> & Hr & Hle).
  - apply (ends_nul_cons c l Hl). congruence.
  - exists (c :: a), r. split_and!; [reflexivity|exact Hr|cbn; lia].
Qed.

Lemma parse_value_total sep : forall n l, (length l <= n)%nat -> ends_nul l ->
  exists v r, parse_value sep l = Some (v, r) /\ ends_nul r /\ (length r <= length l)%nat.
Proof.
  induction n as [|n IH]; intros l Hn Hl; (destruct l as [|c l]; [destruct Hl as [[] E]; discriminate|]); [cbn in Hn; lia|].
  cbn [parse_value length] in *. destruct ((c =? 0) || (c =? sep)) eqn:E0; [eauto|].
  assert (ends_nul l) as Hl' by (apply (ends_nul_cons c l Hl); lia).
  destruct (IH l ltac:(lia) Hl') as (v & r & Hv & Hr & Hle).
  destruct (c =? BACKSLASH); [|rewrite Hv; exists (c :: v), r; split_and!; [reflexivity|exact Hr|lia]].
  destruct l as [|c2 l2]; [destruct Hl' as [[] E]; discriminate|]. destruct (Z.eqb_spec c2 0) as [->|Hc2].
  - rewrite Hv. exists (c :: v), r. split_and!; [reflexivity|exact Hr|cbn [length] in *; lia].
  - destruct (IH l2) as (v2 & r2 & -> & Hr2 & Hle2); [cbn in *; lia|exact (ends_nul_cons c2 l2 Hl' Hc2)|].
    exists (c2 :: v2), r2. cbn [length] in *. split_and!; [reflexivity|exact Hr2|lia].
Qed.

Lemma ends_nul_drop n l : ends_nul l -> drop n l = [] \/ ends_nul (drop n l).
Proof.
  revert l. induction n as [|n IH]; intros l Hl; [right; exact Hl|]. destruct l as [|c l]; [left; reflexivity|].
  cbn [drop]. apply ends_nul_tail in Hl as [[-> _]|Hl]; [left; apply drop_nil|apply IH; exact Hl].
Qed.

(** A round of the loop ends and consumes something. *)
Lemma parse_entry_total sep l : ends_nul l ->
  exists act r, parse_entry sep l = Some (act, r) /\ (r = [] \/ ends_nul r) /\ (length r < length l)%nat.
Proof.
  intros Hl. unfold parse_entry.
  destruct (skip_while_total Ctype.isblank l eq_refl Hl) as (l1 & -> & Hl1 & Hle1). cbn [mbind option_bind].
  assert (forall x, ends_nul x -> exists c y, x = c :: y) as Hne.
  { intros [|c y] Hx; [destruct Hx as [[] E]; discriminate|eauto]. }
  destruct (Hne l1 Hl1) as (c & y & ->). cbn [head mbind option_bind]. destruct (c =? HASH).
  { destruct (skip_while_total (fun c => negb (c =? 0) && negb (c =? sep)) (c :: y) eq_refl Hl1) as (r & -> & Hr & Hle).
    cbn [mbind option_bind]. exists Comment, (drop 1 r). split_and!; [reflexivity|apply ends_nul_drop; exact Hr|].
    rewrite length_drop. destruct (Hne r Hr) as (c' & y' & ->). cbn [length] in *. lia. }
  set (stop := fun c : Z => _).
  destruct (span_total stop (c :: y) eq_refl Hl1) as (name & l2 & -> & Hl2 & Hle2). cbn [mbind option_bind].
  destruct (Hne l2 Hl2) as (c2 & y2 & ->). cbn [head mbind option_bind lookup list_lookup].
  destruct (Z.eqb_spec c2 0) as [->|Hc2].
  { cbn [mbind option_bind]. eexists _, _. split_and!; [reflexivity|apply ends_nul_drop; exact Hl2|].
    rewrite length_drop. cbn [length] in *. case_match; lia. }
  pose proof (ends_nul_cons c2 y2 Hl2 Hc2) as Hy2. destruct (Hne y2 Hy2) as (c3 & y3 & ->).
  change ((c3 :: y3) !! 0%nat) with (Some c3). cbn [mbind option_bind].
  destruct ((c3 =? 0) || (c2 =? sep) || (c3 =? sep)).
  { eexists _, _. split_and!; [reflexivity|apply ends_nul_drop; exact Hl2|]. rewrite length_drop. cbn [length] in *. case_match; lia. }
  change (drop 1 (c2 :: c3 :: y3)) with (c3 :: y3). destruct (parse_value_total sep (length (c3 :: y3)) (c3 :: y3) ltac:(lia) Hy2) as (v & r & -> & Hr & Hle).
  cbn [mbind option_bind]. eexists _, _. split_and!; [reflexivity|apply ends_nul_drop; exact Hr|].
  rewrite length_drop. destruct (Hne r Hr) as (c' & y' & ->). cbn [length] in *. lia.
Qed.

Lemma crlf_loop_ends fuel d size dp ign : 0 <= ign <= dp -> Z.of_nat (length d) = size + 1 -> ends_nul d ->
  exists d' ign', crlf_loop fuel d size dp ign = (d', ign') /\ ends_nul d' /\ length d' = length d /\ 0 <= ign'.
Proof.
  revert d dp ign. induction fuel as [|fuel IH]; intros d dp ign Hi Hd Hn; cbn [crlf_loop].
  { exists d, ign. split_and!; auto. lia. }
  destruct ((dp <? size) && _) eqn:E; [|exists d, ign; split_and!; auto; lia].
  case_match; [apply IH; auto; lia|].
  destruct (IH (<[Z.to_nat (dp - ign) := nth (Z.to_nat dp) d 0]> d) (dp + 1) ign) as (d' & ign' & -> & Hn' & Hl' & Hi').
  - lia.
  - rewrite length_insert. exact Hd.
  - destruct Hn as [a ->]. rewrite length_app in Hd. cbn [length] in Hd.
    rewrite insert_app_l by lia. eexists. reflexivity.
  - exists d', ign'. rewrite length_insert in Hl'. auto.
Qed.

(** ** Importing *)

Section Importing.
Context (strdup : str -> option str) (cbi fli : ENTRY -> ENTRY) `{!Env strdup cbi fli}.

(** A table in order, in an environment that agrees to changes. *)
Definition good (h : hsearch_data) : Prop := exists t, inv h t /\ permissive cbi fli h t.

Lemma table_good_delete h name flag : good h ->
  exists rc e h', hdelete_r strdup cbi fli name h flag = Some (rc, e, h') /\ good h'.
Proof.
  intros (t & Hi & Hp). destruct (deletes strdup cbi fli h t name flag Hi Hp) as (rc & e & h' & E & Hr).
  exists rc, e, h'. split; [exact E|]. destruct Hr as [(_ & _ & t' & Hi' & Hp' & _)|(_ & _ & _ & ->)]; [exists t'|exists t]; auto.
Qed.

Lemma good_enter h name value flag : good h ->
  exists r, hsearch_r strdup cbi fli (Entry name (Some value) None 0) ENTER h flag = Some r /\ good (htab r).
Proof.
  intros (t & Hi & Hp).
  destruct (enter_total strdup cbi fli h t (Entry name (Some value) None 0) value flag Hi Hp eq_refl) as (r & t' & E & Hi' & Hp').
  exists r. split; [exact E|]. exists t'. auto.
Qed.

Lemma good_delete_rest vars flag h : good h -> exists h', delete_rest strdup cbi fli vars h flag = Some h' /\ good h'.
Proof.
  revert h. induction vars as [|[v|] vars IH]; intros h Hg; cbn [delete_rest]; [eauto| |auto].
  destruct (table_good_delete h v flag Hg) as (rc & e & h' & -> & Hg'). cbn [mbind option_bind]. apply IH. exact Hg'.
Qed.

Definition table_of (p : parsed) : hsearch_data := match p with Done h _ => h | Rejected h => h end.

Lemma import_loop_total sep flag ign : 0 <= ign -> forall fuel h vars l, good h -> ends_nul l -> (length l <= fuel)%nat ->
  exists p, import_loop strdup cbi fli fuel sep flag ign h vars l = Some p /\ good (table_of p).
Proof.
  intros Hign. induction fuel as [|fuel IH]; intros h vars l Hg Hl Hf.
  { destruct Hl as [[] ->]; cbn in Hf; lia. }
  cbn [import_loop]. destruct (parse_entry_total sep l Hl) as (act & r & -> & Hr & Hlen). cbn [mbind option_bind].
  assert (forall h vars, good h -> exists p,
    (if (1 + ign <? Z.of_nat (length r)) && negb (nth 0 r 0 =? 0)
     then import_loop strdup cbi fli fuel sep flag ign h vars r else Some (Done h vars)) = Some p /\ good (table_of p)) as Hc.
  { intros h' vars' Hg'. destruct (Z.ltb_spec (1 + ign) (Z.of_nat (length r))) as [Hlt|]; cbn [andb]; [|eauto].
    case_match; [|eauto]. apply IH; [exact Hg'| |lia]. destruct Hr as [->|Hr]; [cbn in Hlt; lia|exact Hr]. }
  destruct act as [|name|name value]; [auto| |].
  - destruct (drop_var_from_set name vars) as [[] vars']; [|auto].
    destruct (table_good_delete h name flag Hg) as (rc & e & h' & -> & Hg'). cbn [mbind option_bind]. auto.
  - destruct (length name =? 0)%nat; [eauto|]. destruct (drop_var_from_set name vars) as [[] vars']; [|auto].
    destruct (good_enter h name value flag Hg) as (x & -> & Hg'). cbn [mbind option_bind]. auto.
Qed.

(** What the import needs of a table it is given, if there is one. *)
Record importable (h : hsearch_data) : Prop := {
  im_change : forall ok, change_ok h = Some ok -> forall e d op fl, ok e d op fl = 0;
  im_new : forall e cb, callback (fli (cbi e)) = Some cb -> approving cb;
  im_table : forall t, table h = Some t -> inv h t /\ permissive cbi fli h t;
}.

Lemma prime_521 : Z.prime 521.
Proof. destruct (isprime_spec 521) as (b & E & Hb); [lia|reflexivity|]. apply Hb. vm_compute in E. congruence. Qed.

Lemma fresh_permissive p ok : (forall f, ok = Some f -> forall e d op fl, f e d op fl = 0) ->
  (forall e cb, callback (fli (cbi e)) = Some cb -> approving cb) -> permissive cbi fli (fresh p ok) (slots (fresh p ok)).
Proof. intros Hok Hn. split; auto. intros i s cb Hl. destruct (fresh_not_live _ _ _ _ Hl). Qed.

(** The entries a new table is asked for. *)
Definition nent (size : Z) : Z := Z.min (CONFIG_ENV_MIN_ENTRIES + size / 8) CONFIG_ENV_MAX_ENTRIES.

Lemma new_table calloc h size : (forall n, calloc n = true) -> table h = None -> importable h -> 0 <= size ->
  exists p, hcreate_r calloc hcreate_fuel (nent size) h = Some (1, fresh p (change_ok h)) /\ nent size <= p /\
    inv (fresh p (change_ok h)) (slots (fresh p (change_ok h))) /\
    permissive cbi fli (fresh p (change_ok h)) (slots (fresh p (change_ok h))).
Proof.
  intros Hc Ht Him Hs. assert (0 <= size / 8) by (apply Z.div_pos; lia).
  pose proof (hcreate_makes calloc hcreate_fuel (nent size) h 521 Hc) as H1. rewrite Ht in H1.
  destruct H1 as (p & E & Hp & _ & Hi & _).
  - unfold nent, CONFIG_ENV_MIN_ENTRIES, CONFIG_ENV_MAX_ENTRIES. lia.
  - exact prime_521.
  - lia.
  - unfold nent, CONFIG_ENV_MIN_ENTRIES, CONFIG_ENV_MAX_ENTRIES, hcreate_fuel. lia.
  - exists p. split_and!; auto; [lia|]. apply fresh_permissive; apply Him.
Qed.

Context (calloc malloc : Z -> bool) (Hcalloc : forall n, calloc n = true) (Hmalloc : forall n, malloc n = true).

Lemma open_table_good h size flag vars : importable h -> 0 <= size ->
  exists h1, open_table calloc h size flag vars = Some (1, h1) /\ good h1 /\
    (Z.land flag H_NOCLEAR = 0 -> vars = [] ->
     exists p, h1 = fresh p (change_ok h) /\ nent size <= p /\ inv h1 (slots h1) /\ permissive cbi fli h1 (slots h1)).
Proof.
  intros Him Hs. unfold open_table.
  assert (forall h0, table h0 = None -> change_ok h0 = change_ok h -> exists h1,
    hcreate_r calloc hcreate_fuel (if CONFIG_ENV_MAX_ENTRIES <? CONFIG_ENV_MIN_ENTRIES + size / 8 then CONFIG_ENV_MAX_ENTRIES
      else CONFIG_ENV_MIN_ENTRIES + size / 8) h0 = Some (1, h1) /\ good h1 /\
     exists p, h1 = fresh p (change_ok h) /\ nent size <= p /\ inv h1 (slots h1) /\ permissive cbi fli h1 (slots h1)) as Hnew.
  { intros h0 H0 Hok. destruct (new_table calloc h0 size Hcalloc H0) as (p & E & Hp & Hi & Hpm); [|exact Hs|].
    - split; rewrite ?Hok; [apply Him|apply Him|congruence].
    - replace (if _ <? _ then _ else _) with (nent size) by (unfold nent; case_match; lia).
      rewrite E, <- Hok. eexists. split; [reflexivity|]. split; [eexists; split; eassumption|]. exists p. auto. }
  destruct (table h) as [t|] eqn:Et.
  - pose proof (im_table h Him t Et) as [Hi Hp]. destruct ((Z.land flag H_NOCLEAR =? 0) && (length vars =? 0)%nat) eqn:E.
    + cbn [hdestroy_r table]. destruct (Hnew (hdestroy_r h) eq_refl eq_refl) as (h1 & E1 & Hg & Hf). exists h1. auto.
    + rewrite Et. exists h. split; [reflexivity|]. split; [exists t; auto|]. intros Hf ->. cbn in E. lia.
  - assert ((if (Z.land flag H_NOCLEAR =? 0) && (length vars =? 0)%nat then h else h) = h) as -> by (destruct (_ && _)%bool; reflexivity).
    rewrite Et. destruct (Hnew h Et eq_refl) as (h1 & E1 & Hg & Hf). exists h1. auto.
Qed.

(** [himport_r] ends on every input, never reads beyond its copy of the
    environment, and leaves a table that satisfies the invariant. *)
Theorem himport_total h env size sep flag crlf vars : importable h -> 0 <= size <= Z.of_nat (length env) ->
  exists rc e h', himport_r strdup calloc malloc cbi fli h env size sep flag crlf vars = Some (rc, e, h') /\
    exists t', inv h' t'.
Proof.
  intros Him Hs. unfold himport_r. rewrite Hmalloc. cbn [negb].
  destruct (open_table_good h size flag vars Him ltac:(lia)) as (h1 & -> & Hg1 & _). cbn [mbind option_bind Z.eqb].
  assert (forall h', good h' -> exists t', inv h' t') as Hgi by (intros h' (t' & H & _); eauto).
  destruct (size =? 0) eqn:E0; [eauto 10|].
  set (d0 := take (Z.to_nat size) env ++ [0]).
  assert (length d0 = S (Z.to_nat size)) as Hd0 by (unfold d0; rewrite length_app, length_take; cbn; lia).
  assert (exists d ign, (if crlf then crlf_loop (Z.to_nat size) d0 size 0 0 else (d0, 0)) = (d, ign) /\ ends_nul d /\ 0 <= ign)
    as (d & ign & -> & Hd & Hign).
  { destruct crlf; [|exists d0, 0; split_and!; auto; [eexists; reflexivity|lia]].
    destruct (crlf_loop_ends (Z.to_nat size) d0 size 0 0) as (d & ign & E & Hd & _ & Hi); [lia|lia|eexists; reflexivity|eauto]. }
  destruct (import_loop_total sep flag ign Hign (length d) h1 (map Some vars) d Hg1 Hd (Nat.le_refl _)) as (p & -> & Hgp).
  cbn [mbind option_bind]. destruct p as [h2 vars2|h2]; cbn [table_of] in Hgp; [|eauto 10].
  case_match; [eauto 10|]. destruct (good_delete_rest vars2 flag h2 Hgp) as (h3 & -> & Hg3). cbn [mbind option_bind]. eauto 10.
Qed.

End Importing.

(** ** The text of a list of entries *)

Fixpoint escape (sep : Z) (s : str) : str :=
  match s with
  | [] => []
  | c :: s => (if (c =? sep) || (c =? BACKSLASH) then [BACKSLASH; c] else [c]) ++ escape sep s
  end.

Definition value_of (e : ENTRY) : str := default [] (data e).
Definition line (sep : Z) (e : ENTRY) : list Z := key e ++ EQUALS :: escape sep (value_of e) ++ [sep].
Definition text (sep : Z) (l : list ENTRY) : list Z := concat (map (line sep) l).

Lemma put_wr m p s : put m p s = (wr m p s, p + Z.of_nat (length s)).
Proof. revert m p. induction s as [|c s IH]; intros m p; cbn [put wr length]; [|rewrite IH]; f_equal; lia. Qed.

Lemma put_escaped_wr sep m p s : put_escaped sep m p s = (wr m p (escape sep s), p + Z.of_nat (length (escape sep s))).
Proof.
  revert m p. induction s as [|c s IH]; intros m p; cbn [put_escaped escape]; [cbn; f_equal; lia|].
  destruct ((c =? sep) || (c =? BACKSLASH)); cbn [app wr length]; rewrite IH; f_equal; lia.
Qed.

(** Pass 2 writes the text. *)
Lemma pass2_wr sep l m p : pass2 sep l m p = (wr m p (text sep l), p + Z.of_nat (length (text sep l))).
Proof.
  revert m p. induction l as [|e l IH]; intros m p; cbn [pass2]; [cbn; f_equal; lia|].
  rewrite put_wr. cbn beta iota zeta. rewrite put_escaped_wr, IH. unfold text. cbn [map concat].
  fold (text sep l). unfold line, value_of. set (es := escape sep _).
  rewrite <- app_assoc, wr_app. cbn [app wr]. rewrite <- app_assoc, wr_app. cbn [app wr].
  rewrite !length_app. cbn [length]. rewrite !length_app. cbn [length]. f_equal. lia.
Qed.

(** *** The length that pass 1 counts *)

Definition sum_len (sep : Z) (l : list ENTRY) : Z := fold_right (fun e n => entry_len sep e + n) 0 l.

(** The count is right unless values with backslashes are written with NUL as the separator. *)
Definition counted (sep : Z) (e : ENTRY) : Prop := sep <> NUL \/ ~ In BACKSLASH (value_of e).

Lemma value_len_escape sep s : value_len sep s = Z.of_nat (length (escape sep s)).
Proof. induction s as [|c s IH]; cbn [value_len escape]; [reflexivity|]. rewrite length_app, IH. case_match; cbn [length]; lia. Qed.

Lemma escape_plain s : ~ In BACKSLASH s -> Forall (fun c => c <> 0) s -> escape NUL s = s.
Proof.
  intros Hb Hn. induction s as [|c s IH]; cbn [escape]; [reflexivity|]. apply Forall_cons_1 in Hn as [Hc Hn].
  cbn [In] in Hb. replace ((c =? NUL) || (c =? BACKSLASH)) with false by (unfold NUL; lia).
  cbn [app]. f_equal. apply IH; auto.
Qed.

Lemma entry_len_line sep e : counted sep e -> Forall (fun c => c <> 0) (value_of e) ->
  entry_len sep e = Z.of_nat (length (line sep e)).
Proof.
  intros Hc Hn. unfold entry_len, line. fold (value_of e). rewrite length_app. cbn [length]. rewrite length_app. cbn [length].
  destruct (Z.eqb_spec sep NUL) as [->|Hs].
  - destruct Hc as [|Hb]; [contradiction|]. rewrite escape_plain by assumption. lia.
  - rewrite value_len_escape. lia.
Qed.

Lemma sum_len_text sep l : Forall (counted sep) l -> Forall (fun e => Forall (fun c => c <> 0) (value_of e)) l ->
  sum_len sep l = Z.of_nat (length (text sep l)).
Proof.
  intros Hc Hn. induction l as [|e l IH]; [reflexivity|]. apply Forall_cons_1 in Hc as [Hc Hcs]. apply Forall_cons_1 in Hn as [Hn Hns].
  unfold text. cbn [map concat sum_len fold_right]. fold (text sep l) (sum_len sep l).
  rewrite length_app, (entry_len_line sep e) by assumption. rewrite IH by assumption. lia.
Qed.

Lemma sum_len_perm sep l1 l2 : l1 ≡ₚ l2 -> sum_len sep l1 = sum_len sep l2.
Proof. induction 1; cbn [sum_len fold_right] in *; unfold sum_len in *; lia. Qed.

(** *** Pass 1 *)

Fixpoint kept (slre : str -> option (str -> bool)) (flag : Z) (argv : list str) (ss : list _ENTRY) : list ENTRY :=
  match ss with
  | [] => []
  | s :: ss => if (0 <? used s) && selected slre flag argv (entry s) then entry s :: kept slre flag argv ss
               else kept slre flag argv ss
  end.

Lemma pass1_kept slre t sep flag argv : forall k i l n, 0 <= i -> i + Z.of_nat k = Z.of_nat (length t) ->
  pass1 slre k t sep flag argv i l n =
    let es := kept slre flag argv (drop (Z.to_nat i) t) in Some (l ++ es, n + sum_len sep es).
Proof.
  induction k as [|k IH]; intros i l n Hi Hk; cbn [pass1]; cbv zeta.
  { rewrite drop_ge by lia. cbn. rewrite app_nil_r. do 2 f_equal. lia. }
  unfold slot_at. replace (0 <=? i) with true by lia.
  destruct (lookup_lt_is_Some_2 t (Z.to_nat i)) as [s Hs]; [lia|]. rewrite Hs. cbn [mbind option_bind].
  rewrite (drop_S t s (Z.to_nat i) Hs). cbn [kept]. replace (S (Z.to_nat i)) with (Z.to_nat (i + 1)) by lia.
  destruct ((0 <? used s) && _).
  - rewrite IH by lia. cbv zeta. rewrite <- app_assoc. cbn [app sum_len fold_right]. unfold sum_len. do 2 f_equal. lia.
  - rewrite IH by lia. reflexivity.
Qed.

Lemma kept_length slre flag argv ss : (length (kept slre flag argv ss) <= length ss)%nat.
Proof. induction ss as [|s ss IH]; cbn [kept]; [reflexivity|]. case_match; cbn [length]; lia. Qed.

(** *** The order of names *)

Definition ascii_name (e : ENTRY) : Prop := Forall (fun c => 0 < c < 128) (key e).

(** The name of the first is not above that of the second. *)
Definition before (a b : ENTRY) : Prop := CString.lex (key a) (key b) <> Gt.

Lemma lex_total s : forall u, CString.lex s u <> Gt \/ CString.lex u s <> Gt.
Proof.
  induction s as [|c s IH]; intros [|d u]; cbn [CString.lex]; try (left; discriminate); [right; discriminate|].
  rewrite (Z.eqb_sym d c). destruct (Z.eqb_spec c d) as [->|Hne]; [apply IH|].
  destruct (Z.ltb_spec c d); [left; discriminate|right]. replace (d <? c) with true by lia. discriminate.
Qed.

Lemma lex_trans s : forall u v, CString.lex s u <> Gt -> CString.lex u v <> Gt -> CString.lex s v <> Gt.
Proof.
  induction s as [|c s IH]; intros [|d u] [|e v] H1 H2; cbn [CString.lex] in *; try congruence.
  destruct (Z.eqb_spec c d) as [->|Hcd]; destruct (Z.eqb_spec d e) as [->|Hde].
  - rewrite ?Z.eqb_refl. eauto.
  - replace (d =? e) with false by lia. exact H2.
  - replace (c =? e) with false by lia. exact H1.
  - destruct (Z.ltb_spec c d); [|congruence]. destruct (Z.ltb_spec d e); [|congruence].
    replace (c =? e) with false by lia. replace (c <? e) with true by lia. discriminate.
Qed.

Lemma sort_entries_sorted l : Z.of_nat (length l) < 2 ^ 32 -> Forall ascii_name l ->
  StronglySorted before (Qsort.sort_list cmpkey l).
Proof.
  intros Hn Ha. set (cmp' := fun a b : ENTRY => CString.sign_of (CString.lex (key a) (key b))).
  assert (forall a b, Qsort.le cmp' a b <-> before a b) as Hle.
  { intros a b. unfold Qsort.le, cmp', before. destruct (CString.lex _ _); cbn; split; try congruence; lia. }
  rewrite (Qsort.sort_list_ext cmpkey cmp' ascii_name); [|intros a b Pa Pb|exact Ha].
  - assert (StronglySorted (Qsort.le cmp') (Qsort.sort_list cmp' l)) as Hs.
    { apply Qsort.sort_list_sorted; [exact Hn|intros a b; rewrite !Hle; apply lex_total|].
      intros a b c. rewrite !Hle. apply lex_trans. }
    induction Hs; constructor; auto. eapply list.Forall_impl; [eassumption|]. intros b. apply Hle.
  - unfold cmp', cmpkey. rewrite <- CString.first_diff_ascii by assumption. lia.
Qed.

(** *** The buffer after the export *)

(** Entries whose text can be read back. *)
Record ok_entry (sep : Z) (e : ENTRY) : Prop := {
  ok_first : match key e with c :: _ => Ctype.isblank c = false /\ c <> HASH | [] => False end;
  ok_key : Forall (fun c => 0 < c < 256 /\ c <> EQUALS /\ c <> sep) (key e);
  ok_data : data e = Some (value_of e);
  ok_value : Forall (fun c => 0 < c < 256) (value_of e);
  ok_nonempty : value_of e <> [];
}.

Lemma escape_range sep s : Forall (fun c => 0 < c < 256) s -> Forall (fun c => 0 <= c < 256) (escape sep s).
Proof.
  induction 1 as [|c s Hc Hs IH]; cbn [escape]; [constructor|]. apply Forall_app. split; [|exact IH].
  case_match; repeat constructor; unfold BACKSLASH; lia.
Qed.

Lemma text_range sep l : 0 <= sep < 256 -> Forall (ok_entry sep) l -> Forall (fun c => 0 <= c < 256) (text sep l).
Proof.
  intros Hs. induction 1 as [|e l He Hl IH]; [constructor|]. unfold text. cbn [map concat]. apply Forall_app. split; [|exact IH].
  unfold line. apply Forall_app; split; [|constructor; [|apply Forall_app; split]].
  - eapply list.Forall_impl; [apply (ok_key _ _ He)|]. cbn beta. lia.
  - unfold EQUALS. lia.
  - apply escape_range. apply He.
  - repeat constructor; lia.
Qed.

Lemma ok_counts sep l : Forall (ok_entry sep) l -> Forall (fun e => Forall (fun c => c <> 0) (value_of e)) l.
Proof. intros Hl. eapply list.Forall_impl; [exact Hl|]. intros e He. eapply list.Forall_impl; [apply (ok_value _ _ He)|]. cbn beta. lia. Qed.

Section Exporting.
Context (slre : str -> option (str -> bool)) (calloc : Z -> option Z).
Context (h : hsearch_data) (t : list _ENTRY) (Hinv : inv h t).
Context (sep flag : Z) (argv : list str) (Hsep : 0 <= sep < 256).

Definition exported : list ENTRY := Qsort.sort_list cmpkey (kept slre flag argv (drop 1 t)).

Context (Hok : Forall (ok_entry sep) (kept slre flag argv (drop 1 t))).
Context (Hcount : Forall (counted sep) (kept slre flag argv (drop 1 t))).

Lemma exported_ok : Forall (ok_entry sep) exported /\ Forall (counted sep) exported.
Proof. split; (eapply Permutation_Forall; [symmetry; apply Qsort.sort_list_perm|assumption]). Qed.

Lemma hexport_unfold resp size m : hexport_r slre calloc h sep flag resp size argv m =
  let n := Z.of_nat (length (text sep exported)) in
  if negb (size =? 0) && (size <? n + 1) then Some (m, inr ENOMEM) else
  let size := if size =? 0 then n else size in
  match buffer_at calloc resp size with
  | None => Some (m, inr ENOMEM)
  | Some res => Some (st (wr (wr m res (replicate (Z.to_nat size) 0)) res (text sep exported)) (res + n) NUL, inl (size, res))
  end.
Proof.
  unfold hexport_r. rewrite (i_table h t Hinv). cbn [mbind option_bind]. pose proof (i_len h t Hinv) as Hl.
  pose proof (i_size h t Hinv) as Hsz. rewrite pass1_kept by lia. cbn [mbind option_bind app]. rewrite Z.add_0_l.
  change (Z.to_nat 1) with 1%nat. fold exported. destruct exported_ok as [Hok' Hc'].
  replace (sum_len sep (kept slre flag argv (drop 1 t))) with (Z.of_nat (length (text sep exported))).
  - cbv zeta. case_match; [reflexivity|]. case_match; [|reflexivity]. rewrite pass2_wr. reflexivity.
  - rewrite <- sum_len_text; [|exact Hc'|exact (ok_counts sep _ Hok')]. apply sum_len_perm. apply Qsort.sort_list_perm.
Qed.

Lemma exported_memory m res size : Z.of_nat (length (text sep exported)) <= size -> 0 <= size ->
  let m' := st (wr (wr m res (replicate (Z.to_nat size) 0)) res (text sep exported))
               (res + Z.of_nat (length (text sep exported))) NUL in
  bytes m' res (Z.to_nat size) =
    text sep exported ++ replicate (Z.to_nat size - length (text sep exported)) 0 /\
  ld m' (res + Z.of_nat (length (text sep exported))) = 0 /\
  (forall x, x < res \/ res + size <= x -> x <> res + Z.of_nat (length (text sep exported)) -> ld m' x = ld m x).
Proof.
  intros Hle Hs m'. pose proof (text_range sep exported Hsep (proj1 exported_ok)) as Hr. set (tx := text sep exported) in *.
  split_and!.
  - apply list_eq. intros i. destruct (decide (i < Z.to_nat size)%nat) as [Hi|Hi].
    2: { rewrite !lookup_ge_None_2; [reflexivity| |rewrite length_bytes; lia]. rewrite length_app, length_replicate. lia. }
    rewrite bytes_lookup by exact Hi. unfold m'. rewrite ld_st, !ld_wr, length_replicate.
    destruct (decide (i < length tx)%nat) as [Ht|Ht].
    + replace (res + Z.of_nat i =? res + Z.of_nat (length tx)) with false by lia.
      replace ((res <=? res + Z.of_nat i) && (res + Z.of_nat i <? res + Z.of_nat (length tx))) with true by lia.
      replace (Z.to_nat (res + Z.of_nat i - res)) with i by lia. rewrite lookup_app_l by exact Ht.
      destruct (lookup_lt_is_Some_2 tx i Ht) as [x Hx]. rewrite Hx, (nth_lookup_Some _ _ _ _ Hx). f_equal.
      apply u8_small. rewrite Forall_lookup in Hr. exact (Hr i x Hx).
    + rewrite lookup_app_r by lia. rewrite lookup_replicate_2 by lia. f_equal.
      replace ((res <=? res + Z.of_nat i) && (res + Z.of_nat i <? res + Z.of_nat (length tx))) with false by lia.
      replace ((res <=? res + Z.of_nat i) && (res + Z.of_nat i <? res + Z.of_nat (Z.to_nat size))) with true by lia.
      case_match; [reflexivity|]. rewrite nth_lookup. destruct (replicate _ _ !! _) eqn:E; [|reflexivity].
      apply lookup_replicate in E as [-> _]. reflexivity.
  - unfold m'. rewrite ld_st_same. reflexivity.
  - intros x Hx Hn. unfold m'. rewrite ld_st_other by exact Hn. rewrite !ld_wr, length_replicate.
    replace ((res <=? x) && (x <? res + Z.of_nat (length tx))) with false by lia.
    replace ((res <=? x) && (x <? res + Z.of_nat (Z.to_nat size))) with false by lia. reflexivity.
Qed.

(** With a size that leaves room for it, [hexport_r] writes the text of the
    selected entries, sorted by name, and NULs up to the size into the buffer, and
    nothing outside it; a size without room is an error that writes nothing. *)
Theorem hexport_writes res size m : 0 < size ->
  let tx := text sep exported in
  if size <? Z.of_nat (length tx) + 1 then hexport_r slre calloc h sep flag (User res) size argv m = Some (m, inr ENOMEM)
  else exists m', hexport_r slre calloc h sep flag (User res) size argv m = Some (m', inl (size, res)) /\
    bytes m' res (Z.to_nat size) = tx ++ replicate (Z.to_nat size - length tx) 0 /\
    (forall x, x < res \/ res + size <= x -> ld m' x = ld m x) /\
    exported ≡ₚ kept slre flag argv (drop 1 t) /\
    (Forall ascii_name (kept slre flag argv (drop 1 t)) -> StronglySorted before exported).
Proof.
  intros Hs tx. rewrite hexport_unfold. cbv zeta. fold tx. replace (size =? 0) with false by lia. cbn [negb andb buffer_at].
  destruct (Z.ltb_spec size (Z.of_nat (length tx) + 1)) as [Hlt|Hge]; [reflexivity|].
  destruct (exported_memory m res size ltac:(fold tx; lia) ltac:(lia)) as (Hb & _ & Hfr). fold tx in Hb, Hfr.
  eexists. split; [reflexivity|]. split_and!; [exact Hb|intros x Hx; apply Hfr; lia|apply Qsort.sort_list_perm|].
  apply sort_entries_sorted. pose proof (kept_length slre flag argv (drop 1 t)) as Hk. rewrite length_drop in Hk.
  pose proof (i_len h t Hinv). pose proof (i_size h t Hinv). lia.
Qed.

(** With size 0 the buffer is [totlen] bytes long, and the terminating NUL is
    written to the byte after it. *)
Theorem hexport_overruns m resp : let n := Z.of_nat (length (text sep exported)) in
  match buffer_at calloc resp n with
  | None => hexport_r slre calloc h sep flag resp 0 argv m = Some (m, inr ENOMEM)
  | Some res => exists m', hexport_r slre calloc h sep flag resp 0 argv m = Some (m', inl (n, res)) /\
      bytes m' res (Z.to_nat n) = text sep exported /\ ld m' (res + n) = 0
  end.
Proof.
  intros n. rewrite hexport_unfold. cbv zeta. fold n. cbn [Z.eqb negb andb].
  destruct (buffer_at calloc resp n) as [res|]; [|reflexivity].
  destruct (exported_memory m res n ltac:(lia) ltac:(lia)) as (Hb & Hz & _). fold n in Hb, Hz.
  eexists. split; [reflexivity|]. split; [|exact Hz]. rewrite Hb. unfold n. rewrite Nat2Z.id, Nat.sub_diag. apply app_nil_r.
Qed.

End Exporting.

(** ** Reading the text back *)

Lemma span_stop p a c r : Forall (fun x => p x = true) a -> p c = false -> span p (a ++ c :: r) = Some (a, c :: r).
Proof.
  intros Ha Hc. induction Ha as [|x a Hx Ha IH]; cbn [app span]; [rewrite Hc; reflexivity|].
  rewrite Hx, IH. reflexivity.
Qed.

Lemma parse_value_escape sep s r : Forall (fun c => 0 < c < 256) s -> sep <> BACKSLASH ->
  parse_value sep (escape sep s ++ sep :: r) = Some (s, sep :: r).
Proof.
  intros Hs Hb. induction Hs as [|c s Hc Hs IH]; cbn [escape app].
  { cbn [parse_value]. rewrite Z.eqb_refl, orb_true_r. reflexivity. }
  destruct ((c =? sep) || (c =? BACKSLASH)) eqn:E; cbn [app parse_value].
  - replace ((BACKSLASH =? 0) || (BACKSLASH =? sep)) with false by (unfold BACKSLASH in *; lia).
    rewrite Z.eqb_refl. replace (c =? 0) with false by lia. rewrite IH. reflexivity.
  - replace ((c =? 0) || (c =? sep)) with false by lia. replace (c =? BACKSLASH) with false by lia. rewrite IH. reflexivity.
Qed.

(** The line of an entry is parsed to the entry. *)
Lemma parse_entry_line sep e r : ok_entry sep e -> sep <> BACKSLASH -> sep <> EQUALS ->
  parse_entry sep (line sep e ++ r) = Some (Insert (key e) (value_of e), r).
Proof.
  intros [Hf Hk _ Hv Hne] Hb Heq. unfold parse_entry, line. rewrite <- app_assoc. cbn [app]. rewrite <- app_assoc. cbn [app].
  set (tl := escape sep (value_of e) ++ sep :: r).
  assert (exists c1 tl', tl = c1 :: tl' /\ c1 <> 0 /\ c1 <> sep) as (c1 & tl' & Etl & Hc10 & Hc1s).
  { unfold tl. destruct (value_of e) as [|c v]; [contradiction|]. apply Forall_cons_1 in Hv as [Hc _]. cbn [escape].
    destruct ((c =? sep) || (c =? BACKSLASH)) eqn:E; cbn [app]; eexists _, _; (split; [reflexivity|]);
      unfold BACKSLASH in *; lia. }
  destruct (key e) as [|c k] eqn:Ek; [destruct Hf|]. destruct Hf as [Hbl Hh].
  replace (skip_while Ctype.isblank ((c :: k) ++ EQUALS :: tl)) with (Some ((c :: k) ++ EQUALS :: tl))
    by (cbn [app skip_while]; rewrite Hbl; reflexivity).
  cbn [mbind option_bind head app]. replace (c =? HASH) with false by lia.
  change (c :: k ++ EQUALS :: tl) with ((c :: k) ++ EQUALS :: tl).
  rewrite span_stop; [|eapply list.Forall_impl; [exact Hk|]; cbn beta; unfold EQUALS; lia|reflexivity].
  cbn [mbind option_bind head]. change (EQUALS =? 0) with false. change ((EQUALS :: tl) !! 1%nat) with (tl !! 0%nat).
  replace (tl !! 0%nat) with (Some c1) by (rewrite Etl; reflexivity). cbn [mbind option_bind].
  replace ((c1 =? 0) || (EQUALS =? sep) || (c1 =? sep)) with false by lia.
  change (drop 1 (EQUALS :: tl)) with tl. unfold tl. rewrite parse_value_escape by assumption. reflexivity.
Qed.

(** ** Room in the table *)

(** At most [c] slots of the table were ever used. *)
Definition room (h : hsearch_data) (t : list _ENTRY) (c : nat) : Prop :=
  0 <= filled h <= Z.of_nat c /\
  exists L, (length L <= c)%nat /\ forall i, in_table h i -> used_at t i <> 0 -> i ∈ L.

Lemma room_free h t c : room h t c -> Z.of_nat c < size h -> exists i, in_table h i /\ used_at t i = 0.
Proof.
  intros (_ & L & HL & Hused) Hc.
  destruct (decide (Exists (fun i => used_at t i = 0) (seqZ 1 (size h)))) as [He|He].
  - apply Exists_exists in He as (i & Hi & E). apply elem_of_seqZ in Hi. exists i. split; [unfold in_table; lia|exact E].
  - exfalso. rewrite <- Forall_Exists_neg in He. assert (seqZ 1 (size h) ⊆+ L) as Hsub.
    { apply NoDup_submseteq; [apply NoDup_seqZ|]. intros i Hi. apply Hused; [apply elem_of_seqZ in Hi; unfold in_table; lia|].
      rewrite Forall_forall in He. apply He. exact Hi. }
    apply submseteq_length in Hsub. rewrite length_seqZ in Hsub. lia.
Qed.

Lemma room_grows cbi fli h t h' t' c : inv h t -> grows cbi fli h t h' t' -> room h t c -> Z.of_nat c < size h -> room h' t' (S c).
Proof.
  intros Hinv (_ & Hsz & Hfill & i & s' & Hi & ->) (Hf & L & HL & Hused) Hc.
  pose proof (i_size h t Hinv). split.
  - destruct Hfill as [->| ->]; [lia|]. rewrite u32_small by lia. lia.
  - exists (i :: L). split; [cbn; lia|]. intros x Hx Hu. destruct (decide (x = i)) as [->|Hne]; [constructor|].
    constructor. apply Hused; [unfold in_table in *; lia|]. unfold used_at, slot_at in *. unfold in_table in *.
    replace (0 <=? x) with true in * by lia. rewrite list_lookup_insert_ne in Hu by lia. exact Hu.
Qed.

Lemma room_fresh p ok : room (fresh p ok) (slots (fresh p ok)) 0.
Proof.
  split; [cbn; lia|]. exists []. split; [reflexivity|]. intros i _ Hu. exfalso. apply Hu.
  unfold used_at, slot_at. destruct (0 <=? i); [|reflexivity]. destruct (slots (fresh p ok) !! Z.to_nat i) eqn:E; [|reflexivity].
  unfold slots, fresh in E. cbn in E. apply lookup_replicate in E as [-> _]. reflexivity.
Qed.

(** ** The round trip *)

Section RoundTrip.
Context (strdup : str -> option str) (cbi fli : ENTRY -> ENTRY) `{!Env strdup cbi fli}.
Context (sep : Z) (Hsep : 0 <= sep < 256) (Hb : sep <> BACKSLASH) (Heq : sep <> EQUALS).

Lemma text_cons e es r : text sep (e :: es) ++ r = line sep e ++ text sep es ++ r.
Proof. unfold text. cbn [map concat]. symmetry. apply app_assoc. Qed.

Lemma line_length e : (0 < length (line sep e))%nat.
Proof. unfold line. rewrite length_app. cbn [length]. lia. Qed.

Lemma text_length es : (length es <= length (text sep es))%nat.
Proof.
  induction es as [|e es IH]; [reflexivity|]. unfold text. cbn [map concat length]. fold (text sep es).
  rewrite length_app. pose proof (line_length e). lia.
Qed.

(** The loop goes on at the next line and stops at the NUL after the last. *)
Lemma continues es pad : Forall (ok_entry sep) es ->
  (1 + 0 <? Z.of_nat (length (text sep es ++ 0 :: pad))) && negb (nth 0 (text sep es ++ 0 :: pad) 0 =? 0) =
  negb (length es =? 0)%nat.
Proof.
  intros [|e es' He Hes]; [cbn; apply andb_false_r|]. rewrite text_cons. unfold line. pose proof (ok_first sep e He) as Hf.
  destruct (key e) as [|c k] eqn:Ek; [destruct Hf|]. pose proof (ok_key sep e He) as Hk. rewrite Ek in Hk.
  apply Forall_cons_1 in Hk as [Hc _]. cbn [app nth length negb Nat.eqb]. rewrite !length_app. cbn [length]. lia.
Qed.

Lemma import_text flag pad : forall es fuel h t c, inv h t -> permissive cbi fli h t -> room h t c ->
  Z.of_nat c + Z.of_nat (length es) <= size h -> Forall (ok_entry sep) es -> NoDup (map key es) -> es <> [] ->
  (length es <= fuel)%nat ->
  exists h' t', import_loop strdup cbi fli fuel sep flag 0 h [] (text sep es ++ 0 :: pad) = Some (Done h' []) /\ inv h' t' /\
    forall k d, holds h' t' k d <-> (exists e, e ∈ es /\ key e = k /\ value_of e = d) \/ ((k ∉ map key es) /\ holds h t k d).
Proof.
  induction es as [|e es IH]; intros fuel h t c Hinv Hperm Hroom Hsz Hok Hnd Hne Hf; [contradiction|].
  destruct fuel as [|fuel]; [cbn in Hf; lia|]. apply Forall_cons_1 in Hok as [He Hes]. cbn [map] in Hnd.
  apply NoDup_cons in Hnd as [Hni Hnd]. cbn [length] in *. cbn [import_loop].
  rewrite text_cons, parse_entry_line by assumption. cbn [mbind option_bind].
  assert ((length (key e) =? 0)%nat = false) as ->.
  { pose proof (ok_first sep e He) as Hf'. destruct (key e); [destruct Hf'|reflexivity]. }
  unfold drop_var_from_set. cbn [length Nat.eqb]. cbn beta iota.
  destruct (enters strdup cbi fli h t (Entry (key e) (Some (value_of e)) None 0) (value_of e) flag Hinv Hperm eq_refl)
    as (r & t1 & -> & _ & [Hinv1 Hst] & Hgr).
  { destruct Hroom as [Hfill _]. lia. }
  { right. right. apply (room_free h t c Hroom). lia. }
  pose proof (room_grows cbi fli h t _ _ c Hinv Hgr Hroom ltac:(lia)) as Hroom1. destruct Hgr as (Hperm1 & Hsz1 & _).
  cbn [mbind option_bind key] in *. rewrite continues by exact Hes. destruct es as [|e2 es].
  - cbn [length Nat.eqb negb]. exists (htab r), t1. split_and!; auto. intros k d. rewrite Hst. split.
    + intros [[-> ->]|[Hk Hh]]; [left|right].
      * exists e. split_and!; auto. constructor.
      * split; [|exact Hh]. cbn [map]. rewrite list_elem_of_singleton. exact Hk.
    + intros [(x & Hx & <- & <-)|[Hk Hh]]; [left|right].
      * apply list_elem_of_singleton in Hx as ->. auto.
      * cbn [map] in Hk. rewrite list_elem_of_singleton in Hk. auto.
  - cbn [length Nat.eqb negb].
    destruct (IH fuel (htab r) t1 (S c) Hinv1 Hperm1 Hroom1) as (h' & t' & -> & Hinv' & Hh');
      [cbn [length] in *; lia|exact Hes|exact Hnd|discriminate|cbn [length] in *; lia|].
    exists h', t'. split_and!; auto. intros k d. rewrite Hh', Hst. cbn [map]. split.
    + intros [(x & Hx & Hk & Hd)|[Hk [[-> ->]|[Hke Hh]]]].
      * left. exists x. split_and!; auto. constructor. exact Hx.
      * left. exists e. split_and!; auto. constructor.
      * right. split; [|exact Hh]. apply not_elem_of_cons. auto.
    + intros [(x & Hx & <- & <-)|[Hk Hh]].
      * apply elem_of_cons in Hx as [->|Hx]; [right|left; exists x; auto]. auto.
      * apply not_elem_of_cons in Hk as [Hk1 Hk2]. right. split; [exact Hk2|right; auto].
Qed.

(** *** All the entries of a table *)

Lemma kept_all slre ss e : e ∈ kept slre 0 [] ss <-> exists i s, ss !! i = Some s /\ 0 < used s /\ entry s = e.
Proof.
  induction ss as [|s ss IH].
  { split; [intros H; apply elem_of_nil in H as []|intros (i & s & H & _); discriminate]. }
  cbn [kept]. change (selected slre 0 [] (entry s)) with true. rewrite andb_true_r. split.
  - destruct (Z.ltb_spec 0 (used s)) as [Hu|Hu].
    + intros H. apply elem_of_cons in H as [->|H]; [exists 0%nat, s; auto|]. apply IH in H as (i & s' & H). exists (S i), s'. exact H.
    + intros H. apply IH in H as (i & s' & H). exists (S i), s'. exact H.
  - intros ([|i] & s' & H & Hu & <-); cbn in H.
    + injection H as <-. replace (0 <? used s) with true by lia. constructor.
    + case_match; [constructor|]; apply IH; eauto.
Qed.

Lemma live_slot h t i s : inv h t -> drop 1 t !! i = Some s -> 0 < used s -> live_at h t (Z.of_nat (S i)) s.
Proof.
  intros Hinv Hs Hu. rewrite lookup_drop in Hs. pose proof (lookup_lt_Some _ _ _ Hs). pose proof (i_len h t Hinv).
  split_and!; [unfold in_table; lia| |exact Hu]. unfold slot_at. replace (0 <=? Z.of_nat (S i)) with true by lia.
  rewrite Nat2Z.id. exact Hs.
Qed.

Lemma kept_holds slre h t k d : inv h t ->
  holds h t k d <-> exists e, e ∈ kept slre 0 [] (drop 1 t) /\ key e = k /\ data e = Some d.
Proof.
  intros Hinv. split.
  - intros (i & s & (Hi & Hs & Hu) & Hk & Hd). exists (entry s). split_and!; auto. apply kept_all. unfold in_table, slot_at in *.
    replace (0 <=? i) with true in Hs by lia. exists (Z.to_nat i - 1)%nat, s. split_and!; auto.
    rewrite lookup_drop. rewrite <- Hs. f_equal. lia.
  - intros (e & He & Hk & Hd). apply kept_all in He as (i & s & Hs & Hu & <-).
    exists (Z.of_nat (S i)), s. split_and!; auto. apply live_slot; auto.
Qed.

Lemma kept_nodup_aux slre ss : (forall i j s s', ss !! i = Some s -> ss !! j = Some s' -> 0 < used s -> 0 < used s' ->
  key (entry s) = key (entry s') -> i = j) -> NoDup (map key (kept slre 0 [] ss)).
Proof.
  induction ss as [|s ss IH]; intros H; cbn [kept map]; [constructor|].
  change (selected slre 0 [] (entry s)) with true. rewrite andb_true_r.
  assert (NoDup (map key (kept slre 0 [] ss))) as Hnd.
  { apply IH. intros i j s1 s2 H1 H2 U1 U2 E. cut (S i = S j); [lia|]. apply (H (S i) (S j) s1 s2); auto. }
  destruct (Z.ltb_spec 0 (used s)) as [Hu|]; [|exact Hnd]. cbn [map]. constructor; [|exact Hnd].
  intros Hin. apply list_elem_of_fmap in Hin as (e & Ek & He). apply kept_all in He as (i & s' & Hs' & Hu' & <-).
  discriminate (H 0%nat (S i) s s' eq_refl Hs' Hu Hu' Ek).
Qed.

Lemma kept_nodup slre h t : inv h t -> NoDup (map key (kept slre 0 [] (drop 1 t))).
Proof.
  intros Hinv. apply kept_nodup_aux. intros i j s s' Hs Hs' Hu Hu' E.
  pose proof (i_unique h t Hinv _ _ _ _ (live_slot h t i s Hinv Hs Hu) (live_slot h t j s' Hinv Hs' Hu') E). lia.
Qed.

Context (calloc malloc : Z -> bool) (Hcalloc : forall n, calloc n = true) (Hmalloc : forall n, malloc n = true).
Context (slre : str -> option (str -> bool)) (galloc : Z -> option Z).

(** An empty text: the name is empty, and nothing is deleted. *)
Lemma import_nothing h t pad fuel : inv h t -> permissive cbi fli h t -> (forall k, ~ present h t k) -> (0 < fuel)%nat ->
  nth 0 pad 0 = 0 -> import_loop strdup cbi fli fuel sep 0 0 h [] (0 :: pad) = Some (Done h []).
Proof.
  intros Hinv Hp Hab Hf Hpad. destruct fuel as [|fuel]; [lia|]. cbn [import_loop].
  replace (parse_entry sep (0 :: pad)) with (Some (Delete [], pad)) by reflexivity.
  cbn [mbind option_bind]. unfold drop_var_from_set. cbn [length Nat.eqb]. cbn beta iota.
  destruct (deletes strdup cbi fli h t [] 0 Hinv Hp) as (rc & e & h' & -> & Hr). cbn [mbind option_bind].
  destruct Hr as [[Hpr _]|(_ & _ & _ & ->)]; [destruct (Hab _ Hpr)|]. rewrite Hpad. cbn [Z.eqb negb].
  rewrite andb_false_r. reflexivity.
Qed.

Lemma himport_text h0 es n sz : importable cbi fli h0 -> Forall (ok_entry sep) es -> NoDup (map key es) ->
  Z.of_nat (length es) <= nent sz -> sz = Z.of_nat (length (text sep es)) + Z.of_nat n ->
  exists h' t', himport_r strdup calloc malloc cbi fli h0 (text sep es ++ replicate n 0) sz sep 0 false [] = Some (1, None, h') /\
    inv h' t' /\ forall k d, holds h' t' k d <-> exists e, e ∈ es /\ key e = k /\ value_of e = d.
Proof.
  intros Him Hok Hnd Hn Hsz. unfold himport_r. rewrite Hmalloc. cbn [negb].
  destruct (open_table_good cbi fli calloc Hcalloc h0 sz 0 [] Him ltac:(lia)) as (h1 & -> & _ & Hfr).
  destruct (Hfr eq_refl eq_refl) as (p & Eh1 & Hp & Hinv1 & Hperm1). cbn [mbind option_bind Z.eqb].
  assert (forall k, ~ present h1 (slots h1) k) as Hempty.
  { intros k (i & s & Hl & _). rewrite Eh1 in Hl. exact (fresh_not_live _ _ _ _ Hl). }
  replace (take (Z.to_nat sz) (text sep es ++ replicate n 0) ++ [0]) with (text sep es ++ 0 :: replicate n 0).
  2: { rewrite take_ge by (rewrite length_app, length_replicate; lia). rewrite <- app_assoc. f_equal.
       change (0 :: replicate n 0) with (replicate (1 + n) 0). rewrite Nat.add_comm, replicate_add. reflexivity. }
  destruct es as [|e es].
  - exists h1, (slots h1). split_and!; [|exact Hinv1|].
    + cbn [text map concat app]. case_match; [reflexivity|].
      rewrite (import_nothing h1 (slots h1)); auto; [cbn; lia|]. destruct n; reflexivity.
    + intros k d. split; [intros Hh; destruct (Hempty _ (holds_present _ _ _ _ Hh))|].
      intros (e & He & _). apply elem_of_nil in He as [].
  - pose proof (text_length (e :: es)) as Htl. cbn [length] in Htl. replace (sz =? 0) with false by lia.
    change (map (@Some str) []) with (@nil (option str)). cbn beta iota.
    destruct (import_text 0 (replicate n 0) (e :: es) (length (text sep (e :: es) ++ 0 :: replicate n 0)) h1 (slots h1) 0 Hinv1 Hperm1)
      as (h' & t' & -> & Hinv' & Hh'); auto.
    + rewrite Eh1. apply room_fresh.
    + rewrite Eh1. cbn [HashTable.size fresh]. lia.
    + rewrite length_app. cbn [length]. lia.
    + cbn [mbind option_bind]. exists h', t'. split_and!; [reflexivity|exact Hinv'|]. intros k d. rewrite Hh'. split; [|auto].
      intros [H|[_ H]]; [exact H|destruct (Hempty _ (holds_present _ _ _ _ H))].
Qed.

(** What a successful export leaves in the buffer. *)
Lemma hexport_bytes h t resp size m m' sz res : inv h t -> 0 <= size ->
  Forall (ok_entry sep) (kept slre 0 [] (drop 1 t)) -> Forall (counted sep) (kept slre 0 [] (drop 1 t)) ->
  hexport_r slre galloc h sep 0 resp size [] m = Some (m', inl (sz, res)) ->
  exists n, bytes m' res (Z.to_nat sz) = text sep (exported slre t 0 []) ++ replicate n 0 /\
    sz = Z.of_nat (length (text sep (exported slre t 0 []))) + Z.of_nat n.
Proof.
  intros Hinv Hs0 Hok Hcnt Hexp. rewrite (hexport_unfold slre galloc h t Hinv sep 0 [] Hok Hcnt) in Hexp. cbv zeta in Hexp.
  set (tx := text sep (exported slre t 0 [])) in *.
  destruct (negb (size =? 0) && (size <? Z.of_nat (length tx) + 1)) eqn:Efit; [discriminate|].
  destruct (buffer_at _ _ _) as [b|]; [|discriminate]. injection Hexp as <- <- <-.
  set (sz := if size =? 0 then Z.of_nat (length tx) else size) in *.
  assert (Z.of_nat (length tx) <= sz) as Hle by (unfold sz; case_match; lia).
  destruct (exported_memory slre t sep 0 [] Hsep Hok Hcnt m b sz Hle ltac:(lia)) as (Hbytes & _ & _).
  exists (Z.to_nat sz - length tx)%nat. split; [exact Hbytes|lia].
Qed.

(** The import of the export of a table has the contents of the table, whatever
    table it replaces: for entries with a value, with names that are not empty, do
    not begin with a blank or ["#"] and contain neither ["="] nor the separator,
    and no more of them than a new table has room for. *)
Theorem himport_hexport h t h0 resp size m m' sz res :
  inv h t -> importable cbi fli h0 -> 0 <= size ->
  Forall (ok_entry sep) (kept slre 0 [] (drop 1 t)) -> Forall (counted sep) (kept slre 0 [] (drop 1 t)) ->
  hexport_r slre galloc h sep 0 resp size [] m = Some (m', inl (sz, res)) ->
  Z.of_nat (length (kept slre 0 [] (drop 1 t))) <= nent sz ->
  exists h' t', himport_r strdup calloc malloc cbi fli h0 (bytes m' res (Z.to_nat sz)) sz sep 0 false [] = Some (1, None, h') /\
    inv h' t' /\ forall k d, holds h' t' k d <-> holds h t k d.
Proof.
  intros Hinv Him Hs0 Hok Hcnt Hexp Hn.
  destruct (hexport_bytes h t resp size m m' sz res Hinv Hs0 Hok Hcnt Hexp) as (n & -> & Hsz).
  destruct (exported_ok slre t sep 0 [] Hok Hcnt) as [Hoke _].
  assert (exported slre t 0 [] ≡ₚ kept slre 0 [] (drop 1 t)) as Hperm by apply Qsort.sort_list_perm.
  destruct (himport_text h0 (exported slre t 0 []) n sz Him Hoke) as (h' & t' & E & Hinv' & Hh').
  - rewrite (Permutation_map key Hperm). apply (kept_nodup slre h t Hinv).
  - rewrite (Permutation_length Hperm). exact Hn.
  - exact Hsz.
  - exists h', t'. split_and!; [exact E|exact Hinv'|]. intros k d. rewrite Hh', (kept_holds slre h t k d Hinv).
    split; intros (e & He & Hk & Hd); exists e; rewrite ?Hperm in *; split_and!; auto.
    + rewrite <- Hd. apply (ok_data sep e). rewrite Forall_forall in Hok. apply Hok. exact He.
    + unfold value_of. rewrite Hd. reflexivity.
Qed.

End RoundTrip.

(** ** Concrete texts *)

Abbreviation import := (himport_r Some (fun _ => true) (fun _ => true) no_callback id).
Abbreviation export := (hexport_r (fun _ => None) (fun _ => Some 0x1000)).

(** With [crlf_is_lf], the bytes behind the shortened text are not cleared: the
    last value, if the text does not end in a newline, takes them along.  Here
    [b=2] is imported as [b=22]. *)
Theorem himport_crlf_stale :
  exists h' s, import (demo 0) [97; 61; 49; 13; 10; 98; 61; 50] 8 LF H_NOCLEAR true [] = Some (1, None, h') /\
    slot_at (slots h') 4 = Some s /\ key (entry s) = [98] /\ data (entry s) = Some [50; 50].
Proof. eexists _, _. split; [vm_compute; reflexivity|]. split; [reflexivity|]. split; reflexivity. Qed.

Lemma demo_importable : importable no_callback id (demo 0).
Proof.
  split; try discriminate. intros t [= <-]. split; [apply demo_inv; lia|apply demo_permissive; lia].
Qed.

Lemma demo_kept : kept (fun _ => None) 0 [] (drop 1 (demo_slots 0)) = [Entry [97] (Some [49]) None 0].
Proof. reflexivity. Qed.

Lemma demo_ok sep : sep = LF \/ sep = NUL -> Forall (ok_entry sep) (kept (fun _ => None) 0 [] (drop 1 (demo_slots 0))) /\
  Forall (counted sep) (kept (fun _ => None) 0 [] (drop 1 (demo_slots 0))).
Proof.
  intros Hs. rewrite demo_kept. split; (apply Forall_cons; split; [|constructor]).
  - split; cbn [key data value_of default]; unfold HASH, EQUALS, NUL, LF in *; try reflexivity; try discriminate.
    + split; [reflexivity|lia].
    + repeat constructor; lia.
    + repeat constructor; lia.
  - right. cbn. intros [H|[]]. discriminate.
Qed.

Lemma himport_total_witness :
  exists rc e h', import (demo 0) [35; 61; 0; 255] 4 LF 0 true [[97]] = Some (rc, e, h') /\ exists t', inv h' t'.
Proof.
  apply (himport_total Some no_callback id (fun _ => true) (fun _ => true) (fun _ => eq_refl) (fun _ => eq_refl)
    (demo 0) [35; 61; 0; 255] 4 LF 0 true [[97]] demo_importable). cbn. lia.
Defined.

Lemma hexport_writes_witness : exists m', export (demo 0) LF 0 (User 0x200) 8 [] (fun _ => 7) = Some (m', inl (8, 0x200)) /\
  bytes m' 0x200 8 = [97; 61; 49; 10; 0; 0; 0; 0].
Proof.
  destruct (demo_ok LF (or_introl eq_refl)) as [Hok Hc].
  destruct (hexport_writes (fun _ => None) (fun _ => Some 0x1000) (demo 0) (demo_slots 0) (demo_inv 0 (Z.le_refl 0)) LF 0 []
    ltac:(unfold LF; lia) Hok Hc 0x200 8 (fun _ => 7) ltac:(lia)) as (m' & E & Hb & _). exists m'. split; [exact E|exact Hb].
Defined.

(** In a memory of sevens, the byte after the four allocated ones is overwritten. *)
Lemma hexport_overruns_witness : exists m', export (demo 0) LF 0 Allocate 0 [] (fun _ => 7) = Some (m', inl (4, 0x1000)) /\
  ld m' (0x1000 + 4) = 0.
Proof.
  destruct (demo_ok LF (or_introl eq_refl)) as [Hok Hc].
  destruct (hexport_overruns (fun _ => None) (fun _ => Some 0x1000) (demo 0) (demo_slots 0) (demo_inv 0 (Z.le_refl 0)) LF 0 []
    ltac:(unfold LF; lia) Hok Hc (fun _ => 7) Allocate) as (m' & E & _ & Hz). exists m'. split; [exact E|exact Hz].
Defined.

Lemma himport_hexport_witness : exists m' h' t', export (demo 0) NUL 0 (User 0x200) 8 [] (fun _ => 7) = Some (m', inl (8, 0x200)) /\
  import (Htab None 0 0 None) (bytes m' 0x200 8) 8 NUL 0 false [] = Some (1, None, h') /\
  forall k d, holds h' t' k d <-> holds (demo 0) (demo_slots 0) k d.
Proof.
  destruct (demo_ok NUL (or_intror eq_refl)) as [Hok Hc]. eexists.
  edestruct (himport_hexport Some no_callback id NUL ltac:(unfold NUL; lia) ltac:(discriminate) ltac:(discriminate)
    (fun _ => true) (fun _ => true) (fun _ => eq_refl) (fun _ => eq_refl) (fun _ => None) (fun _ => Some 0x1000)
    (demo 0) (demo_slots 0) (Htab None 0 0 None) (User 0x200) 8 (fun _ => 7)) as (h' & t' & E & _ & Hh).
  - apply demo_inv. lia.
  - split; discriminate.
  - lia.
  - exact Hok.
  - exact Hc.
  - reflexivity.
  - vm_compute. discriminate.
  - exists h', t'. split; [reflexivity|]. split; [exact E|exact Hh].
Defined.

End EnvText.
