(* ===== verification/Membuff.v ===== *)
(** * Membuff: the boot loader's ring buffer

    U-Boot's lib/membuff.c, the buffer of the console recorder: a region of memory
    with a head where bytes are written and a tail where they are read.  One byte
    is left unused, so that [head = tail] means empty.  The operations work on the
    memory of Cmem.v with the [memcpy] and [memmove] of CString.v.  [contents] is
    the sequence of bytes the buffer stands for; the theorems show that the
    operations are those of a bounded FIFO queue. *)

From stdpp Require Import base list option.
From Stdlib Require Import ZifyBool.
From S2P Require Import Prelude Cmem CString.

Module Membuff.

Record membuff := Mb { start : Z; end_ : Z; head : Z; tail : Z }.

Definition E2BIG : Z := 7.
Definition ENOMEM : Z := 12.

Definition set_head (mb : membuff) (h : Z) : membuff := Mb (start mb) (end_ mb) h (tail mb).
Definition set_tail (mb : membuff) (t : Z) : membuff := Mb (start mb) (end_ mb) (head mb) t.

(** ** The code *)

Definition membuff_purge (mb : membuff) : membuff := Mb (start mb) (end_ mb) (start mb) (start mb).

(** The length, the offset and the buffer. *)
Definition membuff_putrawflex (mb : membuff) (maxlen : Z) (update : bool) : Z * Z * membuff :=
  let offset := head mb - start mb in
  if start mb =? 0 then (0, offset, mb) else
  if tail mb <=? head mb then
    let len := end_ mb - head mb - 1 in
    let len := if (0 <=? maxlen) && (maxlen <? len) then maxlen else len in
    let mb := if update then set_head mb (head mb + len) else mb in
    if ((maxlen <? 0) || (len <? maxlen)) && negb (tail mb =? start mb)
    then (len + 1, offset, if update then set_head mb (start mb) else mb)
    else (len, offset, mb)
  else
    let len := tail mb - head mb - 1 in
    let len := if (0 <=? maxlen) && (maxlen <? len) then maxlen else len in
    (len, offset, if update then set_head mb (head mb + len) else mb).

(** The length, the address to write to and the buffer. *)
Definition membuff_putraw (mb : membuff) (maxlen : Z) (update : bool) : Z * Z * membuff :=
  let '(size, offset, mb) := membuff_putrawflex mb maxlen update in (size, start mb + offset, mb).

Definition membuff_putbyte (m : mem) (mb : membuff) (ch : Z) : bool * mem * membuff :=
  let '(size, data, mb) := membuff_putraw mb 1 true in
  if negb (size =? 1) then (false, m, mb) else (true, st m data ch, mb).

(** The length, the address to read from ([data] is left alone if there is none)
    and the buffer. *)
Definition membuff_getraw (mb : membuff) (maxlen : Z) (update : bool) (data : Z) : Z * Z * membuff :=
  if tail mb <? head mb then
    let len := head mb - tail mb in
    let len := if (0 <=? maxlen) && (maxlen <? len) then maxlen else len in
    (len, tail mb, if update then set_tail mb (tail mb + len) else mb)
  else if head mb <? tail mb then
    let len := end_ mb - tail mb in
    let len := if (0 <=? maxlen) && (maxlen <? len) then maxlen else len in
    (len, tail mb,
     if update then
       let mb := set_tail mb (tail mb + len) in
       if tail mb =? end_ mb then set_tail mb (start mb) else mb
     else mb)
  else (0, data, mb).

Definition membuff_getbyte (m : mem) (mb : membuff) : Z * membuff :=
  let '(len, data, mb) := membuff_getraw mb 1 true 0 in
  (if negb (len =? 1) then -1 else ld m data, mb).

Definition membuff_peekbyte (m : mem) (mb : membuff) : Z * membuff :=
  let '(len, data, mb) := membuff_getraw mb 1 false 0 in
  (if negb (len =? 1) then -1 else ld m data, mb).

(** [for (i = 0; len && i < 2; i++)], [k] rounds left. *)
Fixpoint get_loop (k : nat) (m : mem) (mb : membuff) (len data buffptr maxlen : Z) : Z * mem * membuff :=
  match k with
  | O => (buffptr, m, mb)
  | S k =>
    if len =? 0 then (buffptr, m, mb) else
    let '(len, data, mb) := membuff_getraw mb maxlen true data in
    let m := (CString.memcpy m buffptr data len).2 in
    get_loop k m mb len data (buffptr + len) (maxlen - len)
  end.

Definition membuff_get (m : mem) (mb : membuff) (buff maxlen : Z) : Z * mem * membuff :=
  let '(buffptr, m, mb) := get_loop 2 m mb 1 0 buff maxlen in (buffptr - buff, m, mb).

Fixpoint put_loop (k : nat) (m : mem) (mb : membuff) (buff length written : Z) : Z * mem * membuff :=
  match k with
  | O => (written, m, mb)
  | S k =>
    let '(towrite, data, mb) := membuff_putraw mb length true in
    let m := (CString.memcpy m data buff towrite).2 in
    put_loop k m mb (buff + towrite) (length - towrite) (written + towrite)
  end.

Definition membuff_put (m : mem) (mb : membuff) (buff length : Z) : Z * mem * membuff :=
  put_loop 2 m mb buff length 0.

Definition membuff_isempty (mb : membuff) : bool := head mb =? tail mb.

Definition membuff_avail (mb : membuff) : Z :=
  let '(a1, data, copy) := membuff_getraw mb (-1) true 0 in
  let '(a2, _, _) := membuff_getraw copy (-1) true data in
  a1 + a2.

Definition membuff_size (mb : membuff) : Z := end_ mb - start mb.

Definition membuff_makecontig (m : mem) (mb : membuff) : bool * mem * membuff :=
  let finish m topsize botsize :=
    let m := (CString.memcpy m (start mb) (tail mb) topsize).2 in
    (true, m, Mb (start mb) (end_ mb) (start mb + topsize + botsize) (start mb)) in
  if head mb <? tail mb then
    let topsize := end_ mb - tail mb in
    let botsize := head mb - start mb in
    if tail mb <=? head mb + topsize then (false, m, mb) else
    finish (CString.memmove m (start mb + topsize) (start mb) botsize).2 topsize botsize
  else finish m (head mb - tail mb) 0.

Definition membuff_free (mb : membuff) : Z :=
  if end_ mb =? start mb then 0 else end_ mb - start mb - 1 - membuff_avail mb.

(** The loop of [membuff_readline]; [str], [s], [len] and the memory when it
    ends, and whether it met the end of a line. *)
Fixpoint readline_loop (fuel : nat) (m : mem) (mb : membuff) (str s end' len maxlen minch : Z) :
    option (bool * Z * Z * Z * mem) :=
  match fuel with
  | O => None
  | S fuel =>
    if (s <? end') && (len <? maxlen - 1) then
      let m := st m str (ld m s) in
      let s := s + 1 in
      let len := len + 1 in
      if (ld m str =? 10) || (ld m str <? minch) then Some (true, str, s, len, m) else
      let '(s, end') := if (s =? end') && (head mb <? tail mb) then (start mb, head mb) else (s, end') in
      readline_loop fuel m mb (str + 1) s end' len maxlen minch
    else Some (false, str, s, len, m)
  end.

Definition membuff_readline (m : mem) (mb : membuff) (str maxlen minch : Z) : option (Z * mem * membuff) :=
  let end' := if tail mb <=? head mb then head mb else end_ mb in
  '(ok, str', s, len, m) ← readline_loop (S (Z.to_nat maxlen)) m mb str (tail mb) end' 0 maxlen minch;
  if negb ok then Some (0, if negb (maxlen =? 0) then st m str 0 else m, mb)
  else Some (len, st m str' 0, set_tail mb (if s =? end_ mb then start mb else s)).

(** [for (size = orig; size < orig + by;) size *= 2]. *)
Fixpoint double_loop (fuel : nat) (size goal : Z) : option Z :=
  match fuel with
  | O => None
  | S fuel => if size <? goal then double_loop fuel (sgn 32 (size * 2)) goal else Some size
  end.

Section Alloc.
Context (realloc : mem -> Z -> Z -> Z * mem) (malloc : mem -> Z -> Z * mem).

Definition membuff_extend_by (m : mem) (mb : membuff) (by_ max : Z) : option (Z * mem * membuff) :=
  let orig := end_ mb - start mb in
  size ← double_loop 33 orig (orig + by_);
  let size := if negb (max =? -1) then Z.min size max else size in
  let by_ := size - orig in
  if by_ <=? 0 then Some (- E2BIG, m, mb) else
  let oldhead := head mb - start mb in
  let oldtail := tail mb - start mb in
  let '(ptr, m) := realloc m (start mb) size in
  if ptr =? 0 then Some (- ENOMEM, m, mb) else
  let mb := Mb ptr (end_ mb) (ptr + oldhead) (ptr + oldtail) in
  let '(m, mb) :=
    if head mb <? tail mb
    then ((CString.memmove m (tail mb + by_) (tail mb) (orig - oldtail)).2, set_tail mb (tail mb + by_))
    else (m, mb) in
  Some (0, m, Mb (start mb) (start mb + size) (head mb) (tail mb)).

Definition membuff_init (buff size : Z) : membuff := membuff_purge (Mb buff (buff + size) 0 0).

Definition membuff_new (m : mem) (mb : membuff) (size : Z) : Z * mem * membuff :=
  let '(p, m) := malloc m size in
  if p =? 0 then (- ENOMEM, m, Mb p (end_ mb) (head mb) (tail mb)) else (0, m, membuff_init p size).

End Alloc.

Definition membuff_uninit (mb : membuff) : membuff := membuff_purge (Mb 0 0 (head mb) (tail mb)).

(** The address given to [free], and the buffer; [addr] is the address of the
    structure, whose first field is [start]. *)
Definition membuff_dispose (addr : Z) (mb : membuff) : Z * membuff := (addr, membuff_uninit mb).

(** ** The queue *)

Record wf (mb : membuff) : Prop := {
  wf_start : 0 < start mb < end_ mb;
  wf_head : start mb <= head mb < end_ mb;
  wf_tail : start mb <= tail mb < end_ mb;
}.

Definition avail (mb : membuff) : Z :=
  if tail mb <=? head mb then head mb - tail mb else head mb - tail mb + (end_ mb - start mb).

(** Where byte [i] of the contents is. *)
Definition pos (mb : membuff) (i : Z) : Z :=
  if tail mb + i <? end_ mb then tail mb + i else tail mb + i - (end_ mb - start mb).

Definition contents (m : mem) (mb : membuff) : list Z :=
  map (fun i => ld m (pos mb (Z.of_nat i))) (seq 0 (Z.to_nat (avail mb))).

Definition in_buffer (mb : membuff) (x : Z) : Prop := start mb <= x < end_ mb.

(** [ring_lia] brings a goal about addresses of a buffer down to arithmetic. *)
Ltac ring_lia :=
  repeat match goal with H : wf _ |- _ => destruct H end;
  unfold avail, pos, in_buffer, set_head, set_tail in *; cbn [start end_ head tail] in *;
  repeat case_match; try lia.

Lemma avail_range mb : wf mb -> 0 <= avail mb <= end_ mb - start mb - 1.
Proof. intros H. ring_lia. Qed.

Lemma contents_length m mb : length (contents m mb) = Z.to_nat (avail mb).
Proof. unfold contents. rewrite length_map, length_seq. reflexivity. Qed.

Lemma contents_lookup m mb i : (i < Z.to_nat (avail mb))%nat -> contents m mb !! i = Some (ld m (pos mb (Z.of_nat i))).
Proof. intros Hi. unfold contents. rewrite list_lookup_fmap, lookup_seq_lt by exact Hi. reflexivity. Qed.

(** A list is the contents if it has the length and the bytes. *)
Lemma contents_eq m mb l : Z.of_nat (length l) = avail mb ->
  (forall i x, l !! i = Some x -> ld m (pos mb (Z.of_nat i)) = x) -> contents m mb = l.
Proof.
  intros Hl Hx. apply list_eq. intros i. destruct (decide (i < length l)%nat) as [Hi|Hi].
  - destruct (lookup_lt_is_Some_2 l i Hi) as [x E]. rewrite contents_lookup, E by lia. f_equal. apply Hx. exact E.
  - rewrite !lookup_ge_None_2; [reflexivity|lia|rewrite contents_length; lia].
Qed.

(** The same bytes at other places. *)
Lemma contents_moved m m' mb mb' : wf mb -> avail mb' = avail mb ->
  (forall i, 0 <= i < avail mb -> ld m' (pos mb' i) = ld m (pos mb i)) -> contents m' mb' = contents m mb.
Proof.
  intros Hwf Ha H. pose proof (avail_range mb Hwf). apply contents_eq; [rewrite contents_length; lia|]. intros i x Hx.
  pose proof (lookup_lt_Some _ _ _ Hx) as Hi. rewrite contents_length in Hi. rewrite contents_lookup in Hx by exact Hi.
  injection Hx as <-. apply H. lia.
Qed.

(** ** Writing *)

(** The bytes that can be written at the head in one piece. *)
Lemma putraw_spec mb maxlen : wf mb -> 0 <= maxlen ->
  exists len mb', membuff_putraw mb maxlen true = (len, head mb, mb') /\ wf mb' /\
    0 <= len <= maxlen /\ head mb + len <= end_ mb /\ start mb' = start mb /\ end_ mb' = end_ mb /\ tail mb' = tail mb /\
    avail mb' = avail mb + len /\ len <= end_ mb - start mb - 1 - avail mb /\
    (len = maxlen \/ len = end_ mb - start mb - 1 - avail mb \/ (head mb' = start mb /\ tail mb <= head mb /\ start mb < tail mb)).
Proof.
  intros Hwf Hm. unfold membuff_putraw, membuff_putrawflex. pose proof (wf_start mb Hwf).
  replace (start mb =? 0) with false by lia.
  repeat case_match; simplify_eq; cbn [start set_head]; eexists _, _; (split; [f_equal; f_equal; lia|]);
    destruct Hwf; split_and!; try split; unfold avail, set_head in *; cbn [start end_ head tail] in *; case_bools; lia.
Qed.

(** Bytes written behind the head are appended. *)
Lemma append_contents m m' mb mb' len f : wf mb -> wf mb' -> start mb' = start mb -> end_ mb' = end_ mb -> tail mb' = tail mb ->
  avail mb' = avail mb + len -> 0 <= len -> head mb + len <= end_ mb ->
  (forall i, 0 <= i < len -> ld m' (head mb + i) = f i) ->
  (forall x, in_buffer mb x -> x < head mb \/ head mb + len <= x -> ld m' x = ld m x) ->
  contents m' mb' = contents m mb ++ map (fun i => f (Z.of_nat i)) (seq 0 (Z.to_nat len)).
Proof.
  intros Hwf Hwf' Es Ee Et Ha Hl Hend Hnew Hold. pose proof (avail_range mb Hwf). pose proof (avail_range mb' Hwf').
  apply contents_eq.
  { rewrite length_app, contents_length, length_map, length_seq. lia. }
  intros i x Hx. apply lookup_app_Some in Hx as [Hx|[Hge Hx]].
  - pose proof (lookup_lt_Some _ _ _ Hx) as Hi. rewrite contents_length in Hi. rewrite contents_lookup in Hx by exact Hi.
    injection Hx as <-. replace (pos mb' (Z.of_nat i)) with (pos mb (Z.of_nat i)) by (unfold pos; rewrite Es, Ee, Et; reflexivity).
    apply Hold; ring_lia.
  - rewrite contents_length in *. rewrite list_lookup_fmap in Hx.
    destruct (decide (i - Z.to_nat (avail mb) < Z.to_nat len)%nat) as [Hi|Hi].
    + rewrite lookup_seq_lt in Hx by exact Hi. injection Hx as <-.
      rewrite <- Hnew by lia. f_equal. ring_lia.
    + rewrite lookup_seq_ge in Hx by lia. discriminate.
Qed.

Lemma bytes_map m p n : bytes m p n = map (fun i => ld m (p + Z.of_nat i)) (seq 0 n).
Proof.
  apply list_eq. intros i. rewrite list_lookup_fmap. destruct (decide (i < n)%nat) as [Hi|Hi].
  - rewrite bytes_lookup, lookup_seq_lt by exact Hi. reflexivity.
  - rewrite lookup_seq_ge, lookup_ge_None_2 by (rewrite ?length_bytes; lia). reflexivity.
Qed.

(** [buff] points outside the buffer, for [n] bytes. *)
Definition apart (mb : membuff) (buff n : Z) : Prop := buff + n <= start mb \/ end_ mb <= buff.

(** [mb'] is [mb] after [l] was appended; the memory changed in the buffer only. *)
Record appended (m : mem) (mb : membuff) (l : list Z) (m' : mem) (mb' : membuff) : Prop := {
  ap_wf : wf mb';
  ap_start : start mb' = start mb;
  ap_end : end_ mb' = end_ mb;
  ap_tail : tail mb' = tail mb;
  ap_contents : contents m' mb' = contents m mb ++ l;
  ap_frame : forall x, ~ in_buffer mb x -> ld m' x = ld m x;
}.

Lemma put_step m mb buff length : wf mb -> 0 <= length -> apart mb buff length ->
  exists n mb', membuff_putraw mb length true = (n, head mb, mb') /\ 0 <= n <= length /\
    n <= end_ mb - start mb - 1 - avail mb /\ avail mb' = avail mb + n /\
    (n = length \/ n = end_ mb - start mb - 1 - avail mb \/ (head mb' = start mb /\ tail mb <= head mb /\ start mb < tail mb)) /\
    appended m mb (bytes m buff (Z.to_nat n)) (CString.memcpy m (head mb) buff n).2 mb'.
Proof.
  intros Hwf Hl Hap. destruct (putraw_spec mb length Hwf Hl) as (n & mb' & E & Hwf' & Hn & Hend & Es & Ee & Et & Ha & Hfree & Hc).
  exists n, mb'. split_and!; auto; try lia.
  assert (CString.moved m (head mb) buff n (CString.memcpy m (head mb) buff n).2) as Hm
    by (apply CString.memcpy_moved; unfold apart in Hap; destruct Hwf; lia).
  split; auto.
  - rewrite bytes_map. apply (append_contents m _ mb mb' n (fun i => ld m (buff + i))); auto; try lia.
    + intros i Hi. rewrite Hm. replace ((head mb <=? head mb + i) && (head mb + i <? head mb + n)) with true by lia. f_equal. lia.
    + intros x _ Hx. rewrite Hm. replace ((head mb <=? x) && (x <? head mb + n)) with false by lia. reflexivity.
  - intros x Hx. rewrite Hm. replace ((head mb <=? x) && (x <? head mb + n)) with false
      by (unfold in_buffer in Hx; destruct Hwf; lia). reflexivity.
Qed.

Lemma appended_trans m mb l1 m1 mb1 l2 m2 mb2 : appended m mb l1 m1 mb1 -> appended m1 mb1 l2 m2 mb2 ->
  appended m mb (l1 ++ l2) m2 mb2.
Proof.
  intros [W1 S1 E1 T1 C1 F1] [W2 S2 E2 T2 C2 F2]. split; try congruence; auto.
  - rewrite C2, C1. symmetry. apply app_assoc.
  - intros x Hx. rewrite F2, F1; auto. unfold in_buffer in *. rewrite S1, E1. exact Hx.
Qed.

(** [membuff_put] appends as many of the bytes as fit, in order, and returns how
    many; the memory changes in the buffer only. *)
Theorem membuff_put_appends m mb buff length : wf mb -> 0 <= length -> apart mb buff length ->
  let n := Z.min length (end_ mb - start mb - 1 - avail mb) in
  exists m' mb', membuff_put m mb buff length = (n, m', mb') /\ appended m mb (bytes m buff (Z.to_nat n)) m' mb'.
Proof.
  intros Hwf Hl Hap n. unfold membuff_put. cbn [put_loop].
  destruct (put_step m mb buff length Hwf Hl Hap) as (n1 & mb1 & -> & Hn1 & Hf1 & Ha1 & Hc1 & A1). cbv zeta.
  set (m1 := (CString.memcpy m (head mb) buff n1).2) in *. pose proof A1 as [W1 S1 E1 T1 _ F1].
  destruct (put_step m1 mb1 (buff + n1) (length - n1) W1) as (n2 & mb2 & -> & Hn2 & Hf2 & Ha2 & Hc2 & A2);
    [lia|unfold apart in *; lia|]. cbv zeta.
  set (m2 := (CString.memcpy m1 (head mb1) (buff + n1) n2).2) in *.
  assert (0 + n1 + n2 = n) as En by (unfold n; pose proof (avail_range mb Hwf); lia).
  exists m2, mb2. rewrite En. split; [reflexivity|]. pose proof (appended_trans _ _ _ _ _ _ _ _ A1 A2) as A.
  replace (bytes m buff (Z.to_nat n)) with (bytes m buff (Z.to_nat n1) ++ bytes m1 (buff + n1) (Z.to_nat n2)); [exact A|].
  replace (Z.to_nat n) with (Z.to_nat n1 + Z.to_nat n2)%nat by lia. rewrite bytes_app, Z2Nat.id by lia. f_equal.
  apply bytes_ext. intros a Ha. apply F1. unfold in_buffer, apart in *. lia.
Qed.

(** ** Reading *)

(** Dropping [len] bytes at the tail. *)
Lemma drop_contents m mb len t : wf mb -> 0 <= len <= avail mb ->
  t = (if tail mb + len <? end_ mb then tail mb + len else tail mb + len - (end_ mb - start mb)) ->
  wf (set_tail mb t) /\ avail (set_tail mb t) = avail mb - len /\
  contents m (set_tail mb t) = drop (Z.to_nat len) (contents m mb).
Proof.
  intros Hwf Hl Ht. assert (avail (set_tail mb t) = avail mb - len) as Ha by (ring_lia).
  split_and!; [split; ring_lia|exact Ha|]. apply contents_eq; [rewrite length_drop, contents_length; lia|].
  intros i x Hx. rewrite lookup_drop in Hx. pose proof (lookup_lt_Some _ _ _ Hx) as Hi. rewrite contents_length in Hi.
  rewrite contents_lookup in Hx by exact Hi. injection Hx as <-. f_equal. clear -Hwf Hl Ht Hi. ring_lia.
Qed.

Lemma take_contents m mb len : wf mb -> 0 <= len <= avail mb -> tail mb + len <= end_ mb ->
  bytes m (tail mb) (Z.to_nat len) = take (Z.to_nat len) (contents m mb).
Proof.
  intros Hwf Hl He. apply list_eq. intros i. destruct (decide (i < Z.to_nat len)%nat) as [Hi|Hi].
  - rewrite bytes_lookup, lookup_take_lt, contents_lookup by lia. do 2 f_equal. ring_lia.
  - rewrite !lookup_ge_None_2; [reflexivity|rewrite length_take; lia|rewrite length_bytes; lia].
Qed.

(** The bytes that can be read at the tail in one piece. *)
Lemma getraw_spec m mb maxlen data : wf mb -> 0 <= maxlen ->
  exists len data' t, membuff_getraw mb maxlen true data = (len, data', set_tail mb t) /\ wf (set_tail mb t) /\
    0 <= len <= maxlen /\ len <= avail mb /\ avail (set_tail mb t) = avail mb - len /\
    contents m (set_tail mb t) = drop (Z.to_nat len) (contents m mb) /\
    (0 < len -> bytes m data' (Z.to_nat len) = take (Z.to_nat len) (contents m mb) /\ start mb <= data' /\ data' + len <= end_ mb) /\
    (len = maxlen \/ len = avail mb \/ (t = start mb /\ head mb < tail mb /\ 0 < len)).
Proof.
  intros Hwf Hm. unfold membuff_getraw.
  set (l1 := if (0 <=? maxlen) && (maxlen <? head mb - tail mb) then maxlen else head mb - tail mb).
  set (l2 := if (0 <=? maxlen) && (maxlen <? end_ mb - tail mb) then maxlen else end_ mb - tail mb).
  assert (forall len t, 0 <= len <= avail mb -> tail mb + len <= end_ mb ->
    t = (if tail mb + len <? end_ mb then tail mb + len else tail mb + len - (end_ mb - start mb)) ->
    wf (set_tail mb t) /\ avail (set_tail mb t) = avail mb - len /\ contents m (set_tail mb t) = drop (Z.to_nat len) (contents m mb) /\
    (bytes m (tail mb) (Z.to_nat len) = take (Z.to_nat len) (contents m mb) /\ start mb <= tail mb /\ tail mb + len <= end_ mb)) as Hstep.
  { intros len t Hl He Ht. destruct (drop_contents m mb len t Hwf Hl Ht) as (W & A & C). split_and!; auto; [|apply Hwf].
    apply take_contents; auto. }
  destruct (Z.ltb_spec (tail mb) (head mb)) as [H1|H1]; [|destruct (Z.ltb_spec (head mb) (tail mb)) as [H2|H2]].
  - destruct (Hstep l1 (tail mb + l1)) as (W & A & C & B); [subst l1; ring_lia..|].
    exists l1, (tail mb), (tail mb + l1). split_and!; try (intros _; exact B); auto; clear Hstep B; subst l1; ring_lia.
  - set (t := if tail mb + l2 =? end_ mb then start mb else tail mb + l2).
    destruct (Hstep l2 t) as (W & A & C & B); [subst l2 t; ring_lia..|].
    exists l2, (tail mb), t. split_and!; try (intros _; exact B); auto; [|clear Hstep B; subst l2 t; ring_lia..].
    unfold t. cbn [tail end_ start set_tail]. case_match; reflexivity.
  - destruct (Hstep 0 (tail mb)) as (W & A & C & B); [ring_lia..|].
    exists 0, data, (tail mb). split_and!; auto; try lia; try (destruct mb; reflexivity); clear Hstep B; ring_lia.
Qed.

Lemma contents_ext m m' mb : wf mb -> (forall x, in_buffer mb x -> ld m' x = ld m x) -> contents m' mb = contents m mb.
Proof.
  intros Hwf H. unfold contents. apply map_ext_in. intros i Hi. apply in_seq in Hi. apply H. ring_lia.
Qed.

(** [n] bytes were taken from the buffer and written to [buff]. *)
Record taken (m : mem) (mb : membuff) (buff n : Z) (m' : mem) (mb' : membuff) : Prop := {
  tk_wf : wf mb';
  tk_start : start mb' = start mb;
  tk_end : end_ mb' = end_ mb;
  tk_bytes : bytes m' buff (Z.to_nat n) = take (Z.to_nat n) (contents m mb);
  tk_contents : contents m' mb' = drop (Z.to_nat n) (contents m mb);
  tk_frame : forall x, x < buff \/ buff + n <= x -> ld m' x = ld m x;
}.

Lemma get_step m mb buff maxlen data : wf mb -> 0 <= maxlen -> apart mb buff maxlen ->
  exists len data' t, membuff_getraw mb maxlen true data = (len, data', set_tail mb t) /\ 0 <= len <= maxlen /\ len <= avail mb /\
    avail (set_tail mb t) = avail mb - len /\
    (len = maxlen \/ len = avail mb \/ (t = start mb /\ head mb < tail mb /\ 0 < len)) /\
    taken m mb buff len (CString.memcpy m buff data' len).2 (set_tail mb t).
Proof.
  intros Hwf Hm Hap. destruct (getraw_spec m mb maxlen data Hwf Hm) as (len & data' & t & E & W & Hl & Hle & A & C & B & Hc).
  exists len, data', t. split_and!; auto; try lia.
  destruct (Z.eq_dec len 0) as [->|Hnz].
  { assert (CString.moved m buff data' 0 (CString.memcpy m buff data' 0).2) as Hmv by (apply CString.memcpy_moved; lia).
    assert (forall x, ld (CString.memcpy m buff data' 0).2 x = ld m x) as Hid.
    { intros x. rewrite Hmv. replace ((buff <=? x) && (x <? buff + 0)) with false by lia. reflexivity. }
    split; auto. rewrite <- C. apply contents_ext; auto. }
  destruct (B ltac:(lia)) as (Hb & Hd1 & Hd2).
  assert (CString.moved m buff data' len (CString.memcpy m buff data' len).2) as Hmv
    by (apply CString.memcpy_moved; unfold apart in Hap; lia).
  split; auto.
  - rewrite (CString.moved_bytes m buff data' len _ (Z.to_nat len) Hmv) by lia. exact Hb.
  - rewrite <- C. apply contents_ext; auto. intros x Hx. rewrite Hmv.
    replace ((buff <=? x) && (x <? buff + len)) with false; [reflexivity|]. unfold apart, in_buffer in *. cbn [start end_ set_tail] in Hx. lia.
  - intros x Hx. rewrite Hmv. replace ((buff <=? x) && (x <? buff + len)) with false by lia. reflexivity.
Qed.

Lemma taken_trans m mb buff n1 m1 mb1 n2 m2 mb2 : 0 <= n1 -> 0 <= n2 -> taken m mb buff n1 m1 mb1 ->
  taken m1 mb1 (buff + n1) n2 m2 mb2 -> taken m mb buff (n1 + n2) m2 mb2.
Proof.
  intros H1 H2 [W1 S1 E1 B1 C1 F1] [W2 S2 E2 B2 C2 F2]. replace (Z.to_nat (n1 + n2)) with (Z.to_nat n1 + Z.to_nat n2)%nat in * by lia.
  split; try congruence; auto.
  - replace (Z.to_nat (n1 + n2)) with (Z.to_nat n1 + Z.to_nat n2)%nat by lia. rewrite bytes_app, Z2Nat.id, B2, C1 by lia.
    rewrite <- take_take_drop, <- B1. f_equal. apply bytes_ext. intros a Ha. apply F2. lia.
  - replace (Z.to_nat (n1 + n2)) with (Z.to_nat n1 + Z.to_nat n2)%nat by lia. rewrite C2, C1, drop_drop. reflexivity.
  - intros x Hx. rewrite F2, F1 by lia. reflexivity.
Qed.

(** [membuff_get] takes as many bytes from the front as there are and are asked
    for, and writes them to the caller's buffer and nothing else. *)
Theorem membuff_get_takes m mb buff maxlen : wf mb -> 0 <= maxlen -> apart mb buff maxlen ->
  let n := Z.min maxlen (avail mb) in
  exists m' mb', membuff_get m mb buff maxlen = (n, m', mb') /\ taken m mb buff n m' mb'.
Proof.
  intros Hwf Hm Hap n. unfold membuff_get. cbn [get_loop Z.eqb].
  destruct (get_step m mb buff maxlen 0 Hwf Hm Hap) as (n1 & d1 & t1 & -> & Hn1 & Hf1 & Ha1 & Hc1 & T1). cbv zeta.
  set (m1 := (CString.memcpy m buff d1 n1).2) in *. set (mb1 := set_tail mb t1) in *.
  destruct (Z.eqb_spec n1 0) as [->|Hnz].
  - exists m1, mb1. replace n with 0 by lia. split; [do 2 f_equal; lia|exact T1].
  - destruct (get_step m1 mb1 (buff + n1) (maxlen - n1) d1 (tk_wf _ _ _ _ _ _ T1)) as (n2 & d2 & t2 & -> & Hn2 & Hf2 & Ha2 & Hc2 & T2);
      [lia|unfold apart in *; subst mb1; cbn [start end_ set_tail]; lia|]. cbv zeta.
    assert (n1 + n2 = n) as En.
    { unfold n. subst mb1. cbn [head tail start set_tail] in Hc2. destruct Hwf. lia. }
    eexists _, _. split; [f_equal; f_equal; lia|]. rewrite <- En.
    apply (taken_trans m mb buff n1 m1 mb1 n2); auto; lia.
Qed.

Lemma membuff_avail_spec mb : wf mb -> membuff_avail mb = avail mb.
Proof.
  intros Hwf. unfold membuff_avail, membuff_getraw. destruct mb as [s e h t]. cbn [start end_ head tail].
  unfold avail. destruct Hwf as [H1 H2 H3]. cbn [start end_ head tail] in *. case_bools; cbn [start end_ head tail set_tail] in *;
    repeat (case_match; cbn [start end_ head tail set_tail] in *; simplify_eq); lia.
Qed.

(** ** Moving the data *)

(** The last copy of [membuff_makecontig], once the lower piece is in place. *)
Lemma contig_finish m m1 mb top bot : wf mb -> top + bot = avail mb -> 0 <= top -> 0 <= bot -> tail mb + top <= end_ mb ->
  (forall i, 0 <= i < top -> ld m1 (tail mb + i) = ld m (pos mb i)) ->
  (forall i, top <= i < avail mb -> ld m1 (start mb + i) = ld m (pos mb i)) ->
  (forall x, ~ in_buffer mb x -> ld m1 x = ld m x) ->
  let m' := (CString.memcpy m1 (start mb) (tail mb) top).2 in
  let mb' := Mb (start mb) (end_ mb) (start mb + top + bot) (start mb) in
  wf mb' /\ contents m' mb' = contents m mb /\ (forall x, ~ in_buffer mb x -> ld m' x = ld m x).
Proof.
  intros Hwf Hs Ht Hb Htop Hlow Hhigh Hfr m' mb'. pose proof (avail_range mb Hwf) as Hav.
  assert (CString.moved m1 (start mb) (tail mb) top m') as Hm by (apply CString.memcpy_moved; destruct Hwf; lia).
  assert (avail mb' = avail mb) as Ha by (subst mb'; destruct Hwf; unfold avail at 1; cbn [start end_ head tail]; case_match; lia).
  split_and!; [subst mb'; destruct Hwf; split; cbn [start end_ head tail]; lia| |].
  - apply contents_moved; auto. intros i Hi.
    replace (pos mb' i) with (start mb + i)
      by (subst mb'; unfold pos; cbn [start end_ head tail]; destruct Hwf; case_match; lia).
    rewrite Hm. destruct (decide (i < top)) as [Hit|Hit].
    + replace (_ && _) with true by lia. rewrite <- Hlow by lia. f_equal. lia.
    + replace (_ && _) with false by lia. apply Hhigh. lia.
  - intros x Hx. rewrite Hm. replace (_ && _) with false; [apply Hfr; exact Hx|].
    unfold in_buffer in Hx. destruct Hwf. lia.
Qed.

(** [membuff_makecontig] brings the data to the start of the buffer without
    changing it, or fails, when the data is in two pieces and there is no room to
    rearrange them, and changes nothing. *)
Theorem membuff_makecontig_keeps m mb : wf mb ->
  exists ok m' mb', membuff_makecontig m mb = (ok, m', mb') /\
    if (ok : bool) then wf mb' /\ tail mb' = start mb /\ start mb' = start mb /\ end_ mb' = end_ mb /\
      contents m' mb' = contents m mb /\ (forall x, ~ in_buffer mb x -> ld m' x = ld m x)
    else m' = m /\ mb' = mb /\ head mb < tail mb <= head mb + (end_ mb - tail mb).
Proof.
  intros Hwf. unfold membuff_makecontig. pose proof (avail_range mb Hwf) as Hav.
  pose proof (fun m1 => contig_finish m m1 mb) as Hfin.
  destruct (Z.ltb_spec (head mb) (tail mb)) as [Hlt|Hge]; [destruct (Z.leb_spec (tail mb) (head mb + (end_ mb - tail mb))) as [Hno|Hroom]|].
  - exists false, m, mb. split; [reflexivity|]. auto.
  - set (m1 := (CString.memmove m (start mb + (end_ mb - tail mb)) (start mb) (head mb - start mb)).2).
    assert (CString.moved m (start mb + (end_ mb - tail mb)) (start mb) (head mb - start mb) m1) as Hm
      by (apply CString.memmove_moved; destruct Hwf; lia).
    destruct (Hfin m1 (end_ mb - tail mb) (head mb - start mb) Hwf) as (W & C & F).
    + ring_lia.
    + ring_lia.
    + ring_lia.
    + lia.
    + intros i Hi. rewrite Hm. replace (_ && _) with false by (destruct Hwf; lia). f_equal. ring_lia.
    + intros i Hi. rewrite Hm. replace (_ && _) with true by (clear Hfin; ring_lia). f_equal. clear Hfin Hm. ring_lia.
    + intros x Hx. rewrite Hm. replace (_ && _) with false; [reflexivity|]. unfold in_buffer in Hx. destruct Hwf. lia.
    + eexists true, _, _. split; [reflexivity|]. split_and!; auto.
  - destruct (Hfin m (head mb - tail mb) 0 Hwf) as (W & C & F).
    + ring_lia.
    + lia.
    + lia.
    + ring_lia.
    + intros i Hi. f_equal. ring_lia.
    + intros i Hi. ring_lia.
    + reflexivity.
    + eexists true, _, _. split; [reflexivity|]. split_and!; auto.
Qed.

(** *** Growing *)

Lemma double_loop_spec goal : goal <= 2 ^ 30 -> forall fuel size, 0 < size -> goal < size * 2 ^ Z.of_nat fuel ->
  size <= 2 ^ 30 -> exists size', double_loop (S fuel) size goal = Some size' /\ Z.max size goal <= size' < 2 ^ 31.
Proof.
  intros Hg. induction fuel as [|fuel IH]; intros size Hs Hf Hle; (remember (S fuel) as f || idtac); cbn [double_loop].
  - replace (size <? goal) with false by lia. exists size. split; [reflexivity|lia].
  - destruct (Z.ltb_spec size goal) as [Hlt|Hge]; [|exists size; split; [reflexivity|lia]].
    subst f. assert (sgn 32 (size * 2) = size * 2) as ->.
    { unfold sgn, wrap. rewrite Z.mod_small by lia. replace (size * 2 <? 2 ^ (32 - 1)) with true by lia. reflexivity. }
    destruct (Z_le_dec (size * 2) (2 ^ 30)) as [H2|H2].
    + destruct (IH (size * 2)) as (s' & -> & Hs'); [lia| |lia|exists s'; split; [reflexivity|lia]].
      replace (2 ^ Z.of_nat (S fuel)) with (2 * 2 ^ Z.of_nat fuel) in Hf by (rewrite Nat2Z.inj_succ, Z.pow_succ_r by lia; lia). lia.
    + exists (size * 2). destruct fuel; cbn [double_loop]; replace (size * 2 <? goal) with false by lia; (split; [reflexivity|lia]).
Qed.

(** The upper piece moved to the end of the larger buffer. *)
Lemma grown_wrapped m m1 m2 mb ptr size : wf mb -> head mb < tail mb -> 0 < ptr -> end_ mb - start mb < size ->
  (forall i, 0 <= i < end_ mb - start mb -> ld m1 (ptr + i) = ld m (start mb + i)) ->
  let by_ := size - (end_ mb - start mb) in
  CString.moved m1 (ptr + (tail mb - start mb) + by_) (ptr + (tail mb - start mb))
    (end_ mb - start mb - (tail mb - start mb)) m2 ->
  contents m2 (Mb ptr (ptr + size) (ptr + (head mb - start mb)) (ptr + (tail mb - start mb) + by_)) = contents m mb.
Proof.
  intros Hwf Hlt Hp Hs Hcopy by_ Hm. subst by_. apply contents_moved; auto; [ring_lia|]. intros i Hi. rewrite Hm. clear Hm.
  destruct (Z_lt_dec (tail mb + i) (end_ mb)) as [Hlow|Hhigh].
  - replace (pos mb i) with (start mb + (tail mb - start mb + i)) by ring_lia.
    rewrite <- Hcopy by (destruct Hwf; lia). replace (_ && _) with true by ring_lia. f_equal. ring_lia.
  - replace (pos mb i) with (start mb + (tail mb + i - end_ mb)) by ring_lia.
    rewrite <- Hcopy by ring_lia. replace (_ && _) with false by ring_lia. f_equal. ring_lia.
Qed.

(** [membuff_extend_by] keeps the data and makes the buffer larger, or fails at
    the maximum or without memory and changes nothing. *)
Theorem membuff_extend_keeps realloc m mb by_ max : wf mb -> 0 <= by_ -> end_ mb - start mb + by_ <= 2 ^ 30 ->
  (forall n ptr m1, realloc m (start mb) n = (ptr, m1) ->
    0 <= ptr /\ (ptr = 0 -> m1 = m) /\
    (ptr <> 0 -> forall i, 0 <= i < end_ mb - start mb -> ld m1 (ptr + i) = ld m (start mb + i))) ->
  exists rc m' mb', membuff_extend_by realloc m mb by_ max = Some (rc, m', mb') /\
    ((rc = 0 /\ wf mb' /\ contents m' mb' = contents m mb /\ membuff_size mb < membuff_size mb' /\
       (max = -1 -> membuff_size mb + by_ <= membuff_size mb')) \/
     (rc = - E2BIG \/ rc = - ENOMEM) /\ m' = m /\ mb' = mb).
Proof.
  intros Hwf Hby Hle Hre. unfold membuff_extend_by. set (orig := end_ mb - start mb) in *. pose proof (wf_start mb Hwf) as Hst.
  destruct (double_loop_spec (orig + by_) Hle 32 orig) as (sz & -> & Hsz);
    [unfold orig; lia|change (2 ^ Z.of_nat 32) with 4294967296; unfold orig in *; lia|lia|].
  cbn [mbind option_bind]. set (size := if negb (max =? -1) then Z.min sz max else sz).
  destruct (Z.leb_spec (size - orig) 0) as [Hbig|Hgrow]; [eexists _, _, _; split; [reflexivity|right; auto]|].
  destruct (realloc m (start mb) size) as [ptr m1] eqn:Er. destruct (Hre _ _ _ Er) as (Hp & Hfail & Hcopy).
  destruct (Z.eqb_spec ptr 0) as [->|Hnz].
  { eexists _, _, _. split; [reflexivity|right]. rewrite Hfail by reflexivity. auto. }
  specialize (Hcopy Hnz). cbn [head tail start end_ set_tail].
  replace (ptr + (head mb - start mb) <? ptr + (tail mb - start mb)) with (head mb <? tail mb) by lia.
  assert (max = -1 -> orig + by_ <= size) as Hmax by (intros ->; unfold size; cbn; lia).
  destruct (Z.ltb_spec (head mb) (tail mb)) as [Hlt|Hge]; eexists _, _, _; (split; [reflexivity|left]);
    unfold membuff_size; cbn [start end_ head tail set_tail];
    (split_and!; [reflexivity|split; cbn [start end_ head tail]; destruct Hwf; unfold orig in *; lia| |fold orig; lia|fold orig; lia]).
  - apply (grown_wrapped m m1); [exact Hwf|exact Hlt|lia|unfold orig in *; lia|exact Hcopy|].
    apply CString.memmove_moved. destruct Hwf; unfold orig; lia.
  - apply contents_moved; auto; [unfold orig in *; ring_lia|]. intros i Hi.
    replace (pos mb i) with (start mb + (tail mb - start mb + i)) by ring_lia.
    rewrite <- Hcopy by (unfold orig in *; ring_lia). f_equal. unfold orig in *. ring_lia.
Qed.

(** Growing a buffer of size 0 never ends: doubling it leaves it at 0. *)
Theorem membuff_extend_hangs fuel by_ : 0 < by_ -> double_loop fuel 0 (0 + by_) = None.
Proof.
  intros Hb. induction fuel as [|fuel IH]; cbn [double_loop]; [reflexivity|]. replace (0 <? 0 + by_) with true by lia. exact IH.
Qed.

(** ** Reading a line *)

Lemma lower_pos mb x : wf mb -> head mb < tail mb -> start mb <= x < head mb ->
  0 <= x - start mb + (end_ mb - tail mb) < avail mb /\ pos mb (x - start mb + (end_ mb - tail mb)) = x.
Proof. intros Hwf Hlt Hx. ring_lia. Qed.

(** The tail behind byte [n]. *)
Lemma tail_after mb n : wf mb -> 0 <= n < avail mb ->
  (if pos mb n + 1 =? end_ mb then start mb else pos mb n + 1) =
  (if tail mb + (n + 1) <? end_ mb then tail mb + (n + 1) else tail mb + (n + 1) - (end_ mb - start mb)).
Proof. intros Hwf Hn. ring_lia. Qed.

Section Readline.
Context (m0 : mem) (mb : membuff) (str0 maxlen minch : Z).
Context (Hwf : wf mb) (Hap : apart mb str0 maxlen).

Definition line_end (c : Z) : bool := (c =? 10) || (c <? minch).

Abbreviation l := (contents m0 mb).

(** Where the loop is after [len] bytes. *)
Definition cursor (s e len : Z) : Prop :=
  (tail mb <= head mb /\ e = head mb /\ s = tail mb + len) \/
  (head mb < tail mb /\ e = end_ mb /\ s = tail mb + len /\ s < end_ mb) \/
  (head mb < tail mb /\ e = head mb /\ s = tail mb + len - (end_ mb - start mb) /\ start mb <= s).

Definition only_str (n : Z) (m : mem) : Prop := forall x, x < str0 \/ str0 + n <= x -> ld m x = ld m0 x.

(** When the data is used up without the end of a line, the loop reads the lower
    piece again and again, and finds none there either. *)
Lemma reread fuel : forall m s len, (Z.to_nat (maxlen - len) < fuel)%nat -> 0 <= len -> len <= Z.max 0 (maxlen - 1) ->
  head mb < tail mb -> start mb <= s <= head mb -> only_str (Z.max 0 (maxlen - 1)) m ->
  (forall x, start mb <= x < head mb -> line_end (ld m0 x) = false) ->
  exists str' s' len' m', readline_loop fuel m mb (str0 + len) s (head mb) len maxlen minch = Some (false, str', s', len', m') /\
    only_str (Z.max 0 (maxlen - 1)) m'.
Proof.
  induction fuel as [|fuel IH]; intros m s len Hf Hl Hlm Hlt Hs Hfr Hno; [lia|]. cbn [readline_loop].
  destruct ((s <? head mb) && (len <? maxlen - 1)) eqn:E; [|eauto 10].
  assert (ld m s = ld m0 s) as Hms by (apply Hfr; unfold apart in Hap; destruct Hwf; lia).
  rewrite !ld_st_same, (u8_small (ld m s)) by apply ld_range. rewrite Hms. fold (line_end (ld m0 s)).
  rewrite Hno by lia. replace (str0 + len + 1) with (str0 + (len + 1)) by lia.
  assert (only_str (Z.max 0 (maxlen - 1)) (st m (str0 + len) (ld m0 s))) as Hfr'.
  { intros x Hx. rewrite ld_st_other by lia. apply Hfr. exact Hx. }
  destruct ((s + 1 =? head mb) && (head mb <? tail mb)); apply IH; auto; lia.
Qed.

Definition line_len : nat := CString.prefix_len (fun c => negb (line_end c)) l.

Lemma line_len_no_end i x : (i < line_len)%nat -> l !! i = Some x -> line_end x = false.
Proof.
  unfold line_len. generalize l. intros L. revert i. induction L as [|c L IH]; intros i Hi Hx; cbn [CString.prefix_len] in Hi; [lia|].
  destruct (line_end c) eqn:E; cbn [negb] in Hi; [lia|]. destruct i as [|i]; cbn in Hx; [congruence|]. apply (IH i); [lia|exact Hx].
Qed.

Lemma line_len_end x : l !! line_len = Some x -> line_end x = true.
Proof.
  unfold line_len. generalize l. intros L. induction L as [|c L IH]; cbn [CString.prefix_len]; [discriminate|].
  destruct (line_end c) eqn:E; cbn [negb]; [intros [= <-]; exact E|exact IH].
Qed.

Lemma line_len_le : (line_len <= length l)%nat.
Proof. apply CString.prefix_len_le. Qed.

Lemma cursor_done s e len : cursor s e len -> 0 <= len ->
  (e <= s -> avail mb <= len) /\ (s < e -> len < avail mb /\ s = pos mb len /\ start mb <= s < end_ mb).
Proof.
  intros Hcur Hl. destruct Hwf as [H1 H2 H3]. unfold avail, pos.
  destruct Hcur as [(Ha & -> & ->)|[(Ha & -> & -> & Hb)|(Ha & -> & -> & Hb)]];
    destruct (Z.leb_spec (tail mb) (head mb)); try lia; destruct (Z.ltb_spec (tail mb + len) (end_ mb)); lia.
Qed.

(** The loop from the [len]-th byte on. *)
Lemma readline_loop_spec fuel : forall m s e len, (Z.to_nat (maxlen - len) < fuel)%nat -> 0 <= len <= Z.of_nat line_len ->
  len <= Z.max 0 (maxlen - 1) -> cursor s e len -> only_str len m -> bytes m str0 (Z.to_nat len) = take (Z.to_nat len) l ->
  exists ok str' s' len' m', readline_loop fuel m mb (str0 + len) s e len maxlen minch = Some (ok, str', s', len', m') /\
    only_str (Z.max 0 (maxlen - 1)) m' /\
    if (line_len <? length l)%nat && (Z.of_nat line_len <? maxlen - 1)
    then ok = true /\ str' = str0 + Z.of_nat line_len /\ len' = Z.of_nat line_len + 1 /\ bytes m' str0 line_len = take line_len l /\
      s' = pos mb (Z.of_nat line_len) + 1
    else ok = false.
Proof.
  pose proof (avail_range mb Hwf) as Hav. pose proof line_len_le as Hk. rewrite contents_length in Hk.
  rewrite contents_length. induction fuel as [|fuel IH]; intros m s e len Hf Hl Hlm Hcur Hfr Hb; [lia|]. cbn [readline_loop].
  destruct ((s <? e) && (len <? maxlen - 1)) eqn:E.
  2: { eexists _, _, _, _, _. split; [reflexivity|]. split; [intros x Hx; apply Hfr; lia|].
       destruct (cursor_done s e len Hcur) as [Hd _]; [lia|].
       replace ((line_len <? Z.to_nat (avail mb))%nat && (Z.of_nat line_len <? maxlen - 1)) with false; [reflexivity|].
       clear -Hd E Hk Hl. destruct (Z.ltb_spec s e); cbn [andb] in E; [lia|]. specialize (Hd ltac:(lia)). lia. }
  assert (len < avail mb /\ s = pos mb len /\ start mb <= s < end_ mb) as (Hlen & Hs & Hsb).
  { apply (proj2 (cursor_done s e len Hcur ltac:(lia))). lia. }
  assert (l !! Z.to_nat len = Some (ld m0 s)) as Hx.
  { rewrite contents_lookup by lia. rewrite Z2Nat.id, Hs by lia. reflexivity. }
  assert (ld m s = ld m0 s) as Hms by (apply Hfr; unfold apart in Hap; lia).
  rewrite !ld_st_same, (u8_small (ld m s)) by apply ld_range. rewrite Hms. fold (line_end (ld m0 s)).
  set (m1 := st m (str0 + len) (ld m0 s)).
  assert (only_str (len + 1) m1) as Hfr1 by (intros x Hx'; unfold m1; rewrite ld_st_other by lia; apply Hfr; lia).
  assert (bytes m1 str0 (Z.to_nat len) = take (Z.to_nat len) l) as Hb0.
  { rewrite <- Hb. apply bytes_ext. intros a Ha. unfold m1. rewrite ld_st_other by lia. reflexivity. }
  destruct (line_end (ld m0 s)) eqn:Ele.
  { assert (Z.of_nat line_len = len) as Ek.
    { destruct (Z_lt_dec len (Z.of_nat line_len)) as [Hlt|]; [|lia]. rewrite (line_len_no_end (Z.to_nat len) _ ltac:(lia) Hx) in Ele. discriminate. }
    eexists _, _, _, _, _. split; [reflexivity|]. split; [intros x Hx'; apply Hfr1; lia|].
    replace ((line_len <? Z.to_nat (avail mb))%nat && (Z.of_nat line_len <? maxlen - 1)) with true by lia.
    rewrite Ek. replace line_len with (Z.to_nat len) by lia. split_and!; auto. congruence. }
  assert (len < Z.of_nat line_len) as Hlk.
  { destruct (Z_lt_dec len (Z.of_nat line_len)); [assumption|]. assert (line_len = Z.to_nat len) as Ek by lia.
    rewrite <- Ek in Hx. rewrite (line_len_end _ Hx) in Ele. discriminate. }
  assert (bytes m1 str0 (Z.to_nat (len + 1)) = take (Z.to_nat (len + 1)) l) as Hb1.
  { replace (Z.to_nat (len + 1)) with (Z.to_nat len + 1)%nat by lia. rewrite bytes_app, Hb0, Nat.add_1_r, (take_S_r _ _ _ Hx).
    f_equal. cbn [bytes]. rewrite Z2Nat.id by lia. unfold m1. rewrite ld_st_same, u8_small by apply ld_range. reflexivity. }
  replace (str0 + len + 1) with (str0 + (len + 1)) by lia.
  destruct ((s + 1 =? e) && (head mb <? tail mb)) eqn:Ew.
  2: { apply IH; auto; try lia. clear -Hcur Ew E Hsb Hwf. unfold cursor in *. destruct Hwf. lia. }
  destruct (Z_lt_dec (tail mb + len + 1) (end_ mb + 1)) as [Hfst|Hsnd].
  - apply IH; auto; try lia. clear -Hcur Ew E Hsb Hwf Hfst. unfold cursor in *. destruct Hwf. lia.
  - assert (Z.of_nat line_len = avail mb /\ head mb < tail mb) as [Hka Hlt].
    { clear -Hcur Ew Hsnd Hlk Hk Hl Hwf. destruct Hwf as [H1 H2 H3]. unfold avail in *.
      destruct Hcur as [Hc|[Hc|Hc]]; destruct (Z.leb_spec (tail mb) (head mb)); lia. }
    destruct (reread fuel m1 (start mb) (len + 1)) as (str' & s' & len' & m' & E1 & Hfr2); auto; try lia.
    + destruct Hwf; lia.
    + intros x Hx'. apply Hfr1. lia.
    + intros x Hx'. destruct (lower_pos mb x Hwf Hlt Hx') as [Hr Hp].
      apply (line_len_no_end (Z.to_nat (x - start mb + (end_ mb - tail mb)))); [lia|].
      rewrite contents_lookup by lia. rewrite Z2Nat.id, Hp by lia. reflexivity.
    + exists false, str', s', len', m'. split; [exact E1|]. split; [exact Hfr2|].
      replace ((line_len <? Z.to_nat (avail mb))%nat && (Z.of_nat line_len <? maxlen - 1)) with false by lia. reflexivity.
Qed.

(** [membuff_readline] returns the first line that is complete and fits, without
    its end character and terminated, and removes it from the buffer; otherwise
    it returns 0, and the data stays. *)
Theorem membuff_readline_reads : 0 < maxlen ->
  exists m' mb', (if (line_len <? length l)%nat && (Z.of_nat line_len <? maxlen - 1)
    then membuff_readline m0 mb str0 maxlen minch = Some (Z.of_nat line_len + 1, m', mb') /\
      bytes m' str0 line_len = take line_len l /\ ld m' (str0 + Z.of_nat line_len) = 0 /\ wf mb' /\ contents m' mb' = drop (S line_len) l
    else membuff_readline m0 mb str0 maxlen minch = Some (0, m', mb') /\ ld m' str0 = 0 /\ mb' = mb /\ contents m' mb' = l) /\
    only_str maxlen m'.
Proof.
  intros Hmax. unfold membuff_readline.
  destruct (readline_loop_spec (S (Z.to_nat maxlen)) m0 (tail mb) (if tail mb <=? head mb then head mb else end_ mb) 0)
    as (ok & str' & s' & len' & m' & E & Hfr & Hres); try lia.
  { unfold cursor. destruct Hwf. case_match; lia. }
  { intros x _. reflexivity. }
  { reflexivity. }
  rewrite Z.add_0_r in E. rewrite E. cbn [mbind option_bind]. cbv beta iota.
  assert (forall a mb1, start mb1 = start mb -> end_ mb1 = end_ mb -> wf mb1 -> str0 <= a < str0 + maxlen ->
    contents (st m' a 0) mb1 = contents m0 mb1) as Hce.
  { intros a mb1 Es Ee Hw Ha. apply contents_ext; [exact Hw|]. intros x Hx. unfold in_buffer in Hx. unfold apart in Hap.
    rewrite ld_st_other by lia. apply Hfr. lia. }
  destruct ((line_len <? length l)%nat && (Z.of_nat line_len <? maxlen - 1)) eqn:Ek.
  - destruct Hres as (-> & -> & -> & Hb & ->). cbn [negb]. rewrite contents_length in Ek.
    destruct (drop_contents m0 mb (Z.of_nat line_len + 1) _ Hwf ltac:(lia) (tail_after mb (Z.of_nat line_len) Hwf ltac:(lia))) as (W & _ & C).
    eexists _, _. split; [split; [reflexivity|]|].
    + split_and!; [|rewrite ld_st_same; reflexivity|exact W|].
      * rewrite <- Hb. apply bytes_ext. intros a Ha. rewrite ld_st_other by lia. reflexivity.
      * rewrite Hce by (auto; lia). rewrite C. f_equal. lia.
    + intros x Hx. rewrite ld_st_other by lia. apply Hfr. lia.
  - subst ok. cbn [negb]. replace (maxlen =? 0) with false by lia. cbn [negb].
    eexists _, _. split; [split; [reflexivity|]|].
    + split_and!; [rewrite ld_st_same; reflexivity|reflexivity|]. apply Hce; auto. lia.
    + intros x Hx. rewrite ld_st_other by lia. apply Hfr. lia.
Qed.

End Readline.

(** ** A concrete buffer: eight bytes that hold "ab", a newline and "c", wrapped *)

Definition demo : membuff := Mb 0x100 0x108 0x102 0x106.
Definition demo_mem : mem := wr (mem_of 0x100 [10; 99; 0; 0; 0; 0; 97; 98]) 0x200 [120; 121; 122].

Lemma demo_wf : wf demo.
Proof. split; cbn; lia. Qed.

Lemma demo_contents : contents demo_mem demo = [97; 98; 10; 99].
Proof. reflexivity. Qed.

Lemma membuff_put_appends_witness : exists m' mb', membuff_put demo_mem demo 0x200 5 = (3, m', mb') /\
  contents m' mb' = [97; 98; 10; 99; 120; 121; 122].
Proof.
  destruct (membuff_put_appends demo_mem demo 0x200 5 demo_wf) as (m' & mb' & E & A); [lia|unfold apart; cbn; lia|].
  exists m', mb'. split; [exact E|exact (ap_contents _ _ _ _ _ A)].
Defined.

Lemma membuff_get_takes_witness : exists m' mb', membuff_get demo_mem demo 0x300 3 = (3, m', mb') /\
  bytes m' 0x300 3 = [97; 98; 10] /\ contents m' mb' = [99].
Proof.
  destruct (membuff_get_takes demo_mem demo 0x300 3 demo_wf) as (m' & mb' & E & T); [lia|unfold apart; cbn; lia|].
  exists m', mb'. split; [exact E|]. split; [exact (tk_bytes _ _ _ _ _ _ T)|exact (tk_contents _ _ _ _ _ _ T)].
Defined.

Lemma membuff_makecontig_keeps_witness : exists m' mb', membuff_makecontig demo_mem demo = (true, m', mb') /\
  bytes m' 0x100 4 = [97; 98; 10; 99].
Proof.
  destruct (membuff_makecontig_keeps demo_mem demo demo_wf) as (ok & m' & mb' & E & _).
  vm_compute in E. injection E as <- <- <-. eexists _, _. split; vm_compute; reflexivity.
Defined.

Lemma membuff_extend_keeps_witness : exists m' mb',
  membuff_extend_by (fun m p n => (p, m)) demo_mem demo 3 (-1) = Some (0, m', mb') /\ contents m' mb' = [97; 98; 10; 99] /\
  membuff_size mb' = 16.
Proof.
  destruct (membuff_extend_keeps (fun m p n => (p, m)) demo_mem demo 3 (-1) demo_wf) as (rc & m' & mb' & E & H); [lia|cbn; lia| |].
  - intros n ptr m1 [= <- <-]. cbn. split_and!; [lia|lia|]. reflexivity.
  - exists m', mb'. destruct H as [(-> & _ & C & _)|([Hr|Hr] & _)].
    + split_and!; [exact E|rewrite C; reflexivity|]. vm_compute in E. injection E as <- <-. reflexivity.
    + subst rc. discriminate.
    + subst rc. discriminate.
Defined.

Lemma membuff_extend_hangs_witness : double_loop 100 0 (0 + 3) = None.
Proof. apply membuff_extend_hangs. lia. Defined.

Lemma membuff_readline_reads_witness : exists m' mb', membuff_readline demo_mem demo 0x300 8 0 = Some (3, m', mb') /\
  bytes m' 0x300 3 = [97; 98; 0] /\ contents m' mb' = [99].
Proof.
  destruct (membuff_readline_reads demo_mem demo 0x300 8 0 demo_wf) as (m' & mb' & (E & _ & _ & _ & C) & _); [unfold apart; cbn; lia|lia|].
  exists m', mb'. split; [exact E|]. split; [|exact C]. vm_compute in E. injection E as <- <-. reflexivity.
Defined.

End Membuff.
