(* ===== verification/Circbuf.v ===== *)
(** * Circbuf: the boot loader's overwriting ring buffer

    U-Boot's lib/circbuf.c and include/circbuf.h: a ring of [totalsize] bytes with
    a count, in which new bytes push out the oldest ones.  The contents are the
    [size] bytes from [top] on. *)

From stdpp Require Import base list option.
From Stdlib Require Import ZifyBool.
From S2P Require Import Prelude Cmem.

Module Circbuf.

Record circbuf := Buf { size : Z; totalsize : Z; top : Z; tail : Z; data : Z; end_ : Z }.

(** ** The code *)

(** [buf_init] with the address [malloc] gave; the failure of [malloc] is an
    assertion. *)
Definition buf_init (malloc : Z) (size : Z) : Z * circbuf := (1, Buf 0 size malloc malloc malloc (malloc + size)).

Definition buf_free (buf : circbuf) : Z * circbuf := (1, Buf 0 0 0 0 0 0).

(** [n] bytes left to copy. *)
Fixpoint pop_loop (n : nat) (m : mem) (buf : circbuf) (dest p : Z) : mem * Z :=
  match n with
  | O => (m, p)
  | S n =>
    let m := st m dest (ld m p) in
    let p := p + 1 in
    let p := if p =? end_ buf then data buf else p in
    pop_loop n m buf (dest + 1) p
  end.

Definition buf_pop (m : mem) (buf : circbuf) (dest len : Z) : Z * mem * circbuf :=
  let len := if size buf <? len then size buf else len in
  let '(m, p) := pop_loop (Z.to_nat len) m buf dest (top buf) in
  (len, m, Buf (u32 (size buf - len)) (totalsize buf) p (tail buf) (data buf) (end_ buf)).

Fixpoint push_loop (n : nat) (m : mem) (buf : circbuf) (src p : Z) : mem * circbuf * Z :=
  match n with
  | O => (m, buf, p)
  | S n =>
    let m := st m p (ld m src) in
    let p := p + 1 in
    let p := if p =? end_ buf then data buf else p in
    let buf :=
      if size buf <? totalsize buf
      then Buf (u32 (size buf + 1)) (totalsize buf) (top buf) (tail buf) (data buf) (end_ buf)
      else
        let t := top buf + 1 in
        Buf (size buf) (totalsize buf) (if t =? end_ buf then data buf else t) (tail buf) (data buf) (end_ buf) in
    push_loop n m buf (src + 1) p
  end.

Definition buf_push (m : mem) (buf : circbuf) (src len : Z) : Z * mem * circbuf :=
  let '(m, buf, p) := push_loop (Z.to_nat len) m buf src (tail buf) in
  (len, m, Buf (size buf) (totalsize buf) (top buf) p (data buf) (end_ buf)).

(** ** The bytes it holds *)

(** Byte [i] after [top]. *)
Definition pos (buf : circbuf) (i : Z) : Z :=
  if top buf + i <? end_ buf then top buf + i else top buf + i - totalsize buf.

Definition contents (m : mem) (buf : circbuf) : list Z :=
  map (fun i => ld m (pos buf (Z.of_nat i))) (seq 0 (Z.to_nat (size buf))).

(** The invariant, with [p] in the place of the tail. *)
Record wf_at (buf : circbuf) (p : Z) : Prop := {
  wf_total : 0 < totalsize buf < 2 ^ 32;
  wf_end : end_ buf = data buf + totalsize buf;
  wf_top : data buf <= top buf < end_ buf;
  wf_size : 0 <= size buf <= totalsize buf;
  wf_tail : p = pos buf (size buf);
}.

Definition wf (buf : circbuf) : Prop := wf_at buf (tail buf).

Lemma cbuf_contents_length m buf : length (contents m buf) = Z.to_nat (size buf).
Proof. unfold contents. rewrite length_map, length_seq. reflexivity. Qed.

Lemma cbuf_contents_lookup m buf i : (i < Z.to_nat (size buf))%nat -> contents m buf !! i = Some (ld m (pos buf (Z.of_nat i))).
Proof. intros Hi. unfold contents. rewrite list_lookup_fmap, lookup_seq_lt by exact Hi. reflexivity. Qed.

Lemma cbuf_contents_eq m buf l : Z.of_nat (length l) = size buf ->
  (forall i x, l !! i = Some x -> ld m (pos buf (Z.of_nat i)) = x) -> contents m buf = l.
Proof.
  intros Hl Hx. apply list_eq. intros i. destruct (decide (i < length l)%nat) as [Hi|Hi].
  - destruct (lookup_lt_is_Some_2 l i Hi) as [x E]. rewrite cbuf_contents_lookup, E by lia. f_equal. apply Hx. exact E.
  - rewrite !lookup_ge_None_2; [reflexivity|lia|rewrite cbuf_contents_length; lia].
Qed.

(** The last [n] elements of a list. *)
Definition newest {A} (n : nat) (l : list A) : list A := drop (length l - n) l.

Lemma newest_app {A} n (l k : list A) : newest n (newest n l ++ k) = newest n (l ++ k).
Proof.
  unfold newest. rewrite !length_app, length_drop. destruct (decide (length l <= n)%nat) as [H|H].
  - replace (length l - n)%nat with 0%nat by lia. rewrite drop_0. f_equal. lia.
  - rewrite !drop_app, length_drop, drop_drop. f_equal; f_equal; lia.
Qed.

(** ** Pushing *)

Definition apart (buf : circbuf) (p n : Z) : Prop := p + n <= data buf \/ end_ buf <= p.

(** One byte. *)
Lemma push_step m buf p c : wf_at buf p -> 0 <= c < 256 ->
  let p' := if p + 1 =? end_ buf then data buf else p + 1 in
  let buf' := if size buf <? totalsize buf
      then Buf (u32 (size buf + 1)) (totalsize buf) (top buf) (tail buf) (data buf) (end_ buf)
      else Buf (size buf) (totalsize buf) (if top buf + 1 =? end_ buf then data buf else top buf + 1) (tail buf) (data buf) (end_ buf) in
  wf_at buf' p' /\ data buf <= p < end_ buf /\
  contents (st m p c) buf' = newest (Z.to_nat (totalsize buf)) (contents m buf ++ [c]).
Proof.
  intros [H1 H2 H3 H4 Hp] Hc p' buf'. assert (data buf <= p < end_ buf) as Hpr by (subst p; unfold pos; case_match; lia).
  subst p' buf'. destruct (Z.ltb_spec (size buf) (totalsize buf)) as [Hlt|Hge].
  - rewrite u32_small by lia. split_and!; [|lia|lia|].
    { split; cbn; try lia. subst p. unfold pos. cbn. case_bools; lia. }
    unfold newest. rewrite length_app, cbuf_contents_length. cbn [length].
    replace (_ - _)%nat with 0%nat by lia. rewrite drop_0. apply cbuf_contents_eq.
    { rewrite length_app, cbuf_contents_length. cbn. lia. }
    intros i x Hx. apply lookup_app_Some in Hx as [Hx|[Hi Hx]].
    + pose proof (lookup_lt_Some _ _ _ Hx) as Hi. rewrite cbuf_contents_length in Hi. rewrite cbuf_contents_lookup in Hx by exact Hi.
      injection Hx as <-. apply ld_st_other. subst p. unfold pos. cbn. case_bools; lia.
    + rewrite cbuf_contents_length in *. apply list_lookup_singleton_Some in Hx as [Hi0 <-].
      replace (pos _ (Z.of_nat i)) with p; [rewrite ld_st_same; apply u8_small; lia|]. subst p. unfold pos. cbn. case_bools; lia.
  - split_and!; [|lia|lia|].
    { split; cbn; try lia; [case_bools; lia|]. subst p. unfold pos. cbn. case_bools; lia. }
    unfold newest. rewrite length_app, cbuf_contents_length. cbn [length].
    replace (_ - _)%nat with 1%nat by lia. apply cbuf_contents_eq.
    { rewrite length_drop, length_app, cbuf_contents_length. cbn. lia. }
    intros i x Hx. rewrite lookup_drop in Hx. apply lookup_app_Some in Hx as [Hx|[Hi Hx]].
    + pose proof (lookup_lt_Some _ _ _ Hx) as Hi. rewrite cbuf_contents_length in Hi. rewrite cbuf_contents_lookup in Hx by exact Hi.
      injection Hx as <-. rewrite ld_st_other by (subst p; unfold pos; cbn; case_bools; lia). f_equal. unfold pos. cbn. case_bools; lia.
    + rewrite cbuf_contents_length in *. apply list_lookup_singleton_Some in Hx as [Hi0 <-].
      replace (pos _ (Z.of_nat i)) with p; [rewrite ld_st_same; apply u8_small; lia|]. subst p. unfold pos. cbn. case_bools; lia.
Qed.

Lemma push_loop_spec n : forall m buf src p, wf_at buf p -> apart buf src (Z.of_nat n) ->
  exists m' buf' p', push_loop n m buf src p = (m', buf', p') /\ wf_at buf' p' /\ totalsize buf' = totalsize buf /\
    data buf' = data buf /\ end_ buf' = end_ buf /\
    contents m' buf' = newest (Z.to_nat (totalsize buf)) (contents m buf ++ bytes m src n) /\
    (forall x, x < data buf \/ end_ buf <= x -> ld m' x = ld m x).
Proof.
  induction n as [|n IH]; intros m buf src p Hwf Hap; cbn [push_loop].
  - exists m, buf, p. split_and!; auto. rewrite app_nil_r. unfold newest. rewrite cbuf_contents_length.
    replace (_ - _)%nat with 0%nat by (destruct Hwf; lia). rewrite drop_0. reflexivity.
  - destruct (push_step m buf p (ld m src) Hwf (ld_range m src)) as (Hwf' & Hp & Hc). cbv zeta in *.
    set (buf1 := if size buf <? totalsize buf then _ else _) in *. set (p1 := if p + 1 =? end_ buf then _ else _) in *.
    assert (totalsize buf1 = totalsize buf /\ data buf1 = data buf /\ end_ buf1 = end_ buf) as (E1 & E2 & E3)
      by (subst buf1; case_match; auto).
    destruct (IH (st m p (ld m src)) buf1 (src + 1) p1 Hwf') as (m' & buf' & p' & E & W & T & D & N & C & F);
      [unfold apart in *; rewrite E2, E3; lia|].
    exists m', buf', p'. split_and!; try congruence; auto.
    + rewrite C, Hc, E1, newest_app, <- app_assoc. cbn [app bytes]. do 3 f_equal. apply bytes_ext.
      intros a Ha. apply ld_st_other. unfold apart in Hap. lia.
    + intros x Hx. rewrite F by (rewrite E2, E3; exact Hx). apply ld_st_other. lia.
Qed.

(** [buf_push] appends the bytes and keeps the newest [totalsize]; the memory
    changes in the buffer only. *)
Theorem buf_push_keeps_newest m buf src len : wf buf -> 0 <= len -> apart buf src len ->
  exists m' buf', buf_push m buf src len = (len, m', buf') /\ wf buf' /\
    contents m' buf' = newest (Z.to_nat (totalsize buf)) (contents m buf ++ bytes m src (Z.to_nat len)) /\
    (forall x, x < data buf \/ end_ buf <= x -> ld m' x = ld m x).
Proof.
  intros Hwf Hl Hap. unfold buf_push.
  destruct (push_loop_spec (Z.to_nat len) m buf src (tail buf) Hwf) as (m' & buf' & p' & -> & [H1 H2 H3 H4 H5] & T & D & N & C & F);
    [rewrite Z2Nat.id by lia; exact Hap|].
  eexists _, _. split; [reflexivity|]. split_and!; [split; cbn; auto|exact C|exact F].
Qed.

(** ** Popping *)

Lemma pos_succ buf p i : wf_at buf p -> 0 <= i < totalsize buf ->
  (if pos buf i + 1 =? end_ buf then data buf else pos buf i + 1) = pos buf (i + 1).
Proof. intros [H1 H2 H3 H4 _] Hi. unfold pos. case_bools; lia. Qed.

Lemma pop_loop_spec n : forall m buf p dest i, wf_at buf p -> 0 <= i -> i + Z.of_nat n <= totalsize buf -> apart buf dest (Z.of_nat n) ->
  exists m', pop_loop n m buf dest (pos buf i) = (m', pos buf (i + Z.of_nat n)) /\
    bytes m' dest n = map (fun j => ld m (pos buf (i + Z.of_nat j))) (seq 0 n) /\
    (forall x, x < dest \/ dest + Z.of_nat n <= x -> ld m' x = ld m x).
Proof.
  induction n as [|n IH]; intros m buf p dest i Hwf Hi Hn Hap; cbn [pop_loop].
  { exists m. rewrite Z.add_0_r. auto. }
  rewrite (pos_succ buf p i Hwf) by lia. set (m1 := st m dest (ld m (pos buf i))).
  destruct (IH m1 buf p (dest + 1) (i + 1) Hwf) as (m' & -> & Hb & Hf); [lia|lia|unfold apart in *; lia|].
  exists m'. split_and!; [do 2 f_equal; lia| |].
  - cbn [bytes seq map]. rewrite Hf by lia. unfold m1 at 1. rewrite ld_st_same, u8_small, Z.add_0_r by apply ld_range. f_equal.
    rewrite Hb, <- seq_shift, map_map. apply map_ext_in. intros j Hj. apply in_seq in Hj. cbn beta.
    replace (i + 1 + Z.of_nat j) with (i + Z.of_nat (S j)) by lia. unfold m1. apply ld_st_other.
    destruct Hwf as [? ? ? ? _]. unfold apart, pos in *. case_bools; lia.
  - intros x Hx. rewrite Hf by lia. unfold m1. apply ld_st_other. lia.
Qed.

(** [buf_pop] takes as many of the oldest bytes as there are and are asked for and
    writes them to the caller's buffer and nothing else. *)
Theorem buf_pop_takes m buf dest len : wf buf -> 0 <= len -> apart buf dest len ->
  let n := Z.min len (size buf) in
  exists m' buf', buf_pop m buf dest len = (n, m', buf') /\ wf buf' /\
    bytes m' dest (Z.to_nat n) = take (Z.to_nat n) (contents m buf) /\
    contents m' buf' = drop (Z.to_nat n) (contents m buf) /\
    (forall x, x < dest \/ dest + n <= x -> ld m' x = ld m x).
Proof.
  intros Hwf Hl Hap n. pose proof Hwf as [H1 H2 H3 H4 H5]. unfold buf_pop.
  replace (if size buf <? len then size buf else len) with n by (unfold n; case_match; lia).
  assert (pos buf 0 = top buf) as Htop by (unfold pos; case_match; lia).
  destruct (pop_loop_spec (Z.to_nat n) m buf (tail buf) dest 0 Hwf) as (m' & E & Hb & Hf); [lia|lia|unfold apart in *; lia|].
  rewrite Htop in E. rewrite E. rewrite Z2Nat.id, Z.add_0_l in * by lia. rewrite u32_small by lia.
  eexists _, _. split; [reflexivity|]. split_and!; [|rewrite Hb| |exact Hf].
  - split; cbn; try lia; [unfold pos; case_match; lia|]. rewrite H5. unfold pos. cbn. case_bools; lia.
  - apply list_eq. intros i. destruct (decide (i < Z.to_nat n)%nat) as [Hi|Hi].
    + rewrite lookup_take_lt, cbuf_contents_lookup by lia. rewrite list_lookup_fmap, lookup_seq_lt by exact Hi. cbn. do 2 f_equal.
    + rewrite !lookup_ge_None_2; [reflexivity|rewrite length_take; lia|rewrite length_map, length_seq; lia].
  - apply cbuf_contents_eq; [rewrite length_drop, cbuf_contents_length; cbn; lia|]. intros i x Hx. rewrite lookup_drop in Hx.
    pose proof (lookup_lt_Some _ _ _ Hx) as Hi. rewrite cbuf_contents_length in Hi. rewrite cbuf_contents_lookup in Hx by exact Hi.
    injection Hx as <-. rewrite Hf by (unfold pos, apart in *; cbn; case_bools; lia). f_equal. unfold pos. cbn. case_bools; lia.
Qed.

(** ** A concrete buffer of four bytes *)

Definition demo : circbuf := Buf 3 4 0x102 0x101 0x100 0x104.
Definition demo_mem : mem := wr (mem_of 0x100 [3; 0; 1; 2]) 0x200 [7; 8; 9].

Lemma cbuf_demo_wf : wf demo.
Proof. split; cbn; try lia. reflexivity. Qed.

Lemma buf_push_keeps_newest_witness : exists m' buf', buf_push demo_mem demo 0x200 3 = (3, m', buf') /\
  contents m' buf' = [3; 7; 8; 9].
Proof.
  destruct (buf_push_keeps_newest demo_mem demo 0x200 3 cbuf_demo_wf) as (m' & buf' & E & _ & C & _); [lia|unfold apart; cbn; lia|].
  exists m', buf'. split; [exact E|exact C].
Defined.

Lemma buf_pop_takes_witness : exists m' buf', buf_pop demo_mem demo 0x300 2 = (2, m', buf') /\
  bytes m' 0x300 2 = [1; 2] /\ contents m' buf' = [3].
Proof.
  destruct (buf_pop_takes demo_mem demo 0x300 2 cbuf_demo_wf) as (m' & buf' & E & _ & B & C & _); [lia|unfold apart; cbn; lia|].
  exists m', buf'. split; [exact E|]. split; [exact B|exact C].
Defined.

End Circbuf.
