(* ===== verification/Image.v ===== *)
(** * Image: the boot image

    The legacy image format of U-Boot: the header of include/image.h, its checks
    and the multi-component layout of common/image.c, and the header that
    mkimage writes (tools/default_image.c), with which the chapters wrap their
    program.  Header fields are big-endian words in the memory of Cmem.v;
    [memmove] is CString's and the checksums are Crc32's. *)

From stdpp Require Import base list option.
From Stdlib Require Import ZifyBool.
From S2P Require Import Prelude Cmem CString Crc32.

Module Image.

(** ** The header *)

Definition IH_MAGIC : Z := 0x27051956.
Definition IH_NMLEN : Z := 32.
Definition IH_OS_LINUX : Z := 5.
Definition IH_OS_TEE : Z := 26.
Definition IH_ARCH_ARM : Z := 2.
Definition IH_ARCH_ARM64 : Z := 22.
Definition IH_ARCH_DEFAULT : Z := IH_ARCH_ARM.
Definition IH_TYPE_STANDALONE : Z := 1.
Definition IH_TYPE_KERNEL : Z := 2.
Definition IH_TYPE_RAMDISK : Z := 3.
Definition IH_TYPE_MULTI : Z := 4.
Definition IH_TYPE_KERNEL_NOLOAD : Z := 14.
Definition IH_TYPE_FIRMWARE_IVT : Z := 32.
Definition IH_COMP_NONE : Z := 0.

Definition CHUNKSZ : Z := 64 * 1024.
Definition CHUNKSZ_CRC32 : Z := 64 * 1024.

Definition IMAGE_FORMAT_INVALID : Z := 0x00.
Definition IMAGE_FORMAT_LEGACY : Z := 0x01.
Definition IMAGE_FORMAT_FIT : Z := 0x02.

(** The offsets of [image_header_t]. *)
Definition ih_magic : Z := 0.
Definition ih_hcrc : Z := 4.
Definition ih_time : Z := 8.
Definition ih_size : Z := 12.
Definition ih_load : Z := 16.
Definition ih_ep : Z := 20.
Definition ih_dcrc : Z := 24.
Definition ih_os : Z := 28.
Definition ih_arch : Z := 29.
Definition ih_type : Z := 30.
Definition ih_comp : Z := 31.
Definition ih_name : Z := 32.

Definition image_get_header_size : Z := 64.

(** [uimage_to_cpu] and [cpu_to_uimage] on a little-endian CPU. *)
Definition be32 (m : mem) (a : Z) : Z := Crc32.swab32 (ld32 m a).
Definition set_be32 (m : mem) (a v : Z) : mem := st32 m a (Crc32.swab32 v).

Definition image_get_magic (m : mem) (hdr : Z) : Z := be32 m (hdr + ih_magic).
Definition image_get_hcrc (m : mem) (hdr : Z) : Z := be32 m (hdr + ih_hcrc).
Definition image_get_size (m : mem) (hdr : Z) : Z := be32 m (hdr + ih_size).
Definition image_get_load (m : mem) (hdr : Z) : Z := be32 m (hdr + ih_load).
Definition image_get_ep (m : mem) (hdr : Z) : Z := be32 m (hdr + ih_ep).
Definition image_get_dcrc (m : mem) (hdr : Z) : Z := be32 m (hdr + ih_dcrc).
Definition image_get_os (m : mem) (hdr : Z) : Z := ld m (hdr + ih_os).
Definition image_get_arch (m : mem) (hdr : Z) : Z := ld m (hdr + ih_arch).
Definition image_get_type (m : mem) (hdr : Z) : Z := ld m (hdr + ih_type).
Definition image_get_comp (m : mem) (hdr : Z) : Z := ld m (hdr + ih_comp).

Definition image_get_data_size (m : mem) (hdr : Z) : Z := image_get_size m hdr.
Definition image_get_data (hdr : Z) : Z := u32 (hdr + image_get_header_size).
Definition image_get_image_size (m : mem) (hdr : Z) : Z := u32 (image_get_size m hdr + image_get_header_size).
Definition image_get_image_end (m : mem) (hdr : Z) : Z := u32 (hdr + image_get_image_size m hdr).

Definition image_set_magic (m : mem) (hdr v : Z) : mem := set_be32 m (hdr + ih_magic) v.
Definition image_set_hcrc (m : mem) (hdr v : Z) : mem := set_be32 m (hdr + ih_hcrc) v.
Definition image_set_time (m : mem) (hdr v : Z) : mem := set_be32 m (hdr + ih_time) v.
Definition image_set_size (m : mem) (hdr v : Z) : mem := set_be32 m (hdr + ih_size) v.
Definition image_set_load (m : mem) (hdr v : Z) : mem := set_be32 m (hdr + ih_load) v.
Definition image_set_ep (m : mem) (hdr v : Z) : mem := set_be32 m (hdr + ih_ep) v.
Definition image_set_dcrc (m : mem) (hdr v : Z) : mem := set_be32 m (hdr + ih_dcrc) v.
Definition image_set_os (m : mem) (hdr v : Z) : mem := st m (hdr + ih_os) v.
Definition image_set_arch (m : mem) (hdr v : Z) : mem := st m (hdr + ih_arch) v.
Definition image_set_type (m : mem) (hdr v : Z) : mem := st m (hdr + ih_type) v.
Definition image_set_comp (m : mem) (hdr v : Z) : mem := st m (hdr + ih_comp) v.

(** The host's [strncpy] fills the rest of the field with NULs. *)
Definition image_set_name (m : mem) (hdr : Z) (name : list Z) : mem :=
  wr m (hdr + ih_name) (take 32 (name ++ replicate 32 0)).

(** ** The checks *)

Definition image_check_magic (m : mem) (hdr : Z) : bool := image_get_magic m hdr =? IH_MAGIC.
Definition image_check_type (m : mem) (hdr type : Z) : bool := image_get_type m hdr =? type.
Definition image_check_arch (m : mem) (hdr arch : Z) : bool :=
  (image_get_arch m hdr =? arch) || ((image_get_arch m hdr =? IH_ARCH_ARM) && (arch =? IH_ARCH_ARM64)).
Definition image_check_os (m : mem) (hdr os : Z) : bool := image_get_os m hdr =? os.
Definition image_check_target_arch (m : mem) (hdr : Z) : bool := image_check_arch m hdr IH_ARCH_DEFAULT.

(** [header] is the address of the copy on the stack. *)
Definition image_check_hcrc (m : mem) (header hdr : Z) : option bool :=
  let m := (CString.memmove m header hdr image_get_header_size).2 in
  let m := image_set_hcrc m header 0 in
  hcrc ← Crc32.crc32 m 0 header image_get_header_size;
  Some (hcrc =? image_get_hcrc m hdr).

Definition image_check_dcrc (m : mem) (hdr : Z) : option bool :=
  dcrc ← Crc32.crc32_wd m 0 (image_get_data hdr) (image_get_data_size m hdr) CHUNKSZ_CRC32;
  Some (dcrc =? image_get_dcrc m hdr).

(** [image_get_ramdisk]: the address, or [None] for [NULL]. *)
Definition image_get_ramdisk (m : mem) (header rd_addr arch : Z) (verify : bool) : option (option Z) :=
  if negb (image_check_magic m rd_addr) then Some None else
  hc ← image_check_hcrc m header rd_addr;
  if negb hc then Some None else
  dc ← (if verify then image_check_dcrc m rd_addr else Some true);
  if negb dc then Some None else
  if negb (image_check_os m rd_addr IH_OS_LINUX) || negb (image_check_arch m rd_addr arch) ||
     negb (image_check_type m rd_addr IH_TYPE_RAMDISK)
  then Some None else Some (Some rd_addr).

(** [fdt] is the result of [fdt_check_header]. *)
Definition genimg_get_format (m : mem) (fdt : Z -> Z) (img_addr : Z) : Z :=
  if image_check_magic m img_addr then IMAGE_FORMAT_LEGACY
  else if fdt img_addr =? 0 then IMAGE_FORMAT_FIT
  else IMAGE_FORMAT_INVALID.

(** ** Multi-component images *)

Fixpoint count_loop (fuel : nat) (m : mem) (size i : Z) : option Z :=
  match fuel with
  | O => None
  | S fuel => if ld32 m (size + 4 * i) =? 0 then Some i else count_loop fuel m size (i + 1)
  end.

Definition image_multi_count (fuel : nat) (m : mem) (hdr : Z) : option Z := count_loop fuel m (image_get_data hdr) 0.

(** [for (i = 0; i < idx; i++)], [k] rounds left. *)
Fixpoint offset_loop (k : nat) (m : mem) (size i offset : Z) : Z :=
  match k with
  | O => offset
  | S k => offset_loop k m size (i + 1) (u32 (offset + Z.land (u32 (be32 m (size + 4 * i) + 3)) (Z.lnot 3)))
  end.

(** The address and the length. *)
Definition image_multi_getimg (fuel : nat) (m : mem) (hdr idx : Z) : option (Z * Z) :=
  count ← image_multi_count fuel m hdr;
  let size := image_get_data hdr in
  let img_data := u32 (image_get_data hdr + (count + 1) * 4) in
  if idx <? count then
    Some (u32 (img_data + offset_loop (Z.to_nat idx) m size 0 0), be32 m (size + 4 * idx))
  else Some (0, 0).

(** ** Moving an image *)

(** The loop of [memmove_wd] in a build with a watchdog; the pointers are compared
    as the loop moves them. *)
Fixpoint wd_loop (fuel : nat) (m : mem) (to from len chunksz : Z) : option mem :=
  match fuel with
  | O => None
  | S fuel =>
    if 0 <? len then
      let tail := if chunksz <? len then chunksz else len in
      let '(to, from) := if from <? to then (to - tail, from - tail) else (to, from) in
      let m := (CString.memmove m to from tail).2 in
      let '(to, from) := if to <? from then (to + tail, from + tail) else (to, from) in
      wd_loop fuel m to from (len - tail) chunksz
    else Some m
  end.

Definition memmove_wd_watchdog (fuel : nat) (m : mem) (to from len chunksz : Z) : option mem :=
  if to =? from then Some m else
  let '(to, from) := if from <? to then (to + len, from + len) else (to, from) in
  wd_loop fuel m to from len chunksz.

Definition memmove_wd (m : mem) (to from len chunksz : Z) : mem :=
  if to =? from then m else (CString.memmove m to from len).2.

(** ** Tables of names *)

Record table_entry := Entry { id : Z; sname : option (list Z); lname : list Z }.

(** The tables end with a negative id. *)
Fixpoint get_table_entry (table : list table_entry) (i : Z) : option table_entry :=
  match table with
  | [] => None
  | t :: table => if id t <? 0 then None else if id t =? i then Some t else get_table_entry table i
  end.

(** ** mkimage *)

Record image_tool_params := Params {
  p_os : Z; p_arch : Z; p_type : Z; p_comp : Z; p_addr : Z; p_ep : Z; p_name : list Z }.

(** [image_set_header] for the image at [ptr] of [st_size] bytes; [time] is the
    time stamp, [optee] the load address and entry point of an OP-TEE image. *)
Definition image_set_header (m : mem) (ptr st_size time : Z) (optee : Z * Z) (params : image_tool_params) : option mem :=
  checksum ← Crc32.crc32 m 0 (ptr + image_get_header_size) (u32 (st_size - image_get_header_size));
  let imagesize := if p_type params =? IH_TYPE_FIRMWARE_IVT then u32 (st_size - image_get_header_size + 0x1FE0)
                   else u32 (st_size - image_get_header_size) in
  let '(addr, ep) := if p_os params =? IH_OS_TEE then optee else (p_addr params, p_ep params) in
  let m := image_set_magic m ptr IH_MAGIC in
  let m := image_set_time m ptr time in
  let m := image_set_size m ptr imagesize in
  let m := image_set_load m ptr addr in
  let m := image_set_ep m ptr ep in
  let m := image_set_dcrc m ptr checksum in
  let m := image_set_os m ptr (p_os params) in
  let m := image_set_arch m ptr (p_arch params) in
  let m := image_set_type m ptr (p_type params) in
  let m := image_set_comp m ptr (p_comp params) in
  let m := image_set_name m ptr (p_name params) in
  checksum ← Crc32.crc32 m 0 ptr image_get_header_size;
  Some (image_set_hcrc m ptr checksum).

Definition FDT_ERR_BADMAGIC : Z := 9.
Definition FDT_ERR_BADSTATE : Z := 7.
Definition FDT_ERR_BADSTRUCTURE : Z := 11.

(** [image_verify_header], which mkimage uses to recognise an image; [header] is
    the copy. *)
Definition image_verify_header (m : mem) (header ptr image_size : Z) : option Z :=
  let m := (CString.memmove m header ptr image_get_header_size).2 in
  if negb (be32 m (header + ih_magic) =? IH_MAGIC) then Some (- FDT_ERR_BADMAGIC) else
  let checksum := be32 m (header + ih_hcrc) in
  let m := set_be32 m (header + ih_hcrc) 0 in
  c ← Crc32.crc32 m 0 header image_get_header_size;
  if negb (c =? checksum) then Some (- FDT_ERR_BADSTATE) else
  let checksum := be32 m (header + ih_dcrc) in
  c ← Crc32.crc32 m 0 (ptr + image_get_header_size) (u32 (image_size - image_get_header_size));
  if negb (c =? checksum) then Some (- FDT_ERR_BADSTRUCTURE) else
  Some 0.

(** ** Words in memory *)

(** [decide_bools] settles comparisons whose outcome [lia] knows. *)
Ltac decide_bools :=
  repeat match goal with
  | |- context [?a <? ?b] => first [replace (a <? b) with true by lia | replace (a <? b) with false by lia]
  | |- context [?a <=? ?b] => first [replace (a <=? b) with true by lia | replace (a <=? b) with false by lia]
  | |- context [?a =? ?b] => first [replace (a =? b) with true by lia | replace (a =? b) with false by lia]
  end.

Lemma byte_mask_testbit k n : 0 <= k -> Z.testbit (Z.shiftl 255 k) n = (k <=? n) && (n <? k + 8).
Proof.
  intros Hk. destruct (Z_lt_dec n 0) as [Hn|Hn]; [rewrite Z.testbit_neg_r by lia; lia|].
  rewrite Z.shiftl_spec by lia. change 255 with (Z.ones 8).
  destruct (Z.leb_spec k n) as [H|H]; cbn [andb]; [|apply Z.testbit_neg_r; lia].
  rewrite Z.testbit_ones_nonneg by lia. lia.
Qed.

(** [swab32] moves byte [i] to byte [3 - i]. *)
Lemma swab32_bit x n : 0 <= n -> Z.testbit (Crc32.swab32 x) n =
  if n <? 8 then Z.testbit x (n + 24) else if n <? 16 then Z.testbit x (n + 8)
  else if n <? 24 then Z.testbit x (n - 8) else if n <? 32 then Z.testbit x (n - 24) else false.
Proof.
  intros Hn. unfold Crc32.swab32. change 0x000000ff with (Z.shiftl 255 0). change 0x0000ff00 with (Z.shiftl 255 8).
  change 0x00ff0000 with (Z.shiftl 255 16). change 0xff000000 with (Z.shiftl 255 24).
  rewrite !Z.lor_spec, !u32_testbit, !Z.shiftr_spec by exact Hn. rewrite !Z.shiftl_spec by exact Hn.
  rewrite !Z.land_spec, !byte_mask_testbit by lia.
  destruct (Z_lt_dec n 8); [|destruct (Z_lt_dec n 16); [|destruct (Z_lt_dec n 24); [|destruct (Z_lt_dec n 32)]]];
    decide_bools; cbn [andb orb]; rewrite ?andb_true_r, ?andb_false_r, ?orb_false_r; reflexivity.
Qed.

Lemma swab32_range x : 0 <= Crc32.swab32 x < 2 ^ 32.
Proof.
  unfold Crc32.swab32. apply (lor_range 32); [lia|apply (lor_range 32); [lia|apply (lor_range 32); [lia|apply u32_range..]|]|].
  - apply (shiftr_range 32); [lia|lia|]. rewrite Z.land_comm. apply (land_range 32); [lia|]. unfold in_range. lia.
  - apply (shiftr_range 32); [lia|lia|]. rewrite Z.land_comm. apply (land_range 32); [lia|]. unfold in_range. lia.
Qed.

Lemma swab32_swab32 x : Crc32.swab32 (Crc32.swab32 x) = u32 x.
Proof.
  apply Z.bits_inj'. intros n Hn. rewrite swab32_bit, u32_testbit by exact Hn.
  case_bools; try lia; rewrite ?swab32_bit by lia; case_bools; try lia; cbn [andb]; try reflexivity; f_equal; lia.
Qed.

Lemma ld32_st32 m a v : ld32 (st32 m a v) a = u32 v.
Proof.
  unfold ld32, st32. rewrite !ld_st. decide_bools. unfold u32, u8, wrap. rewrite !Z.shiftr_div_pow2 by lia.
  replace (2 ^ 32) with (2 ^ 8 * (2 ^ 8 * (2 ^ 8 * 2 ^ 8))) by reflexivity. rewrite !Z.rem_mul_r by lia.
  rewrite !Z.div_div by lia. reflexivity.
Qed.

Lemma ld_st32_other m a v x : x < a \/ a + 4 <= x -> ld (st32 m a v) x = ld m x.
Proof. intros Hx. unfold st32. rewrite !ld_st_other by lia. reflexivity. Qed.

Lemma be32_set m a v : 0 <= v < 2 ^ 32 -> be32 (set_be32 m a v) a = v.
Proof.
  intros Hv. unfold be32, set_be32. rewrite ld32_st32, u32_small, swab32_swab32 by apply swab32_range. apply u32_small. exact Hv.
Qed.

Lemma ld_set_other m a v x : x < a \/ a + 4 <= x -> ld (set_be32 m a v) x = ld m x.
Proof. apply ld_st32_other. Qed.

Lemma be32_ext m m' a : (forall x, a <= x < a + 4 -> ld m' x = ld m x) -> be32 m' a = be32 m a.
Proof. intros H. unfold be32, ld32. rewrite !H by lia. reflexivity. Qed.

Lemma be32_range m a : 0 <= be32 m a < 2 ^ 32.
Proof. apply swab32_range. Qed.

Lemma be32_set_other m a v b : b + 4 <= a \/ a + 4 <= b -> be32 (set_be32 m a v) b = be32 m b.
Proof. intros H. apply be32_ext. intros x Hx. apply ld_set_other. lia. Qed.

Lemma be32_st_other m a v b : a < b \/ b + 4 <= a -> be32 (st m a v) b = be32 m b.
Proof. intros H. apply be32_ext. intros x Hx. apply ld_st_other. lia. Qed.

Lemma ld_wr_other m a l x : x < a \/ a + Z.of_nat (length l) <= x -> ld (wr m a l) x = ld m x.
Proof. intros H. rewrite ld_wr. replace (_ && _) with false by lia. reflexivity. Qed.

Lemma be32_wr_other m a l b : b + 4 <= a \/ a + Z.of_nat (length l) <= b -> be32 (wr m a l) b = be32 m b.
Proof. intros H. apply be32_ext. intros x Hx. apply ld_wr_other. lia. Qed.

Ltac offsets := unfold ih_magic, ih_hcrc, ih_time, ih_size, ih_load, ih_ep, ih_dcrc, ih_os, ih_arch, ih_type, ih_comp, ih_name,
  image_get_header_size in *.

(** [header_field] reads a field through the writes of other fields. *)
Ltac header_field :=
  offsets; repeat first
    [ rewrite be32_set by lia | rewrite be32_set_other by lia | rewrite be32_st_other by lia
    | rewrite be32_wr_other by lia | rewrite ld_set_other by lia | rewrite ld_st_same
    | rewrite ld_st_other by lia | rewrite ld_wr_other by lia ].

(** ** The checksums *)

(** The header with its checksum blanked. *)
Definition blanked (m : mem) (hdr : Z) : list Z := bytes m hdr 4 ++ [0; 0; 0; 0] ++ bytes m (hdr + 8) 56.

Definition disjoint64 (a b : Z) : Prop := a + 64 <= b \/ b + 64 <= a.

Lemma bytes_blanked m hdr : bytes (set_be32 m (hdr + 4) 0) hdr 64 = blanked m hdr.
Proof.
  change 64%nat with (4 + (4 + 56))%nat. rewrite !bytes_app. unfold blanked. f_equal; [|f_equal].
  - apply bytes_ext. intros a Ha. apply ld_set_other. lia.
  - change (Z.of_nat 4) with 4. unfold set_be32. change (Crc32.swab32 0) with 0. unfold st32. cbn [bytes].
    rewrite !ld_st. decide_bools. reflexivity.
  - rewrite <- Z.add_assoc. change (Z.of_nat 4 + Z.of_nat 4) with 8. apply bytes_ext. intros a Ha. apply ld_set_other. lia.
Qed.

(** A header whose checksum field is zero is its own blanked copy. *)
Lemma bytes_unset m hdr : be32 m (hdr + 4) = 0 -> bytes m hdr 64 = blanked m hdr.
Proof.
  intros H. assert (ld32 m (hdr + 4) = 0) as H32.
  { pose proof (swab32_swab32 (ld32 m (hdr + 4))) as E. fold (be32 m (hdr + 4)) in E. rewrite H, u32_small in E by apply ld32_range.
    rewrite <- E. reflexivity. }
  change 64%nat with (4 + (4 + 56))%nat. rewrite !bytes_app. unfold blanked. f_equal. f_equal.
  - change (Z.of_nat 4) with 4. cbn [bytes]. unfold ld32 in H32. pose proof (ld_range m (hdr + 4)).
    pose proof (ld_range m (hdr + 4 + 1)). pose proof (ld_range m (hdr + 4 + 2)). pose proof (ld_range m (hdr + 4 + 3)).
    replace (hdr + 4 + 1 + 1) with (hdr + 4 + 2) by lia. replace (hdr + 4 + 2 + 1) with (hdr + 4 + 3) by lia.
    f_equal; [lia|]. f_equal; [lia|]. f_equal; [lia|]. f_equal. lia.
  - rewrite <- Z.add_assoc. reflexivity.
Qed.

Lemma image_check_hcrc_spec m header hdr : disjoint64 header hdr ->
  image_check_hcrc m header hdr = Some (Crc32.checksum 0 (blanked m hdr) =? image_get_hcrc m hdr).
Proof.
  intros Hd. unfold image_check_hcrc, image_set_hcrc, image_get_hcrc. offsets.
  pose proof (CString.memmove_moved m header hdr 64 ltac:(lia)) as Hm. set (m1 := (CString.memmove m header hdr 64).2) in *.
  rewrite Crc32.crc32_spec by lia. cbn [mbind option_bind]. change (Z.to_nat 64) with 64%nat. rewrite bytes_blanked.
  replace (blanked m1 header) with (blanked m hdr).
  - do 2 f_equal. unfold disjoint64 in Hd. rewrite be32_set_other by lia. apply be32_ext. intros x Hx. rewrite Hm.
    replace (_ && _) with false by lia. reflexivity.
  - unfold blanked. f_equal; [|f_equal]; apply bytes_eq_nth; intros i Hi; rewrite Hm; replace (_ && _) with true by lia; f_equal; lia.
Qed.

Lemma image_check_dcrc_spec m hdr : 0 <= hdr -> hdr + 64 < 2 ^ 32 ->
  image_check_dcrc m hdr = Some (Crc32.checksum 0 (bytes m (hdr + 64) (Z.to_nat (image_get_size m hdr))) =? image_get_dcrc m hdr).
Proof.
  intros H0 H. unfold image_check_dcrc, Crc32.crc32_wd, image_get_data_size, image_get_data. offsets.
  rewrite (u32_small (hdr + 64)) by lia. rewrite Crc32.crc32_spec by apply be32_range. reflexivity.
Qed.

(** ** The header that mkimage writes *)

(** What mkimage is given: values that fit their fields, for an image that is
    neither an OP-TEE nor an IVT image. *)
Record ok_params (params : image_tool_params) : Prop := {
  ok_os : 0 <= p_os params < 256 /\ p_os params <> IH_OS_TEE;
  ok_arch : 0 <= p_arch params < 256;
  ok_type : 0 <= p_type params < 256 /\ p_type params <> IH_TYPE_FIRMWARE_IVT;
  ok_comp : 0 <= p_comp params < 256;
  ok_addr : 0 <= p_addr params < 2 ^ 32;
  ok_ep : 0 <= p_ep params < 2 ^ 32;
}.

(** The image at [ptr] has the fields of [params] and good checksums. *)
Record good_image (m : mem) (ptr size : Z) (params : image_tool_params) : Prop := {
  gi_magic : image_get_magic m ptr = IH_MAGIC;
  gi_size : image_get_size m ptr = size;
  gi_load : image_get_load m ptr = p_addr params;
  gi_ep : image_get_ep m ptr = p_ep params;
  gi_os : image_get_os m ptr = p_os params;
  gi_arch : image_get_arch m ptr = p_arch params;
  gi_type : image_get_type m ptr = p_type params;
  gi_comp : image_get_comp m ptr = p_comp params;
  gi_hcrc : Crc32.checksum 0 (blanked m ptr) = image_get_hcrc m ptr;
  gi_dcrc : Crc32.checksum 0 (bytes m (ptr + 64) (Z.to_nat size)) = image_get_dcrc m ptr;
}.

(** A good image is good wherever its bytes are. *)
Lemma good_image_moved m ptr m' ptr' size params : 0 <= size -> (forall i, 0 <= i < 64 + size -> ld m' (ptr' + i) = ld m (ptr + i)) ->
  good_image m ptr size params -> good_image m' ptr' size params.
Proof.
  intros Hs H [H1 H2 H3 H4 H5 H6 H7 H8 H9 H10].
  assert (forall o, 0 <= o <= 60 -> be32 m' (ptr' + o) = be32 m (ptr + o)) as Hbe.
  { intros o Ho. unfold be32, ld32. f_equal. rewrite <- !Z.add_assoc. rewrite !H by lia. reflexivity. }
  assert (forall o n, 0 <= o -> o + Z.of_nat n <= 64 + size -> bytes m' (ptr' + o) n = bytes m (ptr + o) n) as Hby.
  { intros o n H0 Hn. apply bytes_eq_nth. intros i Hi. rewrite <- !Z.add_assoc. apply H. lia. }
  split; unfold image_get_magic, image_get_size, image_get_load, image_get_ep, image_get_os, image_get_arch, image_get_type,
    image_get_comp, image_get_hcrc, image_get_dcrc in *; offsets; rewrite ?Hbe, ?H by lia; try assumption.
  - rewrite <- H9. unfold blanked. f_equal. f_equal; [|f_equal; apply Hby; lia].
    rewrite <- (Z.add_0_r ptr'), <- (Z.add_0_r ptr). apply Hby; lia.
  - rewrite <- H10. f_equal. apply Hby; lia.
Qed.

Lemma checksum_range l : Forall (fun b => 0 <= b < 256) l -> 0 <= Crc32.checksum 0 l < 2 ^ 32.
Proof.
  intros Hl. unfold Crc32.checksum. apply (lxor_range 32); [lia| |unfold in_range; lia].
  apply Crc32.reference_range; [apply (lxor_range 32); unfold in_range; lia|exact Hl].
Qed.

Lemma name_length (name : list Z) : length (take 32 (name ++ replicate 32 0)) = 32%nat.
Proof. rewrite length_take, length_app, length_replicate. lia. Qed.

(** mkimage's header on an image of [size] bytes of data, whose checksum field is
    still zero, makes a good image, and does not touch the data. *)
Lemma image_set_header_good m ptr size time optee params : ok_params params -> 0 <= size -> size + 64 < 2 ^ 32 ->
  0 <= time < 2 ^ 32 -> be32 m (ptr + ih_hcrc) = 0 ->
  exists m', image_set_header m ptr (size + 64) time optee params = Some m' /\ good_image m' ptr size params /\
    (forall x, x < ptr \/ ptr + 64 <= x -> ld m' x = ld m x).
Proof.
  intros [[Hos Htee] Har [Hty Hivt] Hco Had Hep] Hs0 Hs Ht H0. unfold image_set_header.
  replace (size + 64 - image_get_header_size) with size by (offsets; lia). rewrite (u32_small size) by lia.
  rewrite Crc32.crc32_spec by lia. cbn [mbind option_bind].
  replace (p_type params =? IH_TYPE_FIRMWARE_IVT) with false by lia. replace (p_os params =? IH_OS_TEE) with false by lia.
  unfold image_set_magic, image_set_time, image_set_size, image_set_load, image_set_ep, image_set_dcrc, image_set_os,
    image_set_arch, image_set_type, image_set_comp, image_set_name, image_set_hcrc.
  set (dsum := Crc32.checksum 0 (bytes m _ _)).
  assert (0 <= dsum < 2 ^ 32) as Hd by (apply checksum_range, Crc32.bytes_byte_range).
  pose proof (name_length (p_name params)) as Hn. set (nm := take 32 _) in *. set (m1 := wr _ _ nm).
  rewrite Crc32.crc32_spec by (offsets; lia). cbn [mbind option_bind]. eexists. split; [reflexivity|].
  set (hsum := Crc32.checksum 0 (bytes m1 ptr _)).
  assert (0 <= hsum < 2 ^ 32) as Hh by (apply checksum_range, Crc32.bytes_byte_range).
  assert (be32 m1 (ptr + 4) = 0) as H1 by (unfold m1; header_field; exact H0).
  assert (forall x, x < ptr \/ ptr + 64 <= x -> ld m1 x = ld m x) as Hfr by (intros x Hx; unfold m1; header_field; reflexivity).
  split; [|intros x Hx; offsets; rewrite ld_set_other by lia; apply Hfr; exact Hx].
  split; unfold image_get_magic, image_get_size, image_get_load, image_get_ep, image_get_os, image_get_arch, image_get_type,
    image_get_comp, image_get_hcrc, image_get_dcrc; try (unfold m1, IH_MAGIC; header_field; try reflexivity; apply u8_small; lia).
  - rewrite be32_set by exact Hh. unfold hsum. f_equal. offsets. change (Z.to_nat 64) with 64%nat.
    rewrite (bytes_unset m1 ptr H1). unfold blanked. f_equal; [|f_equal]; apply bytes_ext; intros a Ha; apply ld_set_other; lia.
  - replace (be32 _ (ptr + ih_dcrc)) with dsum by (unfold m1; header_field; reflexivity). unfold dsum. f_equal.
    apply bytes_ext. intros a Ha. offsets. rewrite ld_set_other by lia. apply Hfr. lia.
Qed.

(** A good image passes the checks of the boot loader and of mkimage itself. *)
Lemma good_image_checks m header ptr size params : good_image m ptr size params -> disjoint64 header ptr -> 0 <= ptr -> ptr + 64 < 2 ^ 32 ->
  image_check_magic m ptr = true /\ image_check_hcrc m header ptr = Some true /\ image_check_dcrc m ptr = Some true.
Proof.
  intros [Hm Hs _ _ _ _ _ _ Hh Hd] Hdis H0 H64. unfold image_check_magic. rewrite Hm, Z.eqb_refl.
  rewrite image_check_hcrc_spec, Hh, Z.eqb_refl by exact Hdis.
  rewrite image_check_dcrc_spec, Hs, Hd, Z.eqb_refl by assumption. auto.
Qed.

(** mkimage recognises its own image. *)
Lemma image_verify_header_good m header ptr size params : good_image m ptr size params ->
  header + 64 <= ptr \/ ptr + 64 + size <= header -> 0 <= size -> size + 64 < 2 ^ 32 ->
  image_verify_header m header ptr (size + 64) = Some 0.
Proof.
  intros [Hm _ _ _ _ _ _ _ Hh Hd] Hdis Hs0 Hs. unfold image_verify_header. offsets.
  pose proof (CString.memmove_moved m header ptr 64 ltac:(lia)) as Hmv. set (m1 := (CString.memmove m header ptr 64).2) in *.
  assert (forall i, 0 <= i < 64 -> ld m1 (header + i) = ld m (ptr + i)) as Hcp.
  { intros i Hi. rewrite Hmv. decide_bools. cbn [andb]. f_equal. lia. }
  assert (forall i, 0 <= i -> i + 4 <= 64 -> be32 m1 (header + i) = be32 m (ptr + i)) as Hbe.
  { intros i H0 H1. unfold be32, ld32. rewrite <- !Z.add_assoc, !Hcp by lia. reflexivity. }
  unfold image_get_magic, image_get_hcrc, image_get_dcrc in *. offsets. rewrite be32_set_other, !Hbe, Hm by lia.
  replace (size + 64 - 64) with size by lia. rewrite (u32_small size) by lia.
  rewrite Z.eqb_refl. cbn [negb]. rewrite !Crc32.crc32_spec by lia. cbn [mbind option_bind]. change (Z.to_nat 64) with 64%nat.
  rewrite bytes_blanked. replace (blanked m1 header) with (blanked m ptr).
  2: { unfold blanked. f_equal; [|f_equal]; apply bytes_eq_nth; intros i Hi; [|rewrite <- !Z.add_assoc]; symmetry; apply Hcp; lia. }
  rewrite Hh, Z.eqb_refl. cbn [negb].
  replace (bytes (set_be32 m1 (header + 4) 0) (ptr + 64) (Z.to_nat size)) with (bytes m (ptr + 64) (Z.to_nat size)).
  - rewrite Hd, Z.eqb_refl. reflexivity.
  - apply bytes_ext. intros a Ha. rewrite ld_set_other, Hmv by lia. replace (_ && _) with false by lia. reflexivity.
Qed.

(** mkimage's header passes the checks of the boot loader and of mkimage itself
    and has the fields mkimage was given; the data is as it was. *)
Theorem mkimage_passes m header ptr size time optee params : ok_params params -> 0 <= size -> size + 64 < 2 ^ 32 ->
  0 <= time < 2 ^ 32 -> be32 m (ptr + ih_hcrc) = 0 -> header + 64 <= ptr \/ ptr + 64 + size <= header -> 0 <= ptr -> ptr + 64 < 2 ^ 32 ->
  exists m', image_set_header m ptr (size + 64) time optee params = Some m' /\ image_verify_header m' header ptr (size + 64) = Some 0 /\
    image_check_magic m' ptr = true /\ image_check_hcrc m' header ptr = Some true /\ image_check_dcrc m' ptr = Some true /\
    image_get_size m' ptr = size /\ image_get_load m' ptr = p_addr params /\ image_get_ep m' ptr = p_ep params /\
    image_get_type m' ptr = p_type params /\ image_get_arch m' ptr = p_arch params /\
    bytes m' (ptr + 64) (Z.to_nat size) = bytes m (ptr + 64) (Z.to_nat size).
Proof.
  intros Hp Hs0 Hs Ht H0 Hd Hp0 Hp64.
  destruct (image_set_header_good m ptr size time optee params Hp Hs0 Hs Ht H0) as (m' & E & Hg & Hfr).
  exists m'. pose proof (image_verify_header_good m' header ptr size params Hg Hd Hs0 Hs) as Hv.
  destruct (good_image_checks m' header ptr size params Hg ltac:(unfold disjoint64; lia) Hp0 Hp64) as (C1 & C2 & C3). destruct Hg.
  split_and!; auto. apply bytes_ext. intros a Ha. apply Hfr. lia.
Qed.

(** ** Corrupted images *)

Lemma bytes_st_split m p n a v : p <= a < p + Z.of_nat n ->
  exists l1 l2, bytes m p n = l1 ++ ld m a :: l2 /\ bytes (st m a v) p n = l1 ++ u8 v :: l2 /\
    Forall (fun b => 0 <= b < 256) l1 /\ Forall (fun b => 0 <= b < 256) l2.
Proof.
  intros Ha. set (i := Z.to_nat (a - p)). set (j := Z.to_nat (p + Z.of_nat n - (a + 1))).
  exists (bytes m p i), (bytes m (a + 1) j).
  assert (forall m', (forall x, x <> a -> ld m' x = ld m x) -> bytes m' p n = bytes m p i ++ ld m' a :: bytes m (a + 1) j) as Hs.
  { intros m' Hm. replace n with (i + (1 + j))%nat by lia. rewrite !bytes_app. cbn [bytes app].
    f_equal; [apply bytes_ext; intros; apply Hm; lia|]. replace (p + Z.of_nat i) with a by lia. f_equal.
    replace (a + Z.of_nat 1) with (a + 1) by lia. apply bytes_ext. intros. apply Hm. lia. }
  split_and!; [apply Hs; auto| |apply Crc32.bytes_byte_range..].
  rewrite (Hs (st m a v)) by (intros; apply ld_st_other; assumption). rewrite ld_st_same. reflexivity.
Qed.

Lemma digit x y a b : 0 <= x < 256 -> 0 <= y < 256 -> x + 2 ^ 8 * a = y + 2 ^ 8 * b -> x = y /\ a = b.
Proof. lia. Qed.

Lemma be32_inj m m' b x : be32 m' b = be32 m b -> b <= x < b + 4 -> ld m' x = ld m x.
Proof.
  intros E Hx. assert (ld32 m' b = ld32 m b) as H32.
  { rewrite <- (u32_small (ld32 m b)), <- (u32_small (ld32 m' b)) by apply ld32_range. rewrite <- !swab32_swab32.
    unfold be32 in E. rewrite E. reflexivity. }
  unfold ld32 in H32. apply digit in H32 as [E0 H32]; [|apply ld_range..].
  apply digit in H32 as [E1 H32]; [|apply ld_range..]. apply digit in H32 as [E2 E3]; [|apply ld_range..].
  assert (x = b \/ x = b + 1 \/ x = b + 2 \/ x = b + 3) as Hc by lia.
  destruct Hc as [->|[->|[->| ->]]]; assumption.
Qed.

Lemma corruption_detected m header hdr a v : disjoint64 header hdr -> 0 <= hdr -> hdr + 64 < 2 ^ 32 ->
  image_check_hcrc m header hdr = Some true -> image_check_dcrc m hdr = Some true ->
  hdr <= a < hdr + 64 + image_get_size m hdr -> u8 v <> ld m a ->
  (a < hdr + 64 /\ image_check_hcrc (st m a v) header hdr = Some false) \/ (hdr + 64 <= a /\ image_check_dcrc (st m a v) hdr = Some false).
Proof.
  intros Hd H0 H64 Hh Hdc Ha Hv. rewrite image_check_hcrc_spec in * by exact Hd. rewrite image_check_dcrc_spec in * by assumption.
  apply (inj Some) in Hh, Hdc. apply Z.eqb_eq in Hh, Hdc.
  assert (forall b, a < b \/ b + 4 <= a -> be32 (st m a v) b = be32 m b) as Hbe by (intros; apply be32_st_other; assumption).
  assert (forall l1 l2, Forall (fun b => 0 <= b < 256) l1 -> Forall (fun b => 0 <= b < 256) l2 ->
    Crc32.checksum 0 (l1 ++ u8 v :: l2) <> Crc32.checksum 0 (l1 ++ ld m a :: l2)) as Hsum.
  { intros l1 l2 H1 H2 E. apply Crc32.checksum_detects in E; auto using u8_range, ld_range. lia. }
  destruct (Z_lt_dec a (hdr + 64)) as [Hhd|Hdt]; [left|right]; (split; [lia|]); f_equal; apply Z.eqb_neq; unfold image_get_hcrc, image_get_dcrc, image_get_size in *; offsets.
  - destruct (decide (hdr + 4 <= a < hdr + 8)) as [Hc|Hc].
    + intros E. apply Hv. rewrite <- (ld_st_same m a v). apply (be32_inj m (st m a v) (hdr + 4)); [|lia].
      rewrite <- E, <- Hh. f_equal. unfold blanked. f_equal; [|f_equal]; apply bytes_ext; intros x Hx; apply ld_st_other; lia.
    + rewrite Hbe by lia. rewrite <- Hh. unfold blanked.
      destruct (Z_lt_dec a (hdr + 4)) as [Hlo|Hhi].
      * destruct (bytes_st_split m hdr 4 a v ltac:(lia)) as (l1 & l2 & -> & -> & H1 & H2).
        replace (bytes (st m a v) (hdr + 8) 56) with (bytes m (hdr + 8) 56) by (apply bytes_ext; intros; symmetry; apply ld_st_other; lia).
        rewrite <- !app_assoc. cbn [app]. apply Hsum; auto. apply Forall_app. split; [exact H2|].
        do 4 (constructor; [lia|]). apply Crc32.bytes_byte_range.
      * destruct (bytes_st_split m (hdr + 8) 56 a v ltac:(lia)) as (l1 & l2 & -> & -> & H1 & H2).
        replace (bytes (st m a v) hdr 4) with (bytes m hdr 4) by (apply bytes_ext; intros; symmetry; apply ld_st_other; lia).
        rewrite !app_assoc. apply Hsum; auto. apply Forall_app. split; [|exact H1].
        apply Forall_app. split; [apply Crc32.bytes_byte_range|repeat constructor; lia].
  - rewrite !Hbe by lia. rewrite <- Hdc.
    pose proof (be32_range m (hdr + 12)) as Hr.
    destruct (bytes_st_split m (hdr + 64) (Z.to_nat (be32 m (hdr + 12))) a v ltac:(lia)) as (l1 & l2 & -> & -> & H1 & H2).
    apply Hsum; assumption.
Qed.

(** Changing one byte anywhere in the header or in the data of an image with good
    checksums makes one of the two checks fail. *)
Theorem image_corruption_detected m header hdr a v : disjoint64 header hdr -> 0 <= hdr -> hdr + 64 < 2 ^ 32 ->
  image_check_hcrc m header hdr = Some true -> image_check_dcrc m hdr = Some true ->
  hdr <= a < hdr + 64 + image_get_size m hdr -> u8 v <> ld m a ->
  image_check_hcrc (st m a v) header hdr = Some false \/ image_check_dcrc (st m a v) hdr = Some false.
Proof. intros Hd H0 H64 Hh Hdc Ha Hv. destruct (corruption_detected m header hdr a v Hd H0 H64 Hh Hdc Ha Hv) as [ [_ H]|[_ H] ]; auto. Qed.

(** ** Multi-component images *)

(** The table of sizes at [p], with the zero that ends it. *)
Definition size_table (m : mem) (p : Z) (ss : list Z) : Prop :=
  (forall i s, ss !! i = Some s -> be32 m (p + 4 * Z.of_nat i) = s) /\
  Forall (fun s => 0 < s < 2 ^ 32 - 3) ss /\ ld32 m (p + 4 * Z.of_nat (length ss)) = 0.

Definition align4 (s : Z) : Z := 4 * ((s + 3) / 4).

(** The room the components take, each rounded up to words. *)
Definition total (ss : list Z) : Z := fold_right (fun s n => align4 s + n) 0 ss.

Lemma align4_bounds s : 0 <= s -> s <= align4 s.
Proof. intros H. unfold align4. pose proof (Z.mod_pos_bound (s + 3) 4). pose proof (Z.div_mod (s + 3) 4). lia. Qed.

Lemma total_nonneg ss : Forall (fun s => 0 < s < 2 ^ 32 - 3) ss -> 0 <= total ss.
Proof.
  induction 1 as [|s ss Hs _ IH]; cbn [total fold_right]; [lia|]. pose proof (align4_bounds s ltac:(lia)). unfold total in IH. lia.
Qed.

Lemma land_lnot_3 x : Z.land x (Z.lnot 3) = 4 * (x / 4).
Proof.
  change 3 with (Z.ones 2). rewrite <- Z.ldiff_land, Z.ldiff_ones_r by lia.
  rewrite Z.shiftl_mul_pow2, Z.shiftr_div_pow2 by lia. change (2 ^ 2) with 4. lia.
Qed.

Lemma count_loop_spec m p ss : size_table m p ss -> forall k fuel i, (i + k = length ss)%nat -> (k < fuel)%nat ->
  count_loop fuel m p (Z.of_nat i) = Some (Z.of_nat (length ss)).
Proof.
  intros (Hb & Hr & Hz). induction k as [|k IH]; intros fuel i Hi Hf; (destruct fuel as [|fuel]; [lia|]); cbn [count_loop].
  - replace i with (length ss) by lia. rewrite Hz. reflexivity.
  - destruct (lookup_lt_is_Some_2 ss i ltac:(lia)) as [s Hs]. pose proof (Hb i s Hs) as E.
    rewrite Forall_lookup in Hr. specialize (Hr i s Hs). cbn beta in Hr.
    assert (ld32 m (p + 4 * Z.of_nat i) <> 0) as Hne by (intros E0; unfold be32 in E; rewrite E0 in E; change (Crc32.swab32 0) with 0 in E; lia).
    replace (ld32 m (p + 4 * Z.of_nat i) =? 0) with false by lia.
    replace (Z.of_nat i + 1) with (Z.of_nat (S i)) by lia. apply IH; lia.
Qed.

Lemma offset_loop_spec m p ss : size_table m p ss -> forall k i off, (i + k <= length ss)%nat -> 0 <= off ->
  off + total (take k (drop i ss)) < 2 ^ 32 ->
  offset_loop k m p (Z.of_nat i) off = off + total (take k (drop i ss)).
Proof.
  intros (Hb & Hr & Hz). induction k as [|k IH]; intros i off Hi Ho Hlt; cbn [offset_loop].
  - rewrite take_0. cbn. lia.
  - destruct (lookup_lt_is_Some_2 ss i ltac:(lia)) as [s Hs]. pose proof (Hb i s Hs) as E.
    pose proof Hr as Hr'. rewrite Forall_lookup in Hr'. specialize (Hr' i s Hs). cbn beta in Hr'.
    rewrite (drop_S ss s i Hs) in *. cbn [take total fold_right] in *. fold (total (take k (drop (S i) ss))) in *.
    assert (0 <= total (take k (drop (S i) ss))) as Ht by (apply total_nonneg, Forall_take, Forall_drop; exact Hr).
    rewrite E, (u32_small (s + 3)), land_lnot_3 by lia. fold (align4 s). pose proof (align4_bounds s ltac:(lia)).
    rewrite u32_small by lia. replace (Z.of_nat i + 1) with (Z.of_nat (S i)) by lia. rewrite IH by lia. lia.
Qed.

(** [image_multi_getimg] finds every component of a multi-component image: the
    data of component [idx] starts behind the table and the components before
    it, each rounded up to words; an index out of range gives 0 and 0. *)
Theorem image_multi_finds m hdr ss idx fuel : 0 <= hdr -> size_table m (hdr + 64) ss -> 0 <= idx ->
  hdr + 64 + 4 * (Z.of_nat (length ss) + 1) + total ss < 2 ^ 32 -> (length ss < fuel)%nat ->
  image_multi_getimg fuel m hdr idx =
    Some (match ss !! Z.to_nat idx with
          | Some s => (hdr + 64 + 4 * (Z.of_nat (length ss) + 1) + total (take (Z.to_nat idx) ss), s)
          | None => (0, 0)
          end).
Proof.
  intros H0 Ht Hi Hlt Hf. pose proof Ht as (Hb & Hr & _). pose proof (total_nonneg ss Hr) as Htn.
  unfold image_multi_getimg, image_multi_count, image_get_data. offsets. rewrite !(u32_small (hdr + 64)) by lia.
  pose proof (count_loop_spec m (hdr + 64) ss Ht (length ss) fuel 0 ltac:(lia) Hf) as Ec. change (Z.of_nat 0) with 0 in Ec.
  rewrite Ec. cbn [mbind option_bind].
  destruct (Z.ltb_spec idx (Z.of_nat (length ss))) as [Hlt'|Hge].
  - destruct (lookup_lt_is_Some_2 ss (Z.to_nat idx) ltac:(lia)) as [s Hs]. rewrite Hs.
    assert (total ss = total (take (Z.to_nat idx) ss) + total (drop (Z.to_nat idx) ss)) as Hsplit.
    { rewrite <- (take_drop (Z.to_nat idx) ss) at 1. generalize (take (Z.to_nat idx) ss), (drop (Z.to_nat idx) ss). intros a b.
      induction a as [|x a IHa]; cbn [app total fold_right] in *; unfold total in *; lia. }
    assert (0 <= total (take (Z.to_nat idx) ss)) by (apply total_nonneg, Forall_take; exact Hr).
    assert (0 <= total (drop (Z.to_nat idx) ss)) by (apply total_nonneg, Forall_drop; exact Hr).
    pose proof (offset_loop_spec m (hdr + 64) ss Ht (Z.to_nat idx) 0 0) as Eo. rewrite drop_0 in Eo. change (Z.of_nat 0) with 0 in Eo.
    rewrite Eo, (u32_small (_ + _ * 4)), u32_small by lia. do 2 f_equal; [lia|].
    rewrite <- (Hb _ _ Hs). do 2 f_equal. lia.
  - rewrite lookup_ge_None_2 by lia. reflexivity.
Qed.

(** ** Moving in chunks *)

Lemma moved_id m d n : CString.moved m d d n m.
Proof. intros a. destruct (_ && _); [f_equal; lia|reflexivity]. Qed.

Lemma wd_loop_moved chunksz : 0 < chunksz -> forall fuel m to from len, (Z.to_nat len <= fuel)%nat -> to <> from -> 0 <= len ->
  exists m', wd_loop (S fuel) m to from len chunksz = Some m' /\
    if from <? to then CString.moved m (to - len) (from - len) len m' else CString.moved m to from len m'.
Proof.
  intros Hc. induction fuel as [|fuel IH]; intros m to from len Hf Hne Hl; (remember (S fuel) as f || idtac); cbn [wd_loop].
  { replace (0 <? len) with false by lia. exists m. split; [reflexivity|]. replace len with 0 by lia.
    case_match; intros a; replace (_ && _) with false by lia; reflexivity. }
  destruct (Z.ltb_spec 0 len) as [Hp|Hz].
  2: { exists m. split; [reflexivity|]. replace len with 0 by lia. case_match; intros a; replace (_ && _) with false by lia; reflexivity. }
  set (t := if chunksz <? len then chunksz else len). assert (0 < t <= len) as Ht by (subst t; case_match; lia).
  subst f. destruct (Z.ltb_spec from to) as [Hlt|Hge].
  - replace (to - t <? from - t) with false by lia.
    pose proof (CString.memmove_moved m (to - t) (from - t) t ltac:(lia)) as Hm. set (m1 := (CString.memmove _ _ _ _).2) in *.
    destruct (IH m1 (to - t) (from - t) (len - t)) as (m' & -> & Hm'); [lia|lia|lia|]. exists m'. split; [reflexivity|].
    replace (from - t <? to - t) with true in Hm' by lia. intros a. rewrite Hm', !Hm.
    replace (to - t - (len - t)) with (to - len) by lia. replace (from - t - (len - t)) with (from - len) by lia.
    destruct (Z_lt_dec a (to - len)); [decide_bools; reflexivity|]. destruct (Z_lt_dec a (to - t)); [decide_bools; reflexivity|].
    destruct (Z_lt_dec a to); decide_bools; cbn [andb]; [f_equal; lia|reflexivity].
  - replace (to <? from) with true by lia.
    pose proof (CString.memmove_moved m to from t ltac:(lia)) as Hm. set (m1 := (CString.memmove _ _ _ _).2) in *.
    destruct (IH m1 (to + t) (from + t) (len - t)) as (m' & -> & Hm'); [lia|lia|lia|]. exists m'. split; [reflexivity|].
    replace (from + t <? to + t) with false in Hm' by lia. intros a. rewrite Hm', !Hm.
    destruct (Z_lt_dec a to); [decide_bools; reflexivity|]. destruct (Z_lt_dec a (to + t)); [decide_bools; reflexivity|].
    destruct (Z_lt_dec a (to + len)); decide_bools; cbn [andb]; [f_equal; lia|reflexivity].
Qed.

(** Moving in chunks, as the build with a watchdog does, moves what [memmove]
    moves, whatever the overlap, and ends. *)
Theorem memmove_wd_chunks m to from len chunksz : 0 <= len -> 0 < chunksz ->
  exists m', memmove_wd_watchdog (S (Z.to_nat len)) m to from len chunksz = Some m' /\
    mem_eq m' (memmove_wd m to from len chunksz) /\ CString.moved m to from len m'.
Proof.
  intros Hl Hc. unfold memmove_wd_watchdog, memmove_wd. destruct (Z.eqb_spec to from) as [->|Hne].
  { exists m. split_and!; [reflexivity|reflexivity|apply moved_id]. }
  assert (exists m', (let '(to, from) := if from <? to then (to + len, from + len) else (to, from) in
    wd_loop (S (Z.to_nat len)) m to from len chunksz) = Some m' /\ CString.moved m to from len m') as (m' & E & Hm).
  { destruct (Z.ltb_spec from to) as [Hlt|Hge].
    - destruct (wd_loop_moved chunksz Hc (Z.to_nat len) m (to + len) (from + len) len) as (m' & E & Hm); [lia|lia|lia|].
      exists m'. split; [exact E|]. replace (from + len <? to + len) with true in Hm by lia.
      replace (to + len - len) with to in Hm by lia. replace (from + len - len) with from in Hm by lia. exact Hm.
    - destruct (wd_loop_moved chunksz Hc (Z.to_nat len) m to from len) as (m' & E & Hm); [lia|lia|lia|].
      exists m'. split; [exact E|]. replace (from <? to) with false in Hm by lia. exact Hm. }
  exists m'. split_and!; [exact E| |exact Hm]. intros a. rewrite Hm. symmetry. apply CString.memmove_moved. exact Hl.
Qed.

(** ** Concrete images *)

(** The parameters with which the chapters build their image:
    [-A arm -C none -T kernel -a 0x60000000 -e 0x60000000]; the default OS is Linux. *)
Definition bare_arm_params : image_tool_params :=
  Params IH_OS_LINUX IH_ARCH_ARM IH_TYPE_KERNEL IH_COMP_NONE 0x60000000 0x60000000 [].

Lemma bare_arm_ok : ok_params bare_arm_params.
Proof. split; cbn; unfold IH_OS_LINUX, IH_OS_TEE, IH_ARCH_ARM, IH_TYPE_KERNEL, IH_TYPE_FIRMWARE_IVT, IH_COMP_NONE; lia. Qed.

Lemma mkimage_passes_witness : exists m',
  image_set_header (mem_of 0x60000040 [1; 2; 3]) 0x60000000 (3 + 64) 0 (0, 0) bare_arm_params = Some m' /\
  image_check_hcrc m' 0x67000000 0x60000000 = Some true /\ image_get_load m' 0x60000000 = 0x60000000.
Proof.
  destruct (mkimage_passes (mem_of 0x60000040 [1; 2; 3]) 0x67000000 0x60000000 3 0 (0, 0) bare_arm_params bare_arm_ok)
    as (m' & E & _ & _ & Hh & _ & _ & Hl & _); try lia; try reflexivity.
  exists m'. split_and!; assumption.
Defined.

Lemma image_corruption_detected_witness : exists m', image_check_hcrc m' 0x67000000 0x60000000 = Some true /\
  (image_check_hcrc (st m' 0x60000041 7) 0x67000000 0x60000000 = Some false \/ image_check_dcrc (st m' 0x60000041 7) 0x60000000 = Some false).
Proof.
  destruct (image_set_header_good (mem_of 0x60000040 [1; 2; 3]) 0x60000000 3 0 (0, 0) bare_arm_params bare_arm_ok) as (m' & _ & Hg & Hfr);
    try lia; try reflexivity.
  destruct (good_image_checks m' 0x67000000 0x60000000 3 bare_arm_params Hg) as (_ & Hh & Hd); [unfold disjoint64; lia|lia|lia|].
  exists m'. split; [exact Hh|]. apply image_corruption_detected; [unfold disjoint64; lia|lia|lia|exact Hh|exact Hd| |].
  - rewrite (gi_size _ _ _ _ Hg). lia.
  - rewrite Hfr by lia. vm_compute. discriminate.
Defined.

Lemma image_multi_finds_witness :
  image_multi_getimg 4 (mem_of 0x1040 [0; 0; 0; 5; 0; 0; 0; 8; 0; 0; 0; 0]) 0x1000 1 = Some (0x1000 + 64 + 4 * (2 + 1) + 8, 8).
Proof.
  apply (image_multi_finds (mem_of 0x1040 [0; 0; 0; 5; 0; 0; 0; 8; 0; 0; 0; 0]) 0x1000 [5; 8] 1 4); [lia| |lia|vm_compute; reflexivity|cbn; lia].
  split_and!; [|repeat constructor; lia|reflexivity].
  intros [|[|i]] s Hs; cbn in Hs; try injection Hs as <-; try reflexivity. destruct i; discriminate.
Defined.

Lemma memmove_wd_chunks_witness : exists m', memmove_wd_watchdog 6 (mem_of 0x100 [1; 2; 3; 4; 5]) 0x102 0x100 5 2 = Some m' /\
  CString.moved (mem_of 0x100 [1; 2; 3; 4; 5]) 0x102 0x100 5 m'.
Proof.
  destruct (memmove_wd_chunks (mem_of 0x100 [1; 2; 3; 4; 5]) 0x102 0x100 5 2) as (m' & E & _ & H); [lia|lia|].
  exists m'. split; [exact E|exact H].
Defined.

End Image.
