(* ===== verification/Bootm.v ===== *)
(** * Bootm: booting the image

    U-Boot's common/bootm.c for the board's build, which has legacy images and no
    FIT or Android images: the image at the address given to [bootm] is checked,
    its fields are taken over and its data is moved to the load address.  The
    chapters' program is booted this way with [bootm 0x60000000].  The checks and
    fields are Image.v's, the reservation of the loaded range is Lmb.v's;
    [gunzip] is a parameter. *)

From stdpp Require Import base list option.
From Stdlib Require Import ZifyBool.
From S2P Require Import Prelude Cmem CString Crc32 Lmb Image.

Module Bootm.

Definition BOOTM_ERR_RESET : Z := -1.
Definition BOOTM_ERR_OVERLAP : Z := -2.
Definition BOOTM_ERR_UNIMPLEMENTED : Z := -3.
Definition CONFIG_SYS_BOOTM_LEN : Z := 0x800000.
Definition IH_COMP_GZIP : Z := 1.

(** [image_info_t] and the parts of [bootm_headers_t] that the code uses;
    [legacy_hdr_os_copy] is the address of the copy of the header. *)
Record image_info := Info {
  start : Z; end_ : Z; image_start : Z; image_len : Z; load : Z; comp : Z; type : Z; os : Z; arch : Z }.

Record bootm_headers := Headers {
  legacy_hdr_os : Z; legacy_hdr_os_copy : Z; legacy_hdr_valid : bool; os_info : image_info; ep : Z; verify : bool; lmb : Lmb.lmb }.

Section Board.
(** [header] is the stack copy of [image_check_hcrc]; [fdt] is [fdt_check_header];
    [gunzip m dst dstlen src len] is the return value, the length and the memory. *)
Context (header : Z) (fdt : mem -> Z -> Z).
Context (gunzip : mem -> Z -> Z -> Z -> Z -> Z * Z * mem).

(** The header, or [None] for [NULL]. *)
Definition image_get_kernel (m : mem) (img_addr : Z) (verify : bool) : option (option Z) :=
  if negb (Image.image_check_magic m img_addr) then Some None else
  hc ← Image.image_check_hcrc m header img_addr;
  if negb hc then Some None else
  dc ← (if verify then Image.image_check_dcrc m img_addr else Some true);
  if negb dc then Some None else
  if negb (Image.image_check_target_arch m img_addr) then Some None else Some (Some img_addr).

(** [boot_get_kernel] for the address of the image; the result is the address or
    [None] for [NULL], with [os_data] and [os_len], the memory and the headers.
    [fuel] bounds the table of a multi-component image. *)
Definition boot_get_kernel (fuel : nat) (m : mem) (img_addr : Z) (images : bootm_headers) :
    option (option Z * (Z * Z) * mem * bootm_headers) :=
  if negb (Image.genimg_get_format m (fdt m) img_addr =? Image.IMAGE_FORMAT_LEGACY) then Some (None, (0, 0), m, images) else
  hdr ← image_get_kernel m img_addr (verify images);
  match hdr with
  | None => Some (None, (0, 0), m, images)
  | Some hdr =>
    let t := Image.image_get_type m hdr in
    data ←
      (if (t =? Image.IH_TYPE_KERNEL) || (t =? Image.IH_TYPE_KERNEL_NOLOAD) || (t =? Image.IH_TYPE_STANDALONE)
       then Some (Some (Image.image_get_data hdr, Image.image_get_data_size m hdr))
       else if t =? Image.IH_TYPE_MULTI then d ← Image.image_multi_getimg fuel m hdr 0; Some (Some d)
       else Some None);
    match data with
    | None => Some (None, (0, 0), m, images)
    | Some d =>
      let m := (CString.memmove m (legacy_hdr_os_copy images) hdr Image.image_get_header_size).2 in
      Some (Some img_addr, d, m,
        Headers hdr (legacy_hdr_os_copy images) true (os_info images) (ep images) (verify images) (lmb images))
    end
  end.

(** [boot_get_kernel] writes through [&images.os.image_start] and [&images.os.image_len]. *)
Definition set_data (images : bootm_headers) (data len : Z) : bootm_headers :=
  let i := os_info images in
  Headers (legacy_hdr_os images) (legacy_hdr_os_copy images) (legacy_hdr_valid images)
    (Info (start i) (end_ i) data len (load i) (comp i) (type i) (os i) (arch i))
    (ep images) (verify images) (lmb images).

(** [bootm_find_os]; the return value is 0 or 1. *)
Definition bootm_find_os (fuel : nat) (m : mem) (img_addr : Z) (images : bootm_headers) : option (Z * mem * bootm_headers) :=
  '(os_hdr, (image_start, image_len), m, images) ← boot_get_kernel fuel m img_addr images;
  let images := set_data images image_start image_len in
  if image_len =? 0 then Some (1, m, images) else
  match os_hdr with
  | None => Some (1, m, images)
  | Some os_hdr =>
    if negb (Image.genimg_get_format m (fdt m) os_hdr =? Image.IMAGE_FORMAT_LEGACY) then Some (1, m, images) else
    let type := Image.image_get_type m os_hdr in
    let load := Image.image_get_load m os_hdr in
    let ep := Image.image_get_ep m (legacy_hdr_os_copy images) in
    let '(load, ep) := if type =? Image.IH_TYPE_KERNEL_NOLOAD then (image_start, u32 (ep + image_start)) else (load, ep) in
    Some (0, m,
      Headers (legacy_hdr_os images) (legacy_hdr_os_copy images) (legacy_hdr_valid images)
        (Info os_hdr (Image.image_get_image_end m os_hdr) image_start image_len load (Image.image_get_comp m os_hdr) type
          (Image.image_get_os m os_hdr) (Image.image_get_arch m os_hdr))
        ep (verify images) (lmb images))
  end.

(** The return value, [load_end] and the memory. *)
Definition bootm_decomp_image (m : mem) (comp load image_start image_len unc_len : Z) : Z * Z * mem :=
  let finish ret image_len m := if negb (ret =? 0) then (BOOTM_ERR_RESET, load, m) else (0, u32 (load + image_len), m) in
  if comp =? Image.IH_COMP_NONE then
    if load =? image_start then finish 0 image_len m
    else if image_len <=? unc_len then finish 0 image_len (Image.memmove_wd m load image_start image_len Image.CHUNKSZ)
    else finish 1 image_len m
  else if comp =? IH_COMP_GZIP then
    let '(ret, len, m) := gunzip m load unc_len image_start image_len in finish ret len m
  else (BOOTM_ERR_UNIMPLEMENTED, load, m).

Definition set_lmb (images : bootm_headers) (l : Lmb.lmb) : bootm_headers :=
  Headers (legacy_hdr_os images) (legacy_hdr_os_copy images) (legacy_hdr_valid images) (os_info images) (ep images) (verify images) l.

(** The cache flush has no effect on the memory. *)
Definition bootm_load_os (m : mem) (images : bootm_headers) : option (Z * mem * bootm_headers) :=
  let os := os_info images in
  let '(err, load_end, m) := bootm_decomp_image m (comp os) (load os) (image_start os) (image_len os) CONFIG_SYS_BOOTM_LEN in
  if negb (err =? 0) then Some (err, m, images) else
  let no_overlap := (comp os =? Image.IH_COMP_NONE) && (load os =? image_start os) in
  if negb no_overlap && (load os <? end_ os) && (start os <? load_end) then
    Some (if legacy_hdr_valid images then BOOTM_ERR_OVERLAP else BOOTM_ERR_RESET, m, images)
  else
    '(_, l) ← Lmb.lmb_reserve (lmb images) (load os) (u32 (load_end - load os));
    Some (0, m, set_lmb images l).

(** [do_bootm_states] for [BOOTM_STATE_FINDOS | BOOTM_STATE_LOADOS]: an overlap of
    the image and the loaded program is not an error. *)
Definition do_bootm_find_load (fuel : nat) (m : mem) (img_addr : Z) (images : bootm_headers) : option (Z * mem * bootm_headers) :=
  '(ret, m, images) ← bootm_find_os fuel m img_addr images;
  if negb (ret =? 0) then Some (ret, m, images) else
  '(ret, m, images) ← bootm_load_os m images;
  if negb (ret =? 0) && negb (ret =? BOOTM_ERR_OVERLAP) then Some (ret, m, images) else Some (0, m, images).

(** ** Good images boot *)

(** Where the image of [size] bytes of data lies: below the end of the address
    space, apart from the copies of its header. *)
Record placed (images : bootm_headers) (img size : Z) : Prop := {
  pl_img : 0 <= img;
  pl_end : img + 64 + size < 2 ^ 32;
  pl_header : Image.disjoint64 header img;
  pl_copy : legacy_hdr_os_copy images + 64 <= img \/ img + 64 + size <= legacy_hdr_os_copy images;
}.

(** A program for this board: uncompressed, and a kernel or a standalone program. *)
Definition bootable (params : Image.image_tool_params) : Prop :=
  Image.p_arch params = Image.IH_ARCH_ARM /\ Image.p_comp params = Image.IH_COMP_NONE /\
  (Image.p_type params = Image.IH_TYPE_KERNEL \/ Image.p_type params = Image.IH_TYPE_STANDALONE).

(** The program's place and the image overlap without being the same. *)
Definition overlapping (img size load : Z) : Prop := load <> img + 64 /\ load < img + 64 + size /\ img < load + size.

Lemma image_get_kernel_good m img size params v : Image.good_image m img size params -> Image.p_arch params = Image.IH_ARCH_ARM ->
  Image.disjoint64 header img -> 0 <= img -> img + 64 < 2 ^ 32 -> image_get_kernel m img v = Some (Some img).
Proof.
  intros Hg Ha Hd H0 H1. destruct (Image.good_image_checks m header img size params Hg Hd H0 H1) as (C1 & C2 & C3).
  unfold image_get_kernel. rewrite C1, C2. cbn [negb mbind option_bind].
  replace (if v then Image.image_check_dcrc m img else Some true) with (Some true) by (destruct v; auto).
  cbn [negb mbind option_bind]. unfold Image.image_check_target_arch, Image.image_check_arch. rewrite (Image.gi_arch _ _ _ _ Hg), Ha.
  reflexivity.
Qed.

(** The copy of the header, and the memory around it. *)
Lemma header_copied m copy img :
  let m' := (CString.memmove m copy img 64).2 in
  Image.image_get_ep m' copy = Image.image_get_ep m img /\ Image.image_get_type m' copy = Image.image_get_type m img /\
  forall x, x < copy \/ copy + 64 <= x -> ld m' x = ld m x.
Proof.
  intros m'. pose proof (CString.memmove_moved m copy img 64 ltac:(lia)) as Hm. fold m' in Hm.
  assert (forall i, 0 <= i < 64 -> ld m' (copy + i) = ld m (img + i)) as H.
  { intros i Hi. rewrite Hm. Image.decide_bools. cbn [andb]. f_equal. lia. }
  split_and!.
  - unfold Image.image_get_ep, Image.be32, ld32. Image.offsets. f_equal. rewrite <- !Z.add_assoc. rewrite !H by lia. reflexivity.
  - unfold Image.image_get_type. Image.offsets. apply H. lia.
  - intros x Hx. rewrite Hm. replace (_ && _) with false by lia. reflexivity.
Qed.

(** A good image is found: its fields are taken over, and only the copy of the
    header is written. *)
Lemma bootm_find_os_good fuel m img size params images : Image.good_image m img size params -> bootable params ->
  0 < size -> placed images img size ->
  exists m1 images1, bootm_find_os fuel m img images = Some (0, m1, images1) /\
    (forall x, img <= x < img + 64 + size -> ld m1 x = ld m x) /\
    os_info images1 = Info img (img + 64 + size) (img + 64) size (Image.p_addr params) Image.IH_COMP_NONE (Image.p_type params)
      (Image.p_os params) Image.IH_ARCH_ARM /\
    ep images1 = Image.p_ep params /\ legacy_hdr_valid images1 = true /\ lmb images1 = lmb images /\
    Image.image_get_type m1 (legacy_hdr_os_copy images1) = Image.p_type params.
Proof.
  intros Hg (Ha & Hc & Ht) Hs [H0 He Hd Hcp].
  destruct (header_copied m (legacy_hdr_os_copy images) img) as (Hep & Hct & Hfr).
  unfold bootm_find_os, boot_get_kernel. rewrite (image_get_kernel_good m img size params) by (assumption || lia).
  destruct Hg as [Hm Hsz Hl Hp Hos Har Hty Hco _ _].
  assert (Image.genimg_get_format m (fdt m) img = Image.IMAGE_FORMAT_LEGACY) as ->.
  { unfold Image.genimg_get_format, Image.image_check_magic. rewrite Hm. reflexivity. }
  cbn [negb mbind option_bind Z.eqb]. rewrite Z.eqb_refl. cbn [negb]. rewrite Hty.
  replace ((Image.p_type params =? Image.IH_TYPE_KERNEL) || _ || _) with true by (unfold Image.IH_TYPE_KERNEL, Image.IH_TYPE_STANDALONE in *; lia).
  unfold Image.image_get_data, Image.image_get_data_size. rewrite Hsz. cbn [mbind option_bind].
  Image.offsets. rewrite (u32_small (img + 64)) by lia. replace (size =? 0) with false by lia.
  set (m1 := (CString.memmove m _ img 64).2) in *.
  assert (forall b, img <= b -> b + 4 <= img + 64 -> Image.be32 m1 b = Image.be32 m b) as Hbe.
  { intros b H1 H2. apply Image.be32_ext. intros x Hx. apply Hfr. lia. }
  assert (Image.image_get_magic m1 img = Image.IH_MAGIC /\ Image.image_get_size m1 img = size /\
    Image.image_get_load m1 img = Image.p_addr params) as (Em & Es & El).
  { unfold Image.image_get_magic, Image.image_get_size, Image.image_get_load in *. Image.offsets. rewrite !Hbe by lia. auto. }
  assert (Image.image_get_os m1 img = Image.p_os params /\ Image.image_get_arch m1 img = Image.p_arch params /\
    Image.image_get_type m1 img = Image.p_type params /\ Image.image_get_comp m1 img = Image.p_comp params) as (Eo & Ea & Et & Ec).
  { unfold Image.image_get_os, Image.image_get_arch, Image.image_get_type, Image.image_get_comp in *. Image.offsets.
    rewrite !Hfr by lia. auto. }
  assert (Image.genimg_get_format m1 (fdt m1) img = Image.IMAGE_FORMAT_LEGACY) as ->.
  { unfold Image.genimg_get_format, Image.image_check_magic. rewrite Em. reflexivity. }
  rewrite Z.eqb_refl. cbn [negb]. rewrite Et.
  replace (Image.p_type params =? Image.IH_TYPE_KERNEL_NOLOAD) with false
    by (unfold Image.IH_TYPE_KERNEL, Image.IH_TYPE_STANDALONE, Image.IH_TYPE_KERNEL_NOLOAD in *; lia).
  do 2 eexists. split; [reflexivity|]. split; [intros x Hx; apply Hfr; lia|].
  cbn [os_info ep legacy_hdr_valid lmb set_data legacy_hdr_os_copy]. rewrite Hep, Hct.
  unfold Image.image_get_image_end, Image.image_get_image_size. Image.offsets.
  rewrite Es, El, Eo, Ea, Ec, Ha, Hc, Hp, (u32_small (size + 64)), u32_small by lia. split_and!; auto. f_equal. lia.
Qed.

(** An uncompressed program that fits is moved to its load address. *)
Lemma bootm_decomp_none m load image_start len : 0 <= len <= CONFIG_SYS_BOOTM_LEN -> 0 <= load -> load + len < 2 ^ 32 ->
  exists m', bootm_decomp_image m Image.IH_COMP_NONE load image_start len CONFIG_SYS_BOOTM_LEN = (0, load + len, m') /\
    CString.moved m load image_start len m'.
Proof.
  intros Hl H0 H1. unfold bootm_decomp_image. rewrite Z.eqb_refl. cbn [Z.eqb negb]. rewrite u32_small by lia.
  destruct (Z.eqb_spec load image_start) as [->|Hne].
  - exists m. split; [reflexivity|apply Image.moved_id].
  - replace (len <=? CONFIG_SYS_BOOTM_LEN) with true by lia. unfold Image.memmove_wd. replace (load =? image_start) with false by lia.
    eexists. split; [reflexivity|apply CString.memmove_moved; lia].
Qed.

(** The program's place is free, or the image lies there. *)
Definition room (images : bootm_headers) (img size load : Z) : Prop :=
  overlapping img size load \/
  Lmb.wf (Lmb.reserved (lmb images)) /\ Lmb.block (Lmb.LmbProperty load size) /\ Lmb.free (Lmb.reserved (lmb images)) load size.

(** The program of an image that has been found is moved to its place, which is reserved unless the image overlaps it. *)
Lemma bootm_load_os_good m images img size addr t o a : os_info images = Info img (img + 64 + size) (img + 64) size addr Image.IH_COMP_NONE t o a ->
  legacy_hdr_valid images = true -> 0 < size <= CONFIG_SYS_BOOTM_LEN -> 0 <= addr -> addr + size < 2 ^ 32 -> room images img size addr ->
  exists ret m' l', bootm_load_os m images = Some (ret, m', set_lmb images l') /\ (ret = 0 \/ ret = BOOTM_ERR_OVERLAP) /\
    CString.moved m addr (img + 64) size m' /\
    (overlapping img size addr -> l' = lmb images) /\
    (~ overlapping img size addr -> exists r, Lmb.lmb_reserve (lmb images) addr size = Some (r, l')).
Proof.
  intros Hos Hv Hs H0 Hend Hroom. destruct (bootm_decomp_none m addr (img + 64) size) as (m' & E & Hmv); [lia|lia|lia|].
  unfold bootm_load_os. rewrite Hos. cbn [comp load image_start image_len start end_]. rewrite E, Hv. cbn [Z.eqb negb].
  set (cond := negb _ && _ && _). assert (cond = true <-> overlapping img size addr) as Hcond.
  { unfold cond, overlapping. rewrite Z.eqb_refl. lia. }
  destruct cond eqn:Ec.
  - exists BOOTM_ERR_OVERLAP, m', (lmb images). split; [by destruct images|]. split_and!; auto. intros Hn. exfalso. by apply Hn, Hcond.
  - destruct Hroom as [Ho|(Hwf & Hbl & Hf)]; [apply Hcond in Ho; discriminate|].
    destruct (Lmb.lmb_add_region_spec _ _ _ Hwf Hbl Hf) as (r & rgn & Er & _).
    assert (u32 (addr + size - addr) = size) as -> by (rewrite u32_small; unfold CONFIG_SYS_BOOTM_LEN in *; lia).
    unfold Lmb.lmb_reserve. rewrite Er. cbn [mbind option_bind]. exists 0, m'. eexists. split; [reflexivity|].
    split_and!; eauto. intros Ho. apply Hcond in Ho. discriminate.
Qed.

(** The program of an image made by mkimage is booted: [bootm] finds the image
    good, moves its data to the load address, also where that overlaps the image,
    and takes the entry point from the header.  Where the two do not overlap, the
    place of the program is reserved; where they do, as in the chapters, whose
    image and load address are both 0x60000000, it is not. *)
Theorem bootm_boots fuel m img size time optee params images :
  Image.ok_params params -> bootable params -> 0 < size <= CONFIG_SYS_BOOTM_LEN -> 0 <= time < 2 ^ 32 ->
  Image.be32 m (img + Image.ih_hcrc) = 0 -> placed images img size -> Image.p_addr params + size < 2 ^ 32 ->
  room images img size (Image.p_addr params) ->
  exists m1 m2 images2,
    Image.image_set_header m img (size + 64) time optee params = Some m1 /\
    do_bootm_find_load fuel m1 img images = Some (0, m2, images2) /\
    bytes m2 (Image.p_addr params) (Z.to_nat size) = bytes m (img + 64) (Z.to_nat size) /\
    ep images2 = Image.p_ep params /\ os (os_info images2) = Image.p_os params /\
    (overlapping img size (Image.p_addr params) -> lmb images2 = lmb images) /\
    (~ overlapping img size (Image.p_addr params) -> exists r, Lmb.lmb_reserve (lmb images) (Image.p_addr params) size = Some (r, lmb images2)).
Proof.
  intros Hok Hb Hs Ht Hz Hpl Hend Hlmb.
  destruct (Image.image_set_header_good m img size time optee params Hok) as (m1 & E1 & Hg & Hfr1); [lia|destruct Hpl; lia|lia|exact Hz|].
  destruct (bootm_find_os_good fuel m1 img size params images Hg Hb ltac:(lia) Hpl) as (m2 & images1 & E2 & Hfr2 & Hos & Hep & Hv & Hl & _).
  destruct (bootm_load_os_good m2 images1 img size _ _ _ _ Hos Hv Hs) as (ret & m3 & l3 & E3 & Hret & Hmv & Hlo & Hln);
    [apply (Image.ok_addr _ Hok)|exact Hend|unfold room; rewrite Hl; exact Hlmb|].
  exists m1, m3, (set_lmb images1 l3). rewrite Hl in *. split; [exact E1|]. split.
  { unfold do_bootm_find_load. rewrite E2. cbn [mbind option_bind Z.eqb negb]. rewrite E3. by destruct Hret as [-> | ->]. }
  split.
  { rewrite (CString.moved_bytes _ _ _ _ _ _ Hmv) by lia. apply bytes_ext. intros a Ha. rewrite Hfr2 by lia. apply Hfr1. lia. }
  cbn [set_lmb ep os_info lmb]. rewrite Hos. split_and!; auto.
Qed.

(** ** Bad images do not *)

(** A failed check ends the search with the memory and the fields of the image as they were. *)
Lemma bootm_find_os_null fuel m img images :
  Image.disjoint64 header img -> 0 <= img -> img + 64 < 2 ^ 32 ->
  Image.image_check_magic m img = false \/ Image.image_check_hcrc m header img = Some false \/
    (verify images = true /\ Image.image_check_dcrc m img = Some false) ->
  bootm_find_os fuel m img images = Some (1, m, set_data images 0 0).
Proof.
  intros Hd H0 H64 Hbad. unfold bootm_find_os, boot_get_kernel, Image.genimg_get_format, image_get_kernel.
  destruct (Image.image_check_magic m img) eqn:Em.
  2: { destruct (fdt m img =? 0); reflexivity. }
  cbn [negb Z.eqb Image.IMAGE_FORMAT_LEGACY]. destruct Hbad as [|Hbad]; [discriminate|].
  rewrite Image.image_check_hcrc_spec in * by exact Hd. cbn [mbind option_bind].
  rewrite Image.image_check_dcrc_spec in * by assumption.
  set (hc := Crc32.checksum 0 (Image.blanked m img) =? _) in *. set (dc := Crc32.checksum 0 (bytes _ _ _) =? _) in *. clearbody hc dc.
  destruct hc; [|reflexivity]. destruct Hbad as [|[Hv Hbad] ]; [discriminate|]. rewrite Hv. destruct dc; [discriminate|reflexivity].
Qed.

(** An image with one byte changed after mkimage is not booted: [bootm] returns 1
    and has written nothing. *)
Theorem bootm_rejects_corrupt fuel m img size params images a v :
  Image.good_image m img size params -> placed images img size -> 0 <= size -> verify images = true ->
  img <= a < img + 64 + size -> u8 v <> ld m a ->
  do_bootm_find_load fuel (st m a v) img images = Some (1, st m a v, set_data images 0 0).
Proof.
  intros Hg [H0 He Hd Hcp] Hs Hv Ha Hne. destruct (Image.good_image_checks m header img size params Hg Hd H0 ltac:(lia)) as (_ & C2 & C3).
  unfold do_bootm_find_load. rewrite bootm_find_os_null; [reflexivity|exact Hd|exact H0|lia|]. right.
  destruct (Image.corruption_detected m header img a v) as [ [_ H]|[_ H] ]; auto; [lia|]. rewrite (Image.gi_size _ _ _ _ Hg). exact Ha.
Qed.

(** A good image that is larger than [CONFIG_SYS_BOOTM_LEN] and has to be moved
    asks for a reset; only the copy of the header has been written. *)
Theorem bootm_too_large fuel m img size params images :
  Image.good_image m img size params -> bootable params -> placed images img size -> CONFIG_SYS_BOOTM_LEN < size ->
  Image.p_addr params <> img + 64 ->
  exists m1 images1, do_bootm_find_load fuel m img images = Some (BOOTM_ERR_RESET, m1, images1) /\
    forall x, img <= x < img + 64 + size -> ld m1 x = ld m x.
Proof.
  intros Hg Hb Hpl Hs Hne. unfold CONFIG_SYS_BOOTM_LEN in *.
  destruct (bootm_find_os_good fuel m img size params images Hg Hb ltac:(lia) Hpl) as (m1 & images1 & E & Hfr & Hos & _).
  exists m1, images1. unfold do_bootm_find_load. rewrite E. cbn [mbind option_bind Z.eqb negb].
  unfold bootm_load_os, bootm_decomp_image. rewrite Hos. cbn [comp load image_start image_len]. rewrite Z.eqb_refl.
  replace (Image.p_addr params =? img + 64) with false by lia. unfold CONFIG_SYS_BOOTM_LEN.
  replace (size <=? 0x800000) with false by lia. split; [reflexivity|exact Hfr].
Qed.

End Board.

(** ** The chapters' program *)

(** [bootm 0x60000000] with U-Boot and its reservations at the top of the RAM. *)
Definition no_info : image_info := Info 0 0 0 0 0 0 0 0 0.
Definition boot_headers : bootm_headers := Headers 0 0x67000040 false no_info 0 true Lmb.vexpress.

Lemma bare_arm_placed size : 0 <= size < 0x1000000 -> placed 0x67000000 boot_headers 0x60000000 size.
Proof. intros Hs. split; cbn; unfold Image.disjoint64; lia. Qed.

Lemma bare_arm_bootable : bootable Image.bare_arm_params.
Proof. unfold bootable. cbn. auto. Qed.

Lemma bootm_boots_witness : exists m1 m2 images2,
  Image.image_set_header (mem_of 0x60000040 [1; 2; 3]) 0x60000000 (3 + 64) 0 (0, 0) Image.bare_arm_params = Some m1 /\
  do_bootm_find_load 0x67000000 (fun _ _ => -9) (fun m _ _ _ _ => (-1, 0, m)) 1 m1 0x60000000 boot_headers = Some (0, m2, images2) /\
  bytes m2 0x60000000 3 = [1; 2; 3] /\ ep images2 = 0x60000000 /\ lmb images2 = Lmb.vexpress.
Proof.
  destruct (bootm_boots 0x67000000 (fun _ _ => -9) (fun m _ _ _ _ => (-1, 0, m)) 1 (mem_of 0x60000040 [1; 2; 3]) 0x60000000 3 0 (0, 0)
    Image.bare_arm_params boot_headers Image.bare_arm_ok bare_arm_bootable) as (m1 & m2 & i2 & E1 & E2 & Hb & He & _ & Hl & _);
    [unfold CONFIG_SYS_BOOTM_LEN; lia|lia|reflexivity|apply bare_arm_placed; lia|cbn; lia|left; unfold overlapping; cbn; lia|].
  exists m1, m2, i2. split_and!; [exact E1|exact E2|exact Hb|exact He|apply Hl; unfold overlapping; cbn; lia].
Defined.

Lemma bare_arm_image : exists m, Image.good_image m 0x60000000 3 Image.bare_arm_params /\ bytes m 0x60000040 3 = [1; 2; 3].
Proof.
  destruct (Image.image_set_header_good (mem_of 0x60000040 [1; 2; 3]) 0x60000000 3 0 (0, 0) Image.bare_arm_params Image.bare_arm_ok)
    as (m & _ & Hg & Hfr); try lia; try reflexivity.
  exists m. split; [exact Hg|]. rewrite <- (bytes_wr (fun _ => 0) 0x60000040 [1; 2; 3]) by (repeat constructor; lia).
  apply bytes_ext. intros a Ha. apply Hfr. cbn in Ha. lia.
Qed.

Lemma bootm_rejects_corrupt_witness : exists m, bytes m 0x60000040 3 = [1; 2; 3] /\
  do_bootm_find_load 0x67000000 (fun _ _ => -9) (fun m _ _ _ _ => (-1, 0, m)) 1 (st m 0x60000041 7) 0x60000000 boot_headers =
    Some (1, st m 0x60000041 7, set_data boot_headers 0 0).
Proof.
  destruct bare_arm_image as (m & Hg & Hb). exists m. split; [exact Hb|].
  apply (bootm_rejects_corrupt 0x67000000 (fun _ _ => -9) (fun m _ _ _ _ => (-1, 0, m)) 1 m 0x60000000 3 Image.bare_arm_params);
    [exact Hg|apply bare_arm_placed; lia|lia|reflexivity|lia|].
  cbn [bytes] in Hb. injection Hb as _ Hb _. change (0x60000040 + 1) with 0x60000041 in Hb. rewrite Hb. discriminate.
Defined.

(** An image of 9 MiB of NULs. *)
Lemma large_image : exists m, Image.good_image m 0x60000000 0x900000 Image.bare_arm_params.
Proof.
  destruct (Image.image_set_header_good (fun _ => 0) 0x60000000 0x900000 0 (0, 0) Image.bare_arm_params Image.bare_arm_ok)
    as (m & _ & Hg & _); try lia; try reflexivity. exists m. exact Hg.
Qed.

Lemma bootm_too_large_witness : exists m m1 images1,
  do_bootm_find_load 0x67000000 (fun _ _ => -9) (fun m _ _ _ _ => (-1, 0, m)) 1 m 0x60000000 boot_headers = Some (BOOTM_ERR_RESET, m1, images1).
Proof.
  destruct large_image as (m & Hg). exists m.
  destruct (bootm_too_large 0x67000000 (fun _ _ => -9) (fun m _ _ _ _ => (-1, 0, m)) 1 m 0x60000000 0x900000 Image.bare_arm_params boot_headers
    Hg bare_arm_bootable) as (m1 & i1 & E & _); [apply bare_arm_placed; lia|unfold CONFIG_SYS_BOOTM_LEN; lia|cbn; lia|].
  exists m1, i1. exact E.
Defined.

End Bootm.
