(* ===== verification/Blk.v ===== *)
(** * Blk: reading bytes of a partition

    [fs_devread] of U-Boot's fs/fs_internal.c: an unaligned byte range of a
    partition, read with whole-sector reads of the block device.  The device is a
    parameter: a read of [n] sectors gives the number of sectors it read and the
    bytes it stored.  [lbaint_t] is 32 bits wide. *)

From stdpp Require Import base list option.
From Stdlib Require Import ZifyBool.
From S2P Require Import Prelude Cmem.

#[local] Ltac Zify.zify_post_hook ::= Z.to_euclidean_division_equations.

Module Blk.

(** A partition of a block device. *)
Record partition := {
  log2blksz : Z;
  start : Z;
  size : Z;
  blk_dread : Z -> Z -> Z * list Z
}.

Definition blksz (d : partition) : Z := 2 ^ log2blksz d.

(** The part of [fs_devread] from the first sector boundary on; [d1] is stored already. *)
Definition devread_aligned (d : partition) (d1 : list Z) (sector byte_len : Z) : Z * list Z :=
  if byte_len =? 0 then (1, d1) else
  let block_len := Z.land byte_len (Z.lnot (blksz d - 1)) in
  if block_len =? 0 then
    let '(_, p) := blk_dread d (u32 (start d + sector)) 1 in
    (1, d1 ++ take (Z.to_nat byte_len) p)
  else
    let '(n, d2) := blk_dread d (u32 (start d + sector)) (Z.shiftr block_len (log2blksz d)) in
    if negb (n =? Z.shiftr block_len (log2blksz d)) then (0, d1 ++ d2) else
    let byte_len := byte_len - block_len in
    let sector := u32 (sector + block_len / blksz d) in
    if negb (byte_len =? 0) then
      let '(n, sec_buf) := blk_dread d (u32 (start d + sector)) 1 in
      if negb (n =? 1) then (0, d1 ++ d2) else (1, d1 ++ d2 ++ take (Z.to_nat byte_len) sec_buf)
    else (1, d1 ++ d2).

(** [fs_devread]: the status and the bytes it stored. *)
Definition fs_devread (d : partition) (sector byte_offset byte_len : Z) : Z * list Z :=
  let log2 := log2blksz d in
  if size d <=? u32 (sector + u32 (Z.shiftr (byte_offset + byte_len - 1) log2)) then (0, []) else
  let sector := u32 (sector + Z.shiftr byte_offset log2) in
  let byte_offset := Z.land byte_offset (blksz d - 1) in
  if negb (byte_offset =? 0) then
    let '(n, sec_buf) := blk_dread d (u32 (start d + sector)) 1 in
    if negb (n =? 1) then (0, []) else
    let readlen := Z.min (blksz d - byte_offset) byte_len in
    devread_aligned d (take (Z.to_nat readlen) (drop (Z.to_nat byte_offset) sec_buf)) (u32 (sector + 1)) (byte_len - readlen)
  else devread_aligned d [] sector byte_len.

(** ** A device that works

    Reads inside the partition give the bytes of [disk]. *)
Record good (d : partition) (disk : mem) : Prop := {
  good_log2 : 0 <= log2blksz d <= 20;
  good_start : 0 <= start d;
  good_size : 0 < size d;
  good_end : start d + size d < 2 ^ 32;
  good_read : forall s n, start d <= s -> 0 < n -> s + n <= start d + size d ->
    blk_dread d s n = (n, bytes disk (s * blksz d) (Z.to_nat (n * blksz d)))
}.

(** [n] bytes of the partition from byte [a] on. *)
Definition pbytes (d : partition) (disk : mem) (a n : Z) : list Z := bytes disk (start d * blksz d + a) (Z.to_nat n).

Section Good.
Context (d : partition) (disk : mem) (Hg : good d disk).

Lemma blksz_pos : 0 < blksz d.
Proof. apply Z.pow_pos_nonneg; [lia|]. apply (good_log2 _ _ Hg). Qed.

Lemma pbytes_length a n : length (pbytes d disk a n) = Z.to_nat n.
Proof. apply length_bytes. Qed.

Lemma pbytes_app a n k : 0 <= n -> 0 <= k -> pbytes d disk a (n + k) = pbytes d disk a n ++ pbytes d disk (a + n) k.
Proof.
  intros. unfold pbytes. rewrite Z2Nat.inj_add, bytes_app by lia. do 2 f_equal. lia.
Qed.

Lemma bytes_take_le m p n k : (k <= n)%nat -> take k (bytes m p n) = bytes m p k.
Proof.
  intros. replace n with (k + (n - k))%nat by lia. rewrite bytes_app. apply take_app_length'. symmetry. apply length_bytes.
Qed.

Lemma bytes_drop m p n k : (k <= n)%nat -> drop k (bytes m p n) = bytes m (p + Z.of_nat k) (n - k).
Proof.
  intros. replace n with (k + (n - k))%nat at 1 by lia. rewrite bytes_app. apply drop_app_length'. symmetry. apply length_bytes.
Qed.

Lemma pbytes_sub a n i k : 0 <= i -> 0 <= k -> i + k <= n ->
  take (Z.to_nat k) (drop (Z.to_nat i) (pbytes d disk a n)) = pbytes d disk (a + i) k.
Proof.
  intros. unfold pbytes. rewrite bytes_drop, bytes_take_le by lia. f_equal. lia.
Qed.

Lemma read_sectors s n : 0 <= s -> 0 < n -> s + n <= size d ->
  blk_dread d (u32 (start d + s)) n = (n, pbytes d disk (s * blksz d) (n * blksz d)).
Proof.
  intros. pose proof (good_end _ _ Hg). pose proof (good_start _ _ Hg). rewrite u32_small by lia.
  rewrite (good_read _ _ Hg) by lia. unfold pbytes. do 2 f_equal. lia.
Qed.

Lemma land_low x : Z.land x (blksz d - 1) = x mod blksz d.
Proof.
  unfold blksz. pose proof (good_log2 _ _ Hg). replace (2 ^ log2blksz d - 1) with (Z.ones (log2blksz d)) by (rewrite Z.ones_equiv; lia).
  apply Z.land_ones. lia.
Qed.

Lemma land_high x : Z.land x (Z.lnot (blksz d - 1)) = x / blksz d * blksz d.
Proof.
  unfold blksz. pose proof (good_log2 _ _ Hg). replace (2 ^ log2blksz d - 1) with (Z.ones (log2blksz d)) by (rewrite Z.ones_equiv; lia).
  rewrite <- Z.ldiff_land, Z.ldiff_ones_r, Z.shiftr_div_pow2, Z.shiftl_mul_pow2 by lia. reflexivity.
Qed.

Lemma aligned_reads d1 s len : 0 <= s -> 0 <= len < 2 ^ 31 -> s * blksz d + len <= size d * blksz d ->
  devread_aligned d d1 s len = (1, d1 ++ pbytes d disk (s * blksz d) len).
Proof.
  intros Hs Hl Hin. pose proof blksz_pos as Hb. pose proof (good_log2 _ _ Hg) as Hlog. pose proof (good_end _ _ Hg) as He. pose proof (good_start _ _ Hg) as Hst.
  unfold devread_aligned. destruct (Z.eqb_spec len 0) as [->|Hne]; [rewrite app_nil_r; reflexivity|].
  rewrite land_high, Z.shiftr_div_pow2 by lia. fold (blksz d). set (B := blksz d) in *.
  pose proof (Z.div_mod len B ltac:(lia)) as Edm. pose proof (Z.mod_pos_bound len B ltac:(lia)) as Hr. pose proof (Z.div_pos len B ltac:(lia) ltac:(lia)) as Hq.
  rewrite Z.div_mul by lia. set (q := len / B) in *. set (r := len mod B) in *. clearbody q r.
  destruct (Z.eqb_spec (q * B) 0) as [E|E].
  - assert (q = 0) as -> by nia. rewrite read_sectors by nia. fold B. do 2 f_equal.
    pose proof (pbytes_sub (s * B) (1 * B) 0 len ltac:(lia) ltac:(lia) ltac:(lia)) as Ep.
    change (Z.to_nat 0) with O in Ep. rewrite drop_0, Z.add_0_r in Ep. exact Ep.
  - assert (0 < q) by nia. rewrite read_sectors by nia. fold B. rewrite Z.eqb_refl. cbn [negb].
    replace (len - q * B) with r by nia. destruct (Z.eqb_spec r 0) as [->|Hr0]; cbn [negb].
    + do 2 f_equal. replace len with (q * B) by nia. reflexivity.
    + rewrite (u32_small (s + q)) by nia. rewrite read_sectors by nia. fold B. cbn [Z.eqb Pos.eqb negb].
      replace len with (q * B + r) by nia. rewrite pbytes_app by nia.
      replace (s * B + q * B) with ((s + q) * B) by lia.
      pose proof (pbytes_sub ((s + q) * B) (1 * B) 0 r ltac:(lia) ltac:(lia) ltac:(lia)) as Ep.
      change (Z.to_nat 0) with O in Ep. rewrite drop_0, Z.add_0_r in Ep. rewrite Ep. reflexivity.
Qed.

(** [fs_devread] reads any byte range of the partition. *)
Lemma devread_reads sector off len : 0 <= sector -> 0 <= off -> 0 < len -> off + len < 2 ^ 31 ->
  sector * blksz d + off + len <= size d * blksz d ->
  fs_devread d sector off len = (1, pbytes d disk (sector * blksz d + off) len).
Proof.
  intros Hs Ho Hl H31 Hin. pose proof blksz_pos as Hb. pose proof (good_end _ _ Hg) as He. pose proof (good_start _ _ Hg) as Hst.
  pose proof (good_log2 _ _ Hg) as Hlog. unfold fs_devread. rewrite !Z.shiftr_div_pow2 by lia. fold (blksz d).
  set (B := blksz d) in *. assert (0 <= (off + len - 1) / B) as Hq by (apply Z.div_pos; lia).
  assert (sector + (off + len - 1) / B < size d) as Hlast.
  { assert ((off + len - 1) / B < size d - sector); [|lia]. apply Z.div_lt_upper_bound; nia. }
  assert (0 <= off / B <= (off + len - 1) / B) as Hoq by (split; [apply Z.div_pos; lia|apply Z.div_le_mono; lia]).
  rewrite (u32_small ((off + len - 1) / B)), (u32_small (sector + (off + len - 1) / B)), (u32_small (sector + off / B)) by lia.
  replace (size d <=? sector + (off + len - 1) / B) with false by lia. rewrite land_low. fold B.
  pose proof (Z.mod_pos_bound off B ltac:(lia)) as Hr. pose proof (Z.div_mod off B ltac:(lia)) as Edm.
  set (q := off / B) in *. set (r := off mod B) in *. clearbody q r. destruct (Z.eqb_spec r 0) as [->|Hr0]; cbn [negb].
  - rewrite aligned_reads; fold B; [|lia|lia|nia]. cbn [app]. do 2 f_equal. nia.
  - rewrite read_sectors by nia. fold B. cbn [Z.eqb Pos.eqb negb]. set (n := Z.min (B - r) len).
    rewrite pbytes_sub by lia. rewrite (u32_small (sector + q + 1)) by nia.
    replace (sector * B + off) with ((sector + q) * B + r) by nia. destruct (Z.leb_spec len (B - r)).
    + replace n with len by lia. rewrite Z.sub_diag. unfold devread_aligned. cbn [Z.eqb]. reflexivity.
    + replace n with (B - r) by lia. rewrite aligned_reads; fold B; [|lia|lia|nia].
      rewrite <- (Zplus_minus (B - r) len) at 2. rewrite pbytes_app by lia. do 3 f_equal. nia.
Qed.

End Good.

(** A read of less than a sector from the start of one does not look at what the
    device returns: it succeeds whether or not the sector was read. *)
Lemma short_read_ignores_error d sector len : 0 <= log2blksz d -> 0 < len < blksz d ->
  u32 (sector + u32 (Z.shiftr (0 + len - 1) (log2blksz d))) < size d -> exists data, fs_devread d sector 0 len = (1, data).
Proof.
  intros Hlog Hl Hs. unfold fs_devread. replace (size d <=? _) with false by lia. rewrite Z.land_0_l. cbn [Z.eqb negb].
  unfold devread_aligned. replace (len =? 0) with false by lia.
  replace (Z.land len (Z.lnot (blksz d - 1))) with 0; [destruct (blk_dread d _ 1) as [n p]; eauto|].
  unfold blksz in *. replace (2 ^ log2blksz d - 1) with (Z.ones (log2blksz d)) by (rewrite Z.ones_equiv; lia).
  rewrite <- Z.ldiff_land, Z.ldiff_ones_r, Z.shiftr_div_pow2, Z.div_small, Z.shiftl_0_l by lia. reflexivity.
Qed.

End Blk.
