(* ===== verification/Ext4.v ===== *)
(** * Ext4: the blocks and the contents of a file

    The reading side of U-Boot's ext2 and ext4 file systems (fs/ext4/ext4_common.c,
    fs/ext4/ext4fs.c, fs/ext4/dev.c): the map from the blocks of a file to the
    blocks of the device, through the inode, three levels of indirect blocks with
    their caches, or extents; inodes; and the read loop that joins contiguous
    blocks.  [ext2load] reads the program image with it.  Structures on disk are
    lists of bytes; an access beyond the end of one is [None]. *)

From stdpp Require Import base list option.
From Stdlib Require Import ZifyBool.
From S2P Require Import Prelude Cmem Blk.
Import Blk.

#[local] Ltac Zify.zify_post_hook ::= Z.to_euclidean_division_equations.

Module Ext4.

(** ** Little-endian fields *)

Definition le8 (l : list Z) (off : Z) : option Z := l !! Z.to_nat off.
Definition le16 (l : list Z) (off : Z) : option Z :=
  a ← le8 l off; b ← le8 l (off + 1); Some (a + 2 ^ 8 * b).
Definition le32 (l : list Z) (off : Z) : option Z :=
  a ← le16 l off; b ← le16 l (off + 2); Some (a + 2 ^ 16 * b).

Definition INDIRECT_BLOCKS : Z := 12.
Definition EXT2_MAGIC : Z := 0xEF53.
Definition EXT4_EXTENTS_FL : Z := 0x00080000.
Definition EXT4_EXT_MAGIC : Z := 0xf30a.
Definition EXT4_FEATURE_INCOMPAT_64BIT : Z := 0x0080.
Definition EXT2_MIN_BLOCK_LOG_SIZE : Z := 10.
Definition SUPERBLOCK_START : Z := 2 * 512.
Definition SUPERBLOCK_SIZE : Z := 1024.
Definition ENOMEM : Z := 12.
Definition EINVAL : Z := 22.

(** [struct ext2_inode]: 128 bytes. *)
Definition inode_mode (i : list Z) : option Z := le16 i 0.
Definition inode_size (i : list Z) : option Z := le32 i 4.
Definition inode_flags (i : list Z) : option Z := le32 i 32.
(** [b.blocks]: the twelve direct blocks and the three indirect ones. *)
Definition inode_block (i : list Z) (n : Z) : option Z := le32 i (40 + 4 * n).

(** A cached indirect block: the bytes, their number and the device sector. *)
Record icache := { ic_block : option (list Z); ic_size : Z; ic_blkno : Z }.
Record caches := { indir1 : icache; indir2 : icache; indir3 : icache }.

Definition no_cache : icache := {| ic_block := None; ic_size := 0; ic_blkno := u32 (-1) |}.

(** The mounted file system: the partition, the superblock and the sizes that
    [ext4fs_mount] derives from it; [zalloc] says whether an allocation succeeds. *)
Record fs := {
  dev : partition;
  log2_block_size : Z;
  first_data_block : Z;
  inodes_per_group : Z;
  inodesz : Z;
  gdsize : Z;
  zalloc : Z -> bool
}.

Lemma le32_some l off : 0 <= off -> (Z.to_nat off + 4 <= length l)%nat -> exists v, le32 l off = Some v.
Proof.
  intros Ho Hl. unfold le32, le16, le8.
  destruct (lookup_lt_is_Some_2 l (Z.to_nat off) ltac:(lia)) as [x0 ->]. destruct (lookup_lt_is_Some_2 l (Z.to_nat (off + 1)) ltac:(lia)) as [x1 ->].
  destruct (lookup_lt_is_Some_2 l (Z.to_nat (off + 2)) ltac:(lia)) as [x2 ->]. destruct (lookup_lt_is_Some_2 l (Z.to_nat (off + 2 + 1)) ltac:(lia)) as [x3 ->].
  cbn [mbind option_bind]. eauto.
Qed.

Section Fs.
Context (f : fs).

Definition LOG2_BLOCK_SIZE : Z := log2_block_size f + EXT2_MIN_BLOCK_LOG_SIZE.
Definition EXT2_BLOCK_SIZE : Z := 2 ^ LOG2_BLOCK_SIZE.
(** [log2_blksz]: sectors per block. *)
Definition log2_blksz : Z := LOG2_BLOCK_SIZE - log2blksz (dev f).

Definition ext4fs_devread (sector byte_offset byte_len : Z) : Z * list Z :=
  fs_devread (dev f) sector byte_offset byte_len.

(** The sector of a block. *)
Definition sector (blknr : Z) : Z := u32 (Z.shiftl blknr log2_blksz).

(** ** Indirect blocks *)

(** What every level does before it uses its cache: allocate it, and allocate it
    again when the block size has changed. *)
Definition ensure_cache (c : icache) : icache * bool :=
  let fresh := {| ic_block := Some (replicate (Z.to_nat EXT2_BLOCK_SIZE) 0); ic_size := EXT2_BLOCK_SIZE; ic_blkno := u32 (-1) |} in
  match ic_block c with
  | None => if zalloc f EXT2_BLOCK_SIZE then (fresh, true) else (c, false)
  | Some _ =>
    if negb (EXT2_BLOCK_SIZE =? ic_size c) then
      if zalloc f EXT2_BLOCK_SIZE then (fresh, true) else (no_cache, false)
    else (c, true)
  end.

(** Read block [num] into the cache unless block [cmp] is there. *)
Definition load_cache (c : icache) (cmp num : Z) : icache * bool :=
  if negb (sector cmp =? ic_blkno c) then
    let '(status, d) := ext4fs_devread (sector num) 0 EXT2_BLOCK_SIZE in
    let block := l ← ic_block c; Some (d ++ drop (length d) l) in
    if status =? 0 then ({| ic_block := block; ic_size := ic_size c; ic_blkno := ic_blkno c |}, false)
    else ({| ic_block := block; ic_size := ic_size c; ic_blkno := sector num |}, true)
  else (c, true).

Definition cache_word (c : icache) (i : Z) : option Z := l ← ic_block c; le32 l (4 * i).

(** ** Extents *)

(** The do-while loop over the entries of an index block: the value of [i] at its end. *)
Fixpoint index_loop (k : nat) (b : list Z) (off entries fileblock i : Z) : option Z :=
  match k with
  | O => None
  | S k =>
    let i := i + 1 in
    if entries <=? i then Some i else
    ei_block ← le32 b (off + 12 + 12 * i);
    if ei_block <=? fileblock then index_loop k b off entries fileblock i else Some i
  end.

(** [ext4fs_get_extent_block]: the leaf, as the bytes it is in and its offset in
    them; the inner option is NULL. *)
Fixpoint get_extent_block (fuel : nat) (b : list Z) (off fileblock : Z) : option (option (list Z * Z)) :=
  match fuel with
  | O => None
  | S fuel =>
    magic ← le16 b off;
    if negb (magic =? EXT4_EXT_MAGIC) then Some None else
    depth ← le16 b (off + 6);
    if depth =? 0 then Some (Some (b, off)) else
    entries ← le16 b (off + 2);
    i ← index_loop (S (Z.to_nat entries)) b off entries fileblock (-1);
    let i := i - 1 in
    if i <? 0 then Some None else
    hi ← le16 b (off + 12 + 12 * i + 8);
    lo ← le32 b (off + 12 + 12 * i + 4);
    let block := u64 (Z.shiftl hi 32 + lo) in
    let '(status, d) := ext4fs_devread (u32 (Z.shiftl block log2_blksz)) 0 EXT2_BLOCK_SIZE in
    if negb (status =? 0) then get_extent_block fuel d 0 fileblock else Some None
  end.

(** The loop over the extents of a leaf. *)
Fixpoint extent_loop (k : nat) (b : list Z) (off entries fileblock i : Z) : option Z :=
  match k with
  | O => Some 0
  | S k =>
    if i <? entries then
      ee_block ← le32 b (off + 12 + 12 * i);
      ee_len ← le16 b (off + 12 + 12 * i + 4);
      let startblock := sgn 32 ee_block in
      let endblock := sgn 32 (startblock + ee_len) in
      if fileblock <? startblock then Some 0
      else if fileblock <? endblock then
        hi ← le16 b (off + 12 + 12 * i + 6);
        lo ← le32 b (off + 12 + 12 * i + 8);
        Some (sgn 32 (fileblock - startblock + u64 (Z.shiftl hi 32 + lo)))
      else extent_loop k b off entries fileblock (i + 1)
    else Some 0
  end.

Definition read_extent (fuel : nat) (inode : list Z) (fileblock : Z) : option Z :=
  if negb (zalloc f EXT2_BLOCK_SIZE) then Some (- ENOMEM) else
  b ← get_extent_block fuel (take 60 (drop 40 inode)) 0 fileblock;
  match b with
  | None => Some (- EINVAL)
  | Some (b, off) => entries ← le16 b (off + 2); extent_loop (Z.to_nat entries) b off entries fileblock 0
  end.

(** [read_allocated_block]: the block, or a negative error, and the caches; [long]
    is 32 bits wide. *)
Definition read_allocated_block (fuel : nat) (cs : caches) (inode : list Z) (fileblock : Z) : option (Z * caches) :=
  let p := EXT2_BLOCK_SIZE / 4 in
  fl ← inode_flags inode;
  if negb (Z.land fl EXT4_EXTENTS_FL =? 0) then r ← read_extent fuel inode fileblock; Some (r, cs)
  else if fileblock <? INDIRECT_BLOCKS then
    b ← inode_block inode fileblock; Some (sgn 32 b, cs)
  else if fileblock <? INDIRECT_BLOCKS + p then
    ind ← inode_block inode 12;
    let '(c1, ok) := ensure_cache (indir1 cs) in
    let cs := {| indir1 := c1; indir2 := indir2 cs; indir3 := indir3 cs |} in
    if negb ok then Some (-1, cs) else
    let '(c1, ok) := load_cache c1 ind ind in
    let cs := {| indir1 := c1; indir2 := indir2 cs; indir3 := indir3 cs |} in
    if negb ok then Some (-1, cs) else
    b ← cache_word c1 (fileblock - INDIRECT_BLOCKS); Some (sgn 32 b, cs)
  else if fileblock <? INDIRECT_BLOCKS + p * (p + 1) then
    let rblock := fileblock - (INDIRECT_BLOCKS + p) in
    ind ← inode_block inode 13;
    let '(c1, ok) := ensure_cache (indir1 cs) in
    let cs := {| indir1 := c1; indir2 := indir2 cs; indir3 := indir3 cs |} in
    if negb ok then Some (-1, cs) else
    let '(c1, ok) := load_cache c1 ind ind in
    let cs := {| indir1 := c1; indir2 := indir2 cs; indir3 := indir3 cs |} in
    if negb ok then Some (-1, cs) else
    let '(c2, ok) := ensure_cache (indir2 cs) in
    let cs := {| indir1 := c1; indir2 := c2; indir3 := indir3 cs |} in
    if negb ok then Some (-1, cs) else
    n2 ← cache_word c1 (rblock / p);
    let '(c2, ok) := load_cache c2 n2 n2 in
    let cs := {| indir1 := c1; indir2 := c2; indir3 := indir3 cs |} in
    if negb ok then Some (-1, cs) else
    b ← cache_word c2 (rblock mod p); Some (sgn 32 b, cs)
  else
    let rblock := fileblock - (INDIRECT_BLOCKS + p + p * EXT2_BLOCK_SIZE / 4) in
    let perblock_child := p in
    let perblock_parent := p * p in
    ind ← inode_block inode 14;
    let '(c1, ok) := ensure_cache (indir1 cs) in
    let cs := {| indir1 := c1; indir2 := indir2 cs; indir3 := indir3 cs |} in
    if negb ok then Some (-1, cs) else
    let '(c1, ok) := load_cache c1 ind ind in
    let cs := {| indir1 := c1; indir2 := indir2 cs; indir3 := indir3 cs |} in
    if negb ok then Some (-1, cs) else
    let '(c2, ok) := ensure_cache (indir2 cs) in
    let cs := {| indir1 := c1; indir2 := c2; indir3 := indir3 cs |} in
    if negb ok then Some (-1, cs) else
    n2 ← cache_word c1 (rblock / perblock_parent);
    let '(c2, ok) := load_cache c2 n2 n2 in
    let cs := {| indir1 := c1; indir2 := c2; indir3 := indir3 cs |} in
    if negb ok then Some (-1, cs) else
    let '(c3, ok) := ensure_cache (indir3 cs) in
    let cs := {| indir1 := c1; indir2 := c2; indir3 := c3 |} in
    if negb ok then Some (-1, cs) else
    cmp ← cache_word c2 (rblock / perblock_child);
    n3 ← cache_word c2 (rblock / perblock_child mod (EXT2_BLOCK_SIZE / 4));
    let '(c3, ok) := load_cache c3 cmp n3 in
    let cs := {| indir1 := c1; indir2 := c2; indir3 := c3 |} in
    if negb ok then Some (-1, cs) else
    b ← cache_word c3 (rblock mod perblock_child); Some (sgn 32 b, cs).

(** [ext4fs_reinit_global] *)
Definition reinit_cache (c : icache) : icache := match ic_block c with None => c | Some _ => no_cache end.
Definition ext4fs_reinit_global (cs : caches) : caches :=
  {| indir1 := reinit_cache (indir1 cs); indir2 := reinit_cache (indir2 cs); indir3 := reinit_cache (indir3 cs) |}.

(** ** Inodes *)

Definition ext4fs_bg_get_inode_table_id (bg : list Z) : option Z :=
  lo ← le32 bg 8;
  if gdsize f =? 64 then hi ← le32 bg 40; Some (u64 (lo + Z.shiftl hi 32)) else Some lo.

(** [ext4fs_blockgroup]: the status and the descriptor; [None] is a division by zero. *)
Definition ext4fs_blockgroup (group : Z) : option (Z * list Z) :=
  let desc_per_blk := EXT2_BLOCK_SIZE / gdsize f in
  if desc_per_blk =? 0 then None else
  let blkno := sgn 32 (first_data_block f + 1 + u32 group / desc_per_blk) in
  let blkoff := u32 (u32 group mod desc_per_blk * gdsize f) in
  Some (ext4fs_devread (u32 (Z.shiftl blkno log2_blksz)) (sgn 32 blkoff) (gdsize f)).

(** [ext4fs_read_inode]: the 128 bytes of the inode; the inner option is the error. *)
Definition ext4fs_read_inode (ino : Z) : option (option (list Z)) :=
  let ino := sgn 32 (ino - 1) in
  if inodes_per_group f =? 0 then None else
  '(status, blkgrp) ← ext4fs_blockgroup (sgn 32 (u32 ino / inodes_per_group f));
  if status =? 0 then Some None else
  let inodes_per_block := EXT2_BLOCK_SIZE / inodesz f in
  if inodes_per_block =? 0 then None else
  table ← ext4fs_bg_get_inode_table_id blkgrp;
  let blkno := sgn 32 (table + u32 ino mod inodes_per_group f / inodes_per_block) in
  let blkoff := u32 (Z.rem ino inodes_per_block * inodesz f) in
  let '(status, d) := ext4fs_devread (u32 (Z.shiftl blkno log2_blksz)) (sgn 32 blkoff) 128 in
  if status =? 0 then Some None else Some (Some d).

(** ** Files *)

(** The variables of the loop of [ext4fs_read_file]: the memory, the caches, the
    buffer position and the delayed read, if there is one. *)
Record delayed := { d_start : Z; d_extent : Z; d_skipfirst : Z; d_next : Z; d_buf : Z }.
Record rstate := { r_mem : mem; r_caches : caches; r_buf : Z; r_delayed : option delayed }.

(** Run the delayed read. *)
Definition spill (m : mem) (d : delayed) : Z * mem :=
  let '(status, l) := ext4fs_devread (d_start d) (d_skipfirst d) (d_extent d) in (status, wr m (d_buf d) l).

(** One round, for block [i] of [blockcnt]; the inner option is the error return,
    with the memory it leaves. *)
Definition read_round (fuel : nat) (inode : list Z) (pos len blockcnt i : Z) (s : rstate) : option (rstate + (mem * caches)) :=
  let blocksize := EXT2_BLOCK_SIZE in
  let log2 := log2blksz (dev f) in
  '(blknr, cs) ← read_allocated_block fuel (r_caches s) inode i;
  let m := r_mem s in
  if blknr <? 0 then Some (inr (m, cs)) else
  let blknr := u32 (Z.shiftl blknr log2_blksz) in
  let blockoff := pos - blocksize * i in
  let blockend := blocksize in
  let blockend := if i =? blockcnt - 1 then
      let e := len + pos - blocksize * i in if e =? 0 then blocksize else e
    else blockend in
  let '(skipfirst, blockend) := if i =? pos / blocksize then (blockoff, blockend - blockoff) else (0, blockend) in
  let start_delayed := {| d_start := blknr; d_extent := blockend; d_skipfirst := skipfirst;
                          d_next := u32 (blknr + Z.shiftr blockend log2); d_buf := r_buf s |} in
  let next m dl := Some (inl {| r_mem := m; r_caches := cs; r_buf := r_buf s + (blocksize - skipfirst); r_delayed := dl |}) in
  if negb (blknr =? 0) then
    match r_delayed s with
    | Some d =>
      if d_next d =? blknr then
        next m (Some {| d_start := d_start d; d_extent := u32 (d_extent d + blockend); d_skipfirst := d_skipfirst d;
                        d_next := u32 (d_next d + Z.shiftr blockend log2); d_buf := d_buf d |})
      else
        let '(status, m) := spill m d in
        if status =? 0 then Some (inr (m, cs)) else next m (Some start_delayed)
    | None => next m (Some start_delayed)
    end
  else
    let '(status, m) := match r_delayed s with Some d => spill m d | None => (1, m) end in
    if status =? 0 then Some (inr (m, cs)) else
    let n := blocksize - skipfirst in
    let n := if len <? n then len else n in
    next (wr m (r_buf s) (replicate (Z.to_nat n) 0)) None.

Fixpoint read_loop (k fuel : nat) (inode : list Z) (pos len blockcnt i : Z) (s : rstate) : option (rstate + (mem * caches)) :=
  match k with
  | O => Some (inl s)
  | S k =>
    r ← read_round fuel inode pos len blockcnt i s;
    match r with inl s => read_loop k fuel inode pos len blockcnt (i + 1) s | inr e => Some (inr e) end
  end.

(** The result of a read: the status, [actread] where it is set, the memory and the caches. *)
Record rresult := { rd_status : Z; rd_actread : option Z; rd_mem : mem; rd_caches : caches }.

(** A block size that does not fit an [int] is refused; [None] also stands for a
    position behind the end of the file but in its last block, where the length is
    negative. *)
Definition ext4fs_read_file (fuel : nat) (m : mem) (cs : caches) (inode : list Z) (pos len buf : Z) : option rresult :=
  filesize ← inode_size inode;
  if 31 <=? LOG2_BLOCK_SIZE then Some {| rd_status := -1; rd_actread := None; rd_mem := m; rd_caches := cs |} else
  let blocksize := EXT2_BLOCK_SIZE in
  let len := if filesize <? len + pos then filesize - pos else len in
  let blockcnt := (len + pos + blocksize - 1) / blocksize in
  let first := pos / blocksize in
  if (len <? 0) && (first <? blockcnt) then None else
  r ← read_loop (Z.to_nat (blockcnt - first)) fuel inode pos len blockcnt first
        {| r_mem := m; r_caches := cs; r_buf := buf; r_delayed := None |};
  match r with
  | inr (m, cs) => Some {| rd_status := -1; rd_actread := None; rd_mem := m; rd_caches := cs |}
  | inl s =>
    let '(status, m) := match r_delayed s with Some d => spill (r_mem s) d | None => (1, r_mem s) end in
    if status =? 0 then Some {| rd_status := -1; rd_actread := None; rd_mem := m; rd_caches := r_caches s |}
    else Some {| rd_status := 0; rd_actread := Some len; rd_mem := m; rd_caches := r_caches s |}
  end.

(** ** The map of a file on a device that works *)

Section Map.
Context (disk : mem) (Hg : good (dev f) disk).
Context (Hlog : log2blksz (dev f) <= LOG2_BLOCK_SIZE <= 20) (Hlog2 : 2 <= LOG2_BLOCK_SIZE).
Context (Hzalloc : forall n, zalloc f n = true).

Let bs := EXT2_BLOCK_SIZE.
Let B := blksz (dev f).
Let spb := 2 ^ log2_blksz.

Lemma sizes : 0 < B /\ 0 < spb /\ bs = B * spb /\ bs <= 2 ^ 20 /\ bs mod 4 = 0 /\ 4 <= bs.
Proof.
  pose proof (good_log2 _ _ Hg). subst bs B spb. unfold EXT2_BLOCK_SIZE, blksz, log2_blksz.
  assert (0 < 2 ^ log2blksz (dev f)) by (apply Z.pow_pos_nonneg; lia).
  assert (0 < 2 ^ (LOG2_BLOCK_SIZE - log2blksz (dev f))) by (apply Z.pow_pos_nonneg; lia).
  assert (2 ^ LOG2_BLOCK_SIZE <= 2 ^ 20) by (apply Z.pow_le_mono_r; lia).
  assert (2 ^ LOG2_BLOCK_SIZE = 4 * 2 ^ (LOG2_BLOCK_SIZE - 2)) as E4 by (change 4 with (2 ^ 2); rewrite <- Z.pow_add_r by lia; f_equal; lia).
  assert (0 < 2 ^ (LOG2_BLOCK_SIZE - 2)) by (apply Z.pow_pos_nonneg; lia).
  split; [assumption|]. split; [assumption|]. split; [rewrite <- Z.pow_add_r by lia; f_equal; lia|]. split; [assumption|]. split; lia.
Qed.

(** A block of the partition. *)
Definition in_part (b : Z) : Prop := 0 <= b /\ (b + 1) * spb <= Blk.size (dev f).
Definition valid (b : Z) : Prop := 0 < b /\ in_part b.
Definition block (b : Z) : list Z := pbytes (dev f) disk (b * bs) bs.
Definition word (b i : Z) : Z := ld32 disk (start (dev f) * B + b * bs + 4 * i).

Lemma sector_small b : in_part b -> sector b = b * spb /\ b * spb < Blk.size (dev f).
Proof.
  intros [Hb Hi]. destruct sizes as (HB & Hs & _). pose proof (good_end _ _ Hg). pose proof (good_start _ _ Hg).
  unfold sector. rewrite Z.shiftl_mul_pow2 by (unfold log2_blksz; lia). fold spb. split; [apply u32_small; nia|nia].
Qed.

Lemma read_block b : in_part b -> ext4fs_devread (sector b) 0 bs = (1, block b).
Proof.
  intros Hb. destruct sizes as (HB & Hs & Ebs & H20 & _). destruct (sector_small b Hb) as [-> _]. destruct Hb as [Hb Hi].
  unfold ext4fs_devread. rewrite (devread_reads (dev f) disk Hg) by (fold B; nia). fold B.
  unfold block. do 2 f_equal. nia.
Qed.

Lemma bytes_lookup_Z m a n i : 0 <= i -> i < n -> bytes m a (Z.to_nat n) !! Z.to_nat i = Some (ld m (a + i)).
Proof. intros. rewrite bytes_lookup by lia. do 2 f_equal. lia. Qed.

Lemma le32_pbytes a n off : 0 <= off -> off + 4 <= n ->
  le32 (pbytes (dev f) disk a n) off = Some (ld32 disk (start (dev f) * B + a + off)).
Proof.
  intros. unfold le32, le16, le8, pbytes. fold B. rewrite !bytes_lookup_Z by lia. cbn [mbind option_bind]. f_equal. unfold ld32.
  replace (start (dev f) * B + a + off + 1) with (start (dev f) * B + a + (off + 1)) by lia.
  replace (start (dev f) * B + a + off + 2) with (start (dev f) * B + a + (off + 2)) by lia.
  replace (start (dev f) * B + a + off + 3) with (start (dev f) * B + a + (off + 2 + 1)) by lia. rewrite !Z.add_assoc. lia.
Qed.

Lemma le32_block b i : 0 <= i < bs / 4 -> le32 (block b) (4 * i) = Some (word b i).
Proof. intros Hi. unfold block, word. apply le32_pbytes; lia. Qed.

(** *** The caches *)

Definition holds (c : icache) (b : Z) : Prop := ic_block c = Some (block b) /\ ic_size c = bs.

Definition cache_ok (c : icache) : Prop := forall l, ic_block c = Some l -> ic_size c = bs ->
  length l = Z.to_nat bs /\ (ic_blkno c = u32 (-1) \/ exists b, in_part b /\ ic_blkno c = sector b /\ l = block b).

Definition ready (c : icache) : Prop := cache_ok c /\ ic_size c = bs /\ exists l, ic_block c = Some l.

Definition caches_ok (cs : caches) : Prop := cache_ok (indir1 cs) /\ cache_ok (indir2 cs) /\ cache_ok (indir3 cs).

Lemma no_cache_ok : cache_ok no_cache.
Proof. intros l E. discriminate. Qed.

Lemma ensure_ready c : cache_ok c -> exists c', ensure_cache c = (c', true) /\ ready c'.
Proof.
  intros Hc. unfold ensure_cache. rewrite Hzalloc. set (fresh := {| ic_block := Some _; ic_size := _; ic_blkno := _ |}).
  assert (ready fresh) as Hf.
  { split; [|split; [reflexivity|eexists; reflexivity]]. intros l [= <-] _. split; [apply length_replicate|left; reflexivity]. }
  destruct (ic_block c) as [l|] eqn:E; [|eauto]. destruct (Z.eqb_spec EXT2_BLOCK_SIZE (ic_size c)) as [Es|Es]; cbn [negb]; [|eauto].
  exists c. split; [reflexivity|]. split; [exact Hc|]. split; [symmetry; exact Es|eauto].
Qed.

Lemma sector_inj b1 b2 : in_part b1 -> in_part b2 -> sector b1 = sector b2 -> b1 = b2.
Proof.
  intros H1 H2. destruct sizes as (_ & Hs & _). destruct (sector_small b1 H1) as [-> _]. destruct (sector_small b2 H2) as [-> _]. nia.
Qed.

Lemma block_length b : length (block b) = Z.to_nat bs.
Proof. apply pbytes_length. Qed.

Lemma load_holds c b : ready c -> in_part b -> exists c', load_cache c b b = (c', true) /\ holds c' b /\ cache_ok c'.
Proof.
  intros (Hc & Hs & l & El) Hb. unfold load_cache. destruct (Hc l El Hs) as [Hl Hn].
  destruct (Z.eqb_spec (sector b) (ic_blkno c)) as [E|E]; cbn [negb].
  - exists c. split; [reflexivity|]. destruct Hn as [Hn|(b' & Hb' & Hn & ->)].
    + destruct (sector_small b Hb) as [Esec Hlt]. pose proof (good_end _ _ Hg). pose proof (good_start _ _ Hg).
      exfalso. rewrite Hn in E. change (u32 (-1)) with 4294967295 in E. lia.
    + rewrite Hn in E. apply sector_inj in E; [|assumption..]. subst b'. split; [split; assumption|exact Hc].
  - fold bs. rewrite (read_block b Hb), El. cbn [Z.eqb mbind option_bind].
    rewrite drop_ge by (rewrite block_length; lia). rewrite app_nil_r. eexists. split; [reflexivity|]. split; [split; [reflexivity|exact Hs]|].
    intros l' [= <-] _. split; [apply block_length|right; eauto].
Qed.

Lemma holds_ready c b : holds c b -> cache_ok c -> ready c.
Proof. intros [E Es] Hc. split; [exact Hc|]. split; [exact Es|eauto]. Qed.

Lemma holds_word c b i : holds c b -> 0 <= i < bs / 4 -> cache_word c i = Some (word b i).
Proof. intros [E _] Hi. unfold cache_word. rewrite E. cbn [mbind option_bind]. apply le32_block, Hi. Qed.

(** *** The way through the indirect blocks *)

(** The pointers on the way from block [b] along the indices, as they are on disk. *)
Fixpoint walk (b : Z) (path : list Z) : Z := match path with [] => b | i :: path => walk (word b i) path end.

Fixpoint path_ok (b : Z) (path : list Z) : Prop :=
  match path with [] => True | i :: path => in_part b /\ path_ok (word b i) path end.

Let p := bs / 4.

(** The pointer of the inode and the indices that lead to block [n] of a file. *)
Definition path_of (n : Z) : Z * list Z :=
  if n <? 12 then (n, [])
  else if n <? 12 + p then (12, [n - 12])
  else if n <? 12 + p + p * p then (13, [(n - 12 - p) / p; (n - 12 - p) mod p])
  else let r := n - 12 - p - p * p in (14, [r / (p * p); r / p mod p; r mod p]).

Lemma word_range b i : 0 <= word b i < 2 ^ 32.
Proof. apply ld32_range. Qed.

Lemma p_facts : 0 < p /\ bs = 4 * p /\ p * bs / 4 = p * p.
Proof. destruct sizes as (_ & _ & _ & _ & H4 & H). subst p. split; [lia|]. split; [lia|]. nia. Qed.

(** [read_allocated_block] follows the pointers of the inode, whatever the caches
    hold, up to the point where the third level leaves its first parent block. *)
Lemma follows_pointers fuel cs inode fl root path n : caches_ok cs -> 0 <= n < 12 + p + 2 * (p * p) ->
  inode_flags inode = Some fl -> Z.land fl EXT4_EXTENTS_FL = 0 ->
  path_of n = (root, path) -> forall b, inode_block inode root = Some b -> path_ok b path ->
  exists cs', read_allocated_block fuel cs inode n = Some (sgn 32 (walk b path), cs') /\ caches_ok cs'.
Proof.
  intros (H1 & H2 & H3) Hn Hfl Hext Hp b Hb Hok. destruct p_facts as (Hp0 & Ebs & Ep).
  unfold read_allocated_block. fold bs. fold p. rewrite Hfl. cbn [mbind option_bind]. rewrite Hext. cbn [Z.eqb negb]. unfold INDIRECT_BLOCKS.
  unfold path_of in Hp. destruct (Z.ltb_spec n 12); [injection Hp as <- <-; rewrite Hb; eexists; split; [reflexivity|split_and!; assumption]|].
  destruct (Z.ltb_spec n (12 + p)).
  { injection Hp as <- <-. cbn [path_ok] in Hok. rewrite Hb. cbn [mbind option_bind].
    destruct (ensure_ready _ H1) as (c1 & -> & R1). cbn [negb]. destruct (load_holds c1 b R1 (proj1 Hok)) as (c1' & -> & D1 & K1). cbn [negb].
    rewrite (holds_word c1' b (n - 12) D1) by (fold p; lia). eexists. split; [reflexivity|split_and!; assumption]. }
  replace (p * (p + 1)) with (p + p * p) by lia. replace (12 + (p + p * p)) with (12 + p + p * p) by lia.
  destruct (Z.ltb_spec n (12 + p + p * p)).
  { injection Hp as <- <-. cbn [path_ok] in Hok. rewrite Hb. cbn [mbind option_bind]. replace (n - (12 + p)) with (n - 12 - p) by lia.
    set (r := n - 12 - p) in *. assert (0 <= r / p < p) by (split; [apply Z.div_pos; lia|apply Z.div_lt_upper_bound; lia]).
    pose proof (Z.mod_pos_bound r p Hp0).
    destruct (ensure_ready _ H1) as (c1 & -> & R1). cbn [negb]. destruct (load_holds c1 b R1 (proj1 Hok)) as (c1' & -> & D1 & K1). cbn [negb indir2].
    destruct (ensure_ready _ H2) as (c2 & -> & R2). cbn [negb]. rewrite (holds_word c1' b _ D1) by (fold p; lia). cbn [mbind option_bind].
    destruct (load_holds c2 _ R2 (proj1 (proj2 Hok))) as (c2' & -> & D2 & K2). cbn [negb].
    rewrite (holds_word c2' _ _ D2) by (fold p; lia). eexists. split; [reflexivity|split_and!; assumption]. }
  rewrite Ep. replace (n - (12 + p + p * p)) with (n - 12 - p - p * p) by lia. set (r := n - 12 - p - p * p) in *. injection Hp as <- <-.
  cbn [path_ok] in Hok. rewrite Hb. cbn [mbind option_bind].
  assert (0 <= r < p * p) as Hr by lia. assert (r / (p * p) = 0) as E0 by (apply Z.div_small; lia).
  assert (0 <= r / p < p) as Hrp by (split; [apply Z.div_pos; lia|apply Z.div_lt_upper_bound; lia]). pose proof (Z.mod_pos_bound r p Hp0) as Hrm.
  rewrite (Z.mod_small (r / p) p) in * by lia. rewrite E0 in *.
  destruct (ensure_ready _ H1) as (c1 & -> & R1). cbn [negb]. destruct (load_holds c1 b R1 (proj1 Hok)) as (c1' & -> & D1 & K1). cbn [negb indir2 indir3].
  destruct (ensure_ready _ H2) as (c2 & -> & R2). cbn [negb]. rewrite (holds_word c1' b _ D1) by (fold p; lia). cbn [mbind option_bind].
  destruct (load_holds c2 _ R2 (proj1 (proj2 Hok))) as (c2' & -> & D2 & K2). cbn [negb indir3].
  destruct (ensure_ready _ H3) as (c3 & -> & R3). cbn [negb]. rewrite !(holds_word c2' _ _ D2) by (fold p; lia). cbn [mbind option_bind].
  destruct (load_holds c3 _ R3 (proj1 (proj2 (proj2 Hok)))) as (c3' & -> & D3 & K3). cbn [negb].
  rewrite (holds_word c3' _ _ D3) by (fold p; lia). eexists. split; [reflexivity|split_and!; assumption].
Qed.

(** *** Reading a file *)

Section File.
(** The map of the file, the range that is read and where it goes. *)
Context (bm : Z -> Z) (fuel : nat) (inode : list Z) (pos len buf : Z) (m0 : mem).
Let e := pos + len.
Let first := pos / bs.
Let cnt := (len + pos + bs - 1) / bs.
Context (Hpos : 0 <= pos) (Hlen : 0 < len) (Hend : e < 2 ^ 31).
Context (Hmap : forall cs i, caches_ok cs -> first <= i < cnt ->
  exists cs', read_allocated_block fuel cs inode i = Some (bm i, cs') /\ caches_ok cs').
Context (Hblocks : forall i, first <= i < cnt -> bm i = 0 \/ valid (bm i)).
Context (Hdistinct : forall i, first <= i < cnt - 1 -> bm i <> 0 -> bm (i + 1) <> bm i).

(** The bytes of the file. *)
Definition fmem : mem := fun x => if bm (x / bs) =? 0 then 0 else ld disk (start (dev f) * B + bm (x / bs) * bs + x mod bs).

(** The first byte of block [i] that is read, and how far the blocks before [i] reach. *)
Definition from (i : Z) : Z := if i =? first then pos else i * bs.
Definition upto_block (i : Z) : Z := Z.min e (from i).

(** How far behind [buf] the memory changes: a hole in the last block is cleared
    beyond the end of the range. *)
Definition reach : Z := if bm (cnt - 1) =? 0 then from (cnt - 1) - pos + Z.min ((cnt - 1) * bs + bs - from (cnt - 1)) len else len.

Lemma counts : first < cnt /\ (cnt - 1) * bs < e <= cnt * bs /\ first * bs <= pos < first * bs + bs /\ 0 <= first.
Proof.
  destruct sizes as (HB & Hs & Ebs & H20 & H4 & Hb4). subst first cnt e.
  pose proof (Z.div_mod pos bs ltac:(lia)). pose proof (Z.mod_pos_bound pos bs ltac:(lia)).
  pose proof (Z.div_mod (len + pos + bs - 1) bs ltac:(lia)). pose proof (Z.mod_pos_bound (len + pos + bs - 1) bs ltac:(lia)).
  pose proof (Z.div_pos pos bs ltac:(lia) ltac:(lia)). nia.
Qed.

#[local] Ltac Zify.zify_post_hook ::= idtac.

Lemma from_facts i : first <= i < cnt -> i * bs <= from i < i * bs + bs /\ pos <= from i < e /\
  (i < cnt - 1 -> i * bs + bs < e) /\ (first < i -> from i = i * bs).
Proof.
  intros Hi. destruct counts as (H1 & H2 & H3 & H4). destruct sizes as (_ & _ & _ & _ & _ & Hb4). unfold from.
  destruct (Z.eqb_spec i first) as [->|Hne]; repeat split; try lia; nia.
Qed.

(** What has been delivered up to file position [t]. *)
Definition delivered (m : mem) (t : Z) : Prop :=
  (forall j, pos <= j < t -> ld m (buf + (j - pos)) = ld fmem j) /\
  (forall a, a < buf \/ buf + Z.max reach len <= a -> ld m a = ld m0 a).

Definition delayed_ok (i t : Z) (d : delayed) : Prop :=
  d_buf d = buf + (t - pos) /\ pos <= t /\ 0 < d_extent d /\ t + d_extent d = upto_block i /\
  0 <= d_start d /\ 0 <= d_skipfirst d <= t /\
  d_start d * B + d_skipfirst d + d_extent d <= Blk.size (dev f) * B /\
  (forall j, 0 <= j < d_extent d -> ld disk (start (dev f) * B + (d_start d * B + d_skipfirst d) + j) = ld fmem (t + j)) /\
  (i < cnt -> bm i <> 0 -> d_next d = bm i * spb -> d_start d * B + d_skipfirst d + d_extent d = bm i * bs).

Definition inv (i : Z) (s : rstate) : Prop :=
  caches_ok (r_caches s) /\ r_buf s = buf + (from i - pos) /\
  match r_delayed s with
  | None => delivered (r_mem s) (upto_block i)
  | Some d => exists t, delayed_ok i t d /\ delivered (r_mem s) t
  end.

Lemma wr_delivered m t l : delivered m t -> pos <= t -> t - pos + Z.of_nat (length l) <= Z.max reach len ->
  (forall j, 0 <= j < Z.of_nat (length l) -> t + j < e -> u8 (nth (Z.to_nat j) l 0) = ld fmem (t + j)) ->
  delivered (wr m (buf + (t - pos)) l) (Z.min e (t + Z.of_nat (length l))).
Proof.
  intros [Hd Hfr] Ht Hr Hl. split.
  - intros j Hj. rewrite ld_wr. destruct ((buf + (t - pos) <=? buf + (j - pos)) && _) eqn:E.
    + replace (Z.to_nat _) with (Z.to_nat (j - t)) by lia. rewrite (Hl (j - t)) by lia. f_equal. lia.
    + apply Hd. lia.
  - intros a Ha. rewrite ld_wr. replace ((_ <=? a) && _) with false by lia. apply Hfr, Ha.
Qed.

(** The delayed read brings the memory up to date. *)
Lemma spill_delivers i t d m : delayed_ok i t d -> delivered m t -> i <= cnt -> first <= i ->
  exists m', spill m d = (1, m') /\ delivered m' (upto_block i).
Proof.
  intros (Eb & Ht & Hx & Et & Hst & Hsk & Hin & Hby & _) Hm Hi Hfi. unfold spill, ext4fs_devread.
  assert (upto_block i <= e) by (unfold upto_block; lia). assert (e < 2 ^ 31) by exact Hend.
  rewrite (devread_reads (dev f) disk Hg) by (fold B; lia). fold B. rewrite Eb. eexists. split; [reflexivity|].
  set (l := pbytes _ _ _ _). assert (length l = Z.to_nat (d_extent d)) as Hll by (apply pbytes_length).
  assert (upto_block i = Z.min e (t + Z.of_nat (length l))) as -> by (rewrite Hll; unfold upto_block in *; lia).
  apply wr_delivered; [exact Hm|exact Ht|rewrite Hll; unfold upto_block in Et; lia|].
  intros j Hj _. rewrite Hll in Hj. subst l. unfold pbytes. fold B.
  rewrite (nth_lookup_Some _ _ 0 (ld disk (start (dev f) * B + (d_start d * B + d_skipfirst d) + j))); [|rewrite bytes_lookup_Z by lia; do 2 f_equal; lia].
  rewrite u8_small by apply ld_range. apply Hby. lia.
Qed.

Lemma from_next i : first <= i < cnt -> from (i + 1) = i * bs + bs.
Proof. intros Hi. unfold from. replace (i + 1 =? first) with false by lia. lia. Qed.

(** The part of block [i] that the round computes. *)
Lemma round_part i : first <= i < cnt ->
  (let blockend := if i =? cnt - 1 then (let x := len + pos - bs * i in if x =? 0 then bs else x) else bs in
   if i =? pos / bs then (pos - bs * i, blockend - (pos - bs * i)) else (0, blockend)) =
  (from i - i * bs, upto_block (i + 1) - from i) /\ 0 < upto_block (i + 1) - from i <= i * bs + bs - from i.
Proof.
  intros Hi. destruct counts as (H1 & H2 & H3 & H4). destruct (from_facts i Hi) as (F1 & F2 & F3 & F4).
  unfold upto_block. rewrite (from_next i Hi). fold first. cbv zeta.
  assert (e = len + pos) as Ee by (unfold e; lia).
  split; [|lia]. destruct (Z.eqb_spec i (cnt - 1)) as [Ei|Ei].
  - assert ((cnt - 1) * bs = i * bs) as Ec by (rewrite Ei; reflexivity). assert (cnt * bs = i * bs + bs) as Ec2 by (rewrite Ei; lia).
    replace (len + pos - bs * i =? 0) with false by lia. unfold from in *. destruct (Z.eqb_spec i first) as [->|]; f_equal; lia.
  - specialize (F3 ltac:(lia)). unfold from in *. destruct (Z.eqb_spec i first) as [->|]; f_equal; lia.
Qed.

Lemma fmem_block i x : i * bs <= x < i * bs + bs ->
  ld fmem x = if bm i =? 0 then 0 else ld disk (start (dev f) * B + bm i * bs + (x - i * bs)).
Proof.
  intros Hx. assert (x / bs = i) as E by (symmetry; apply Z.div_unique with (x - i * bs); lia).
  unfold ld at 1, fmem. rewrite E, Z.mod_eq, E by lia. destruct (bm i =? 0); [reflexivity|]. rewrite u8_small by apply ld_range.
  f_equal. lia.
Qed.

(** A delayed read that starts with block [i]. *)
Lemma start_ok i t : first <= i < cnt -> bm i <> 0 -> t = from i ->
  delayed_ok (i + 1) t {| d_start := bm i * spb; d_extent := upto_block (i + 1) - from i; d_skipfirst := from i - i * bs;
    d_next := u32 (bm i * spb + Z.shiftr (upto_block (i + 1) - from i) (log2blksz (dev f))); d_buf := buf + (from i - pos) |}.
Proof.
  intros Hi Hb ->. destruct (Hblocks i Hi) as [|[Hb0 Hin] ]; [contradiction|]. destruct (sector_small (bm i) Hin) as [_ Hlt].
  destruct sizes as (HB & Hs & Ebs & H20 & _ & Hb4). destruct (round_part i Hi) as [_ Hx]. destruct (from_facts i Hi) as (F1 & F2 & F3 & F4).
  destruct Hin as [_ Hin]. unfold delayed_ok. cbn [d_start d_extent d_skipfirst d_next d_buf].
  assert (bm i * spb * B = bm i * bs) as E1 by (rewrite Ebs; ring).
  assert (bm i * bs + bs <= Blk.size (dev f) * B) as E2.
  { replace (bm i * bs + bs) with ((bm i + 1) * spb * B) by (rewrite Ebs; ring). apply Z.mul_le_mono_nonneg_r; lia. }
  assert (0 <= bm i * spb) as E0 by (apply Z.mul_nonneg_nonneg; lia).
  assert (0 <= i * bs) as Ei by (destruct counts as (_ & _ & _ & ?); apply Z.mul_nonneg_nonneg; lia).
  split; [reflexivity|]. split; [lia|]. split; [lia|]. split; [lia|]. split; [exact E0|]. split; [lia|]. split; [lia|]. split.
  - intros j Hj. rewrite (fmem_block i) by lia. replace (bm i =? 0) with false by lia. f_equal. lia.
  - intros Hi1 Hb1. rewrite Z.shiftr_div_pow2 by apply (good_log2 _ _ Hg). fold (blksz (dev f)). fold B.
    pose proof (good_end _ _ Hg). pose proof (good_start _ _ Hg).
    assert (upto_block (i + 1) = i * bs + bs) as Eu by (unfold upto_block; rewrite from_next by exact Hi; lia).
    set (x := upto_block (i + 1) - from i) in *. assert (0 <= x / B <= spb) as Hq.
    { split; [apply Z.div_pos; lia|]. apply Z.div_le_upper_bound; [lia|]. lia. }
    rewrite u32_small by lia. intros En. destruct (Hblocks (i + 1) ltac:(lia)) as [|[? Hin1] ]; [contradiction|].
    specialize (Hdistinct i ltac:(lia) Hb). assert (x / B = (bm (i + 1) - bm i) * spb) as Ek by lia.
    assert (bm (i + 1) - bm i = 1) as E3.
    { assert (0 <= bm (i + 1) - bm i) by (apply (Z.mul_le_mono_pos_r 0 _ spb); lia).
      assert (bm (i + 1) - bm i <= 1) by (apply (Z.mul_le_mono_pos_r _ 1 spb); lia). lia. }
    rewrite E3, Z.mul_1_l in Ek. pose proof (Z.mul_div_le x B ltac:(lia)) as Hmd. rewrite Ek, <- Ebs in Hmd.
    replace (bm (i + 1)) with (bm i + 1) by lia. lia.
Qed.

(** A block that continues the delayed read. *)
Lemma merge_ok i t d : first < i < cnt -> bm i <> 0 -> delayed_ok i t d -> d_next d = bm i * spb ->
  delayed_ok (i + 1) t {| d_start := d_start d; d_extent := u32 (d_extent d + (upto_block (i + 1) - from i)); d_skipfirst := d_skipfirst d;
    d_next := u32 (d_next d + Z.shiftr (upto_block (i + 1) - from i) (log2blksz (dev f))); d_buf := d_buf d |}.
Proof.
  intros Hi Hb (Eb & Ht & Hx & Et & Hst & Hsk & Hin & Hby & Hc) En. specialize (Hc ltac:(lia) Hb En).
  assert (first <= i < cnt) as Hi' by lia. destruct (Hblocks i Hi') as [|[Hb0 Hin1] ]; [contradiction|].
  destruct (sector_small (bm i) Hin1) as [_ Hlt]. destruct Hin1 as [_ Hin1].
  destruct sizes as (HB & Hs & Ebs & H20 & _ & Hb4). destruct (round_part i Hi') as [_ Hn]. destruct (from_facts i Hi') as (F1 & F2 & F3 & F4).
  specialize (F4 ltac:(lia)). assert (upto_block i = from i) as Eu by (unfold upto_block; lia). rewrite Eu in Et.
  assert (upto_block (i + 1) <= e) as He by (unfold upto_block; lia).
  assert (bm i * bs + bs <= Blk.size (dev f) * B) as E2.
  { replace (bm i * bs + bs) with ((bm i + 1) * spb * B) by (rewrite Ebs; ring). apply Z.mul_le_mono_nonneg_r; lia. }
  assert (0 <= pos) by exact Hpos. assert (e < 2 ^ 31) by exact Hend.
  unfold delayed_ok. cbn [d_start d_extent d_skipfirst d_next d_buf]. rewrite (u32_small (d_extent d + _)) by lia.
  split; [exact Eb|]. split; [exact Ht|]. split; [lia|]. split; [lia|]. split; [exact Hst|]. split; [exact Hsk|]. split; [lia|]. split.
  - intros j Hj. destruct (Z.ltb_spec j (d_extent d)); [apply Hby; lia|]. rewrite (fmem_block i) by lia. replace (bm i =? 0) with false by lia. f_equal. lia.
  - intros Hi1 Hb1. rewrite Z.shiftr_div_pow2 by apply (good_log2 _ _ Hg). fold (blksz (dev f)). fold B.
    pose proof (good_end _ _ Hg). pose proof (good_start _ _ Hg).
    assert (upto_block (i + 1) = i * bs + bs) as Eu1 by (unfold upto_block; rewrite from_next by exact Hi'; lia).
    replace (upto_block (i + 1) - from i) with (spb * B) by lia. rewrite Z.div_mul by lia. rewrite En, u32_small by lia. intros E3.
    assert (bm (i + 1) = bm i + 1) as -> by (apply (Z.mul_cancel_r _ _ spb); lia). lia.
Qed.

(** One round keeps the invariant. *)
Lemma round_inv i s : first <= i < cnt -> inv i s ->
  exists s', read_round fuel inode pos len cnt i s = Some (inl s') /\ inv (i + 1) s'.
Proof.
  intros Hi (Hcs & Hbuf & Hd). unfold read_round. fold bs.
  destruct (Hmap _ i Hcs Hi) as (cs' & -> & Hcs'). cbn [mbind option_bind].
  assert (0 <= bm i) as Hb0 by (destruct (Hblocks i Hi) as [E|[E _] ]; lia). replace (bm i <? 0) with false by lia.
  destruct (round_part i Hi) as [Epart Hn]. cbv zeta in Epart. cbv zeta. rewrite Epart. clear Epart.
  destruct (from_facts i Hi) as (F1 & F2 & F3 & F4). pose proof (from_next i Hi) as Fn.
  replace (bs - (from i - i * bs)) with (i * bs + bs - from i) by lia.
  assert (r_buf s + (i * bs + bs - from i) = buf + (from (i + 1) - pos)) as Eb by lia. rewrite Eb.
  change (u32 (Z.shiftl (bm i) log2_blksz)) with (sector (bm i)).
  assert (upto_block i = from i) as Eu by (unfold upto_block; lia).
  destruct (Z.eqb_spec (bm i) 0) as [E0|E0].
  - assert (sector (bm i) = 0) as -> by (rewrite E0; unfold sector; rewrite Z.shiftl_0_l; reflexivity). cbn [Z.eqb negb].
    set (z := if len <? _ then len else _). assert (upto_block (i + 1) - from i <= z <= i * bs + bs - from i) as Hz.
    { assert (upto_block (i + 1) <= e) by (unfold upto_block; lia). subst z. assert (e = pos + len) by reflexivity. destruct (Z.ltb_spec len (i * bs + bs - from i)); lia. }
    assert (forall m, delivered m (upto_block i) -> delivered (wr m (r_buf s) (replicate (Z.to_nat z) 0)) (upto_block (i + 1))) as Hw.
    { intros m Hm. rewrite Hbuf, Eu in *. replace (upto_block (i + 1)) with (Z.min e (from i + Z.of_nat (length (replicate (Z.to_nat z) 0)))).
      2: { rewrite length_replicate. unfold upto_block in *. lia. }
      apply wr_delivered; [exact Hm|lia| |].
      - rewrite length_replicate. unfold reach. destruct (Z.eqb_spec i (cnt - 1)) as [Ei|Ei].
        + rewrite <- Ei. replace (bm i =? 0) with true by lia. subst z. destruct (Z.ltb_spec len (i * bs + bs - from i)); lia.
        + specialize (F3 ltac:(lia)). assert (e = pos + len) by reflexivity. lia.
      - intros j Hj Hje. rewrite length_replicate in Hj. rewrite (fmem_block i) by lia. rewrite E0. cbn [Z.eqb].
        rewrite (nth_lookup_Some _ _ 0 0); [reflexivity|]. apply lookup_replicate. split; [reflexivity|lia]. }
    destruct (r_delayed s) as [d|].
    + destruct Hd as (t & Hok & Hm). destruct (spill_delivers i t d (r_mem s) Hok Hm ltac:(lia) ltac:(lia)) as (m' & -> & Hm'). cbn [Z.eqb].
      eexists. split; [reflexivity|]. split; [exact Hcs'|]. split; [reflexivity|]. exact (Hw m' Hm').
    + cbn [Z.eqb]. eexists. split; [reflexivity|]. split; [exact Hcs'|]. split; [reflexivity|]. exact (Hw _ Hd).
  - destruct (Hblocks i Hi) as [|[? Hin] ]; [contradiction|]. destruct (sector_small (bm i) Hin) as [-> Hlt].
    destruct sizes as (_ & Hs & _). assert (0 < bm i * spb) by (apply Z.mul_pos_pos; lia). replace (bm i * spb =? 0) with false by lia. cbn [negb].
    rewrite Hbuf. pose proof (start_ok i (from i) Hi E0 eq_refl) as Hst. destruct (r_delayed s) as [d|].
    + destruct Hd as (t & Hok & Hm). destruct (Z.eqb_spec (d_next d) (bm i * spb)) as [En|En].
      * eexists. split; [reflexivity|]. split; [exact Hcs'|]. split; [reflexivity|]. exists t. split; [|exact Hm].
        apply merge_ok; [|assumption..]. destruct (Z.eqb_spec i first) as [Ef|]; [|lia].
        exfalso. destruct Hok as (_ & Ht & Hx & Et & _). rewrite Eu in Et. unfold from in Et. replace (i =? first) with true in Et by lia. lia.
      * destruct (spill_delivers i t d (r_mem s) Hok Hm ltac:(lia) ltac:(lia)) as (m' & -> & Hm'). cbn [Z.eqb].
        eexists. split; [reflexivity|]. split; [exact Hcs'|]. split; [reflexivity|]. exists (from i). split; [exact Hst|]. rewrite <- Eu. exact Hm'.
    + eexists. split; [reflexivity|]. split; [exact Hcs'|]. split; [reflexivity|]. exists (from i). split; [exact Hst|]. rewrite <- Eu. exact Hd.
Qed.

Lemma loop_inv k : forall i s, first <= i -> i + Z.of_nat k = cnt -> inv i s ->
  exists s', read_loop k fuel inode pos len cnt i s = Some (inl s') /\ inv cnt s'.
Proof.
  induction k as [|k IH]; intros i s Hi Hk Hinv; cbn [read_loop].
  - exists s. split; [reflexivity|]. replace cnt with i by lia. exact Hinv.
  - destruct (round_inv i s ltac:(lia) Hinv) as (s' & -> & Hinv'). cbn [mbind option_bind]. apply IH; [lia|lia|exact Hinv'].
Qed.

(** The read loop delivers the bytes of the file and leaves the rest of the memory. *)
Lemma reads_file cs filesize : caches_ok cs -> inode_size inode = Some filesize -> e <= filesize ->
  exists m' cs', ext4fs_read_file fuel m0 cs inode pos len buf =
      Some {| rd_status := 0; rd_actread := Some len; rd_mem := m'; rd_caches := cs' |} /\
    caches_ok cs' /\ delivered m' e.
Proof.
  intros Hcs Hsz He. unfold ext4fs_read_file. rewrite Hsz. cbn [mbind option_bind]. replace (31 <=? LOG2_BLOCK_SIZE) with false by lia.
  assert (e = pos + len) as Ee by reflexivity. replace (filesize <? len + pos) with false by lia. fold bs. fold first. fold cnt.
  replace (len <? 0) with false by lia. cbn [andb]. destruct counts as (H1 & H2 & H3 & H4).
  destruct (loop_inv (Z.to_nat (cnt - first)) first {| r_mem := m0; r_caches := cs; r_buf := buf; r_delayed := None |}) as (s' & -> & Hc' & _ & Hd); [lia|lia| |].
  { split; [exact Hcs|]. unfold from. rewrite Z.eqb_refl. split; [cbn; lia|]. cbn. unfold upto_block, from. rewrite Z.eqb_refl.
    split; [intros j Hj; lia|reflexivity]. }
  cbn [mbind option_bind]. assert (upto_block cnt = e) as Eu by (unfold upto_block, from; replace (cnt =? first) with false by lia; lia). rewrite Eu in Hd.
  destruct (r_delayed s') as [d|].
  - destruct Hd as (t & Hok & Hm). destruct (spill_delivers cnt t d (r_mem s') Hok Hm ltac:(lia) ltac:(lia)) as (m' & -> & Hm'). cbn [Z.eqb].
    rewrite Eu in Hm'. eauto 8.
  - cbn [Z.eqb]. eauto 8.
Qed.

End File.

(** *** The ext2 map of a file *)

(** A null pointer on the way is a hole. *)
Fixpoint follow (b : Z) (path : list Z) : Z :=
  match path with [] => b | i :: path => if b =? 0 then 0 else follow (word b i) path end.

Fixpoint path_valid (b : Z) (path : list Z) : Prop :=
  match path with [] => True | i :: path => valid b /\ path_valid (word b i) path end.

Lemma follow_walk path : forall b, path_valid b path -> follow b path = walk b path /\ path_ok b path.
Proof.
  induction path as [|i path IH]; intros b H; [split; reflexivity || exact I|]. destruct H as [ [Hb Hin] H]. cbn [follow walk path_ok].
  replace (b =? 0) with false by lia. destruct (IH _ H). auto.
Qed.

Definition root_of (inode : list Z) (n : Z) : Z := default 0 (inode_block inode (path_of n).1).
Definition file_block (inode : list Z) (n : Z) : Z := follow (root_of inode n) (path_of n).2.

(** A byte of the file. *)
Definition file_byte (inode : list Z) (x : Z) : Z := ld (fmem (file_block inode)) x.

(** An inode of 128 bytes without extents whose blocks [first, cnt) are in the
    partition; only data blocks may be holes. *)
Record file_ok (inode : list Z) (first cnt : Z) : Prop := {
  ok_length : length inode = 128%nat;
  ok_flags : exists fl, inode_flags inode = Some fl /\ Z.land fl EXT4_EXTENTS_FL = 0;
  ok_range : forall i, first <= i < cnt -> 0 <= i < 12 + p + 2 * (p * p);
  ok_path : forall i, first <= i < cnt -> path_valid (root_of inode i) (path_of i).2;
  ok_block : forall i, first <= i < cnt -> file_block inode i = 0 \/ valid (file_block inode i) /\ file_block inode i < 2 ^ 31;
  ok_distinct : forall i, first <= i < cnt - 1 -> file_block inode i <> 0 -> file_block inode (i + 1) <> file_block inode i
}.

Lemma path_root n : 0 <= n -> 0 <= (path_of n).1 <= 14.
Proof. intros Hn. unfold path_of. repeat case_match; cbn; lia. Qed.

Lemma file_map fuel inode first cnt : file_ok inode first cnt -> forall cs i, caches_ok cs -> first <= i < cnt ->
  exists cs', read_allocated_block fuel cs inode i = Some (file_block inode i, cs') /\ caches_ok cs'.
Proof.
  intros Hok cs i Hcs Hi. destruct (ok_flags _ _ _ Hok) as (fl & Hfl & Hext). pose proof (ok_range _ _ _ Hok i Hi) as Hr.
  pose proof (path_root i ltac:(lia)) as Hroot. destruct (le32_some inode (40 + 4 * (path_of i).1)) as [b Hb]; [lia|rewrite (ok_length _ _ _ Hok); lia|].
  change (inode_block inode (path_of i).1 = Some b) in Hb. pose proof (ok_path _ _ _ Hok i Hi) as Hpath. pose proof (ok_block _ _ _ Hok i Hi) as Hblk.
  unfold file_block, root_of in *. rewrite Hb in *. change (default 0 (Some b)) with b in *. destruct (follow_walk _ _ Hpath) as [Ew Hpo].
  destruct (follows_pointers fuel cs inode fl (path_of i).1 (path_of i).2 i Hcs Hr Hfl Hext (surjective_pairing _) b Hb Hpo) as (cs' & -> & Hcs').
  rewrite <- Ew, sgn_small; [eauto|]. unfold valid in Hblk. lia.
Qed.

End Map.

End Fs.

(** ** The properties *)

(** A volume: a working device, a block size of whole sectors up to 1 MB, and memory
    to allocate. *)
Record volume (f : fs) (disk : mem) : Prop := {
  vol_good : good (dev f) disk;
  vol_log : log2blksz (dev f) <= LOG2_BLOCK_SIZE f <= 20;
  vol_log2 : 2 <= LOG2_BLOCK_SIZE f;
  vol_zalloc : forall n, zalloc f n = true
}.


(** A small volume for the examples: 512-byte sectors, 1 KB blocks, eight of them. *)
Definition small_dev (disk : mem) : partition :=
  {| log2blksz := 9; start := 0; Blk.size := 16; blk_dread := fun s n => (n, bytes disk (s * 512) (Z.to_nat (n * 512))) |}.
Definition small_fs (disk : mem) : fs :=
  {| dev := small_dev disk; log2_block_size := 0; first_data_block := 1; inodes_per_group := 8; inodesz := 128; gdsize := 32; zalloc := fun _ => true |}.

Lemma small_volume disk : volume (small_fs disk) disk.
Proof.
  split; [|vm_compute; split; discriminate|vm_compute; discriminate|reflexivity].
  split; [cbn; lia|cbn; lia|cbn; lia|cbn; lia|]. intros s n _ _ _. reflexivity.
Qed.

(** An inode with the given size and block pointers. *)
Definition small_inode (size : list Z) (blocks : list Z) : list Z :=
  replicate 4 0 ++ size ++ replicate 32 0 ++ concat (map (fun b => [b; 0; 0; 0]) blocks) ++ replicate (88 - 4 * length blocks) 0.

Lemma no_caches_ok f disk : caches_ok f disk {| indir1 := no_cache; indir2 := no_cache; indir3 := no_cache |}.
Proof. split_and!; intros l E; discriminate. Qed.


(** *** Where the code goes wrong *)

(** A null pointer to an indirect block is not taken for a hole: block 0 of the
    partition is read as the table. *)
Lemma indirect_hole_reads_block_0 f disk fuel cs inode n : volume f disk -> caches_ok f disk cs -> in_part f 0 ->
  (exists fl, inode_flags inode = Some fl /\ Z.land fl EXT4_EXTENTS_FL = 0) -> inode_block inode 12 = Some 0 ->
  12 <= n < 12 + EXT2_BLOCK_SIZE f / 4 ->
  exists cs', read_allocated_block f fuel cs inode n = Some (sgn 32 (word f disk 0 (n - 12)), cs').
Proof.
  intros [Hg Hl Hl2 Hz] Hcs H0 (fl & Hfl & Hx) Hb Hn. destruct (p_facts f disk Hg Hl Hl2) as (Hp & _ & _).
  destruct (follows_pointers f disk Hg Hl Hl2 Hz fuel cs inode fl 12 [n - 12] n Hcs ltac:(nia) Hfl Hx) with (b := 0) as (cs' & E & _).
  - unfold path_of. replace (n <? 12) with false by lia. replace (n <? 12 + _) with true by lia. reflexivity.
  - exact Hb.
  - cbn. auto.
  - exists cs'. exact E.
Qed.

(** The third level compares the cache with an entry of the parent block that it
    finds without the modulus: from the second parent block on, the entry is
    behind the end of the block. *)
Lemma triple_indirect_leaves_block f disk fuel cs inode b n : volume f disk -> caches_ok f disk cs ->
  (exists fl, inode_flags inode = Some fl /\ Z.land fl EXT4_EXTENTS_FL = 0) -> inode_block inode 14 = Some b -> in_part f b ->
  (forall i, in_part f (word f disk b i)) ->
  let p := EXT2_BLOCK_SIZE f / 4 in 12 + p + 2 * (p * p) <= n < 12 + p + p * p + p * (p * p) ->
  read_allocated_block f fuel cs inode n = None.
Proof.
  intros [Hg Hl Hl2 Hz] (H1 & H2 & H3) (fl & Hfl & Hx) Hb Hin Hw p Hn. destruct (p_facts f disk Hg Hl Hl2) as (Hp0 & Ebs & Ep). fold p in Hp0, Ebs, Ep.
  unfold read_allocated_block. fold p. rewrite Hfl. cbn [mbind option_bind]. rewrite Hx. cbn [Z.eqb negb]. unfold INDIRECT_BLOCKS.
  assert (0 <= p * p) as Hpp by (apply Z.mul_nonneg_nonneg; lia). replace (p * (p + 1)) with (p + p * p) by ring.
  replace (n <? 12) with false by lia. replace (n <? 12 + p) with false by lia. replace (n <? 12 + (p + p * p)) with false by lia.
  rewrite Hb. cbn [mbind option_bind]. rewrite Ep. set (r := n - (12 + p + p * p)). assert (p * p <= r < p * (p * p)) as Hr by lia.
  assert (0 <= r / (p * p) < p) as Hq by (split; [apply Z.div_pos; lia|apply Z.div_lt_upper_bound; lia]).
  assert (p <= r / p) as Hc by (apply Z.div_le_lower_bound; lia).
  destruct (ensure_ready f disk Hz _ H1) as (c1 & -> & R1). cbn [negb]. destruct (load_holds f disk Hg Hl Hl2 c1 b R1 Hin) as (c1' & -> & D1 & K1). cbn [negb indir2].
  destruct (ensure_ready f disk Hz _ H2) as (c2 & -> & R2). cbn [negb]. rewrite (holds_word f disk c1' b _ D1) by (fold p; lia). cbn [mbind option_bind].
  destruct (load_holds f disk Hg Hl Hl2 c2 _ R2 (Hw (r / (p * p)))) as (c2' & -> & D2 & K2). cbn [negb indir3].
  destruct (ensure_ready f disk Hz _ H3) as (c3 & -> & R3). cbn [negb].
  replace (cache_word c2' (r / p)) with (@None Z); [reflexivity|]. destruct D2 as [E _]. unfold cache_word. rewrite E. cbn [mbind option_bind].
  unfold le32, le16, le8. rewrite (proj2 (lookup_ge_None _ (Z.to_nat (4 * (r / p))))); [reflexivity|]. rewrite block_length. lia.
Qed.

(** A hole at the end of the range is cleared to the end of its block: reading 1500
    bytes of an empty file of that size writes 2048. *)
Example hole_overruns :
  let r := ext4fs_read_file (small_fs (fun _ => 0)) 0 (fun _ => 7) {| indir1 := no_cache; indir2 := no_cache; indir3 := no_cache |}
             (small_inode [220; 5; 0; 0] []) 0 1500 0x1000 in
  match r with Some r => rd_status r = 0 /\ rd_actread r = Some 1500 /\ ld (rd_mem r) (0x1000 + 2047) = 0 /\ ld (rd_mem r) (0x1000 + 2048) = 7 | None => False end.
Proof. vm_compute. split_and!; reflexivity. Qed.

End Ext4.
