(* ===== verification/Extents.v ===== *)
(** * Extents: files mapped by an extent tree

    The map of an ext4 file with extents, as [read_allocated_block] of
    fs/ext4/ext4_common.c looks it up: index blocks down to a leaf, and the extents
    of the leaf.  The abstract map of a file is the sorted list of all extents of
    the tree; [tree_ok] says that the blocks of the device hold such a tree. *)

From stdpp Require Import base list option.
From Stdlib Require Import ZifyBool.
From S2P Require Import Prelude Cmem Blk Ext4.
Import Blk Ext4.

Module Extents.

(** File blocks [ee_block, ee_block + ee_len) are the device blocks from [ee_start]. *)
Record extent := { ee_block : Z; ee_len : Z; ee_start : Z }.

(** The block of file block [n], 0 for a hole. *)
Fixpoint extent_map (l : list extent) (n : Z) : Z :=
  match l with
  | [] => 0
  | x :: l => if (ee_block x <=? n) && (n <? ee_block x + ee_len x) then ee_start x + (n - ee_block x) else extent_map l n
  end.

(** Extents in the order of the file, in its blocks [lo, hi). *)
Fixpoint sorted (lo hi : Z) (l : list extent) : Prop :=
  match l with
  | [] => lo <= hi
  | x :: l => lo <= ee_block x /\ 0 <= ee_len x /\ sorted (ee_block x + ee_len x) hi l
  end.

(** Extent [i] of a leaf. *)
Definition has_extent (b : list Z) (i : Z) (x : extent) : Prop :=
  le32 b (12 + 12 * i) = Some (ee_block x) /\ le16 b (12 + 12 * i + 4) = Some (ee_len x) /\
  exists hi lo, le16 b (12 + 12 * i + 6) = Some hi /\ le32 b (12 + 12 * i + 8) = Some lo /\
    0 <= hi < 2 ^ 16 /\ 0 <= lo < 2 ^ 32 /\ ee_start x = hi * 2 ^ 32 + lo.

(** A subtree: its first file block, the device block it is in and its extents. *)
Record child := { c_key : Z; c_block : Z; c_extents : list extent }.

Definition has_index (b : list Z) (i : Z) (c : child) : Prop :=
  le32 b (12 + 12 * i) = Some (c_key c) /\ le32 b (12 + 12 * i + 4) = Some (c_block c) /\
  le16 b (12 + 12 * i + 8) = Some 0.

Definition header (b : list Z) (entries depth : Z) : Prop :=
  le16 b 0 = Some EXT4_EXT_MAGIC /\ le16 b 2 = Some entries /\ le16 b 6 = Some depth.

(** The children of an index block cover [lo, hi) one after the other. *)
Fixpoint cover (P : child -> Z -> Z -> Prop) (lo hi : Z) (cs : list child) : Prop :=
  match cs with
  | [] => lo = hi
  | c :: cs => c_key c = lo /\ exists mid, lo <= mid /\ P c lo mid /\ cover P mid hi cs
  end.

Section Tree.
Context (f : fs) (disk : mem).

(** The bytes [b] hold a tree of depth [d] for the file blocks [lo, hi) with the extents [l]. *)
Fixpoint tree_ok (d : nat) (b : list Z) (lo hi : Z) (l : list extent) : Prop :=
  match d with
  | O => header b (Z.of_nat (length l)) 0 /\ (forall i x, l !! i = Some x -> has_extent b (Z.of_nat i) x) /\ sorted lo hi l
  | S d => exists cs depth, depth <> 0 /\ header b (Z.of_nat (length cs)) depth /\
      (forall i c, cs !! i = Some c -> has_index b (Z.of_nat i) c) /\ l = concat (map c_extents cs) /\
      cover (fun c lo hi => valid f (c_block c) /\ tree_ok d (block f disk (c_block c)) lo hi (c_extents c)) lo hi cs
  end.

(** ** Sorted lists of extents *)

Lemma sorted_le l : forall lo hi, sorted lo hi l -> lo <= hi.
Proof. induction l as [|x l IH]; cbn; intros lo hi H; [exact H|]. destruct H as (H1 & H2 & H). specialize (IH _ _ H). lia. Qed.

Lemma sorted_app l : forall lo mid hi l', sorted lo mid l -> sorted mid hi l' -> sorted lo hi (l ++ l').
Proof.
  induction l as [|x l IH]; cbn; intros lo mid hi l' H H'.
  - destruct l' as [|y l']; cbn in *; [lia|]. destruct H' as (? & ? & ?). split_and!; [lia|assumption..].
  - destruct H as (? & ? & H). split_and!; [assumption..|]. eapply IH; eassumption.
Qed.

Lemma map_before l : forall lo hi n, sorted lo hi l -> n < lo -> extent_map l n = 0.
Proof.
  induction l as [|x l IH]; cbn; intros lo hi n H Hn; [reflexivity|]. destruct H as (H1 & H2 & H).
  replace (ee_block x <=? n) with false by lia. apply (IH _ _ _ H). lia.
Qed.

Lemma map_app_l l : forall lo mid hi l' n, sorted lo mid l -> sorted mid hi l' -> n < mid -> extent_map (l ++ l') n = extent_map l n.
Proof.
  induction l as [|x l IH]; cbn; intros lo mid hi l' n H H' Hn; [apply (map_before l' mid hi); assumption|].
  destruct H as (_ & _ & H). destruct (_ && _); [reflexivity|]. eapply IH; eassumption.
Qed.

Lemma map_app_r l : forall lo mid l' n, sorted lo mid l -> mid <= n -> extent_map (l ++ l') n = extent_map l' n.
Proof.
  induction l as [|x l IH]; cbn; intros lo mid l' n H Hn; [reflexivity|].
  destruct H as (_ & _ & H). pose proof (sorted_le _ _ _ H). replace (n <? ee_block x + ee_len x) with false by lia. rewrite andb_false_r. eapply IH; eassumption.
Qed.

(** ** The search in an index block *)

Lemma cover_sorted P cs : (forall c lo hi, P c lo hi -> sorted lo hi (c_extents c)) ->
  forall lo hi, cover P lo hi cs -> sorted lo hi (concat (map c_extents cs)).
Proof.
  intros HP. induction cs as [|c cs IH]; cbn; intros lo hi H; [lia|]. destruct H as (_ & mid & _ & Hc & H).
  eapply sorted_app; [eapply HP, Hc|apply IH, H].
Qed.

Lemma cover_le P cs : forall lo hi, cover P lo hi cs -> lo <= hi.
Proof. induction cs as [|c cs IH]; cbn; intros lo hi H; [lia|]. destruct H as (_ & mid & Hm & _ & H). specialize (IH _ _ H). lia. Qed.

Lemma find_child P cs n : (forall c lo hi, P c lo hi -> sorted lo hi (c_extents c)) ->
  forall lo hi, cover P lo hi cs -> lo <= n < hi ->
  exists pre c post mid, cs = pre ++ c :: post /\ Forall (fun c => c_key c <= n) (pre ++ [c]) /\
    (forall c', head post = Some c' -> n < c_key c') /\ P c (c_key c) mid /\ (c_key c <= n < mid /\ lo <= c_key c /\ mid <= hi) /\
    extent_map (concat (map c_extents cs)) n = extent_map (c_extents c) n.
Proof.
  intros HP. induction cs as [|c cs IH]; intros lo hi H Hn; cbn in H; [lia|]. destruct H as (Hk & mid & Hm & Hc & H).
  pose proof (HP _ _ _ Hc) as Hs. pose proof (cover_sorted P cs HP _ _ H) as Hs'. cbn [map concat]. destruct (Z.ltb_spec n mid) as [Hlt|Hge].
  - exists [], c, cs, mid. split; [reflexivity|]. split; [repeat constructor; lia|]. split.
    + intros c' Hc'. destruct cs as [|c2 cs]; [discriminate|]. injection Hc' as <-. cbn in H. lia.
    + rewrite Hk. split; [exact Hc|]. pose proof (cover_le _ _ _ _ H). split; [lia|]. eapply map_app_l; eassumption.
  - destruct (IH mid hi H ltac:(lia)) as (pre & c' & post & mid' & -> & Hall & Hpost & Hc' & Hn' & E).
    exists (c :: pre), c', post, mid'. split; [reflexivity|]. split; [constructor; [lia|exact Hall]|]. split; [exact Hpost|].
    split; [exact Hc'|]. split; [lia|]. rewrite <- E. eapply map_app_r; eassumption.
Qed.

(** The loop stops behind the last key that is not above the block. *)
Lemma index_loop_finds b n cs : (forall i c, cs !! i = Some c -> has_index b (Z.of_nat i) c) ->
  forall rest before post k, cs = before ++ rest ++ post -> Forall (fun c => c_key c <= n) rest ->
  (forall c', head post = Some c' -> n < c_key c') -> (length rest < k)%nat ->
  index_loop k b 0 (Z.of_nat (length cs)) n (Z.of_nat (length before) - 1) = Some (Z.of_nat (length before + length rest)).
Proof.
  intros Hcs. induction rest as [|c rest IH]; intros before post k E Hall Hpost Hk; (destruct k as [|k]; [cbn in Hk; lia|]); cbn [index_loop];
    rewrite Z.sub_add.
  - cbn [length]. rewrite Nat.add_0_r. destruct post as [|c post].
    + rewrite E, !length_app. cbn [length]. rewrite !Nat.add_0_r, Z.leb_refl. reflexivity.
    + replace (Z.of_nat (length cs) <=? _) with false by (rewrite E, !length_app; cbn [length]; lia).
      destruct (Hcs (length before) c) as (Hi & _); [rewrite E; apply list_lookup_middle; reflexivity|].
      rewrite Z.add_0_l, Hi. cbn [mbind option_bind]. specialize (Hpost c eq_refl). replace (c_key c <=? n) with false by lia. reflexivity.
  - replace (Z.of_nat (length cs) <=? _) with false by (rewrite E, !length_app; cbn [length]; lia).
    destruct (Hcs (length before) c) as (Hi & _); [rewrite E; apply list_lookup_middle; reflexivity|].
    rewrite Z.add_0_l, Hi. cbn [mbind option_bind]. apply Forall_cons_iff in Hall as [Hc Hall]. replace (c_key c <=? n) with true by lia.
    replace (Z.of_nat (length before)) with (Z.of_nat (length (before ++ [c])) - 1) by (rewrite length_app; cbn [length]; lia).
    rewrite (IH (before ++ [c]) post k); [|rewrite <- app_assoc; exact E|exact Hall|exact Hpost|cbn in Hk; lia].
    f_equal. rewrite length_app. cbn [length]. lia.
Qed.

(** ** The way to the leaf *)

Lemma in_part_small (Hg : good (dev f) disk) (Hl : log2blksz (dev f) <= LOG2_BLOCK_SIZE f <= 20) (Hl2 : 2 <= LOG2_BLOCK_SIZE f) b :
  in_part f b -> 0 <= b < 2 ^ 32.
Proof.
  intros Hb. destruct (sector_small f disk Hg Hl Hl2 b Hb) as [_ Hlt]. destruct (sizes f disk Hg Hl Hl2) as (_ & Hs & _). destruct Hb as [Hb _].
  pose proof (good_end _ _ Hg). pose proof (good_start _ _ Hg). nia.
Qed.

Lemma tree_sorted d : forall b lo hi l, tree_ok d b lo hi l -> sorted lo hi l.
Proof.
  induction d as [|d IH]; cbn; intros b lo hi l H; [apply H|]. destruct H as (cs & depth & _ & _ & _ & -> & H).
  eapply cover_sorted, H. intros c lo' hi' [_ Hc]. eapply IH, Hc.
Qed.

(** From a tree, [ext4fs_get_extent_block] comes to the leaf that has the block. *)
Lemma reaches_leaf d (Hv : volume f disk) n : forall b lo hi l fuel, tree_ok d b lo hi l -> lo <= n < hi -> (d < fuel)%nat ->
  exists leaf lo' hi' l', get_extent_block f fuel b 0 n = Some (Some (leaf, 0)) /\ tree_ok 0 leaf lo' hi' l' /\ (lo' <= n < hi' /\ lo <= lo' /\ hi' <= hi) /\
    extent_map l n = extent_map l' n.
Proof.
  induction d as [|d IH]; intros b lo hi l fuel H Hn Hf; (destruct fuel as [|fuel]; [lia|]); cbn [get_extent_block].
  - pose proof H as [ (Hm & He & Hd) _]. change (0 + 6) with 6. change (0 + 2) with 2. change (0 + 12) with 12. rewrite Hm. cbn [mbind option_bind]. rewrite Z.eqb_refl. cbn [negb]. rewrite Hd. cbn [mbind option_bind Z.eqb].
    exists b, lo, hi, l. split; [reflexivity|]. split; [exact H|]. split; [lia|reflexivity].
  - cbn [tree_ok] in H. destruct H as (cs & depth & Hd0 & (Hm & He & Hd) & Hcs & -> & H).
    set (P := fun c lo hi => valid f (c_block c) /\ tree_ok d (block f disk (c_block c)) lo hi (c_extents c)) in H.
    destruct (find_child P cs n (fun c lo hi Hc => tree_sorted _ _ _ _ _ (proj2 Hc)) lo hi H Hn) as (pre & c & post & mid & Ecs & Hall & Hpost & [Hvb Hc] & Hn' & E).
    change (0 + 6) with 6. change (0 + 2) with 2. change (0 + 12) with 12. rewrite Hm. cbn [mbind option_bind]. rewrite Z.eqb_refl. cbn [negb]. rewrite Hd. cbn [mbind option_bind].
    replace (depth =? 0) with false by lia. rewrite He. cbn [mbind option_bind].
    pose proof (index_loop_finds b n cs Hcs (pre ++ [c]) [] post (S (Z.to_nat (Z.of_nat (length cs))))) as El.
    cbn [length] in El. change (Z.of_nat 0 - 1) with (-1) in El. rewrite El; clear El;
      [|rewrite <- app_assoc; exact Ecs|exact Hall|exact Hpost|rewrite Ecs, !length_app; cbn [length]; lia].
    cbn [mbind option_bind]. rewrite length_app. cbn [length]. replace (Z.of_nat (0 + (length pre + 1)) - 1) with (Z.of_nat (length pre)) by lia.
    replace (_ <? 0) with false by lia. destruct (Hcs (length pre) c) as (_ & Hb & Hhi); [rewrite Ecs; apply list_lookup_middle; reflexivity|].
    rewrite Hhi. cbn [mbind option_bind]. rewrite Hb. cbn [mbind option_bind]. rewrite Z.shiftl_0_l, Z.add_0_l.
    destruct Hv as [Hg Hl Hl2 Hz]. destruct Hvb as [Hb0 Hin]. 
    rewrite u64_small by (apply (in_part_small Hg Hl Hl2) in Hin; lia).
    fold (sector f (c_block c)). rewrite (read_block f disk Hg Hl Hl2 (c_block c) Hin). cbn [Z.eqb negb].
    destruct (IH (block f disk (c_block c)) (c_key c) mid (c_extents c) fuel Hc (proj1 Hn') ltac:(lia)) as (leaf & lo' & hi' & l' & Eg & Ht & Hr & Em).
    exists leaf, lo', hi', l'. split; [exact Eg|]. split; [exact Ht|]. split; [lia|]. rewrite E. exact Em.
Qed.

(** The loop over a leaf computes the map. *)
Lemma extent_loop_maps b n hi0 l : (forall i x, l !! i = Some x -> has_extent b (Z.of_nat i) x) -> hi0 < 2 ^ 31 ->
  forall rest before lo, l = before ++ rest -> sorted lo hi0 rest -> 0 <= lo <= n -> n < hi0 ->
  extent_loop (length rest) b 0 (Z.of_nat (length l)) n (Z.of_nat (length before)) = Some (sgn 32 (extent_map rest n)).
Proof.
  intros Hl H31. induction rest as [|x rest IH]; intros before lo E Hs Hn Hhi; [reflexivity|]. cbn [length extent_loop extent_map].
  replace (Z.of_nat (length before) <? Z.of_nat (length l)) with true by (rewrite E, length_app; cbn [length]; lia).
  change (0 + 12) with 12. destruct (Hl (length before) x) as (Hb & Hlen & hi & lo' & Hhi' & Hlo & Hr & Hr' & Es); [rewrite E; apply list_lookup_middle; reflexivity|].
  destruct Hs as (H1 & H2 & Hs). pose proof (sorted_le _ _ _ Hs).
  rewrite Hb. cbn [mbind option_bind]. rewrite Hlen. cbn [mbind option_bind]. rewrite (sgn_small (ee_block x)), (sgn_small (ee_block x + ee_len x)) by lia.
  destruct (Z.ltb_spec n (ee_block x)) as [Hlt|Hge].
  - replace (ee_block x <=? n) with false by lia. cbn [andb]. rewrite (map_before rest _ _ _ Hs) by lia. reflexivity.
  - replace (ee_block x <=? n) with true by lia. cbn [andb]. destruct (Z.ltb_spec n (ee_block x + ee_len x)) as [Hin|Hout].
    + rewrite Hhi'. cbn [mbind option_bind]. rewrite Hlo. cbn [mbind option_bind]. rewrite Z.shiftl_mul_pow2 by lia.
      rewrite u64_small by lia. do 2 f_equal. lia.
    + replace (Z.of_nat (length before) + 1) with (Z.of_nat (length (before ++ [x]))) by (rewrite length_app; cbn [length]; lia).
      eapply IH; [rewrite <- app_assoc; exact E|exact Hs|lia|exact Hhi].
Qed.

(** [read_allocated_block] computes the map of the tree in the inode. *)
Lemma extent_lookup (Hv : volume f disk) fuel cs inode fl d hi l n : inode_flags inode = Some fl -> Z.land fl EXT4_EXTENTS_FL <> 0 ->
  tree_ok d (take 60 (drop 40 inode)) 0 hi l -> hi < 2 ^ 31 -> 0 <= n < hi -> (d < fuel)%nat ->
  read_allocated_block f fuel cs inode n = Some (sgn 32 (extent_map l n), cs).
Proof.
  intros Hfl Hx Ht Hhi Hn Hf. unfold read_allocated_block. rewrite Hfl. cbn [mbind option_bind]. replace (Z.land fl EXT4_EXTENTS_FL =? 0) with false by lia.
  cbn [negb]. unfold read_extent. rewrite (vol_zalloc _ _ Hv). cbn [negb].
  destruct (reaches_leaf d Hv n _ 0 hi l fuel Ht Hn Hf) as (leaf & lo' & hi' & l' & -> & Hl' & Hr & ->). cbn [mbind option_bind].
  destruct Hl' as ( (_ & He & _) & Hx' & Hs). change (0 + 2) with 2. rewrite He. cbn [mbind option_bind].
  rewrite Nat2Z.id. pose proof (extent_loop_maps leaf n hi' l' Hx' ltac:(lia) l' [] lo' eq_refl Hs ltac:(lia) ltac:(lia)) as El.
  cbn [length] in El. change (Z.of_nat 0) with 0 in El. rewrite El. reflexivity.
Qed.

End Tree.

(** ** The properties *)

(** A file with extents: the tree in its inode, of depth [d], maps the blocks up to
    [hi]; the blocks [first, cnt) are holes or blocks of the partition. *)
Record extent_file (f : fs) (disk : mem) (inode : list Z) (d : nat) (hi : Z) (l : list extent) (first cnt : Z) : Prop := {
  xf_flags : exists fl, inode_flags inode = Some fl /\ Z.land fl EXT4_EXTENTS_FL <> 0;
  xf_tree : tree_ok f disk d (take 60 (drop 40 inode)) 0 hi l;
  xf_hi : hi < 2 ^ 31;
  xf_range : forall i, first <= i < cnt -> 0 <= i < hi;
  xf_block : forall i, first <= i < cnt -> extent_map l i = 0 \/ valid f (extent_map l i) /\ extent_map l i < 2 ^ 31;
  xf_distinct : forall i, first <= i < cnt - 1 -> extent_map l i <> 0 -> extent_map l (i + 1) <> extent_map l i
}.

Lemma extents_map f disk fuel inode d hi l first cnt : volume f disk -> (d < fuel)%nat -> extent_file f disk inode d hi l first cnt ->
  forall cs i, caches_ok f disk cs -> first <= i < cnt ->
  exists cs', read_allocated_block f fuel cs inode i = Some (extent_map l i, cs') /\ caches_ok f disk cs'.
Proof.
  intros Hv Hf Hok cs i Hcs Hi. destruct (xf_flags _ _ _ _ _ _ _ _ Hok) as (fl & Hfl & Hx). exists cs. split; [|exact Hcs].
  rewrite (extent_lookup f disk Hv fuel cs inode fl d hi l i Hfl Hx (xf_tree _ _ _ _ _ _ _ _ Hok) (xf_hi _ _ _ _ _ _ _ _ Hok) (xf_range _ _ _ _ _ _ _ _ Hok i Hi) Hf).
  rewrite sgn_small; [reflexivity|]. destruct (xf_block _ _ _ _ _ _ _ _ Hok i Hi) as [-> | [ [? _] ?] ]; lia.
Qed.

(** C33: Reading a file with extents: with an extent tree of any depth [d] (fewer than
    the fuel), [ext4fs_read_file] returns 0 and delivers at [buf] the bytes
    [pos, pos + len) of the file that the sorted list of all extents of the tree
    maps, zeros for the gaps between extents; memory outside the range is unchanged,
    except behind a hole at its end. *)
Theorem ext4fs_read_file_extents f disk fuel m cs inode filesize pos len buf d hi l :
  volume f disk -> caches_ok f disk cs -> inode_size inode = Some filesize -> (d < fuel)%nat ->
  0 <= pos -> 0 < len -> pos + len <= filesize -> pos + len < 2 ^ 31 ->
  extent_file f disk inode d hi l (pos / EXT2_BLOCK_SIZE f) ((len + pos + EXT2_BLOCK_SIZE f - 1) / EXT2_BLOCK_SIZE f) ->
  exists m' cs', ext4fs_read_file f fuel m cs inode pos len buf =
      Some {| rd_status := 0; rd_actread := Some len; rd_mem := m'; rd_caches := cs' |} /\ caches_ok f disk cs' /\
    (forall j, 0 <= j < len -> ld m' (buf + j) = ld (fmem f disk (extent_map l)) (pos + j)) /\
    (forall a, a < buf \/ buf + Z.max (reach f (extent_map l) pos len) len <= a -> ld m' a = ld m a).
Proof.
  intros Hv Hcs Hsz Hf Hpos Hlen He H31 Hok. pose proof Hv as [Hg Hl Hl2 _].
  destruct (reads_file f disk Hg Hl Hl2 (extent_map l) fuel inode pos len buf m Hpos Hlen H31
    (extents_map f disk fuel inode d hi l _ _ Hv Hf Hok)
    (fun i Hi => match xf_block _ _ _ _ _ _ _ _ Hok i Hi with or_introl E => or_introl E | or_intror (conj E _) => or_intror E end)
    (xf_distinct _ _ _ _ _ _ _ _ Hok) cs filesize Hcs Hsz He) as (m' & cs' & E & Hcs' & Hd & Hfr).
  exists m', cs'. split; [exact E|]. split; [exact Hcs'|]. split; [|exact Hfr].
  intros j Hj. rewrite <- (Hd (pos + j)) by lia. f_equal. lia.
Qed.

(** An inode with an extent tree in it. *)
Definition extent_inode (size tree : list Z) : list Z :=
  replicate 4 0 ++ size ++ replicate 24 0 ++ [0; 0; 8; 0] ++ replicate 4 0 ++ tree ++ replicate (88 - length tree) 0.

Definition leaf_entry (block len start : Z) : list Z := [block; 0; 0; 0; len; 0; 0; 0; start; 0; 0; 0].
Definition index_entry (block leaf : Z) : list Z := [block; 0; 0; 0; leaf; 0; 0; 0; 0; 0; 0; 0].
Definition tree_header (entries depth : Z) : list Z := [10; 243; entries; 0; 4; 0; depth; 0; 0; 0; 0; 0].

(** A file of three blocks: 0 and 1 in the blocks 5 and 6, 2 a hole; the leaf is in block 4. *)
Definition tree_disk : mem := fun a =>
  if (4096 <=? a) && (a <? 4096 + 24) then nth (Z.to_nat (a - 4096)) (tree_header 1 0 ++ leaf_entry 0 2 5) 0 else a / 1024.
Definition tree_inode : list Z := extent_inode [0; 12; 0; 0] (tree_header 1 1 ++ index_entry 0 4).

Lemma tree_inode_ok : extent_file (small_fs tree_disk) tree_disk tree_inode 1 10 [ {| ee_block := 0; ee_len := 2; ee_start := 5 |} ] 0 3.
Proof.
  split.
  - eexists. split; [reflexivity|]. discriminate.
  - exists [ {| c_key := 0; c_block := 4; c_extents := [ {| ee_block := 0; ee_len := 2; ee_start := 5 |} ] |} ], 1.
    split; [discriminate|]. split; [split_and!; reflexivity|]. split.
    { intros [|i] c Hc; [|discriminate]. injection Hc as <-. split_and!; reflexivity. }
    split; [reflexivity|]. cbn [cover c_key c_block c_extents]. split; [reflexivity|]. exists 10. split; [lia|]. split; [|reflexivity].
    split; [split; [reflexivity|split; discriminate]|]. split; [split_and!; reflexivity|]. split; [|cbn; lia].
    intros [|i] x Hx; [|discriminate]. injection Hx as <-. split; [reflexivity|]. split; [reflexivity|]. exists 0, 5. split_and!; reflexivity || lia.
  - lia.
  - lia.
  - intros i Hi. assert (i = 0 \/ i = 1 \/ i = 2) as [-> | [-> | ->] ] by lia; [right|right|left; reflexivity];
      (split; [split; [reflexivity|split; discriminate]|reflexivity]).
  - intros i Hi. assert (i = 0 \/ i = 1) as [-> | ->] by lia; discriminate.
Qed.

Lemma ext4fs_read_file_extents_witness : let f := small_fs tree_disk in
  exists m' cs', ext4fs_read_file f 2 (fun _ => 0) {| indir1 := no_cache; indir2 := no_cache; indir3 := no_cache |} tree_inode 100 2900 0x60000000 =
      Some {| rd_status := 0; rd_actread := Some 2900; rd_mem := m'; rd_caches := cs' |} /\ caches_ok f tree_disk cs' /\
    (forall j, 0 <= j < 2900 -> ld m' (0x60000000 + j) = ld (fmem f tree_disk (extent_map [ {| ee_block := 0; ee_len := 2; ee_start := 5 |} ])) (100 + j)) /\
    (forall a, a < 0x60000000 \/ 0x60000000 + Z.max (reach f (extent_map [ {| ee_block := 0; ee_len := 2; ee_start := 5 |} ]) 100 2900) 2900 <= a -> ld m' a = ld (fun _ => 0) a).
Proof.
  intros f. apply (ext4fs_read_file_extents f tree_disk 2 (fun _ => 0) _ tree_inode 3072 100 2900 0x60000000 1 10 _ (small_volume tree_disk)).
  - apply no_caches_ok.
  - reflexivity.
  - lia.
  - lia.
  - lia.
  - lia.
  - lia.
  - exact tree_inode_ok.
Defined.

(** *** Where the code goes wrong *)

(** A hole before the first key of an index block is an error, where the same hole in
    a leaf is a hole: every read that touches it fails. *)
Lemma index_hole_fails f fuel cs inode fl entries depth key n : zalloc f (EXT2_BLOCK_SIZE f) = true ->
  inode_flags inode = Some fl -> Z.land fl EXT4_EXTENTS_FL <> 0 -> header (take 60 (drop 40 inode)) entries depth -> depth <> 0 -> 0 < entries ->
  le32 (take 60 (drop 40 inode)) 12 = Some key -> n < key ->
  read_allocated_block f (S fuel) cs inode n = Some (- EINVAL, cs).
Proof.
  intros Hz Hfl Hx (Hm & He & Hd) Hd0 He0 Hk Hn. unfold read_allocated_block. rewrite Hfl. cbn [mbind option_bind].
  replace (Z.land fl EXT4_EXTENTS_FL =? 0) with false by lia. cbn [negb]. unfold read_extent. rewrite Hz. cbn [negb get_extent_block].
  change (0 + 6) with 6. change (0 + 2) with 2. change (0 + 12) with 12. rewrite Hm. cbn [mbind option_bind]. rewrite Z.eqb_refl. cbn [negb]. rewrite Hd. cbn [mbind option_bind].
  replace (depth =? 0) with false by lia. rewrite He. cbn [mbind option_bind index_loop]. replace (-1 + 1) with 0 by lia. replace (entries <=? 0) with false by lia.
  change (0 + 12 + 12 * 0) with 12. rewrite Hk. cbn [mbind option_bind]. replace (key <=? n) with false by lia. reflexivity.
Qed.

End Extents.
