(* ===== verification/Ext4Dir.v ===== *)
(** * Ext4Dir: directories, paths and the mounted volume

    The rest of the reading side of fs/ext4: directory entries
    ([ext4fs_iterate_dir]), symbolic links, the search for a path
    ([ext4fs_find_file1]), and the operations on the mounted volume ([ext4fs_mount],
    [ext4fs_open], [ext4fs_read], [ext4_read_file], [ext4fs_ls], [ext4fs_close],
    [ext4fs_probe]).  Nodes are allocated and freed: a node carries the number of
    its allocation, the state has the live ones, and an access to a freed node is
    [None], as are accesses outside a structure and a run out of fuel. *)

From stdpp Require Import base list option.
From Stdlib Require Import ZifyBool.
From S2P Require Import Prelude Cmem Blk Ext4.
Import Blk Ext4.

Module Ext4Dir.

Definition FILETYPE_UNKNOWN : Z := 0.
Definition FILETYPE_REG : Z := 1.
Definition FILETYPE_DIRECTORY : Z := 2.
Definition FILETYPE_SYMLINK : Z := 7.
Definition FILETYPE_INO_MASK : Z := 0xf000.
Definition FILETYPE_INO_REG : Z := 0x8000.
Definition FILETYPE_INO_DIRECTORY : Z := 0x4000.
Definition FILETYPE_INO_SYMLINK : Z := 0xa000.

(** [struct ext2fs_node]; number 0 is [diropen] of the mounted volume. *)
Record node := { n_id : nat; n_ino : Z; n_inode_read : bool; n_inode : list Z }.
Definition NODE_SIZE : Z := 140.

(** The caches, the live nodes, the number of the next one, and [symlinknest]. *)
Record dstate := { d_caches : caches; d_live : list nat; d_fresh : nat; d_nest : Z }.

Definition set_caches (s : dstate) (cs : caches) : dstate :=
  {| d_caches := cs; d_live := d_live s; d_fresh := d_fresh s; d_nest := d_nest s |}.
Definition set_live (s : dstate) (l : list nat) : dstate :=
  {| d_caches := d_caches s; d_live := l; d_fresh := d_fresh s; d_nest := d_nest s |}.
Definition set_nest (s : dstate) (n : Z) : dstate :=
  {| d_caches := d_caches s; d_live := d_live s; d_fresh := d_fresh s; d_nest := n |}.

Definition is_live (s : dstate) (n : node) : bool := (n_id n =? 0)%nat || bool_decide (n_id n ∈ d_live s).

(** [zalloc(sizeof(struct ext2fs_node))] *)
Definition alloc_id (s : dstate) : nat * dstate :=
  (d_fresh s, {| d_caches := d_caches s; d_live := d_fresh s :: d_live s; d_fresh := S (d_fresh s); d_nest := d_nest s |}).

(** [free] of a node; [None] when it is not live. *)
Definition free_id (s : dstate) (i : nat) : option dstate :=
  if bool_decide (i ∈ d_live s) then Some (set_live s (filter (.≠ i) (d_live s))) else None.

(** [ext4fs_free_node] *)
Definition ext4fs_free_node (s : dstate) (n currroot : node) : option dstate :=
  if (n_id n =? 0)%nat || (n_id n =? n_id currroot)%nat then Some s else free_id s (n_id n).

(** A C string in a buffer, up to its terminator. *)
Fixpoint c_string (l : list Z) : list Z := match l with [] => [] | c :: l => if c =? 0 then [] else c :: c_string l end.

(** What [ext4fs_ls] prints of an entry. *)
Record ls_line := { ls_type : Z; ls_size : Z; ls_name : list Z }.

(** The result of [ext4fs_iterate_dir]: the entry that was found and its type, or
    nothing, and what it printed. *)
Record iresult := { i_found : option (node * Z); i_out : list ls_line }.

Section Dir.
Context (f : fs) (fuel : nat).
(** What an uninitialised local buffer holds. *)
Context (junk : mem).

(** [ext4fs_read_file] into a local buffer. *)
Definition read_local (cs : caches) (inode : list Z) (pos len : Z) (init : mem) : option rresult :=
  ext4fs_read_file f fuel init cs inode pos len 0.

(** The type of an entry, from its inode where the entry does not have it. *)
Definition type_of_entry (filetype : Z) : Z :=
  if (filetype =? FILETYPE_DIRECTORY) || (filetype =? FILETYPE_SYMLINK) || (filetype =? FILETYPE_REG) then filetype else FILETYPE_UNKNOWN.
Definition type_of_inode (mode : Z) : Z :=
  let m := Z.land mode FILETYPE_INO_MASK in
  if m =? FILETYPE_INO_DIRECTORY then FILETYPE_DIRECTORY
  else if m =? FILETYPE_INO_SYMLINK then FILETYPE_SYMLINK
  else if m =? FILETYPE_INO_REG then FILETYPE_REG else FILETYPE_UNKNOWN.

(** The loop of [ext4fs_iterate_dir]; [name] is [None] when it lists. *)
Fixpoint dir_loop (k : nat) (s : dstate) (inode : list Z) (name : option (list Z)) (fpos : Z) (out : list ls_line) : option (iresult * dstate) :=
  match k with
  | O => None
  | S k =>
    let fail s := Some ({| i_found := None; i_out := out |}, s) in
    size ← inode_size inode;
    if size <=? fpos then fail s else
    r ← read_local (d_caches s) inode fpos 8 junk;
    let s := set_caches s (rd_caches r) in
    if rd_status r <? 0 then fail s else
    let dirent := bytes (rd_mem r) 0 8 in
    ino ← le32 dirent 0;
    direntlen ← le16 dirent 4;
    namelen ← le8 dirent 6;
    filetype ← le8 dirent 7;
    if direntlen =? 0 then fail s else
    let next s out := dir_loop k s inode name (u32 (fpos + direntlen)) out in
    if namelen =? 0 then next s out else
    r ← read_local (d_caches s) inode (u32 (fpos + 8)) namelen junk;
    let s := set_caches s (rd_caches r) in
    if rd_status r <? 0 then fail s else
    if negb (zalloc f NODE_SIZE) then fail s else
    let '(id, s) := alloc_id s in
    let filename := c_string (bytes (rd_mem r) 0 (Z.to_nat namelen)) in
    i ← (if negb (filetype =? FILETYPE_UNKNOWN) then Some (Some (type_of_entry filetype, {| n_id := id; n_ino := ino; n_inode_read := false; n_inode := replicate 128 0 |}))
         else i ← ext4fs_read_inode f ino;
              match i with
              | None => Some None
              | Some i => mode ← inode_mode i; Some (Some (type_of_inode mode, {| n_id := id; n_ino := ino; n_inode_read := true; n_inode := i |}))
              end);
    match i with
    | None => s ← free_id s id; fail s
    | Some (type, fdiro) =>
      match name with
      | Some name =>
        if bool_decide (filename = name) then Some ({| i_found := Some (fdiro, type); i_out := out |}, s)
        else s ← free_id s id; next s out
      | None =>
        i ← (if n_inode_read fdiro then Some (Some (n_inode fdiro)) else ext4fs_read_inode f ino);
        match i with
        | None => s ← free_id s id; fail s
        | Some i => size ← inode_size i; s ← free_id s id; next s (out ++ [ {| ls_type := type; ls_size := size; ls_name := filename |} ])
        end
      end
    end
  end.

(** Every round moves [fpos]: one round more than the size of the directory is enough. *)
Definition dir_rounds (inode : list Z) : option nat := size ← inode_size inode; Some (S (Z.to_nat size)).

(** The inode of a node, read when it has not been; [None] inside is the error. *)
Definition node_inode (n : node) : option (option (list Z)) :=
  if n_inode_read n then Some (Some (n_inode n)) else ext4fs_read_inode f (n_ino n).

(** [ext4fs_iterate_dir] *)
Definition ext4fs_iterate_dir (k : nat) (s : dstate) (dir : node) (name : option (list Z)) : option (iresult * dstate) :=
  if negb (is_live s dir) then None else
  i ← node_inode dir;
  match i with
  | None => Some ({| i_found := None; i_out := [] |}, s)
  | Some inode => dir_loop k s inode name 0 []
  end.

(** [ext4fs_read_symlink]: the target, or NULL. *)
Definition ext4fs_read_symlink (s : dstate) (n : node) : option (option (list Z) * dstate) :=
  if negb (is_live s n) then None else
  i ← node_inode n;
  match i with
  | None => Some (None, s)
  | Some inode =>
    size ← inode_size inode;
    if 2 ^ 32 <=? size + 1 then None else
    if negb (zalloc f (size + 1)) then Some (None, s) else
    if size <? 60 then Some (Some (c_string (take (Z.to_nat size) (drop 40 inode))), s)
    else
      r ← read_local (d_caches s) inode 0 size (fun _ => 0);
      let s := set_caches s (rd_caches r) in
      if (rd_status r <? 0) || bool_decide (rd_actread r = Some 0) then Some (None, s)
      else Some (Some (c_string (bytes (rd_mem r) 0 (Z.to_nat size))), s)
  end.

Definition SLASH : Z := 47.

Fixpoint drop_slashes (p : list Z) : list Z := match p with c :: p' => if c =? SLASH then drop_slashes p' else p | [] => [] end.

(** The first component of a path, and what is behind the slashes that end it. *)
Fixpoint split_path (p : list Z) : list Z * option (list Z) :=
  match p with
  | [] => ([], None)
  | c :: p => if c =? SLASH then ([], Some (drop_slashes p)) else let '(name, next) := split_path p in (c :: name, next)
  end.

(** The result of a search: the node and its type, or the return value 0. *)
Definition found := option (node * Z).

(** The start of [ext4fs_find_file1], [loop] the rest of it: without a component,
    the node is the root and the type stays what the caller has. *)
Definition enter (loop : dstate -> list Z -> node -> node -> Z -> option (found * dstate))
    (s : dstate) (currpath : list Z) (currroot : node) (type : Z) : option (found * dstate) :=
  match drop_slashes currpath with
  | [] => Some (Some (currroot, type), s)
  | name => loop s name currroot currroot FILETYPE_DIRECTORY
  end.

Context (diropen : node).

(** The loop of [ext4fs_find_file1] over the components; [rounds] is the fuel of a
    directory, [k] the components and symbolic links there may be. *)
Fixpoint find_loop (k rounds : nat) (s : dstate) (name : list Z) (currroot currnode : node) (type : Z) : option (found * dstate) :=
  match k with
  | O => None
  | S k =>
    let '(comp, next) := split_path name in
    if negb (type =? FILETYPE_DIRECTORY) then s ← ext4fs_free_node s currnode currroot; Some (None, s) else
    let oldnode := currnode in
    '(r, s) ← ext4fs_iterate_dir rounds s currnode (Some comp);
    match i_found r with
    | None => Some (None, s)
    | Some (currnode, type) =>
      '(r, s, oldnode) ←
        (if type =? FILETYPE_SYMLINK then
           let s := set_nest s (d_nest s + 1) in
           if d_nest s =? 8 then
             s ← ext4fs_free_node s currnode currroot; s ← ext4fs_free_node s oldnode currroot; Some (None, s, oldnode)
           else
             '(symlink, s) ← ext4fs_read_symlink s currnode;
             s ← ext4fs_free_node s currnode currroot;
             match symlink with
             | None => s ← ext4fs_free_node s oldnode currroot; Some (None, s, oldnode)
             | Some symlink =>
               '(s, oldnode) ← (if bool_decide (head symlink = Some SLASH) then s ← ext4fs_free_node s oldnode currroot; Some (s, diropen) else Some (s, oldnode));
               '(r, s) ← enter (find_loop k rounds) s symlink oldnode type;
               match r with
               | None => s ← ext4fs_free_node s oldnode currroot; Some (None, s, oldnode)
               | Some _ => Some (r, s, oldnode)
               end
             end
         else Some (Some (currnode, type), s, oldnode));
      match r with
      | None => Some (None, s)
      | Some (currnode, type) =>
        s ← ext4fs_free_node s oldnode currroot;
        match next with
        | None | Some [] => Some (Some (currnode, type), s)
        | Some name => find_loop k rounds s name currroot currnode type
        end
      end
    end
  end.

(** [ext4fs_find_file] from the root: the node, if it has the expected type. *)
Definition ext4fs_find_file (k rounds : nat) (s : dstate) (path : list Z) (expecttype : Z) : option (Z * option node * dstate) :=
  '(r, s) ← enter (find_loop k rounds) (set_nest s 0) path diropen FILETYPE_DIRECTORY;
  match r with
  | None => Some (0, None, s)
  | Some (n, foundtype) =>
    if (expecttype =? FILETYPE_REG) && negb (foundtype =? expecttype) then Some (0, Some n, s)
    else if (expecttype =? FILETYPE_DIRECTORY) && negb (foundtype =? expecttype) then Some (0, Some n, s)
    else Some (1, Some n, s)
  end.

End Dir.

(** ** The mounted volume *)

(** [ext4fs_root] with the superblock and [diropen], [ext4fs_file], and the state of
    the search. *)
Record vol := { v_root : option (fs * node); v_file : option node; v_state : dstate }.

Section Vol.
(** The partition that [ext4fs_set_blk_dev] has set, whether an allocation succeeds,
    the fuel, and the contents of uninitialised buffers. *)
Context (d : partition) (alloc : Z -> bool) (fuel k rounds : nat) (junk : mem).

(** [ext4_read_superblock] *)
Definition ext4_read_superblock : Z * list Z :=
  fs_devread d (Z.shiftr SUPERBLOCK_START (log2blksz d)) (SUPERBLOCK_START mod blksz d) SUPERBLOCK_SIZE.

(** The file system that a superblock describes. *)
Definition sblock_fs (sb : list Z) : option fs :=
  revision_level ← le32 sb 76;
  '(inodesz, gdsize) ← (if revision_level =? 0 then Some (128, 32) else
    inode_size ← le16 sb 88; incompat ← le32 sb 96; descriptor_size ← le16 sb 254;
    Some (inode_size, if negb (Z.land incompat EXT4_FEATURE_INCOMPAT_64BIT =? 0) then descriptor_size else 32));
  log2 ← le32 sb 24; first ← le32 sb 20; per_group ← le32 sb 40;
  Some {| dev := d; log2_block_size := log2; first_data_block := first; inodes_per_group := per_group;
          inodesz := inodesz; gdsize := gdsize; zalloc := alloc |}.

(** [ext4fs_mount] *)
Definition ext4fs_mount (v : vol) : option (Z * vol) :=
  if negb (alloc SUPERBLOCK_SIZE) then Some (0, v) else
  let unmounted := {| v_root := None; v_file := v_file v; v_state := v_state v |} in
  let '(status, sb) := ext4_read_superblock in
  if status =? 0 then Some (0, unmounted) else
  magic ← le16 sb 56;
  if negb (magic =? EXT2_MAGIC) then Some (0, unmounted) else
  f ← sblock_fs sb;
  i ← ext4fs_read_inode f 2;
  match i with
  | None => Some (0, unmounted)
  | Some inode => Some (1, {| v_root := Some (f, {| n_id := 0; n_ino := 2; n_inode_read := true; n_inode := inode |}); v_file := v_file v; v_state := v_state v |})
  end.

(** [ext4fs_close] *)
Definition ext4fs_close (v : vol) : option vol :=
  '(file, s) ← match v_file v, v_root v with
    | Some n, Some (_, diropen) => s ← ext4fs_free_node (v_state v) n diropen; Some (None, s)
    | file, _ => Some (file, v_state v)
    end;
  Some {| v_root := None; v_file := file; v_state := set_caches s (ext4fs_reinit_global (d_caches s)) |}.

(** [ext4fs_probe] *)
Definition ext4fs_probe (v : vol) : option (Z * vol) :=
  '(ret, v) ← ext4fs_mount v;
  if ret =? 0 then v ← ext4fs_close v; Some (-1, v) else Some (0, v).

(** [ext4fs_free_node] of a pointer that may be NULL. *)
Definition free_opt (s : dstate) (n : option node) (diropen : node) : option dstate :=
  match n with Some n => ext4fs_free_node s n diropen | None => Some s end.

(** [ext4fs_open]: the return value and the length. *)
Definition ext4fs_open (v : vol) (filename : list Z) : option (Z * option Z * vol) :=
  match v_root v with
  | None => Some (-1, None, v)
  | Some (f, diropen) =>
    '(status, fdiro, s) ← ext4fs_find_file f fuel junk diropen k rounds (v_state v) filename FILETYPE_REG;
    let fail s := s ← free_opt s fdiro diropen; Some (-1, None, {| v_root := v_root v; v_file := None; v_state := s |}) in
    if status =? 0 then fail s else
    n ← fdiro;
    if negb (is_live s n) then None else
    i ← node_inode f n;
    match i with
    | None => fail s
    | Some inode =>
      size ← inode_size inode;
      Some (0, Some size, {| v_root := v_root v; v_file := Some {| n_id := n_id n; n_ino := n_ino n; n_inode_read := n_inode_read n; n_inode := inode |}; v_state := s |})
    end
  end.

Definition ext4fs_exists (v : vol) (filename : list Z) : option (bool * vol) :=
  '(ret, _, v) ← ext4fs_open v filename; Some (ret =? 0, v).

Definition ext4fs_size (v : vol) (filename : list Z) : option (Z * option Z * vol) := ext4fs_open v filename.

(** [ext4fs_read]: the return value, [actread] and the memory. *)
Definition ext4fs_read (v : vol) (m : mem) (buf offset len : Z) : option (Z * option Z * mem * vol) :=
  match v_root v, v_file v with
  | Some (f, _), Some n =>
    if negb (is_live (v_state v) n) then None else
    r ← ext4fs_read_file f fuel m (d_caches (v_state v)) (n_inode n) offset len buf;
    Some (rd_status r, rd_actread r, rd_mem r, {| v_root := v_root v; v_file := v_file v; v_state := set_caches (v_state v) (rd_caches r) |})
  | _, _ => Some (-1, None, m, v)
  end.

(** [ext4_read_file] *)
Definition ext4_read_file (v : vol) (m : mem) (filename : list Z) (buf offset len : Z) : option (Z * option Z * mem * vol) :=
  '(ret, file_len, v) ← ext4fs_open v filename;
  if ret <? 0 then Some (-1, None, m, v) else
  file_len ← file_len;
  ext4fs_read v m buf offset (if len =? 0 then file_len else len).

(** [ext4fs_ls]: the return value and what it prints. *)
Definition ext4fs_ls (v : vol) (dirname : list Z) : option (Z * list ls_line * vol) :=
  '(f, diropen) ← v_root v;
  '(status, dirnode, s) ← ext4fs_find_file f fuel junk diropen k rounds (v_state v) dirname FILETYPE_DIRECTORY;
  let upd s := {| v_root := v_root v; v_file := v_file v; v_state := s |} in
  if negb (status =? 1) then s ← free_opt s dirnode diropen; Some (1, [], upd s) else
  n ← dirnode;
  '(r, s) ← ext4fs_iterate_dir f fuel junk rounds s n None;
  s ← ext4fs_free_node s n diropen;
  Some (0, i_out r, upd s).

End Vol.

End Ext4Dir.
