(* ===== verification/Ext4Path.v ===== *)
(** * Ext4Path: what the search for a path finds

    The properties of the directory and path operations of [Ext4Dir]: a directory is
    a list of entries laid out in the contents of a file, a path is the list of its
    components, and opening and reading a file by its path delivers its contents.
    Files are what the bytes of the disk say ([stored], [inode_on_disk]): both kinds of
    files, with indirect blocks and with extents, implement the interface [serves], with
    which the search is proved. *)

From stdpp Require Import base list option.
From Stdlib Require Import ZifyBool.
From S2P Require Import Prelude Cmem Blk Ext4 Extents Ext4Dir.
Import Blk Ext4 Extents Ext4Dir.

Module Ext4Path.

(** ** Files as their contents *)

(** The reads of a file deliver [content] up to [size]. *)
Record serves (f : fs) (disk : mem) (fuel : nat) (inode : list Z) (size : Z) (content : Z -> Z) : Prop := {
  sv_size : inode_size inode = Some size;
  sv_range : 0 <= size < 2 ^ 31;
  sv_read : forall m cs pos len buf, caches_ok f disk cs -> 0 <= pos -> 0 < len -> pos + len <= size ->
    exists m' cs', ext4fs_read_file f fuel m cs inode pos len buf =
        Some {| rd_status := 0; rd_actread := Some len; rd_mem := m'; rd_caches := cs' |} /\ caches_ok f disk cs' /\
      (forall j, 0 <= j < len -> ld m' (buf + j) = content (pos + j)) /\
      (forall a, a < buf \/ buf + len + EXT2_BLOCK_SIZE f <= a -> ld m' a = ld m a)
}.

Section Serve.
Context (f : fs) (disk : mem) (Hv : volume f disk).

Let bs := EXT2_BLOCK_SIZE f.

Lemma bs_pos : 0 < bs.
Proof. destruct Hv as [Hg Hl Hl2 _]. destruct (sizes f disk Hg Hl Hl2) as (_ & _ & _ & _ & _ & H). subst bs. lia. Qed.

(** A range of the file is in its blocks. *)
Lemma range_blocks size pos len i : 0 <= pos -> 0 < len -> pos + len <= size -> pos / bs <= i < (len + pos + bs - 1) / bs ->
  0 <= i < (size + bs - 1) / bs.
Proof.
  intros H1 H2 H3 Hi. pose proof bs_pos. pose proof (Z.div_pos pos bs ltac:(lia) ltac:(lia)).
  pose proof (Z.div_le_mono (len + pos + bs - 1) (size + bs - 1) bs ltac:(lia) ltac:(lia)). lia.
Qed.

Lemma reach_near bm pos len : 0 <= pos -> 0 < len -> reach f bm pos len <= len + bs.
Proof.
  intros Hp Hlen. pose proof bs_pos as Hb. unfold reach, from. fold bs. set (cnt := (len + pos + bs - 1) / bs).
  pose proof (Z.mul_div_le (len + pos + bs - 1) bs Hb) as Hm. fold cnt in Hm. assert (bs * (cnt - 1) <= len + pos - 1) as Hc by lia.
  destruct (bm (cnt - 1) =? 0); [|lia]. destruct (cnt - 1 =? pos / bs); lia.
Qed.

(** A file whose blocks are found serves its contents. *)
Lemma map_serves bm fuel inode size : inode_size inode = Some size -> 0 <= size < 2 ^ 31 ->
  (forall cs i, caches_ok f disk cs -> 0 <= i < (size + bs - 1) / bs ->
    exists cs', read_allocated_block f fuel cs inode i = Some (bm i, cs') /\ caches_ok f disk cs') ->
  (forall i, 0 <= i < (size + bs - 1) / bs -> bm i = 0 \/ valid f (bm i)) ->
  (forall i, 0 <= i < (size + bs - 1) / bs - 1 -> bm i <> 0 -> bm (i + 1) <> bm i) ->
  serves f disk fuel inode size (ld (fmem f disk bm)).
Proof.
  intros Hsz Hr Hmap Hblk Hd. split; [exact Hsz|exact Hr|]. intros m cs pos len buf Hcs Hp Hl He. pose proof (fun i => range_blocks size pos len i Hp Hl He) as Hb.
  pose proof Hv as [Hg Hlog Hlog2 _]. fold bs in Hb.
  destruct (reads_file f disk Hg Hlog Hlog2 bm fuel inode pos len buf m Hp Hl ltac:(lia)) with (cs := cs) (filesize := size) as (m' & cs' & E & Hcs' & H1 & H2); fold bs.
  - intros cs1 i Hcs1 Hi. apply Hmap; auto.
  - intros i Hi. apply Hblk; auto.
  - intros i Hi. pose proof (Hb i ltac:(lia)). pose proof (Hb (i + 1) ltac:(lia)). apply Hd. lia.
  - exact Hcs.
  - exact Hsz.
  - exact He.
  - exists m', cs'. split; [exact E|]. split; [exact Hcs'|]. split.
    + intros j Hj. rewrite <- (H1 (pos + j)) by lia. f_equal. lia.
    + intros a Ha. apply H2. pose proof (reach_near bm pos len Hp Hl). pose proof bs_pos. fold bs in Ha. lia.
Qed.

(** Both kinds of files implement the interface. *)
Lemma indirect_serves fuel inode size : inode_size inode = Some size -> 0 <= size < 2 ^ 31 ->
  file_ok f disk inode 0 ((size + bs - 1) / bs) -> serves f disk fuel inode size (file_byte f disk inode).
Proof.
  intros Hsz Hr Hok. pose proof Hv as [Hg Hl Hl2 Hz]. apply map_serves; [exact Hsz|exact Hr|apply (file_map f disk Hg Hl Hl2 Hz fuel inode _ _ Hok)| |exact (ok_distinct _ _ _ _ _ Hok)].
  intros i Hi. destruct (ok_block _ _ _ _ _ Hok i Hi) as [|[ ] ]; auto.
Qed.

Lemma extents_serve fuel inode size d hi l : inode_size inode = Some size -> 0 <= size < 2 ^ 31 -> (d < fuel)%nat ->
  extent_file f disk inode d hi l 0 ((size + bs - 1) / bs) -> serves f disk fuel inode size (ld (fmem f disk (extent_map l))).
Proof.
  intros Hsz Hr Hf Hok. apply map_serves; [exact Hsz|exact Hr|apply (extents_map f disk fuel inode d hi l _ _ Hv Hf Hok)| |exact (xf_distinct _ _ _ _ _ _ _ _ Hok)].
  intros i Hi. destruct (xf_block _ _ _ _ _ _ _ _ Hok i Hi) as [|[ ] ]; auto.
Qed.

End Serve.

(** ** Files and inodes on the disk *)

(** The contents of the file that the 128 bytes of an inode describe: through blocks and indirect blocks, or through a
    tree of extents, all of them in the partition. *)
Inductive stored (f : fs) (disk : mem) (fuel : nat) (inode : list Z) (size : Z) : (Z -> Z) -> Prop :=
| stored_indirect : le32 inode 4 = Some size -> 0 <= size < 2 ^ 31 ->
    file_ok f disk inode 0 ((size + EXT2_BLOCK_SIZE f - 1) / EXT2_BLOCK_SIZE f) -> stored f disk fuel inode size (file_byte f disk inode)
| stored_extents d hi l : le32 inode 4 = Some size -> 0 <= size < 2 ^ 31 -> (d < fuel)%nat ->
    extent_file f disk inode d hi l 0 ((size + EXT2_BLOCK_SIZE f - 1) / EXT2_BLOCK_SIZE f) ->
    stored f disk fuel inode size (ld (fmem f disk (extent_map l))).

Lemma stored_serves f disk fuel inode size content : volume f disk -> stored f disk fuel inode size content -> serves f disk fuel inode size content.
Proof. intros Hv [Hsz Hr Hok|d hi l Hsz Hr Hd Hok]; [by apply indirect_serves|by apply (extents_serve f disk Hv fuel inode size d hi l)]. Qed.

Section Inodes.
Context (f : fs) (disk : mem).

Let bs := EXT2_BLOCK_SIZE f.

(** Descriptors and inodes fill their blocks, and inodes the blocks of their group. *)
Record geometry : Prop := {
  ge_first : 0 <= first_data_block f;
  ge_gd : 12 <= gdsize f /\ bs mod gdsize f = 0;
  ge_inodesz : 128 <= inodesz f /\ bs mod inodesz f = 0;
  ge_per_group : 0 < inodes_per_group f /\ inodes_per_group f mod (bs / inodesz f) = 0
}.

(** A word of the partition, where the descriptor of group [g] is, its table of inodes, and where inode [ino] is. *)
Definition pword (a : Z) : Z := ld32 disk (start (dev f) * blksz (dev f) + a).
Definition desc_at (g : Z) : Z := (first_data_block f + 1) * bs + g * gdsize f.
Definition inode_table (g : Z) : Z := pword (desc_at g + 8) + (if gdsize f =? 64 then 2 ^ 32 * pword (desc_at g + 40) else 0).
Definition inode_at (ino : Z) : Z :=
  inode_table ((ino - 1) / inodes_per_group f) * bs + (ino - 1) mod inodes_per_group f * inodesz f.

(** The bytes of an inode, in the table of its group; descriptor and inode are in blocks of the partition. *)
Record inode_on_disk (ino : Z) (inode : list Z) : Prop := {
  io_geometry : geometry;
  io_range : 1 <= ino < 2 ^ 31;
  io_desc : in_part f (desc_at ((ino - 1) / inodes_per_group f) / bs) /\ desc_at ((ino - 1) / inodes_per_group f) / bs < 2 ^ 31;
  io_table : in_part f (inode_at ino / bs) /\ inode_at ino / bs < 2 ^ 31;
  io_bytes : inode = pbytes (dev f) disk (inode_at ino) 128
}.

Context (Hv : volume f disk).

(** A read of a part of one block. *)
Lemma read_part b off len : in_part f b -> 0 <= off -> 0 < len -> off + len <= bs ->
  ext4fs_devread f (u32 (Z.shiftl b (log2_blksz f))) off len = (1, pbytes (dev f) disk (b * bs + off) len).
Proof.
  intros Hb Ho Hl Hle. pose proof Hv as [Hg Hlog Hlog2 _]. destruct (sizes f disk Hg Hlog Hlog2) as (HB & Hs & Ebs & H20 & _). fold bs in Ebs, H20.
  destruct (sector_small f disk Hg Hlog Hlog2 b Hb) as [Es _]. unfold sector in Es. rewrite Es. destruct Hb as [Hb Hi].
  unfold ext4fs_devread. rewrite (devread_reads (dev f) disk Hg) by nia. do 2 f_equal. nia.
Qed.

(** [q] pieces of [n] bytes fill a block: piece [i] is in block [i / q]. *)
Lemma piece i n q : 0 < n -> 0 < q -> bs = q * n -> 0 <= i -> i / q * bs + i mod q * n = i * n /\ 0 <= i mod q * n /\ i mod q * n + n <= bs.
Proof. intros Hn Hq Eb Hi. pose proof (Z.div_mod i q ltac:(lia)). pose proof (Z.mod_pos_bound i q Hq). split_and!; nia. Qed.

(** The block and the place in it. *)
Lemma piece_block a i n q : 0 < n -> 0 < q -> bs = q * n -> 0 <= i -> (a * bs + i * n) / bs = a + i / q.
Proof.
  intros Hn Hq Eb Hi. destruct (piece i n q Hn Hq Eb Hi) as (E & H1 & H2). symmetry. apply Z.div_unique with (i mod q * n); [lia|]. nia.
Qed.

Lemma blockgroup_reads g : geometry -> 0 <= g < 2 ^ 31 -> in_part f (desc_at g / bs) -> desc_at g / bs < 2 ^ 31 ->
  ext4fs_blockgroup f g = Some (1, pbytes (dev f) disk (desc_at g) (gdsize f)).
Proof.
  intros [Hf [Hgd Ed] _ _] Hg Hin H31. pose proof Hv as [Hgo Hlog Hlog2 _]. destruct (sizes f disk Hgo Hlog Hlog2) as (_ & _ & _ & H20 & _ & H4). fold bs in H20, H4.
  unfold ext4fs_blockgroup. fold bs. set (q := bs / gdsize f) in *. assert (bs = q * gdsize f) as Eq by (pose proof (Z.div_mod bs (gdsize f) ltac:(lia)); subst q; lia).
  assert (0 < q) as Hq by nia. replace (q =? 0) with false by lia. rewrite (u32_small g) by lia. destruct (piece g (gdsize f) q ltac:(lia) Hq Eq ltac:(lia)) as (E & H1 & H2).
  pose proof (piece_block (first_data_block f + 1) g (gdsize f) q ltac:(lia) Hq Eq ltac:(lia)) as Eb. fold (desc_at g) in Eb. rewrite Eb in Hin, H31.
  pose proof (Z.div_pos g q ltac:(lia) Hq). rewrite (sgn_small (first_data_block f + 1 + g / q)), (u32_small (_ * _)), sgn_small by lia.
  rewrite read_part by (done || lia). do 3 f_equal. unfold desc_at. lia.
Qed.

Lemma read_inode_reads ino inode : inode_on_disk ino inode -> ext4fs_read_inode f ino = Some (Some inode).
Proof.
  intros [Hge Hr [Hd1 Hd2] [Ht1 Ht2] ->]. pose proof Hge as [Hf [Hgd Ed] [Hsz Ei] [Hp Ep] ]. pose proof Hv as [Hgo Hlog Hlog2 _].
  destruct (sizes f disk Hgo Hlog Hlog2) as (_ & _ & _ & H20 & _ & H4). fold bs in H20, H4. unfold ext4fs_read_inode. fold bs.
  rewrite (sgn_small (ino - 1)), (u32_small (ino - 1)) by lia. set (i := ino - 1) in *. assert (0 <= i < 2 ^ 31) as Hi by (subst i; lia). replace (inodes_per_group f =? 0) with false by lia.
  pose proof (Z.div_pos i (inodes_per_group f) ltac:(lia) Hp). pose proof (Z.div_le_upper_bound i (inodes_per_group f) i Hp ltac:(nia)).
  rewrite (sgn_small (i / inodes_per_group f)), blockgroup_reads by (done || lia). cbn [mbind option_bind Z.eqb Pos.eqb].
  set (q := bs / inodesz f) in *. assert (bs = q * inodesz f) as Eq by (pose proof (Z.div_mod bs (inodesz f) ltac:(lia)); subst q; lia). assert (0 < q) as Hq by nia.
  replace (q =? 0) with false by lia. set (g := i / inodes_per_group f) in *. set (j := i mod inodes_per_group f) in *.
  assert (0 <= j) as Hj by (apply Z.mod_pos_bound; lia).
  assert (ext4fs_bg_get_inode_table_id f (pbytes (dev f) disk (desc_at g) (gdsize f)) = Some (inode_table g)) as ->.
  { unfold ext4fs_bg_get_inode_table_id, inode_table, pword. rewrite (le32_pbytes f disk _ _ 8) by lia. cbn [mbind option_bind]. rewrite !Z.add_assoc.
    destruct (Z.eqb_spec (gdsize f) 64) as [E64|]; [|f_equal; lia]. rewrite le32_pbytes by lia. cbn [mbind option_bind]. f_equal.
    pose proof (ld32_range disk (start (dev f) * blksz (dev f) + desc_at g + 8)). pose proof (ld32_range disk (start (dev f) * blksz (dev f) + desc_at g + 40)).
    rewrite Z.shiftl_mul_pow2 by lia. rewrite u64_small by lia. lia. }
  cbn [mbind option_bind]. destruct (piece j (inodesz f) q ltac:(lia) Hq Eq Hj) as (E & H1 & H2).
  pose proof (piece_block (inode_table g) j (inodesz f) q ltac:(lia) Hq Eq Hj) as Eb. change (inode_table g * bs + j * inodesz f) with (inode_at ino) in Eb. rewrite Eb in Ht1, Ht2.
  assert (Z.rem i q = j mod q) as ->.
  { rewrite Z.rem_mod_nonneg by lia. unfold j. symmetry. apply Z.mod_mod_divide. by apply Z.mod_divide; [lia|]. }
  destruct Ht1 as [Ht0 Ht1]. rewrite (sgn_small (inode_table g + j / q)), (u32_small (_ * _)), sgn_small by lia.
  rewrite read_part by (done || lia). cbn [Z.eqb Pos.eqb]. do 3 f_equal. change (inode_at ino) with (inode_table g * bs + j * inodesz f). lia.
Qed.

End Inodes.

(** ** Directories as lists of entries *)

Record entry := { e_ino : Z; e_len : Z; e_type : Z; e_name : list Z }.

Definition part (content : Z -> Z) (pos : Z) (n : nat) : list Z := map (fun j => content (pos + Z.of_nat j)) (seq 0 n).

Lemma part_length content pos n : length (part content pos n) = n.
Proof. unfold part. rewrite length_map. apply length_seq. Qed.

(** The entry is at [pos] of the contents: its header, and its name where there is room. *)
Definition entry_at (content : Z -> Z) (pos : Z) (e : entry) : Prop :=
  le32 (part content pos 8) 0 = Some (e_ino e) /\ le16 (part content pos 8) 4 = Some (e_len e) /\
  le8 (part content pos 8) 6 = Some (Z.of_nat (length (e_name e))) /\ le8 (part content pos 8) 7 = Some (e_type e) /\
  part content (pos + 8) (length (e_name e)) = e_name e /\ Forall (fun c => c <> 0) (e_name e) /\
  8 + Z.of_nat (length (e_name e)) <= e_len e /\ (e_name e <> [] -> e_type e <> FILETYPE_UNKNOWN).

(** The entries fill the directory from [pos] on. *)
Fixpoint dir_at (content : Z -> Z) (pos size : Z) (l : list entry) : Prop :=
  match l with
  | [] => pos = size
  | e :: l => entry_at content pos e /\ pos + e_len e <= size /\ dir_at content (pos + e_len e) size l
  end.

(** The first entry with the name. *)
Fixpoint find_entry (l : list entry) (name : list Z) : option entry :=
  match l with
  | [] => None
  | e :: l => if bool_decide (e_name e = name) then Some e else find_entry l name
  end.

(** Node numbers are given out in order, from 1 on. *)
Definition nodes_wf (s : dstate) : Prop := (0 < d_fresh s)%nat /\ Forall (fun i => i < d_fresh s)%nat (d_live s) /\ NoDup (d_live s).

Lemma filter_absent (l : list nat) i : i ∉ l -> filter (.≠ i) l = l.
Proof.
  induction l as [|j l IH]; intros Hi; [reflexivity|]. apply not_elem_of_cons in Hi as [Hj Hi].
  rewrite filter_cons_True by (intros ->; contradiction). rewrite IH by exact Hi. reflexivity.
Qed.

Lemma fresh_absent (l : list nat) i : Forall (fun j => j < i)%nat l -> i ∉ l.
Proof. intros H Hi. rewrite Forall_forall in H. specialize (H i). cbn in H. rewrite list_elem_of_In in Hi. specialize (H Hi). lia. Qed.

(** A node that is allocated and freed again leaves the live ones. *)
Lemma alloc_free s : nodes_wf s -> free_id (alloc_id s).2 (d_fresh s) = Some (set_live (alloc_id s).2 (d_live s)).
Proof.
  intros (_ & Hl & _). unfold free_id, alloc_id. cbn [snd d_live set_live]. rewrite bool_decide_true by left. do 2 f_equal.
  rewrite filter_cons_False by (intros H; apply H; reflexivity). apply filter_absent, fresh_absent, Hl.
Qed.

Lemma c_string_id l : Forall (fun c => c <> 0) l -> c_string l = l.
Proof. induction 1 as [|c l Hc Hl IH]; [reflexivity|]. cbn. replace (c =? 0) with false by lia. rewrite IH. reflexivity. Qed.

Lemma bytes_part m content pos n : (forall j, 0 <= j < Z.of_nat n -> ld m (0 + j) = content (pos + j)) -> bytes m 0 n = part content pos n.
Proof.
  intros H. apply list_eq_same_length with n; [apply part_length|apply length_bytes|].
  intros i x y Hi Hx Hy. rewrite bytes_lookup in Hx by lia. injection Hx as <-. unfold part in Hy. rewrite list_lookup_fmap, lookup_seq_lt in Hy by lia.
  injection Hy as <-. rewrite H by lia. reflexivity.
Qed.

(** ** Paths as lists of components *)

Fixpoint words (p : list Z) : list (list Z) :=
  match p with
  | [] => [ [] ]
  | c :: p => if c =? SLASH then [] :: words p else match words p with w :: ws => (c :: w) :: ws | [] => [ [c] ] end
  end.

(** The components of a path: the words between its slashes. *)
Definition components (p : list Z) : list (list Z) := filter (.≠ []) (words p).

(** A path that does not start with a slash. *)
Definition relative (p : list Z) : Prop := exists c p', p = c :: p' /\ c <> SLASH.

Lemma components_drop p : components (drop_slashes p) = components p.
Proof.
  induction p as [|c p IH]; [reflexivity|]. cbn [drop_slashes]. destruct (Z.eqb_spec c SLASH) as [->|]; [|reflexivity]. exact IH.
Qed.

Lemma drop_slashes_relative p : drop_slashes p = [] \/ relative (drop_slashes p).
Proof.
  induction p as [|c p IH]; [left; reflexivity|]. cbn [drop_slashes]. destruct (Z.eqb_spec c SLASH); [exact IH|]. right. exists c, p. auto.
Qed.

Lemma split_words p : match split_path p with
  | (comp, None) => words p = [comp]
  | (comp, Some q) => exists p', words p = comp :: words p' /\ q = drop_slashes p'
  end.
Proof.
  induction p as [|c p IH]; [reflexivity|]. cbn [split_path words]. destruct (Z.eqb_spec c SLASH); [eauto|].
  destruct (split_path p) as [comp [q|] ].
  - destruct IH as (p' & -> & ->). eauto.
  - rewrite IH. reflexivity.
Qed.

Lemma split_components p : relative p -> exists comp next, split_path p = (comp, next) /\ comp <> [] /\
  components p = comp :: default [] (components <$> next) /\ (forall q, next = Some q -> q = [] \/ relative q).
Proof.
  intros (c & p' & -> & Hc). pose proof (split_words (c :: p')) as H. cbn [split_path] in *. replace (c =? SLASH) with false in * by lia.
  destruct (split_path p') as [comp next]. exists (c :: comp), next. split; [reflexivity|]. split; [discriminate|]. unfold components at 1. destruct next as [q|].
  - destruct H as (p2 & -> & ->). split.
    + rewrite filter_cons_True by discriminate. cbn. f_equal. symmetry. apply components_drop.
    + intros q [= <-]. apply drop_slashes_relative.
  - rewrite H. split; [reflexivity|]. intros q [=].
Qed.

Section Find.
Context (f : fs) (disk : mem) (fuel : nat) (junk : mem).
Context (Hv : volume f disk).

(** A read of a served file into a local buffer. *)
Lemma serves_local inode size content cs pos n : serves f disk fuel inode size content -> caches_ok f disk cs -> 0 <= pos -> (0 < n)%nat -> pos + Z.of_nat n <= size ->
  exists r, read_local f fuel cs inode pos (Z.of_nat n) junk = Some r /\ rd_status r = 0 /\ caches_ok f disk (rd_caches r) /\ bytes (rd_mem r) 0 n = part content pos n.
Proof.
  intros Hs Hcs Hp Hn He. destruct (sv_read _ _ _ _ _ _ Hs junk cs pos (Z.of_nat n) 0 Hcs Hp ltac:(lia) He) as (m' & cs' & E & Hcs' & Hb & _).
  eexists. split; [exact E|]. split; [reflexivity|]. split; [exact Hcs'|]. apply bytes_part. exact Hb.
Qed.

(** What a scan of the entries leaves behind. *)
Definition scanned (s s' : dstate) (live : list nat) : Prop :=
  caches_ok f disk (d_caches s') /\ d_nest s' = d_nest s /\ d_live s' = live /\ (d_fresh s <= d_fresh s')%nat.

(** [ext4fs_iterate_dir] finds the first entry with the name. *)
Lemma dir_loop_finds inode size content name : serves f disk fuel inode size content -> name <> [] ->
  forall l k pos s out, dir_at content pos size l -> 0 <= pos -> (length l < k)%nat -> caches_ok f disk (d_caches s) -> nodes_wf s ->
  exists r s', dir_loop f fuel junk k s inode (Some name) pos out = Some (r, s') /\
    match find_entry l name with
    | None => i_found r = None /\ scanned s s' (d_live s)
    | Some e => exists id, i_found r = Some ({| n_id := id; n_ino := e_ino e; n_inode_read := false; n_inode := replicate 128 0 |}, type_of_entry (e_type e)) /\
        scanned s s' (id :: d_live s) /\ (d_fresh s <= id < d_fresh s')%nat
    end.
Proof.
  intros Hs Hname. pose proof (sv_size _ _ _ _ _ _ Hs) as Hsz. pose proof (sv_range _ _ _ _ _ _ Hs) as Hr.
  induction l as [|e l IH]; intros k pos s out Hat Hpos Hk Hcs Hwf; (destruct k as [|k]; [cbn in Hk; lia|]); cbn [dir_loop find_entry]; rewrite Hsz; cbn [mbind option_bind].
  - cbn in Hat. replace (size <=? pos) with true by lia. eexists _, s. split; [reflexivity|]. split; [reflexivity|]. unfold scanned. split_and!; [exact Hcs|reflexivity..|lia].
  - destruct Hat as ((Hino & Hlen & Hnl & Hty & Hnm & Hnz & H8 & Hknown) & Hin & Hat). replace (size <=? pos) with false by lia.
    destruct (serves_local inode size content (d_caches s) pos 8 Hs Hcs Hpos ltac:(lia) ltac:(lia)) as (r & Er & Hst & Hcs1 & Hb).
    change (Z.of_nat 8) with 8 in Er. rewrite Er. cbn [mbind option_bind]. rewrite Hst. cbn [Z.ltb Z.compare]. rewrite Hb, Hino. cbn [mbind option_bind]. rewrite Hlen. cbn [mbind option_bind].
    rewrite Hnl. cbn [mbind option_bind]. rewrite Hty. cbn [mbind option_bind]. replace (e_len e =? 0) with false by lia.
    rewrite (u32_small (pos + e_len e)) by lia. set (s1 := set_caches s (rd_caches r)) in *.
    assert (nodes_wf s1) as Hwf1 by exact Hwf. destruct (decide (e_name e = [])) as [En|En].
    + rewrite En. cbn [length Z.of_nat Z.eqb]. rewrite bool_decide_false by congruence.
      apply (IH k (pos + e_len e) s1 out Hat ltac:(lia) ltac:(cbn in Hk; lia) Hcs1 Hwf1).
    + assert (0 < length (e_name e))%nat as Hl0 by (destruct (e_name e); [contradiction|cbn; lia]).
      replace (Z.of_nat (length (e_name e)) =? 0) with false by lia. rewrite (u32_small (pos + 8)) by lia.
      destruct (serves_local inode size content (d_caches s1) (pos + 8) (length (e_name e)) Hs Hcs1 ltac:(lia) Hl0 ltac:(lia)) as (r2 & -> & Hst2 & Hcs2 & Hb2).
      cbn [mbind option_bind]. rewrite Hst2. cbn [Z.ltb Z.compare]. rewrite (vol_zalloc _ _ Hv). cbn [negb]. set (s2 := set_caches s1 (rd_caches r2)) in *.
      assert (nodes_wf s2) as Hwf2 by exact Hwf. rewrite Nat2Z.id, Hb2, Hnm, (c_string_id _ Hnz).
      destruct (alloc_id s2) as [id s3] eqn:Ea. rewrite (proj2 (Z.eqb_neq _ _) (Hknown En)). cbn [negb mbind option_bind].
      pose proof (alloc_free s2 Hwf2) as Hfree. rewrite Ea in Hfree. cbn [snd] in Hfree. injection Ea as <- <-.
      destruct (bool_decide (e_name e = name)).
      * eexists _, _. split; [reflexivity|]. eexists. split; [reflexivity|]. unfold scanned. cbn. split; [split_and!; [exact Hcs2|reflexivity..|lia]|lia].
      * change (d_fresh s2) with (d_fresh s) in Hfree. rewrite Hfree. cbn [mbind option_bind].
        destruct (IH k (pos + e_len e) (set_live (alloc_id s2).2 (d_live s2)) out Hat ltac:(lia) ltac:(cbn in Hk; lia) Hcs2) as (r' & s' & E' & Hres).
        { destruct Hwf as (H0 & H1 & H2). split; [cbn; lia|]. split; [|exact H2]. cbn. eapply Forall_impl; [|exact H1]. cbn. lia. }
        exists r', s'. split; [exact E'|]. unfold scanned in *. cbn in Hres. destruct (find_entry l name); [|intuition lia].
        destruct Hres as (id & ? & (? & ? & ? & ?) & ?). exists id. split_and!; assumption || lia.
Qed.

(** *** The search *)

Context (rounds : nat).

(** A directory with the given entries. *)
Definition dir_inode (inode : list Z) (l : list entry) : Prop :=
  (length l < rounds)%nat /\ exists size content, stored f disk fuel inode size content /\ dir_at content 0 size l.

(** What a list of names stands for from a directory, where no link is on the way:
    the number and the type of an inode, or nothing. *)
Inductive resolves : list Z -> list (list Z) -> option (Z * Z) -> Prop :=
| resolves_last inode l name e : dir_inode inode l -> find_entry l name = Some e -> type_of_entry (e_type e) <> FILETYPE_SYMLINK ->
    resolves inode [name] (Some (e_ino e, type_of_entry (e_type e)))
| resolves_step inode l name e inode' names r : dir_inode inode l -> find_entry l name = Some e -> e_type e = FILETYPE_DIRECTORY ->
    inode_on_disk f disk (e_ino e) inode' -> resolves inode' names r -> resolves inode (name :: names) r
| resolves_missing inode l name names : dir_inode inode l -> find_entry l name = None -> resolves inode (name :: names) None
| resolves_file inode l name e name' names : dir_inode inode l -> find_entry l name = Some e -> type_of_entry (e_type e) <> FILETYPE_SYMLINK ->
    type_of_entry (e_type e) <> FILETYPE_DIRECTORY -> resolves inode (name :: name' :: names) None.

(** The node a search has in its hands, besides the nodes [live]. *)
Definition at_node (s : dstate) (n : node) (live : list nat) : Prop :=
  if (n_id n =? 0)%nat then d_live s = live else d_live s = n_id n :: live.

Lemma at_node_live s n live : at_node s n live -> is_live s n = true.
Proof.
  unfold at_node, is_live. destruct (n_id n =? 0)%nat; [reflexivity|]. intros ->. apply bool_decide_true. left.
Qed.

Lemma iterate_finds s n live inode l name : nodes_wf s -> caches_ok f disk (d_caches s) -> at_node s n live -> node_inode f n = Some (Some inode) -> dir_inode inode l -> name <> [] ->
  exists r s', ext4fs_iterate_dir f fuel junk rounds s n (Some name) = Some (r, s') /\ nodes_wf s' /\ caches_ok f disk (d_caches s') /\
    match find_entry l name with
    | None => i_found r = None /\ d_live s' = d_live s
    | Some e => exists id, i_found r = Some ({| n_id := id; n_ino := e_ino e; n_inode_read := false; n_inode := replicate 128 0 |}, type_of_entry (e_type e)) /\
        d_live s' = id :: d_live s /\ id <> 0%nat
    end.
Proof.
  intros Hwf Hcs Hn Hi (Hk & size & content & Hst & Hat) Hname. pose proof (stored_serves _ _ _ _ _ _ Hv Hst) as Hs. unfold ext4fs_iterate_dir. rewrite (at_node_live s n live Hn). cbn [negb]. rewrite Hi. cbn [mbind option_bind].
  destruct (dir_loop_finds inode size content name Hs Hname l rounds 0 s [] Hat ltac:(lia) Hk Hcs Hwf) as (r & s' & -> & Hres). exists r, s'. split; [reflexivity|].
  destruct Hwf as (H0 & H1 & H2). unfold scanned in Hres. destruct (find_entry l name) as [e|].
  - destruct Hres as (id & Hr & (Hc & Hnest & Hl & Hf) & Hid). split; [|split; [exact Hc|exists id; split; [exact Hr|split; [exact Hl|lia] ] ] ].
    rewrite Forall_lookup in H1. split; [lia|]. rewrite Hl. split.
    + constructor; [lia|]. apply Forall_lookup. intros i j Hj. specialize (H1 i j Hj). cbn in H1. lia.
    + constructor; [|exact H2]. intros Hin. apply list_elem_of_lookup in Hin as [i Hin]. specialize (H1 i id Hin). cbn in H1. lia.
  - destruct Hres as (Hr & Hc & Hnest & Hl & Hf). split; [|split; [exact Hc|split; [exact Hr|exact Hl] ] ].
    split; [lia|]. rewrite Hl. split; [|exact H2]. eapply Forall_impl; [|exact H1]. cbn. lia.
Qed.

Lemma free_second s id old live : d_live s = id :: old :: live -> nodes_wf s -> free_id s old = Some (set_live s (id :: live)) /\ nodes_wf (set_live s (id :: live)).
Proof.
  intros Hl (H0 & H1 & H2). rewrite Hl in H1, H2. inversion H2 as [|? ? Hid H3]; subst. inversion H3 as [|? ? Hold H4]; subst. clear H2.
  apply Forall_cons_iff in H1 as [Hi H1]. apply Forall_cons_iff in H1 as [Ho H1].
  unfold free_id. rewrite Hl, bool_decide_true by (right; left). split.
  - do 2 f_equal. rewrite filter_cons_True by (intros ->; apply Hid; left). rewrite filter_cons_False by (intros H; apply H; reflexivity). f_equal.
    apply filter_absent. exact Hold.
  - split; [exact H0|]. cbn. split; [constructor; assumption|]. constructor; [|exact H4]. intros H. apply Hid. right. exact H.
Qed.

Context (diropen : node) (Hroot : n_id diropen = 0%nat).

(** The node that is left behind is freed, unless it is the root. *)
Lemma free_old s n id live : d_live s = id :: (if (n_id n =? 0)%nat then live else n_id n :: live) -> nodes_wf s ->
  exists s', ext4fs_free_node s n diropen = Some s' /\ d_live s' = id :: live /\ nodes_wf s' /\ d_caches s' = d_caches s.
Proof.
  intros Hl Hwf. unfold ext4fs_free_node. rewrite Hroot. destruct (n_id n =? 0)%nat; cbn [orb]; [eauto|].
  destruct (free_second s id (n_id n) live Hl Hwf) as [-> Hwf']. eauto.
Qed.

Lemma free_last s n id live : n_id n = id -> id <> 0%nat -> d_live s = id :: live -> nodes_wf s ->
  exists s', ext4fs_free_node s n diropen = Some s' /\ d_live s' = live /\ d_caches s' = d_caches s /\ nodes_wf s'.
Proof.
  intros <- Hid Hl (H0 & H1 & H2). unfold ext4fs_free_node. rewrite Hroot. replace (n_id n =? 0)%nat with false by lia. cbn [orb]. unfold free_id.
  rewrite Hl in *. inversion H2 as [|? ? Hid' H3]; subst. apply Forall_cons_iff in H1 as [_ H1].
  rewrite bool_decide_true by left. rewrite filter_cons_False by (intros H; apply H; reflexivity).
  rewrite filter_absent by exact Hid'. eexists. split; [reflexivity|]. cbn. split_and!; [reflexivity..|]. split; [exact H0|]. split; assumption.
Qed.

(** The nodes a search that fails leaves behind: the directory where a name is
    missing is not freed. *)
Definition outcome (s' : dstate) (live : list nat) (r : found) (out : option (Z * Z)) : Prop :=
  match out with
  | Some (ino, type) => exists id, r = Some ({| n_id := id; n_ino := ino; n_inode_read := false; n_inode := replicate 128 0 |}, type) /\ id <> 0%nat /\ d_live s' = id :: live
  | None => r = None /\ exists lost, d_live s' = lost ++ live /\ (length lost <= 1)%nat
  end.

Definition entry_node (id : nat) (ino : Z) : node := {| n_id := id; n_ino := ino; n_inode_read := false; n_inode := replicate 128 0 |}.

(** One component that is not a link. *)
Lemma find_step k name n s live inode l comp next e : split_path name = (comp, next) -> comp <> [] -> nodes_wf s -> caches_ok f disk (d_caches s) ->
  at_node s n live -> node_inode f n = Some (Some inode) -> dir_inode inode l -> find_entry l comp = Some e -> type_of_entry (e_type e) <> FILETYPE_SYMLINK ->
  exists id s1, nodes_wf s1 /\ caches_ok f disk (d_caches s1) /\ d_live s1 = id :: live /\ id <> 0%nat /\
    find_loop f fuel junk diropen (S k) rounds s name diropen n FILETYPE_DIRECTORY =
    match next with
    | None | Some [] => Some (Some (entry_node id (e_ino e), type_of_entry (e_type e)), s1)
    | Some q => find_loop f fuel junk diropen k rounds s1 q diropen (entry_node id (e_ino e)) (type_of_entry (e_type e))
    end.
Proof.
  intros Esp Hne Hwf Hcs Hn Hi Hd He Hsym. cbn [find_loop]. rewrite Esp. cbn [Z.eqb Pos.eqb FILETYPE_DIRECTORY negb].
  destruct (iterate_finds s n live inode l comp Hwf Hcs Hn Hi Hd Hne) as (r0 & s1 & -> & Hwf1 & Hcs1 & Hf). rewrite He in Hf.
  destruct Hf as (id & Er & Hl & Hid). cbn [mbind option_bind]. rewrite Er. rewrite (proj2 (Z.eqb_neq _ _) Hsym). cbn [mbind option_bind].
  destruct (free_old s1 n id live) as (s2 & -> & Hl2 & Hwf2 & Ec2); [rewrite Hl; f_equal; unfold at_node in Hn; destruct (n_id n =? 0)%nat; exact Hn|exact Hwf1|].
  exists id, s2. rewrite Ec2. split_and!; [exact Hwf2|exact Hcs1|exact Hl2|exact Hid|]. cbn [mbind option_bind]. reflexivity.
Qed.

Lemma relative_components q : relative q -> components q <> [].
Proof. intros H. destruct (split_components q H) as (comp & next & _ & _ & -> & _). discriminate. Qed.

(** What is behind a component. *)
Lemma rest_of_path next names : (forall q, next = Some q -> q = [] \/ relative q) -> names = default [] (components <$> next) ->
  match names with
  | [] => next = None \/ next = Some []
  | _ => exists q, next = Some q /\ relative q /\ components q = names
  end.
Proof.
  intros Hn ->. destruct next as [q|]; [|left; reflexivity]. cbn. destruct (Hn q eq_refl) as [-> |Hq]; [right; reflexivity|].
  pose proof (relative_components q Hq). destruct (components q) eqn:E; [contradiction|eauto].
Qed.

Lemma find_loop_resolves inode names out : resolves inode names out -> forall k name n s live,
  components name = names -> relative name -> (length names <= k)%nat -> nodes_wf s -> caches_ok f disk (d_caches s) ->
  at_node s n live -> node_inode f n = Some (Some inode) ->
  exists r s', find_loop f fuel junk diropen k rounds s name diropen n FILETYPE_DIRECTORY = Some (r, s') /\
    nodes_wf s' /\ caches_ok f disk (d_caches s') /\ outcome s' live r out.
Proof.
  induction 1 as [inode l comp e Hd He Hsym|inode l comp e inode' names r Hd He Hdir Hino Hres IH|inode l comp names Hd He|inode l comp e comp' names Hd He Hsym Hnd];
    intros k name n s live Hc Hrel Hk Hwf Hcs Hn Hi; (destruct k as [|k]; [cbn in Hk; lia|]);
    destruct (split_components name Hrel) as (comp0 & next & Esp & Hne & Ec & Hnext); rewrite Hc in Ec; injection Ec as <- Ec.
  - destruct (find_step k name n s live inode l comp next e Esp Hne Hwf Hcs Hn Hi Hd He Hsym) as (id & s1 & Hwf1 & Hcs1 & Hl1 & Hid & ->).
    exists (Some (entry_node id (e_ino e), type_of_entry (e_type e))), s1. split; [|split; [exact Hwf1|split; [exact Hcs1|exists id; auto] ] ].
    destruct (rest_of_path next [] Hnext Ec) as [-> | ->]; reflexivity.
  - assert (type_of_entry (e_type e) = FILETYPE_DIRECTORY) as Et by (rewrite Hdir; reflexivity).
    destruct (find_step k name n s live inode l comp next e Esp Hne Hwf Hcs Hn Hi Hd He ltac:(rewrite Et; discriminate)) as (id & s1 & Hwf1 & Hcs1 & Hl1 & Hid & ->).
    assert (names <> []) as Hnn by (intros ->; inversion Hres).
    pose proof (rest_of_path next names Hnext Ec) as Hq. destruct names as [|c names]; [contradiction|]. destruct Hq as (q & -> & Hq & Ecq).
    destruct q as [|c0 q]; [destruct Hq as (? & ? & ? & _); discriminate|]. rewrite Et. apply (IH k (c0 :: q) (entry_node id (e_ino e)) s1 live Ecq Hq);
      [cbn in *; lia|exact Hwf1|exact Hcs1|unfold at_node; cbn; replace (id =? 0)%nat with false by lia; exact Hl1|exact (read_inode_reads f disk Hv _ _ Hino)].
  - cbn [find_loop]. rewrite Esp. cbn [Z.eqb Pos.eqb FILETYPE_DIRECTORY negb].
    destruct (iterate_finds s n live inode l comp Hwf Hcs Hn Hi Hd Hne) as (r0 & s1 & -> & Hwf1 & Hcs1 & Hf). rewrite He in Hf. destruct Hf as [Er Hl].
    cbn [mbind option_bind]. rewrite Er. eexists _, s1. split; [reflexivity|]. split; [exact Hwf1|]. split; [exact Hcs1|]. split; [reflexivity|].
    rewrite Hl. unfold at_node in Hn. destruct (n_id n =? 0)%nat; [exists []|exists [n_id n] ]; rewrite Hn; cbn; (split; [reflexivity|lia]).
  - destruct (find_step k name n s live inode l comp next e Esp Hne Hwf Hcs Hn Hi Hd He Hsym) as (id & s1 & Hwf1 & Hcs1 & Hl1 & Hid & ->).
    destruct (rest_of_path next (comp' :: names) Hnext Ec) as (q & -> & Hq & Ecq). destruct q as [|c0 q]; [destruct Hq as (? & ? & ? & _); discriminate|].
    destruct k as [|k]; [cbn in Hk; lia|]. cbn [find_loop]. destruct (split_path (c0 :: q)) as [comp2 next2].
    rewrite (proj2 (Z.eqb_neq _ _) Hnd). cbn [negb].
    destruct (free_last s1 (entry_node id (e_ino e)) id live eq_refl Hid Hl1 Hwf1) as (s2 & -> & Hl2 & Ec2 & Hwf2).
    cbn [mbind option_bind]. eexists _, s2. split; [reflexivity|]. split; [exact Hwf2|]. split; [rewrite Ec2; exact Hcs1|]. split; [reflexivity|].
    exists []. split; [exact Hl2|cbn; lia].
Qed.

(** The whole search from the root. *)
Lemma find_file_resolves s path names out k expect : components path = names -> names <> [] -> resolves (n_inode diropen) names out -> n_inode_read diropen = true ->
  (length names <= k)%nat -> nodes_wf s -> caches_ok f disk (d_caches s) ->
  exists s' r, ext4fs_find_file f fuel junk diropen k rounds s path expect =
      Some (match r with
            | Some (n, type) => if ((expect =? FILETYPE_REG) || (expect =? FILETYPE_DIRECTORY)) && negb (type =? expect) then (0, Some n, s') else (1, Some n, s')
            | None => (0, None, s')
            end) /\
    nodes_wf s' /\ caches_ok f disk (d_caches s') /\ outcome s' (d_live s) r out.
Proof.
  intros Hc Hne Hres Hread Hk Hwf Hcs. unfold ext4fs_find_file, enter.
  assert (components (drop_slashes path) = names) as Hc' by (rewrite components_drop; exact Hc).
  destruct (drop_slashes_relative path) as [E|Hrel]; [exfalso; apply Hne; rewrite <- Hc', E; reflexivity|].
  destruct (find_loop_resolves _ _ _ Hres k (drop_slashes path) diropen (set_nest s 0) (d_live s) Hc' Hrel Hk Hwf Hcs) as (r & s' & E & Hwf' & Hcs' & Hout).
  { unfold at_node. rewrite Hroot. reflexivity. }
  { unfold node_inode. rewrite Hread. reflexivity. }
  exists s', r. split; [|split; [exact Hwf'|split; [exact Hcs'|exact Hout] ] ]. destruct Hrel as (c & p' & Ed & _). rewrite Ed in *. rewrite E. cbn [mbind option_bind].
  destruct r as [ [n type]|]; [|reflexivity]. destruct (Z.eqb_spec expect FILETYPE_REG) as [->|]; cbn [andb orb].
  - destruct (negb (type =? FILETYPE_REG)); reflexivity.
  - destruct ((expect =? FILETYPE_DIRECTORY) && negb (type =? expect)); reflexivity.
Qed.

End Find.

(** ** The mounted volume *)

(** A mounted volume in order. *)
Record mounted (f : fs) (disk : mem) (diropen : node) (v : vol) : Prop := {
  mt_root : v_root v = Some (f, diropen);
  mt_id : n_id diropen = 0%nat;
  mt_read : n_inode_read diropen = true;
  mt_volume : volume f disk;
  mt_nodes : nodes_wf (v_state v);
  mt_caches : caches_ok f disk (d_caches (v_state v))
}.

Lemma resolves_nonempty f disk fuel rounds inode names out : resolves f disk fuel rounds inode names out -> names <> [].
Proof. intros H. inversion H; discriminate. Qed.

(** [ext4fs_open] of a regular file. *)
Lemma open_file f disk fuel k rounds junk v diropen filename ino inode size : mounted f disk diropen v ->
  resolves f disk fuel rounds (n_inode diropen) (components filename) (Some (ino, FILETYPE_REG)) -> (length (components filename) <= k)%nat ->
  ext4fs_read_inode f ino = Some (Some inode) -> inode_size inode = Some size ->
  exists v' n, ext4fs_open fuel k rounds junk v filename = Some (0, Some size, v') /\ mounted f disk diropen v' /\
    v_file v' = Some n /\ n_inode n = inode /\ d_live (v_state v') = n_id n :: d_live (v_state v) /\ n_id n <> 0%nat.
Proof.
  intros [Hr Hid Hrd Hv Hwf Hcs] Hres Hk Hino Hsz. unfold ext4fs_open. rewrite Hr.
  destruct (find_file_resolves f disk fuel junk Hv rounds diropen Hid (v_state v) filename _ _ k FILETYPE_REG eq_refl (resolves_nonempty _ _ _ _ _ _ _ Hres) Hres Hrd Hk Hwf Hcs)
    as (s' & r & -> & Hwf' & Hcs' & Hout). destruct Hout as (id & -> & Hid0 & Hl). rewrite Z.eqb_refl. cbn [negb]. rewrite andb_false_r. cbn [mbind option_bind Z.eqb].
  assert (is_live s' {| n_id := id; n_ino := ino; n_inode_read := false; n_inode := replicate 128 0 |} = true) as ->.
  { unfold is_live. cbn. rewrite Hl, bool_decide_true by left. apply orb_true_r. }
  cbn [negb node_inode n_inode_read n_ino]. rewrite Hino. cbn [mbind option_bind]. rewrite Hsz. cbn [mbind option_bind].
  eexists _, _. split; [reflexivity|]. split; [split; cbn; assumption || reflexivity|]. cbn. split_and!; [reflexivity..|exact Hl|exact Hid0].
Qed.

(** The superblock of a partition. *)
Definition sblock (d : partition) (disk : mem) : list Z := pbytes d disk 1024 1024.

Lemma reads_superblock d disk : good d disk -> 2048 <= Blk.size d * blksz d -> ext4_read_superblock d = (1, sblock d disk).
Proof.
  intros Hg Hs. unfold ext4_read_superblock, SUPERBLOCK_START, SUPERBLOCK_SIZE. change (2 * 512) with 1024. pose proof (blksz_pos d disk Hg) as Hb.
  rewrite Z.shiftr_div_pow2 by apply (good_log2 _ _ Hg). fold (blksz d). pose proof (Z.div_mod 1024 (blksz d) ltac:(lia)). pose proof (Z.mod_pos_bound 1024 (blksz d) Hb).
  pose proof (Z.div_pos 1024 (blksz d) ltac:(lia) Hb). rewrite (devread_reads d disk Hg); [|lia|lia|lia|lia|lia].
  unfold sblock. do 2 f_equal. lia.
Qed.

(** A good superblock: the volume is mounted. *)
Lemma probe_mounts d disk alloc v f inode : good d disk -> 2048 <= Blk.size d * blksz d -> (forall n, alloc n = true) ->
  le16 (sblock d disk) 56 = Some EXT2_MAGIC -> sblock_fs d alloc (sblock d disk) = Some f -> volume f disk ->
  ext4fs_read_inode f 2 = Some (Some inode) -> nodes_wf (v_state v) -> caches_ok f disk (d_caches (v_state v)) ->
  exists v', ext4fs_probe d alloc v = Some (0, v') /\ mounted f disk {| n_id := 0; n_ino := 2; n_inode_read := true; n_inode := inode |} v' /\ v_state v' = v_state v.
Proof.
  intros Hg Hs Ha Hm Hf Hv Hi Hwf Hcs. unfold ext4fs_probe, ext4fs_mount. rewrite Ha. cbn [negb]. rewrite (reads_superblock d disk Hg Hs). cbn [Z.eqb].
  rewrite Hm. cbn [mbind option_bind]. rewrite Z.eqb_refl. cbn [negb]. rewrite Hf. cbn [mbind option_bind]. rewrite Hi. cbn [mbind option_bind Z.eqb].
  eexists. split; [reflexivity|]. split; [|reflexivity]. split; cbn; assumption || reflexivity.
Qed.

(** Probing a partition: when its superblock has the magic number and describes
    a usable volume whose root inode can be read, [ext4fs_probe] returns 0 and leaves
    the volume mounted with the root directory; when the magic number is another one,
    it returns -1, nothing is mounted and the caches of indirect blocks are dropped
    (the node of a file that was open is not freed). *)
Theorem ext4fs_probe_mounts d disk alloc v magic f inode : good d disk -> 2048 <= Blk.size d * blksz d -> (forall n, alloc n = true) ->
  le16 (sblock d disk) 56 = Some magic -> sblock_fs d alloc (sblock d disk) = Some f -> volume f disk ->
  ext4fs_read_inode f 2 = Some (Some inode) -> nodes_wf (v_state v) -> caches_ok f disk (d_caches (v_state v)) ->
  exists ret v', ext4fs_probe d alloc v = Some (ret, v') /\
    if magic =? EXT2_MAGIC then ret = 0 /\ mounted f disk {| n_id := 0; n_ino := 2; n_inode_read := true; n_inode := inode |} v'
    else ret = -1 /\ v_root v' = None /\ v_file v' = v_file v /\ d_caches (v_state v') = ext4fs_reinit_global (d_caches (v_state v)).
Proof.
  intros Hg Hs Ha Hm Hf Hv Hi Hwf Hcs. destruct (Z.eqb_spec magic EXT2_MAGIC) as [-> |E].
  - destruct (probe_mounts d disk alloc v f inode Hg Hs Ha Hm Hf Hv Hi Hwf Hcs) as (v' & E & Hv' & _). eauto 6.
  - unfold ext4fs_probe, ext4fs_mount. rewrite Ha. cbn [negb]. rewrite (reads_superblock d disk Hg Hs). cbn [Z.eqb]. rewrite Hm. cbn [mbind option_bind].
    rewrite (proj2 (Z.eqb_neq _ _) E). cbn [negb]. unfold ext4fs_close. cbn [mbind option_bind Z.eqb v_root v_file v_state]. destruct (v_file v); cbn [mbind option_bind]; (eexists _, _; split; [reflexivity|]; auto).
Qed.

(** A read that goes beyond the end is the read up to it. *)
Lemma read_clips f fuel m cs inode size pos len buf : inode_size inode = Some size -> pos < size ->
  ext4fs_read_file f fuel m cs inode pos len buf = ext4fs_read_file f fuel m cs inode pos (Z.min len (size - pos)) buf.
Proof.
  intros Hsz Hp. unfold ext4fs_read_file. rewrite Hsz. cbn [mbind option_bind]. destruct (Z.ltb_spec size (len + pos)).
  - replace (Z.min len (size - pos)) with (size - pos) by lia. replace (size <? size - pos + pos) with false by lia. reflexivity.
  - replace (Z.min len (size - pos)) with len by lia. replace (size <? len + pos) with false by lia. reflexivity.
Qed.

(** Loading a file by its path: on a mounted volume, when the components of the
    path lead from directory to directory to a regular file, [ext4_read_file] returns
    0 and delivers at [buf] the bytes of the file from [offset] on, as many as were
    asked for (the whole file for 0) or the file has, says how many they are, and
    leaves memory more than a block behind the range as it was; the volume stays
    mounted with the file open, and every directory node of the search is freed. *)
Lemma ext4_read_file_loads f disk fuel k rounds junk v diropen m filename buf offset len ino inode size content :
  mounted f disk diropen v ->
  resolves f disk fuel rounds (n_inode diropen) (components filename) (Some (ino, FILETYPE_REG)) -> (length (components filename) <= k)%nat ->
  ext4fs_read_inode f ino = Some (Some inode) -> serves f disk fuel inode size content -> 0 <= offset < size -> 0 <= len ->
  let n := Z.min (if len =? 0 then size else len) (size - offset) in
  exists m' v' file, ext4_read_file fuel k rounds junk v m filename buf offset len = Some (0, Some n, m', v') /\
    (forall j, 0 <= j < n -> ld m' (buf + j) = content (offset + j)) /\
    (forall a, a < buf \/ buf + n + EXT2_BLOCK_SIZE f <= a -> ld m' a = ld m a) /\
    mounted f disk diropen v' /\ v_file v' = Some file /\ n_id file <> 0%nat /\ n_inode file = inode /\ d_live (v_state v') = n_id file :: d_live (v_state v).
Proof.
  intros Hm Hres Hk Hino Hs Ho Hlen n. unfold ext4_read_file.
  destruct (open_file f disk fuel k rounds junk v diropen filename ino inode size Hm Hres Hk Hino (sv_size _ _ _ _ _ _ Hs)) as (v' & nd & -> & [Hr Hid Hrd Hv Hwf Hcs] & Hf & Hi & Hl & Hn0).
  cbn [mbind option_bind Z.ltb Z.compare]. unfold ext4fs_read. rewrite Hr, Hf.
  assert (is_live (v_state v') nd = true) as -> by (unfold is_live; rewrite Hl, (bool_decide_true (n_id nd ∈ _)) by left; apply orb_true_r). cbn [negb].
  rewrite Hi, (read_clips f fuel m _ inode size) by (apply (sv_size _ _ _ _ _ _ Hs) || lia). fold n.
  destruct (sv_read _ _ _ _ _ _ Hs m (d_caches (v_state v')) offset n buf Hcs ltac:(lia) ltac:(destruct (Z.eqb_spec len 0); lia) ltac:(lia)) as (m' & cs' & -> & Hcs' & Hb & Hfr).
  cbn [mbind option_bind rd_status rd_actread rd_mem rd_caches]. eexists m', _, nd. split; [reflexivity|]. split; [exact Hb|]. split; [exact Hfr|].
  split; [split; cbn; assumption || reflexivity|]. cbn. auto.
Qed.

(** Opening a path that does not lead to a regular file (a component is missing,
    a file is used as a directory, or the last component is not a regular file)
    fails with -1: no file is open, the volume stays mounted and usable, and at most
    one directory node (that of the missing component) is lost. *)
Theorem ext4fs_open_fails f disk fuel k rounds junk v diropen filename out : mounted f disk diropen v ->
  resolves f disk fuel rounds (n_inode diropen) (components filename) out -> (length (components filename) <= k)%nat ->
  (forall ino, out <> Some (ino, FILETYPE_REG)) ->
  exists v' lost, ext4fs_open fuel k rounds junk v filename = Some (-1, None, v') /\ mounted f disk diropen v' /\ v_file v' = None /\
    d_live (v_state v') = lost ++ d_live (v_state v) /\ (length lost <= 1)%nat.
Proof.
  intros [Hr Hid Hrd Hv Hwf Hcs] Hres Hk Hout. unfold ext4fs_open. rewrite Hr.
  destruct (find_file_resolves f disk fuel junk Hv rounds diropen Hid (v_state v) filename _ _ k FILETYPE_REG eq_refl (resolves_nonempty _ _ _ _ _ _ _ Hres) Hres Hrd Hk Hwf Hcs)
    as (s' & r & -> & Hwf' & Hcs' & Ho). destruct out as [ [ino type]|].
  - destruct Ho as (id & -> & Hid0 & Hl). replace (type =? FILETYPE_REG) with false by (symmetry; apply Z.eqb_neq; intros ->; exact (Hout ino eq_refl)).
    cbn [mbind option_bind Z.eqb Pos.eqb FILETYPE_REG orb andb negb free_opt].
    destruct (free_last diropen Hid s' {| n_id := id; n_ino := ino; n_inode_read := false; n_inode := replicate 128 0 |} id _ eq_refl Hid0 Hl Hwf') as (s2 & -> & Hl2 & Ec2 & Hwf2).
    cbn [mbind option_bind]. eexists _, []. split; [reflexivity|]. split; [split; cbn; try assumption; [reflexivity|rewrite Ec2; exact Hcs']|]. cbn. split_and!; [reflexivity|exact Hl2|lia].
  - destruct Ho as (-> & lost & Hl & Hlen). cbn [mbind option_bind Z.eqb free_opt]. eexists _, lost. split; [reflexivity|].
    split; [split; cbn; assumption || reflexivity|]. cbn. auto.
Qed.

(** Closing drops the caches: what is left of them is good for every volume. *)
Lemma reinit_ok f disk cs : caches_ok f disk (ext4fs_reinit_global cs).
Proof.
  assert (forall c, cache_ok f disk (reinit_cache c)) as H; [|split_and!; apply H].
  intros c l E. unfold reinit_cache in E. destruct (ic_block c) eqn:Ec; [discriminate|congruence].
Qed.

(** Closing a mounted volume frees the node of the open file. *)
Lemma close_frees f disk diropen v file live : mounted f disk diropen v -> v_file v = Some file -> n_id file <> 0%nat -> d_live (v_state v) = n_id file :: live ->
  exists v', ext4fs_close v = Some v' /\ v_root v' = None /\ v_file v' = None /\ d_live (v_state v') = live /\ nodes_wf (v_state v') /\
    forall f' disk', caches_ok f' disk' (d_caches (v_state v')).
Proof.
  intros [Hr Hid _ _ Hwf _] Hf Hn Hl. unfold ext4fs_close. rewrite Hf, Hr. destruct (free_last diropen Hid (v_state v) file (n_id file) live eq_refl Hn Hl Hwf) as (s' & -> & Hl' & _ & Hwf').
  cbn [mbind option_bind]. eexists. split; [reflexivity|]. cbn. split_and!; [reflexivity|reflexivity|exact Hl'|exact Hwf'|]. intros. apply reinit_ok.
Qed.

End Ext4Path.
