(* ===== verification/Ext4Image.v ===== *)
(** * Ext4Image: a small volume, and the commands on it

    A volume of eight 1 KB blocks with a directory, a file and symbolic links.  It
    shows that the properties of [Ext4Path] apply to a volume, and it shows where the
    search goes wrong: a link to the root, an empty link. *)

From stdpp Require Import base list option.
From Stdlib Require Import ZifyBool.
From S2P Require Import Prelude Cmem Image Blk Ext4 Extents Ext4Dir Ext4Path.
Import Blk Ext4 Extents Ext4Dir Ext4Path.

Module Ext4Image.

Definition le (n : nat) (v : Z) : list Z := map (fun i => v / 2 ^ (8 * Z.of_nat i) mod 256) (seq 0 n).

(** [struct ext2_dirent] with its name and the padding. *)
Definition dirent (ino len type : Z) (name : list Z) : list Z :=
  le 4 ino ++ le 2 len ++ [Z.of_nat (length name); type] ++ name ++ replicate (Z.to_nat len - 8 - length name) 0.

(** [struct ext2_inode] with its size and what is at its block pointers. *)
Definition inode_bytes (mode size : Z) (b : list Z) : list Z := le 2 mode ++ le 2 0 ++ le 4 size ++ replicate 32 0 ++ b ++ replicate (88 - length b) 0.

Definition DOT : Z := 46.
Definition ch_d : Z := 100.
Definition ch_e : Z := 101.
Definition ch_f : Z := 102.
Definition ch_l : Z := 108.
Definition ch_o : Z := 111.
Definition ch_s : Z := 115.
Definition ch_x : Z := 120.

Definition superblock : list Z :=
  Eval vm_compute in (le 4 8 ++ le 4 8 ++ replicate 12 0 ++ le 4 1 ++ le 4 0 ++ replicate 12 0 ++ le 4 8 ++ replicate 12 0 ++ le 2 EXT2_MAGIC ++ replicate 18 0 ++ le 4 0).

(** The inode of the root, the directory d, the file, and the links: to the root, to
    d/x, to nothing, and to itself. *)
Definition root_inode : list Z := Eval vm_compute in (inode_bytes 0x41ed 1024 (le 4 4)).
Definition d_inode : list Z := Eval vm_compute in (inode_bytes 0x41ed 1024 (le 4 6)).
Definition f_inode : list Z := Eval vm_compute in (inode_bytes 0x81a4 700 (le 4 5)).
Definition inode_table : list Z :=
  Eval vm_compute in (replicate 128 0 ++ root_inode ++ d_inode ++ f_inode ++ inode_bytes 0xa1ff 1 [SLASH] ++ inode_bytes 0xa1ff 3 [ch_d; SLASH; ch_x] ++
  inode_bytes 0xa1ff 0 [] ++ inode_bytes 0xa1ff 1 [ch_o]).

Definition root_dir : list Z :=
  Eval vm_compute in (dirent 2 12 2 [DOT] ++ dirent 2 12 2 [DOT; DOT] ++ dirent 3 12 2 [ch_d] ++ dirent 4 12 1 [ch_f] ++ dirent 5 12 7 [ch_l] ++ dirent 6 964 7 [ch_s]).
Definition d_dir : list Z :=
  Eval vm_compute in (dirent 3 12 2 [DOT] ++ dirent 2 12 2 [DOT; DOT] ++ dirent 4 12 1 [ch_x] ++ dirent 7 12 7 [ch_e] ++ dirent 8 976 7 [ch_o]).

(** The file: an image that mkimage made of a program of 636 bytes. *)
Definition program : list Z := map (fun i => Z.of_nat i mod 251) (seq 0 636).
Definition program_image : option mem := Image.image_set_header (mem_of 64 program) 0 700 0 (0, 0) Image.bare_arm_params.
Definition file_data : list Z := Eval vm_compute in match program_image with Some m => bytes m 0 700 | None => [] end.

(** What is where; the file has the bytes of block 5. *)
Definition at_byte (a base : Z) (l : list Z) : Z := nth (Z.to_nat (a - base)) l 0.
Definition image : mem := fun a =>
  if a <? 1024 then 0 else
  if a <? 2048 then at_byte a 1024 superblock else
  if a <? 3072 then at_byte a 2048 (replicate 8 0 ++ le 4 3) else
  if a <? 4096 then at_byte a 3072 inode_table else
  if a <? 5120 then at_byte a 4096 root_dir else
  if a <? 6144 then at_byte a 5120 file_data else
  if a <? 7168 then at_byte a 6144 d_dir else 0.

Definition image_fs : fs := small_fs image.
Definition image_root : node := {| n_id := 0; n_ino := 2; n_inode_read := true; n_inode := root_inode |}.
Definition image_state : dstate :=
  {| d_caches := {| indir1 := no_cache; indir2 := no_cache; indir3 := no_cache |}; d_live := []; d_fresh := 1; d_nest := 0 |}.
Definition unmounted : vol := {| v_root := None; v_file := None; v_state := image_state |}.
Definition image_vol : vol := {| v_root := Some (image_fs, image_root); v_file := None; v_state := image_state |}.
Definition no_junk : mem := fun _ => 0.

(** ** The properties apply *)

Lemma image_sblock : le16 (sblock (small_dev image) image) 56 = Some EXT2_MAGIC /\ sblock_fs (small_dev image) (fun _ => true) (sblock (small_dev image) image) = Some image_fs.
Proof. split; reflexivity. Qed.

Lemma image_state_ok : nodes_wf image_state.
Proof. split; [cbn; lia|]. split; constructor. Qed.

Lemma image_mounted : mounted image_fs image image_root image_vol.
Proof. split; [reflexivity..|apply small_volume|apply image_state_ok|apply no_caches_ok]. Qed.

Lemma image_good : good (small_dev image) image.
Proof. apply (vol_good _ _ (small_volume image)). Qed.

(** A file of one block. *)
Lemma one_block_ok inode b size : length inode = 128%nat -> inode_flags inode = Some 0 -> inode_block inode 0 = Some b -> valid image_fs b -> inode_size inode = Some size -> 0 < size <= 1024 ->
  stored image_fs image 0 inode size (file_byte image_fs image inode).
Proof.
  intros Hl Hfl Hb Hv Hsz Hs. apply stored_indirect; [exact Hsz|lia|]. change (EXT2_BLOCK_SIZE image_fs) with 1024.
  replace ((size + 1024 - 1) / 1024) with 1 by (apply Z.div_unique with (size - 1); lia).
  assert (file_block image_fs image inode 0 = b) as Eb by (unfold file_block, root_of; change (path_of image_fs 0) with (0, @nil Z); cbn [fst snd follow]; rewrite Hb; reflexivity).
  split; [exact Hl|exists 0; split; [exact Hfl|reflexivity]| | | |intros i Hi; lia]; intros i Hi; assert (i = 0) as -> by lia.
  - change (EXT2_BLOCK_SIZE image_fs / 4) with 256. lia.
  - exact I.
  - right. rewrite Eb. split; [exact Hv|]. destruct Hv as [_ [_ H] ]. change (2 ^ log2_blksz image_fs) with 2 in H. change (Blk.size (dev image_fs)) with 16 in H. lia.
Qed.

(** The directories have their entries. *)
Definition root_entries : list entry :=
  [ {| e_ino := 2; e_len := 12; e_type := 2; e_name := [DOT] |}; {| e_ino := 2; e_len := 12; e_type := 2; e_name := [DOT; DOT] |};
    {| e_ino := 3; e_len := 12; e_type := 2; e_name := [ch_d] |}; {| e_ino := 4; e_len := 12; e_type := 1; e_name := [ch_f] |};
    {| e_ino := 5; e_len := 12; e_type := 7; e_name := [ch_l] |}; {| e_ino := 6; e_len := 964; e_type := 7; e_name := [ch_s] |} ].
Definition d_entries : list entry :=
  [ {| e_ino := 3; e_len := 12; e_type := 2; e_name := [DOT] |}; {| e_ino := 2; e_len := 12; e_type := 2; e_name := [DOT; DOT] |};
    {| e_ino := 4; e_len := 12; e_type := 1; e_name := [ch_x] |}; {| e_ino := 7; e_len := 12; e_type := 7; e_name := [ch_e] |};
    {| e_ino := 8; e_len := 976; e_type := 7; e_name := [ch_o] |} ].

Ltac entries := unfold root_entries, d_entries; cbn [dir_at e_len]; repeat (split; [unfold entry_at; cbn [e_ino e_len e_type e_name length Z.of_nat];
  split_and!; [reflexivity|reflexivity|reflexivity|reflexivity|reflexivity|repeat constructor; discriminate|lia|intros _; discriminate]|split; [lia|] ]); reflexivity.

Lemma valid_4 : valid image_fs 4.
Proof. split; [lia|]. split; [lia|]. vm_compute. discriminate. Qed.
Lemma valid_5 : valid image_fs 5.
Proof. split; [lia|]. split; [lia|]. vm_compute. discriminate. Qed.
Lemma valid_6 : valid image_fs 6.
Proof. split; [lia|]. split; [lia|]. vm_compute. discriminate. Qed.

Lemma image_geometry : geometry image_fs.
Proof. split; [cbn; lia|split; [cbn; lia|reflexivity]|split; [cbn; lia|reflexivity]|split; [cbn; lia|reflexivity] ]. Qed.

Ltac on_disk := split; [exact image_geometry|lia|split; [split; [vm_compute; discriminate|vm_compute; discriminate]|vm_compute; reflexivity]..|vm_compute; reflexivity].

Lemma root_on_disk : inode_on_disk image_fs image 2 root_inode.
Proof. on_disk. Qed.
Lemma d_on_disk : inode_on_disk image_fs image 3 d_inode.
Proof. on_disk. Qed.
Lemma f_on_disk : inode_on_disk image_fs image 4 f_inode.
Proof. on_disk. Qed.

Lemma root_dir_ok : dir_inode image_fs image 0 100 root_inode root_entries.
Proof.
  split; [cbn; lia|]. exists 1024, (file_byte image_fs image root_inode). split; [apply (one_block_ok root_inode 4); try reflexivity; [exact valid_4|lia]|]. entries.
Qed.

Lemma d_dir_ok : dir_inode image_fs image 0 100 d_inode d_entries.
Proof.
  split; [cbn; lia|]. exists 1024, (file_byte image_fs image d_inode). split; [apply (one_block_ok d_inode 6); try reflexivity; [exact valid_6|lia]|]. entries.
Qed.

Definition path_dx : list Z := [SLASH; ch_d; SLASH; SLASH; ch_x].

Lemma dx_resolves : resolves image_fs image 0 100 (n_inode image_root) (components path_dx) (Some (4, FILETYPE_REG)).
Proof.
  change (components path_dx) with [ [ch_d]; [ch_x] ]. eapply resolves_step; [exact root_dir_ok|reflexivity|reflexivity|exact d_on_disk|].
  apply (resolves_last image_fs image 0 100 d_inode d_entries [ch_x] {| e_ino := 4; e_len := 12; e_type := 1; e_name := [ch_x] |} d_dir_ok eq_refl). discriminate.
Qed.

Lemma f_stored : stored image_fs image 0 f_inode 700 (file_byte image_fs image f_inode).
Proof. apply (one_block_ok f_inode 5); try reflexivity; [exact valid_5|lia]. Qed.

(** The bytes of the file are those of a good image. *)
Lemma file_data_good : exists m, Image.good_image m 0 636 Image.bare_arm_params /\ bytes m 64 636 = program /\
  forall j, 0 <= j < 700 -> file_byte image_fs image f_inode j = ld m j.
Proof.
  destruct (Image.image_set_header_good (mem_of 64 program) 0 636 0 (0, 0) Image.bare_arm_params Image.bare_arm_ok) as (m & E & Hg & Hfr); try lia; try reflexivity.
  exists m. split; [exact Hg|]. split.
  - rewrite <- (bytes_wr (fun _ => 0) 64 program) by (apply List.Forall_forall; intros x Hx; apply List.in_map_iff in Hx as (i & <- & _); pose proof (Z.mod_pos_bound (Z.of_nat i) 251 ltac:(lia)); lia).
    apply bytes_ext. intros a Ha. apply Hfr. lia.
  - assert (forallb (fun j => file_byte image_fs image f_inode (Z.of_nat j) =? nth j file_data 0) (seq 0 700) = true) as Hb by (vm_compute; reflexivity).
    assert (file_data = bytes m 0 700) as Hd.
    { transitivity (match program_image with Some m => bytes m 0 700 | None => [] end); [vm_compute; reflexivity|]. unfold program_image. change 700 with (636 + 64). by rewrite E. }
    intros j Hj. rewrite List.forallb_forall in Hb. specialize (Hb (Z.to_nat j)). rewrite Z.eqb_eq, Z2Nat.id in Hb by lia.
    rewrite Hb by (apply List.in_seq; lia). rewrite Hd. apply nth_lookup_Some with (d := 0). rewrite bytes_lookup by lia. f_equal. f_equal. lia.
Qed.

Lemma ext4fs_open_fails_witness : exists v' lost, ext4fs_open 0 20 100 no_junk image_vol [ch_d; SLASH; ch_f] = Some (-1, None, v') /\
  mounted image_fs image image_root v' /\ v_file v' = None /\ d_live (v_state v') = lost ++ d_live (v_state image_vol) /\ (length lost <= 1)%nat.
Proof.
  apply (ext4fs_open_fails image_fs image 0 20 100 no_junk image_vol image_root [ch_d; SLASH; ch_f] None).
  - exact image_mounted.
  - change (components [ch_d; SLASH; ch_f]) with [ [ch_d]; [ch_f] ]. eapply resolves_step; [exact root_dir_ok|reflexivity|reflexivity|exact d_on_disk|].
    apply (resolves_missing image_fs image 0 100 d_inode d_entries [ch_f] [] d_dir_ok eq_refl).
  - vm_compute. lia.
  - discriminate.
Defined.

Lemma ext4fs_probe_mounts_witness : exists ret v', ext4fs_probe (small_dev image) (fun _ => true) unmounted = Some (ret, v') /\
    ret = 0 /\ mounted image_fs image {| n_id := 0; n_ino := 2; n_inode_read := true; n_inode := root_inode |} v'.
Proof.
  apply (ext4fs_probe_mounts (small_dev image) image (fun _ => true) unmounted EXT2_MAGIC image_fs root_inode).
  - exact image_good.
  - vm_compute. discriminate.
  - reflexivity.
  - apply image_sblock.
  - apply image_sblock.
  - apply small_volume.
  - vm_compute. reflexivity.
  - exact image_state_ok.
  - apply no_caches_ok.
Defined.

(** ** Examples *)

Definition open (path : list Z) : option (Z * list nat) :=
  '(ret, _, v) ← ext4fs_open 0 20 100 no_junk image_vol path; Some (ret, d_live (v_state v)).

(** A link to a file is followed, and only the node of the file is left. *)
Example open_link : open [ch_s] = Some (0, [12%nat]).
Proof. vm_compute. reflexivity. Qed.

(** A link to itself ends after eight steps. *)
Example open_loop : open [ch_d; SLASH; ch_o] = Some (-1, []).
Proof. vm_compute. reflexivity. Qed.

(** The root is listed with the types and sizes of its entries. *)
Example ls_root : (('(ret, out, _) ← ext4fs_ls 0 20 100 no_junk image_vol [SLASH]; Some (ret, map (fun l => (ls_type l, ls_size l, ls_name l)) out))) =
  Some (0, [ (2, 1024, [DOT]); (2, 1024, [DOT; DOT]); (2, 1024, [ch_d]); (1, 700, [ch_f]); (7, 1, [ch_l]); (7, 3, [ch_s]) ]).
Proof. vm_compute. reflexivity. Qed.

(** *** Where the code goes wrong *)

(** A link to the root keeps the type of a link: nothing is found behind it, although
    f is in the root. *)
Example root_link_fails : open [ch_f] <> Some (-1, []) /\ open [ch_l; SLASH; ch_f] = Some (-1, []).
Proof. vm_compute. split; [discriminate|reflexivity]. Qed.

(** An empty link in a directory leads back to the directory, whose node is then
    freed twice. *)
Example empty_link_frees_twice : open [ch_d; SLASH; ch_e] = None /\ open [ch_d; SLASH; ch_e; SLASH; ch_x] = None.
Proof. vm_compute. split; reflexivity. Qed.

(** The node of the directory where a name is missing is lost. *)
Example missing_name_leaks : open [ch_d; SLASH; ch_f] = Some (-1, [3%nat]).
Proof. vm_compute. reflexivity. Qed.

End Ext4Image.
