(* ===== verification/Part.v ===== *)
(** * Part: partitions and device names

    U-Boot's disk/part_dos.c and the part of disk/part.c that turns a device name
    such as [0:1] into a block device and a partition: the partition table of the
    master boot record, the chain of extended tables behind it, and the parsing of
    the name.  Block devices, their registry and the environment are parameters;
    [None] stands for an access outside a buffer and for a run out of fuel. *)

From stdpp Require Import base list option.
From Stdlib Require Import ZifyBool.
From S2P Require Import Prelude Cmem Strto Ext4.
Import Ext4.

Module Part.

Definition PART_TYPE_UNKNOWN : Z := 0.
Definition PART_TYPE_DOS : Z := 2.
Definition DEV_TYPE_UNKNOWN : Z := 0xff.
Definition MAX_SEARCH_PARTITIONS : Z := 64.
Definition DOS_PART_DEFAULT_SECTOR : Z := 512.
Definition DOS_PART_DISKSIG_OFFSET : Z := 0x1b8.
Definition DOS_PART_TBL_OFFSET : Z := 0x1be.
Definition DOS_PART_MAGIC_OFFSET : Z := 0x1fe.
Definition DOS_PBR_FSTYPE_OFFSET : Z := 0x36.
Definition DOS_PBR32_FSTYPE_OFFSET : Z := 0x52.
Definition DOS_MBR : Z := 0.
Definition DOS_PBR : Z := 1.
Definition PART_UNSPECIFIED : Z := -2.
Definition PART_AUTO : Z := -1.
Definition ENOENT : Z := 2.
Definition ENOSYS : Z := 38.
Definition EPROTONOSUPPORT : Z := 93.

Definition IF_TYPE_IDE : Z := 1.
Definition IF_TYPE_SCSI : Z := 2.
Definition IF_TYPE_ATAPI : Z := 3.
Definition IF_TYPE_USB : Z := 4.
Definition IF_TYPE_DOC : Z := 5.
Definition IF_TYPE_MMC : Z := 6.
Definition IF_TYPE_SD : Z := 7.
Definition IF_TYPE_SATA : Z := 8.

(** [struct blk_desc]; [bd_dread] gives the number of blocks it read and the bytes. *)
Record blk_desc := {
  bd_if_type : Z;
  bd_devnum : Z;
  bd_part_type : Z;
  bd_type : Z;
  bd_lba : Z;
  bd_blksz : Z;
  bd_log2blksz : Z;
  bd_dread : Z -> Z -> Z * list Z
}.

Definition set_part_type (d : blk_desc) (t : Z) : blk_desc :=
  {| bd_if_type := bd_if_type d; bd_devnum := bd_devnum d; bd_part_type := t; bd_type := bd_type d; bd_lba := bd_lba d;
     bd_blksz := bd_blksz d; bd_log2blksz := bd_log2blksz d; bd_dread := bd_dread d |}.

(** The macro [LOG2], on 32 bits. *)
Definition LOG2 (x : Z) : Z :=
  let bit mask v := if Z.land x mask =? 0 then 0 else v in
  bit 0xaaaaaaaa 1 + bit 0xcccccccc 2 + bit 0xf0f0f0f0 4 + bit 0xff00ff00 8 + bit 0xffff0000 16.

Definition set_log2blksz (d : blk_desc) : blk_desc :=
  {| bd_if_type := bd_if_type d; bd_devnum := bd_devnum d; bd_part_type := bd_part_type d; bd_type := bd_type d; bd_lba := bd_lba d;
     bd_blksz := bd_blksz d; bd_log2blksz := LOG2 (bd_blksz d); bd_dread := bd_dread d |}.

(** [disk_partition_t]; strings without their terminators. *)
Record disk_partition := {
  dp_start : Z;
  dp_size : Z;
  dp_blksz : Z;
  dp_name : list Z;
  dp_type : list Z;
  dp_bootable : bool;
  dp_uuid : list Z;
  dp_sys_ind : Z
}.

(** The text of the string constants. *)
Definition U_Boot : list Z := [85; 45; 66; 111; 111; 116].
Definition Whole_Disk : list Z := [87; 104; 111; 108; 101; 32; 68; 105; 115; 107].
Definition FAT : list Z := [70; 65; 84].
Definition FAT32 : list Z := [70; 65; 84; 51; 50].
Definition auto_str : list Z := [97; 117; 116; 111].

(** ** The partition tables of part_dos.c *)

(** [dos_partition_t], as far as it is used. *)
Record dos_partition := { boot_ind : Z; sys_ind : Z; start4 : Z; size4 : Z }.

(** [le32_to_int] *)
Definition le32_to_int (l : list Z) (off : Z) : option Z := le32 l off.

(** Entry [i] of the table in a sector. *)
Definition table_entry (buffer : list Z) (i : Z) : option dos_partition :=
  let p := DOS_PART_TBL_OFFSET + 16 * i in
  b ← le8 buffer p; t ← le8 buffer (p + 4); s ← le32_to_int buffer (p + 8); n ← le32_to_int buffer (p + 12);
  Some {| boot_ind := b; sys_ind := t; start4 := s; size4 := n |}.

Definition is_extended (part_type : Z) : bool := (part_type =? 0x5) || (part_type =? 0xf) || (part_type =? 0x85).
Definition is_bootable (p : dos_partition) : bool := (sys_ind p =? 0xef) || (boot_ind p =? 0x80).

Definition magic_ok (buffer : list Z) : option bool :=
  a ← le8 buffer DOS_PART_MAGIC_OFFSET; b ← le8 buffer (DOS_PART_MAGIC_OFFSET + 1); Some ((a =? 0x55) && (b =? 0xaa)).

(** [strncmp] with a text of [n] characters at an offset. *)
Definition text_at (buffer : list Z) (off : Z) (s : list Z) : bool := bool_decide (take (length s) (drop (Z.to_nat off) buffer) = s).

(** The loop of [test_block_type]: [p] stays at the first entry. *)
Fixpoint test_slots (buffer : list Z) (p : dos_partition) (slots : list Z) : Z :=
  match slots with
  | [] => DOS_MBR
  | slot :: slots =>
    if negb (boot_ind p =? 0) && negb (boot_ind p =? 0x80) then
      if (slot =? 0) && (text_at buffer DOS_PBR_FSTYPE_OFFSET FAT || text_at buffer DOS_PBR32_FSTYPE_OFFSET FAT32) then DOS_PBR else -1
    else test_slots buffer p slots
  end.

Definition test_block_type (buffer : list Z) : option Z :=
  ok ← magic_ok buffer;
  if negb ok then Some (-1) else
  p ← table_entry buffer 0; Some (test_slots buffer p [0; 1; 2]).

Definition part_test_dos (d : blk_desc) : option Z :=
  let '(n, mbr) := bd_dread d 0 1 in
  if negb (n =? 1) then Some (-1) else
  t ← test_block_type mbr;
  if negb (t =? DOS_MBR) then Some (-1) else Some 0.

(** [part_set_generic_name] *)
Definition part_set_generic_name (d : blk_desc) (part_num : Z) : list Z :=
  let t := bd_if_type d in
  let devtype :=
    if (t =? IF_TYPE_IDE) || (t =? IF_TYPE_SATA) || (t =? IF_TYPE_ATAPI) then [104; 100]
    else if t =? IF_TYPE_SCSI then [115; 100]
    else if t =? IF_TYPE_USB then [117; 115; 98; 100]
    else if t =? IF_TYPE_DOC then [100; 111; 99; 100]
    else if (t =? IF_TYPE_MMC) || (t =? IF_TYPE_SD) then [109; 109; 99; 115; 100]
    else [120; 120] in
  devtype ++ [u8 (97 + bd_devnum d)] ++ Strto.print_base 10 part_num.

Definition pad_hex (n : nat) (v : Z) : list Z := let s := Strto.print_base 16 v in replicate (n - length s) 48 ++ s.

(** The first loop of [part_get_info_extended]: the partition with the number, or the
    number behind the table. *)
Fixpoint scan_table (d : blk_desc) (ext_part_sector which_part disksig : Z) (table : list dos_partition) (part_num : Z) : disk_partition + Z :=
  match table with
  | [] => inr part_num
  | pt :: table =>
    if (Z.land (boot_ind pt) (Z.lnot 0x80) =? 0) && negb (sys_ind pt =? 0) && (part_num =? which_part) &&
       ((ext_part_sector =? 0) || negb (is_extended (sys_ind pt))) then
      inl {| dp_start := u32 (ext_part_sector + start4 pt); dp_size := size4 pt; dp_blksz := DOS_PART_DEFAULT_SECTOR;
             dp_name := part_set_generic_name d part_num; dp_type := U_Boot; dp_bootable := is_bootable pt;
             dp_uuid := pad_hex 8 disksig ++ [45] ++ pad_hex 2 part_num; dp_sys_ind := sys_ind pt |}
    else
      scan_table d ext_part_sector which_part disksig table
        (if (ext_part_sector =? 0) || (negb (sys_ind pt =? 0) && negb (is_extended (sys_ind pt))) then part_num + 1 else part_num)
  end.

(** [part_get_info_extended]: the return value and the partition; every extended
    table costs one unit of fuel. *)
Fixpoint part_get_info_extended (fuel : nat) (d : blk_desc) (ext_part_sector relative part_num which_part : Z) (info : disk_partition) (disksig : Z)
    : option (Z * disk_partition) :=
  match fuel with
  | O => None
  | S fuel =>
    let '(n, buffer) := bd_dread d ext_part_sector 1 in
    if negb (n =? 1) then Some (-1, info) else
    ok ← magic_ok buffer;
    if negb ok then Some (-1, info) else
    disksig ← (if ext_part_sector =? 0 then le32_to_int buffer DOS_PART_DISKSIG_OFFSET else Some disksig);
    table ← mapM (table_entry buffer) [0; 1; 2; 3];
    match scan_table d ext_part_sector which_part disksig table part_num with
    | inl info => Some (0, info)
    | inr part_num =>
      match List.find (fun pt => is_extended (sys_ind pt)) table with
      | Some pt =>
        let lba_start := u32 (start4 pt + relative) in
        part_get_info_extended fuel d lba_start (if ext_part_sector =? 0 then lba_start else relative) part_num which_part info disksig
      | None =>
        dos_type ← test_block_type buffer;
        if dos_type =? DOS_PBR then
          Some (0, {| dp_start := 0; dp_size := bd_lba d; dp_blksz := DOS_PART_DEFAULT_SECTOR; dp_name := dp_name info; dp_type := U_Boot;
                      dp_bootable := false; dp_uuid := []; dp_sys_ind := dp_sys_ind info |})
        else Some (-1, info)
      end
    end
  end.

Definition part_get_info_dos (fuel : nat) (d : blk_desc) (part : Z) (info : disk_partition) : option (Z * disk_partition) :=
  part_get_info_extended fuel d 0 0 1 part info 0.

Definition is_valid_dos_buf (buf : list Z) : option Z := t ← test_block_type buf; Some (if t =? DOS_MBR then 0 else -1).

(** ** Drivers of partition tables *)

Record part_driver := {
  pd_part_type : Z;
  pd_test : blk_desc -> option Z;
  pd_get_info : option (blk_desc -> Z -> disk_partition -> option (Z * disk_partition))
}.

(** The driver for DOS tables. *)
Definition dos_driver (fuel : nat) : part_driver :=
  {| pd_part_type := PART_TYPE_DOS; pd_test := part_test_dos; pd_get_info := Some (part_get_info_dos fuel) |}.

Section Drivers.
(** The linker list of the drivers. *)
Context (drivers : list part_driver).

(** The first driver whose test succeeds. *)
Fixpoint test_drivers (d : blk_desc) (l : list part_driver) : option (option part_driver) :=
  match l with
  | [] => Some None
  | e :: l => r ← pd_test e d; if r =? 0 then Some (Some e) else test_drivers d l
  end.

Definition part_driver_lookup_type (d : blk_desc) : option (option part_driver * blk_desc) :=
  if bd_part_type d =? PART_TYPE_UNKNOWN then
    e ← test_drivers d drivers;
    Some (match e with Some e => (Some e, set_part_type d (pd_part_type e)) | None => (None, d) end)
  else Some (List.find (fun e => bd_part_type d =? pd_part_type e) drivers, d).

Definition part_init (d : blk_desc) : option blk_desc :=
  e ← test_drivers (set_part_type d PART_TYPE_UNKNOWN) drivers;
  Some (set_part_type d (match e with Some e => pd_part_type e | None => PART_TYPE_UNKNOWN end)).

Definition clear_uuid (info : disk_partition) : disk_partition :=
  {| dp_start := dp_start info; dp_size := dp_size info; dp_blksz := dp_blksz info; dp_name := dp_name info; dp_type := dp_type info;
     dp_bootable := dp_bootable info; dp_uuid := []; dp_sys_ind := dp_sys_ind info |}.

(** [part_get_info] *)
Definition part_get_info (d : blk_desc) (part : Z) (info : disk_partition) : option (Z * blk_desc * disk_partition) :=
  let info := clear_uuid info in
  '(drv, d) ← part_driver_lookup_type d;
  match drv with
  | None => Some (- EPROTONOSUPPORT, d, info)
  | Some drv =>
    match pd_get_info drv with
    | None => Some (- ENOSYS, d, info)
    | Some get_info => '(r, info) ← get_info d part info; Some (if r =? 0 then 0 else -1, d, info)
    end
  end.

Definition part_get_info_whole_disk (d : blk_desc) (info : disk_partition) : disk_partition :=
  {| dp_start := 0; dp_size := bd_lba d; dp_blksz := bd_blksz d; dp_name := Whole_Disk; dp_type := U_Boot; dp_bootable := false;
     dp_uuid := []; dp_sys_ind := dp_sys_ind info |}.

(** ** Device names *)

(** [simple_strtoul] of a string: the number and what is behind it. *)
Definition strtoul (s : list Z) (base : Z) : option (Z * list Z) :=
  '(v, ep) ← Strto.simple_strtoul (mem_of 0 (s ++ [0])) (S (length s)) 0 base; Some (v, drop (Z.to_nat ep) s).

(** [strchr] and what its callers make of it: the text before the first [c], and the
    text behind it. *)
Fixpoint split_at (c : Z) (s : list Z) : list Z * option (list Z) :=
  match s with
  | [] => ([], None)
  | x :: s => if x =? c then ([], Some s) else let '(a, b) := split_at c s in (x :: a, b)
  end.

(** [get_dev_hwpart]: the device of an interface with a number, with a hardware
    partition selected; and the environment. *)
Context (get_dev_hwpart : list Z -> Z -> Z -> option blk_desc) (env_get : list Z -> option (list Z)).

(** [blk_get_device_by_str] *)
Definition blk_get_device_by_str (ifname dev_hwpart_str : list Z) : option (Z * option blk_desc) :=
  let '(dev_str, hwpart_str) := split_at 46 dev_hwpart_str in
  '(dev, ep) ← strtoul dev_str 16;
  match ep with
  | _ :: _ => Some (- EINVAL, None)
  | [] =>
    '(hwpart, ep) ← (match hwpart_str with Some s => strtoul s 16 | None => Some (0, []) end);
    match ep with
    | _ :: _ => Some (- EINVAL, None)
    | [] =>
      let dev := sgn 32 dev in
      let hwpart := sgn 32 hwpart in
      match get_dev_hwpart ifname dev hwpart with
      | None => Some (- ENOENT, None)
      | Some d =>
        if bd_type d =? DEV_TYPE_UNKNOWN then Some (- ENOENT, Some d) else
        d ← (if negb (hwpart =? 0) then part_init d else Some d);
        Some (dev, Some d)
      end
    end
  end.

(** The search for [auto]: the partition so far, its description, and whether the
    loop was left for a bootable one. *)
Fixpoint auto_loop (k : nat) (p part : Z) (d : blk_desc) (info tmpinfo : disk_partition) : option (Z * blk_desc * disk_partition) :=
  match k with
  | O => Some (part, d, if part =? 0 then info else tmpinfo)
  | S k =>
    '(ret, d, info) ← part_get_info d p info;
    if negb (ret =? 0) then auto_loop k (p + 1) part d info tmpinfo else
    let part := if (part =? 0) || dp_bootable info then p else part in
    if dp_bootable info then Some (part, d, info) else
    auto_loop k (p + 1) part d info (if part =? p then info else tmpinfo)
  end.

Definition bootdevice : list Z := [98; 111; 111; 116; 100; 101; 118; 105; 99; 101].

(** Partition number [part] of a device with a partition table, or the best one. *)
Definition choose_partition (d : blk_desc) (part : Z) (info : disk_partition) : option (Z * Z * blk_desc * disk_partition) :=
  if negb (part =? PART_AUTO) then
    '(ret, d, info) ← part_get_info d part info; Some (ret, part, d, info)
  else
    '(part, d, info) ← auto_loop (Z.to_nat MAX_SEARCH_PARTITIONS) 1 0 d info info;
    Some (if part =? 0 then -1 else 0, part, d, info).

(** The last part of [blk_get_device_part_str]. *)
Definition select_partition (d : blk_desc) (part : Z) (info : disk_partition) : option (Z * option blk_desc * disk_partition) :=
  let part := if part =? PART_UNSPECIFIED then 1 else part in
  '(ret, part, d, info) ← choose_partition d part info;
  if negb (ret =? 0) then Some (ret, Some d, info) else
  if negb (bool_decide (dp_type info = U_Boot)) then Some (-1, Some d, info) else
  Some (part, Some (set_log2blksz d), info).

(** [blk_get_device_part_str]: the return value, the device and the partition. *)
Definition blk_get_device_part_str (ifname : list Z) (dev_part_str : option (list Z)) (info : disk_partition) (allow_whole_dev : bool)
    : option (Z * option blk_desc * disk_partition) :=
  let dev_part_str := match dev_part_str with
    | Some s => if bool_decide (s = []) || bool_decide (s = [45]) then env_get bootdevice else Some s
    | None => env_get bootdevice
    end in
  match dev_part_str with
  | None => Some (-1, None, info)
  | Some dev_part_str =>
    let '(dev_str, part_str) := split_at 58 dev_part_str in
    '(dev, desc) ← blk_get_device_by_str ifname dev_str;
    if dev <? 0 then Some (-1, desc, info) else
    d ← desc;
    part ← (match part_str with
      | None | Some [] => Some (Some PART_UNSPECIFIED)
      | Some s =>
        if bool_decide (s = auto_str) then Some (Some PART_AUTO) else
        '(v, ep) ← strtoul s 16;
        let part := sgn 32 v in
        Some (if negb (bool_decide (ep = [])) || ((part =? 0) && negb allow_whole_dev) then None else Some part)
      end);
    match part with
    | None => Some (-1, desc, info)
    | Some part =>
      if (bd_part_type d =? PART_TYPE_UNKNOWN) || (part =? 0) then
        if bd_lba d =? 0 then Some (-1, desc, info) else
        if (0 <? part) || negb allow_whole_dev then Some (-1, desc, info) else
        let d := set_log2blksz d in Some (0, Some d, part_get_info_whole_disk d info)
      else select_partition d part info
    end
  end.

End Drivers.

(** ** The partitions of a disk *)

(** The sector holds a partition table. *)
Record has_table (d : blk_desc) (sector : Z) (buffer : list Z) (table : list dos_partition) : Prop := {
  ht_read : bd_dread d sector 1 = (1, buffer);
  ht_magic : magic_ok buffer = Some true;
  ht_entries : mapM (table_entry buffer) [0; 1; 2; 3] = Some table
}.

(** An entry that describes a partition. *)
Definition in_use (p : dos_partition) : bool := (Z.land (boot_ind p) (Z.lnot 0x80) =? 0) && negb (sys_ind p =? 0).

(** The chain of extended tables: each has its logical partition, and a link relative
    to the extended partition, where there is a next one. *)
Inductive chain (d : blk_desc) (relative : Z) : Z -> list (Z * dos_partition) -> Prop :=
| chain_last s buffer p z1 z2 z3 : s <> 0 -> has_table d s buffer [p; z1; z2; z3] -> in_use p = true -> is_extended (sys_ind p) = false ->
    sys_ind z1 = 0 -> sys_ind z2 = 0 -> sys_ind z3 = 0 -> (exists t, test_block_type buffer = Some t /\ t <> DOS_PBR) -> chain d relative s [(s, p)]
| chain_link s buffer p q z2 z3 l : s <> 0 -> has_table d s buffer [p; q; z2; z3] -> in_use p = true -> is_extended (sys_ind p) = false ->
    is_extended (sys_ind q) = true -> sys_ind z2 = 0 -> sys_ind z3 = 0 -> chain d relative (u32 (start4 q + relative)) l -> chain d relative s ((s, p) :: l).

(** A disk with its primary partitions and, behind the extended one, the logical ones. *)
Record dos_disk (d : blk_desc) (sig : Z) (primary : list dos_partition) (logical : list (Z * dos_partition)) : Prop := {
  dd_buffer : exists buffer, has_table d 0 buffer primary /\ le32_to_int buffer DOS_PART_DISKSIG_OFFSET = Some sig /\
    match List.find (fun pt => is_extended (sys_ind pt)) primary with
    | Some pt => chain d (u32 (start4 pt + 0)) (u32 (start4 pt + 0)) logical
    | None => logical = [] /\ exists t, test_block_type buffer = Some t /\ t <> DOS_PBR
    end;
  dd_four : length primary = 4%nat
}.

(** Partition number [part]: where its table is, and its entry. *)
Definition partition_of (primary : list dos_partition) (logical : list (Z * dos_partition)) (part : Z) : option (Z * dos_partition) :=
  if (1 <=? part) && (part <=? 4) then
    p ← primary !! Z.to_nat (part - 1); if in_use p then Some (0, p) else None
  else if 5 <=? part then logical !! Z.to_nat (part - 5) else None.

(** The description of an entry in the table of sector [s]. *)
Definition dos_info (d : blk_desc) (sig s : Z) (p : dos_partition) (part : Z) : disk_partition :=
  {| dp_start := u32 (s + start4 p); dp_size := size4 p; dp_blksz := DOS_PART_DEFAULT_SECTOR; dp_name := part_set_generic_name d part; dp_type := U_Boot;
     dp_bootable := is_bootable p; dp_uuid := pad_hex 8 sig ++ [45] ++ pad_hex 2 part; dp_sys_ind := sys_ind p |}.

(** The master boot record counts all its entries. *)
Lemma scan_primary d which sig table : forall n, scan_table d 0 which sig table n =
  match (if n <=? which then table !! Z.to_nat (which - n) else None) with
  | Some p => if in_use p then inl (dos_info d sig 0 p which) else inr (n + Z.of_nat (length table))
  | None => inr (n + Z.of_nat (length table))
  end.
Proof.
  induction table as [|p table IH]; intros n; cbn [scan_table].
  - rewrite lookup_nil. destruct (n <=? which); f_equal; cbn; lia.
  - change (0 =? 0) with true. cbn [orb]. rewrite andb_true_r. change (Z.land (boot_ind p) (Z.lnot 128) =? 0) with (Z.land (boot_ind p) (Z.lnot 0x80) =? 0).
    fold (in_use p). rewrite IH. replace (n + 1 + Z.of_nat (length table)) with (n + Z.of_nat (length (p :: table))) by (cbn [length]; lia).
    destruct (Z.eqb_spec n which) as [->|Hne].
    + rewrite Z.leb_refl, Z.sub_diag. change ((p :: table) !! Z.to_nat 0) with (Some p). replace (which + 1 <=? which) with false by lia. rewrite andb_true_r.
      destruct (in_use p); reflexivity.
    + rewrite andb_false_r. destruct (Z.leb_spec n which).
      * replace (n + 1 <=? which) with true by lia. replace (Z.to_nat (which - n)) with (S (Z.to_nat (which - (n + 1)))) by lia. reflexivity.
      * replace (n + 1 <=? which) with false by lia. reflexivity.
Qed.

Lemma extended_nonzero t : is_extended t = true -> t <> 0.
Proof. unfold is_extended. lia. Qed.

(** An extended table counts its logical partition only. *)
Lemma scan_logical d s which sig p q z2 z3 n : s <> 0 -> in_use p = true -> is_extended (sys_ind p) = false ->
  is_extended (sys_ind q) = true \/ sys_ind q = 0 -> sys_ind z2 = 0 -> sys_ind z3 = 0 ->
  scan_table d s which sig [p; q; z2; z3] n = if n =? which then inl (dos_info d sig s p which) else inr (n + 1).
Proof.
  intros Hs Hp Hx Hq H2 H3. unfold in_use in Hp. apply andb_true_iff in Hp as [Hb Ht]. cbn [scan_table]. replace (s =? 0) with false by lia.
  change (Z.lnot 128) with (Z.lnot 0x80). rewrite Hb, Ht, Hx, H2, H3. cbn [orb negb andb Z.eqb]. rewrite !andb_false_r. cbn [andb orb negb].
  destruct (Z.eqb_spec n which) as [->|]; [reflexivity|]. cbn [andb].
  destruct Hq as [Hq|Hq]; rewrite Hq; cbn [negb andb orb Z.eqb]; rewrite ?andb_false_r; reflexivity.
Qed.

Lemma chain_finds d rel sig which info s l : chain d rel s l -> forall fuel n, (length l <= fuel)%nat ->
  part_get_info_extended fuel d s rel n which info sig =
  Some (match (if n <=? which then l !! Z.to_nat (which - n) else None) with Some (s, p) => (0, dos_info d sig s p which) | None => (-1, info) end).
Proof.
  induction 1 as [s buffer p z1 z2 z3 Hs [Hr Hm He] Hp Hx H1 H2 H3 (t & Ht & Hpbr)|s buffer p q z2 z3 l Hs [Hr Hm He] Hp Hx Hq H2 H3 Hc IH];
    intros fuel n Hf; (destruct fuel as [|fuel]; [cbn in Hf; lia|]); cbn [part_get_info_extended]; rewrite Hr; cbn [Z.eqb Pos.eqb negb]; rewrite Hm;
    cbn [mbind option_bind negb]; replace (s =? 0) with false by lia; cbn [mbind option_bind]; rewrite He; cbn [mbind option_bind];
    rewrite scan_logical by (assumption || (left; assumption) || (right; assumption)); destruct (Z.eqb_spec n which) as [->|Hne].
  - rewrite Z.leb_refl, Z.sub_diag. reflexivity.
  - cbn [List.find]. rewrite Hx, H1, H2, H3. cbn [is_extended Z.eqb Pos.eqb orb]. rewrite Ht. cbn [mbind option_bind]. replace (t =? DOS_PBR) with false by lia.
    destruct (Z.leb_spec n which); [|reflexivity]. replace (Z.to_nat (which - n)) with (S (Z.to_nat (which - n - 1))) by lia. reflexivity.
  - rewrite Z.leb_refl, Z.sub_diag. reflexivity.
  - cbn [List.find]. rewrite Hx, Hq. rewrite IH by (cbn in Hf; lia). destruct (Z.leb_spec n which).
    + replace (n + 1 <=? which) with true by lia. replace (Z.to_nat (which - n)) with (S (Z.to_nat (which - (n + 1)))) by lia. reflexivity.
    + replace (n + 1 <=? which) with false by lia. reflexivity.
Qed.


Lemma part_get_info_finds_dos d sig primary logical part info fuel : dos_disk d sig primary logical -> (length logical < fuel)%nat ->
  part_get_info_dos fuel d part info =
  Some (match partition_of primary logical part with Some (s, p) => (0, dos_info d sig s p part) | None => (-1, info) end).
Proof.
  intros [ (buffer & [Hr Hm He] & Hsig & Hext) H4] Hf. unfold part_get_info_dos. destruct fuel as [|fuel]; [lia|]. cbn [part_get_info_extended].
  rewrite Hr. cbn [Z.eqb Pos.eqb negb]. rewrite Hm. cbn [mbind option_bind negb]. rewrite Hsig. cbn [mbind option_bind]. rewrite He. cbn [mbind option_bind].
  rewrite scan_primary, H4. change (1 + Z.of_nat 4) with 5.
  assert (match List.find (fun pt => is_extended (sys_ind pt)) primary with
    | Some pt => part_get_info_extended fuel d (u32 (start4 pt + 0)) (u32 (start4 pt + 0)) 5 part info sig
    | None => dos_type ← test_block_type buffer; if dos_type =? DOS_PBR then
          Some (0, {| dp_start := 0; dp_size := bd_lba d; dp_blksz := DOS_PART_DEFAULT_SECTOR; dp_name := dp_name info; dp_type := U_Boot;
                      dp_bootable := false; dp_uuid := []; dp_sys_ind := dp_sys_ind info |})
        else Some (-1, info)
    end = Some (match (if 5 <=? part then logical !! Z.to_nat (part - 5) else None) with Some (s, p) => (0, dos_info d sig s p part) | None => (-1, info) end)) as Hrest.
  { destruct (List.find _ primary) as [pt|]; [apply chain_finds; [exact Hext|lia]|]. destruct Hext as [-> (t & -> & Ht)]. cbn [mbind option_bind].
    replace (t =? DOS_PBR) with false by lia. rewrite lookup_nil. destruct (5 <=? part); reflexivity. }
  unfold partition_of. destruct (Z.leb_spec 1 part) as [H1|H1]; cbn [andb].
  - destruct (Z.leb_spec part 4) as [H2|H2].
    + destruct (lookup_lt_is_Some_2 primary (Z.to_nat (part - 1)) ltac:(lia)) as [p Ep]. rewrite Ep. cbn [mbind option_bind].
      replace (5 <=? part) with false in Hrest by lia. destruct (in_use p); [reflexivity|exact Hrest].
    + rewrite lookup_ge_None_2 by lia. exact Hrest.
  - replace (5 <=? part) with false in * by lia. exact Hrest.
Qed.

(** ** The choice of a partition *)

Fixpoint numbers (p : Z) (k : nat) : list Z := match k with O => [] | S k => p :: numbers (p + 1) k end.

Section Auto.
Context (d : blk_desc) (sig : Z) (primary : list dos_partition) (logical : list (Z * dos_partition)) (fuel : nat) (drivers : list part_driver).
Context (Hd : dos_disk d sig primary logical) (Hfuel : (length logical < fuel)%nat).
Context (Htype : bd_part_type d = PART_TYPE_DOS) (Hdrv : List.find (fun e => PART_TYPE_DOS =? pd_part_type e) drivers = Some (dos_driver fuel)).

(** The description of partition [p], and whether it is bootable. *)
Definition nth_info (p : Z) : option disk_partition := '(s, e) ← partition_of primary logical p; Some (dos_info d sig s e p).
Definition is_valid (p : Z) : bool := match nth_info p with Some _ => true | None => false end.
Definition is_boot (p : Z) : bool := match nth_info p with Some i => dp_bootable i | None => false end.

Lemma dos_get_info p info : exists info', part_get_info drivers d p info =
  Some (match nth_info p with Some i => (0, d, i) | None => (-1, d, info') end).
Proof.
  unfold part_get_info, part_driver_lookup_type. rewrite Htype. change (PART_TYPE_DOS =? PART_TYPE_UNKNOWN) with false. cbn iota. rewrite Hdrv.
  cbn [mbind option_bind dos_driver pd_get_info]. rewrite (part_get_info_finds_dos d sig primary logical p (clear_uuid info) fuel Hd Hfuel).
  exists (clear_uuid info). unfold nth_info. destruct (partition_of primary logical p) as [ [s e]|]; reflexivity.
Qed.

(** The loop prefers the first bootable partition to the first valid one. *)
Lemma auto_loop_picks k : forall p part info tmp, 0 <= part < p -> exists info', auto_loop drivers k p part d info tmp =
  Some (match List.find is_boot (numbers p k) with
        | Some q => (q, d, default tmp (nth_info q))
        | None =>
          if part =? 0 then match List.find is_valid (numbers p k) with Some q => (q, d, default tmp (nth_info q)) | None => (0, d, info') end
          else (part, d, tmp)
        end).
Proof.
  induction k as [|k IH]; intros p part info tmp Hp; cbn [auto_loop numbers List.find].
  - exists info. destruct (Z.eqb_spec part 0) as [->|]; reflexivity.
  - destruct (dos_get_info p info) as (info1 & ->). cbn [mbind option_bind]. unfold is_boot at 1, is_valid at 1. destruct (nth_info p) as [i|] eqn:Ei.
    + cbn [negb Z.eqb]. destruct (dp_bootable i) eqn:Eb.
      * rewrite orb_true_r, Ei. exists info. reflexivity.
      * rewrite orb_false_r. destruct (Z.eqb_spec part 0) as [->|Hpart].
        -- rewrite Z.eqb_refl. destruct (IH (p + 1) p i i ltac:(lia)) as (info' & ->). exists info'. replace (p =? 0) with false by lia. rewrite Ei.
           destruct (List.find is_boot (numbers (p + 1) k)) as [q|] eqn:Ef; [|reflexivity].
           apply List.find_some in Ef as [_ Ef]. unfold is_boot in Ef. destruct (nth_info q); [reflexivity|discriminate].
        -- destruct (IH (p + 1) part i (if part =? p then i else tmp) ltac:(lia)) as (info' & ->). exists info'. replace (part =? p) with false by lia.
           replace (part =? 0) with false by lia. reflexivity.
    + cbn [negb Z.eqb]. destruct (IH (p + 1) part info1 tmp ltac:(lia)) as (info' & ->). exists info'. reflexivity.
Qed.

(** The partition that is meant by [auto]. *)
Definition auto_pick : option Z :=
  let ps := numbers 1 (Z.to_nat MAX_SEARCH_PARTITIONS) in
  match List.find is_boot ps with Some p => Some p | None => List.find is_valid ps end.

Lemma find_valid_pick p : auto_pick = Some p -> exists i, nth_info p = Some i.
Proof.
  unfold auto_pick. destruct (List.find is_boot _) as [q|] eqn:E.
  - intros [= <-]. apply List.find_some in E as [_ E]. unfold is_boot in E. destruct (nth_info q); [eauto|discriminate].
  - intros E'. apply List.find_some in E' as [_ E']. unfold is_valid in E'. destruct (nth_info p); [eauto|discriminate].
Qed.

Lemma numbers_pos k : forall p q, 0 < p -> In q (numbers p k) -> 0 < q.
Proof. induction k as [|k IH]; cbn; intros p q Hp H; [contradiction|]. destruct H as [<- |H]; [exact Hp|apply (IH (p + 1) q); [lia|exact H] ]. Qed.

Lemma nth_info_type p i : nth_info p = Some i -> dp_type i = U_Boot.
Proof. unfold nth_info. destruct (partition_of _ _ _) as [ [? ?]|]; [intros [= <-]|discriminate]. reflexivity. Qed.

(** The partition a request stands for. *)
Definition requested (part : Z) : option Z :=
  if part =? PART_UNSPECIFIED then Some 1 else if part =? PART_AUTO then auto_pick else Some part.

Lemma choose_picks part info : part <> PART_UNSPECIFIED ->
  match (n ← requested part; i ← nth_info n; Some (n, i)) with
  | Some (n, i) => choose_partition drivers d part info = Some (0, n, d, i)
  | None => exists part' info', choose_partition drivers d part info = Some (-1, part', d, info')
  end.
Proof.
  intros Hu. unfold choose_partition, requested. rewrite (proj2 (Z.eqb_neq _ _) Hu). destruct (Z.eqb_spec part PART_AUTO) as [->|Ha]; cbn [negb].
  - destruct (auto_loop_picks (Z.to_nat MAX_SEARCH_PARTITIONS) 1 0 info info ltac:(lia)) as (info' & ->). change (0 =? 0) with true. cbn iota.
    pose proof find_valid_pick as Hp. unfold auto_pick in *. set (ps := numbers 1 (Z.to_nat MAX_SEARCH_PARTITIONS)) in *.
    assert (forall q P, List.find P ps = Some q -> (q =? 0) = false) as Hq.
    { intros q P E. apply List.find_some in E as [E _]. pose proof (numbers_pos _ 1 q ltac:(lia) E). lia. }
    destruct (List.find is_boot ps) as [q|] eqn:E1; [|destruct (List.find is_valid ps) as [q|] eqn:E2].
    1,2: destruct (Hp q eq_refl) as [i Ei]; cbn [mbind option_bind]; rewrite Ei; cbn [mbind option_bind default]; erewrite Hq by eassumption; reflexivity.
    cbn [mbind option_bind]. eauto.
  - destruct (dos_get_info part info) as (info' & ->). cbn [mbind option_bind]. destruct (nth_info part) as [i|]; cbn [mbind option_bind]; eauto.
Qed.

Lemma select_partition_selects part info : exists info', select_partition drivers d part info =
  Some (match (n ← requested part; i ← nth_info n; Some (n, i)) with
        | Some (n, i) => (n, Some (set_log2blksz d), i)
        | None => (-1, Some d, info')
        end).
Proof.
  unfold select_partition. set (part' := if part =? PART_UNSPECIFIED then 1 else part).
  assert (requested part = requested part') as -> by (unfold requested, part'; destruct (part =? PART_UNSPECIFIED) eqn:E; rewrite ?E; reflexivity).
  assert (part' <> PART_UNSPECIFIED) as Hu by (unfold part'; destruct (Z.eqb_spec part PART_UNSPECIFIED); [discriminate|assumption]).
  pose proof (choose_picks part' info Hu) as H. destruct (requested part') as [n|]; cbn [mbind option_bind] in *; [destruct (nth_info n) as [i|] eqn:Ei; cbn [mbind option_bind] in *|].
  - rewrite H. exists info. cbn [mbind option_bind]. change (0 =? 0) with true. cbn [negb]. rewrite bool_decide_true by exact (nth_info_type n i Ei). reflexivity.
  - destruct H as (p' & info' & ->). exists info'. reflexivity.
  - destruct H as (p' & info' & ->). exists info'. reflexivity.
Qed.

End Auto.

(** ** Device names *)

Definition hex_char (c : Z) : Prop := 48 <= c <= 57 \/ 97 <= c <= 102.

Lemma print_hex_chars v : 0 <= v -> Forall hex_char (Strto.print_base 16 v).
Proof.
  unfold Strto.print_base. assert (forall n v acc, 0 <= v -> Forall hex_char acc -> Forall hex_char (Strto.print_loop n 16 v acc)) as H; [|intros Hv; apply H; [exact Hv|constructor] ].
  induction n as [|n IH]; intros w acc Hw Ha; cbn [Strto.print_loop]; [exact Ha|]. pose proof (Z.mod_pos_bound w 16 ltac:(lia)).
  assert (Forall hex_char (Strto.digit_char (w mod 16) :: acc)) as Ha'.
  { constructor; [|exact Ha]. unfold Strto.digit_char, hex_char. destruct (w mod 16 <? 10) eqn:E; lia. }
  destruct (w / 16 =? 0); [exact Ha'|]. apply IH; [apply Z.div_pos; lia|exact Ha'].
Qed.

Lemma split_at_hex c l rest : Forall hex_char l -> ~ hex_char c -> split_at c (l ++ c :: rest) = (l, Some rest) /\ split_at c l = (l, None).
Proof.
  intros Hl Hc. induction Hl as [|x l Hx Hl [IH1 IH2] ]; cbn [split_at app].
  - rewrite Z.eqb_refl. auto.
  - replace (x =? c) with false by (symmetry; apply Z.eqb_neq; intros ->; contradiction). rewrite IH1, IH2. auto.
Qed.

(** A printed number reads back. *)
Lemma strtoul_prints v : 0 <= v < 2 ^ 32 -> strtoul (Strto.print_base 16 v) 16 = Some (v, []).
Proof.
  intros Hv. unfold strtoul. rewrite (Strto.strtoul_roundtrip _ 0 v (S (length (Strto.print_base 16 v))) Hv (Strto.print_base 16 v)).
  - cbn [mbind option_bind]. rewrite Z.add_0_l, Nat2Z.id, drop_all. reflexivity.
  - apply cstr_wr. eapply Forall_impl; [|apply (print_hex_chars v); lia]. unfold hex_char. cbn beta. lia.
  - lia.
  - right. left. auto.
Qed.

(** What may follow the number of the device: nothing, [:], [:auto] or [:n]. *)
Inductive part_spec := Unspecified | Empty | Auto | Number (n : Z).

Definition spec_text (sp : part_spec) : list Z :=
  match sp with Unspecified => [] | Empty => [58] | Auto => 58 :: auto_str | Number n => 58 :: Strto.print_base 16 n end.

Definition spec_part (sp : part_spec) : Z :=
  match sp with Unspecified | Empty => PART_UNSPECIFIED | Auto => PART_AUTO | Number n => n end.

Lemma by_str_finds drivers get_dev ifname dev d : 0 <= dev < 2 ^ 31 -> get_dev ifname dev 0 = Some d -> bd_type d <> DEV_TYPE_UNKNOWN ->
  blk_get_device_by_str drivers get_dev ifname (Strto.print_base 16 dev) = Some (dev, Some d).
Proof.
  intros Hdev Hget Ht. unfold blk_get_device_by_str. destruct (split_at_hex 46 (Strto.print_base 16 dev) [] (print_hex_chars dev ltac:(lia))) as [_ ->]; [unfold hex_char; lia|].
  rewrite strtoul_prints by lia. cbn [mbind option_bind]. rewrite !sgn_small by lia. rewrite Hget. rewrite (proj2 (Z.eqb_neq _ _) Ht). reflexivity.
Qed.

(** Naming a partition: on a device with a DOS partition table, the name made of
    the number of the device and nothing, [:], [:auto] or [:n] selects partition 1,
    partition 1, the first bootable or else the first valid one of the first 64, or
    partition [n]; [blk_get_device_part_str] returns its number with its place on the
    disk (from the master boot record, or through the chain of extended tables) and
    the device with log2blksz set, and -1 when there is no such partition. *)
Theorem device_part_selects d sig primary logical fuel drivers get_dev env ifname dev sp info allow :
  dos_disk d sig primary logical -> (length logical < fuel)%nat -> bd_part_type d = PART_TYPE_DOS ->
  List.find (fun e => PART_TYPE_DOS =? pd_part_type e) drivers = Some (dos_driver fuel) ->
  0 <= dev < 2 ^ 31 -> get_dev ifname dev 0 = Some d -> bd_type d <> DEV_TYPE_UNKNOWN ->
  (match sp with Number n => 0 < n < 2 ^ 31 | _ => True end) ->
  exists info', blk_get_device_part_str drivers get_dev env ifname (Some (Strto.print_base 16 dev ++ spec_text sp)) info allow =
  Some (match (n ← requested d sig primary logical (spec_part sp); i ← nth_info d sig primary logical n; Some (n, i)) with
        | Some (n, i) => (n, Some (set_log2blksz d), i)
        | None => (-1, Some d, info')
        end).
Proof.
  intros Hd Hf Ht Hdrv Hdev Hget Hty Hsp. destruct (select_partition_selects d sig primary logical fuel drivers Hd Hf Ht Hdrv (spec_part sp) info) as (info' & E).
  exists info'. rewrite <- E. clear E. unfold blk_get_device_part_str. pose proof (print_hex_chars dev ltac:(lia)) as Hhex.
  destruct (Strto.print_base_cons 16 dev ltac:(lia) ltac:(lia)) as (c & r & Ecr & _). assert (hex_char c) as Hc by (rewrite Ecr in Hhex; inversion Hhex; assumption).
  rewrite bool_decide_false by (rewrite Ecr; discriminate). cbn [orb].
  rewrite bool_decide_false by (rewrite Ecr; cbn; intros [= -> _]; unfold hex_char in Hc; lia).
  assert (split_at 58 (Strto.print_base 16 dev ++ spec_text sp) = (Strto.print_base 16 dev, match sp with Unspecified => None | Empty => Some [] | Auto => Some auto_str | Number n => Some (Strto.print_base 16 n) end)) as ->.
  { destruct sp; cbn [spec_text]; [rewrite app_nil_r; apply (split_at_hex 58 _ [] Hhex); unfold hex_char; lia|apply split_at_hex; [exact Hhex|unfold hex_char; lia]..]. }
  rewrite (by_str_finds drivers get_dev ifname dev d Hdev Hget Hty). cbn [mbind option_bind]. replace (dev <? 0) with false by lia.
  destruct sp as [| | |n]; cbn [mbind option_bind spec_part].
  1,2: rewrite Ht; reflexivity.
  - rewrite bool_decide_true by reflexivity. cbn [mbind option_bind]. rewrite Ht. reflexivity.
  - destruct (Strto.print_base_cons 16 n ltac:(lia) ltac:(lia)) as (c' & r' & Ecr' & _). pose proof (print_hex_chars n ltac:(lia)) as Hhex'.
    rewrite bool_decide_false by (intros Ea; rewrite Ea in Hhex'; inversion Hhex' as [|? ? _ H1]; inversion H1 as [|? ? H2 _]; unfold hex_char in H2; lia).
    rewrite strtoul_prints by lia. cbn [mbind option_bind]. rewrite Ecr'. cbn [mbind option_bind]. rewrite bool_decide_true by reflexivity. cbn [negb orb]. rewrite sgn_small by lia.
    replace (n =? 0) with false by lia. cbn [andb]. rewrite Ht. replace (n =? 0) with false by lia. reflexivity.
Qed.

(** A disk for the examples: partition 1, and a logical partition behind partition 2. *)
Definition entry_bytes (b t s n : Z) : list Z := [b; 0; 0; 0; t; 0; 0; 0; s; 0; 0; 0; n; 0; 0; 0].
Definition table_sector (entries : list Z) : list Z := replicate 440 0 ++ [1; 2; 3; 4; 0; 0] ++ entries ++ [0x55; 0xaa].
Definition mbr : list Z := table_sector (entry_bytes 0x80 0x83 1 40 ++ entry_bytes 0 5 50 60 ++ entry_bytes 0 0 0 0 ++ entry_bytes 0 0 0 0).
Definition ebr : list Z := table_sector (entry_bytes 0 0x83 2 30 ++ entry_bytes 0 0 0 0 ++ entry_bytes 0 0 0 0 ++ entry_bytes 0 0 0 0).
Definition card (first second : list Z) : blk_desc :=
  {| bd_if_type := IF_TYPE_MMC; bd_devnum := 0; bd_part_type := PART_TYPE_DOS; bd_type := 0; bd_lba := 200; bd_blksz := 512; bd_log2blksz := 0;
     bd_dread := fun s n => (1, if s =? 0 then first else second) |}.
Definition no_info : disk_partition :=
  {| dp_start := 0; dp_size := 0; dp_blksz := 0; dp_name := []; dp_type := []; dp_bootable := false; dp_uuid := []; dp_sys_ind := 0 |}.

Definition entry_of (b t s n : Z) : dos_partition := {| boot_ind := b; sys_ind := t; start4 := s; size4 := n |}.
Definition none : dos_partition := entry_of 0 0 0 0.

Lemma card_disk : dos_disk (card mbr ebr) 0x04030201 [entry_of 0x80 0x83 1 40; entry_of 0 5 50 60; none; none] [(50, entry_of 0 0x83 2 30)].
Proof.
  split; [|reflexivity]. exists mbr. split; [split; reflexivity|]. split; [reflexivity|]. cbn [List.find].
  apply (chain_last _ _ 50 ebr (entry_of 0 0x83 2 30) none none none); try reflexivity; [discriminate|split; reflexivity|].
  exists 0. split; [reflexivity|discriminate].
Qed.

Lemma device_part_selects_witness : exists d i, blk_get_device_part_str [dos_driver 2] (fun _ _ _ => Some (card mbr ebr)) (fun _ => None) [109; 109; 99]
    (Some (Strto.print_base 16 0 ++ spec_text (Number 5))) no_info true = Some (5, Some d, i) /\
  bd_log2blksz d = 9 /\ dp_start i = 52 /\ dp_size i = 30.
Proof.
  destruct (device_part_selects (card mbr ebr) _ _ _ 2 [dos_driver 2] (fun _ _ _ => Some (card mbr ebr)) (fun _ => None) [109; 109; 99] 0 (Number 5) no_info true
    card_disk) as (info' & ->); [cbn; lia|reflexivity|reflexivity|lia|reflexivity|discriminate|lia|]. cbn [spec_part]. eexists _, _. split; [reflexivity|]. split_and!; reflexivity.
Defined.

(** A device without a partition table is one partition. *)
Lemma device_whole drivers get_dev env ifname dev d info : 0 <= dev < 2 ^ 31 -> get_dev ifname dev 0 = Some d -> bd_type d <> DEV_TYPE_UNKNOWN ->
  bd_part_type d = PART_TYPE_UNKNOWN -> bd_lba d <> 0 ->
  blk_get_device_part_str drivers get_dev env ifname (Some (Strto.print_base 16 dev)) info true =
  Some (0, Some (set_log2blksz d), part_get_info_whole_disk (set_log2blksz d) info).
Proof.
  intros Hdev Hget Hty Ht Hlba. unfold blk_get_device_part_str. pose proof (print_hex_chars dev ltac:(lia)) as Hhex.
  destruct (Strto.print_base_cons 16 dev ltac:(lia) ltac:(lia)) as (c & r & Ecr & _). assert (hex_char c) as Hc by (rewrite Ecr in Hhex; inversion Hhex; assumption).
  rewrite bool_decide_false by (rewrite Ecr; discriminate). cbn [orb].
  rewrite bool_decide_false by (rewrite Ecr; intros [= -> _]; unfold hex_char in Hc; lia).
  destruct (split_at_hex 58 _ [] Hhex) as [_ ->]; [unfold hex_char; lia|].
  rewrite (by_str_finds drivers get_dev ifname dev d Hdev Hget Hty). cbn [mbind option_bind]. replace (dev <? 0) with false by lia. rewrite Ht.
  change (PART_TYPE_UNKNOWN =? PART_TYPE_UNKNOWN) with true. cbn [orb]. replace (bd_lba d =? 0) with false by lia. reflexivity.
Qed.

(** *** Where the code goes wrong *)

(** Only the first entry of the table is looked at: a master boot record whose second
    entry has an impossible boot indicator passes the test. *)
Example test_block_type_first_entry :
  test_block_type (table_sector (entry_bytes 0 0x83 1 40 ++ entry_bytes 7 5 50 60 ++ entry_bytes 9 9 9 9 ++ entry_bytes 0 0 0 0)) = Some DOS_MBR.
Proof. vm_compute. reflexivity. Qed.

(** An extended table that links to itself is followed for ever. *)
Lemma extended_loop_hangs d rel s buffer p q z2 z3 which info sig : s <> 0 -> has_table d s buffer [p; q; z2; z3] -> sys_ind p = 0 -> sys_ind z2 = 0 -> sys_ind z3 = 0 ->
  is_extended (sys_ind q) = true -> u32 (start4 q + rel) = s -> forall fuel n, part_get_info_extended fuel d s rel n which info sig = None.
Proof.
  intros Hs [Hr Hm He] Hp H2 H3 Hq Hl. induction fuel as [|fuel IH]; intros n; [reflexivity|]. cbn [part_get_info_extended]. rewrite Hr. cbn [Z.eqb Pos.eqb negb]. rewrite Hm.
  cbn [mbind option_bind negb]. replace (s =? 0) with false by lia. cbn [mbind option_bind]. rewrite He. cbn [mbind option_bind scan_table].
  rewrite Hp, H2, H3, Hq. replace (s =? 0) with false by lia. cbn [Z.eqb negb andb orb]. rewrite !andb_false_r. cbn [List.find]. rewrite Hp. cbn [is_extended Z.eqb Pos.eqb orb].
  rewrite Hq, Hl. apply IH.
Qed.

End Part.
