(* ===== verification/Fs.v ===== *)
(** * Fs: the file system layer and its commands

    U-Boot's fs/fs.c: the table of file systems, the current device, and the commands
    [ext2load], [ext2ls] and [ext4size] on them.  A file system is a record of
    operations on a state; the ext4 code of [Ext4Dir] is one, the sentinel
    [unsupported] another, and FAT, whose code is not modelled, a parameter.
    Strings are lists of characters; [None] stands for what [Ext4Dir] and [Part] use
    it for. *)

From stdpp Require Import base list option.
From Stdlib Require Import ZifyBool.
From S2P Require Import Prelude Cmem Strto Blk Ext4 Extents Ext4Dir Ext4Path Ext4Image Part.
Import Ext4 Ext4Dir Ext4Path Part.

Module Fs.

Definition FS_TYPE_ANY : Z := 0.
Definition FS_TYPE_FAT : Z := 1.
Definition FS_TYPE_EXT : Z := 2.
Definition CMD_RET_SUCCESS : Z := 0.
Definition CMD_RET_FAILURE : Z := 1.
Definition CMD_RET_USAGE : Z := -1.
Definition CONFIG_SYS_LOAD_ADDR : Z := 0x60000000 + 0x8000.

(** [struct fstype_info]: the operations of a file system on a state. *)
Record fstype_info (S : Type) := {
  fi_fstype : Z;
  fi_null_dev_desc_ok : bool;
  fi_probe : S -> option blk_desc -> disk_partition -> option (Z * S);
  fi_ls : S -> list Z -> option (Z * list ls_line * S);
  fi_exists : S -> list Z -> option (bool * S);
  fi_size : S -> list Z -> option (Z * option Z * S);
  fi_read : S -> mem -> list Z -> Z -> Z -> Z -> option (Z * option Z * mem * S);
  fi_close : S -> option S
}.
Arguments fi_fstype {S}.
Arguments fi_null_dev_desc_ok {S}.
Arguments fi_probe {S}.
Arguments fi_ls {S}.
Arguments fi_exists {S}.
Arguments fi_size {S}.
Arguments fi_read {S}.
Arguments fi_close {S}.

(** The sentinel of the table. *)
Definition unsupported (S : Type) : fstype_info S := {|
  fi_fstype := FS_TYPE_ANY;
  fi_null_dev_desc_ok := true;
  fi_probe := fun s _ _ => Some (-1, s);
  fi_ls := fun s _ => Some (-1, [], s);
  fi_exists := fun s _ => Some (false, s);
  fi_size := fun s _ => Some (-1, None, s);
  fi_read := fun s m _ _ _ _ => Some (-1, None, m, s);
  fi_close := fun s => Some s
|}.

(** The partition as [fs_devread] sees it. *)
Definition to_partition (d : blk_desc) (info : disk_partition) : Blk.partition :=
  {| Blk.log2blksz := bd_log2blksz d; Blk.start := dp_start info; Blk.size := dp_size info; Blk.blk_dread := bd_dread d |}.

Section Layer.
(** The state of the other file systems, and FAT. *)
Context {X : Type} (fat : fstype_info (vol * X)).
(** Whether an allocation succeeds, the fuel of [Ext4Dir], uninitialised buffers. *)
Context (alloc : Z -> bool) (fuel k rounds : nat) (junk : mem).

Definition on_vol {A} (x : X) (r : option (A * vol)) : option (A * (vol * X)) := '(a, v) ← r; Some (a, (v, x)).

(** The entry for ext4; it asks for a device. *)
Definition ext4_info : fstype_info (vol * X) := {|
  fi_fstype := FS_TYPE_EXT;
  fi_null_dev_desc_ok := false;
  fi_probe := fun s d info => d ← d; on_vol s.2 (ext4fs_probe (to_partition d info) alloc s.1);
  fi_ls := fun s dir => on_vol s.2 (ext4fs_ls fuel k rounds junk s.1 dir);
  fi_exists := fun s name => on_vol s.2 (ext4fs_exists fuel k rounds junk s.1 name);
  fi_size := fun s name => on_vol s.2 (ext4fs_size fuel k rounds junk s.1 name);
  fi_read := fun s m name buf offset len => on_vol s.2 (ext4_read_file fuel k rounds junk s.1 m name buf offset len);
  fi_close := fun s => v ← ext4fs_close s.1; Some (v, s.2)
|}.

Definition sentinel : fstype_info (vol * X) := unsupported (vol * X).
(** [fstypes] without the sentinel. *)
Definition fstypes : list (fstype_info (vol * X)) := [fat; ext4_info].

(** The statics of fs.c. *)
Record fsstate := { fs_fs : vol * X; fs_type : Z; fs_dev_part : Z; fs_partition : disk_partition }.

Definition set_fs (s : fsstate) (x : vol * X) : fsstate :=
  {| fs_fs := x; fs_type := fs_type s; fs_dev_part := fs_dev_part s; fs_partition := fs_partition s |}.
Definition set_type (s : fsstate) (t : Z) : fsstate :=
  {| fs_fs := fs_fs s; fs_type := t; fs_dev_part := fs_dev_part s; fs_partition := fs_partition s |}.

(** [fs_get_info] *)
Definition fs_get_info (fstype : Z) : fstype_info (vol * X) :=
  match List.find (fun info => fstype =? fi_fstype info) fstypes with Some info => info | None => sentinel end.

(** The probes of [fs_set_blk_dev]. *)
Fixpoint probe_loop (l : list (fstype_info (vol * X))) (s : fsstate) (d : option blk_desc) (fstype part : Z) : option (Z * fsstate) :=
  match l with
  | [] => Some (-1, s)
  | info :: l =>
    if negb (fstype =? FS_TYPE_ANY) && negb (fi_fstype info =? FS_TYPE_ANY) && negb (fstype =? fi_fstype info) then probe_loop l s d fstype part else
    if bool_decide (d = None) && negb (fi_null_dev_desc_ok info) then probe_loop l s d fstype part else
    '(ret, x) ← fi_probe info (fs_fs s) d (fs_partition s);
    if ret =? 0 then Some (0, {| fs_fs := x; fs_type := fi_fstype info; fs_dev_part := part; fs_partition := fs_partition s |})
    else probe_loop l (set_fs s x) d fstype part
  end.

(** The drivers of partition tables, the registry of devices and the environment. *)
Context (drivers : list part_driver) (get_dev : list Z -> Z -> Z -> option blk_desc) (env_get : list Z -> option (list Z)).

(** [fs_set_blk_dev] *)
Definition fs_set_blk_dev (s : fsstate) (ifname : list Z) (dev_part_str : option (list Z)) (fstype : Z) : option (Z * fsstate) :=
  '(part, d, info) ← blk_get_device_part_str drivers get_dev env_get ifname dev_part_str (fs_partition s) true;
  let s := {| fs_fs := fs_fs s; fs_type := fs_type s; fs_dev_part := fs_dev_part s; fs_partition := info |} in
  if part <? 0 then Some (-1, s) else probe_loop (fstypes ++ [sentinel]) s d fstype part.

(** [fs_close] *)
Definition fs_close (s : fsstate) : option fsstate :=
  x ← fi_close (fs_get_info (fs_type s)) (fs_fs s); Some (set_type (set_fs s x) FS_TYPE_ANY).

(** [fs_ls]: the type is reset before [fs_close]. *)
Definition fs_ls (s : fsstate) (dirname : list Z) : option (Z * list ls_line * fsstate) :=
  '(ret, out, x) ← fi_ls (fs_get_info (fs_type s)) (fs_fs s) dirname;
  s ← fs_close (set_type (set_fs s x) FS_TYPE_ANY);
  Some (ret, out, s).

Definition fs_exists (s : fsstate) (filename : list Z) : option (bool * fsstate) :=
  '(ret, x) ← fi_exists (fs_get_info (fs_type s)) (fs_fs s) filename;
  s ← fs_close (set_fs s x); Some (ret, s).

Definition fs_size (s : fsstate) (filename : list Z) : option (Z * option Z * fsstate) :=
  '(ret, size, x) ← fi_size (fs_get_info (fs_type s)) (fs_fs s) filename;
  s ← fs_close (set_fs s x); Some (ret, size, s).

(** [fs_read]: the return value, [actread] and the memory. *)
Definition fs_read (s : fsstate) (m : mem) (filename : list Z) (addr offset len : Z) : option (Z * option Z * mem * fsstate) :=
  '(ret, actread, m, x) ← fi_read (fs_get_info (fs_type s)) (fs_fs s) m filename addr offset len;
  s ← fs_close (set_fs s x); Some (ret, actread, m, s).

(** [file_exists] *)
Definition file_exists (s : fsstate) (dev_type : list Z) (dev_part : option (list Z)) (file : list Z) (fstype : Z) : option (bool * fsstate) :=
  '(ret, s) ← fs_set_blk_dev s dev_type dev_part fstype;
  if negb (ret =? 0) then Some (false, s) else fs_exists s file.

(** ** Commands *)

Definition loadaddr : list Z := [108; 111; 97; 100; 97; 100; 100; 114].
Definition bootfile : list Z := [98; 111; 111; 116; 102; 105; 108; 101].
Definition fileaddr : list Z := [102; 105; 108; 101; 97; 100; 100; 114].
Definition filesize : list Z := [102; 105; 108; 101; 115; 105; 122; 101].

(** The result of a command: its return value, the memory, the state, and the
    variables it sets with [env_set_hex]. *)
Record cmd_result := { c_ret : Z; c_mem : mem; c_state : fsstate; c_env : list (list Z * Z) }.

Definition done (ret : Z) (m : mem) (s : fsstate) : option cmd_result := Some {| c_ret := ret; c_mem := m; c_state := s; c_env := [] |}.

(** [do_size] *)
Definition do_size (s : fsstate) (m : mem) (argv : list (list Z)) (fstype : Z) : option cmd_result :=
  match argv with
  | [_; ifname; dev; filename] =>
    '(ret, s) ← fs_set_blk_dev s ifname (Some dev) fstype;
    if negb (ret =? 0) then done 1 m s else
    '(ret, size, s) ← fs_size s filename;
    if ret <? 0 then done CMD_RET_FAILURE m s else
    size ← size; Some {| c_ret := 0; c_mem := m; c_state := s; c_env := [(filesize, size)] |}
  | _ => done CMD_RET_USAGE m s
  end.

(** The number in argument [i], 0 where there is none. *)
Definition arg_number (argv : list (list Z)) (i : nat) : option Z :=
  match argv !! i with Some a => '(v, _) ← strtoul a 16; Some v | None => Some 0 end.

(** [do_load] *)
Definition do_load (s : fsstate) (m : mem) (argv : list (list Z)) (fstype : Z) : option cmd_result :=
  match argv with
  | _ :: ifname :: _ =>
    if (7 <? length argv)%nat then done CMD_RET_USAGE m s else
    '(ret, s) ← fs_set_blk_dev s ifname (argv !! 2%nat) fstype;
    if negb (ret =? 0) then done 1 m s else
    addr ← (match argv !! 3%nat with
      | Some a => '(v, ep) ← strtoul a 16; Some (if bool_decide (ep = a) || negb (bool_decide (ep = [])) then None else Some v)
      | None => match env_get loadaddr with Some a => '(v, _) ← strtoul a 16; Some (Some v) | None => Some (Some CONFIG_SYS_LOAD_ADDR) end
      end);
    match addr, (match argv !! 4%nat with Some f => Some f | None => env_get bootfile end) with
    | None, _ => done CMD_RET_USAGE m s
    | _, None => done 1 m s
    | Some addr, Some filename =>
      bytes ← arg_number argv 5;
      pos ← arg_number argv 6;
      '(ret, len_read, m, s) ← fs_read s m filename addr pos bytes;
      if ret <? 0 then done 1 m s else
      len_read ← len_read;
      Some {| c_ret := 0; c_mem := m; c_state := s; c_env := [(fileaddr, addr); (filesize, len_read)] |}
    end
  | _ => done CMD_RET_USAGE m s
  end.

Definition ROOT : list Z := [SLASH].

(** [do_ls]; the listing is its second result. *)
Definition do_ls (s : fsstate) (argv : list (list Z)) (fstype : Z) : option (Z * list ls_line * fsstate) :=
  match argv with
  | _ :: ifname :: _ =>
    if (4 <? length argv)%nat then Some (CMD_RET_USAGE, [], s) else
    '(ret, s) ← fs_set_blk_dev s ifname (argv !! 2%nat) fstype;
    if negb (ret =? 0) then Some (1, [], s) else
    '(ret, out, s) ← fs_ls s (default ROOT (argv !! 3%nat));
    Some (if negb (ret =? 0) then 1 else 0, out, s)
  | _ => Some (CMD_RET_USAGE, [], s)
  end.

(** The commands of cmd/ext2.c; the command table refuses more than six words. *)
Definition do_ext2load (s : fsstate) (m : mem) (argv : list (list Z)) : option cmd_result := do_load s m argv FS_TYPE_EXT.
Definition do_ext2ls (s : fsstate) (argv : list (list Z)) : option (Z * list ls_line * fsstate) := do_ls s argv FS_TYPE_EXT.

(** ** The properties *)

(** What is on the disk: a partition with a volume, the inodes of the root and of the file in the tables of inodes, the
    directories on the path and the blocks of the file. *)
Record loadable (d : blk_desc) (info : disk_partition) (disk : mem) (filename : list Z) (inode : list Z) (size : Z) (content : Z -> Z) : Prop := {
  ld_good : Blk.good (to_partition d info) disk;
  ld_room : 2048 <= dp_size info * Blk.blksz (to_partition d info);
  ld_volume : exists f root ino, le16 (sblock (to_partition d info) disk) 56 = Some EXT2_MAGIC /\
    sblock_fs (to_partition d info) alloc (sblock (to_partition d info) disk) = Some f /\ volume f disk /\ inode_on_disk f disk 2 root /\
    resolves f disk fuel rounds root (components filename) (Some (ino, FILETYPE_REG)) /\ inode_on_disk f disk ino inode /\
    stored f disk fuel inode size content
}.

(** A state between commands: caches that are good for every volume. *)
Definition idle (s : fsstate) : Prop :=
  nodes_wf (v_state (fs_fs s).1) /\ forall f disk, caches_ok f disk (d_caches (v_state (fs_fs s).1)).

Context (Halloc : forall n, alloc n = true) (Hfat : fi_fstype fat = FS_TYPE_FAT).

Lemma ext_probes s d info part : fs_partition s = info -> probe_loop (fstypes ++ [sentinel]) s (Some d) FS_TYPE_EXT part =
  '(ret, v) ← ext4fs_probe (to_partition d info) alloc (fs_fs s).1;
  if ret =? 0 then Some (0, {| fs_fs := (v, (fs_fs s).2); fs_type := FS_TYPE_EXT; fs_dev_part := part; fs_partition := info |})
  else Some (-1, set_fs s (v, (fs_fs s).2)).
Proof.
  intros <-. cbn [fstypes app probe_loop]. rewrite Hfat. cbn [Z.eqb Pos.eqb FS_TYPE_EXT FS_TYPE_ANY FS_TYPE_FAT negb andb fi_fstype ext4_info fi_null_dev_desc_ok].
  rewrite bool_decide_false by discriminate. cbn [andb fi_probe ext4_info]. cbn [mbind option_bind]. unfold on_vol.
  destruct (ext4fs_probe _ _ _) as [ [ret v]|]; cbn [mbind option_bind]; [|reflexivity]. destruct (ret =? 0); [reflexivity|]. reflexivity.
Qed.

Lemma ext_get_info : fs_get_info FS_TYPE_EXT = ext4_info.
Proof. unfold fs_get_info. cbn [fstypes List.find]. rewrite Hfat. reflexivity. Qed.

(** What [do_ext2load] does for a file that can be loaded; [ext2load_loads] states it. *)
Lemma do_ext2load_spec s m cmd ifname dev addr_text addr filename part d info disk inode size content :
  idle s -> blk_get_device_part_str drivers get_dev env_get ifname (Some dev) (fs_partition s) true = Some (part, Some d, info) -> 0 <= part ->
  strtoul addr_text 16 = Some (addr, []) -> addr_text <> [] -> (length (components filename) <= k)%nat ->
  loadable d info disk filename inode size content -> 0 < size ->
  exists m' s', do_ext2load s m [cmd; ifname; dev; addr_text; filename] =
      Some {| c_ret := 0; c_mem := m'; c_state := s'; c_env := [(fileaddr, addr); (filesize, size)] |} /\
    (forall j, 0 <= j < size -> ld m' (addr + j) = content j) /\
    (exists f, sblock_fs (to_partition d info) alloc (sblock (to_partition d info) disk) = Some f /\
       forall a, a < addr \/ addr + size + EXT2_BLOCK_SIZE f <= a -> ld m' a = ld m a) /\
    idle s' /\ fs_type s' = FS_TYPE_ANY /\ v_root (fs_fs s').1 = None /\ v_file (fs_fs s').1 = None /\
    d_live (v_state (fs_fs s').1) = d_live (v_state (fs_fs s).1).
Proof.
  intros [Hwf Hcs] Hdev Hpart Haddr Hne Hk [Hg Hroom (f & root & ino & Hmagic & Hf & Hv & Hroot & Hres & Hino & Hs)] Hsize.
  apply (read_inode_reads f disk Hv) in Hroot, Hino. apply (stored_serves _ _ _ _ _ _ Hv) in Hs.
  unfold do_ext2load, do_load. cbn [length Nat.ltb Nat.leb]. unfold fs_set_blk_dev. cbn [lookup list_lookup]. rewrite Hdev.
  cbn [mbind option_bind]. replace (part <? 0) with false by lia. rewrite (ext_probes _ d info) by reflexivity. cbn [fs_fs].
  destruct (probe_mounts _ disk alloc (fs_fs s).1 f root Hg Hroom Halloc Hmagic Hf Hv Hroot Hwf (Hcs f disk)) as (v1 & -> & Hm & Ev1).
  cbn [mbind option_bind Z.eqb negb]. cbn [lookup list_lookup]. rewrite Haddr. cbn [mbind option_bind].
  rewrite (bool_decide_false ([] = addr_text)) by congruence. rewrite bool_decide_true by reflexivity. cbn [orb negb mbind option_bind lookup list_lookup arg_number].
  unfold fs_read. cbn [fs_type fs_fs]. rewrite ext_get_info. cbn [fi_read ext4_info fst snd].
  set (diropen := {| n_id := 0; n_ino := 2; n_inode_read := true; n_inode := root |}) in Hm.
  destruct (ext4_read_file_loads f disk fuel k rounds junk v1 diropen m filename addr 0 0 ino inode size content Hm Hres Hk Hino Hs ltac:(lia) ltac:(lia))
    as (m' & v2 & file & E & Hb & Hfr & Hm2 & Hfile & Hid & Hi & Hl). change (0 =? 0) with true in *. cbn iota in *. rewrite Z.sub_0_r, Z.min_id in *.
  rewrite E. unfold on_vol. cbn [mbind option_bind]. unfold fs_close. cbn [fs_type set_fs fs_fs]. rewrite ext_get_info. cbn [fi_close ext4_info fst snd].
  destruct (close_frees f disk diropen v2 file (d_live (v_state v1)) Hm2 Hfile Hid Hl) as (v3 & -> & Hr3 & Hf3 & Hl3 & Hwf3 & Hcs3). cbn [mbind option_bind].
  change (0 <? 0) with false. cbn iota. eexists m', _. split; [reflexivity|]. split; [exact Hb|]. split; [exists f; split; [exact Hf|exact Hfr]|].
  unfold idle. cbn. split_and!; [exact Hwf3|exact Hcs3|reflexivity|exact Hr3|exact Hf3|rewrite Hl3, Ev1; reflexivity].
Qed.

(** C31: Loading a program ([ext2load mmc 0 0x60000000 bare-arm.uimg]): when the device
    name leads to a partition with an ext2 or ext4 volume on which the path leads
    through directories to a regular file, as the bytes of the disk say (superblock,
    group descriptors, inodes, blocks or extents and the entries of the directories),
    [do_ext2load] returns 0, the bytes of the file are at the address, memory before it and more than a block behind it is
    unchanged, and fileaddr and filesize are set; everything is closed again: no
    volume is mounted, no node is left allocated and the caches of indirect blocks
    are dropped, so that the next command can use any volume. *)
Theorem ext2load_loads s m cmd ifname dev addr_text addr filename part d info disk inode size content :
  idle s -> blk_get_device_part_str drivers get_dev env_get ifname (Some dev) (fs_partition s) true = Some (part, Some d, info) -> 0 <= part ->
  strtoul addr_text 16 = Some (addr, []) -> addr_text <> [] -> (length (components filename) <= k)%nat ->
  loadable d info disk filename inode size content -> 0 < size ->
  exists m' s', do_ext2load s m [cmd; ifname; dev; addr_text; filename] =
      Some {| c_ret := 0; c_mem := m'; c_state := s'; c_env := [(fileaddr, addr); (filesize, size)] |} /\
    (forall j, 0 <= j < size -> ld m' (addr + j) = content j) /\
    (exists f, sblock_fs (to_partition d info) alloc (sblock (to_partition d info) disk) = Some f /\
       forall a, a < addr \/ addr + size + EXT2_BLOCK_SIZE f <= a -> ld m' a = ld m a) /\
    idle s' /\ fs_type s' = FS_TYPE_ANY /\ v_root (fs_fs s').1 = None /\ v_file (fs_fs s').1 = None /\
    d_live (v_state (fs_fs s').1) = d_live (v_state (fs_fs s).1).
Proof. apply do_ext2load_spec. Qed.

(** *** Where the code goes wrong *)

(** [fs_ls] forgets the file system before it closes it: the volume stays mounted and
    its caches stay as the listing left them. *)
Lemma fs_ls_keeps_mounted s dirname ret out v : fs_type s = FS_TYPE_EXT -> ext4fs_ls fuel k rounds junk (fs_fs s).1 dirname = Some (ret, out, v) ->
  exists s', fs_ls s dirname = Some (ret, out, s') /\ fs_type s' = FS_TYPE_ANY /\ (fs_fs s').1 = v.
Proof.
  intros Ht E. unfold fs_ls. rewrite Ht, ext_get_info. cbn [fi_ls ext4_info]. rewrite E. unfold on_vol. cbn [mbind option_bind]. unfold fs_close. cbn [fs_type set_type].
  assert (fs_get_info FS_TYPE_ANY = sentinel) as -> by (unfold fs_get_info; cbn [fstypes List.find]; rewrite Hfat; reflexivity).
  cbn. eexists. split; [reflexivity|]. auto.
Qed.

End Layer.

(** ** The commands on the small volume *)

(** The volume of [Ext4Image] on a card without a partition table. *)
Definition image_card : blk_desc :=
  {| bd_if_type := IF_TYPE_MMC; bd_devnum := 0; bd_part_type := PART_TYPE_UNKNOWN; bd_type := 0; bd_lba := 16; bd_blksz := 512; bd_log2blksz := 0;
     bd_dread := Blk.blk_dread (small_dev Ext4Image.image) |}.
Definition no_fat : fstype_info (vol * unit) := {|
  fi_fstype := FS_TYPE_FAT; fi_null_dev_desc_ok := false; fi_probe := fun s _ _ => Some (-1, s); fi_ls := fun s _ => Some (-1, [], s);
  fi_exists := fun s _ => Some (false, s); fi_size := fun s _ => Some (-1, None, s); fi_read := fun s m _ _ _ _ => Some (-1, None, m, s); fi_close := fun s => Some s |}.
Definition start_state : fsstate (X := unit) :=
  {| fs_fs := (Ext4Image.unmounted, tt); fs_type := FS_TYPE_ANY; fs_dev_part := 0; fs_partition := no_info |}.
Definition get_card (ifname : list Z) (dev hwpart : Z) : option blk_desc := if dev =? 0 then Some image_card else None.
Definition ext2load : list Z -> option (cmd_result (X := unit)) := fun addr_text =>
  do_ext2load no_fat (fun _ => true) 0 20 100 Ext4Image.no_junk [] get_card (fun _ => None) start_state Ext4Image.no_junk
    [ []; [109; 109; 99]; [48]; addr_text; Ext4Image.path_dx].

(** 0x60000000 *)
Definition addr_text : list Z := [48; 120; 54; 48; 48; 48; 48; 48; 48; 48].

Lemma image_loadable : loadable (fun _ => true) 0 100 (set_log2blksz image_card) (part_get_info_whole_disk (set_log2blksz image_card) no_info)
  Ext4Image.image Ext4Image.path_dx Ext4Image.f_inode 700 (file_byte Ext4Image.image_fs Ext4Image.image Ext4Image.f_inode).
Proof.
  change (to_partition (set_log2blksz image_card) (part_get_info_whole_disk (set_log2blksz image_card) no_info)) with (small_dev Ext4Image.image).
  split; [exact Ext4Image.image_good|vm_compute; discriminate|].
  exists Ext4Image.image_fs, Ext4Image.root_inode, 4. split; [apply Ext4Image.image_sblock|]. split; [apply Ext4Image.image_sblock|]. split; [apply small_volume|].
  split; [exact Ext4Image.root_on_disk|]. split; [exact Ext4Image.dx_resolves|]. split; [exact Ext4Image.f_on_disk|exact Ext4Image.f_stored].
Qed.

Lemma ext2load_loads_witness : exists m' s', ext2load addr_text =
    Some {| c_ret := 0; c_mem := m'; c_state := s'; c_env := [(fileaddr, 0x60000000); (filesize, 700)] |} /\
  (forall j, 0 <= j < 700 -> ld m' (0x60000000 + j) = file_byte Ext4Image.image_fs Ext4Image.image Ext4Image.f_inode j) /\ fs_type s' = FS_TYPE_ANY.
Proof.
  destruct (ext2load_loads no_fat (fun _ => true) 0 20 100 Ext4Image.no_junk [] get_card (fun _ => None) (fun _ => eq_refl) eq_refl
    start_state Ext4Image.no_junk [] [109; 109; 99] [48] addr_text 0x60000000 Ext4Image.path_dx 0 (set_log2blksz image_card)
    (part_get_info_whole_disk (set_log2blksz image_card) no_info) Ext4Image.image Ext4Image.f_inode 700 (file_byte Ext4Image.image_fs Ext4Image.image Ext4Image.f_inode))
    as (m' & s' & E & Hb & _ & _ & Ht & _).
  - split; [exact Ext4Image.image_state_ok|]. intros f disk. apply no_caches_ok.
  - reflexivity.
  - lia.
  - vm_compute. reflexivity.
  - discriminate.
  - vm_compute. lia.
  - exact image_loadable.
  - lia.
  - exists m', s'. split; [exact E|]. split; [exact Hb|exact Ht].
Defined.

(** An address that is not a number ends the command with the volume still mounted. *)
Example usage_error_keeps_mounted : match ext2load [122] with
  | Some r => c_ret r = CMD_RET_USAGE /\ match v_root (fs_fs (c_state r)).1 with Some _ => True | None => False end | None => False end.
Proof. vm_compute. split; [reflexivity|exact I]. Qed.

(** Caches that are not dropped are taken for those of the next volume: with the
    indirect block of the first volume in the cache, the file of the second one is
    looked up in the first. *)
Example stale_cache_misleads :
  let disk n := fun a => if a =? 4 * 1024 then n else 0 in
  let inode := small_inode [0; 64; 0; 0] [0; 0; 0; 0; 0; 0; 0; 0; 0; 0; 0; 0; 4] in
  let none := {| indir1 := no_cache; indir2 := no_cache; indir3 := no_cache |} in
  match read_allocated_block (small_fs (disk 6)) 0 none inode 12, read_allocated_block (small_fs (disk 7)) 0 none inode 12 with
  | Some (6, cs), Some (7, _) => fst <$> read_allocated_block (small_fs (disk 7)) 0 cs inode 12 = Some 6
  | _, _ => False
  end.
Proof. vm_compute. reflexivity. Qed.

End Fs.
