(* ===== verification/Carray.v ===== *)
(** * Carray: character arrays

    A [char] array of known size as a list, with the accesses the command line code makes:
    reads, writes, [memmove] inside the array, [strlen] and the string it holds.  An
    access outside the array gives [None].  Strings handed around by pointer are lists of
    non-zero characters, and the comparisons of lib/string.c on them. *)

From stdpp Require Import base list option strings.
From Stdlib Require Import ZifyBool.
From S2P Require Import Prelude Cmem CString.

Module Carray.

Abbreviation arr := (list Z) (only parsing).

Definition get (a : arr) (i : Z) : option Z := if i <? 0 then None else a !! Z.to_nat i.

(** Write the characters [s] from index [i] on. *)
Definition copy_in (a : arr) (i : Z) (s : list Z) : option arr :=
  if (0 <=? i) && (i + Z.of_nat (length s) <=? Z.of_nat (length a))
  then Some (take (Z.to_nat i) a ++ s ++ drop (Z.to_nat i + length s) a) else None.

Definition put (a : arr) (i c : Z) : option arr := copy_in a i [c].

(** The [n] characters from index [i] on. *)
Definition copy_out (a : arr) (i n : Z) : option (list Z) :=
  if (0 <=? i) && (0 <=? n) && (i + n <=? Z.of_nat (length a)) then Some (take (Z.to_nat n) (drop (Z.to_nat i) a)) else None.

(** [memmove] inside the array. *)
Definition move (a : arr) (d s n : Z) : option arr := x ← copy_out a s n; copy_in a d x.

(** The string that starts a list of characters; [None] when no NUL ends it. *)
Fixpoint string_at (l : list Z) : option (list Z) :=
  match l with
  | [] => None
  | c :: l => if c =? 0 then Some [] else s ← string_at l; Some (c :: s)
  end.

(** [printf("%.*s", n, ...)] at a list of characters: at most [n], up to a NUL. *)
Fixpoint upto (n : nat) (l : list Z) : option (list Z) :=
  match n with
  | O => Some []
  | S n => match l with [] => None | c :: l => if c =? 0 then Some [] else s ← upto n l; Some (c :: s) end
  end.
Definition putnstr (a : arr) (i n : Z) : option (list Z) :=
  if i <? 0 then None else upto (Z.to_nat n) (drop (Z.to_nat i) a).

(** [strncmp(s, t, n) == 0] of two strings. *)
Fixpoint strncmp_eq (n : nat) (s t : list Z) : bool :=
  match n with
  | O => true
  | S n =>
    match s, t with
    | [], [] => true
    | c :: s, d :: t => (c =? d) && strncmp_eq n s t
    | _, _ => false
    end
  end.

(** The string up to the first [c], where [strchr] stops. *)
Fixpoint upto_char (c : Z) (s : list Z) : list Z :=
  match s with [] => [] | d :: s => if d =? c then [] else d :: upto_char c s end.

(** A string literal. *)
Definition lit (s : string) : list Z := map (fun c => Z.of_nat (Ascii.nat_of_ascii c)) (String.list_ascii_of_string s).

(** A string of C: its characters are not NUL. *)
Definition cs (s : list Z) : Prop := Forall (fun c => 0 < c < 256) s.

#[global] Instance cs_dec s : Decision (cs s).
Proof. unfold cs. apply _. Defined.

Lemma cs_app s t : cs (s ++ t) <-> cs s /\ cs t.
Proof. apply Forall_app. Qed.
Lemma cs_take n s : cs s -> cs (take n s).
Proof. apply Forall_take. Qed.
Lemma cs_drop n s : cs s -> cs (drop n s).
Proof. apply Forall_drop. Qed.
Lemma cs_cons c s : cs (c :: s) <-> 0 < c < 256 /\ cs s.
Proof. apply Forall_cons_iff. Qed.
Lemma cs_one c : 0 < c < 256 -> cs [c].
Proof. intros H. apply cs_cons. split; [exact H|constructor]. Qed.
Lemma cs_nil : cs [].
Proof. constructor. Qed.

(** What the array holds from the start is [s]; the rest is not looked at. *)
Definition holds (a : arr) (s : list Z) : Prop := exists r, a = s ++ r.

Lemma string_at_app s r : cs s -> string_at (s ++ 0 :: r) = Some s.
Proof.
  induction s as [|c s IH]; intros H; [reflexivity|]. apply cs_cons in H as [Hc H]. cbn.
  destruct (Z.eqb_spec c 0); [lia|]. by rewrite IH.
Qed.

Lemma upto_app n s r : cs s -> n = length s -> upto n (s ++ r) = Some s.
Proof.
  intros H ->. induction s as [|c s IH]; [reflexivity|]. apply cs_cons in H as [Hc H]. cbn.
  destruct (Z.eqb_spec c 0); [lia|]. by rewrite IH.
Qed.

Lemma putnstr_app a b s r : cs s -> a = b ++ s ++ r ->
  putnstr a (Z.of_nat (length b)) (Z.of_nat (length s)) = Some s.
Proof.
  intros H ->. unfold putnstr. destruct (Z.ltb_spec (Z.of_nat (length b)) 0); [lia|].
  rewrite !Nat2Z.id, drop_app_length. by apply upto_app.
Qed.

Lemma copy_in_app b x s r : length x = length s ->
  copy_in (b ++ x ++ r) (Z.of_nat (length b)) s = Some (b ++ s ++ r).
Proof.
  intros Hl. unfold copy_in. rewrite !length_app.
  replace ((0 <=? Z.of_nat (length b)) && (Z.of_nat (length b) + Z.of_nat (length s) <=? Z.of_nat (length b + (length x + length r)))) with true by lia.
  rewrite Nat2Z.id, take_app_length. f_equal. f_equal. f_equal.
  rewrite drop_app_ge by lia. rewrite drop_app_ge by lia.
  by replace (_ - _ - _)%nat with 0%nat by lia.
Qed.

Lemma put_app b x c r : put (b ++ x :: r) (Z.of_nat (length b)) c = Some (b ++ c :: r).
Proof. apply (copy_in_app b [x] [c] r). done. Qed.

Lemma copy_out_app b s r : copy_out (b ++ s ++ r) (Z.of_nat (length b)) (Z.of_nat (length s)) = Some s.
Proof.
  unfold copy_out. rewrite !length_app.
  replace (_ && _) with true by lia.
  by rewrite !Nat2Z.id, drop_app_length, take_app_length.
Qed.

Lemma get_app b c r : get (b ++ c :: r) (Z.of_nat (length b)) = Some c.
Proof. unfold get. destruct (Z.ltb_spec (Z.of_nat (length b)) 0); [lia|]. rewrite Nat2Z.id. by apply list_lookup_middle. Qed.

Lemma strncmp_eq_prefix n s t : (n <= length s)%nat -> strncmp_eq n s t = bool_decide (take n s `prefix_of` t).
Proof.
  revert s t. induction n as [|n IH]; intros s t H; cbn.
  { symmetry. apply bool_decide_eq_true. rewrite take_0. by exists t. }
  destruct s as [|c s]; [cbn in H; lia|]. cbn in H. cbn [take].
  destruct t as [|d t].
  - symmetry. apply bool_decide_eq_false. intros [x Hx]. done.
  - rewrite IH by lia. destruct (Z.eqb_spec c d) as [->|Hne]; cbn [andb].
    + apply bool_decide_ext. split.
      * by apply prefix_cons.
      * apply prefix_cons_inv_2.
    + symmetry. apply bool_decide_eq_false. intros Hp. by apply prefix_cons_inv_1 in Hp.
Qed.

Lemma upto_char_prefix c s : upto_char c s `prefix_of` s.
Proof.
  induction s as [|d s IH]; cbn; [done|]. destruct (d =? c); [by exists (d :: s)|]. by apply prefix_cons.
Qed.

Lemma prefix_take (p s : list Z) : p `prefix_of` s -> take (length p) s = p.
Proof. intros [r ->]. apply take_app_length. Qed.


(** [strncmp] of lib/string.c agrees with [strncmp_eq]. *)
Lemma strncmp_cstr m n : forall s t p q r, cstr m p s -> cstr m q t ->
  r = 0 -> (CString.strncmp_loop m n r p q =? 0) = strncmp_eq n s t.
Proof.
  induction n as [|n IH]; intros s t p q r Hs Ht ->; cbn [CString.strncmp_loop strncmp_eq]; [done|].
  pose proof (CString.sgn8_zero (ld m p) (ld m q) (ld_range m p) (ld_range m q)) as Hz.
  destruct s as [|c s]; [apply cstr_nil in Hs|apply cstr_cons in Hs as (Hc & Ec & Hs)];
    (destruct t as [|d t]; [apply cstr_nil in Ht|apply cstr_cons in Ht as (Hd & Ed & Ht)]);
    destruct (Z.eqb_spec (sgn 8 (ld m p - ld m q)) 0) as [E|E]; cbn [negb orb]; try lia.
  - by rewrite E, Hs.
  - assert (c = d) as -> by (rewrite <- Ec, <- Ed; by apply Hz).
    replace (ld m p =? 0) with false by lia. rewrite Z.eqb_refl. cbn [andb]. by apply IH.
Qed.

End Carray.
