(* ===== verification/Terminal.v ===== *)
(** * Terminal: what the user sees

    The line of a terminal on which the boot loader's command line is shown: the characters left of
    the cursor and those from the cursor on.  Characters are written over what is there,
    a backspace moves the cursor, a newline starts an empty line. *)

From stdpp Require Import base list option.
From Stdlib Require Import ZifyBool.
From S2P Require Import Prelude.

Module Terminal.

Record term := Term { left : list Z; right : list Z }.

Definition show (t : term) (c : Z) : term :=
  if c =? 8 then Term (take (length (left t) - 1) (left t)) (drop (length (left t) - 1) (left t) ++ right t)
  else if c =? 7 then t
  else if c =? 10 then Term [] []
  else Term (left t ++ [c]) (tail (right t)).

Definition feed (t : term) (out : list Z) : term := foldl show t out.

(** A character that takes one column. *)
Definition printable (c : Z) : Prop := 32 <= c < 127.
#[global] Instance printable_dec c : Decision (printable c).
Proof. unfold printable. apply _. Defined.

(** The line shows [before], the cursor, [after] and blanks. *)
Definition shows (t : term) (before after : list Z) : Prop :=
  left t = before /\ exists k, right t = after ++ replicate k 32.

Lemma feed_app t a b : feed t (a ++ b) = feed (feed t a) b.
Proof. apply foldl_app. Qed.

Lemma show_printable l r c : printable c -> show (Term l r) c = Term (l ++ [c]) (tail r).
Proof.
  unfold printable, show. intros H. replace (c =? 8) with false by lia. replace (c =? 7) with false by lia.
  by replace (c =? 10) with false by lia.
Qed.

Lemma feed_printable s l r : Forall printable s -> feed (Term l r) s = Term (l ++ s) (drop (length s) r).
Proof.
  revert l r. induction s as [|c s IH]; intros l r H; cbn [feed foldl length].
  { by rewrite app_nil_r, drop_0. }
  apply Forall_cons_iff in H as [Hc H]. rewrite (show_printable l r c Hc).
  change (feed (Term (l ++ [c]) (tail r)) s = Term (l ++ c :: s) (drop (S (length s)) r)).
  rewrite IH by exact H. f_equal; [by rewrite <- app_assoc|]. destruct r; cbn [tail]; by rewrite ?drop_nil.
Qed.

Lemma feed_backspaces n : forall l r, (n <= length l)%nat ->
  feed (Term l r) (replicate n 8) = Term (take (length l - n) l) (drop (length l - n) l ++ r).
Proof.
  induction n as [|n IH]; intros l r H; cbn [replicate feed foldl].
  { rewrite Nat.sub_0_r, take_ge, drop_ge by lia. done. }
  change (feed (show (Term l r) 8) (replicate n 8) = Term (take (length l - S n) l) (drop (length l - S n) l ++ r)).
  unfold show. cbn [Z.eqb Pos.eqb left right]. rewrite IH by (rewrite length_take; lia).
  rewrite length_take. replace (_ `min` _ - n)%nat with (length l - S n)%nat by lia.
  rewrite take_take. replace (_ `min` _)%nat with (length l - S n)%nat by lia. f_equal.
  rewrite app_assoc. f_equal. rewrite <- drop_app_le by (rewrite length_take; lia).
  by rewrite take_drop.
Qed.

(** The cursor moves back over what was typed last. *)
Lemma feed_back t b x r k : left t = b ++ x -> right t = r -> k = length x ->
  feed t (replicate k 8) = Term b (x ++ r).
Proof.
  destruct t as [l r0]. cbn [left right]. intros -> -> ->. rewrite feed_backspaces by (rewrite length_app; lia).
  rewrite length_app. replace (_ + _ - _)%nat with (length b) by lia. by rewrite take_app_length, drop_app_length.
Qed.

(** Typing [s] over the line. *)
Lemma feed_text t b s r : left t = b -> right t = r -> Forall printable s ->
  feed t s = Term (b ++ s) (drop (length s) r).
Proof. destruct t as [l r0]. cbn [left right]. intros -> -> H. by apply feed_printable. Qed.

Lemma feed_bell t : feed t [7] = t.
Proof. destruct t. reflexivity. Qed.

Lemma feed_newline t s : feed t (10 :: s) = feed (Term [] []) s.
Proof. destruct t. reflexivity. Qed.

Lemma drop_blanks s k n : exists j, drop n (replicate k 32) ++ s = replicate j 32 ++ s.
Proof. exists (k - n)%nat. by rewrite drop_replicate. Qed.

Lemma printable_blanks n : Forall printable (replicate n 32).
Proof. apply Forall_replicate. unfold printable. lia. Qed.

End Terminal.
