(* ===== verification/Command.v ===== *)
(** * Command: the command table

    U-Boot's common/command.c: the lookup of a command by its name or an abbreviation of it,
    its execution, [help], and the completion of a command line on TAB.  The commands
    are functions on a state [S]; the console is an interface on it.  A command that
    does not return gives [None]. *)

From stdpp Require Import base list option sorting strings.
From Stdlib Require Import ZifyBool.
From S2P Require Import Prelude Ctype CString HashTable Qsort Carray Terminal.
Import Carray Terminal.

Module Command.

Definition CONFIG_SYS_CBSIZE : Z := 512.
Definition CONFIG_SYS_MAXARGS : Z := 16.
Definition CONFIG_SYS_HELP_CMD_WIDTH : Z := 8.
Definition CMD_RET_SUCCESS : Z := 0.
Definition CMD_RET_FAILURE : Z := 1.
Definition CMD_RET_USAGE : Z := -1.
Definition CMD_FLAG_REPEAT : Z := 0x1.
Definition CMD_FLAG_BOOTD : Z := 0x2.

(** What the command line asks of the console. *)
Class Console (S : Type) := {
  puts : list Z -> S -> S;
  ctrlc : S -> bool * S;
  had_ctrlc : S -> bool;
  clear_ctrlc : S -> S
}.

(** [cmd_tbl_t]; [complete] gives the candidates it stores in [cmdv]. *)
Record cmd_tbl (S : Type) := {
  name : list Z;
  maxargs : Z;
  repeatable : Z;
  cmd : Z -> list (list Z) -> S -> option (Z * S);
  usage : option (list Z);
  help : option (list Z);
  complete : option (list (list Z) -> Z -> Z -> option (list (list Z)))
}.
Arguments name {S}.
Arguments maxargs {S}.
Arguments repeatable {S}.
Arguments cmd {S}.
Arguments usage {S}.
Arguments help {S}.
Arguments complete {S}.

(** The part of a command's name before the first dot. *)
Definition stem (s : list Z) : list Z := upto_char 46 s.

Section Table.
Context {S : Type} `{Console S}.
Implicit Types (t : cmd_tbl S) (table : list (cmd_tbl S)).

(** The loop of [find_cmd_tbl]. *)
Fixpoint find_loop (s : list Z) (len : nat) table (temp : option (cmd_tbl S)) (n_found : Z) : option (cmd_tbl S) :=
  match table with
  | [] => if n_found =? 1 then temp else None
  | t :: table =>
    if strncmp_eq len s (name t) then
      if Nat.eqb len (length (name t)) then Some t else find_loop s len table (Some t) (n_found + 1)
    else find_loop s len table temp n_found
  end.

(** [find_cmd_tbl] *)
Definition find_cmd_tbl (s : list Z) table : option (cmd_tbl S) :=
  find_loop s (length (stem s)) table (head table) 0.

(** [cmd_usage]; a missing usage prints as "<NULL>". *)
Definition null_str : list Z := Eval vm_compute in lit "<NULL>".
Definition dash : list Z := Eval vm_compute in lit " - ".
Definition usage_line : list Z := Eval vm_compute in (lit "Usage:" ++ [10]).
Definition no_help : list Z := Eval vm_compute in lit "- No additional help available." ++ [10].
Definition cmd_usage t (s : S) : Z * S :=
  let s := puts (name t ++ dash ++ default null_str (usage t) ++ [10; 10]) s in
  let s := puts (usage_line ++ name t ++ [32]) s in
  match help t with
  | None => (1, puts no_help s)
  | Some h => (1, puts [10] (puts h s))
  end.

(** [cmd_call] *)
Definition cmd_call t (flag : Z) (argv : list (list Z)) (s : S) : option (Z * S) := cmd t flag argv s.

Definition unknown_a : list Z := Eval vm_compute in lit "Unknown command '".
Definition unknown_b : list Z := Eval vm_compute in lit "' - try 'help'" ++ [10].

(** [cmd_process] without [CONFIG_CMD_BOOTD]: the result, the new value of [*repeatable] and the state. *)
Definition cmd_process table (flag : Z) (argv : list (list Z)) (rep : Z) (s : S) : option (Z * Z * S) :=
  argv0 ← head argv;
  match find_cmd_tbl argv0 table with
  | None => Some (1, rep, puts (unknown_a ++ argv0 ++ unknown_b) s)
  | Some t =>
    '(rc, rep, s) ←
      (if Z.of_nat (length argv) >? maxargs t then Some (CMD_RET_USAGE, rep, s)
       else '(rc, s) ← cmd_call t flag argv s; Some (rc, Z.land rep (repeatable t), s));
    if rc =? CMD_RET_USAGE then let '(rc, s) := cmd_usage t s in Some (rc, rep, s) else Some (rc, rep, s)
  end.

(** [cmd_process_error] *)
Definition cmd_process_error (err : Z) : Z :=
  if err =? CMD_RET_USAGE then CMD_RET_USAGE else if negb (err =? 0) then CMD_RET_FAILURE else CMD_RET_SUCCESS.

(** [cmd_get_data_size] *)
Definition cmd_get_data_size (arg : list Z) (default_size : Z) : Z :=
  let len := length arg in
  if (2 <? len)%nat && bool_decide (arg !! (len - 2)%nat = Some 46) then
    match arg !! (len - 1)%nat with
    | Some 98 => 1
    | Some 119 => 2
    | Some 108 => 4
    | Some 115 => -2
    | _ => -1
    end
  else default_size.

(** ** Help *)

(** One pass of the bubble sort over the first [i] pairs of [cmd_array], and whether it swapped. *)
Fixpoint bubble_pass (gt : list Z -> list Z -> bool) (i : nat) (l : list (cmd_tbl S)) : list (cmd_tbl S) * bool :=
  match i, l with
  | Datatypes.S i, x :: y :: l =>
    if gt (name x) (name y)
    then let '(l, _) := bubble_pass gt i (x :: l) in (y :: l, true)
    else let '(l, swaps) := bubble_pass gt i (y :: l) in (x :: l, swaps)
  | _, _ => (l, false)
  end.

(** The outer loop, [i] counting down to 1; a pass without swaps ends it. *)
Fixpoint bubble_loop (gt : list Z -> list Z -> bool) (i : nat) (l : list (cmd_tbl S)) : list (cmd_tbl S) :=
  match i with
  | O => l
  | Datatypes.S j => let '(l, swaps) := bubble_pass gt i l in if swaps then bubble_loop gt j l else l
  end.

(** [strcmp(...) > 0] *)
Definition strcmp_gt (a b : list Z) : bool := 0 <? CString.first_diff a b.

Definition sort_cmds table : list (cmd_tbl S) := bubble_loop strcmp_gt (length table - 1) table.

(** [printf("%-*s- %s\n", ...)] of a name and a usage. *)
Definition help_line (n u : list Z) : list Z :=
  n ++ replicate (Z.to_nat CONFIG_SYS_HELP_CMD_WIDTH - length n) 32 ++ [45; 32] ++ u ++ [10].

Fixpoint print_help (l : list (cmd_tbl S)) (s : S) : Z * S :=
  match l with
  | [] => (0, s)
  | t :: l =>
    let '(stop, s) := ctrlc s in
    if stop : bool then (1, s) else
    match usage t with None => print_help l s | Some u => print_help l (puts (help_line (name t) u) s) end
  end.

Definition unknown_c : list Z := Eval vm_compute in lit "' - try 'help' without arguments for list of all known commands" ++ [10; 10].

Fixpoint long_help table (args : list (list Z)) (rcode : Z) (s : S) : Z * S :=
  match args with
  | [] => (rcode, s)
  | a :: args =>
    match find_cmd_tbl a table with
    | Some t => let '(rc, s) := cmd_usage t s in long_help table args (Z.lor rcode rc) s
    | None => long_help table args 1 (puts (unknown_a ++ a ++ unknown_c) s)
    end
  end.

(** [_do_help] *)
Definition _do_help table (argv : list (list Z)) (s : S) : Z * S :=
  if Nat.eqb (length argv) 1 then print_help (sort_cmds table) s else long_help table (tail argv) 0 s.

End Table.

(** ** Completion *)

Definition dots : list Z := [46; 46; 46].

(** The names [p] accepts, at most [maxv - 2] and then the dots; [n_found] are stored. *)
Fixpoint offer (p : list Z -> bool) (maxv : Z) (n_found : Z) (names : list (list Z)) : list (list Z) :=
  match names with
  | [] => []
  | x :: names =>
    if negb (p x) then offer p maxv n_found names else
    if maxv - 2 <=? n_found then [dots] else x :: offer p maxv (n_found + 1) names
  end.

(** [env_complete] on the hash table of the environment: the loop, with the candidates and whether [idx] is nonzero. *)
Fixpoint env_loop (fuel : nat) (env : HashTable.hsearch_data) (var : list Z) (idx maxv found bufsz : Z) : option (list (list Z) * bool) :=
  match fuel with
  | O => None
  | S fuel =>
    idx ← HashTable.hmatch_r var idx env;
    if idx =? 0 then Some ([], false) else
    t ← HashTable.table env;
    s ← HashTable.slot_at t idx;
    let key := HashTable.key (HashTable.entry s) in
    let vallen := Z.of_nat (length key) + 1 in
    if (maxv - 2 <=? found) || (bufsz <? vallen) then Some ([], true) else
    '(l, more) ← env_loop fuel env var idx maxv (found + 1) (bufsz - vallen);
    Some (key :: l, more)
  end.
Definition env_complete (env : HashTable.hsearch_data) (var : list Z) (maxv bufsz : Z) : option (list (list Z)) :=
  '(l, more) ← env_loop (S (Z.to_nat (HashTable.size env))) env var 0 maxv 0 bufsz;
  let l := Qsort.sort_list CString.first_diff l in
  Some (if more : bool then l ++ [dots] else l).

(** [var_complete] *)
Definition var_complete (env : HashTable.hsearch_data) (argv : list (list Z)) (last_char maxv : Z) : option (list (list Z)) :=
  let space := (last_char =? 0) || Ctype.isblank last_char in
  match argv with
  | [_] => if space then env_complete env [] maxv 512 else Some []
  | [_; a] => if negb space then env_complete env a maxv 512 else Some []
  | _ => Some []
  end.

(** [while (isblank( *s)) ++s;] and the argument that starts there. *)
Fixpoint skip_blank (s : list Z) : list Z :=
  match s with [] => [] | c :: r => if Ctype.isblank c then skip_blank r else s end.
Fixpoint span_arg (s : list Z) : list Z * list Z :=
  match s with
  | [] => ([], [])
  | c :: r => if Ctype.isblank c then ([], s) else let '(w, rest) := span_arg r in (c :: w, rest)
  end.

(** [make_argv]; [k] more arguments fit. *)
Fixpoint make_argv (k : nat) (s : list Z) : list (list Z) :=
  match k with
  | O => []
  | S k =>
    match skip_blank s with
    | [] => []
    | s =>
      let '(w, rest) := span_arg s in
      match rest with [] => [w] | _ :: rest => w :: make_argv k rest end
    end
  end.

(** [print_argv]; [i] counts the columns. *)
Fixpoint argv_loop (leader sep : option (list Z)) (linemax i : Z) (argv : list (list Z)) : list Z :=
  match argv with
  | [] => []
  | a :: argv =>
    let ll := Z.of_nat (length (default [] leader)) in
    let sl := Z.of_nat (length (default [] sep)) in
    let len := Z.of_nat (length a) + sl in
    let wrap := linemax <=? i + len in
    (if wrap then [10] ++ default [] leader else default [] sep) ++ a ++
    argv_loop leader sep linemax ((if wrap then ll - sl else i) + len) argv
  end.
Definition print_argv (banner leader sep : option (list Z)) (linemax : Z) (argv : list (list Z)) : list Z :=
  match banner with None => [] | Some b => [10] ++ b end ++ argv_loop leader sep linemax linemax argv ++ [10].

(** [find_common_prefix] *)
Fixpoint same_upto (s t : list Z) : list Z :=
  match s, t with
  | c :: s, d :: t => if c =? d then c :: same_upto s t else []
  | _, _ => []
  end.
Definition find_common_prefix (argv : list (list Z)) : Z :=
  match argv with
  | [] => 0
  | anchor :: argv => Z.of_nat (length (foldl same_upto anchor argv))
  end.

Section Complete.
Context {S : Type} (table : list (cmd_tbl S)) (CONFIG_SYS_PROMPT : list Z).
(** The string that memory holds [k] characters past the start of a candidate, beyond its end. *)
Context (beyond : list Z -> Z -> list Z).

(** [complete_cmdv]: the candidates. *)
Definition complete_cmdv (argv : list (list Z)) (last_char maxv : Z) : option (list (list Z)) :=
  match argv with
  | [] => Some (offer (fun _ => true) maxv 0 (map name table))
  | cmd :: args =>
    if negb (Nat.eqb (length args) 0) || (last_char =? 0) || Ctype.isblank last_char then
      match find_cmd_tbl cmd table with
      | None => Some []
      | Some t => match complete t with None => Some [] | Some f => f argv last_char maxv end
      end
    else
      let len := length (stem cmd) in
      Some (offer (fun n => negb (length n <? len)%nat && bool_decide (take len cmd = take len n)) maxv 0 (map name table))
  end.

(** The string [k] characters into a candidate. *)
Definition suffix (s : list Z) (k : Z) : list Z :=
  if k <=? Z.of_nat (length s) then drop (Z.to_nat k) s else beyond s k.

(** What [cmd_auto_complete] adds: the characters and the separator; [None] in the result when it adds nothing,
    [None] outside it when it reads [argv[-1]]. *)
Definition completion (argv cmdv : list (list Z)) : option (option (list Z * list Z)) :=
  match cmdv with
  | [] => Some None
  | [c] => w ← last argv; Some (Some (suffix c (Z.of_nat (length w)), [32]))
  | c :: _ =>
    let j := find_common_prefix cmdv in
    if negb (j =? 0) then
      w ← last argv;
      let k := Z.of_nat (length w) in
      Some (if 0 <? j - k then Some (take (Z.to_nat (j - k)) (suffix c k), []) else None)
    else Some None
  end.

(** [cmd_auto_complete]: its result, [buf], [*np], [*colp] and what it prints. *)
Definition cmd_auto_complete (prompt : list Z) (buf : arr) (n col : Z) : option (Z * arr * Z * Z * list Z) :=
  if negb (bool_decide (prompt = CONFIG_SYS_PROMPT)) then Some (0, buf, n, col, []) else
  s ← string_at buf;
  let last_char := default 0 (last s) in
  let argv := make_argv (Z.to_nat CONFIG_SYS_MAXARGS) s in
  cmdv ← complete_cmdv argv last_char 20;
  match cmdv with
  | [] => if (1 <? length argv)%nat then Some (0, buf, n, col, []) else Some (1, buf, n, col, [7])
  | _ =>
    add ← completion argv cmdv;
    match add with
    | Some (x, sep) =>
      let k := Z.of_nat (length (x ++ sep)) in
      if CONFIG_SYS_CBSIZE - 2 <=? n + k then Some (1, buf, n, col, [7]) else
      buf ← copy_in buf (Z.of_nat (length s)) (x ++ sep ++ [0]);
      Some (1, buf, n + k, col + k, x ++ sep ++ match sep with [] => [7] | _ => [] end)
    | None => Some (1, buf, n, col, print_argv None (Some [32; 32]) (Some [32]) 78 cmdv ++ prompt ++ s)
    end
  end.

End Complete.

(** ** Look-up *)

(** What the look-up means to do: the command of that name, or the only one the name abbreviates. *)
Definition find_cmd_ref {S} (s : list Z) (table : list (cmd_tbl S)) : option (cmd_tbl S) :=
  match List.find (fun t => bool_decide (name t = stem s)) table with
  | Some t => Some t
  | None => match List.filter (fun t => bool_decide (stem s `prefix_of` name t)) table with [t] => Some t | _ => None end
  end.

Lemma stem_prefix s : take (length (stem s)) s = stem s.
Proof. apply prefix_take, upto_char_prefix. Qed.

Lemma stem_le s : (length (stem s) <= length s)%nat.
Proof. apply prefix_length, upto_char_prefix. Qed.

Lemma full_match (p n : list Z) : p `prefix_of` n -> length p = length n -> n = p.
Proof. intros [r ->] H. rewrite length_app in H. destruct r; [by rewrite app_nil_r|cbn in H; lia]. Qed.

Lemma find_loop_spec {S} s (table : list (cmd_tbl S)) temp n :
  find_loop s (length (stem s)) table temp n =
  match List.find (fun t => bool_decide (name t = stem s)) table with
  | Some t => Some t
  | None =>
    let l := List.filter (fun t => bool_decide (stem s `prefix_of` name t)) table in
    if n + Z.of_nat (length l) =? 1 then match last l with Some t => Some t | None => temp end else None
  end.
Proof.
  revert temp n. induction table as [|t table IH]; intros temp n; cbn [find_loop List.find List.filter].
  { cbn. by rewrite Z.add_0_r. }
  rewrite strncmp_eq_prefix, stem_prefix by apply stem_le.
  case_bool_decide as Hp.
  - destruct (Nat.eqb_spec (length (stem s)) (length (name t))) as [E|E].
    + rewrite bool_decide_true by (by apply full_match). done.
    + rewrite bool_decide_false by (intros E'; rewrite E' in E; done). rewrite IH.
      destruct (List.find _ table); [done|]. cbn [length]. rewrite Nat2Z.inj_succ.
      replace (n + 1 + Z.of_nat (length (List.filter (fun t => bool_decide (stem s `prefix_of` name t)) table)))
        with (n + Z.succ (Z.of_nat (length (List.filter (fun t => bool_decide (stem s `prefix_of` name t)) table)))) by lia.
      destruct (List.filter _ table) as [|t' l]; [done|]. cbn [last]. destruct (last (t' :: l)) eqn:El; [done|].
      by apply last_None in El.
  - rewrite bool_decide_false by (intros E; apply Hp; by rewrite E). apply IH.
Qed.

Lemma find_cmd_tbl_spec {S} s (table : list (cmd_tbl S)) : find_cmd_tbl s table = find_cmd_ref s table.
Proof.
  unfold find_cmd_tbl, find_cmd_ref. rewrite find_loop_spec. destruct (List.find _ table); [done|].
  destruct (List.filter _ table) as [|t [|t' l]]; try done. cbn [length]. cbv zeta. destruct (Z.eqb_spec (0 + Z.of_nat (Datatypes.S (Datatypes.S (length l)))) 1); [lia|done].
Qed.

(** ** The order of [help] *)

Section Sort.
Context {S : Type} (gt : list Z -> list Z -> bool).
Implicit Types (x y : cmd_tbl S) (l : list (cmd_tbl S)).

Definition name_le x y : Prop := gt (name x) (name y) = false.

Lemma bubble_pass_perm i : forall l, (bubble_pass gt i l).1 ≡ₚ l.
Proof.
  induction i as [|i IH]; intros [|x [|y l] ]; cbn [bubble_pass fst]; try done.
  destruct (gt _ _).
  - specialize (IH (x :: l)). destruct (bubble_pass gt i (x :: l)) as [l' w]. cbn [fst] in *. rewrite IH. constructor.
  - specialize (IH (y :: l)). destruct (bubble_pass gt i (y :: l)) as [l' w]. cbn [fst] in *. by rewrite IH.
Qed.

Lemma bubble_loop_perm i : forall l, bubble_loop gt i l ≡ₚ l.
Proof.
  induction i as [|i IH]; intros l; [done|].
  cbn [bubble_loop]. pose proof (bubble_pass_perm (Datatypes.S i) l) as Hp.
  destruct (bubble_pass gt (Datatypes.S i) l) as [l' w]. cbn [fst] in Hp. destruct w; [by rewrite IH|done].
Qed.

Context (Htotal : forall x y, name_le x y \/ name_le y x) (Htrans : forall x y z, name_le x y -> name_le y z -> name_le x z).

(** The first [i] elements are below the rest, which is sorted. *)
Definition settled (i : nat) l : Prop :=
  StronglySorted name_le (drop i l) /\ forall x y, x ∈ take i l -> y ∈ drop i l -> name_le x y.

(** A pass leaves the greatest of the first [i + 1] in place [i]; without a swap they were in order. *)
Lemma bubble_pass_max i : forall l, (i < length l)%nat ->
  exists a m b, (bubble_pass gt i l).1 = a ++ m :: b /\ length a = i /\ drop (Datatypes.S i) l = b /\
    take (Datatypes.S i) l ≡ₚ a ++ [m] /\ (forall x, x ∈ a -> name_le x m) /\
    ((bubble_pass gt i l).2 = false -> StronglySorted name_le (a ++ [m]) /\ (bubble_pass gt i l).1 = l).
Proof.
  induction i as [|i IH]; intros l Hl.
  { destruct l as [|x l]; [cbn in Hl; lia|]. exists [], x, l. cbn. split_and!; auto; try done.
    - intros y Hy. by apply elem_of_nil in Hy.
    - intros _. split; [|done]. repeat constructor. }
  destruct l as [|x [|y l] ]; cbn in Hl; try lia. cbn [bubble_pass].
  destruct (gt (name x) (name y)) eqn:Hc.
  - destruct (IH (x :: l)) as (a & m & b & E & Ea & Eb & Hp & Hm & _); [cbn; lia|].
    destruct (bubble_pass gt i (x :: l)) as [l' w]. cbn [fst snd] in *. subst l'.
    exists (y :: a), m, b. cbn [drop take app length fst snd] in *. rewrite Ea. split_and!; auto; try done.
    + rewrite Permutation_swap. by rewrite Hp.
    + intros z [-> | Hz]%elem_of_cons; [|by apply Hm].
      apply Htrans with x; [destruct (Htotal y x) as [H|H]; [done|unfold name_le in H; congruence]|].
      assert (x ∈ a ++ [m]) as Hx by (rewrite <- Hp; left). apply elem_of_app in Hx as [Hx | ->%list_elem_of_singleton]; [by apply Hm|].
      by destruct (Htotal m m).
  - destruct (IH (y :: l)) as (a & m & b & E & Ea & Eb & Hp & Hm & Hs); [cbn; lia|].
    destruct (bubble_pass gt i (y :: l)) as [l' w]. cbn [fst snd] in *. subst l'.
    assert (name_le x m) as Hxm.
    { apply Htrans with y; [exact Hc|]. assert (y ∈ a ++ [m]) as Hy by (rewrite <- Hp; left).
      apply elem_of_app in Hy as [Hy | ->%list_elem_of_singleton]; [by apply Hm|]. by destruct (Htotal m m). }
    exists (x :: a), m, b. cbn [drop take app length fst snd] in *. rewrite Ea. split_and!; auto; try done.
    + intros z [-> | Hz]%elem_of_cons; [done|by apply Hm].
    + intros Hw. destruct (Hs Hw) as [Hss Hl']. split; [|by rewrite Hl'].
      constructor; [done|]. apply List.Forall_forall. intros z Hz%list_elem_of_In.
      assert (exists r, a ++ [m] = y :: r) as [r Er].
      { destruct a as [|a0 a]; cbn in *; [exists []|exists (a ++ [m])]; congruence. }
      rewrite Er in Hss, Hz. apply elem_of_cons in Hz as [-> | Hz]; [done|].
      apply Htrans with y; [done|]. apply StronglySorted_inv in Hss as [_ Hss]. rewrite List.Forall_forall in Hss.
      by apply Hss, list_elem_of_In.
Qed.

Lemma cmds_sorted_app l1 l2 : StronglySorted name_le l1 -> StronglySorted name_le l2 ->
  (forall x y, x ∈ l1 -> y ∈ l2 -> name_le x y) -> StronglySorted name_le (l1 ++ l2).
Proof.
  induction l1 as [|x l1 IH]; intros H1 H2 H; [done|]. apply StronglySorted_inv in H1 as [H1 Hx].
  cbn. constructor; [apply IH; auto; intros; apply H; auto; by right|].
  apply List.Forall_app. split; [done|]. apply List.Forall_forall. intros y Hy%list_elem_of_In. apply H; [left|done].
Qed.

Lemma bubble_loop_sorts i : forall l, (i < length l)%nat -> settled (Datatypes.S i) l -> StronglySorted name_le (bubble_loop gt i l).
Proof.
  induction i as [|i IH]; intros l Hl [Hs Hb].
  { cbn [bubble_loop]. rewrite <- (take_drop 1 l). apply cmds_sorted_app; auto.
    destruct l; cbn; repeat constructor. }
  cbn [bubble_loop]. pose proof (bubble_pass_perm (Datatypes.S i) l) as Hp0.
  destruct (bubble_pass_max (Datatypes.S i) l Hl) as (a & m & b & E & Ea & Eb & Hp & Hm & Hw).
  destruct (bubble_pass gt (Datatypes.S i) l) as [l' w]. cbn [fst snd] in *. subst l'.
  assert (forall x y, x ∈ a ++ [m] -> y ∈ b -> name_le x y) as Hab.
  { intros x y Hx Hy. rewrite <- Hp in Hx. rewrite <- Eb in Hy. by apply Hb. }
  destruct w.
  - apply IH.
    { apply Permutation_length in Hp0. rewrite Hp0. lia. }
    unfold settled. rewrite <- Ea, drop_app_length, take_app_length. rewrite Eb in Hs. split.
    + apply (cmds_sorted_app [m] b); [repeat constructor|done|]. intros x y Hx Hy. apply Hab; [|done]. apply elem_of_app. by right.
    + intros x y Hx [-> | Hy]%elem_of_cons; [by apply Hm|]. apply Hab; [|done]. apply elem_of_app. by left.
  - destruct (Hw eq_refl) as [Hss _].
    replace (a ++ m :: b) with ((a ++ [m]) ++ b) by (by rewrite <- app_assoc). rewrite Eb in Hs. by apply cmds_sorted_app.
Qed.

Lemma bubble_sorts l : StronglySorted name_le (bubble_loop gt (length l - 1) l).
Proof.
  destruct l as [|x l]; [constructor|]. apply bubble_loop_sorts; [cbn; lia|].
  cbn [length]. replace (Datatypes.S (Datatypes.S (length l) - 1)) with (length (x :: l)) by (cbn; lia).
  unfold settled. rewrite drop_all. split; [constructor|]. intros y z _ Hz. by apply elem_of_nil in Hz.
Qed.

End Sort.

(** Two comparisons that agree on the names of the table sort it alike. *)
Section Ext.
Context {S : Type} (gt gt' : list Z -> list Z -> bool) (P : list Z -> Prop).
Context (Hgt : forall a b, P a -> P b -> gt a b = gt' a b).
Implicit Types l : list (cmd_tbl S).

Lemma bubble_pass_ext i : forall l, Forall (fun x => P (name x)) l -> bubble_pass gt i l = bubble_pass gt' i l.
Proof.
  induction i as [|i IH]; intros [|x [|y l] ] Hl; try done.
  apply Forall_cons_iff in Hl as [Hx Hl]. apply Forall_cons_iff in Hl as [Hy Hl]. cbn [bubble_pass].
  rewrite (Hgt _ _ Hx Hy), (IH (x :: l)), (IH (y :: l)) by (by constructor). done.
Qed.

Lemma bubble_loop_ext i : forall l, Forall (fun x => P (name x)) l -> bubble_loop gt i l = bubble_loop gt' i l.
Proof.
  induction i as [|i IH]; intros l Hl; [done|]. cbn [bubble_loop]. rewrite (bubble_pass_ext _ _ Hl).
  pose proof (bubble_pass_perm gt' (Datatypes.S i) l) as Hp. destruct (bubble_pass gt' (Datatypes.S i) l) as [l' w].
  cbn [fst] in Hp. destruct w; [|done]. apply IH. by rewrite Hp.
Qed.

End Ext.

Definition lex_gt (a b : list Z) : bool := match CString.lex a b with Gt => true | _ => false end.

Lemma lex_gt_total a : forall b, lex_gt a b = false \/ lex_gt b a = false.
Proof.
  unfold lex_gt. induction a as [|c a IH]; intros [|d b]; cbn; auto.
  rewrite (Z.eqb_sym d c). destruct (Z.eqb_spec c d) as [->|Hne]; [apply IH|].
  destruct (Z.ltb_spec c d); [by left|]. right. by replace (d <? c) with true by lia.
Qed.

Lemma lex_gt_trans a : forall b c, lex_gt a b = false -> lex_gt b c = false -> lex_gt a c = false.
Proof.
  unfold lex_gt. induction a as [|x a IH]; intros [|y b] [|z c] H1 H2; cbn in *; try done.
  destruct (Z.eqb_spec x y) as [->|Hxy].
  - destruct (Z.eqb_spec y z) as [->|Hyz]; [by apply (IH b)|done].
  - destruct (Z.ltb_spec x y); [|done]. destruct (Z.eqb_spec y z) as [->|Hyz].
    + replace (x =? z) with false by lia. by replace (x <? z) with true by lia.
    + destruct (Z.ltb_spec y z); [|done]. replace (x =? z) with false by lia. by replace (x <? z) with true by lia.
Qed.

Definition ascii (s : list Z) : Prop := Forall (fun c => 0 < c < 128) s.

Lemma strcmp_gt_ascii a b : ascii a -> ascii b -> strcmp_gt a b = lex_gt a b.
Proof.
  intros Ha Hb. unfold strcmp_gt, lex_gt. pose proof (CString.first_diff_ascii a b Ha Hb) as H.
  destruct (CString.lex a b); cbn in H; lia.
Qed.

Fixpoint help_lines {S} (l : list (cmd_tbl S)) : list (list Z) :=
  match l with
  | [] => []
  | t :: l => match usage t with None => help_lines l | Some u => help_line (name t) u :: help_lines l end
  end.

Lemma print_help_all {S} `{Console S} (l : list (cmd_tbl S)) : (forall s, ctrlc s = (false, s)) ->
  forall s, print_help l s = (0, foldl (fun s x => puts x s) s (help_lines l)).
Proof.
  intros Hc. induction l as [|t l IH]; intros s; [done|]. cbn [print_help help_lines]. rewrite Hc.
  destruct (usage t); apply IH.
Qed.

(** ** Arguments *)

(** The words of a line: its pieces between blanks that are not empty. *)
Fixpoint pieces (s : list Z) : list (list Z) :=
  match s with
  | [] => [ [] ]
  | c :: s => if Ctype.isblank c then [] :: pieces s else match pieces s with [] => [ [c] ] | w :: l => (c :: w) :: l end
  end.
Definition words (s : list Z) : list (list Z) := List.filter (fun w => negb (Nat.eqb (length w) 0)) (pieces s).

Lemma words_skip s : words (skip_blank s) = words s.
Proof. induction s as [|c s IH]; [done|]. cbn [skip_blank]. destruct (Ctype.isblank c) eqn:E; [|done]. rewrite IH. unfold words. cbn [pieces]. by rewrite E. Qed.

Lemma skip_blank_length s : (length (skip_blank s) <= length s)%nat.
Proof. induction s as [|c s IH]; cbn; [done|]. destruct (Ctype.isblank c); cbn; lia. Qed.

Lemma skip_blank_head s c r : skip_blank s = c :: r -> Ctype.isblank c = false.
Proof. induction s as [|d s IH]; cbn; [done|]. destruct (Ctype.isblank d) eqn:E; [exact IH|]. by intros [= <- _]. Qed.

(** The first piece of a line, and the rest after the blank that ends it. *)
Lemma pieces_span s : pieces s = let '(w, rest) := span_arg s in w :: match rest with [] => [] | _ :: r => pieces r end.
Proof.
  induction s as [|c s IH]; [done|]. cbn [pieces span_arg]. destruct (Ctype.isblank c); [done|].
  rewrite IH. by destruct (span_arg s) as [w rest].
Qed.

Lemma span_arg_app s w rest : span_arg s = (w, rest) -> s = w ++ rest.
Proof.
  revert w rest. induction s as [|c s IH]; cbn; intros w rest; [by intros [= <- <-]|].
  destruct (Ctype.isblank c); [by intros [= <- <-]|]. destruct (span_arg s) as [w' r']. intros [= <- <-].
  cbn. f_equal. by apply IH.
Qed.

Lemma words_arg s c r : s = c :: r -> Ctype.isblank c = false ->
  exists w rest, span_arg s = (c :: w, rest) /\ words s = (c :: w) :: match rest with [] => [] | _ :: x => words x end.
Proof.
  intros -> Hc. pose proof (pieces_span (c :: r)) as Hp. cbn [span_arg] in *. rewrite Hc in *.
  destruct (span_arg r) as [w rest]. exists w, rest. split; [done|]. unfold words. rewrite Hp. cbn. by destruct rest.
Qed.

Lemma make_argv_words k : forall s, make_argv k s = take k (words s).
Proof.
  induction k as [|k IH]; intros s; [done|]. cbn [make_argv]. rewrite <- (words_skip s).
  destruct (skip_blank s) as [|c r] eqn:E; [done|].
  destruct (words_arg (c :: r) c r eq_refl (skip_blank_head s c r E)) as (w & rest & -> & ->).
  destruct rest as [|d rest]; cbn [take]; [by rewrite take_nil|]. by rewrite IH.
Qed.

Lemma words_cs s : cs s -> Forall cs (words s).
Proof.
  intros H. apply List.Forall_forall. intros w Hw. apply List.filter_In in Hw as [Hw _]. revert w Hw.
  apply List.Forall_forall. induction s as [|c s IH]; cbn; [by constructor; [apply cs_nil|]|].
  apply cs_cons in H as [Hc H]. specialize (IH H). destruct (Ctype.isblank c); [by constructor; [apply cs_nil|]|].
  destruct (pieces s) as [|w l]; [constructor; [apply cs_cons; split; [done|apply cs_nil]|constructor]|]. apply Forall_cons_iff in IH as [Hw Hl]. constructor; [|done]. by constructor.
Qed.

(** ** The completion as the line editor sees it *)

(** What the editor relies on: the completion of a line [s] that ends at the cursor writes the
    characters [added s] after it and stays in the buffer, and what it prints shows the new line. *)
Class Completer (prompt : list Z) (ac : arr -> Z -> Z -> option (Z * arr * Z * Z * list Z)) (added : list Z -> list Z) : Prop :=
  completes : forall s r col, cs s -> (length s + Datatypes.S (length r) = Z.to_nat CONFIG_SYS_CBSIZE + 1)%nat ->
    exists ret r' col' out,
      ac (s ++ 0 :: r) (Z.of_nat (length s)) col = Some (ret, s ++ added s ++ 0 :: r', Z.of_nat (length s + length (added s)), col', out) /\
      cs (added s) /\ length (added s ++ 0 :: r') = length (0 :: r) /\ (ret = 0 -> added s = [] /\ out = []) /\
      (Forall printable (prompt ++ s ++ added s) -> forall t, shows t (prompt ++ s) [] -> shows (feed t out) (prompt ++ s ++ added s) []).

Section Laws.
Context {S : Type} (table : list (cmd_tbl S)) (prompt : list Z) (beyond : list Z -> Z -> list Z).

(** The table: its names are strings, the completion functions return strings, and
    the commands do not all start alike. *)
Record table_wf : Prop := {
  wf_names : Forall (fun t => cs (name t)) table;
  wf_complete : forall t f argv lc, t ∈ table -> complete t = Some f -> exists l, f argv lc 20 = Some l /\ Forall cs l;
  wf_initials : let l := offer (fun _ => true) 20 0 (map name table) in length l <> 1%nat /\ find_common_prefix l = 0
}.
Context (Hwf : table_wf) (Hbeyond : forall s k, cs (beyond s k)).

Lemma offer_cs p maxv n names : Forall cs names -> Forall cs (offer p maxv n names).
Proof.
  revert n. induction names as [|x names IH]; intros n H; cbn; [constructor|]. apply Forall_cons_iff in H as [Hx H].
  destruct (negb (p x)); [by apply IH|]. destruct (_ <=? n); [|by constructor; [|apply IH] ].
  repeat constructor; lia.
Qed.

Lemma find_cmd_in s t : find_cmd_tbl s table = Some t -> t ∈ table.
Proof.
  rewrite find_cmd_tbl_spec. unfold find_cmd_ref. destruct (List.find _ table) eqn:E.
  - intros [= <-]. apply List.find_some in E as [E _]. by apply list_elem_of_In.
  - destruct (List.filter _ table) as [|x [|] ] eqn:F; try done. intros [= <-].
    assert (List.In x (List.filter (fun t => bool_decide (stem s `prefix_of` name t)) table)) as Hin by (rewrite F; by left).
    apply List.filter_In in Hin as [Hin _]. by apply list_elem_of_In.
Qed.

Lemma complete_cmdv_total argv lc : exists l, complete_cmdv table argv lc 20 = Some l /\ Forall cs l /\
  (argv = [] -> l = offer (fun _ => true) 20 0 (map name table)).
Proof.
  assert (Forall cs (map name table)) as Hn by (apply Forall_map, (wf_names Hwf)).
  destruct argv as [|c args]; cbn [complete_cmdv].
  { eexists. split_and!; [done|by apply offer_cs|done]. }
  destruct (_ || _).
  - destruct (find_cmd_tbl c table) as [t|] eqn:E; [|by exists []; split_and!].
    destruct (complete t) as [f|] eqn:F; [|by exists []; split_and!].
    destruct (wf_complete Hwf t f (c :: args) lc (find_cmd_in _ _ E) F) as (l & -> & Hl). by exists l; split_and!.
  - eexists. split_and!; [done|by apply offer_cs|done].
Qed.

Lemma suffix_cs s k : cs s -> cs (suffix beyond s k).
Proof. intros H. unfold suffix. destruct (_ <=? _); [by apply cs_drop|apply Hbeyond]. Qed.

Lemma completion_total argv cmdv : Forall cs cmdv -> (argv = [] -> length cmdv <> 1%nat /\ find_common_prefix cmdv = 0) ->
  exists a, completion beyond argv cmdv = Some a /\ forall x sep, a = Some (x, sep) -> cs x /\ (sep = [] \/ sep = [32]).
Proof.
  intros Hc Ha. unfold completion. destruct cmdv as [|c [|d l] ].
  - by eexists.
  - destruct (last argv) as [w|] eqn:E; cbn [mbind option_bind].
    + eexists. split; [done|]. intros x sep [= <- <-]. apply Forall_cons_iff in Hc as [Hc _]. split; [by apply suffix_cs|by right].
    + apply last_None in E. destruct (Ha E). done.
  - cbv zeta. destruct (Z.eqb_spec (find_common_prefix (c :: d :: l)) 0) as [E|E]; cbn [negb]; [by eexists|].
    destruct (last argv) as [w|] eqn:Ew; cbn [mbind option_bind]; [|apply last_None in Ew; destruct (Ha Ew); done].
    eexists. split; [done|]. intros x sep. case_bools; [|done]. intros [= <- <-].
    apply Forall_cons_iff in Hc as [Hc _]. split; [by apply cs_take, suffix_cs|by left].
Qed.

(** What is printed when there is nothing to add: the candidates, and the line again. *)
Lemma listing_shows cmdv s t : Forall printable (prompt ++ s) ->
  shows (feed t (print_argv None (Some [32; 32]) (Some [32]) 78 cmdv ++ prompt ++ s)) (prompt ++ s) [].
Proof.
  intros Hp. unfold print_argv. cbn [app]. rewrite <- app_assoc, feed_app. cbn [app]. rewrite feed_newline, feed_printable by done.
  split; [done|]. exists 0%nat. by rewrite drop_nil.
Qed.

Lemma adding_shows x sep t s : sep = [] \/ sep = [32] -> Forall printable (prompt ++ s ++ x ++ sep) -> shows t (prompt ++ s) [] ->
  shows (feed t (x ++ sep ++ match sep with [] => [7] | _ => [] end)) (prompt ++ s ++ x ++ sep) [].
Proof.
  intros Hsep Hp [Hl [k Hr] ]. rewrite !Forall_app in Hp. destruct Hp as (_ & _ & Hx & Hs).
  rewrite app_assoc, feed_app, (feed_text t _ (x ++ sep) _ Hl Hr) by (by apply Forall_app).
  assert (forall u, feed u match sep with [] => [7] | _ => [] end = u) as -> by (intros u; destruct Hsep as [-> | ->]; [apply feed_bell|done]).
  split; [by rewrite <- !app_assoc|]. exists (k - length (x ++ sep))%nat. cbn [right app]. by rewrite drop_replicate.
Qed.

(** The characters a TAB adds to the line [s]. *)
Definition added (CONFIG_SYS_PROMPT s : list Z) : list Z :=
  if negb (bool_decide (prompt = CONFIG_SYS_PROMPT)) then [] else
  let argv := make_argv (Z.to_nat CONFIG_SYS_MAXARGS) s in
  match cmdv ← complete_cmdv table argv (default 0 (last s)) 20; completion beyond argv cmdv with
  | Some (Some (x, sep)) =>
    if CONFIG_SYS_CBSIZE - 2 <=? Z.of_nat (length s) + Z.of_nat (length (x ++ sep)) then [] else x ++ sep
  | _ => []
  end.

Lemma cmd_auto_complete_completes CONFIG_SYS_PROMPT :
  Completer prompt (cmd_auto_complete table CONFIG_SYS_PROMPT beyond prompt) (added CONFIG_SYS_PROMPT).
Proof.
  intros s r col Hs Hlen. unfold cmd_auto_complete. set (new := added CONFIG_SYS_PROMPT s).
  assert (forall ret out, new = [] -> (ret = 0 -> out = []) -> (Forall printable (prompt ++ s) -> forall t, shows t (prompt ++ s) [] -> shows (feed t out) (prompt ++ s) []) ->
    exists ret' r' col' out', Some (ret, s ++ 0 :: r, Z.of_nat (length s), col, out) =
      Some (ret', s ++ new ++ 0 :: r', Z.of_nat (length s + length new), col', out') /\
      cs new /\ length (new ++ 0 :: r') = length (0 :: r) /\ (ret' = 0 -> new = [] /\ out' = []) /\
      (Forall printable (prompt ++ s ++ new) -> forall t, shows t (prompt ++ s) [] -> shows (feed t out') (prompt ++ s ++ new) [])) as Hnone.
  { intros ret out -> Hret Hout. exists ret, r, col, out. rewrite app_nil_r, Nat.add_0_r. split_and!; auto. apply cs_nil. }
  pose proof (eq_refl : new = added CONFIG_SYS_PROMPT s) as Enew. clearbody new. unfold added in Enew.
  case_bool_decide; cbn [negb] in *; [|by apply Hnone].
  rewrite string_at_app by done. cbn [mbind option_bind]. cbv zeta in *.
  set (argv := make_argv _ s) in *.
  destruct (complete_cmdv_total argv (default 0 (last s))) as (cmdv & E & Hcs & Hall). rewrite E in *. clear E. cbn [mbind option_bind] in *.
  destruct cmdv as [|c0 cmdv0] eqn:Ecmdv; [destruct (1 <? length argv)%nat; apply Hnone; try done; intros _ t; by rewrite feed_bell|].
  rewrite <- Ecmdv in *.
  destruct (completion_total argv cmdv Hcs) as (a & E & Ha). { intros E. rewrite (Hall E). apply (wf_initials Hwf). }
  rewrite E in *. cbn [mbind option_bind]. destruct a as [ [x sep] |]; [|apply Hnone; [done..|]; intros Hp t _; by apply listing_shows].
  destruct (Ha x sep eq_refl) as [Hx Hsep]. set (k := Z.of_nat (length (x ++ sep))) in *.
  destruct (Z.leb_spec (CONFIG_SYS_CBSIZE - 2) (Z.of_nat (length s) + k)) as [Hk|Hk]; [apply Hnone; [done..|]; intros _ t; by rewrite feed_bell|].
  subst new. assert (Hin : (length (x ++ sep ++ [0%Z]) <= length (0%Z :: r))%nat).
  { subst k. unfold CONFIG_SYS_CBSIZE in *. rewrite !length_app in *. cbn [length] in *. lia. }
  rewrite <- (take_drop (length (x ++ sep ++ [0])) (0 :: r)), (copy_in_app s (take _ (0 :: r)) (x ++ sep ++ [0])) by (rewrite length_take; lia).
  cbn [mbind option_bind]. exists 1, (drop (length (x ++ sep ++ [0])) (0 :: r)), (col + k), (x ++ sep ++ match sep with [] => [7] | _ => [] end).
  split_and!.
  - replace (Z.of_nat (length s) + k) with (Z.of_nat (length s + length (x ++ sep))) by (subst k; lia). by rewrite <- !app_assoc.
  - apply cs_app. split; [done|]. destruct Hsep as [-> | ->]; [apply cs_nil|]. repeat constructor; lia.
  - revert Hin. rewrite take_drop, !length_app. cbn [length]. rewrite length_drop. cbn [length]. lia.
  - done.
  - intros Hp t Ht. by apply adding_shows.
Qed.

End Laws.

(** ** Theorems *)

Lemma sorted_weaken {A} (R Q : A -> A -> Prop) l : (forall x y, R x y -> Q x y) -> StronglySorted R l -> StronglySorted Q l.
Proof. intros H. induction 1 as [|x l _ IH Hx]; constructor; [done|]. eapply List.Forall_impl; [|exact Hx]. auto. Qed.

(** C27: the look-up of a command returns the command whose name is the word up to its first dot, and if there is
    none the only command the word abbreviates; a word that abbreviates none or several is not found. *)
Theorem find_cmd_meant {S} (s : list Z) (table : list (cmd_tbl S)) : find_cmd_tbl s table = find_cmd_ref s table.
Proof. apply find_cmd_tbl_spec. Qed.

(** [help] without arguments prints the usage of every command of the table once, in the order of the names. *)
Theorem do_help_lists {S} `{Console S} (table : list (cmd_tbl S)) argv0 s :
  Forall (fun t => ascii (name t)) table -> (forall s, ctrlc s = (false, s)) ->
  exists l, l ≡ₚ table /\ StronglySorted (fun x y => CString.lex (name x) (name y) <> Gt) l /\
    _do_help table [argv0] s = (0, foldl (fun s x => puts x s) s (help_lines l)).
Proof.
  intros Ha Hc. exists (sort_cmds table). split; [apply bubble_loop_perm|]. split.
  - unfold sort_cmds. rewrite (bubble_loop_ext strcmp_gt lex_gt ascii strcmp_gt_ascii _ _ Ha).
    eapply sorted_weaken; [|apply (bubble_sorts lex_gt)].
    + intros x y H0. unfold name_le, lex_gt in H0. by destruct (CString.lex _ _).
    + intros x y. apply lex_gt_total.
    + intros x y z. apply lex_gt_trans.
  - unfold _do_help. cbn [length Nat.eqb]. by apply print_help_all.
Qed.

(** The words of a line that [make_argv] finds are its pieces between blanks, as many as fit. *)
Theorem make_argv_splits k s : make_argv k s = take k (words s).
Proof. apply make_argv_words. Qed.

(** A word without dot that abbreviates one command completes to the name of that command. *)
Lemma offer_unique p maxv n names x : List.filter p names = [x] -> n < maxv - 2 -> offer p maxv n names = [x].
Proof.
  revert n. induction names as [|y names IH]; intros n H Hn; cbn in *; [done|]. destruct (p y) eqn:E; cbn [negb].
  - injection H as -> Hf. replace (maxv - 2 <=? n) with false by lia. f_equal. clear IH. revert n Hn.
    induction names as [|z names IH]; intros n Hn; cbn in *; [done|]. destruct (p z); [done|]. cbn. by apply IH.
  - by apply IH.
Qed.

Definition plain_word (w : list Z) : Prop := w <> [] /\ cs w /\ Forall (fun c => Ctype.isblank c = false /\ c <> 46) w.

Lemma plain_word_stem w : plain_word w -> stem w = w.
Proof.
  intros (_ & _ & H). unfold stem. induction w as [|c w IH]; [done|]. apply Forall_cons_iff in H as [ [_ Hc] H]. cbn.
  rewrite (proj2 (Z.eqb_neq _ _) Hc). f_equal. by apply IH.
Qed.

Lemma plain_word_words w : plain_word w -> words w = [w].
Proof.
  intros (Hne & _ & H). unfold words. assert (pieces w = [w]) as ->; [|by destruct w].
  clear Hne. induction w as [|c w IH]; [done|]. apply Forall_cons_iff in H as [ [Hc _] H]. cbn. rewrite Hc, IH by done. done.
Qed.

Lemma last_char_plain w : plain_word w -> (default 0 (last w) =? 0) || Ctype.isblank (default 0 (last w)) = false.
Proof.
  intros (Hne & Hcs & H). destruct (last w) as [c|] eqn:E; [|by apply last_None in E].
  apply last_Some_elem_of in E. cbn [default from_option id]. unfold cs in Hcs. rewrite Forall_forall in H, Hcs.
  destruct (H c E) as [-> _]. specialize (Hcs c E). cbv beta in Hcs. rewrite orb_false_r. lia.
Qed.

Lemma prefix_test (w n : list Z) : negb (length n <? length w)%nat && bool_decide (take (length w) w = take (length w) n) = bool_decide (w `prefix_of` n).
Proof.
  rewrite take_ge by done. case_bool_decide as Hp; case_bool_decide as Hq; try done.
  - rewrite andb_true_r. destruct (Nat.ltb_spec (length n) (length w)) as [Hl|]; [|done].
    apply (f_equal length) in Hp. rewrite length_take in Hp. lia.
  - exfalso. apply Hq. exists (drop (length w) n). rewrite Hp at 1. by rewrite take_drop.
  - exfalso. apply Hp. by rewrite (prefix_take w n Hq).
  - by rewrite andb_false_r.
Qed.

Lemma filter_names {S} (table : list (cmd_tbl S)) p t : List.filter (fun t => p (name t)) table = [t] -> List.filter p (map name table) = [name t].
Proof.
  intros H. assert (List.filter p (map name table) = map name (List.filter (fun t => p (name t)) table)) as ->; [|by rewrite H].
  clear H. induction table as [|x table IH]; [done|]. cbn. destruct (p (name x)); cbn; by rewrite IH.
Qed.

(** TAB after a word that abbreviates one command and holds no dot replaces it by that command's name and a
    blank, and the name is then looked up as that command. *)
Theorem tab_completes {S} (table : list (cmd_tbl S)) P beyond w t r col :
  plain_word w -> List.filter (fun t => bool_decide (w `prefix_of` name t)) table = [t] -> cs (name t) ->
  Z.of_nat (length (name t)) + 1 < CONFIG_SYS_CBSIZE - 2 -> (length w + Datatypes.S (length r) = Z.to_nat CONFIG_SYS_CBSIZE + 1)%nat ->
  exists r', let n := Z.of_nat (length (name t)) + 1 in
    cmd_auto_complete table P beyond P (w ++ 0 :: r) (Z.of_nat (length w)) col =
      Some (1, name t ++ 32 :: 0 :: r', n, col + (n - Z.of_nat (length w)), drop (length w) (name t) ++ [32]).
Proof.
  intros Hw Hf Hn Hlen Hr. pose proof Hw as (Hne & Hcs & _).
  assert (w `prefix_of` name t) as [x Hx].
  { assert (List.In t (List.filter (fun t => bool_decide (w `prefix_of` name t)) table)) as Hin by (rewrite Hf; by left).
    apply List.filter_In in Hin as [_ Hin]. by apply bool_decide_eq_true in Hin. }
  unfold cmd_auto_complete. rewrite bool_decide_true by done. cbn [negb]. rewrite string_at_app by done. cbn [mbind option_bind].
  rewrite make_argv_words, plain_word_words by done. cbv zeta. change (take (Z.to_nat CONFIG_SYS_MAXARGS) [w]) with [w].
  unfold complete_cmdv. cbn [length Nat.eqb negb orb]. rewrite last_char_plain by done. cbv zeta. rewrite plain_word_stem by done.
  rewrite (offer_unique _ 20 0 _ (name t)); [|rewrite <- (filter_names table (fun n => bool_decide (w `prefix_of` n)) t Hf); apply List.filter_ext; intros n; apply prefix_test|lia].
  cbn [mbind option_bind completion last]. cbn. rewrite Hx in *.
  assert (suffix beyond (w ++ x) (Z.of_nat (length w)) = x) as ->.
  { unfold suffix. rewrite length_app. replace (_ <=? _) with true by lia. by rewrite Nat2Z.id, drop_app_length. }
  rewrite drop_app_length, (length_app w x) in *.
  rewrite length_app. cbn [length]. unfold CONFIG_SYS_CBSIZE in *.
  destruct (Z.leb_spec (512 - 2) (Z.of_nat (length w) + Z.of_nat (length x + 1))) as [|Hk]; [lia|].
  assert (Hin : (length (x ++ [32%Z; 0%Z]) <= length (0%Z :: r))%nat) by (rewrite length_app; cbn [length]; lia).
  rewrite <- (take_drop (length (x ++ [32; 0])) (0 :: r)), (copy_in_app w (take _ (0 :: r)) (x ++ [32; 0])) by (rewrite length_take; lia).
  cbn [mbind option_bind]. eexists. rewrite <- !app_assoc. cbn [app].
  replace (Z.of_nat (length w) + Z.of_nat (length x + 1)) with (Z.of_nat (length w + length x) + 1) by lia.
  replace (col + Z.of_nat (length x + 1)) with (col + (Z.of_nat (length w + length x) + 1 - Z.of_nat (length w))) by lia. done.
Qed.

(** *** A table *)

#[export] Instance screen : Console (list Z) := {|
  puts := fun x s => s ++ x; ctrlc := fun s => (false, s); had_ctrlc := fun _ => false; clear_ctrlc := fun s => s |}.

Definition entry (n : string) (args : Z) (rc : Z) (f : option (list (list Z) -> Z -> Z -> option (list (list Z)))) : cmd_tbl (list Z) := {|
  name := lit n; maxargs := args; repeatable := 1; cmd := fun _ argv s => Some (rc, s ++ concat argv);
  usage := Some (lit n); help := None; complete := f |}.

Definition one_var : list (list Z) -> Z -> Z -> option (list (list Z)) := fun _ _ _ => Some [lit "bootcmd_bare_arm"].
Definition demo_table : list (cmd_tbl (list Z)) :=
  [entry "cp" 4 0 None; entry "bootm" 16 0 None; entry "printenv" 16 0 (Some one_var); entry "boot" 1 0 None].

Lemma demo_table_wf : table_wf demo_table.
Proof.
  split.
  - apply (bool_decide_unpack (Forall (fun t => cs (name t)) demo_table)). vm_compute. exact I.
  - intros t f argv lc Hin Hf. unfold demo_table in Hin.
    repeat (apply elem_of_cons in Hin as [-> | Hin]; [cbn in Hf; try done|]); [|by apply elem_of_nil in Hin].
    injection Hf as <-. eexists. split; [done|]. apply (bool_decide_unpack (Forall cs [lit "bootcmd_bare_arm"])). vm_compute. exact I.
  - vm_compute. done.
Qed.

Lemma do_help_lists_witness : exists l, l ≡ₚ demo_table /\ StronglySorted (fun x y => CString.lex (name x) (name y) <> Gt) l /\
  _do_help demo_table [lit "help"] [] = (0, foldl (fun s x => puts x s) [] (help_lines l)).
Proof.
  apply do_help_lists; [|done]. apply (bool_decide_unpack (Forall (fun t => Forall (fun c => 0 < c < 128) (name t)) demo_table)). vm_compute. exact I.
Defined.

Definition zeros (n : nat) : list Z := replicate n 0.

Lemma tab_completes_witness : exists r', let n := 6 in
  cmd_auto_complete demo_table [] (fun _ _ => []) [] (lit "bootm" ++ 0 :: zeros 507) 5 0 =
    Some (1, lit "bootm" ++ 32 :: 0 :: r', n, 1, [32]).
Proof.
  apply (tab_completes demo_table [] (fun _ _ => []) (lit "bootm") (entry "bootm" 16 0 None) (zeros 507) 0).
  - split; [done|]. split; [apply (bool_decide_unpack (cs (lit "bootm")))|apply (bool_decide_unpack (Forall (fun c => Ctype.isblank c = false /\ c <> 46) (lit "bootm")))]; vm_compute; exact I.
  - vm_compute. reflexivity.
  - apply (bool_decide_unpack (cs (lit "bootm"))). vm_compute. exact I.
  - vm_compute. reflexivity.
  - vm_compute. reflexivity.
Defined.

(** TAB after "cp.b", whose only match is the command cp, inserts what memory holds past the end of that name. *)
Theorem dotted_completion_overruns beyond r : length r = 508%nat -> beyond (lit "cp") 4 = lit "xy" ->
  (x ← cmd_auto_complete demo_table [] beyond [] (lit "cp.b" ++ 0 :: r) 4 0; string_at x.1.1.1.2) = Some (lit "cp.bxy ").
Proof.
  intros Hr Hb. unfold cmd_auto_complete. rewrite bool_decide_true by done. cbn [negb].
  rewrite string_at_app by (apply (bool_decide_unpack (cs (lit "cp.b"))); vm_compute; exact I). cbn [mbind option_bind].
  change (complete_cmdv demo_table _ _ 20) with (Some [lit "cp"]). cbn [mbind option_bind completion].
  change (last _) with (Some (lit "cp.b")). cbn [mbind option_bind]. change (suffix beyond (lit "cp") _) with (beyond (lit "cp") 4). rewrite Hb.
  cbn [mbind option_bind]. change (_ <=? _) with false. cbn iota.
  change (Z.of_nat (length (lit "cp.b"))) with 4. destruct r as [|r0 [|r1 [|r2 r] ] ]; cbn [length] in Hr; try lia.
  change (lit "cp.b" ++ 0 :: r0 :: r1 :: r2 :: r) with (lit "cp.b" ++ [0; r0; r1; r2] ++ r).
  change 4 with (Z.of_nat (length (lit "cp.b"))). change (lit "xy" ++ [32] ++ [0]) with (lit "xy" ++ [32; 0]).
  rewrite copy_in_app by done. reflexivity.
Qed.

(** TAB after "printenv " with one variable drops from its name as many characters as "printenv" has. *)
Example blank_completion_drops :
  (x ← cmd_auto_complete demo_table [] (fun _ _ => []) [] (lit "printenv " ++ 0 :: zeros 503) 9 0; string_at x.1.1.1.2)
  = Some (lit "printenv bare_arm ").
Proof. vm_compute. reflexivity. Qed.

End Command.
