(* ===== verification/Blkcache.v ===== *)
(** * Blkcache: the cache of blocks

    U-Boot's drivers/block/blkcache.c, the wrappers [blk_dread], [blk_dwrite] and [blk_derase] of include/blk.h that go
    through it, and the command [blkcache] of cmd/blkcache.c.  The list of entries is kept with the most recently used
    one first; an entry remembers the size of its buffer.  [None] is an access outside a buffer or a null entry.  The
    devices behind the cache are the interface [Devices]; with any device that keeps its blocks between writes the
    wrappers return what the device itself would return. *)

From stdpp Require Import base list option strings.
From Stdlib Require Import ZifyBool.
From S2P Require Import Prelude Cmem Carray Strto Part Command.
Import Carray.

Module Blkcache.

(** ** The code *)

Record node := Node { iftype : Z; devnum : Z; start : Z; blkcnt : Z; blksz : Z; room : Z; cache : list Z }.
Record stats := Stats { hits : Z; misses : Z; entries : Z; max_blocks_per_entry : Z; max_entries : Z }.
Record state := State { block_cache : list node; _stats : stats }.

Definition boot : state := State [] (Stats 0 0 0 2 32).

Definition set_entries (x : stats) (n : Z) : stats := Stats (hits x) (misses x) n (max_blocks_per_entry x) (max_entries x).

(** The test of [cache_find]; the sums are 32 bits wide. *)
Definition covers (t n s c z : Z) (e : node) : bool :=
  (iftype e =? t) && (devnum e =? n) && (blksz e =? z) && (start e <=? s) && (u32 (s + c) <=? u32 (start e + blkcnt e)).

(** [cache_find]: the entry and the list with that entry in front. *)
Fixpoint find_entry (p : node -> bool) (l : list node) : option (node * list node) :=
  match l with
  | [] => None
  | e :: l => if p e then Some (e, l) else '(x, rest) ← find_entry p l; Some (x, e :: rest)
  end.
Definition cache_find (l : list node) (t n s c z : Z) : option (node * list node) :=
  '(e, rest) ← find_entry (covers t n s c z) l; Some (e, e :: rest).

(** [memcpy] of [len] bytes from an offset of a buffer. *)
Definition copy (l : list Z) (off len : Z) : option (list Z) :=
  if (0 <=? off) && (off + len <=? Z.of_nat (length l)) then Some (take (Z.to_nat len) (drop (Z.to_nat off) l)) else None.

(** [blkcache_read]: the bytes copied, or a miss. *)
Definition blkcache_read (t n s c z : Z) (x : state) : option (option (list Z) * state) :=
  let st := _stats x in
  match cache_find (block_cache x) t n s c z with
  | Some (e, l) =>
    data ← copy (cache e) (u32 ((s - start e) * z)) (u32 (z * c));
    Some (Some data, State l (Stats (u32 (hits st + 1)) (misses st) (entries st) (max_blocks_per_entry st) (max_entries st)))
  | None => Some (None, State (block_cache x) (Stats (hits st) (u32 (misses st + 1)) (entries st) (max_blocks_per_entry st) (max_entries st)))
  end.

Section Fill.
(** Whether an allocation of that many bytes succeeds; [sizeof( *node )] is 32. *)
Context (malloc : Z -> bool).

(** The entry that is filled, the least recently used one when there are enough, else a new one: its buffer, if it has one. *)
Definition take_entry (bytes : Z) (x : state) : option (option (option Z * state)) :=
  let st := _stats x in
  if max_entries st <=? entries st then
    e ← last (block_cache x);
    let x := State (removelast (block_cache x)) (set_entries st (u32 (entries st - 1))) in
    Some (Some (if u32 (blkcnt e * blksz e) <? bytes then None else Some (room e), x))
  else Some (if malloc 32 then Some (None, x) else None).

Definition blkcache_fill (t n s c z : Z) (buffer : list Z) (x : state) : option state :=
  let st := _stats x in
  if max_blocks_per_entry st <? c then Some x else
  if max_entries st =? 0 then Some x else
  let bytes := u32 (z * c) in
  r ← take_entry bytes x;
  match r with
  | None => Some x
  | Some (space, x) =>
    match (match space with Some r => Some r | None => if malloc bytes then Some bytes else None end) with
    | None => Some x
    | Some space =>
      if space <? bytes then None else
      data ← copy buffer 0 bytes;
      Some (State (Node t n s c z space data :: block_cache x) (set_entries (_stats x) (u32 (entries (_stats x) + 1))))
    end
  end.

End Fill.

Definition of_device (t n : Z) (e : node) : bool := (iftype e =? t) && (devnum e =? n).

Fixpoint drop_entries (t n : Z) (l : list node) (count : Z) : list node * Z :=
  match l with
  | [] => ([], count)
  | e :: l =>
    if of_device t n e then drop_entries t n l (u32 (count - 1))
    else let '(l, count) := drop_entries t n l count in (e :: l, count)
  end.
Definition blkcache_invalidate (t n : Z) (x : state) : state :=
  let '(l, count) := drop_entries t n (block_cache x) (entries (_stats x)) in State l (set_entries (_stats x) count).

Definition blkcache_configure (blocks new_entries : Z) (x : state) : state :=
  let st := _stats x in
  if negb (blocks =? max_blocks_per_entry st) || negb (new_entries =? max_entries st)
  then State [] (Stats 0 0 0 blocks new_entries)
  else State (block_cache x) (Stats 0 0 (entries st) blocks new_entries).

Definition blkcache_stats (x : state) : stats * state :=
  let st := _stats x in (st, State (block_cache x) (Stats 0 0 (entries st) (max_blocks_per_entry st) (max_entries st))).

(** *** Devices *)

(** Devices by interface and number: their blocks, how many of what size, reading and writing. *)
Class Devices := {
  disks : Type;
  contents : disks -> Z -> Z -> mem;
  lba : Z -> Z -> Z;
  block_size : Z -> Z -> Z;
  block_read : disks -> Z -> Z -> Z -> Z -> Z * list Z;
  block_write : disks -> Z -> Z -> Z -> Z -> list Z -> Z * disks;
  block_erase : disks -> Z -> Z -> Z -> Z -> Z * disks;
  (** a read inside the device gives its blocks, any other is not complete *)
  read_inside d t n s c : 0 <= s -> 0 <= c -> s + c <= lba t n -> block_read d t n s c = (c, bytes (contents d t n) (s * block_size t n) (Z.to_nat (c * block_size t n)));
  read_outside d t n s c : 0 <= s -> 0 < c -> lba t n < s + c -> (block_read d t n s c).1 <> c;
  (** writing and erasing change the device they are for *)
  write_other d t n s c l t' n' : (t', n') <> (t, n) -> contents (block_write d t n s c l).2 t' n' = contents d t' n';
  erase_other d t n s c t' n' : (t', n') <> (t, n) -> contents (block_erase d t n s c).2 t' n' = contents d t' n';
}.

Section Wrappers.
Context {DV : Devices} (malloc : Z -> bool).

(** [blk_dread]: the number of blocks and the bytes in the buffer. *)
Definition blk_dread (t n s c : Z) (d : disks) (x : state) : option (Z * list Z * state) :=
  let z := block_size t n in
  '(hit, x) ← blkcache_read t n s c z x;
  match hit with
  | Some data => Some (c, data, x)
  | None =>
    let '(r, data) := block_read d t n s c in
    x ← (if r =? c then blkcache_fill malloc t n s c z data x else Some x);
    Some (r, data, x)
  end.

Definition blk_dwrite (t n s c : Z) (l : list Z) (d : disks) (x : state) : Z * disks * state :=
  let x := blkcache_invalidate t n x in let '(r, d) := block_write d t n s c l in (r, d, x).

Definition blk_derase (t n s c : Z) (d : disks) (x : state) : Z * disks * state :=
  let x := blkcache_invalidate t n x in let '(r, d) := block_erase d t n s c in (r, d, x).

End Wrappers.

(** ** The invariant *)

Section Invariant.
Context {DV : Devices} (Hlba : forall t n, 0 <= lba t n < 2 ^ 32) (Hsize : forall t n, 0 < block_size t n).

(** An entry shows blocks of its device, and its buffer is large enough. *)
Record entry_ok (d : disks) (e : node) : Prop := {
  eo_size : blksz e = block_size (iftype e) (devnum e);
  eo_start : 0 <= start e;
  eo_count : 0 <= blkcnt e;
  eo_end : start e + blkcnt e <= lba (iftype e) (devnum e);
  eo_bytes : blkcnt e * blksz e < 2 ^ 32;
  eo_room : blkcnt e * blksz e <= room e;
  eo_data : cache e = bytes (contents d (iftype e) (devnum e)) (start e * blksz e) (Z.to_nat (blkcnt e * blksz e))
}.

Record wf (d : disks) (x : state) : Prop := {
  wf_count : entries (_stats x) = Z.of_nat (length (block_cache x));
  wf_max : entries (_stats x) <= max_entries (_stats x) < 2 ^ 32;
  wf_entries : Forall (entry_ok d) (block_cache x)
}.

Lemma boot_wf d : wf d boot.
Proof. split; [done|done|by apply List.Forall_nil]. Qed.

Lemma find_entry_spec p l e rest : find_entry p l = Some (e, rest) -> p e = true /\ l ≡ₚ e :: rest.
Proof.
  revert rest. induction l as [|y l IH]; intros rest; cbn [find_entry]; [done|]. destruct (p y) eqn:Ey; [by intros [= <- <-]|].
  destruct (find_entry p l) as [ [e' r']|] eqn:E; [|done]. cbn [mbind option_bind]. intros [= -> <-]. destruct (IH r' eq_refl) as [Hp Hl]. split; [done|]. rewrite Hl. apply Permutation_swap.
Qed.

(** A request for at least one block, inside 32 bits, with its bytes. *)
Definition request (t n s c : Z) : Prop := 0 <= s /\ 0 < c /\ s + c < 2 ^ 32 /\ c * block_size t n < 2 ^ 32.

Lemma bytes_sub m p n off len : (off + len <= n)%nat -> take len (drop off (bytes m p n)) = bytes m (p + Z.of_nat off) len.
Proof.
  intros H. replace n with (off + (len + (n - off - len)))%nat by lia. rewrite !bytes_app. rewrite drop_app_length' by (by rewrite length_bytes). by rewrite take_app_length' by (by rewrite length_bytes).
Qed.

Lemma covered_data d t n s c e : entry_ok d e -> request t n s c -> covers t n s c (block_size t n) e = true ->
  s + c <= lba t n /\ copy (cache e) (u32 ((s - start e) * block_size t n)) (u32 (block_size t n * c)) = Some (bytes (contents d t n) (s * block_size t n) (Z.to_nat (c * block_size t n))).
Proof.
  intros [Es E1 E2 E3 E4 E5 E6] (R1 & R2 & R3 & R4) Hc. unfold covers in Hc. rewrite !andb_true_iff, !Z.eqb_eq, !Z.leb_le in Hc. destruct Hc as [ [ [ [C1 C2] C3] C4] C5].
  rewrite C1, C2 in *. pose proof (Hlba t n). pose proof (Hsize t n) as Hz. rewrite !u32_small in C5 by lia. split; [lia|]. rewrite Es in *. set (z := block_size t n) in *.
  assert (0 <= (s - start e) * z) as H0 by (apply Z.mul_nonneg_nonneg; lia). assert ((s - start e) * z + z * c <= blkcnt e * z) as H1 by nia.
  rewrite !u32_small by lia. unfold copy. rewrite E6, length_bytes, Z2Nat.id by lia. rewrite (proj2 (Z.leb_le _ _) H0), (proj2 (Z.leb_le _ _) H1). cbn [andb]. f_equal.
  rewrite bytes_sub by lia. rewrite Z2Nat.id by lia. f_equal; [lia|f_equal; lia].
Qed.

Lemma wf_perm d x l st : wf d x -> block_cache x ≡ₚ l -> entries st = entries (_stats x) -> max_entries st = max_entries (_stats x) -> wf d (State l st).
Proof. intros [W1 W2 W3] Hp H1 H2. split; cbn; [rewrite H1, W1; by rewrite Hp|lia|by rewrite <- Hp]. Qed.

(** A read from the cache: the blocks of the device, or nothing. *)
Lemma read_spec d t n s c x : wf d x -> request t n s c -> exists hit x', blkcache_read t n s c (block_size t n) x = Some (hit, x') /\ wf d x' /\
  match hit with Some data => s + c <= lba t n /\ data = bytes (contents d t n) (s * block_size t n) (Z.to_nat (c * block_size t n)) | None => True end.
Proof.
  intros Hwf Hr. unfold blkcache_read, cache_find. destruct (find_entry _ _) as [ [e rest]|] eqn:E; cbn [mbind option_bind].
  - apply find_entry_spec in E as [Hc Hp]. assert (entry_ok d e) as He by (eapply Forall_forall; [apply (wf_entries _ _ Hwf)|]; rewrite Hp; left).
    destruct (covered_data d t n s c e He Hr Hc) as [Hin ->]. cbn [mbind option_bind]. eexists _, _. split; [done|]. split; [|done]. by eapply (wf_perm d x).
  - eexists _, _. split; [done|]. split; [|done]. by apply (wf_perm d x).
Qed.

(** Without its least recently used entry. *)
Lemma wf_pop d x e : wf d x -> last (block_cache x) = Some e -> entry_ok d e /\
  wf d (State (removelast (block_cache x)) (set_entries (_stats x) (u32 (entries (_stats x) - 1)))) /\ entries (_stats x) - 1 = Z.of_nat (length (removelast (block_cache x))).
Proof.
  intros [W1 W2 W3] El. destruct (block_cache x) as [|y l] eqn:Ex; [done|]. rewrite <- Ex in *. assert (block_cache x <> []) as Hne by (by rewrite Ex).
  pose proof (app_removelast_last e Hne) as Ea. assert (List.last (block_cache x) e = e) as Ell.
  { rewrite Ea in El at 1. rewrite last_snoc in El. congruence. }
  rewrite Ell in Ea. set (r := removelast (block_cache x)) in *. rewrite Ea in W1, W3. rewrite length_app in W1. cbn [length] in W1.
  apply Forall_app in W3 as [F1 F2]. apply Forall_cons_iff in F2 as [Fe _]. split; [done|]. split; [|lia]. split; cbn [_stats set_entries block_cache entries max_entries]; [rewrite u32_small by lia; lia|rewrite u32_small by lia; lia|done].
Qed.

Lemma take_entry_spec malloc d b x : wf d x -> 0 < max_entries (_stats x) -> exists r, take_entry malloc b x = Some r /\
  match r with
  | None => True
  | Some (space, x') => wf d x' /\ entries (_stats x') < max_entries (_stats x') /\ max_entries (_stats x') = max_entries (_stats x) /\ match space with Some r => b <= r | None => True end
  end.
Proof.
  intros Hwf Hpos. pose proof Hwf as [W1 W2 W3]. unfold take_entry. destruct (Z.leb_spec (max_entries (_stats x)) (entries (_stats x))).
  - destruct (last (block_cache x)) as [e|] eqn:El.
    + destruct (wf_pop d x e Hwf El) as ([E0 E1 E2 E3 E4 E5 E6] & Hwf' & Hlen). cbn [mbind option_bind]. eexists. split; [done|]. split; [done|]. cbn [_stats set_entries entries max_entries].
      rewrite u32_small by lia. split; [lia|]. split; [done|]. pose proof (Hsize (iftype e) (devnum e)).
      assert (0 <= blkcnt e * blksz e) by (rewrite E0; apply Z.mul_nonneg_nonneg; lia). rewrite u32_small by lia. destruct (Z.ltb_spec (blkcnt e * blksz e) b); [done|lia].
    + apply last_None in El. rewrite El in W1. cbn in W1. lia.
  - eexists. split; [done|]. destruct (malloc 32); [|done]. by split_and!.
Qed.

Lemma fill_spec malloc d t n s c x : wf d x -> request t n s c -> s + c <= lba t n ->
  exists x', blkcache_fill malloc t n s c (block_size t n) (bytes (contents d t n) (s * block_size t n) (Z.to_nat (c * block_size t n))) x = Some x' /\ wf d x'.
Proof.
  intros Hwf (R1 & R2 & R3 & R4) Hin. pose proof (Hsize t n) as Hz. pose proof (wf_max _ _ Hwf) as Hm. pose proof (wf_count _ _ Hwf) as Hcn. unfold blkcache_fill. cbv zeta.
  destruct (max_blocks_per_entry (_stats x) <? c); [by exists x|]. destruct (Z.eqb_spec (max_entries (_stats x)) 0); [by exists x|].
  assert (0 <= block_size t n * c < 2 ^ 32) as Hb by nia. rewrite (u32_small (block_size t n * c)) by lia.
  destruct (take_entry_spec malloc d (block_size t n * c) x Hwf ltac:(lia)) as (r & -> & Hr). cbn [mbind option_bind]. destruct r as [ [space x1]|]; [|by exists x].
  destruct Hr as (Hwf1 & Hlt & Hmax & Hspace).
  assert (forall sp, block_size t n * c <= sp -> exists x', (if sp <? block_size t n * c then None else
      data ← copy (bytes (contents d t n) (s * block_size t n) (Z.to_nat (c * block_size t n))) 0 (block_size t n * c);
      Some (State (Node t n s c (block_size t n) sp data :: block_cache x1) (set_entries (_stats x1) (u32 (entries (_stats x1) + 1))))) = Some x' /\ wf d x') as Hadd.
  { intros sp Hsp. replace (sp <? block_size t n * c) with false by lia. unfold copy. rewrite length_bytes. replace ((0 <=? 0) && (0 + block_size t n * c <=? Z.of_nat (Z.to_nat (c * block_size t n)))) with true by lia.
    cbn [mbind option_bind]. eexists. split; [done|]. pose proof (wf_count _ _ Hwf1). pose proof (wf_max _ _ Hwf1).
    split; cbn [_stats block_cache set_entries entries max_entries length]; [rewrite u32_small by lia; lia|rewrite u32_small by lia; lia|].
    apply Forall_cons_iff. split; [|apply Hwf1]. split; cbn; [done|lia|lia|lia|lia|lia|]. rewrite drop_0, take_ge by (rewrite length_bytes; lia). done. }
  destruct space as [sp|]; [by apply Hadd|]. destruct (malloc (block_size t n * c)); [apply Hadd; lia|by exists x1].
Qed.

Lemma drop_entries_spec t n l : forall count, Z.of_nat (length l) <= count < 2 ^ 32 ->
  exists l', drop_entries t n l count = (l', count - Z.of_nat (length l) + Z.of_nat (length l')) /\ (length l' <= length l)%nat /\
    forall e, e ∈ l' <-> e ∈ l /\ of_device t n e = false.
Proof.
  induction l as [|e l IH]; intros count Hc; cbn [drop_entries length] in *.
  - exists []. split_and!; [f_equal; cbn; lia|done|]. intros e. split; [by intros ?%elem_of_nil|by intros [?%elem_of_nil _] ].
  - destruct (of_device t n e) eqn:Ee.
    + rewrite u32_small by lia. destruct (IH (count - 1) ltac:(lia)) as (l' & -> & Hlen & Hel). exists l'. split_and!; [f_equal; lia|lia|]. intros y. rewrite Hel, elem_of_cons.
      split; [intros [? ?]; auto|]. intros [ [-> |?] ?]; [congruence|done].
    + destruct (IH count ltac:(lia)) as (l' & -> & Hlen & Hel). exists (e :: l'). split_and!; [f_equal; cbn [length]; lia|cbn [length]; lia|]. intros y. rewrite !elem_of_cons, Hel.
      split; [intros [-> |[? ?] ]; auto|]. intros [ [-> |?] ?]; auto.
Qed.

(** After the entries of a device are dropped, the device may change. *)
Lemma invalidate_spec d d' t n x : wf d x -> (forall t' n', (t', n') <> (t, n) -> contents d' t' n' = contents d t' n') -> wf d' (blkcache_invalidate t n x).
Proof.
  intros [W1 W2 W3] Hd. unfold blkcache_invalidate. destruct (drop_entries_spec t n (block_cache x) (entries (_stats x)) ltac:(lia)) as (l' & -> & Hlen & Hel).
  split; cbn [_stats block_cache set_entries entries max_entries]; [lia|lia|]. apply Forall_forall. intros e He. apply Hel in He as [He Hn].
  pose proof (proj1 (Forall_forall _ _) W3 e He) as [E0 E1 E2 E3 E4 E5 E6]. split; [done..|]. rewrite Hd; [done|]. unfold of_device in Hn. intros [= E7 E8]. lia.
Qed.

Lemma configure_spec d b k x : wf d x -> 0 <= k < 2 ^ 32 -> wf d (blkcache_configure b k x).
Proof.
  intros [W1 W2 W3] Hk. unfold blkcache_configure. destruct (negb _ || negb _) eqn:E; [split; [done|cbn; lia|by apply List.Forall_nil]|].
  split; cbn [_stats block_cache entries max_entries]; [done|lia|done].
Qed.

(** [blk_dread] returns what the device returns. *)
Lemma dread_spec malloc d t n s c x : wf d x -> request t n s c -> exists x', blk_dread malloc t n s c d x = Some (block_read d t n s c, x') /\ wf d x'.
Proof.
  intros Hwf Hr. pose proof Hr as (R1 & R2 & R3 & R4). unfold blk_dread. destruct (read_spec d t n s c x Hwf Hr) as (hit & x1 & -> & Hwf1 & Hhit). cbn [mbind option_bind].
  destruct hit as [data|]; [destruct Hhit as [Hin ->]; exists x1; by rewrite read_inside by lia|].
  destruct (Z.le_gt_cases (s + c) (lba t n)) as [Hin|Hout].
  - rewrite read_inside by lia. rewrite Z.eqb_refl. destruct (fill_spec malloc d t n s c x1 Hwf1 Hr Hin) as (x2 & -> & Hwf2). cbn [mbind option_bind]. by exists x2.
  - pose proof (read_outside d t n s c R1 R2 ltac:(lia)) as Hne. destruct (block_read d t n s c) as [r data]. cbn [fst] in Hne. rewrite (proj2 (Z.eqb_neq r c)) by lia.
    cbn [mbind option_bind]. by exists x1.
Qed.

(** ** The cache is not seen *)

Inductive op :=
  | Read (t n s c : Z) | Write (t n s c : Z) (l : list Z) | Erase (t n s c : Z) | Invalidate (t n : Z) | Configure (blocks max : Z) | Show.

(** What a caller gets: the number of blocks with the bytes of a read. *)
Definition answer : Type := Z * list Z.

Definition cached (malloc : Z -> bool) (o : op) (d : disks) (x : state) : option (answer * disks * state) :=
  match o with
  | Read t n s c => '(r, data, x) ← blk_dread malloc t n s c d x; Some (r, data, d, x)
  | Write t n s c l => let '(r, d, x) := blk_dwrite t n s c l d x in Some (r, [], d, x)
  | Erase t n s c => let '(r, d, x) := blk_derase t n s c d x in Some (r, [], d, x)
  | Invalidate t n => Some (0, [], d, blkcache_invalidate t n x)
  | Configure blocks max => Some (0, [], d, blkcache_configure blocks max x)
  | Show => Some (0, [], d, (blkcache_stats x).2)
  end.
Fixpoint cached_all (malloc : Z -> bool) (l : list op) (d : disks) (x : state) : option (list answer * disks * state) :=
  match l with
  | [] => Some ([], d, x)
  | o :: l => '(a, d, x) ← cached malloc o d x; '(rest, d, x) ← cached_all malloc l d x; Some (a :: rest, d, x)
  end.

(** The same operations on the devices alone. *)
Definition direct (o : op) (d : disks) : answer * disks :=
  match o with
  | Read t n s c => (block_read d t n s c, d)
  | Write t n s c l => let '(r, d) := block_write d t n s c l in (r, [], d)
  | Erase t n s c => let '(r, d) := block_erase d t n s c in (r, [], d)
  | _ => (0, [], d)
  end.
Fixpoint direct_all (l : list op) (d : disks) : list answer * disks :=
  match l with [] => ([], d) | o :: l => let '(a, d) := direct o d in let '(rest, d) := direct_all l d in (a :: rest, d) end.

Definition valid (o : op) : Prop :=
  match o with Read t n s c => request t n s c | Configure _ max => 0 <= max < 2 ^ 32 | _ => True end.

Lemma cached_spec malloc o d x : wf d x -> valid o -> exists x', cached malloc o d x = Some ((direct o d).1, (direct o d).2, x') /\ wf (direct o d).2 x'.
Proof.
  intros Hwf Hv. destruct o as [t n s c|t n s c l|t n s c|t n|b k|]; cbn [cached direct valid] in *.
  - destruct (dread_spec malloc d t n s c x Hwf Hv) as (x' & -> & Hwf'). exists x'. by destruct (block_read d t n s c).
  - unfold blk_dwrite. pose proof (fun t' n' => write_other d t n s c l t' n') as Ho. destruct (block_write d t n s c l) as [r d']. eexists. split; [done|]. by apply (invalidate_spec d).
  - unfold blk_derase. pose proof (fun t' n' => erase_other d t n s c t' n') as Ho. destruct (block_erase d t n s c) as [r d']. eexists. split; [done|]. by apply (invalidate_spec d).
  - eexists. split; [done|]. by apply (invalidate_spec d).
  - eexists. split; [done|]. by apply configure_spec.
  - eexists. split; [done|]. by apply (wf_perm d x).
Qed.

(** C18: the block cache is not seen: from the state at start, any sequence of reads, writes, erasures, invalidations and
    changes of the cache's size, on any number of devices and whatever allocations fail, gives the answers and leaves
    the contents that the same operations on the devices alone give; the number of entries stays within its limit, and no
    copy goes outside a buffer. *)
Theorem cache_transparent malloc l d : Forall valid l ->
  exists x, cached_all malloc l d boot = Some ((direct_all l d).1, (direct_all l d).2, x) /\ wf (direct_all l d).2 x.
Proof.
  intros Hl. assert (forall x, wf d x -> exists x', cached_all malloc l d x = Some ((direct_all l d).1, (direct_all l d).2, x') /\ wf (direct_all l d).2 x') as H; [|by apply H, boot_wf].
  revert d. induction Hl as [|o l Ho Hl IH]; intros d x Hwf; cbn [cached_all direct_all]; [by exists x|].
  destruct (cached_spec malloc o d x Hwf Ho) as (x1 & -> & Hwf1). destruct (direct o d) as [a d1]. cbn [fst snd] in *. cbn [mbind option_bind].
  destruct (IH d1 x1 Hwf1) as (x2 & -> & Hwf2). exists x2. by destruct (direct_all l d1) as [rest d2].
Qed.

End Invariant.

(** The sums of [cache_find] wrap: a request for the last blocks of the address range counts as covered by any entry of the
    device, and the copy would start far outside its buffer. *)
Lemma wrapped_request_outside : blkcache_read 6 0 (2 ^ 32 - 1) 2 512 (State [Node 6 0 0 2 512 1024 (replicate 1024 0)] (Stats 0 0 1 2 32)) = None.
Proof. reflexivity. Qed.

(** ** The command [blkcache] *)

Record console := Console { cache_state : state; out : list Z }.

Definition blkc_show (flag : Z) (argv : list (list Z)) (s : console) : option (Z * console) :=
  let '(st, x) := blkcache_stats (cache_state s) in
  let line (name : string) (v : Z) := lit name ++ Strto.print_base 10 v ++ [10] in
  Some (0, Console x (out s ++ line "hits: " (hits st) ++ line "misses: " (misses st) ++ line "entries: " (entries st) ++
    line "max blocks/entry: " (max_blocks_per_entry st) ++ line "max cache entries: " (max_entries st))).

Definition blkc_configure (flag : Z) (argv : list (list Z)) (s : console) : option (Z * console) :=
  match argv with
  | [_; a; b] =>
    '(blocks_per_entry, _) ← Part.strtoul a 0;
    '(max, _) ← Part.strtoul b 0;
    Some (0, Console (blkcache_configure blocks_per_entry max (cache_state s))
      (out s ++ lit "changed to max of " ++ Strto.print_base 10 max ++ lit " entries of " ++ Strto.print_base 10 blocks_per_entry ++ lit " blocks each" ++ [10]))
  | _ => Some (Command.CMD_RET_USAGE, s)
  end.

Definition MKENT (name : string) (maxargs rep : Z) (f : Z -> list (list Z) -> console -> option (Z * console)) : Command.cmd_tbl console :=
  {| Command.name := lit name; Command.maxargs := maxargs; Command.repeatable := rep; Command.cmd := f; Command.usage := Some []; Command.help := Some [];
     Command.complete := None |}.
Definition cmd_blkc_sub : list (Command.cmd_tbl console) := [MKENT "show" 0 0 blkc_show; MKENT "configure" 3 0 blkc_configure].

(** [argc < 2] first; the limits on the number of arguments are not looked at. *)
Definition do_blkcache (flag : Z) (argv : list (list Z)) (s : console) : option (Z * console) :=
  match argv with
  | _ :: a :: rest =>
    match Command.find_cmd_tbl a cmd_blkc_sub with None => Some (Command.CMD_RET_USAGE, s) | Some c => Command.cmd c flag (a :: rest) s end
  | _ => Some (Command.CMD_RET_USAGE, s)
  end.

(** ** Two devices *)

(** Devices of 100 and 50 blocks of 512 bytes. *)
Definition store : Type := Z -> Z -> mem.
Definition demo_lba (t n : Z) : Z := if n =? 0 then 100 else 50.
Definition demo_write (d : store) (t n s c : Z) (l : list Z) : Z * store :=
  if demo_lba t n <? s + c then (0, d) else (c, fun t' n' => if (t' =? t) && (n' =? n) then wr (d t n) (s * 512) l else d t' n').

#[export] Instance demo_devices : Devices.
Proof.
  unshelve refine {| disks := store; contents d := d; lba := demo_lba; block_size _ _ := 512; block_write := demo_write;
    block_read d t n s c := if demo_lba t n <? s + c then (0, []) else (c, bytes (d t n) (s * 512) (Z.to_nat (c * 512)));
    block_erase d t n s c := demo_write d t n s c (replicate (Z.to_nat (c * 512)) 0) |}.
  - intros d t n s c Hs Hc Hin. cbn. by replace (demo_lba t n <? s + c) with false by lia.
  - intros d t n s c Hs Hc Hout. cbn. replace (demo_lba t n <? s + c) with true by lia. unfold demo_lba in Hout. cbn. destruct (n =? 0); lia.
  - intros d t n s c l t' n' Hne. unfold demo_write. destruct (_ <? _); [done|]. cbn. destruct (Z.eqb_spec t' t) as [-> |]; [|done]. destruct (Z.eqb_spec n' n) as [-> |]; done.
  - intros d t n s c t' n' Hne. unfold demo_write. destruct (_ <? _); [done|]. cbn. destruct (Z.eqb_spec t' t) as [-> |]; [|done]. destruct (Z.eqb_spec n' n) as [-> |]; done.
Defined.

Definition demo_ops : list op :=
  [Read 6 0 3 2; Read 6 0 4 1; Write 6 1 0 1 (replicate 512 7); Read 6 1 0 1; Write 6 0 4 1 (replicate 512 9); Read 6 0 4 1; Read 6 1 0 1; Configure 8 1; Read 6 0 0 8; Read 6 1 49 2; Erase 6 0 0 1;
   Read 6 0 0 1; Show].

Lemma cache_transparent_witness : exists x, cached_all (fun _ => true) demo_ops (fun _ _ a => a) boot = Some ((direct_all demo_ops (fun _ _ a => a)).1, (direct_all demo_ops (fun _ _ a => a)).2, x) /\
  wf (direct_all demo_ops (fun _ _ a => a)).2 x.
Proof.
  apply (cache_transparent (DV := demo_devices)); [intros t n; cbn; unfold demo_lba; case_match; lia|done|].
  repeat (apply Forall_cons_iff; split; [cbn; unfold request; cbn; lia || done|]). by apply List.Forall_nil.
Defined.

(** The second read is a hit, the last two devices' reads are not mixed up. *)
Example demo_hits : match cached_all (fun _ => true) (take 7 demo_ops) (fun _ _ a => a) boot with
  | Some (a, _, x) => map fst a = [2; 1; 1; 1; 1; 1; 1] /\ (hits (_stats x), misses (_stats x), entries (_stats x)) = (2, 3, 2)
  | None => False end.
Proof. vm_compute. split; reflexivity. Qed.

End Blkcache.
