(* ===== verification/Readline.v ===== *)
(** * Readline: the line editor

    U-Boot's common/cli_readline.c: the ring of previous lines, the editor [cread_line] with its escape
    sequences, and the plain reader used before relocation.  The keys typed are a list of
    characters, what is printed is a list of characters; [None] stands for an access outside
    an array.  The completion is an argument. *)

From stdpp Require Import base list option strings relations.
From Stdlib Require Import ZifyBool.
From S2P Require Import Prelude Carray Terminal Command.
Import Carray Terminal Command.

Module Readline.

Definition HIST_MAX : Z := 20.
Definition HIST_SIZE : Z := CONFIG_SYS_CBSIZE.

(** ** The ring of lines *)

(** The statics; [hist_list[i]] always points at [hist_lines[i]]. *)
Record hist := Hist {
  hist_max : Z;
  hist_add_idx : Z;
  hist_cur : Z;
  hist_num : Z;
  hist_lines : list (list Z)
}.

Definition hist_init : hist := Hist 0 0 (-1) 0 (replicate (Z.to_nat HIST_MAX) []).

Definition hist_at (h : hist) (i : Z) : option (list Z) := if i <? 0 then None else hist_lines h !! Z.to_nat i.

(** [strcpy] into a row of [HIST_SIZE + 1] characters. *)
Definition hist_store (h : hist) (i : Z) (line : list Z) : option (list (list Z)) :=
  if (0 <=? i) && (i <? HIST_MAX) && (Z.of_nat (length line) <=? HIST_SIZE) then Some (<[Z.to_nat i := line]> (hist_lines h)) else None.

Definition cread_add_to_hist (h : hist) (line : list Z) : option hist :=
  rows ← hist_store h (hist_add_idx h) line;
  let idx := if HIST_MAX <=? hist_add_idx h + 1 then 0 else hist_add_idx h + 1 in
  let max := if hist_max h <? idx then idx else hist_max h in
  Some (Hist max idx (hist_cur h) (u32 (hist_num h + 1)) rows).

Definition set_cur (h : hist) (cur : Z) : hist := Hist (hist_max h) (hist_add_idx h) cur (hist_num h) (hist_lines h).

(** The line, or [None] for NULL. *)
Definition hist_prev (h : hist) : option (option (list Z) * hist) :=
  if hist_cur h <? 0 then Some (None, h) else
  let cur := if hist_cur h - 1 <? 0 then hist_max h else hist_cur h - 1 in
  if cur =? hist_add_idx h then Some (None, h) else
  s ← hist_at h cur; Some (Some s, set_cur h cur).

Definition hist_next (h : hist) : option (option (list Z) * hist) :=
  if hist_cur h <? 0 then Some (None, h) else
  if hist_cur h =? hist_add_idx h then Some (None, h) else
  let cur := if hist_max h <? hist_cur h + 1 then 0 else hist_cur h + 1 in
  if cur =? hist_add_idx h then Some (Some [], set_cur h cur) else
  s ← hist_at h cur; Some (Some s, set_cur h cur).

(** ** The editor *)

(** The locals of [cread_line]; [esc] is [esc_save] up to [esc_len]. *)
Record ed := Ed { num : Z; eol_num : Z; insert : bool; buf : arr; esc : list Z }.

Definition set_pos (e : ed) (n eol : Z) (b : arr) : ed := Ed n eol (insert e) b (esc e).
Definition set_esc (e : ed) (x : list Z) : ed := Ed (num e) (eol_num e) (insert e) (buf e) x.

Definition backs (n : Z) : list Z := replicate (Z.to_nat n) 8.
Definition blanks (n : Z) : list Z := replicate (Z.to_nat n) 32.

(** [BEGINNING_OF_LINE] *)
Definition beginning_of_line (e : ed) : ed * list Z := (set_pos e 0 (eol_num e) (buf e), backs (num e)).

(** [ERASE_TO_EOL] *)
Definition erase_to_eol (e : ed) : ed * list Z :=
  if num e <? eol_num e
  then (set_pos e (num e) (num e) (buf e), blanks (u32 (eol_num e - num e)) ++ backs (eol_num e - num e))
  else (e, []).

(** [REFRESH_TO_EOL] *)
Definition refresh_to_eol (e : ed) : option (ed * list Z) :=
  if num e <? eol_num e
  then s ← putnstr (buf e) (num e) (u32 (eol_num e - num e)); Some (set_pos e (eol_num e) (eol_num e) (buf e), s)
  else Some (e, []).

(** [cread_add_char] *)
Definition cread_add_char (ichar len : Z) (e : ed) : option (ed * list Z) :=
  let grow := insert e || (num e =? eol_num e) in
  if grow && (u32 (len - 1) <? eol_num e) then Some (e, [7]) else
  let eol := if grow then eol_num e + 1 else eol_num e in
  if insert e then
    let wlen := u32 (eol - num e) in
    b ← (if 1 <? wlen then move (buf e) (num e + 1) (num e) (wlen - 1) else Some (buf e));
    b ← put b (num e) ichar;
    s ← putnstr b (num e) wlen;
    Some (set_pos e (num e + 1) eol b, s ++ backs (u32 (wlen - 1)))
  else
    b ← put (buf e) (num e) ichar;
    s ← putnstr b (num e) 1;
    Some (set_pos e (num e + 1) eol b, s).

(** [cread_add_str]; [str] reads the source, which may be the buffer itself. *)
Fixpoint cread_add_str (str : arr -> Z -> option Z) (strsize : nat) (i len : Z) (e : ed) : option (ed * list Z) :=
  match strsize with
  | O => Some (e, [])
  | S n =>
    c ← str (buf e) i;
    '(e, o1) ← cread_add_char c len e;
    '(e, o2) ← cread_add_str str n (i + 1) len e;
    Some (e, o1 ++ o2)
  end.

Inductive esc_act := ESC_REJECT | ESC_SAVE | ESC_CONVERTED (ichar : Z).

(** The character that follows a started escape sequence. *)
Definition esc_action (esc : list Z) (ichar : Z) : esc_act :=
  match esc with
  | [_] => if (ichar =? 91) || (ichar =? 79) then ESC_SAVE else ESC_REJECT
  | [_; e1] =>
    if ichar =? 68 then ESC_CONVERTED 2 else
    if ichar =? 67 then ESC_CONVERTED 6 else
    if ichar =? 72 then ESC_CONVERTED 1 else
    if ichar =? 70 then ESC_CONVERTED 5 else
    if ichar =? 65 then ESC_CONVERTED 16 else
    if ichar =? 66 then ESC_CONVERTED 14 else
    if (ichar =? 49) || (ichar =? 51) || (ichar =? 52) || (ichar =? 55) || (ichar =? 56)
    then if e1 =? 91 then ESC_SAVE else ESC_REJECT else ESC_REJECT
  | [_; _; e2] =>
    if ichar =? 126 then
      if e2 =? 51 then ESC_CONVERTED 4 else
      if (e2 =? 49) || (e2 =? 55) then ESC_CONVERTED 1 else
      if (e2 =? 52) || (e2 =? 56) then ESC_CONVERTED 5 else ESC_REJECT
    else ESC_REJECT
  | _ => ESC_REJECT
  end.

Inductive verdict := Go | Enter | Break.

Section Editor.
Context (prompt : list Z) (auto_complete : arr -> Z -> Z -> option (Z * arr * Z * Z * list Z)) (len : Z).

(** The [switch] on a character outside an escape sequence. *)
Definition cread_key (ichar : Z) (e : ed) (h : hist) : option (verdict * ed * hist * list Z) :=
  if ichar =? 27 then Some (Go, set_esc e [27], h, []) else
  if ichar =? 1 then let '(e, o) := beginning_of_line e in Some (Go, e, h, o) else
  if ichar =? 3 then b ← put (buf e) 0 0; Some (Break, set_pos e (num e) (eol_num e) b, h, []) else
  if ichar =? 6 then
    if num e <? eol_num e then c ← get (buf e) (num e); Some (Go, set_pos e (num e + 1) (eol_num e) (buf e), h, [c])
    else Some (Go, e, h, []) else
  if ichar =? 2 then
    if negb (num e =? 0) then Some (Go, set_pos e (num e - 1) (eol_num e) (buf e), h, [8]) else Some (Go, e, h, []) else
  if ichar =? 4 then
    if num e <? eol_num e then
      let wlen := u32 (eol_num e - num e - 1) in
      '(b, s) ← (if negb (wlen =? 0) then b ← move (buf e) (num e) (num e + 1) wlen; s ← putnstr b (num e) wlen; Some (b, s)
                 else Some (buf e, []));
      Some (Go, set_pos e (num e) (eol_num e - 1) b, h, s ++ [32] ++ backs (wlen + 1))
    else Some (Go, e, h, []) else
  if ichar =? 11 then let '(e, o) := erase_to_eol e in Some (Go, e, h, o) else
  if ichar =? 5 then '(e, o) ← refresh_to_eol e; Some (Go, e, h, o) else
  if ichar =? 15 then Some (Go, Ed (num e) (eol_num e) (negb (insert e)) (buf e) (esc e), h, []) else
  if (ichar =? 24) || (ichar =? 21) then
    let '(e, o1) := beginning_of_line e in let '(e, o2) := erase_to_eol e in Some (Go, e, h, o1 ++ o2) else
  if (ichar =? 255) || (ichar =? 127) || (ichar =? 8) then
    if negb (num e =? 0) then
      let wlen := u32 (eol_num e - num e) in
      let n := num e - 1 in
      b ← move (buf e) n (n + 1) wlen;
      s ← putnstr b n wlen;
      Some (Go, set_pos e n (eol_num e - 1) b, h, [8] ++ s ++ [32] ++ backs (wlen + 1))
    else Some (Go, e, h, []) else
  if (ichar =? 16) || (ichar =? 14) then
    let e := set_esc e [] in
    '(hline, h) ← (if ichar =? 16 then hist_prev h else hist_next h);
    match hline with
    | None => Some (Go, e, h, [7])
    | Some s =>
      let '(e, o1) := beginning_of_line e in
      let '(e, o2) := erase_to_eol e in
      b ← copy_in (buf e) 0 (s ++ [0]);
      s ← string_at b;
      '(e, o3) ← refresh_to_eol (set_pos e (num e) (Z.of_nat (length s)) b);
      Some (Go, e, h, o1 ++ o2 ++ o3)
    end else
  if ichar =? 9 then
    if num e <? eol_num e then Some (Go, e, h, [7]) else
    b ← put (buf e) (num e) 0;
    '(ret, b, num2, col, o) ← auto_complete b (num e) (Z.of_nat (length prompt) + eol_num e);
    let k := if negb (ret =? 0) then num2 - num e else 0 in
    Some (Go, set_pos e (num e + k) (eol_num e + k) b, h, o) else
  '(e, o) ← cread_add_char ichar len e; Some (Go, e, h, o).

(** The body of the loop. *)
Definition cread_step (ichar : Z) (e : ed) (h : hist) : option (verdict * ed * hist * list Z) :=
  if (ichar =? 10) || (ichar =? 13) then Some (Enter, e, h, [10]) else
  match esc e with
  | [] => cread_key ichar e h
  | _ =>
    match esc_action (esc e) ichar with
    | ESC_SAVE => Some (Go, set_esc e (esc e ++ [ichar]), h, [])
    | ESC_REJECT =>
      let save := esc e ++ [ichar] in
      '(e, o) ← cread_add_str (fun _ i => get save i) (length save) 0 len e;
      Some (Go, set_esc e [], h, o)
    | ESC_CONVERTED ichar => cread_key ichar (set_esc e []) h
    end
  end.

(** How the loop ends; [Waiting] for the next key when all have been read. *)
Inductive ending := Ended (v : verdict) | Waiting.

Fixpoint cread_loop (keys : list Z) (e : ed) (h : hist) : option (ending * ed * hist * list Z) :=
  match keys with
  | [] => Some (Waiting, e, h, [])
  | c :: keys =>
    '(v, e, h, o) ← cread_step c e h;
    match v with
    | Go => '(r, e, h, o2) ← cread_loop keys e h; Some (r, e, h, o ++ o2)
    | _ => Some (Ended v, e, h, o)
    end
  end.

(** [cread_line] returns its result, the buffer, [*len], the ring and the output; [None] inside for [Waiting].
    [late]: [timeout] passes before the first key. *)
Definition cread_line (b : arr) (timeout : Z) (late : bool) (keys : list Z) (h : hist) : option (option (Z * arr * Z * hist * list Z)) :=
  init ← string_at b;
  '(e, o1) ← cread_add_str get (length init) 0 len (Ed 0 0 true b []);
  if negb (timeout =? 0) && late then Some (Some (-2, buf e, len, h, o1)) else
  '(r, e, h, o2) ← cread_loop keys e h;
  match r with
  | Waiting => Some None
  | Ended Break => Some (Some (-1, buf e, len, h, o1 ++ o2))
  | Ended _ =>
    b ← put (buf e) (eol_num e) 0;
    c ← get b 0;
    h ← (if negb (c =? 0) && negb (c =? 33) then s ← string_at b; cread_add_to_hist h s else Some h);
    Some (Some (0, b, eol_num e, set_cur h (hist_add_idx h), o1 ++ o2))
  end.

End Editor.

(** ** The plain reader *)

(** The locals of the reader before relocation.  [cons] is [console_buffer], [None] when it is the buffer itself. *)
Record plain := Plain { pp : Z; pn : Z; pcol : Z; pbuf : arr; cons : option arr }.

(** [puts(tab_seq + (col & 07))] *)
Definition tab_out (col : Z) : list Z := replicate (Z.to_nat (8 - Z.land col 7)) 32.
Definition tab_col (col : Z) : Z := col + (8 - Z.land col 7).
Definition erase_seq : list Z := [8; 32; 8].
Definition erases (n : Z) : list Z := concat (replicate (Z.to_nat n) erase_seq).

(** Retyping the characters before a TAB. *)
Fixpoint retype (s : list Z) (col : Z) : Z * list Z :=
  match s with
  | [] => (col, [])
  | c :: s =>
    if c =? 9 then let '(col', o) := retype s (tab_col col) in (col', tab_out col ++ o)
    else let '(col', o) := retype s (col + 1) in (col', c :: o)
  end.

(** [delete_char] *)
Definition delete_char (plen : Z) (q : plain) : option (plain * list Z) :=
  if pn q =? 0 then Some (q, []) else
  let p := pp q - 1 in
  c ← get (pbuf q) p;
  if c =? 9 then
    s ← copy_out (pbuf q) 0 p;
    let '(col, o) := retype s (Z.min (pcol q) plen) in
    Some (Plain p (pn q - 1) col (pbuf q) (cons q), erases (pcol q - plen) ++ o)
  else Some (Plain p (pn q - 1) (pcol q - 1) (pbuf q) (cons q), erase_seq).

(** The loop of ^W. *)
Fixpoint delete_word (fuel : nat) (plen : Z) (q : plain) : option (plain * list Z) :=
  match fuel with
  | O => None
  | S fuel =>
    if 0 <? pn q then
      c ← get (pbuf q) (pp q);
      if negb (c =? 32) then
        '(q, o1) ← delete_char plen q;
        '(q, o2) ← delete_word fuel plen q;
        Some (q, o1 ++ o2)
      else Some (q, [])
    else Some (q, [])
  end.

Section Plain.
Context (prompt : option (list Z)) (auto_complete : list Z -> arr -> Z -> Z -> option (Z * arr * Z * Z * list Z)).

(** TAB: on [console_buffer], whatever buffer is being read. *)
Definition plain_tab (q : plain) : option (Z * plain * list Z) :=
  b ← put (pbuf q) (pp q) 0;
  prompt ← prompt;
  match cons q with
  | None => '(ret, b, n, col, o) ← auto_complete prompt b (pn q) (pcol q); Some (ret, Plain (pp q) n col b None, o)
  | Some c => '(ret, c, n, col, o) ← auto_complete prompt c (pn q) (pcol q); Some (ret, Plain (pp q) n col b (Some c), o)
  end.

(** A key; [inl] the value returned, with the buffer. *)
Definition plain_step (c : Z) (q : plain) : option ((Z * arr * list Z) + (plain * list Z)) :=
  let plen := Z.of_nat (length (default [] prompt)) in
  let store c q := b ← put (pbuf q) (pp q) c; Some (Plain (pp q + 1) (pn q + 1) (pcol q) b (cons q)) in
  if (c =? 13) || (c =? 10) then b ← put (pbuf q) (pp q) 0; Some (inl (pp q, b, [13; 10])) else
  if c =? 0 then Some (inr (q, [])) else
  if c =? 3 then b ← put (pbuf q) 0 0; Some (inl (-1, b, [])) else
  if c =? 0x15 then Some (inr (Plain 0 0 (Z.min (pcol q) plen) (pbuf q) (cons q), erases (pcol q - plen))) else
  if c =? 0x17 then
    '(q, o1) ← delete_char plen q;
    '(q, o2) ← delete_word (S (Z.to_nat (pn q))) plen q;
    Some (inr (q, o1 ++ o2)) else
  if (c =? 8) || (c =? 0x7f) then '(q, o) ← delete_char plen q; Some (inr (q, o)) else
  if pn q <? CONFIG_SYS_CBSIZE - 2 then
    if c =? 9 then
      '(ret, q, o) ← plain_tab q;
      if negb (ret =? 0) then Some (inr (Plain (pn q) (pn q) (pcol q) (pbuf q) (cons q), o)) else
      q' ← store c q;
      Some (inr (Plain (pp q') (pn q') (tab_col (pcol q)) (pbuf q') (cons q'), o ++ tab_out (pcol q)))
    else
      q' ← store c q;
      Some (inr (Plain (pp q') (pn q') (pcol q + 1) (pbuf q') (cons q'), [c]))
  else Some (inr (q, [7])).

Fixpoint plain_loop (keys : list Z) (q : plain) : option (option (Z * arr * list Z)) :=
  match keys with
  | [] => Some None
  | c :: keys =>
    r ← plain_step c q;
    match r with
    | inl (rc, b, o) => Some (Some (rc, b, o))
    | inr (q, o1) =>
      r ← plain_loop keys q;
      Some (match r with Some (rc, b, o2) => Some (rc, b, o1 ++ o2) | None => None end)
    end
  end.

Definition plain_read (b : arr) (cons : option arr) (keys : list Z) : option (option (Z * arr * list Z)) :=
  let plen := Z.of_nat (length (default [] prompt)) in
  r ← plain_loop keys (Plain 0 0 plen b cons);
  Some (match r with Some (rc, b, o) => Some (rc, b, default [] prompt ++ o) | None => None end).

End Plain.

Section Into.
Context (auto_complete : list Z -> arr -> Z -> Z -> option (Z * arr * Z * Z * list Z)).

(** [cli_readline_into_buffer]: [reloc] is [GD_FLG_RELOC] and [initted] the static; the result, the buffer, the ring and the output. *)
Definition cli_readline_into_buffer (reloc initted : bool) (prompt : option (list Z)) (b : arr) (cons : option arr) (timeout : Z) (late : bool)
    (keys : list Z) (h : hist) : option (option (Z * arr * hist * list Z)) :=
  if reloc then
    let h := if initted then h else hist_init in
    let p := default [] prompt in
    let ac := match prompt with Some p => auto_complete p | None => fun _ _ _ => None end in
    r ← cread_line p ac CONFIG_SYS_CBSIZE b timeout late keys h;
    Some (match r with Some (rc, b, len, h, o) => Some (if rc <? 0 then rc else len, b, h, p ++ o) | None => None end)
  else
    r ← plain_read prompt auto_complete b cons keys;
    Some (match r with Some (rc, b, o) => Some (rc, b, h, o) | None => None end).

(** [cli_readline] *)
Definition cli_readline (reloc initted : bool) (prompt : list Z) (console_buffer : arr) (keys : list Z) (h : hist) : option (option (Z * arr * hist * list Z)) :=
  b ← put console_buffer 0 0;
  cli_readline_into_buffer reloc initted (Some prompt) b None 0 false keys h.

End Into.

(** ** The abstract editor *)

(** A line is what is left and right of the cursor. *)
Record line := Line { before : list Z; after : list Z; ins : bool }.
Definition text (l : line) : list Z := before l ++ after l.
Definition full (l : line) : bool := (Z.to_nat CONFIG_SYS_CBSIZE <=? length (text l))%nat.

Definition type_char (c : Z) (l : line) : line :=
  if ins l then if full l then l else Line (before l ++ [c]) (after l) true
  else match after l with
       | [] => if full l then l else Line (before l ++ [c]) [] false
       | _ :: a => Line (before l ++ [c]) a false
       end.

(** The lines of the ring, newest first, and how far back the user has gone; [None] before the first line is read. *)
Record view := View { recent : list (list Z); back : option nat }.

Definition older (v : view) : option (list Z * view) :=
  p ← back v; s ← recent v !! p; Some (s, View (recent v) (Some (S p))).
Definition newer (v : view) : option (list Z * view) :=
  match back v with
  | Some 1%nat => Some ([], View (recent v) (Some 0%nat))
  | Some (S (S p)) => s ← recent v !! p; Some (s, View (recent v) (Some (S p)))
  | _ => None
  end.
Definition remember (s : list Z) (v : view) : view := View (take (Z.to_nat HIST_MAX - 1) (s :: recent v)) (back v).

Inductive key := Char (c : Z) | Home | End' | Left' | Right' | Delete | Rubout | Kill_end | Kill_line | Mode | Older | Newer | Tab.

Section Abstract.
Context (added : list Z -> list Z).

Definition edit (k : key) (l : line) : line :=
  match k with
  | Char c => type_char c l
  | Home => Line [] (text l) (ins l)
  | End' => Line (text l) [] (ins l)
  | Left' => let n := (length (before l) - 1)%nat in Line (take n (before l)) (drop n (before l) ++ after l) (ins l)
  | Right' => Line (before l ++ take 1 (after l)) (drop 1 (after l)) (ins l)
  | Delete => Line (before l) (drop 1 (after l)) (ins l)
  | Rubout => Line (take (length (before l) - 1) (before l)) (after l) (ins l)
  | Kill_end => Line (before l) [] (ins l)
  | Kill_line => Line [] [] (ins l)
  | Mode => Line (before l) (after l) (negb (ins l))
  | Tab => match after l with [] => Line (before l ++ added (before l)) [] (ins l) | _ => l end
  | Older | Newer => l
  end.

(** A key on the line and the ring. *)
Definition edit_all (k : key) (l : line) (v : view) : line * view :=
  match k with
  | Older => match older v with Some (s, v) => (Line s [] (ins l), v) | None => (l, v) end
  | Newer => match newer v with Some (s, v) => (Line s [] (ins l), v) | None => (l, v) end
  | _ => (edit k l, v)
  end.

(** The keys of the control characters. *)
Definition key_of (c : Z) : key :=
  if c =? 1 then Home else if c =? 6 then Right' else if c =? 2 then Left' else if c =? 4 then Delete else
  if c =? 11 then Kill_end else if c =? 5 then End' else if c =? 15 then Mode else
  if (c =? 24) || (c =? 21) then Kill_line else if (c =? 255) || (c =? 127) || (c =? 8) then Rubout else
  if c =? 16 then Older else if c =? 14 then Newer else if c =? 9 then Tab else Char c.

(** A session: the line, the ring and a started escape sequence. *)
Record session := Session { s_line : line; s_view : view; s_esc : list Z }.

Definition key_step (c : Z) (s : session) : verdict * session :=
  if c =? 27 then (Go, Session (s_line s) (s_view s) [27]) else
  if c =? 3 then (Break, s) else
  let '(l, v) := edit_all (key_of c) (s_line s) (s_view s) in (Go, Session l v []).

Definition step (c : Z) (s : session) : verdict * session :=
  if (c =? 10) || (c =? 13) then (Enter, s) else
  match s_esc s with
  | [] => key_step c s
  | x =>
    match esc_action x c with
    | ESC_SAVE => (Go, Session (s_line s) (s_view s) (x ++ [c]))
    | ESC_REJECT => (Go, Session (foldl (fun l c => type_char c l) (s_line s) (x ++ [c])) (s_view s) [])
    | ESC_CONVERTED c => key_step c (Session (s_line s) (s_view s) [])
    end
  end.

Fixpoint run (keys : list Z) (s : session) : ending * session :=
  match keys with
  | [] => (Waiting, s)
  | c :: keys => let '(v, s) := step c s in match v with Go => run keys s | _ => (Ended v, s) end
  end.

End Abstract.

(** ** The ring refines the list of recent lines *)

(** The row [k] steps before the next free one. *)
Definition ring_at (h : hist) (k : Z) : Z := if k <=? hist_add_idx h then hist_add_idx h - k else hist_add_idx h - k + hist_max h + 1.

Record hrep (h : hist) (v : view) : Prop := {
  h_rows : length (hist_lines h) = Z.to_nat HIST_MAX;
  h_cs : Forall (fun s => cs s /\ Z.of_nat (length s) <= HIST_SIZE) (hist_lines h);
  h_idx : 0 <= hist_add_idx h <= hist_max h;
  h_max : hist_max h < HIST_MAX;
  h_wrapped : hist_add_idx h = hist_max h \/ hist_max h = HIST_MAX - 1;
  h_len : Z.of_nat (length (recent v)) = hist_max h;
  h_recent : forall k, (k < length (recent v))%nat -> recent v !! k = hist_lines h !! Z.to_nat (ring_at h (Z.of_nat k + 1));
  h_back : match back v with
           | None => hist_cur h = -1
           | Some p => Z.of_nat p <= hist_max h /\ hist_cur h = ring_at h (Z.of_nat p)
           end
}.

Lemma hist_init_rep : hrep hist_init (View [] None).
Proof.
  split; cbn; try lia; try done. apply Forall_replicate. split; [apply cs_nil|cbn; unfold HIST_SIZE, CONFIG_SYS_CBSIZE; lia].
Qed.

Lemma recent_cs h v k s : hrep h v -> recent v !! k = Some s -> cs s /\ Z.of_nat (length s) <= HIST_SIZE.
Proof.
  intros H Hk. rewrite (h_recent h v H) in Hk by (by apply lookup_lt_Some in Hk).
  exact (Forall_lookup_1 _ _ _ _ (h_cs h v H) Hk).
Qed.

Lemma hist_at_recent h v k : hrep h v -> (k < length (recent v))%nat -> hist_at h (ring_at h (Z.of_nat k + 1)) = recent v !! k.
Proof.
  intros H Hk. rewrite (h_recent h v H k Hk). unfold hist_at. pose proof (h_idx h v H). pose proof (h_len h v H).
  destruct (Z.ltb_spec (ring_at h (Z.of_nat k + 1)) 0) as [Hn|]; [|done]. unfold ring_at in Hn. case_bools; lia.
Qed.

Lemma set_cur_rep h v p : hrep h v -> Z.of_nat p <= hist_max h -> hrep (set_cur h (ring_at h (Z.of_nat p))) (View (recent v) (Some p)).
Proof. intros [] Hp. split; cbn; auto. Qed.

Lemma hist_prev_refines h v : hrep h v ->
  match older v with
  | Some (s, v') => exists h', hist_prev h = Some (Some s, h') /\ hrep h' v'
  | None => hist_prev h = Some (None, h)
  end.
Proof.
  intros H. pose proof (h_idx h v H) as Hi. pose proof (h_len h v H) as Hl. pose proof (h_back h v H) as Hb.
  unfold older, hist_prev. destruct (back v) as [p|]; cbn [mbind option_bind]; [|by rewrite Hb].
  destruct Hb as [Hp Hc]. assert (0 <= hist_cur h) by (rewrite Hc; unfold ring_at; case_bools; lia).
  replace (hist_cur h <? 0) with false by lia.
  assert ((if hist_cur h - 1 <? 0 then hist_max h else hist_cur h - 1) = if Z.of_nat p =? hist_max h then hist_add_idx h else ring_at h (Z.of_nat p + 1)) as ->
    by (rewrite Hc; unfold ring_at; case_bools; lia).
  destruct (Z.eqb_spec (Z.of_nat p) (hist_max h)) as [E|E].
  - rewrite lookup_ge_None_2 by lia. cbn. by rewrite Z.eqb_refl.
  - destruct (lookup_lt_is_Some_2 (recent v) p ltac:(lia)) as [s Hs]. rewrite Hs. cbn [mbind option_bind].
    destruct (Z.eqb_spec (ring_at h (Z.of_nat p + 1)) (hist_add_idx h)) as [E'|_]; [unfold ring_at in E'; case_bools; lia|].
    rewrite (hist_at_recent h v p H) by lia. rewrite Hs. cbn. eexists. split; [done|].
    replace (Z.of_nat p + 1) with (Z.of_nat (S p)) by lia. apply (set_cur_rep h v); [done|lia].
Qed.

Lemma hist_next_refines h v : hrep h v ->
  match newer v with
  | Some (s, v') => exists h', hist_next h = Some (Some s, h') /\ hrep h' v'
  | None => hist_next h = Some (None, h)
  end.
Proof.
  intros H. pose proof (h_idx h v H) as Hi. pose proof (h_len h v H) as Hl. pose proof (h_back h v H) as Hb.
  unfold newer, hist_next. destruct (back v) as [p|]; [|by rewrite Hb].
  destruct Hb as [Hp Hc]. assert (0 <= hist_cur h) by (rewrite Hc; unfold ring_at; case_bools; lia).
  replace (hist_cur h <? 0) with false by lia.
  destruct p as [|p].
  { replace (hist_cur h =? hist_add_idx h) with true; [done|]. symmetry. apply Z.eqb_eq. rewrite Hc. unfold ring_at. case_bools; lia. }
  destruct (Z.eqb_spec (hist_cur h) (hist_add_idx h)) as [E|_]; [rewrite Hc in E; unfold ring_at in E; case_bools; lia|].
  assert ((if hist_max h <? hist_cur h + 1 then 0 else hist_cur h + 1) = ring_at h (Z.of_nat p)) as ->
    by (rewrite Hc; unfold ring_at; case_bools; lia).
  destruct p as [|p].
  - replace (ring_at h (Z.of_nat 0) =? hist_add_idx h) with true by (unfold ring_at; case_bools; lia).
    eexists. split; [done|]. apply set_cur_rep; [done|lia].
  - destruct (Z.eqb_spec (ring_at h (Z.of_nat (S p))) (hist_add_idx h)) as [E|_]; [unfold ring_at in E; case_bools; lia|].
    destruct (lookup_lt_is_Some_2 (recent v) p ltac:(lia)) as [s Hs]. rewrite Hs. cbn [mbind option_bind].
    replace (Z.of_nat (S p)) with (Z.of_nat p + 1) by lia. rewrite (hist_at_recent h v p H) by lia. rewrite Hs. cbn [mbind option_bind].
    eexists. split; [done|]. replace (Z.of_nat p + 1) with (Z.of_nat (S p)) by lia. apply set_cur_rep; [done|lia].
Qed.

Lemma add_to_hist_refines h v s : hrep h v -> cs s -> Z.of_nat (length s) <= HIST_SIZE ->
  exists h', cread_add_to_hist h s = Some h' /\ hrep (set_cur h' (hist_add_idx h')) (View (recent (remember s v)) (Some 0%nat)).
Proof.
  intros H Hs Hl. destruct H as [Hr Hcs Hi Hm Hw Hlen Hrec _]. unfold cread_add_to_hist, hist_store.
  replace (_ && _ && _) with true by lia. cbn [mbind option_bind]. eexists. split; [done|].
  unfold HIST_MAX in *. change (Z.to_nat 20) with 20%nat in *.
  set (idx := if 20 <=? hist_add_idx h + 1 then 0 else hist_add_idx h + 1).
  set (max := if hist_max h <? idx then idx else hist_max h).
  assert (0 <= idx <= max /\ max < 20 /\ (idx = max \/ max = 19)) as (Hi' & Hm' & Hw') by (subst idx max; case_bools; lia).
  assert (Hlen' : Z.of_nat (length (take 19 (s :: recent v))) = max).
  { rewrite length_take. cbn [length]. subst idx max. case_bools; lia. }
  split; cbn [hist_lines hist_max hist_add_idx hist_cur set_cur recent remember back]; unfold HIST_MAX; auto; try lia.
  - by rewrite length_insert.
  - by apply Forall_insert.
  - intros k Hk. rewrite length_take in Hk. cbn [length] in Hk. rewrite lookup_take_lt by lia.
    set (i := ring_at _ _). destruct k as [|k].
    + assert (i = hist_add_idx h) as -> by (subst i; unfold ring_at; cbn [hist_add_idx hist_max set_cur]; subst idx max; case_bools; lia).
      by rewrite list_lookup_insert_eq by lia.
    + assert (i = ring_at h (Z.of_nat k + 1) /\ i <> hist_add_idx h /\ 0 <= i) as (Ei & Hne & Hpos)
        by (subst i; unfold ring_at; cbn [hist_add_idx hist_max set_cur]; subst idx max; case_bools; lia).
      rewrite list_lookup_insert_ne by lia. rewrite Ei. cbn [lookup list_lookup]. apply Hrec. lia.
  - split; [lia|]. unfold ring_at. cbn [hist_add_idx hist_max set_cur]. case_bools; lia.
Qed.

(** The steps of the ring: a line is entered, an ignored line is entered, the user goes back or forth. *)
Inductive hist_step : hist -> hist -> Prop :=
| step_add h s h' : cs s -> Z.of_nat (length s) <= HIST_SIZE -> cread_add_to_hist h s = Some h' -> hist_step h (set_cur h' (hist_add_idx h'))
| step_skip h : hist_step h (set_cur h (hist_add_idx h))
| step_prev h r h' : hist_prev h = Some (r, h') -> hist_step h h'
| step_next h r h' : hist_next h = Some (r, h') -> hist_step h h'.

(** The types of the statics: 20 rows that hold strings, and indices of rows. *)
Definition hist_wf (h : hist) : Prop :=
  length (hist_lines h) = Z.to_nat HIST_MAX /\ Forall (fun s => cs s /\ Z.of_nat (length s) <= HIST_SIZE) (hist_lines h) /\
  0 <= hist_add_idx h <= hist_max h /\ hist_max h < HIST_MAX /\ -1 <= hist_cur h <= hist_max h.

Lemma skip_rep h v : hrep h v -> hrep (set_cur h (hist_add_idx h)) (View (recent v) (Some 0%nat)).
Proof.
  intros Hh. pose proof (set_cur_rep h v 0 Hh) as H. unfold ring_at in H at 1. pose proof (h_idx h v Hh).
  replace (Z.of_nat 0 <=? hist_add_idx h) with true in H by lia. rewrite Z.sub_0_r in H. apply H. lia.
Qed.

Lemma hist_step_rep h h' v : hrep h v -> hist_step h h' -> exists v', hrep h' v'.
Proof.
  intros Hh Hs. destruct Hs as [h s h' Hs Hl E|h|h r h' E|h r h' E].
  - destruct (add_to_hist_refines h v s Hh Hs Hl) as (h2 & E2 & H2). rewrite E in E2. injection E2 as ->. by eexists.
  - by eexists; apply skip_rep.
  - pose proof (hist_prev_refines h v Hh) as H. destruct (older v) as [ [s v'] |].
    + destruct H as (h2 & E2 & H2). rewrite E in E2. injection E2 as -> ->. by exists v'.
    + rewrite E in H. injection H as -> ->. by exists v.
  - pose proof (hist_next_refines h v Hh) as H. destruct (newer v) as [ [s v'] |].
    + destruct H as (h2 & E2 & H2). rewrite E in E2. injection E2 as -> ->. by exists v'.
    + rewrite E in H. injection H as -> ->. by exists v.
Qed.

Lemma hist_reach_rep h : rtc hist_step hist_init h -> exists v, hrep h v.
Proof.
  assert (forall h1 h2, rtc hist_step h1 h2 -> (exists v, hrep h1 v) -> exists v, hrep h2 v) as H.
  { induction 1 as [|h1 h2 h3 H12 _ IH]; [done|]. intros [v Hv]. apply IH. by apply (hist_step_rep h1 h2 v). }
  intros Hr. apply (H _ _ Hr). eexists. apply hist_init_rep.
Qed.

Lemma hrep_wf h v : hrep h v -> hist_wf h.
Proof.
  intros []. unfold hist_wf. split_and!; auto; try lia; destruct (back v) as [p|]; unfold ring_at in *; case_bools; lia.
Qed.

(** ** The editor refines the abstract one *)

Section Refinement.
Context (prompt : list Z).
#[local] Abbreviation len := CONFIG_SYS_CBSIZE.

(** The locals of [cread_line] for a line, with [x] of an escape sequence read. *)
Definition erep (e : ed) (l : line) (x : list Z) : Prop :=
  exists r, e = Ed (Z.of_nat (length (before l))) (Z.of_nat (length (before l) + length (after l))) (ins l) (before l ++ after l ++ r) x /\
    cs (before l) /\ cs (after l) /\ (length (before l) + length (after l) <= Z.to_nat len)%nat /\
    (length (before l) + length (after l) + length r = Z.to_nat len + 1)%nat.

Definition displays (t : term) (l : line) : Prop := shows t (prompt ++ before l) (after l).

(** The output [o] takes the display from [l] to [l']. *)
Definition redraws (l l' : line) (o : list Z) : Prop :=
  Forall printable (prompt ++ text l) -> Forall printable (prompt ++ text l') -> forall t, displays t l -> displays (feed t o) l'.

(** An operation on the locals takes [l] to [l']. *)
Definition sim (l l' : line) (x : list Z) (res : option (ed * list Z)) : Prop :=
  exists e o, res = Some (e, o) /\ erep e l' x /\ redraws l l' o.

Lemma redraws_refl l : redraws l l [].
Proof. by intros _ _ t Ht. Qed.

Lemma redraws_bell l : redraws l l [7].
Proof. intros _ _ t Ht. by rewrite feed_bell. Qed.

Lemma redraws_trans l1 l2 l3 o1 o2 : redraws l1 l2 o1 -> redraws l2 l3 o2 ->
  (Forall printable (text l1) -> Forall printable (text l3) -> Forall printable (text l2)) -> redraws l1 l3 (o1 ++ o2).
Proof.
  intros H1 H2 Hm Hp1 Hp3 t Ht. rewrite feed_app.
  assert (Forall printable (prompt ++ text l2)). { rewrite Forall_app in *. destruct Hp1, Hp3. auto. }
  by apply H2, H1.
Qed.

Lemma u32_len a b : (b <= 1000)%nat -> (a <= b)%nat -> u32 (Z.of_nat b - Z.of_nat a) = Z.of_nat (b - a).
Proof. intros. rewrite u32_small by lia. lia. Qed.

Lemma text_printable l : Forall printable (prompt ++ text l) -> Forall printable prompt /\ Forall printable (before l) /\ Forall printable (after l).
Proof. unfold text. rewrite !Forall_app. tauto. Qed.

Lemma backs_len n : backs (Z.of_nat n) = replicate n 8.
Proof. unfold backs. by rewrite Nat2Z.id. Qed.

(** Typing [s] over the text right of the cursor, then going back over [y]. *)
Lemma redraw_text t b a s x y k : left t = b -> right t = a ++ replicate k 32 -> Forall printable s -> s = x ++ y ->
  (length a <= length s)%nat -> exists j, feed t (s ++ replicate (length y) 8) = Term (b ++ x) (y ++ replicate j 32).
Proof.
  intros Hl Hr Hs -> Hlen. rewrite feed_app, (feed_text t b (x ++ y) _ Hl Hr Hs).
  rewrite (feed_back _ (b ++ x) y (drop (length (x ++ y)) (a ++ replicate k 32)) (length y)) by (cbn; rewrite ?app_assoc; done).
  exists (k - (length (x ++ y) - length a))%nat. f_equal. f_equal. rewrite drop_app_ge by done. by rewrite drop_replicate.
Qed.

Lemma add_char_insert b a r c x : 0 < c < 256 -> cs b -> cs a -> (length b + length a < Z.to_nat len)%nat ->
  (length b + length a + length r = Z.to_nat len + 1)%nat ->
  sim (Line b a true) (Line (b ++ [c]) a true) x
    (cread_add_char c len (Ed (Z.of_nat (length b)) (Z.of_nat (length b + length a)) true (b ++ a ++ r) x)).
Proof.
  intros Hc Hb Ha Hlt Hr. unfold cread_add_char. cbn [insert num eol_num buf orb andb]. cbv zeta. cbn [orb andb].
  change (u32 (len - 1)) with 511. change (Z.to_nat len) with 512%nat in *.
  replace (511 <? Z.of_nat (length b + length a)) with false by lia.
  replace (u32 (Z.of_nat (length b + length a) + 1 - Z.of_nat (length b))) with (Z.of_nat (length (c :: a)))
    by (rewrite u32_small by lia; cbn [length]; lia).
  destruct r as [|r0 r]; [cbn in Hr; lia|].
  assert ((if 1 <? Z.of_nat (length (c :: a)) then move (b ++ a ++ r0 :: r) (Z.of_nat (length b) + 1) (Z.of_nat (length b)) (Z.of_nat (length (c :: a)) - 1)
    else Some (b ++ a ++ r0 :: r)) = Some (b ++ (hd r0 a) :: a ++ r)) as ->.
  { destruct a as [|a0 a]; cbn [length]; [done|]. replace (1 <? _) with true by lia. unfold move.
    replace (Z.of_nat (S (S (length a))) - 1) with (Z.of_nat (length (a0 :: a))) by (cbn [length]; lia).
    rewrite copy_out_app. cbn [mbind option_bind hd app].
    replace (b ++ a0 :: a ++ r0 :: r) with ((b ++ [a0]) ++ (a ++ [r0]) ++ r) by (by rewrite <- !app_assoc).
    replace (Z.of_nat (length b) + 1) with (Z.of_nat (length (b ++ [a0]))) by (rewrite length_app; cbn; lia).
    rewrite copy_in_app by (rewrite length_app; cbn; lia). by rewrite <- !app_assoc. }
  cbn [mbind option_bind]. rewrite put_app. cbn [mbind option_bind].
  rewrite (putnstr_app _ b (c :: a) r) by (try done; by apply cs_cons). cbn [mbind option_bind].
  eexists _, _. split; [done|]. split.
  - exists r. cbn [before after ins set_pos insert]. split_and!; auto.
    + unfold set_pos. cbn [insert esc]. f_equal; [rewrite length_app; cbn; lia|rewrite length_app; cbn; lia|by rewrite <- !app_assoc].
    + apply cs_app. split; [done|]. by apply cs_one.
    + change (Z.to_nat len) with 512%nat. rewrite length_app. cbn. lia.
    + change (Z.to_nat len) with 512%nat. rewrite length_app. cbn in *. lia.
  - intros _ Hp t [Hl [k Hk] ]. cbn [before after] in *. apply text_printable in Hp as (_ & Hpb & Hpa). cbn [before after] in *.
    apply Forall_app in Hpb as [_ Hpc].
    replace (u32 (Z.of_nat (length (c :: a)) - 1)) with (Z.of_nat (length a)) by (rewrite u32_small; cbn [length]; lia).
    rewrite backs_len. destruct (redraw_text t (prompt ++ b) a (c :: a) [c] a k Hl Hk) as [j ->]; [by apply (proj2 (Forall_app printable [c] a))|done|cbn; lia|].
    split; [cbn; by rewrite <- app_assoc|]. by exists j.
Qed.

Lemma add_char_over b a a' r c x : 0 < c < 256 -> cs b -> cs a -> a = [] \/ (exists a0, a = a0 :: a') ->
  (a = [] -> a' = [] /\ (length b < Z.to_nat len)%nat) -> (length b + length a <= Z.to_nat len)%nat ->
  (length b + length a + length r = Z.to_nat len + 1)%nat ->
  sim (Line b a false) (Line (b ++ [c]) a' false) x
    (cread_add_char c len (Ed (Z.of_nat (length b)) (Z.of_nat (length b + length a)) false (b ++ a ++ r) x)).
Proof.
  intros Hc Hb Ha Hcase Hnil Hle Hr. unfold cread_add_char. cbn [insert num eol_num buf orb andb]. cbv zeta. cbn [orb andb].
  change (u32 (len - 1)) with 511. change (Z.to_nat len) with 512%nat in *.
  assert (exists y r', a ++ r = y :: a' ++ r' /\ (length b + 1 + length a' + length r' = 513)%nat) as (y & r' & E & Hr').
  { destruct Hcase as [-> | [a0 ->] ]; [destruct (Hnil eq_refl) as [-> ?]; destruct r as [|r0 r]; [cbn in *; lia|]; exists r0, r|exists a0, r];
      (split; [done|]); cbn in *; lia. }
  replace ((Z.of_nat (length b) =? Z.of_nat (length b + length a)) && (511 <? Z.of_nat (length b + length a))) with false.
  2: { destruct Hcase as [-> | [a0 ->] ]; cbn [length] in *; [destruct (Hnil eq_refl)|]; lia. }
  rewrite E, put_app. cbn [mbind option_bind]. rewrite (putnstr_app _ b [c] (a' ++ r') (cs_one c Hc) eq_refl : putnstr (b ++ c :: a' ++ r') _ 1 = _).
  cbn [mbind option_bind]. eexists _, _. split; [done|]. split.
  - exists r'. cbn [before after ins set_pos insert]. change (Z.to_nat len) with 512%nat.
    assert ((if Z.of_nat (length b) =? Z.of_nat (length b + length a) then Z.of_nat (length b + length a) + 1 else Z.of_nat (length b + length a)) =
      Z.of_nat (length (b ++ [c]) + length a')) as ->.
    { rewrite length_app. destruct Hcase as [-> | [a0 ->] ]; cbn [length]; [destruct (Hnil eq_refl) as [-> _]; cbn|]; case_bools; lia. }
    split_and!.
    + unfold set_pos. cbn [insert esc]. f_equal; [rewrite length_app; cbn; lia|by rewrite <- !app_assoc].
    + apply cs_app. split; [done|]. by apply cs_one.
    + destruct Hcase as [-> | [a0 ->] ]; [destruct (Hnil eq_refl) as [-> _]; apply cs_nil|apply cs_cons in Ha; tauto].
    + rewrite length_app. cbn [length]. destruct Hcase as [-> | [a0 ->] ]; cbn [length] in *; [destruct (Hnil eq_refl) as [-> ?]; cbn|]; lia.
    + rewrite length_app. cbn [length]. lia.
  - intros _ Hp t [Hl [k Hk] ]. cbn [before after] in *. apply text_printable in Hp as (_ & Hpb & Hpa). cbn [before after] in *.
    apply Forall_app in Hpb as [_ Hpc]. rewrite (feed_text t _ [c] _ Hl Hk Hpc). split; [cbn; by rewrite <- app_assoc|]. cbn [right length].
    destruct Hcase as [-> | [a0 ->] ]; [destruct (Hnil eq_refl) as [-> _]; exists (k - 1)%nat; cbn [app]; by rewrite drop_replicate|by exists k].
Qed.

Lemma add_char_refines c l x e : 0 < c < 256 -> erep e l x -> sim l (type_char c l) x (cread_add_char c len e).
Proof.
  intros Hc (r & -> & Hb & Ha & Hle & Hr). destruct l as [b a i]. unfold type_char, full, text. cbn [before after ins] in *. rewrite length_app.
  assert (forall res, res = Some (Ed (Z.of_nat (length b)) (Z.of_nat (length b + length a)) i (b ++ a ++ r) x, [7]) ->
    sim (Line b a i) (Line b a i) x res) as Hbell.
  { intros res ->. eexists _, _. split; [done|]. split; [by exists r|apply redraws_bell]. }
  destruct i.
  - destruct (Nat.leb_spec (Z.to_nat len) (length b + length a)); [|by apply add_char_insert].
    apply Hbell. unfold cread_add_char. cbn [insert num eol_num orb andb]. change (u32 (len - 1)) with 511. change (Z.to_nat len) with 512%nat in *.
    by replace (511 <? _) with true by lia.
  - destruct a as [|a0 a].
    + destruct (Nat.leb_spec (Z.to_nat len) (length b + length (@nil Z))) as [H|H].
      * apply Hbell. unfold cread_add_char. cbn [insert num eol_num orb andb length] in *. change (u32 (len - 1)) with 511. change (Z.to_nat len) with 512%nat in *.
        by replace (_ && _) with true by lia.
      * apply (add_char_over b [] []); auto. intros _. split; [done|]. cbn in H. lia.
    + apply (add_char_over b (a0 :: a) a); auto; [right; by eexists|done].
Qed.

Lemma type_char_before c l : before l `prefix_of` before (type_char c l).
Proof. unfold type_char. destruct (ins l), (full l), (after l); cbn; try done; by eexists. Qed.

Lemma type_chars_before s l : before l `prefix_of` before (foldl (fun l c => type_char c l) l s).
Proof.
  revert l. induction s as [|c s IH]; intros l; cbn; [done|]. etransitivity; [apply (type_char_before c)|apply IH].
Qed.

(** A character typed stays left of the cursor while more are typed. *)
Lemma typed_printable c s l : Forall printable (text l) -> Forall printable (text (foldl (fun l c => type_char c l) (type_char c l) s)) ->
  Forall printable (text (type_char c l)).
Proof.
  unfold text at 1 3. rewrite !Forall_app. intros [Hb Ha] H.
  unfold text in H. rewrite Forall_app in H. destruct H as [H _]. destruct (type_chars_before s (type_char c l)) as [y Hy]. rewrite Hy, Forall_app in H. split; [tauto|].
  unfold type_char. destruct l as [b a i]. cbn [ins before after] in *. destruct i, (full _), a; cbn; try done; apply Forall_cons_iff in Ha; tauto.
Qed.

Lemma add_str_refines save x : forall s pre l e, save = pre ++ s -> cs s -> erep e l x ->
  sim l (foldl (fun l c => type_char c l) l s) x (cread_add_str (fun _ i => get save i) (length s) (Z.of_nat (length pre)) len e).
Proof.
  induction s as [|c s IH]; intros pre l e -> Hs He; cbn [cread_add_str length foldl].
  { eexists _, _. split; [done|]. split; [done|apply redraws_refl]. }
  apply cs_cons in Hs as [Hc Hs]. rewrite get_app. cbn [mbind option_bind].
  destruct (add_char_refines c l x e Hc He) as (e1 & o1 & -> & He1 & Hd1). cbn [mbind option_bind].
  destruct (IH (pre ++ [c]) (type_char c l) e1) as (e2 & o2 & E & He2 & Hd2); [by rewrite <- app_assoc|done|done|].
  replace (Z.of_nat (length pre) + 1) with (Z.of_nat (length (pre ++ [c]))) by (rewrite length_app; cbn; lia).
  rewrite E. cbn [mbind option_bind]. eexists _, _. split; [done|]. split; [done|].
  apply (redraws_trans _ _ _ _ _ Hd1 Hd2). apply typed_printable.
Qed.

(** *** Keys that move the cursor or delete *)

Lemma erep_intro b a i r x : cs b -> cs a -> (length b + length a <= Z.to_nat len)%nat -> (length b + length a + length r = Z.to_nat len + 1)%nat ->
  erep (Ed (Z.of_nat (length b)) (Z.of_nat (length b + length a)) i (b ++ a ++ r) x) (Line b a i) x.
Proof. intros. by exists r. Qed.

Lemma home_refines l e x : erep e l x -> let '(e', o) := beginning_of_line e in erep e' (edit (fun _ => []) Home l) x /\ redraws l (edit (fun _ => []) Home l) o.
Proof.
  intros (r & -> & Hb & Ha & Hle & Hr). destruct l as [b a i]. cbn [before after ins text edit] in *.
  unfold beginning_of_line, set_pos, text. cbn [num eol_num insert buf esc before after]. split.
  - exists r. cbn [before after ins length app]. rewrite length_app, app_assoc. split_and!; auto; [apply cs_nil|by apply cs_app].
  - intros _ _ t [Hl [k Hk] ]. cbn [before after] in *. rewrite backs_len, (feed_back t prompt b _ _ Hl Hk eq_refl).
    split; [cbn; by rewrite app_nil_r|]. exists k. cbn. by rewrite <- app_assoc.
Qed.

Lemma erase_refines l e x : erep e l x -> let '(e', o) := erase_to_eol e in erep e' (Line (before l) [] (ins l)) x /\ redraws l (Line (before l) [] (ins l)) o.
Proof.
  intros (r & -> & Hb & Ha & Hle & Hr). destruct l as [b a i]. cbn [before after ins] in *.
  unfold erase_to_eol, set_pos. cbn [num eol_num insert buf esc].
  destruct (Z.ltb_spec (Z.of_nat (length b)) (Z.of_nat (length b + length a))) as [Hlt|Hlt].
  - split.
    + exists (a ++ r). cbn [before after ins length app]. rewrite Nat.add_0_r. split_and!; auto; [apply cs_nil|lia|]. rewrite length_app. lia.
    + intros _ _ t [Hl [k Hk] ]. cbn [before after] in *. change (Z.to_nat len) with 512%nat in *. rewrite u32_len by lia.
      replace (Z.of_nat (length b + length a) - Z.of_nat (length b)) with (Z.of_nat (length a)) by lia.
      replace (length b + length a - length b)%nat with (length a) by lia. rewrite backs_len. unfold blanks. rewrite Nat2Z.id.
      destruct (redraw_text t (prompt ++ b) a (replicate (length a) 32) [] (replicate (length a) 32) k Hl Hk) as [j Hj];
        [apply printable_blanks|done|by rewrite length_replicate|]. rewrite length_replicate in Hj. rewrite Hj.
      split; [cbn; by rewrite app_nil_r|]. exists (length a + j)%nat. cbn [right app after]. by rewrite replicate_add.
  - destruct a as [|a0 a]; [|cbn [length] in Hlt; lia]. split; [by apply (erep_intro b [] i r)|apply redraws_refl].
Qed.

Lemma refresh_types b a i r x : cs a -> (length b + length a <= 1000)%nat ->
  refresh_to_eol (Ed (Z.of_nat (length b)) (Z.of_nat (length b + length a)) i (b ++ a ++ r) x) =
  Some (Ed (Z.of_nat (length b + length a)) (Z.of_nat (length b + length a)) i (b ++ a ++ r) x, a).
Proof.
  intros Ha Hle. unfold refresh_to_eol, set_pos. cbn [num eol_num insert buf esc].
  destruct (Z.ltb_spec (Z.of_nat (length b)) (Z.of_nat (length b + length a))) as [Hlt|Hlt].
  - rewrite u32_len by lia. replace (length b + length a - length b)%nat with (length a) by lia. by rewrite (putnstr_app _ b a r Ha eq_refl).
  - destruct a as [|a0 a]; [|cbn [length] in Hlt; lia]. by rewrite Nat.add_0_r.
Qed.

Lemma refresh_refines l e x : erep e l x -> sim l (Line (text l) [] (ins l)) x (refresh_to_eol e).
Proof.
  intros (r & -> & Hb & Ha & Hle & Hr). destruct l as [b a i]. unfold text. cbn [before after ins] in *.
  change (Z.to_nat len) with 512%nat in *. rewrite refresh_types by (auto; lia). eexists _, _. split; [done|]. split.
  - exists r. cbn [before after ins length app]. rewrite Nat.add_0_r, length_app, app_assoc. split_and!; auto; [by apply cs_app|apply cs_nil].
  - intros Hp _ t [Hl [k Hk] ]. apply text_printable in Hp as (_ & _ & Hp). cbn [before after] in *. rewrite (feed_text t _ a _ Hl Hk Hp).
    split; [cbn; by rewrite <- app_assoc|]. exists k. cbn. by rewrite drop_app_length.
Qed.

Lemma Forall_take_drop (P : Z -> Prop) n l : Forall P l -> Forall P (take n l) /\ Forall P (drop n l).
Proof. intros H. split; [by apply Forall_take|by apply Forall_drop]. Qed.

(** The last character left of the cursor. *)
Lemma snoc_inv (b : list Z) : b <> [] -> exists b' c, b = b' ++ [c].
Proof. intros H. destruct (exists_last H) as (b' & c & ->). by exists b', c. Qed.

Section Keys.
Context (auto_complete : arr -> Z -> Z -> option (Z * arr * Z * Z * list Z)) (added : list Z -> list Z).
Context `{!Completer prompt auto_complete added}.

(** A key on the locals and the ring. *)
Definition ksim (c : Z) (l : line) (e : ed) (v : view) (h : hist) (l' : line) (v' : view) : Prop :=
  exists e' h' o, cread_key prompt auto_complete len c e h = Some (Go, e', h', o) /\ erep e' l' [] /\ hrep h' v' /\ redraws l l' o.

(** A key that leaves the ring alone. *)
Lemma ksim_line c l e v h l' e' o : hrep h v -> cread_key prompt auto_complete len c e h = Some (Go, e', h, o) ->
  erep e' l' [] -> redraws l l' o -> ksim c l e v h l' v.
Proof. intros. by exists e', h, o. Qed.

Ltac start_key :=
  unfold cread_key; cbn [Z.eqb Pos.eqb orb num eol_num insert buf esc before after ins];
  change (Z.to_nat len) with 512%nat in *.

Lemma key_right b a i v h r : hrep h v -> cs b -> cs a -> (length b + length a <= Z.to_nat len)%nat ->
  (length b + length a + length r = Z.to_nat len + 1)%nat ->
  ksim 6 (Line b a i) (Ed (Z.of_nat (length b)) (Z.of_nat (length b + length a)) i (b ++ a ++ r) []) v h (edit added Right' (Line b a i)) v.
Proof.
  intros Hh Hb Ha Hle Hr. destruct a as [|c a].
  - eapply ksim_line; [done|start_key; cbn [length]; rewrite Nat.add_0_r, Z.ltb_irrefl; done| |apply redraws_bell || cbn; rewrite app_nil_r; apply redraws_refl].
    cbn [edit before after take drop ins]. rewrite app_nil_r. cbn [app].
    rewrite <- (Nat.add_0_r (length b)) at 2. apply (erep_intro b [] i r [] Hb Ha); cbn [length] in *; lia.
  - eapply ksim_line; [done|start_key; replace (_ <? _) with true by (cbn [length]; lia); cbn [app]; rewrite get_app; done| |].
    + cbn [edit before after take drop ins]. rewrite take_0, drop_0. unfold set_pos. cbn [insert esc].
      replace (b ++ c :: a ++ r) with ((b ++ [c]) ++ a ++ r) by (by rewrite <- app_assoc).
      replace (Z.of_nat (length b) + 1) with (Z.of_nat (length (b ++ [c]))) by (rewrite length_app; cbn; lia).
      replace (length b + length (c :: a))%nat with (length (b ++ [c]) + length a)%nat by (rewrite length_app; cbn; lia).
      apply cs_cons in Ha as [Hc Ha]. apply erep_intro; auto; [apply cs_app; split; [done|by apply cs_one]| |]; change (Z.to_nat len) with 512%nat in *; rewrite length_app; cbn [length] in *; lia.
    + intros Hp _ t [Hl [k Hk] ]. apply text_printable in Hp as (_ & _ & Hp). cbn [before after] in *. apply Forall_cons_iff in Hp as [Hp _].
      rewrite (feed_text t _ [c] _ Hl Hk) by (by constructor). split; [cbn; by rewrite <- app_assoc|]. by exists k.
Qed.

Lemma key_left b a i v h r : hrep h v -> cs b -> cs a -> (length b + length a <= Z.to_nat len)%nat ->
  (length b + length a + length r = Z.to_nat len + 1)%nat ->
  ksim 2 (Line b a i) (Ed (Z.of_nat (length b)) (Z.of_nat (length b + length a)) i (b ++ a ++ r) []) v h (edit added Left' (Line b a i)) v.
Proof.
  intros Hh Hb Ha Hle Hr. destruct (decide (b = [])) as [-> | Hne].
  - eapply ksim_line; [done|start_key; done|by apply (erep_intro [] a i r)|apply redraws_refl].
  - destruct (snoc_inv b Hne) as (b' & c & ->). cbn [edit before after ins]. rewrite length_app. cbn [length]. rewrite Nat.add_sub.
    rewrite take_app_length, drop_app_length.
    eapply ksim_line; [done|start_key; replace (_ =? 0) with false by lia; done| |].
    + unfold set_pos. cbn [insert esc]. apply cs_app in Hb as [Hb Hc].
      replace ((b' ++ [c]) ++ a ++ r) with (b' ++ ([c] ++ a) ++ r) by (by rewrite <- !app_assoc).
      replace (Z.of_nat (length b' + 1) - 1) with (Z.of_nat (length b')) by lia.
      replace (length b' + 1 + length a)%nat with (length b' + length ([c] ++ a))%nat by (cbn; lia).
      rewrite length_app in Hle, Hr. apply erep_intro; auto; [by apply (proj2 (cs_app [c] a))| |]; cbn [length app] in *; lia.
    + intros _ _ t [Hl [k Hk] ]. cbn [before after] in *. rewrite app_assoc in Hl.
      change [8] with (replicate (length [c]) 8). rewrite (feed_back t (prompt ++ b') [c] _ _ Hl Hk eq_refl). split; [done|]. by exists k.
Qed.

Lemma key_delete b a i v h r : hrep h v -> cs b -> cs a -> (length b + length a <= Z.to_nat len)%nat ->
  (length b + length a + length r = Z.to_nat len + 1)%nat ->
  ksim 4 (Line b a i) (Ed (Z.of_nat (length b)) (Z.of_nat (length b + length a)) i (b ++ a ++ r) []) v h (edit added Delete (Line b a i)) v.
Proof.
  intros Hh Hb Ha Hle Hr. destruct a as [|c a].
  - eapply ksim_line; [done|start_key; cbn [length]; rewrite Nat.add_0_r, Z.ltb_irrefl; done| |apply redraws_refl].
    cbn [edit before after drop ins]. rewrite <- (Nat.add_0_r (length b)) at 2. apply (erep_intro b [] i r [] Hb Ha); cbn [length] in *; lia.
  - apply cs_cons in Ha as [Hc Ha].
    assert (exists r', (let wlen := u32 (Z.of_nat (length b + length (c :: a)) - Z.of_nat (length b) - 1) in
      if negb (wlen =? 0) then b0 ← move (b ++ (c :: a) ++ r) (Z.of_nat (length b)) (Z.of_nat (length b) + 1) wlen; s ← putnstr b0 (Z.of_nat (length b)) wlen; Some (b0, s)
      else Some (b ++ (c :: a) ++ r, [])) = Some (b ++ a ++ r', a) /\ length r' = S (length r)) as (r' & E & Hr').
    { change (Z.to_nat len) with 512%nat in *. cbv zeta.
      replace (u32 (Z.of_nat (length b + length (c :: a)) - Z.of_nat (length b) - 1)) with (Z.of_nat (length a)) by (rewrite u32_small; cbn [length] in *; lia).
      destruct a as [|a0 a]; [by exists (c :: r)|]. replace (_ =? 0) with false by (cbn [length]; lia). cbn [negb].
      destruct (snoc_inv (a0 :: a)) as (y & d & Ey); [done|]. exists (d :: r). split; [|done]. unfold move.
      replace (Z.of_nat (length b) + 1) with (Z.of_nat (length (b ++ [c]))) by (rewrite length_app; cbn; lia).
      replace (b ++ (c :: a0 :: a) ++ r) with ((b ++ [c]) ++ (a0 :: a) ++ r) by (by rewrite <- app_assoc).
      rewrite copy_out_app. cbn [mbind option_bind].
      replace ((b ++ [c]) ++ (a0 :: a) ++ r) with (b ++ (c :: y) ++ d :: r) by (rewrite Ey, <- !app_assoc; done).
      rewrite copy_in_app by (rewrite Ey, length_app; cbn; lia). cbn [mbind option_bind].
      by rewrite (putnstr_app _ b (a0 :: a) (d :: r)). }
    cbv zeta in E. eapply ksim_line; [done|start_key; cbv zeta; replace (_ <? _) with true by (cbn [length]; lia); rewrite E; done| |].
    + cbn [edit before after drop ins]. rewrite drop_0. unfold set_pos. cbn [insert esc].
      replace (Z.of_nat (length b + length (c :: a)) - 1) with (Z.of_nat (length b + length a)) by (cbn [length]; lia).
      apply erep_intro; auto; cbn [length] in *; lia.
    + intros Hp Hp' t [Hl [k Hk] ]. apply text_printable in Hp' as (_ & _ & Hp'). cbn [before after edit drop] in *.
      change (Z.to_nat len) with 512%nat in *.
      replace (u32 (Z.of_nat (length b + length (c :: a)) - Z.of_nat (length b) - 1) + 1) with (Z.of_nat (length (a ++ [32]))) by (rewrite u32_small; rewrite ?length_app; cbn [length] in *; lia).
      rewrite backs_len, app_assoc. destruct (redraw_text t (prompt ++ b) (c :: a) (a ++ [32]) [] (a ++ [32]) k Hl Hk) as [j ->];
        [apply Forall_app; split; [done|apply (printable_blanks 1)]|done|rewrite length_app; cbn; lia|].
      split; [cbn; by rewrite app_nil_r|]. exists (1 + j)%nat. cbn [right]. by rewrite <- app_assoc.
Qed.

Lemma key_rubout c b a i v h r : c = 255 \/ c = 127 \/ c = 8 -> hrep h v -> cs b -> cs a -> (length b + length a <= Z.to_nat len)%nat ->
  (length b + length a + length r = Z.to_nat len + 1)%nat ->
  ksim c (Line b a i) (Ed (Z.of_nat (length b)) (Z.of_nat (length b + length a)) i (b ++ a ++ r) []) v h (edit added Rubout (Line b a i)) v.
Proof.
  intros Hkey Hh Hb Ha Hle Hr. destruct (decide (b = [])) as [-> | Hne].
  - eapply ksim_line; [done|destruct Hkey as [-> | [-> | ->] ]; start_key; done|by apply (erep_intro [] a i r)|apply redraws_refl].
  - destruct (snoc_inv b Hne) as (b' & d & ->). cbn [edit before after ins]. rewrite length_app in *. cbn [length] in *. rewrite Nat.add_sub.
    rewrite take_app_length. apply cs_app in Hb as [Hb Hd]. set (x := hd d (rev a)).
    assert (E : (let wlen := u32 (Z.of_nat (length b' + 1 + length a) - Z.of_nat (length b' + 1)) in
      let n := Z.of_nat (length b' + 1) - 1 in
      b0 ← move ((b' ++ [d]) ++ a ++ r) n (n + 1) wlen; s ← putnstr b0 n wlen; Some (b0, s)) = Some (b' ++ a ++ x :: r, a)).
    { change (Z.to_nat len) with 512%nat in *. cbv zeta. rewrite u32_len by lia.
      replace (length b' + 1 + length a - (length b' + 1))%nat with (length a) by lia.
      replace (Z.of_nat (length b' + 1) - 1) with (Z.of_nat (length b')) by lia.
      replace (Z.of_nat (length b') + 1) with (Z.of_nat (length (b' ++ [d]))) by (rewrite length_app; cbn; lia).
      unfold move. rewrite copy_out_app. cbn [mbind option_bind].
      assert (exists y, length y = length a /\ (b' ++ [d]) ++ a ++ r = b' ++ y ++ x :: r) as (y & Hy & ->).
      { destruct (decide (a = [])) as [-> | Hn]; [exists []; by rewrite <- app_assoc|]. destruct (snoc_inv a Hn) as (y & z & ->).
        exists (d :: y). subst x. rewrite rev_app_distr. cbn. rewrite length_app, <- !app_assoc. split; [cbn; lia|done]. }
      rewrite copy_in_app by done. cbn [mbind option_bind]. by rewrite (putnstr_app _ b' a (x :: r)). }
    apply bind_Some in E as (b0 & Em & E). apply bind_Some in E as (s & Es & [= -> ->]).
    eapply ksim_line; [done| | |].
    + destruct Hkey as [-> | [-> | ->] ]; start_key; (replace (_ =? 0) with false by lia); cbn [negb]; rewrite Em; cbn [mbind option_bind]; rewrite Es; reflexivity.
    + unfold set_pos. cbn [insert esc]. replace (Z.of_nat (length b' + 1) - 1) with (Z.of_nat (length b')) by lia.
      replace (Z.of_nat (length b' + 1 + length a) - 1) with (Z.of_nat (length b' + length a)) by lia. apply erep_intro; auto; cbn [length]; lia.
    + intros _ Hp t [Hl [k Hk] ]. apply text_printable in Hp as (_ & _ & Hp). cbn [before after] in *.
      change (Z.to_nat len) with 512%nat in *. rewrite u32_len by lia.
      replace (Z.of_nat (length b' + 1 + length a - (length b' + 1)) + 1) with (Z.of_nat (length (a ++ [32]))) by (rewrite length_app; cbn; lia).
      rewrite app_assoc in Hl. rewrite backs_len, (app_assoc a), (feed_app t [8]). change [8] with (replicate (length [d]) 8).
      rewrite (feed_back t (prompt ++ b') [d] _ _ Hl Hk eq_refl).
      destruct (redraw_text (Term (prompt ++ b') ([d] ++ a ++ replicate k 32)) (prompt ++ b') (d :: a) (a ++ [32]) [] (a ++ [32]) k) as [j ->];
        [done|done|apply Forall_app; split; [done|apply (printable_blanks 1)]|done|rewrite length_app; cbn; lia|].
      split; [cbn; by rewrite app_nil_r|]. exists (1 + j)%nat. cbn [right after]. by rewrite <- app_assoc.
Qed.

(** A line of the ring replaces the line. *)
Lemma replace_line l e s : erep e l [] -> cs s -> (length s <= Z.to_nat len)%nat ->
  exists e' o, (let '(e, o1) := beginning_of_line e in let '(e, o2) := erase_to_eol e in
    b ← copy_in (buf e) 0 (s ++ [0]); s ← string_at b;
    '(e, o3) ← refresh_to_eol (set_pos e (num e) (Z.of_nat (length s)) b); Some (e, o1 ++ o2 ++ o3)) = Some (e', o) /\
    erep e' (Line s [] (ins l)) [] /\ redraws l (Line s [] (ins l)) o.
Proof.
  intros He Hs Hl. pose proof (home_refines l e [] He) as H1. destruct (beginning_of_line e) as [e1 o1]. destruct H1 as [He1 Hd1].
  pose proof (erase_refines _ e1 [] He1) as H2. destruct (erase_to_eol e1) as [e2 o2]. destruct H2 as [He2 Hd2].
  destruct He2 as (r & -> & _ & _ & _ & Hr). cbn [edit before after ins length app buf num Nat.add] in *.
  assert (exists r1 r2, r = r1 ++ r2 /\ length r1 = length (s ++ [0%Z])) as (r1 & r2 & -> & Hr1).
  { exists (take (length (s ++ [0%Z])) r), (drop (length (s ++ [0%Z])) r). rewrite take_drop. split; [done|].
    apply length_take_le. rewrite length_app. cbn. change (Z.to_nat len) with 512%nat in *. lia. }
  pose proof (copy_in_app [] r1 (s ++ [0]) r2 Hr1) as Ec. cbn [length app] in Ec. change (Z.of_nat 0) with 0 in Ec. rewrite Ec. cbn [mbind option_bind].
  rewrite <- app_assoc. cbn [app]. rewrite string_at_app by done. cbn [mbind option_bind]. unfold set_pos. cbn [insert esc num].
  change (Z.to_nat len) with 512%nat in *.
  pose proof (refresh_types [] s (ins l) (0 :: r2) [] Hs ltac:(cbn; lia)) as Er. cbn [length app Nat.add] in Er. change (Z.of_nat 0) with 0 in Er |- *. rewrite Er.
  cbn [mbind option_bind]. eexists _, _. split; [done|]. split.
  - exists (0 :: r2). cbn [before after ins length app]. rewrite Nat.add_0_r. rewrite length_app, Hr1, length_app in Hr. cbn in Hr. split_and!; auto; [apply cs_nil|]. change (Z.to_nat len) with 512%nat. lia.
  - apply (redraws_trans _ (Line [] (text l) (ins l)) _ _ _ Hd1); [|by unfold text].
    apply (redraws_trans _ (Line [] [] (ins l)) _ _ _ Hd2); [|constructor].
    intros _ Hp t [Hl' [k Hk] ]. unfold text in Hp. cbn [before after app] in *. rewrite !app_nil_r in *. apply Forall_app in Hp as [_ Hp].
    rewrite (feed_text t _ s _ Hl' Hk Hp). split; [done|]. exists (k - length s)%nat. cbn [right after app]. by rewrite drop_replicate.
Qed.

Lemma key_history c l e v h : c = 16 \/ c = 14 -> erep e l [] -> hrep h v ->
  exists e' h' o, cread_key prompt auto_complete len c e h = Some (Go, e', h', o) /\
    erep e' (edit_all added (key_of c) l v).1 [] /\ hrep h' (edit_all added (key_of c) l v).2 /\ redraws l (edit_all added (key_of c) l v).1 o.
Proof.
  intros Hc He Hh. assert (set_esc e [] = e) as Ee by (by destruct He as (r & -> & _)).
  assert (forall s v' h', cs s /\ Z.of_nat (length s) <= HIST_SIZE -> hrep h' v' -> (if c =? 16 then hist_prev h else hist_next h) = Some (Some s, h') ->
    exists e' h'' o, cread_key prompt auto_complete len c e h = Some (Go, e', h'', o) /\ erep e' (Line s [] (ins l)) [] /\ hrep h'' v' /\ redraws l (Line s [] (ins l)) o) as Hline.
  { intros s v' h' [Hs Hlen] Hh' E. destruct (replace_line l e s He Hs) as (e' & o & Er & He' & Hd); [unfold HIST_SIZE, CONFIG_SYS_CBSIZE in *; lia|].
    exists e', h', o. split_and!; auto. unfold cread_key. revert E Er. destruct Hc as [-> | ->]; cbn [Z.eqb Pos.eqb orb]; intros -> Er; cbn [mbind option_bind];
      rewrite Ee; destruct (beginning_of_line e) as [e1 o1]; destruct (erase_to_eol e1) as [e2 o2];
      destruct (copy_in (buf e2) 0 (s ++ [0])) as [b|]; [|done|..|done]; cbn [mbind option_bind] in *;
      (destruct (string_at b); [|done]); cbn [mbind option_bind] in *; (destruct (refresh_to_eol _) as [ [e3 o3]|]; [|done]); cbn in *; by injection Er as -> ->. }
  assert ((if c =? 16 then hist_prev h else hist_next h) = Some (None, h) ->
    exists e' h'' o, cread_key prompt auto_complete len c e h = Some (Go, e', h'', o) /\ erep e' l [] /\ hrep h'' v /\ redraws l l o) as Hnone.
  { intros E. exists e, h, [7]. split_and!; auto; [|apply redraws_bell]. unfold cread_key. revert E.
    destruct Hc as [-> | ->]; cbn [Z.eqb Pos.eqb orb]; intros ->; cbn [mbind option_bind]; by rewrite Ee. }
  destruct Hc as [-> | ->]; cbn [key_of Z.eqb Pos.eqb orb edit_all].
  - pose proof (hist_prev_refines h v Hh) as Hp. destruct (older v) as [ [s v'] |] eqn:E; [|by apply Hnone].
    destruct Hp as (h' & Hp & Hh'). apply (Hline s v' h'); auto. unfold older in E. apply bind_Some in E as (p & _ & E). apply bind_Some in E as (s' & Es & [= <- <-]).
    by apply (recent_cs h v p).
  - pose proof (hist_next_refines h v Hh) as Hp. destruct (newer v) as [ [s v'] |] eqn:E; [|by apply Hnone].
    destruct Hp as (h' & Hp & Hh'). apply (Hline s v' h'); auto. unfold newer in E. destruct (back v) as [ [|[|p] ] |]; try done.
    + injection E as <- <-. split; [apply cs_nil|]. unfold HIST_SIZE, CONFIG_SYS_CBSIZE. cbn. lia.
    + apply bind_Some in E as (s' & Es & [= <- <-]). by apply (recent_cs h v p).
Qed.

Lemma key_tab b a i v h r : hrep h v -> cs b -> cs a -> (length b + length a <= Z.to_nat len)%nat ->
  (length b + length a + length r = Z.to_nat len + 1)%nat ->
  ksim 9 (Line b a i) (Ed (Z.of_nat (length b)) (Z.of_nat (length b + length a)) i (b ++ a ++ r) []) v h (edit added Tab (Line b a i)) v.
Proof.
  intros Hh Hb Ha Hle Hr. destruct a as [|a0 a].
  2: { eapply ksim_line; [done|start_key; replace (_ <? _) with true by (cbn [length]; lia); done|by apply erep_intro|apply redraws_bell]. }
  cbn [length app] in *. rewrite Nat.add_0_r in *. destruct r as [|r0 r]; [cbn [length] in Hr; lia|].
  destruct (completes b r (Z.of_nat (length prompt) + Z.of_nat (length b)) Hb) as (ret & r' & col & out & E & Hadd & Hlen & Hret & Hout); [cbn [length] in Hr; lia|].
  set (k := if negb (ret =? 0) then Z.of_nat (length b + length (added b)) - Z.of_nat (length b) else 0).
  assert (k = Z.of_nat (length (added b))) as Hk by (subst k; destruct (Z.eqb_spec ret 0) as [->|]; cbn [negb]; [destruct (Hret eq_refl) as [-> _]; done|lia]).
  eapply ksim_line; [done| | |].
  - start_key. rewrite Z.ltb_irrefl, put_app. cbn [mbind option_bind]. rewrite E. cbn [mbind option_bind]. fold k. reflexivity.
  - cbn [edit before after ins]. unfold set_pos. cbn [insert esc]. rewrite Hk.
    replace (Z.of_nat (length b) + Z.of_nat (length (added b))) with (Z.of_nat (length (b ++ added b))) by (rewrite length_app; lia).
    rewrite <- (Nat.add_0_r (length (b ++ added b))) at 2. rewrite app_assoc.
    apply (erep_intro (b ++ added b) [] i (0 :: r') []); [by apply cs_app|apply cs_nil| |]; rewrite !length_app in *; cbn [length] in *; lia.
  - intros _ Hp t Ht. unfold displays in *. cbn [edit before after ins] in *. unfold text in Hp. cbn [before after] in Hp. rewrite app_nil_r in Hp.
    by apply Hout.
Qed.

Lemma key_char c e h : ~ (c ∈ [27; 1; 3; 6; 2; 4; 11; 5; 15; 24; 21; 255; 127; 8; 16; 14; 9]) ->
  cread_key prompt auto_complete len c e h = ('(e, o) ← cread_add_char c len e; Some (Go, e, h, o)) /\ key_of c = Char c.
Proof.
  intros Hc. unfold cread_key, key_of.
  assert (forall k, k ∈ [27; 1; 3; 6; 2; 4; 11; 5; 15; 24; 21; 255; 127; 8; 16; 14; 9] -> (c =? k) = false) as Hne
    by (intros k Hk; apply Z.eqb_neq; intros ->; contradiction).
  rewrite !Hne by (repeat (left || right)). done.
Qed.

(** A session and the variables that hold it. *)
Record rep (e : ed) (h : hist) (s : session) : Prop := {
  rep_line : erep e (s_line s) (s_esc s);
  rep_view : hrep h (s_view s);
  rep_esc : cs (s_esc s)
}.

Lemma key_kill c l e v h : c = 24 \/ c = 21 -> erep e l [] -> hrep h v -> ksim c l e v h (edit added Kill_line l) v.
Proof.
  intros Hc He Hh. pose proof (home_refines l e [] He) as H1. destruct (beginning_of_line e) as [e1 o1] eqn:E1. destruct H1 as [He1 Hd1].
  pose proof (erase_refines _ e1 [] He1) as H2. destruct (erase_to_eol e1) as [e2 o2] eqn:E2. destruct H2 as [He2 Hd2].
  eapply ksim_line; [done| |exact He2|].
  - unfold cread_key. destruct Hc as [-> | ->]; cbn [Z.eqb Pos.eqb orb]; rewrite E1, E2; done.
  - apply (redraws_trans _ _ _ _ _ Hd1 Hd2). by unfold text.
Qed.

Lemma key_refines c l e v h : 0 < c < 256 -> c <> 27 -> c <> 3 -> erep e l [] -> hrep h v ->
  ksim c l e v h (edit_all added (key_of c) l v).1 (edit_all added (key_of c) l v).2.
Proof.
  intros Hc H27 H3 He Hh. destruct (decide (c ∈ [27; 1; 3; 6; 2; 4; 11; 5; 15; 24; 21; 255; 127; 8; 16; 14; 9])) as [Hin|Hin].
  2: { destruct (key_char c e h Hin) as [Ek Eo]. rewrite Eo. cbn [edit_all edit fst snd].
       destruct (add_char_refines c l [] e Hc He) as (e' & o & Ea & He' & Hd). exists e', h, o. rewrite Ek, Ea. done. }
  destruct (decide (c = 16 \/ c = 14)) as [Hk|Hk]; [by apply key_history|].
  pose proof He as He0. destruct He as (r & -> & Hb & Ha & Hle & Hr). destruct l as [b a i]. cbn [before after ins] in *.
  repeat (apply elem_of_cons in Hin as [-> | Hin]; [try tauto; cbn [key_of Z.eqb Pos.eqb orb edit_all fst snd]|]); [..|by apply elem_of_nil in Hin];
    try (by apply key_right); try (by apply key_left); try (by apply key_delete); try (apply key_rubout; auto; fail); try (by apply key_tab).
  - pose proof (home_refines _ _ _ He0) as H1. destruct (beginning_of_line _) as [e1 o1] eqn:E1. destruct H1.
    eapply ksim_line; [done|unfold cread_key; cbn [Z.eqb Pos.eqb]; rewrite E1; done|done|done].
  - pose proof (erase_refines _ _ _ He0) as H1. destruct (erase_to_eol _) as [e1 o1] eqn:E1. destruct H1.
    eapply ksim_line; [done|unfold cread_key; cbn [Z.eqb Pos.eqb]; rewrite E1; done|done|done].
  - destruct (refresh_refines _ _ _ He0) as (e1 & o1 & E1 & ? & ?).
    eapply ksim_line; [done|unfold cread_key; cbn [Z.eqb Pos.eqb]; rewrite E1; done|done|done].
  - eapply ksim_line; [done|unfold cread_key; cbn [Z.eqb Pos.eqb]; done|by apply erep_intro|by intros _ _ t Ht].
  - apply key_kill; auto.
  - apply key_kill; auto.
Qed.

Lemma set_esc_rep e l x y : erep e l x -> erep (set_esc e y) l y.
Proof. intros (r & -> & H). by exists r. Qed.

Lemma esc_converted x c k : esc_action x c = ESC_CONVERTED k -> 0 < k < 256 /\ k <> 27 /\ k <> 3.
Proof.
  unfold esc_action. destruct x as [|x0 [|x1 [|x2 [|x3 x] ] ] ]; try done.
  - by destruct (_ || _).
  - repeat (match goal with |- context [if ?b then _ else _] => destruct b end; try done); intros [= <-]; lia.
  - repeat (match goal with |- context [if ?b then _ else _] => destruct b end; try done); intros [= <-]; lia.
Qed.

(** What a step of the editor does, against the abstract one. *)
Definition stepped (s : session) (r : verdict * session) (e : ed) (h : hist) (res : option (verdict * ed * hist * list Z)) : Prop :=
  exists e' h' o, res = Some (r.1, e', h', o) /\
  match r.1 with
  | Go => rep e' h' r.2 /\ redraws (s_line s) (s_line r.2) o
  | Enter => e' = e /\ h' = h /\ r.2 = s
  | Break => h' = h /\ s_view r.2 = s_view s /\ string_at (buf e') = Some []
  end.

Lemma key_step_refines c s e h : 0 < c < 256 -> s_esc s = [] -> rep e h s ->
  stepped s (key_step added c s) e h (cread_key prompt auto_complete len c e h).
Proof.
  intros Hc Hx [He Hh _]. rewrite Hx in He. unfold key_step, stepped.
  destruct (Z.eqb_spec c 27) as [-> | H27].
  { exists (set_esc e [27]), h, []. split; [done|]. split; [|apply redraws_refl].
    split; cbn [s_line s_view s_esc]; [by apply (set_esc_rep e _ [])|done|by apply cs_one]. }
  destruct (Z.eqb_spec c 3) as [-> | H3].
  { destruct He as (r & -> & _ & _ & _ & Hr). unfold cread_key. cbn [Z.eqb Pos.eqb buf num eol_num]. rewrite app_assoc.
    destruct ((before (s_line s) ++ after (s_line s)) ++ r) as [|y z] eqn:Ez.
    { apply (f_equal length) in Ez. rewrite !length_app in Ez. cbn in Ez. lia. }
    change (put (y :: z) 0 0) with (put ([] ++ y :: z) (Z.of_nat (length (@nil Z))) 0). rewrite put_app. cbn [mbind option_bind].
    eexists _, _, _. split; [done|]. done. }
  destruct (key_refines c (s_line s) e (s_view s) h Hc H27 H3 He Hh) as (e' & h' & o & -> & He' & Hh' & Hd).
  destruct (edit_all added (key_of c) (s_line s) (s_view s)) as [l v]. exists e', h', o. cbn [fst snd] in *. split; [done|].
  split; [|done]. split; [done|done|apply cs_nil].
Qed.

Lemma step_refines c s e h : 0 < c < 256 -> rep e h s ->
  stepped s (step added c s) e h (cread_step prompt auto_complete len c e h).
Proof.
  intros Hc Hrep. unfold step, cread_step. destruct (_ || _); [by exists e, h, [10]|].
  assert (esc e = s_esc s) as -> by (by destruct Hrep as [ (r & -> & _) _ _]).
  destruct (s_esc s) as [|x0 x] eqn:Ex; [by apply key_step_refines|]. rewrite <- Ex in *.
  destruct (esc_action (s_esc s) c) as [| |k] eqn:Ea.
  - destruct Hrep as [He Hh Hx]. destruct (add_str_refines (s_esc s ++ [c]) (s_esc s) (s_esc s ++ [c]) [] (s_line s) e eq_refl) as (e' & o & E & He' & Hd);
      [apply cs_app; split; [done|by apply cs_one]|done|].
    cbn [length] in E. change (Z.of_nat 0) with 0 in E. rewrite E. cbn [mbind option_bind].
    eexists _, _, _. split; [done|]. split; [|done]. split; cbn [s_line s_view s_esc snd]; [by apply (set_esc_rep e' _ (s_esc s))|done|apply cs_nil].
  - destruct Hrep as [He Hh Hx]. eexists _, _, _. split; [done|]. split; [|apply redraws_refl].
    split; cbn [s_line s_view s_esc snd]; [by apply (set_esc_rep e _ (s_esc s))|done|apply cs_app; split; [done|by apply cs_one] ].
  - destruct Hrep as [He Hh Hx]. destruct (esc_converted _ _ _ Ea) as (Hk & H27 & H3).
    destruct (key_step_refines k (Session (s_line s) (s_view s) []) (set_esc e []) h Hk eq_refl) as (e' & h' & o & E & Hr).
    { split; cbn [s_line s_view s_esc]; [by apply (set_esc_rep e _ (s_esc s))|done|apply cs_nil]. }
    exists e', h', o. split; [done|]. revert Hr. unfold key_step. rewrite (proj2 (Z.eqb_neq _ _) H27), (proj2 (Z.eqb_neq _ _) H3).
    by destruct (edit_all added (key_of k) _ _) as [l v].
Qed.

(** The texts the session goes through are printable. *)
Fixpoint clean (keys : list Z) (s : session) : Prop :=
  match keys with
  | [] => True
  | c :: keys =>
    let '(v, s') := step added c s in
    match v with Go => Forall printable (text (s_line s')) /\ clean keys s' | _ => True end
  end.

Lemma loop_refines keys : forall s e h, Forall (fun c => 0 < c < 256) keys -> rep e h s ->
  let '(r, s') := run added keys s in
  exists e' h' o, cread_loop prompt auto_complete len keys e h = Some (r, e', h', o) /\
    match r with
    | Ended Break => hrep h' (s_view s') /\ string_at (buf e') = Some []
    | Ended _ => rep e' h' s'
    | Waiting => rep e' h' s' /\ (Forall printable (prompt ++ text (s_line s)) -> clean keys s -> forall t, displays t (s_line s) -> displays (feed t o) (s_line s'))
    end.
Proof.
  induction keys as [|c keys IH]; intros s e h Hk Hrep; cbn [run cread_loop clean].
  { exists e, h, []. split; [done|]. split; [done|]. by intros _ _ t Ht. }
  apply Forall_cons_iff in Hk as [Hc Hk]. destruct (step_refines c s e h Hc Hrep) as (e1 & h1 & o1 & -> & H1).
  destruct (step added c s) as [w s1] eqn:Es. cbn [fst snd mbind option_bind] in *. destruct w.
  - destruct H1 as [Hr1 Hd1]. specialize (IH s1 e1 h1 Hk Hr1). destruct (run added keys s1) as [r s'].
    destruct IH as (e' & h' & o & -> & H). cbn [mbind option_bind]. eexists _, _, _. split; [done|]. destruct r as [ [| |]|]; auto.
    destruct H as [Hr' Hd]. split; [done|]. intros Hp [Hp1 Hcl] t Ht. rewrite feed_app.
    assert (Forall printable (prompt ++ text (s_line s1))) by (apply Forall_app; apply Forall_app in Hp; tauto). by apply Hd, Hd1.
  - destruct H1 as (-> & -> & ->). by eexists _, _, _.
  - destruct H1 as (-> & Hv & Hs). eexists _, _, _. split; [done|]. split; [|done]. rewrite Hv. exact (rep_view _ _ _ Hrep).
Qed.

(** *** The line that is edited *)

Lemma add_char_end b r0 r c : (length b < Z.to_nat len)%nat -> 0 < c < 256 ->
  cread_add_char c len (Ed (Z.of_nat (length b)) (Z.of_nat (length b)) true (b ++ r0 :: r) []) =
  Some (Ed (Z.of_nat (length (b ++ [c]))) (Z.of_nat (length (b ++ [c]))) true (b ++ c :: r) [], [c]).
Proof.
  intros Hl Hc. unfold cread_add_char. cbn [insert num eol_num buf orb andb]. cbv zeta. cbn [orb andb].
  change (u32 (len - 1)) with 511. change (Z.to_nat len) with 512%nat in *. replace (511 <? _) with false by lia.
  replace (u32 (Z.of_nat (length b) + 1 - Z.of_nat (length b))) with 1 by (rewrite u32_small; lia). cbn [Z.ltb Z.compare Pos.compare Pos.compare_cont mbind option_bind].
  rewrite put_app. cbn [mbind option_bind]. rewrite (putnstr_app _ b [c] r (cs_one c Hc) eq_refl : putnstr (b ++ c :: r) _ 1 = _). cbn [mbind option_bind].
  unfold set_pos. cbn [insert esc]. rewrite length_app. cbn [length]. change (u32 (1 - 1)) with 0. cbn [app backs Z.to_nat replicate].
  replace (Z.of_nat (length b + 1)) with (Z.of_nat (length b) + 1) by lia. done.
Qed.

Lemma init_types r : forall s b, cs s -> (length b + length s <= Z.to_nat len)%nat ->
  cread_add_str get (length s) (Z.of_nat (length b)) len (Ed (Z.of_nat (length b)) (Z.of_nat (length b)) true (b ++ s ++ r) []) =
  Some (Ed (Z.of_nat (length (b ++ s))) (Z.of_nat (length (b ++ s))) true (b ++ s ++ r) [], s).
Proof.
  induction s as [|c s IH]; intros b Hs Hl; cbn [cread_add_str length]; [by rewrite app_nil_r|].
  apply cs_cons in Hs as [Hc Hs]. cbn [buf app]. rewrite get_app. cbn [mbind option_bind]. cbn [length] in Hl.
  rewrite add_char_end by (auto; lia). cbn [mbind option_bind].
  replace (b ++ c :: s ++ r) with ((b ++ [c]) ++ s ++ r) by (by rewrite <- app_assoc).
  replace (Z.of_nat (length b) + 1) with (Z.of_nat (length (b ++ [c]))) by (rewrite length_app; cbn; lia).
  rewrite IH by (auto; rewrite length_app; cbn; lia). cbn [mbind option_bind app]. by rewrite <- !app_assoc.
Qed.

(** The ring after a line has been entered. *)
Definition entered (s : list Z) (v : view) : view :=
  View (if match s with [] => true | c :: _ => c =? 33 end then recent v else recent (remember s v)) (Some 0%nat).

Lemma enter_refines e h s : rep e h s ->
  exists b' h', put (buf e) (eol_num e) 0 = Some b' /\ string_at b' = Some (text (s_line s)) /\ eol_num e = Z.of_nat (length (text (s_line s))) /\
    (c ← get b' 0; h ← (if negb (c =? 0) && negb (c =? 33) then s ← string_at b'; cread_add_to_hist h s else Some h);
     Some (set_cur h (hist_add_idx h))) = Some h' /\ hrep h' (entered (text (s_line s)) (s_view s)).
Proof.
  intros [ (r & -> & Hb & Ha & Hle & Hr) Hh _]. unfold text. cbn [buf eol_num]. rewrite app_assoc.
  set (x := before (s_line s) ++ after (s_line s)). assert (cs x) as Hx by (by apply cs_app).
  assert (length x = length (before (s_line s)) + length (after (s_line s)))%nat as Hlx by apply length_app. rewrite <- Hlx in *.
  destruct r as [|r0 r]; [cbn [length] in Hr; lia|]. rewrite put_app. exists (x ++ 0 :: r).
  rewrite string_at_app by done. cbn [mbind option_bind].
  assert (forall c y, x = c :: y -> exists h', cread_add_to_hist h x = Some h' /\ hrep (set_cur h' (hist_add_idx h')) (View (recent (remember x (s_view s))) (Some 0%nat))) as Hadd.
  { intros c y _. apply add_to_hist_refines; auto. unfold HIST_SIZE. change (Z.to_nat len) with 512%nat in *. change len with 512. lia. }
  assert (hrep (set_cur h (hist_add_idx h)) (View (recent (s_view s)) (Some 0%nat))) as Hsame.
  { by apply skip_rep. }
  unfold entered. destruct x as [|c y] eqn:E; [by eexists|]. apply cs_cons in Hx as [Hc _]. cbn [app].
  change (get (c :: y ++ 0 :: r) 0) with (Some c). cbn [mbind option_bind]. replace (c =? 0) with false by lia. cbn [negb andb].
  destruct (c =? 33); cbn [negb]; [by eexists|]. destruct (Hadd c y eq_refl) as (h' & -> & Hh'). by eexists.
Qed.

End Keys.

End Refinement.

(** ** The plain reader refines appending and deleting at the end *)

Fixpoint kill_word (l : list Z) : list Z := match l with [] => [] | c :: l => if c =? 32 then l else kill_word l end.

Definition append (c : Z) (s : list Z) : list Z :=
  if c =? 0x15 then [] else
  if c =? 0x17 then rev (kill_word (rev s)) else
  if (c =? 8) || (c =? 0x7f) then take (length s - 1) s else
  if (Z.of_nat (length s) <? CONFIG_SYS_CBSIZE - 2) && negb (c =? 0) then s ++ [c] else s.

Definition prep (q : plain) (s : list Z) : Prop :=
  pp q = Z.of_nat (length s) /\ pn q = Z.of_nat (length s) /\ (length s <= Z.to_nat (CONFIG_SYS_CBSIZE - 2))%nat /\
  exists r, pbuf q = s ++ r /\ length (s ++ r) = Z.to_nat (CONFIG_SYS_CBSIZE + 1).

Lemma snoc_cases (s : list Z) : s = [] \/ exists s' c, s = s' ++ [c].
Proof. destruct (decide (s = [])) as [|H]; [by left|right]. destruct (exists_last H) as (s' & c & ->). by exists s', c. Qed.

Lemma delete_char_prep plen q s c : prep q (s ++ [c]) ->
  exists q' o, delete_char plen q = Some (q', o) /\ prep q' s /\ get (pbuf q') (pp q') = Some c.
Proof.
  intros (Hp & Hn & Hl & r & Hb & Hlen). rewrite length_app in *. cbn [length] in *. unfold delete_char.
  replace (pn q =? 0) with false by lia. rewrite Hb, <- app_assoc. cbn [app].
  replace (pp q - 1) with (Z.of_nat (length s)) by lia. rewrite get_app. cbn [mbind option_bind].
  assert (forall col, let q' := Plain (Z.of_nat (length s)) (pn q - 1) col (s ++ c :: r) (cons q) in prep q' s /\ get (pbuf q') (pp q') = Some c) as Hq.
  { intros col q'. split; [|by apply get_app]. unfold prep. cbn [pp pn pbuf q']. split_and!; [done|lia|lia|]. exists (c :: r). split; [done|].
    rewrite length_app in *. cbn [length] in *. lia. }
  destruct (c =? 9); [|by eexists _, _].
  pose proof (copy_out_app [] s (c :: r)) as Ho. cbn [app length] in Ho. change (Z.of_nat 0) with 0 in Ho. rewrite Ho. cbn [mbind option_bind].
  destruct (retype s _) as [col o]. by eexists _, _.
Qed.

Lemma delete_char_refines plen q s : prep q s -> exists q' o, delete_char plen q = Some (q', o) /\ prep q' (take (length s - 1) s).
Proof.
  intros H. destruct (snoc_cases s) as [-> | (s' & c & ->)].
  - exists q, []. split; [|done]. unfold delete_char. destruct H as (_ & -> & _). done.
  - destruct (delete_char_prep plen q s' c H) as (q' & o & E & Hq & _). exists q', o. split; [done|].
    rewrite length_app. cbn [length]. by rewrite Nat.add_sub, take_app_length.
Qed.

(** After a character was deleted, which [get] still sees, the loop of ^W deletes up to a blank. *)
Lemma delete_word_refines plen fuel : forall q s c, prep q s -> get (pbuf q) (pp q) = Some c -> (length s < fuel)%nat ->
  exists q' o, delete_word fuel plen q = Some (q', o) /\ prep q' (rev (if c =? 32 then rev s else kill_word (rev s))).
Proof.
  induction fuel as [|fuel IH]; intros q s c Hq Hc Hf; [lia|]. cbn [delete_word].
  pose proof Hq as (_ & -> & _). destruct (snoc_cases s) as [-> | (s' & d & ->)].
  { exists q, []. split; [done|]. by destruct (c =? 32). }
  rewrite length_app in *. cbn [length] in *. replace (0 <? _) with true by lia. rewrite Hc. cbn [mbind option_bind].
  rewrite rev_app_distr. cbn [rev app kill_word]. destruct (c =? 32); cbn [negb].
  { exists q, []. split; [done|]. cbn [rev]. by rewrite rev_involutive. }
  destruct (delete_char_prep plen q s' d Hq) as (q1 & o1 & -> & Hq1 & Hd). cbn [mbind option_bind].
  destruct (IH q1 s' d Hq1 Hd ltac:(lia)) as (q2 & o2 & -> & Hq2). cbn [mbind option_bind]. by eexists _, _.
Qed.

Lemma word_refines plen q s : prep q s ->
  exists q' o, ('(q, o1) ← delete_char plen q; '(q, o2) ← delete_word (S (Z.to_nat (pn q))) plen q; Some (q, o1 ++ o2)) = Some (q', o) /\
    prep q' (rev (kill_word (rev s))).
Proof.
  intros H. destruct (snoc_cases s) as [-> | (s' & c & ->)].
  - exists q, []. split; [|done]. unfold delete_char. destruct H as (_ & Hn & _). change (Z.of_nat (length [])) with 0 in Hn. rewrite Hn. change (0 =? 0) with true. cbn [mbind option_bind]. cbn [delete_word]. by rewrite Hn.
  - destruct (delete_char_prep plen q s' c H) as (q1 & o1 & -> & Hq1 & Hd). cbn [mbind option_bind].
    destruct (delete_word_refines plen (S (Z.to_nat (pn q1))) q1 s' c Hq1 Hd) as (q2 & o2 & -> & Hq2); [destruct Hq1 as (_ & -> & _); lia|].
    cbn [mbind option_bind]. eexists _, _. split; [done|]. rewrite rev_app_distr. cbn [rev app kill_word].
    by destruct (c =? 32).
Qed.

Lemma plain_step_refines prompt ac c q s : 0 <= c < 256 -> c <> 9 -> c <> 10 -> c <> 13 -> c <> 3 -> prep q s ->
  exists q' o, plain_step prompt ac c q = Some (inr (q', o)) /\ prep q' (append c s).
Proof.
  intros Hc H9 H10 H13 H3 Hq. unfold plain_step, append.
  rewrite (proj2 (Z.eqb_neq _ _) H10), (proj2 (Z.eqb_neq _ _) H13), (proj2 (Z.eqb_neq _ _) H3). cbn [orb]. cbv zeta.
  destruct (Z.eqb_spec c 0) as [-> | H0]; [exists q, []; split; [done|]; cbn; by rewrite andb_false_r|].
  destruct (c =? 21).
  { eexists _, _. split; [done|]. destruct Hq as (_ & _ & _ & r & -> & Hl). unfold prep. cbn [pp pn pbuf length]. split_and!; [done|done|lia|]. by exists (s ++ r). }
  destruct (c =? 23).
  { destruct (word_refines (Z.of_nat (length (default [] prompt))) q s Hq) as (q' & o & E & Hq').
    destruct (delete_char _ q) as [ [q1 o1]|]; [|done]. cbn [mbind option_bind] in *. destruct (delete_word _ _ q1) as [ [q2 o2]|]; [|done]. cbn in *.
    injection E as -> ->. by eexists _, _. }
  destruct ((c =? 8) || (c =? 127)).
  { destruct (delete_char_refines (Z.of_nat (length (default [] prompt))) q s Hq) as (q' & o & -> & Hq'). by eexists _, _. }
  rewrite (proj2 (Z.eqb_neq _ _) H9). destruct Hq as (Hp & Hn & Hl & r & Hb & Hlen). rewrite Hn. cbn [negb]. rewrite andb_true_r.
  destruct (Z.ltb_spec (Z.of_nat (length s)) (CONFIG_SYS_CBSIZE - 2)) as [Hlt|Hge].
  - destruct r as [|r0 r].
    { rewrite app_nil_r in Hlen. unfold CONFIG_SYS_CBSIZE in *. lia. }
    rewrite Hb, Hp, put_app. cbn [mbind option_bind]. eexists _, _. split; [done|]. unfold prep. cbn [pp pn pbuf]. rewrite length_app. cbn [length].
    unfold CONFIG_SYS_CBSIZE in *. split_and!; try lia. exists r. rewrite <- app_assoc. split; [done|]. rewrite !length_app in *. cbn [length] in *. lia.
  - eexists _, _. split; [done|]. split_and!; auto. by exists r.
Qed.

(** A line typed without completion, up to the newline, is what the keys spell. *)
Lemma plain_loop_refines prompt ac nl keys rest : forall q s, Forall (fun c => 0 <= c < 256 /\ c <> 9 /\ c <> 10 /\ c <> 13 /\ c <> 3) keys ->
  nl = 10 \/ nl = 13 -> prep q s ->
  let s' := foldl (fun s c => append c s) s keys in
  exists b o, plain_loop prompt ac (keys ++ nl :: rest) q = Some (Some (Z.of_nat (length s'), b, o)) /\ exists r, b = s' ++ 0 :: r.
Proof.
  induction keys as [|c keys IH]; intros q s Hk Hnl Hq; cbn [app plain_loop foldl].
  - destruct Hq as (Hp & Hn & Hl & r & Hb & Hlen). unfold plain_step.
    replace ((nl =? 13) || (nl =? 10)) with true by lia. destruct r as [|r0 r]; [rewrite app_nil_r in Hlen; unfold CONFIG_SYS_CBSIZE in *; lia|].
    rewrite Hb, Hp, put_app. cbn [mbind option_bind]. eexists _, _. split; [done|]. by exists r.
  - apply Forall_cons_iff in Hk as [ (Hc & H9 & H10 & H13 & H3) Hk].
    destruct (plain_step_refines prompt ac c q s Hc H9 H10 H13 H3 Hq) as (q1 & o1 & -> & Hq1). cbn [mbind option_bind].
    destruct (IH q1 (append c s) Hk Hnl Hq1) as (b & o & -> & Hb). cbn [mbind option_bind]. by eexists _, _.
Qed.

(** ** The line read *)

Lemma init_rep init r h v : cs init -> (length init + S (length r) = Z.to_nat CONFIG_SYS_CBSIZE + 1)%nat -> hrep h v ->
  rep (Ed (Z.of_nat (length init)) (Z.of_nat (length init)) true (init ++ 0 :: r) []) h (Session (Line init [] true) v []).
Proof.
  intros Hi Hlen Hh. split; cbn [s_line s_view s_esc]; [|done|apply cs_nil]. exists (0 :: r). cbn [before after ins length app]. rewrite Nat.add_0_r.
  split_and!; auto; [apply cs_nil|lia].
Qed.

Lemma init_line init r : cs init -> (length init + S (length r) = Z.to_nat CONFIG_SYS_CBSIZE + 1)%nat ->
  cread_add_str get (length init) 0 CONFIG_SYS_CBSIZE (Ed 0 0 true (init ++ 0 :: r) []) =
  Some (Ed (Z.of_nat (length init)) (Z.of_nat (length init)) true (init ++ 0 :: r) [], init).
Proof.
  intros Hi Hlen. pose proof (init_types (0 :: r) init [] Hi) as E. cbn [length app] in E. change (Z.of_nat 0) with 0 in E. apply E.
  change (Z.to_nat CONFIG_SYS_CBSIZE) with 512%nat in *. lia.
Qed.

Lemma cread_line_refines prompt ac added init r keys h v timeout late : Completer prompt ac added ->
  cs init -> (length init + S (length r) = Z.to_nat CONFIG_SYS_CBSIZE + 1)%nat -> Forall (fun c => 0 < c < 256) keys -> hrep h v ->
  negb (timeout =? 0) && late = false ->
  let res := cread_line prompt ac CONFIG_SYS_CBSIZE (init ++ 0 :: r) timeout late keys h in
  let '(r, s) := run added keys (Session (Line init [] true) v []) in
  match r with
  | Waiting => res = Some None
  | Ended Break => exists b h' o, res = Some (Some (-1, b, CONFIG_SYS_CBSIZE, h', o)) /\ string_at b = Some [] /\ hrep h' (s_view s)
  | Ended _ => exists b h' o, res = Some (Some (0, b, Z.of_nat (length (text (s_line s))), h', o)) /\
      string_at b = Some (text (s_line s)) /\ hrep h' (entered (text (s_line s)) (s_view s))
  end.
Proof.
  intros Hcomp Hi Hlen Hk Hh Ht. unfold cread_line. rewrite string_at_app by done. cbn [mbind option_bind].
  rewrite (init_line init r Hi Hlen). cbn [mbind option_bind]. rewrite Ht.
  pose proof (init_rep init r h v Hi Hlen Hh) as Hrep.
  pose proof (loop_refines prompt ac added keys _ _ _ Hk Hrep) as H. destruct (run added keys _) as [e0 s]. destruct H as (e & h' & o & -> & H).
  cbn [mbind option_bind]. destruct e0 as [ [| |]|]; [| | |done].
  3: { destruct H as [Hv Hs]. by eexists _, _, _. }
  all: destruct (enter_refines e h' s H) as (b & h2 & -> & Hs & He & E & Hh2); cbn [mbind option_bind] in *;
    destruct (get b 0) as [c|]; [|done]; cbn [mbind option_bind] in *;
    destruct (if _ && _ then _ else _) as [h3|]; [|done]; cbn [mbind option_bind] in *; injection E as <-; rewrite He; by eexists _, _, _.
Qed.

(** C24: [cli_readline] on the relocated boot loader, with the completion of common/command.c, is the abstract
    editor: for every sequence of keys it stays inside its buffer and the ring, and when Enter is pressed
    it returns the length of the edited line, leaves the line in the buffer and puts it at the head of the
    19 lines that the ring remembers unless it is empty or starts with '!'; ^C returns -1 with an empty buffer. *)
Theorem cli_readline_edits {S} (table : list (cmd_tbl S)) beyond P prompt b keys h v :
  table_wf table -> (forall s k, cs (beyond s k)) -> (length b = Z.to_nat CONFIG_SYS_CBSIZE + 1)%nat ->
  Forall (fun c => 0 < c < 256) keys -> hrep h v ->
  let res := cli_readline (cmd_auto_complete table P beyond) true true prompt b keys h in
  let '(r, s) := run (added table prompt beyond P) keys (Session (Line [] [] true) v []) in
  match r with
  | Waiting => res = Some None
  | Ended Break => exists b' h' o, res = Some (Some (-1, b', h', o)) /\ string_at b' = Some [] /\ hrep h' (s_view s)
  | Ended _ => exists b' h' o, res = Some (Some (Z.of_nat (length (text (s_line s))), b', h', o)) /\
      string_at b' = Some (text (s_line s)) /\ hrep h' (entered (text (s_line s)) (s_view s))
  end.
Proof.
  intros Hwf Hbe Hb Hk Hh. pose proof (cmd_auto_complete_completes table prompt beyond Hwf Hbe P) as Hcomp.
  destruct b as [|b0 b]; [cbn in Hb; lia|]. unfold cli_readline.
  change (put (b0 :: b) 0 0) with (put ([] ++ b0 :: b) (Z.of_nat (length (@nil Z))) 0). rewrite put_app. cbn [mbind option_bind app].
  unfold cli_readline_into_buffer. cbn [default mbind option_bind from_option id].
  pose proof (cread_line_refines prompt (cmd_auto_complete table P beyond prompt) _ [] b keys h v 0 false Hcomp cs_nil Hb Hk Hh eq_refl) as H. cbn [app] in H. cbv zeta in *.
  destruct (run _ keys _) as [r s]. destruct r as [ [| |]|].
  - destruct H as (b' & h' & o & -> & Hs & Hh'). eexists _, _, _. split; [|done]. cbn [mbind option_bind]. done.
  - destruct H as (b' & h' & o & -> & Hs & Hh'). eexists _, _, _. split; [|done]. cbn [mbind option_bind]. done.
  - destruct H as (b' & h' & o & -> & Hs & Hh'). eexists _, _, _. split; [|done]. done.
  - by rewrite H.
Qed.

(** C28: while a line is edited the terminal shows it: after any keys but Enter and ^C, if the texts the line goes
    through are printable, the screen shows the prompt, the line and blanks, with the cursor where the editor has it. *)
Theorem cread_line_shows prompt ac added init r keys h v s t : Completer prompt ac added ->
  cs init -> (length init + S (length r) = Z.to_nat CONFIG_SYS_CBSIZE + 1)%nat -> Forall (fun c => 0 < c < 256) keys -> hrep h v ->
  Forall printable (prompt ++ init) -> run added keys (Session (Line init [] true) v []) = (Waiting, s) ->
  clean added keys (Session (Line init [] true) v []) -> shows t prompt [] ->
  exists e1 o1 e2 h' o2,
    cread_add_str get (length init) 0 CONFIG_SYS_CBSIZE (Ed 0 0 true (init ++ 0 :: r) []) = Some (e1, o1) /\
    cread_loop prompt ac CONFIG_SYS_CBSIZE keys e1 h = Some (Waiting, e2, h', o2) /\
    num e2 = Z.of_nat (length (before (s_line s))) /\
    shows (feed t (o1 ++ o2)) (prompt ++ before (s_line s)) (after (s_line s)).
Proof.
  intros Hcomp Hi Hlen Hk Hh Hp Hrun Hcl [Htl [k Htr] ]. pose proof (init_line init r Hi Hlen) as Einit.
  pose proof (init_rep init r h v Hi Hlen Hh) as Hrep.
  pose proof (loop_refines prompt ac added keys _ _ _ Hk Hrep) as H. rewrite Hrun in H. destruct H as (e & h' & o & E & [Hr Hd]).
  eexists _, _, e, h', o. split; [exact Einit|]. split; [exact E|]. split.
  { by destruct (rep_line _ _ _ Hr) as (x & -> & _). }
  rewrite feed_app. apply Hd; [unfold text; cbn [before after s_line]; by rewrite app_nil_r|done|].
  apply Forall_app in Hp as [_ Hp]. rewrite (feed_text t prompt init _ Htl Htr Hp). split; [done|]. exists (k - length init)%nat.
  cbn [right app after s_line]. by rewrite drop_replicate.
Qed.

(** Before relocation, a line typed without TAB and ^C is what its keys spell: characters append, backspace and DEL
    delete the last one, ^W the last word and the blank before it, ^U all; at 510 characters nothing is added. *)
Theorem plain_read_edits prompt ac b keys nl rest :
  (length b = Z.to_nat CONFIG_SYS_CBSIZE + 1)%nat -> Forall (fun c => 0 <= c < 256 /\ c <> 9 /\ c <> 10 /\ c <> 13 /\ c <> 3) keys -> nl = 10 \/ nl = 13 ->
  let s := foldl (fun s c => append c s) [] keys in
  exists b' o, plain_read prompt ac b None (keys ++ nl :: rest) = Some (Some (Z.of_nat (length s), b', o)) /\ exists r, b' = s ++ 0 :: r.
Proof.
  intros Hb Hk Hnl s. unfold plain_read.
  destruct (plain_loop_refines prompt ac nl keys rest (Plain 0 0 (Z.of_nat (length (default [] prompt))) b None) [] Hk Hnl) as (b' & o & E & Hs).
  - unfold prep. cbn [pp pn pbuf length]. split_and!; [done|done|lia|]. exists b. split; [done|]. cbn [app]. rewrite Hb. done.
  - rewrite E. cbn [mbind option_bind]. by eexists _, _.
Qed.

(** C29: the ring keeps its types: from its initial state, whatever lines are entered and however the user goes back and
    forth, it has 20 rows that hold strings of at most 512 characters and its indices are indices of rows, so that
    no operation on it reads or writes outside. *)
Theorem ring_well_typed h : rtc hist_step hist_init h ->
  hist_wf h /\ (forall s, cs s -> Z.of_nat (length s) <= HIST_SIZE -> is_Some (cread_add_to_hist h s)) /\ is_Some (hist_prev h) /\ is_Some (hist_next h).
Proof.
  intros Hr. destruct (hist_reach_rep h Hr) as [v Hv]. split; [by apply (hrep_wf h v)|]. split_and!.
  - intros s Hs Hl. destruct (add_to_hist_refines h v s Hv Hs Hl) as (h' & -> & _). by eexists.
  - pose proof (hist_prev_refines h v Hv) as H. destruct (older v) as [ [s v'] |]; [destruct H as (h' & -> & _)|rewrite H]; by eexists.
  - pose proof (hist_next_refines h v Hv) as H. destruct (newer v) as [ [s v'] |]; [destruct H as (h' & -> & _)|rewrite H]; by eexists.
Qed.

(** ** Lines read *)

Lemma bytes_dec (l : list Z) : bool_decide (Forall (fun c => 0 < c < 256) l) = true -> Forall (fun c => 0 < c < 256) l.
Proof. apply bool_decide_eq_true_1. Qed.

(** "ot", Home, "bo", Enter. *)
Definition boot_keys : list Z := Eval vm_compute in lit "ot" ++ [27; 91; 72] ++ lit "bo" ++ [13].

Lemma cli_readline_edits_witness : exists b' h' o,
  cli_readline (cmd_auto_complete demo_table (lit "=> ") (fun _ _ => [])) true true (lit "=> ") (zeros 513) boot_keys hist_init = Some (Some (4, b', h', o)) /\
  string_at b' = Some (lit "boot") /\ hrep h' (View [lit "boot"] (Some 0%nat)).
Proof.
  pose proof (cli_readline_edits demo_table (fun _ _ => []) (lit "=> ") (lit "=> ") (zeros 513) boot_keys hist_init (View [] None)
    demo_table_wf (fun _ _ => cs_nil) eq_refl (bytes_dec boot_keys eq_refl) hist_init_rep) as H.
  assert (E : run (added demo_table (lit "=> ") (fun _ _ => []) (lit "=> ")) boot_keys (Session (Line [] [] true) (View [] None) []) =
    (Ended Enter, Session (Line (lit "bo") (lit "ot") true) (View [] None) [])) by (vm_compute; reflexivity).
  cbv zeta in H. rewrite E in H. exact H.
Defined.

Lemma cread_line_shows_witness : exists e1 o1 e2 h' o2,
  cread_add_str get 0 0 CONFIG_SYS_CBSIZE (Ed 0 0 true (zeros 513) []) = Some (e1, o1) /\
  cread_loop (lit "=> ") (cmd_auto_complete demo_table (lit "=> ") (fun _ _ => []) (lit "=> ")) CONFIG_SYS_CBSIZE (lit "print" ++ [9; 1]) e1 hist_init = Some (Waiting, e2, h', o2) /\
  num e2 = 0 /\ shows (feed (Term (lit "=> ") []) (o1 ++ o2)) (lit "=> ") (lit "printenv ").
Proof.
  apply (cread_line_shows (lit "=> ") (cmd_auto_complete demo_table (lit "=> ") (fun _ _ => []) (lit "=> "))
    (added demo_table (lit "=> ") (fun _ _ => []) (lit "=> ")) [] (zeros 512) (lit "print" ++ [9; 1]) hist_init (View [] None)
    (Session (Line [] (lit "printenv ") true) (View [] None) []) (Term (lit "=> ") [])).
  - exact (cmd_auto_complete_completes demo_table (lit "=> ") (fun _ _ => []) demo_table_wf (fun _ _ => cs_nil) (lit "=> ")).
  - exact cs_nil.
  - vm_compute. reflexivity.
  - apply bytes_dec. vm_compute. reflexivity.
  - exact hist_init_rep.
  - apply (bool_decide_eq_true_1 (Forall printable (lit "=> "))). vm_compute. reflexivity.
  - vm_compute. reflexivity.
  - vm_compute. repeat split; repeat constructor; try discriminate.
  - split; [reflexivity|]. by exists 0%nat.
Defined.

Definition ring_of_two : hist := Eval vm_compute in
  match h ← cread_add_to_hist hist_init (lit "a"); cread_add_to_hist (set_cur h (hist_add_idx h)) (lit "b") with
  | Some h => set_cur h (hist_add_idx h) | None => hist_init end.

Lemma ring_well_typed_witness : hist_wf ring_of_two /\ is_Some (hist_prev ring_of_two).
Proof.
  assert (rtc hist_step hist_init ring_of_two) as H.
  { eapply rtc_l; [apply (step_add hist_init (lit "a")); [apply bytes_dec; vm_compute; reflexivity|vm_compute; discriminate|vm_compute; reflexivity]|].
    eapply rtc_l; [eapply (step_add _ (lit "b")); [apply bytes_dec; vm_compute; reflexivity|vm_compute; discriminate|vm_compute; reflexivity]|].
    vm_compute. apply rtc_refl. }
  destruct (ring_well_typed ring_of_two H) as (H1 & _ & H2 & _). exact (conj H1 H2).
Defined.

Lemma plain_read_edits_witness : exists b' o, plain_read (Some (lit "=> ")) (fun _ _ _ _ => None) (zeros 513) None (lit "run ab" ++ [23] ++ lit "x" ++ [13]) =
  Some (Some (4, b', o)) /\ exists r, b' = lit "runx" ++ 0 :: r.
Proof.
  apply (plain_read_edits (Some (lit "=> ")) (fun _ _ _ _ => None) (zeros 513) (lit "run ab" ++ [23] ++ lit "x") 13 []).
  - reflexivity.
  - apply (bool_decide_eq_true_1 (Forall (fun c => 0 <= c < 256 /\ c <> 9 /\ c <> 10 /\ c <> 13 /\ c <> 3) (lit "run ab" ++ [23] ++ lit "x"))). vm_compute. reflexivity.
  - by right.
Defined.

(** Before relocation TAB completes [console_buffer] even when another buffer is read: with "boo" typed into the
    other buffer and "print" in [console_buffer], the reader goes on after the 3 + 4 characters that "print" was
    completed by, 4 of which nobody wrote. *)
Example tab_completes_other_buffer :
  (r ← plain_read (Some (lit "=> ")) (cmd_auto_complete demo_table (lit "=> ") (fun _ _ => [])) (replicate 513 63) (Some (lit "print" ++ zeros 508)) (lit "boo" ++ [9; 13]);
   x ← r; Some (x.1.1, take 8 x.1.2)) = Some (7, [98; 111; 111; 0; 63; 63; 63; 0]).
Proof. vm_compute. reflexivity. Qed.

(** ^C keeps the place in the ring: after going back to "b" and ^C, going back once more gives "a". *)
Example interrupt_keeps_place :
  (h1 ← cread_add_to_hist hist_init (lit "a"); h2 ← cread_add_to_hist h1 (lit "b");
   r ← cread_line [] (fun _ _ _ => None) 512 (zeros 513) 0 false [16; 3] (set_cur h2 (hist_add_idx h2)); x ← r;
   r ← cread_line [] (fun _ _ _ => None) 512 (zeros 513) 0 false [16; 13] x.1.2; x ← r; string_at x.1.1.1.2) = Some (lit "a").
Proof. vm_compute. reflexivity. Qed.

(** A NUL that is typed ends the line for the ring and for completion, not for the length that is returned. *)
Example typed_nul_cuts :
  (r ← cread_line [] (fun _ _ _ => None) 512 (zeros 513) 0 false [97; 0; 98; 13] hist_init; x ← r; s ← string_at x.1.1.1.2;
   Some (x.1.1.2, s, hist_lines x.1.2 !! 0%nat)) = Some (3, [97], Some [97]).
Proof. vm_compute. reflexivity. Qed.

End Readline.
