(* ===== verification/Cli.v ===== *)
(** * Cli: the simple command parser

    U-Boot's common/cli_simple.c, and the parts of common/cli.c that call it: a command line is cut at its semicolons,
    the environment variables of each command are replaced by their values, the command is split into arguments
    and looked up in the table of [Command].  The environment is part of the state of the commands: every look-up of a
    variable sees what the commands before it have left there.  [None] stands for a command that does not return. *)

From stdpp Require Import base list option strings.
From Stdlib Require Import ZifyBool.
From S2P Require Import Prelude Ctype Carray Command.
Import Carray Command.

Module Cli.

Definition CMD_FLAG_ENV : Z := 0x4.

(** ** Arguments *)

(** The loop of [cli_simple_parse_line], [k] arguments being left, and whether [argv] ends in NULL. *)
Fixpoint parse_loop (k : nat) (line : list Z) : list (list Z) * bool :=
  match k with
  | O => ([], false)
  | S k =>
    match skip_blank line with
    | [] => ([], true)
    | line =>
      let '(w, rest) := span_arg line in
      match rest with
      | [] => ([w], true)
      | _ :: rest => let '(l, t) := parse_loop k rest in (w :: l, t)
      end
    end
  end.
Definition cli_simple_parse_line (line : list Z) : list (list Z) * bool := parse_loop (Z.to_nat CONFIG_SYS_MAXARGS) line.

(** ** Variables *)

(** The locals of [cli_simple_process_macros]; [var] is what has been read since [varname_start]. *)
Record macro := Macro { mstate : Z; mout : list Z; outputcnt : Z; prev : Z; var : list Z }.

Definition emit (c : Z) (m : macro) : macro := Macro (mstate m) (mout m ++ [c]) (outputcnt m - 1) (prev m) (var m).
Definition goto (s : Z) (m : macro) : macro := Macro s (mout m) (outputcnt m) (prev m) (var m).
Definition set_prev (c : Z) (m : macro) : macro := Macro (mstate m) (mout m) (outputcnt m) c (var m).
Definition set_var (v : list Z) (m : macro) : macro := Macro (mstate m) (mout m) (outputcnt m) (prev m) v.

(** [while (( *envval) && outputcnt)] *)
Fixpoint copy_value (v : list Z) (m : macro) : macro :=
  match v with
  | [] => m
  | c :: v => if outputcnt m =? 0 then m else copy_value v (emit c m)
  end.

Section Macros.
Context (env_get : list Z -> option (list Z)).

(** The [switch], for the character [c]; [raw] are the characters it was read as. *)
Definition macro_char (c : Z) (raw : list Z) (m : macro) : macro :=
  let m :=
    if mstate m =? 0 then
      if (c =? 39) && negb (prev m =? 92) then goto 3 m else
      if (c =? 36) && negb (prev m =? 92) then goto 1 m else emit c m
    else if mstate m =? 1 then
      if (c =? 40) || (c =? 123) then set_var [] (goto 2 m) else
      let m := emit 36 (goto 0 m) in
      if negb (outputcnt m =? 0) then emit c m else m
    else if mstate m =? 2 then
      if (c =? 41) || (c =? 125) then
        let m := match env_get (var m ++ take (length raw - 1) raw) with Some v => copy_value v m | None => m end in
        goto 0 m
      else set_var (var m ++ raw) m
    else
      if (c =? 39) && negb (prev m =? 92) then goto 0 m else emit c m
  in set_prev c m.

Fixpoint macro_loop (input : list Z) (m : macro) : macro :=
  match input with
  | [] => m
  | c :: input =>
    if outputcnt m =? 0 then m else
    if negb (mstate m =? 3) && (c =? 92) && negb (prev m =? 92) then
      match input with
      | [] => m
      | c' :: input => macro_loop input (macro_char c' [c; c'] (set_prev c m))
      end
    else macro_loop input (macro_char c [c] m)
  end.

(** [cli_simple_process_macros] *)
Definition cli_simple_process_macros (input : list Z) : list Z :=
  let m := macro_loop input (Macro 0 [] CONFIG_SYS_CBSIZE 0 []) in
  if negb (outputcnt m =? 0) then mout m else take (length (mout m) - 1) (mout m).

End Macros.

(** ** Commands *)

(** The search for a separator: the token and, if there is one, what follows it.  [p] is the character before. *)
Fixpoint find_sep (p : Z) (start inquotes : bool) (s : list Z) : list Z * option (list Z) :=
  match s with
  | [] => ([], None)
  | c :: s =>
    let inquotes := if (c =? 39) && negb (p =? 92) then negb inquotes else inquotes in
    if negb inquotes && (c =? 59) && negb start && negb (p =? 92) then ([], Some s)
    else let '(t, r) := find_sep c false inquotes s in (c :: t, r)
  end.

Section Run.
Context {S : Type} `{Console S} (env_get : S -> list Z -> option (list Z)) (table : list (cmd_tbl S)).

(** What [cli_simple_parse_line] prints when the arguments run out. *)
Definition too_many : list Z := Eval vm_compute in lit "** Too many args (max. 16) **" ++ [10].

(** The loop of [cli_simple_run_command]; [p] is the character before [str]. *)
Fixpoint run_loop (fuel : nat) (flag p : Z) (str : list Z) (repeatable rc : Z) (s : S) : option (Z * S) :=
  match str with
  | [] => Some (if negb (rc =? 0) then rc else repeatable, s)
  | _ =>
    match fuel with
    | O => None
    | Datatypes.S fuel =>
      let '(token, rest) := find_sep p true false str in
      let str := default [] rest in
      let finaltoken := cli_simple_process_macros (env_get s) token in
      let '(argv, ended) := cli_simple_parse_line finaltoken in
      let s := if ended : bool then s else puts too_many s in
      match argv with
      | [] => run_loop fuel flag 0 str repeatable (-1) s
      | _ =>
        '(r, repeatable, s) ← cmd_process table flag argv repeatable s;
        let rc := if negb (r =? 0) then -1 else rc in
        if had_ctrlc s then Some (-1, s) else run_loop fuel flag 0 str repeatable rc s
      end
    end
  end.

Definition too_long : list Z := Eval vm_compute in lit "## Command too long!" ++ [10].

(** [cli_simple_run_command]; [before] is the byte of the stack in front of [cmdbuf]. *)
Definition cli_simple_run_command (before : Z) (cmd : option (list Z)) (flag : Z) (s : S) : option (Z * S) :=
  let s := clear_ctrlc s in
  match cmd with
  | None | Some [] => Some (-1, s)
  | Some cmd =>
    if CONFIG_SYS_CBSIZE <=? Z.of_nat (length cmd) then Some (-1, puts too_long s)
    else run_loop (length cmd) flag before cmd 1 0 s
  end.

(** [cli_simple_run_command_list]: [line] holds the characters from [line] to [next]. *)
Fixpoint list_loop (before : Z) (line next : list Z) (s : S) : option (Z * S) :=
  match next with
  | [] =>
    match line with
    | [] => Some (0, s)
    | _ => '(r, s) ← cli_simple_run_command before (Some line) 0 s; Some (if r <? 0 then 1 else 0, s)
    end
  | c :: next =>
    if c =? 10 then
      match line with
      | [] => list_loop before [] next s
      | _ =>
        '(r, s) ← cli_simple_run_command before (Some line) 0 s;
        if r <? 0 then Some (1, s) else list_loop before [] next s
      end
    else list_loop before (line ++ [c]) next s
  end.
Definition cli_simple_run_command_list (before : Z) (cmd : list Z) (s : S) : option (Z * S) := list_loop before [] cmd s.

(** [run_command] *)
Definition run_command (before : Z) (cmd : option (list Z)) (flag : Z) (s : S) : option (Z * S) :=
  '(r, s) ← cli_simple_run_command before cmd flag s; Some (if r =? -1 then 1 else 0, s).

(** [run_command_repeatable] *)
Definition run_command_repeatable (before : Z) (cmd : option (list Z)) (flag : Z) (s : S) : option (Z * S) :=
  cli_simple_run_command before cmd flag s.

(** [run_command_list]: the first [len] characters, or all for -1; [malloc] tells whether the copy can be made. *)
Definition run_command_list (before : Z) (malloc : bool) (cmd : list Z) (len : Z) (s : S) : option (Z * S) :=
  let need_buff := if len =? -1 then existsb (Z.eqb 10) cmd else true in
  if need_buff && negb malloc then Some (1, s) else
  cli_simple_run_command_list before (if len =? -1 then cmd else take (Z.to_nat len) cmd) s.

Definition not_defined (a : list Z) : list Z := lit "## Error: " ++ [34] ++ a ++ [34] ++ lit " not defined" ++ [10].

(** [do_run] *)
Fixpoint run_vars (before flag : Z) (args : list (list Z)) (s : S) : option (Z * S) :=
  match args with
  | [] => Some (0, s)
  | a :: args =>
    match env_get s a with
    | None => Some (1, puts (not_defined a) s)
    | Some v =>
      '(r, s) ← run_command before (Some v) (Z.lor flag CMD_FLAG_ENV) s;
      if negb (r =? 0) then Some (1, s) else run_vars before flag args s
    end
  end.
Definition do_run (before flag : Z) (argv : list (list Z)) (s : S) : option (Z * S) :=
  if (length argv <? 2)%nat then Some (CMD_RET_USAGE, s) else run_vars before flag (tail argv) s.

(** One turn of [cli_simple_loop]: [lastcommand] and [rc] after a line of length [len] was read into [console_buffer]. *)
Definition loop_turn (before len : Z) (console_buffer lastcommand : list Z) (rc : Z) (s : S) : option (list Z * Z * S) :=
  let lastcommand := if 0 <? len then take (Z.to_nat CONFIG_SYS_CBSIZE) console_buffer else lastcommand in
  let flag := if len =? 0 then CMD_FLAG_REPEAT else 0 in
  '(rc, s) ← (if len =? -1 then Some (rc, puts (lit "<INTERRUPT>" ++ [10]) s) else run_command_repeatable before (Some lastcommand) flag s);
  Some (if rc <=? 0 then [] else lastcommand, rc, s).

End Run.

(** ** Arguments *)

Lemma parse_loop_words k : forall s, (parse_loop k s).1 = take k (words s).
Proof.
  induction k as [|k IH]; intros s; [done|]. cbn [parse_loop]. rewrite <- (words_skip s).
  destruct (skip_blank s) as [|c r] eqn:E; [done|].
  destruct (words_arg (c :: r) c r eq_refl (skip_blank_head s c r E)) as (w & rest & -> & ->).
  destruct rest as [|d rest]; cbn [take fst]; [by rewrite take_nil|]. specialize (IH rest). destruct (parse_loop k rest) as [l t]. cbn [fst] in *. by rewrite IH.
Qed.

(** The arguments end in NULL when there are fewer than fit. *)
Lemma parse_loop_ended k : forall s, (length (words s) < k)%nat -> (parse_loop k s).2 = true.
Proof.
  induction k as [|k IH]; intros s Hl; [lia|]. cbn [parse_loop]. rewrite <- (words_skip s) in Hl.
  destruct (skip_blank s) as [|c r] eqn:E; [done|].
  destruct (words_arg (c :: r) c r eq_refl (skip_blank_head s c r E)) as (w & rest & -> & Ew). rewrite Ew in Hl.
  destruct rest as [|d rest]; [done|]. cbn [length] in Hl. specialize (IH rest ltac:(lia)). destruct (parse_loop k rest) as [l t]. done.
Qed.

Lemma parse_loop_overflow k : forall s, (k < length (words s))%nat -> (parse_loop k s).2 = false.
Proof.
  induction k as [|k IH]; intros s Hl; [done|]. cbn [parse_loop]. rewrite <- (words_skip s) in Hl.
  destruct (skip_blank s) as [|c r] eqn:E; [cbn in Hl; lia|].
  destruct (words_arg (c :: r) c r eq_refl (skip_blank_head s c r E)) as (w & rest & -> & Ew). rewrite Ew in Hl.
  destruct rest as [|d rest]; cbn [length] in Hl; [lia|]. specialize (IH rest ltac:(lia)). destruct (parse_loop k rest) as [l t]. done.
Qed.

(** ** Variables *)

Section Expansion.
Context (env_get : list Z -> option (list Z)).
#[local] Abbreviation size := (Z.to_nat CONFIG_SYS_CBSIZE).

(** The output never leaves its buffer and the name of a variable never leaves [envname]. *)
Definition bounded (m : macro) : Prop := 0 <= outputcnt m /\ Z.of_nat (length (mout m)) + outputcnt m = CONFIG_SYS_CBSIZE.

Lemma emit_bounded c m : bounded m -> outputcnt m <> 0 -> bounded (emit c m).
Proof. unfold bounded, emit. cbn [mout outputcnt]. rewrite length_app. cbn [length]. lia. Qed.

Lemma copy_value_bounded v : forall m, bounded m -> bounded (copy_value v m).
Proof.
  induction v as [|c v IH]; intros m Hm; cbn [copy_value]; [done|]. destruct (Z.eqb_spec (outputcnt m) 0) as [|Hn]; [done|].
  by apply IH, emit_bounded.
Qed.

Lemma macro_char_bounded c raw m : bounded m -> outputcnt m <> 0 -> bounded (macro_char env_get c raw m).
Proof.
  intros Hm Hn. unfold macro_char. cbv zeta.
  assert (forall x, bounded x -> bounded (set_prev c x)) as Hp by done. apply Hp. clear Hp.
  assert (forall k x, bounded x -> bounded (goto k x)) as Hg by done.
  assert (forall k x, bounded x -> bounded (set_var k x)) as Hv by done.
  destruct (mstate m =? 0); [destruct (_ && _); [by apply Hg|]; destruct (_ && _); [by apply Hg|by apply emit_bounded]|].
  destruct (mstate m =? 1).
  { destruct (_ || _); [by apply Hv, Hg|]. assert (bounded (emit 36 (goto 0 m))) by (by apply emit_bounded; [apply Hg|]).
    destruct (Z.eqb_spec (outputcnt (emit 36 (goto 0 m))) 0); cbn [negb]; [done|by apply emit_bounded]. }
  destruct (mstate m =? 2); [destruct (_ || _); [|by apply Hv]; apply Hg; destruct (env_get _); [by apply copy_value_bounded|done]|].
  destruct (_ && _); [by apply Hg|by apply emit_bounded].
Qed.

Lemma macro_loop_bounded input : forall m, bounded m -> bounded (macro_loop env_get input m).
Proof.
  induction input as [input IH] using (induction_ltof1 _ (@length Z)). unfold ltof in IH. intros m Hm.
  destruct input as [|c input]; cbn [macro_loop]; [done|]. destruct (Z.eqb_spec (outputcnt m) 0) as [|Hn]; [done|].
  destruct (_ && _ && _); [destruct input as [|c' input]; [done|]|]; apply IH; try (cbn; lia); by apply macro_char_bounded.
Qed.

(** A command line as its author means it: plain text, a character escaped by a backslash, a variable, a quoted
    part, a dollar that starts no variable. *)
Inductive segment :=
| Text (s : list Z)
| Escaped (c : Z)
| Variable' (name : list Z)
| Quoted (s : list Z)
| Dollar (c : Z).

Definition written (g : segment) : list Z :=
  match g with
  | Text s => s
  | Escaped c => [92; c]
  | Variable' n => [36; 123] ++ n ++ [125]
  | Quoted s => [39] ++ s ++ [39]
  | Dollar c => [36; c]
  end.

Definition meant (g : segment) : list Z :=
  match g with
  | Text s => s
  | Escaped c => [c]
  | Variable' n => default [] (env_get n)
  | Quoted s => s
  | Dollar c => [36; c]
  end.

Definition segment_ok (g : segment) : Prop :=
  match g with
  | Text s => Forall (fun c => c <> 92 /\ c <> 39 /\ c <> 36) s
  | Escaped c => c <> 92
  | Variable' n => Forall (fun c => c <> 92 /\ c <> 41 /\ c <> 125) n
  | Quoted s => Forall (fun c => c <> 92 /\ c <> 39) s
  | Dollar c => c <> 92 /\ c <> 40 /\ c <> 123
  end.

#[global] Instance segment_ok_dec g : Decision (segment_ok g).
Proof. destruct g; cbn; apply _. Defined.

(** Between two segments, with [o] written. *)
Definition at_rest (o : list Z) (m : macro) : Prop :=
  mstate m = 0 /\ prev m <> 92 /\ mout m = take size o /\ outputcnt m = CONFIG_SYS_CBSIZE - Z.of_nat (length (mout m)).

Lemma loop_full input m : outputcnt m = 0 -> macro_loop env_get input m = m.
Proof. intros H. destruct input; [done|]. cbn [macro_loop]. by rewrite H. Qed.

Lemma at_rest_full o m : at_rest o m -> outputcnt m = 0 <-> (size <= length o)%nat.
Proof.
  intros (_ & _ & Hm & ->). rewrite Hm, length_take. unfold CONFIG_SYS_CBSIZE. change (Z.to_nat 512) with 512%nat. lia.
Qed.

Lemma take_full (o x : list Z) : (size <= length o)%nat -> take size (o ++ x) = take size o.
Proof. intros H. rewrite take_app_le by done. done. Qed.

(** What is written goes to the buffer while there is room. *)
Lemma at_rest_more o x m : at_rest o m -> outputcnt m = 0 -> at_rest (o ++ x) m.
Proof. intros Hm Hz. pose proof (proj1 (at_rest_full o m Hm) Hz) as Hf. unfold at_rest. rewrite take_full by done. exact Hm. Qed.

Lemma mout_room o m : at_rest o m -> outputcnt m <> 0 -> mout m = o /\ (length o < size)%nat.
Proof.
  intros Hm Hz. assert (length o < size)%nat as Hl. { destruct (Nat.lt_ge_cases (length o) size) as [|Hge]; [done|]. by apply (at_rest_full o m Hm) in Hge. }
  split; [|done]. destruct Hm as (_ & _ & -> & _). apply take_ge. lia.
Qed.

(** Emitting a character in state 0 or 3. *)
Lemma emit_take o c m st : mout m = o -> (length o < size)%nat -> outputcnt m = CONFIG_SYS_CBSIZE - Z.of_nat (length o) -> mstate m = st ->
  let m' := set_prev c (emit c m) in mstate m' = st /\ prev m' = c /\ mout m' = take size (o ++ [c]) /\ outputcnt m' = CONFIG_SYS_CBSIZE - Z.of_nat (length (mout m')).
Proof.
  intros Ho Hl Hc Hs m'. subst m'. cbn. rewrite Ho. split_and!; auto; [symmetry; apply take_ge; rewrite length_app; cbn; lia|].
  rewrite length_app, Hc. cbn. lia.
Qed.

(** A run of characters that are emitted one by one in state [st]. *)
Lemma emit_run st rest s : forall o m,
  (forall m c, mstate m = st -> prev m <> 92 -> c ∈ s -> outputcnt m <> 0 -> forall r, macro_loop env_get (c :: r) m = macro_loop env_get r (set_prev c (emit c m))) ->
  Forall (fun c => c <> 92) s -> mstate m = st -> prev m <> 92 -> mout m = take size o -> outputcnt m = CONFIG_SYS_CBSIZE - Z.of_nat (length (mout m)) ->
  exists m', macro_loop env_get (s ++ rest) m = macro_loop env_get rest m' /\
    mstate m' = st /\ prev m' <> 92 /\ mout m' = take size (o ++ s) /\ outputcnt m' = CONFIG_SYS_CBSIZE - Z.of_nat (length (mout m')).
Proof.
  induction s as [|c s IH]; intros o m Hstep Hs Hst Hp Ho Hc; cbn [app].
  { exists m. by rewrite app_nil_r. }
  apply Forall_cons_iff in Hs as [Hc92 Hs].
  destruct (Nat.lt_ge_cases (length o) size) as [Hl|Hl].
  - assert (mout m = o) as Em by (rewrite Ho; apply take_ge; lia). rewrite Em in Hc.
    rewrite (Hstep m c Hst Hp ltac:(left) ltac:(unfold CONFIG_SYS_CBSIZE in *; lia)).
    destruct (emit_take o c m st Em Hl Hc Hst) as (H1 & H2 & H3 & H4).
    destruct (IH (o ++ [c]) (set_prev c (emit c m))) as (m' & E & H'); [intros; apply Hstep; auto; by right|done|done|by rewrite H2|done|done|].
    exists m'. rewrite <- app_assoc in H'. split; [exact E|exact H'].
  - assert (outputcnt m = 0) as Hz by (rewrite Hc, Ho, length_take; unfold CONFIG_SYS_CBSIZE in *; lia).
    exists m. rewrite !loop_full by done. rewrite take_full by done. done.
Qed.

(** What the rest of the code looks at. *)
Definition result (m : macro) : list Z * Z := (mout m, outputcnt m).

(** The segment [g] has been dealt with before [rest]. *)
Definition seg_step (g : segment) (o : list Z) (m : macro) (rest : list Z) : Prop :=
  exists m', at_rest (o ++ meant g) m' /\ result (macro_loop env_get (written g ++ rest) m) = result (macro_loop env_get rest m').

(** Where a segment ends: the state between segments, or a full buffer in any state. *)
Lemma seg_end g o m m1 rest : macro_loop env_get (written g ++ rest) m = macro_loop env_get rest m1 ->
  mout m1 = take size (o ++ meant g) -> outputcnt m1 = CONFIG_SYS_CBSIZE - Z.of_nat (length (mout m1)) ->
  (outputcnt m1 <> 0 -> mstate m1 = 0 /\ prev m1 <> 92) -> seg_step g o m rest.
Proof.
  intros E Ho Hc Hst. destruct (Z.eq_dec (outputcnt m1) 0) as [Hz|Hz].
  - exists (Macro 0 (mout m1) 0 0 []). split; [unfold at_rest; cbn; split_and!; [done|done|done|lia]|].
    rewrite E, !loop_full by done. unfold result. cbn. by rewrite Hz.
  - exists m1. split; [|by rewrite E]. destruct (Hst Hz). by split_and!.
Qed.

(** A segment that meets a full buffer. *)
Lemma seg_skip g o m rest : at_rest o m -> outputcnt m = 0 -> seg_step g o m rest.
Proof. intros Hm Hz. exists m. split; [by apply at_rest_more|]. by rewrite !loop_full. Qed.

Ltac room H := cbn [macro_loop]; rewrite (proj2 (Z.eqb_neq _ _) H).

Lemma emits_text m c r : mstate m = 0 -> c <> 92 -> c <> 39 -> c <> 36 -> outputcnt m <> 0 ->
  macro_loop env_get (c :: r) m = macro_loop env_get r (set_prev c (emit c m)).
Proof.
  intros H1 Ha Hb Hd Hn. room Hn. rewrite H1. cbn [negb Z.eqb Pos.eqb andb]. rewrite (proj2 (Z.eqb_neq _ _) Ha). cbn [andb]. unfold macro_char. rewrite H1. cbn [Z.eqb].
  rewrite (proj2 (Z.eqb_neq _ _) Hb), (proj2 (Z.eqb_neq _ _) Hd). done.
Qed.

Lemma emits_quoted m c r : mstate m = 3 -> c <> 39 -> outputcnt m <> 0 ->
  macro_loop env_get (c :: r) m = macro_loop env_get r (set_prev c (emit c m)).
Proof.
  intros H1 Hb Hn. room Hn. rewrite H1. cbn [negb Z.eqb Pos.eqb andb]. unfold macro_char. rewrite H1. cbn [Z.eqb Pos.eqb].
  rewrite (proj2 (Z.eqb_neq _ _) Hb). done.
Qed.

Lemma text_step s o m rest : segment_ok (Text s) -> at_rest o m -> seg_step (Text s) o m rest.
Proof.
  intros Hs (H0 & Hp & Ho & Hc). cbn [segment_ok] in Hs. pose proof Hs as Hs'. rewrite Forall_forall in Hs'.
  destruct (emit_run 0 rest s o m) as (m' & E & Hst & Hp' & Ho' & Hc'); auto.
  - intros m1 c H1 _ Hin Hn r. destruct (Hs' c Hin) as (Ha & Hb & Hd). by apply emits_text.
  - eapply Forall_impl; [exact Hs|]. cbn. tauto.
  - by apply (seg_end (Text s) o m m' rest).
Qed.

Lemma quoted_step s o m rest : segment_ok (Quoted s) -> at_rest o m -> seg_step (Quoted s) o m rest.
Proof.
  intros Hs Hm. destruct (Z.eq_dec (outputcnt m) 0) as [Hz|Hz]; [by apply seg_skip|].
  destruct Hm as (H0 & Hp & Ho & Hc). cbn [segment_ok] in Hs. pose proof Hs as Hs'. rewrite Forall_forall in Hs'.
  destruct (emit_run 3 (39 :: rest) s o (set_prev 39 (goto 3 m))) as (m' & E & Hst & Hp' & Ho' & Hc'); auto.
  - intros m1 c H1 _ Hin Hn r. destruct (Hs' c Hin) as (Ha & Hb). by apply emits_quoted.
  - eapply Forall_impl; [exact Hs|]. cbn. tauto.
  - assert (macro_loop env_get (written (Quoted s) ++ rest) m = macro_loop env_get (39 :: rest) m') as E'.
    { cbn [written]. rewrite <- !app_assoc. cbn [app]. rewrite <- E. room Hz. rewrite H0. cbn [negb Z.eqb Pos.eqb andb].
      unfold macro_char. rewrite H0, (proj2 (Z.eqb_neq _ _) Hp). done. }
    destruct (Z.eq_dec (outputcnt m') 0) as [Hz'|Hz'].
    + apply (seg_end _ o m m'); auto; [by rewrite E', !loop_full|done].
    + apply (seg_end _ o m (set_prev 39 (goto 0 m'))); auto.
      rewrite E'. room Hz'. rewrite Hst. cbn [negb Z.eqb Pos.eqb andb]. unfold macro_char. by rewrite Hst, (proj2 (Z.eqb_neq _ _) Hp').
Qed.

Lemma escaped_step c o m rest : segment_ok (Escaped c) -> at_rest o m -> seg_step (Escaped c) o m rest.
Proof.
  intros Hs Hm. destruct (Z.eq_dec (outputcnt m) 0) as [Hz|Hz]; [by apply seg_skip|]. cbn [segment_ok] in Hs.
  destruct (mout_room o m Hm Hz) as [Eo Hl]. destruct Hm as (H0 & Hp & Ho & Hc). rewrite Eo in Hc.
  destruct (emit_take o c m 0 Eo Hl Hc H0) as (H1 & H2 & H3 & H4).
  apply (seg_end _ o m (set_prev c (emit c m))); [|done|done|by rewrite H2].
  cbn [written app]. room Hz. rewrite H0, (proj2 (Z.eqb_neq _ _) Hp). cbn [negb Z.eqb Pos.eqb andb].
  unfold macro_char. cbn [mstate prev set_prev]. rewrite H0. cbn [Z.eqb negb Pos.eqb]. by rewrite !andb_false_r.
Qed.

Lemma dollar_start m r : mstate m = 0 -> prev m <> 92 -> outputcnt m <> 0 ->
  macro_loop env_get (36 :: r) m = macro_loop env_get r (set_prev 36 (goto 1 m)).
Proof.
  intros H0 Hp Hz. room Hz. rewrite H0. cbn [negb Z.eqb Pos.eqb andb]. unfold macro_char. by rewrite H0, (proj2 (Z.eqb_neq _ _) Hp).
Qed.

Lemma dollar_step c o m rest : segment_ok (Dollar c) -> at_rest o m -> seg_step (Dollar c) o m rest.
Proof.
  intros (Ha & Hb & Hd) Hm. destruct (Z.eq_dec (outputcnt m) 0) as [Hz|Hz]; [by apply seg_skip|].
  destruct (mout_room o m Hm Hz) as [Eo Hl]. destruct Hm as (H0 & Hp & Ho & Hc). rewrite Eo in Hc.
  set (m1 := emit 36 (goto 0 (set_prev 36 (goto 1 m)))).
  set (m2 := set_prev c (if negb (outputcnt m1 =? 0) then emit c m1 else m1)).
  assert (macro_loop env_get (written (Dollar c) ++ rest) m = macro_loop env_get rest m2) as E.
  { cbn [written app]. rewrite dollar_start by done. cbn [macro_loop outputcnt set_prev goto mstate prev]. rewrite (proj2 (Z.eqb_neq _ _) Hz).
    cbn [negb Z.eqb Pos.eqb andb]. rewrite (proj2 (Z.eqb_neq _ _) Ha). cbn [andb]. unfold macro_char. cbn [mstate set_prev goto Z.eqb Pos.eqb].
    by rewrite (proj2 (Z.eqb_neq _ _) Hb), (proj2 (Z.eqb_neq _ _) Hd). }
  assert (outputcnt m1 = outputcnt m - 1 /\ mout m1 = o ++ [36] /\ mstate m1 = 0) as (Hc1 & Ho1 & Hs1) by (cbn; by rewrite Eo).
  change size with 512%nat in *. change CONFIG_SYS_CBSIZE with 512 in *. clearbody m1.
  apply (seg_end _ o m m2 rest E); subst m2; destruct (Z.eqb_spec (outputcnt m1) 0) as [Hz1|Hz1]; cbn [negb mout set_prev emit outputcnt mstate prev meant]; rewrite ?Ho1.
  - replace (o ++ [36; c]) with ((o ++ [36]) ++ [c]) by (by rewrite <- app_assoc). rewrite take_full, take_ge; rewrite ?length_app; cbn [length]; unfold CONFIG_SYS_CBSIZE in *; lia || done.
  - rewrite <- app_assoc. symmetry. apply take_ge. rewrite length_app. cbn [length app]. unfold CONFIG_SYS_CBSIZE in *. lia.
  - rewrite length_app. cbn [length]. unfold CONFIG_SYS_CBSIZE in *. lia.
  - rewrite !length_app. cbn [length]. unfold CONFIG_SYS_CBSIZE in *. lia.
  - done.
  - done.
Qed.

(** The name of a variable is collected. *)
Lemma name_run rest n : forall m, Forall (fun c => c <> 92 /\ c <> 41 /\ c <> 125) n -> mstate m = 2 -> outputcnt m <> 0 -> prev m <> 92 ->
  exists p, macro_loop env_get (n ++ rest) m = macro_loop env_get rest (set_prev p (set_var (var m ++ n) m)) /\ p <> 92.
Proof.
  induction n as [|c n IH]; intros m Hn Hs Hz Hp; cbn [app].
  { exists (prev m). split; [|done]. rewrite app_nil_r. by destruct m. }
  apply Forall_cons_iff in Hn as [ (Ha & Hb & Hd) Hn]. room Hz. rewrite Hs. cbn [negb Z.eqb Pos.eqb andb]. rewrite (proj2 (Z.eqb_neq _ _) Ha). cbn [andb].
  unfold macro_char. rewrite Hs. cbn [Z.eqb Pos.eqb]. rewrite (proj2 (Z.eqb_neq _ _) Hb), (proj2 (Z.eqb_neq _ _) Hd). cbn [orb].
  destruct (IH (set_prev c (set_var (var m ++ [c]) m)) Hn Hs Hz Ha) as (p & E & Hp'). exists p. rewrite E. split; [|done].
  unfold set_prev, set_var. cbn. by rewrite <- app_assoc.
Qed.

Lemma copy_value_spec v : forall o m, mout m = take size o -> outputcnt m = CONFIG_SYS_CBSIZE - Z.of_nat (length (mout m)) ->
  let m' := copy_value v m in mout m' = take size (o ++ v) /\ outputcnt m' = CONFIG_SYS_CBSIZE - Z.of_nat (length (mout m')).
Proof.
  induction v as [|c v IH]; intros o m Ho Hc; cbn [copy_value]; [by rewrite app_nil_r|].
  destruct (Z.eqb_spec (outputcnt m) 0) as [Hz|Hz].
  - assert (size <= length o)%nat. { rewrite Hc, Ho, length_take in Hz. unfold CONFIG_SYS_CBSIZE in *. lia. }
    cbv zeta. by rewrite take_full.
  - assert (length o < size)%nat as Hl. { rewrite Hc, Ho, length_take in Hz. unfold CONFIG_SYS_CBSIZE in *. lia. }
    assert (mout m = o) as Eo by (rewrite Ho; apply take_ge; lia). rewrite Eo in Hc.
    destruct (emit_take o c m (mstate m) Eo Hl Hc eq_refl) as (_ & _ & H3 & H4).
    destruct (IH (o ++ [c]) (emit c m) H3 H4) as [H5 H6]. cbv zeta. rewrite <- app_assoc in H5. done.
Qed.

Lemma variable_step n o m rest : segment_ok (Variable' n) -> at_rest o m -> seg_step (Variable' n) o m rest.
Proof.
  intros Hn Hm. destruct (Z.eq_dec (outputcnt m) 0) as [Hz|Hz]; [by apply seg_skip|].
  destruct (mout_room o m Hm Hz) as [Eo Hl]. destruct Hm as (H0 & Hp & Ho & Hc).
  set (m1 := set_prev 123 (set_var [] (goto 2 (set_prev 36 (goto 1 m))))).
  destruct (name_run (125 :: rest) n m1 Hn eq_refl Hz ltac:(done)) as (p & E & Hp').
  set (m2 := set_prev p (set_var (var m1 ++ n) m1)) in E.
  set (m3 := match env_get n with Some v => copy_value v m2 | None => m2 end).
  assert (macro_loop env_get (written (Variable' n) ++ rest) m = macro_loop env_get rest (set_prev 125 (goto 0 m3))) as E'.
  { cbn [written]. rewrite <- !app_assoc. cbn [app]. rewrite dollar_start by done. cbn [macro_loop outputcnt set_prev goto mstate prev].
    rewrite (proj2 (Z.eqb_neq _ _) Hz). cbn [negb Z.eqb Pos.eqb andb]. unfold macro_char at 1. cbn [mstate set_prev goto Z.eqb Pos.eqb orb].
    change (macro_loop env_get (n ++ 125 :: rest) m1 = macro_loop env_get rest (set_prev 125 (goto 0 m3))). rewrite E.
    cbn [macro_loop]. change (outputcnt m2) with (outputcnt m). rewrite (proj2 (Z.eqb_neq _ _) Hz). change (mstate m2) with 2.
    cbn [negb Z.eqb Pos.eqb andb]. unfold macro_char. change (mstate m2) with 2. cbn [Z.eqb Pos.eqb orb].
    change (var m2 ++ take (length [125] - 1) [125]) with (n ++ []). by rewrite app_nil_r. }
  assert (mout m3 = take size (o ++ meant (Variable' n)) /\ outputcnt m3 = CONFIG_SYS_CBSIZE - Z.of_nat (length (mout m3))) as [Ho3 Hc3].
  { subst m3. cbn [meant]. destruct (env_get n) as [v|]; cbn [default from_option id]; [by apply copy_value_spec|]. by rewrite app_nil_r. }
  by apply (seg_end _ o m (set_prev 125 (goto 0 m3)) rest E').
Qed.

Lemma segments_step gs : forall o m, Forall segment_ok gs -> at_rest o m ->
  result (macro_loop env_get (concat (map written gs)) m) = (take size (o ++ concat (map meant gs)), CONFIG_SYS_CBSIZE - Z.of_nat (length (take size (o ++ concat (map meant gs))))).
Proof.
  induction gs as [|g gs IH]; intros o m Hg Hm; cbn [map concat].
  { rewrite app_nil_r. destruct Hm as (_ & _ & Ho & Hc). unfold result. cbn [macro_loop]. by rewrite Hc, Ho. }
  apply Forall_cons_iff in Hg as [Hg Hgs].
  assert (seg_step g o m (concat (map written gs))) as (m' & Hm' & E).
  { destruct g; [by apply text_step|by apply escaped_step|by apply variable_step|by apply quoted_step|by apply dollar_step]. }
  rewrite E, (IH _ _ Hgs Hm'), <- app_assoc. done.
Qed.

End Expansion.

(** C26: the variables of a command line are replaced as its author means: text, escaped characters and quoted parts are
    copied, "${name}" becomes the value of the variable or nothing, and the result is cut to the 511 characters the
    buffer holds. *)
Theorem process_macros_expands env_get gs : Forall segment_ok gs ->
  cli_simple_process_macros env_get (concat (map written gs)) = take (Z.to_nat CONFIG_SYS_CBSIZE - 1) (concat (map (meant env_get) gs)).
Proof.
  intros Hg. unfold cli_simple_process_macros. pose proof (segments_step env_get gs [] (Macro 0 [] CONFIG_SYS_CBSIZE 0 []) Hg) as H.
  unfold result in H. cbn [app] in H. set (x := concat (map (meant env_get) gs)) in *.
  specialize (H ltac:(by unfold at_rest; cbn)). injection H as Ho Hc. cbv zeta. rewrite Hc, Ho, length_take. unfold CONFIG_SYS_CBSIZE. change (Z.to_nat 512) with 512%nat.
  destruct (Nat.le_gt_cases 512 (length x)) as [Hl|Hl].
  - replace (512 `min` length x)%nat with 512%nat by lia. cbn [Z.eqb Z.sub negb]. change (negb (512 - Z.of_nat 512 =? 0)) with false. cbn iota.
    by rewrite take_take.
  - replace (negb _) with true by lia. rewrite !take_ge by lia. done.
Qed.

(** The expansion of any line fits its buffer. *)
Theorem process_macros_fits env_get input : Z.of_nat (length (cli_simple_process_macros env_get input)) < CONFIG_SYS_CBSIZE.
Proof.
  unfold cli_simple_process_macros. pose proof (macro_loop_bounded env_get input (Macro 0 [] CONFIG_SYS_CBSIZE 0 [])) as [H1 H2]; [done|].
  cbv zeta. destruct (Z.eqb_spec (outputcnt (macro_loop env_get input (Macro 0 [] CONFIG_SYS_CBSIZE 0 []))) 0) as [E|E]; cbn [negb].
  - rewrite length_take. unfold CONFIG_SYS_CBSIZE in *. lia.
  - lia.
Qed.

(** ** Commands *)

(** A command without quotes, escapes and semicolons. *)
Definition simple (t : list Z) : Prop := t <> [] /\ Forall (fun c => c <> 59 /\ c <> 39 /\ c <> 92) t.

#[global] Instance simple_dec t : Decision (simple t).
Proof. unfold simple. apply _. Defined.

Fixpoint join (toks : list (list Z)) : list Z :=
  match toks with
  | [] => []
  | [t] => t
  | t :: toks => t ++ [59] ++ join toks
  end.

Lemma find_sep_inner t : forall p st rest, Forall (fun c => c <> 59 /\ c <> 39 /\ c <> 92) t -> (t = [] -> p <> 92 /\ st = false) ->
  find_sep p st false (t ++ 59 :: rest) = (t, Some rest) /\ find_sep p st false t = (t, None).
Proof.
  induction t as [|c t IH]; intros p st rest Ht Hp; cbn [app find_sep].
  - destruct (Hp eq_refl) as [Hne ->]. rewrite (proj2 (Z.eqb_neq _ _) Hne). done.
  - apply Forall_cons_iff in Ht as [ (Ha & Hb & Hc) Ht]. rewrite (proj2 (Z.eqb_neq _ _) Ha), (proj2 (Z.eqb_neq _ _) Hb). cbn [andb negb].
    destruct (IH c false rest Ht) as [-> ->]; [done|]. done.
Qed.

Section RunTokens.
Context {S : Type} `{Console S} (env_get : S -> list Z -> option (list Z)) (table : list (cmd_tbl S)).

(** The commands one after the other, each expanded with the variables that those before it left and split into at most
    16 words. *)
Fixpoint run_tokens (flag : Z) (toks : list (list Z)) (repeatable rc : Z) (s : S) : option (Z * S) :=
  match toks with
  | [] => Some (if negb (rc =? 0) then rc else repeatable, s)
  | t :: toks =>
    let ws := words (cli_simple_process_macros (env_get s) t) in
    match ws with
    | [] => run_tokens flag toks repeatable (-1) s
    | _ =>
      let s := if snd (cli_simple_parse_line (cli_simple_process_macros (env_get s) t)) then s else puts too_many s in
      '(r, repeatable, s) ← cmd_process table flag (take 16 ws) repeatable s;
      if had_ctrlc s then Some (-1, s) else run_tokens flag toks repeatable (if negb (r =? 0) then -1 else rc) s
    end
  end.

Lemma run_loop_tokens flag toks : forall fuel p rep rc s, Forall simple toks -> (length (join toks) <= fuel)%nat ->
  run_loop env_get table fuel flag p (join toks) rep rc s = run_tokens flag toks rep rc s.
Proof.
  induction toks as [|t toks IH]; intros fuel p rep rc s Ht Hf; [by destruct fuel|].
  apply Forall_cons_iff in Ht as [ [Hne Ht] Hts].
  assert (exists c r, join (t :: toks) = c :: r) as (c0 & r0 & E0).
  { destruct t as [|c t]; [done|]. destruct toks; cbn; by eexists _, _. }
  assert (find_sep p true false (join (t :: toks)) = (t, match toks with [] => None | _ => Some (join toks) end)) as Es.
  { destruct toks as [|t' toks]; [apply (find_sep_inner t p true []); [done|by intros ->]|].
    apply (find_sep_inner t p true (join (t' :: toks))); [done|by intros ->]. }
  assert (default [] (match toks with [] => None | _ => Some (join toks) end) = join toks) as Ed by (by destruct toks).
  assert (length (join toks) < length (join (t :: toks)))%nat as Hlen.
  { destruct toks as [|t' toks]; [cbn; destruct t; [done|cbn; lia]|]. change (join (t :: t' :: toks)) with (t ++ 59 :: join (t' :: toks)). rewrite length_app. cbn [length]. lia. }
  destruct fuel as [|fuel]; [lia|]. revert Es Hf Hlen. rewrite E0. intros Es Hf Hlen. cbn [run_loop run_tokens]. rewrite Es, Ed.
  pose proof (parse_loop_words 16 (cli_simple_process_macros (env_get s) t)) as Ew. change (parse_loop 16) with cli_simple_parse_line in Ew.
  destruct (words (cli_simple_process_macros (env_get s) t)) as [|w ws] eqn:Ews.
  - pose proof (parse_loop_ended 16 (cli_simple_process_macros (env_get s) t)) as En. change (parse_loop 16) with cli_simple_parse_line in En. rewrite Ews in En.
    specialize (En ltac:(cbn; lia)). destruct (cli_simple_parse_line _) as [argv ended]. cbn [fst snd] in *. subst. apply IH; [done|cbn [length] in *; lia].
  - destruct (cli_simple_parse_line _) as [argv ended]. cbn [fst snd] in *. subst argv. change (take 16 (w :: ws)) with (w :: take 15 ws).
    destruct (cmd_process table flag _ rep _) as [ [ [r rep'] s']|]; [|done]. cbn [mbind option_bind]. destruct (had_ctrlc s'); [done|].
    apply IH; [done|cbn [length] in *; lia].
Qed.

End RunTokens.

(** C25: a command line of commands separated by semicolons runs them in order, each expanded with the
    values that the variables have when its turn comes and split into words, the later ones whether or not an earlier one failed, until the line ends or the user interrupts. *)
Theorem run_command_runs {S} `{Console S} env_get (table : list (cmd_tbl S)) before toks flag s :
  Forall simple toks -> toks <> [] -> Z.of_nat (length (join toks)) < CONFIG_SYS_CBSIZE ->
  cli_simple_run_command env_get table before (Some (join toks)) flag s = run_tokens env_get table flag toks 1 0 (clear_ctrlc s).
Proof.
  intros Ht Hne Hlen. unfold cli_simple_run_command. destruct (join toks) as [|c r] eqn:E.
  { destruct toks as [|t toks]; [done|]. apply Forall_cons_iff in Ht as [ [Ht _] _]. destruct t; [done|]. by destruct toks. }
  rewrite <- E in *. replace (_ <=? _) with false by lia. by apply run_loop_tokens.
Qed.

(** The arguments found are the words of the line, 16 at most; [argv] ends in NULL if they are fewer, and not if they are more. *)
Theorem parse_line_splits line : let '(argv, ended) := cli_simple_parse_line line in
  argv = take 16 (words line) /\ ((length (words line) < 16)%nat -> ended = true) /\ ((16 < length (words line))%nat -> ended = false).
Proof.
  pose proof (parse_loop_words 16 line) as H1. pose proof (parse_loop_ended 16 line) as H2. pose proof (parse_loop_overflow 16 line) as H3.
  change (parse_loop 16) with cli_simple_parse_line in *. by destruct (cli_simple_parse_line line).
Qed.

(** ** Lines run *)

Definition demo_env (n : list Z) : option (list Z) := if bool_decide (n = lit "file") then Some (lit "program.bin") else None.

Definition demo_segments : list segment :=
  [Text (lit "ext2load mmc 0 60000000 "); Variable' (lit "file"); Text [32]; Quoted (lit "a $b"); Escaped 36; Dollar 99].

Lemma process_macros_expands_witness :
  cli_simple_process_macros demo_env (lit "ext2load mmc 0 60000000 ${file} 'a $b'\$$c") = lit "ext2load mmc 0 60000000 program.bin a $b$$c".
Proof.
  apply (process_macros_expands demo_env demo_segments).
  apply (bool_decide_eq_true_1 (Forall segment_ok demo_segments)). vm_compute. reflexivity.
Defined.

(** A console with variables, and two commands: one sets a variable, one prints its arguments. *)
Record shell := Shell { screen : list Z; variables : list (list Z * list Z) }.
#[local] Instance shell_console : Console shell :=
  {| puts t s := Shell (screen s ++ t) (variables s); ctrlc s := (false, s); had_ctrlc _ := false; clear_ctrlc s := s |}.
Definition shell_get (s : shell) (n : list Z) : option (list Z) := snd <$> List.find (fun v => bool_decide (v.1 = n)) (variables s).
Definition shell_command (n : string) (f : list (list Z) -> shell -> shell) : cmd_tbl shell :=
  {| name := lit n; maxargs := 16; repeatable := 1; cmd := fun _ argv s => Some (0, f (tail argv) s); usage := None; help := None; complete := None |}.
Definition shell_table : list (cmd_tbl shell) :=
  [shell_command "setenv" (fun argv s => Shell (screen s) ((nth 0 argv [], nth 1 argv []) :: variables s));
   shell_command "echo" (fun argv s => puts (concat argv) s)].

(** The second command sees the variable that the first one set. *)
Lemma run_command_runs_witness :
  cli_simple_run_command shell_get shell_table 0 (Some (lit "setenv a 1;echo x${a};setenv a 2${a};echo ${a}")) 0 (Shell [] []) =
    Some (1, Shell (lit "x121") [(lit "a", lit "21"); (lit "a", lit "1")]).
Proof.
  rewrite (run_command_runs shell_get shell_table 0 [lit "setenv a 1"; lit "echo x${a}"; lit "setenv a 2${a}"; lit "echo ${a}"] 0 (Shell [] [])).
  - vm_compute. reflexivity.
  - apply (bool_decide_eq_true_1 (Forall simple [lit "setenv a 1"; lit "echo x${a}"; lit "setenv a 2${a}"; lit "echo ${a}"])). vm_compute. reflexivity.
  - discriminate.
  - vm_compute. reflexivity.
Defined.

(** After an escaped backslash a dollar starts no variable. *)
Example dollar_after_backslash : cli_simple_process_macros demo_env (lit "\\${file}") = lit "\${file}".
Proof. vm_compute. reflexivity. Qed.

(** 16 words and a blank after them count as too many arguments, and [argv] is not terminated. *)
Example sixteen_words : snd (cli_simple_parse_line (lit "a b c d e f g h i j k l m n o p ")) = false /\
  length (fst (cli_simple_parse_line (lit "a b c d e f g h i j k l m n o p "))) = 16%nat.
Proof. vm_compute. done. Qed.

(** A command that starts with a quote depends on the byte in front of the buffer. *)
Example quote_reads_before :
  cli_simple_run_command (fun _ => demo_env) demo_table 0 (Some (lit "'cp;cp'")) 0 [] <> cli_simple_run_command (fun _ => demo_env) demo_table 92 (Some (lit "'cp;cp'")) 0 [].
Proof. vm_compute. discriminate. Qed.

(** After two semicolons the second starts the next command's name; a blank command makes the line fail. *)
Example empty_commands :
  (r ← cli_simple_run_command (fun _ => demo_env) demo_table 0 (Some (lit "cp;;cp")) 0 []; Some r.1) = Some (-1) /\
  cli_simple_run_command (fun _ => demo_env) demo_table 0 (Some (lit "cp; ")) 0 [] = Some (-1, lit "cp").
Proof. vm_compute. done. Qed.

End Cli.
