(* ===== verification/Atags.v ===== *)
(** * Atags: the list of tags for the started program

    The tags of U-Boot's arch/arm/lib/bootm.c, which describe the machine to a started kernel: [boot_prep_linux] writes
    them one after the other at [bi_boot_params], with the static [params] pointing at the next one.  [read_tags] is the
    kernel's side, the loop [for_each_tag] of arch/arm/include/asm/setup.h. *)

From stdpp Require Import base list option.
From Stdlib Require Import ZifyBool.
From S2P Require Import Prelude Cmem CString Image Carray.
Import Carray.

Module Atags.

Definition ATAG_NONE : Z := 0.
Definition ATAG_CORE : Z := 0x54410001.
Definition ATAG_MEM : Z := 0x54410002.
Definition ATAG_INITRD2 : Z := 0x54420005.
Definition ATAG_SERIAL : Z := 0x54410006.
Definition ATAG_REVISION : Z := 0x54410007.
Definition ATAG_CMDLINE : Z := 0x54410009.

(** [struct tag_header]: the size in words, then the tag; [tag_size] of a body of [n] bytes, [tag_next]. *)
Definition tag_size (n : Z) : Z := Z.shiftr (8 + n) 2.
Definition put_hdr (m : mem) (p tag size : Z) : mem := st32 (st32 m (p + 4) tag) p size.
Definition tag_next (m : mem) (p : Z) : Z := u32 (p + 4 * ld32 m p).

(** [bd_t]: the banks of memory are start and size. *)
Record bd := Bd { bi_boot_params : Z; bi_arch_number : Z; bi_dram : list (Z * Z) }.

(** Each writer takes the memory and [params] and gives both. *)
Definition setup_start_tag (b : bd) (m : mem) : mem * Z :=
  let p := bi_boot_params b in
  let m := put_hdr m p ATAG_CORE (tag_size 12) in
  let m := st32 (st32 (st32 m (p + 8) 0) (p + 12) 0) (p + 16) 0 in
  (m, tag_next m p).

(** [tag_mem32] holds the size before the start. *)
Definition setup_memory_tag (start size : Z) (m : mem) (p : Z) : mem * Z :=
  let m := put_hdr m p ATAG_MEM (tag_size 8) in
  let m := st32 (st32 m (p + 12) start) (p + 8) size in
  (m, tag_next m p).
Definition setup_memory_tags (b : bd) (m : mem) (p : Z) : mem * Z :=
  foldl (fun mp bank => setup_memory_tag bank.1 bank.2 mp.1 mp.2) (m, p) (bi_dram b).

(** [for (p = commandline; *p == ' '; p++);] *)
Fixpoint skip_spaces (s : list Z) : list Z := match s with c :: r => if c =? 32 then skip_spaces r else s | [] => [] end.

Definition setup_commandline_tag (commandline : option (list Z)) (m : mem) (p : Z) : mem * Z :=
  match commandline with
  | None => (m, p)
  | Some s =>
    match skip_spaces s with
    | [] => (m, p)
    | s =>
      let m := put_hdr m p ATAG_CMDLINE (Z.shiftr (8 + Z.of_nat (length s) + 1 + 4) 2) in
      let m := wr m (p + 8) (s ++ [0]) in
      (m, tag_next m p)
    end
  end.

Definition setup_initrd_tag (initrd_start initrd_end : Z) (m : mem) (p : Z) : mem * Z :=
  let m := put_hdr m p ATAG_INITRD2 (tag_size 8) in
  let m := st32 (st32 m (p + 8) initrd_start) (p + 12) (u32 (initrd_end - initrd_start)) in
  (m, tag_next m p).

Definition setup_serial_tag (low high : Z) (m : mem) (p : Z) : mem * Z :=
  let m := put_hdr m p ATAG_SERIAL (tag_size 8) in
  let m := st32 (st32 m (p + 8) low) (p + 12) high in
  (m, tag_next m p).

Definition setup_revision_tag (rev : Z) (m : mem) (p : Z) : mem * Z :=
  let m := put_hdr m p ATAG_REVISION (tag_size 4) in
  let m := st32 m (p + 8) rev in
  (m, tag_next m p).

Definition setup_end_tag (m : mem) (p : Z) : mem := put_hdr m p ATAG_NONE 0.

(** The ramdisk that is announced: the relocated one, or else the one found. *)
Definition initrd_of (initrd_start initrd_end rd_start rd_end : Z) : option (Z * Z) :=
  if negb (initrd_start =? 0) && negb (initrd_end =? 0) then Some (initrd_start, initrd_end)
  else if negb (rd_start =? 0) && negb (rd_end =? 0) then Some (rd_start, rd_end) else None.

(** The branch of [boot_prep_linux] that writes tags, without a serial number, as the board is configured. *)
Definition write_tags (b : bd) (commandline : option (list Z)) (rev : Z) (initrd : option (Z * Z)) (m : mem) : mem :=
  let '(m, p) := setup_start_tag b m in
  let '(m, p) := setup_commandline_tag commandline m p in
  let '(m, p) := setup_revision_tag rev m p in
  let '(m, p) := setup_memory_tags b m p in
  let '(m, p) := match initrd with Some (s, e) => setup_initrd_tag s e m p | None => (m, p) end in
  setup_end_tag m p.

(** ** The reader *)

Inductive tag :=
| Core (flags pagesize rootdev : Z)
| Mem (start size : Z)
| Initrd (start size : Z)
| Serial (low high : Z)
| Revision (rev : Z)
| Cmdline (s : list Z)
| Unknown (t : Z).

(** The string at [a], at most [n] characters. *)
Fixpoint read_str (n : nat) (m : mem) (a : Z) : list Z :=
  match n with O => [] | S n => if ld m a =? 0 then [] else ld m a :: read_str n m (a + 1) end.

Definition read_tag (m : mem) (p : Z) : tag :=
  let t := ld32 m (p + 4) in
  if t =? ATAG_CORE then Core (ld32 m (p + 8)) (ld32 m (p + 12)) (ld32 m (p + 16)) else
  if t =? ATAG_MEM then Mem (ld32 m (p + 12)) (ld32 m (p + 8)) else
  if t =? ATAG_INITRD2 then Initrd (ld32 m (p + 8)) (ld32 m (p + 12)) else
  if t =? ATAG_SERIAL then Serial (ld32 m (p + 8)) (ld32 m (p + 12)) else
  if t =? ATAG_REVISION then Revision (ld32 m (p + 8)) else
  if t =? ATAG_CMDLINE then Cmdline (read_str (Z.to_nat (4 * ld32 m p - 8)) m (p + 8)) else Unknown t.

(** [for_each_tag] *)
Fixpoint read_tags (fuel : nat) (m : mem) (p : Z) : option (list tag) :=
  match fuel with
  | O => None
  | S fuel => if ld32 m p =? 0 then Some [] else l ← read_tags fuel m (tag_next m p); Some (read_tag m p :: l)
  end.

(** ** Tags in memory *)

(** The bytes a tag takes. *)
Definition tag_bytes (t : tag) : Z :=
  match t with
  | Core _ _ _ => 20
  | Mem _ _ | Initrd _ _ | Serial _ _ => 16
  | Revision _ => 12
  | Cmdline s => 4 * Z.shiftr (13 + Z.of_nat (length s)) 2
  | Unknown _ => 8
  end.

(** The tag [t] is at [p]. *)
Definition tag_at (m : mem) (p : Z) (t : tag) : Prop := 4 * ld32 m p = tag_bytes t /\ read_tag m p = t.

Fixpoint tags_at (m : mem) (p : Z) (l : list tag) : Prop :=
  match l with [] => True | t :: l => tag_at m p t /\ tags_at m (p + tag_bytes t) l end.

Definition tags_bytes (l : list tag) : Z := foldr (fun t n => tag_bytes t + n) 0 l.

(** Only the bytes from [p] to [q] are written. *)
Definition within (m m' : mem) (p q : Z) : Prop := forall a, a < p \/ q <= a -> ld m' a = ld m a.

Lemma tag_bytes_pos t : 8 <= tag_bytes t.
Proof. destruct t; cbn; try lia. rewrite Z.shiftr_div_pow2 by lia. change (2 ^ 2) with 4. pose proof (Z.div_le_mono 8 (13 + Z.of_nat (length s)) 4). change (8 / 4) with 2 in *. lia. Qed.

Lemma tags_bytes_nonneg l : 0 <= tags_bytes l.
Proof. induction l as [|t l IH]; cbn [tags_bytes foldr]; [lia|]. pose proof (tag_bytes_pos t). unfold tags_bytes in IH. lia. Qed.

Lemma tags_bytes_snoc l t : tags_bytes (l ++ [t]) = tags_bytes l + tag_bytes t.
Proof. unfold tags_bytes. induction l as [|x l IH]; cbn [app foldr]; [lia|]. rewrite IH. lia. Qed.

Lemma ld32_ext m m' a : (forall x, a <= x < a + 4 -> ld m' x = ld m x) -> ld32 m' a = ld32 m a.
Proof. intros H. unfold ld32. rewrite !H by lia. done. Qed.

Lemma ld32_st32_other m a v x : x + 4 <= a \/ a + 4 <= x -> ld32 (st32 m a v) x = ld32 m x.
Proof. intros H. apply ld32_ext. intros y Hy. apply Image.ld_st32_other. lia. Qed.

Lemma read_str_ext n m m' : forall a, (forall x, a <= x < a + Z.of_nat n -> ld m' x = ld m x) -> read_str n m' a = read_str n m a.
Proof.
  induction n as [|n IH]; intros a H; cbn [read_str]; [done|]. rewrite (H a) by lia. destruct (ld m a =? 0); [done|]. f_equal. apply IH. intros x Hx. apply H. lia.
Qed.

Lemma read_str_cstr m a s n : cstr m a s -> (length s < n)%nat -> read_str n m a = s.
Proof.
  revert a n. induction s as [|c s IH]; intros a n H Hn; (destruct n as [|n]; [cbn in Hn; lia|]); cbn [read_str].
  - apply cstr_nil in H. by rewrite H.
  - apply cstr_cons in H as (Hc & E & H). rewrite E. replace (c =? 0) with false by lia. f_equal. apply IH; [done|cbn in Hn; lia].
Qed.

(** A tag is determined by its bytes. *)
Lemma tag_at_frame m m' p t : (forall x, p <= x < p + tag_bytes t -> ld m' x = ld m x) -> tag_at m p t -> tag_at m' p t.
Proof.
  intros H [Hs Ht]. pose proof (tag_bytes_pos t). unfold tag_at.
  assert (ld32 m' p = ld32 m p) as Ep by (apply ld32_ext; intros; apply H; lia).
  assert (ld32 m' (p + 4) = ld32 m (p + 4)) as E4 by (apply ld32_ext; intros; apply H; lia).
  rewrite Ep. split; [done|]. rewrite <- Ht at 1. revert Ht. unfold read_tag. rewrite E4, Ep.
  repeat (destruct (ld32 m (p + 4) =? _)); intros <-; cbn [tag_bytes] in *; f_equal; try (apply ld32_ext; intros; apply H; lia).
  apply read_str_ext. intros x Hx. apply H. lia.
Qed.

Lemma tags_at_frame l m m' : forall p, (forall x, p <= x < p + tags_bytes l -> ld m' x = ld m x) -> tags_at m p l -> tags_at m' p l.
Proof.
  induction l as [|t l IH]; intros p H; cbn [tags_at]; [done|]. intros [Ht Hl]. unfold tags_bytes in H. cbn [foldr] in H. fold (tags_bytes l) in H.
  pose proof (tag_bytes_pos t). pose proof (tags_bytes_nonneg l). split; [apply (tag_at_frame m); [intros; apply H; lia|done]|].
  apply IH; [intros; apply H; lia|done].
Qed.

Lemma tags_at_snoc m l t : forall p, tags_at m p l -> tag_at m (p + tags_bytes l) t -> tags_at m p (l ++ [t]).
Proof.
  induction l as [|x l IH]; intros p; cbn [tags_at app tags_bytes foldr].
  - rewrite Z.add_0_r. by intros _ H.
  - intros [Hx Hl] Ht. split; [done|]. apply IH; [done|]. fold (tags_bytes l) in Ht. by rewrite Z.add_assoc in Ht.
Qed.

(** ** The writers *)

(** A writer has put [t] at [p]. *)
Definition wrote (t : tag) (m : mem) (p : Z) (r : mem * Z) : Prop :=
  tag_at r.1 p t /\ r.2 = p + tag_bytes t /\ within m r.1 p (p + tag_bytes t).

(** Reading the words a writer has stored. *)
Ltac words := repeat first [rewrite Image.ld32_st32 | rewrite ld32_st32_other by lia].

Ltac next_tag := unfold tag_next; words; change (u32 5) with 5; change (u32 4) with 4; change (u32 3) with 3; rewrite u32_small by lia; cbn [tag_bytes]; lia.

Ltac frame := intros a Ha; repeat rewrite Image.ld_st32_other by lia; reflexivity.

(** The tests of [read_tag] on a tag just written. *)
Ltac known_tag := unfold tag_at, read_tag, put_hdr; words;
  repeat match goal with |- context [u32 ?t =? ?k] => let b := eval vm_compute in (u32 t =? k) in change (u32 t =? k) with b end; cbn iota.

Ltac tag_words := known_tag; rewrite ?u32_small by lia; split; reflexivity.

Lemma start_tag_wrote b m : 0 <= bi_boot_params b -> bi_boot_params b + 20 < 2 ^ 32 -> wrote (Core 0 0 0) m (bi_boot_params b) (setup_start_tag b m).
Proof.
  intros H0 H1. unfold wrote, setup_start_tag. cbn [fst snd]. set (p := bi_boot_params b) in *. change (tag_size 12) with 5. unfold put_hdr. split_and!.
  - tag_words.
  - next_tag.
  - cbn [tag_bytes]. frame.
Qed.

Lemma memory_tag_wrote start size m p : in_range 32 start -> in_range 32 size -> 0 <= p -> p + 16 < 2 ^ 32 -> wrote (Mem start size) m p (setup_memory_tag start size m p).
Proof.
  unfold in_range. intros Hs Hz H0 H1. unfold wrote, setup_memory_tag. cbn [fst snd]. change (tag_size 8) with 4. unfold put_hdr. split_and!.
  - tag_words.
  - next_tag.
  - cbn [tag_bytes]. frame.
Qed.

Lemma initrd_tag_wrote s e m p : in_range 32 s -> 0 <= p -> p + 16 < 2 ^ 32 -> wrote (Initrd s (u32 (e - s))) m p (setup_initrd_tag s e m p).
Proof.
  unfold in_range. intros Hs H0 H1. unfold wrote, setup_initrd_tag. cbn [fst snd]. change (tag_size 8) with 4. unfold put_hdr. split_and!.
  - known_tag. rewrite u32_u32, (u32_small s) by lia. split; reflexivity.
  - next_tag.
  - cbn [tag_bytes]. frame.
Qed.

Lemma revision_tag_wrote rev m p : in_range 32 rev -> 0 <= p -> p + 12 < 2 ^ 32 -> wrote (Revision rev) m p (setup_revision_tag rev m p).
Proof.
  unfold in_range. intros Hs H0 H1. unfold wrote, setup_revision_tag. cbn [fst snd]. change (tag_size 4) with 3. unfold put_hdr. split_and!.
  - tag_words.
  - next_tag.
  - cbn [tag_bytes]. frame.
Qed.

Lemma serial_tag_wrote lo hi m p : in_range 32 lo -> in_range 32 hi -> 0 <= p -> p + 16 < 2 ^ 32 -> wrote (Serial lo hi) m p (setup_serial_tag lo hi m p).
Proof.
  unfold in_range. intros Hs Hz H0 H1. unfold wrote, setup_serial_tag. cbn [fst snd]. change (tag_size 8) with 4. unfold put_hdr. split_and!.
  - tag_words.
  - next_tag.
  - cbn [tag_bytes]. frame.
Qed.

Lemma skip_spaces_cs s : cs s -> cs (skip_spaces s).
Proof.
  induction s as [|c s IH]; intros H; cbn; [done|]. destruct (c =? 32); [|done]. apply cs_cons in H as [_ H]. by apply IH.
Qed.

Lemma cmdline_tag_wrote c s m p : skip_spaces c = s -> s <> [] -> cs s -> 0 <= p -> p + tag_bytes (Cmdline s) < 2 ^ 32 ->
  wrote (Cmdline s) m p (setup_commandline_tag (Some c) m p).
Proof.
  intros Es Hne Hcs H0 H1. unfold wrote, setup_commandline_tag. rewrite Es. destruct s as [|c0 s0] eqn:E; [done|]. rewrite <- E in *. clear E Hne c0 s0 Es.
  cbn [fst snd]. set (n := Z.of_nat (length s)) in *. cbn [tag_bytes] in *. fold n in H1 |- *.
  replace (8 + n + 1 + 4) with (13 + n) by lia. set (w := Z.shiftr (13 + n) 2) in *.
  assert (13 + n - 3 <= 4 * w /\ 0 <= w) as [Hw Hw0].
  { subst w. rewrite Z.shiftr_div_pow2 by lia. change (2 ^ 2) with 4. pose proof (Z.div_mod (13 + n) 4 ltac:(lia)). pose proof (Z.mod_pos_bound (13 + n) 4 ltac:(lia)). lia. }
  assert (forall x, x < p + 8 -> ld (wr (put_hdr m p ATAG_CMDLINE w) (p + 8) (s ++ [0])) x = ld (put_hdr m p ATAG_CMDLINE w) x) as Hlow.
  { intros x Hx. rewrite ld_wr. replace (p + 8 <=? x) with false by lia. done. }
  assert (ld32 (wr (put_hdr m p ATAG_CMDLINE w) (p + 8) (s ++ [0])) p = w) as Hsize.
  { rewrite (ld32_ext (put_hdr m p ATAG_CMDLINE w)) by (intros; apply Hlow; lia). unfold put_hdr. words. apply u32_small. lia. }
  unfold tag_at. rewrite Hsize. split_and!.
  - fold n. done.
  - assert (ld32 (wr (put_hdr m p ATAG_CMDLINE w) (p + 8) (s ++ [0])) (p + 4) = ATAG_CMDLINE) as Htag.
    { rewrite (ld32_ext (put_hdr m p ATAG_CMDLINE w)) by (intros; apply Hlow; lia). unfold put_hdr. by words. }
    unfold read_tag. rewrite Htag, Hsize. cbn [Z.eqb ATAG_CMDLINE ATAG_CORE ATAG_MEM ATAG_INITRD2 ATAG_SERIAL ATAG_REVISION Pos.eqb].
    f_equal. apply read_str_cstr; [by apply cstr_wr|]. lia.
  - unfold tag_next. rewrite Hsize, u32_small by lia. done.
  - intros a Ha. rewrite ld_wr, length_app. cbn [length]. replace (_ && _) with false by lia. unfold put_hdr. by rewrite !Image.ld_st32_other by lia.
Qed.

(** The tags written so far. *)
Definition so_far (b : Z) (l : list tag) (m0 : mem) (r : mem * Z) : Prop :=
  tags_at r.1 b l /\ r.2 = b + tags_bytes l /\ within m0 r.1 b (b + tags_bytes l).

Lemma so_far_more b l m0 m p t r : so_far b l m0 (m, p) -> wrote t m p r -> so_far b (l ++ [t]) m0 r.
Proof.
  intros (Hl & Hp & Hw) (Ht & Hn & Hf). cbn [fst snd] in *. pose proof (tags_bytes_nonneg l). pose proof (tag_bytes_pos t). subst p.
  unfold so_far. rewrite tags_bytes_snoc. split_and!.
  - apply tags_at_snoc; [|done]. apply (tags_at_frame l m); [|done]. intros x Hx. apply Hf. lia.
  - lia.
  - intros a Ha. rewrite Hf by lia. apply Hw. lia.
Qed.

Definition mem_tags (b : bd) : list tag := map (fun bank => Mem bank.1 bank.2) (bi_dram b).
Definition cmdline_tags (c : option (list Z)) : list tag :=
  match c with Some c => match skip_spaces c with [] => [] | s => [Cmdline s] end | None => [] end.
Definition initrd_tags (i : option (Z * Z)) : list tag := match i with Some (s, e) => [Initrd s (u32 (e - s))] | None => [] end.

(** The tags that describe the machine. *)
Definition tags_of (b : bd) (c : option (list Z)) (rev : Z) (i : option (Z * Z)) : list tag :=
  [Core 0 0 0] ++ cmdline_tags c ++ [Revision rev] ++ mem_tags b ++ initrd_tags i.

Lemma tags_bytes_app l1 l2 : tags_bytes (l1 ++ l2) = tags_bytes l1 + tags_bytes l2.
Proof. unfold tags_bytes. induction l1 as [|t l IH]; cbn [app foldr]; [lia|]. rewrite IH. lia. Qed.

Lemma memory_tags_wrote b0 banks : forall l m0 m p, so_far b0 l m0 (m, p) -> 0 <= b0 -> Forall (fun k => in_range 32 k.1 /\ in_range 32 k.2) banks ->
  b0 + tags_bytes l + 16 * Z.of_nat (length banks) < 2 ^ 32 ->
  so_far b0 (l ++ map (fun bank => Mem bank.1 bank.2) banks) m0 (foldl (fun mp bank => setup_memory_tag bank.1 bank.2 mp.1 mp.2) (m, p) banks).
Proof.
  induction banks as [|k banks IH]; intros l m0 m p Hs Hb Hk Hend; cbn [map foldl]; [by rewrite app_nil_r|].
  apply Forall_cons_iff in Hk as [ [Hk1 Hk2] Hk]. cbn [length] in Hend. pose proof (tags_bytes_nonneg l).
  assert (p = b0 + tags_bytes l) as Hp by (destruct Hs as (_ & Hp & _); exact Hp).
  pose proof (so_far_more b0 l m0 m p _ _ Hs (memory_tag_wrote k.1 k.2 m p Hk1 Hk2 ltac:(lia) ltac:(lia))) as H1.
  cbn [fst snd]. destruct (setup_memory_tag k.1 k.2 m p) as [m1 p1]. rewrite (app_assoc l [_] _ : l ++ _ :: _ = _). apply IH; auto. rewrite tags_bytes_snoc. cbn [tag_bytes]. lia.
Qed.

(** The kernel's loop finds the tags that were written. *)
Lemma read_tags_found m l : forall p, 0 <= p -> p + tags_bytes l < 2 ^ 32 -> tags_at m p l -> ld32 m (p + tags_bytes l) = 0 ->
  read_tags (S (length l)) m p = Some l.
Proof.
  induction l as [|t l IH]; intros p H0 H1 Ht Hz; cbn [read_tags length].
  - unfold tags_bytes in Hz. cbn in Hz. rewrite Z.add_0_r in Hz. by rewrite Hz.
  - destruct Ht as [ [Hs Ht] Hl]. unfold tags_bytes in *. cbn [foldr] in *. fold (tags_bytes l) in *. pose proof (tag_bytes_pos t). pose proof (tags_bytes_nonneg l).
    replace (ld32 m p =? 0) with false by lia. unfold tag_next. rewrite Hs, u32_small by lia.
    change (read_tags (S (length l)) m (p + tag_bytes t) ≫= (fun l0 => Some (read_tag m p :: l0)) = Some (t :: l)). rewrite IH by (auto; try lia; by rewrite <- Z.add_assoc). cbn. by rewrite Ht.
Qed.

(** The parameters fit their fields and the list fits the address space. *)
Record tags_fit (b : bd) (c : option (list Z)) (rev : Z) (i : option (Z * Z)) : Prop := {
  tf_params : 0 <= bi_boot_params b;
  tf_end : bi_boot_params b + tags_bytes (tags_of b c rev i) + 8 < 2 ^ 32;
  tf_banks : Forall (fun k => in_range 32 k.1 /\ in_range 32 k.2) (bi_dram b);
  tf_cmdline : forall s, c = Some s -> cs s;
  tf_rev : in_range 32 rev;
  tf_initrd : forall s e, i = Some (s, e) -> in_range 32 s
}.

Lemma mem_tags_bytes banks : tags_bytes (map (fun bank => Mem bank.1 bank.2) banks) = 16 * Z.of_nat (length banks).
Proof. unfold tags_bytes. induction banks as [|k banks IH]; [done|]. cbn [map foldr length tag_bytes]. rewrite IH. lia. Qed.

Lemma write_tags_spec b c rev i m : tags_fit b c rev i ->
  let m' := write_tags b c rev i m in let l := tags_of b c rev i in
  tags_at m' (bi_boot_params b) l /\ ld32 m' (bi_boot_params b + tags_bytes l) = 0 /\
  within m m' (bi_boot_params b) (bi_boot_params b + tags_bytes l + 8).
Proof.
  intros [H0 Hend Hbanks Hc Hrev Hi]. cbv zeta. unfold tags_of in *. rewrite !tags_bytes_app in *. unfold mem_tags in *. rewrite mem_tags_bytes in *.
  set (p := bi_boot_params b) in *. pose proof (tags_bytes_nonneg (cmdline_tags c)). pose proof (tags_bytes_nonneg (initrd_tags i)).
  change (tags_bytes [Core 0 0 0]) with 20 in *. change (tags_bytes [Revision rev]) with 12 in *. unfold write_tags.
  assert (so_far p [] m (m, p)) as S0 by (unfold so_far, tags_bytes; cbn; split_and!; [done|lia|by intros]).
  pose proof (so_far_more p [] m m p _ _ S0 (start_tag_wrote b m H0 ltac:(lia))) as S1. destruct (setup_start_tag b m) as [m1 p1]. cbn [app] in S1.
  assert (so_far p ([Core 0 0 0] ++ cmdline_tags c) m (setup_commandline_tag c m1 p1)) as S2.
  { unfold cmdline_tags in *. destruct c as [c|]; [|exact S1]. destruct (skip_spaces c) as [|x s] eqn:E; [unfold setup_commandline_tag; rewrite E; exact S1|].
    apply (so_far_more p _ m m1 p1 (Cmdline (x :: s))); [exact S1|].
    assert (p1 = p + 20) as -> by (destruct S1 as (_ & Hp & _); exact Hp). apply cmdline_tag_wrote; auto; [|lia|].
    - rewrite <- E. apply skip_spaces_cs. by apply Hc.
    - unfold tags_bytes in *. cbn [foldr] in *. lia. }
  destruct (setup_commandline_tag c m1 p1) as [m2 p2].
  assert (p2 = p + (20 + tags_bytes (cmdline_tags c))) as Hp2 by (destruct S2 as (_ & Hp & _); cbn [snd] in Hp; rewrite Hp, tags_bytes_app; done).
  pose proof (so_far_more p _ m m2 p2 _ _ S2 (revision_tag_wrote rev m2 p2 Hrev ltac:(lia) ltac:(lia))) as S3. destruct (setup_revision_tag rev m2 p2) as [m3 p3].
  pose proof (memory_tags_wrote p (bi_dram b) _ m m3 p3 S3 H0 Hbanks) as S4. rewrite !tags_bytes_app in S4. change (tags_bytes [Core 0 0 0]) with 20 in S4. change (tags_bytes [Revision rev]) with 12 in S4.
  specialize (S4 ltac:(lia)). fold (setup_memory_tags b m3 p3) in S4. destruct (setup_memory_tags b m3 p3) as [m4 p4].
  assert (p4 = p + (20 + tags_bytes (cmdline_tags c) + 12 + 16 * Z.of_nat (length (bi_dram b)))) as Hp4.
  { destruct S4 as (_ & Hp & _). cbn [snd] in Hp. rewrite Hp, !tags_bytes_app, mem_tags_bytes. change (tags_bytes [Core 0 0 0]) with 20. change (tags_bytes [Revision rev]) with 12. lia. }
  assert (so_far p ((((([Core 0 0 0] ++ cmdline_tags c) ++ [Revision rev]) ++ map (fun bank => Mem bank.1 bank.2) (bi_dram b))) ++ initrd_tags i) m
    (match i with Some (s, e) => setup_initrd_tag s e m4 p4 | None => (m4, p4) end)) as S5.
  { unfold initrd_tags in *. destruct i as [ [s e]|]; [|by rewrite app_nil_r]. apply (so_far_more p _ m m4 p4); [exact S4|].
    apply initrd_tag_wrote; [by apply (Hi s e)|lia|]. unfold tags_bytes in *. cbn [foldr tag_bytes] in *. lia. }
  destruct (match i with Some (s, e) => setup_initrd_tag s e m4 p4 | None => (m4, p4) end) as [m5 p5].
  rewrite <- !app_assoc in S5. destruct S5 as (Ht & Hp5 & Hw). cbn [fst snd] in *. rewrite !tags_bytes_app, mem_tags_bytes in *.
  change (tags_bytes [Core 0 0 0]) with 20 in *. change (tags_bytes [Revision rev]) with 12 in *. subst p5. unfold setup_end_tag, put_hdr. split_and!.
  - apply (tags_at_frame _ m5); [|exact Ht]. intros x Hx. rewrite !tags_bytes_app, mem_tags_bytes in Hx.
    change (tags_bytes [Core 0 0 0]) with 20 in Hx. change (tags_bytes [Revision rev]) with 12 in Hx. by rewrite !Image.ld_st32_other by lia.
  - by words.
  - intros a Ha. rewrite !Image.ld_st32_other by lia. apply Hw. lia.
Qed.

(** C30: what the kernel reads is what the boot loader wrote: the list of tags at [bi_boot_params] reads back as the core
    tag, the command line without its leading blanks, the revision of the board, the banks of memory and the ramdisk,
    and nothing outside the list is written. *)
Theorem write_tags_reads b c rev i m : tags_fit b c rev i ->
  let m' := write_tags b c rev i m in let l := tags_of b c rev i in
  read_tags (S (length l)) m' (bi_boot_params b) = Some l /\
  forall a, a < bi_boot_params b \/ bi_boot_params b + tags_bytes l + 8 <= a -> ld m' a = ld m a.
Proof.
  intros Hf. destruct (write_tags_spec b c rev i m Hf) as (Ht & Hz & Hw). destruct Hf as [H0 Hend _ _ _ _]. cbv zeta. split; [|exact Hw].
  apply read_tags_found; auto. lia.
Qed.

(** The board of the chapters: two banks of 512 MiB, the tags at 0x60002000. *)
Definition vexpress_bd : bd := Bd 0x60002000 2272 [(0x60000000, 0x20000000); (0x80000000, 0x20000000)].

Lemma vexpress_tags_fit c rev : (forall s, c = Some s -> cs s /\ (length s <= 1000)%nat) -> in_range 32 rev -> tags_fit vexpress_bd c rev None.
Proof.
  intros Hc Hrev. split; auto; try done.
  - unfold tags_of. rewrite !tags_bytes_app. change (tags_bytes (mem_tags vexpress_bd)) with 32. change (tags_bytes (initrd_tags None)) with 0.
    change (tags_bytes [Core 0 0 0]) with 20. change (tags_bytes [Revision rev]) with 12. change (bi_boot_params vexpress_bd) with 0x60002000.
    assert (tags_bytes (cmdline_tags c) <= 2000); [|lia]. unfold cmdline_tags. destruct c as [s|]; [|cbn; lia]. destruct (Hc s eq_refl) as [_ Hl].
    assert (length (skip_spaces s) <= length s)%nat as Hs by (clear; induction s as [|c s IH]; cbn; [done|destruct (c =? 32); cbn; lia]).
    destruct (skip_spaces s) as [|x y]; [cbn; lia|]. unfold tags_bytes. cbn [foldr tag_bytes]. rewrite Z.shiftr_div_pow2 by lia. change (2 ^ 2) with 4.
    pose proof (Z.div_mod (13 + Z.of_nat (length (x :: y))) 4 ltac:(lia)). pose proof (Z.mod_pos_bound (13 + Z.of_nat (length (x :: y))) 4 ltac:(lia)). lia.
  - repeat constructor; unfold in_range; cbn; lia.
  - intros s E. by apply Hc.
Qed.

Lemma write_tags_reads_witness : let l := tags_of vexpress_bd (Some [32; 97]) 5 None in
  read_tags 6 (write_tags vexpress_bd (Some [32; 97]) 5 None (mem_of 0 [])) 0x60002000 = Some l.
Proof.
  apply (write_tags_reads vexpress_bd (Some [32; 97]) 5 None (mem_of 0 [])). apply vexpress_tags_fit; [|unfold in_range; lia].
  intros s [= <-]. split; [repeat constructor; lia|cbn; lia].
Defined.

End Atags.
