(* ===== verification/Boot.v ===== *)
(** * Boot: from the command [bootm] to the started program

    The states of U-Boot's common/bootm.c with the commands of cmd/bootm.c on them, the search for a ramdisk and a device
    tree (common/image.c, common/image-fdt.c), the table of operating systems of common/bootm_os.c and the start of a
    kernel on ARM (arch/arm/lib/bootm.c).  The steps that find and load the image are those of [Bootm], the tags those of
    [Atags].  Interrupts are off in the boot loader, so that [disable_interrupts] returns 0.  [None] stands for a loop
    that the fuel did not end and for a read outside the table of operating systems. *)

From stdpp Require Import base list option strings.
From Stdlib Require Import ZifyBool.
From S2P Require Import Prelude Cmem CString Strto Lmb Image Bootm Carray Command Part Atags.
Import Carray Command Bootm Atags.

Module Boot.

Definition BOOTM_STATE_START : Z := 0x1.
Definition BOOTM_STATE_FINDOS : Z := 0x2.
Definition BOOTM_STATE_FINDOTHER : Z := 0x4.
Definition BOOTM_STATE_LOADOS : Z := 0x8.
Definition BOOTM_STATE_RAMDISK : Z := 0x10.
Definition BOOTM_STATE_FDT : Z := 0x20.
Definition BOOTM_STATE_OS_CMDLINE : Z := 0x40.
Definition BOOTM_STATE_OS_BD_T : Z := 0x80.
Definition BOOTM_STATE_OS_PREP : Z := 0x100.
Definition BOOTM_STATE_OS_FAKE_GO : Z := 0x200.
Definition BOOTM_STATE_OS_GO : Z := 0x400.
Definition IH_OS_VXWORKS : Z := 14.
Definition IH_OS_U_BOOT : Z := 17.
Definition IH_TYPE_FLATDT : Z := 8.
Definition CONFIG_SYS_SDRAM_BASE : Z := 0x60000000.

(** The rest of [bootm_headers_t], the default load address and what has been set in the environment. *)
Record boot := MkBoot {
  hdrs : bootm_headers;
  rd_start : Z; rd_end : Z;
  ft_addr : Z; ft_len : Z;
  initrd_start : Z; initrd_end : Z;
  state : Z;
  env_out : list (list Z * Z)
}.

Definition set_hdrs (h : bootm_headers) (s : boot) : boot :=
  MkBoot h (rd_start s) (rd_end s) (ft_addr s) (ft_len s) (initrd_start s) (initrd_end s) (state s) (env_out s).
Definition set_state (x : Z) (s : boot) : boot :=
  MkBoot (hdrs s) (rd_start s) (rd_end s) (ft_addr s) (ft_len s) (initrd_start s) (initrd_end s) x (env_out s).
Definition set_rd (a b : Z) (s : boot) : boot :=
  MkBoot (hdrs s) a b (ft_addr s) (ft_len s) (initrd_start s) (initrd_end s) (state s) (env_out s).
Definition set_ft (a n : Z) (s : boot) : boot :=
  MkBoot (hdrs s) (rd_start s) (rd_end s) a n (initrd_start s) (initrd_end s) (state s) (env_out s).
Definition set_initrd (a b : Z) (s : boot) : boot :=
  MkBoot (hdrs s) (rd_start s) (rd_end s) (ft_addr s) (ft_len s) a b (state s) (env_out s).
Definition env_set_hex (n : list Z) (v : Z) (s : boot) : boot :=
  MkBoot (hdrs s) (rd_start s) (rd_end s) (ft_addr s) (ft_len s) (initrd_start s) (initrd_end s) (state s) (env_out s ++ [(n, v)]).

(** How a command ends: it returns, a program has been entered that does not return, the board is reset or hangs. *)
Inductive ans :=
| Ret (ret : Z) (m : mem) (s : boot)
| Entered (pc r0 r1 r2 : Z) (m : mem)
| Reset (m : mem)
| Hung.

Section Board.
(** The board: the stack copy of a header, [fdt_check_header] and [fdt_totalsize], [gunzip], the address of
    [images.legacy_hdr_os_copy], the stack pointer, [gd->bd], the revision, [load_addr] and the environment. *)
Context (header : Z) (fdt : mem -> Z -> Z) (fdt_totalsize : mem -> Z -> Z).
Context (gunzip : mem -> Z -> Z -> Z -> Z -> Z * Z * mem).
Context (hdr_copy sp : Z) (board : bd) (rev load_addr : Z) (env_get : list Z -> option (list Z)).
(** The fuel of multi-component images; a program entered with three registers, [None] if it does not return; a standalone
    program; [image_setup_linux] of libfdt; the other operating systems; the relocation of a device tree. *)
Context (fuel : nat) (enter : Z -> Z -> Z -> Z -> mem -> option mem) (appl : Z -> list (list Z) -> mem -> option mem).
Context (image_setup_linux : boot -> mem -> Z * mem) (other_os : Z -> option (Z -> list (list Z) -> mem -> boot -> option ans)).
Context (relocate_fdt : boot -> mem -> Z * mem * boot).

(** ** The environment *)

(** [env_get_yesno] *)
Definition env_get_yesno (n : list Z) : Z :=
  match env_get n with
  | None => -1
  | Some s => match s with c :: _ => if (c =? 49) || (c =? 121) || (c =? 89) || (c =? 116) || (c =? 84) then 1 else 0 | [] => 0 end
  end.

Definition env_hex (n : list Z) : option (option Z) :=
  match env_get n with None => Some None | Some s => '(v, _) ← Part.strtoul s 16; Some (Some v) end.

(** [env_get_bootm_low] *)
Definition env_get_bootm_low : option Z := v ← env_hex (lit "bootm_low"); Some (default CONFIG_SYS_SDRAM_BASE v).

(** [env_get_bootm_size] *)
Definition env_get_bootm_size : option Z :=
  v ← env_hex (lit "bootm_size");
  match v with
  | Some v => Some v
  | None =>
    '(start, size) ← head (bi_dram board);
    low ← env_hex (lit "bootm_low");
    Some (u32 (size - (default start low - start)))
  end.

(** [env_get_bootm_mapsize] *)
Definition env_get_bootm_mapsize : option Z :=
  v ← env_hex (lit "bootm_mapsize"); match v with Some v => Some v | None => env_get_bootm_size end.

(** ** Finding the images *)

(** The loop of [arch_lmb_reserve] over the banks. *)
Fixpoint reserve_stack (banks : list (Z * Z)) (sp : Z) (l : Lmb.lmb) : option Lmb.lmb :=
  match banks with
  | [] => Some l
  | (start, size) :: banks =>
    if sp <? start then reserve_stack banks sp l else
    let bank_end := u32 (start + size) in
    if bank_end <=? sp then reserve_stack banks sp l else
    '(_, l) ← Lmb.lmb_reserve l sp (bank_end - sp); Some l
  end.

(** [boot_start_lmb] *)
Definition boot_start_lmb : option Lmb.lmb :=
  mem_start ← env_get_bootm_low;
  mem_size ← env_get_bootm_size;
  '(_, l) ← Lmb.lmb_add (Lmb.lmb_init (Lmb.MkLmb Lmb.zeroed Lmb.zeroed)) mem_start mem_size;
  reserve_stack (bi_dram board) (u32 (sp - 4096)) l.

(** [bootm_start] *)
Definition bootm_start (s : boot) : option boot :=
  l ← boot_start_lmb;
  let h := Headers 0 hdr_copy false (Info 0 0 0 0 0 0 0 0 0) 0 (negb (env_get_yesno (lit "verify") =? 0)) l in
  Some (MkBoot h 0 0 0 0 0 0 BOOTM_STATE_START (env_out s)).

(** [genimg_get_kernel_addr_fit] without FIT images. *)
Definition genimg_get_kernel_addr (argv : list (list Z)) : option Z :=
  match argv with [] => Some load_addr | a :: _ => '(v, _) ← Part.strtoul a 16; Some v end.

(** [boot_get_ramdisk]: 0, or 1 for an error. *)
Definition boot_get_ramdisk (argv : list (list Z)) (m : mem) (s : boot) : option (Z * boot) :=
  let s := set_rd 0 0 s in
  let found data len := Some (0, if data =? 0 then s else set_rd data (u32 (data + len)) s) in
  match argv !! 1%nat with
  | Some select =>
    if bool_decide (select = lit "-") then found 0 0 else
    '(rd_addr, _) ← Part.strtoul select 16;
    if Image.genimg_get_format m (fdt m) rd_addr =? Image.IMAGE_FORMAT_LEGACY then
      hdr ← Image.image_get_ramdisk m header rd_addr Image.IH_ARCH_ARM (verify (hdrs s));
      match hdr with
      | None => Some (1, s)
      | Some hdr => found (Image.image_get_data hdr) (Image.image_get_data_size m hdr)
      end
    else
      match (Part.split_at 58 select).2 with
      | Some e => '(len, _) ← Part.strtoul e 16; found rd_addr len
      | None => Some (1, s)
      end
  | None =>
    if legacy_hdr_valid (hdrs s) && Image.image_check_type m (legacy_hdr_os_copy (hdrs s)) Image.IH_TYPE_MULTI then
      '(d, n) ← Image.image_multi_getimg fuel m (legacy_hdr_os (hdrs s)) 1; found d n
    else found 0 0
  end.

(** [image_get_fdt] *)
Definition image_get_fdt (m : mem) (fdt_addr : Z) : option (option Z) :=
  hc ← Image.image_check_hcrc m header fdt_addr;
  if negb hc then Some None else
  dc ← Image.image_check_dcrc m fdt_addr;
  if negb dc then Some None else
  if negb (Image.image_check_type m fdt_addr IH_TYPE_FLATDT) then Some None else
  if negb (Image.image_get_comp m fdt_addr =? Image.IH_COMP_NONE) then Some None else
  if negb (fdt m (Image.image_get_data fdt_addr) =? 0) then Some None else Some (Some fdt_addr).

(** [boot_get_fdt]: 0, or 1 for an error. *)
Definition boot_get_fdt (argv : list (list Z)) (m : mem) (s : boot) : option (Z * mem * boot) :=
  let none m ret := Some (ret, m, set_ft 0 0 s) in
  let blob m a := Some (0, m, set_ft a (fdt_totalsize m a) s) in
  match argv !! 2%nat with
  | Some select =>
    '(fdt_addr, _) ← Part.strtoul select 16;
    let fmt := Image.genimg_get_format m (fdt m) fdt_addr in
    if fmt =? Image.IMAGE_FORMAT_LEGACY then
      hdr ← image_get_fdt m fdt_addr;
      match hdr with
      | None => none m 1
      | Some hdr =>
        let image_data := Image.image_get_data hdr in
        let load := Image.image_get_load m hdr in
        let load_end := u32 (load + Image.image_get_data_size m hdr) in
        if (load =? hdr) || (load =? image_data) then blob m load else
        if (load <? Image.image_get_image_end m hdr) && (hdr <? load_end) then none m 1 else
        blob (CString.memmove m load image_data (Image.image_get_data_size m hdr)).2 load
      end
    else if fmt =? Image.IMAGE_FORMAT_FIT then blob m fdt_addr else none m 1
  | None =>
    if legacy_hdr_valid (hdrs s) && Image.image_check_type m (legacy_hdr_os_copy (hdrs s)) Image.IH_TYPE_MULTI then
      '(d, n) ← Image.image_multi_getimg fuel m (legacy_hdr_os (hdrs s)) 2;
      if n =? 0 then none m 0 else
      if negb (fdt m d =? 0) then none m 1 else
      if negb (fdt_totalsize m d =? n) then none m 1 else blob m d
    else none m 0
  end.

(** [bootm_find_images] *)
Definition bootm_find_images (argv : list (list Z)) (m : mem) (s : boot) : option (Z * mem * boot) :=
  '(ret, s) ← boot_get_ramdisk argv m s;
  if negb (ret =? 0) then Some (1, m, s) else
  '(ret, m, s) ← boot_get_fdt argv m s;
  Some (if negb (ret =? 0) then 1 else 0, m, s).

(** [bootm_find_other] *)
Definition bootm_find_other (argv : list (list Z)) (m : mem) (s : boot) : option (Z * mem * boot) :=
  let i := os_info (hdrs s) in
  if ((type i =? Image.IH_TYPE_KERNEL) || (type i =? Image.IH_TYPE_KERNEL_NOLOAD) || (type i =? Image.IH_TYPE_MULTI)) &&
     ((os i =? Image.IH_OS_LINUX) || (os i =? IH_OS_VXWORKS))
  then bootm_find_images argv m s else Some (0, m, s).

(** [boot_ramdisk_high] and the variables set after it. *)
Definition boot_ramdisk_high (m : mem) (s : boot) : option (Z * mem * boot) :=
  let rd_data := rd_start s in
  let rd_len := u32 (rd_end s - rd_start s) in
  v ← env_hex (lit "initrd_high");
  '(initrd_high, copy) ← match v with
    | Some v => Some (v, negb (v =? 0xffffffff))
    | None => a ← env_get_bootm_mapsize; b ← env_get_bootm_low; Some (u32 (a + b), true)
    end;
  let publish m s := Some (0, m, env_set_hex (lit "initrd_end") (initrd_end s) (env_set_hex (lit "initrd_start") (initrd_start s) s)) in
  if rd_data =? 0 then publish m (set_initrd 0 0 s) else
  if negb (copy : bool) then
    '(_, l) ← Lmb.lmb_reserve (lmb (hdrs s)) rd_data rd_len;
    publish m (set_initrd rd_data (u32 (rd_data + rd_len)) (set_hdrs (set_lmb (hdrs s) l) s))
  else
    '(a, l) ← (if negb (initrd_high =? 0) then Lmb.lmb_alloc_base (lmb (hdrs s)) rd_len 0x1000 initrd_high
               else Lmb.lmb_alloc (lmb (hdrs s)) rd_len 0x1000);
    let s := set_hdrs (set_lmb (hdrs s) l) s in
    if a =? 0 then Some (-1, m, set_initrd 0 (initrd_end s) s) else
    publish (Image.memmove_wd m a rd_data rd_len Image.CHUNKSZ) (set_initrd a (u32 (a + rd_len)) s).

(** ** Starting a program *)

(** [boot_prep_linux]; [inl] when it hangs. *)
Definition boot_prep_linux (m : mem) (s : boot) : option mem :=
  if negb (ft_len s =? 0) then
    let '(err, m) := image_setup_linux s m in if negb (err =? 0) then None else Some m
  else Some (write_tags board (env_get (lit "bootargs")) rev (initrd_of (initrd_start s) (initrd_end s) (rd_start s) (rd_end s)) m).

(** [boot_jump_linux] *)
Definition boot_jump_linux (flag : Z) (m : mem) (s : boot) : option ans :=
  machid ← match env_get (lit "machid") with
    | None => Some (Some (bi_arch_number board))
    | Some t =>
      '(err, v) ← Strto.strict_strtoul (mem_of 0 (t ++ [0])) (S (length t)) 0 16;
      Some (if err <? 0 then None else Some v)
    end;
  match machid with
  | None => Some (Ret 0 m s)
  | Some machid =>
    let r2 := if negb (ft_len s =? 0) then ft_addr s else bi_boot_params board in
    if Z.land flag BOOTM_STATE_OS_FAKE_GO =? 0 then
      match enter (ep (hdrs s)) 0 machid r2 m with
      | None => Some (Entered (ep (hdrs s)) 0 machid r2 m)
      | Some m => Some (Ret 0 m s)
      end
    else Some (Ret 0 m s)
  end.

(** [do_bootm_linux] *)
Definition do_bootm_linux (flag : Z) (argv : list (list Z)) (m : mem) (s : boot) : option ans :=
  if negb (Z.land flag BOOTM_STATE_OS_BD_T =? 0) || negb (Z.land flag BOOTM_STATE_OS_CMDLINE =? 0) then Some (Ret (-1) m s) else
  if negb (Z.land flag BOOTM_STATE_OS_PREP =? 0) then
    Some (match boot_prep_linux m s with None => Hung | Some m => Ret 0 m s end) else
  if negb (Z.land flag (Z.lor BOOTM_STATE_OS_GO BOOTM_STATE_OS_FAKE_GO) =? 0) then boot_jump_linux flag m s else
  match boot_prep_linux m s with None => Some Hung | Some m => boot_jump_linux flag m s end.

(** [do_bootm_standalone] *)
Definition do_bootm_standalone (flag : Z) (argv : list (list Z)) (m : mem) (s : boot) : option ans :=
  if bool_decide (env_get (lit "autostart") = Some (lit "no")) then
    Some (Ret 0 m (env_set_hex (lit "filesize") (image_len (os_info (hdrs s))) s))
  else match appl (ep (hdrs s)) argv m with
       | None => Some (Entered (ep (hdrs s)) (Z.of_nat (length argv)) 0 0 m)
       | Some m => Some (Ret 0 m s)
       end.

Definition boot_os_fn := Z -> list (list Z) -> mem -> boot -> option ans.

(** [boot_os] as the board is configured: the last entry is that of Plan 9. *)
Definition boot_os_size : Z := 24.
Definition bootm_os_get_boot_func (n : Z) : option (option boot_os_fn) :=
  if (n <? 0) || (boot_os_size <=? n) then None else
  if n =? IH_OS_U_BOOT then Some (Some do_bootm_standalone) else
  if n =? Image.IH_OS_LINUX then Some (Some do_bootm_linux) else Some (other_os n).

(** [boot_selected_os] *)
Definition boot_selected_os (argv : list (list Z)) (st : Z) (boot_fn : boot_os_fn) (m : mem) (s : boot) : option ans :=
  a ← boot_fn st argv m s;
  match a with
  | Ret _ m s => Some (Ret (if (type (os_info (hdrs s)) =? Image.IH_TYPE_STANDALONE) || (st =? BOOTM_STATE_OS_FAKE_GO) then 0 else BOOTM_ERR_RESET) m s)
  | a => Some a
  end.

Definition has (states x : Z) : bool := negb (Z.land states x =? 0).

(** The steps of [do_bootm_states] up to the choice of the operating system: what they return, and whether
    the error path is taken at once. *)
Definition prepare (argv : list (list Z)) (states : Z) (m : mem) (s : boot) : option (Z * bool * mem * boot) :=
  let s := set_state (Z.lor (state s) states) s in
  s ← (if has states BOOTM_STATE_START then bootm_start s else Some s);
  '(ret, m, s) ←
    (if has states BOOTM_STATE_FINDOS then
       addr ← genimg_get_kernel_addr argv;
       '(ret, m, h) ← bootm_find_os header fdt fuel m addr (hdrs s); Some (ret, m, set_hdrs h s)
     else Some (0, m, s));
  '(ret, m, s) ← (if (ret =? 0) && has states BOOTM_STATE_FINDOTHER then bootm_find_other argv m s else Some (ret, m, s));
  '(ret, failed, m, s) ←
    (if (ret =? 0) && has states BOOTM_STATE_LOADOS then
       '(ret, m, h) ← bootm_load_os gunzip m (hdrs s);
       Some (if ret =? BOOTM_ERR_OVERLAP then 0 else ret, negb (ret =? 0) && negb (ret =? BOOTM_ERR_OVERLAP), m, set_hdrs h s)
     else Some (ret, false, m, s));
  if failed : bool then Some (ret, true, m, s) else
  '(ret, m, s) ← (if (ret =? 0) && has states BOOTM_STATE_RAMDISK then boot_ramdisk_high m s else Some (ret, m, s));
  Some (if (ret =? 0) && has states BOOTM_STATE_FDT then let '(ret, m, s) := relocate_fdt s m in (ret, false, m, s) else (ret, false, m, s)).

(** What follows the label [err]. *)
Definition fallout (ret : Z) (m : mem) (s : boot) : ans := if ret =? BOOTM_ERR_RESET then Reset m else Ret ret m s.

(** A state of the operating system, if it is asked for and nothing has failed. *)
Definition os_state (argv : list (list Z)) (states x : Z) (boot_fn : option boot_os_fn) (a : ans) : option ans :=
  match a with
  | Ret ret m s =>
    if (ret =? 0) && has states x then match boot_fn with Some f => f x argv m s | None => Some a end else Some a
  | _ => Some a
  end.

(** [do_bootm_states] *)
Definition do_bootm_states (argv : list (list Z)) (states : Z) (m : mem) (s : boot) : option ans :=
  '(ret, failed, m, s) ← prepare argv states m s;
  if failed : bool then Some (fallout ret m s) else
  if negb (ret =? 0) then Some (Ret ret m s) else
  boot_fn ← bootm_os_get_boot_func (os (os_info (hdrs s)));
  let need := Z.lor BOOTM_STATE_OS_CMDLINE (Z.lor BOOTM_STATE_OS_BD_T (Z.lor BOOTM_STATE_OS_PREP (Z.lor BOOTM_STATE_OS_FAKE_GO BOOTM_STATE_OS_GO))) in
  match boot_fn with
  | None => if has states need then Some (Ret 1 m s) else Some (Ret 0 m s)
  | Some f =>
    a ← os_state argv states BOOTM_STATE_OS_CMDLINE boot_fn (Ret 0 m s);
    a ← os_state argv states BOOTM_STATE_OS_BD_T boot_fn a;
    a ← os_state argv states BOOTM_STATE_OS_PREP boot_fn a;
    match a with
    | Ret ret m s =>
      if negb (ret =? 0) then Some (Ret ret m s) else
      if has states BOOTM_STATE_OS_GO then
        a ← boot_selected_os argv BOOTM_STATE_OS_GO f m s;
        match a with Ret ret m s => Some (fallout ret m s) | a => Some a end
      else Some (fallout 0 m s)
    | a => Some a
    end
  end.

(** ** The command *)

(** An entry of [cmd_bootm_sub]: the command is the state. *)
Definition sub (n : string) (st : Z) : cmd_tbl unit :=
  {| name := lit n; maxargs := 0; repeatable := 1; cmd := fun _ _ u => Some (st, u); usage := Some []; help := Some []; complete := None |}.
Definition cmd_bootm_sub : list (cmd_tbl unit) :=
  [sub "start" BOOTM_STATE_START; sub "loados" BOOTM_STATE_LOADOS; sub "ramdisk" BOOTM_STATE_RAMDISK; sub "fdt" BOOTM_STATE_FDT;
   sub "cmdline" BOOTM_STATE_OS_CMDLINE; sub "bdt" BOOTM_STATE_OS_BD_T; sub "prep" BOOTM_STATE_OS_PREP; sub "fake" BOOTM_STATE_OS_FAKE_GO;
   sub "go" BOOTM_STATE_OS_GO].

(** [do_bootm_subcommand] *)
Definition do_bootm_subcommand (argv : list (list Z)) (m : mem) (s : boot) : option ans :=
  a ← head argv;
  match find_cmd_tbl a cmd_bootm_sub with
  | None => Some (Ret CMD_RET_USAGE m s)
  | Some c =>
    '(st, _) ← cmd c 0 [] tt;
    let st := if st =? BOOTM_STATE_START then Z.lor st (Z.lor BOOTM_STATE_FINDOS BOOTM_STATE_FINDOTHER) else st in
    if negb (Z.land st BOOTM_STATE_START =? BOOTM_STATE_START) && (st <=? state s) then Some (Ret CMD_RET_USAGE m s)
    else do_bootm_states (tail argv) st m s
  end.

(** The states of a whole [bootm]. *)
Definition all_states : Z := Eval vm_compute in
  Z.lor BOOTM_STATE_START (Z.lor BOOTM_STATE_FINDOS (Z.lor BOOTM_STATE_FINDOTHER (Z.lor BOOTM_STATE_LOADOS (Z.lor BOOTM_STATE_RAMDISK
    (Z.lor BOOTM_STATE_OS_PREP (Z.lor BOOTM_STATE_OS_FAKE_GO BOOTM_STATE_OS_GO)))))).

(** [do_bootm]; [argv] with the name of the command. *)
Definition do_bootm (argv : list (list Z)) (m : mem) (s : boot) : option ans :=
  match tail argv with
  | a :: args =>
    '(_, endp) ← Part.strtoul a 16;
    match endp with
    | c :: _ => if negb (c =? 58) && negb (c =? 35) then do_bootm_subcommand (a :: args) m s else do_bootm_states (a :: args) all_states m s
    | [] => do_bootm_states (a :: args) all_states m s
    end
  | [] => do_bootm_states [] all_states m s
  end.

(** [bootm_maybe_autostart] *)
Definition bootm_maybe_autostart (cmdname : list Z) (m : mem) (s : boot) : option ans :=
  if bool_decide (env_get (lit "autostart") = Some (lit "yes")) then do_bootm [cmdname] m s else Some (Ret 0 m s).

(** ** A kernel is started *)

(** The headers after [bootm_start]. *)
Definition fresh (l : Lmb.lmb) : bootm_headers :=
  Headers 0 hdr_copy false (Info 0 0 0 0 0 0 0 0 0) 0 (negb (env_get_yesno (lit "verify") =? 0)) l.

(** Variables that change where things are put are not set, and the banks of memory are known. *)
Record plain : Prop := {
  pe_machid : env_get (lit "machid") = None;
  pe_initrd : env_get (lit "initrd_high") = None;
  pe_low : env_get (lit "bootm_low") = None;
  pe_size : env_get (lit "bootm_size") = None;
  pe_mapsize : env_get (lit "bootm_mapsize") = None;
  pe_banks : bi_dram board <> []
}.

(** An image of a Linux kernel, which the chapters' programs pretend to be. *)
Definition kernel (params : Image.image_tool_params) : Prop :=
  bootable params /\ Image.p_type params = Image.IH_TYPE_KERNEL /\ Image.p_os params = Image.IH_OS_LINUX.

Lemma env_hex_unset n : env_get n = None -> env_hex n = Some None.
Proof. intros H. unfold env_hex. by rewrite H. Qed.

(** Neither a ramdisk nor a device tree is named, and the image is not a multi-component one. *)
Lemma find_other_none a m s : type (os_info (hdrs s)) = Image.IH_TYPE_KERNEL -> os (os_info (hdrs s)) = Image.IH_OS_LINUX ->
  Image.image_get_type m (legacy_hdr_os_copy (hdrs s)) = Image.IH_TYPE_KERNEL ->
  bootm_find_other [a] m s = Some (0, m, set_ft 0 0 (set_rd 0 0 s)).
Proof.
  intros Ht Ho Hc. unfold bootm_find_other. rewrite Ht, Ho. cbn [Z.eqb Pos.eqb orb andb Image.IH_TYPE_KERNEL Image.IH_OS_LINUX].
  unfold bootm_find_images, boot_get_ramdisk, boot_get_fdt, Image.image_check_type. cbn [lookup list_lookup].
  cbn [set_rd hdrs]. rewrite Hc. cbn [Z.eqb Pos.eqb Image.IH_TYPE_KERNEL Image.IH_TYPE_MULTI]. rewrite andb_false_r. cbn [mbind option_bind Z.eqb negb hdrs set_rd].
  rewrite Hc. cbn [Z.eqb Pos.eqb Image.IH_TYPE_KERNEL Image.IH_TYPE_MULTI]. rewrite andb_false_r. reflexivity.
Qed.

(** Without a ramdisk none is moved. *)
Lemma ramdisk_high_none m s : plain -> rd_start s = 0 -> exists s', boot_ramdisk_high m s = Some (0, m, s') /\
  hdrs s' = hdrs s /\ rd_start s' = 0 /\ initrd_start s' = 0 /\ ft_len s' = ft_len s.
Proof.
  intros [_ Hi Hl Hz Hm Hb] Hr. unfold boot_ramdisk_high, env_get_bootm_mapsize, env_get_bootm_size, env_get_bootm_low.
  rewrite !env_hex_unset by done. cbn [mbind option_bind]. destruct (bi_dram board) as [|[b n] bs] eqn:E; [done|]. cbn [head mbind option_bind].
  rewrite Hr. cbn [Z.eqb]. eexists. split; [reflexivity|]. cbn. auto.
Qed.

(** Up to the choice of the operating system, a whole [bootm] of a good kernel finds and moves it. *)
Lemma prepare_good a img size params l m s : Part.strtoul a 16 = Some (img, []) -> plain -> boot_start_lmb = Some l ->
  Image.good_image m img size params -> Image.ok_params params -> kernel params -> placed header (fresh l) img size ->
  0 < size <= CONFIG_SYS_BOOTM_LEN -> Image.p_addr params + size < 2 ^ 32 -> room (fresh l) img size (Image.p_addr params) ->
  exists m' s', prepare [a] all_states m s = Some (0, false, m', s') /\
    bytes m' (Image.p_addr params) (Z.to_nat size) = bytes m (img + 64) (Z.to_nat size) /\
    ep (hdrs s') = Image.p_ep params /\ os (os_info (hdrs s')) = Image.IH_OS_LINUX /\
    rd_start s' = 0 /\ initrd_start s' = 0 /\ ft_len s' = 0.
Proof.
  intros Ha Hpl Hl Hg Hok (Hb & Ht & Ho) Hp Hs Hend Hroom.
  destruct (bootm_find_os_good header fdt fuel m img size params (fresh l) Hg Hb ltac:(lia) Hp) as (m1 & h1 & E1 & Hfr & Hos & Hep & Hv & Hlm & Hct).
  destruct (bootm_load_os_good gunzip m1 h1 img size _ _ _ _ Hos Hv Hs) as (ret & m2 & l2 & E2 & Hret & Hmv & _);
    [apply (Image.ok_addr _ Hok)|exact Hend|unfold room; rewrite Hlm; exact Hroom|].
  unfold prepare, bootm_start, genimg_get_kernel_addr. rewrite Hl, Ha.
  repeat match goal with |- context [has all_states ?x] => let b := eval vm_compute in (has all_states x) in change (has all_states x) with b end.
  cbn [mbind option_bind hdrs set_state]. fold (fresh l). rewrite E1. cbn [mbind option_bind Z.eqb andb].
  rewrite find_other_none; [|by cbn; rewrite Hos|by cbn; rewrite Hos|cbn; by rewrite Hct]. cbn [mbind option_bind Z.eqb andb hdrs set_hdrs set_ft set_rd].
  rewrite E2. cbn [mbind option_bind].
  replace (negb (ret =? 0) && negb (ret =? BOOTM_ERR_OVERLAP)) with false by (unfold BOOTM_ERR_OVERLAP in *; lia).
  replace (if ret =? BOOTM_ERR_OVERLAP then 0 else ret) with 0 by (destruct Hret as [-> | ->]; reflexivity). cbn [Z.eqb andb].
  match goal with |- context [boot_ramdisk_high m2 ?s2] => destruct (ramdisk_high_none m2 s2 Hpl eq_refl) as (s3 & E3 & Hh & Hr & Hi & Hf) end.
  rewrite E3. cbn [mbind option_bind Z.eqb andb]. do 2 eexists. split; [reflexivity|]. rewrite Hh, Hr, Hi, Hf. cbn [hdrs set_hdrs set_lmb ep os_info ft_len set_ft]. rewrite Hos. split_and!; auto.
  rewrite (CString.moved_bytes _ _ _ _ _ _ Hmv) by lia. apply bytes_ext. intros x Hx. apply Hfr. lia.
Qed.

(** The tags of such a start. *)
Definition start_tags : list tag := tags_of board (env_get (lit "bootargs")) rev None.

(** The preparation writes the tags, the start enters the program. *)
Lemma linux_prep argv m s : ft_len s = 0 -> rd_start s = 0 -> initrd_start s = 0 ->
  do_bootm_linux BOOTM_STATE_OS_PREP argv m s = Some (Ret 0 (write_tags board (env_get (lit "bootargs")) rev None m) s).
Proof. intros Hf Hr Hi. unfold do_bootm_linux, boot_prep_linux. rewrite Hf, Hr, Hi. reflexivity. Qed.

Lemma linux_go argv m s : ft_len s = 0 -> env_get (lit "machid") = None ->
  enter (ep (hdrs s)) 0 (bi_arch_number board) (bi_boot_params board) m = None ->
  do_bootm_linux BOOTM_STATE_OS_GO argv m s = Some (Entered (ep (hdrs s)) 0 (bi_arch_number board) (bi_boot_params board) m).
Proof.
  intros Hf Hm He. unfold do_bootm_linux, boot_jump_linux. rewrite Hf, Hm. cbn [Z.eqb negb mbind option_bind].
  repeat match goal with |- context [Z.land ?x ?y] => let b := eval vm_compute in (Z.land x y) in change (Z.land x y) with b end.
  cbn [Z.eqb negb orb]. by rewrite He.
Qed.

(** The program is entered after the tags have been written. *)
Lemma states_enter argv m m1 s s1 : plain ->
  prepare argv all_states m s = Some (0, false, m1, s1) ->
  os (os_info (hdrs s1)) = Image.IH_OS_LINUX -> rd_start s1 = 0 -> initrd_start s1 = 0 -> ft_len s1 = 0 ->
  (forall m', enter (ep (hdrs s1)) 0 (bi_arch_number board) (bi_boot_params board) m' = None) ->
  do_bootm_states argv all_states m s =
    Some (Entered (ep (hdrs s1)) 0 (bi_arch_number board) (bi_boot_params board) (write_tags board (env_get (lit "bootargs")) rev None m1)).
Proof.
  intros [Hm _ _ _ _ _] Hp Ho Hr Hi Hft Hen. unfold do_bootm_states. rewrite Hp. cbn [mbind option_bind Z.eqb negb]. rewrite Ho.
  change (bootm_os_get_boot_func Image.IH_OS_LINUX) with (Some (Some do_bootm_linux)). cbn [mbind option_bind].
  unfold os_state, boot_selected_os.
  repeat match goal with |- context [has all_states ?x] => let b := eval vm_compute in (has all_states x) in change (has all_states x) with b end.
  cbn [Z.eqb andb mbind option_bind]. rewrite linux_prep by done. cbn [Z.eqb negb mbind option_bind]. rewrite linux_go by auto. reflexivity.
Qed.

(** What [bootm] with the address [a] of a good kernel image asks for. *)
Record startable (a : list Z) (img size : Z) (params : Image.image_tool_params) (l : Lmb.lmb) (m : mem) : Prop := {
  sa_addr : Part.strtoul a 16 = Some (img, []);
  sa_env : plain;
  sa_lmb : boot_start_lmb = Some l;
  sa_image : Image.good_image m img size params;
  sa_params : Image.ok_params params;
  sa_kernel : kernel params;
  sa_placed : placed header (fresh l) img size;
  sa_size : 0 < size <= CONFIG_SYS_BOOTM_LEN;
  sa_end : Image.p_addr params + size < 2 ^ 32;
  sa_room : room (fresh l) img size (Image.p_addr params);
  sa_tags : tags_fit board (env_get (lit "bootargs")) rev None;
  sa_enter : forall m', enter (Image.p_ep params) 0 (bi_arch_number board) (bi_boot_params board) m' = None
}.

Lemma bootm_enters name a img size params l m s : startable a img size params l m ->
  exists m1, do_bootm [name; a] m s = Some (Entered (Image.p_ep params) 0 (bi_arch_number board) (bi_boot_params board)
    (write_tags board (env_get (lit "bootargs")) rev None m1)) /\
    bytes m1 (Image.p_addr params) (Z.to_nat size) = bytes m (img + 64) (Z.to_nat size).
Proof.
  intros [Ha Hpl Hl Hg Hok Hk Hp Hs Hend Hroom Hf Hen].
  destruct (prepare_good a img size params l m s) as (m1 & s1 & E & Hb & Hep & Ho & Hr & Hi & Hft); auto.
  pose proof (states_enter [a] m m1 s s1 Hpl E Ho Hr Hi Hft) as Hst. rewrite Hep in Hst. specialize (Hst Hen).
  exists m1. split; [|done]. unfold do_bootm. cbn [tail]. rewrite Ha. cbn [mbind option_bind]. exact Hst.
Qed.

(** [bootm] with the address of an image that mkimage made of a kernel starts the program: it is entered at the entry
    point of the header with 0, the number of the machine and the address of the tags in the first three registers; the
    tags read back as the description of the machine, and the bytes of the program are at the load address, except
    where the list of tags lies. *)
Theorem bootm_starts name a img size params l m s : startable a img size params l m ->
  exists m', do_bootm [name; a] m s = Some (Entered (Image.p_ep params) 0 (bi_arch_number board) (bi_boot_params board) m') /\
    read_tags (S (length start_tags)) m' (bi_boot_params board) = Some start_tags /\
    forall i, 0 <= i < size ->
      Image.p_addr params + i < bi_boot_params board \/ bi_boot_params board + tags_bytes start_tags + 8 <= Image.p_addr params + i ->
      ld m' (Image.p_addr params + i) = ld m (img + 64 + i).
Proof.
  intros Hst. destruct (bootm_enters name a img size params l m s Hst) as (m1 & E & Hb). pose proof (sa_tags _ _ _ _ _ _ Hst) as Hf.
  destruct (write_tags_spec board (env_get (lit "bootargs")) rev None m1 Hf) as (Ht & Hz & Hw). eexists. split; [exact E|]. split.
  - apply read_tags_found; [apply Hf|destruct Hf; unfold start_tags; lia|exact Ht|exact Hz].
  - intros i Hi Hout. rewrite Hw by exact Hout. apply (proj1 (bytes_eq_nth _ _ _ _ _) Hb). lia.
Qed.

(** A program that reaches over the address of the tags is entered with its bytes there replaced: the first word is the
    size of the core tag. *)
Theorem bootm_tags_overwrite name a img size params l m s : startable a img size params l m ->
  Image.p_addr params <= bi_boot_params board -> bi_boot_params board + 4 <= Image.p_addr params + size ->
  exists m', do_bootm [name; a] m s = Some (Entered (Image.p_ep params) 0 (bi_arch_number board) (bi_boot_params board) m') /\
    ld32 m' (Image.p_addr params + (bi_boot_params board - Image.p_addr params)) = 5.
Proof.
  intros Hst _ _. destruct (bootm_enters name a img size params l m s Hst) as (m1 & E & Hb). eexists. split; [exact E|].
  destruct (write_tags_spec board (env_get (lit "bootargs")) rev None m1 (sa_tags _ _ _ _ _ _ Hst)) as (Ht & _ & _).
  destruct Ht as [ [Hs _] _]. cbn [tag_bytes] in Hs. replace (Image.p_addr params + _) with (bi_boot_params board) by lia. lia.
Qed.

(** C8: A corrupted image is not started: when one byte of an image that mkimage made is changed, in its header, or in its
    data while the environment does not turn verification off (a variable verify whose value starts with none of 1, y, Y,
    t and T), [bootm] of its address returns 1; nothing is loaded, no tags are written and the memory is as it was.  The
    image lies below 4 GiB and apart from the two copies of the header that [bootm] keeps. *)
Theorem bootm_refuses name a img size params l m s x v : Part.strtoul a 16 = Some (img, []) -> boot_start_lmb = Some l ->
  Image.good_image m img size params -> 0 <= size -> placed header (fresh l) img size ->
  img <= x < img + 64 + size -> u8 v <> ld m x -> env_get_yesno (lit "verify") <> 0 \/ x < img + 64 ->
  exists s', do_bootm [name; a] (st m x v) s = Some (Ret 1 (st m x v) s') /\ hdrs s' = set_data (fresh l) 0 0.
Proof.
  intros Ha Hl Hg Hs [H0 He Hd Hcp] Hx Hne Hv. destruct (Image.good_image_checks m header img size params Hg Hd H0 ltac:(lia)) as (_ & C2 & C3).
  assert (bootm_find_os header fdt fuel (st m x v) img (fresh l) = Some (1, st m x v, set_data (fresh l) 0 0)) as E.
  { apply bootm_find_os_null; auto; [lia|]. right.
    destruct (Image.corruption_detected m header img x v) as [ [_ H]|[Hx' H] ]; auto; [lia|by rewrite (Image.gi_size _ _ _ _ Hg)|].
    right. split; [|exact H]. destruct Hv as [Hv|Hv]; [|lia]. unfold fresh. cbn [verify]. by rewrite (proj2 (Z.eqb_neq _ _) Hv). }
  eexists. split; [unfold do_bootm; cbn [tail]; rewrite Ha; cbn [mbind option_bind]; unfold do_bootm_states, prepare, bootm_start, genimg_get_kernel_addr; rewrite Hl, Ha|].
  - repeat match goal with |- context [has all_states ?x] => let b := eval vm_compute in (has all_states x) in change (has all_states x) with b end.
    cbn [mbind option_bind hdrs set_state]. fold (fresh l). rewrite E. reflexivity.
  - reflexivity.
Qed.

(** A subcommand other than [start] that is not later than the last one is refused, and nothing has changed. *)
Theorem subcommand_order a args m s c : find_cmd_tbl a cmd_bootm_sub = Some c -> name c <> lit "start" ->
  (forall st u, cmd c 0 [] tt = Some (st, u) -> st <= state s) ->
  do_bootm_subcommand (a :: args) m s = Some (Ret CMD_RET_USAGE m s).
Proof.
  intros Hc Hn Hst. unfold do_bootm_subcommand. cbn [head mbind option_bind]. rewrite Hc.
  assert (c ∈ cmd_bootm_sub) as Hin by (by eapply find_cmd_in).
  assert (exists st, cmd c 0 [] tt = Some (st, tt) /\ Z.land st BOOTM_STATE_START = 0) as (st & E & Hl).
  { unfold cmd_bootm_sub in Hin. rewrite !elem_of_cons in Hin. destruct Hin as [-> | Hin]; [done|].
    repeat destruct Hin as [-> | Hin]; try (eexists; split; reflexivity). by apply elem_of_nil in Hin. }
  rewrite E. cbn [mbind option_bind]. specialize (Hst _ _ E).
  assert (st <> BOOTM_STATE_START) as Hne by (intros ->; vm_compute in Hl; done).
  rewrite (proj2 (Z.eqb_neq _ _) Hne), Hl. replace (st <=? state s) with true by lia. reflexivity.
Qed.

End Board.

(** ** The chapters' program *)

Definition no_env : list Z -> option (list Z) := fun _ => None.
Definition never : Z -> Z -> Z -> Z -> mem -> option mem := fun _ _ _ _ _ => None.

(** The board of the chapters, with an empty environment. *)
Lemma vexpress_startable size m : 0 < size <= CONFIG_SYS_BOOTM_LEN -> Image.good_image m 0x60000000 size Image.bare_arm_params -> exists l,
  startable 0x67000000 0x67000040 0x7fdff000 vexpress_bd 0 no_env never (lit "0x60000000") 0x60000000 size Image.bare_arm_params l m.
Proof.
  unfold CONFIG_SYS_BOOTM_LEN. intros Hs Hg. assert (exists l, boot_start_lmb 0x7fdff000 vexpress_bd no_env = Some l) as [l Hl] by (eexists; vm_compute; reflexivity).
  exists l. split; auto.
  - split; done.
  - apply Image.bare_arm_ok.
  - split; [apply bare_arm_bootable|split; reflexivity].
  - split; cbn; unfold Image.disjoint64; lia.
  - cbn. lia.
  - left. unfold overlapping. cbn. lia.
  - apply vexpress_tags_fit; [done|unfold in_range; lia].
Qed.

Lemma bootm_starts_witness : exists m m', bytes m 0x60000040 3 = [1; 2; 3] /\
  do_bootm 0x67000000 (fun _ _ => -9) (fun _ _ => 0) (fun m _ _ _ _ => (-1, 0, m)) 0x67000040 0x7fdff000 vexpress_bd 0 0 no_env 1 never
    (fun _ _ _ => None) (fun _ m => (0, m)) (fun _ => None) (fun s m => (0, m, s))
    [lit "bootm"; lit "0x60000000"] m (MkBoot boot_headers 0 0 0 0 0 0 0 []) =
    Some (Entered 0x60000000 0 2272 0x60002000 m') /\
  ld m' 0x60000001 = 2 /\ read_tags 5 m' 0x60002000 = Some [Core 0 0 0; Revision 0; Mem 0x60000000 0x20000000; Mem 0x80000000 0x20000000].
Proof.
  destruct bare_arm_image as (m & Hg & Hb). destruct (vexpress_startable 3 m ltac:(unfold CONFIG_SYS_BOOTM_LEN; lia) Hg) as (l & Hst).
  destruct (bootm_starts 0x67000000 (fun _ _ => -9) (fun _ _ => 0) (fun m _ _ _ _ => (-1, 0, m)) 0x67000040 0x7fdff000 vexpress_bd 0 0 no_env 1 never
    (fun _ _ _ => None) (fun _ m => (0, m)) (fun _ => None) (fun s m => (0, m, s)) (lit "bootm") (lit "0x60000000") 0x60000000 3 Image.bare_arm_params l m
    (MkBoot boot_headers 0 0 0 0 0 0 0 []) Hst) as (m' & E & Ht & Hd).
  exists m, m'. split_and!; [exact Hb|exact E| |exact Ht].
  transitivity (ld m (0x60000000 + 64 + 1)); [apply (Hd 1); cbn; lia|]. cbn [bytes] in Hb. injection Hb as _ Hb _. exact Hb.
Defined.

Lemma bootm_refuses_witness : exists m s', bytes m 0x60000040 3 = [1; 2; 3] /\
  do_bootm 0x67000000 (fun _ _ => -9) (fun _ _ => 0) (fun m _ _ _ _ => (-1, 0, m)) 0x67000040 0x7fdff000 vexpress_bd 0 0 no_env 1 never
    (fun _ _ _ => None) (fun _ m => (0, m)) (fun _ => None) (fun s m => (0, m, s))
    [lit "bootm"; lit "0x60000000"] (st m 0x60000041 7) (MkBoot boot_headers 0 0 0 0 0 0 0 []) = Some (Ret 1 (st m 0x60000041 7) s').
Proof.
  destruct bare_arm_image as (m & Hg & Hb). destruct (vexpress_startable 3 m ltac:(unfold CONFIG_SYS_BOOTM_LEN; lia) Hg) as (l & Hst).
  destruct (bootm_refuses 0x67000000 (fun _ _ => -9) (fun _ _ => 0) (fun m _ _ _ _ => (-1, 0, m)) 0x67000040 0x7fdff000 vexpress_bd 0 0 no_env 1 never
    (fun _ _ _ => None) (fun _ m => (0, m)) (fun _ => None) (fun s m => (0, m, s)) (lit "bootm") (lit "0x60000000") 0x60000000 3 Image.bare_arm_params l m
    (MkBoot boot_headers 0 0 0 0 0 0 0 []) 0x60000041 7) as (s' & E & _);
    [apply Hst|apply Hst|exact Hg|lia|apply Hst|lia| |left; cbn; lia|exists m, s'; split; [exact Hb|exact E] ].
  cbn [bytes] in Hb. injection Hb as _ Hb _. change (0x60000040 + 1) with 0x60000041 in Hb. rewrite Hb. discriminate.
Defined.

(** A program of 16 KiB of NULs is entered with a 5 in its word at 0x60002000. *)
Lemma bootm_tags_overwrite_witness : exists m m', ld32 m (0x60000040 + 0x2000) = 0 /\
  do_bootm 0x67000000 (fun _ _ => -9) (fun _ _ => 0) (fun m _ _ _ _ => (-1, 0, m)) 0x67000040 0x7fdff000 vexpress_bd 0 0 no_env 1 never
    (fun _ _ _ => None) (fun _ m => (0, m)) (fun _ => None) (fun s m => (0, m, s))
    [lit "bootm"; lit "0x60000000"] m (MkBoot boot_headers 0 0 0 0 0 0 0 []) =
    Some (Entered 0x60000000 0 2272 0x60002000 m') /\ ld32 m' 0x60002000 = 5.
Proof.
  destruct (Image.image_set_header_good (fun _ => 0) 0x60000000 0x4000 0 (0, 0) Image.bare_arm_params Image.bare_arm_ok) as (m & _ & Hg & Hfr); try lia; try reflexivity.
  destruct (vexpress_startable 0x4000 m ltac:(unfold CONFIG_SYS_BOOTM_LEN; lia) Hg) as (l & Hst).
  destruct (bootm_tags_overwrite 0x67000000 (fun _ _ => -9) (fun _ _ => 0) (fun m _ _ _ _ => (-1, 0, m)) 0x67000040 0x7fdff000 vexpress_bd 0 0 no_env 1 never
    (fun _ _ _ => None) (fun _ m => (0, m)) (fun _ => None) (fun s m => (0, m, s)) (lit "bootm") (lit "0x60000000") 0x60000000 0x4000 Image.bare_arm_params l m
    (MkBoot boot_headers 0 0 0 0 0 0 0 []) Hst) as (m' & E & H5); [cbn; lia|cbn; lia|].
  exists m, m'. split_and!; [|exact E|exact H5]. unfold ld32. rewrite !Hfr by lia. reflexivity.
Defined.

End Boot.
