(* ===== verification/Chain.v ===== *)
(** * Chain: from the card to the running program

    The commands of the chapters one after the other: [ext2load mmc 0 0x60000000 bare-arm.uimg] and
    [bootm 0x60000000].  The file system of [Fs] puts the image into memory, and [Boot] starts the program in it.  What
    the first command leaves in the environment is what the second one sees. *)

From stdpp Require Import base list option strings.
From Stdlib Require Import ZifyBool.
From S2P Require Import Prelude Cmem CString Strto Lmb Image Bootm Carray Atags Boot Blk Ext4 Ext4Dir Ext4Path Ext4Image Part Fs.
Import Carray Bootm Atags Boot Blk Ext4 Ext4Dir Ext4Path Part Fs.

Module Chain.

(** The environment after [env_set_hex] of some variables. *)
Definition with_vars (env : list Z -> option (list Z)) (vars : list (list Z * Z)) (n : list Z) : option (list Z) :=
  match List.find (fun v => bool_decide (v.1 = n)) (rev vars) with Some v => Some (Strto.print_base 16 v.2) | None => env n end.

(** Where the variables that [plain] is about are not those that are set. *)
Lemma with_vars_other env vars n : n ∉ vars.*1 -> with_vars env vars n = env n.
Proof.
  intros Hn. unfold with_vars. destruct (List.find _ _) as [v|] eqn:E; [|done]. apply List.find_some in E as [Hin E]. apply bool_decide_eq_true_1 in E.
  exfalso. apply Hn. rewrite <- E. apply list_elem_of_fmap_2. apply list_elem_of_In, List.in_rev. done.
Qed.

Section Chain.
Context {X : Type} (fat : fstype_info (vol * X)).
Context (alloc : Z -> bool) (fs_fuel k rounds : nat) (junk : mem).
Context (drivers : list part_driver) (get_dev : list Z -> Z -> Z -> option blk_desc) (env : list Z -> option (list Z)).
Context (Halloc : forall n, alloc n = true) (Hfat : fi_fstype fat = FS_TYPE_FAT).
Context (header : Z) (fdt fdt_totalsize : mem -> Z -> Z) (gunzip : mem -> Z -> Z -> Z -> Z -> Z * Z * mem).
Context (hdr_copy sp : Z) (board : bd) (brev load_addr : Z) (fuel : nat).
Context (enter : Z -> Z -> Z -> Z -> mem -> option mem) (appl : Z -> list (list Z) -> mem -> option mem).
Context (image_setup_linux : boot -> mem -> Z * mem) (other_os : Z -> option (Z -> list (list Z) -> mem -> boot -> option ans)).
Context (relocate_fdt : boot -> mem -> Z * mem * boot).

(** [ext2load] with its arguments, then [bootm] with its own if the file was loaded. *)
Definition load_and_start (largv bargv : list (list Z)) (s : fsstate (X := X)) (m : mem) (b : boot) : option (Z + ans) :=
  r ← do_ext2load fat alloc fs_fuel k rounds junk drivers get_dev env s m largv;
  if negb (c_ret r =? 0) then Some (inl (c_ret r)) else
  a ← do_bootm header fdt fdt_totalsize gunzip hdr_copy sp board brev load_addr (with_vars env (c_env r)) fuel enter appl image_setup_linux other_os
        relocate_fdt bargv (c_mem r) b;
  Some (inr a).

(** C7: The chapters' two commands run the program: when the file on the card is an image that mkimage made of a kernel,
    [ext2load] to the address followed by [bootm] of the same address enters it at its entry point with 0, the number of
    the machine and the address of the tags; the bytes of the program in the file are at its load address, except where
    the list of tags lies, and the list reads back as the description of the machine. *)
Theorem card_boots s m b cmd1 cmd2 ifname dev addr_text addr filename part d info disk inode size content mi ptr params l :
  idle s -> blk_get_device_part_str drivers get_dev env ifname (Some dev) (fs_partition s) true = Some (part, Some d, info) -> 0 <= part ->
  strtoul addr_text 16 = Some (addr, []) -> addr_text <> [] -> (length (components filename) <= k)%nat ->
  loadable alloc fs_fuel rounds d info disk filename inode (64 + size) content ->
  Image.good_image mi ptr size params -> (forall j, 0 <= j < 64 + size -> content j = ld mi (ptr + j)) ->
  plain board env -> boot_start_lmb sp board env = Some l -> Image.ok_params params -> kernel params ->
  placed header (fresh hdr_copy env l) addr size -> 0 < size <= CONFIG_SYS_BOOTM_LEN -> Image.p_addr params + size < 2 ^ 32 ->
  room (fresh hdr_copy env l) addr size (Image.p_addr params) -> tags_fit board (env (lit "bootargs")) brev None ->
  (forall m', enter (Image.p_ep params) 0 (bi_arch_number board) (bi_boot_params board) m' = None) ->
  exists m', load_and_start [cmd1; ifname; dev; addr_text; filename] [cmd2; addr_text] s m b =
      Some (inr (Entered (Image.p_ep params) 0 (bi_arch_number board) (bi_boot_params board) m')) /\
    read_tags (S (length (start_tags board brev env))) m' (bi_boot_params board) = Some (start_tags board brev env) /\
    forall i, 0 <= i < size ->
      Image.p_addr params + i < bi_boot_params board \/ bi_boot_params board + tags_bytes (start_tags board brev env) + 8 <= Image.p_addr params + i ->
      ld m' (Image.p_addr params + i) = content (64 + i).
Proof.
  intros Hidle Hdev Hpart Haddr Hne Hk Hld Hg Hc Hpl Hl Hok Hker Hp Hs Hend Hroom Htags Hen.
  destruct (do_ext2load_spec fat alloc fs_fuel k rounds junk drivers get_dev env Halloc Hfat s m cmd1 ifname dev addr_text addr filename part d info disk inode
    (64 + size) content Hidle Hdev Hpart Haddr Hne Hk Hld ltac:(lia)) as (m1 & s1 & E & Hb & _).
  assert (forall n, n <> fileaddr -> n <> filesize -> with_vars env [(fileaddr, addr); (filesize, 64 + size)] n = env n) as Henv.
  { intros n H1 H2. apply with_vars_other. cbn. rewrite !elem_of_cons, elem_of_nil. intros [H|[H|H] ]; congruence || done. }
  assert (with_vars env [(fileaddr, addr); (filesize, 64 + size)] (lit "bootargs") = env (lit "bootargs")) as Hba by (by apply Henv).
  assert (fresh hdr_copy (with_vars env [(fileaddr, addr); (filesize, 64 + size)]) l = fresh hdr_copy env l) as Hfresh.
  { unfold fresh, env_get_yesno. rewrite Henv by done. done. }
  assert (startable header hdr_copy sp board brev (with_vars env [(fileaddr, addr); (filesize, 64 + size)]) enter addr_text addr size params l m1) as Hst.
  { split; auto; rewrite ?Hfresh, ?Hba; auto.
    - destruct Hpl. split; rewrite ?Henv by done; done.
    - apply (Image.good_image_moved mi ptr); [lia| |done]. intros i Hi. rewrite Hb, Hc by lia. done. }
  destruct (bootm_enters header fdt fdt_totalsize gunzip hdr_copy sp board brev load_addr (with_vars env [(fileaddr, addr); (filesize, 64 + size)]) fuel enter appl
    image_setup_linux other_os relocate_fdt cmd2 addr_text addr size params l m1 b Hst) as (m2 & E2 & Hb2). rewrite Hba in E2.
  destruct (write_tags_spec board (env (lit "bootargs")) brev None m2 Htags) as (Ht & Hz & Hw).
  unfold load_and_start. rewrite E. cbn [mbind option_bind c_ret c_env c_mem Z.eqb negb]. rewrite E2. eexists. split; [reflexivity|]. split.
  - apply read_tags_found; [apply Htags|destruct Htags; unfold start_tags; lia|exact Ht|exact Hz].
  - intros i Hi Hout. rewrite Hw by exact Hout. rewrite (proj1 (bytes_eq_nth _ _ _ _ _) Hb2) by lia. rewrite <- Z.add_assoc. apply Hb. lia.
Qed.

End Chain.

(** The chapters' session on the card of [Ext4Image], with an empty environment. *)
Definition session (m : mem) : option (Z + ans) :=
  load_and_start no_fat (fun _ => true) 0 20 100 Ext4Image.no_junk [] get_card no_env 0x67000000 (fun _ _ => -9) (fun _ _ => 0)
    (fun m _ _ _ _ => (-1, 0, m)) 0x67000040 0x7fdff000 vexpress_bd 0 0 1 never (fun _ _ _ => None) (fun _ m => (0, m)) (fun _ => None) (fun s m => (0, m, s))
    [lit "ext2load"; lit "mmc"; lit "0"; lit "0x60000000"; Ext4Image.path_dx] [lit "bootm"; lit "0x60000000"] start_state m
    (MkBoot boot_headers 0 0 0 0 0 0 0 []).

Lemma card_boots_witness : exists m', session Ext4Image.no_junk = Some (inr (Entered 0x60000000 0 2272 0x60002000 m')) /\
  (forall i, 0 <= i < 636 -> ld m' (0x60000000 + i) = i mod 251) /\
  read_tags 5 m' 0x60002000 = Some [Core 0 0 0; Revision 0; Mem 0x60000000 0x20000000; Mem 0x80000000 0x20000000].
Proof.
  destruct Ext4Image.file_data_good as (mi & Hg & Hprog & Hc).
  assert (exists l, boot_start_lmb 0x7fdff000 vexpress_bd no_env = Some l) as [l Hl] by (eexists; vm_compute; reflexivity).
  destruct (card_boots no_fat (fun _ => true) 0 20 100 Ext4Image.no_junk [] get_card no_env (fun _ => eq_refl) eq_refl 0x67000000 (fun _ _ => -9) (fun _ _ => 0)
    (fun m _ _ _ _ => (-1, 0, m)) 0x67000040 0x7fdff000 vexpress_bd 0 0 1 never (fun _ _ _ => None) (fun _ m => (0, m)) (fun _ => None) (fun s m => (0, m, s))
    start_state Ext4Image.no_junk (MkBoot boot_headers 0 0 0 0 0 0 0 []) (lit "ext2load") (lit "bootm") (lit "mmc") (lit "0") (lit "0x60000000") 0x60000000
    Ext4Image.path_dx 0 (set_log2blksz image_card) (part_get_info_whole_disk (set_log2blksz image_card) no_info) Ext4Image.image Ext4Image.f_inode 636
    (file_byte Ext4Image.image_fs Ext4Image.image Ext4Image.f_inode) mi 0 Image.bare_arm_params l) as (m' & E & Ht & Hd);
    [split; [exact Ext4Image.image_state_ok|intros f disk; apply no_caches_ok]|reflexivity|lia|vm_compute; reflexivity|discriminate|vm_compute; lia
    |exact image_loadable|exact Hg|intros j Hj; apply Hc; lia|split; done|exact Hl|apply Image.bare_arm_ok|split; [apply bare_arm_bootable|split; reflexivity]
    |split; cbn; unfold Image.disjoint64; lia|unfold CONFIG_SYS_BOOTM_LEN; lia|cbn; lia|left; unfold overlapping; cbn; lia
    |apply vexpress_tags_fit; [done|unfold in_range; lia]|done|].
  exists m'. split; [exact E|]. split; [|exact Ht]. intros i Hi. transitivity (file_byte Ext4Image.image_fs Ext4Image.image Ext4Image.f_inode (64 + i)); [apply Hd; cbn; lia|].
  rewrite Hc by lia. assert (bytes mi 64 636 !! Z.to_nat i = Some (ld mi (64 + i))) as Hl1 by (rewrite bytes_lookup by lia; do 2 f_equal; lia).
  rewrite Hprog in Hl1. unfold Ext4Image.program in Hl1. rewrite list_lookup_fmap, lookup_seq_lt in Hl1 by lia. injection Hl1 as <-. f_equal. lia.
Defined.

End Chain.
