(* ===== verification/Nor.v ===== *)
(** * Nor: the flash memory behind the environment

    U-Boot's common/flash.c and the commands of cmd/flash.c: banks of sectors, the translation of address ranges to sectors,
    erasing, protecting and writing.  The driver of the chips (drivers/mtd/cfi_flash.c) is the interface [Chip], and
    [Works] says what a working chip does.  Messages are left out. *)

From stdpp Require Import base list option strings.
From Stdlib Require Import ZifyBool.
From S2P Require Import Prelude Cmem Carray Part.
Import Carray.

Module Nor.

Abbreviation str := (list Z).

(** ** Data *)

Definition CONFIG_SYS_MAX_FLASH_BANKS : Z := 2.
Definition CONFIG_SYS_MAX_FLASH_SECT : Z := 259.
Definition FLASH_UNKNOWN : Z := 0xFFFF.
Definition ERR_OK : Z := 0.
Definition ERR_PROTECTED : Z := 4.
Definition ERR_INVAL : Z := 8.
Definition FLAG_PROTECT_SET : Z := 0x01.
Definition FLAG_PROTECT_CLEAR : Z := 0x02.
Definition CMD_RET_USAGE : Z := -1.

(** The two arrays are functions of the index: [sector_count] is at most [CONFIG_SYS_MAX_FLASH_SECT]. *)
Record flash_info_t := Info { size : Z; sector_count : Z; flash_id : Z; start : Z -> Z; protect : Z -> Z }.

(** [flash_info], and what the processor reads at the addresses of the chips. *)
Record flash := Flash { flash_info : list flash_info_t; contents : mem }.

(** The driver; a bank is its index in [flash_info]. *)
Class Chip := {
  flash_real_protect : nat -> Z -> Z -> flash -> Z * flash;
  flash_erase : nat -> Z -> Z -> flash -> Z * flash;
  write_buff : nat -> list Z -> Z -> flash -> Z * flash;
}.

(** ** Addresses *)

(** [short s_end], [ulong b_end]. *)
Definition s_end (i : flash_info_t) : Z := sgn 16 (sector_count i - 1).
Definition b_end (i : flash_info_t) : Z := u32 (start i 0 + size i - 1).
Definition sect_end (i : flash_info_t) (sect : Z) : Z := if sect =? s_end i then b_end i else u32 (start i (sect + 1) - 1).

Definition known (i : flash_info_t) : bool := negb (flash_id i =? FLASH_UNKNOWN).

Fixpoint addr2info_loop (l : list flash_info_t) (n : nat) (addr : Z) : option nat :=
  match l with
  | [] => None
  | i :: l => if known i && (start i 0 <=? addr) && (addr <=? b_end i) then Some n else addr2info_loop l (S n) addr
  end.
Definition addr2info (f : flash) (addr : Z) : option nat := addr2info_loop (flash_info f) 0 addr.

(** The loop over the sectors of a bank in [flash_fill_sect_ranges]; [k] rounds are left. *)
Fixpoint mark (k : nat) (i : flash_info_t) (sect addr_first addr_last s_first s_last : Z) : Z * Z :=
  match k with
  | O => (s_first, s_last)
  | S k =>
    let e := sect_end i sect in
    if (e <? addr_first) || (addr_last <? start i sect) then mark k i (sect + 1) addr_first addr_last s_first s_last else
    let s_first := if addr_first =? start i sect then sect else s_first in
    let s_last := if addr_last =? e then sect else s_last in
    mark k i (sect + 1) addr_first addr_last s_first s_last
  end.

Definition untouched (l : list flash_info_t) : list (Z * Z) := map (fun _ => (-1, -1)) l.

(** The loop over the banks: the return value, [s_first] and [s_last] of every bank, and [s_count]. *)
Fixpoint fill_banks (l : list flash_info_t) (addr_first addr_last s_count : Z) : Z * list (Z * Z) * Z :=
  match l with
  | [] => (0, [], s_count)
  | i :: l' =>
    if addr_last <? addr_first then (0, untouched l, s_count) else
    if negb (known i) then let '(rcode, r, n) := fill_banks l' addr_first addr_last s_count in (rcode, (-1, -1) :: r, n) else
    let '(sf, sl) := mark (Z.to_nat (sector_count i)) i 0 addr_first addr_last (-1) (-1) in
    if 0 <=? sf then
      if (sl <? 0) && negb (b_end i <? addr_last) then (1, (sf, sl) :: untouched l', s_count) else
      let sl := if sl <? 0 then s_end i else sl in
      if sl <? sf then (1, (sf, sl) :: untouched l', s_count) else
      let addr_first := if sl =? s_end i then u32 (b_end i + 1) else start i (sl + 1) in
      let '(rcode, r, n) := fill_banks l' addr_first addr_last (s_count + (sl - sf + 1)) in (rcode, (sf, sl) :: r, n)
    else if (start i 0 <=? addr_first) && (addr_first <? b_end i) then (1, (sf, sl) :: untouched l', s_count)
    else if 0 <=? sl then (1, (sf, sl) :: untouched l', s_count)
    else let '(rcode, r, n) := fill_banks l' addr_first addr_last s_count in (rcode, (sf, sl) :: r, n)
  end.

Definition flash_fill_sect_ranges (addr_first addr_last : Z) (f : flash) : Z * list (Z * Z) * Z :=
  fill_banks (flash_info f) addr_first addr_last 0.

(** [flash_sect_roundb]: the end of the sector that holds the address. *)
Fixpoint sector_of (k : nat) (i : flash_info_t) (sect addr : Z) : option Z :=
  match k with
  | O => None
  | S k =>
    let e := if sect =? sector_count i - 1 then b_end i else u32 (start i (sect + 1) - 1) in
    if (addr <=? e) && (start i sect <=? addr) then Some e else sector_of k i (sect + 1) addr
  end.
Fixpoint roundb_banks (l : list flash_info_t) (addr : Z) : option Z :=
  match l with
  | [] => None
  | i :: l => match sector_of (Z.to_nat (sector_count i)) i 0 addr with Some e => Some e | None => roundb_banks l addr end
  end.
Definition flash_sect_roundb (f : flash) (addr : Z) : option Z := roundb_banks (flash_info f) addr.

(** ** Operations *)

Section Layer.
Context `{!Chip}.

(** [for (i = sect; ...; ++i) if (flash_real_protect(info, i, p)) rcode = 1;] *)
Fixpoint protect_sectors (k : nat) (bank : nat) (sect p rcode : Z) (f : flash) : Z * flash :=
  match k with
  | O => (rcode, f)
  | S k => let '(r, f) := flash_real_protect bank sect p f in
           protect_sectors k bank (sect + 1) p (if negb (r =? 0) then 1 else rcode) f
  end.

(** The loops of [flash_sect_erase] and [flash_sect_protect]; bank [n] is next. *)
Fixpoint erase_banks (l : list (Z * Z)) (n : nat) (rcode : Z) (f : flash) : Z * flash :=
  match l with
  | [] => (rcode, f)
  | (sf, sl) :: l =>
    if negb (rcode =? 0) then (rcode, f) else
    let '(rcode, f) := if 0 <=? sf then flash_erase n sf sl f else (rcode, f) in
    erase_banks l (S n) rcode f
  end.

Definition flash_sect_erase (addr_first addr_last : Z) (f : flash) : Z * flash :=
  let '(rcode, l, planned) := flash_fill_sect_ranges addr_first addr_last f in
  if negb (planned =? 0) && (rcode =? 0) then erase_banks l 0 rcode f
  else if rcode =? 0 then (1, f) else (rcode, f).

Definition bank_known (f : flash) (n : nat) : bool := match flash_info f !! n with Some i => known i | None => false end.

Fixpoint protect_banks (l : list (Z * Z)) (n : nat) (p rcode : Z) (f : flash) : Z * flash :=
  match l with
  | [] => (rcode, f)
  | (sf, sl) :: l =>
    let '(rcode, f) :=
      if bank_known f n && (0 <=? sf) && (sf <=? sl) then protect_sectors (Z.to_nat (sl - sf + 1)) n sf p rcode f else (rcode, f) in
    protect_banks l (S n) p rcode f
  end.

Definition flash_sect_protect (p addr_first addr_last : Z) (f : flash) : Z * flash :=
  let '(rcode, l, planned) := flash_fill_sect_ranges addr_first addr_last f in
  if negb (planned =? 0) && (rcode =? 0) then protect_banks l 0 p rcode f
  else if rcode =? 0 then (1, f) else (rcode, f).

(** *** common/flash.c *)

(** The loop of [flash_protect], which ignores what the driver returns. *)
Fixpoint monitor_loop (k : nat) (bank : nat) (i : flash_info_t) (sect flag from to : Z) (f : flash) : flash :=
  match k with
  | O => f
  | S k =>
    let e := sect_end i sect in
    let f :=
      if (from <=? e) && (start i sect <=? to) then
        if negb (Z.land flag FLAG_PROTECT_CLEAR =? 0) then snd (flash_real_protect bank sect 0 f)
        else if negb (Z.land flag FLAG_PROTECT_SET =? 0) then snd (flash_real_protect bank sect 1 f) else f
      else f in
    monitor_loop k bank i (sect + 1) flag from to f
  end.

Definition flash_protect (flag from to : Z) (bank : option nat) (f : flash) : flash :=
  match bank with
  | None => f
  | Some n =>
    match flash_info f !! n with
    | None => f
    | Some i =>
      if (sector_count i =? 0) || (size i =? 0) || (to <? from) then f else
      if negb (known i) || (to <? start i 0) || (b_end i <? from) then f else
      monitor_loop (Z.to_nat (sector_count i)) n i 0 flag from to f
    end
  end.

(** A protected sector of the bank in the range, in [flash_write]. *)
Fixpoint hits_protected (k : nat) (i : flash_info_t) (sect addr end_ : Z) : bool :=
  match k with
  | O => false
  | S k =>
    let e_addr := if sect =? s_end i then u32 (start i 0 + size i) else start i (sect + 1) in
    ((start i sect <=? end_) && (addr <? e_addr) && negb (protect i sect =? 0)) || hits_protected k i (sect + 1) addr end_
  end.
Definition bank_protected (f : flash) (addr end_ : Z) (n : nat) : bool :=
  match flash_info f !! n with Some i => hits_protected (Z.to_nat (sector_count i)) i 0 addr end_ | None => false end.

(** The banks of the list are written one after the other while bytes are left. *)
Fixpoint write_banks (l : list nat) (src : list Z) (addr : Z) (f : flash) : Z * flash :=
  match l with
  | [] => (ERR_OK, f)
  | n :: l =>
    if (length src =? 0)%nat then (ERR_OK, f) else
    match flash_info f !! n with
    | None => (ERR_OK, f)
    | Some i =>
      let len := Z.min (u32 (start i 0 + size i - addr)) (Z.of_nat (length src)) in
      let '(rc, f) := write_buff n (take (Z.to_nat len) src) addr f in
      if negb (rc =? 0) then (rc, f) else write_banks l (drop (Z.to_nat len) src) (u32 (addr + len)) f
    end
  end.

(** The [cnt] bytes at [src] are the list. *)
Definition flash_write (src : list Z) (addr : Z) (f : flash) : Z * flash :=
  let cnt := Z.of_nat (length src) in
  let end_ := u32 (addr + cnt - 1) in
  if cnt =? 0 then (ERR_OK, f) else
  match addr2info f addr, addr2info f end_ with
  | Some info_first, Some info_last =>
    let banks := seq info_first (S info_last - info_first) in
    if existsb (bank_protected f addr end_) banks then (ERR_PROTECTED, f) else write_banks banks src addr f
  | _, _ => (ERR_INVAL, f)
  end.

(** *** The commands *)

(** [simple_strtoul] of a whole string; [Some None] when something else is in it. *)
Definition whole_number (s : str) (base : Z) : option (option Z) :=
  '(v, ep) ← Part.strtoul s base;
  Some (if bool_decide (ep = s) || negb (bool_decide (ep = [])) then None else Some v).

(** What [abbrev_spec] returns: 0, -1, or 1 with the bank and the sectors. *)
Inductive abbrev := NotAbbrev | BadSpec | Sectors (bank : nat) (s_first s_last : Z).

Definition abbrev_spec (f : flash) (s : str) : option abbrev :=
  let '(b, p) := Part.split_at 58 s in
  match p with
  | None => Some NotAbbrev
  | Some p =>
    bank ← whole_number b 10;
    match bank with
    | None => Some BadSpec
    | Some bank =>
      let bank := sgn 32 bank in
      if (bank <? 1) || (CONFIG_SYS_MAX_FLASH_BANKS <? bank) then Some BadSpec else
      match flash_info f !! Z.to_nat (bank - 1) with
      | None => Some BadSpec
      | Some fp =>
        if negb (known fp) then Some BadSpec else
        let '(a, l) := Part.split_at 45 p in
        first ← whole_number a 10;
        match first with
        | None => Some BadSpec
        | Some first =>
          let first := sgn 32 first in
          if sector_count fp <=? first then Some BadSpec else
          match l with
          | None => Some (Sectors (Z.to_nat (bank - 1)) first first)
          | Some l =>
            last ← whole_number l 10;
            match last with
            | None => Some BadSpec
            | Some last =>
              let last := sgn 32 last in
              if (last <? first) || (sector_count fp <=? last) then Some BadSpec
              else Some (Sectors (Z.to_nat (bank - 1)) first last)
            end
          end
        end
      end
    end
  end.

(** The first and the last address, or -1. *)
Definition addr_spec (f : flash) (arg1 arg2 : str) : option (option (Z * Z)) :=
  first ← whole_number arg1 16;
  match first with
  | None => Some None
  | Some first =>
    let '(len_used, arg2) := match arg2 with c :: r => if c =? 43 then (true, r) else (false, arg2) | [] => (false, arg2) end in
    last ← whole_number arg2 16;
    match last with
    | None => Some None
    | Some last =>
      if negb len_used then Some (Some (first, last)) else
      Some (e ← flash_sect_roundb f (u32 (first + last - 1)); Some (first, e))
    end
  end.

(** [flash_erase (info, 0, info->sector_count-1)] *)
Definition erase_bank (f : flash) (n : nat) : Z * flash :=
  match flash_info f !! n with Some i => flash_erase n 0 (sector_count i - 1) f | None => (0, f) end.

Definition bank_number (f : flash) (s : str) : option (option nat) :=
  '(bank, _) ← Part.strtoul s 16;
  Some (if (bank <? 1) || (CONFIG_SYS_MAX_FLASH_BANKS <? bank) then None else Some (Z.to_nat (bank - 1))).

Definition do_flerase (argv : list str) (f : flash) : option (Z * flash) :=
  match argv !! 1%nat with
  | None => Some (CMD_RET_USAGE, f)
  | Some a1 =>
    if bool_decide (a1 = lit "all") then
      Some (fold_left (fun x n => erase_bank (snd x) n) (seq 0 (Z.to_nat CONFIG_SYS_MAX_FLASH_BANKS)) (0, f)) else
    spec ← abbrev_spec f a1;
    match spec with
    | BadSpec => Some (1, f)
    | Sectors n sf sl => Some (flash_erase n sf sl f)
    | NotAbbrev =>
      match argv with
      | [_; _; a2] =>
        if bool_decide (a1 = lit "bank") then
          n ← bank_number f a2;
          match n with None => Some (1, f) | Some n => Some (erase_bank f n) end
        else
        r ← addr_spec f a1 a2;
        match r with
        | None => Some (1, f)
        | Some (first, last) => if last <=? first then Some (CMD_RET_USAGE, f) else Some (flash_sect_erase first last f)
        end
      | _ => Some (CMD_RET_USAGE, f)
      end
    end
  end.

(** All sectors of a bank; [rcode] is what the banks before it left. *)
Definition protect_bank (p : Z) (x : Z * flash) (n : nat) : Z * flash :=
  match flash_info (snd x) !! n with
  | Some i => if known i then protect_sectors (Z.to_nat (sector_count i)) n 0 p (fst x) (snd x) else x
  | None => x
  end.

Definition do_protect (argv : list str) (f : flash) : option (Z * flash) :=
  match argv with
  | _ :: a1 :: a2 :: rest =>
    let on := bool_decide (a1 = lit "on") in
    if negb (bool_decide (a1 = lit "off")) && negb on then Some (CMD_RET_USAGE, f) else
    let p := if on then 1 else 0 in
    if bool_decide (a2 = lit "all") then
      Some (fold_left (protect_bank p) (seq 0 (Z.to_nat CONFIG_SYS_MAX_FLASH_BANKS)) (0, f)) else
    spec ← abbrev_spec f a2;
    match spec with
    | BadSpec => Some (1, f)
    | Sectors n sf sl => Some (protect_sectors (Z.to_nat (sl - sf + 1)) n sf p 0 f)
    | NotAbbrev =>
      match rest with
      | [a3] =>
        if bool_decide (a2 = lit "bank") then
          n ← bank_number f a3;
          match n with
          | None => Some (1, f)
          | Some n => if bank_known f n then Some (protect_bank p (0, f) n) else Some (1, f)
          end
        else
        r ← addr_spec f a2 a3;
        match r with
        | None => Some (1, f)
        | Some (first, last) => if last <=? first then Some (CMD_RET_USAGE, f) else Some (flash_sect_protect p first last f)
        end
      | _ => Some (CMD_RET_USAGE, f)
      end
    end
  | _ => Some (CMD_RET_USAGE, f)
  end.

End Layer.

(** ** Banks in order *)

Record wf_bank (i : flash_info_t) : Prop := {
  w_known : known i = true;
  w_count : 1 <= sector_count i <= CONFIG_SYS_MAX_FLASH_SECT;
  w_low : 0 <= start i 0;
  w_incr : forall k, 0 <= k < sector_count i - 1 -> start i k < start i (k + 1);
  w_last : start i (sector_count i - 1) < start i 0 + size i;
  w_high : start i 0 + size i <= 2 ^ 32;
}.

(** The address behind sector [k]. *)
Definition limit (i : flash_info_t) (k : Z) : Z := if k =? sector_count i - 1 then start i 0 + size i else start i (k + 1).

Definition apart (i j : flash_info_t) : Prop := start i 0 + size i <= start j 0 \/ start j 0 + size j <= start i 0.

(** Known banks are in order and do not overlap. *)
Record layout (f : flash) : Prop := {
  l_wf : forall n i, flash_info f !! n = Some i -> known i = true -> wf_bank i;
  l_apart : forall n m i j, n <> m -> flash_info f !! n = Some i -> flash_info f !! m = Some j ->
    known i = true -> known j = true -> apart i j;
}.

(** No byte of the range is in the bank. *)
Definition off (first last : Z) (i : flash_info_t) : Prop :=
  known i = false \/ (wf_bank i /\ (start i 0 + size i <= first \/ last < start i 0)).

Section Bank.
Context (i : flash_info_t) (Hwf : wf_bank i).

Lemma s_end_eq : s_end i = sector_count i - 1.
Proof.
  pose proof (w_count i Hwf) as H. unfold CONFIG_SYS_MAX_FLASH_SECT in H. unfold s_end, sgn, wrap.
  change (2 ^ (16 - 1)) with 32768. change (2 ^ 16) with 65536. rewrite Z.mod_small by lia. case_match; lia.
Qed.

Lemma start_mono n : forall a, 0 <= a -> a + Z.of_nat n < sector_count i -> start i a <= start i (a + Z.of_nat n).
Proof.
  induction n as [|n IH]; intros a Ha Hb; [rewrite Z.add_0_r; lia|]. pose proof (w_incr i Hwf a ltac:(lia)) as Hi.
  specialize (IH (a + 1) ltac:(lia) ltac:(lia)). replace (a + Z.of_nat (S n)) with (a + 1 + Z.of_nat n) by lia. lia.
Qed.

(** A sector ends where a later one starts, or before. *)
Lemma limit_le a b : 0 <= a < b -> b < sector_count i -> limit i a <= start i b.
Proof.
  intros Ha Hb. unfold limit. replace (a =? sector_count i - 1) with false by lia.
  pose proof (start_mono (Z.to_nat (b - a - 1)) (a + 1) ltac:(lia) ltac:(lia)) as H.
  replace (a + 1 + Z.of_nat (Z.to_nat (b - a - 1))) with b in H by lia. lia.
Qed.

Lemma sector_bounds k : 0 <= k < sector_count i -> start i 0 <= start i k < limit i k /\ limit i k <= start i 0 + size i.
Proof.
  intros Hk. pose proof (w_last i Hwf) as Hl. pose proof (start_mono (Z.to_nat k) 0 ltac:(lia) ltac:(lia)) as H0.
  pose proof (start_mono (Z.to_nat (sector_count i - 1 - k)) k ltac:(lia) ltac:(lia)) as H1.
  replace (0 + Z.of_nat (Z.to_nat k)) with k in H0 by lia.
  replace (k + Z.of_nat (Z.to_nat (sector_count i - 1 - k))) with (sector_count i - 1) in H1 by lia.
  unfold limit. destruct (Z.eqb_spec k (sector_count i - 1)); [lia|]. pose proof (w_incr i Hwf k ltac:(lia)).
  pose proof (start_mono (Z.to_nat (sector_count i - 1 - (k + 1))) (k + 1) ltac:(lia) ltac:(lia)) as H2.
  replace (k + 1 + Z.of_nat (Z.to_nat (sector_count i - 1 - (k + 1)))) with (sector_count i - 1) in H2 by lia. lia.
Qed.

Lemma bank_bounds : 0 <= start i 0 < start i 0 + size i /\ start i 0 + size i <= 2 ^ 32.
Proof. pose proof (w_low i Hwf). pose proof (w_high i Hwf). pose proof (w_count i Hwf). pose proof (sector_bounds 0 ltac:(lia)). lia. Qed.

Lemma b_end_eq : b_end i = start i 0 + size i - 1.
Proof. unfold b_end. apply u32_small. pose proof bank_bounds. lia. Qed.

Lemma sect_end_eq k : 0 <= k < sector_count i -> sect_end i k = limit i k - 1.
Proof.
  intros Hk. unfold sect_end, limit. rewrite s_end_eq, b_end_eq. destruct (Z.eqb_spec k (sector_count i - 1)); [lia|].
  apply u32_small. pose proof (sector_bounds (k + 1) ltac:(lia)). pose proof (w_incr i Hwf k ltac:(lia)). pose proof (sector_bounds k ltac:(lia)).
  pose proof bank_bounds. lia.
Qed.

(** Which sectors the loop notes: the one that starts at the first address and the one that ends at the last. *)
Lemma mark_spec first last : first <= last -> forall k sect sf sl, 0 <= sect -> sect + Z.of_nat k = sector_count i ->
  let r := mark k i sect first last sf sl in
  ((exists a, sect <= a < sector_count i /\ start i a = first /\ r.1 = a) \/
   ((forall a, sect <= a < sector_count i -> start i a <> first) /\ r.1 = sf)) /\
  ((exists b, sect <= b < sector_count i /\ limit i b - 1 = last /\ r.2 = b) \/
   ((forall b, sect <= b < sector_count i -> limit i b - 1 <> last) /\ r.2 = sl)).
Proof.
  intros Hle. induction k as [|k IH]; intros sect sf sl Hs Hk; cbn [mark].
  { cbn zeta. cbn [fst snd]. split; right; (split; [lia|done]). }
  rewrite sect_end_eq by lia. pose proof (sector_bounds sect ltac:(lia)) as Hb.
  destruct ((limit i sect - 1 <? first) || (last <? start i sect)) eqn:E.
  - specialize (IH (sect + 1) sf sl ltac:(lia) ltac:(lia)). cbn zeta in *. destruct IH as [IH1 IH2]. split.
    + destruct IH1 as [(a & Ha & H)|[H1 H2] ]; [left; exists a; split; [lia|done]|right]. split; [|done]. intros a Ha. destruct (Z.eq_dec a sect) as [-> |]; [lia|apply H1; lia].
    + destruct IH2 as [(b & Hb' & H)|[H1 H2] ]; [left; exists b; split; [lia|done]|right]. split; [|done]. intros b Hb'. destruct (Z.eq_dec b sect) as [-> |]; [lia|apply H1; lia].
  - specialize (IH (sect + 1) (if first =? start i sect then sect else sf) (if last =? limit i sect - 1 then sect else sl) ltac:(lia) ltac:(lia)).
    cbn zeta in *. destruct IH as [IH1 IH2]. split.
    + destruct IH1 as [(a & Ha & H)|[H1 ->] ]; [left; exists a; split; [lia|done]|].
      destruct (Z.eqb_spec first (start i sect)) as [Ee|Ee]; [left; exists sect; split_and!; [lia|lia|lia|done]|right]. split; [|done].
      intros a Ha. destruct (Z.eq_dec a sect) as [-> |]; [lia|apply H1; lia].
    + destruct IH2 as [(b & Hb' & H)|[H1 ->] ]; [left; exists b; split; [lia|done]|].
      destruct (Z.eqb_spec last (limit i sect - 1)) as [Ee|Ee]; [left; exists sect; split_and!; [lia|lia|lia|done]|right]. split; [|done].
      intros b Hb'. destruct (Z.eq_dec b sect) as [-> |]; [lia|apply H1; lia].
Qed.

Lemma start_inj a b : 0 <= a < sector_count i -> 0 <= b < sector_count i -> start i a = start i b -> a = b.
Proof.
  intros Ha Hb E. pose proof (sector_bounds a Ha). pose proof (sector_bounds b Hb).
  destruct (Z.lt_trichotomy a b) as [H'|[H'|H'] ]; [pose proof (limit_le a b)|done|pose proof (limit_le b a)]; lia.
Qed.

Lemma limit_inj a b : 0 <= a < sector_count i -> 0 <= b < sector_count i -> limit i a = limit i b -> a = b.
Proof.
  intros Ha Hb E. pose proof (sector_bounds a Ha). pose proof (sector_bounds b Hb).
  destruct (Z.lt_trichotomy a b) as [H'|[H'|H'] ]; [pose proof (limit_le a b)|done|pose proof (limit_le b a)]; lia.
Qed.

Lemma mark_exact a c : 0 <= a <= c -> c < sector_count i ->
  mark (Z.to_nat (sector_count i)) i 0 (start i a) (limit i c - 1) (-1) (-1) = (a, c).
Proof.
  intros Ha Hc. pose proof (sector_bounds c ltac:(lia)). pose proof (sector_bounds a ltac:(lia)).
  assert (start i a <= limit i c - 1) as Hle.
  { destruct (Z.eq_dec a c) as [-> |]; [lia|]. pose proof (limit_le a c ltac:(lia) ltac:(lia)). lia. }
  pose proof (mark_spec _ _ Hle (Z.to_nat (sector_count i)) 0 (-1) (-1) ltac:(lia) ltac:(lia)) as [H1 H2].
  destruct (mark _ _ _ _ _ _ _) as [x y]. cbn [fst snd] in *. f_equal.
  - destruct H1 as [(a' & Ha' & E & ->)|[Hn _] ]; [apply start_inj; [lia|lia|done]|destruct (Hn a); [lia|done] ].
  - destruct H2 as [(c' & Hc' & E & ->)|[Hn _] ]; [apply limit_inj; lia|destruct (Hn c); [lia|done] ].
Qed.

Lemma mark_off first last : first <= last -> start i 0 + size i <= first \/ last < start i 0 ->
  mark (Z.to_nat (sector_count i)) i 0 first last (-1) (-1) = (-1, -1).
Proof.
  intros Hle Hoff. pose proof (w_count i Hwf).
  pose proof (mark_spec _ _ Hle (Z.to_nat (sector_count i)) 0 (-1) (-1) ltac:(lia) ltac:(lia)) as [H1 H2].
  destruct (mark _ _ _ _ _ _ _) as [x y]. cbn [fst snd] in *. f_equal.
  - destruct H1 as [(a' & Ha' & E & _)|[_ H1] ]; [|done]. pose proof (sector_bounds a' Ha'). lia.
  - destruct H2 as [(c' & Hc' & E & _)|[_ H2] ]; [|done]. pose proof (sector_bounds c' Hc'). lia.
Qed.

End Bank.

(** ** From addresses to sectors *)

Lemma fill_past l first last n : last < first -> fill_banks l first last n = (0, untouched l, n).
Proof. intros H. destruct l as [|i l]; [done|]. cbn [fill_banks]. by replace (last <? first) with true by lia. Qed.

Lemma fill_off l1 rest first last : first <= last -> Forall (off first last) l1 -> forall n,
  fill_banks (l1 ++ rest) first last n = let '(rc, r, m) := fill_banks rest first last n in (rc, untouched l1 ++ r, m).
Proof.
  intros Hle. induction 1 as [|i l1 Hi Hl IH]; intros n; cbn [app].
  { by destruct (fill_banks rest first last n) as [ [rc r] m]. }
  cbn [fill_banks untouched map]. replace (last <? first) with false by lia. fold (untouched l1).
  destruct Hi as [Hk|[Hwf Hoff] ].
  - rewrite Hk. cbn [negb]. rewrite IH. by destruct (fill_banks rest first last n) as [ [rc r] m].
  - rewrite (w_known i Hwf). cbn [negb]. rewrite mark_off by done. cbn [Z.leb Z.compare]. rewrite b_end_eq by done.
    pose proof (bank_bounds i Hwf). replace ((start i 0 <=? first) && (first <? start i 0 + size i - 1)) with false by lia.
    rewrite IH. by destruct (fill_banks rest first last n) as [ [rc r] m].
Qed.

(** A range of whole sectors of a bank is found as such. *)
Lemma fill_exact l1 i l2 a c : Forall (off (start i a) (limit i c - 1)) l1 -> wf_bank i -> 0 <= a <= c -> c < sector_count i ->
  limit i c < 2 ^ 32 ->
  fill_banks (l1 ++ i :: l2) (start i a) (limit i c - 1) 0 = (0, untouched l1 ++ (a, c) :: untouched l2, c - a + 1).
Proof.
  intros Hl1 Hwf Ha Hc Hlim. pose proof (sector_bounds i Hwf c ltac:(lia)) as Hbc. pose proof (sector_bounds i Hwf a ltac:(lia)) as Hba.
  assert (start i a <= limit i c - 1) as Hle.
  { destruct (Z.eq_dec a c) as [-> |]; [lia|]. pose proof (limit_le i Hwf a c ltac:(lia) ltac:(lia)). lia. }
  rewrite fill_off by done. cbn [fill_banks]. replace (limit i c - 1 <? start i a) with false by lia.
  rewrite (w_known i Hwf). cbn [negb]. rewrite mark_exact by done. replace (0 <=? a) with true by lia. replace (c <? 0) with false by lia.
  cbn [andb]. replace (c <? a) with false by lia. rewrite Z.add_0_l.
  assert ((if c =? s_end i then u32 (b_end i + 1) else start i (c + 1)) = limit i c) as ->.
  { unfold limit in *. rewrite s_end_eq, b_end_eq by done. destruct (Z.eqb_spec c (sector_count i - 1)); [|done].
    rewrite u32_small; [lia|]. pose proof (bank_bounds i Hwf). lia. }
  rewrite fill_past by lia. done.
Qed.

Lemma layout_split f n i first last : layout f -> flash_info f !! n = Some i -> known i = true ->
  start i 0 <= first <= last -> last < start i 0 + size i ->
  exists l1 l2, flash_info f = l1 ++ i :: l2 /\ length l1 = n /\ Forall (off first last) l1 /\ Forall (off first last) l2.
Proof.
  intros Hl Hi Hk Hr Hlast. pose proof (lookup_lt_Some _ _ _ Hi) as Hn.
  assert (forall m j, m <> n -> flash_info f !! m = Some j -> off first last j) as Hoff.
  { intros m j Hm Hj. destruct (known j) eqn:Hkj; [right|by left]. split; [by eapply l_wf|].
    destruct (l_apart f Hl m n j i Hm Hj Hi Hkj Hk); lia. }
  exists (take n (flash_info f)), (drop (S n) (flash_info f)). split_and!.
  - symmetry. by apply take_drop_middle.
  - rewrite length_take. lia.
  - apply Forall_lookup. intros m j Hm. apply lookup_take_Some in Hm as [Hm Hlt]. apply (Hoff m); [lia|done].
  - apply Forall_lookup. intros m j Hm. rewrite lookup_drop in Hm. apply (Hoff (S n + m)%nat); [lia|done].
Qed.

(** The range inside bank [n] is made of whole sectors, or it is refused. *)
Lemma fill_bank f n i first last : layout f -> flash_info f !! n = Some i -> known i = true ->
  start i 0 <= first <= last -> last < start i 0 + size i -> last + 1 < 2 ^ 32 ->
  (exists a c l1 l2, 0 <= a <= c /\ c < sector_count i /\ first = start i a /\ last = limit i c - 1 /\ length l1 = n /\
     flash_fill_sect_ranges first last f = (0, untouched l1 ++ (a, c) :: untouched l2, c - a + 1)) \/
  ((forall a c, 0 <= a <= c -> c < sector_count i -> ~ (first = start i a /\ last = limit i c - 1)) /\
     exists r m, flash_fill_sect_ranges first last f = (1, r, m)).
Proof.
  intros Hl Hi Hk Hr Hlast Htop. pose proof (l_wf f Hl n i Hi Hk) as Hwf. pose proof (bank_bounds i Hwf) as Hbb.
  destruct (layout_split f n i first last Hl Hi Hk ltac:(lia) ltac:(lia)) as (l1 & l2 & Ef & Hn & Hl1 & Hl2).
  unfold flash_fill_sect_ranges. rewrite Ef. pose proof (w_count i Hwf) as Hcnt.
  pose proof (mark_spec i Hwf first last ltac:(lia) (Z.to_nat (sector_count i)) 0 (-1) (-1) ltac:(lia) ltac:(lia)) as [H1 H2].
  assert (forall a c, 0 <= a < sector_count i -> 0 <= c < sector_count i -> start i a = first -> limit i c - 1 = last -> a <= c) as Hord.
  { intros a c Ha Hc Ea Ec. destruct (Z.le_gt_cases a c); [done|]. pose proof (limit_le i Hwf c a ltac:(lia) ltac:(lia)). lia. }
  assert (forall x, fill_banks (i :: l2) first last 0 = x -> fill_banks (l1 ++ i :: l2) first last 0 = (x.1.1, untouched l1 ++ x.1.2, x.2)) as Hskip.
  { intros [ [rc r] m] E. rewrite fill_off by (done || lia). by rewrite E. }
  cbn [fill_banks] in Hskip. replace (last <? first) with false in Hskip by lia. rewrite Hk in Hskip. cbn [negb] in Hskip.
  destruct (mark _ _ _ _ _ _ _) as [x y]. cbn [fst snd] in *.
  destruct H1 as [(a & Ha & Ea & ->)|[Hna ->] ].
  - destruct H2 as [(c & Hc & Ec & ->)|[Hnc ->] ].
    + left. exists a, c, l1, l2. pose proof (Hord a c Ha Hc Ea Ec). split_and!; try lia; try done.
      rewrite <- Ea, <- Ec. apply fill_exact; try lia; [by rewrite Ea, Ec|done].
    + right. split; [intros a' c' Ha' Hc' [_ Ec]; apply (Hnc c'); lia|]. rewrite b_end_eq in Hskip by done.
      replace (0 <=? a) with true in Hskip by lia. replace (start i 0 + size i - 1 <? last) with false in Hskip by lia. cbn [Z.ltb Z.compare andb negb] in Hskip.
      rewrite (Hskip _ eq_refl). cbn [fst snd]. eauto.
  - right. split; [intros a' c' Ha' Hc' [Ea _]; apply (Hna a'); lia|]. rewrite b_end_eq in Hskip by done. cbn [Z.leb Z.compare] in Hskip.
    destruct ((start i 0 <=? first) && (first <? start i 0 + size i - 1)) eqn:E; [rewrite (Hskip _ eq_refl); cbn [fst snd]; eauto|].
    destruct H2 as [(c & Hc & Ec & ->)|[Hnc ->] ].
    + replace (0 <=? c) with true in Hskip by lia. rewrite (Hskip _ eq_refl). cbn [fst snd]. eauto.
    + destruct (Hnc (sector_count i - 1)); [lia|]. unfold limit. rewrite Z.eqb_refl. lia.
Qed.

Section Ranges.
Context `{!Chip}.

Lemma erase_untouched l n rc f : erase_banks (untouched l) n rc f = (rc, f).
Proof. revert n. induction l as [|i l IH]; intros n; cbn [erase_banks untouched map]; [done|]. destruct (negb _); [done|]. cbn [Z.leb Z.compare]. apply IH. Qed.

Lemma erase_banks_skip l rest f : forall n, erase_banks (untouched l ++ rest) n 0 f = erase_banks rest (n + length l) 0 f.
Proof.
  induction l as [|i l IH]; intros n; cbn [untouched map app erase_banks length]; [f_equal; lia|]. cbn [Z.eqb negb Z.leb Z.compare].
  fold (untouched l). rewrite IH. f_equal. lia.
Qed.

Lemma protect_untouched l rest p rc f : forall n,
  protect_banks (untouched l ++ rest) n p rc f = protect_banks rest (n + length l) p rc f.
Proof.
  induction l as [|i l IH]; intros n; cbn [untouched map app protect_banks length]; [f_equal; lia|]. cbn [Z.leb Z.compare].
  rewrite andb_false_r. cbn [andb]. fold (untouched l). rewrite IH. f_equal. lia.
Qed.

Lemma erase_range f n i first last : layout f -> flash_info f !! n = Some i -> known i = true ->
  start i 0 <= first <= last -> last < start i 0 + size i -> last + 1 < 2 ^ 32 ->
  (exists a c, 0 <= a <= c /\ c < sector_count i /\ first = start i a /\ last = limit i c - 1 /\
     flash_sect_erase first last f = flash_erase n a c f) \/
  ((forall a c, 0 <= a <= c -> c < sector_count i -> ~ (first = start i a /\ last = limit i c - 1)) /\
     flash_sect_erase first last f = (1, f)).
Proof.
  intros Hl Hi Hk Hr Hlast Htop. unfold flash_sect_erase.
  destruct (fill_bank f n i first last Hl Hi Hk Hr Hlast Htop) as [(a & c & l1 & l2 & Ha & Hc & Ea & Ec & Hn & E)|[Hno (r & m & E)] ].
  - left. exists a, c. split_and!; try done; try lia. rewrite E. replace (c - a + 1 =? 0) with false by lia. cbn [negb Z.eqb andb].
    rewrite erase_banks_skip, Hn. cbn [Nat.add erase_banks Z.eqb negb]. replace (0 <=? a) with true by lia.
    destruct (flash_erase n a c f) as [rc f']. apply erase_untouched.
  - right. split; [done|]. rewrite E. by destruct (negb (m =? 0)).
Qed.

(** The same for protection: the sectors of the range one after the other. *)
Lemma protect_range p f n i a c : layout f -> flash_info f !! n = Some i -> known i = true ->
  0 <= a <= c -> c < sector_count i -> limit i c < 2 ^ 32 ->
  flash_sect_protect p (start i a) (limit i c - 1) f = protect_sectors (Z.to_nat (c - a + 1)) n a p 0 f.
Proof.
  intros Hl Hi Hk Ha Hc Htop. pose proof (l_wf f Hl n i Hi Hk) as Hwf. unfold flash_sect_protect.
  pose proof (sector_bounds i Hwf c ltac:(lia)) as Hbc. pose proof (sector_bounds i Hwf a ltac:(lia)) as Hba.
  assert (start i a <= limit i c - 1) as Hle.
  { destruct (Z.eq_dec a c) as [-> |]; [lia|]. pose proof (limit_le i Hwf a c ltac:(lia) ltac:(lia)). lia. }
  destruct (fill_bank f n i (start i a) (limit i c - 1) Hl Hi Hk ltac:(lia) ltac:(lia) ltac:(lia))
    as [(a' & c' & l1 & l2 & Ha' & Hc' & Ea & Ec & Hn & E)|[Hno _] ]; [|destruct (Hno a c); [lia|done|done] ].
  assert (a' = a) as -> by (apply (start_inj i Hwf); lia). assert (c' = c) as -> by (apply (limit_inj i Hwf); lia).
  rewrite E. replace (c - a + 1 =? 0) with false by lia. cbn [negb Z.eqb andb]. rewrite protect_untouched, Hn. cbn [Nat.add protect_banks].
  unfold bank_known. rewrite Hi, Hk. replace (0 <=? a) with true by lia. replace (a <=? c) with true by lia. cbn [andb].
  destruct (protect_sectors _ n a p 0 f) as [rc f']. pose proof (protect_untouched l2 [] p rc f' (S n)) as Hu. rewrite app_nil_r in Hu. exact Hu.
Qed.

(** *** Writing *)

(** A byte from [addr] to [end_] is in a protected sector. *)
Definition guarded (i : flash_info_t) (addr end_ : Z) : Prop :=
  exists k, 0 <= k < sector_count i /\ protect i k <> 0 /\ start i k <= end_ /\ addr < limit i k.

Lemma hits_protected_spec i addr end_ : wf_bank i -> start i 0 + size i < 2 ^ 32 -> forall k sect, 0 <= sect -> sect + Z.of_nat k = sector_count i ->
  hits_protected k i sect addr end_ = true <->
  exists x, sect <= x < sector_count i /\ protect i x <> 0 /\ start i x <= end_ /\ addr < limit i x.
Proof.
  intros Hwf Htop. pose proof (bank_bounds i Hwf). induction k as [|k IH]; intros sect Hs Hk; cbn [hits_protected].
  { split; [done|]. intros (x & Hx & _). lia. }
  assert ((if sect =? s_end i then u32 (start i 0 + size i) else start i (sect + 1)) = limit i sect) as ->.
  { unfold limit. rewrite s_end_eq by done. case_match; [apply u32_small; lia|done]. }
  rewrite orb_true_iff, (IH (sect + 1)) by lia. split.
  - intros [Hh|(x & Hx & Hp)]; [exists sect|exists x; split; [lia|done] ]. split_and!; lia.
  - intros (x & Hx & Hp & Ha & Hb). destruct (Z.eq_dec x sect) as [-> |]; [left; lia|right; exists x; split_and!; lia || done].
Qed.

Lemma addr2info_in f n i addr : layout f -> flash_info f !! n = Some i -> known i = true ->
  start i 0 <= addr < start i 0 + size i -> addr2info f addr = Some n.
Proof.
  intros Hl Hi Hk Ha. pose proof (l_wf f Hl n i Hi Hk) as Hwf.
  destruct (layout_split f n i addr addr Hl Hi Hk ltac:(lia) ltac:(lia)) as (l1 & l2 & Ef & Hn & Hl1 & _).
  unfold addr2info. rewrite Ef. rewrite <- (Nat.add_0_l n), <- Hn. clear Ef Hn. generalize 0%nat.
  induction Hl1 as [|j l1 Hj Hl1 IH]; intros m; cbn [app addr2info_loop length].
  - rewrite Hk, b_end_eq by done. replace (start i 0 <=? addr) with true by lia. replace (addr <=? start i 0 + size i - 1) with true by lia.
    cbn [andb]. f_equal. lia.
  - replace (known j && (start j 0 <=? addr) && (addr <=? b_end j)) with false; [rewrite IH; f_equal; lia|].
    destruct Hj as [-> |[Hwj Hoff] ]; [done|]. rewrite b_end_eq by done. lia.
Qed.

(** Writing inside a bank: nothing is written when a byte is in a protected sector. *)
Lemma write_range f n i src addr : layout f -> flash_info f !! n = Some i -> known i = true -> start i 0 + size i < 2 ^ 32 ->
  src <> [] -> start i 0 <= addr -> addr + Z.of_nat (length src) <= start i 0 + size i ->
  (guarded i addr (addr + Z.of_nat (length src) - 1) /\ flash_write src addr f = (ERR_PROTECTED, f)) \/
  (~ guarded i addr (addr + Z.of_nat (length src) - 1) /\ flash_write src addr f = write_buff n src addr f).
Proof.
  intros Hl Hi Hk Htop Hne Hlo Hhi. pose proof (l_wf f Hl n i Hi Hk) as Hwf. pose proof (w_low i Hwf) as Hlow. pose proof (w_count i Hwf) as Hcnt.
  assert (0 < Z.of_nat (length src)) as Hlen by (destruct src; [done|cbn; lia]). unfold flash_write.
  replace (Z.of_nat (length src) =? 0) with false by lia. rewrite (u32_small (addr + Z.of_nat (length src) - 1)) by lia.
  rewrite (addr2info_in f n i addr) by (done || lia). rewrite (addr2info_in f n i (addr + Z.of_nat (length src) - 1)) by (done || lia).
  replace (S n - n)%nat with 1%nat by lia. cbn [seq existsb]. rewrite orb_false_r. unfold bank_protected at 1 2. rewrite Hi.
  pose proof (hits_protected_spec i addr (addr + Z.of_nat (length src) - 1) Hwf Htop (Z.to_nat (sector_count i)) 0 ltac:(lia) ltac:(lia)) as Hh.
  destruct (hits_protected _ _ _ _ _) eqn:E.
  - left. split; [exact (proj1 Hh eq_refl)|done].
  - right. split; [intros Hg; by apply Hh in Hg|]. cbn [write_banks]. replace (length src =? 0)%nat with false by lia. rewrite Hi.
    rewrite (u32_small (start i 0 + size i - addr)) by lia. rewrite Z.min_r by lia. rewrite Nat2Z.id, firstn_all.
    destruct (write_buff n src addr f) as [rc f']. destruct (Z.eqb_spec rc 0) as [-> |]; done.
Qed.

End Ranges.

(** ** A working chip *)

Definition protection (P : Z -> Z) (i : flash_info_t) : flash_info_t := Info (size i) (sector_count i) (flash_id i) (start i) P.
Definition set_protection (f : flash) (n : nat) (P : Z -> Z) (m : mem) : flash := Flash (alter (protection P) n (flash_info f)) m.

(** What the driver does when the hardware obeys: protection is noted in [flash_info], erased bytes read 255, and bytes
    that were erased take the values written to them. *)
Class Works `{!Chip} : Prop := {
  works_protect : forall n s p f i, layout f -> flash_info f !! n = Some i -> known i = true -> 0 <= s < sector_count i ->
    exists P m, flash_real_protect n s p f = (0, set_protection f n P m) /\
      (forall x, P x = if x =? s then p else protect i x) /\ mem_eq m (contents f);
  works_erase : forall n a c f i, layout f -> flash_info f !! n = Some i -> known i = true -> 0 <= a <= c -> c < sector_count i ->
    (forall k, a <= k <= c -> protect i k = 0) ->
    exists m, flash_erase n a c f = (0, Flash (flash_info f) m) /\
      forall x, ld m x = if (start i a <=? x) && (x <? limit i c) then 255 else ld (contents f) x;
  works_write : forall n src addr f i, layout f -> flash_info f !! n = Some i -> known i = true ->
    start i 0 <= addr -> addr + Z.of_nat (length src) <= start i 0 + size i ->
    ~ guarded i addr (addr + Z.of_nat (length src) - 1) ->
    (forall x, addr <= x < addr + Z.of_nat (length src) -> ld (contents f) x = 255) ->
    exists m, write_buff n src addr f = (0, Flash (flash_info f) m) /\ mem_eq m (wr (contents f) addr src);
}.

Lemma lookup_protection f n P m i k : flash_info f !! n = Some i ->
  flash_info (set_protection f n P m) !! k = if decide (k = n) then Some (protection P i) else flash_info f !! k.
Proof. intros Hi. cbn [flash_info set_protection]. destruct (decide (k = n)) as [-> |Hk]; [by rewrite list_lookup_alter_eq, Hi|by rewrite list_lookup_alter_ne]. Qed.

Lemma wf_protection P i : wf_bank i -> wf_bank (protection P i).
Proof. intros []. by split. Qed.

(** Protection does not move sectors. *)
Lemma layout_protection f n P m i : flash_info f !! n = Some i -> layout f -> layout (set_protection f n P m).
Proof.
  intros Hi [Hwf Hap].
  assert (forall k j, flash_info (set_protection f n P m) !! k = Some j -> exists j0 Q, flash_info f !! k = Some j0 /\ j = protection Q j0) as Hold.
  { intros k j. rewrite (lookup_protection f n P m i k Hi). case_match; [subst k; intros [= <-]; eauto|]. intros Hj. exists j, (protect j). split; [done|by destruct j]. }
  split.
  - intros k j Hj Hk. destruct (Hold k j Hj) as (j0 & Q & H0 & ->). apply wf_protection. by eapply Hwf.
  - intros k l j j' Hne Hj Hj' Hk Hk'. destruct (Hold k j Hj) as (j0 & Q & H0 & ->). destruct (Hold l j' Hj') as (j0' & Q' & H0' & ->).
    exact (Hap k l j0 j0' Hne H0 H0' Hk Hk').
Qed.

Lemma set_protection_twice f n P Q m m' : set_protection (set_protection f n P m) n Q m' = set_protection f n Q m'.
Proof. unfold set_protection. cbn [flash_info contents]. f_equal. by rewrite list_alter_alter_eq. Qed.

Lemma set_protection_same f n i : flash_info f !! n = Some i -> set_protection f n (protect i) (contents f) = f.
Proof.
  intros Hi. destruct f as [l m]. unfold set_protection. cbn [flash_info contents] in *. f_equal. apply list_eq. intros k.
  destruct (decide (k = n)) as [-> |Hk]; [rewrite list_lookup_alter_eq, Hi; by destruct i|by rewrite list_lookup_alter_ne].
Qed.

Section Working.
Context `{!Chip, !Works}.

Lemma protect_sectors_works p n : forall k s rc f i, layout f -> flash_info f !! n = Some i -> known i = true ->
  0 <= s -> s + Z.of_nat k <= sector_count i ->
  exists P m, protect_sectors k n s p rc f = (rc, set_protection f n P m) /\
    (forall x, P x = if (s <=? x) && (x <? s + Z.of_nat k) then p else protect i x) /\ mem_eq m (contents f).
Proof.
  induction k as [|k IH]; intros s rc f i Hl Hi Hk Hs Hc; cbn [protect_sectors].
  - exists (protect i), (contents f). split_and!; [by rewrite set_protection_same|intros x; by replace ((s <=? x) && (x <? s + Z.of_nat 0)) with false by lia|done].
  - destruct (works_protect n s p f i Hl Hi Hk ltac:(lia)) as (P & m & -> & HP & Hm). cbn [Z.eqb negb].
    destruct (IH (s + 1) rc (set_protection f n P m) (protection P i)) as (P' & m' & -> & HP' & Hm').
    + by eapply layout_protection.
    + rewrite (lookup_protection f n P m i n Hi). by rewrite decide_True.
    + done.
    + lia.
    + cbn [protection sector_count]. lia.
    + exists P', m'. rewrite set_protection_twice. split_and!; [done| |].
      * intros x. rewrite HP'. cbn [protection protect]. rewrite HP. destruct (Z.eqb_spec x s) as [-> |].
        { replace (s + 1 <=? s) with false by lia. replace ((s <=? s) && (s <? s + Z.of_nat (S k))) with true by lia. done. }
        replace ((s <=? x) && (x <? s + Z.of_nat (S k))) with ((s + 1 <=? x) && (x <? s + 1 + Z.of_nat k)) by lia. done.
      * intros x. rewrite Hm'. apply Hm.
Qed.

(** Whole sectors of a bank are made writable, ... *)
Lemma unprotect_sectors f n i a c : layout f -> flash_info f !! n = Some i -> known i = true -> 0 <= a <= c -> c < sector_count i ->
  limit i c < 2 ^ 32 ->
  exists P m, flash_sect_protect 0 (start i a) (limit i c - 1) f = (0, set_protection f n P m) /\ mem_eq m (contents f) /\
    forall x, P x = if (a <=? x) && (x <=? c) then 0 else protect i x.
Proof.
  intros Hl Hi Hk Ha Hc Htop. rewrite (protect_range 0 f n i a c) by done.
  destruct (protect_sectors_works 0 n (Z.to_nat (c - a + 1)) a 0 f i Hl Hi Hk ltac:(lia) ltac:(lia)) as (P & m & -> & HP & Hm).
  exists P, m. split_and!; [done|done|]. intros x. rewrite HP. by replace (x <? a + Z.of_nat (Z.to_nat (c - a + 1))) with (x <=? c) by lia.
Qed.

(** ... erased, written from their first byte and protected again. *)
Lemma rewrite_sectors f n i a c src : layout f -> flash_info f !! n = Some i -> known i = true -> 0 <= a <= c -> c < sector_count i ->
  start i 0 + size i < 2 ^ 32 -> src <> [] -> start i a + Z.of_nat (length src) <= limit i c ->
  (forall k, a <= k <= c -> protect i k = 0) ->
  exists f2 f3 P m,
    flash_sect_erase (start i a) (limit i c - 1) f = (0, f2) /\
    (forall x, ld (contents f2) x = if (start i a <=? x) && (x <? limit i c) then 255 else ld (contents f) x) /\
    flash_write src (start i a) f2 = (0, f3) /\
    flash_sect_protect 1 (start i a) (limit i c - 1) f3 = (0, set_protection f n P m) /\
    (forall x, P x = if (a <=? x) && (x <=? c) then 1 else protect i x) /\
    (forall x, ld m x = if (start i a <=? x) && (x <? start i a + Z.of_nat (length src)) then u8 (nth (Z.to_nat (x - start i a)) src 0)
                        else if (start i a <=? x) && (x <? limit i c) then 255 else ld (contents f) x).
Proof.
  intros Hl Hi Hk Ha Hc Htop Hne Hfit Hun. pose proof (l_wf f Hl n i Hi Hk) as Hwf.
  pose proof (sector_bounds i Hwf a ltac:(lia)) as Hba. pose proof (sector_bounds i Hwf c ltac:(lia)) as Hbc. pose proof (w_low i Hwf) as Hlow.
  assert (0 < Z.of_nat (length src)) as Hlen by (destruct src; [done|cbn; lia]).
  destruct (erase_range f n i (start i a) (limit i c - 1) Hl Hi Hk ltac:(lia) ltac:(lia) ltac:(lia))
    as [(a' & c' & Ha' & Hc' & Ea & Ec & E2)|[Hno _] ]; [|destruct (Hno a c); [lia|done|done] ].
  assert (a' = a) as -> by (apply (start_inj i Hwf); [lia|lia|done]). assert (c' = c) as -> by (apply (limit_inj i Hwf); lia).
  destruct (works_erase n a c f i Hl Hi Hk Ha Hc Hun) as (m2 & E2' & Hm2). rewrite E2' in E2. set (f2 := Flash (flash_info f) m2) in *.
  assert (layout f2) as Hl2 by (destruct Hl; by split).
  destruct (write_range f2 n i src (start i a) Hl2 Hi Hk Htop Hne ltac:(lia) ltac:(lia)) as [ [(k & Hkc & Hp & Hs & Hlt) _]|[Hng E3] ].
  { exfalso. destruct (decide (a <= k <= c)); [by apply Hp, Hun|].
    assert (k < a \/ c < k) as [Hk'|Hk'] by lia; [pose proof (limit_le i Hwf k a)|pose proof (limit_le i Hwf c k)]; lia. }
  destruct (works_write n src (start i a) f2 i Hl2 Hi Hk ltac:(lia) ltac:(lia) Hng) as (m3 & E3' & Hm3).
  { intros x Hx. cbn [f2 contents]. rewrite Hm2. by replace ((start i a <=? x) && (x <? limit i c)) with true by lia. }
  rewrite E3' in E3. set (f3 := Flash (flash_info f) m3) in *. assert (layout f3) as Hl3 by (destruct Hl; by split).
  pose proof (protect_range 1 f3 n i a c Hl3 Hi Hk Ha Hc ltac:(lia)) as E4.
  destruct (protect_sectors_works 1 n (Z.to_nat (c - a + 1)) a 0 f3 i Hl3 Hi Hk ltac:(lia) ltac:(lia)) as (P4 & m4 & E4' & HP4 & Hm4).
  rewrite E4' in E4. exists f2, f3, P4, m4. split_and!; [done|exact Hm2|done|exact E4| |].
  - intros x. rewrite HP4. by replace (x <? a + Z.of_nat (Z.to_nat (c - a + 1))) with (x <=? c) by lia.
  - intros x. rewrite Hm4. cbn [f3 contents]. rewrite Hm3, ld_wr. cbn [f2 contents]. case_match; [done|]. apply Hm2.
Qed.

End Working.

(** ** What the commands promise *)

Section Commands.
Context `{!Chip}.

(** A range of addresses in a bank is erased as the sectors it is made of and nothing else; a range that does not
    begin or does not end at the border of a sector is refused before anything is erased. *)
Theorem flash_sect_erase_sectors f n i first last : layout f -> flash_info f !! n = Some i -> known i = true ->
  start i 0 <= first <= last -> last < start i 0 + size i -> last + 1 < 2 ^ 32 ->
  (exists a c, 0 <= a <= c /\ c < sector_count i /\ first = start i a /\ last = limit i c - 1 /\
     flash_sect_erase first last f = flash_erase n a c f) \/
  ((forall a c, 0 <= a <= c -> c < sector_count i -> ~ (first = start i a /\ last = limit i c - 1)) /\
     flash_sect_erase first last f = (1, f)).
Proof. apply erase_range. Qed.

(** Bytes in a protected sector are never handed to the driver. *)
Theorem flash_write_guarded f n i src addr : layout f -> flash_info f !! n = Some i -> known i = true -> start i 0 + size i < 2 ^ 32 ->
  src <> [] -> start i 0 <= addr -> addr + Z.of_nat (length src) <= start i 0 + size i ->
  guarded i addr (addr + Z.of_nat (length src) - 1) -> flash_write src addr f = (ERR_PROTECTED, f).
Proof. intros Hl Hi Hk Htop Hne Hlo Hhi Hg. by destruct (write_range f n i src addr Hl Hi Hk Htop Hne Hlo Hhi) as [ [_ E]|[Hng _] ]. Qed.

End Commands.

(** ** A chip for the examples *)

(** Bits can only be cleared by writing; erasing a protected sector fails. *)
#[local] Instance SimChip : Chip := {
  flash_real_protect n s p f :=
    match flash_info f !! n with
    | Some i => (0, set_protection f n (fun x => if x =? s then p else protect i x) (contents f))
    | None => (1, f)
    end;
  flash_erase n a c f :=
    match flash_info f !! n with
    | Some i =>
      if forallb (fun k => protect i (a + Z.of_nat k) =? 0) (seq 0 (Z.to_nat (c - a + 1)))
      then (0, Flash (flash_info f) (fun x => if (start i a <=? x) && (x <? limit i c) then 255 else contents f x)) else (1, f)
    | None => (1, f)
    end;
  write_buff n src addr f :=
    (0, Flash (flash_info f) (fun x => if (addr <=? x) && (x <? addr + Z.of_nat (length src))
                                       then Z.land (ld (contents f) x) (nth (Z.to_nat (x - addr)) src 0) else contents f x));
}.

#[local] Instance SimWorks : Works.
Proof.
  split.
  - intros n s p f i _ Hi _ _. cbn [flash_real_protect SimChip]. rewrite Hi. eexists _, _. split_and!; [reflexivity|done|by intros x].
  - intros n a c f i _ Hi _ Ha Hc Hp. cbn [flash_erase SimChip]. rewrite Hi.
    assert (forallb (fun k => protect i (a + Z.of_nat k) =? 0) (seq 0 (Z.to_nat (c - a + 1))) = true) as ->.
    { apply forallb_forall. intros k Hk. apply in_seq in Hk. apply Z.eqb_eq. apply Hp. lia. }
    eexists. split; [reflexivity|]. intros x. unfold ld at 1. by case_match.
  - intros n src addr f i _ Hi _ _ _ _ He. cbn [write_buff SimChip]. eexists. split; [reflexivity|]. intros x. unfold ld at 1. rewrite ld_wr.
    destruct ((addr <=? x) && (x <? addr + Z.of_nat (length src))) eqn:E; [|done]. rewrite He by lia.
    rewrite Z.land_comm. change 255 with (Z.ones 8). rewrite Z.land_ones by lia. apply u8_u8.
Qed.

(** A bank of four sectors of 64 bytes. *)
Definition demo_bank (base prot : Z) : flash_info_t := Info 256 4 0 (fun k => base + 64 * k) (fun k => if k =? 3 then prot else 0).
Definition demo_flash (b0 b1 : Z) : flash := Flash [demo_bank b0 0; demo_bank b1 1] (fun _ => 7).

Lemma demo_bank_wf b p : 0 <= b -> b + 256 <= 2 ^ 32 -> wf_bank (demo_bank b p).
Proof. intros H0 H1. split; cbn [demo_bank sector_count start size]; unfold CONFIG_SYS_MAX_FLASH_SECT; try (done || lia). Qed.

Lemma demo_layout b0 b1 : 0 <= b0 -> b0 + 256 <= 2 ^ 32 -> 0 <= b1 -> b1 + 256 <= 2 ^ 32 -> b0 + 256 <= b1 \/ b1 + 256 <= b0 ->
  layout (demo_flash b0 b1).
Proof.
  intros H0 H0' H1 H1' Hap. split.
  - intros [|[|n] ] i Hi _; cbn in Hi; simplify_eq; by apply demo_bank_wf.
  - intros [|[|n] ] [|[|m] ] i j Hne Hi Hj _ _; cbn in Hi, Hj; simplify_eq; try done; unfold apart; cbn [demo_bank start size]; lia.
Qed.

Lemma flash_sect_erase_sectors_witness :
  flash_sect_erase 0x44000040 0x440000bf (demo_flash 0x40000000 0x44000000) = flash_erase 1 1 2 (demo_flash 0x40000000 0x44000000) /\
  flash_sect_erase 0x44000040 0x440000b0 (demo_flash 0x40000000 0x44000000) = (1, demo_flash 0x40000000 0x44000000).
Proof.
  assert (layout (demo_flash 0x40000000 0x44000000)) as Hl by (apply demo_layout; lia). split.
  - destruct (flash_sect_erase_sectors (demo_flash 0x40000000 0x44000000) 1 (demo_bank 0x44000000 1) 0x44000040 0x440000bf Hl eq_refl eq_refl
      ltac:(cbn; lia) ltac:(cbn; lia) ltac:(lia)) as [(a & c & Ha & Hc & Ea & Ec & E)|[Hno _] ]; [|destruct (Hno 1 2); [lia|done|done] ].
    unfold limit in Ec. cbn [demo_bank sector_count start size] in *. assert (a = 1) as -> by lia. assert (c = 2) as -> by (revert Ec; case_match; lia). exact E.
  - destruct (flash_sect_erase_sectors (demo_flash 0x40000000 0x44000000) 1 (demo_bank 0x44000000 1) 0x44000040 0x440000b0 Hl eq_refl eq_refl
      ltac:(cbn; lia) ltac:(cbn; lia) ltac:(lia)) as [(a & c & Ha & Hc & Ea & Ec & E)|[_ E] ]; [|exact E].
    exfalso. revert Ec. unfold limit. cbn [demo_bank sector_count start size] in *. case_match; lia.
Defined.

(** Banks in descending order of addresses: a write across both is reported as done and writes nothing. *)
Theorem flash_write_reversed :
  flash_write [1; 2; 3; 4] (0x40000100 - 2) (demo_flash 0x40000100 0x40000000) = (ERR_OK, demo_flash 0x40000100 0x40000000).
Proof. reflexivity. Qed.

(** In a bank that ends at the top of the address space the protection of the last sector is overlooked ... *)
Theorem flash_write_top :
  fst (flash_write [0; 0] 0xffffffc0 (demo_flash 0x40000000 0xffffff00)) = ERR_OK /\
  protect (demo_bank 0xffffff00 1) 3 = 1.
Proof. done. Qed.

(** ... and a request for this sector is taken for one that goes on at address 0: a bank that is there is erased too. *)
Theorem flash_fill_wraps :
  flash_fill_sect_ranges 0xffffffc0 0xffffffff (demo_flash 0xffffff00 0) = (0, [(3, 3); (0, 3)], 5).
Proof. reflexivity. Qed.

(** Sector numbers from 2^31 on are accepted as negative ones. *)
Theorem abbrev_negative : abbrev_spec (demo_flash 0x40000000 0x44000000) (lit "1:4294967295") = Some (Sectors 0 (-1) (-1)).
Proof. reflexivity. Qed.

End Nor.
