(* ===== verification/EnvTable.v ===== *)
(** * EnvTable: the table of the environment as a map of checked variables

    [hsearch_r] and [hdelete_r] of lib/hashtable.c, whatever the check [change_ok] and the callbacks of the variables say:
    the table refines a finite map of entries, on which a change happens or is refused.  The import of a text is the
    sequence of its assignments on that map. *)

From stdpp Require Import base list option gmap.
From Stdlib Require Import ZifyBool.
From S2P Require Import Prelude Cmem Qsort HashTable EnvText.
Import HashTable EnvText.

Module EnvTable.

Abbreviation vars := (gmap (list Z) ENTRY).
Abbreviation check := (option (ENTRY -> option str -> env_op -> Z -> Z)).

(** ** The abstract environment *)

(** Both the check of the table and the callback of the variable agree. *)
Definition allowed (ok : check) (e : ENTRY) (d : option str) (op : env_op) (flag : Z) : bool :=
  match ok with Some ok => ok e d op flag =? 0 | None => true end &&
  match callback e with Some cb => cb (key e) d op flag =? 0 | None => true end.

Definition renew (e : ENTRY) (d : str) : ENTRY := Entry (key e) (Some d) (callback e) (flags e).

Section Abstract.
Context (cbi fli : ENTRY -> ENTRY) (ok : check).

(** A new variable, with the callback and the flags that its name gets. *)
Definition newborn (k d : str) : ENTRY := fli (cbi (Entry k (Some d) None 0)).

Definition set_var (k d : str) (flag : Z) (M : vars) : bool * vars :=
  match M !! k with
  | Some e => if allowed ok e (Some d) env_op_overwrite flag then (true, <[k := renew e d]> M) else (false, M)
  | None => if allowed ok (newborn k d) (Some d) env_op_create flag then (true, <[k := newborn k d]> M) else (false, M)
  end.

Definition unset_var (k : str) (flag : Z) (M : vars) : bool * vars :=
  match M !! k with
  | Some e => if allowed ok e None env_op_delete flag then (true, delete k M) else (false, M)
  | None => (false, M)
  end.

(** The assignments of a list of entries, one after the other. *)
Definition set_all (es : list ENTRY) (flag : Z) (M : vars) : vars :=
  fold_left (fun M e => snd (set_var (key e) (value_of e) flag M)) es M.
End Abstract.

(** ** Tables that hold a map *)

(** Slots without an entry carry no callback and no flags over to the next one. *)
Definition clean (t : list _ENTRY) : Prop :=
  forall i s, slot_at t i = Some s -> used s <= 0 -> callback (entry s) = None /\ flags (entry s) = 0.

(** At most [c] slots were ever used. *)
Record refines_at (h : hsearch_data) (t : list _ENTRY) (c : nat) (M : vars) : Prop := {
  r_inv : inv h t;
  r_clean : clean t;
  r_room : room h t c;
  r_filled : filled h = Z.of_nat (base.size M);
  r_vars : forall k e, M !! k = Some e <-> exists i s, live_at h t i s /\ entry s = e /\ key e = k;
}.
Definition refines (h : hsearch_data) (c : nat) (M : vars) : Prop := exists t, refines_at h t c M.

Lemma refines_present h t c M k : refines_at h t c M -> present h t k <-> is_Some (M !! k).
Proof.
  intros Hr. split.
  - intros (i & s & Hl & Hk). exists (entry s). apply (r_vars _ _ _ _ Hr). eauto 6.
  - intros [e He]. apply (r_vars _ _ _ _ Hr) in He as (i & s & Hl & <- & Hk). exists i, s. auto.
Qed.

Lemma clean_update h t i s' : inv h t -> in_table h i -> clean t -> (used s' <= 0 -> callback (entry s') = None /\ flags (entry s') = 0) ->
  clean (<[Z.to_nat i := s']> t).
Proof.
  intros Hinv Hi Hc Hs' x s. rewrite (slot_at_update h t Hinv i s' Hi). case_match; [intros [= <-]; exact Hs'|apply Hc].
Qed.

Lemma room_update h t h' i s' c : inv h t -> in_table h i -> size h' = size h -> 0 <= filled h' <= Z.of_nat (S c) -> room h t c ->
  room h' (<[Z.to_nat i := s']> t) (S c).
Proof.
  intros Hinv Hi Hsz Hf' (Hf & L & HL & Hused). split; [done|]. exists (i :: L). split; [cbn; lia|]. intros x Hx Hu.
  destruct (decide (x = i)) as [-> |Hne]; [constructor|]. constructor. apply Hused; [unfold in_table in *; lia|].
  unfold used_at in *. rewrite (slot_at_update h t Hinv i s' Hi) in Hu. by replace (x =? i) with false in Hu by lia.
Qed.

(** An entry for [k] is put into slot [i], over the old one of that name or into a slot without an entry. *)
Lemma refines_put h t c M i s' h' k e : refines_at h t c M -> in_table h i -> size h' = size h ->
  table h' = Some (<[Z.to_nat i := s']> t) -> used s' = fh h k -> entry s' = e -> key e = k -> data e <> None ->
  (forall s, live_at h t i s -> key (entry s) = k) ->
  (exists j, (j < Z.to_nat (size h))%nat /\ probe_of h k j = i /\ chain h t k j) ->
  (forall x s, x <> i -> live_at h t x s -> key (entry s) <> k) ->
  filled h' = Z.of_nat (base.size (<[k := e]> M)) -> filled h' <= Z.of_nat (S c) ->
  refines_at h' (<[Z.to_nat i := s']> t) (S c) (<[k := e]> M).
Proof.
  intros [Hinv Hcl Hroom Hfill Hv] Hi Hsz Ht Hu He Hk Hd Hold Hj Hoth Hf Hle. pose proof (fh_range h k ltac:(apply Hinv)) as Hfh.
  assert (used s' <> 0) as Hnz by lia. split.
  - apply (inv_update h t Hinv i s' Hi Hnz h' Hsz Ht). intros _. rewrite He, Hk. split_and!; auto.
  - apply (clean_update h); auto. lia.
  - apply (room_update h); auto. lia.
  - done.
  - intros k' e'. rewrite lookup_insert_Some. split.
    + intros [ [<- <-]|[Hne H'] ].
      * exists i, s'. split_and!; [|done|done]. apply (live_at_update h t Hinv i s' Hi h' Hsz). left. split_and!; [done|done|lia].
      * apply Hv in H' as (x & s & Hl & <- & Hkx). exists x, s. split_and!; [|done|done]. apply (live_at_update h t Hinv i s' Hi h' Hsz).
        right. split; [|done]. intros ->. apply Hne. rewrite <- Hkx. symmetry. by apply Hold.
    + intros (x & s & Hl & <- & Hkx). apply (live_at_update h t Hinv i s' Hi h' Hsz) in Hl as [(-> & -> & _)|[Hne Hl] ]; [left; split; congruence|right].
      split; [intros <-; by eapply Hoth|apply Hv; eauto].
Qed.

(** Slot [i] is marked deleted; [M'] is the map without what was in it. *)
Lemma refines_kill h t c c' M M' i h' k d : refines_at h t c M -> in_table h i -> size h' = size h ->
  table h' = Some (<[Z.to_nat i := Slot (-1) (Entry k d None 0)]> t) ->
  (forall x s, x <> i -> live_at h t x s -> M' !! key (entry s) = Some (entry s)) ->
  (forall k' e', M' !! k' = Some e' -> exists x s, x <> i /\ live_at h t x s /\ entry s = e' /\ key e' = k') ->
  filled h' = Z.of_nat (base.size M') -> room h' (<[Z.to_nat i := Slot (-1) (Entry k d None 0)]> t) c' ->
  refines_at h' (<[Z.to_nat i := Slot (-1) (Entry k d None 0)]> t) c' M'.
Proof.
  intros [Hinv Hcl Hroom Hfill Hv] Hi Hsz Ht HM1 HM2 Hf Hroom'. split.
  - apply (inv_update h t Hinv i _ Hi); [done|done|done|]. cbn [used]. lia.
  - apply (clean_update h); auto.
  - done.
  - done.
  - intros k' e'. split.
    + intros H'. destruct (HM2 k' e' H') as (x & s & Hne & Hl & He & Hk). exists x, s. split_and!; [|done|done].
      apply (live_at_update h t Hinv i _ Hi h' Hsz). right. done.
    + intros (x & s & Hl & <- & <-). apply (live_at_update h t Hinv i _ Hi h' Hsz) in Hl as [(_ & _ & Hp)|[Hne Hl] ]; [cbn [used] in Hp; lia|]. by apply (HM1 x).
Qed.

Lemma fresh_refines p ok : Z.prime p -> 5 <= p < 2 ^ 31 -> refines (fresh p ok) 0 ∅.
Proof.
  intros Hp Hs. exists (slots (fresh p ok)). split; [by apply fresh_inv| |apply room_fresh|done|].
  - intros i s Hs'. unfold slot_at in Hs'. case_match; [|done]. cbn [slots fresh table default] in Hs'. by apply lookup_replicate in Hs' as [-> _].
  - intros k e. rewrite lookup_empty. split; [done|]. intros (i & s & Hl & _). by destruct (fresh_not_live p ok i s).
Qed.

(** ** The operations *)

Section Operations.
Context (strdup : str -> option str) (cbi fli : ENTRY -> ENTRY) `{!Env strdup cbi fli}.

Abbreviation search := (hsearch_r strdup cbi fli).

Lemma dup s : strdup s = Some s.
Proof. apply (env_dup (cbi := cbi) (fli := fli)). Qed.

(** The entry behind [*retval] of a search for the name. *)
Definition hfind (h : hsearch_data) (k : str) (flag : Z) : option (option ENTRY) :=
  r ← search (Entry k None None 0) FIND h flag;
  match retval r with None => Some None | Some i => s ← slot_at (slots (htab r)) i; Some (Some (entry s)) end.

Lemma search_found h t c M k flag : refines_at h t c M ->
  exists r, search (Entry k None None 0) FIND h flag = Some r /\ htab r = h /\
    ((exists i s, live_at h t i s /\ M !! k = Some (entry s) /\ key (entry s) = k /\ ret r = i /\ retval r = Some i) \/
     (M !! k = None /\ ret r = 0 /\ retval r = None)).
Proof.
  intros Hr. pose proof (r_inv _ _ _ _ Hr) as Hinv.
  destruct (search_outcome strdup cbi fli h t Hinv (Entry k None None 0) FIND flag) as (s & pr & Hs & Hout & ->).
  assert (~ present h t k -> M !! k = None) as Hnone by (rewrite (refines_present h t c M k Hr); intros Hn; by apply eq_None_not_Some).
  destruct Hout as [i r Hi Hhit Er|j Hj He Hch Habs|Hall Habs]; cbn [key] in *.
  - exists r. split; [done|]. apply (hit_live h t k i Hinv Hi) in Hhit as (s1 & Hl & Hk).
    revert Er. unfold _compare_and_overwrite_entry. cbn [key]. pose proof Hl as (Hi' & Hs1 & Hu). rewrite Hs1. cbn [mbind option_bind].
    case_match; intros [= <-]. cbn [htab]. split; [done|left]. exists i, s1. split_and!; auto. apply (r_vars _ _ _ _ Hr). eauto.
  - eexists. split; [done|]. split; [done|right]. auto.
  - eexists. split; [done|]. split; [done|right]. auto.
Qed.

Lemma find_refines h c M k flag : refines h c M -> hfind h k flag = Some (M !! k).
Proof.
  intros [t Hr]. unfold hfind. destruct (search_found h t c M k flag Hr) as (r & -> & Eh & Hc); cbn [mbind option_bind].
  destruct Hc as [(i & s & Hl & HM & Hk & _ & ->)|(HM & _ & ->)].
  - rewrite Eh. unfold slots. rewrite (i_table h t (r_inv _ _ _ _ Hr)). cbn [default]. destruct Hl as (_ & Hs & _). unfold id. rewrite Hs. cbn [mbind option_bind]. by rewrite HM.
  - by rewrite HM.
Qed.

(** What both conditions of an operation come to. *)
Lemma not_allowed ok e k d op flag (A : Type) (x y z : A) : key e = k ->
  (if match ok with Some f => negb (f e d op flag =? 0) | None => false end then x else
   if match callback e with Some cb => negb (cb k d op flag =? 0) | None => false end then y else z) =
  (if allowed ok e d op flag then z else if match ok with Some f => negb (f e d op flag =? 0) | None => false end then x else y).
Proof. intros <-. unfold allowed. destruct ok as [f|], (callback e) as [cb|]; repeat match goal with |- context [?a =? 0] => destruct (a =? 0) end; done. Qed.

Lemma map_size_grow (M : vars) k e : (base.size (<[k := e]> M) <= S (base.size M))%nat.
Proof. rewrite map_size_insert. destruct (M !! k); cbn; lia. Qed.

(** Overwriting the entry that was found. *)
Lemma overwrite_refines h t c M item d flag i r : refines_at h t c M -> Z.of_nat c < size h -> data item = Some d -> in_table h i ->
  hit h t (key item) i ->
  _compare_and_overwrite_entry strdup h t item ENTER flag (fh h (key item)) i = Some (Some r) ->
  is_Some (M !! key item) /\
  (let '(b, M') := set_var cbi fli (change_ok h) (key item) d flag M in
   refines (htab r) (S c) M' /\ (if b then ret r = i /\ retval r = Some i else ret r = 0 /\ retval r = None)) /\
  size (htab r) = size h /\ change_ok (htab r) = change_ok h.
Proof.
  intros Hr Hc Hd Hi Hhit. pose proof (r_inv _ _ _ _ Hr) as Hinv. pose proof Hhit as (s & Hs & Hu & Hk).
  pose proof (proj1 (hit_live h t (key item) i Hinv Hi) Hhit) as (s0 & Hl & _).
  assert (s0 = s) as -> by (destruct Hl as (_ & E & _); congruence).
  assert (M !! key item = Some (entry s)) as HM by (apply (r_vars _ _ _ _ Hr); eauto 6).
  unfold _compare_and_overwrite_entry. rewrite Hs. cbn [mbind option_bind]. rewrite (proj2 (Z.eqb_eq _ _) Hu). unfold str_eqb.
  rewrite bool_decide_eq_true_2 by congruence. cbn [andb]. rewrite Hd. cbv beta iota zeta. rewrite dup. rewrite not_allowed by congruence. unfold set_var. rewrite HM.
  assert (refines h (S c) M) as Hsame.
  { exists t. destruct Hr as [? ? Hroom ? ?]. split; auto. destruct Hroom as (Hf & L & HL & Hx). split; [lia|]. exists L. split; [lia|done]. }
  intros E. split; [eauto|]. destruct (allowed (change_ok h) (entry s) (Some d) env_op_overwrite flag) eqn:Ea.
  - injection E as <-. cbn [ret retval htab]. split; [split; [|done]|done]. exists (<[Z.to_nat i := with_data s (Some d)]> t).
    pose proof (i_live h t Hinv i s Hl) as (Hus & j & Hj).
    eapply (refines_put h t c M i (with_data s (Some d))); [done|done|done|done|exact Hu|done|exact Hk|done|..].
    + intros s1 (_ & E & _). congruence.
    + exists j. by rewrite <- Hk.
    + intros x s1 Hne Hl1 Hk1. apply Hne. apply (i_unique h t Hinv x i s1 s Hl1 Hl). congruence.
    + cbn [filled set_slot set_table]. rewrite (r_filled _ _ _ _ Hr), map_size_insert, HM. done.
    + cbn [filled set_slot set_table]. pose proof (r_room _ _ _ _ Hr) as (Hf & _). lia.
  - assert (ret r = 0 /\ retval r = None /\ htab r = h) as (-> & -> & ->); [|done].
    destruct (match change_ok h with Some f => _ | None => _ end); injection E as <-; done.
Qed.

Lemma newborn_key k d : key (newborn cbi fli k d) = k.
Proof. apply (proj1 (env_init (Entry k (Some d) None 0))). Qed.
Lemma newborn_data k d : data (newborn cbi fli k d) = Some d.
Proof. apply (proj2 (env_init (Entry k (Some d) None 0))). Qed.

(** A new entry, or a refused one, in a slot that holds none. *)
Lemma enter_new_refines h t c M item d flag i : refines_at h t c M -> Z.of_nat c < size h -> data item = Some d -> in_table h i ->
  (forall s, ~ live_at h t i s) -> M !! key item = None ->
  (exists j, (j < Z.to_nat (size h))%nat /\ probe_of h (key item) j = i /\ chain h t (key item) j) ->
  exists r, enter_new strdup cbi fli h t item flag (fh h (key item)) i = Some r /\
    (let '(b, M') := set_var cbi fli (change_ok h) (key item) d flag M in
     refines (htab r) (S c) M' /\ (if b then 0 < ret r /\ retval r = Some i else ret r = 0 /\ retval r = None)) /\
    size (htab r) = size h /\ change_ok (htab r) = change_ok h.
Proof.
  intros Hr Hc Hd Hi Hfree HM Hj. pose proof (r_inv _ _ _ _ Hr) as Hinv. pose proof (r_room _ _ _ _ Hr) as (Hf & _).
  pose proof (i_size h t Hinv) as Hsz. unfold enter_new. replace (filled h =? size h) with false by lia.
  destruct (slot_exists h t i Hinv ltac:(unfold in_table in Hi; lia)) as [s Hs]. rewrite Hs. cbn [mbind option_bind].
  assert (used s <= 0) as Hu by (destruct (Z.le_gt_cases (used s) 0); [done|]; destruct (Hfree s); split_and!; auto; lia).
  destruct (r_clean _ _ _ _ Hr i s Hs Hu) as [-> ->]. rewrite Hd. cbn [mbind option_bind]. rewrite !dup.
  fold (newborn cbi fli (key item) d). set (e := newborn cbi fli (key item) d).
  cbn [change_ok set_filled set_table filled]. rewrite not_allowed by apply newborn_key. unfold set_var. rewrite HM. fold e.
  assert (forall x s1, x <> i -> live_at h t x s1 -> key (entry s1) <> key item) as Hoth.
  { intros x s1 _ Hl Hk. assert (M !! key item = Some (entry s1)) by (apply (r_vars _ _ _ _ Hr); eauto). congruence. }
  destruct (allowed (change_ok h) e (Some d) env_op_create flag) eqn:Ea.
  - eexists. split; [done|]. cbn [ret retval htab]. split; [split; [|split; [lia|done] ]|done].
    exists (<[Z.to_nat i := Slot (fh h (key item)) e]> t).
    eapply (refines_put h t c M i (Slot (fh h (key item)) e)); [done|done|done|done|done|done|apply newborn_key|unfold e; by rewrite newborn_data| |done|done|..].
    + intros s1 Hl. by destruct (Hfree s1).
    + cbn [filled set_filled]. rewrite map_size_insert_None by done. rewrite (r_filled _ _ _ _ Hr) in *. rewrite u32_small by lia. lia.
    + cbn [filled set_filled]. rewrite u32_small by lia. lia.
  - unfold _hdelete. set (t1 := <[Z.to_nat i := Slot (fh h (key item)) e]> t).
    assert (slot_at t1 i = Some (Slot (fh h (key item)) e)) as Hs1.
    { unfold t1. rewrite (slot_at_update h t Hinv i _ Hi). by rewrite Z.eqb_refl. }
    rewrite !Hs1. cbn [mbind option_bind entry]. set (h2 := set_filled _ _).
    assert (refines h2 (S c) M) as Href.
    { exists (<[Z.to_nat i := Slot (-1) (Entry (key e) (data e) None 0)]> t).
      assert (filled h2 = filled h) as Hfill. { cbn [h2 filled set_filled]. rewrite (u32_small (filled h + 1)) by lia. rewrite u32_small; lia. }
      eapply (refines_kill h t c (S c) M M i h2); [done|done|done| | | |rewrite Hfill; apply Hr|].
      - unfold h2, t1, set_slot. cbn [table set_filled set_table]. f_equal. apply list_insert_insert_eq.
      - intros x s1 _ Hl. apply (r_vars _ _ _ _ Hr). eauto.
      - intros k' e' HM'. apply (r_vars _ _ _ _ Hr) in HM' as (x & s1 & Hl & He & Hk). exists x, s1. split_and!; auto. intros ->. by destruct (Hfree s1).
      - apply (room_update h); auto; [rewrite Hfill; lia|apply Hr]. }
    destruct (match change_ok h with Some f => _ | None => _ end); (eexists; split; [done|]); cbn [ret retval htab]; done.
Qed.

(** [hsearch_r] with [ENTER] is [set_var]. *)
Lemma enter_var_refines h c M item d flag : refines h c M -> Z.of_nat c < size h -> data item = Some d ->
  exists r, search item ENTER h flag = Some r /\
    (let '(b, M') := set_var cbi fli (change_ok h) (key item) d flag M in
     refines (htab r) (S c) M' /\ (if b then 0 < ret r /\ is_Some (retval r) else ret r = 0 /\ retval r = None)) /\
    size (htab r) = size h /\ change_ok (htab r) = change_ok h.
Proof.
  intros [t Hr] Hc Hd. pose proof (r_inv _ _ _ _ Hr) as Hinv.
  destruct (search_outcome strdup cbi fli h t Hinv item ENTER flag) as (s & pr & Hs & Hout & ->).
  pose proof (fh_range h (key item) ltac:(apply Hinv)) as Hfh.
  assert (used_at t (fh h (key item)) = used s) as Hus by (unfold used_at; rewrite Hs; done).
  assert (forall i, ~ present h t (key item) -> in_table h i -> used_at t i <= 0 ->
    (exists j, (j < Z.to_nat (size h))%nat /\ probe_of h (key item) j = i /\ chain h t (key item) j) ->
    exists r, enter_new strdup cbi fli h t item flag (fh h (key item)) i = Some r /\
      (let '(b, M') := set_var cbi fli (change_ok h) (key item) d flag M in
       refines (htab r) (S c) M' /\ (if b then 0 < ret r /\ is_Some (retval r) else ret r = 0 /\ retval r = None)) /\
      size (htab r) = size h /\ change_ok (htab r) = change_ok h) as Hnew.
  { intros i Habs Hi Hle Hj. destruct (enter_new_refines h t c M item d flag i Hr Hc Hd Hi) as (r & E & Hset & Hsame); auto.
    - intros s1 (_ & Hs1 & Hu). unfold used_at in Hle. rewrite Hs1 in Hle. lia.
    - apply eq_None_not_Some. by rewrite <- (refines_present h t c M _ Hr).
    - exists r. split; [done|]. split; [|done]. destruct (set_var _ _ _ _ _ _ _) as [b M']. destruct Hset as [H1 H2]. split; [done|]. destruct b; [|done].
      destruct H2 as [H2 ->]. eauto. }
  assert (exists j, (j < Z.to_nat (size h))%nat /\ probe_of h (key item) j = fh h (key item) /\ chain h t (key item) j) as Hfirst.
  { exists 0%nat. split_and!; [lia|done|]. intros l Hl. lia. }
  destruct Hout as [i r Hi Hhit Er|j Hj He Hch Habs|Hall Habs].
  - destruct (overwrite_refines h t c M item d flag i r Hr Hc Hd Hi Hhit Er) as (_ & Hset & Hsame). exists r. split; [done|]. split; [|done].
    destruct (set_var _ _ _ _ _ _ _) as [b M']. destruct Hset as [H1 H2]. split; [done|]. destruct b; [|done]. destruct H2 as [-> ->]. unfold in_table in Hi. split; [lia|eauto].
  - destruct (Z.eqb_spec (used s) (-1)) as [E1|E1].
    + replace (fh h (key item) =? 0) with false by lia. apply Hnew; auto; [unfold in_table; lia|lia].
    + cbn [Z.eqb]. apply Hnew; auto; [apply (probe_of_range h t); exact Hinv|lia|eauto].
  - destruct (room_free h t c (r_room _ _ _ _ Hr) Hc) as (i & Hi & Hu). by destruct (Hall i Hi).
Qed.

(** [hdelete_r] is [unset_var]. *)
Lemma delete_refines h c M k flag : refines h c M -> Z.of_nat c <= size h ->
  exists rc e h', hdelete_r strdup cbi fli k h flag = Some (rc, e, h') /\
    (let '(b, M') := unset_var (change_ok h) k flag M in refines h' c M' /\ rc = if b then 1 else 0) /\
    size h' = size h /\ change_ok h' = change_ok h.
Proof.
  intros [t Hr] Hc. pose proof (r_inv _ _ _ _ Hr) as Hinv. unfold hdelete_r, unset_var.
  destruct (search_found h t c M k 0 Hr) as (r & -> & _ & Hcase). cbn [mbind option_bind].
  destruct Hcase as [(i & s & Hl & HM & Hk & -> & _)|(HM & -> & _)].
  2: { rewrite HM. cbn [Z.eqb]. eexists _, _, h. split; [done|]. split; [|done]. split; [by exists t|done]. }
  pose proof Hl as (Hi & Hs & Hu). unfold in_table in Hi. replace (i =? 0) with false by lia. rewrite (i_table h t Hinv). cbn [mbind option_bind].
  rewrite Hs. cbn [mbind option_bind]. rewrite not_allowed by done. rewrite HM.
  destruct (allowed (change_ok h) (entry s) None env_op_delete flag).
  - unfold _hdelete. rewrite Hs. cbn [mbind option_bind]. eexists _, _, _. split; [done|]. split; [|done]. split; [|done].
    assert (0 < Z.of_nat (base.size M)) as Hpos.
    { destruct (base.size M) eqn:E; [|lia]. apply map_size_empty_iff in E. subst M. by rewrite lookup_empty in HM. }
    pose proof (r_filled _ _ _ _ Hr) as Hfl. pose proof (r_room _ _ _ _ Hr) as (Hf & L & HL & Hused). pose proof (i_size h t Hinv) as Hsz.
    assert (base.size (delete k M) = base.size M - 1)%nat as Hds by (rewrite map_size_delete, HM; cbn; lia).
    eexists. eapply (refines_kill h t c c M _ i); [done|done|done|done| | | |].
    + intros x s1 Hne Hl1. apply lookup_delete_Some. split; [|apply (r_vars _ _ _ _ Hr); eauto].
      intros ->. apply Hne. apply (i_unique h t Hinv x i s1 s Hl1 Hl). done.
    + intros k' e' H'. apply lookup_delete_Some in H' as [Hne H']. apply (r_vars _ _ _ _ Hr) in H' as (x & s1 & Hl1 & <- & <-).
      exists x, s1. split_and!; auto. intros ->. apply Hne. destruct Hl1 as (_ & Hs1 & _). congruence.
    + cbn [filled set_filled]. rewrite Hfl, u32_small by lia. lia.
    + split; [cbn [filled set_filled]; rewrite u32_small by lia; lia|]. exists L. split; [done|]. intros x Hx Hux. apply Hused; [done|].
      intros E0. apply Hux. unfold used_at in *. rewrite (slot_at_update h t Hinv i _ Hi). destruct (Z.eqb_spec x i) as [-> |]; [|done]. rewrite Hs in E0. lia.
  - destruct (match change_ok h with Some f => _ | None => _ end); (eexists _, _, _; split; [done|]; split; [|done]; split; [by exists t|done]).
Qed.

(** ** Texts *)

Section Texts.
Context (sep : Z) (Hsep : 0 <= sep < 256) (Hb : sep <> BACKSLASH) (Heq : sep <> EQUALS).

(** The loop of the import makes the assignments of the text. *)
Lemma import_refines flag pad : forall es fuel h c M, refines h c M -> Z.of_nat c + Z.of_nat (length es) <= size h ->
  Forall (ok_entry sep) es -> es <> [] -> (length es <= fuel)%nat ->
  exists h', import_loop strdup cbi fli fuel sep flag 0 h [] (text sep es ++ 0 :: pad) = Some (Done h' []) /\
    refines h' (c + length es) (set_all cbi fli (change_ok h) es flag M) /\ size h' = size h /\ change_ok h' = change_ok h.
Proof.
  induction es as [|e es IH]; intros fuel h c M Hr Hsz Hok Hne Hf; [done|].
  destruct fuel as [|fuel]; [cbn in Hf; lia|]. apply Forall_cons_1 in Hok as [He Hes]. cbn [length] in *. cbn [import_loop].
  rewrite text_cons, parse_entry_line by done. cbn [mbind option_bind].
  assert ((length (key e) =? 0)%nat = false) as ->.
  { pose proof (ok_first sep e He) as Hf'. destruct (key e); [destruct Hf'|done]. }
  unfold drop_var_from_set. cbn [length Nat.eqb]. cbn beta iota.
  destruct (enter_var_refines h c M (Entry (key e) (Some (value_of e)) None 0) (value_of e) flag Hr ltac:(lia) eq_refl) as (r & -> & Hset & Hs1 & Hc1).
  cbn [mbind option_bind key] in *. unfold set_all. cbn [fold_left].
  destruct (set_var cbi fli (change_ok h) (key e) (value_of e) flag M) as [b M1]. destruct Hset as [Hr1 _]. cbn [snd].
  rewrite (continues sep es pad Hes). destruct es as [|e2 es].
  - cbn [length Nat.eqb negb fold_left]. exists (htab r). split_and!; [done|by rewrite Nat.add_1_r|done|done].
  - cbn [length Nat.eqb negb].
    destruct (IH fuel (htab r) (S c) M1 Hr1) as (h' & -> & Hr' & Hs' & Hc'); [cbn [length] in *; lia|done|done|cbn [length] in *; lia|].
    exists h'. rewrite Hc1 in Hr'. split_and!; [done| |congruence|congruence]. by replace (c + S (S (length es)))%nat with (S c + length (e2 :: es))%nat by (cbn; lia).
Qed.

Context (calloc malloc : Z -> bool) (Hcalloc : forall n, calloc n = true) (Hmalloc : forall n, malloc n = true).

(** Without [H_NOCLEAR] and a list of names the import starts with an empty table. *)
Lemma open_fresh h size flag : Z.land flag H_NOCLEAR = 0 -> 0 <= size -> exists p, open_table calloc h size flag [] = Some (1, fresh p (change_ok h)) /\
  nent size <= p < 2 ^ 31 /\ refines (fresh p (change_ok h)) 0 ∅.
Proof.
  intros Hfl Hs. unfold open_table. rewrite Hfl. cbn [Z.eqb length Nat.eqb andb].
  assert (exists h0, match table h with Some _ => hdestroy_r h | None => h end = h0 /\ table h0 = None /\ change_ok h0 = change_ok h) as (h0 & -> & Ht & Hok)
    by (destruct (table h) eqn:E; eexists; split_and!; done).
  rewrite Ht. assert (0 <= size / 8) by (apply Z.div_pos; lia).
  pose proof (hcreate_makes calloc hcreate_fuel (nent size) h0 521 Hcalloc) as H1. rewrite Ht in H1.
  destruct H1 as (p & E & Hp & Hpp & Hi & _); [unfold nent, CONFIG_ENV_MIN_ENTRIES, CONFIG_ENV_MAX_ENTRIES; lia|apply prime_521|lia|
    unfold nent, CONFIG_ENV_MIN_ENTRIES, CONFIG_ENV_MAX_ENTRIES, hcreate_fuel; lia|].
  exists p. replace (if _ <? _ then _ else _) with (nent size) by (unfold nent; case_match; lia). rewrite Hok in E. split; [exact E|].
  pose proof (i_size _ _ Hi) as Hps. cbn [HashTable.size fresh] in Hps. split; [lia|]. apply fresh_refines; [exact (i_prime _ _ Hi)|done].
Qed.

(** The import of a text, with NULs behind it, into any table. *)
Lemma himport_refines h0 es n sz flag : Z.land flag H_NOCLEAR = 0 -> Forall (ok_entry sep) es -> Z.of_nat (length es) <= nent sz ->
  sz = Z.of_nat (length (text sep es)) + Z.of_nat n ->
  exists h', himport_r strdup calloc malloc cbi fli h0 (text sep es ++ replicate n 0) sz sep flag false [] = Some (1, None, h') /\
    refines h' (length es) (set_all cbi fli (change_ok h0) es flag ∅) /\ change_ok h' = change_ok h0 /\ nent sz <= HashTable.size h'.
Proof.
  intros Hfl Hok Hn Hsz. unfold himport_r. rewrite Hmalloc. cbn [negb].
  destruct (open_fresh h0 sz flag Hfl ltac:(lia)) as (p & -> & Hp & Hr). cbn [mbind option_bind Z.eqb].
  replace (take (Z.to_nat sz) (text sep es ++ replicate n 0) ++ [0]) with (text sep es ++ 0 :: replicate n 0).
  2: { rewrite take_ge by (rewrite length_app, length_replicate; lia). rewrite <- app_assoc. f_equal.
       change (0 :: replicate n 0) with (replicate (1 + n) 0). rewrite Nat.add_comm, replicate_add. done. }
  destruct es as [|e es].
  - exists (fresh p (change_ok h0)). split_and!; [|done|done|cbn; lia]. cbn [text map concat app]. case_match; [done|].
    cbn [length]. cbn [import_loop]. replace (parse_entry sep (0 :: replicate n 0)) with (Some (Delete [], replicate n 0)) by done.
    cbn [mbind option_bind]. unfold drop_var_from_set. cbn [length Nat.eqb map]. cbn beta iota.
    unfold hdelete_r. destruct Hr as [t Hr]. destruct (search_found _ t 0 ∅ [] 0 Hr) as (r & -> & _ & Hcase). cbn [mbind option_bind].
    destruct Hcase as [(i & s & _ & HM & _)|(_ & -> & _)]; [by rewrite lookup_empty in HM|]. cbn [Z.eqb mbind option_bind].
    replace (nth 0 (replicate n 0) 0) with 0 by (by destruct n). cbn [Z.eqb negb]. rewrite andb_false_r. cbn [mbind option_bind]. by rewrite Hfl.
  - pose proof (text_length sep (e :: es)) as Htl. cbn [length] in Htl. replace (sz =? 0) with false by lia.
    change (map (@Some str) []) with (@nil (option str)). cbn beta iota.
    destruct (import_refines flag (replicate n 0) (e :: es) (length (text sep (e :: es) ++ 0 :: replicate n 0)) (fresh p (change_ok h0)) 0 ∅ Hr)
      as (h' & -> & Hr' & Hs' & Hc'); [cbn [HashTable.size fresh]; lia|done|done|rewrite length_app; cbn [length]; lia|].
    cbn [mbind option_bind]. rewrite Hfl. cbn [Z.eqb negb]. exists h'. split_and!; [done|exact Hr'|done|]. rewrite Hs'. cbn [HashTable.size fresh]. lia.
Qed.

End Texts.

(** *** The variables in a text *)

(** Every variable under its own name. *)
Definition named (M : vars) : Prop := map_Forall (fun k e => key e = k) M.

Lemma refines_named h c M : refines h c M -> named M.
Proof. intros [t Hr] k e He. apply (r_vars _ _ _ _ Hr) in He as (i & s & _ & _ & Hk). done. Qed.

(** What is set again: the values, with the callbacks and flags of new variables. *)
Definition reload (M : vars) : vars := (fun e => newborn cbi fli (key e) (value_of e)) <$> M.

Definition accepted (ok : check) (M : vars) : Prop :=
  map_Forall (fun k e => allowed ok (newborn cbi fli k (value_of e)) (Some (value_of e)) env_op_create 0 = true) M.

Lemma set_all_lookup ok es : forall M, NoDup (map key es) -> (forall e, e ∈ es -> M !! key e = None) ->
  (forall e, e ∈ es -> allowed ok (newborn cbi fli (key e) (value_of e)) (Some (value_of e)) env_op_create 0 = true) ->
  forall k x, set_all cbi fli ok es 0 M !! k = Some x <->
    (exists e, e ∈ es /\ key e = k /\ x = newborn cbi fli k (value_of e)) \/ M !! k = Some x.
Proof.
  induction es as [|e es IH]; intros M Hnd Hno Hok k x.
  - cbn [set_all fold_left]. split; [by right|]. intros [(e & He & _)|?]; [by apply elem_of_nil in He|done].
  - cbn [map] in Hnd. apply NoDup_cons in Hnd as [Hni Hnd]. unfold set_all. cbn [fold_left].
    assert (set_var cbi fli ok (key e) (value_of e) 0 M = (true, <[key e := newborn cbi fli (key e) (value_of e)]> M)) as ->
      by (unfold set_var; rewrite (Hno e) by constructor; by rewrite (Hok e) by constructor). cbn [snd].
    fold (set_all cbi fli ok es 0 (<[key e := newborn cbi fli (key e) (value_of e)]> M)). rewrite IH.
    + split.
      * intros [(e1 & He1 & Hk & Hx)|H1]; [left; exists e1; split_and!; [by constructor|done|done]|].
        apply lookup_insert_Some in H1 as [ [<- <-]|[_ H1] ]; [left; exists e; split_and!; [constructor|done|done]|by right].
      * intros [(e1 & He1 & Hk & Hx)|H1].
        { apply elem_of_cons in He1 as [-> |He1]; [right; subst; apply lookup_insert_eq|left; eauto]. }
        right. rewrite lookup_insert_ne; [done|]. intros <-. rewrite (Hno e) in H1 by constructor. done.
    + done.
    + intros e1 He1. rewrite lookup_insert_ne; [apply Hno; by constructor|]. intros E. apply Hni. rewrite E. by apply list_elem_of_fmap_2.
    + intros e1 He1. apply Hok. by constructor.
Qed.

Lemma elem_of_entries (M : vars) e : e ∈ (map_to_list M).*2 <-> exists k, M !! k = Some e.
Proof.
  rewrite list_elem_of_fmap. split.
  - intros ([k x] & -> & H). exists k. by apply elem_of_map_to_list.
  - intros [k H]. exists (k, e). split; [done|]. by apply elem_of_map_to_list.
Qed.

Lemma entries_keys (M : vars) : named M -> map key (map_to_list M).*2 = (map_to_list M).*1.
Proof.
  intros Hn. assert (Forall (fun p => key p.2 = p.1) (map_to_list M)) as H.
  { apply Forall_forall. intros [k e] H. apply elem_of_map_to_list in H. exact (Hn k e H). }
  induction H as [|[k e] l Hk _ IH]; [done|]. cbn in *. by rewrite Hk, IH.
Qed.

Lemma set_all_reload ok es M : named M -> accepted ok M -> es ≡ₚ (map_to_list M).*2 -> set_all cbi fli ok es 0 ∅ = reload M.
Proof.
  intros Hn Hacc Hp. apply map_eq. intros k. apply option_eq. intros x.
  assert (forall e, e ∈ es <-> exists k, M !! k = Some e) as Hel by (intros e; rewrite Hp; apply elem_of_entries).
  rewrite set_all_lookup.
  - unfold reload. rewrite lookup_fmap, lookup_empty. split.
    + intros [(e & He & <- & ->)|?]; [|done]. apply Hel in He as [k He]. pose proof (Hn k e He) as Hk. cbn beta in Hk. subst k. by rewrite He.
    + destruct (M !! k) as [e|] eqn:He; [|done]. cbn. intros [= <-]. left. exists e. pose proof (Hn k e He) as Hk. cbn beta in Hk.
      split_and!; [apply Hel; eauto|done|by rewrite Hk].
  - rewrite Hp, entries_keys by done. apply NoDup_fst_map_to_list.
  - intros e _. apply lookup_empty.
  - intros e He. apply Hel in He as [k0 He]. pose proof (Hn k0 e He) as Hk. cbn beta in Hk. subst k0. exact (Hacc _ e He).
Qed.

(** *** Export *)

Definition ok_vars (sep : Z) (M : vars) : Prop := map_Forall (fun _ e => ok_entry sep e /\ counted sep e) M.

Lemma kept_vars slre h t c M : refines_at h t c M -> kept slre 0 [] (drop 1 t) ≡ₚ (map_to_list M).*2.
Proof.
  intros Hr. pose proof (r_inv _ _ _ _ Hr) as Hinv. apply NoDup_Permutation.
  - eapply NoDup_fmap_1. exact (kept_nodup slre h t Hinv).
  - apply (NoDup_fmap_1 key). change (NoDup (map key (map_to_list M).*2)). rewrite entries_keys by (apply (refines_named h c); by exists t). apply NoDup_fst_map_to_list.
  - intros e. rewrite elem_of_entries, kept_all. split.
    + intros (i & s & Hs & Hu & <-). exists (key (entry s)). apply (r_vars _ _ _ _ Hr). exists (Z.of_nat (S i)), s. split_and!; [|done|done]. by apply live_slot.
    + intros [k Hk]. apply (r_vars _ _ _ _ Hr) in Hk as (i & s & (Hi & Hs & Hu) & <- & _). unfold in_table, slot_at in *.
      replace (0 <=? i) with true in Hs by lia. exists (Z.to_nat i - 1)%nat, s. split_and!; auto. rewrite lookup_drop, <- Hs. f_equal. lia.
Qed.

(** The export into a buffer with a size writes the text of the variables, or nothing when it does not fit. *)
Lemma export_refines slre galloc h c M sep res size m : refines h c M -> 0 <= sep < 256 -> ok_vars sep M -> 0 < size ->
  exists es, es ≡ₚ (map_to_list M).*2 /\ Forall (ok_entry sep) es /\
    if size <? Z.of_nat (length (text sep es)) + 1 then hexport_r slre galloc h sep 0 (User res) size [] m = Some (m, inr ENOMEM)
    else exists m', hexport_r slre galloc h sep 0 (User res) size [] m = Some (m', inl (size, res)) /\
      bytes m' res (Z.to_nat size) = text sep es ++ replicate (Z.to_nat size - length (text sep es)) 0 /\
      forall x, x < res \/ res + size <= x -> ld m' x = ld m x.
Proof.
  intros [t Hr] Hsep Hok Hs. pose proof (kept_vars slre h t c M Hr) as Hp.
  assert (Forall (ok_entry sep) (kept slre 0 [] (drop 1 t)) /\ Forall (counted sep) (kept slre 0 [] (drop 1 t))) as [Hk Hc].
  { split; apply Forall_forall; intros e He; rewrite Hp in He; apply elem_of_entries in He as [k He]; apply (Hok k e He). }
  exists (exported slre t 0 []). split; [etrans; [apply Qsort.sort_list_perm|exact Hp]|]. split; [exact (proj1 (exported_ok slre t sep 0 [] Hk Hc))|].
  pose proof (hexport_writes slre galloc h t (r_inv _ _ _ _ Hr) sep 0 [] Hsep Hk Hc res size m Hs) as H. cbn zeta in H.
  case_match; [exact H|]. destruct H as (m' & E & Hb & Hf & _). eauto.
Qed.

(** ** Sequences of operations *)

Inductive op := Assign (k d : str) (flag : Z) | Remove (k : str) (flag : Z) | Look (k : str) (flag : Z).
Inductive seen := Changed (b : bool) | Value (v : option ENTRY).

Definition table_op (o : op) (h : hsearch_data) : option (seen * hsearch_data) :=
  match o with
  | Assign k d flag => r ← search (Entry k (Some d) None 0) ENTER h flag; Some (Changed (bool_decide (is_Some (retval r))), htab r)
  | Remove k flag => '(rc, _, h) ← hdelete_r strdup cbi fli k h flag; Some (Changed (negb (rc =? 0)), h)
  | Look k flag => v ← hfind h k flag; Some (Value v, h)
  end.

Definition map_op (ok : check) (o : op) (M : vars) : seen * vars :=
  match o with
  | Assign k d flag => let '(b, M) := set_var cbi fli ok k d flag M in (Changed b, M)
  | Remove k flag => let '(b, M) := unset_var ok k flag M in (Changed b, M)
  | Look k _ => (Value (M !! k), M)
  end.

Fixpoint table_ops (l : list op) (h : hsearch_data) : option (list seen * hsearch_data) :=
  match l with
  | [] => Some ([], h)
  | o :: l => '(x, h) ← table_op o h; '(xs, h) ← table_ops l h; Some (x :: xs, h)
  end.
Fixpoint map_ops (ok : check) (l : list op) (M : vars) : list seen * vars :=
  match l with [] => ([], M) | o :: l => let '(x, M) := map_op ok o M in let '(xs, M) := map_ops ok l M in (x :: xs, M) end.

Lemma op_refines o h c M : refines h c M -> Z.of_nat c < size h ->
  exists h', table_op o h = Some ((map_op (change_ok h) o M).1, h') /\ refines h' (S c) (map_op (change_ok h) o M).2 /\
    size h' = size h /\ change_ok h' = change_ok h.
Proof.
  intros Hr Hc. assert (forall h M, refines h c M -> refines h (S c) M) as Hmore.
  { intros h1 M1 (t & [? ? (Hf & L & HL & Hx) ? ?]). exists t. split; auto. split; [lia|]. exists L. split; [lia|done]. }
  destruct o as [k d flag|k flag|k flag]; cbn [table_op map_op].
  - destruct (enter_var_refines h c M (Entry k (Some d) None 0) d flag Hr Hc eq_refl) as (r & -> & Hset & Hs). cbn [mbind option_bind key] in *.
    destruct (set_var _ _ _ _ _ _ _) as [b M']. destruct Hset as [Hr' Hb]. exists (htab r). split; [|done]. cbn [fst]. do 3 f_equal.
    destruct b; [apply bool_decide_eq_true_2; exact (proj2 Hb)|]. destruct Hb as [_ ->]. apply bool_decide_eq_false_2, is_Some_None.
  - destruct (delete_refines h c M k flag Hr ltac:(lia)) as (rc & e & h' & -> & Hset & Hs). cbn [mbind option_bind].
    destruct (unset_var _ _ _ _) as [b M']. destruct Hset as [Hr' ->]. exists h'. split; [by destruct b|]. split; [by apply Hmore|done].
  - rewrite (find_refines h c M k flag Hr). cbn [mbind option_bind]. exists h. split_and!; auto.
Qed.

Lemma ops_refine l : forall h c M, refines h c M -> Z.of_nat c + Z.of_nat (length l) <= size h ->
  exists h', table_ops l h = Some ((map_ops (change_ok h) l M).1, h') /\ refines h' (c + length l) (map_ops (change_ok h) l M).2 /\
    size h' = size h /\ change_ok h' = change_ok h.
Proof.
  induction l as [|o l IH]; intros h c M Hr Hc; cbn [table_ops map_ops length].
  - exists h. rewrite Nat.add_0_r. done.
  - cbn [length] in Hc. destruct (op_refines o h c M Hr ltac:(lia)) as (h1 & -> & Hr1 & Hs1 & Hc1). cbn [mbind option_bind].
    destruct (map_op (change_ok h) o M) as [x M1]. cbn [fst snd] in *. destruct (IH h1 (S c) M1 Hr1 ltac:(lia)) as (h2 & -> & Hr2 & Hs2 & Hc2).
    rewrite Hc1 in *. cbn [mbind option_bind]. destruct (map_ops (change_ok h) l M1) as [xs M2]. cbn [fst snd] in *. exists h2.
    split_and!; [done|by rewrite <- Nat.add_succ_comm|congruence|congruence].
Qed.

End Operations.

(** C23: The table of the environment is a map of checked variables: every sequence of assignments, removals and look-ups,
    with whatever flags and whatever the check and the callbacks decide, gives the answers of the map, as long as the
    table has slots that were never used. *)
Theorem hashtable_refines_map strdup cbi fli `{!Env strdup cbi fli} (l : list op) h c M : refines h c M ->
  Z.of_nat c + Z.of_nat (length l) <= size h ->
  exists h', table_ops strdup cbi fli l h = Some ((map_ops cbi fli (change_ok h) l M).1, h') /\
    refines h' (c + length l) (map_ops cbi fli (change_ok h) l M).2.
Proof. intros Hr Hc. destruct (ops_refine strdup cbi fli l h c M Hr Hc) as (h' & E & Hr' & _). eauto. Qed.

(** A check that refuses the value 9: [a=1] is set, [a=9] is not, [b] is not there. *)
Definition no_nine (_ : ENTRY) (d : option str) (_ : env_op) (_ : Z) : Z := if bool_decide (d = Some [57]) then 1 else 0.

Lemma hashtable_refines_map_witness : exists h',
  table_ops Some no_callback id [Assign [97] [49] 0; Assign [97] [57] 0; Remove [98] 0; Look [97] 0] (fresh 521 (Some no_nine)) =
    Some ([Changed true; Changed false; Changed false; Value (Some (Entry [97] (Some [49]) None 0))], h').
Proof.
  destruct (hashtable_refines_map Some no_callback id [Assign [97] [49] 0; Assign [97] [57] 0; Remove [98] 0; Look [97] 0]
    (fresh 521 (Some no_nine)) 0 ∅) as (h' & E & _); [apply fresh_refines; [apply prime_521|lia]|cbn; lia|].
  exists h'. rewrite E. reflexivity.
Defined.

End EnvTable.
