(* ===== verification/EnvFlags.v ===== *)
(** * EnvFlags: attributes and permissions of environment variables

    U-Boot's env/attr.c, env/flags.c and env/callback.c, with [strim] of lib/linux_string.c: lists of attributes such as
    ["ipaddr:i,serial#:so"], the types and access rights they give to variables, and the check [env_flags_validate] that
    the hash table of the environment calls before every change.  The regular expressions of lib/slre.c and [malloc] are
    parameters.  Of the callbacks [on_flags], which belongs to the variable .flags, is modelled; of the others only whether
    they agree to a change. *)

From stdpp Require Import base list option strings.
From Stdlib Require Import ZifyBool.
From S2P Require Import Prelude Ctype Carray Part HashTable.
Import Carray HashTable.

Module EnvFlags.

Definition ENOENT : Z := 2.
Definition ENV_ATTR_LIST_DELIM : Z := 44.
Definition ENV_ATTR_SEP : Z := 58.

(** ** Attribute lists *)

Fixpoint skip_spaces (s : str) : str := match s with c :: r => if Ctype.isspace c then skip_spaces r else s | [] => [] end.
Definition strim (s : str) : str := rev (skip_spaces (rev (skip_spaces s))).

(** The entries between the commas, as the loop of [env_attr_walk] finds them. *)
Fixpoint split_list (s : str) : list str :=
  match s with
  | [] => [ [] ]
  | c :: r => if c =? ENV_ATTR_LIST_DELIM then [] :: split_list r
              else match split_list r with e :: es => (c :: e) :: es | [] => [ [c] ] end
  end.

Section Attributes.
Context (malloc : Z -> bool) (slre : str -> option (str -> bool)).

(** The loop of [env_attr_walk]: a callback that returns nonzero ends it. *)
Fixpoint walk_entries {S : Type} (callback : str -> option str -> S -> Z * S) (l : list str) (s : S) : Z * S :=
  match l with
  | [] => (0, s)
  | e :: l =>
    if (length e =? 0)%nat then walk_entries callback l s else
    if negb (malloc (Z.of_nat (length e) + 1)) then (- ENOMEM, s) else
    let '(n, attributes) := Part.split_at ENV_ATTR_SEP e in
    let name := strim n in
    if (length name =? 0)%nat then walk_entries callback l s else
    let '(retval, s) := callback name (strim <$> attributes) s in
    if negb (retval =? 0) then (retval, s) else walk_entries callback l s
  end.

Definition env_attr_walk {S : Type} (attr_list : option str) (callback : str -> option str -> S -> Z * S) (s : S) : Z * S :=
  match attr_list with None => (1, s) | Some l => walk_entries callback (split_list l) s end.

(** [struct regex_callback_priv] without the name that is searched for. *)
Record regex_priv := Priv { p_regex : option str; p_attributes : option str }.

Definition regex_callback (searched_for name : str) (attributes : option str) (p : regex_priv) : Z * regex_priv :=
  let regex := 94 :: name ++ [36] in
  match slre regex with
  | None => (- EINVAL, p)
  | Some matches =>
    if negb (matches searched_for) then (0, p) else
    match attributes with
    | None => (- EINVAL, p)
    | Some a =>
      if negb (malloc (Z.of_nat (length regex) + 1)) then (- ENOMEM, Priv None (p_attributes p)) else
      if negb (malloc (Z.of_nat (length a) + 1)) then (- ENOMEM, Priv None None) else
      (0, Priv (Some regex) (Some a))
    end
  end.

(** The return value and [attributes]: the last entry that describes the name counts. *)
Definition env_attr_lookup (attr_list : option str) (name : str) : Z * option str :=
  match attr_list with
  | None => (- EINVAL, None)
  | Some l =>
    let '(retval, p) := env_attr_walk (Some l) (regex_callback name) (Priv None None) in
    if negb (retval =? 0) then (retval, None) else
    match p_regex p with Some _ => (0, p_attributes p) | None => (- ENOENT, None) end
  end.

(** ** Types and access *)

Inductive vartype := vartype_string | vartype_decimal | vartype_hex | vartype_bool | vartype_ipaddr | vartype_macaddr | vartype_end.
Inductive varaccess := varaccess_any | varaccess_readonly | varaccess_writeonce | varaccess_changedefault.

Definition PREVENT_DELETE : Z := 0x8.
Definition PREVENT_CREATE : Z := 0x10.
Definition PREVENT_OVERWR : Z := 0x20.
Definition PREVENT_NONDEF_OVERWR : Z := 0x40.
Definition VARTYPE_BIN_MASK : Z := 0x7.
Definition VARACCESS_BIN_MASK : Z := 0x78.

Definition env_flags_varaccess_mask (a : varaccess) : Z :=
  match a with
  | varaccess_any => 0
  | varaccess_readonly => Z.lor PREVENT_DELETE (Z.lor PREVENT_CREATE PREVENT_OVERWR)
  | varaccess_writeonce => Z.lor PREVENT_DELETE PREVENT_OVERWR
  | varaccess_changedefault => Z.lor PREVENT_DELETE PREVENT_NONDEF_OVERWR
  end.

(** The values of the enumeration. *)
Definition vartype_value (t : vartype) : Z :=
  match t with vartype_string => 0 | vartype_decimal => 1 | vartype_hex => 2 | vartype_bool => 3 | vartype_ipaddr => 4 | vartype_macaddr => 5 | vartype_end => 6 end.
Definition vartype_of (v : Z) : option vartype :=
  match v with 0 => Some vartype_string | 1 => Some vartype_decimal | 2 => Some vartype_hex | 3 => Some vartype_bool
             | 4 => Some vartype_ipaddr | 5 => Some vartype_macaddr | 6 => Some vartype_end | _ => None end.

(** [env_flags_vartype_rep] is ["sdxbim"], [env_flags_varaccess_rep] is ["aroc"]. *)
Definition env_flags_parse_vartype (flags : str) : vartype :=
  match flags with
  | [] => vartype_string
  | c :: _ => if c =? 115 then vartype_string else if c =? 100 then vartype_decimal else if c =? 120 then vartype_hex else if c =? 98 then vartype_bool
              else if c =? 105 then vartype_ipaddr else if c =? 109 then vartype_macaddr else vartype_string
  end.

Definition env_flags_parse_varaccess (flags : str) : varaccess :=
  match flags with
  | _ :: c :: _ => if c =? 97 then varaccess_any else if c =? 114 then varaccess_readonly else if c =? 111 then varaccess_writeonce
                   else if c =? 99 then varaccess_changedefault else varaccess_any
  | _ => varaccess_any
  end.

Definition env_flags_parse_varaccess_from_binflags (binflags : Z) : varaccess :=
  let b := Z.land binflags VARACCESS_BIN_MASK in
  if env_flags_varaccess_mask varaccess_any =? b then varaccess_any else
  if env_flags_varaccess_mask varaccess_readonly =? b then varaccess_readonly else
  if env_flags_varaccess_mask varaccess_writeonce =? b then varaccess_writeonce else
  if env_flags_varaccess_mask varaccess_changedefault =? b then varaccess_changedefault else varaccess_any.

Definition is_hex_prefix (value : str) : bool :=
  match value with c :: d :: _ => (c =? 48) && ((d =? 120) || (d =? 88)) | _ => false end.

(** What [skip_num] leaves: at most [n] digits are skipped. *)
Fixpoint skip_digits (p : Z -> bool) (n : nat) (value : str) : str :=
  match n, value with
  | S n, c :: r => if p c then skip_digits p n r else value
  | _, _ => value
  end.

(** [None] for [max_digits] is -1. *)
Definition skip_num (hex : bool) (value : str) (max_digits : option nat) : str :=
  let value := if hex && is_hex_prefix value then drop 2 value else value in
  skip_digits (if hex then Ctype.isxdigit else Ctype.isdigit) (default (length value) max_digits) value.

(** The loop of [eth_validate_ethaddr_str]; [k] groups are left. *)
Fixpoint ethaddr_groups (k : nat) (cur : str) : bool :=
  match k with
  | O => true
  | S k =>
    let e := skip_num true cur (Some 2%nat) in
    if (length cur =? length e)%nat then false else
    if (length cur =? 2 + length e)%nat && is_hex_prefix cur then false else
    match k, e with
    | O, [] => true
    | S _, c :: r => (c =? 58) && ethaddr_groups k r
    | _, _ => false
    end
  end.
Definition eth_validate_ethaddr_str (addr : str) : Z := if ethaddr_groups 6 addr then 0 else -1.

(** The loop for [env_flags_vartype_ipaddr]. *)
Fixpoint ipaddr_groups (k : nat) (cur : str) : bool :=
  match k with
  | O => true
  | S k =>
    let e := skip_num false cur (Some 3%nat) in
    if (length cur =? length e)%nat then false else
    match k, e with
    | O, [] => true
    | S _, c :: r => (c =? 46) && ipaddr_groups k r
    | _, _ => false
    end
  end.

Definition bool_char (c : Z) : bool :=
  (c =? 49) || (c =? 121) || (c =? 116) || (c =? 89) || (c =? 84) || (c =? 48) || (c =? 110) || (c =? 102) || (c =? 78) || (c =? 70).

Definition _env_flags_validate_type (value : str) (t : vartype) : Z :=
  let check (b : bool) := if b then 0 else -1 in
  match t with
  | vartype_string => 0
  | vartype_decimal => check (length (skip_num false value None) =? 0)%nat
  | vartype_hex =>
    let e := skip_num true value None in
    if negb (length e =? 0)%nat then -1 else check (negb ((length value =? 2 + length e)%nat && is_hex_prefix value))
  | vartype_bool => match value with c :: r => check (bool_char c && (length r =? 0)%nat) | [] => -1 end
  | vartype_ipaddr => check (ipaddr_groups 4 value)
  | vartype_macaddr => eth_validate_ethaddr_str value
  | vartype_end => -1
  end.

(** ** The flags of a variable *)

(** The board's list; CONFIG_ENV_OVERWRITE leaves out serial#. *)
Definition ENV_FLAGS_LIST_STATIC : str := Eval vm_compute in
  lit "eth\d?addr:ma,ipaddr:i,gatewayip:i,netmask:i,serverip:i,nvlan:d,vlan:d,dnsip:i,".
Definition ENV_FLAGS_ATTR_MAX_LEN : Z := 2.

Definition env_flags_lookup (flags_list : option str) (name : str) : Z * option str :=
  let '(ret, flags) := match flags_list with Some _ => env_attr_lookup flags_list name | None => (1, None) end in
  if negb (ret =? 0) then env_attr_lookup (Some ENV_FLAGS_LIST_STATIC) name else (ret, flags).

Definition env_parse_flags_to_bin (flags : str) : Z :=
  Z.lor (Z.land (vartype_value (env_flags_parse_vartype flags)) VARTYPE_BIN_MASK) (env_flags_varaccess_mask (env_flags_parse_varaccess flags)).

Definition set_entry_flags (e : ENTRY) (f : Z) : ENTRY := Entry (key e) (data e) (callback e) f.

(** [flags_list] is what [.flags] was when the first variable was entered; [None] is a write past the buffer of
    [ENV_FLAGS_ATTR_MAX_LEN + 1] characters. *)
Definition env_flags_init (flags_list : option str) (e : ENTRY) : option ENTRY :=
  let '(ret, flags) := env_flags_lookup flags_list (key e) in
  if negb (ret =? 0) then Some e else
  match flags with
  | None | Some [] => Some e
  | Some f => if ENV_FLAGS_ATTR_MAX_LEN <? Z.of_nat (length f) then None else Some (set_entry_flags e (env_parse_flags_to_bin f))
  end.

(** ** The callback of the variable .flags *)

(** [hwalk_r(&env_htab, clear_flags)] *)
Definition clear_flags (e : ENTRY) : ENTRY := set_entry_flags e 0.
Definition clear_all (t : list _ENTRY) : list _ENTRY :=
  match t with
  | [] => []
  | s0 :: t => s0 :: map (fun s => if 0 <? used s then Slot (used s) (clear_flags (entry s)) else s) t
  end.

(** [set_flags] on the table; a search changes nothing and allocates nothing.  [None] is an access outside the table. *)
Definition set_flags (name : str) (value : option str) (h : option hsearch_data) : Z * option hsearch_data :=
  (0, h ← h;
      r ← hsearch_r Some id id (Entry name None None 0) FIND h 0;
      match retval r with
      | None => Some h
      | Some i =>
        t ← table h; s ← slot_at t i;
        let f := match value with None | Some [] => 0 | Some v => env_parse_flags_to_bin v end in
        Some (set_slot h t i (Slot (used s) (set_entry_flags (entry s) f)))
      end).

Definition on_flags (value : option str) (h : hsearch_data) : option hsearch_data :=
  t ← table h;
  let h := Some (set_table h (clear_all t)) in
  let h := (env_attr_walk (Some ENV_FLAGS_LIST_STATIC) set_flags h).2 in
  (env_attr_walk value set_flags h).2.

(** ** Callbacks *)

(** [callbacks] is the table of registered ones. *)
Definition find_env_callback (callbacks : list (str * (str -> option str -> env_op -> Z -> Z))) (name : str) :
    option (str -> option str -> env_op -> Z -> Z) :=
  snd <$> List.find (fun c => bool_decide (name = c.1)) callbacks.

Definition env_callback_init (callbacks : list (str * (str -> option str -> env_op -> Z -> Z))) (static_list : str) (callback_list : option str)
    (e : ENTRY) : option ENTRY :=
  let '(ret, name) := match callback_list with Some _ => env_attr_lookup callback_list (key e) | None => (1, None) end in
  let '(ret, name) := if negb (ret =? 0) then env_attr_lookup (Some static_list) (key e) else (ret, name) in
  if negb (ret =? 0) then Some e else
  match name with
  | None | Some [] => Some e
  | Some n =>
    if 255 <? Z.of_nat (length n) then None else
    Some (match find_env_callback callbacks n with Some cb => Entry (key e) (data e) (Some cb) (flags e) | None => e end)
  end.

(** ** The check before a change *)

(** [env_get_default] is the value in the default environment. *)
Definition env_flags_validate (env_get_default : str -> option str) (item : ENTRY) (newval : option str) (op : env_op) (flag : Z) : Z :=
  let new := default [] newval in
  let typed :=
    match op with
    | env_op_delete => 0
    | _ => match vartype_of (Z.land VARTYPE_BIN_MASK (HashTable.flags item)) with Some t => _env_flags_validate_type new t | None => 0 end
    end in
  if typed <? 0 then -1 else
  if negb (Z.land flag H_FORCE =? 0) then 0 else
  let prevents x := negb (Z.land (HashTable.flags item) x =? 0) in
  match op with
  | env_op_delete => if prevents PREVENT_DELETE then 1 else 0
  | env_op_overwrite =>
    if prevents PREVENT_OVERWR then 1 else
    if prevents PREVENT_NONDEF_OVERWR && negb (bool_decide (default [] (data item) = default [] (env_get_default (key item)))) then 1 else 0
  | env_op_create => if prevents PREVENT_CREATE then 1 else 0
  end.

End Attributes.

(** ** What the types admit *)

(** Groups of characters with a separator between them. *)
Fixpoint join (sep : Z) (l : list str) : str :=
  match l with [] => [] | [x] => x | x :: l => x ++ sep :: join sep l end.

Definition digits (p : Z -> bool) (lo hi : nat) (s : str) : Prop := (lo <= length s <= hi)%nat /\ Forall (fun c => p c = true) s.

(** A group of a MAC address: one or two digits, possibly after 0x. *)
Definition ether_group (s : str) : Prop :=
  digits Ctype.isxdigit 1 2 s \/ exists c d r, s = c :: d :: r /\ is_hex_prefix s = true /\ digits Ctype.isxdigit 1 2 r.

(** The texts of a type. *)
Definition admits (t : vartype) (s : str) : Prop :=
  match t with
  | vartype_string => True
  | vartype_decimal => Forall (fun c => Ctype.isdigit c = true) s
  | vartype_hex => Forall (fun c => Ctype.isxdigit c = true) s \/
      exists c d r, s = c :: d :: r /\ is_hex_prefix s = true /\ r <> [] /\ Forall (fun c => Ctype.isxdigit c = true) r
  | vartype_bool => exists c, s = [c] /\ bool_char c = true
  | vartype_ipaddr => exists l, length l = 4%nat /\ Forall (digits Ctype.isdigit 1 3) l /\ s = join 46 l
  | vartype_macaddr => exists l, length l = 6%nat /\ Forall ether_group l /\ s = join 58 l
  | vartype_end => False
  end.

Lemma skip_digits_split p n : forall v, exists d, v = d ++ skip_digits p n v /\ (length d <= n)%nat /\ Forall (fun c => p c = true) d.
Proof.
  induction n as [|n IH]; intros v; [exists []; split_and!; [by destruct v|done|constructor]|]. destruct v as [|c r]; [exists []; split_and!; [done|cbn; lia|constructor]|].
  cbn [skip_digits]. destruct (p c) eqn:E; [|exists []; split_and!; [done|cbn; lia|constructor] ].
  destruct (IH r) as (d & Hd & Hl & Hp). exists (c :: d). split_and!; [cbn; by f_equal|cbn; lia|by constructor].
Qed.

Lemma skip_digits_all p n : forall d e, (length d <= n)%nat -> Forall (fun c => p c = true) d -> match e with c :: _ => p c = false | [] => True end ->
  skip_digits p n (d ++ e) = e.
Proof.
  induction n as [|n IH]; intros d e Hl Hd He.
  - destruct d; [by destruct e|cbn in Hl; lia].
  - destruct d as [|c d]; [destruct e as [|c e]; cbn; [done|by rewrite He]|]. cbn [app skip_digits]. apply Forall_cons_iff in Hd as [Hc Hd]. rewrite Hc.
    apply IH; [cbn in Hl; lia|done|done].
Qed.

Lemma skip_digits_end p v : skip_digits p (length v) v = [] <-> Forall (fun c => p c = true) v.
Proof.
  split; intros H.
  - destruct (skip_digits_split p (length v) v) as (d & Hd & _ & Hp). rewrite H, app_nil_r in Hd. by subst d.
  - rewrite <- (app_nil_r v) at 2. by apply skip_digits_all.
Qed.

(** A hexadecimal prefix is not a sequence of digits. *)
Lemma prefix_not_digits v : is_hex_prefix v = true -> ~ Forall (fun c => Ctype.isxdigit c = true) v.
Proof.
  destruct v as [|c [|d v] ]; [done..|]. cbn [is_hex_prefix]. intros H Hf. apply Forall_cons_iff in Hf as [_ Hf]. apply Forall_cons_iff in Hf as [Hd _].
  assert (d = 120 \/ d = 88) as [-> | ->] by lia; vm_compute in Hd; done.
Qed.

Lemma nil_length (l : str) : (length l =? 0)%nat = true <-> l = [].
Proof. by destruct l. Qed.

Lemma validate_hex v : _env_flags_validate_type v vartype_hex = 0 <-> admits vartype_hex v.
Proof.
  cbn [_env_flags_validate_type admits]. unfold skip_num. cbn [andb default]. destruct (is_hex_prefix v) eqn:E.
  - destruct v as [|c [|d r] ]; [done..|]. change (drop 2 (c :: d :: r)) with r. destruct (skip_digits Ctype.isxdigit (length r) r) as [|x e] eqn:Es.
    + apply skip_digits_end in Es. cbn [length Nat.eqb negb Nat.add andb]. split.
      * intros H. right. exists c, d, r. split_and!; auto. intros ->. done.
      * intros [Hf|(c' & d' & r' & [= <- <- <-] & _ & Hr & _)]; [exfalso; by eapply prefix_not_digits|]. destruct r; [done|reflexivity].
    + cbn [length Nat.eqb negb]. split; [done|]. intros [Hf|(c' & d' & r' & [= <- <- <-] & _ & _ & Hr)]; [exfalso; by eapply prefix_not_digits|].
      apply skip_digits_end in Hr. congruence.
  - destruct (skip_digits Ctype.isxdigit (length v) v) as [|x e] eqn:Es; cbn [length Nat.eqb negb].
    + apply skip_digits_end in Es. rewrite andb_false_r. cbn. split; [by left|done].
    + split; [done|]. intros [Hf|(c & d & r & -> & Hp & _)]; [|congruence]. apply skip_digits_end in Hf. congruence.
Qed.

(** Both loops over groups: [skip] is what one round leaves, if it accepts. *)
Fixpoint groups (sep : Z) (skip : str -> option str) (k : nat) (cur : str) : bool :=
  match k with
  | O => true
  | S k => match skip cur, k with
           | Some [], O => true
           | Some (c :: r), S _ => (c =? sep) && groups sep skip k r
           | _, _ => false
           end
  end.

Section Groups.
Context (sep : Z) (skip : str -> option str) (G : str -> Prop).
Context (Hsound : forall cur e, skip cur = Some e -> exists g, cur = g ++ e /\ G g).
Context (Hcomplete : forall g e, G g -> match e with c :: _ => c = sep | [] => True end -> skip (g ++ e) = Some e).

Lemma groups_spec k : forall cur, groups sep skip (S k) cur = true <-> exists l, length l = S k /\ Forall G l /\ cur = join sep l.
Proof.
  induction k as [|k IH]; intros cur; cbn [groups]; split.
  - destruct (skip cur) as [ [|c e]|] eqn:E; [|done..]. intros _. destruct (Hsound cur [] E) as (g & -> & Hg). exists [g].
    split_and!; [done|by constructor|by rewrite app_nil_r].
  - intros (l & Hl & HG & ->). destruct l as [|g [|g2 l] ]; [done| |done]. apply Forall_cons_iff in HG as [Hg _]. cbn [join].
    rewrite <- (app_nil_r g). by rewrite Hcomplete.
  - destruct (skip cur) as [ [|c e]|] eqn:E; [done| |done]. intros H. apply andb_true_iff in H as [Hc H]. destruct (Hsound cur _ E) as (g & -> & Hg).
    apply (proj1 (IH e)) in H as (l & Hl & HG & ->). assert (c = sep) as -> by lia. exists (g :: l). split_and!; [cbn; lia|by constructor|].
    cbn [join]. by destruct l.
  - intros (l & Hl & HG & ->). destruct l as [|g [|g2 l] ]; [done|done|]. apply Forall_cons_iff in HG as [Hg HG]. change (join sep (g :: g2 :: l)) with (g ++ sep :: join sep (g2 :: l)).
    rewrite Hcomplete by done. rewrite Z.eqb_refl. cbn [andb]. apply IH. exists (g2 :: l). split_and!; [cbn in *; lia|done|done].
Qed.
End Groups.

Definition ip_skip (cur : str) : option str :=
  let e := skip_num false cur (Some 3%nat) in if (length cur =? length e)%nat then None else Some e.
Definition ether_skip (cur : str) : option str :=
  let e := skip_num true cur (Some 2%nat) in
  if (length cur =? length e)%nat then None else if (length cur =? 2 + length e)%nat && is_hex_prefix cur then None else Some e.

Lemma ipaddr_groups_eq k : forall cur, ipaddr_groups k cur = groups 46 ip_skip k cur.
Proof.
  induction k as [|k IH]; intros cur; [done|]. cbn [ipaddr_groups groups]. unfold ip_skip. destruct (_ =? _)%nat; [done|].
  destruct (skip_num false cur (Some 3%nat)) as [|c r], k; try done. by rewrite IH.
Qed.

Lemma ethaddr_groups_eq k : forall cur, ethaddr_groups k cur = groups 58 ether_skip k cur.
Proof.
  induction k as [|k IH]; intros cur; [done|]. cbn [ethaddr_groups groups]. unfold ether_skip. destruct (_ =? _)%nat; [done|]. destruct (_ && _); [done|].
  destruct (skip_num true cur (Some 2%nat)) as [|c r], k; try done. by rewrite IH.
Qed.

Lemma ip_skip_sound cur e : ip_skip cur = Some e -> exists g, cur = g ++ e /\ digits Ctype.isdigit 1 3 g.
Proof.
  unfold ip_skip, skip_num. cbn [andb default from_option id]. destruct (_ =? _)%nat eqn:E; [done|]. intros [= <-].
  destruct (skip_digits_split Ctype.isdigit 3 cur) as (d & Hd & Hl & Hp). exists d. split; [done|]. split; [|done].
  apply (f_equal (@length Z)) in Hd. rewrite length_app in Hd. lia.
Qed.

Lemma ip_skip_complete g e : digits Ctype.isdigit 1 3 g -> match e with c :: _ => c = 46 | [] => True end -> ip_skip (g ++ e) = Some e.
Proof.
  intros [Hl Hg] He. unfold ip_skip, skip_num. cbn [andb default from_option id].
  rewrite skip_digits_all; [|lia|done|destruct e as [|c e]; [done|by subst c] ]. rewrite length_app. replace (_ =? _)%nat with false by lia. done.
Qed.

Lemma ether_skip_sound cur e : ether_skip cur = Some e -> exists g, cur = g ++ e /\ ether_group g.
Proof.
  unfold ether_skip, skip_num. cbn [andb default from_option id]. destruct (is_hex_prefix cur) eqn:Ep.
  - destruct cur as [|c [|d r] ]; [done..|]. change (drop 2 (c :: d :: r)) with r. destruct (_ =? _)%nat eqn:E1; [done|]. apply Nat.eqb_neq in E1. rewrite andb_true_r.
    destruct (_ =? _)%nat eqn:E2; [done|]. intros [= <-]. destruct (skip_digits_split Ctype.isxdigit 2 r) as (g & Hg & Hl & Hp).
    exists (c :: d :: g). split; [cbn; by do 2 f_equal|]. right. exists c, d, g. split_and!; [done|exact Ep|]. split; [|done].
    cbn [length] in *. apply (f_equal (@length Z)) in Hg. rewrite length_app in Hg. lia.
  - rewrite andb_false_r. destruct (_ =? _)%nat eqn:E1; [done|]. intros [= <-]. destruct (skip_digits_split Ctype.isxdigit 2 cur) as (g & Hg & Hl & Hp).
    exists g. split; [done|]. left. split; [|done]. apply (f_equal (@length Z)) in Hg. rewrite length_app in Hg. lia.
Qed.

Lemma ether_skip_complete g e : ether_group g -> match e with c :: _ => c = 58 | [] => True end -> ether_skip (g ++ e) = Some e.
Proof.
  intros Hg He. assert (match e with c :: _ => Ctype.isxdigit c = false | [] => True end) as He' by (destruct e as [|c e]; [done|by subst c]).
  unfold ether_skip, skip_num. cbn [andb default from_option id]. destruct Hg as [ [Hl Hg]|(c & d & r & -> & Hp & Hl & Hr)].
  - assert (is_hex_prefix (g ++ e) = false) as ->.
    { destruct g as [|c [|d g] ]; [cbn in Hl; lia| |].
      - destruct e as [|x e]; [done|]. subst x. cbn. apply andb_false_r.
      - apply not_true_is_false. intros Hp. apply (prefix_not_digits (c :: d :: g)); [exact Hp|done]. }
    rewrite skip_digits_all by (lia || done). rewrite andb_false_r, length_app. replace (_ =? _)%nat with false by lia. done.
  - change ((c :: d :: r) ++ e) with (c :: d :: (r ++ e)). change (is_hex_prefix (c :: d :: r ++ e)) with (is_hex_prefix (c :: d :: r)). rewrite Hp.
    change (drop 2 (c :: d :: r ++ e)) with (r ++ e). rewrite skip_digits_all by (lia || done). cbn [length]. rewrite length_app.
    replace (S (S (length r + length e)) =? length e)%nat with false by lia. replace (S (S (length r + length e)) =? 2 + length e)%nat with false by lia. done.
Qed.

(** The check of a value decides whether it is one of its type: decimal and hexadecimal numbers, one of ten letters for a
    truth value, four groups of one to three digits for an IP address and six groups for a MAC address. *)
Theorem validate_type_admits v t : _env_flags_validate_type v t = 0 <-> admits t v.
Proof.
  destruct t; [done| |apply validate_hex| | | |done]; cbn [_env_flags_validate_type admits].
  - unfold skip_num. cbn [andb default from_option id]. destruct (length (skip_digits Ctype.isdigit (length v) v) =? 0)%nat eqn:E.
    + apply nil_length, skip_digits_end in E. done.
    + split; [done|]. intros H. apply skip_digits_end in H. rewrite H in E. done.
  - destruct v as [|c r]; [split; [done|by intros (c & ? & _)]|]. destruct (bool_char c) eqn:Ec, r as [|d r]; cbn; split; try done; try (intros (x & [= <-] & ?); congruence).
    intros _. by exists c.
  - rewrite ipaddr_groups_eq, <- (groups_spec 46 ip_skip (digits Ctype.isdigit 1 3) ip_skip_sound ip_skip_complete 3). by destruct (groups 46 ip_skip 4 v).
  - unfold eth_validate_ethaddr_str. rewrite ethaddr_groups_eq, <- (groups_spec 58 ether_skip ether_group ether_skip_sound ether_skip_complete 5). by destruct (groups 58 ether_skip 6 v).
Qed.

(** The access rights come back from the flags that they were stored in. *)
Lemma varaccess_back f : env_flags_parse_varaccess_from_binflags (env_parse_flags_to_bin f) = env_flags_parse_varaccess f.
Proof. unfold env_parse_flags_to_bin. by destruct (env_flags_parse_vartype f), (env_flags_parse_varaccess f). Qed.

End EnvFlags.
