(* ===== verification/Environ.v ===== *)
(** * Environ: the environment of the boot loader

    U-Boot's env/common.c, cmd/nvedit.c, env/env.c and env/flash.c: variables before and after the import into the hash
    table, the commands on them, their default values, and their storage in flash memory with a checksum.  The size and
    the place of the stored environment, the default environment and the allocator are parameters; the chips are the
    interface of Nor.v, and the memory of the flash layer is the whole memory.  Of the output only the lists of
    variables are modelled. *)

From stdpp Require Import base list option strings gmap.
From Stdlib Require Import ZifyBool.
From S2P Require Import Prelude Cmem Crc32 Ctype Strto Vsprintf Carray Part HashTable EnvText EnvTable EnvFlags Nor Command.
Import Carray HashTable EnvText EnvTable.

Module Environ.

(** ** State *)

Definition ENOENT : Z := 2.
Definition EIO : Z := 5.
Definition ENODEV : Z := 19.
Definition CMD_RET_USAGE : Z := -1.
Definition CMD_RET_FAILURE : Z := 1.
Definition H_PROGRAMMATIC : Z := Z.shiftl 1 9.

(** [enum env_valid] *)
Definition ENV_INVALID : Z := 0.
Definition ENV_VALID : Z := 1.

Definition ENVL_UNKNOWN : Z := 0.
Definition ENVL_FLASH : Z := 4.

(** [gd->env_addr]: the address of the default environment or another one. *)
Inductive env_src := DefaultEnv | EnvAt (addr : Z).

(** [env_htab], [env_id], the fields of [gd] and the memory with the flash. *)
Record env := MkEnv {
  env_htab : hsearch_data;
  env_ready : bool;                                        (* GD_FLG_ENV_READY *)
  env_default : bool;                                      (* GD_FLG_ENV_DEFAULT *)
  env_valid : Z;
  env_addr : env_src;
  env_has_init : Z;
  env_load_prio : Z;
  env_id : Z;
  nor : Nor.flash;
}.

Definition set_htab (s : env) (h : hsearch_data) : env :=
  MkEnv h (env_ready s) (env_default s) (env_valid s) (env_addr s) (env_has_init s) (env_load_prio s) (env_id s) (nor s).
Definition set_flags (s : env) (r d : bool) : env :=
  MkEnv (env_htab s) r d (env_valid s) (env_addr s) (env_has_init s) (env_load_prio s) (env_id s) (nor s).
Definition set_source (s : env) (v : Z) (a : env_src) : env :=
  MkEnv (env_htab s) (env_ready s) (env_default s) v a (env_has_init s) (env_load_prio s) (env_id s) (nor s).
Definition set_init (s : env) (b : Z) : env :=
  MkEnv (env_htab s) (env_ready s) (env_default s) (env_valid s) (env_addr s) b (env_load_prio s) (env_id s) (nor s).
Definition set_prio (s : env) (p : Z) : env :=
  MkEnv (env_htab s) (env_ready s) (env_default s) (env_valid s) (env_addr s) (env_has_init s) p (env_id s) (nor s).
Definition set_id (s : env) (n : Z) : env :=
  MkEnv (env_htab s) (env_ready s) (env_default s) (env_valid s) (env_addr s) (env_has_init s) (env_load_prio s) n (nor s).
Definition set_nor (s : env) (f : Nor.flash) : env :=
  MkEnv (env_htab s) (env_ready s) (env_default s) (env_valid s) (env_addr s) (env_has_init s) (env_load_prio s) (env_id s) f.

Definition memory (s : env) : mem := Nor.contents (nor s).
Definition set_memory (s : env) (m : mem) : env := set_nor s (Nor.Flash (Nor.flash_info (nor s)) m).

(** [struct env_driver] *)
Record env_driver := Driver {
  location : Z;
  load : option (env -> option (Z * env));
  save : option (env -> option (Z * env));
  init : option (env -> option (Z * env));
}.

Section Env.
(** The board's configuration: 0x40000 and 0x47f80000 on the Versatile Express. *)
Context (CONFIG_ENV_SIZE CONFIG_ENV_ADDR : Z) (default_environment : list Z).
Context (strdup : str -> option str) (calloc malloc : Z -> bool) (galloc : Z -> option Z).
Context (cbi fli : ENTRY -> ENTRY) (slre : str -> option (str -> bool)).

Definition ENV_HEADER_SIZE : Z := 4.
Definition ENV_SIZE : Z := CONFIG_ENV_SIZE - ENV_HEADER_SIZE.

(** [himport_r] into the table of the environment. *)
Definition import (s : env) (text : list Z) (size sep flag : Z) (crlf : bool) (vars : list str) : option (Z * env) :=
  '(rc, _, h) ← himport_r strdup calloc malloc cbi fli (env_htab s) text size sep flag crlf vars; Some (rc, set_htab s h).

(** ** Before the import *)

(** [None] is an access outside the default environment. *)
Definition env_get_char_spec (s : env) (index : Z) : option Z :=
  match env_addr s with
  | DefaultEnv => if index <? 0 then None else default_environment !! Z.to_nat index
  | EnvAt a => Some (ld (memory s) (a + index))
  end.
Definition env_get_char (s : env) (index : Z) : option Z :=
  if env_valid s =? ENV_INVALID then if index <? 0 then None else default_environment !! Z.to_nat index
  else env_get_char_spec s index.

(** The index behind the equals sign, or -1.  [None] is also a read behind the end of the name. *)
Fixpoint envmatch (s : env) (s1 : str) (i2 : Z) : option Z :=
  c ← env_get_char s i2;
  match s1 with
  | [] => if c =? 0 then None else if c =? EQUALS then Some (i2 + 1) else Some (-1)
  | x :: r => if x =? c then if x =? EQUALS then Some (i2 + 1) else envmatch s r (i2 + 1) else Some (-1)
  end.

(** [for (nxt = i; (c = env_get_char(nxt)) != '\0'; ++nxt)]; [Some None] is an index past the environment. *)
Fixpoint scan_end (fuel : nat) (s : env) (nxt : Z) : option (option Z) :=
  match fuel with
  | O => None
  | S fuel =>
    c ← env_get_char s nxt;
    if c =? 0 then Some (Some nxt) else if CONFIG_ENV_SIZE <=? nxt then Some None else scan_end fuel s (nxt + 1)
  end.

(** The copy of the value: the number of characters and the string in the buffer; [k] characters fit. *)
Fixpoint copy_out (k : nat) (s : env) (val n : Z) (acc : str) : option (Z * str) :=
  match k with
  | O => Some (n, take (length acc - 1) acc)
  | S k => c ← env_get_char s val; if c =? 0 then Some (n, acc) else copy_out k s (val + 1) (n + 1) (acc ++ [c])
  end.

Fixpoint get_f_loop (fuel : nat) (s : env) (name : str) (i : Z) (len : nat) : option (Z * str) :=
  match fuel with
  | O => None
  | S fuel =>
    c ← env_get_char s i;
    if c =? 0 then Some (-1, []) else
    nxt ← scan_end (S (S (Z.to_nat CONFIG_ENV_SIZE))) s i;
    match nxt with
    | None => Some (-1, [])
    | Some nxt =>
      val ← envmatch s name i;
      if val <? 0 then get_f_loop fuel s name (nxt + 1) len else copy_out len s val 0 []
    end
  end.
Definition env_get_f (s : env) (name : str) (len : nat) : option (Z * str) :=
  get_f_loop (S (S (Z.to_nat CONFIG_ENV_SIZE))) s name 0 len.

(** ** Reading *)

(** [gd->env_buf] has 32 characters. *)
Definition env_get (s : env) (name : str) : option (option str) :=
  if env_ready s then e ← hfind strdup cbi fli (env_htab s) name 0; Some (e ≫= data)
  else '(n, v) ← env_get_f s name 32; Some (if 0 <? n then Some v else None).

Definition env_get_default (s : env) (name : str) : option (option str) :=
  env_get (set_source (set_flags s false (env_default s)) ENV_INVALID (env_addr s)) name.

Definition env_get_yesno (s : env) (var : str) : option Z :=
  v ← env_get s var;
  Some (match v with
        | None => -1
        | Some [] => 0
        | Some (c :: _) => if (c =? 49) || (c =? 121) || (c =? 89) || (c =? 116) || (c =? 84) then 1 else 0
        end).

Definition env_get_ulong (s : env) (name : str) (base default_val : Z) : option Z :=
  v ← env_get s name; match v with None => Some default_val | Some v => '(n, _) ← Part.strtoul v base; Some n end.

Definition env_get_hex (s : env) (varname : str) (default_val : Z) : option Z :=
  v ← env_get s varname;
  match v with
  | None => Some default_val
  | Some v => '(n, endp) ← Part.strtoul v 16; Some (if bool_decide (endp = v) then default_val else n)
  end.

(** ** Defaults *)

Definition set_default_env (flags : Z) (s : env) : option env :=
  if ENV_SIZE <? Z.of_nat (length default_environment) then Some s else
  '(_, s) ← import s default_environment (Z.of_nat (length default_environment)) NUL flags false [];
  Some (set_flags s true true).

Definition set_default_vars (vars : list str) (flags : Z) (s : env) : option (Z * env) :=
  import s default_environment (Z.of_nat (length default_environment)) NUL (Z.lor flags H_NOCLEAR) false vars.

(** ** Storing *)

(** [env_t] at an address: the checksum and the data. *)
Definition env_crc (s : env) (ep : Z) : Z := ld32 (memory s) ep.

Definition env_import (buf : Z) (check : bool) (s : env) : option (Z * env) :=
  bad ← (if check then c ← Crc32.crc32 (memory s) 0 (buf + 4) ENV_SIZE; Some (negb (c =? env_crc s buf)) else Some false);
  if (bad : bool) then s ← set_default_env 0 s; Some (- EIO, s) else
  '(rc, s) ← import s (bytes (memory s) (buf + 4) (Z.to_nat ENV_SIZE)) ENV_SIZE NUL 0 false [];
  if negb (rc =? 0) then Some (0, set_flags s true (env_default s)) else
  s ← set_default_env 0 s; Some (- EIO, s).

Definition env_export (env_out : Z) (s : env) : option (Z * env) :=
  '(m, r) ← hexport_r slre galloc (env_htab s) NUL 0 (User (env_out + 4)) ENV_SIZE [] (memory s);
  match r with
  | inr _ => Some (1, set_memory s m)
  | inl _ => crc ← Crc32.crc32 m 0 (env_out + 4) ENV_SIZE; Some (0, set_memory s (st32 m env_out crc))
  end.

(** ** The commands *)

(** Leading options of [setenv] and [env delete]: the flag and the arguments behind them; [None] is an unknown letter. *)
Fixpoint set_options (args : list str) (env_flag : Z) : option (Z * list str) :=
  match args with
  | (c :: o) :: rest =>
    if negb (c =? 45) then Some (env_flag, args) else
    if forallb (fun x => x =? 102) o then set_options rest (if (length o =? 0)%nat then env_flag else Z.lor env_flag H_FORCE) else None
  | _ => Some (env_flag, args)
  end.

Fixpoint join_args (l : list str) : str :=
  match l with [] => [] | [a] => a | a :: l => a ++ 32 :: join_args l end.

(** The callback of .flags, to which the static list of callbacks binds [on_flags].  The hash table calls it after the
    check of a change and before the data is stored or the entry removed; as it changes nothing but the flags of entries, it
    is modelled as a step after that.  (The import of variables calls it too; there it is left out.) *)
Definition flags_callback (name : str) (value : option str) (h : hsearch_data) : option hsearch_data :=
  if bool_decide (name = lit ".flags") then EnvFlags.on_flags malloc value h else Some h.

(** The arguments behind the name of the command.  Without a name behind the options, [strchr] gets a null pointer. *)
Definition _do_env_set (args : list str) (env_flag : Z) (s : env) : option (Z * env) :=
  match set_options args env_flag with
  | None => Some (CMD_RET_USAGE, s)
  | Some (_, []) => None
  | Some (flag, name :: values) =>
    if existsb (fun c => c =? EQUALS) name then Some (1, s) else
    let s := set_id s (env_id s + 1) in
    match values with
    | [] =>
      '(rc, _, h) ← hdelete_r strdup cbi fli name (env_htab s) flag;
      h ← (if rc =? 0 then Some h else flags_callback name None h);
      Some (if rc =? 0 then 1 else 0, set_htab s h)
    | _ =>
      let len := fold_right (fun v n => Z.of_nat (length v) + 1 + n) 0 values in
      if negb (malloc len) then Some (1, s) else
      r ← hsearch_r strdup cbi fli (Entry name (Some (join_args values)) None 0) ENTER (env_htab s) flag;
      h ← match retval r with None => Some (htab r) | Some _ => flags_callback name (Some (join_args values)) (htab r) end;
      Some (match retval r with None => 1 | Some _ => 0 end, set_htab s h)
    end
  end.

Definition env_set (varname : str) (varvalue : option str) (s : env) : option (Z * env) :=
  if negb (env_ready s) then Some (1, s) else
  match varvalue with
  | None | Some [] => _do_env_set [varname] H_PROGRAMMATIC s
  | Some v => _do_env_set [varname; v] H_PROGRAMMATIC s
  end.

Definition env_set_ulong (varname : str) (value : Z) (s : env) : option (Z * env) :=
  v ← Vsprintf.simple_itoa value; env_set varname (Some v) s.

(** The hexadecimal form is that of ["%lx"]. *)
Definition env_set_hex (varname : str) (value : Z) (s : env) : option (Z * env) := env_set varname (Some (Strto.print_base 16 value)) s.

Definition do_env_set (argv : list str) (s : env) : option (Z * env) :=
  if (length argv <? 2)%nat then Some (CMD_RET_USAGE, s) else _do_env_set (tail argv) H_INTERACTIVE s.

(** *** Printing *)

(** The length that is returned, the output and the state; [calloc] may change the memory. *)
Definition env_print (name : option str) (flag : Z) (s : env) : option (Z * str * env) :=
  match name with
  | Some n =>
    e ← hfind strdup cbi fli (env_htab s) n flag;
    Some (match e with
          | None => (0, [], s)
          | Some e => let out := key e ++ EQUALS :: default (lit "<NULL>") (data e) ++ [LF] in (Z.of_nat (length out), out, s)
          end)
  | None =>
    '(m, r) ← hexport_r slre galloc (env_htab s) LF flag Allocate 0 [] (memory s);
    match r with
    | inl (len, res) =>
      if 0 <? len then out ← string_at (bytes m res (S (Z.to_nat len))); Some (len, out, set_memory s m)
      else Some (0, lit "## Error: cannot export environment" ++ [LF], set_memory s m)
    | inr _ => Some (0, lit "## Error: cannot export environment" ++ [LF], set_memory s m)
    end
  end.

Fixpoint print_vars (args : list str) (rcode : Z) (out : str) (s : env) : option (Z * str * env) :=
  match args with
  | [] => Some (rcode, out, s)
  | a :: args =>
    '(rc, o, s) ← env_print (Some a) 0 s;
    if rc =? 0 then print_vars args (rcode + 1) (out ++ o ++ lit "## Error: " ++ [34] ++ a ++ [34] ++ lit " not defined" ++ [LF]) s
    else print_vars args rcode (out ++ o) s
  end.

Definition do_env_print (argv : list str) (s : env) : option (Z * str * env) :=
  let '(env_flag, args) := match tail argv with (c :: d :: _) :: rest => if (c =? 45) && (d =? 97) then (0, rest) else (H_HIDE_DOT, tail argv)
                                               | a => (H_HIDE_DOT, a) end in
  match args with
  | [] =>
    '(rcode, out, s) ← env_print None env_flag s;
    if rcode =? 0 then Some (1, out, s) else
    Some (0, out ++ LF :: lit "Environment size: " ++ Strto.print_base 10 rcode ++ lit "/" ++ Strto.print_base 10 ENV_SIZE ++ lit " bytes" ++ [LF], s)
  | _ => print_vars args 0 [] s
  end.

(** *** Defaults and deletion *)

Fixpoint default_options (args : list str) (all : bool) (env_flag : Z) : option (bool * Z * list str) :=
  match args with
  | (c :: o) :: rest =>
    if negb (c =? 45) then Some (all, env_flag, args) else
    if forallb (fun x => (x =? 97) || (x =? 102)) o
    then default_options rest (all || existsb (fun x => x =? 97) o) (if existsb (fun x => x =? 102) o then Z.lor env_flag H_FORCE else env_flag)
    else None
  | _ => Some (all, env_flag, args)
  end.

(** [cmd_usage] returns 1. *)
Definition do_env_default (argv : list str) (s : env) : option (Z * env) :=
  match default_options (tail argv) false H_INTERACTIVE with
  | None => Some (1, s)
  | Some (true, flag, []) => s ← set_default_env flag s; Some (0, s)
  | Some (false, flag, v :: vars) => '(_, s) ← set_default_vars (v :: vars) flag s; Some (0, s)
  | _ => Some (1, s)
  end.

Fixpoint delete_vars (args : list str) (flag ret : Z) (s : env) : option (Z * env) :=
  match args with
  | [] => Some (ret, s)
  | a :: args =>
    '(rc, _, h) ← hdelete_r strdup cbi fli a (env_htab s) flag;
    h ← (if rc =? 0 then Some h else flags_callback a None h);
    delete_vars args flag (if rc =? 0 then 1 else ret) (set_htab s h)
  end.

Definition do_env_delete (argv : list str) (s : env) : option (Z * env) :=
  match set_options (tail argv) H_INTERACTIVE with
  | None => Some (CMD_RET_USAGE, s)
  | Some (flag, args) => delete_vars args flag 0 (set_id s (env_id s + 1))
  end.

Definition do_env_exists (argv : list str) (s : env) : option (Z * env) :=
  match argv !! 1%nat with
  | None => Some (CMD_RET_USAGE, s)
  | Some a => e ← hfind strdup cbi fli (env_htab s) a 0; Some (match e with None => 1 | Some _ => 0 end, s)
  end.

(** *** Export and import *)

(** The variables of both functions. *)
Record options := Options { fmt : bool; sep : Z; chk : bool; size : Z; del : bool; crlf_is_lf : bool }.
Definition set_fmt (o : options) (s : Z) (c : bool) : options := Options true s (chk o || c) (size o) (del o) (crlf_is_lf o).

(** The letters of an option: a return value, or whether a size follows. *)
Fixpoint export_letters (l : str) (o : options) : Z + bool * options :=
  match l with
  | [] => inr (false, o)
  | c :: l =>
    if c =? 98 then if fmt o then inl 1 else export_letters l (set_fmt o NUL false) else
    if c =? 99 then if fmt o then inl 1 else export_letters l (set_fmt o NUL true) else
    if c =? 115 then inr (true, o) else
    if c =? 116 then if fmt o then inl 1 else export_letters l (set_fmt o LF false) else inl CMD_RET_USAGE
  end.

Fixpoint export_options (fuel : nat) (args : list str) (o : options) : option (Z + options * list str) :=
  match fuel with
  | O => None
  | S fuel =>
    match args with
    | (c :: l) :: rest =>
      if negb (c =? 45) then Some (inr (o, args)) else
      match export_letters l o with
      | inl rc => Some (inl rc)
      | inr (false, o) => export_options fuel rest o
      | inr (true, o) =>
        match rest with
        | [] => Some (inl 1)
        | a :: rest => '(v, _) ← Part.strtoul a 16; export_options fuel rest (Options (fmt o) (sep o) (chk o) v (del o) (crlf_is_lf o))
        end
      end
    | _ => Some (inr (o, args))
    end
  end.

Definition filesize : str := Eval vm_compute in lit "filesize".

Definition do_env_export (argv : list str) (s : env) : option (Z * env) :=
  o ← export_options (S (length argv)) (tail argv) (Options false LF false 0 false false);
  match o with
  | inl rc => Some (rc, s)
  | inr (_, []) => Some (CMD_RET_USAGE, s)
  | inr (o, a :: vars) =>
    '(ptr, _) ← Part.strtoul a 16;
    let m := if size o =? 0 then memory s else wr (memory s) ptr (replicate (Z.to_nat (size o)) 0) in
    if negb (sep o =? 0) then
      '(m, r) ← hexport_r slre galloc (env_htab s) (sep o) (Z.lor H_MATCH_KEY H_MATCH_IDENT) (User ptr) (size o) vars m;
      match r with
      | inr _ => Some (1, set_memory s m)
      | inl (len, _) =>
        '(_, s) ← env_set filesize (Some (map Ctype.toupper (Strto.print_base 16 len))) (set_memory s m); Some (0, s)
      end
    else
      let res := if chk o then ptr + 4 else ptr in
      '(m, r) ← hexport_r slre galloc (env_htab s) NUL (Z.lor H_MATCH_KEY H_MATCH_IDENT) (User res) ENV_SIZE vars m;
      match r with
      | inr _ => Some (1, set_memory s m)
      | inl (len, _) =>
        m ← (if chk o then crc ← Crc32.crc32 m 0 (ptr + 4) ENV_SIZE; Some (st32 m ptr crc) else Some m);
        '(_, s) ← env_set_hex filesize (u32 (len + 4)) (set_memory s m); Some (0, s)
      end
  end.

Fixpoint import_letters (l : str) (o : options) : Z + options :=
  match l with
  | [] => inr o
  | c :: l =>
    if c =? 98 then if fmt o then inl 1 else import_letters l (set_fmt o NUL false) else
    if c =? 99 then if fmt o then inl 1 else import_letters l (set_fmt o NUL true) else
    if c =? 116 then if fmt o then inl 1 else import_letters l (set_fmt o LF false) else
    if c =? 114 then import_letters l (Options (fmt o) (sep o) (chk o) (size o) (del o) true) else
    if c =? 100 then import_letters l (Options (fmt o) (sep o) (chk o) (size o) true (crlf_is_lf o)) else inl CMD_RET_USAGE
  end.
Fixpoint import_options (args : list str) (o : options) : Z + options * list str :=
  match args with
  | (c :: l) :: rest =>
    if negb (c =? 45) then inr (o, args) else match import_letters l o with inl rc => inl rc | inr o => import_options rest o end
  | _ => inr (o, args)
  end.

Definition MAX_ENV_SIZE : Z := Z.shiftl 1 20.

(** The scan for the separator followed by NUL; [k] bytes are left. *)
Fixpoint text_size (k : nat) (m : mem) (p sep size : Z) : Z :=
  match k with
  | O => size
  | S k => if (ld m p =? sep) && (ld m (p + 1) =? 0) then size else text_size k m (p + 1) sep (size + 1)
  end.

Definition do_env_import (argv : list str) (s : env) : option (Z * env) :=
  match import_options (tail argv) (Options false LF false 0 false false) with
  | inl rc => Some (rc, s)
  | inr (_, []) => Some (CMD_RET_USAGE, s)
  | inr (o, a :: rest) =>
    let crlf := crlf_is_lf o && (sep o =? LF) in
    '(ptr, _) ← Part.strtoul a 16;
    let scan := Some (Some (text_size (Z.to_nat MAX_ENV_SIZE) (memory s) ptr (sep o) 0 + 2)) in
    sz ← match rest with
         | z :: _ => if bool_decide (z = lit "-") then if chk o then Some None else scan else '(v, _) ← Part.strtoul z 16; Some (Some v)
         | [] => if chk o then Some None else scan
         end;
    match sz with
    | None => Some (CMD_RET_FAILURE, s)
    | Some sz =>
      let sz := if chk o then u32 (sz - 4) else sz in
      bad ← (if chk o then c ← Crc32.crc32 (memory s) 0 (ptr + 4) sz; Some (negb (c =? env_crc s ptr)) else Some false);
      if (bad : bool) then Some (1, s) else
      let ptr := if chk o then ptr + 4 else ptr in
      '(rc, s) ← import s (bytes (memory s) ptr (Z.to_nat sz)) sz (sep o) (if del o then 0 else H_NOCLEAR) crlf (drop 1 rest);
      if rc =? 0 then Some (1, s) else Some (0, set_flags s true (env_default s))
    end
  end.

(** *** env/env.c *)

Section Drivers.
Context (drivers : list env_driver) (env_locations : list Z).

Definition _env_driver_lookup (loc : Z) : option env_driver := List.find (fun d => loc =? location d) drivers.

Definition env_has_inited (s : env) (loc : Z) : bool := negb (Z.land (env_has_init s) (Z.shiftl 1 loc) =? 0).
Definition env_set_inited (s : env) (loc : Z) : env := set_init s (Z.lor (env_has_init s) (Z.shiftl 1 loc)).

Definition env_get_location (prio : Z) (s : env) : Z * env :=
  match env_locations !! Z.to_nat prio with None => (ENVL_UNKNOWN, s) | Some l => (l, set_prio s prio) end.

Definition env_driver_lookup (prio : Z) (s : env) : option env_driver * env :=
  let '(loc, s) := env_get_location prio s in
  if loc =? ENVL_UNKNOWN then (None, s) else (_env_driver_lookup loc, s).

(** The loop of [env_load]. *)
Fixpoint load_loop (fuel : nat) (prio : Z) (s : env) : option (Z * env) :=
  match fuel with
  | O => None
  | S fuel =>
    let '(drv, s) := env_driver_lookup prio s in
    match drv with
    | None => Some (- ENODEV, snd (env_get_location 0 s))
    | Some drv =>
      match load drv with
      | None => load_loop fuel (prio + 1) s
      | Some f =>
        if negb (env_has_inited s (location drv)) then load_loop fuel (prio + 1) s else
        '(ret, s) ← f s;
        if negb (ret =? 0) then load_loop fuel (prio + 1) s else Some (0, s)
      end
    end
  end.
Definition env_load (s : env) : option (Z * env) := load_loop (S (length env_locations)) 0 s.

Definition env_save (s : env) : option (Z * env) :=
  let '(drv, s) := env_driver_lookup (env_load_prio s) s in
  match drv with
  | None => Some (- ENODEV, s)
  | Some drv =>
    match save drv with
    | None => Some (- ENODEV, s)
    | Some f =>
      if negb (env_has_inited s (location drv)) then Some (- ENODEV, s) else
      '(ret, s) ← f s; Some (if ret =? 0 then 0 else - ENODEV, s)
    end
  end.

(** The loop of [env_init]: [ret], the last priority and the state. *)
Fixpoint init_loop (fuel : nat) (prio ret : Z) (s : env) : option (Z * Z * env) :=
  match fuel with
  | O => None
  | S fuel =>
    let '(drv, s) := env_driver_lookup prio s in
    match drv with
    | None => Some (ret, prio, s)
    | Some drv =>
      match init drv with
      | None => init_loop fuel (prio + 1) ret (env_set_inited s (location drv))
      | Some f =>
        '(ret, s) ← f s;
        init_loop fuel (prio + 1) ret (if ret =? 0 then env_set_inited s (location drv) else s)
      end
    end
  end.
Definition env_init (s : env) : option (Z * env) :=
  '(ret, prio, s) ← init_loop (S (length env_locations)) 0 (- ENOENT) s;
  if prio =? 0 then Some (- ENODEV, s) else
  if ret =? - ENOENT then Some (0, set_source s ENV_VALID DefaultEnv) else Some (ret, s).

Definition env_relocate (s : env) : option env :=
  if env_valid s =? ENV_INVALID then set_default_env 0 s else '(_, s) ← env_load s; Some s.

Definition do_env_save (s : env) : option (Z * env) := '(rc, s) ← env_save s; Some (if negb (rc =? 0) then 1 else 0, s).

(** *** [env] with its subcommands, on the state and the output *)

Definition quiet (f : list str -> env -> option (Z * env)) (_ : Z) (argv : list str) (x : env * str) : option (Z * (env * str)) :=
  '(rc, s) ← f argv x.1; Some (rc, (s, x.2)).
Definition printing (f : list str -> env -> option (Z * str * env)) (_ : Z) (argv : list str) (x : env * str) : option (Z * (env * str)) :=
  '(rc, out, s) ← f argv x.1; Some (rc, (s, x.2 ++ out)).

Definition mkent (n : str) (maxargs rep : Z) (f : Z -> list str -> env * str -> option (Z * (env * str))) : Command.cmd_tbl (env * str) :=
  Command.Build_cmd_tbl _ n maxargs rep f (Some []) (Some []) None.

Definition cmd_env_sub (do_run : Z -> list str -> env * str -> option (Z * (env * str))) : list (Command.cmd_tbl (env * str)) :=
  [mkent (lit "default") 1 0 (quiet do_env_default); mkent (lit "delete") 16 0 (quiet do_env_delete);
   mkent (lit "export") 4 0 (quiet do_env_export); mkent (lit "import") 5 0 (quiet do_env_import);
   mkent (lit "print") 16 1 (printing do_env_print); mkent (lit "run") 16 1 do_run;
   mkent (lit "save") 1 0 (quiet (fun _ => do_env_save)); mkent (lit "set") 16 0 (quiet do_env_set);
   mkent (lit "exists") 2 0 (quiet do_env_exists)].

Definition do_env (do_run : Z -> list str -> env * str -> option (Z * (env * str))) (flag : Z) (argv : list str) (x : env * str) :
    option (Z * (env * str)) :=
  match tail argv with
  | [] => Some (CMD_RET_USAGE, x)
  | a :: args =>
    match Command.find_cmd_tbl a (cmd_env_sub do_run) with
    | Some t => Command.cmd t flag (a :: args) x
    | None => Some (CMD_RET_USAGE, x)
    end
  end.

End Drivers.

(** *** env/flash.c, one copy *)

Section Flash.
Context `{!Nor.Chip} (CONFIG_ENV_SECT_SIZE : Z).

(** [flash_addr] and [env_ptr] are [CONFIG_ENV_ADDR]. *)
Definition end_addr : Z := CONFIG_ENV_ADDR + CONFIG_ENV_SECT_SIZE - 1.

Definition env_flash_init (s : env) : option (Z * env) :=
  c ← Crc32.crc32 (memory s) 0 (CONFIG_ENV_ADDR + 4) ENV_SIZE;
  if c =? env_crc s CONFIG_ENV_ADDR then Some (0, set_source s ENV_VALID (EnvAt (CONFIG_ENV_ADDR + 4)))
  else Some (0, set_source s ENV_INVALID DefaultEnv).

(** [env_new] is the address of the buffer on the stack.  The sector holds nothing but the environment. *)
Definition env_flash_save (env_new : Z) (s : env) : option (Z * env) :=
  let finish rc s := let '(_, f) := Nor.flash_sect_protect 1 CONFIG_ENV_ADDR end_addr (nor s) in Some (rc, set_nor s f) in
  let '(r, f) := Nor.flash_sect_protect 0 CONFIG_ENV_ADDR end_addr (nor s) in
  let s := set_nor s f in
  if negb (r =? 0) then finish 1 s else
  '(rc, s) ← env_export env_new s;
  if negb (rc =? 0) then finish rc s else
  let '(r, f) := Nor.flash_sect_erase CONFIG_ENV_ADDR end_addr (nor s) in
  let s := set_nor s f in
  if negb (r =? 0) then finish rc s else
  let '(rc, f) := Nor.flash_write (bytes (memory s) env_new (Z.to_nat CONFIG_ENV_SIZE)) CONFIG_ENV_ADDR (nor s) in
  finish rc (set_nor s f).

Definition env_flash_load (s : env) : option (Z * env) := env_import CONFIG_ENV_ADDR true s.

(** [U_BOOT_ENV_LOCATION(flash)] and the locations of the board. *)
Definition flash_driver (env_new : Z) : env_driver := Driver ENVL_FLASH (Some env_flash_load) (Some (env_flash_save env_new)) (Some env_flash_init).
Definition env_locations : list Z := [ENVL_FLASH].

End Flash.
End Env.
End Environ.
