(* ===== verification/EnvStore.v ===== *)
(** * EnvStore: what the environment promises

    The properties of the commands and of the storage of Environ.v: assignments and look-ups on the map of variables,
    access rights through any sequence of commands, and the way of the variables through the flash memory and a reset. *)

From stdpp Require Import base list option strings gmap.
From Stdlib Require Import ZifyBool.
From S2P Require Import Prelude Cmem Crc32 Image Carray Part HashTable EnvText EnvTable EnvFlags Nor Environ.
Import Carray HashTable EnvText EnvTable Environ.

Module EnvStore.

Section Running.
Context (ENVSIZE : Z) (dflt : list Z).
Context (strdup : str -> option str) (calloc malloc : Z -> bool) (cbi fli : ENTRY -> ENTRY) `{!Env strdup cbi fli}.
Context (Hcalloc : forall n, calloc n = true) (Hmalloc : forall n, malloc n = true).

(** The environment after relocation, with the variables [M]; [c] slots of the table were used. *)
Definition running (s : env) (c : nat) (M : vars) : Prop := env_ready s = true /\ refines (env_htab s) c M.

Abbreviation get := (env_get ENVSIZE dflt strdup cbi fli).
Abbreviation ok s := (change_ok (env_htab s)).

Lemma get_running s c M k : running s c M -> get s k = Some (M !! k ≫= data).
Proof. intros [Hr Hh]. unfold env_get. rewrite Hr, (find_refines strdup cbi fli _ c M k 0 Hh). done. Qed.

(** The name of the variable whose callback is [on_flags]. *)
Definition FLAGS : str := Eval vm_compute in lit ".flags".

(** A name that [setenv] takes, no option and without an equals sign, of a variable other than .flags. *)
Definition settable (name : str) : Prop := ~ In EQUALS name /\ head name <> Some 45 /\ name <> FLAGS.

Lemma no_flags_callback name v h : name <> FLAGS -> flags_callback malloc name v h = Some h.
Proof. intros Hn. unfold flags_callback. by rewrite bool_decide_false. Qed.

Lemma no_equals name : ~ In EQUALS name -> existsb (fun c => c =? EQUALS) name = false.
Proof. intros H. apply not_true_is_false. rewrite existsb_exists. intros (x & Hx & E). apply H. by apply Z.eqb_eq in E as <-. Qed.

Lemma no_options name rest flag : head name <> Some 45 -> set_options (name :: rest) flag = Some (flag, name :: rest).
Proof. destruct name as [|c name]; [done|]. intros H. cbn [set_options]. by replace (c =? 45) with false by (symmetry; apply Z.eqb_neq; intros ->; done). Qed.

(** What only the number of changes and the table tell apart. *)
Definition same_rest (s s' : env) : Prop :=
  env_ready s' = env_ready s /\ env_default s' = env_default s /\ env_valid s' = env_valid s /\ env_addr s' = env_addr s /\
  env_has_init s' = env_has_init s /\ env_load_prio s' = env_load_prio s /\ nor s' = nor s.

(** [setenv] with values assigns, without values it removes; the checks decide. *)
Lemma do_env_set_spec s c M name values flag : running s c M -> Z.of_nat c < HashTable.size (env_htab s) -> settable name ->
  exists s', _do_env_set strdup malloc cbi fli (name :: values) flag s =
      Some (let '(b, _) := if (length values =? 0)%nat then unset_var (ok s) name flag M
                           else set_var cbi fli (ok s) name (join_args values) flag M in if b then 0 else 1, s') /\
    running s' (S c) (if (length values =? 0)%nat then unset_var (ok s) name flag M
                      else set_var cbi fli (ok s) name (join_args values) flag M).2 /\
    HashTable.size (env_htab s') = HashTable.size (env_htab s) /\ ok s' = ok s /\ same_rest s s'.
Proof.
  intros [Hready Hr] Hc (He & Hm & Hfl). unfold _do_env_set. rewrite no_options by done. rewrite no_equals by done.
  destruct values as [|v vs]; cbn [length Nat.eqb].
  - destruct (delete_refines strdup cbi fli (env_htab s) c M name flag Hr ltac:(lia)) as (rc & e & h' & E & Hset & Hs & Hk).
    cbn [set_id env_htab]. rewrite E. cbn [mbind option_bind]. rewrite no_flags_callback by done.
    destruct (unset_var (ok s) name flag M) as [b M']. destruct Hset as [Hr' ->]. exists (set_htab (set_id s (env_id s + 1)) h'). split; [by destruct b|]. cbn [snd]. split_and!; try done. split; [done|]. cbn [set_htab env_htab].
    destruct Hr' as (t & [? ? (Hf & L & HL & Hx) ? ?]). exists t. split; auto. split; [lia|]. exists L. split; [lia|done].
  - rewrite Hmalloc. cbn [negb set_id env_htab].
    destruct (enter_var_refines strdup cbi fli (env_htab s) c M (Entry name (Some (join_args (v :: vs))) None 0) (join_args (v :: vs)) flag Hr Hc eq_refl)
      as (r & -> & Hset & Hs & Hk). cbn [mbind option_bind key] in *.
    destruct (set_var cbi fli (ok s) name (join_args (v :: vs)) flag M) as [b M']. destruct Hset as [Hr' Hb].
    rewrite no_flags_callback by done. exists (set_htab (set_id s (env_id s + 1)) (htab r)).
    split; [destruct b; [destruct Hb as [_ [i ->] ]|destruct Hb as [_ ->] ]; done|]. cbn [snd]. by split_and!.
Qed.

(** ** Access rights *)

(** The calls that change single variables: [setenv], [env delete] and [env_set]. *)
Inductive change := Setenv (args : list str) | Delete (args : list str) | Program (name : str) (value : option str).

Definition run_change (ch : change) (s : env) : option (Z * env) :=
  match ch with
  | Setenv args => do_env_set strdup malloc cbi fli (lit "setenv" :: args) s
  | Delete args => do_env_delete strdup malloc cbi fli (lit "delete" :: args) s
  | Program name value => env_set strdup malloc cbi fli name value s
  end.

(** No argument is an option, so nothing is forced. *)
Definition unforced (ch : change) : Prop :=
  match ch with Setenv args | Delete args => Forall (fun a => head a <> Some 45) args | Program name _ => head name <> Some 45 end.

(** The variable .flags, whose callback gives new access rights to the others, is not named. *)
Definition leaves_flags (ch : change) : Prop :=
  match ch with Setenv args => head args <> Some FLAGS | Delete args => ~ In FLAGS args | Program name _ => name <> FLAGS end.

Fixpoint run_changes (l : list change) (s : env) : option env :=
  match l with [] => Some s | ch :: l => '(_, s) ← run_change ch s; run_changes l s end.

(** Neither overwriting nor deleting is allowed. *)
Definition sealed (e : ENTRY) : Prop :=
  Z.land (flags e) EnvFlags.PREVENT_DELETE <> 0 /\ Z.land (flags e) EnvFlags.PREVENT_OVERWR <> 0.

Lemma sealed_refused gd e d op flag : sealed e -> op <> env_op_create -> Z.land flag H_FORCE = 0 ->
  allowed (Some (EnvFlags.env_flags_validate gd)) e d op flag = false.
Proof.
  intros [Hd Ho] Hop Hf. unfold allowed. apply andb_false_iff. left. apply Z.eqb_neq. unfold EnvFlags.env_flags_validate.
  case_match; [done|]. rewrite Hf. cbn [Z.eqb negb]. destruct op; [done| |].
  - by rewrite (proj2 (Z.eqb_neq _ _) Hd).
  - by rewrite (proj2 (Z.eqb_neq _ _) Ho).
Qed.

Lemma set_var_sealed gd k d flag k' e M : M !! k' = Some e -> sealed e -> Z.land flag H_FORCE = 0 ->
  (set_var cbi fli (Some (EnvFlags.env_flags_validate gd)) k d flag M).2 !! k' = Some e.
Proof.
  intros HM Hs Hf. unfold set_var. destruct (decide (k = k')) as [-> |Hne].
  - rewrite HM. by rewrite sealed_refused.
  - repeat case_match; cbn [snd]; rewrite ?lookup_insert_ne by done; done.
Qed.

Lemma unset_var_sealed gd k flag k' e M : M !! k' = Some e -> sealed e -> Z.land flag H_FORCE = 0 ->
  (unset_var (Some (EnvFlags.env_flags_validate gd)) k flag M).2 !! k' = Some e.
Proof.
  intros HM Hs Hf. unfold unset_var. destruct (decide (k = k')) as [-> |Hne].
  - rewrite HM. by rewrite sealed_refused.
  - repeat case_match; cbn [snd]; rewrite ?lookup_delete_ne by done; done.
Qed.

Lemma delete_vars_sealed gd k e args : forall ret s c M, running s c M -> Z.of_nat c <= HashTable.size (env_htab s) ->
  ok s = Some (EnvFlags.env_flags_validate gd) -> M !! k = Some e -> sealed e -> ~ In FLAGS args ->
  exists rc s' M', delete_vars strdup malloc cbi fli args H_INTERACTIVE ret s = Some (rc, s') /\ running s' c M' /\ M' !! k = Some e /\
    HashTable.size (env_htab s') = HashTable.size (env_htab s) /\ ok s' = ok s.
Proof.
  induction args as [|a args IH]; intros ret s c M [Hready Hr] Hc Hok HM Hse Hfl; cbn [delete_vars In] in *.
  { exists ret, s, M. by split_and!. }
  destruct (delete_refines strdup cbi fli (env_htab s) c M a H_INTERACTIVE Hr Hc) as (rc & er & h' & -> & Hset & Hs & Hk). cbn [mbind option_bind].
  rewrite no_flags_callback by (intros ->; tauto). replace (if rc =? 0 then Some h' else Some h') with (Some h') by (by destruct (rc =? 0)). cbn [mbind option_bind].
  pose proof (unset_var_sealed gd a H_INTERACTIVE k e M HM Hse eq_refl) as HM'. rewrite Hok in *.
  destruct (unset_var _ a H_INTERACTIVE M) as [b M1]. destruct Hset as [Hr1 _]. cbn [snd] in HM'.
  destruct (IH (if rc =? 0 then 1 else ret) (set_htab s h') c M1) as (rc' & s' & M' & E & Hrun & HM2 & Hs2 & Hk2); [done|cbn [set_htab env_htab]; lia|done|done|done|tauto|].
  exists rc', s', M'. cbn [set_htab env_htab] in *. split_and!; [done|done|done|congruence|congruence].
Qed.

Lemma running_more s c M : running s c M -> running s (S c) M.
Proof. intros [Hr (t & [? ? (Hf & L & HL & Hx) ? ?])]. split; [done|]. exists t. split; auto. split; [lia|]. exists L. split; [lia|done]. Qed.

Lemma _do_env_set_sealed gd k e name values flag s c M : running s c M -> Z.of_nat c < HashTable.size (env_htab s) ->
  ok s = Some (EnvFlags.env_flags_validate gd) -> M !! k = Some e -> sealed e -> head name <> Some 45 -> name <> FLAGS -> Z.land flag H_FORCE = 0 ->
  exists rc s' M', _do_env_set strdup malloc cbi fli (name :: values) flag s = Some (rc, s') /\ running s' (S c) M' /\ M' !! k = Some e /\
    HashTable.size (env_htab s') = HashTable.size (env_htab s) /\ ok s' = ok s.
Proof.
  intros Hrun Hc Hok HM Hse Hname Hfl Hf. destruct (in_dec Z.eq_dec EQUALS name) as [Hin|Hin].
  - exists 1, s, M. split; [|split_and!; [by apply running_more|done|done|done] ]. unfold _do_env_set. rewrite no_options by done.
    assert (existsb (fun c => c =? EQUALS) name = true) as -> by (apply existsb_exists; exists EQUALS; split; [done|apply Z.eqb_refl]). done.
  - destruct (do_env_set_spec s c M name values flag Hrun Hc ltac:(done)) as (s' & E & Hrun' & Hs & Hk & _).
    eexists _, s', _. split; [exact E|]. split; [exact Hrun'|]. split; [|done]. rewrite Hok.
    case_match; [by apply unset_var_sealed|by apply set_var_sealed].
Qed.

Lemma run_change_sealed gd k e ch s c M : running s c M -> Z.of_nat c < HashTable.size (env_htab s) ->
  ok s = Some (EnvFlags.env_flags_validate gd) -> M !! k = Some e -> sealed e -> unforced ch -> leaves_flags ch ->
  exists rc s' M', run_change ch s = Some (rc, s') /\ running s' (S c) M' /\ M' !! k = Some e /\
    HashTable.size (env_htab s') = HashTable.size (env_htab s) /\ ok s' = ok s.
Proof.
  intros Hrun Hc Hok HM Hse Hun Hfl. destruct ch as [args|args|name value]; cbn [run_change unforced leaves_flags] in *.
  - destruct args as [|name values]; [exists (-1), s, M; split_and!; [done|by apply running_more|done..]|]. apply Forall_cons in Hun as [Hn _].
    apply (_do_env_set_sealed gd k e name values H_INTERACTIVE s c M); try done. cbn [head] in Hfl. congruence.
  - unfold do_env_delete. cbn [tail]. assert (set_options args H_INTERACTIVE = Some (H_INTERACTIVE, args)) as ->.
    { destruct args as [|a args]; [done|]. apply Forall_cons in Hun as [Ha _]. by apply no_options. }
    destruct (delete_vars_sealed gd k e args 0 (set_id s (env_id s + 1)) c M Hrun ltac:(cbn [set_id env_htab]; lia) Hok HM Hse Hfl)
      as (rc & s' & M' & E & Hr' & Hrest). exists rc, s', M'. split; [exact E|]. split; [by apply running_more|exact Hrest].
  - unfold env_set. destruct Hrun as [Hready Hr]. rewrite Hready. cbn [negb].
    destruct value as [ [|v0 v]|]; (apply (_do_env_set_sealed gd k e name _ H_PROGRAMMATIC s c M); done).
Qed.


(** [setenv] with a name and values is [set_var] with the values joined by blanks, and [env_get] reads what the map
    of variables has afterwards. *)
Theorem setenv_then_get s c M cmd name v values k : running s c M -> Z.of_nat c < HashTable.size (env_htab s) -> settable name ->
  let r := set_var cbi fli (ok s) name (join_args (v :: values)) H_INTERACTIVE M in
  exists s', do_env_set strdup malloc cbi fli (cmd :: name :: v :: values) s = Some (if r.1 then 0 else 1, s') /\
    get s' k = Some (r.2 !! k ≫= data) /\ env_id s' = env_id s + 1 /\ nor s' = nor s.
Proof.
  intros Hrun Hc Hn r. destruct (do_env_set_spec s c M name (v :: values) H_INTERACTIVE Hrun Hc Hn) as (s' & E & Hrun' & _ & _ & Hsame).
  exists s'. cbn [length Nat.eqb] in *. fold r in E, Hrun'. split_and!.
  - unfold do_env_set. cbn [length Nat.ltb Nat.leb tail]. rewrite E. by destruct r.
  - exact (get_running s' (S c) _ k Hrun').
  - revert E. unfold _do_env_set. destruct Hn as (He & Hm & Hfl). rewrite no_options by done. rewrite no_equals by done. rewrite Hmalloc. cbn [negb].
    destruct (hsearch_r _ _ _ _ _ _ _) as [x|]; [|done]. cbn [mbind option_bind]. rewrite no_flags_callback by done.
    destruct (retval x); cbn [mbind option_bind]; by intros [= _ <-].
  - apply Hsame.
Qed.

End Running.

(** [setenv -f]: the name is a null pointer. *)
Theorem setenv_without_name strdup malloc cbi fli s : do_env_set strdup malloc cbi fli [lit "setenv"; lit "-f"] s = None.
Proof. done. Qed.

(** A variable that may be changed from its default, in its default, is not changed when [env_get_default] cuts the
    default at 31 characters. *)
Theorem changedefault_long gd e v new flag : data e = Some v -> gd (key e) = Some (take 31 v) -> (31 < length v)%nat ->
  flags e = EnvFlags.env_flags_varaccess_mask EnvFlags.varaccess_changedefault -> Z.land flag H_FORCE = 0 ->
  EnvFlags.env_flags_validate gd e new env_op_overwrite flag = 1.
Proof.
  intros Hd Hg Hl Hf Hfl. unfold EnvFlags.env_flags_validate. rewrite Hf. cbn -[Z.land]. change (Z.land EnvFlags.VARTYPE_BIN_MASK 72) with 0. cbn match.
  cbn -[Z.land]. rewrite Hfl, Hd, Hg. cbn [Z.eqb negb default]. change (Z.land 72 EnvFlags.PREVENT_OVERWR =? 0) with true.
  change (Z.land 72 EnvFlags.PREVENT_NONDEF_OVERWR =? 0) with false. cbn [negb andb]. rewrite bool_decide_false; [done|]. intros E.
  apply (f_equal length) in E. unfold id in E. rewrite length_take in E. lia.
Qed.

(** ** The stored environment *)

Lemma text_perm es es' : es ≡ₚ es' -> length (text NUL es) = length (text NUL es').
Proof. unfold text. induction 1; cbn [map concat]; rewrite ?length_app in *; lia. Qed.

Lemma ld32_bytes m p m' q : (forall j, 0 <= j < 4 -> ld m (p + j) = ld m' (q + j)) -> ld32 m p = ld32 m' q.
Proof. intros H. pose proof (H 0 ltac:(lia)) as H0. rewrite !Z.add_0_r in H0. unfold ld32. by rewrite H0, !H by lia. Qed.

Section Storage.
Context (ENVSIZE ENVADDR SECTSIZE env_new : Z) (dflt : list Z).
Context (strdup : str -> option str) (calloc malloc : Z -> bool) (galloc : Z -> option Z) (cbi fli : ENTRY -> ENTRY) (slre : str -> option (str -> bool)).
Context `{!Env strdup cbi fli}.
Context (Hcalloc : forall n, calloc n = true) (Hmalloc : forall n, malloc n = true).
Context (Hsize : 4 < ENVSIZE <= SECTSIZE).
(** The buffer on the stack is not in the flash. *)
Context (Hbuf : env_new + ENVSIZE <= ENVADDR \/ ENVADDR + SECTSIZE <= env_new).

Abbreviation SIZE := (ENV_SIZE ENVSIZE).
Abbreviation get := (env_get ENVSIZE dflt strdup cbi fli).

(** The environment has the sectors [a] to [c] of bank [n] for itself. *)
Record placed (f : Nor.flash) (n : nat) (i : Nor.flash_info_t) (a c : Z) : Prop := {
  pl_layout : Nor.layout f;
  pl_bank : Nor.flash_info f !! n = Some i;
  pl_known : Nor.known i = true;
  pl_sectors : 0 <= a <= c /\ c < Nor.sector_count i;
  pl_top : Nor.start i 0 + Nor.size i < 2 ^ 32;
  pl_start : Nor.start i a = ENVADDR;
  pl_end : Nor.limit i c = ENVADDR + SECTSIZE;
}.

(** The memory holds the checksum and the text of the entries at [p]. *)
Definition stored_at (m : mem) (p : Z) (es : list ENTRY) : Prop :=
  bytes m (p + 4) (Z.to_nat SIZE) = text NUL es ++ replicate (Z.to_nat SIZE - length (text NUL es)) 0 /\
  Z.of_nat (length (text NUL es)) < SIZE /\
  ld32 m p = Crc32.checksum 0 (bytes m (p + 4) (Z.to_nat SIZE)).

Context (Hbig : ENVSIZE < 2 ^ 32).
Lemma size_range : 0 < SIZE < 2 ^ 32 /\ ENVSIZE = SIZE + 4.
Proof. unfold ENV_SIZE, ENV_HEADER_SIZE. lia. Qed.

Lemma bytes_move m p m' q k : (forall j, 0 <= j < Z.of_nat k -> ld m (p + j) = ld m' (q + j)) -> bytes m p k = bytes m' q k.
Proof.
  intros H. apply list_eq. intros i. destruct (decide (i < k)%nat) as [Hi|Hi].
  - rewrite !bytes_lookup by done. f_equal. apply H. lia.
  - rewrite !lookup_ge_None_2; [done|rewrite length_bytes; lia|rewrite length_bytes; lia].
Qed.

(** A block that is moved is stored at its new place. *)
Lemma stored_move m p m' q es : (forall j, 0 <= j < ENVSIZE -> ld m' (q + j) = ld m (p + j)) -> stored_at m p es -> stored_at m' q es.
Proof.
  intros Hm (Hb & Hlen & Hc). destruct size_range as [Hs HE].
  assert (bytes m' (q + 4) (Z.to_nat SIZE) = bytes m (p + 4) (Z.to_nat SIZE)) as E.
  { apply bytes_move. intros j Hj. rewrite <- !Z.add_assoc. apply Hm. lia. }
  unfold stored_at. rewrite E. split_and!; [done|done|]. rewrite <- Hc. apply ld32_bytes. intros j Hj. apply Hm. lia.
Qed.

(** [env_export] builds the block, and touches nothing else. *)
Lemma export_stores s c M : refines (env_htab s) c M -> ok_vars NUL M -> Z.of_nat (length (text NUL (map_to_list M).*2)) < SIZE ->
  exists m es, env_export ENVSIZE galloc slre env_new s = Some (0, set_memory s m) /\ stored_at m env_new es /\
    es ≡ₚ (map_to_list M).*2 /\ Forall (ok_entry NUL) es /\
    forall x, x < env_new \/ env_new + ENVSIZE <= x -> ld m x = ld (memory s) x.
Proof.
  intros Hr Hok Hfit. destruct size_range as [Hs HE]. unfold env_export.
  destruct (export_refines slre galloc (env_htab s) c M NUL (env_new + 4) SIZE (memory s) Hr ltac:(unfold NUL; lia) Hok ltac:(lia)) as (es & Hp & Hes & H).
  rewrite <- (text_perm es _ Hp) in Hfit. replace (SIZE <? Z.of_nat (length (text NUL es)) + 1) with false in H by lia. destruct H as (m & -> & Hb & Hf).
  cbn [mbind option_bind]. rewrite Crc32.crc32_spec by lia. cbn [mbind option_bind]. set (sum := Crc32.checksum 0 _).
  assert (0 <= sum < 2 ^ 32) as Hsum by (apply Image.checksum_range, Crc32.bytes_byte_range).
  exists (st32 m env_new sum), es. split; [done|]. split; [|split; [done|split; [done|] ] ].
  - assert (bytes (st32 m env_new sum) (env_new + 4) (Z.to_nat SIZE) = bytes m (env_new + 4) (Z.to_nat SIZE)) as E.
    { apply bytes_ext. intros x Hx. apply Image.ld_st32_other. lia. }
    unfold stored_at. rewrite E. split_and!; [done|done|]. rewrite Image.ld32_st32. fold sum. by apply u32_small.
  - intros x Hx. rewrite Image.ld_st32_other by lia. apply Hf. lia.
Qed.

Section Chips.
Context `{!Nor.Chip, !Nor.Works}.
Abbreviation flash_save := (env_flash_save ENVSIZE ENVADDR galloc slre SECTSIZE env_new).
Abbreviation flash_load := (env_flash_load ENVSIZE ENVADDR dflt strdup calloc malloc cbi fli).

(** Saving writes the variables to their sectors, and nothing else in the flash. *)
Lemma save_stores s c M n i a b : refines (env_htab s) c M -> ok_vars NUL M -> Z.of_nat (length (text NUL (map_to_list M).*2)) < SIZE ->
  placed (nor s) n i a b ->
  exists f es, flash_save s = Some (0, set_nor s f) /\ stored_at (Nor.contents f) ENVADDR es /\
    es ≡ₚ (map_to_list M).*2 /\ Forall (ok_entry NUL) es /\
    (forall x, x < ENVADDR \/ ENVADDR + SECTSIZE <= x -> x < env_new \/ env_new + ENVSIZE <= x -> ld (Nor.contents f) x = ld (memory s) x).
Proof.
  intros Hr Hok Hfit [Hl Hi Hk [Ha Hc] Htop Hst Hen]. destruct size_range as [Hs HE]. unfold env_flash_save.
  assert (end_addr ENVADDR SECTSIZE = Nor.limit i b - 1) as -> by (unfold end_addr; lia). rewrite <- Hst.
  pose proof (Nor.sector_bounds i (Nor.l_wf _ Hl n i Hi Hk) b ltac:(lia)) as Hb.
  destruct (Nor.unprotect_sectors (nor s) n i a b Hl Hi Hk Ha Hc ltac:(lia)) as (P & m1 & -> & Hm1 & HP). cbn [Z.eqb negb].
  set (s1 := set_nor s (Nor.set_protection (nor s) n P m1)).
  destruct (export_stores s1 c M Hr Hok Hfit) as (m2 & es & -> & Hst2 & Hp & Hes & Hf2). cbn [mbind option_bind Z.eqb negb].
  set (f1 := nor (set_memory s1 m2)). set (i1 := Nor.protection P i).
  assert (Nor.flash_info f1 !! n = Some i1) as Hi1.
  { change (Nor.flash_info f1) with (Nor.flash_info (Nor.set_protection (nor s) n P m1)). rewrite (Nor.lookup_protection _ _ _ _ i n Hi). by rewrite decide_True. }
  assert (Nor.layout f1) as Hl1.
  { pose proof (Nor.layout_protection (nor s) n P m1 i Hi Hl) as [H1 H2]. by split. }
  set (blk := bytes m2 env_new (Z.to_nat ENVSIZE)). assert (length blk = Z.to_nat ENVSIZE) as Hblk by apply length_bytes.
  destruct (Nor.rewrite_sectors f1 n i1 a b blk Hl1 Hi1 Hk Ha Hc Htop ltac:(intros E; rewrite E in Hblk; cbn in Hblk; lia)
    ltac:(rewrite Hblk; change (Nor.start i1 a) with (Nor.start i a); change (Nor.limit i1 b) with (Nor.limit i b); lia)) as (f2 & f3 & P' & m4 & E2 & Hm2 & E3 & E4 & _ & Hm4).
  { intros k Hk'. cbn [i1 Nor.protection Nor.protect]. rewrite HP. by replace ((a <=? k) && (k <=? b)) with true by lia. }
  change (Nor.start i1 a) with (Nor.start i a) in *. change (Nor.limit i1 b) with (Nor.limit i b) in *. rewrite Hst in *. rewrite E2. cbn [Z.eqb negb].
  assert (bytes (memory (set_nor (set_memory s1 m2) f2)) env_new (Z.to_nat ENVSIZE) = blk) as ->.
  { unfold blk. apply bytes_ext. intros x Hx. unfold memory. cbn [set_nor nor]. rewrite Hm2. by replace ((ENVADDR <=? x) && (x <? Nor.limit i b)) with false by lia. }
  cbn [set_nor nor] in *. rewrite E3. cbn [set_nor nor]. rewrite E4. eexists _, es. split; [done|]. cbn [Nor.set_protection Nor.contents] in *.
  split; [|split; [done|split; [done|] ] ].
  - apply (stored_move m2 env_new); [|done]. intros j Hj. rewrite Hm4, Hblk.
    replace ((ENVADDR <=? ENVADDR + j) && (ENVADDR + j <? ENVADDR + Z.of_nat (Z.to_nat ENVSIZE))) with true by lia.
    replace (Z.to_nat (ENVADDR + j - ENVADDR)) with (Z.to_nat j) by lia. unfold blk.
    rewrite (nth_lookup_Some _ _ _ (ld m2 (env_new + j))); [apply u8_small, ld_range|]. rewrite bytes_lookup by lia. do 2 f_equal. lia.
  - intros x Hx Hx'. rewrite Hm4, Hblk. replace ((ENVADDR <=? x) && (x <? ENVADDR + Z.of_nat (Z.to_nat ENVSIZE))) with false by lia.
    replace ((ENVADDR <=? x) && (x <? Nor.limit i b)) with false by lia. change (Nor.contents f1) with m2. rewrite Hf2 by lia. apply Hm1.
Qed.

(** *** From the flash to the table *)

Definition drivers : list env_driver := [flash_driver ENVSIZE ENVADDR dflt strdup calloc malloc galloc cbi fli slre SECTSIZE env_new].
Abbreviation boot_init := (env_init drivers env_locations).
Abbreviation relocate := (env_relocate ENVSIZE dflt strdup calloc malloc cbi fli drivers env_locations).
Abbreviation ok s := (change_ok (env_htab s)).

Lemma init_stored s es : stored_at (memory s) ENVADDR es ->
  env_flash_init ENVSIZE ENVADDR s = Some (0, set_source s ENV_VALID (EnvAt (ENVADDR + 4))).
Proof.
  intros (_ & _ & Hc). destruct size_range as [Hs HE]. unfold env_flash_init, env_crc. rewrite Crc32.crc32_spec by lia. cbn [mbind option_bind].
  rewrite Hc, Z.eqb_refl. done.
Qed.

Lemma load_stored s es : stored_at (memory s) ENVADDR es -> Forall (ok_entry NUL) es -> Z.of_nat (length es) <= nent SIZE ->
  exists s', flash_load s = Some (0, s') /\ running s' (length es) (set_all cbi fli (ok s) es 0 ∅) /\ nor s' = nor s /\
    nent SIZE <= HashTable.size (env_htab s') /\ ok s' = ok s.
Proof.
  intros (Hb & Hlen & Hc) Hes Hn. destruct size_range as [Hs HE]. unfold env_flash_load, env_import, env_crc, import.
  rewrite Crc32.crc32_spec by lia. cbn [mbind option_bind]. rewrite Hc, Z.eqb_refl. cbn [negb]. rewrite Hb.
  destruct (himport_refines strdup cbi fli NUL ltac:(done) ltac:(done) calloc malloc Hcalloc Hmalloc (env_htab s) es
    (Z.to_nat SIZE - length (text NUL es)) SIZE 0 eq_refl Hes Hn ltac:(lia)) as (h' & -> & Hr & Hok & Hsz). cbn [mbind option_bind Z.eqb negb].
  eexists. split; [done|]. by split_and!.
Qed.

Lemma set_inited s : env_has_inited (env_set_inited s ENVL_FLASH) ENVL_FLASH = true.
Proof.
  unfold env_has_inited, env_set_inited. cbn [set_init env_has_init]. apply negb_true_iff, Z.eqb_neq. intros E.
  assert (Z.testbit (Z.land (Z.lor (env_has_init s) (Z.shiftl 1 ENVL_FLASH)) (Z.shiftl 1 ENVL_FLASH)) 4 = true) as Hb
    by (rewrite Z.land_spec, Z.lor_spec; apply andb_true_iff; split; [apply orb_true_iff; by right|done]).
  rewrite E in Hb. done.
Qed.

Lemma lookup_flash s : env_driver_lookup drivers env_locations 0 s =
  (Some (flash_driver ENVSIZE ENVADDR dflt strdup calloc malloc galloc cbi fli slre SECTSIZE env_new), set_prio s 0).
Proof. reflexivity. Qed.
Lemma lookup_none s : env_driver_lookup drivers env_locations 1 s = (None, s).
Proof. reflexivity. Qed.

(** [env_init] asks the flash, the only location. *)
Lemma boot_init_flash s s1 : env_flash_init ENVSIZE ENVADDR (set_prio s 0) = Some (0, s1) -> boot_init s = Some (0, env_set_inited s1 ENVL_FLASH).
Proof.
  intros E. unfold env_init. change (S (length env_locations)) with 2%nat. cbn [init_loop]. rewrite lookup_flash. cbn [flash_driver init location].
  rewrite E. cbn [mbind option_bind]. change (0 + 1) with 1. rewrite lookup_none. done.
Qed.

(** [env_load], for an environment whose flash was found. *)
Lemma load_flash s s1 : env_has_inited s ENVL_FLASH = true -> flash_load (set_prio s 0) = Some (0, s1) -> env_load drivers env_locations s = Some (0, s1).
Proof.
  intros Hi E. unfold env_load. change (S (length env_locations)) with 2%nat. cbn [load_loop]. rewrite lookup_flash. cbn [flash_driver load location].
  change (env_has_inited (set_prio s 0) ENVL_FLASH) with (env_has_inited s ENVL_FLASH). rewrite Hi. cbn [negb]. rewrite E. done.
Qed.

Lemma save_flash s s1 rc : env_load_prio s = 0 -> env_has_inited s ENVL_FLASH = true -> flash_save (set_prio s 0) = Some (rc, s1) ->
  do_env_save drivers env_locations s = Some (if rc =? 0 then 0 else 1, s1).
Proof.
  intros Hp Hi E. unfold do_env_save, env_save. rewrite Hp, lookup_flash. cbn [flash_driver save location].
  change (env_has_inited (set_prio s 0) ENVL_FLASH) with (env_has_inited s ENVL_FLASH). rewrite Hi. cbn [negb]. rewrite E. cbn [mbind option_bind].
  by destruct (rc =? 0).
Qed.

(** A reset: nothing is left but the memory, and the check that is built in. *)
Definition reset (ok : check) (f : Nor.flash) : env := MkEnv (Htab None 0 0 ok) false false ENV_INVALID DefaultEnv 0 0 1 f.

(** The values of the variables. *)
Definition value (M : vars) (k : str) : option str := M !! k ≫= data.

Lemma reload_value M k : ok_vars NUL M -> named M -> value (reload cbi fli M) k = value M k.
Proof.
  intros Hok Hn. unfold value, reload. rewrite lookup_fmap. destruct (M !! k) as [e|] eqn:E; [|done]. cbn.
  rewrite (newborn_data strdup cbi fli). destruct (Hok k e E) as [ [_ _ Hd _ _] _]. by rewrite Hd.
Qed.


(** *** A corrupted environment *)

Lemma ld32_changes m p x v : p <= x < p + 4 -> u8 v <> ld m x -> ld32 (st m x v) p <> ld32 m p.
Proof.
  intros Hx Hv. unfold ld32. rewrite !ld_st. pose proof (ld_range m p). pose proof (ld_range m (p + 1)). pose proof (ld_range m (p + 2)).
  pose proof (ld_range m (p + 3)). pose proof (Z.mod_pos_bound v 256 ltac:(lia)) as Hm. change (v mod 256) with (u8 v) in Hm.
  assert (x = p \/ x = p + 1 \/ x = p + 2 \/ x = p + 3) as [-> |[-> |[-> | ->] ] ] by lia;
    repeat (case_match; [|try lia]); try lia.
Qed.

Lemma init_corrupt s m es x v : stored_at m ENVADDR es -> memory s = st m x v -> ENVADDR <= x < ENVADDR + ENVSIZE -> u8 v <> ld m x ->
  env_flash_init ENVSIZE ENVADDR s = Some (0, set_source s ENV_INVALID DefaultEnv).
Proof.
  intros (_ & _ & Hc) Hm Hx Hv. destruct size_range as [Hs HE]. unfold env_flash_init, env_crc. rewrite Hm.
  rewrite Crc32.crc32_spec by lia. cbn [mbind option_bind].
  assert ((Crc32.checksum 0 (bytes (st m x v) (ENVADDR + 4) (Z.to_nat SIZE)) =? ld32 (st m x v) ENVADDR) = false) as ->; [|done].
  apply Z.eqb_neq. destruct (Z.lt_ge_cases x (ENVADDR + 4)) as [Hlt|Hge].
  - rewrite (bytes_ext (st m x v) m) by (intros y Hy; apply ld_st_other; lia). rewrite <- Hc. intros E. by apply (ld32_changes m ENVADDR x v ltac:(lia) Hv).
  - rewrite (ld32_bytes (st m x v) ENVADDR m ENVADDR) by (intros j Hj; apply ld_st_other; lia). rewrite Hc. intros E.
    apply (Crc32.crc32_detects_byte m 0 (ENVADDR + 4) SIZE x v); [lia|lia|lia|done|]. rewrite !Crc32.crc32_spec by lia. by f_equal.
Qed.

(** C20: One changed byte in the stored environment, checksum or text, and the start uses the default environment instead. *)
Theorem corrupt_env_defaults f es x v ds j chk : stored_at (Nor.contents f) ENVADDR es -> ENVADDR <= x < ENVADDR + ENVSIZE ->
  u8 v <> ld (Nor.contents f) x ->
  dflt = text NUL ds ++ replicate j 0 -> Forall (ok_entry NUL) ds -> Z.of_nat (length dflt) <= SIZE ->
  Z.of_nat (length ds) <= nent (Z.of_nat (length dflt)) ->
  exists s2 s3, boot_init (reset chk (Nor.Flash (Nor.flash_info f) (st (Nor.contents f) x v))) = Some (0, s2) /\
    env_valid s2 = ENV_INVALID /\ relocate s2 = Some s3 /\ env_default s3 = true /\
    forall k, get s3 k = Some (value (set_all cbi fli chk ds 0 ∅) k).
Proof.
  intros Hst Hx Hv Hd Hds Hfit Hn. set (f' := Nor.Flash _ _).
  pose proof (boot_init_flash (reset chk f') _ (init_corrupt (set_prio (reset chk f') 0) (Nor.contents f) es x v Hst eq_refl Hx Hv)) as E2.
  set (s2 := env_set_inited _ ENVL_FLASH) in E2.
  destruct (himport_refines strdup cbi fli NUL ltac:(done) ltac:(done) calloc malloc Hcalloc Hmalloc (env_htab s2) ds j (Z.of_nat (length dflt)) 0 eq_refl Hds Hn)
    as (h' & E & Hr & _). { rewrite Hd, length_app, length_replicate. lia. }
  eexists s2, _. split; [exact E2|]. split; [done|]. split.
  - unfold env_relocate. change (env_valid s2 =? ENV_INVALID) with true. cbn match. unfold set_default_env, import.
    replace (SIZE <? Z.of_nat (length dflt)) with false by lia. rewrite Hd at 1. rewrite E. cbn [mbind option_bind]. reflexivity.
  - split; [done|]. intros k. apply (get_running ENVSIZE dflt strdup cbi fli _ (length ds)). split; [done|exact Hr].
Qed.

(** [env default -a] needs no force: the table is thrown away before the defaults are set, so that no access right of a
    variable is asked for. *)
Theorem env_default_all s ds j cmd : dflt = text NUL ds ++ replicate j 0 -> Forall (ok_entry NUL) ds -> Z.of_nat (length dflt) <= SIZE ->
  Z.of_nat (length ds) <= nent (Z.of_nat (length dflt)) ->
  exists s', do_env_default ENVSIZE dflt strdup calloc malloc cbi fli [cmd; lit "-a"] s = Some (0, s') /\ env_default s' = true /\
    forall k, get s' k = Some (value (set_all cbi fli (ok s) ds H_INTERACTIVE ∅) k).
Proof.
  intros Hd Hds Hfit Hn.
  destruct (himport_refines strdup cbi fli NUL ltac:(done) ltac:(done) calloc malloc Hcalloc Hmalloc (env_htab s) ds j (Z.of_nat (length dflt)) H_INTERACTIVE eq_refl Hds Hn)
    as (h' & E & Hr & _). { rewrite Hd, length_app, length_replicate. lia. }
  eexists. split.
  - unfold do_env_default. change (default_options (tail [cmd; lit "-a"]) false H_INTERACTIVE) with (Some (true, H_INTERACTIVE, @nil str)). cbn match.
    unfold set_default_env, import. replace (SIZE <? Z.of_nat (length dflt)) with false by lia. rewrite Hd at 1. rewrite E. cbn [mbind option_bind]. reflexivity.
  - split; [done|]. intros k. apply (get_running ENVSIZE dflt strdup cbi fli _ (length ds)). split; [done|exact Hr].
Qed.

(** When the sectors cannot be erased, nothing is written and the save counts as done. *)
Theorem saveenv_hides_erase s f1 s1 r f2 : Nor.flash_sect_protect 0 ENVADDR (end_addr ENVADDR SECTSIZE) (nor s) = (0, f1) ->
  env_export ENVSIZE galloc slre env_new (set_nor s f1) = Some (0, s1) ->
  Nor.flash_sect_erase ENVADDR (end_addr ENVADDR SECTSIZE) (nor s1) = (r, f2) -> r <> 0 ->
  exists s', flash_save s = Some (0, s').
Proof.
  intros E1 E2 E3 Hr. unfold env_flash_save. rewrite E1. cbn [Z.eqb negb]. rewrite E2. cbn [mbind option_bind Z.eqb negb]. rewrite E3.
  rewrite (proj2 (Z.eqb_neq _ _) Hr). cbn [negb]. destruct (Nor.flash_sect_protect 1 _ _ _) as [? f4]. eauto.
Qed.

(** *** The environment before relocation *)

Section Early.
Context (s : env) (B : list Z) (Hchars : forall j c, B !! j = Some c -> env_get_char dflt s (Z.of_nat j) = Some c).
Context (HB : Z.of_nat (length B) <= ENVSIZE).

(** The characters from an index on. *)
Definition reads (i : Z) (l : list Z) : Prop := exists pre post, B = pre ++ l ++ post /\ i = Z.of_nat (length pre).

Lemma reads_char i c l : reads i (c :: l) -> env_get_char dflt s i = Some c /\ reads (i + 1) l /\ i < ENVSIZE.
Proof.
  intros (pre & post & EB & ->). split_and!.
  - apply Hchars. rewrite EB. rewrite lookup_app_r by lia. by rewrite Nat.sub_diag.
  - exists (pre ++ [c]), post. rewrite EB, length_app. cbn [length]. split; [by rewrite <- !app_assoc|lia].
  - apply (f_equal (@length Z)) in EB. rewrite length_app in EB. cbn [length app] in EB. lia.
Qed.

Lemma reads_app i l l' : reads i (l ++ l') -> reads i l /\ reads (i + Z.of_nat (length l)) l'.
Proof.
  intros (pre & post & EB & ->). split; [exists pre, (l' ++ post); rewrite EB; split; [by rewrite <- app_assoc|done]|].
  exists (pre ++ l), post. rewrite EB, length_app. split; [by rewrite <- !app_assoc|lia].
Qed.

Lemma scan_end_spec l : forall fuel i, Forall (fun c => c <> 0) l -> reads i (l ++ [0]) -> (length l < fuel)%nat ->
  scan_end ENVSIZE dflt fuel s i = Some (Some (i + Z.of_nat (length l))).
Proof.
  induction l as [|c l IH]; intros fuel i Hl Hr Hf; (destruct fuel as [|fuel]; [cbn in Hf; lia|]); cbn [scan_end app] in *;
    destruct (reads_char _ _ _ Hr) as (-> & Hr' & Hlt); cbn [mbind option_bind].
  - cbn [Z.eqb length]. do 2 f_equal. lia.
  - apply Forall_cons in Hl as [Hc Hl]. rewrite (proj2 (Z.eqb_neq _ _) Hc). replace (ENVSIZE <=? i) with false by lia.
    rewrite IH; [|done|done|cbn in Hf; lia]. cbn [length]. do 2 f_equal. lia.
Qed.

Lemma envmatch_spec name : forall k i rest, ~ In EQUALS name -> Forall (fun c => c <> 0 /\ c <> EQUALS) k -> reads i (k ++ EQUALS :: rest) ->
  envmatch dflt s name i = Some (if bool_decide (name = k) then i + Z.of_nat (length k) + 1 else -1).
Proof.
  induction name as [|x name IH]; intros k i rest Hn Hk Hr.
  - destruct k as [|c k]; cbn [app] in Hr; destruct (reads_char _ _ _ Hr) as (E & _); cbn [envmatch]; rewrite E; cbn [mbind option_bind].
    + rewrite bool_decide_true by done. cbn [EQUALS Z.eqb Pos.eqb length]. f_equal. lia.
    + apply Forall_cons in Hk as [ [Hc0 Hce] _]. by rewrite (proj2 (Z.eqb_neq _ _) Hc0), (proj2 (Z.eqb_neq _ _) Hce).
  - cbn [In] in Hn. destruct k as [|c k]; cbn [app] in Hr; destruct (reads_char _ _ _ Hr) as (E & Hr' & _); cbn [envmatch]; rewrite E; cbn [mbind option_bind].
    + rewrite (proj2 (Z.eqb_neq x EQUALS)) by (clear -Hn; tauto). by rewrite bool_decide_false.
    + apply Forall_cons in Hk as [ [Hc0 Hce] Hk]. destruct (Z.eqb_spec x c) as [-> |Hne].
      * rewrite (proj2 (Z.eqb_neq _ _) Hce). rewrite (IH k (i + 1) rest); [|clear -Hn; tauto|done|done]. f_equal. destruct (decide (name = k)) as [-> |Hnk].
        { rewrite !bool_decide_true by done. cbn [length]. lia. }
        rewrite !bool_decide_false; [done|congruence|done].
      * rewrite bool_decide_false; [done|congruence].
Qed.

(** What fits into [n] characters with the NUL. *)
Definition fitted (n : nat) (v : str) : Z * str :=
  if (length v <? n)%nat then (Z.of_nat (length v), v) else (Z.of_nat n, take (n - 1) v).

Lemma copy_out_spec v : forall n i acc, Forall (fun c => c <> 0) v -> reads i (v ++ [0]) ->
  copy_out dflt n s i (Z.of_nat (length acc)) acc = Some (fitted (length acc + n) (acc ++ v)).
Proof.
  induction v as [|c v IH]; intros n i acc Hv Hr.
  - destruct n as [|n]; cbn [copy_out].
    + unfold fitted. rewrite app_nil_r, Nat.add_0_r. by replace (length acc <? length acc)%nat with false by lia.
    + cbn [app] in Hr. destruct (reads_char _ _ _ Hr) as (-> & _). cbn [mbind option_bind Z.eqb]. unfold fitted. rewrite app_nil_r.
      by replace (length acc <? length acc + S n)%nat with true by lia.
  - destruct n as [|n]; cbn [copy_out].
    + unfold fitted. rewrite Nat.add_0_r, length_app. replace (length acc + length (c :: v) <? length acc)%nat with false by lia.
      rewrite take_app_le by lia. done.
    + cbn [app] in Hr. destruct (reads_char _ _ _ Hr) as (-> & Hr' & _). cbn [mbind option_bind]. apply Forall_cons in Hv as [Hc Hv].
      rewrite (proj2 (Z.eqb_neq _ _) Hc). replace (Z.of_nat (length acc) + 1) with (Z.of_nat (length (acc ++ [c]))) by (rewrite length_app; cbn; lia).
      rewrite IH by done. rewrite length_app, <- app_assoc. cbn [length app]. do 2 f_equal. lia.
Qed.

Lemma plain_line e : ok_entry NUL e -> counted NUL e -> line NUL e = (key e ++ EQUALS :: value_of e) ++ [0].
Proof.
  intros He [Hc|Hc]; [done|]. unfold line. rewrite escape_plain; [by rewrite <- app_assoc|done|].
  eapply list.Forall_impl; [apply (ok_value _ _ He)|]. cbn beta. lia.
Qed.

Lemma get_f_spec name n : ~ In EQUALS name -> forall es fuel i, Forall (ok_entry NUL) es -> Forall (counted NUL) es ->
  reads i (text NUL es ++ [0]) -> (length es < fuel)%nat -> (length B <= Z.to_nat ENVSIZE)%nat ->
  get_f_loop ENVSIZE dflt fuel s name i n =
    Some (match List.find (fun e => bool_decide (name = key e)) es with Some e => fitted n (value_of e) | None => (-1, []) end).
Proof.
  intros Hn. induction es as [|e es IH]; intros fuel i Hok Hcnt Hr Hf Hlen; (destruct fuel as [|fuel]; [cbn in Hf; lia|]); cbn [get_f_loop].
  - cbn [text map concat app] in Hr. destruct (reads_char _ _ _ Hr) as (-> & _). done.
  - apply Forall_cons in Hok as [He Hok]. apply Forall_cons in Hcnt as [Hce Hcnt].
    unfold text in Hr. cbn [map concat] in Hr. fold (text NUL es) in Hr. rewrite (plain_line e He Hce) in Hr. set (l := key e ++ EQUALS :: value_of e) in *.
    rewrite <- !app_assoc in Hr. destruct (reads_app _ l _ Hr) as [_ Hr2]. cbn [app] in Hr2. destruct (reads_char _ _ _ Hr2) as (_ & Hr3 & _).
    assert (Forall (fun c => c <> 0) (value_of e)) as Hv by (eapply list.Forall_impl; [apply (ok_value _ _ He)|]; cbn beta; lia).
    assert (Forall (fun c => c <> 0 /\ c <> EQUALS) (key e)) as Hk by (eapply list.Forall_impl; [apply (ok_key _ _ He)|]; cbn beta; lia).
    assert (Forall (fun c => c <> 0) l) as Hl.
    { apply Forall_app. split; [eapply list.Forall_impl; [exact Hk|]; by intros x [Hx _]|]. by constructor. }
    assert (reads i (l ++ [0])) as Hrl. { destruct Hr as (pre & post & EB & ->). exists pre, (text NUL es ++ [0] ++ post). rewrite EB. split; [by rewrite <- !app_assoc|done]. }
    assert (exists c l', l = c :: l' /\ c <> 0) as (c & l' & El & Hc0).
    { unfold l. pose proof (ok_first _ _ He) as Hfi. destruct (key e) as [|c k]; [destruct Hfi|]. apply Forall_cons in Hk as [ [? _] _]. eexists _, _. split; [reflexivity|done]. }
    pose proof Hrl as Hrc. rewrite El in Hrc. cbn [app] in Hrc. destruct (reads_char _ _ _ Hrc) as (-> & _ & _). cbn [mbind option_bind].
    rewrite (proj2 (Z.eqb_neq _ _) Hc0).
    assert (length l < S (S (Z.to_nat ENVSIZE)))%nat as Hll.
    { destruct Hrl as (pre & post & EB & _). apply (f_equal (@length Z)) in EB. rewrite !length_app in EB. lia. }
    rewrite (scan_end_spec l _ i Hl Hrl Hll). cbn [mbind option_bind].
    assert (reads i (key e ++ EQUALS :: value_of e ++ [0])) as Hrk by (unfold l in Hrl; by rewrite <- app_assoc in Hrl).
    rewrite (envmatch_spec name (key e) i _ Hn Hk Hrk). cbn [mbind option_bind List.find].
    assert (0 <= i) as Hi0 by (destruct Hrl as (pre & post & _ & ->); lia).
    destruct (decide (name = key e)) as [Enk|Enk].
    + rewrite !bool_decide_true by done. replace (i + Z.of_nat (length (key e)) + 1 <? 0) with false by lia.
      apply (copy_out_spec (value_of e) n _ []); [done|].
      destruct (reads_app _ (key e) _ Hrk) as [_ Hra]. destruct (reads_char _ _ _ Hra) as (_ & Hrv & _). exact Hrv.
    + rewrite !bool_decide_false by done. cbn [Z.ltb Z.compare]. replace (i + Z.of_nat (length l) + 1) with (i + Z.of_nat (length l) + 1) by done.
      apply IH; [done|done|exact Hr3|cbn in Hf; lia|done].
Qed.

End Early.

(** C22: Before relocation, a valid stored environment answers from the flash: the value of the variable, cut at 31
    characters, and nothing for a name that is not stored; for variables without backslashes in their values, which are
    stored with escapes that this look-up does not remove. *)
Theorem early_get_agrees s es M k : stored_at (memory s) ENVADDR es -> es ≡ₚ (map_to_list M).*2 -> ok_vars NUL M -> named M ->
  env_ready s = false -> env_valid s = ENV_VALID -> env_addr s = EnvAt (ENVADDR + 4) -> ~ In EQUALS k ->
  get s k = Some (take 31 <$> value M k).
Proof.
  intros (Hb & Hlen & _) Hp Hok Hnm Hready Hval Haddr Hk. destruct size_range as [Hs HE]. unfold env_get. rewrite Hready. unfold env_get_f.
  set (B := bytes (memory s) (ENVADDR + 4) (Z.to_nat SIZE)) in *. assert (length B = Z.to_nat SIZE) as HlB by apply length_bytes.
  assert (forall j c, B !! j = Some c -> env_get_char dflt s (Z.of_nat j) = Some c) as Hchars.
  { intros j c Hj. pose proof (lookup_lt_Some _ _ _ Hj). unfold env_get_char, env_get_char_spec. rewrite Hval, Haddr. change (ENV_VALID =? ENV_INVALID) with false. cbn match.
    unfold B in Hj. rewrite bytes_lookup in Hj by lia. exact Hj. }
  assert (Forall (fun e => ok_entry NUL e /\ counted NUL e) es) as Hes.
  { apply Forall_forall. intros e He. rewrite Hp in He. apply elem_of_entries in He as [k' He]. exact (Hok k' e He). }
  apply Forall_and in Hes as [Hes Hcnt].
  pose proof (text_length NUL es) as Htl.
  rewrite (get_f_spec s B Hchars ltac:(lia) k 32 Hk es _ 0 Hes Hcnt); [|exists [], (replicate (Z.to_nat SIZE - length (text NUL es) - 1) 0)|lia|lia].
  2: { split; [|done]. cbn [app]. rewrite Hb, <- app_assoc. f_equal. change ([0] ++ replicate (Z.to_nat SIZE - length (text NUL es) - 1) 0) with (replicate (S (Z.to_nat SIZE - length (text NUL es) - 1)) 0). f_equal. lia. }
  cbn [mbind option_bind]. destruct (List.find _ es) as [e|] eqn:Ef.
  - apply find_some in Ef as [Hin Ek]. apply bool_decide_eq_true in Ek. apply list_elem_of_In in Hin. rewrite Hp in Hin. apply elem_of_entries in Hin as [k' He].
    pose proof (Hnm k' e He) as Ek'. cbn beta in Ek'. subst k'. rewrite <- Ek in He. unfold value. rewrite He. destruct (Hok _ e He) as [Hoke _].
    pose proof (ok_data _ _ Hoke) as Hd. pose proof (ok_nonempty _ _ Hoke) as Hne. cbn [mbind option_bind]. rewrite Hd. cbn [fmap option_fmap option_map]. unfold fitted.
    destruct (Nat.ltb_spec (length (value_of e)) 32) as [Hlt|Hge].
    + assert (0 < length (value_of e))%nat by (destruct (value_of e); [done|cbn; lia]). replace (0 <? Z.of_nat (length (value_of e))) with true by lia.
      by rewrite take_ge by lia.
    + done.
  - cbn. unfold value. destruct (M !! k) as [e|] eqn:He; [|done]. exfalso.
    assert (e ∈ es) as Hin by (rewrite Hp; apply elem_of_entries; eauto). apply list_elem_of_In in Hin. pose proof (find_none _ _ Ef e Hin) as Hx.
    apply bool_decide_eq_false in Hx. apply Hx. symmetry. exact (Hnm k e He).
Qed.

End Chips.
End Storage.

(** ** A small board *)

Definition yes (_ : Z) : bool := true.
(** Regular expressions that match themselves. *)
Definition exact (r : str) : option (str -> bool) := Some (fun name => bool_decide (r = 94 :: name ++ [36])).
Definition demo_list : str := Eval vm_compute in lit "serial#:so".
Definition demo_fli (e : ENTRY) : ENTRY := default e (EnvFlags.env_flags_init yes exact (Some demo_list) e).

#[local] Instance demo_env : Env Some no_callback demo_fli.
Proof.
  split; [done|]. intros e. unfold demo_fli, EnvFlags.env_flags_init. destruct (EnvFlags.env_flags_lookup _ _ _ _) as [ret fl].
  destruct (negb _); [done|]. destruct fl as [ [|c f]|]; [done| |done]. by destruct (_ <? _).
Qed.

Definition demo_check : check := Some (EnvFlags.env_flags_validate (fun _ => None)).
Definition demo_default : list Z := Eval vm_compute in lit "a=0" ++ [0] ++ lit "b=2" ++ [0; 0].

(** The flash of Nor.v with the environment in the last sector of its second bank, and an empty table. *)
Definition demo_state : env := MkEnv (fresh 521 demo_check) true false ENV_VALID DefaultEnv 16 0 1 (Nor.demo_flash 0x40000000 0x44000000).

Lemma demo_running : running demo_state 0 ∅.
Proof. split; [done|]. apply fresh_refines; [apply prime_521|lia]. Qed.

Lemma demo_placed : placed 0x440000c0 64 (Nor.demo_flash 0x40000000 0x44000000) 1 (Nor.demo_bank 0x44000000 1) 3 3.
Proof. split; [apply Nor.demo_layout; lia|done|done|done|done|done|done]. Qed.

Abbreviation demo_set := (do_env_set Some yes no_callback demo_fli).
Abbreviation demo_get := (env_get 64 demo_default Some no_callback demo_fli).

Definition var_a : vars := {[ [97] := Entry [97] (Some [49]) None 0 ]}.

Lemma demo_a : exists s, demo_set [lit "setenv"; lit "a"; lit "1"] demo_state = Some (0, s) /\ running s 1 var_a /\
  same_rest demo_state s /\ change_ok (env_htab s) = demo_check.
Proof.
  destruct (do_env_set_spec Some yes no_callback demo_fli (fun _ => eq_refl) demo_state 0 ∅ (lit "a") [lit "1"] H_INTERACTIVE demo_running ltac:(cbn; lia))
    as (s & E & Hrun & _ & Hk & Hs); [split_and!; [vm_compute; intuition discriminate|done|done]|]. exists s. split_and!; [exact E|exact Hrun|apply Hs..|exact Hk].
Qed.

Lemma setenv_then_get_witness : exists s, demo_set [lit "setenv"; lit "a"; lit "1"; lit "2"] demo_state = Some (0, s) /\
  demo_get s (lit "a") = Some (Some (lit "1 2")).
Proof.
  destruct (setenv_then_get 64 demo_default Some yes no_callback demo_fli (fun _ => eq_refl) demo_state 0 ∅ (lit "setenv") (lit "a") (lit "1") [lit "2"]
    (lit "a") demo_running ltac:(cbn; lia)) as (s & E & Hg & _); [split_and!; [vm_compute; intuition discriminate|done|done]|]. exists s. split; [exact E|exact Hg].
Defined.


(** With .flags in the sequence it does not hold: a list of flags without the serial number opens it. *)
Example flags_unseal :
  ('(_, s) ← demo_set [lit "setenv"; lit "serial#"; lit "7"] demo_state;
   s ← run_changes Some yes no_callback demo_fli
     [Setenv [lit "serial#"; lit "8"]; Setenv [lit ".flags"; lit "b:so"]; Setenv [lit "serial#"; lit "9"] ] s;
   demo_get s (lit "serial#")) = Some (Some (lit "9")).
Proof. vm_compute. reflexivity. Qed.

Lemma a_ok : ok_vars NUL var_a.
Proof.
  apply map_Forall_singleton. split; [|right; cbn; unfold BACKSLASH; intros [ | []]; lia].
  split; cbn; [split; [done|unfold HASH; lia]|repeat constructor; unfold EQUALS, NUL; lia|done|repeat constructor; lia|done].
Qed.

#[local] Existing Instance Nor.SimChip.
#[local] Existing Instance Nor.SimWorks.

Abbreviation demo_drivers := (drivers 64 0x440000c0 64 0x60000000 demo_default Some yes yes (fun _ => None) no_callback demo_fli exact).


Definition entry_a : ENTRY := Entry [97] (Some [49]) None 0.

(** A flash with [a=1] in it. *)
Lemma demo_saved : exists f, stored_at 64 (Nor.contents f) 0x440000c0 [entry_a].
Proof.
  destruct demo_a as (s & _ & Hrun & (_ & _ & _ & _ & _ & _ & Hn) & Hk).
  destruct (save_stores 64 0x440000c0 64 0x60000000 (fun _ => None) exact ltac:(lia) ltac:(lia) ltac:(lia)
    s 1 var_a 1 (Nor.demo_bank 0x44000000 1) 3 3 (proj2 Hrun) a_ok) as (f & es & _ & Hst & Hp & _).
  - unfold var_a. rewrite map_to_list_singleton. vm_compute. done.
  - rewrite Hn. exact demo_placed.
  - exists f. unfold var_a in Hp. rewrite map_to_list_singleton in Hp. cbn in Hp. apply Permutation_singleton_r in Hp as ->. exact Hst.
Qed.

Lemma early_get_agrees_witness : exists f, 
  let s := set_source (reset demo_check f) ENV_VALID (EnvAt 0x440000c4) in
  demo_get s (lit "a") = Some (Some (lit "1")) /\ demo_get s (lit "b") = Some None.
Proof.
  destruct demo_saved as (f & Hst). exists f. cbn zeta.
  assert (forall k, ~ In EQUALS k -> demo_get (set_source (reset demo_check f) ENV_VALID (EnvAt 0x440000c4)) k = Some (take 31 <$> value var_a k)) as Hg.
  { intros k Hk. apply (early_get_agrees 64 0x440000c0 64 demo_default Some no_callback demo_fli ltac:(lia) ltac:(lia) (set_source (reset demo_check f) ENV_VALID (EnvAt 0x440000c4)) [entry_a] var_a k Hst);
      [unfold var_a; by rewrite map_to_list_singleton|exact a_ok|by apply map_Forall_singleton|done..|exact Hk]. }
  split; rewrite Hg; try reflexivity; vm_compute; intuition discriminate.
Defined.

(** The byte of the value is changed from 1 to 2; the default environment has [a=0]. *)
Lemma corrupt_env_defaults_witness : exists f s2 s3,
  ld (Nor.contents f) 0x440000c6 = 49 /\
  env_init demo_drivers env_locations (reset demo_check (Nor.Flash (Nor.flash_info f) (st (Nor.contents f) 0x440000c6 50))) = Some (0, s2) /\
  env_relocate 64 demo_default Some yes yes no_callback demo_fli demo_drivers env_locations s2 = Some s3 /\
  demo_get s3 (lit "a") = Some (Some (lit "0")).
Proof.
  destruct demo_saved as (f & Hst). assert (ld (Nor.contents f) 0x440000c6 = 49) as Hb.
  { pose proof Hst as (Hb & _). pose proof (bytes_lookup (Nor.contents f) 0x440000c4 60 2 ltac:(lia)) as Hl.
    change (Z.to_nat (ENV_SIZE 64)) with 60%nat in Hb. change (0x440000c0 + 4) with 0x440000c4 in Hb. rewrite Hb in Hl. change (0x440000c4 + Z.of_nat 2) with 0x440000c6 in Hl. by injection Hl as <-. }
  destruct (corrupt_env_defaults 64 0x440000c0 64 0x60000000 demo_default Some yes yes (fun _ => None) no_callback demo_fli exact (fun _ => eq_refl) (fun _ => eq_refl)
    ltac:(lia) ltac:(lia) f [entry_a] 0x440000c6 50 [Entry [97] (Some [48]) None 0; Entry [98] (Some [50]) None 0] 1 demo_check Hst)
    as (s2 & s3 & E2 & _ & E3 & _ & Hg); [lia|rewrite Hb; done|reflexivity| |vm_compute; done|vm_compute; done|].
  - repeat (constructor; [split; cbn; [split; [done|unfold HASH; lia]|repeat constructor; unfold EQUALS, NUL; lia|done|repeat constructor; lia|done]|]); constructor.
  - exists f, s2, s3. split_and!; [exact Hb|exact E2|exact E3|]. rewrite Hg. reflexivity.
Defined.

End EnvStore.
