(* ===== verification/MmcTypes.v ===== *)
(** * MmcTypes: the structures of the MMC layer

    The structures and constants of U-Boot's include/mmc.h that the MMC core (Mmc.v) and the driver of the PL180
    controller (Pl180.v) share, and the monad they are written in.  The integer members of [struct mmc] and of the
    [struct blk_desc] inside it are a function from the member's name to its value; the arrays and strings are lists.  A
    pointer to a [struct mmc] is the index in the list of registered devices.  Configuration as on the board: no driver
    model, no UHS, HS200, SPI, voltage switching or tracing. *)

From stdpp Require Import base list option.
From Stdlib Require Import ZifyBool.
From S2P Require Import Prelude Cmem.

Module MmcTypes.

(** ** Constants *)

Definition EPERM : Z := 1.
Definition ENODEV : Z := 19.
Definition EINVAL : Z := 22.
Definition ENOSYS : Z := 38.
Definition ENOMEM : Z := 12.
Definition EIO : Z := 5.
Definition ECOMM : Z := 70.
Definition EBADMSG : Z := 74.
Definition EILSEQ : Z := 84.
Definition EOPNOTSUPP : Z := 95.
Definition ENOBUFS : Z := 105.
Definition ETIMEDOUT : Z := 110.
Definition ENOMEDIUM : Z := 123.
Definition EMEDIUMTYPE : Z := 124.
Definition ENOTSUPP : Z := 524.

Definition SD_VERSION_SD : Z := Z.shiftl 1 31.
Definition MMC_VERSION_MMC : Z := Z.shiftl 1 30.
Definition MAKE_SDMMC_VERSION (a b c : Z) : Z := Z.lor (Z.lor (Z.shiftl a 16) (Z.shiftl b 8)) c.
Definition MAKE_SD_VERSION (a b c : Z) : Z := Z.lor SD_VERSION_SD (MAKE_SDMMC_VERSION a b c).
Definition MAKE_MMC_VERSION (a b c : Z) : Z := Z.lor MMC_VERSION_MMC (MAKE_SDMMC_VERSION a b c).
Definition SD_VERSION_3 : Z := MAKE_SD_VERSION 3 0 0.
Definition SD_VERSION_2 : Z := MAKE_SD_VERSION 2 0 0.
Definition SD_VERSION_1_0 : Z := MAKE_SD_VERSION 1 0 0.
Definition SD_VERSION_1_10 : Z := MAKE_SD_VERSION 1 10 0.
Definition MMC_VERSION_UNKNOWN : Z := MAKE_MMC_VERSION 0 0 0.
Definition MMC_VERSION_1_2 : Z := MAKE_MMC_VERSION 1 2 0.
Definition MMC_VERSION_1_4 : Z := MAKE_MMC_VERSION 1 4 0.
Definition MMC_VERSION_2_2 : Z := MAKE_MMC_VERSION 2 2 0.
Definition MMC_VERSION_3 : Z := MAKE_MMC_VERSION 3 0 0.
Definition MMC_VERSION_4 : Z := MAKE_MMC_VERSION 4 0 0.
Definition MMC_VERSION_4_1 : Z := MAKE_MMC_VERSION 4 1 0.
Definition MMC_VERSION_4_2 : Z := MAKE_MMC_VERSION 4 2 0.
Definition MMC_VERSION_4_3 : Z := MAKE_MMC_VERSION 4 3 0.
Definition MMC_VERSION_4_4 : Z := MAKE_MMC_VERSION 4 4 0.
Definition MMC_VERSION_4_41 : Z := MAKE_MMC_VERSION 4 4 1.
Definition MMC_VERSION_4_5 : Z := MAKE_MMC_VERSION 4 5 0.
Definition MMC_VERSION_5_0 : Z := MAKE_MMC_VERSION 5 0 0.
Definition MMC_VERSION_5_1 : Z := MAKE_MMC_VERSION 5 1 0.

(** [enum bus_mode] *)
Definition MMC_LEGACY : Z := 0.
Definition SD_LEGACY : Z := 1.
Definition MMC_HS : Z := 2.
Definition SD_HS : Z := 3.
Definition MMC_HS_52 : Z := 4.
Definition MMC_DDR_52 : Z := 5.
Definition UHS_SDR12 : Z := 6.
Definition UHS_SDR25 : Z := 7.
Definition UHS_SDR50 : Z := 8.
Definition UHS_DDR50 : Z := 9.
Definition UHS_SDR104 : Z := 10.
Definition MMC_HS_200 : Z := 11.
Definition MMC_MODES_END : Z := 12.

Definition MMC_CAP (mode : Z) : Z := Z.shiftl 1 mode.
Definition MMC_MODE_HS : Z := Z.lor (MMC_CAP MMC_HS) (MMC_CAP SD_HS).
Definition MMC_MODE_HS_52MHz : Z := MMC_CAP MMC_HS_52.
Definition MMC_MODE_DDR_52MHz : Z := MMC_CAP MMC_DDR_52.
Definition MMC_MODE_8BIT : Z := Z.shiftl 1 30.
Definition MMC_MODE_4BIT : Z := Z.shiftl 1 29.
Definition MMC_MODE_1BIT : Z := Z.shiftl 1 28.
Definition UHS_CAPS : Z :=
  Z.lor (Z.lor (Z.lor (Z.lor (MMC_CAP UHS_SDR12) (MMC_CAP UHS_SDR25)) (MMC_CAP UHS_SDR50)) (MMC_CAP UHS_SDR104)) (MMC_CAP UHS_DDR50).

Definition mmc_is_mode_ddr (mode : Z) : bool := mode =? MMC_DDR_52.

Definition MMC_DATA_READ : Z := 1.
Definition MMC_DATA_WRITE : Z := 2.

Definition MMC_CMD_GO_IDLE_STATE : Z := 0.
Definition MMC_CMD_SEND_OP_COND : Z := 1.
Definition MMC_CMD_ALL_SEND_CID : Z := 2.
Definition MMC_CMD_SET_RELATIVE_ADDR : Z := 3.
Definition MMC_CMD_SET_DSR : Z := 4.
Definition MMC_CMD_SWITCH : Z := 6.
Definition MMC_CMD_SELECT_CARD : Z := 7.
Definition MMC_CMD_SEND_EXT_CSD : Z := 8.
Definition MMC_CMD_SEND_CSD : Z := 9.
Definition MMC_CMD_STOP_TRANSMISSION : Z := 12.
Definition MMC_CMD_SEND_STATUS : Z := 13.
Definition MMC_CMD_SET_BLOCKLEN : Z := 16.
Definition MMC_CMD_READ_SINGLE_BLOCK : Z := 17.
Definition MMC_CMD_READ_MULTIPLE_BLOCK : Z := 18.
Definition MMC_CMD_WRITE_SINGLE_BLOCK : Z := 24.
Definition MMC_CMD_WRITE_MULTIPLE_BLOCK : Z := 25.
Definition MMC_CMD_ERASE_GROUP_START : Z := 35.
Definition MMC_CMD_ERASE_GROUP_END : Z := 36.
Definition MMC_CMD_ERASE : Z := 38.
Definition MMC_CMD_APP_CMD : Z := 55.
Definition SD_CMD_SEND_RELATIVE_ADDR : Z := 3.
Definition SD_CMD_SWITCH_FUNC : Z := 6.
Definition SD_CMD_SEND_IF_COND : Z := 8.
Definition SD_CMD_APP_SET_BUS_WIDTH : Z := 6.
Definition SD_CMD_APP_SD_STATUS : Z := 13.
Definition SD_CMD_ERASE_WR_BLK_START : Z := 32.
Definition SD_CMD_ERASE_WR_BLK_END : Z := 33.
Definition SD_CMD_APP_SEND_OP_COND : Z := 41.
Definition SD_CMD_APP_SEND_SCR : Z := 51.

Definition SD_DATA_4BIT : Z := 0x00040000.
Definition SD_HIGHSPEED_BUSY : Z := 0x00020000.
Definition SD_HIGHSPEED_SUPPORTED : Z := 0x00020000.
Definition UHS_SDR12_BUS_SPEED : Z := 0.
Definition HIGH_SPEED_BUS_SPEED : Z := 1.
Definition OCR_BUSY : Z := 0x80000000.
Definition OCR_HCS : Z := 0x40000000.
Definition OCR_S18R : Z := 0x1000000.
Definition OCR_VOLTAGE_MASK : Z := 0x007FFF80.
Definition OCR_ACCESS_MODE : Z := 0x60000000.
Definition MMC_ERASE_ARG : Z := 0.
(** [~0x0206BF7F] on 32 bits *)
Definition MMC_STATUS_MASK : Z := 0xffffffff - 0x0206BF7F.
Definition MMC_STATUS_RDY_FOR_DATA : Z := Z.shiftl 1 8.
Definition MMC_STATUS_CURR_STATE : Z := Z.shiftl 0xf 9.
Definition MMC_STATE_PRG : Z := Z.shiftl 7 9.
Definition MMC_SWITCH_MODE_WRITE_BYTE : Z := 3.
Definition SD_SWITCH_CHECK : Z := 0.
Definition SD_SWITCH_SWITCH : Z := 1.

Definition EXT_CSD_ENH_START_ADDR : Z := 136.
Definition EXT_CSD_ENH_SIZE_MULT : Z := 140.
Definition EXT_CSD_GP_SIZE_MULT : Z := 143.
Definition EXT_CSD_PARTITION_SETTING : Z := 155.
Definition EXT_CSD_PARTITIONS_ATTRIBUTE : Z := 156.
Definition EXT_CSD_MAX_ENH_SIZE_MULT : Z := 157.
Definition EXT_CSD_PARTITIONING_SUPPORT : Z := 160.
Definition EXT_CSD_WR_REL_PARAM : Z := 166.
Definition EXT_CSD_WR_REL_SET : Z := 167.
Definition EXT_CSD_RPMB_MULT : Z := 168.
Definition EXT_CSD_ERASE_GROUP_DEF : Z := 175.
Definition EXT_CSD_PART_CONF : Z := 179.
Definition EXT_CSD_BUS_WIDTH : Z := 183.
Definition EXT_CSD_HS_TIMING : Z := 185.
Definition EXT_CSD_REV : Z := 192.
Definition EXT_CSD_CARD_TYPE : Z := 196.
Definition EXT_CSD_SEC_CNT : Z := 212.
Definition EXT_CSD_HC_WP_GRP_SIZE : Z := 221.
Definition EXT_CSD_HC_ERASE_GRP_SIZE : Z := 224.
Definition EXT_CSD_BOOT_MULT : Z := 226.
Definition EXT_CSD_CMD_SET_NORMAL : Z := 1.
Definition EXT_CSD_CARD_TYPE_26 : Z := 1.
Definition EXT_CSD_CARD_TYPE_52 : Z := 2.
Definition EXT_CSD_CARD_TYPE_DDR_52 : Z := Z.lor (Z.shiftl 1 2) (Z.shiftl 1 3).
Definition EXT_CSD_BUS_WIDTH_1 : Z := 0.
Definition EXT_CSD_BUS_WIDTH_4 : Z := 1.
Definition EXT_CSD_BUS_WIDTH_8 : Z := 2.
Definition EXT_CSD_DDR_BUS_WIDTH_4 : Z := 5.
Definition EXT_CSD_DDR_BUS_WIDTH_8 : Z := 6.
Definition EXT_CSD_DDR_FLAG : Z := Z.shiftl 1 2.
Definition EXT_CSD_TIMING_LEGACY : Z := 0.
Definition EXT_CSD_TIMING_HS : Z := 1.
Definition EXT_CSD_PARTITION_SETTING_COMPLETED : Z := 1.
Definition EXT_CSD_ENH_USR : Z := Z.shiftl 1 0.
Definition EXT_CSD_ENH_GP (x : Z) : Z := Z.shiftl 1 (x + 1).
Definition EXT_CSD_HS_CTRL_REL : Z := Z.shiftl 1 0.
Definition EXT_CSD_WR_DATA_REL_USR : Z := Z.shiftl 1 0.
Definition EXT_CSD_WR_DATA_REL_GP (x : Z) : Z := Z.shiftl 1 (x + 1).

Definition MMC_RSP_PRESENT : Z := Z.shiftl 1 0.
Definition MMC_RSP_136 : Z := Z.shiftl 1 1.
Definition MMC_RSP_CRC : Z := Z.shiftl 1 2.
Definition MMC_RSP_BUSY : Z := Z.shiftl 1 3.
Definition MMC_RSP_OPCODE : Z := Z.shiftl 1 4.
Definition MMC_RSP_NONE : Z := 0.
Definition MMC_RSP_R1 : Z := Z.lor (Z.lor MMC_RSP_PRESENT MMC_RSP_CRC) MMC_RSP_OPCODE.
Definition MMC_RSP_R1b : Z := Z.lor MMC_RSP_R1 MMC_RSP_BUSY.
Definition MMC_RSP_R2 : Z := Z.lor (Z.lor MMC_RSP_PRESENT MMC_RSP_136) MMC_RSP_CRC.
Definition MMC_RSP_R3 : Z := MMC_RSP_PRESENT.
Definition MMC_RSP_R6 : Z := MMC_RSP_R1.
Definition MMC_RSP_R7 : Z := MMC_RSP_R1.

Definition MMCPART_NOAVAILABLE : Z := 0xff.
Definition PART_ACCESS_MASK : Z := 0x7.
Definition PART_SUPPORT : Z := 0x1.
Definition ENHNCD_SUPPORT : Z := 0x2.
Definition PART_ENH_ATTRIB : Z := 0x1f.
Definition MMC_QUIRK_RETRY_SEND_CID : Z := Z.shiftl 1 0.
Definition MMC_QUIRK_RETRY_SET_BLOCKLEN : Z := Z.shiftl 1 1.
Definition MMC_MAX_BLOCK_LEN : Z := 512.

Definition IF_TYPE_MMC : Z := 6.

(** ** Structures *)

(** [struct mmc_cmd]; [response] holds four words once an answer was received. *)
Record mmc_cmd := Cmd { cmdidx : Z; resp_type : Z; cmdarg : Z; response : list Z }.
(** A command that was filled in and not yet answered. *)
Definition new_cmd (idx rsp arg : Z) : mmc_cmd := Cmd idx rsp arg [].
Definition with_response (c : mmc_cmd) (r : list Z) : mmc_cmd := Cmd (cmdidx c) (resp_type c) (cmdarg c) r.
Definition resp (c : mmc_cmd) (i : nat) : Z := nth i (response c) 0.

(** [struct mmc_data]; [buf] is the union of [dest] and [src]. *)
Record mmc_data := Data { buf : Z; flags : Z; blocks : Z; blocksize : Z }.

(** [struct mmc_config] without its operations, which are the interface [MmcHost]. *)
Record mmc_config := Config { cfg_host_caps : Z; cfg_voltages : Z; f_min : Z; f_max : Z; b_max : Z; cfg_part_type : Z; cfg_name : list Z }.

(** [struct mmc_hwpart_conf]: the user area and the four general purpose partitions, sizes in sectors of 512 bytes. *)
Record user_conf := User { u_enh_start : Z; u_enh_size : Z; u_wr_rel_change : bool; u_wr_rel_set : bool }.
Record gp_conf := Gp { g_size : Z; g_enhanced : bool; g_wr_rel_change : bool; g_wr_rel_set : bool }.
Record mmc_hwpart_conf := HwConf { conf_user : user_conf; gp_part : list gp_conf }.
Inductive mmc_hwpart_conf_mode := MMC_HWPART_CONF_CHECK | MMC_HWPART_CONF_SET | MMC_HWPART_CONF_COMPLETE.

(** The integer members of [struct mmc], of its [ssr] and of its [block_dev]. *)
Inductive field :=
  | version | has_init | high_capacity | clk_disable | bus_width | clock | card_caps | host_caps
  | ocr | dsr | dsr_imp | rca | part_support | part_attr | wr_rel_set | part_config | tran_speed | legacy_speed
  | read_bl_len | write_bl_len | erase_grp_size | hc_wp_grp_size | ssr_au | ssr_erase_timeout | ssr_erase_offset
  | capacity | capacity_user | capacity_boot | capacity_rpmb | enh_user_start | enh_user_size
  | op_cond_pending | init_in_progress | preinit | ddr_mode | cardtype | selected_mode | best_mode | quirks
  | bd_if_type | bd_removable | bd_devnum | bd_part_type | bd_hwpart | bd_lun | bd_type | bd_blksz | bd_log2blksz | bd_lba.

Scheme Equality for field.

Record mmc := Mmc {
  val : field -> Z;
  cid : list Z; csd : list Z; scr : list Z;
  capacity_gp : list Z;
  ext_csd : option (list Z);
  cfg : mmc_config;
  vendor : list Z; product : list Z; revision : list Z
}.

Definition set_val (d : mmc) (f : field) (v : Z) : mmc :=
  Mmc (fun g => if field_beq f g then v else val d g) (cid d) (csd d) (scr d) (capacity_gp d) (ext_csd d) (cfg d) (vendor d) (product d) (revision d).
Definition set_cid (d : mmc) (l : list Z) : mmc :=
  Mmc (val d) l (csd d) (scr d) (capacity_gp d) (ext_csd d) (cfg d) (vendor d) (product d) (revision d).
Definition set_csd (d : mmc) (l : list Z) : mmc :=
  Mmc (val d) (cid d) l (scr d) (capacity_gp d) (ext_csd d) (cfg d) (vendor d) (product d) (revision d).
Definition set_scr (d : mmc) (l : list Z) : mmc :=
  Mmc (val d) (cid d) (csd d) l (capacity_gp d) (ext_csd d) (cfg d) (vendor d) (product d) (revision d).
Definition set_gp (d : mmc) (l : list Z) : mmc :=
  Mmc (val d) (cid d) (csd d) (scr d) l (ext_csd d) (cfg d) (vendor d) (product d) (revision d).
Definition set_ext_csd (d : mmc) (l : option (list Z)) : mmc :=
  Mmc (val d) (cid d) (csd d) (scr d) (capacity_gp d) l (cfg d) (vendor d) (product d) (revision d).
Definition set_descr (d : mmc) (v p r : list Z) : mmc :=
  Mmc (val d) (cid d) (csd d) (scr d) (capacity_gp d) (ext_csd d) (cfg d) v p r.

(** [IS_SD] *)
Definition IS_SD (d : mmc) : bool := negb (Z.land (val d version) SD_VERSION_SD =? 0).

(** ** The machine

    [hw] is everything behind the bus: the controller, the card and the clock. *)
Class Platform := {
  hw : Type;
  readl : Z -> hw -> Z * hw;
  writel : Z -> Z -> hw -> hw;
  udelay : Z -> hw -> hw;
  get_timer : Z -> hw -> Z * hw;
}.

Section Monad.
Context {PF : Platform}.

(** [mmc_devices] with [cur_dev_num], the hardware and the memory. *)
Record world := World { devices : list mmc; cur_dev_num : Z; io : hw; ram : mem }.

(** [None] is a loop that runs out of rounds, a dangling pointer or an access outside an array. *)
Definition M (A : Type) : Type := world -> option (A * world).

#[global] Instance M_ret : MRet M := fun A a w => Some (a, w).
#[global] Instance M_bind : MBind M := fun A B k m w => '(a, w') ← m w; k a w'.

Definition stuck {A} : M A := fun _ => None.
Definition of_option {A} (x : option A) : M A := fun w => a ← x; Some (a, w).

Definition with_devices (w : world) (l : list mmc) : world := World l (cur_dev_num w) (io w) (ram w).
Definition with_io (w : world) (h : hw) : world := World (devices w) (cur_dev_num w) h (ram w).
Definition with_ram (w : world) (m : mem) : world := World (devices w) (cur_dev_num w) (io w) m.

Definition dev (p : nat) : M mmc := fun w => d ← devices w !! p; Some (d, w).
Definition update (p : nat) (g : mmc -> mmc) : M unit := fun w => d ← devices w !! p; Some (tt, with_devices w (<[p:=g d]> (devices w))).
Definition get (p : nat) (f : field) : M Z := d ← dev p; mret (val d f).
Definition set (p : nat) (f : field) (v : Z) : M unit := update p (fun d => set_val d f v).

Definition m_readl (a : Z) : M Z := fun w => let '(v, h) := readl a (io w) in Some (v, with_io w h).
Definition m_writel (v a : Z) : M unit := fun w => Some (tt, with_io w (writel v a (io w))).
Definition m_udelay (n : Z) : M unit := fun w => Some (tt, with_io w (udelay n (io w))).
Definition m_get_timer (base : Z) : M Z := fun w => let '(v, h) := get_timer base (io w) in Some (v, with_io w h).
Definition m_ld (a : Z) : M Z := fun w => Some (ld (ram w) a, w).
Definition m_ld32 (a : Z) : M Z := fun w => Some (ld32 (ram w) a, w).
Definition m_st32 (a v : Z) : M unit := fun w => Some (tt, with_ram w (st32 (ram w) a v)).

(** The operations of a host driver, [struct mmc_ops]; a missing one is a null pointer. *)
Class MmcHost := {
  send_cmd : nat -> mmc_cmd -> option mmc_data -> M (Z * mmc_cmd);
  set_ios : option (nat -> M Z);
  host_init : option (nat -> M Z);
  getcd : option (nat -> M Z);
  getwp : option (nat -> M Z);
}.

(** ** Total correctness *)

Definition wp {A} (m : M A) (Q : A -> world -> Prop) (w : world) : Prop :=
  match m w with Some (a, w') => Q a w' | None => False end.

Lemma mwp_ret {A} (a : A) Q w : Q a w -> wp (mret a) Q w.
Proof. exact id. Qed.

Lemma mwp_bind {A B} (m : M A) (k : A -> M B) Q w : wp m (fun a => wp (k a) Q) w -> wp (m ≫= k) Q w.
Proof. unfold wp, mbind, M_bind. by destruct (m w) as [ [a w']|]. Qed.

Lemma mwp_mono {A} (m : M A) (P Q : A -> world -> Prop) w : wp m P w -> (forall a w', P a w' -> Q a w') -> wp m Q w.
Proof. unfold wp. destruct (m w) as [ [a w']|]; auto. Qed.

Lemma wp_run {A} (m : M A) Q w : wp m Q w -> exists a w', m w = Some (a, w') /\ Q a w'.
Proof. unfold wp. destruct (m w) as [ [a w']|]; [|done]. intros H. by exists a, w'. Qed.

Lemma wp_of_run {A} (m : M A) (Q : A -> world -> Prop) a w w' : m w = Some (a, w') -> Q a w' -> wp m Q w.
Proof. unfold wp. by intros ->. Qed.

Lemma wp_dev p Q w d : devices w !! p = Some d -> Q d w -> wp (dev p) Q w.
Proof. unfold wp, dev. by intros ->. Qed.

Lemma wp_get p f Q w d : devices w !! p = Some d -> Q (val d f) w -> wp (get p f) Q w.
Proof. unfold wp, get, dev, mbind, M_bind. cbn. by intros ->. Qed.

Lemma wp_update p g Q w d : devices w !! p = Some d -> Q tt (with_devices w (<[p:=g d]> (devices w))) -> wp (update p g) Q w.
Proof. unfold wp, update. by intros ->. Qed.

Lemma wp_set p f v Q w d : devices w !! p = Some d -> Q tt (with_devices w (<[p:=set_val d f v]> (devices w))) -> wp (set p f v) Q w.
Proof. exact (wp_update p (fun d => set_val d f v) Q w d). Qed.

End Monad.
End MmcTypes.
