(* ===== verification/Mmc.v ===== *)
(** * Mmc: cards behind an MMC host

    U-Boot's drivers/mmc/mmc.c, mmc_write.c and mmc_legacy.c: the registered devices, the identification of SD and MMC
    cards, the choice of bus width and speed, and reading, writing and erasing blocks.  The driver of the controller is
    the interface [MmcHost] of MmcTypes.v; the reading of the partition table and [malloc] are parameters.  [stack] is
    the address of the local buffers.  [mmc_hwpart_config], which divides an eMMC, is in Emmc.v. *)

From stdpp Require Import base list option strings.
From Stdlib Require Import ZifyBool.
From S2P Require Import Prelude Cmem Strto Carray Part MmcTypes.
Import MmcTypes.

Module Mmc.

Section Core.
Context {PF : Platform} {HO : MmcHost}.
Context (malloc : Z -> bool) (part_init : nat -> M unit) (stack : Z).

(** [if (err) return err;] *)
Definition try_ (err : Z) (k : M Z) : M Z := if negb (err =? 0) then mret err else k.

(** ** Speeds *)

(** [mmc_mode2freq]: the table [freqs]. *)
Definition freqs : list Z :=
  [25000000; 25000000; 26000000; 50000000; 52000000; 52000000; 25000000; 50000000; 100000000; 50000000; 208000000; 200000000].
Definition mmc_mode2freq (d : mmc) (mode : Z) : Z :=
  if mode =? MMC_LEGACY then val d legacy_speed else if MMC_MODES_END <=? mode then 0 else nth (Z.to_nat mode) freqs 0.

Definition mmc_select_mode (p : nat) (mode : Z) : M Z :=
  set p selected_mode mode;;
  d ← dev p;
  set p tran_speed (mmc_mode2freq d mode);;
  set p ddr_mode (Z.b2z (mmc_is_mode_ddr mode));;
  mret 0.

Definition mmc_send_cmd (p : nat) (cmd : mmc_cmd) (data : option mmc_data) : M (Z * mmc_cmd) := send_cmd p cmd data.

Definition rca_arg (d : mmc) : Z := u32 (Z.shiftl (val d rca) 16).

(** [mmc_send_status]; [timeout] counts down in the loop. *)
Fixpoint status_loop (p : nat) (timeout : nat) (retries : Z) (cmd : mmc_cmd) : M Z :=
  '(err, cmd) ← mmc_send_cmd p cmd None;
  let again (retries : Z) : M Z :=
    match timeout with
    | O => mret (- ETIMEDOUT)
    | S timeout => m_udelay 1000;; status_loop p timeout retries cmd
    end in
  if err =? 0 then
    if negb (Z.land (resp cmd 0) MMC_STATUS_RDY_FOR_DATA =? 0) && negb (Z.land (resp cmd 0) MMC_STATUS_CURR_STATE =? MMC_STATE_PRG) then
      mret (if (timeout =? 0)%nat then - ETIMEDOUT else 0)
    else if negb (Z.land (resp cmd 0) MMC_STATUS_MASK =? 0) then mret (- ECOMM)
    else again retries
  else if retries - 1 <? 0 then mret err else again (retries - 1).

Definition mmc_send_status (p : nat) (timeout : Z) : M Z :=
  d ← dev p; status_loop p (Z.to_nat timeout) 5 (new_cmd MMC_CMD_SEND_STATUS MMC_RSP_R1 (rca_arg d)).

(** [do { err = mmc_send_cmd(...); if (!err) break; } while (retries--);] *)
Fixpoint resend (p : nat) (retries : nat) (cmd : mmc_cmd) : M (Z * mmc_cmd) :=
  '(err, cmd) ← mmc_send_cmd p cmd None;
  if err =? 0 then mret (err, cmd) else
  match retries with O => mret (err, cmd) | S retries => resend p retries cmd end.

Definition mmc_set_blocklen (p : nat) (len : Z) : M Z :=
  d ← dev p;
  if negb (val d ddr_mode =? 0) then mret 0 else
  '(err, cmd) ← mmc_send_cmd p (new_cmd MMC_CMD_SET_BLOCKLEN MMC_RSP_R1 (u32 len)) None;
  q ← get p quirks;
  if negb (err =? 0) && negb (Z.land q MMC_QUIRK_RETRY_SET_BLOCKLEN =? 0) then
    '(err, _) ← resend p 4 cmd; mret err
  else mret err.

(** ** Reading *)

Definition mmc_read_blocks (p : nat) (dst start blkcnt : Z) : M Z :=
  d ← dev p;
  let idx := if 1 <? blkcnt then MMC_CMD_READ_MULTIPLE_BLOCK else MMC_CMD_READ_SINGLE_BLOCK in
  let arg := if negb (val d high_capacity =? 0) then start else u32 (start * val d read_bl_len) in
  '(err, _) ← mmc_send_cmd p (new_cmd idx MMC_RSP_R1 arg) (Some (Data dst MMC_DATA_READ blkcnt (val d read_bl_len)));
  if negb (err =? 0) then mret 0 else
  if 1 <? blkcnt then
    '(err, _) ← mmc_send_cmd p (new_cmd MMC_CMD_STOP_TRANSMISSION MMC_RSP_R1b 0) None;
    mret (if negb (err =? 0) then 0 else blkcnt)
  else mret blkcnt.

(** [find_mmc_device]: the pointer, or null. *)
Fixpoint find_loop (l : list mmc) (n : nat) (dev_num : Z) : option nat :=
  match l with [] => None | d :: l => if val d bd_devnum =? dev_num then Some n else find_loop l (S n) dev_num end.
Definition find_mmc_device (dev_num : Z) : M (option nat) := fun w => Some (find_loop (devices w) 0 dev_num, w).

(** ** Switching *)

Fixpoint switch_loop (p : nat) (retries : nat) (cmd : mmc_cmd) (ret : Z) : M Z :=
  match retries with
  | O => mret ret
  | S retries =>
    '(ret, cmd) ← mmc_send_cmd p cmd None;
    if ret =? 0 then mmc_send_status p 1000 else switch_loop p retries cmd ret
  end.
Definition mmc_switch (p : nat) (set_ index value : Z) : M Z :=
  let arg := Z.lor (Z.lor (Z.shiftl MMC_SWITCH_MODE_WRITE_BYTE 24) (Z.shiftl index 16)) (Z.shiftl value 8) in
  switch_loop p 3 (new_cmd MMC_CMD_SWITCH MMC_RSP_R1b arg) 0.

Definition mmc_set_capacity (p : nat) (part_num : Z) : M Z :=
  d ← dev p;
  let c := if part_num =? 0 then Some (val d capacity_user)
           else if (part_num =? 1) || (part_num =? 2) then Some (val d capacity_boot)
           else if part_num =? 3 then Some (val d capacity_rpmb)
           else if (4 <=? part_num) && (part_num <=? 7) then Some (nth (Z.to_nat (part_num - 4)) (capacity_gp d) 0)
           else None in
  match c with
  | None => mret (-1)
  | Some c => set p capacity c;; set p bd_lba (u32 (c / val d read_bl_len));; mret 0
  end.

Definition mmc_switch_part (p : nat) (part_num : Z) : M Z :=
  d ← dev p;
  ret ← mmc_switch p EXT_CSD_CMD_SET_NORMAL EXT_CSD_PART_CONF
          (Z.lor (Z.land (val d part_config) (Z.lnot PART_ACCESS_MASK)) (Z.land part_num PART_ACCESS_MASK));
  if (ret =? 0) || ((ret =? - ENODEV) && (part_num =? 0)) then
    ret ← mmc_set_capacity p part_num;
    set p bd_hwpart (u8 part_num);;
    mret ret
  else mret ret.

Definition mmc_select_hwpartp (desc : nat) (hwpart : Z) : M Z :=
  num ← get desc bd_devnum;
  m ← find_mmc_device num;
  match m with
  | None => mret (- ENODEV)
  | Some p =>
    d ← dev p;
    if val d bd_hwpart =? hwpart then mret 0 else
    if val d part_config =? MMCPART_NOAVAILABLE then mret (- EMEDIUMTYPE) else
    mmc_switch_part p hwpart
  end.

(** [blk_dselect_hwpart] (drivers/block/blk_legacy.c), with the one driver this file registers. *)
Definition blk_dselect_hwpart (desc : nat) (hwpart : Z) : M Z :=
  t ← get desc bd_if_type;
  if t =? IF_TYPE_MMC then mmc_select_hwpartp desc hwpart else mret (- ENOSYS).

(** The loop of [mmc_bread]: 0 on an error. *)
Fixpoint bread_loop (fuel : nat) (p : nat) (start blocks_todo dst blkcnt : Z) : M Z :=
  match fuel with
  | O => stuck
  | S fuel =>
    d ← dev p;
    let cur := if b_max (cfg d) <? blocks_todo then b_max (cfg d) else blocks_todo in
    n ← mmc_read_blocks p dst start cur;
    if negb (n =? cur) then mret 0 else
    len ← get p read_bl_len;
    if 0 <? blocks_todo - cur then bread_loop fuel p (u32 (start + cur)) (blocks_todo - cur) (u32 (dst + cur * len)) blkcnt
    else mret blkcnt
  end.

Definition mmc_bread (block_dev : nat) (start blkcnt dst : Z) : M Z :=
  b ← dev block_dev;
  if blkcnt =? 0 then mret 0 else
  m ← find_mmc_device (val b bd_devnum);
  match m with
  | None => mret 0
  | Some p =>
    err ← blk_dselect_hwpart block_dev (val b bd_hwpart);
    if err <? 0 then mret 0 else
    lba ← get block_dev bd_lba;
    if lba <? u32 (start + blkcnt) then mret 0 else
    len ← get p read_bl_len;
    err ← mmc_set_blocklen p len;
    if negb (err =? 0) then mret 0 else
    bread_loop (Z.to_nat blkcnt) p start blkcnt dst blkcnt
  end.

(** ** Writing and erasing *)

Definition mmc_write_blocks (p : nat) (start blkcnt src : Z) : M Z :=
  d ← dev p;
  if val d bd_lba <? u32 (start + blkcnt) then mret 0 else
  if blkcnt =? 0 then mret 0 else
  let idx := if blkcnt =? 1 then MMC_CMD_WRITE_SINGLE_BLOCK else MMC_CMD_WRITE_MULTIPLE_BLOCK in
  let arg := if negb (val d high_capacity =? 0) then start else u32 (start * val d write_bl_len) in
  '(err, _) ← mmc_send_cmd p (new_cmd idx MMC_RSP_R1 arg) (Some (Data src MMC_DATA_WRITE blkcnt (val d write_bl_len)));
  if negb (err =? 0) then mret 0 else
  err ← (if 1 <? blkcnt then
           '(err, _) ← mmc_send_cmd p (new_cmd MMC_CMD_STOP_TRANSMISSION MMC_RSP_R1b 0) None; mret err
         else mret 0);
  if negb (err =? 0) then mret 0 else
  err ← mmc_send_status p 1000;
  mret (if negb (err =? 0) then 0 else blkcnt).

Fixpoint bwrite_loop (fuel : nat) (p : nat) (start blocks_todo src blkcnt : Z) : M Z :=
  match fuel with
  | O => stuck
  | S fuel =>
    d ← dev p;
    let cur := if b_max (cfg d) <? blocks_todo then b_max (cfg d) else blocks_todo in
    n ← mmc_write_blocks p start cur src;
    if negb (n =? cur) then mret 0 else
    len ← get p write_bl_len;
    if 0 <? blocks_todo - cur then bwrite_loop fuel p (u32 (start + cur)) (blocks_todo - cur) (u32 (src + cur * len)) blkcnt
    else mret blkcnt
  end.

Definition mmc_erase_t (p : nat) (start blkcnt : Z) : M Z :=
  d ← dev p;
  let e := u32 (start + blkcnt - 1) in
  let e := if negb (val d high_capacity =? 0) then e else u32 (e * val d write_bl_len) in
  let start := if negb (val d high_capacity =? 0) then start else u32 (start * val d write_bl_len) in
  let '(start_cmd, end_cmd) := if IS_SD d then (SD_CMD_ERASE_WR_BLK_START, SD_CMD_ERASE_WR_BLK_END)
                               else (MMC_CMD_ERASE_GROUP_START, MMC_CMD_ERASE_GROUP_END) in
  '(err, _) ← mmc_send_cmd p (new_cmd start_cmd MMC_RSP_R1 start) None;
  try_ err (
  '(err, _) ← mmc_send_cmd p (new_cmd end_cmd MMC_RSP_R1 e) None;
  try_ err (
  '(err, _) ← mmc_send_cmd p (new_cmd MMC_CMD_ERASE MMC_RSP_R1b MMC_ERASE_ARG) None;
  try_ err (mret 0))).

Fixpoint berase_loop (fuel : nat) (p : nat) (start blkcnt blk : Z) : M Z :=
  if negb (blk <? blkcnt) then mret blk else
  match fuel with
  | O => stuck
  | S fuel =>
    d ← dev p;
    let unit_ := if IS_SD d && negb (val d ssr_au =? 0) then val d ssr_au else val d erase_grp_size in
    let blk_r := if unit_ <? blkcnt - blk then unit_ else blkcnt - blk in
    err ← mmc_erase_t p (u32 (start + blk)) blk_r;
    if negb (err =? 0) then mret blk else
    err ← mmc_send_status p 1000;
    if negb (err =? 0) then mret 0 else
    berase_loop fuel p start blkcnt (blk + blk_r)
  end.

(** ** Operating conditions *)

Definition mmc_go_idle (p : nat) : M Z :=
  m_udelay 1000;;
  '(err, _) ← mmc_send_cmd p (new_cmd MMC_CMD_GO_IDLE_STATE MMC_RSP_NONE 0) None;
  try_ err (m_udelay 2000;; mret 0).

(** The loop of [sd_send_op_cond]: an error, or the last response. *)
Fixpoint op_cond_loop (p : nat) (uhs_en : bool) (timeout : nat) : M (Z + Z) :=
  '(err, _) ← mmc_send_cmd p (new_cmd MMC_CMD_APP_CMD MMC_RSP_R1 0) None;
  if negb (err =? 0) then mret (inl err) else
  d ← dev p;
  let arg := Z.land (cfg_voltages (cfg d)) 0xff8000 in
  let arg := if val d version =? SD_VERSION_2 then Z.lor arg OCR_HCS else arg in
  let arg := if uhs_en then Z.lor arg OCR_S18R else arg in
  '(err, cmd) ← mmc_send_cmd p (new_cmd SD_CMD_APP_SEND_OP_COND MMC_RSP_R3 arg) None;
  if negb (err =? 0) then mret (inl err) else
  if negb (Z.land (resp cmd 0) OCR_BUSY =? 0) then mret (inr (resp cmd 0)) else
  match timeout with
  | O => mret (inl (- EOPNOTSUPP))
  | S timeout => m_udelay 1000;; op_cond_loop p uhs_en timeout
  end.

Definition sd_send_op_cond (p : nat) (uhs_en : bool) : M Z :=
  r ← op_cond_loop p uhs_en 1000;
  match r with
  | inl err => mret err
  | inr r =>
    v ← get p version;
    (if negb (v =? SD_VERSION_2) then set p version SD_VERSION_1_0 else mret tt);;
    set p ocr r;;
    set p high_capacity (Z.b2z (Z.land r OCR_HCS =? OCR_HCS));;
    set p rca 0;;
    mret 0
  end.

Definition mmc_send_op_cond_iter (p : nat) (use_arg : bool) : M Z :=
  d ← dev p;
  let arg := if use_arg then
      Z.lor (Z.lor OCR_HCS (Z.land (cfg_voltages (cfg d)) (Z.land (val d ocr) OCR_VOLTAGE_MASK))) (Z.land (val d ocr) OCR_ACCESS_MODE)
    else 0 in
  '(err, cmd) ← mmc_send_cmd p (new_cmd MMC_CMD_SEND_OP_COND MMC_RSP_R3 arg) None;
  try_ err (set p ocr (resp cmd 0);; mret 0).

Definition mmc_send_op_cond (p : nat) : M Z :=
  mmc_go_idle p;;
  err ← mmc_send_op_cond_iter p false;
  try_ err (
  o ← get p ocr;
  err ← (if negb (Z.land o OCR_BUSY =? 0) then mret 0 else mmc_send_op_cond_iter p true);
  try_ err (set p op_cond_pending 1;; mret 0)).

Fixpoint complete_loop (fuel : nat) (p : nat) (start : Z) : M Z :=
  match fuel with
  | O => stuck
  | S fuel =>
    err ← mmc_send_op_cond_iter p true;
    try_ err (
    o ← get p ocr;
    if negb (Z.land o OCR_BUSY =? 0) then mret 0 else
    t ← m_get_timer start;
    if 1000 <? t then mret (- EOPNOTSUPP) else
    m_udelay 100;; complete_loop fuel p start)
  end.

(** [fuel] bounds the rounds until [get_timer] has advanced by more than a second. *)
Definition mmc_complete_op_cond (fuel : nat) (p : nat) : M Z :=
  set p op_cond_pending 0;;
  o ← get p ocr;
  err ← (if Z.land o OCR_BUSY =? 0 then
           mmc_go_idle p;; start ← m_get_timer 0; complete_loop fuel p start
         else mret 0);
  try_ err (
  set p version MMC_VERSION_UNKNOWN;;
  o ← get p ocr;
  set p high_capacity (Z.b2z (Z.land o OCR_HCS =? OCR_HCS));;
  set p rca 1;;
  mret 0).

Definition mmc_send_if_cond (p : nat) : M Z :=
  d ← dev p;
  let arg := Z.lor (Z.shiftl (Z.b2z (negb (Z.land (cfg_voltages (cfg d)) 0xff8000 =? 0))) 8) 0xaa in
  '(err, cmd) ← mmc_send_cmd p (new_cmd SD_CMD_SEND_IF_COND MMC_RSP_R7 arg) None;
  try_ err (
  if negb (Z.land (resp cmd 0) 0xff =? 0xaa) then mret (- EOPNOTSUPP) else set p version SD_VERSION_2;; mret 0).

(** ** The host's bus *)

Definition mmc_set_ios (p : nat) : M Z := match set_ios with Some f => f p | None => mret 0 end.

Definition mmc_set_clock (p : nat) (clk : Z) (disable : bool) : M Z :=
  d ← dev p;
  let clk := if disable then clk else
    let clk := if f_max (cfg d) <? clk then f_max (cfg d) else clk in
    if clk <? f_min (cfg d) then f_min (cfg d) else clk in
  set p clock clk;;
  set p clk_disable (Z.b2z disable);;
  mmc_set_ios p.

Definition mmc_set_bus_width (p : nat) (width : Z) : M Z := set p bus_width width;; mmc_set_ios p.

Definition width_of (cap : Z) : Z :=
  if cap =? MMC_MODE_8BIT then 8 else if cap =? MMC_MODE_4BIT then 4 else if cap =? MMC_MODE_1BIT then 1 else 0.

(** ** SD cards *)

(** [__be32_to_cpu] of word [i] of a buffer. *)
Definition be32 (a : Z) (i : Z) : M Z :=
  b0 ← m_ld (a + 4 * i); b1 ← m_ld (a + 4 * i + 1); b2 ← m_ld (a + 4 * i + 2); b3 ← m_ld (a + 4 * i + 3);
  mret (b3 + 2 ^ 8 * (b2 + 2 ^ 8 * (b1 + 2 ^ 8 * b0))).

Definition sd_switch (p : nat) (mode group value resp_buf : Z) : M Z :=
  let arg := u32 (Z.lor (Z.shiftl mode 31) 0xffffff) in
  let arg := Z.land arg (u32 (Z.lnot (Z.shiftl 0xf (group * 4)))) in
  let arg := Z.lor arg (Z.shiftl value (group * 4)) in
  '(err, _) ← mmc_send_cmd p (new_cmd SD_CMD_SWITCH_FUNC MMC_RSP_R1 arg) (Some (Data resp_buf MMC_DATA_READ 1 64));
  mret err.

(** [retry_scr: ... if (timeout--) goto retry_scr;], also of [sd_read_ssr]. *)
Fixpoint read_retry (p : nat) (timeout : nat) (cmd : mmc_cmd) (data : mmc_data) : M Z :=
  '(err, cmd) ← mmc_send_cmd p cmd (Some data);
  if err =? 0 then mret 0 else
  match timeout with O => mret err | S timeout => read_retry p timeout cmd data end.

(** [while (timeout--)] around [sd_switch]; the status of the last round stays in the buffer. *)
Fixpoint check_loop (p : nat) (timeout : nat) (status : Z) : M Z :=
  match timeout with
  | O => mret 0
  | S timeout =>
    err ← sd_switch p SD_SWITCH_CHECK 0 1 status;
    try_ err (
    s7 ← be32 status 7;
    if Z.land s7 SD_HIGHSPEED_BUSY =? 0 then mret 0 else check_loop p timeout status)
  end.

Definition scr_version (s : Z) : Z :=
  let v := Z.land (Z.shiftr s 24) 0xf in
  if v =? 0 then SD_VERSION_1_0 else if v =? 1 then SD_VERSION_1_10 else
  if v =? 2 then (if negb (Z.land (Z.shiftr s 15) 1 =? 0) then SD_VERSION_3 else SD_VERSION_2) else SD_VERSION_1_0.

Definition add_caps (p : nat) (c : Z) : M unit := v ← get p card_caps; set p card_caps (Z.lor v c).

Definition sd_get_capabilities (p : nat) : M Z :=
  let scr_buf := stack in let switch_status := stack + 64 in
  set p card_caps (Z.lor MMC_MODE_1BIT (MMC_CAP SD_LEGACY));;
  d ← dev p;
  '(err, _) ← mmc_send_cmd p (new_cmd MMC_CMD_APP_CMD MMC_RSP_R1 (rca_arg d)) None;
  try_ err (
  err ← read_retry p 3 (new_cmd SD_CMD_APP_SEND_SCR MMC_RSP_R1 0) (Data scr_buf MMC_DATA_READ 1 8);
  try_ err (
  s0 ← be32 scr_buf 0; s1 ← be32 scr_buf 1;
  update p (fun d => set_scr d [s0; s1]);;
  set p version (scr_version s0);;
  (if negb (Z.land s0 SD_DATA_4BIT =? 0) then add_caps p MMC_MODE_4BIT else mret tt);;
  if scr_version s0 =? SD_VERSION_1_0 then mret 0 else
  err ← check_loop p 4 switch_status;
  try_ err (
  s3 ← be32 switch_status 3;
  (if negb (Z.land s3 SD_HIGHSPEED_SUPPORTED =? 0) then add_caps p (MMC_CAP SD_HS) else mret tt);;
  mret 0))).

Definition sd_set_card_speed (p : nat) (mode : Z) : M Z :=
  let switch_status := stack in
  match (if mode =? SD_LEGACY then Some UHS_SDR12_BUS_SPEED else if mode =? SD_HS then Some HIGH_SPEED_BUS_SPEED else None) with
  | None => mret (- EINVAL)
  | Some speed =>
    err ← sd_switch p SD_SWITCH_SWITCH 0 speed switch_status;
    try_ err (
    s4 ← be32 switch_status 4;
    mret (if negb (Z.land (Z.shiftr s4 24) 0xF =? speed) then - ENOTSUPP else 0))
  end.

Definition sd_select_bus_width (p : nat) (w : Z) : M Z :=
  if negb (w =? 4) && negb (w =? 1) then mret (- EINVAL) else
  d ← dev p;
  '(err, _) ← mmc_send_cmd p (new_cmd MMC_CMD_APP_CMD MMC_RSP_R1 (rca_arg d)) None;
  try_ err (
  '(err, _) ← mmc_send_cmd p (new_cmd SD_CMD_APP_SET_BUS_WIDTH MMC_RSP_R1 (if w =? 4 then 2 else 0)) None;
  try_ err (mret 0)).

Definition sd_au_size : list Z :=
  [0; 16384 / 512; 32768 / 512; 65536 / 512; 131072 / 512; 262144 / 512; 524288 / 512; 1048576 / 512; 2097152 / 512;
   4194304 / 512; 8388608 / 512; (8388608 + 4194304) / 512; 16777216 / 512; (16777216 + 8388608) / 512; 33554432 / 512; 67108864 / 512].

Definition sd_read_ssr (p : nat) : M Z :=
  let ssr := stack in
  d ← dev p;
  '(err, _) ← mmc_send_cmd p (new_cmd MMC_CMD_APP_CMD MMC_RSP_R1 (rca_arg d)) None;
  try_ err (
  err ← read_retry p 3 (new_cmd SD_CMD_APP_SD_STATUS MMC_RSP_R1 0) (Data ssr MMC_DATA_READ 1 64);
  try_ err (
  s2 ← be32 ssr 2; s3 ← be32 ssr 3;
  let au := Z.land (Z.shiftr s2 12) 0xF in
  v ← get p version;
  if (au <=? 9) || (v =? SD_VERSION_3) then
    set p ssr_au (nth (Z.to_nat au) sd_au_size 0);;
    let es := Z.lor (Z.land (Z.shiftr s3 24) 0xFF) (Z.shiftl (Z.land s2 0xFF) 8) in
    let et := Z.land (Z.shiftr s3 18) 0x3F in
    (if negb (es =? 0) && negb (et =? 0) then
       set p ssr_erase_timeout ((et * 1000) / es);; set p ssr_erase_offset (Z.land (Z.shiftr s3 16) 0x3 * 1000)
     else mret tt);;
    mret 0
  else mret 0)).

(** The body of the two loops of [sd_select_mode_and_width], for a mode and a width that both sides have. *)
Definition sd_try_mode (p : nat) (mode w : Z) : M Z :=
  err ← sd_select_bus_width p (width_of w);
  try_ err (
  mmc_set_bus_width p (width_of w);;
  err ← sd_set_card_speed p mode;
  try_ err (
  mmc_select_mode p mode;;
  d ← dev p;
  mmc_set_clock p (val d tran_speed) false;;
  sd_read_ssr p)).

Fixpoint sd_try_all (p : nat) (l : list (Z * Z)) : M Z :=
  match l with
  | [] => mret (- ENOTSUPP)
  | (mode, w) :: l =>
    err ← sd_try_mode p mode w;
    if err =? 0 then mret 0 else
    mmc_select_mode p SD_LEGACY;;
    d ← dev p;
    mmc_set_clock p (val d tran_speed) false;;
    sd_try_all p l
  end.

(** [sd_modes_by_pref], and the widths of all of them. *)
Definition sd_modes_by_pref : list Z := [SD_HS; SD_LEGACY].
Definition sd_candidates (caps : Z) : list (Z * Z) :=
  mode ← filter (fun mode => negb (Z.land caps (MMC_CAP mode) =? 0)) sd_modes_by_pref;
  w ← filter (fun w => negb (Z.land (Z.land w caps) (Z.lor MMC_MODE_4BIT MMC_MODE_1BIT) =? 0)) [MMC_MODE_4BIT; MMC_MODE_1BIT];
  [(mode, w)].

Definition sd_select_mode_and_width (p : nat) (caps : Z) : M Z :=
  d ← dev p;
  let caps := Z.land (Z.land caps (val d host_caps)) (u32 (Z.lnot UHS_CAPS)) in
  sd_try_all p (sd_candidates caps).

(** ** MMC cards *)

Definition mmc_send_ext_csd (p : nat) (dest : Z) : M Z :=
  '(err, _) ← mmc_send_cmd p (new_cmd MMC_CMD_SEND_EXT_CSD MMC_RSP_R1 0) (Some (Data dest MMC_DATA_READ 1 MMC_MAX_BLOCK_LEN));
  mret err.

(** The 512 bytes of a local buffer. *)
Definition csd_bytes (a : Z) : M (list Z) := fun w => Some (bytes (ram w) a 512, w).
Definition at_ (l : list Z) (i : Z) : Z := nth (Z.to_nat i) l 0.

Definition mmc_set_card_speed (p : nat) (mode : Z) : M Z :=
  match (if (mode =? MMC_HS) || (mode =? MMC_HS_52) || (mode =? MMC_DDR_52) then Some EXT_CSD_TIMING_HS
         else if mode =? MMC_LEGACY then Some EXT_CSD_TIMING_LEGACY else None) with
  | None => mret (- EINVAL)
  | Some speed_bits =>
    err ← mmc_switch p EXT_CSD_CMD_SET_NORMAL EXT_CSD_HS_TIMING speed_bits;
    try_ err (
    if (mode =? MMC_HS) || (mode =? MMC_HS_52) then
      err ← mmc_send_ext_csd p stack;
      try_ err (test_csd ← csd_bytes stack; mret (if at_ test_csd EXT_CSD_HS_TIMING =? 0 then - ENOTSUPP else 0))
    else mret 0)
  end.

Definition mmc_get_capabilities (p : nat) : M Z :=
  set p card_caps (Z.lor MMC_MODE_1BIT (MMC_CAP MMC_LEGACY));;
  d ← dev p;
  if val d version <? MMC_VERSION_4 then mret 0 else
  match ext_csd d with
  | None => mret (- ENOTSUPP)
  | Some e =>
    add_caps p (Z.lor MMC_MODE_4BIT MMC_MODE_8BIT);;
    let ct := Z.land (at_ e EXT_CSD_CARD_TYPE) 0x3f in
    set p cardtype ct;;
    (if negb (Z.land ct EXT_CSD_CARD_TYPE_52 =? 0) then
       (if negb (Z.land ct EXT_CSD_CARD_TYPE_DDR_52 =? 0) then add_caps p MMC_MODE_DDR_52MHz else mret tt);;
       add_caps p MMC_MODE_HS_52MHz
     else mret tt);;
    (if negb (Z.land ct EXT_CSD_CARD_TYPE_26 =? 0) then add_caps p MMC_MODE_HS else mret tt);;
    mret 0
  end.

Definition mmc_read_and_compare_ext_csd (p : nat) : M Z :=
  d ← dev p;
  if val d version <? MMC_VERSION_4 then mret 0 else
  err ← mmc_send_ext_csd p stack;
  try_ err (
  t ← csd_bytes stack;
  e ← of_option (ext_csd d);
  mret (if forallb (fun i => at_ e i =? at_ t i)
             [EXT_CSD_PARTITIONING_SUPPORT; EXT_CSD_HC_WP_GRP_SIZE; EXT_CSD_REV; EXT_CSD_HC_ERASE_GRP_SIZE;
              EXT_CSD_SEC_CNT; EXT_CSD_SEC_CNT + 1; EXT_CSD_SEC_CNT + 2; EXT_CSD_SEC_CNT + 3]
        then 0 else - EBADMSG)).

(** [mmc_modes_by_pref] and [ext_csd_bus_width]. *)
Definition mmc_modes_by_pref : list (Z * Z) :=
  let all := Z.lor (Z.lor MMC_MODE_8BIT MMC_MODE_4BIT) MMC_MODE_1BIT in
  [(MMC_DDR_52, Z.lor MMC_MODE_8BIT MMC_MODE_4BIT); (MMC_HS_52, all); (MMC_HS, all); (MMC_LEGACY, all)].
Definition ext_csd_bus_width : list (Z * bool * Z) :=
  [(MMC_MODE_8BIT, true, EXT_CSD_DDR_BUS_WIDTH_8); (MMC_MODE_4BIT, true, EXT_CSD_DDR_BUS_WIDTH_4);
   (MMC_MODE_8BIT, false, EXT_CSD_BUS_WIDTH_8); (MMC_MODE_4BIT, false, EXT_CSD_BUS_WIDTH_4);
   (MMC_MODE_1BIT, false, EXT_CSD_BUS_WIDTH_1)].
Definition mmc_candidates (caps : Z) : list (Z * Z * Z) :=
  '(mode, widths) ← filter (fun mw => negb (Z.land caps (MMC_CAP mw.1) =? 0)) mmc_modes_by_pref;
  '(cap, _, bits) ← filter (fun e => Bool.eqb (mmc_is_mode_ddr mode) e.1.2 && negb (Z.land (Z.land caps widths) e.1.1 =? 0)) ext_csd_bus_width;
  [(mode, cap, bits)].

(** One round of the loops of [mmc_select_mode_and_width]. *)
Definition mmc_try_mode (p : nat) (mode cap bits : Z) : M Z :=
  err ← mmc_switch p EXT_CSD_CMD_SET_NORMAL EXT_CSD_BUS_WIDTH (Z.land bits (Z.lnot EXT_CSD_DDR_FLAG));
  try_ err (
  mmc_set_bus_width p (width_of cap);;
  err ← mmc_set_card_speed p mode;
  try_ err (
  err ← (if negb (Z.land bits EXT_CSD_DDR_FLAG =? 0) then mmc_switch p EXT_CSD_CMD_SET_NORMAL EXT_CSD_BUS_WIDTH bits else mret 0);
  try_ err (
  mmc_select_mode p mode;;
  d ← dev p;
  mmc_set_clock p (val d tran_speed) false;;
  mmc_read_and_compare_ext_csd p))).

Fixpoint mmc_try_all (p : nat) (l : list (Z * Z * Z)) : M Z :=
  match l with
  | [] => mret (- ENOTSUPP)
  | (mode, cap, bits) :: l =>
    err ← mmc_try_mode p mode cap bits;
    if err =? 0 then mret 0 else
    mmc_switch p EXT_CSD_CMD_SET_NORMAL EXT_CSD_BUS_WIDTH EXT_CSD_BUS_WIDTH_1;;
    mmc_select_mode p MMC_LEGACY;;
    mmc_set_bus_width p 1;;
    mmc_try_all p l
  end.

Definition mmc_select_mode_and_width (p : nat) (caps : Z) : M Z :=
  d ← dev p;
  if val d version <? MMC_VERSION_4 then mret 0 else
  match ext_csd d with
  | None => mret (- ENOTSUPP)
  | Some _ =>
    mmc_set_clock p (val d legacy_speed) false;;
    mmc_try_all p (mmc_candidates (Z.land caps (val d host_caps)))
  end.

(** ** Start-up *)

Definition mmc_versions : list Z :=
  [MMC_VERSION_4; MMC_VERSION_4_1; MMC_VERSION_4_2; MMC_VERSION_4_3; MMC_VERSION_4_4; MMC_VERSION_4_41; MMC_VERSION_4_5;
   MMC_VERSION_5_0; MMC_VERSION_5_1].

(** Bytes put together in an [int] and stored in a [u64]. *)
Definition int_bytes (l : list Z) : Z := u64 (sgn 32 (fold_right (fun b a => b + 2 ^ 8 * a) 0 l)).
Definition sec_count (e : list Z) : Z :=
  int_bytes [at_ e EXT_CSD_SEC_CNT; at_ e (EXT_CSD_SEC_CNT + 1); at_ e (EXT_CSD_SEC_CNT + 2); at_ e (EXT_CSD_SEC_CNT + 3)].
Definition gp_mult (e : list Z) (i : Z) : Z :=
  let idx := EXT_CSD_GP_SIZE_MULT + i * 3 in int_bytes [at_ e idx; at_ e (idx + 1); at_ e (idx + 2)].

(** [error:] of [mmc_startup_v4] *)
Definition v4_error (p : nat) (err : Z) : M Z := update p (fun d => set_ext_csd d None);; mret err.

Definition mmc_startup_v4 (p : nat) : M Z :=
  d ← dev p;
  if IS_SD d || (val d version <? MMC_VERSION_4) then mret 0 else
  err ← mmc_send_ext_csd p stack;
  if negb (err =? 0) then v4_error p err else
  e ← csd_bytes stack;
  if (match ext_csd d with Some _ => false | None => negb (malloc MMC_MAX_BLOCK_LEN) end) then mret (- ENOMEM) else
  update p (fun d => set_ext_csd d (Some e));;
  match mmc_versions !! Z.to_nat (at_ e EXT_CSD_REV) with
  | None => mret (- EINVAL)
  | Some v =>
    set p version v;;
    (if MMC_VERSION_4_2 <=? v then
       let c := u64 (sec_count e * MMC_MAX_BLOCK_LEN) in
       if 2 * 1024 <? Z.shiftr c 20 then set p capacity_user c else mret tt
     else mret tt);;
    let part_completed := negb (Z.land (at_ e EXT_CSD_PARTITION_SETTING) EXT_CSD_PARTITION_SETTING_COMPLETED =? 0) in
    let support := at_ e EXT_CSD_PARTITIONING_SUPPORT in
    set p part_support support;;
    (if negb (Z.land support PART_SUPPORT =? 0) || negb (at_ e EXT_CSD_BOOT_MULT =? 0)
     then set p part_config (at_ e EXT_CSD_PART_CONF) else mret tt);;
    (if part_completed && negb (Z.land support ENHNCD_SUPPORT =? 0)
     then set p part_attr (at_ e EXT_CSD_PARTITIONS_ATTRIBUTE) else mret tt);;
    set p capacity_boot (Z.shiftl (at_ e EXT_CSD_BOOT_MULT) 17);;
    set p capacity_rpmb (Z.shiftl (at_ e EXT_CSD_RPMB_MULT) 17);;
    let group := at_ e EXT_CSD_HC_ERASE_GRP_SIZE in let wp_group := at_ e EXT_CSD_HC_WP_GRP_SIZE in
    (if part_completed then
       update p (fun d => set_gp d (map (fun i => u64 (Z.shiftl (gp_mult e i * group * wp_group) 19)) [0; 1; 2; 3]));;
       d ← dev p;
       set p enh_user_size (u64 (Z.shiftl (int_bytes [at_ e EXT_CSD_ENH_SIZE_MULT; at_ e (EXT_CSD_ENH_SIZE_MULT + 1);
                                                      at_ e (EXT_CSD_ENH_SIZE_MULT + 2)] * group * wp_group) 19));;
       let start := int_bytes [at_ e EXT_CSD_ENH_START_ADDR; at_ e (EXT_CSD_ENH_START_ADDR + 1);
                               at_ e (EXT_CSD_ENH_START_ADDR + 2); at_ e (EXT_CSD_ENH_START_ADDR + 3)] in
       set p enh_user_start (if negb (val d high_capacity =? 0) then u64 (Z.shiftl start 9) else start)
     else mret tt);;
    let has_parts := existsb (fun i => negb (gp_mult e i =? 0)) [0; 1; 2; 3] || part_completed ||
      (negb (Z.land support PART_SUPPORT =? 0) && negb (Z.land (at_ e EXT_CSD_PARTITIONS_ATTRIBUTE) PART_ENH_ATTRIB =? 0)) in
    err ← (if has_parts then mmc_switch p EXT_CSD_CMD_SET_NORMAL EXT_CSD_ERASE_GROUP_DEF 1 else mret 0);
    if negb (err =? 0) then v4_error p err else
    d ← dev p;
    (if has_parts || negb (Z.land (at_ e EXT_CSD_ERASE_GROUP_DEF) 1 =? 0) then
       set p erase_grp_size (group * 1024);;
       if negb (val d high_capacity =? 0) && part_completed then set p capacity_user (u64 (sec_count e * MMC_MAX_BLOCK_LEN)) else mret tt
     else
       let c2 := nth 2 (csd d) 0 in
       set p erase_grp_size ((Z.shiftr (Z.land c2 0x00007c00) 10 + 1) * (Z.shiftr (Z.land c2 0x000003e0) 5 + 1)));;
    set p hc_wp_grp_size (1024 * group * wp_group);;
    set p wr_rel_set (at_ e EXT_CSD_WR_REL_SET);;
    mret 0
  end.

Definition fbase : list Z := [10000; 100000; 1000000; 10000000].
Definition multipliers : list Z := [0; 10; 12; 13; 15; 20; 25; 30; 35; 40; 45; 50; 55; 60; 70; 80].

(** The version in the card-specific data of an MMC card. *)
Definition csd_version (r0 : Z) : Z :=
  nth (Z.to_nat (Z.land (Z.shiftr r0 26) 0xf)) [MMC_VERSION_1_2; MMC_VERSION_1_4; MMC_VERSION_2_2; MMC_VERSION_3; MMC_VERSION_4] MMC_VERSION_1_2.

(** The capacity in the card-specific data, before [read_bl_len] is cut to 512. *)
Definition csd_capacity (hc : bool) (c : list Z) (len : Z) : Z :=
  let c1 := nth 1 c 0 in let c2 := nth 2 c 0 in
  let '(csize, cmult) :=
    if hc then (Z.lor (Z.shiftl (Z.land c1 0x3f) 16) (Z.shiftr (Z.land c2 0xffff0000) 16), 8)
    else (Z.lor (Z.shiftl (Z.land c1 0x3ff) 2) (Z.shiftr (Z.land c2 0xc0000000) 30), Z.shiftr (Z.land c2 0x00038000) 15) in
  u64 (Z.shiftl (csize + 1) (cmult + 2) * len).

(** What [mmc_startup] takes from the card-specific data [r]; an index of [fbase] outside the table is [None]. *)
Definition read_csd (p : nat) (r : list Z) : M unit :=
  update p (fun d => set_csd d r);;
  d ← dev p;
  (if val d version =? MMC_VERSION_UNKNOWN then set p version (csd_version (nth 0 r 0)) else mret tt);;
  freq ← of_option (fbase !! Z.to_nat (Z.land (nth 0 r 0) 0x7));
  let mult := nth (Z.to_nat (Z.land (Z.shiftr (nth 0 r 0) 3) 0xf)) multipliers 0 in
  set p legacy_speed (freq * mult);;
  mmc_select_mode p MMC_LEGACY;;
  set p dsr_imp (Z.land (Z.shiftr (nth 1 r 0) 12) 1);;
  let len := Z.shiftl 1 (Z.land (Z.shiftr (nth 1 r 0) 16) 0xf) in
  let wlen := if IS_SD d then len else Z.shiftl 1 (Z.land (Z.shiftr (nth 3 r 0) 22) 0xf) in
  set p capacity_user (csd_capacity (negb (val d high_capacity =? 0)) r len);;
  set p capacity_boot 0;;
  set p capacity_rpmb 0;;
  update p (fun d => set_gp d [0; 0; 0; 0]);;
  set p read_bl_len (if MMC_MAX_BLOCK_LEN <? len then MMC_MAX_BLOCK_LEN else len);;
  set p write_bl_len (if MMC_MAX_BLOCK_LEN <? wlen then MMC_MAX_BLOCK_LEN else wlen).

(** The device description at the end of [mmc_startup]. *)
Definition describe (p : nat) : M unit :=
  set p bd_lun 0;; set p bd_hwpart 0;; set p bd_type 0;;
  d ← dev p;
  set p bd_blksz (val d read_bl_len);;
  set p bd_log2blksz (Part.LOG2 (val d read_bl_len));;
  set p bd_lba (u32 (val d capacity / val d read_bl_len));;
  let c i := nth i (cid d) 0 in
  let dec v := Strto.print_base 10 v in
  update p (fun d => set_descr d
    (Carray.lit "Man " ++ Part.pad_hex 6 (Z.shiftr (c 0%nat) 24) ++ Carray.lit " Snr " ++
     Part.pad_hex 4 (Z.land (c 2%nat) 0xffff) ++ Part.pad_hex 4 (Z.land (Z.shiftr (c 3%nat) 16) 0xffff))
    [Z.land (c 0%nat) 0xff; Z.shiftr (c 1%nat) 24; Z.land (Z.shiftr (c 1%nat) 16) 0xff; Z.land (Z.shiftr (c 1%nat) 8) 0xff;
     Z.land (c 1%nat) 0xff; Z.land (Z.shiftr (c 2%nat) 24) 0xff]
    (dec (Z.land (Z.shiftr (c 2%nat) 20) 0xf) ++ Carray.lit "." ++ dec (Z.land (Z.shiftr (c 2%nat) 16) 0xf))).

(** [mmc_startup] up to the selection of the card: its identification, address and card-specific data. *)
Definition identify_card (p : nat) : M Z :=
  '(err, cmd) ← mmc_send_cmd p (new_cmd MMC_CMD_ALL_SEND_CID MMC_RSP_R2 0) None;
  q ← get p quirks;
  '(err, cmd) ← (if negb (err =? 0) && negb (Z.land q MMC_QUIRK_RETRY_SEND_CID =? 0) then resend p 4 cmd else mret (err, cmd));
  try_ err (
  update p (fun d => set_cid d (response cmd));;
  d ← dev p;
  '(err, cmd) ← mmc_send_cmd p (new_cmd SD_CMD_SEND_RELATIVE_ADDR MMC_RSP_R6 (rca_arg d)) None;
  try_ err (
  d ← dev p;
  (if IS_SD d then set p rca (Z.land (Z.shiftr (resp cmd 0) 16) 0xffff) else mret tt);;
  d ← dev p;
  '(err, cmd) ← mmc_send_cmd p (new_cmd MMC_CMD_SEND_CSD MMC_RSP_R2 (rca_arg d)) None;
  try_ err (
  read_csd p (response cmd);;
  d ← dev p;
  (if negb (val d dsr_imp =? 0) && negb (0xffffffff =? val d dsr) then
     mmc_send_cmd p (new_cmd MMC_CMD_SET_DSR MMC_RSP_NONE (u32 (Z.shiftl (Z.land (val d dsr) 0xffff) 16))) None;; mret tt
   else mret tt);;
  d ← dev p;
  '(err, _) ← mmc_send_cmd p (new_cmd MMC_CMD_SELECT_CARD MMC_RSP_R1 (rca_arg d)) None;
  mret err))).

Definition mmc_startup (p : nat) : M Z :=
  err ← identify_card p;
  try_ err (
  set p erase_grp_size 1;;
  set p part_config MMCPART_NOAVAILABLE;;
  err ← mmc_startup_v4 p;
  try_ err (
  hwpart ← get p bd_hwpart;
  err ← mmc_set_capacity p hwpart;
  try_ err (
  d ← dev p;
  err ← (if IS_SD d then
           err ← sd_get_capabilities p;
           try_ err (caps ← get p card_caps; sd_select_mode_and_width p caps)
         else
           err ← mmc_get_capabilities p;
           try_ err (caps ← get p card_caps; mmc_select_mode_and_width p caps;; mret 0));
  try_ err (
  d ← dev p;
  set p best_mode (val d selected_mode);;
  (if negb (val d ddr_mode =? 0) then set p read_bl_len MMC_MAX_BLOCK_LEN;; set p write_bl_len MMC_MAX_BLOCK_LEN else mret tt);;
  describe p;;
  part_init p;;
  mret 0)))).

(** ** Identification *)

Definition mmc_getcd (p : nat) : M Z := match getcd with Some f => f p | None => mret 1 end.

(** [mmc_getwp] of a board without [board_mmc_getwp] *)
Definition mmc_getwp (p : nat) : M Z := match getwp with Some f => f p | None => mret 0 end.

Definition mmc_set_initial_state (p : nat) : M unit :=
  mmc_select_mode p MMC_LEGACY;; mmc_set_bus_width p 1;; mmc_set_clock p 0 false;; mret tt.

Definition mmc_power_cycle (p : nat) : M Z := mmc_set_clock p 0 true;; m_udelay 2000;; mret 0.

Definition mmc_get_op_cond (p : nat) : M Z :=
  d ← dev p;
  if negb (val d has_init =? 0) then mret 0 else
  set p quirks (Z.lor MMC_QUIRK_RETRY_SET_BLOCKLEN MMC_QUIRK_RETRY_SEND_CID);;
  mmc_power_cycle p;;
  init ← of_option host_init;
  err ← init p;
  try_ err (
  set p ddr_mode 0;;
  mmc_set_initial_state p;;
  err ← mmc_go_idle p;
  try_ err (
  set p bd_hwpart 0;;
  mmc_send_if_cond p;;
  err ← sd_send_op_cond p false;
  if err =? - ETIMEDOUT then
    err ← mmc_send_op_cond p;
    mret (if negb (err =? 0) then - EOPNOTSUPP else err)
  else mret err)).

Definition mmc_start_init (p : nat) : M Z :=
  d ← dev p;
  set p host_caps (Z.lor (Z.lor (Z.lor (cfg_host_caps (cfg d)) (MMC_CAP SD_LEGACY)) (MMC_CAP MMC_LEGACY)) MMC_MODE_1BIT);;
  cd ← mmc_getcd p;
  if (cd =? 0) || (match host_init with None => true | Some _ => false end) then set p has_init 0;; mret (- ENOMEDIUM) else
  err ← mmc_get_op_cond p;
  (if err =? 0 then set p init_in_progress 1 else mret tt);;
  mret err.

Definition mmc_complete_init (fuel : nat) (p : nat) : M Z :=
  set p init_in_progress 0;;
  pending ← get p op_cond_pending;
  err ← (if negb (pending =? 0) then mmc_complete_op_cond fuel p else mret 0);
  err ← (if err =? 0 then mmc_startup p else mret err);
  set p has_init (if negb (err =? 0) then 0 else 1);;
  mret err.

Definition mmc_init (fuel : nat) (p : nat) : M Z :=
  d ← dev p;
  if negb (val d has_init =? 0) then mret 0 else
  m_get_timer 0;;
  err ← (if val d init_in_progress =? 0 then mmc_start_init p else mret 0);
  if err =? 0 then mmc_complete_init fuel p else mret err.

(** The argument is a [u16]. *)
Definition mmc_set_dsr (p : nat) (v : Z) : M Z := set p dsr (u16 v);; mret 0.

(** ** The registered devices *)

Definition fresh (c : mmc_config) : mmc := Mmc (fun _ => 0) [0; 0; 0; 0] [0; 0; 0; 0] [0; 0] [0; 0; 0; 0] None c [] [] [].

(** [mmc_create]: the pointer, or null.  The host's operations are there; [alloc] tells whether [calloc] succeeds. *)
Definition mmc_create (alloc : bool) (c : mmc_config) : M (option nat) :=
  if (f_min c =? 0) || (f_max c =? 0) || (b_max c =? 0) then mret None else
  if negb alloc then mret None else
  fun w =>
    let d := fresh c in
    let d := set_val (set_val d dsr_imp 0) dsr 0xffffffff in
    let d := set_val (set_val (set_val d bd_if_type IF_TYPE_MMC) bd_removable 1) bd_devnum (cur_dev_num w) in
    let d := set_val d bd_part_type (cfg_part_type c) in
    Some (Some (length (devices w)), World (devices w ++ [d]) (cur_dev_num w + 1) (io w) (ram w)).

Definition mmc_get_dev (fuel : nat) (num : Z) : M (Z + nat) :=
  m ← find_mmc_device num;
  match m with
  | None => mret (inl (- ENODEV))
  | Some p => ret ← mmc_init fuel p; mret (if negb (ret =? 0) then inl ret else inr p)
  end.

(** [blk_select_hwpart_devnum] (drivers/block/blk_legacy.c) for this driver. *)
Definition blk_select_hwpart_devnum (fuel : nat) (num hwpart : Z) : M Z :=
  r ← mmc_get_dev fuel num;
  match r with inl err => mret err | inr desc => mmc_select_hwpartp desc hwpart end.

Definition mmc_bwrite (fuel : nat) (block_dev : nat) (start blkcnt src : Z) : M Z :=
  b ← dev block_dev;
  m ← find_mmc_device (val b bd_devnum);
  match m with
  | None => mret 0
  | Some p =>
    err ← blk_select_hwpart_devnum fuel (val b bd_devnum) (val b bd_hwpart);
    if err <? 0 then mret 0 else
    len ← get p write_bl_len;
    err ← mmc_set_blocklen p len;
    if negb (err =? 0) then mret 0 else
    bwrite_loop (S (Z.to_nat blkcnt)) p start blkcnt src blkcnt
  end.

(** The value is an unsigned long: -1 is [2 ^ 32 - 1]. *)
Definition mmc_berase (fuel : nat) (block_dev : nat) (start blkcnt : Z) : M Z :=
  b ← dev block_dev;
  m ← find_mmc_device (val b bd_devnum);
  match m with
  | None => mret (u32 (-1))
  | Some p =>
    err ← blk_select_hwpart_devnum fuel (val b bd_devnum) (val b bd_hwpart);
    if err <? 0 then mret (u32 (-1)) else berase_loop (Z.to_nat blkcnt) p start blkcnt 0
  end.

Fixpoint preinit_loop (ps : list nat) : M unit :=
  match ps with
  | [] => mret tt
  | p :: ps => v ← get p preinit; (if negb (v =? 0) then mmc_start_init p;; mret tt else mret tt);; preinit_loop ps
  end.
Definition mmc_do_preinit : M unit := fun w => preinit_loop (seq 0 (length (devices w))) w.

Definition mmc_list_init : M unit := fun w => Some (tt, World [] 0 (io w) (ram w)).

(** [mmc_initialize], with its static flag, for a board without [board_mmc_init]. *)
Definition mmc_initialize (cpu_mmc_init : M Z) (initialized : bool) : M (Z * bool) :=
  if initialized then mret (0, true) else
  mmc_list_init;; cpu_mmc_init;; mmc_do_preinit;; mret (0, true).

End Core.
End Mmc.
