(* ===== verification/Pl180.v ===== *)
(** * Pl180: the driver of the card controller

    U-Boot's drivers/mmc/arm_pl180_mmci.c and .h without the driver model, and [cpu_mmc_init] of
    board/armltd/vexpress/vexpress_common.c.  The loops that poll the status register take a number of rounds,
    [patience].  [host] is the [struct pl180_mmc_host] that [priv] of the device points to. *)

From stdpp Require Import base list option strings.
From Stdlib Require Import ZifyBool.
From S2P Require Import Prelude Cmem Carray MmcTypes Mmc.
Import MmcTypes.

Module Pl180.

Definition COMMAND_REG_DELAY : Z := 300.
Definition DATA_REG_DELAY : Z := 1000.
Definition CLK_CHANGE_DELAY : Z := 2000.
Definition INIT_PWR : Z := 0xBF.
Definition ARM_MCLK : Z := 100 * 1000 * 1000.
Definition SDI_PWR_OPD : Z := 0x40.
Definition VOLTAGE_WINDOW_MMC : Z := 0x00FF8080.
Definition SDI_CLKCR_CLKDIV_MASK : Z := 0xFF.
Definition SDI_CLKCR_CLKEN : Z := 0x100.
Definition SDI_CLKCR_WIDBUS_MASK : Z := 0x1800.
Definition SDI_CLKCR_WIDBUS_1 : Z := 0.
Definition SDI_CLKCR_WIDBUS_4 : Z := 0x800.
Definition SDI_CLKCR_WIDBUS_8 : Z := 0x1000.
Definition SDI_CLKCR_CLKDIV_INIT_V1 : Z := 0xC6.
Definition SDI_CMD_CMDINDEX_MASK : Z := 0xFF.
Definition SDI_CMD_WAITRESP : Z := 0x40.
Definition SDI_CMD_LONGRESP : Z := 0x80.
Definition SDI_CMD_CPSMEN : Z := 0x400.
Definition SDI_DTIMER_DEFAULT : Z := 0xFFFF0000.
Definition SDI_STA_CCRCFAIL : Z := 0x1.
Definition SDI_STA_DCRCFAIL : Z := 0x2.
Definition SDI_STA_CTIMEOUT : Z := 0x4.
Definition SDI_STA_DTIMEOUT : Z := 0x8.
Definition SDI_STA_RXOVERR : Z := 0x20.
Definition SDI_STA_CMDREND : Z := 0x40.
Definition SDI_STA_CMDSENT : Z := 0x80.
Definition SDI_STA_DBCKEND : Z := 0x400.
Definition SDI_STA_TXFIFOBW : Z := 0x4000.
Definition SDI_STA_RXDAVL : Z := 0x200000.
Definition SDI_ICR_MASK : Z := 0x1DC007FF.
Definition SDI_MASK0_MASK : Z := 0x1FFFFFFF.
Definition SDI_DCTRL_DTEN : Z := 0x1.
Definition SDI_DCTRL_DTDIR_IN : Z := 0x2.
Definition SDI_DCTRL_DBLKSIZE_MASK : Z := 0xF0.
Definition SDI_DCTRL_BUSYMODE : Z := 0x4000.
Definition SDI_DCTRL_DBLOCKSIZE_V2_SHIFT : Z := 16.
Definition SDI_FIFO_BURST_SIZE : nat := 8.
Definition CONFIG_SYS_MMC_MAX_BLK_COUNT : Z := 127.
Definition CONFIG_ARM_PL180_MMCI_BASE : Z := 0x10000000 + Z.shiftl 5 12.
Definition CONFIG_ARM_PL180_MMCI_CLOCK_FREQ : Z := 6250000.

(** [struct sdi_registers]: offsets from the base. *)
Definition r_power : Z := 0x00.
Definition r_clock : Z := 0x04.
Definition r_argument : Z := 0x08.
Definition r_command : Z := 0x0c.
Definition r_response (i : Z) : Z := 0x14 + 4 * i.
Definition r_datatimer : Z := 0x24.
Definition r_datalength : Z := 0x28.
Definition r_datactrl : Z := 0x2c.
Definition r_status : Z := 0x34.
Definition r_status_clear : Z := 0x38.
Definition r_mask0 : Z := 0x3c.
Definition r_fifo : Z := 0x80.

Record pl180_mmc_host := Host {
  base : Z; h_b_max : Z; voltages : Z; caps : Z; clock_in : Z; clock_min : Z; clock_max : Z; clkdiv_init : Z; pwr_init : Z;
  version2 : bool; h_name : list Z
}.

(** [ffs]: the number of the lowest set bit from 1 on, 0 for none. *)
Definition ffs (x : Z) : Z := if x =? 0 then 0 else Z.log2 (Z.land x (- x)) + 1.

Section Driver.
Context {PF : Platform} (host : pl180_mmc_host) (patience : nat).

Definition rd (r : Z) : M Z := m_readl (base host + r).
Definition wt (v r : Z) : M unit := m_writel v (base host + r).
Definition has (status flag : Z) : bool := negb (Z.land status flag =? 0).

(** [do hoststatus = readl(&host->base->status) & statusmask; while (!hoststatus);] *)
Fixpoint poll_status (fuel : nat) (mask : Z) : M Z :=
  match fuel with
  | O => stuck
  | S fuel => s ← rd r_status; if has s mask then mret (Z.land s mask) else poll_status fuel mask
  end.

Definition wait_for_command_end (cmd : mmc_cmd) : M (Z * mmc_cmd) :=
  let statusmask := Z.lor (Z.lor SDI_STA_CTIMEOUT SDI_STA_CCRCFAIL)
                          (if has (resp_type cmd) MMC_RSP_PRESENT then SDI_STA_CMDREND else SDI_STA_CMDSENT) in
  hoststatus ← poll_status patience statusmask;
  wt statusmask r_status_clear;;
  if has hoststatus SDI_STA_CTIMEOUT then mret (- ETIMEDOUT, cmd) else
  if has hoststatus SDI_STA_CCRCFAIL && has (resp_type cmd) MMC_RSP_CRC then mret (- EILSEQ, cmd) else
  if has (resp_type cmd) MMC_RSP_PRESENT then
    r0 ← rd (r_response 0); r1 ← rd (r_response 1); r2 ← rd (r_response 2); r3 ← rd (r_response 3);
    mret (0, with_response cmd [r0; r1; r2; r3])
  else mret (0, cmd).

Definition command_word (cmd : mmc_cmd) : Z :=
  let w := Z.lor (Z.land (cmdidx cmd) SDI_CMD_CMDINDEX_MASK) SDI_CMD_CPSMEN in
  if negb (resp_type cmd =? 0) then
    let w := Z.lor w SDI_CMD_WAITRESP in if has (resp_type cmd) MMC_RSP_136 then Z.lor w SDI_CMD_LONGRESP else w
  else w.

Definition do_command (p : nat) (cmd : mmc_cmd) : M (Z * mmc_cmd) :=
  wt (cmdarg cmd) r_argument;;
  m_udelay COMMAND_REG_DELAY;;
  wt (command_word cmd) r_command;;
  '(result, cmd) ← wait_for_command_end cmd;
  (if (result =? 0) && (cmdidx cmd =? MMC_CMD_ALL_SEND_CID) then set p rca 10 else mret tt);;
  (if (result =? 0) && (cmdidx cmd =? MMC_CMD_SET_RELATIVE_ADDR) then
     pwr ← rd r_power; wt (Z.land pwr (u32 (Z.lnot SDI_PWR_OPD))) r_power
   else mret tt);;
  mret (result, cmd).

Definition RD_ERR : Z := Z.lor (Z.lor SDI_STA_DCRCFAIL SDI_STA_DTIMEOUT) SDI_STA_RXOVERR.
Definition WR_ERR : Z := Z.lor SDI_STA_DCRCFAIL SDI_STA_DTIMEOUT.

(** The first loop of [read_bytes]: the last status and what is left of [xfercount]. *)
Fixpoint read_loop (fuel : nat) (status tempbuff xfercount : Z) : M (Z * Z) :=
  if has status RD_ERR || (xfercount <? 4) then mret (status, xfercount) else
  match fuel with
  | O => stuck
  | S fuel =>
    if has status SDI_STA_RXDAVL then
      v ← rd r_fifo;
      m_st32 tempbuff v;;
      status ← rd r_status; read_loop fuel status (u32 (tempbuff + 4)) (xfercount - 4)
    else status ← rd r_status; read_loop fuel status tempbuff xfercount
  end.

(** The second loop: wait for the end of the block or an error. *)
Fixpoint end_loop (fuel : nat) (mask status : Z) : M Z :=
  if has status mask then mret status else
  match fuel with O => stuck | S fuel => status ← rd r_status; end_loop fuel mask status end.

Definition read_bytes (dest blkcount blksize : Z) : M Z :=
  let xfercount := u32 (blkcount * blksize) in
  status ← rd r_status;
  '(status, xfercount) ← read_loop patience status dest xfercount;
  status ← end_loop patience (Z.lor RD_ERR SDI_STA_DBCKEND) status;
  if has status SDI_STA_DTIMEOUT then mret (- ETIMEDOUT) else
  if has status SDI_STA_DCRCFAIL then mret (- EILSEQ) else
  if has status SDI_STA_RXOVERR then mret (- EIO) else
  wt SDI_ICR_MASK r_status_clear;;
  mret (if negb (xfercount =? 0) then - ENOBUFS else 0).

(** [k] words from memory to the FIFO. *)
Fixpoint push_words (k : nat) (src : Z) : M unit :=
  match k with O => mret tt | S k => v ← m_ld32 src; wt v r_fifo;; push_words k (u32 (src + 4)) end.

Fixpoint write_loop (fuel : nat) (status tempbuff xfercount : Z) : M (Z * Z) :=
  if has status WR_ERR || (xfercount =? 0) then mret (status, xfercount) else
  match fuel with
  | O => stuck
  | S fuel =>
    let n := if has status SDI_STA_TXFIFOBW then
               if Z.of_nat SDI_FIFO_BURST_SIZE * 4 <=? xfercount then SDI_FIFO_BURST_SIZE else Z.to_nat (xfercount / 4)
             else O in
    push_words n tempbuff;;
    status ← rd r_status;
    write_loop fuel status (u32 (tempbuff + 4 * Z.of_nat n)) (xfercount - 4 * Z.of_nat n)
  end.

Definition write_bytes (src blkcount blksize : Z) : M Z :=
  let xfercount := u32 (blkcount * blksize) in
  status ← rd r_status;
  '(status, xfercount) ← write_loop patience status src xfercount;
  status ← end_loop patience (Z.lor WR_ERR SDI_STA_DBCKEND) status;
  if has status SDI_STA_DTIMEOUT then mret (- ETIMEDOUT) else
  if has status SDI_STA_DCRCFAIL then mret (- EILSEQ) else
  wt SDI_ICR_MASK r_status_clear;;
  mret (if negb (xfercount =? 0) then - ENOBUFS else 0).

Definition data_control (data : mmc_data) : Z :=
  let c := if negb (version2 host) then Z.land (u32 (Z.shiftl (ffs (blocksize data) - 1) 4)) SDI_DCTRL_DBLKSIZE_MASK
           else u32 (Z.shiftl (blocksize data) SDI_DCTRL_DBLOCKSIZE_V2_SHIFT) in
  Z.lor c (Z.lor SDI_DCTRL_DTEN SDI_DCTRL_BUSYMODE).

Definition do_data_transfer (p : nat) (cmd : mmc_cmd) (data : mmc_data) : M (Z * mmc_cmd) :=
  let data_ctrl := data_control data in
  wt SDI_DTIMER_DEFAULT r_datatimer;;
  wt (u32 (blocks data * blocksize data)) r_datalength;;
  m_udelay DATA_REG_DELAY;;
  if has (flags data) MMC_DATA_READ then
    wt (Z.lor data_ctrl SDI_DCTRL_DTDIR_IN) r_datactrl;;
    '(error, cmd) ← do_command p cmd;
    if negb (error =? 0) then mret (error, cmd) else
    error ← read_bytes (buf data) (blocks data) (blocksize data); mret (error, cmd)
  else if has (flags data) MMC_DATA_WRITE then
    '(error, cmd) ← do_command p cmd;
    if negb (error =? 0) then mret (error, cmd) else
    wt data_ctrl r_datactrl;;
    error ← write_bytes (buf data) (blocks data) (blocksize data); mret (error, cmd)
  else mret (- ETIMEDOUT, cmd).

Definition host_request (p : nat) (cmd : mmc_cmd) (data : option mmc_data) : M (Z * mmc_cmd) :=
  match data with Some data => do_data_transfer p cmd data | None => do_command p cmd end.

(** Division of unsigned integers. *)
Definition div32 (a b : Z) : M Z := if b =? 0 then stuck else mret (a / b).

Fixpoint clkdiv_loop (fuel : nat) (clkdiv tmp_clock clk : Z) : M (Z * Z) :=
  if negb (clk <? tmp_clock) then mret (clkdiv, tmp_clock) else
  match fuel with
  | O => stuck
  | S fuel => let clkdiv := u32 (clkdiv + 1) in t ← div32 (clock_in host) (u32 (clkdiv + 2)); clkdiv_loop fuel clkdiv t clk
  end.

(** The divider for the clock [dev->clock]. *)
Definition clock_divider (p : nat) : M Z :=
  d ← dev p;
  clkdiv ← (if f_max (cfg d) <=? val d clock then set p clock (f_max (cfg d));; mret 0
            else q ← div32 (clock_in host) (val d clock); mret (u32 (q - 2)));
  clk ← get p clock;
  t ← div32 (clock_in host) (u32 (clkdiv + 2));
  '(clkdiv, _) ← clkdiv_loop patience clkdiv t clk;
  let clkdiv := if SDI_CLKCR_CLKDIV_MASK <? clkdiv then SDI_CLKCR_CLKDIV_MASK else clkdiv in
  t ← div32 (clock_in host) (u32 (clkdiv + 2));
  set p clock t;;
  mret clkdiv.

Definition bus_width_bits (w : Z) : Z :=
  if w =? 1 then SDI_CLKCR_WIDBUS_1 else if w =? 4 then SDI_CLKCR_WIDBUS_4 else if w =? 8 then SDI_CLKCR_WIDBUS_8 else 0.

Definition host_set_ios (p : nat) : M Z :=
  sdi_clkcr ← rd r_clock;
  d ← dev p;
  sdi_clkcr ← (if negb (val d clock =? 0) then
                 clkdiv ← clock_divider p; mret (Z.lor (Z.land sdi_clkcr (u32 (Z.lnot SDI_CLKCR_CLKDIV_MASK))) clkdiv)
               else mret sdi_clkcr);
  let sdi_clkcr := if negb (val d bus_width =? 0) then
      Z.lor (Z.land sdi_clkcr (u32 (Z.lnot SDI_CLKCR_WIDBUS_MASK))) (bus_width_bits (val d bus_width))
    else sdi_clkcr in
  wt sdi_clkcr r_clock;;
  m_udelay CLK_CHANGE_DELAY;;
  mret 0.

Definition mmc_host_reset (p : nat) : M Z := wt (pwr_init host) r_power;; mret 0.

(** [arm_pl180_mmci_ops] *)
#[global] Instance arm_pl180_mmci_ops : MmcHost := {
  send_cmd := host_request;
  set_ios := Some host_set_ios;
  host_init := Some mmc_host_reset;
  getcd := None;
  getwp := None;
}.

Definition host_config : mmc_config :=
  Config (caps host) (voltages host) (clock_min host) (clock_max host)
    (if negb (h_b_max host =? 0) then h_b_max host else CONFIG_SYS_MMC_MAX_BLK_COUNT) 0 (h_name host).

Definition arm_pl180_mmci_init (alloc : bool) : M (Z * option nat) :=
  wt (pwr_init host) r_power;;
  wt (clkdiv_init host) r_clock;;
  m_udelay CLK_CHANGE_DELAY;;
  m ← rd r_mask0;
  wt (Z.land m (u32 (Z.lnot SDI_MASK0_MASK))) r_mask0;;
  mmc ← Mmc.mmc_create alloc host_config;
  mret (match mmc with None => -1 | Some _ => 0 end, mmc).

End Driver.

(** [cpu_mmc_init]: the host of the board; the two arguments tell whether the allocations succeed. *)
Definition board_host : pl180_mmc_host :=
  Host CONFIG_ARM_PL180_MMCI_BASE 0 VOLTAGE_WINDOW_MMC 0 ARM_MCLK (ARM_MCLK / (2 * (SDI_CLKCR_CLKDIV_INIT_V1 + 1)))
    CONFIG_ARM_PL180_MMCI_CLOCK_FREQ (Z.lor SDI_CLKCR_CLKDIV_INIT_V1 SDI_CLKCR_CLKEN) INIT_PWR false (Carray.lit "MMC").
Definition cpu_mmc_init {PF : Platform} (alloc_host alloc_mmc : bool) : M Z :=
  if negb alloc_host then mret (- ENOMEM) else '(rc, _) ← arm_pl180_mmci_init board_host alloc_mmc; mret rc.

End Pl180.
