(* ===== verification/SdCard.v ===== *)
(** * SdCard: the MMC core with an SD card that works

    What the core of Mmc.v promises when the host's driver and the card do their part.  [Card] is a card seen from the
    host: its answers to commands and the bytes it sends.  [Works] is what a driver promises to the core: commands are
    carried to the card and answers and data come back.  [SdCard] is what the SD specification says about the commands
    the core uses.  The driver of the board discharges [Works] in SdHost.v. *)

From stdpp Require Import base list option.
From Stdlib Require Import ZifyBool.
From S2P Require Import Prelude Cmem Blk MmcTypes Mmc.
Import MmcTypes Mmc.

Module SdCard.

(** ** Cards and hosts *)

(** [answer c idx arg]: the response to a command and the card's next state, or nothing at all.  [sends c idx arg n]:
    the bytes that follow when the host takes [n] of them.  [takes c l]: after a command that lets it wait for data, the
    card takes the bytes [l]. *)
Class Card := {
  card : Type;
  answer : card -> Z -> Z -> option (list Z * card);
  sends : card -> Z -> Z -> Z -> option (list Z);
  takes : card -> list Z -> option card;
  answer_length c idx arg r c' : answer c idx arg = Some (r, c') -> length r = 4%nat;
  sends_bytes c idx arg n l : sends c idx arg n = Some l -> Forall (fun b => 0 <= b < 256) l;
}.

(** [cmd] after an answer. *)
Definition answered (cmd : mmc_cmd) (r : list Z) : mmc_cmd :=
  if Z.land (resp_type cmd) MMC_RSP_PRESENT =? 0 then cmd else with_response cmd r.

(** A command with a response asks for one, as all commands of mmc.h do. *)
Definition proper_cmd (cmd : mmc_cmd) : bool := (resp_type cmd =? 0) || negb (Z.land (resp_type cmd) MMC_RSP_PRESENT =? 0).

(** Two devices that differ at most in the integer members [l]. *)
Record frame (l : list field) (d d' : mmc) : Prop := {
  frame_val : forall g, existsb (field_beq g) l = false -> val d' g = val d g;
  frame_cfg : cfg d' = cfg d
}.

Lemma frame_refl l d : frame l d d.
Proof. done. Qed.

Lemma frame_trans l1 l2 d1 d2 d3 : frame l1 d1 d2 -> frame l2 d2 d3 -> frame (l1 ++ l2) d1 d3.
Proof.
  intros [V1 C1] [V2 C2]. split; [|congruence]. intros g Hg. rewrite existsb_app in Hg. apply orb_false_iff in Hg as [G1 G2].
  by rewrite V2, V1.
Qed.

Lemma frame_sub l1 l2 d d' : frame l1 d d' -> (forall g, existsb (field_beq g) l1 = true -> existsb (field_beq g) l2 = true) -> frame l2 d d'.
Proof. intros [V C] Hs. split; [|done]. intros g Hg. apply V. apply not_true_is_false. intros E. by rewrite (Hs g E) in Hg. Qed.

Section Interface.
Context {PF : Platform} {HO : MmcHost} {CA : Card}.

(** A transfer of whole words, as long as the controllers' length register allows, that does not reach the end of the
    address space. *)
Definition transfer_ok (t : mmc_data) : Prop :=
  flags t = MMC_DATA_READ /\ 0 < blocks t * blocksize t < 2 ^ 16 /\ (blocks t * blocksize t) mod 4 = 0 /\
  0 <= buf t /\ buf t + blocks t * blocksize t < 2 ^ 32.

(** The same for the other direction. *)
Definition send_ok (t : mmc_data) : Prop :=
  flags t = MMC_DATA_WRITE /\ 0 < blocks t * blocksize t < 2 ^ 16 /\ (blocks t * blocksize t) mod 4 = 0 /\
  0 <= buf t /\ buf t + blocks t * blocksize t < 2 ^ 32.

Class Works := {
  linked : card -> hw -> Prop;
  cfg_ok : mmc_config -> Prop;
  works_cmd p cmd w d c r c' : devices w !! p = Some d -> linked c (io w) -> proper_cmd cmd = true -> 0 <= cmdidx cmd < 64 -> 0 <= cmdarg cmd < 2 ^ 32 ->
    answer c (cmdidx cmd) (cmdarg cmd) = Some (r, c') ->
    exists d' h, send_cmd p cmd None w = Some ((0, answered cmd r), World (<[p:=d']> (devices w)) (cur_dev_num w) h (ram w)) /\
      linked c' h /\ frame [rca] d d' /\ (cmdidx cmd <> MMC_CMD_ALL_SEND_CID -> d' = d);
  works_silent p cmd w c : Z.land (resp_type cmd) MMC_RSP_PRESENT <> 0 -> linked c (io w) -> 0 <= cmdidx cmd < 64 -> 0 <= cmdarg cmd < 2 ^ 32 -> answer c (cmdidx cmd) (cmdarg cmd) = None ->
    exists h, send_cmd p cmd None w = Some ((- ETIMEDOUT, cmd), with_io w h) /\ linked c h;
  works_read p cmd t w c r c' l : linked c (io w) -> 0 <= cmdidx cmd < 64 -> 0 <= cmdarg cmd < 2 ^ 32 ->
    cmdidx cmd <> MMC_CMD_ALL_SEND_CID -> cmdidx cmd <> MMC_CMD_SET_RELATIVE_ADDR -> Z.land (resp_type cmd) MMC_RSP_PRESENT <> 0 ->
    transfer_ok t -> answer c (cmdidx cmd) (cmdarg cmd) = Some (r, c') ->
    sends c (cmdidx cmd) (cmdarg cmd) (blocks t * blocksize t) = Some l -> Z.of_nat (length l) = blocks t * blocksize t ->
    exists h m, send_cmd p cmd (Some t) w = Some ((0, answered cmd r), World (devices w) (cur_dev_num w) h m) /\
      linked c' h /\ mem_eq m (wr (ram w) (buf t) l);
  works_write p cmd t w c r c1 c2 : linked c (io w) -> 0 <= cmdidx cmd < 64 -> 0 <= cmdarg cmd < 2 ^ 32 ->
    cmdidx cmd <> MMC_CMD_ALL_SEND_CID -> cmdidx cmd <> MMC_CMD_SET_RELATIVE_ADDR -> Z.land (resp_type cmd) MMC_RSP_PRESENT <> 0 ->
    send_ok t -> answer c (cmdidx cmd) (cmdarg cmd) = Some (r, c1) ->
    takes c1 (bytes (ram w) (buf t) (Z.to_nat (blocks t * blocksize t))) = Some c2 ->
    exists h, send_cmd p cmd (Some t) w = Some ((0, answered cmd r), with_io w h) /\ linked c2 h;
  works_ios f p w d c : set_ios = Some f -> devices w !! p = Some d -> linked c (io w) -> 0 <= val d clock < 2 ^ 32 -> cfg_ok (cfg d) ->
    exists d' h, f p w = Some (0, World (<[p:=d']> (devices w)) (cur_dev_num w) h (ram w)) /\ linked c h /\ frame [clock] d d' /\ 0 <= val d' clock < 2 ^ 32;
  works_init f p w c : host_init = Some f -> linked c (io w) -> exists h, f p w = Some (0, with_io w h) /\ linked c h;
  works_udelay c n h : linked c h -> linked c (udelay n h);
  works_timer c n h : linked c h -> linked c (get_timer n h).2;
}.
End Interface.
Arguments Works {_ _ _}.

(** ** SD cards *)

(** A card: its contents, the number of its blocks of 512 bytes, and what it tells about itself. *)
Record sd_info := Sd {
  sd_disk : mem; sd_blocks : Z; sd_hc : bool;
  sd_cid : list Z; sd_csd : list Z; sd_rca : Z; sd_scr : list Z
}.

(** The states of the specification; in the idle state the card may say that it is busy [n] more times. *)
Inductive phase := Idle (n : nat) | Ready | Ident | Stby | Tran | Sending.

Definition rca_of (sd : sd_info) : Z := u32 (Z.shiftl (sd_rca sd) 16).
(** The address of a block in a command. *)
Definition block_arg (sd : sd_info) (b : Z) : Z := if sd_hc sd then b else u32 (b * 512).

Section Sd.
Context {CA : Card}.

Class SdCard (sd : sd_info) := {
  (** this card, in whatever state *)
  plugged : card -> Prop;
  in_phase : phase -> card -> Prop;
  (** after CMD55: the next command is one of the application *)
  app : phase -> card -> Prop;
  sd_here ph c : in_phase ph c -> plugged c;
  sd_reset c : plugged c -> exists r c' n, answer c 0 0 = Some (r, c') /\ (n <= 1000)%nat /\ in_phase (Idle n) c';
  sd_if_cond n c : in_phase (Idle n) c -> exists r c', answer c 8 0x1aa = Some (r, c') /\ in_phase (Idle n) c' /\ Z.land (nth 0 r 0) 0xff = 0xaa;
  sd_app_idle n c : in_phase (Idle n) c -> exists r c', answer c 55 0 = Some (r, c') /\ app (Idle n) c';
  sd_op_cond n c arg : app (Idle n) c -> 0 <= arg < 2 ^ 32 -> Z.land arg OCR_HCS <> 0 -> Z.land arg 0xff8000 <> 0 ->
    exists r c', answer c 41 arg = Some (r, c') /\
      ((Z.land (nth 0 r 0) OCR_BUSY <> 0 /\ (Z.land (nth 0 r 0) OCR_HCS =? OCR_HCS) = sd_hc sd /\ in_phase Ready c') \/
       (Z.land (nth 0 r 0) OCR_BUSY = 0 /\ exists n', n = S n' /\ in_phase (Idle n') c'));
  sd_all_send_cid c : in_phase Ready c -> exists c', answer c 2 0 = Some (sd_cid sd, c') /\ in_phase Ident c';
  sd_relative_addr c arg : in_phase Ident c -> 0 <= arg < 2 ^ 32 -> exists r c', answer c 3 arg = Some (r, c') /\ in_phase Stby c' /\
    Z.land (Z.shiftr (nth 0 r 0) 16) 0xffff = sd_rca sd;
  sd_send_csd c : in_phase Stby c -> exists c', answer c 9 (rca_of sd) = Some (sd_csd sd, c') /\ in_phase Stby c';
  sd_select c : in_phase Stby c -> exists r c', answer c 7 (rca_of sd) = Some (r, c') /\ in_phase Tran c';
  sd_app_tran c : in_phase Tran c -> exists r c', answer c 55 (rca_of sd) = Some (r, c') /\ app Tran c';
  sd_send_scr c : app Tran c -> exists r c', answer c 51 0 = Some (r, c') /\ sends c 51 0 8 = Some (sd_scr sd) /\ in_phase Tran c';
  sd_status c : app Tran c -> exists r c' l, answer c 13 0 = Some (r, c') /\ sends c 13 0 64 = Some l /\ length l = 64%nat /\ in_phase Tran c';
  sd_bus_width_1 c : app Tran c -> exists r c', answer c 6 0 = Some (r, c') /\ in_phase Tran c';
  (** CMD6: the check of function 1 of the first group, and the return to function 0 *)
  sd_switch_check c : in_phase Tran c -> exists r c' l, answer c 6 0x00fffff1 = Some (r, c') /\ sends c 6 0x00fffff1 64 = Some l /\
    length l = 64%nat /\ in_phase Tran c';
  sd_switch_default c : in_phase Tran c -> exists r c' l, answer c 6 0x80fffff0 = Some (r, c') /\ sends c 6 0x80fffff0 64 = Some l /\
    length l = 64%nat /\ Z.land (nth 16 l 0) 0xF = 0 /\ Forall (fun b => 0 <= b < 256) l /\ in_phase Tran c';
  sd_set_blocklen c : in_phase Tran c -> exists r c', answer c 16 512 = Some (r, c') /\ in_phase Tran c';
  sd_read_single c b : in_phase Tran c -> 0 <= b < sd_blocks sd -> exists r c', answer c 17 (block_arg sd b) = Some (r, c') /\
    sends c 17 (block_arg sd b) 512 = Some (bytes (sd_disk sd) (b * 512) 512) /\ in_phase Tran c';
  sd_read_multiple c b n : in_phase Tran c -> 0 <= b -> 0 < n -> b + n <= sd_blocks sd -> exists r c', answer c 18 (block_arg sd b) = Some (r, c') /\
    sends c 18 (block_arg sd b) (n * 512) = Some (bytes (sd_disk sd) (b * 512) (Z.to_nat (n * 512))) /\ in_phase Sending c';
  sd_stop c : in_phase Sending c -> exists r c', answer c 12 0 = Some (r, c') /\ in_phase Tran c';
}.

End Sd.

(** ** Rules for the core *)

(** The memory that a run of the driver leaves alone: at the addresses [watched] it is what it was [before]. *)
Class Watch := { watched : Z -> Prop; before : mem }.
#[export] Instance no_watch : Watch | 100 := {| watched _ := False; before := (fun _ => 0) |}.

(** Everything outside a buffer. *)
Definition outside (a n : Z) (m : mem) : Watch := {| watched x := x < a \/ a + n <= x; before := m |}.

(** Nothing of a buffer is watched. *)
Definition free {WA : Watch} (a n : Z) : Prop := forall x, watched x -> x < a \/ a + n <= x.

Lemma free_no_watch a n : free (WA := no_watch) a n.
Proof. by intros x []. Qed.

Lemma free_outside a n m : free (WA := outside a n m) a n.
Proof. by intros x. Qed.

Lemma free_sub {WA : Watch} a n b k : free a n -> a <= b -> b + k <= a + n -> free b k.
Proof. intros H Hb Hk x Hx. pose proof (H x Hx). lia. Qed.

Section Rules.
Context {PF : Platform} {HO : MmcHost} {CA : Card} {WO : Works} {WA : Watch}.

(** The device [p] of the list [l] has become [d]; the card is [c]; the watched memory is as it was. *)
Record st (l : list mmc) (p : nat) (d : mmc) (c : card) (w : world) : Prop := {
  st_dev : devices w = <[p:=d]> l;
  st_len : (p < length l)%nat;
  st_link : linked c (io w);
  st_kept : forall x, watched x -> ld (ram w) x = ld before x
}.

Lemma st_lookup l p d c w : st l p d c w -> devices w !! p = Some d.
Proof. intros [-> Hp _ _]. by apply list_lookup_insert_eq. Qed.

Lemma st_io l p d c c' w h : st l p d c w -> linked c' h -> st l p d c' (with_io w h).
Proof. by intros [? ? _ ?] ?. Qed.

Lemma wp_dev_st {l p d c w} Q : st l p d c w -> Q d w -> wp (dev p) Q w.
Proof. intros H. apply wp_dev. by apply (st_lookup l p d c). Qed.

Lemma wp_field_st {l p d c w} f Q : st l p d c w -> Q (val d f) w -> wp (get p f) Q w.
Proof. intros H. apply wp_get. by apply (st_lookup l p d c). Qed.

Lemma wp_update_st {l p d c w} g Q : st l p d c w -> (forall w', st l p (g d) c w' -> ram w' = ram w -> Q tt w') -> wp (update p g) Q w.
Proof.
  intros H HQ. eapply wp_update; [by apply (st_lookup l p d c)|]. apply HQ; [|done]. destruct H as [E Hp Hl Hk].
  split; [|done|done|done]. cbn. by rewrite E, list_insert_insert_eq.
Qed.

Lemma wp_set_st {l p d c w} f v Q : st l p d c w -> (forall w', st l p (set_val d f v) c w' -> ram w' = ram w -> Q tt w') -> wp (set p f v) Q w.
Proof. apply (wp_update_st (fun d => set_val d f v)). Qed.

Lemma wp_udelay_st {l p d c w} n Q : st l p d c w -> (forall w', st l p d c w' -> ram w' = ram w -> Q tt w') -> wp (m_udelay n) Q w.
Proof. intros H HQ. apply HQ; [|done]. eapply st_io; [done|]. apply works_udelay, H. Qed.

Lemma wp_timer_st {l p d c w} n Q : st l p d c w -> (forall t w', st l p d c w' -> ram w' = ram w -> Q t w') -> wp (m_get_timer n) Q w.
Proof.
  intros H HQ. unfold wp, m_get_timer. destruct (get_timer n (io w)) as [t h] eqn:E. apply HQ; [|done]. eapply st_io; [done|].
  change h with (t, h).2. rewrite <- E. apply works_timer, H.
Qed.

Lemma wp_cmd_st {l p d c w r c'} cmd Q : st l p d c w -> proper_cmd cmd = true -> 0 <= cmdidx cmd < 64 -> cmdidx cmd <> MMC_CMD_ALL_SEND_CID -> 0 <= cmdarg cmd < 2 ^ 32 ->
  answer c (cmdidx cmd) (cmdarg cmd) = Some (r, c') ->
  (forall w', st l p d c' w' -> ram w' = ram w -> Q (0, answered cmd r) w') -> wp (mmc_send_cmd p cmd None) Q w.
Proof.
  intros H Hpr Hi Hne Ha E HQ. destruct (works_cmd p cmd w d c r c' (st_lookup _ _ _ _ _ H) (st_link _ _ _ _ _ H) Hpr Hi Ha E) as (d' & h & E' & Hl & _ & Hd).
  rewrite (Hd Hne) in E'. eapply wp_of_run; [exact E'|]. apply HQ; [|done]. destruct H as [Ed Hp _ Hk]. split; [|done|done|done]. cbn.
  by rewrite Ed, list_insert_insert_eq.
Qed.

Lemma wp_read_st {l p d c w r c' bs} cmd t Q : st l p d c w -> 0 <= cmdidx cmd < 64 -> cmdidx cmd <> MMC_CMD_ALL_SEND_CID ->
  cmdidx cmd <> MMC_CMD_SET_RELATIVE_ADDR -> Z.land (resp_type cmd) MMC_RSP_PRESENT <> 0 -> 0 <= cmdarg cmd < 2 ^ 32 -> transfer_ok t ->
  answer c (cmdidx cmd) (cmdarg cmd) = Some (r, c') -> sends c (cmdidx cmd) (cmdarg cmd) (blocks t * blocksize t) = Some bs ->
  Z.of_nat (length bs) = blocks t * blocksize t -> free (buf t) (blocks t * blocksize t) ->
  (forall w', st l p d c' w' -> mem_eq (ram w') (wr (ram w) (buf t) bs) -> Q (0, answered cmd r) w') -> wp (mmc_send_cmd p cmd (Some t)) Q w.
Proof.
  intros H Hi H2 H3 Hr Ha Ht E Es Hlen Hfree HQ.
  destruct (works_read p cmd t w c r c' bs (st_link _ _ _ _ _ H) Hi Ha H2 H3 Hr Ht E Es Hlen) as (h & m & E' & Hl & Hm).
  eapply wp_of_run; [exact E'|]. apply HQ; [|done]. destruct H as [Ed Hp _ Hk]. split; [done|done|done|]. intros x Hx. cbn [ram]. rewrite Hm, ld_wr, Hlen, <- (Hk x Hx).
  pose proof (Hfree x Hx). by replace (_ && _) with false by lia.
Qed.

Lemma wp_write_st {l p d c w r c1 c2} cmd t Q : st l p d c w -> 0 <= cmdidx cmd < 64 -> cmdidx cmd <> MMC_CMD_ALL_SEND_CID ->
  cmdidx cmd <> MMC_CMD_SET_RELATIVE_ADDR -> Z.land (resp_type cmd) MMC_RSP_PRESENT <> 0 -> 0 <= cmdarg cmd < 2 ^ 32 -> send_ok t ->
  answer c (cmdidx cmd) (cmdarg cmd) = Some (r, c1) -> takes c1 (bytes (ram w) (buf t) (Z.to_nat (blocks t * blocksize t))) = Some c2 ->
  (forall w', st l p d c2 w' -> ram w' = ram w -> Q (0, answered cmd r) w') -> wp (mmc_send_cmd p cmd (Some t)) Q w.
Proof.
  intros H Hi H2 H3 Hr Ha Ht E Et HQ.
  destruct (works_write p cmd t w c r c1 c2 (st_link _ _ _ _ _ H) Hi Ha H2 H3 Hr Ht E Et) as (h & E' & Hl).
  eapply wp_of_run; [exact E'|]. apply HQ; [|done]. by apply (st_io _ _ _ c).
Qed.

(** A card that is ready: one round of the status loop. *)
Lemma wp_status_st {l p d c w r c'} n Q : st l p d c w -> 0 < n -> answer c 13 (rca_arg d) = Some (r, c') ->
  Z.land (nth 0 r 0) MMC_STATUS_RDY_FOR_DATA <> 0 -> Z.land (nth 0 r 0) MMC_STATUS_CURR_STATE <> MMC_STATE_PRG ->
  (forall w', st l p d c' w' -> ram w' = ram w -> Q 0 w') -> wp (mmc_send_status p n) Q w.
Proof.
  intros H Hn E Hr Hs HQ. unfold mmc_send_status. apply mwp_bind, (wp_dev_st _ H). destruct (Z.to_nat n) as [|k] eqn:Ek; [lia|]. cbn [status_loop]. apply mwp_bind.
  eapply (wp_cmd_st _ _ H); [done|split; by vm_compute|done|apply u32_range|exact E|]. intros w' H' Hm. cbn beta iota zeta. change (0 =? 0) with true. cbn iota.
  change (resp _ 0) with (nth 0 r 0). rewrite (proj2 (Z.eqb_neq _ _) Hr), (proj2 (Z.eqb_neq _ _) Hs). cbn [negb andb Nat.eqb]. apply mwp_ret. by apply HQ.
Qed.

Lemma wp_ios_st {l p d c w} Q : st l p d c w -> 0 <= val d clock < 2 ^ 32 -> cfg_ok (cfg d) ->
  (forall d' w', st l p d' c w' -> frame [clock] d d' -> 0 <= val d' clock < 2 ^ 32 -> Q 0 w') -> wp (mmc_set_ios p) Q w.
Proof.
  intros H Hc Hg HQ. unfold mmc_set_ios. destruct set_ios as [f|] eqn:E.
  - destruct (works_ios f p w d c E (st_lookup _ _ _ _ _ H) (st_link _ _ _ _ _ H) Hc Hg) as (d' & h & E' & Hl & Hf & Hc').
    eapply wp_of_run; [exact E'|]. apply (HQ d'); [|done|done]. destruct H as [Ed Hp _ Hk]. split; [|done|done|done]. cbn. by rewrite Ed, list_insert_insert_eq.
  - apply mwp_ret. by apply (HQ d); [|split|].
Qed.

End Rules.

(** The same state, with other addresses watched. *)
Lemma st_watch {PF : Platform} {HO : MmcHost} {CA : Card} {WO : Works} (WA WB : Watch) l p d c w : st (WA := WA) l p d c w ->
  (forall x, watched (Watch := WB) x -> ld (ram w) x = ld (before (Watch := WB)) x) -> st (WA := WB) l p d c w.
Proof. by intros [? ? ? _] ?. Qed.

(** ** Reading blocks *)

(** Closed bounds of command numbers and arguments. *)
Ltac small := split; by vm_compute.

Section Reading.
Context {PF : Platform} {HO : MmcHost} {CA : Card} {WO : Works} {WA : Watch} (sd : sd_info) {SC : SdCard sd}.

(** Block numbers, and byte addresses where the card wants them, are 32 bits wide. *)
Record sd_sized : Prop := {
  sized_blocks : 0 <= sd_blocks sd < 2 ^ 32;
  sized_bytes : sd_hc sd = false -> sd_blocks sd * 512 < 2 ^ 32
}.

(** A device that was started with this card. *)
Record started (d : mmc) : Prop := {
  s_len : val d read_bl_len = 512;
  s_wlen : val d write_bl_len = 512;
  s_rca : val d rca = sd_rca sd;
  s_hc : val d high_capacity = Z.b2z (sd_hc sd);
  s_ddr : val d ddr_mode = 0;
  s_lba : val d bd_lba = sd_blocks sd;
  s_type : val d bd_if_type = IF_TYPE_MMC;
  s_max : 0 < b_max (cfg d) < 128
}.

Lemma block_arg_range b : sd_sized -> 0 <= b < sd_blocks sd -> 0 <= block_arg sd b < 2 ^ 32.
Proof. intros [Hs _] Hb. unfold block_arg. destruct (sd_hc sd); [lia|apply u32_range]. Qed.

Lemma read_arg d b : started d -> (if negb (val d high_capacity =? 0) then b else u32 (b * val d read_bl_len)) = block_arg sd b.
Proof. intros [-> _ _ -> _ _ _ _]. unfold block_arg. by destruct (sd_hc sd). Qed.

Lemma wp_read_blocks l p d c w dst start n Q : st l p d c w -> in_phase Tran c -> started d -> sd_sized ->
  0 <= start -> 0 < n < 128 -> start + n <= sd_blocks sd -> 0 <= dst -> dst + n * 512 < 2 ^ 32 -> free dst (n * 512) ->
  (forall c' w', st l p d c' w' -> in_phase Tran c' -> mem_eq (ram w') (wr (ram w) dst (bytes (sd_disk sd) (start * 512) (Z.to_nat (n * 512)))) -> Q n w') ->
  wp (mmc_read_blocks p dst start n) Q w.
Proof.
  intros H Hc Hd Hs Hst Hn Hend Hdst Htop Hfree HQ. unfold mmc_read_blocks. apply mwp_bind, (wp_dev_st _ H). cbv zeta. rewrite (read_arg d start Hd).
  pose proof (block_arg_range start Hs ltac:(lia)) as Harg.
  assert (transfer_ok (Data dst MMC_DATA_READ n (val d read_bl_len))) as Ht
    by (rewrite (s_len d Hd); split; [done|]; cbn [blocks blocksize buf]; split_and!; try lia; apply Z.mod_divide; [lia|exists (n * 128); lia]).
  destruct (Z.ltb_spec 1 n).
  - destruct (sd_read_multiple c start n Hc Hst ltac:(lia) Hend) as (r & c1 & Ea & Es & H1).
    apply mwp_bind. eapply (wp_read_st _ _ _ H); [small|done..|exact Ea|cbn [blocks blocksize]; rewrite (s_len d Hd); exact Es|cbn [blocks blocksize]; rewrite (s_len d Hd), length_bytes; lia|cbn [buf blocks blocksize]; by rewrite (s_len d Hd)|].
    intros w1 Hw1 Hm1. cbn [Z.eqb negb]. destruct (sd_stop c1 H1) as (r2 & c2 & E2 & H2).
    apply mwp_bind. eapply (wp_cmd_st _ _ Hw1); [done|small|done|small|exact E2|]. intros w2 Hw2 Hm2. apply (HQ c2); [done|done|by rewrite Hm2].
  - assert (n = 1) as -> by lia. destruct (sd_read_single c start Hc ltac:(lia)) as (r & c1 & Ea & Es & H1).
    apply mwp_bind. eapply (wp_read_st _ _ _ H); [small|done..|exact Ea|cbn [blocks blocksize]; rewrite (s_len d Hd); exact Es|cbn [blocks blocksize]; rewrite (s_len d Hd), length_bytes; lia|cbn [buf blocks blocksize]; by rewrite (s_len d Hd)|].
    intros w1 Hw1 Hm1. by apply (HQ c1).
Qed.

Lemma wp_bread_loop l p d : started d -> sd_sized -> forall fuel c w start todo dst blkcnt Q, st l p d c w -> in_phase Tran c ->
  0 <= start -> 0 < todo -> start + todo <= sd_blocks sd -> 0 <= dst -> dst + todo * 512 < 2 ^ 32 -> free dst (todo * 512) -> todo <= Z.of_nat fuel ->
  (forall c' w', st l p d c' w' -> in_phase Tran c' -> mem_eq (ram w') (wr (ram w) dst (bytes (sd_disk sd) (start * 512) (Z.to_nat (todo * 512)))) -> Q blkcnt w') ->
  wp (bread_loop fuel p start todo dst blkcnt) Q w.
Proof.
  intros Hd Hs. pose proof (s_max d Hd) as Hmax. pose proof (sized_blocks Hs) as Hblk.
  induction fuel as [|fuel IH]; intros c w start todo dst blkcnt Q H Hc Hst Htodo Hend Hdst Htop Hfree Hf HQ; [lia|]. cbn [bread_loop].
  apply mwp_bind, (wp_dev_st _ H). cbv zeta. set (cur := if b_max (cfg d) <? todo then b_max (cfg d) else todo).
  assert (0 < cur <= todo /\ cur < 128 /\ (todo - cur <= 0 -> cur = todo)) as (Hcur & Hcur2 & Hcur3) by (subst cur; case_bools; lia). clearbody cur.
  apply mwp_bind. apply (wp_read_blocks l p d c w dst start cur); [done|done|done|done|lia..|eapply free_sub; [exact Hfree|lia..]|]. intros c1 w1 H1 Hc1 Hm1.
  rewrite Z.eqb_refl. cbn [negb]. apply mwp_bind, (wp_field_st _ _ H1). rewrite (s_len d Hd). destruct (Z.ltb_spec 0 (todo - cur)).
  - rewrite !u32_small by lia. apply (IH c1 w1); [done|done|lia|lia|lia|lia|lia|eapply free_sub; [exact Hfree|lia..]|lia|]. intros c2 w2 H2 Hc2 Hm2. apply (HQ c2 w2 H2 Hc2).
    rewrite Hm2, Hm1. replace (Z.to_nat (todo * 512)) with (Z.to_nat (cur * 512) + Z.to_nat ((todo - cur) * 512))%nat by lia.
    rewrite bytes_app, wr_app, length_bytes. rewrite !Z2Nat.id by lia. by replace ((start + cur) * 512) with (start * 512 + cur * 512) by lia.
  - assert (cur = todo) as -> by lia. by apply (HQ c1 w1).
Qed.

(** [find_mmc_device] finds this device. *)
Definition registered (l : list mmc) (p : nat) (d : mmc) : Prop := find_loop (<[p:=d]> l) 0 (val d bd_devnum) = Some p.

(** [mmc_bread] reads the blocks of the card, whatever their number. *)
Lemma wp_mmc_bread l p d c w start n dst Q : st l p d c w -> registered l p d -> in_phase Tran c -> started d -> sd_sized ->
  0 <= start -> 0 < n -> start + n <= sd_blocks sd -> 0 <= dst -> dst + n * 512 < 2 ^ 32 -> free dst (n * 512) ->
  (forall c' w', st l p d c' w' -> in_phase Tran c' -> mem_eq (ram w') (wr (ram w) dst (bytes (sd_disk sd) (start * 512) (Z.to_nat (n * 512)))) -> Q n w') ->
  wp (mmc_bread p start n dst) Q w.
Proof.
  intros H Hr Hc Hd Hs Hst Hn Hend Hdst Htop Hfree HQ. pose proof (sized_blocks Hs) as Hblk. unfold mmc_bread. apply mwp_bind, (wp_dev_st _ H).
  replace (n =? 0) with false by lia.
  assert (forall w', st l p d c w' -> find_mmc_device (val d bd_devnum) w' = Some (Some p, w')) as Hfind.
  { intros w' [Ed _ _ _]. unfold find_mmc_device. by rewrite Ed, Hr. }
  apply mwp_bind. eapply wp_of_run; [by apply Hfind|]. cbn beta iota.
  apply mwp_bind. unfold blk_dselect_hwpart. apply mwp_bind, (wp_field_st _ _ H). rewrite (s_type d Hd), Z.eqb_refl.
  unfold mmc_select_hwpartp. apply mwp_bind, (wp_field_st _ _ H). apply mwp_bind. eapply wp_of_run; [by apply Hfind|]. cbn beta iota.
  apply mwp_bind, (wp_dev_st _ H). rewrite Z.eqb_refl. apply mwp_ret. cbn [Z.ltb Z.compare].
  apply mwp_bind, (wp_field_st _ _ H). rewrite (s_lba d Hd), u32_small by lia. replace (sd_blocks sd <? start + n) with false by lia.
  apply mwp_bind, (wp_field_st _ _ H). rewrite (s_len d Hd). apply mwp_bind. unfold mmc_set_blocklen. apply mwp_bind, (wp_dev_st _ H).
  rewrite (s_ddr d Hd). cbn [Z.eqb negb]. destruct (sd_set_blocklen c Hc) as (r & c1 & E & Hc1).
  apply mwp_bind. eapply (wp_cmd_st _ _ H); [done|small|done|small|exact E|]. intros w1 H1 Hm1. apply mwp_bind, (wp_field_st _ _ H1). cbn [Z.eqb negb andb].
  apply mwp_ret. cbn [Z.eqb negb]. apply (wp_bread_loop l p d Hd Hs _ c1 w1); [done|done|lia|lia|lia|lia|lia|done|lia|]. intros c2 w2 H2 Hc2 Hm2. apply (HQ c2); [done|done|by rewrite <- Hm1].
Qed.

End Reading.

End SdCard.
