(* ===== verification/SdInit.v ===== *)
(** * SdInit: the start of an SD card

    [mmc_init] on a host without capabilities of its own, such as the board's, with a card that follows the SD
    specification ([SdCard] of SdCard.v): the identification, the choice of the bus and the description of the device. *)

From stdpp Require Import base list option.
From Stdlib Require Import ZifyBool.
From S2P Require Import Prelude Cmem Part MmcTypes Mmc SdCard.
Import MmcTypes Mmc SdCard.

Module SdInit.

(** One step of a proof about the core: [wp] of a bind, of an access to the device or of a delay. *)
Ltac wstep :=
  match goal with
  | |- wp (_ ≫= _) _ _ => apply mwp_bind
  | |- wp (mret _) _ _ => apply mwp_ret
  | H : st _ _ _ _ ?w |- wp (dev _) _ ?w => apply (wp_dev_st _ H)
  | H : st _ _ _ _ ?w |- wp (get _ _) _ ?w => apply (wp_field_st _ _ H)
  | H : st _ _ _ _ ?w |- wp (set _ _ _) _ ?w => apply (wp_set_st _ _ _ H); clear H; let w' := fresh "w" in intros w' H _
  | H : st _ _ _ _ ?w |- wp (update _ _) _ ?w => apply (wp_update_st _ _ H); clear H; let w' := fresh "w" in intros w' H _
  | H : st _ _ _ _ ?w |- wp (m_udelay _) _ ?w => apply (wp_udelay_st _ _ H); clear H; let w' := fresh "w" in intros w' H _
  | H : st _ _ _ _ ?w |- wp (m_get_timer _) _ ?w => apply (wp_timer_st _ _ H); clear H; let w' := fresh "w" in let t := fresh "t" in intros t w' H _
  end; cbn beta iota zeta.

(** After a call that returned 0. *)
Ltac go_on := unfold try_; try change (0 =? 0) with true; cbn [negb andb]; cbn beta iota zeta.

(** The first word of the response [r]. *)
Ltac first_word r := match goal with |- context [resp ?x 0] => change (resp x 0) with (nth 0 r 0) end.

(** A command that the card answers by the law [E]. *)
Ltac command E :=
  match goal with H : st _ _ _ _ ?w |- wp (mmc_send_cmd _ _ None) _ ?w =>
    eapply (wp_cmd_st _ _ H); [done|small|done| |exact E|]; [..|clear H; let w' := fresh "w" in intros w' H _; cbn beta iota zeta; go_on ]
  end.

(** A buffer that is not watched. *)
Ltac free_buffer :=
  first [apply free_no_watch | match goal with F : free _ _ |- free _ _ => apply (free_sub _ _ _ _ F); cbn [buf blocks blocksize]; lia end].

(** A command whose data the law [Es] tells. *)
Ltac transfer E Es :=
  match goal with H : st _ _ _ _ ?w |- wp (mmc_send_cmd _ _ (Some _)) _ ?w =>
    eapply (wp_read_st _ _ _ H); [small|done|done|done|small| |exact E|exact Es| |free_buffer|]; [..|clear H; let w' := fresh "w" in let Hm := fresh "Hm" in intros w' H Hm; cbn beta iota zeta; go_on]
  end.

Section Init.
Context {PF : Platform} {HO : MmcHost} {CA : Card} {WO : Works} {WA : Watch} (sd : sd_info) {SC : SdCard sd}.
Context (malloc : Z -> bool) (part_init : nat -> M unit) (stack : Z).

(** The host: no capabilities, a voltage around 3.3 V. *)
Record host_ok (g : mmc_config) : Prop := {
  hc_ok : cfg_ok g;
  hc_caps : cfg_host_caps g = 0;
  hc_volt : 0 <= cfg_voltages g < 2 ^ 32 /\ Z.land (cfg_voltages g) 0xff8000 <> 0;
  hc_freq : 0 <= f_min g < 2 ^ 32 /\ 0 <= f_max g < 2 ^ 32;
  hc_max : 0 < b_max g < 128
}.

Definition clock_ok (d : mmc) : Prop := 0 <= val d clock < 2 ^ 32.

Lemma frame_set l d d' f v : existsb (field_beq f) l = true -> frame l d d' -> frame l d (set_val d' f v).
Proof.
  intros Hf [V C]. split; [|done]. intros g Hg. cbn. destruct (field_beq f g) eqn:E; [|by apply V].
  apply internal_field_dec_bl in E as ->. congruence.
Qed.

Lemma frame_same l d d' d'' : frame l d d' -> val d'' = val d' -> cfg d'' = cfg d' -> frame l d d''.
Proof. intros [V C] Ev Ec. split; [|congruence]. intros g Hg. rewrite Ev. by apply V. Qed.

Lemma frame_gp l d d' x : frame l d d' -> frame l d (set_gp d' x).
Proof. intros F. by apply (frame_same l d d'). Qed.

(** Assignments to members of the list. *)
Ltac framed := repeat (apply frame_set; [reflexivity|]); apply frame_refl.

(** ** The bus *)

Lemma wp_set_bus_width l p d c w width Q : st l p d c w -> clock_ok d -> cfg_ok (cfg d) ->
  (forall d' w', st l p d' c w' -> frame [bus_width; clock] d d' -> clock_ok d' -> Q 0 w') -> wp (mmc_set_bus_width p width) Q w.
Proof.
  intros H Hc Hg HQ. unfold mmc_set_bus_width. do 2 wstep. apply (wp_ios_st _ H); [done|done|]. intros d' w' H' Hf Hc'. apply (HQ d' w' H'); [|done].
  eapply (frame_trans [bus_width] [clock]); [|exact Hf]. framed.
Qed.

Lemma wp_set_clock l p d c w clk disable Q : st l p d c w -> 0 <= clk < 2 ^ 32 -> host_ok (cfg d) ->
  (forall d' w', st l p d' c w' -> frame [clock; clk_disable; clock] d d' -> clock_ok d' -> Q 0 w') -> wp (mmc_set_clock p clk disable) Q w.
Proof.
  intros H Hc [Hg _ _ [Hmin Hmax] _] HQ. unfold mmc_set_clock. do 2 wstep. do 4 wstep. apply (wp_ios_st _ H).
  - cbn. destruct disable; [lia|]. case_bools; lia.
  - done.
  - intros d' w' H' Hf Hc'. apply (HQ d' w' H'); [|done].
    eapply (frame_trans [clock; clk_disable] [clock]); [|exact Hf]. framed.
Qed.

Lemma wp_select_mode l p d c w mode Q : st l p d c w -> 0 <= val d legacy_speed < 2 ^ 32 ->
  (forall d' w', st l p d' c w' -> frame [selected_mode; tran_speed; ddr_mode] d d' -> val d' ddr_mode = Z.b2z (mmc_is_mode_ddr mode) ->
     0 <= val d' tran_speed < 2 ^ 32 -> Q 0 w') -> wp (mmc_select_mode p mode) Q w.
Proof.
  intros H Hl HQ. unfold mmc_select_mode. do 8 wstep. wstep. eapply (HQ _ _ H); [|done|].
  - framed.
  - cbn. unfold mmc_mode2freq. cbn. destruct (mode =? MMC_LEGACY); [done|]. destruct (MMC_MODES_END <=? mode); [done|].
    generalize (Z.to_nat mode). intros n. do 12 (destruct n as [|n]; [cbn; lia|]). destruct n; cbn; lia.
Qed.

(** ** Identification *)

Lemma wp_go_idle l p d c w Q : st l p d c w -> plugged c ->
  (forall n c' w', st l p d c' w' -> in_phase (Idle n) c' -> (n <= 1000)%nat -> Q 0 w') -> wp (mmc_go_idle p) Q w.
Proof.
  intros H Hpl HQ. unfold mmc_go_idle. do 2 wstep. wstep. destruct (sd_reset c Hpl) as (r & c1 & n & E & Hn & Hc). command E; [small|].
  do 3 wstep. by apply (HQ n c1).
Qed.

Lemma wp_send_if_cond l p d c w n Q : st l p d c w -> in_phase (Idle n) c -> host_ok (cfg d) ->
  (forall c' w', st l p (set_val d version SD_VERSION_2) c' w' -> in_phase (Idle n) c' -> Q 0 w') -> wp (mmc_send_if_cond p) Q w.
Proof.
  intros H Hc Hg HQ. unfold mmc_send_if_cond. do 2 wstep. rewrite (proj2 (Z.eqb_neq _ _) (proj2 (hc_volt _ Hg))).
  wstep. destruct (sd_if_cond n c Hc) as (r & c1 & E & Hc1 & Hr). command E; [small|].
  first_word r.
  rewrite Hr. change (negb (170 =? 170)) with false. cbn iota. do 3 wstep. by apply (HQ c1).
Qed.

Lemma op_cond_arg v : 0 <= v < 2 ^ 32 -> Z.land v 0xff8000 <> 0 ->
  0 <= Z.lor (Z.land v 0xff8000) OCR_HCS < 2 ^ 32 /\ Z.land (Z.lor (Z.land v 0xff8000) OCR_HCS) OCR_HCS <> 0 /\
  Z.land (Z.lor (Z.land v 0xff8000) OCR_HCS) 0xff8000 <> 0.
Proof.
  intros Hv Hne. split_and!.
  - apply (lor_range 32); [lia|apply (land_range 32); [lia|exact Hv]|done].
  - apply (lor_range 32); [lia|apply (land_range 32); [lia|exact Hv]|done].
  - rewrite Z.land_lor_distr_l. intros E. apply Z.lor_eq_0_iff in E as [_ E]. discriminate E.
  - rewrite Z.land_lor_distr_l. intros E. apply Z.lor_eq_0_iff in E as [E _]. by rewrite <- Z.land_assoc in E.
Qed.

Lemma wp_op_cond_loop l p d : host_ok (cfg d) -> val d version = SD_VERSION_2 -> forall k n c w Q, (n <= k)%nat -> st l p d c w -> in_phase (Idle n) c ->
  (forall r c' w', st l p d c' w' -> in_phase Ready c' -> (Z.land r OCR_HCS =? OCR_HCS) = sd_hc sd -> Q (inr r) w') -> wp (op_cond_loop p false k) Q w.
Proof.
  intros Hg Hv. induction k as [|k IH]; intros n c w Q Hn H Hc HQ; cbn [op_cond_loop].
  all: wstep; destruct (sd_app_idle n c Hc) as (r1 & c1 & E1 & Hc1); command E1; [small|]; do 2 wstep; rewrite Hv, Z.eqb_refl; cbn zeta.
  all: destruct (op_cond_arg (cfg_voltages (cfg d)) (proj1 (hc_volt _ Hg)) (proj2 (hc_volt _ Hg))) as (Ha1 & Ha2 & Ha3).
  all: wstep; destruct (sd_op_cond n c1 _ Hc1 Ha1 Ha2 Ha3) as (r & c2 & E & Hr); command E; [exact Ha1|].
  all: first_word r.
  all: destruct Hr as [(Hb & Hh & Hc2)|(Hb & n' & -> & Hc2)].
  - rewrite (proj2 (Z.eqb_neq _ _) Hb). cbn [negb]. wstep. by apply (HQ _ c2).
  - lia.
  - rewrite (proj2 (Z.eqb_neq _ _) Hb). cbn [negb]. wstep. by apply (HQ _ c2).
  - rewrite Hb. cbn [Z.eqb negb]. do 2 wstep. apply (IH n' c2); [lia|done|done|done].
Qed.

Lemma wp_sd_send_op_cond l p d c w n Q : host_ok (cfg d) -> val d version = SD_VERSION_2 -> (n <= 1000)%nat -> st l p d c w -> in_phase (Idle n) c ->
  (forall d' c' w', st l p d' c' w' -> in_phase Ready c' -> frame [ocr; high_capacity; rca] d d' -> val d' high_capacity = Z.b2z (sd_hc sd) -> Q 0 w') ->
  wp (sd_send_op_cond p false) Q w.
Proof.
  intros Hg Hv Hn H Hc HQ. unfold sd_send_op_cond. wstep. apply (wp_op_cond_loop l p d Hg Hv _ n c w _ Hn H Hc). clear H Hc. intros r c1 w1 H Hc Hr.
  cbn beta iota. do 2 wstep. rewrite Hv, Z.eqb_refl. cbn [negb]. do 9 wstep. apply (HQ _ c1 _ H); [done| |].
  - framed.
  - cbn. by rewrite Hr.
Qed.

(** Before the start: nothing was set up yet. *)
Record untouched (d : mmc) : Prop := {
  u_init : val d has_init = 0;
  u_progress : val d init_in_progress = 0;
  u_pending : val d op_cond_pending = 0;
  u_dsr : val d dsr = 0xffffffff;
  u_type : val d bd_if_type = IF_TYPE_MMC;
  u_speed : 0 <= val d legacy_speed < 2 ^ 32;
  u_clock : clock_ok d;
  u_host : host_ok (cfg d)
}.

(** The members that [mmc_get_op_cond] writes. *)
Definition op_cond_fields : list field :=
  [quirks; clock; clk_disable; ddr_mode; selected_mode; tran_speed; bus_width; bd_hwpart; version; ocr; high_capacity; rca].

Lemma wp_initial_state l p d c w Q : st l p d c w -> 0 <= val d legacy_speed < 2 ^ 32 -> clock_ok d -> host_ok (cfg d) ->
  (forall d' w', st l p d' c w' -> frame op_cond_fields d d' -> clock_ok d' -> val d' ddr_mode = 0 -> Q tt w') -> wp (mmc_set_initial_state p) Q w.
Proof.
  intros H Hl Hc Hg HQ. unfold mmc_set_initial_state. wstep. apply (wp_select_mode _ _ _ _ _ _ _ H Hl). intros d1 w1 H1 F1 Hd1 Ht1. cbn beta.
  assert (clock_ok d1) as Hc1 by (unfold clock_ok; by rewrite (frame_val _ _ _ F1 clock eq_refl)).
  pose proof (frame_cfg _ _ _ F1) as G1. wstep.
  apply (wp_set_bus_width _ _ _ _ _ _ _ H1 Hc1); [rewrite G1; apply Hg|]. intros d2 w2 H2 F2 Hc2. cbn beta. wstep.
  pose proof (frame_cfg _ _ _ F2) as G2.
  apply (wp_set_clock _ _ _ _ _ 0 false _ H2); [lia|by rewrite G2, G1|]. intros d3 w3 H3 F3 Hc3. cbn beta. wstep. apply (HQ d3 w3 H3); [|done|].
  - eapply frame_sub; [exact (frame_trans _ _ _ _ _ (frame_trans _ _ _ _ _ F1 F2) F3)|]. by intros [].
  - by rewrite (frame_val _ _ _ F3 ddr_mode eq_refl), (frame_val _ _ _ F2 ddr_mode eq_refl).
Qed.

Lemma wp_get_op_cond l p d c w Q : st l p d c w -> plugged c -> untouched d -> host_init <> None ->
  (forall d' c' w', st l p d' c' w' -> in_phase Ready c' -> frame op_cond_fields d d' -> clock_ok d' -> val d' ddr_mode = 0 ->
     val d' high_capacity = Z.b2z (sd_hc sd) -> val d' version = SD_VERSION_2 -> val d' bd_hwpart = 0 -> Q 0 w') -> wp (mmc_get_op_cond p) Q w.
Proof.
  intros H Hpl [Hi _ _ _ _ Hl Hc Hg] Hinit HQ. unfold mmc_get_op_cond. do 2 wstep. rewrite Hi. cbn [Z.eqb negb]. do 2 wstep. unfold mmc_power_cycle.
  do 2 wstep. set (d0 := set_val d quirks _) in *.
  apply (wp_set_clock _ _ _ _ _ 0 true _ H); [lia|done|]. clear H. intros d1 wa H F1 Hc1. cbn beta. do 3 wstep. destruct host_init as [f|] eqn:Ei; [|done].
  wstep. eapply wp_of_run; [reflexivity|]. cbn beta. wstep.
  match type of H with st _ _ _ _ ?w' => destruct (works_init f p w' c Ei (st_link _ _ _ _ _ H)) as (h & E & Hl') end.
  eapply wp_of_run; [exact E|]. cbn beta. apply (st_io _ _ _ _ c _ h) in H; [|done]. go_on. do 2 wstep. wstep.
  pose proof (frame_cfg _ _ _ F1) as G1. change (cfg d0) with (cfg d) in G1.
  apply (wp_initial_state _ _ _ _ _ _ H); [cbn; by rewrite (frame_val _ _ _ F1 legacy_speed eq_refl)|done|cbn; by rewrite G1|].
  clear H. intros d2 wb H F2 Hc2 Hd2. cbn beta. wstep.
  apply (wp_go_idle _ _ _ _ _ _ H Hpl). clear H. intros n c1 wc H Hp Hn. go_on. do 2 wstep. wstep.
  pose proof (frame_cfg _ _ _ F2) as G2. cbn [set_val cfg] in G2.
  assert (host_ok (cfg (set_val d2 bd_hwpart 0))) as Hg2 by (cbn; by rewrite G2, G1).
  apply (wp_send_if_cond _ _ _ _ _ _ _ H Hp Hg2). clear H Hp. intros c2 wd H Hp. wstep.
  apply (wp_sd_send_op_cond _ _ (set_val (set_val d2 bd_hwpart 0) version SD_VERSION_2) _ _ n _ Hg2 eq_refl Hn H Hp). clear H Hp. intros d3 c3 we H Hp F3 Hhc. change (0 =? - ETIMEDOUT) with false. cbn iota. wstep.
  apply (HQ d3 c3 we H Hp).
  - assert (frame op_cond_fields d d0) as A by framed.
    assert (frame op_cond_fields d1 (set_val d1 ddr_mode 0)) as B by framed.
    assert (frame op_cond_fields d2 (set_val (set_val d2 bd_hwpart 0) version SD_VERSION_2)) as C by framed.
    eapply frame_sub; [exact (frame_trans _ _ _ _ _ (frame_trans _ _ _ _ _ (frame_trans _ _ _ _ _ (frame_trans _ _ _ _ _ A F1) B) F2) (frame_trans _ _ _ _ _ C F3))|]. by intros [].
  - unfold clock_ok. by rewrite (frame_val _ _ _ F3 clock eq_refl).
  - by rewrite (frame_val _ _ _ F3 ddr_mode eq_refl).
  - done.
  - by rewrite (frame_val _ _ _ F3 version eq_refl).
  - by rewrite (frame_val _ _ _ F3 bd_hwpart eq_refl).
Qed.

(** ** The card-specific data *)

Definition csd_len : Z := Z.shiftl 1 (Z.land (Z.shiftr (nth 1 (sd_csd sd) 0) 16) 0xf).

(** The card-specific data tell the capacity, in blocks of at least 512 bytes, and a clock from the table. *)
Record csd_ok : Prop := {
  csd_freq : Z.land (nth 0 (sd_csd sd) 0) 0x7 < 4;
  csd_big : 512 <= csd_len;
  csd_cap : csd_capacity (sd_hc sd) (sd_csd sd) csd_len = sd_blocks sd * 512
}.

Definition csd_fields : list field :=
  [version; legacy_speed; selected_mode; tran_speed; ddr_mode; dsr_imp; capacity_user; capacity_boot; capacity_rpmb; read_bl_len; write_bl_len].

Lemma multiplier_range n : 0 <= nth n multipliers 0 <= 80.
Proof. do 16 (destruct n as [|n]; [cbn; lia|]). destruct n; cbn; lia. Qed.

Lemma wp_read_csd l p d c w Q : st l p d c w -> val d version = SD_VERSION_2 -> val d high_capacity = Z.b2z (sd_hc sd) -> csd_ok ->
  (forall d' w', st l p d' c w' -> frame csd_fields d d' -> val d' version = SD_VERSION_2 -> val d' ddr_mode = 0 -> 0 <= val d' legacy_speed < 2 ^ 32 ->
     val d' read_bl_len = 512 -> val d' write_bl_len = 512 -> val d' capacity_user = sd_blocks sd * 512 -> Q tt w') -> wp (read_csd p (sd_csd sd)) Q w.
Proof.
  intros H Hv Hh [Hf Hbig Hcap] HQ. unfold read_csd. do 4 wstep. wstep. change (val (set_csd d (sd_csd sd)) version) with (val d version). rewrite Hv. change (SD_VERSION_2 =? MMC_VERSION_UNKNOWN) with false. cbn iota. do 2 wstep.
  assert (0 <= Z.land (nth 0 (sd_csd sd) 0) 7 < 4) as Hix.
  { split; [|done]. apply Z.land_nonneg. right. lia. }
  destruct (lookup_lt_is_Some_2 fbase (Z.to_nat (Z.land (nth 0 (sd_csd sd) 0) 7))) as [freq Efreq]; [cbn; lia|].
  assert (0 < freq <= 10000000) as Hfreq.
  { revert Efreq. generalize (Z.to_nat (Z.land (nth 0 (sd_csd sd) 0) 7)). intros n E. do 4 (destruct n as [|n]; [cbn in E; injection E as <-; lia|]). done. }
  rewrite Efreq. eapply wp_of_run; [reflexivity|]. cbn beta. wstep.
  match goal with |- context [nth ?n multipliers 0] => pose proof (multiplier_range n) as Hm; set (mult := nth n multipliers 0) in *; clearbody mult end.
  assert (0 <= freq * mult < 2 ^ 32) as Hspeed by nia.
  wstep. wstep. apply (wp_select_mode _ _ _ _ _ _ _ H Hspeed). clear H. intros d1 w5 H F1 Hd1 _. cbn beta.
  assert (val d1 high_capacity = Z.b2z (sd_hc sd)) as Hh1 by (by rewrite (frame_val _ _ _ F1 high_capacity eq_refl)).
  assert (IS_SD (set_csd d (sd_csd sd)) = true) as HSD by (unfold IS_SD; cbn [set_csd val]; by rewrite Hv).
  rewrite HSD. fold csd_len. cbn [set_csd val]. rewrite Hh.
  replace (negb (Z.b2z (sd_hc sd) =? 0)) with (sd_hc sd) by (by destruct (sd_hc sd)). rewrite Hcap. repeat wstep. apply (HQ _ _ H).
  - repeat (apply frame_set; [done|]). apply frame_gp. repeat (apply frame_set; [done|]).
    assert (frame csd_fields d (set_val (set_csd d (sd_csd sd)) legacy_speed (freq * mult))) as A by (apply frame_set; [done|by apply (frame_same _ d d)]).
    eapply frame_sub; [exact (frame_trans _ _ _ _ _ A F1)|]. by intros [].
  - cbn. by rewrite (frame_val _ _ _ F1 version eq_refl).
  - cbn. by rewrite Hd1.
  - cbn. by rewrite (frame_val _ _ _ F1 legacy_speed eq_refl).
  - cbn. change MMC_MAX_BLOCK_LEN with 512. case_bools; lia.
  - cbn. change MMC_MAX_BLOCK_LEN with 512. case_bools; lia.
  - done.
Qed.

(** ** The bus of the card *)

(** The local buffers lie below the end of the address space and are nobody else's memory. *)
Context (Hstack : 0 <= stack /\ stack + 512 < 2 ^ 32) (Hfree : free stack 512).

Lemma wp_be32 a i Q w : (forall v, Q v w) -> wp (be32 a i) Q w.
Proof. intros HQ. unfold wp, be32, m_ld, mbind, M_bind. cbn. apply HQ. Qed.

Lemma wp_add_caps l p d c w x Q : st l p d c w -> (forall w', st l p (set_val d card_caps (Z.lor (val d card_caps) x)) c w' -> Q tt w') ->
  wp (add_caps p x) Q w.
Proof. intros H HQ. unfold add_caps. do 2 wstep. wstep. by apply HQ. Qed.

Lemma buffer_ok a n : 0 < n <= 64 -> n mod 4 = 0 -> (a = stack \/ a = stack + 64) -> transfer_ok (Data a MMC_DATA_READ 1 n).
Proof. intros Hn H4 Ha. split; [done|]. cbn [blocks blocksize buf]. rewrite Z.mul_1_l. split_and!; lia. Qed.

Lemma rca_range : 0 <= rca_of sd < 2 ^ 32.
Proof. apply u32_range. Qed.

Lemma wp_check_loop l p d : forall k c w Q, st l p d c w -> in_phase Tran c ->
  (forall c' w', st l p d c' w' -> in_phase Tran c' -> Q 0 w') -> wp (check_loop p k (stack + 64)) Q w.
Proof.
  induction k as [|k IH]; intros c w Q H Hc HQ; cbn [check_loop]; [wstep; by apply (HQ c)|].
  destruct (sd_switch_check c Hc) as (r & c1 & b & E & Es & Hlen & Hc1). unfold sd_switch. do 2 wstep.
  transfer E Es; [by apply buffer_ok; [lia|done|right]|cbn [blocks blocksize]; lia|]. wstep. go_on. wstep. apply wp_be32. intros v. cbn beta.
  destruct (Z.land v SD_HIGHSPEED_BUSY =? 0); [wstep; by apply (HQ c1)|]. by apply (IH c1).
Qed.

(** What [sd_get_capabilities] finds: one bit and the default speed, perhaps four bits and high speed. *)
Definition sd_caps (four hs : bool) : Z :=
  let c := Z.lor MMC_MODE_1BIT (MMC_CAP SD_LEGACY) in
  let c := if four then Z.lor c MMC_MODE_4BIT else c in if hs then Z.lor c (MMC_CAP SD_HS) else c.

Definition sd_versions : list Z := [SD_VERSION_1_0; SD_VERSION_1_10; SD_VERSION_2; SD_VERSION_3].
Lemma scr_version_in s : scr_version s ∈ sd_versions.
Proof.
  unfold scr_version, sd_versions. cbv zeta. rewrite list_elem_of_In. cbn [In].
  repeat match goal with |- context [if ?b then _ else _] => destruct b end; tauto.
Qed.

Lemma wp_get_capabilities l p d c w Q : st l p d c w -> in_phase Tran c -> val d rca = sd_rca sd -> length (sd_scr sd) = 8%nat ->
  (forall d' c' w' a b, st l p d' c' w' -> in_phase Tran c' -> frame [card_caps; version] d d' -> val d' card_caps = sd_caps a b ->
     val d' version ∈ sd_versions -> Q 0 w') -> wp (sd_get_capabilities stack p) Q w.
Proof.
  intros H Hc Hr Hscr HQ. unfold sd_get_capabilities. cbv zeta. do 4 wstep.
  assert (rca_arg (set_val d card_caps (Z.lor MMC_MODE_1BIT (MMC_CAP SD_LEGACY))) = rca_of sd) as -> by (unfold rca_arg, rca_of; cbn; by rewrite Hr).
  wstep. destruct (sd_app_tran c Hc) as (r1 & c1 & E1 & Hc1). command E1; [apply rca_range|].
  wstep. cbn [read_retry]. destruct (sd_send_scr c1 Hc1) as (r2 & c2 & E2 & Es2 & Hc2). wstep.
  transfer E2 Es2; [by apply buffer_ok; [lia|done|left]|cbn [blocks blocksize]; lia|]. wstep. go_on.
  wstep. apply wp_be32. intros s0. cbn beta. wstep. apply wp_be32. intros s1. cbn beta. do 4 wstep. wstep.
  set (d1 := set_val (set_scr _ _) version _) in *.
  assert (frame [card_caps; version] d d1) as F1 by (apply frame_set; [done|]; by eapply (frame_same _ d (set_val d card_caps _)); [apply frame_set|..]).
  assert (val d1 version ∈ sd_versions) as V1 by apply scr_version_in.
  assert (exists a, val (if negb (Z.land s0 SD_DATA_4BIT =? 0) then set_val d1 card_caps (Z.lor (val d1 card_caps) MMC_MODE_4BIT) else d1) card_caps = sd_caps a false) as [a Ha]
    by (destruct (Z.land s0 SD_DATA_4BIT =? 0); [by exists false|by exists true]).
  set (d2 := if negb (Z.land s0 SD_DATA_4BIT =? 0) then set_val d1 card_caps (Z.lor (val d1 card_caps) MMC_MODE_4BIT) else d1) in *.
  assert (frame [card_caps; version] d d2) as F2 by (subst d2; case_match; [by apply frame_set|done]).
  assert (val d2 version ∈ sd_versions) as V2 by (subst d2; by case_match).
  match type of H with st _ _ _ _ ?w => assert (wp (if negb (Z.land s0 SD_DATA_4BIT =? 0) then add_caps p MMC_MODE_4BIT else mret tt) (fun _ w' => st l p d2 c2 w') w) as K end.
  { subst d2. case_match; [apply (wp_add_caps _ _ _ _ _ _ _ H); by intros|by wstep]. }
  clear H. eapply mwp_mono; [exact K|]. clear K. intros [] w6 H. cbn beta. destruct (scr_version s0 =? SD_VERSION_1_0); [wstep; by apply (HQ d2 c2 w6 a false)|].
  wstep. apply (wp_check_loop _ _ _ _ _ _ _ H Hc2). clear H. intros c3 w7 H Hc3. go_on. wstep. apply wp_be32. intros s3. cbn beta. wstep.
  case_match.
  - apply (wp_add_caps _ _ _ _ _ _ _ H). clear H. intros w8 H. wstep. apply (HQ _ c3 w8 a true H Hc3); [by apply frame_set|cbn; by rewrite Ha|done].
  - wstep. wstep. by apply (HQ d2 c3 _ a false).
Qed.

Definition mode_fields : list field :=
  [bus_width; clock; clk_disable; selected_mode; tran_speed; ddr_mode; ssr_au; ssr_erase_timeout; ssr_erase_offset].

(** A frame inside a larger list of members. *)
Ltac widen F := eapply frame_sub; [exact F|by intros []].

Lemma wp_app_cmd l p d c w Q : st l p d c w -> in_phase Tran c -> val d rca = sd_rca sd ->
  (forall c' w' cmd, st l p d c' w' -> app Tran c' -> Q (0, cmd) w') -> wp (mmc_send_cmd p (new_cmd MMC_CMD_APP_CMD MMC_RSP_R1 (rca_arg d)) None) Q w.
Proof.
  intros H Hc Hr HQ. replace (rca_arg d) with (rca_of sd) by (unfold rca_arg, rca_of; by rewrite Hr).
  destruct (sd_app_tran c Hc) as (r1 & c1 & E1 & Hc1). command E1; [apply rca_range|]. by apply (HQ c1).
Qed.

Lemma wp_read_ssr l p d c w Q : st l p d c w -> in_phase Tran c -> val d rca = sd_rca sd ->
  (forall d' c' w', st l p d' c' w' -> in_phase Tran c' -> frame [ssr_au; ssr_erase_timeout; ssr_erase_offset] d d' -> Q 0 w') -> wp (sd_read_ssr stack p) Q w.
Proof.
  intros H Hc Hr HQ. unfold sd_read_ssr. cbv zeta. do 2 wstep. wstep. apply (wp_app_cmd _ _ _ _ _ _ H Hc Hr). clear H. intros c1 w1 cmd H Hc1. cbn beta iota. go_on.
  wstep. cbn [read_retry]. destruct (sd_status c1 Hc1) as (r2 & c2 & b & E2 & Es2 & Hlen & Hc2). wstep.
  transfer E2 Es2; [by apply buffer_ok; [lia|done|left]|cbn [blocks blocksize]; lia|]. wstep. go_on.
  wstep. apply wp_be32. intros s2. cbn beta. wstep. apply wp_be32. intros s3. cbn beta. do 2 wstep.
  case_match; [|wstep; by apply (HQ d c2 _ H Hc2)]. wstep. wstep. case_match.
  - repeat wstep. apply (HQ _ c2 _ H Hc2). framed.
  - repeat wstep. apply (HQ _ c2 _ H Hc2). framed.
Qed.

Lemma switched_speed m l : length l = 64%nat -> Z.land (nth 16 l 0) 0xF = 0 -> Forall (fun b => 0 <= b < 256) l ->
  mem_eq m (wr m stack l) -> forall Q w, ram w = m -> (forall v, Z.land (Z.shiftr v 24) 0xF = 0 -> Q v w) -> wp (be32 stack 4) Q w.
Proof.
  intros Hlen H16 Hb Hm Q w Hw HQ. unfold wp, be32, m_ld, mbind, M_bind. apply HQ. rewrite Hw.
  assert (ld m (stack + 4 * 4) = nth 16 l 0) as ->.
  { rewrite Hm, ld_wr, Hlen. replace ((stack <=? stack + 4 * 4) && (stack + 4 * 4 <? stack + Z.of_nat 64)) with true by lia.
    replace (Z.to_nat (stack + 4 * 4 - stack)) with 16%nat by lia. apply u8_small. rewrite Forall_forall in Hb. apply Hb, nth_In. lia. }
  pose proof (ld_range m (stack + 4 * 4 + 1)). pose proof (ld_range m (stack + 4 * 4 + 2)). pose proof (ld_range m (stack + 4 * 4 + 3)).
  rewrite Z.shiftr_div_pow2 by lia. replace (_ / 2 ^ 24) with (nth 16 l 0); [done|]. apply (Z.div_unique _ _ _ (ld m (stack + 4 * 4 + 3) + 2 ^ 8 * (ld m (stack + 4 * 4 + 2) + 2 ^ 8 * ld m (stack + 4 * 4 + 1)))); lia.
Qed.

Lemma wr_twice m m' a l : mem_eq m' (wr m a l) -> mem_eq m' (wr m' a l).
Proof. intros E x. rewrite ld_wr. case_match eqn:Hx; [|done]. by rewrite E, ld_wr, Hx. Qed.

Lemma wp_default_speed l p d c w Q : st l p d c w -> in_phase Tran c ->
  (forall c' w', st l p d c' w' -> in_phase Tran c' -> Q 0 w') -> wp (sd_set_card_speed stack p SD_LEGACY) Q w.
Proof.
  intros H Hc HQ. unfold sd_set_card_speed. change (SD_LEGACY =? SD_LEGACY) with true. cbn beta iota zeta.
  destruct (sd_switch_default c Hc) as (r & c1 & b & E & Es & Hlen & H16 & Hb & Hc1). unfold sd_switch. do 2 wstep.
  transfer E Es; [by apply buffer_ok; [lia|done|left]|cbn [blocks blocksize]; lia|]. wstep. go_on. wstep.
  apply (switched_speed (ram w0) b Hlen H16 Hb (wr_twice _ _ _ _ Hm) _ _ eq_refl). intros v Hv. cbn beta. rewrite Hv. wstep. by apply (HQ c1).
Qed.

Lemma wp_try_legacy l p d c w Q : st l p d c w -> in_phase Tran c -> val d rca = sd_rca sd -> clock_ok d -> host_ok (cfg d) ->
  0 <= val d legacy_speed < 2 ^ 32 ->
  (forall d' c' w', st l p d' c' w' -> in_phase Tran c' -> frame mode_fields d d' -> val d' ddr_mode = 0 -> clock_ok d' -> Q 0 w') ->
  wp (sd_try_mode stack p SD_LEGACY MMC_MODE_1BIT) Q w.
Proof.
  intros H Hc Hr Hck Hg Hls HQ. unfold sd_try_mode. change (width_of MMC_MODE_1BIT) with 1. wstep. unfold sd_select_bus_width.
  change (negb (1 =? 4) && negb (1 =? 1)) with false. cbn iota. wstep. wstep. wstep. apply (wp_app_cmd _ _ _ _ _ _ H Hc Hr). clear H Hc. intros c1 w1 cmd H Hc. cbn beta iota. go_on.
  wstep. destruct (sd_bus_width_1 c1 Hc) as (r2 & c2 & E2 & Hc2). command E2; [small|]. wstep. go_on. wstep.
  apply (wp_set_bus_width _ _ _ _ _ _ _ H Hck (hc_ok _ Hg)). clear H. intros d1 w2 H F1 Hck1. cbn beta. wstep.
  apply (wp_default_speed _ _ _ _ _ _ H Hc2). clear H. intros c3 w3 H Hc3. go_on. wstep.
  apply (wp_select_mode _ _ _ _ _ _ _ H); [by rewrite (frame_val _ _ _ F1 legacy_speed eq_refl)|]. clear H. intros d2 w4 H F2 Hd2 Ht2. cbn beta. do 2 wstep. wstep.
  pose proof (frame_cfg _ _ _ F1) as G1. pose proof (frame_cfg _ _ _ F2) as G2.
  apply (wp_set_clock _ _ _ _ _ _ _ _ H Ht2); [by rewrite G2, G1|]. clear H. intros d3 w5 H F3 Hck3. cbn beta.
  pose proof (frame_trans _ _ _ _ _ (frame_trans _ _ _ _ _ F1 F2) F3) as F.
  apply (wp_read_ssr _ _ _ _ _ _ H Hc3); [by rewrite (frame_val _ _ _ F rca eq_refl)|]. clear H. intros d4 c4 w6 H Hc4 F4. apply (HQ d4 c4 w6 H Hc4).
  - widen (frame_trans _ _ _ _ _ F F4).
  - by rewrite (frame_val _ _ _ F4 ddr_mode eq_refl), (frame_val _ _ _ F3 ddr_mode eq_refl), Hd2.
  - unfold clock_ok. by rewrite (frame_val _ _ _ F4 clock eq_refl).
Qed.

(** [host_caps] of a host without capabilities. *)
Definition plain_caps : Z := Z.lor (Z.lor (Z.lor 0 (MMC_CAP SD_LEGACY)) (MMC_CAP MMC_LEGACY)) MMC_MODE_1BIT.

Lemma wp_select_mode_and_width l p d c w a b Q : st l p d c w -> in_phase Tran c -> val d rca = sd_rca sd -> clock_ok d -> host_ok (cfg d) ->
  0 <= val d legacy_speed < 2 ^ 32 -> val d host_caps = plain_caps ->
  (forall d' c' w', st l p d' c' w' -> in_phase Tran c' -> frame mode_fields d d' -> val d' ddr_mode = 0 -> clock_ok d' -> Q 0 w') ->
  wp (sd_select_mode_and_width stack p (sd_caps a b)) Q w.
Proof.
  intros H Hc Hr Hck Hg Hls Hh HQ. unfold sd_select_mode_and_width. do 2 wstep. rewrite Hh.
  replace (sd_candidates _) with [(SD_LEGACY, MMC_MODE_1BIT)] by (by destruct a, b). cbn [sd_try_all]. wstep.
  apply (wp_try_legacy _ _ _ _ _ _ H Hc Hr Hck Hg Hls). clear H. intros d1 c1 w1 H Hc1 F1 Hd1 Hck1. go_on. wstep. by apply (HQ d1 c1 w1).
Qed.

(** ** Start-up *)

Lemma wp_all_send_cid l p d c w Q : st l p d c w -> in_phase Ready c ->
  (forall d' c' w' cmd, st l p d' c' w' -> in_phase Ident c' -> frame [rca] d d' -> Q (0, cmd) w') ->
  wp (mmc_send_cmd p (new_cmd MMC_CMD_ALL_SEND_CID MMC_RSP_R2 0) None) Q w.
Proof.
  intros H Hc HQ. destruct (sd_all_send_cid c Hc) as (c1 & E & Hc1).
  destruct (works_cmd p (new_cmd MMC_CMD_ALL_SEND_CID MMC_RSP_R2 0) w d c _ c1 (st_lookup _ _ _ _ _ H) (st_link _ _ _ _ _ H) eq_refl ltac:(small) ltac:(small) E) as (d' & h & E' & Hl & F & _).
  eapply wp_of_run; [exact E'|]. eapply (HQ d' c1); [|done|done]. destruct H as [Ed Hp _ Hk]. split; [|done|done|done]. cbn. by rewrite Ed, list_insert_insert_eq.
Qed.

(** The device between the operating conditions and the start-up. *)
Record identified (d : mmc) : Prop := {
  i_version : val d version = SD_VERSION_2;
  i_hc : val d high_capacity = Z.b2z (sd_hc sd);
  i_clock : clock_ok d;
  i_host : host_ok (cfg d);
  i_caps : val d host_caps = plain_caps;
  i_dsr : val d dsr = 0xffffffff;
  i_hwpart : val d bd_hwpart = 0;
  i_type : val d bd_if_type = IF_TYPE_MMC
}.

(** What the reading of the partition table may do: read blocks, and set the type of the table. *)
Context (part_init_ok : forall l p d c w Q, st l p d c w -> registered l p d -> in_phase Tran c -> started sd d ->
  (forall d' c' w', st l p d' c' w' -> in_phase Tran c' -> frame [bd_part_type] d d' -> Q tt w') -> wp (part_init p) Q w).
Context (Hsized : sd_sized sd) (Hcsd : csd_ok) (Hscr : length (sd_scr sd) = 8%nat).

Lemma find_same d d' num : val d' bd_devnum = val d bd_devnum -> forall l p n, find_loop (<[p:=d']> l) n num = find_loop (<[p:=d]> l) n num.
Proof. intros E. induction l as [|x l IH]; intros [|p] n; cbn; rewrite ?E; auto. by case_match; [|apply IH]. Qed.

Lemma registered_frame fs l p d d' : frame fs d d' -> existsb (field_beq bd_devnum) fs = false -> registered l p d -> registered l p d'.
Proof.
  intros F Hn Hr. pose proof (frame_val _ _ _ F bd_devnum Hn) as E. unfold registered. by rewrite E, (find_same d d' _ E).
Qed.

Lemma wp_set_capacity l p d c w Q : st l p d c w -> val d capacity_user = sd_blocks sd * 512 -> val d read_bl_len = 512 ->
  (forall d' w', st l p d' c w' -> frame [capacity; bd_lba] d d' -> val d' capacity = sd_blocks sd * 512 -> Q 0 w') -> wp (mmc_set_capacity p 0) Q w.
Proof.
  intros H Hu Hl HQ. unfold mmc_set_capacity. do 2 wstep. change (0 =? 0) with true. cbn iota. repeat wstep. apply (HQ _ _ H); [framed|done].
Qed.

Definition describe_fields : list field := [bd_lun; bd_hwpart; bd_type; bd_blksz; bd_log2blksz; bd_lba].

Lemma wp_describe l p d c w Q : st l p d c w -> val d capacity = sd_blocks sd * 512 -> val d read_bl_len = 512 ->
  (forall d' w', st l p d' c w' -> frame describe_fields d d' -> val d' bd_lba = sd_blocks sd -> val d' bd_blksz = 512 -> val d' bd_log2blksz = 9 ->
     val d' bd_hwpart = 0 -> Q tt w') -> wp (describe p) Q w.
Proof.
  intros H Hcap Hl HQ. unfold describe. repeat wstep. apply (HQ _ _ H).
  - eapply (frame_same _ d (set_val _ bd_lba _)); [|done|done]. framed.
  - cbn. rewrite Hcap, Hl, Z.div_mul by lia. apply u32_small, Hsized.
  - cbn. by rewrite Hl.
  - cbn. by rewrite Hl.
  - done.
Qed.

(** The members that [mmc_startup] writes. *)
Definition startup_fields : list field :=
  [rca; erase_grp_size; part_config; capacity; card_caps; best_mode; bd_part_type] ++ csd_fields ++ mode_fields ++ describe_fields.

Lemma wp_identify l p d c w Q : st l p d c w -> in_phase Ready c -> identified d ->
  (forall d' c' w', st l p d' c' w' -> in_phase Tran c' -> frame (rca :: csd_fields) d d' -> val d' rca = sd_rca sd -> val d' version = SD_VERSION_2 ->
     val d' ddr_mode = 0 -> 0 <= val d' legacy_speed < 2 ^ 32 -> val d' read_bl_len = 512 -> val d' write_bl_len = 512 -> val d' capacity_user = sd_blocks sd * 512 -> Q 0 w') ->
  wp (identify_card p) Q w.
Proof.
  intros H Hc [Hv Hh _ _ _ Hdsr _ _] HQ. unfold identify_card. wstep. apply (wp_all_send_cid _ _ _ _ _ _ H Hc). clear H Hc. intros d1 c1 w1 cmd H Hc F1. cbn beta iota.
  do 2 wstep. go_on. wstep. wstep. go_on. wstep. wstep. wstep. wstep. wstep.
  destruct (sd_relative_addr c1 (rca_arg (set_cid d1 (response cmd))) Hc (u32_range _)) as (r & c2 & E & Hc2 & Hr). command E; [apply u32_range|].
  wstep. wstep. first_word r. rewrite Hr.
  assert (val d1 version = SD_VERSION_2) as Hv1 by (by rewrite (frame_val _ _ _ F1 version eq_refl)).
  assert (IS_SD (set_cid d1 (response cmd)) = true) as -> by (unfold IS_SD; cbn [set_cid val]; by rewrite Hv1). wstep. wstep. wstep. wstep.
  set (d2 := set_val (set_cid d1 (response cmd)) rca (sd_rca sd)) in *.
  assert (frame (rca :: csd_fields) d d2) as F2 by (apply frame_set; [done|]; eapply (frame_same _ d d1); [widen F1|done|done]).
  wstep. destruct (sd_send_csd c2 Hc2) as (c3 & E3 & Hc3).
  change (rca_arg d2) with (rca_of sd). command E3; [apply rca_range|]. wstep.
  apply (wp_read_csd _ _ _ _ _ _ H Hv1); [by rewrite (frame_val _ _ _ F2 high_capacity eq_refl)|done|]. clear H. intros d3 w7 H F3 Hv3 Hd3 Hl3 Hb3 Hwb3 Hu3. cbn beta.
  pose proof (frame_trans _ _ _ _ _ F2 F3) as F. do 2 wstep. rewrite (frame_val _ _ _ F dsr eq_refl), Hdsr. rewrite andb_false_r. wstep. wstep. wstep. wstep.
  assert (val d3 rca = sd_rca sd) as Hr3 by (by rewrite (frame_val _ _ _ F3 rca eq_refl)).
  replace (rca_arg d3) with (rca_of sd) by (unfold rca_arg, rca_of; by rewrite Hr3).
  destruct (sd_select c3 Hc3) as (r4 & c4 & E4 & Hc4). wstep. command E4; [apply rca_range|]. wstep. apply (HQ d3 c4 _ H Hc4); [widen F|done..].
Qed.

Lemma wp_startup l p d c w Q : st l p d c w -> in_phase Ready c -> identified d -> registered l p d ->
  (forall d' c' w', st l p d' c' w' -> in_phase Tran c' -> frame startup_fields d d' -> started sd d' -> val d' bd_blksz = 512 -> val d' bd_log2blksz = 9 ->
     clock_ok d' -> 0 <= val d' legacy_speed < 2 ^ 32 -> val d' bd_hwpart = 0 -> Q 0 w') ->
  wp (mmc_startup malloc part_init stack p) Q w.
Proof.
  intros H Hc Hid Hreg HQ. pose proof Hid as [Hv Hh Hck Hg Hhc Hdsr Hhw Hty]. unfold mmc_startup. wstep.
  apply (wp_identify _ _ _ _ _ _ H Hc Hid). clear H Hc. intros d1 c1 w1 H Hc F1 Hr1 Hv1 Hd1 Hl1 Hb1 Hwb1 Hu1. go_on. do 4 wstep. wstep.
  set (d2 := set_val (set_val d1 erase_grp_size 1) part_config MMCPART_NOAVAILABLE) in *.
  assert (frame [erase_grp_size; part_config] d1 d2) as F2 by framed. pose proof (frame_trans _ _ _ _ _ F1 F2) as F12.
  assert (IS_SD d2 = true) as HSD by (unfold IS_SD; rewrite (frame_val _ _ _ F2 version eq_refl), Hv1; done).
  unfold mmc_startup_v4. wstep. wstep. rewrite HSD. cbn [orb]. wstep. go_on. wstep. wstep. rewrite (frame_val _ _ _ F12 bd_hwpart eq_refl), Hhw. wstep.
  apply (wp_set_capacity _ _ _ _ _ _ H); [by rewrite (frame_val _ _ _ F2 capacity_user eq_refl)|by rewrite (frame_val _ _ _ F2 read_bl_len eq_refl)|].
  clear H. intros d3 w4 H F3 Hcap3. go_on. wstep. wstep. pose proof (frame_trans _ _ _ _ _ F12 F3) as F123.
  assert (IS_SD d3 = true) as -> by (unfold IS_SD in *; by rewrite (frame_val _ _ _ F3 version eq_refl)).
  assert (val d3 rca = sd_rca sd) as Hr3 by (by rewrite (frame_val _ _ _ F3 rca eq_refl), (frame_val _ _ _ F2 rca eq_refl)).
  wstep. wstep. apply (wp_get_capabilities _ _ _ _ _ _ H Hc Hr3 Hscr). clear H Hc. intros d4 c4 w5 a b H Hc F4 Hcaps _. go_on. wstep. wstep. rewrite Hcaps.
  pose proof (frame_trans _ _ _ _ _ F123 F4) as F14.
  apply (wp_select_mode_and_width _ _ _ _ _ a b _ H Hc).
  1: by rewrite (frame_val _ _ _ F4 rca eq_refl).
  1: unfold clock_ok; by rewrite (frame_val _ _ _ F14 clock eq_refl).
  1: by rewrite (frame_cfg _ _ _ F14).
  1: by rewrite (frame_val _ _ _ F4 legacy_speed eq_refl), (frame_val _ _ _ F3 legacy_speed eq_refl), (frame_val _ _ _ F2 legacy_speed eq_refl).
  1: by rewrite (frame_val _ _ _ F14 host_caps eq_refl).
  clear H Hc. intros d5 c5 w6 H Hc F5 Hd5 Hck5. go_on. do 4 wstep. rewrite Hd5. change (negb (0 =? 0)) with false. cbn iota. wstep. wstep. wstep.
  set (d6 := set_val d5 best_mode (val d5 selected_mode)) in *. assert (frame [best_mode] d5 d6) as F6 by framed.
  pose proof (frame_trans _ _ _ _ _ (frame_trans _ _ _ _ _ F4 F5) F6) as F46.
  assert (val d6 read_bl_len = 512) as Hb6
    by (by rewrite (frame_val _ _ _ F46 read_bl_len eq_refl), (frame_val _ _ _ F3 read_bl_len eq_refl), (frame_val _ _ _ F2 read_bl_len eq_refl)).
  apply (wp_describe _ _ _ _ _ _ H); [by rewrite (frame_val _ _ _ F46 capacity eq_refl)|done|]. clear H. intros d7 w8 H F7 Hlba7 Hbs7 Hlog7 Hhw7. cbn beta. wstep.
  pose proof (frame_trans _ _ _ _ _ F123 (frame_trans _ _ _ _ _ F46 F7)) as F.
  pose proof (frame_trans _ _ _ _ _ (frame_trans _ _ _ _ _ F2 F3) (frame_trans _ _ _ _ _ F46 F7)) as F27.
  assert (started sd d7) as Hs7.
  { split; [by rewrite (frame_val _ _ _ F7 read_bl_len eq_refl)|by rewrite (frame_val _ _ _ F27 write_bl_len eq_refl)|by rewrite (frame_val _ _ _ F27 rca eq_refl)|by rewrite (frame_val _ _ _ F high_capacity eq_refl)|by rewrite (frame_val _ _ _ F7 ddr_mode eq_refl)|
      done|by rewrite (frame_val _ _ _ F bd_if_type eq_refl)|rewrite (frame_cfg _ _ _ F); apply Hg]. }
  apply (part_init_ok _ _ _ _ _ _ H); [|done|done|].
  { by apply (registered_frame _ _ _ _ _ F). }
  clear H Hc. intros d8 c8 w9 H Hc F8. cbn beta. wstep. apply (HQ d8 c8 w9 H Hc).
  - widen (frame_trans _ _ _ _ _ F F8).
  - destruct Hs7 as [A1 A7 A8 A2 A3 A4 A5 A6]. split; [by rewrite (frame_val _ _ _ F8 read_bl_len eq_refl)|by rewrite (frame_val _ _ _ F8 write_bl_len eq_refl)|by rewrite (frame_val _ _ _ F8 rca eq_refl)|by rewrite (frame_val _ _ _ F8 high_capacity eq_refl)|
      by rewrite (frame_val _ _ _ F8 ddr_mode eq_refl)|by rewrite (frame_val _ _ _ F8 bd_lba eq_refl)|by rewrite (frame_val _ _ _ F8 bd_if_type eq_refl)|
      by rewrite (frame_cfg _ _ _ F8)].
  - by rewrite (frame_val _ _ _ F8 bd_blksz eq_refl).
  - by rewrite (frame_val _ _ _ F8 bd_log2blksz eq_refl).
  - unfold clock_ok. by rewrite (frame_val _ _ _ F8 clock eq_refl), (frame_val _ _ _ F7 clock eq_refl), (frame_val _ _ _ F6 clock eq_refl).
  - by rewrite (frame_val _ _ _ F8 legacy_speed eq_refl), (frame_val _ _ _ F27 legacy_speed eq_refl).
  - by rewrite (frame_val _ _ _ F8 bd_hwpart eq_refl).
Qed.

(** ** The whole start *)

Definition init_fields : list field := [host_caps; init_in_progress; has_init] ++ op_cond_fields ++ startup_fields.

Lemma wp_start_init l p d c w Q : st l p d c w -> plugged c -> untouched d -> host_init <> None -> getcd = None ->
  (forall d' c' w', st l p d' c' w' -> in_phase Ready c' -> identified d' -> val d' op_cond_pending = 0 -> frame init_fields d d' -> Q 0 w') ->
  wp (mmc_start_init p) Q w.
Proof.
  intros H Hpl [Hi Hip Hop Hdsr Hty Hl Hck Hg] Hinit Hcd HQ. unfold mmc_start_init. do 4 wstep. rewrite (hc_caps _ Hg) in H. fold plain_caps in H.
  set (d1 := set_val d host_caps plain_caps) in *. wstep. unfold mmc_getcd. rewrite Hcd. wstep. change (1 =? 0) with false. cbn [orb].
  destruct host_init as [f|] eqn:Ei; [|done]. wstep.
  apply (wp_get_op_cond _ _ _ _ _ _ H Hpl); [done|by rewrite Ei|]. clear H. intros d2 c2 w2 H Hc F2 Hck2 Hd2 Hh2 Hv2 Hhw2. go_on. wstep. wstep. wstep.
  set (d3 := set_val d2 init_in_progress 1) in *.
  assert (frame init_fields d d3) as F3.
  { apply frame_set; [done|]. eapply (frame_sub ([host_caps] ++ op_cond_fields)); [|by intros []]. eapply frame_trans; [|exact F2]. framed. }
  apply (HQ d3 c2 _ H Hc).
  - split; [done|done|done|cbn; by rewrite (frame_cfg _ _ _ F2)|cbn; by rewrite (frame_val _ _ _ F2 host_caps eq_refl)|cbn; by rewrite (frame_val _ _ _ F2 dsr eq_refl)|done|
      cbn; by rewrite (frame_val _ _ _ F2 bd_if_type eq_refl)].
  - cbn. by rewrite (frame_val _ _ _ F2 op_cond_pending eq_refl).
  - done.
Qed.

Lemma started_frame fs d d' : frame fs d d' -> existsb (fun g => existsb (field_beq g) fs) [read_bl_len; write_bl_len; rca; high_capacity; ddr_mode; bd_lba; bd_if_type] = false ->
  started sd d -> started sd d'.
Proof.
  intros F Hn [A1 A7 A8 A2 A3 A4 A5 A6]. cbn [existsb] in Hn. repeat (apply orb_false_iff in Hn as [? Hn]).
  split; [rewrite (frame_val _ _ _ F read_bl_len)|rewrite (frame_val _ _ _ F write_bl_len)|rewrite (frame_val _ _ _ F rca)|rewrite (frame_val _ _ _ F high_capacity)|rewrite (frame_val _ _ _ F ddr_mode)|rewrite (frame_val _ _ _ F bd_lba)|
    rewrite (frame_val _ _ _ F bd_if_type)|rewrite (frame_cfg _ _ _ F)]; done.
Qed.

(** The device has the number and the configuration it was registered with. *)
Definition numbered (l : list mmc) (p : nat) (d : mmc) : Prop := (fun d0 => (val d0 bd_devnum, cfg d0)) <$> l !! p = Some (val d bd_devnum, cfg d).

(** A device that is ready for use, with the card [c] in the transfer state. *)
Record online (l : list mmc) (p : nat) (d : mmc) (c : card) (w : world) : Prop := {
  on_st : st l p d c w;
  on_phase : in_phase Tran c;
  on_started : started sd d;
  on_init : val d has_init = 1;
  on_blksz : val d bd_blksz = 512 /\ val d bd_log2blksz = 9;
  on_registered : registered l p d;
  on_again : untouched (set_val d has_init 0);
  on_number : numbered l p d;
  on_hwpart : val d bd_hwpart = 0
}.

Lemma wp_mmc_init fuel l p d c w Q : st l p d c w -> plugged c -> untouched d -> registered l p d -> numbered l p d -> host_init <> None -> getcd = None ->
  (forall d' c' w', online l p d' c' w' -> Q 0 w') -> wp (mmc_init malloc part_init stack fuel p) Q w.
Proof.
  intros H Hpl Hu Hreg Hnum Hinit Hcd HQ. unfold mmc_init. do 2 wstep. rewrite (u_init _ Hu), (u_progress _ Hu). change (0 =? 0) with true. cbn [negb]. cbn iota. wstep. wstep. wstep.
  apply (wp_start_init _ _ _ _ _ _ H Hpl Hu Hinit Hcd). clear H. intros d1 c1 w1 H Hc Hid Hop F1. go_on. unfold mmc_complete_init. do 4 wstep. cbn [val set_val field_beq]. rewrite Hop.
  change (negb (0 =? 0)) with false. cbn iota. wstep. wstep. wstep. change (0 =? 0) with true. cbn iota.
  assert (registered l p (set_val d1 init_in_progress 0)) as Hreg1 by (apply (registered_frame init_fields l p d); [by apply frame_set|done|done]).
  assert (identified (set_val d1 init_in_progress 0)) as Hid1 by (by destruct Hid; split).
  apply (wp_startup _ _ _ _ _ _ H Hc Hid1 Hreg1). clear H Hc. intros d2 c2 wz H Hc F2 Hs Hbs Hlog Hck2 Hls2 Hhw2. change (negb (0 =? 0)) with false. cbn iota. do 2 wstep. wstep.
  apply (HQ (set_val d2 has_init 1) c2). assert (frame [has_init] d2 (set_val d2 has_init 1)) as F3 by framed. split; [done|done| |done|done| | | |done].
  - by apply (started_frame _ _ _ F3).
  - apply (registered_frame _ _ _ _ _ (frame_trans _ _ _ _ _ F2 F3)); done.
  - split; try done; cbn.
    + by rewrite (frame_val _ _ _ F2 init_in_progress eq_refl).
    + by rewrite (frame_val _ _ _ F2 op_cond_pending eq_refl).
    + rewrite (frame_val _ _ _ F2 dsr eq_refl). apply Hid.
    + rewrite (frame_val _ _ _ F2 bd_if_type eq_refl). apply Hid.
    + rewrite (frame_cfg _ _ _ F2). apply Hid.
  - unfold numbered in *. rewrite Hnum. do 2 f_equal; cbn.
    + rewrite (frame_val _ _ _ F2 bd_devnum eq_refl). cbn. by rewrite (frame_val _ _ _ F1 bd_devnum eq_refl).
    + rewrite (frame_cfg _ _ _ F2). cbn. by rewrite (frame_cfg _ _ _ F1).
Qed.

End Init.

Lemma online_watch {PF : Platform} {HO : MmcHost} {CA : Card} {WO : Works} (WA WB : Watch) (sd : sd_info) {SC : SdCard sd} l p d c w :
  online (WA := WA) sd l p d c w -> (forall x, watched (Watch := WB) x -> ld (ram w) x = ld (before (Watch := WB)) x) -> online (WA := WB) sd l p d c w.
Proof. intros [H ? ? ? ? ? ? ? ?] Hk. split; [by apply (st_watch WA WB _ _ _ _ _ H)|done..]. Qed.
End SdInit.
