(* ===== verification/Emmc.v ===== *)
(** * Emmc: the partitions of an eMMC

    [mmc_hwpart_config] of U-Boot's drivers/mmc/mmc.c divides an eMMC into a user area and up to four general purpose
    partitions by writing bytes of its EXT_CSD register; the next start of the card reads them back ([mmc_startup_v4] of
    Mmc.v).  [EmmcCard] is what the eMMC specification says about the commands used; a card that follows it is divided
    as the configuration says, or not at all. *)

From stdpp Require Import base list option.
From Stdlib Require Import ZifyBool.
From S2P Require Import Prelude Cmem MmcTypes Mmc SdCard SdInit.
Import MmcTypes Mmc SdCard SdInit.

Module Emmc.

(** ** The code *)

Section Code.
Context {PF : Platform} {HO : MmcHost} (stack : Z).

(** The general purpose partitions: the multipliers, the attributes and the enhanced size so far; [None] for a size
    that is not a multiple of the group. *)
Fixpoint gp_loop (l : list gp_conf) (pidx grp part_attrs tot : Z) : option (list Z * Z * Z) :=
  match l with
  | [] => Some ([], part_attrs, tot)
  | g :: l =>
    if negb (g_size g mod grp =? 0) then None else
    let mult := g_size g / grp in
    let enh := negb (g_size g =? 0) && g_enhanced g in
    '(mults, part_attrs, tot) ← gp_loop l (pidx + 1) grp (if enh then Z.lor part_attrs (EXT_CSD_ENH_GP pidx) else part_attrs)
                                  (if enh then u32 (tot + mult) else tot);
    Some (mult :: mults, part_attrs, tot)
  end.

Definition rel_bit (change set_ : bool) (bit v : Z) : Z := if change then if set_ then Z.lor v bit else Z.land v (Z.lnot bit) else v.
Fixpoint rel_loop (l : list gp_conf) (pidx v : Z) : Z :=
  match l with
  | [] => v
  | g :: l => rel_loop l (pidx + 1) (rel_bit (g_wr_rel_change g) (g_wr_rel_set g) (EXT_CSD_WR_DATA_REL_GP pidx) v)
  end.

(** [for (i = 0; i < n; i++)] over the bytes of [v] *)
Fixpoint switch_bytes (p : nat) (index v i : Z) (n : nat) : M Z :=
  match n with
  | O => mret 0
  | S n =>
    err ← mmc_switch p EXT_CSD_CMD_SET_NORMAL (index + i) (Z.land (Z.shiftr v (i * 8)) 0xFF);
    try_ err (switch_bytes p index v (i + 1) n)
  end.
Fixpoint switch_gp (p : nat) (mults : list Z) (pidx : Z) : M Z :=
  match mults with
  | [] => mret 0
  | m :: mults => err ← switch_bytes p (EXT_CSD_GP_SIZE_MULT + pidx * 3) m 0 3; try_ err (switch_gp p mults (pidx + 1))
  end.

(** The writing part of [mmc_hwpart_config], from its end: the completion, the areas, the definition of the groups. *)
Definition finish_config (p : nat) (mode : mmc_hwpart_conf_mode) (e : list Z) (wr_rel : Z) : M Z :=
  match mode with
  | MMC_HWPART_CONF_COMPLETE =>
    err ← (if negb (wr_rel =? at_ e EXT_CSD_WR_REL_SET) then mmc_switch p EXT_CSD_CMD_SET_NORMAL EXT_CSD_WR_REL_SET wr_rel else mret 0);
    try_ err (mmc_switch p EXT_CSD_CMD_SET_NORMAL EXT_CSD_PARTITION_SETTING EXT_CSD_PARTITION_SETTING_COMPLETED)
  | _ => mret 0
  end.
Definition write_areas (p : nat) (mode : mmc_hwpart_conf_mode) (e mults : list Z) (enh_start_addr enh_size_mult part_attrs wr_rel : Z) : M Z :=
  err ← switch_bytes p EXT_CSD_ENH_START_ADDR enh_start_addr 0 4;
  try_ err (
  err ← switch_bytes p EXT_CSD_ENH_SIZE_MULT enh_size_mult 0 3;
  try_ err (
  err ← switch_gp p mults 0;
  try_ err (
  err ← mmc_switch p EXT_CSD_CMD_SET_NORMAL EXT_CSD_PARTITIONS_ATTRIBUTE part_attrs;
  try_ err (finish_config p mode e wr_rel)))).
Definition write_config (p : nat) (mode : mmc_hwpart_conf_mode) (e mults : list Z) (enh_start_addr enh_size_mult part_attrs wr_rel : Z) : M Z :=
  err ← (if Z.land (at_ e EXT_CSD_ERASE_GROUP_DEF) 1 =? 0 then
           err ← mmc_switch p EXT_CSD_CMD_SET_NORMAL EXT_CSD_ERASE_GROUP_DEF 1;
           try_ err (set p erase_grp_size (at_ e EXT_CSD_HC_ERASE_GRP_SIZE * 1024);; mret 0)
         else mret 0);
  try_ err (write_areas p mode e mults enh_start_addr enh_size_mult part_attrs wr_rel).

Definition max_enh_size_mult (e : list Z) : Z :=
  Z.shiftl (at_ e (EXT_CSD_MAX_ENH_SIZE_MULT + 2)) 16 + Z.shiftl (at_ e (EXT_CSD_MAX_ENH_SIZE_MULT + 1)) 8 + at_ e EXT_CSD_MAX_ENH_SIZE_MULT.

(** [mmc_hwpart_config] from the reading of the register on. *)
Definition apply_config (p : nat) (conf : mmc_hwpart_conf) (mode : mmc_hwpart_conf_mode) (mults : list Z) (enh_start_addr enh_size_mult part_attrs tot : Z) : M Z :=
  err ← mmc_send_ext_csd p stack;
  try_ err (
  e ← csd_bytes stack;
  if max_enh_size_mult e <? tot then mret (- EMEDIUMTYPE) else
  let old := at_ e EXT_CSD_WR_REL_SET in
  let wr_rel := rel_loop (gp_part conf) 0 (rel_bit (u_wr_rel_change (conf_user conf)) (u_wr_rel_set (conf_user conf)) EXT_CSD_WR_DATA_REL_USR old) in
  if negb (wr_rel =? old) && (Z.land (at_ e EXT_CSD_WR_REL_PARAM) EXT_CSD_HS_CTRL_REL =? 0) then mret (- EMEDIUMTYPE) else
  if negb (Z.land (at_ e EXT_CSD_PARTITION_SETTING) EXT_CSD_PARTITION_SETTING_COMPLETED =? 0) then mret (- EPERM) else
  match mode with
  | MMC_HWPART_CONF_CHECK => mret 0
  | _ => write_config p mode e mults enh_start_addr enh_size_mult part_attrs wr_rel
  end).

Definition mmc_hwpart_config (p : nat) (conf : mmc_hwpart_conf) (mode : mmc_hwpart_conf_mode) : M Z :=
  d ← dev p;
  let grp := val d hc_wp_grp_size in let user := conf_user conf in
  if IS_SD d || (val d version <? MMC_VERSION_4_41) then mret (- EMEDIUMTYPE) else
  if Z.land (val d part_support) PART_SUPPORT =? 0 then mret (- EMEDIUMTYPE) else
  if grp =? 0 then mret (- EMEDIUMTYPE) else
  let enh := negb (u_enh_size user =? 0) in
  if enh && (negb (u_enh_size user mod grp =? 0) || negb (u_enh_start user mod grp =? 0)) then mret (- EINVAL) else
  let enh_size_mult := if enh then u_enh_size user / grp else 0 in
  let enh_start_addr := if enh then if negb (val d high_capacity =? 0) then u_enh_start user else u32 (Z.shiftl (u_enh_start user) 9) else 0 in
  match gp_loop (gp_part conf) 0 grp (if enh then EXT_CSD_ENH_USR else 0) enh_size_mult with
  | None => mret (- EINVAL)
  | Some (mults, part_attrs, tot) =>
    if negb (part_attrs =? 0) && (Z.land (val d part_support) ENHNCD_SUPPORT =? 0) then mret (- EMEDIUMTYPE) else
    apply_config p conf mode mults enh_start_addr enh_size_mult part_attrs tot
  end.

End Code.

(** ** eMMC cards *)

Section Card.
Context {CA : Card}.

(** The bytes that describe partitions; they are writable until the partitioning is completed. *)
Definition partition_byte (i : Z) : bool := ((136 <=? i) && (i <=? 156)) || (i =? 167).
Definition completed (e : list Z) : bool := negb (Z.land (at_ e EXT_CSD_PARTITION_SETTING) EXT_CSD_PARTITION_SETTING_COMPLETED =? 0).
Definition put (e : list Z) (i v : Z) : list Z := <[Z.to_nat i:=v]> e.

Class EmmcCard (address : Z) := {
  (** in the transfer state with these bytes of EXT_CSD *)
  holds : list Z -> card -> Prop;
  emmc_bytes e c : holds e c -> length e = 512%nat /\ Forall (fun b => 0 <= b < 256) e;
  emmc_ext_csd e c : holds e c -> exists r c', answer c 8 0 = Some (r, c') /\ sends c 8 0 512 = Some e /\ holds e c';
  emmc_switch e c i v : holds e c -> 0 <= v < 256 -> i = EXT_CSD_ERASE_GROUP_DEF \/ (partition_byte i = true /\ completed e = false) ->
    exists r c', answer c 6 (Z.lor (Z.lor (Z.shiftl MMC_SWITCH_MODE_WRITE_BYTE 24) (Z.shiftl i 16)) (Z.shiftl v 8)) = Some (r, c') /\ holds (put e i v) c';
  emmc_status e c : holds e c -> exists r c', answer c 13 (u32 (Z.shiftl address 16)) = Some (r, c') /\ holds e c' /\
    Z.land (nth 0 r 0) MMC_STATUS_RDY_FOR_DATA <> 0 /\ Z.land (nth 0 r 0) MMC_STATUS_CURR_STATE <> MMC_STATE_PRG;
}.

End Card.

(** ** Bytes of the register *)

Definition byte_of (v i : Z) : Z := Z.land (Z.shiftr v (i * 8)) 0xFF.
Fixpoint puts (e : list Z) (index v i : Z) (n : nat) : list Z :=
  match n with O => e | S n => puts (put e (index + i) (byte_of v i)) index v (i + 1) n end.
Fixpoint puts_gp (e mults : list Z) (pidx : Z) : list Z :=
  match mults with [] => e | m :: mults => puts_gp (puts e (EXT_CSD_GP_SIZE_MULT + pidx * 3) m 0 3) mults (pidx + 1) end.
(** The number in the three bytes from [i] on. *)
Definition le24 (e : list Z) (i : Z) : Z := at_ e i + 2 ^ 8 * (at_ e (i + 1) + 2 ^ 8 * at_ e (i + 2)).

Lemma length_put e i v : length (put e i v) = length e.
Proof. apply length_insert. Qed.

Lemma at_put e i v j : 0 <= i < 512 -> 0 <= j -> length e = 512%nat -> at_ (put e i v) j = if i =? j then v else at_ e j.
Proof.
  intros Hi Hj Hl. unfold at_, put. rewrite !nth_lookup.
  destruct (Z.eqb_spec i j) as [-> |Hne]; [rewrite list_lookup_insert_eq by lia; done|]. rewrite list_lookup_insert_ne by lia. done.
Qed.

Lemma byte_of_range v i : 0 <= byte_of v i < 256.
Proof. unfold byte_of. change 0xFF with (Z.ones 8). rewrite Z.land_ones by lia. apply Z.mod_pos_bound. lia. Qed.

Lemma byte_of_div v i : 0 <= i -> byte_of v i = v / 2 ^ (8 * i) mod 2 ^ 8.
Proof. intros Hi. unfold byte_of. change 0xFF with (Z.ones 8). rewrite Z.land_ones, Z.shiftr_div_pow2 by lia. by rewrite Z.mul_comm. Qed.

Lemma puts_spec n : forall e index v i, length e = 512%nat -> 0 <= index + i -> index + i + Z.of_nat n <= 512 ->
  length (puts e index v i n) = 512%nat /\
  forall j, 0 <= j -> at_ (puts e index v i n) j = if (index + i <=? j) && (j <? index + i + Z.of_nat n) then byte_of v (j - index) else at_ e j.
Proof.
  induction n as [|n IH]; intros e index v i Hl Hlo Hhi; cbn [puts].
  - split; [done|]. intros j Hj. by replace ((index + i <=? j) && (j <? index + i + Z.of_nat 0)) with false by lia.
  - destruct (IH (put e (index + i) (byte_of v i)) index v (i + 1)) as [IHl IHa]; [by rewrite length_put|lia..|]. split; [done|]. intros j Hj. rewrite IHa by done.
    rewrite at_put by lia. destruct (Z.eqb_spec (index + i) j) as [<- |].
    + replace ((index + (i + 1) <=? index + i) && (index + i <? index + (i + 1) + Z.of_nat n)) with false by lia.
      replace ((index + i <=? index + i) && (index + i <? index + i + Z.of_nat (S n))) with true by lia. f_equal. lia.
    + by replace ((index + (i + 1) <=? j) && (j <? index + (i + 1) + Z.of_nat n)) with ((index + i <=? j) && (j <? index + i + Z.of_nat (S n))) by lia.
Qed.

Lemma puts_gp_spec mults : forall e pidx, length e = 512%nat -> 0 <= pidx -> pidx + Z.of_nat (length mults) <= 4 -> Forall (fun m => 0 <= m < 2 ^ 24) mults ->
  length (puts_gp e mults pidx) = 512%nat /\
  (forall k m, mults !! k = Some m -> le24 (puts_gp e mults pidx) (EXT_CSD_GP_SIZE_MULT + (pidx + Z.of_nat k) * 3) = m) /\
  forall j, 0 <= j -> (j < EXT_CSD_GP_SIZE_MULT + pidx * 3 \/ EXT_CSD_GP_SIZE_MULT + (pidx + Z.of_nat (length mults)) * 3 <= j) -> at_ (puts_gp e mults pidx) j = at_ e j.
Proof.
  unfold EXT_CSD_GP_SIZE_MULT. induction mults as [|m mults IH]; intros e pidx Hl Hp Hlen Hm; cbn [puts_gp length] in *; [done|].
  apply Forall_cons_iff in Hm as [Hm1 Hm2]. unfold EXT_CSD_GP_SIZE_MULT.
  destruct (puts_spec 3 e (143 + pidx * 3) m 0) as [L1 A1]; [done|lia..|].
  destruct (IH (puts e (143 + pidx * 3) m 0 3) (pidx + 1)) as (L2 & A2 & A3); [done|lia|lia|done|]. split_and!; [done| |].
  - intros [|k] x Hk; cbn in Hk.
    + injection Hk as <-. unfold le24. rewrite !A3, !A1 by lia.
      replace (143 + (pidx + Z.of_nat 0) * 3) with (143 + pidx * 3) by lia.
      repeat match goal with |- context [if ?b then _ else _] => replace b with true by lia end.
      rewrite !byte_of_div by lia. replace (8 * (143 + pidx * 3 - (143 + pidx * 3))) with 0 by lia.
      replace (8 * (143 + pidx * 3 + 1 - (143 + pidx * 3))) with 8 by lia. replace (8 * (143 + pidx * 3 + 2 - (143 + pidx * 3))) with 16 by lia.
      change (2 ^ 0) with 1. change (2 ^ 8) with 256. change (2 ^ 16) with 65536. Z.div_mod_to_equations. lia.
    + rewrite <- (A2 k x Hk). f_equal. lia.
  - intros j Hj Ho. rewrite A3, A1 by lia. by replace ((143 + pidx * 3 + 0 <=? j) && (j <? 143 + pidx * 3 + 0 + Z.of_nat 3)) with false by lia.
Qed.

(** ** Writing the register *)

Section Writing.
Context {PF : Platform} {HO : MmcHost} {CA : Card} {WO : Works} (address : Z) {EC : EmmcCard address}.

(** The device [p] with an eMMC behind it. *)
Record emmc_st (l : list mmc) (p : nat) (d : mmc) (e : list Z) (c : card) (w : world) : Prop := {
  es_st : st l p d c w;
  es_holds : holds e c;
  es_rca : val d rca = address
}.

Lemma switch_arg i v : 0 <= i < 256 -> 0 <= v < 256 -> 0 <= Z.lor (Z.lor (Z.shiftl MMC_SWITCH_MODE_WRITE_BYTE 24) (Z.shiftl i 16)) (Z.shiftl v 8) < 2 ^ 32.
Proof.
  intros Hi Hv. rewrite !Z.shiftl_mul_pow2 by lia. apply (lor_range 32); [lia|apply (lor_range 32)|]; unfold in_range, MMC_SWITCH_MODE_WRITE_BYTE; lia.
Qed.

Lemma wp_switch l p d e c w s i v Q : emmc_st l p d e c w -> 0 <= i < 256 -> 0 <= v < 256 ->
  i = EXT_CSD_ERASE_GROUP_DEF \/ (partition_byte i = true /\ completed e = false) ->
  (forall c' w', emmc_st l p d (put e i v) c' w' -> Q 0 w') -> wp (mmc_switch p s i v) Q w.
Proof.
  intros [H He Hr] Hi Hv Hw HQ. unfold mmc_switch. cbn [switch_loop]. destruct (emmc_switch e c i v He Hv Hw) as (r & c1 & E1 & H1).
  apply mwp_bind. eapply (wp_cmd_st _ _ H); [done|small|done|by apply switch_arg|exact E1|]. intros w1 Hw1 _. cbn beta iota. change (0 =? 0) with true. cbn iota.
  destruct (emmc_status _ c1 H1) as (r2 & c2 & E2 & H2 & Hr2 & Hs2). rewrite <- Hr in E2. apply (wp_status_st 1000 _ Hw1 ltac:(lia) E2 Hr2 Hs2). intros w2 Hw2 _. by apply (HQ c2).
Qed.

(** A byte of the configuration other than the one that completes it. *)
Definition config_byte (i : Z) : bool := partition_byte i && negb (i =? EXT_CSD_PARTITION_SETTING).

Lemma completed_put e i v : length e = 512%nat -> config_byte i = true -> completed (put e i v) = completed e.
Proof.
  intros Hl Hi. unfold completed. rewrite at_put; [|unfold config_byte, partition_byte in Hi; lia|by vm_compute|done].
  by replace (i =? EXT_CSD_PARTITION_SETTING) with false by (unfold config_byte in Hi; lia).
Qed.

Lemma wp_switch_bytes l p d index v n : forall i e c w Q, emmc_st l p d e c w -> completed e = false ->
  (forall k, 0 <= k < Z.of_nat n -> config_byte (index + i + k) = true) ->
  (forall c' w', emmc_st l p d (puts e index v i n) c' w' -> completed (puts e index v i n) = false -> Q 0 w') -> wp (switch_bytes p index v i n) Q w.
Proof.
  induction n as [|n IH]; intros i e c w Q H Hc Hb HQ; cbn [switch_bytes puts] in *; [apply mwp_ret; by apply (HQ c)|].
  pose proof (Hb 0 ltac:(lia)) as Hb0. rewrite Z.add_0_r in Hb0. assert (partition_byte (index + i) = true) as Hp by (unfold config_byte in Hb0; lia).
  apply mwp_bind. apply (wp_switch l p d e c w _ (index + i) _ _ H); [unfold partition_byte in Hp; lia|apply byte_of_range|by right|].
  intros c1 w1 H1. go_on. apply (IH (i + 1) (put e (index + i) (byte_of v i)) c1 w1); [done| | |done].
  - rewrite completed_put; [done|by apply (emmc_bytes e c (es_holds _ _ _ _ _ _ H))|done].
  - intros k Hk. replace (index + (i + 1) + k) with (index + i + (k + 1)) by lia. apply Hb. lia.
Qed.

Lemma wp_switch_gp l p d mults : forall pidx e c w Q, emmc_st l p d e c w -> completed e = false -> 0 <= pidx -> pidx + Z.of_nat (length mults) <= 4 ->
  (forall c' w', emmc_st l p d (puts_gp e mults pidx) c' w' -> completed (puts_gp e mults pidx) = false -> Q 0 w') -> wp (switch_gp p mults pidx) Q w.
Proof.
  induction mults as [|m mults IH]; intros pidx e c w Q H Hc Hp Hl HQ; cbn [switch_gp puts_gp length] in *; [apply mwp_ret; by apply (HQ c)|].
  apply mwp_bind. apply (wp_switch_bytes l p d _ m 3 0 e c w); [done|done| |].
  - intros k Hk. unfold config_byte, partition_byte, EXT_CSD_GP_SIZE_MULT, EXT_CSD_PARTITION_SETTING. lia.
  - intros c1 w1 H1 Hc1. go_on. apply (IH (pidx + 1) (puts e (EXT_CSD_GP_SIZE_MULT + pidx * 3) m 0 3) c1 w1); [done|done|lia|lia|done].
Qed.

(** The register after the configuration was set, and after it was completed. *)
Definition set_up (e mults : list Z) (start size attrs : Z) : list Z :=
  let e := if Z.land (at_ e EXT_CSD_ERASE_GROUP_DEF) 1 =? 0 then put e EXT_CSD_ERASE_GROUP_DEF 1 else e in
  put (puts_gp (puts (puts e EXT_CSD_ENH_START_ADDR start 0 4) EXT_CSD_ENH_SIZE_MULT size 0 3) mults 0) EXT_CSD_PARTITIONS_ATTRIBUTE attrs.
Definition finish (e0 e : list Z) (wr_rel : Z) : list Z :=
  put (if negb (wr_rel =? at_ e0 EXT_CSD_WR_REL_SET) then put e EXT_CSD_WR_REL_SET wr_rel else e) EXT_CSD_PARTITION_SETTING EXT_CSD_PARTITION_SETTING_COMPLETED.

Lemma holds_length l p d e c w : emmc_st l p d e c w -> length e = 512%nat.
Proof. intros H. by apply (emmc_bytes e c (es_holds _ _ _ _ _ _ H)). Qed.

(** What [mode] leaves in the register. *)
Definition outcome (mode : mmc_hwpart_conf_mode) (e0 e : list Z) (wr_rel : Z) : list Z :=
  match mode with MMC_HWPART_CONF_COMPLETE => finish e0 e wr_rel | _ => e end.

Lemma wp_finish_config l p d e0 e c w mode wr_rel Q : emmc_st l p d e c w -> completed e = false -> 0 <= wr_rel < 256 ->
  (forall c' w', emmc_st l p d (outcome mode e0 e wr_rel) c' w' -> Q 0 w') -> wp (finish_config p mode e0 wr_rel) Q w.
Proof.
  intros H Hc Hw HQ. pose proof (holds_length _ _ _ _ _ _ H) as Hl. destruct mode; [apply mwp_ret; by apply (HQ c)..|]. cbn [finish_config outcome] in *. unfold finish in HQ.
  assert (forall e2 c2 w2, emmc_st l p d e2 c2 w2 -> completed e2 = false -> e2 = (if negb (wr_rel =? at_ e0 EXT_CSD_WR_REL_SET) then put e EXT_CSD_WR_REL_SET wr_rel else e) ->
    wp (mmc_switch p EXT_CSD_CMD_SET_NORMAL EXT_CSD_PARTITION_SETTING EXT_CSD_PARTITION_SETTING_COMPLETED) Q w2) as Hlast.
  { intros e2 c2 w2 H2 Hc2 E. apply (wp_switch _ _ _ _ _ _ _ _ _ _ H2); [by vm_compute|by vm_compute|by right|]. subst e2. done. }
  apply mwp_bind. destruct (negb _).
  - apply (wp_switch _ _ _ _ _ _ _ _ _ _ H); [by vm_compute|done|by right|]. intros c1 w1 H1. go_on. apply (Hlast _ _ _ H1); [by rewrite completed_put|done].
  - apply mwp_ret. go_on. by apply (Hlast _ _ _ H).
Qed.

Lemma wp_write_areas l p d e0 e c w mode mults start size attrs wr_rel Q : emmc_st l p d e c w -> completed e = false ->
  (length mults <= 4)%nat -> 0 <= attrs < 256 -> 0 <= wr_rel < 256 ->
  (forall c' w', emmc_st l p d (outcome mode e0 (put (puts_gp (puts (puts e EXT_CSD_ENH_START_ADDR start 0 4) EXT_CSD_ENH_SIZE_MULT size 0 3) mults 0)
     EXT_CSD_PARTITIONS_ATTRIBUTE attrs) wr_rel) c' w' -> Q 0 w') -> wp (write_areas p mode e0 mults start size attrs wr_rel) Q w.
Proof.
  intros H Hc Hlen Ha Hw HQ. unfold write_areas. apply mwp_bind, (wp_switch_bytes _ _ _ _ _ _ _ _ _ _ _ H Hc).
  { intros k Hk. unfold config_byte, partition_byte, EXT_CSD_ENH_START_ADDR, EXT_CSD_PARTITION_SETTING. lia. }
  intros c2 w2 H2 Hc2. go_on. apply mwp_bind, (wp_switch_bytes _ _ _ _ _ _ _ _ _ _ _ H2 Hc2).
  { intros k Hk. unfold config_byte, partition_byte, EXT_CSD_ENH_SIZE_MULT, EXT_CSD_PARTITION_SETTING. lia. }
  intros c3 w3 H3 Hc3. go_on. apply mwp_bind, (wp_switch_gp _ _ _ _ _ _ _ _ _ H3 Hc3); [lia|lia|]. intros c4 w4 H4 Hc4. go_on.
  pose proof (holds_length _ _ _ _ _ _ H4) as Hl4. apply mwp_bind, (wp_switch _ _ _ _ _ _ _ _ _ _ H4); [by vm_compute|done|by right|]. intros c5 w5 H5. go_on.
  apply (wp_finish_config _ _ _ e0 _ _ _ _ _ _ H5); [by rewrite completed_put|done|done].
Qed.

Lemma wp_write_config l p d e c w mode mults start size attrs wr_rel Q : emmc_st l p d e c w -> completed e = false ->
  (length mults <= 4)%nat -> 0 <= attrs < 256 -> 0 <= wr_rel < 256 ->
  (forall d' c' w', emmc_st l p d' (outcome mode e (set_up e mults start size attrs) wr_rel) c' w' -> frame [erase_grp_size] d d' -> Q 0 w') ->
  wp (write_config p mode e mults start size attrs wr_rel) Q w.
Proof.
  intros H Hc Hlen Ha Hw HQ. unfold write_config, set_up in *. pose proof (holds_length _ _ _ _ _ _ H) as Hl. apply mwp_bind.
  destruct (Z.land (at_ e EXT_CSD_ERASE_GROUP_DEF) 1 =? 0).
  - apply mwp_bind, (wp_switch _ _ _ _ _ _ _ _ _ _ H); [by vm_compute|by vm_compute|by left|]. intros c1 w1 [H1 He1 Hr1]. go_on. wstep. wstep. wstep. go_on.
    set (d1 := set_val d erase_grp_size _) in *.
    apply (wp_write_areas l p d1 e _ c1 _ mode mults start size attrs wr_rel _ (Build_emmc_st _ _ _ _ _ _ H1 He1 Hr1)); [|done|done|done|].
    + unfold completed. rewrite at_put by (done || by vm_compute). exact Hc.
    + intros c' w' H'. apply (HQ d1 c' w' H'). apply frame_set; [done|apply frame_refl].
  - apply mwp_ret. go_on. apply (wp_write_areas l p d e _ c _ mode mults start size attrs wr_rel _ H); [done..|]. intros c' w' H'. by apply (HQ d c').
Qed.

End Writing.

(** ** Configurations *)

(** A partition that is to be enhanced. *)
Definition enhanced (g : gp_conf) : bool := negb (g_size g =? 0) && g_enhanced g.
Definition enh_sizes (l : list gp_conf) : Z := foldr (fun g s => (if enhanced g then g_size g else 0) + s) 0 l.

Definition sized_gp (g : gp_conf) : Prop := 0 <= g_size g < 2 ^ 32.

(** Sizes are 32 bits wide and there are four partitions. *)
Record conf_ok (conf : mmc_hwpart_conf) : Prop := {
  co_four : length (gp_part conf) = 4%nat;
  co_gp : Forall sized_gp (gp_part conf);
  co_size : 0 <= u_enh_size (conf_user conf) < 2 ^ 32;
  co_start : 0 <= u_enh_start (conf_user conf) < 2 ^ 32
}.

Section Loops.
Context (grp : Z) (Hgrp : 1024 <= grp).

Lemma gp_loop_mults l : Forall sized_gp l -> forall pidx a t mults a' t', gp_loop l pidx grp a t = Some (mults, a', t') -> 0 <= t -> t + Z.of_nat (length l) * 2 ^ 22 < 2 ^ 32 ->
  Forall2 (fun g m => g_size g = m * grp /\ 0 <= m < 2 ^ 22) l mults /\ t' * grp = t * grp + enh_sizes l /\ t <= t'.
Proof.
  induction 1 as [|g l Hg Hl IH]; intros pidx a t mults a' t'; cbn [gp_loop length enh_sizes foldr]; [intros [= <- <- <-] ? ?; split_and!; [constructor|cbn; lia|lia] |].
  destruct (Z.eqb_spec (g_size g mod grp) 0) as [Em|]; [|done]. cbn [negb]. fold (enhanced g). fold (enh_sizes l).
  set (m := g_size g / grp). assert (g_size g = m * grp) as Es by (subst m; pose proof (Z.div_mod (g_size g) grp ltac:(lia)); lia).
  assert (0 <= m < 2 ^ 22) as Hm by (unfold sized_gp in Hg; subst m; split; [apply Z.div_pos; lia|apply Z.div_lt_upper_bound; nia]).
  intros E Ht Hmax. destruct (gp_loop l (pidx + 1) grp _ _) as [ [ [ms a1] t1]|] eqn:El; [|done]. cbn in E. injection E as <- <- <-.
  assert (0 <= t + m < 2 ^ 32) as Hs by lia.
  eapply IH in El; [|destruct (enhanced g); [rewrite u32_small by lia|]; lia|destruct (enhanced g); [rewrite u32_small by lia|]; lia]. destruct El as (F & T & Tle). split_and!.
  - by constructor.
  - rewrite T. destruct (enhanced g); [rewrite u32_small by lia; lia|lia].
  - destruct (enhanced g); [rewrite u32_small in Tle by lia; lia|lia].
Qed.

Lemma gp_loop_aligned l : forall pidx a t, (exists r, gp_loop l pidx grp a t = Some r) <-> Forall (fun g => g_size g mod grp = 0) l.
Proof.
  induction l as [|g l IH]; intros pidx a t; cbn [gp_loop]; [split; [constructor|by eexists] |]. rewrite Forall_cons_iff.
  destruct (Z.eqb_spec (g_size g mod grp) 0) as [Em|Em]; cbn [negb]; [|split; [by intros [? ?]|by intros [? _] ] ].
  match goal with |- context [gp_loop l ?i grp ?x ?y] => specialize (IH i x y); destruct (gp_loop l i grp x y) as [ [ [? ?] ?]|] end; cbn.
  - split; [intros _; split; [done|by apply IH; eexists]|by eexists].
  - split; [by intros [? ?]|]. intros [_ Hl]. apply IH in Hl as [? ?]. done.
Qed.

(** The attributes: bit [k + 1] for partition [k]. *)
Lemma gp_loop_attrs l : forall pidx a t mults a' t', 0 <= pidx -> gp_loop l pidx grp a t = Some (mults, a', t') -> 0 <= a < 2 ^ (pidx + 1) ->
  0 <= a' < 2 ^ (pidx + 1 + Z.of_nat (length l)) /\ (a' = 0 <-> a = 0 /\ Forall (fun g => enhanced g = false) l) /\
  (forall j, 0 <= j <= pidx -> Z.testbit a' j = Z.testbit a j) /\
  forall k g, l !! k = Some g -> Z.testbit a' (pidx + Z.of_nat k + 1) = enhanced g.
Proof.
  induction l as [|g l IH]; intros pidx a t mults a' t' Hp; cbn [gp_loop length]; [intros [= <- <- <-] Ha; rewrite Z.add_0_r; split; [done|]; split; [split; [by split|by intros [? _] ]|done] |].
  destruct (negb (g_size g mod grp =? 0)); [done|]. fold (enhanced g). intros E Ha. destruct (gp_loop l (pidx + 1) grp _ _) as [ [ [ms a1] t1]|] eqn:El; [|done]. cbn in E.
  injection E as <- <- <-. unfold EXT_CSD_ENH_GP in El. rewrite Z.shiftl_1_l in El. set (x := if enhanced g then Z.lor a (2 ^ (pidx + 1)) else a) in *.
  assert (0 <= x < 2 ^ (pidx + 1 + 1)) as Hx.
  { assert (2 ^ (pidx + 1 + 1) = 2 * 2 ^ (pidx + 1)) as Ep by (rewrite Z.pow_add_r; lia). subst x. destruct (enhanced g); [|lia]. apply (lor_range (pidx + 1 + 1)); unfold in_range; lia. }
  assert (forall j, 0 <= j -> Z.testbit x j = Z.testbit a j || ((j =? pidx + 1) && enhanced g)) as Hbit.
  { intros j Hj. subst x. destruct (enhanced g); [rewrite Z.lor_spec, Z.pow2_bits_eqb by lia; f_equal; rewrite andb_true_r; lia|by rewrite andb_false_r, orb_false_r]. }
  assert (x = 0 <-> a = 0 /\ enhanced g = false) as Hzero.
  { subst x. destruct (enhanced g); [|by split; [split|intros [? _] ] ]. rewrite Z.lor_eq_0_iff. split; [|by intros [_ ?] ]. intros [_ Hz]. assert (0 < 2 ^ (pidx + 1)) by (apply Z.pow_pos_nonneg; lia). lia. }
  destruct (IH (pidx + 1) _ _ _ _ _ ltac:(lia) El Hx) as (R & Z0 & Low & High). split_and!.
  - lia.
  - replace (pidx + 1 + Z.of_nat (S (length l))) with (pidx + 1 + 1 + Z.of_nat (length l)) by lia. apply R.
  - rewrite Z0, Hzero, Forall_cons_iff. tauto.
  - intros j Hj. rewrite Low, Hbit by lia. replace (j =? pidx + 1) with false by lia. apply orb_false_r.
  - intros [|k] g' Hk; cbn in Hk.
    + injection Hk as ->. rewrite Low, Hbit by lia. replace (pidx + Z.of_nat 0 + 1) with (pidx + 1) by lia. rewrite Z.eqb_refl.
      rewrite (Z.bits_above_log2 a); [done|lia|]. destruct (Z.eqb_spec a 0) as [-> |]; [cbn; lia|]. apply Z.log2_lt_pow2; lia.
    + rewrite <- (High k g' Hk). f_equal. lia.
Qed.

(** *** Write reliability *)

Lemma rel_bit_spec change v_set k v j : 0 <= k -> 0 <= j -> Z.testbit (rel_bit change v_set (Z.shiftl 1 k) v) j = if change && (j =? k) then v_set else Z.testbit v j.
Proof.
  intros Hk Hj. unfold rel_bit. rewrite Z.shiftl_1_l. destruct change; [|done]. cbn [andb]. destruct v_set.
  - rewrite Z.lor_spec, Z.pow2_bits_eqb, Z.eqb_sym by lia. destruct (j =? k); [by rewrite orb_true_r|by rewrite orb_false_r].
  - rewrite Z.land_spec, Z.lnot_spec, Z.pow2_bits_eqb, Z.eqb_sym by lia. destruct (j =? k); [by rewrite andb_false_r|by rewrite andb_true_r].
Qed.

Lemma rel_bit_range change v_set k v : 0 <= k < 8 -> 0 <= v < 256 -> 0 <= rel_bit change v_set (Z.shiftl 1 k) v < 256.
Proof.
  intros Hk Hv. unfold rel_bit. destruct change; [|done]. destruct v_set; [apply (lor_range 8)|apply (land_range 8)]; unfold in_range; try lia.
  rewrite Z.shiftl_1_l. assert (2 ^ k <= 2 ^ 7) by (apply Z.pow_le_mono_r; lia). assert (0 < 2 ^ k) by (apply Z.pow_pos_nonneg; lia). lia.
Qed.

Lemma rel_loop_range l : forall pidx v, 0 <= pidx -> pidx + Z.of_nat (length l) <= 7 -> 0 <= v < 256 -> 0 <= rel_loop l pidx v < 256.
Proof.
  induction l as [|g l IH]; intros pidx v Hp Hl Hv; cbn [rel_loop length] in *; [done|]. apply IH; [lia..|]. apply rel_bit_range; lia.
Qed.

Lemma rel_loop_spec l : forall pidx v, 0 <= pidx ->
  (forall j, 0 <= j <= pidx \/ pidx + Z.of_nat (length l) < j -> Z.testbit (rel_loop l pidx v) j = Z.testbit v j) /\
  forall k g, l !! k = Some g -> Z.testbit (rel_loop l pidx v) (pidx + Z.of_nat k + 1) = if g_wr_rel_change g then g_wr_rel_set g else Z.testbit v (pidx + Z.of_nat k + 1).
Proof.
  induction l as [|g l IH]; intros pidx v Hp; cbn [rel_loop length]; [done|]. unfold EXT_CSD_WR_DATA_REL_GP.
  destruct (IH (pidx + 1) (rel_bit (g_wr_rel_change g) (g_wr_rel_set g) (Z.shiftl 1 (pidx + 1)) v) ltac:(lia)) as [Low High]. split.
  - intros j Hj. rewrite Low, rel_bit_spec by lia. replace (j =? pidx + 1) with false by lia. by rewrite andb_false_r.
  - intros [|k] g' Hk; cbn in Hk.
    + injection Hk as ->. replace (pidx + Z.of_nat 0 + 1) with (pidx + 1) by lia. rewrite Low, rel_bit_spec by lia. rewrite Z.eqb_refl. by destruct (g_wr_rel_change g').
    + replace (pidx + Z.of_nat (S k) + 1) with (pidx + 1 + Z.of_nat k + 1) by lia. rewrite (High k g' Hk), rel_bit_spec by lia.
      replace (pidx + 1 + Z.of_nat k + 1 =? pidx + 1) with false by lia. by rewrite andb_false_r.
Qed.

(** Every area keeps or asks for the reliability it has. *)
Definition rel_same (v : Z) (conf : mmc_hwpart_conf) : Prop :=
  (u_wr_rel_change (conf_user conf) = true -> u_wr_rel_set (conf_user conf) = Z.testbit v 0) /\
  forall k g, gp_part conf !! k = Some g -> g_wr_rel_change g = true -> g_wr_rel_set g = Z.testbit v (Z.of_nat k + 1).

(** The reliability the configuration asks for. *)
Definition asked_rel (conf : mmc_hwpart_conf) (v : Z) : Z :=
  rel_loop (gp_part conf) 0 (rel_bit (u_wr_rel_change (conf_user conf)) (u_wr_rel_set (conf_user conf)) EXT_CSD_WR_DATA_REL_USR v).

Lemma asked_rel_spec conf v :
  Z.testbit (asked_rel conf v) 0 = (if u_wr_rel_change (conf_user conf) then u_wr_rel_set (conf_user conf) else Z.testbit v 0) /\
  (forall k g, gp_part conf !! k = Some g -> Z.testbit (asked_rel conf v) (Z.of_nat k + 1) = if g_wr_rel_change g then g_wr_rel_set g else Z.testbit v (Z.of_nat k + 1)) /\
  forall j, Z.of_nat (length (gp_part conf)) < j -> Z.testbit (asked_rel conf v) j = Z.testbit v j.
Proof.
  unfold asked_rel, EXT_CSD_WR_DATA_REL_USR. destruct (rel_loop_spec (gp_part conf) 0 (rel_bit (u_wr_rel_change (conf_user conf)) (u_wr_rel_set (conf_user conf)) (Z.shiftl 1 0) v) ltac:(lia)) as [Low High].
  split_and!.
  - rewrite Low, rel_bit_spec by lia. rewrite andb_true_r. done.
  - intros k g Hk. pose proof (High k g Hk) as E. replace (0 + Z.of_nat k + 1) with (Z.of_nat k + 1) in E by lia. rewrite E, rel_bit_spec by lia.
    replace (Z.of_nat k + 1 =? 0) with false by lia. by rewrite andb_false_r.
  - intros j Hj. rewrite Low, rel_bit_spec by lia. replace (j =? 0) with false by lia. by rewrite andb_false_r.
Qed.

Lemma asked_rel_same conf v : asked_rel conf v = v <-> rel_same v conf.
Proof.
  destruct (asked_rel_spec conf v) as (S0 & Sk & Sr). split.
  - intros E. rewrite E in S0, Sk. split; [intros Hc; rewrite Hc in S0; done|]. intros k g Hk Hc. specialize (Sk k g Hk). rewrite Hc in Sk. done.
  - intros [H0 Hk]. apply Z.bits_inj'. intros j Hj. destruct (Z.eqb_spec j 0) as [-> |Hne]; [rewrite S0; destruct (u_wr_rel_change _); auto|].
    destruct (gp_part conf !! Z.to_nat (j - 1)) as [g|] eqn:Eg.
    + replace j with (Z.of_nat (Z.to_nat (j - 1)) + 1) by lia. rewrite (Sk _ g Eg). destruct (g_wr_rel_change g) eqn:Ec; [|done]. by apply Hk.
    + apply Sr. apply lookup_ge_None in Eg. lia.
Qed.

End Loops.

(** ** What the register says *)

Definition le32_at (e : list Z) (i : Z) : Z := at_ e i + 2 ^ 8 * (at_ e (i + 1) + 2 ^ 8 * (at_ e (i + 2) + 2 ^ 8 * at_ e (i + 3))).

(** The start of the enhanced user area, in the unit of the card's addresses. *)
Definition start_addr (d : mmc) (conf : mmc_hwpart_conf) : Z :=
  if negb (val d high_capacity =? 0) then u_enh_start (conf_user conf) else u32 (Z.shiftl (u_enh_start (conf_user conf)) 9).

(** The areas of the configuration are the ones in the register. *)
Record laid_out (d : mmc) (conf : mmc_hwpart_conf) (e : list Z) : Prop := {
  lo_gp : forall k g, gp_part conf !! k = Some g -> le24 e (EXT_CSD_GP_SIZE_MULT + Z.of_nat k * 3) * val d hc_wp_grp_size = g_size g;
  lo_size : le24 e EXT_CSD_ENH_SIZE_MULT * val d hc_wp_grp_size = u_enh_size (conf_user conf);
  lo_start : u_enh_size (conf_user conf) <> 0 -> le32_at e EXT_CSD_ENH_START_ADDR = start_addr d conf;
  lo_user : Z.testbit (at_ e EXT_CSD_PARTITIONS_ATTRIBUTE) 0 = negb (u_enh_size (conf_user conf) =? 0);
  lo_attr : forall k g, gp_part conf !! k = Some g -> Z.testbit (at_ e EXT_CSD_PARTITIONS_ATTRIBUTE) (Z.of_nat k + 1) = enhanced g
}.

Lemma laid_out_ext d conf e e' : length (gp_part conf) = 4%nat -> laid_out d conf e ->
  (forall j, 136 <= j <= 156 -> j <> EXT_CSD_PARTITION_SETTING -> at_ e' j = at_ e j) -> laid_out d conf e'.
Proof.
  unfold EXT_CSD_PARTITION_SETTING. intros Hf [Lg Ls Lst Lu La] H.
  split; intros; unfold le24, le32_at in *; rewrite !H; eauto; unfold EXT_CSD_GP_SIZE_MULT, EXT_CSD_ENH_SIZE_MULT, EXT_CSD_ENH_START_ADDR, EXT_CSD_PARTITIONS_ATTRIBUTE in *;
    try match goal with Hk : gp_part conf !! _ = Some _ |- _ => apply lookup_lt_Some in Hk end; lia.
Qed.

Lemma le24_puts e i v : length e = 512%nat -> 0 <= i -> i + 3 <= 512 -> 0 <= v < 2 ^ 24 -> le24 (puts e i v 0 3) i = v.
Proof.
  intros Hl Hi Ht Hv. destruct (puts_spec 3 e i v 0) as [_ A]; [done|lia..|]. unfold le24. rewrite !A by lia.
  repeat match goal with |- context [if ?b then _ else _] => replace b with true by lia end. rewrite !byte_of_div by lia.
  replace (8 * (i - i)) with 0 by lia. replace (8 * (i + 1 - i)) with 8 by lia. replace (8 * (i + 2 - i)) with 16 by lia.
  change (2 ^ 0) with 1. change (2 ^ 8) with 256. change (2 ^ 16) with 65536. Z.div_mod_to_equations. lia.
Qed.

Lemma le32_puts e i v : length e = 512%nat -> 0 <= i -> i + 4 <= 512 -> 0 <= v < 2 ^ 32 -> le32_at (puts e i v 0 4) i = v.
Proof.
  intros Hl Hi Ht Hv. destruct (puts_spec 4 e i v 0) as [_ A]; [done|lia..|]. unfold le32_at. rewrite !A by lia.
  repeat match goal with |- context [if ?b then _ else _] => replace b with true by lia end. rewrite !byte_of_div by lia.
  replace (8 * (i - i)) with 0 by lia. replace (8 * (i + 1 - i)) with 8 by lia. replace (8 * (i + 2 - i)) with 16 by lia. replace (8 * (i + 3 - i)) with 24 by lia.
  change (2 ^ 0) with 1. change (2 ^ 8) with 256. change (2 ^ 16) with 65536. change (2 ^ 24) with 16777216. Z.div_mod_to_equations. lia.
Qed.

(** Every byte after [set_up]. *)
Lemma set_up_spec e mults start size attrs : length e = 512%nat -> length mults = 4%nat -> Forall (fun m => 0 <= m < 2 ^ 24) mults -> 0 <= start < 2 ^ 32 -> 0 <= size < 2 ^ 24 ->
  let x := set_up e mults start size attrs in
  length x = 512%nat /\ (forall k m, mults !! k = Some m -> le24 x (EXT_CSD_GP_SIZE_MULT + Z.of_nat k * 3) = m) /\ le24 x EXT_CSD_ENH_SIZE_MULT = size /\
  le32_at x EXT_CSD_ENH_START_ADDR = start /\ at_ x EXT_CSD_PARTITIONS_ATTRIBUTE = attrs /\
  forall j, 0 <= j -> config_byte j = false \/ j = EXT_CSD_WR_REL_SET -> j <> EXT_CSD_ERASE_GROUP_DEF -> at_ x j = at_ e j.
Proof.
  intros Hl Hlen Hm Hst Hsz. cbv zeta. unfold set_up. set (e0 := if Z.land (at_ e EXT_CSD_ERASE_GROUP_DEF) 1 =? 0 then put e EXT_CSD_ERASE_GROUP_DEF 1 else e).
  assert (length e0 = 512%nat) as L0 by (subst e0; destruct (_ =? 0); [by rewrite length_put|done]).
  assert (forall j, 0 <= j -> j <> EXT_CSD_ERASE_GROUP_DEF -> at_ e0 j = at_ e j) as A0.
  { intros j Hj Hne. subst e0. destruct (_ =? 0); [|done]. rewrite at_put by (done || by vm_compute). by rewrite (proj2 (Z.eqb_neq EXT_CSD_ERASE_GROUP_DEF j)) by lia. }
  set (e1 := puts e0 EXT_CSD_ENH_START_ADDR start 0 4). destruct (puts_spec 4 e0 EXT_CSD_ENH_START_ADDR start 0) as [L1 A1]; [done|by vm_compute..|].
  set (e2 := puts e1 EXT_CSD_ENH_SIZE_MULT size 0 3). destruct (puts_spec 3 e1 EXT_CSD_ENH_SIZE_MULT size 0) as [L2 A2]; [done|by vm_compute..|].
  destruct (puts_gp_spec mults e2 0) as (L3 & G3 & A3); [done|lia|lia|done|]. rewrite Hlen in A3.
  assert (forall v j, 0 <= j -> j <> EXT_CSD_PARTITIONS_ATTRIBUTE -> at_ (put (puts_gp e2 mults 0) EXT_CSD_PARTITIONS_ATTRIBUTE v) j = at_ (puts_gp e2 mults 0) j) as A4.
  { intros v j Hj Hne. rewrite at_put by (done || by vm_compute). by rewrite (proj2 (Z.eqb_neq EXT_CSD_PARTITIONS_ATTRIBUTE j)) by lia. }
  pose proof (le24_puts e1 EXT_CSD_ENH_SIZE_MULT size L1 ltac:(by vm_compute) ltac:(by vm_compute) Hsz) as V2.
  pose proof (le32_puts e0 EXT_CSD_ENH_START_ADDR start L0 ltac:(by vm_compute) ltac:(by vm_compute) Hst) as V1. fold e1 in V1, A1. fold e2 in V2, A2.
  unfold EXT_CSD_ENH_START_ADDR, EXT_CSD_ENH_SIZE_MULT, EXT_CSD_GP_SIZE_MULT, EXT_CSD_PARTITIONS_ATTRIBUTE, config_byte, partition_byte, EXT_CSD_WR_REL_SET, EXT_CSD_PARTITION_SETTING in *.
  split_and!.
  - by rewrite length_put.
  - intros k m Hk. rewrite <- (G3 k m Hk). pose proof (lookup_lt_Some _ _ _ Hk). unfold le24. rewrite !A4 by lia. done.
  - etrans; [|exact V2]. unfold le24. rewrite !A4, !A3 by lia. done.
  - etrans; [|exact V1]. unfold le32_at. rewrite !A4, !A3, !A2 by lia. done.
  - rewrite at_put by (done || lia). done.
  - intros j Hj Hc Hne. rewrite A4, A3, A2, A1 by lia.
    repeat match goal with |- context [if ?b then _ else _] => replace b with false by lia end. by apply A0.
Qed.

(** ** The configuration of a card *)

(** What a card must offer for a configuration. *)
Record fits (d : mmc) (e : list Z) (conf : mmc_hwpart_conf) : Prop := {
  f_emmc : IS_SD d = false /\ MMC_VERSION_4_41 <= val d version;
  f_support : Z.land (val d part_support) PART_SUPPORT <> 0;
  f_group : val d hc_wp_grp_size <> 0;
  f_user : u_enh_size (conf_user conf) <> 0 -> u_enh_size (conf_user conf) mod val d hc_wp_grp_size = 0 /\ u_enh_start (conf_user conf) mod val d hc_wp_grp_size = 0;
  f_gp : Forall (fun g => g_size g mod val d hc_wp_grp_size = 0) (gp_part conf);
  f_enh : Z.land (val d part_support) ENHNCD_SUPPORT <> 0 \/ (u_enh_size (conf_user conf) = 0 /\ Forall (fun g => enhanced g = false) (gp_part conf));
  f_total : u_enh_size (conf_user conf) + enh_sizes (gp_part conf) <= max_enh_size_mult e * val d hc_wp_grp_size;
  f_rel : rel_same (at_ e EXT_CSD_WR_REL_SET) conf \/ Z.land (at_ e EXT_CSD_WR_REL_PARAM) EXT_CSD_HS_CTRL_REL <> 0;
  f_open : completed e = false
}.

(** What a successful call leaves behind. *)
Record result_of (mode : mmc_hwpart_conf_mode) (d : mmc) (conf : mmc_hwpart_conf) (e e' : list Z) : Prop := {
  ro_laid : laid_out d conf e';
  ro_completed : completed e' = match mode with MMC_HWPART_CONF_COMPLETE => true | _ => false end;
  ro_rel : at_ e' EXT_CSD_WR_REL_SET = match mode with MMC_HWPART_CONF_COMPLETE => asked_rel conf (at_ e EXT_CSD_WR_REL_SET) | _ => at_ e EXT_CSD_WR_REL_SET end;
  ro_rest : forall j, 0 <= j -> partition_byte j = false -> j <> EXT_CSD_ERASE_GROUP_DEF -> at_ e' j = at_ e j
}.

Lemma at_range e j : Forall (fun b => 0 <= b < 256) e -> 0 <= at_ e j < 256.
Proof.
  intros H. unfold at_. rewrite nth_lookup. destruct (e !! Z.to_nat j) as [x|] eqn:E; [|cbn; lia]. by apply (Forall_lookup_1 _ _ _ _ H E).
Qed.

Section Result.
Context (d : mmc) (conf : mmc_hwpart_conf) (e : list Z) (Hl : length e = 512%nat) (Hconf : conf_ok conf) (Hopen : completed e = false) (Hgrp : 1024 <= val d hc_wp_grp_size).

Abbreviation grp := (val d hc_wp_grp_size).
Abbreviation enh := (negb (u_enh_size (conf_user conf) =? 0)).

Lemma set_up_result mults attrs : (u_enh_size (conf_user conf) <> 0 -> u_enh_size (conf_user conf) mod grp = 0) ->
  Forall2 (fun g m => g_size g = m * grp /\ 0 <= m < 2 ^ 22) (gp_part conf) mults ->
  Z.testbit attrs 0 = enh -> (forall k g, gp_part conf !! k = Some g -> Z.testbit attrs (Z.of_nat k + 1) = enhanced g) ->
  let x := set_up e mults (if enh then start_addr d conf else 0) (if enh then u_enh_size (conf_user conf) / grp else 0) attrs in
  length x = 512%nat /\ result_of MMC_HWPART_CONF_SET d conf e x.
Proof.
  destruct Hconf as [Hf Hg Hsz Hst]. intros Hu HF Hb0 Hbk. cbv zeta. set (size := if enh then u_enh_size (conf_user conf) / grp else 0). set (start := if enh then start_addr d conf else 0).
  assert (size * grp = u_enh_size (conf_user conf) /\ 0 <= size < 2 ^ 24) as [Esz Rsz].
  { subst size. destruct (Z.eqb_spec (u_enh_size (conf_user conf)) 0) as [E|E]; cbn [negb]; [lia|]. specialize (Hu E). pose proof (Z.div_mod (u_enh_size (conf_user conf)) grp ltac:(lia)).
    split; [lia|]. split; [apply Z.div_pos; lia|apply Z.div_lt_upper_bound; lia]. }
  assert (0 <= start < 2 ^ 32) as Rst by (subst start; destruct (negb (_ =? 0)); [|lia]; unfold start_addr; destruct (negb _); [done|apply u32_range]).
  destruct (set_up_spec e mults start size attrs) as (L & Gk & Gs & Gst & Ga & Gr); [done|by rewrite <- (Forall2_length HF)| |done|done|].
  { apply Forall_lookup. intros k m Hk. destruct (Forall2_lookup_r _ _ _ _ _ HF Hk) as (g & _ & _ & Hm). lia. }
  split; [done|]. split.
  - split; [|by rewrite Gs| |by rewrite Ga|intros k g Hk; rewrite Ga; by apply Hbk].
    + intros k g Hk. destruct (Forall2_lookup_l _ _ _ _ _ HF Hk) as (m & Em & -> & _). by rewrite (Gk k m Em).
    + intros Hne. rewrite Gst. subst start. by rewrite (proj2 (Z.eqb_neq _ _) Hne).
  - unfold completed. rewrite Gr; [exact Hopen|by vm_compute|by left|by vm_compute].
  - apply Gr; [by vm_compute|by right|by vm_compute].
  - intros j Hj Hp Hne. apply Gr; [done|left; unfold config_byte; by rewrite Hp|done].
Qed.

Lemma finish_result x : length x = 512%nat -> result_of MMC_HWPART_CONF_SET d conf e x ->
  result_of MMC_HWPART_CONF_COMPLETE d conf e (finish e x (asked_rel conf (at_ e EXT_CSD_WR_REL_SET))).
Proof.
  intros Lx [Hlaid Hc Hrel Hrest]. unfold finish. set (y := if negb _ then put x _ _ else x).
  assert (length y = 512%nat) as Ly by (subst y; destruct (negb _); [by rewrite length_put|done]).
  assert (forall j, 0 <= j -> at_ y j = if j =? EXT_CSD_WR_REL_SET then asked_rel conf (at_ e EXT_CSD_WR_REL_SET) else at_ x j) as Ay.
  { intros j Hj. subst y. destruct (Z.eqb_spec (asked_rel conf (at_ e EXT_CSD_WR_REL_SET)) (at_ e EXT_CSD_WR_REL_SET)) as [E|E]; cbn [negb].
    - destruct (Z.eqb_spec j EXT_CSD_WR_REL_SET) as [-> |]; [congruence|done].
    - rewrite at_put by (done || by vm_compute). by rewrite Z.eqb_sym. }
  split.
  - apply (laid_out_ext d conf x); [apply Hconf|done|]. unfold EXT_CSD_PARTITION_SETTING, EXT_CSD_WR_REL_SET in *. intros j Hj Hne. rewrite at_put, Ay by lia.
    replace (155 =? j) with false by lia. by replace (j =? 167) with false by lia.
  - unfold completed. rewrite at_put by (done || by vm_compute). by rewrite Z.eqb_refl.
  - rewrite at_put, Ay by (done || by vm_compute). done.
  - intros j Hj Hp Hne. unfold partition_byte, EXT_CSD_PARTITION_SETTING, EXT_CSD_WR_REL_SET in *. rewrite at_put, Ay by lia.
    replace (155 =? j) with false by lia. replace (j =? 167) with false by lia. apply Hrest; [done|unfold partition_byte; lia|done].
Qed.

End Result.

Section Config.
Context {PF : Platform} {HO : MmcHost} {CA : Card} {WO : Works} (address : Z) {EC : EmmcCard address}.
Context (stack : Z) (Hstack : 0 <= stack /\ stack + 512 < 2 ^ 32).

Lemma wp_ext_csd l p d e c w Q : emmc_st address l p d e c w ->
  (forall c' w', emmc_st address l p d e c' w' -> bytes (ram w') stack 512 = e -> Q 0 w') -> wp (mmc_send_ext_csd p stack) Q w.
Proof.
  intros [H He Hr] HQ. unfold mmc_send_ext_csd. destruct (emmc_ext_csd e c He) as (r & c1 & E & Es & H1). destruct (emmc_bytes e c He) as [Hl Hb].
  wstep. transfer E Es; [split; [done|cbn [blocks blocksize buf]; unfold MMC_MAX_BLOCK_LEN; split_and!; lia || done]|cbn [blocks blocksize]; rewrite Hl; done|].
  wstep. apply (HQ c1); [done|]. transitivity (bytes (wr (ram w) stack e) stack 512); [by apply bytes_ext|]. rewrite <- Hl at 1. by apply bytes_wr.
Qed.

(** The outcome of a call with the condition [ok] on which it succeeds. *)
Record post (l : list mmc) (p : nat) (d : mmc) (e : list Z) (conf : mmc_hwpart_conf) (mode : mmc_hwpart_conf_mode) (ok : Prop) (r : Z) (w' : world) : Prop := {
  po_state : exists d' e' c', emmc_st address l p d' e' c' w' /\ frame [erase_grp_size] d d' /\
    (r <> 0 \/ mode = MMC_HWPART_CONF_CHECK -> e' = e) /\ (r = 0 -> mode <> MMC_HWPART_CONF_CHECK -> result_of mode d conf e e');
  po_ok : r = 0 <-> ok
}.

Lemma post_fails l p d e conf mode (ok : Prop) r c w : emmc_st address l p d e c w -> r <> 0 -> ~ ok -> post l p d e conf mode ok r w.
Proof. intros H Hr Hn. split; [|done]. exists d, e, c. split_and!; [done|apply frame_refl|done|done]. Qed.

Lemma wp_apply_config l p d e c w conf mode mults attrs tot : emmc_st address l p d e c w -> conf_ok conf -> 1024 <= val d hc_wp_grp_size ->
  let grp := val d hc_wp_grp_size in let enh := negb (u_enh_size (conf_user conf) =? 0) in
  (u_enh_size (conf_user conf) <> 0 -> u_enh_size (conf_user conf) mod grp = 0) ->
  Forall2 (fun g m => g_size g = m * grp /\ 0 <= m < 2 ^ 22) (gp_part conf) mults -> 0 <= attrs < 256 ->
  Z.testbit attrs 0 = enh -> (forall k g, gp_part conf !! k = Some g -> Z.testbit attrs (Z.of_nat k + 1) = enhanced g) ->
  wp (apply_config stack p conf mode mults (if enh then start_addr d conf else 0) (if enh then u_enh_size (conf_user conf) / grp else 0) attrs tot)
    (post l p d e conf mode (tot <= max_enh_size_mult e /\
       (rel_same (at_ e EXT_CSD_WR_REL_SET) conf \/ Z.land (at_ e EXT_CSD_WR_REL_PARAM) EXT_CSD_HS_CTRL_REL <> 0) /\ completed e = false)) w.
Proof.
  intros H Hconf Hg grp enh Hu HF Ha Hb0 Hbk. unfold apply_config. apply mwp_bind, (wp_ext_csd _ _ _ _ _ _ _ H). clear H. intros c1 w1 H Hb. go_on.
  apply mwp_bind. eapply wp_of_run; [unfold csd_bytes; rewrite Hb; reflexivity|]. cbv zeta. pose proof (holds_length _ _ _ _ _ _ _ H) as Hl.
  fold (asked_rel conf (at_ e EXT_CSD_WR_REL_SET)). fold (completed e).
  destruct (Z.ltb_spec (max_enh_size_mult e) tot); [apply mwp_ret, (post_fails _ _ _ _ _ _ _ _ c1); [done|by vm_compute|lia]|].
  destruct (negb (asked_rel _ _ =? _) && _) eqn:E1.
  { apply mwp_ret, (post_fails _ _ _ _ _ _ _ _ c1); [done|by vm_compute|]. apply andb_true_iff in E1 as [E1 E2]. intros (_ & [Hs|Hs] & _); [apply asked_rel_same in Hs|]; lia. }
  assert (rel_same (at_ e EXT_CSD_WR_REL_SET) conf \/ Z.land (at_ e EXT_CSD_WR_REL_PARAM) EXT_CSD_HS_CTRL_REL <> 0) as Hrel.
  { rewrite <- asked_rel_same. apply andb_false_iff in E1 as [E1|E1]; lia. }
  destruct (completed e) eqn:Hc; [apply mwp_ret, (post_fails _ _ _ _ _ _ _ _ c1); [done|by vm_compute|by intros (_ & _ & ?)]|].
  assert (mode <> MMC_HWPART_CONF_CHECK -> wp (write_config p mode e mults (if enh then start_addr d conf else 0) (if enh then u_enh_size (conf_user conf) / grp else 0) attrs
    (asked_rel conf (at_ e EXT_CSD_WR_REL_SET))) (post l p d e conf mode (tot <= max_enh_size_mult e /\
       (rel_same (at_ e EXT_CSD_WR_REL_SET) conf \/ Z.land (at_ e EXT_CSD_WR_REL_PARAM) EXT_CSD_HS_CTRL_REL <> 0) /\ false = false)) w1) as Hwrite.
  { intros Hm. apply (wp_write_config address l p d e c1 w1); [done|done|by rewrite <- (Forall2_length HF), (co_four _ Hconf)|done| |].
    - unfold asked_rel. apply rel_loop_range; [lia|rewrite (co_four _ Hconf); lia|]. apply rel_bit_range; [lia|]. apply at_range. apply (emmc_bytes e c1 (es_holds _ _ _ _ _ _ _ H)).
    - intros d' c' w' H' F. split; [|done]. eexists d', _, c'. split_and!; [exact H'|done|by intros [?|?]|]. intros _ _.
      destruct (set_up_result d conf e Hl Hconf Hc Hg mults attrs Hu HF Hb0 Hbk) as [Lx Rx]. destruct mode; [done|exact Rx|]. by apply finish_result. }
  destruct mode; [|by apply Hwrite..]. apply mwp_ret. split; [|done]. exists d, e, c1. split_and!; [done|apply frame_refl|done|done].
Qed.

Lemma wp_hwpart_config l p d e c w conf mode : emmc_st address l p d e c w -> conf_ok conf -> val d hc_wp_grp_size = 0 \/ 1024 <= val d hc_wp_grp_size ->
  wp (mmc_hwpart_config stack p conf mode) (post l p d e conf mode (fits d e conf)) w.
Proof.
  intros H Hconf Hg. pose proof Hconf as [Hf Hgp Hsz Hst].
  assert (forall r, r <> 0 -> ~ fits d e conf -> wp (mret r) (post l p d e conf mode (fits d e conf)) w) as Hfail by (intros r Hr Hn; by apply mwp_ret, (post_fails _ _ _ _ _ _ _ _ c)).
  unfold mmc_hwpart_config. apply mwp_bind, (wp_dev_st _ (es_st _ _ _ _ _ _ _ H)). cbv zeta.
  destruct (IS_SD d || (val d version <? MMC_VERSION_4_41)) eqn:E1; [apply Hfail; [by vm_compute|intros [ [? ?] _ _ _ _ _ _ _ _]; lia]|].
  destruct (Z.eqb_spec (Z.land (val d part_support) PART_SUPPORT) 0) as [E2|E2]; [apply Hfail; [by vm_compute|by intros []]|].
  destruct (Z.eqb_spec (val d hc_wp_grp_size) 0) as [E3|E3]; [apply Hfail; [by vm_compute|by intros []]|]. destruct Hg as [Hg|Hg]; [done|].
  match goal with |- context [if ?b then mret (- EINVAL) else _] => destruct b eqn:E4; [apply Hfail; [by vm_compute|intros []; lia]|] end.
  set (mult := if negb (u_enh_size (conf_user conf) =? 0) then u_enh_size (conf_user conf) / val d hc_wp_grp_size else 0).
  assert (mult * val d hc_wp_grp_size = u_enh_size (conf_user conf) /\ 0 <= mult < 2 ^ 22) as [Em Rm].
  { subst mult. destruct (Z.eqb_spec (u_enh_size (conf_user conf)) 0) as [E|E]; cbn [negb] in *; [lia|]. pose proof (Z.div_mod (u_enh_size (conf_user conf)) (val d hc_wp_grp_size) E3).
    split; [lia|]. split; [apply Z.div_pos; lia|apply Z.div_lt_upper_bound; lia]. }
  destruct (gp_loop (gp_part conf) 0 (val d hc_wp_grp_size) _ _) as [ [ [mults attrs] tot]|] eqn:E5.
  2: { apply Hfail; [by vm_compute|]. intros [_ _ _ _ F _ _ _ _].
       match type of E5 with gp_loop _ ?i _ ?a ?t = _ => destruct (proj2 (gp_loop_aligned _ _ i a t) F) as [x Fx] end. by rewrite E5 in Fx. }
  destruct (gp_loop_mults _ Hg _ Hgp _ _ _ _ _ _ E5 ltac:(lia) ltac:(rewrite Hf; lia)) as (HF & Htot & Hle).
  destruct (gp_loop_attrs _ _ 0 _ _ _ _ _ ltac:(lia) E5 ltac:(destruct (negb (u_enh_size (conf_user conf) =? 0)); small)) as (Ra & Za & Low & High). rewrite Hf in Ra. rewrite Em in Htot.
  match goal with |- context [if ?b then mret (- EMEDIUMTYPE) else _] => destruct b eqn:E6 end.
  { apply Hfail; [by vm_compute|]. intros [_ _ _ _ _ Fe _ _ _]. apply andb_true_iff in E6 as [E6 E7]. destruct Fe as [?|[E0 Fe] ]; [lia|].
    assert (attrs = 0); [|lia]. apply Za. rewrite E0. done. }
  eapply mwp_mono.
  - apply (wp_apply_config l p d e c w conf mode mults attrs tot H Hconf Hg); [lia|done|lia| |].
    + rewrite Low by lia. by destruct (negb _).
    + intros k g Hk. rewrite <- (High k g Hk). done.
  - intros r w' [Hs Hok]. split; [exact Hs|]. rewrite Hok. split.
    + intros (F1 & F2 & F3). split; [lia|done|done|lia| |  |nia|done|done].
      * apply (gp_loop_aligned (val d hc_wp_grp_size) _ 0 (if negb (u_enh_size (conf_user conf) =? 0) then EXT_CSD_ENH_USR else 0) mult). by eexists.
      * apply andb_false_iff in E6 as [E6|E6]; [right|left; lia]. assert (attrs = 0) as E0 by lia. apply Za in E0 as [E0 ?]. split; [|done].
        destruct (Z.eqb_spec (u_enh_size (conf_user conf)) 0) as [|Hne]; [done|]. done.
    + intros [_ _ _ _ _ _ F1 F2 F3]. split_and!; [nia|done|done].
Qed.

(** *** The next start *)

Definition set_if (b : bool) (d : mmc) (f : field) (v : Z) : mmc := if b then set_val d f v else d.

Lemma val_set_if b d f v g : val (set_if b d f v) g = if b && field_beq f g then v else val d g.
Proof. by destruct b. Qed.

Lemma gp_set_if b d f v : capacity_gp (set_if b d f v) = capacity_gp d.
Proof. by destruct b. Qed.

Lemma wp_set_if {l p d c w} (b : bool) f v Q : st l p d c w -> (forall w', st l p (set_if b d f v) c w' -> Q tt w') -> wp (if b then set p f v else mret tt) Q w.
Proof. intros H HQ. destruct b; [apply (wp_set_st _ _ _ H); eauto|apply mwp_ret; eauto]. Qed.

Lemma wp_set_if2 {l p d c w} (b1 b2 : bool) f v Q : st l p d c w -> (forall w', st l p (set_if (b1 && b2) d f v) c w' -> Q tt w') ->
  wp (if b1 then if b2 then set p f v else mret tt else mret tt) Q w.
Proof. intros H HQ. destruct b1; [by apply (wp_set_if _ _ _ _ H)|apply mwp_ret; eauto]. Qed.

Ltac set_if_step H := apply mwp_bind, (wp_set_if _ _ _ _ H); clear H; let w' := fresh "w" in intros w' H; cbn beta iota zeta.

(** The value of a member after assignments to others. *)
Ltac member_value := repeat (progress (cbn; rewrite ?val_set_if, ?andb_false_r)).

(** The areas as the device shows them after the start. *)
Record shows_areas (e : list Z) (d d' : mmc) : Prop := {
  sa_gp : capacity_gp d' = map (fun i => u64 (Z.shiftl (gp_mult e i * at_ e EXT_CSD_HC_ERASE_GRP_SIZE * at_ e EXT_CSD_HC_WP_GRP_SIZE) 19)) [0; 1; 2; 3];
  sa_size : val d' enh_user_size = u64 (Z.shiftl (int_bytes [at_ e EXT_CSD_ENH_SIZE_MULT; at_ e (EXT_CSD_ENH_SIZE_MULT + 1); at_ e (EXT_CSD_ENH_SIZE_MULT + 2)] *
                                 at_ e EXT_CSD_HC_ERASE_GRP_SIZE * at_ e EXT_CSD_HC_WP_GRP_SIZE) 19);
  sa_start : let start := int_bytes [at_ e EXT_CSD_ENH_START_ADDR; at_ e (EXT_CSD_ENH_START_ADDR + 1); at_ e (EXT_CSD_ENH_START_ADDR + 2); at_ e (EXT_CSD_ENH_START_ADDR + 3)] in
    val d' enh_user_start = if negb (val d high_capacity =? 0) then u64 (Z.shiftl start 9) else start
}.

Lemma shows_set e d d' f v : field_beq f enh_user_size = false -> field_beq f enh_user_start = false -> shows_areas e d d' -> shows_areas e d (set_val d' f v).
Proof. intros H1 H2 [? ? ?]. split; cbn; [done|by rewrite H1|by rewrite H2]. Qed.

Lemma shows_set_if e d d' b f v : field_beq f enh_user_size = false -> field_beq f enh_user_start = false -> shows_areas e d d' -> shows_areas e d (set_if b d' f v).
Proof. intros H1 H2 H. destruct b; [by apply shows_set|done]. Qed.

Lemma wp_startup_v4 malloc l p d e c w Q : emmc_st address l p d e c w -> IS_SD d = false -> MMC_VERSION_4 <= val d version -> malloc MMC_MAX_BLOCK_LEN = true ->
  at_ e EXT_CSD_REV < 9 -> completed e = true ->
  (forall d' e' c' w', emmc_st address l p d' e' c' w' -> shows_areas e d d' -> Q 0 w') -> wp (mmc_startup_v4 malloc stack p) Q w.
Proof.
  intros H Hsd Hver Hmal Hrev Hdone HQ. unfold mmc_startup_v4. pose proof (es_st _ _ _ _ _ _ _ H) as Hs. wstep. apply (wp_dev_st _ Hs). clear Hs.
  rewrite Hsd. replace (val d version <? MMC_VERSION_4) with false by lia. cbn [orb]. wstep. apply (wp_ext_csd _ _ _ _ _ _ _ H). clear H. intros c1 w1 [H He Hr] Hb. go_on. wstep.
  eapply wp_of_run; [unfold csd_bytes; rewrite Hb; reflexivity|]. cbn beta. rewrite Hmal. cbn [negb]. replace (match ext_csd d with Some _ => false | None => false end) with false by (by destruct (ext_csd d)).
  destruct (emmc_bytes e c1 He) as [Hl Hbytes]. pose proof (at_range e EXT_CSD_REV Hbytes). do 2 wstep.
  destruct (lookup_lt_is_Some_2 mmc_versions (Z.to_nat (at_ e EXT_CSD_REV))) as [v ->]; [change (length mmc_versions) with 9%nat; lia|]. do 2 wstep.
fold (completed e). rewrite Hdone, orb_true_r. cbn [orb andb].
  wstep. apply (wp_set_if2 _ _ _ _ _ H). clear H. intros wa H. cbn beta. do 2 wstep. set_if_step H. set_if_step H. do 4 wstep.
  wstep. do 3 wstep. do 2 wstep. do 2 wstep. wstep.
  match type of H with st _ _ ?x _ _ => assert (val x rca = address /\ shows_areas e d x) as [Hx Sx]; [|set (d1 := x) in *; clearbody d1] end.
  { split; [member_value; exact Hr|]. split; [done|done|]. by member_value. }
  apply (wp_switch address l p d1 e c1 _ _ _ _ _ (Build_emmc_st _ _ _ _ _ _ _ H He Hx)); [by vm_compute|by vm_compute|by left|]. clear H. intros c2 wb [H He2 _]. go_on.
  do 2 wstep. wstep. do 2 wstep. apply (wp_set_if _ _ _ _ H). clear H. intros wd H. do 4 wstep. wstep.
  eapply (HQ _ _ _ _ (Build_emmc_st _ _ _ _ _ _ _ H He2 _)). apply shows_set; [done..|]. apply shows_set; [done..|]. apply shows_set_if; [done..|]. by apply shows_set.
  Unshelve. member_value. exact Hx.
Qed.

Lemma int_bytes_24 e i : Forall (fun b => 0 <= b < 256) e -> int_bytes [at_ e i; at_ e (i + 1); at_ e (i + 2)] = le24 e i.
Proof.
  intros H. pose proof (at_range e i H). pose proof (at_range e (i + 1) H). pose proof (at_range e (i + 2) H). unfold int_bytes, le24. cbn [fold_right].
  rewrite sgn_small by lia. rewrite u64_small by lia. lia.
Qed.

Lemma int_bytes_32 e i : Forall (fun b => 0 <= b < 256) e -> le32_at e i < 2 ^ 31 -> int_bytes [at_ e i; at_ e (i + 1); at_ e (i + 2); at_ e (i + 3)] = le32_at e i.
Proof.
  intros H Hs. pose proof (at_range e i H). pose proof (at_range e (i + 1) H). pose proof (at_range e (i + 2) H). pose proof (at_range e (i + 3) H). unfold int_bytes, le32_at in *. cbn [fold_right].
  rewrite sgn_small by lia. rewrite u64_small by lia. lia.
Qed.

(** A multiplier and the two group sizes make the bytes of the area. *)
Lemma area_bytes m g wg size : 0 <= size < 2 ^ 32 -> m * (1024 * g * wg) = size -> u64 (Z.shiftl (m * g * wg) 19) = size * 512.
Proof.
  intros Hs E. rewrite Z.shiftl_mul_pow2 by lia. replace (m * g * wg * 2 ^ 19) with (m * (1024 * g * wg) * 512) by lia. rewrite E. apply u64_small. lia.
Qed.

(** The device was started with this register. *)
Definition knows_groups (d : mmc) (e : list Z) : Prop := val d hc_wp_grp_size = 1024 * at_ e EXT_CSD_HC_ERASE_GRP_SIZE * at_ e EXT_CSD_HC_WP_GRP_SIZE.

(** The start of the user area in bytes stays below the sign of an [int] in the card's unit. *)
Definition start_ok (d : mmc) (conf : mmc_hwpart_conf) : Prop :=
  u_enh_start (conf_user conf) * (if negb (val d high_capacity =? 0) then 1 else 512) < 2 ^ 31.

Lemma areas_shown mode d conf e e1 e2 d2 d3 : result_of mode d conf e e1 -> conf_ok conf -> knows_groups d e -> start_ok d conf -> Forall (fun b => 0 <= b < 256) e2 ->
  (forall j, 0 <= j -> j <> EXT_CSD_ERASE_GROUP_DEF -> at_ e2 j = at_ e1 j) -> val d2 high_capacity = val d high_capacity -> shows_areas e2 d2 d3 ->
  capacity_gp d3 = map (fun g => g_size g * 512) (gp_part conf) /\ val d3 enh_user_size = u_enh_size (conf_user conf) * 512 /\
  (u_enh_size (conf_user conf) <> 0 -> val d3 enh_user_start = u_enh_start (conf_user conf) * 512).
Proof.
  intros [Hlaid _ _ Hrest] [Hf Hg Hsz Hst] Hk Hs Hb He2 Hhc [Sg Ss St].
  apply (laid_out_ext d conf e1 e2 Hf) in Hlaid; [|intros; apply He2; unfold EXT_CSD_ERASE_GROUP_DEF; lia]. destruct Hlaid as [Lg Ls Lst _ _].
  assert (at_ e2 EXT_CSD_HC_ERASE_GRP_SIZE = at_ e EXT_CSD_HC_ERASE_GRP_SIZE) as G1 by (rewrite He2, Hrest; done).
  assert (at_ e2 EXT_CSD_HC_WP_GRP_SIZE = at_ e EXT_CSD_HC_WP_GRP_SIZE) as G2 by (rewrite He2, Hrest; done).
  rewrite G1, G2 in *. unfold knows_groups in Hk. rewrite Hk in *. split_and!.
  - rewrite Sg. destruct (gp_part conf) as [|g0 [|g1 [|g2 [|g3 [|] ] ] ] ]; try discriminate Hf. rewrite !Forall_cons_iff in Hg. unfold sized_gp in Hg. cbn [map].
    repeat f_equal; (apply area_bytes; [tauto|]); unfold gp_mult; rewrite int_bytes_24 by done; [apply (Lg 0%nat)|apply (Lg 1%nat)|apply (Lg 2%nat)|apply (Lg 3%nat)]; done.
  - rewrite Ss. apply area_bytes; [done|]. by rewrite int_bytes_24.
  - intros Hne. specialize (Lst Hne). unfold start_ok in Hs. cbv zeta in St. rewrite St, Hhc. unfold start_addr in Lst. destruct (negb (val d high_capacity =? 0)).
    + rewrite int_bytes_32 by (done || lia). rewrite Lst, Z.shiftl_mul_pow2 by lia. apply u64_small. lia.
    + rewrite Z.shiftl_mul_pow2, u32_small in Lst by lia. rewrite int_bytes_32 by (done || lia). lia.
Qed.

(** C16: an eMMC is divided as it was asked to be: when the configuration fits the card, [mmc_hwpart_config] in the mode
    "complete" returns 0 and the card's register is marked as completed; the next start of the card, which finds that
    register with the volatile group definition cleared, gives the four general purpose partitions, the enhanced user
    area and its place exactly the sizes in bytes that the configuration named in sectors.  The card carries out its
    switch commands, its register is of a revision below 9, and the start of the enhanced area is below 2^31 in the card's
    unit of addresses. *)
Theorem partitions_survive malloc l p d e c w conf : emmc_st address l p d e c w -> conf_ok conf -> fits d e conf -> knows_groups d e -> start_ok d conf ->
  at_ e EXT_CSD_REV < 9 -> malloc MMC_MAX_BLOCK_LEN = true ->
  exists w1 c1 e1, mmc_hwpart_config stack p conf MMC_HWPART_CONF_COMPLETE w = Some (0, w1) /\ linked c1 (io w1) /\ holds e1 c1 /\ completed e1 = true /\
    forall l2 p2 d2 c2 w2, emmc_st address l2 p2 d2 (put e1 EXT_CSD_ERASE_GROUP_DEF 0) c2 w2 -> IS_SD d2 = false -> MMC_VERSION_4 <= val d2 version ->
      val d2 high_capacity = val d high_capacity ->
      exists w3 d3, mmc_startup_v4 malloc stack p2 w2 = Some (0, w3) /\ devices w3 !! p2 = Some d3 /\
        capacity_gp d3 = map (fun g => g_size g * 512) (gp_part conf) /\ val d3 enh_user_size = u_enh_size (conf_user conf) * 512 /\
        (u_enh_size (conf_user conf) <> 0 -> val d3 enh_user_start = u_enh_start (conf_user conf) * 512).
Proof.
  intros H Hconf Hfit Hk Hs Hrev Hmal. pose proof (f_group _ _ _ Hfit) as Hg. destruct (emmc_bytes e c (es_holds _ _ _ _ _ _ _ H)) as [Hl Hb].
  assert (val d hc_wp_grp_size = 0 \/ 1024 <= val d hc_wp_grp_size) as Hgrp
    by (right; rewrite Hk in *; pose proof (at_range e EXT_CSD_HC_ERASE_GRP_SIZE Hb); pose proof (at_range e EXT_CSD_HC_WP_GRP_SIZE Hb); nia).
  destruct (wp_run _ _ _ (wp_hwpart_config l p d e c w conf MMC_HWPART_CONF_COMPLETE H Hconf Hgrp)) as (r & w1 & E & [ (d1 & e1 & c1 & H1 & _ & _ & Hres) Hok]).
  assert (r = 0) as -> by (by apply Hok). specialize (Hres eq_refl ltac:(done)). pose proof (holds_length _ _ _ _ _ _ _ H1) as Hl1.
  exists w1, c1, e1. split_and!; [done|apply H1|apply H1|apply Hres|]. intros l2 p2 d2 c2 w2 H2 Hsd Hv Hhc.
  set (e2 := put e1 EXT_CSD_ERASE_GROUP_DEF 0) in *.
  assert (forall j, 0 <= j -> j <> EXT_CSD_ERASE_GROUP_DEF -> at_ e2 j = at_ e1 j) as He2.
  { intros j Hj Hne. subst e2. rewrite at_put by (done || by vm_compute). by rewrite (proj2 (Z.eqb_neq EXT_CSD_ERASE_GROUP_DEF j)) by lia. }
  destruct (emmc_bytes e2 c2 (es_holds _ _ _ _ _ _ _ H2)) as [_ Hb2].
  assert (wp (mmc_startup_v4 malloc stack p2) (fun a w3 => a = 0 /\ exists d3, devices w3 !! p2 = Some d3 /\ shows_areas e2 d2 d3) w2) as Hstart.
  { apply (wp_startup_v4 malloc l2 p2 d2 e2 c2 w2); [done|done|done|done| | |].
    - rewrite He2, (ro_rest _ _ _ _ _ Hres); done.
    - unfold completed. rewrite He2 by done. apply Hres.
    - intros d3 e3 c3 w3 H3 Sa. split; [done|]. exists d3. split; [apply (st_lookup _ _ _ _ _ (es_st _ _ _ _ _ _ _ H3))|done]. }
  destruct (wp_run _ _ _ Hstart) as (a & w3 & E3 & -> & d3 & Ed & Sa). exists w3, d3. split; [done|]. split; [done|]. by apply (areas_shown _ d conf e e1 e2 d2 d3 Hres).
Qed.

(** C17: dividing an eMMC that carries out its switch commands is all or nothing: [mmc_hwpart_config] succeeds exactly when the configuration fits the card (sizes
    in whole groups, no more enhanced storage than the card has, features the card supports, not divided before); when
    it returns an error, and always in the mode "check", the card's register is unchanged. *)
Theorem hwpart_all_or_nothing l p d e c w conf mode : emmc_st address l p d e c w -> conf_ok conf -> knows_groups d e ->
  exists r w1 c1 e1, mmc_hwpart_config stack p conf mode w = Some (r, w1) /\ linked c1 (io w1) /\ holds e1 c1 /\ (r = 0 <-> fits d e conf) /\
    (r <> 0 \/ mode = MMC_HWPART_CONF_CHECK -> e1 = e) /\ (r = 0 -> mode <> MMC_HWPART_CONF_CHECK -> result_of mode d conf e e1).
Proof.
  intros H Hconf Hk. destruct (emmc_bytes e c (es_holds _ _ _ _ _ _ _ H)) as [Hl Hb].
  assert (val d hc_wp_grp_size = 0 \/ 1024 <= val d hc_wp_grp_size) as Hgrp
    by (rewrite Hk in *; pose proof (at_range e EXT_CSD_HC_ERASE_GRP_SIZE Hb); pose proof (at_range e EXT_CSD_HC_WP_GRP_SIZE Hb); nia).
  destruct (wp_run _ _ _ (wp_hwpart_config l p d e c w conf mode H Hconf Hgrp)) as (r & w1 & E & [ (d1 & e1 & c1 & H1 & _ & Hsame & Hres) Hok]).
  exists r, w1, c1, e1. split_and!; [done|apply H1|apply H1|done|done|done].
Qed.

End Config.

End Emmc.
