(* ===== verification/SdWrite.v ===== *)
(** * SdWrite: writing blocks of an SD card

    A card that can be written is a family of cards of SdCard.v, one for each contents ([SdWriter]): a write command with
    its data leads from the card with one contents to the card with another.  Against it the write path of the core,
    [mmc_bwrite] with the wait for the end of the programming, is proved. *)

From stdpp Require Import base list option.
From Stdlib Require Import ZifyBool.
From S2P Require Import Prelude Cmem MmcTypes Mmc SdCard SdInit.
Import MmcTypes Mmc SdCard SdInit.

Module SdWrite.

(** The card with other contents. *)
Definition with_disk (sd : sd_info) (m : mem) : sd_info :=
  Sd m (sd_blocks sd) (sd_hc sd) (sd_cid sd) (sd_csd sd) (sd_rca sd) (sd_scr sd).

Section Writer.
Context {CA : Card}.

Class SdWriter (sd : sd_info) := {
  contents m :: SdCard (with_disk sd m);
  sd_write_single m c b : in_phase (sd := with_disk sd m) Tran c -> 0 <= b < sd_blocks sd -> exists r c1, answer c 24 (block_arg sd b) = Some (r, c1) /\
    forall l, length l = 512%nat -> Forall (fun x => 0 <= x < 256) l ->
      exists c2, takes c1 l = Some c2 /\ in_phase (sd := with_disk sd (wr m (b * 512) l)) Tran c2;
  sd_write_multiple m c b n : in_phase (sd := with_disk sd m) Tran c -> 0 <= b -> 0 < n -> b + n <= sd_blocks sd ->
    exists r c1, answer c 25 (block_arg sd b) = Some (r, c1) /\
    forall l, Z.of_nat (length l) = n * 512 -> Forall (fun x => 0 <= x < 256) l ->
      exists c2 r3 c3, takes c1 l = Some c2 /\ answer c2 12 0 = Some (r3, c3) /\ in_phase (sd := with_disk sd (wr m (b * 512) l)) Tran c3;
  (** CMD13: the card is ready for data and does not program *)
  sd_send_status m c : in_phase (sd := with_disk sd m) Tran c -> exists r c', answer c 13 (rca_of sd) = Some (r, c') /\ in_phase (sd := with_disk sd m) Tran c' /\
    Z.land (nth 0 r 0) MMC_STATUS_RDY_FOR_DATA <> 0 /\ Z.land (nth 0 r 0) MMC_STATUS_CURR_STATE <> MMC_STATE_PRG;
}.

End Writer.

Lemma bytes_range m a n : Forall (fun x => 0 <= x < 256) (bytes m a n).
Proof.
  apply Forall_lookup. intros i x Hx. assert (i < n)%nat as Hi by (rewrite <- (length_bytes m a n); by eapply lookup_lt_Some).
  rewrite bytes_lookup in Hx by done. injection Hx as <-. apply ld_range.
Qed.

Section Writing.
Context {PF : Platform} {HO : MmcHost} {CA : Card} {WO : Works} (sd : sd_info) {SW : SdWriter sd}.
Context (Hsized : sd_sized sd).

Abbreviation tran m c := (in_phase (sd := with_disk sd m) Tran c).

Lemma wp_send_status l p d c w m n Q : st l p d c w -> tran m c -> started sd d -> 0 < n ->
  (forall c' w', st l p d c' w' -> ram w' = ram w -> tran m c' -> Q 0 w') -> wp (mmc_send_status p n) Q w.
Proof.
  intros H Hc Hd Hn HQ. destruct (sd_send_status m c Hc) as (r & c1 & E & Hc1 & Hr & Hs).
  assert (rca_arg d = rca_of sd) as Ea by (unfold rca_arg, rca_of; by rewrite (s_rca _ _ Hd)). rewrite <- Ea in E.
  apply (wp_status_st _ _ H Hn E Hr Hs). intros w' H' Hm. by apply (HQ c1).
Qed.

Lemma wp_write_blocks l p d c w m start n src Q : st l p d c w -> tran m c -> started sd d -> 0 <= start -> 0 < n < 128 -> start + n <= sd_blocks sd ->
  0 <= src -> src + n * 512 < 2 ^ 32 ->
  (forall c' w', st l p d c' w' -> ram w' = ram w -> tran (wr m (start * 512) (bytes (ram w) src (Z.to_nat (n * 512)))) c' -> Q n w') ->
  wp (mmc_write_blocks p start n src) Q w.
Proof.
  intros H Hc Hd Hst Hn Hend Hsrc Htop HQ. pose proof (sized_blocks _ Hsized) as Hblk. unfold mmc_write_blocks. do 2 wstep.
  rewrite (s_lba _ _ Hd), u32_small by lia. replace (sd_blocks sd <? start + n) with false by lia. replace (n =? 0) with false by lia. cbv zeta.
  assert ((if negb (val d high_capacity =? 0) then start else u32 (start * val d write_bl_len)) = block_arg sd start) as ->
    by (rewrite (s_wlen _ _ Hd), (s_hc _ _ Hd); unfold block_arg; by destruct (sd_hc sd)).
  pose proof (block_arg_range sd start Hsized ltac:(lia)) as Harg. rewrite (s_wlen _ _ Hd).
  assert (send_ok (Data src MMC_DATA_WRITE n 512)) as Hok
    by (split; [done|]; cbn [blocks blocksize buf]; split_and!; try lia; apply Z.mod_divide; [lia|exists (n * 128); lia]).
  assert (forall c1 w1, st l p d c1 w1 -> ram w1 = ram w -> tran (wr m (start * 512) (bytes (ram w) src (Z.to_nat (n * 512)))) c1 ->
    wp (err ← mmc_send_status p 1000; mret (if negb (err =? 0) then 0 else n)) Q w1) as Hrest.
  { intros c1 w1 H1 Hm1 Hc1. wstep. apply (wp_send_status _ _ _ _ _ _ 1000 _ H1 Hc1 Hd ltac:(lia)). intros c2 w2 H2 Hm2 Hc2. cbn beta. change (negb (0 =? 0)) with false. wstep.
    apply (HQ c2); [done|congruence|done]. }
  wstep. destruct (Z.eqb_spec n 1) as [-> |Hne].
  - destruct (sd_write_single m c start Hc ltac:(lia)) as (r & c1 & E & Ht). destruct (Ht (bytes (ram w) src 512)) as (c2 & E2 & Hc2); [apply length_bytes|apply bytes_range|].
    eapply (wp_write_st _ _ _ H); [small|done|done|done|exact Harg|exact Hok|exact E|exact E2|]. intros w1 H1 Hm1. cbn beta iota. change (negb (0 =? 0)) with false. cbn iota.
    wstep. change (1 <? 1) with false. cbn iota. wstep. change (negb (0 =? 0)) with false. cbn iota. by apply (Hrest c2).
  - destruct (sd_write_multiple m c start n Hc Hst ltac:(lia) Hend) as (r & c1 & E & Ht).
    destruct (Ht (bytes (ram w) src (Z.to_nat (n * 512)))) as (c2 & r3 & c3 & E2 & E3 & Hc3); [rewrite length_bytes; lia|apply bytes_range|].
    eapply (wp_write_st _ _ _ H); [small|done|done|done|exact Harg|exact Hok|exact E|exact E2|]. intros w1 H1 Hm1. cbn beta iota. change (negb (0 =? 0)) with false. cbn iota.
    wstep. replace (1 <? n) with true by lia. wstep. eapply (wp_cmd_st _ _ H1); [done|small|done|small|exact E3|]. intros w2 H2 Hm2. cbn beta iota. wstep.
    change (negb (0 =? 0)) with false. cbn iota. apply (Hrest c3); [done|congruence|done].
Qed.

Lemma wp_bwrite_loop l p d : started sd d -> forall fuel c w m start todo src blkcnt Q, st l p d c w -> tran m c ->
  0 <= start -> 0 < todo -> start + todo <= sd_blocks sd -> 0 <= src -> src + todo * 512 < 2 ^ 32 -> todo <= Z.of_nat fuel ->
  (forall c' w', st l p d c' w' -> ram w' = ram w -> tran (wr m (start * 512) (bytes (ram w) src (Z.to_nat (todo * 512)))) c' -> Q blkcnt w') ->
  wp (bwrite_loop fuel p start todo src blkcnt) Q w.
Proof.
  intros Hd. pose proof (s_max _ _ Hd) as Hmax. pose proof (sized_blocks _ Hsized) as Hblk.
  induction fuel as [|fuel IH]; intros c w m start todo src blkcnt Q H Hc Hst Htodo Hend Hsrc Htop Hf HQ; [lia|]. cbn [bwrite_loop].
  do 2 wstep. set (cur := if b_max (cfg d) <? todo then b_max (cfg d) else todo).
  assert (0 < cur <= todo /\ cur < 128 /\ (todo - cur <= 0 -> cur = todo)) as (Hcur & Hcur2 & Hcur3) by (subst cur; case_bools; lia). clearbody cur.
  wstep. apply (wp_write_blocks l p d c w m start cur); [done|done|done|lia..|]. intros c1 w1 H1 Hm1 Hc1.
  rewrite Z.eqb_refl. cbn [negb]. do 2 wstep. rewrite (s_wlen _ _ Hd). destruct (Z.ltb_spec 0 (todo - cur)).
  - rewrite !u32_small by lia. apply (IH c1 w1 (wr m (start * 512) (bytes (ram w) src (Z.to_nat (cur * 512))))); [done|done|lia..|].
    intros c2 w2 H2 Hm2 Hc2. apply (HQ c2 w2 H2); [congruence|]. rewrite Hm1 in Hc2.
    replace (Z.to_nat (todo * 512)) with (Z.to_nat (cur * 512) + Z.to_nat ((todo - cur) * 512))%nat by lia.
    rewrite bytes_app, wr_app, length_bytes, !Z2Nat.id by lia. by replace (start * 512 + cur * 512) with ((start + cur) * 512) by lia.
  - assert (cur = todo) as -> by lia. by apply (HQ c1 w1).
Qed.

(** The blocks of a write that goes beyond the end which are stored all the same: the transfers of [mx] blocks that end
    before the card does.  Each transfer checks its own end only. *)
Definition stored_blocks (mx start : Z) : Z := if start <? sd_blocks sd then (sd_blocks sd - start) / mx * mx else 0.

Lemma stored_blocks_step mx start : 0 < mx -> start + mx <= sd_blocks sd -> stored_blocks mx start = mx + stored_blocks mx (start + mx).
Proof.
  intros Hm Hs. unfold stored_blocks. replace (start <? sd_blocks sd) with true by lia. destruct (Z.ltb_spec (start + mx) (sd_blocks sd)).
  - replace (sd_blocks sd - start) with (sd_blocks sd - (start + mx) + 1 * mx) by lia. rewrite Z.div_add by lia. lia.
  - replace (sd_blocks sd - start) with (1 * mx) by lia. rewrite Z.div_mul by lia. lia.
Qed.

Lemma stored_blocks_last mx start : 0 < mx -> sd_blocks sd < start + mx -> stored_blocks mx start = 0.
Proof. intros Hm Hs. unfold stored_blocks. destruct (Z.ltb_spec start (sd_blocks sd)); [|done]. rewrite Z.div_small by lia. done. Qed.

Lemma stored_blocks_nonneg mx start : 0 < mx -> 0 <= stored_blocks mx start.
Proof. intros Hm. unfold stored_blocks. case_match; [|done]. assert (0 <= (sd_blocks sd - start) / mx) by (apply Z.div_pos; lia). nia. Qed.

Lemma wp_write_refused l p d c w start n src Q : st l p d c w -> started sd d -> sd_blocks sd < start + n < 2 ^ 32 -> 0 <= start + n -> Q 0 w ->
  wp (mmc_write_blocks p start n src) Q w.
Proof.
  intros H Hd Hend H0 HQ. unfold mmc_write_blocks. do 2 wstep. rewrite (s_lba _ _ Hd), u32_small by lia. replace (sd_blocks sd <? start + n) with true by lia. by wstep.
Qed.

Lemma wp_bwrite_cut l p d : started sd d -> forall fuel c w m start todo src blkcnt Q, st l p d c w -> tran m c ->
  0 <= start -> 0 < todo -> sd_blocks sd < start + todo < 2 ^ 32 -> 0 <= src -> src + todo * 512 < 2 ^ 32 -> todo <= Z.of_nat fuel ->
  (forall c' w', st l p d c' w' -> ram w' = ram w ->
     tran (wr m (start * 512) (bytes (ram w) src (Z.to_nat (stored_blocks (b_max (cfg d)) start * 512)))) c' -> Q 0 w') ->
  wp (bwrite_loop fuel p start todo src blkcnt) Q w.
Proof.
  intros Hd. pose proof (s_max _ _ Hd) as Hmax. set (mx := b_max (cfg d)) in *. pose proof (sized_blocks _ Hsized) as Hblk.
  induction fuel as [|fuel IH]; intros c w m start todo src blkcnt Q H Hc Hst Htodo Hend Hsrc Htop Hf HQ; [lia|]. cbn [bwrite_loop]. do 2 wstep. fold mx. wstep.
  destruct (Z.leb_spec (start + mx) (sd_blocks sd)) as [Hin|Hout].
  - replace (mx <? todo) with true by lia. apply (wp_write_blocks l p d c w m start mx); [done|done|done|lia..|]. intros c1 w1 H1 Hm1 Hc1.
    rewrite Z.eqb_refl. cbn [negb]. do 2 wstep. rewrite (s_wlen _ _ Hd). replace (0 <? todo - mx) with true by lia. rewrite !u32_small by lia.
    apply (IH c1 w1 (wr m (start * 512) (bytes (ram w) src (Z.to_nat (mx * 512))))); [done|done|lia..|].
    intros c2 w2 H2 Hm2 Hc2. apply (HQ c2 w2 H2); [congruence|]. rewrite Hm1 in Hc2. pose proof (stored_blocks_nonneg mx (start + mx) ltac:(lia)) as Hnn. rewrite stored_blocks_step by lia.
    replace (Z.to_nat ((mx + stored_blocks mx (start + mx)) * 512)) with (Z.to_nat (mx * 512) + Z.to_nat (stored_blocks mx (start + mx) * 512))%nat by lia.
    rewrite bytes_app, wr_app, length_bytes, !Z2Nat.id by lia. by replace (start * 512 + mx * 512) with ((start + mx) * 512) by lia.
  - set (cur := if mx <? todo then mx else todo). assert (0 < cur <= todo /\ sd_blocks sd < start + cur) as [Hcur Hc2] by (subst cur; case_bools; lia). clearbody cur.
    apply (wp_write_refused l p d c w); [done|done|lia|lia|]. rewrite (proj2 (Z.eqb_neq 0 cur)) by lia. cbn [negb]. wstep.
    apply (HQ c w H); [done|]. by rewrite stored_blocks_last by lia.
Qed.

(** [mmc_bwrite] up to its loop. *)
Lemma wp_bwrite_start malloc part_init stack fuel l p d c w m start n src Q : st l p d c w -> registered l p d -> tran m c -> started sd d -> val d has_init = 1 ->
  (forall c' w', st l p d c' w' -> ram w' = ram w -> tran m c' -> wp (bwrite_loop (S (Z.to_nat n)) p start n src n) Q w') ->
  wp (mmc_bwrite malloc part_init stack fuel p start n src) Q w.
Proof.
  intros H Hr Hc Hd Hi HQ. unfold mmc_bwrite. do 2 wstep.
  assert (find_mmc_device (val d bd_devnum) w = Some (Some p, w)) as Hfind.
  { unfold find_mmc_device. by rewrite (st_dev _ _ _ _ _ H), Hr. }
  wstep. eapply wp_of_run; [exact Hfind|]. cbn beta iota. wstep. unfold blk_select_hwpart_devnum, mmc_get_dev. do 2 wstep.
  eapply wp_of_run; [exact Hfind|]. cbn beta iota. wstep. unfold mmc_init. do 2 wstep. rewrite Hi. change (negb (1 =? 0)) with true. cbn iota. do 2 wstep.
  change (negb (0 =? 0)) with false. cbn iota. unfold mmc_select_hwpartp. do 2 wstep. wstep. eapply wp_of_run; [exact Hfind|]. cbn beta iota. do 2 wstep. rewrite Z.eqb_refl. wstep.
  change (0 <? 0) with false. cbn iota. do 2 wstep. rewrite (s_wlen _ _ Hd). wstep. unfold mmc_set_blocklen. do 2 wstep. rewrite (s_ddr _ _ Hd). change (negb (0 =? 0)) with false. cbn iota.
  destruct (sd_set_blocklen (sd := with_disk sd m) c Hc) as (r & c1 & E & Hc1). wstep. eapply (wp_cmd_st _ _ H); [done|small|done|small|exact E|]. intros w1 H1 Hm1. cbn beta iota. do 2 wstep.
  cbn [Z.eqb negb andb]. wstep. change (negb (0 =? 0)) with false. cbn iota. by apply (HQ c1 w1).
Qed.

(** A write beyond the end: [mmc_bwrite] returns 0, but the transfers before the end were made. *)
Lemma wp_mmc_bwrite_cut malloc part_init stack fuel l p d c w m start n src Q : st l p d c w -> registered l p d -> tran m c -> started sd d -> val d has_init = 1 ->
  0 <= start -> 0 < n -> sd_blocks sd < start + n < 2 ^ 32 -> 0 <= src -> src + n * 512 < 2 ^ 32 ->
  (forall c' w', st l p d c' w' -> ram w' = ram w ->
     tran (wr m (start * 512) (bytes (ram w) src (Z.to_nat (stored_blocks (b_max (cfg d)) start * 512)))) c' -> Q 0 w') ->
  wp (mmc_bwrite malloc part_init stack fuel p start n src) Q w.
Proof.
  intros H Hr Hc Hd Hi Hst Hn Hend Hsrc Htop HQ. apply (wp_bwrite_start _ _ _ _ l p d c w m); [done..|]. intros c1 w1 H1 Hm1 Hc1.
  apply (wp_bwrite_cut l p d Hd _ c1 w1 m); [done|done|lia..|]. intros c2 w2 H2 Hm2 Hc2. apply (HQ c2); [done|congruence|]. by rewrite Hm1 in Hc2.
Qed.

(** [mmc_bwrite] stores the blocks, whatever their number, and changes nothing in memory. *)
Lemma wp_mmc_bwrite malloc part_init stack fuel l p d c w m start n src Q : st l p d c w -> registered l p d -> tran m c -> started sd d -> val d has_init = 1 ->
  0 <= start -> 0 < n -> start + n <= sd_blocks sd -> 0 <= src -> src + n * 512 < 2 ^ 32 ->
  (forall c' w', st l p d c' w' -> ram w' = ram w -> tran (wr m (start * 512) (bytes (ram w) src (Z.to_nat (n * 512)))) c' -> Q n w') ->
  wp (mmc_bwrite malloc part_init stack fuel p start n src) Q w.
Proof.
  intros H Hr Hc Hd Hi Hst Hn Hend Hsrc Htop HQ. apply (wp_bwrite_start _ _ _ _ l p d c w m); [done..|]. intros c1 w1 H1 Hm1 Hc1.
  apply (wp_bwrite_loop l p d Hd _ c1 w1 m); [done|done|lia..|]. intros c2 w2 H2 Hm2 Hc2. apply (HQ c2); [done|congruence|]. by rewrite Hm1 in Hc2.
Qed.

End Writing.

End SdWrite.
