(* ===== verification/SdHost.v ===== *)
(** * SdHost: the driver of the board's controller does its part

    The controller (ARM PL180) as the interface [Controller]: what its registers show while a command or a block of data
    is under way, with a card of SdCard.v behind it.  With it the driver of Pl180.v implements [Works], the interface
    the MMC core is proved against. *)

From stdpp Require Import base list option.
From Stdlib Require Import ZifyBool.
From S2P Require Import Prelude Cmem MmcTypes Mmc Pl180 SdCard.
Import MmcTypes SdCard.
Import Pl180.

Module SdHost.

Lemma status_bit v k : 0 <= k -> has v (2 ^ k) = Z.testbit v k.
Proof.
  intros Hk. unfold has. assert (Z.land v (2 ^ k) = if Z.testbit v k then 2 ^ k else 0) as ->.
  { bitwise i Hi. rewrite Z.pow2_bits_eqb by lia. destruct (Z.eqb_spec k i) as [-> |Hne].
    - rewrite andb_true_r. destruct (Z.testbit v i) eqn:E; [by rewrite Z.pow2_bits_true|by rewrite Z.bits_0].
    - rewrite andb_false_r. destruct (Z.testbit v k); [by rewrite Z.pow2_bits_false by lia|by rewrite Z.bits_0]. }
  destruct (Z.testbit v k); [|done]. assert (0 < 2 ^ k) by (apply Z.pow_pos_nonneg; lia). by replace (2 ^ k =? 0) with false by lia.
Qed.

Section Law.
Context {PF : Platform} {CA : Card} (host : pl180_mmc_host).

Abbreviation R r := (base host + r).
Abbreviation status h := (readl (R r_status) h).

(** Within [n] more reads the status register shows a flag of [mask], and then [fin] holds. *)
Fixpoint shows (n : nat) (mask : Z) (fin : Z -> hw -> Prop) (h : hw) : Prop :=
  (has (status h).1 mask = true /\ fin (status h).1 (status h).2) \/
  (has (status h).1 mask = false /\ match n with O => False | S n => shows n mask fin (status h).2 end).

Lemma shows_mono n mask (P Q : Z -> hw -> Prop) h : shows n mask P h -> (forall s h', P s h' -> Q s h') -> shows n mask Q h.
Proof. intros H HPQ. revert h H. induction n as [|n IH]; intros h [ [? ?]|[? ?] ]; [left; auto|done|left; auto|right; auto]. Qed.

(** A command is written: the argument, a delay, the command word. *)
Definition issue (cmd : mmc_cmd) (h : hw) : hw :=
  writel (command_word cmd) (R r_command) (udelay COMMAND_REG_DELAY (writel (cmdarg cmd) (R r_argument) h)).

Definition mask_of (cmd : mmc_cmd) : Z :=
  Z.lor (Z.lor SDI_STA_CTIMEOUT SDI_STA_CCRCFAIL) (if has (resp_type cmd) MMC_RSP_PRESENT then SDI_STA_CMDREND else SDI_STA_CMDSENT).

(** No time-out, and a failed checksum only in a response that has none. *)
Definition good_status (cmd : mmc_cmd) (s : Z) : Prop :=
  has s SDI_STA_CTIMEOUT = false /\ (has s SDI_STA_CCRCFAIL = true -> has (resp_type cmd) MMC_RSP_CRC = false).

Definition cleared (mask : Z) (h : hw) : hw := writel mask (R r_status_clear) h.

(** The data path is set up for [len] bytes. *)
Definition arm (len ctrl : Z) (h : hw) : hw :=
  writel ctrl (R r_datactrl) (udelay DATA_REG_DELAY (writel len (R r_datalength) (writel SDI_DTIMER_DEFAULT (R r_datatimer) h))).

(** The length is set, for a transfer to the card. *)
Definition preset (len : Z) (h : hw) : hw :=
  udelay DATA_REG_DELAY (writel len (R r_datalength) (writel SDI_DTIMER_DEFAULT (R r_datatimer) h)).

(** The bytes of a word on the bus. *)
Definition unword (v : Z) : list Z := [u8 v; u8 (Z.shiftr v 8); u8 (Z.shiftr v 16); u8 (Z.shiftr v 24)].

Definition word (b0 b1 b2 b3 : Z) : Z := b0 + 2 ^ 8 * (b1 + 2 ^ 8 * (b2 + 2 ^ 8 * b3)).

(** Reading a register keeps [P] and gives a value with [Q]. *)
Definition reads (r : Z) (P : hw -> Prop) (Q : Z -> Prop) (h : hw) : Prop := Q (readl (R r) h).1 /\ P (readl (R r) h).2.

Class Controller := {
  (** the card in its slot; the controller may be without power or clock *)
  wired : card -> hw -> Prop;
  (** powered and clocked, no command under way *)
  ready : card -> hw -> Prop;
  armed : Z -> card -> hw -> Prop;
  (** bytes still to come; the status may stay quiet for [n] more reads *)
  receiving : nat -> list Z -> card -> hw -> Prop;
  (** the length of a transfer to the card is set *)
  loaded : Z -> card -> hw -> Prop;
  (** [room] words may be written, the bytes that were written, the length *)
  writing : nat -> nat -> list Z -> Z -> card -> hw -> Prop;
  response_of : hw -> list Z;
  polls : nat;
  ctl_power_up c h pw ck : wired c h -> Z.land pw 3 = 3 -> has ck SDI_CLKCR_CLKEN = true ->
    ready c (udelay CLK_CHANGE_DELAY (writel ck (R r_clock) (writel pw (R r_power) h)));
  ctl_mask c h : ready c h -> ready c (readl (R r_mask0) h).2;
  ctl_set_mask c v h : ready c h -> ready c (writel v (R r_mask0) h);
  ctl_delay c n h : ready c h -> ready c (udelay n h);
  ctl_timer c n h : ready c h -> ready c (get_timer n h).2;
  ctl_power c h : ready c h -> reads r_power (ready c) (fun v => Z.land v 3 = 3) h;
  ctl_set_power c v h : ready c h -> Z.land v 3 = 3 -> ready c (writel v (R r_power) h);
  ctl_clock c h : ready c h -> reads r_clock (ready c) (fun v => has v SDI_CLKCR_CLKEN = true) h;
  ctl_set_clock c v h : ready c h -> has v SDI_CLKCR_CLKEN = true -> ready c (writel v (R r_clock) h);
  ctl_response c h i : ready c h -> 0 <= i < 4 ->
    reads (r_response i) (fun h' => ready c h' /\ response_of h' = response_of h) (eq (nth (Z.to_nat i) (response_of h) 0)) h;
  ctl_answer c h cmd r c' : ready c h -> proper_cmd cmd = true -> 0 <= cmdidx cmd < 64 -> answer c (cmdidx cmd) (cmdarg cmd) = Some (r, c') ->
    shows polls (mask_of cmd) (fun s h' => good_status cmd s /\ ready c' (cleared (mask_of cmd) h') /\ response_of (cleared (mask_of cmd) h') = r) (issue cmd h);
  ctl_silent c h cmd : ready c h -> 0 <= cmdidx cmd < 64 -> has (resp_type cmd) MMC_RSP_PRESENT = true -> answer c (cmdidx cmd) (cmdarg cmd) = None ->
    shows polls (mask_of cmd) (fun s h' => has s SDI_STA_CTIMEOUT = true /\ ready c (cleared (mask_of cmd) h')) (issue cmd h);
  ctl_arm c h len ctrl : ready c h -> 0 < len < 2 ^ 16 -> has ctrl SDI_DCTRL_DTEN = true -> has ctrl SDI_DCTRL_DTDIR_IN = true -> armed len c (arm len ctrl h);
  ctl_data c h cmd len r c' l : armed len c h -> 0 <= cmdidx cmd < 64 -> has (resp_type cmd) MMC_RSP_PRESENT = true ->
    answer c (cmdidx cmd) (cmdarg cmd) = Some (r, c') -> sends c (cmdidx cmd) (cmdarg cmd) len = Some l -> Z.of_nat (length l) = len ->
    shows polls (mask_of cmd) (fun s h' => good_status cmd s /\ receiving polls l c' (cleared (mask_of cmd) h') /\ response_of (cleared (mask_of cmd) h') = r) (issue cmd h);
  ctl_response_rx n l c h i : receiving n l c h -> 0 <= i < 4 ->
    reads (r_response i) (fun h' => receiving n l c h' /\ response_of h' = response_of h) (eq (nth (Z.to_nat i) (response_of h) 0)) h;
  ctl_receive n b0 b1 b2 b3 l c h : receiving n (b0 :: b1 :: b2 :: b3 :: l) c h -> has (status h).1 RD_ERR = false /\
    ((has (status h).1 SDI_STA_RXDAVL = true /\ reads r_fifo (receiving n l c) (eq (word b0 b1 b2 b3)) (status h).2) \/
     (has (status h).1 SDI_STA_RXDAVL = false /\ exists n', n = S n' /\ receiving n' (b0 :: b1 :: b2 :: b3 :: l) c (status h).2));
  ctl_end n c h : receiving n [] c h -> has (status h).1 RD_ERR = false /\
    ((has (status h).1 SDI_STA_DBCKEND = true /\ ready c (cleared SDI_ICR_MASK (status h).2)) \/
     (has (status h).1 SDI_STA_DBCKEND = false /\ exists n', n = S n' /\ receiving n' [] c (status h).2));
  ctl_preset c h len : ready c h -> 0 < len < 2 ^ 16 -> loaded len c (preset len h);
  ctl_answer_loaded c h cmd len r c' : loaded len c h -> 0 <= cmdidx cmd < 64 -> has (resp_type cmd) MMC_RSP_PRESENT = true ->
    answer c (cmdidx cmd) (cmdarg cmd) = Some (r, c') ->
    shows polls (mask_of cmd) (fun s h' => good_status cmd s /\ loaded len c' (cleared (mask_of cmd) h') /\ response_of (cleared (mask_of cmd) h') = r) (issue cmd h);
  ctl_response_loaded len c h i : loaded len c h -> 0 <= i < 4 ->
    reads (r_response i) (fun h' => loaded len c h' /\ response_of h' = response_of h) (eq (nth (Z.to_nat i) (response_of h) 0)) h;
  ctl_start c h len ctrl : loaded len c h -> has ctrl SDI_DCTRL_DTEN = true -> has ctrl SDI_DCTRL_DTDIR_IN = false ->
    writing polls 0 [] len c (writel ctrl (R r_datactrl) h);
  ctl_room n room l len c h : writing n room l len c h -> Z.of_nat (length l) < len -> has (status h).1 WR_ERR = false /\
    ((has (status h).1 SDI_STA_TXFIFOBW = true /\ writing n SDI_FIFO_BURST_SIZE l len c (status h).2) \/
     (has (status h).1 SDI_STA_TXFIFOBW = false /\ exists n', n = S n' /\ writing n' room l len c (status h).2));
  ctl_push n room l len c h v : writing n (S room) l len c h -> Z.of_nat (length l) + 4 <= len -> writing n room (l ++ unword v) len c (writel v (R r_fifo) h);
  ctl_sent n room l len c h c' : writing n room l len c h -> Z.of_nat (length l) = len -> takes c l = Some c' -> has (status h).1 WR_ERR = false /\
    ((has (status h).1 SDI_STA_DBCKEND = true /\ ready c' (cleared SDI_ICR_MASK (status h).2)) \/
     (has (status h).1 SDI_STA_DBCKEND = false /\ exists n', n = S n' /\ writing n' room l len c (status h).2));
}.

End Law.

Arguments wired {_ _ _ _}.
Arguments ready {_ _ _ _}.
Arguments ctl_power_up {_ _ _ _}.
Arguments ctl_mask {_ _ _ _}.
Arguments ctl_set_mask {_ _ _ _}.
Arguments armed {_ _ _ _}.
Arguments receiving {_ _ _ _}.
Arguments response_of {_ _ _ _}.
Arguments polls {_ _ _ _}.
Arguments ctl_delay {_ _ _ _}.
Arguments ctl_timer {_ _ _ _}.
Arguments ctl_power {_ _ _ _}.
Arguments ctl_set_power {_ _ _ _}.
Arguments ctl_clock {_ _ _ _}.
Arguments ctl_set_clock {_ _ _ _}.
Arguments ctl_response {_ _ _ _}.
Arguments ctl_answer {_ _ _ _}.
Arguments ctl_silent {_ _ _ _}.
Arguments ctl_arm {_ _ _ _}.
Arguments ctl_data {_ _ _ _}.
Arguments ctl_response_rx {_ _ _ _}.
Arguments ctl_receive {_ _ _ _}.
Arguments ctl_end {_ _ _ _}.
Arguments loaded {_ _ _ _}.
Arguments writing {_ _ _ _}.
Arguments ctl_preset {_ _ _ _}.
Arguments ctl_answer_loaded {_ _ _ _}.
Arguments ctl_response_loaded {_ _ _ _}.
Arguments ctl_start {_ _ _ _}.
Arguments ctl_room {_ _ _ _}.
Arguments ctl_push {_ _ _ _}.
Arguments ctl_sent {_ _ _ _}.

(** ** Commands *)

Section Driver.
Context {PF : Platform} {CA : Card} (host : pl180_mmc_host) {CT : Controller host} (patience : nat).
Context (Hpat : Z.of_nat polls + 2 ^ 14 < Z.of_nat patience).

Abbreviation R r := (base host + r).
Abbreviation status h := (readl (R r_status) h).

Lemma wp_rd r Q w : Q (readl (R r) (io w)).1 (with_io w (readl (R r) (io w)).2) -> wp (rd host r) Q w.
Proof. unfold wp, rd, m_readl. by destruct (readl (R r) (io w)). Qed.

Lemma wp_reads r P V Q w : reads host r P V (io w) -> (forall v h, V v -> P h -> Q v (with_io w h)) -> wp (rd host r) Q w.
Proof. intros [HV HP] HQ. apply wp_rd. by apply HQ. Qed.

Lemma wp_poll mask fin Q : forall n fuel w, shows host n mask fin (io w) -> (n < fuel)%nat ->
  (forall s h, fin s h -> Q (Z.land s mask) (with_io w h)) -> wp (poll_status host fuel mask) Q w.
Proof.
  induction n as [|n IH]; intros [|fuel] w Hs Hf HQ; try lia; cbn [poll_status]; apply mwp_bind, wp_rd; cbn [shows] in Hs.
  all: destruct Hs as [ [-> Hfin]|[-> Hs] ]; [apply mwp_ret; by apply HQ|try done]. apply (IH fuel); [exact Hs|lia|]. intros s h Hfin. by apply HQ.
Qed.

Lemma land_submask s mask f : Z.land mask f = f -> has (Z.land s mask) f = has s f.
Proof. intros E. unfold has. by rewrite <- Z.land_assoc, E. Qed.

Lemma mask_ctimeout s cmd : has (Z.land s (mask_of cmd)) SDI_STA_CTIMEOUT = has s SDI_STA_CTIMEOUT.
Proof. apply land_submask. unfold mask_of. by case_match. Qed.
Lemma mask_ccrcfail s cmd : has (Z.land s (mask_of cmd)) SDI_STA_CCRCFAIL = has s SDI_STA_CCRCFAIL.
Proof. apply land_submask. unfold mask_of. by case_match. Qed.

Lemma answered_has cmd r : answered cmd r = if has (resp_type cmd) MMC_RSP_PRESENT then with_response cmd r else cmd.
Proof. unfold answered, has. by destruct (_ =? 0). Qed.
Lemma answered_idx cmd r : cmdidx (answered cmd r) = cmdidx cmd.
Proof. rewrite answered_has. by case_match. Qed.

(** The end of a command that is answered; [X] is the state of the controller behind it. *)
Lemma wp_wait cmd w r (X : hw -> Prop) Q :
  shows host polls (mask_of cmd) (fun s h' => good_status cmd s /\ X (cleared host (mask_of cmd) h') /\ response_of (cleared host (mask_of cmd) h') = r) (io w) ->
  (forall h i, X h -> 0 <= i < 4 -> reads host (r_response i) (fun h' => X h' /\ response_of h' = response_of h) (eq (nth (Z.to_nat i) (response_of h) 0)) h) ->
  length r = 4%nat -> (forall h, X h -> Q (0, answered cmd r) (with_io w h)) -> wp (wait_for_command_end host patience cmd) Q w.
Proof.
  intros Hs HX Hr HQ. unfold wait_for_command_end. cbv zeta. fold (mask_of cmd). apply mwp_bind. eapply wp_poll; [exact Hs|lia|].
  intros s h ((Hct & Hcrc) & Hx & Hres). apply mwp_bind. change (wp (wt host (mask_of cmd) r_status_clear) ?P (with_io w h)) with (P tt (with_io w (cleared host (mask_of cmd) h))).
  set (h0 := cleared host (mask_of cmd) h) in *. rewrite mask_ctimeout, Hct, mask_ccrcfail.
  assert (has s SDI_STA_CCRCFAIL && has (resp_type cmd) MMC_RSP_CRC = false) as -> by (destruct (has s SDI_STA_CCRCFAIL); [by rewrite Hcrc|done]).
  rewrite answered_has in HQ. destruct (has (resp_type cmd) MMC_RSP_PRESENT); [|apply mwp_ret; by apply HQ].
  destruct r as [|r0 [|r1 [|r2 [|r3 [|] ] ] ] ]; try done. clearbody h0.
  apply mwp_bind. eapply wp_reads; [apply HX; [exact Hx|lia]|]. intros v1 h1 V1 [Hx1 E1]. cbn [io with_io] in V1, E1. rewrite Hres in V1, E1. cbn in V1. subst v1.
  apply mwp_bind. eapply wp_reads; [apply HX; [exact Hx1|lia]|]. intros v2 h2 V2 [Hx2 E2]. cbn [io with_io] in V2, E2. rewrite E1 in V2, E2. cbn in V2. subst v2.
  apply mwp_bind. eapply wp_reads; [apply HX; [exact Hx2|lia]|]. intros v3 h3 V3 [Hx3 E3]. cbn [io with_io] in V3, E3. rewrite E2 in V3, E3. cbn in V3. subst v3.
  apply mwp_bind. eapply wp_reads; [apply HX; [exact Hx3|lia]|]. intros v4 h4 V4 [Hx4 E4]. cbn [io with_io] in V4, E4. rewrite E3 in V4, E4. cbn in V4. subst v4.
  apply mwp_ret. by apply HQ.
Qed.

Lemma wp_wt v r Q w : Q tt (with_io w (writel v (R r) (io w))) -> wp (wt host v r) Q w.
Proof. done. Qed.
Lemma wp_delay n Q w : Q tt (with_io w (udelay n (io w))) -> wp (m_udelay n) Q w.
Proof. done. Qed.

(** Up to the end of the command: the three writes. *)
Lemma wp_do_command p cmd w Q : wp (wait_for_command_end host patience cmd) (fun a => wp (let '(result, cmd) := a in
    (if (result =? 0) && (cmdidx cmd =? MMC_CMD_ALL_SEND_CID) then set p rca 10 else mret tt);;
    (if (result =? 0) && (cmdidx cmd =? MMC_CMD_SET_RELATIVE_ADDR) then
       pwr ← rd host r_power; wt host (Z.land pwr (u32 (Z.lnot SDI_PWR_OPD))) r_power else mret tt);;
    mret (result, cmd)) Q) (with_io w (issue host cmd (io w))) -> wp (do_command host patience p cmd) Q w.
Proof. intros H. unfold do_command. do 3 (apply mwp_bind; first [apply wp_wt|apply wp_delay]). by apply mwp_bind. Qed.

(** An answered command in front of a data transfer. *)
Lemma wp_do_command_data p cmd w len c r c' l Q : armed len c (io w) -> 0 <= cmdidx cmd < 64 -> cmdidx cmd <> MMC_CMD_ALL_SEND_CID ->
  cmdidx cmd <> MMC_CMD_SET_RELATIVE_ADDR -> has (resp_type cmd) MMC_RSP_PRESENT = true ->
  answer c (cmdidx cmd) (cmdarg cmd) = Some (r, c') -> sends c (cmdidx cmd) (cmdarg cmd) len = Some l -> Z.of_nat (length l) = len ->
  (forall h, receiving polls l c' h -> Q (0, answered cmd r) (with_io w h)) -> wp (do_command host patience p cmd) Q w.
Proof.
  intros Ha Hi H2 H3 Hp E Es Hl HQ. apply wp_do_command. apply (wp_wait cmd _ r (receiving polls l c')).
  - by apply (ctl_data c _ cmd len).
  - intros h i. apply ctl_response_rx.
  - by apply (answer_length c (cmdidx cmd) (cmdarg cmd) r c').
  - intros h Hr. cbn beta iota. rewrite answered_idx, (proj2 (Z.eqb_neq _ _) H2), (proj2 (Z.eqb_neq _ _) H3). cbn [andb Z.eqb].
    apply mwp_bind, mwp_ret, mwp_bind, mwp_ret, mwp_ret. by apply HQ.
Qed.

(** ** Data *)

Lemma st32_wr m a b0 b1 b2 b3 : 0 <= b0 < 256 -> 0 <= b1 < 256 -> 0 <= b2 < 256 -> 0 <= b3 < 256 ->
  mem_eq (st32 m a (word b0 b1 b2 b3)) (wr m a [b0; b1; b2; b3]).
Proof.
  intros H0 H1 H2 H3. unfold st32, word. cbn [wr].
  assert (forall x y, 0 <= x < 256 -> u8 (x + 2 ^ 8 * y) = x) as Hlow.
  { intros x y Hx. unfold u8, wrap. rewrite (Z.mul_comm (2 ^ 8)), Z.mod_add, Z.mod_small by lia. done. }
  set (v := b0 + _). assert (Z.shiftr v 8 = b1 + 2 ^ 8 * (b2 + 2 ^ 8 * b3)) as E1 by (apply byte_split; lia).
  assert (Z.shiftr v 16 = b2 + 2 ^ 8 * b3) as E2 by (change 16 with (8 + 8); rewrite <- Z.shiftr_shiftr, E1 by lia; apply byte_split; lia).
  assert (Z.shiftr v 24 = b3) as E3 by (change 24 with (16 + 8); rewrite <- Z.shiftr_shiftr, E2 by lia; apply byte_split; lia).
  rewrite E1, E2, E3. intros x. rewrite !ld_st. replace (a + 1 + 1) with (a + 2) by lia. replace (a + 2 + 1) with (a + 3) by lia.
  subst v. rewrite !Hlow by lia. rewrite !(u8_small b0), !(u8_small b1), !(u8_small b2), !(u8_small b3) by lia. done.
Qed.

Lemma wr_four m a b0 b1 b2 b3 l : wr m a (b0 :: b1 :: b2 :: b3 :: l) = wr (wr m a [b0; b1; b2; b3]) (a + 4) l.
Proof. cbn [wr]. by replace (a + 1 + 1 + 1 + 1) with (a + 4) by lia. Qed.

(** The first loop of [read_bytes] takes all bytes; [s] is the status it was entered with. *)
Lemma wp_read_loop c fuel : forall n l w a Q, receiving n l c (io w) -> Forall (fun b => 0 <= b < 256) l ->
  Z.of_nat (length l) mod 4 = 0 -> 0 <= a -> a + Z.of_nat (length l) < 2 ^ 32 -> Z.of_nat n + Z.of_nat (length l) / 4 <= Z.of_nat fuel ->
  (forall n' w' h, (n' <= n)%nat -> receiving n' [] c h -> io w' = (status h).2 -> devices w' = devices w -> cur_dev_num w' = cur_dev_num w ->
     mem_eq (ram w') (wr (ram w) a l) -> Q ((status h).1, 0) w') ->
  wp (s ← rd host r_status; read_loop host fuel s a (Z.of_nat (length l))) Q w.
Proof.
  induction fuel as [|fuel IH]; intros n l w a Q Hr Hb H4 Ha Htop Hf HQ.
  all: apply mwp_bind, wp_rd.
  all: destruct l as [|b0 [|b1 [|b2 [|b3 l] ] ] ]; try (cbn [length] in H4; discriminate H4).
  1, 3: cbn [length]; destruct (ctl_end n c _ Hr) as [He _]; assert (has (status (io w)).1 RD_ERR || (Z.of_nat 0 <? 4) = true) as Hx by (by rewrite orb_true_r);
    cbn [read_loop]; rewrite Hx; apply mwp_ret; apply (HQ n _ (io w)); [lia|done|done|done|done|done].
  - cbn [length] in Hf. exfalso. assert (1 <= Z.of_nat (S (S (S (S (length l))))) / 4) by (apply Z.div_le_lower_bound; lia). lia.
  - destruct (ctl_receive n b0 b1 b2 b3 l c _ Hr) as [He Hcase]. cbn [read_loop]. rewrite He. cbn [length orb].
    replace (Z.of_nat (S (S (S (S (length l))))) <? 4) with false by lia. cbn [length] in H4, Htop, Hf.
    assert (Z.of_nat (S (S (S (S (length l))))) = 1 * 4 + Z.of_nat (length l)) as Hlen by lia.
    rewrite Hlen in H4, Hf. rewrite Z.add_comm, Z.mod_add in H4 by lia. rewrite Z.div_add_l in Hf by lia.
    rewrite !Forall_cons_iff in Hb. destruct Hb as (B0 & B1 & B2 & B3 & Hb).
    destruct Hcase as [ [-> Hfifo]|[-> (n' & -> & Hr')] ].
    + apply mwp_bind. eapply wp_reads; [exact Hfifo|]. intros v h <- Hr'. apply mwp_bind.
      change (wp (m_st32 a (word b0 b1 b2 b3)) ?P ?w1) with (P tt (with_ram w1 (st32 (ram w1) a (word b0 b1 b2 b3)))). cbn beta.
      replace (Z.of_nat (S (S (S (S (length l))))) - 4) with (Z.of_nat (length l)) by lia. rewrite u32_small by lia.
      apply (IH n l); [exact Hr'|done|done|lia|lia|lia|]. intros n' w' h' Hn' Hr2 Eio Ed Ec Em. apply (HQ n' w' h' Hn' Hr2 Eio Ed Ec).
      rewrite Em, wr_four. cbn [ram with_ram with_io]. apply wr_proper; [by apply st32_wr|done|done].
    + replace (Z.of_nat (S (S (S (S (length l)))))) with (Z.of_nat (length (b0 :: b1 :: b2 :: b3 :: l))) by done.
      apply (IH n' (b0 :: b1 :: b2 :: b3 :: l)); [exact Hr'|by rewrite !Forall_cons_iff| |lia|cbn [length]; lia| |].
      * cbn [length]. rewrite Hlen, Z.add_comm, Z.mod_add by lia. done.
      * cbn [length]. rewrite Hlen, Z.div_add_l by lia. lia.
      * intros n2 w' h' Hn2. apply (HQ n2 w' h'). lia.
Qed.

Lemma has_lor s a b : has s (Z.lor a b) = has s a || has s b.
Proof.
  unfold has. rewrite Z.land_lor_distr_r. destruct (Z.eqb_spec (Z.land s a) 0) as [-> |Ha]; [by rewrite Z.lor_0_l|].
  cbn [negb orb]. apply negb_true_iff, Z.eqb_neq. intros E. by apply Z.lor_eq_0_iff in E as [E _].
Qed.

Lemma lor_has a b f : has (Z.lor a b) f = has a f || has b f.
Proof. unfold has. rewrite (Z.land_comm _ f), (Z.land_comm a), (Z.land_comm b). apply has_lor. Qed.

Lemma no_error s : has s RD_ERR = false -> has s SDI_STA_DTIMEOUT = false /\ has s SDI_STA_DCRCFAIL = false /\ has s SDI_STA_RXOVERR = false.
Proof. unfold RD_ERR. rewrite !has_lor. intros H. apply orb_false_iff in H as [H ->]. by apply orb_false_iff in H as [-> ->]. Qed.

Lemma wp_end_loop c fuel : forall n h w Q, receiving n [] c h -> io w = (status h).2 -> (n <= fuel)%nat ->
  (forall s h', has s RD_ERR = false -> ready c (cleared host SDI_ICR_MASK h') -> Q s (with_io w h')) ->
  wp (end_loop host fuel (Z.lor RD_ERR SDI_STA_DBCKEND) (status h).1) Q w.
Proof.
  induction fuel as [|fuel IH]; intros n h w Q Hr Hio Hn HQ; destruct (ctl_end n c h Hr) as [He [ [Hd Hend]|(Hd & n' & -> & Hr')] ];
    cbn [end_loop]; rewrite has_lor, He, Hd; cbn [orb]; try lia.
  1, 2: apply mwp_ret; replace w with (with_io w (status h).2) by (rewrite <- Hio; by destruct w); by apply HQ.
  apply mwp_bind, wp_rd. rewrite Hio. apply (IH n'); [done|done|lia|]. intros s h'. apply HQ.
Qed.

Lemma wp_assoc A B C (m : M A) (f : A -> M B) (g : B -> M C) Q w : wp ((m ≫= f) ≫= g) Q w -> wp (m ≫= fun x => f x ≫= g) Q w.
Proof. unfold wp, mbind, M_bind. by destruct (m w) as [ [? ?]|]. Qed.

Lemma wp_read_bytes c l w a nb bs Q : receiving polls l c (io w) -> Forall (fun b => 0 <= b < 256) l -> Z.of_nat (length l) = nb * bs ->
  0 < nb * bs < 2 ^ 16 -> (nb * bs) mod 4 = 0 -> 0 <= a -> a + nb * bs < 2 ^ 32 ->
  (forall h m, ready c h -> mem_eq m (wr (ram w) a l) -> Q 0 (World (devices w) (cur_dev_num w) h m)) ->
  wp (read_bytes host patience a nb bs) Q w.
Proof.
  intros Hr Hb Hl Hlen H4 Ha Htop HQ. unfold read_bytes. cbv zeta. rewrite u32_small by lia. rewrite <- Hl in *.
  apply wp_assoc, mwp_bind. apply (wp_read_loop c patience polls l w a); [done..|lia| |].
  { assert (Z.of_nat (length l) / 4 <= 2 ^ 14) by (apply Z.div_le_upper_bound; lia). lia. }
  intros n' w' h Hn' Hr' Eio Ed Ec Em. cbn beta iota. apply mwp_bind. apply (wp_end_loop c patience n' h w'); [done|done|lia|].
  intros s h' He Hend. destruct (no_error s He) as (-> & -> & ->). apply mwp_bind, wp_wt, mwp_ret. cbn [negb Z.eqb]. destruct w' as [dv cn io' m']. cbn in *. subst dv cn. by apply HQ.
Qed.

Lemma data_control_flags t : has (Z.lor (data_control host t) SDI_DCTRL_DTDIR_IN) SDI_DCTRL_DTEN = true /\
  has (Z.lor (data_control host t) SDI_DCTRL_DTDIR_IN) SDI_DCTRL_DTDIR_IN = true.
Proof. unfold data_control. cbv zeta. rewrite !lor_has. rewrite !orb_true_iff. split; [left; right; by left|by right]. Qed.

Lemma driver_read p cmd t w c r c' l : ready c (io w) -> 0 <= cmdidx cmd < 64 -> cmdidx cmd <> MMC_CMD_ALL_SEND_CID ->
  cmdidx cmd <> MMC_CMD_SET_RELATIVE_ADDR -> has (resp_type cmd) MMC_RSP_PRESENT = true -> transfer_ok t ->
  answer c (cmdidx cmd) (cmdarg cmd) = Some (r, c') -> sends c (cmdidx cmd) (cmdarg cmd) (blocks t * blocksize t) = Some l ->
  Z.of_nat (length l) = blocks t * blocksize t ->
  wp (host_request host patience p cmd (Some t)) (fun a w' => a = (0, answered cmd r) /\
    exists h m, w' = World (devices w) (cur_dev_num w) h m /\ ready c' h /\ mem_eq m (wr (ram w) (buf t) l)) w.
Proof.
  intros Hr Hi H2 H3 Hp (Hfl & Hlen & H4 & Hlo & Hhi) E Es Hl. cbn [host_request]. unfold do_data_transfer. cbv zeta.
  do 3 (apply mwp_bind; first [apply wp_wt|apply wp_delay]). rewrite Hfl. change (has MMC_DATA_READ MMC_DATA_READ) with true. cbn iota. rewrite u32_small by lia.
  apply mwp_bind, wp_wt. cbn [io with_io]. destruct (data_control_flags t) as [Hdten Hdin].
  apply mwp_bind. eapply (wp_do_command_data p cmd _ _ c r c' l); [exact (ctl_arm c (io w) (blocks t * blocksize t) _ Hr Hlen Hdten Hdin)|done..|]. intros h Hrec. cbn beta iota. change (negb (0 =? 0)) with false. cbn iota.
  apply mwp_bind. apply (wp_read_bytes c' l); [done|by eapply sends_bytes|done..|]. intros h' m Hr' Hm. apply mwp_ret. split; [done|]. exists h', m. done.
Qed.

Lemma same_device w p d h : devices w !! p = Some d -> with_io w h = World (<[p:=d]> (devices w)) (cur_dev_num w) h (ram w).
Proof. intros E. by rewrite list_insert_id. Qed.

Lemma driver_cmd p cmd w d c r c' : devices w !! p = Some d -> ready c (io w) -> proper_cmd cmd = true -> 0 <= cmdidx cmd < 64 ->
  answer c (cmdidx cmd) (cmdarg cmd) = Some (r, c') ->
  wp (host_request host patience p cmd None) (fun a w' => a = (0, answered cmd r) /\
    exists d' h, w' = World (<[p:=d']> (devices w)) (cur_dev_num w) h (ram w) /\ ready c' h /\ frame [rca] d d' /\
      (cmdidx cmd <> MMC_CMD_ALL_SEND_CID -> d' = d)) w.
Proof.
  intros Hd Hr Hpr Hi E. cbn [host_request]. apply wp_do_command. apply (wp_wait cmd _ r (ready c')).
  - by apply (ctl_answer c (io w)).
  - intros h i. apply ctl_response.
  - by eapply answer_length.
  - intros h Hr'. cbn beta iota. rewrite answered_idx. change (0 =? 0) with true. cbn [andb]. destruct (Z.eqb_spec (cmdidx cmd) MMC_CMD_ALL_SEND_CID) as [E2|E2].
    + rewrite E2. change (MMC_CMD_ALL_SEND_CID =? MMC_CMD_SET_RELATIVE_ADDR) with false. apply mwp_bind. eapply wp_set; [exact Hd|].
      apply mwp_bind, mwp_ret, mwp_ret. split; [done|]. exists (set_val d rca 10), h. split_and!; [done|done| |done].
      split; [|done]. intros g Hg. cbn in *. destruct g; done.
    + apply mwp_bind, mwp_ret. apply mwp_bind. destruct (Z.eqb_spec (cmdidx cmd) MMC_CMD_SET_RELATIVE_ADDR) as [E3|E3].
      * apply mwp_bind. eapply wp_reads; [exact (ctl_power c' h Hr')|]. intros v h1 Hv Hr1. apply wp_wt, mwp_ret. split; [done|]. eexists d, _. split; [by apply (same_device w)|].
        split_and!; [|done|done]. apply ctl_set_power; [done|]. rewrite <- Z.land_assoc. exact Hv.
      * apply mwp_ret, mwp_ret. split; [done|]. exists d, h. split; [by apply (same_device w)|done].
Qed.

(** ** Data to the card *)

Lemma unword_bytes m a : unword (ld32 m a) = bytes m a 4.
Proof.
  unfold unword, ld32. cbn [bytes]. replace (a + 1 + 1) with (a + 2) by lia. replace (a + 2 + 1) with (a + 3) by lia.
  pose proof (ld_range m a) as H0. pose proof (ld_range m (a + 1)) as H1. pose proof (ld_range m (a + 2)) as H2. pose proof (ld_range m (a + 3)) as H3.
  set (b0 := ld m a) in *. set (b1 := ld m (a + 1)) in *. set (b2 := ld m (a + 2)) in *. set (b3 := ld m (a + 3)) in *. clearbody b0 b1 b2 b3.
  assert (forall x y, 0 <= x < 256 -> u8 (x + 2 ^ 8 * y) = x) as Hlow.
  { intros x y Hx. unfold u8, wrap. rewrite (Z.mul_comm (2 ^ 8)), Z.mod_add, Z.mod_small by lia. done. }
  set (v := b0 + _). assert (Z.shiftr v 8 = b1 + 2 ^ 8 * (b2 + 2 ^ 8 * b3)) as E1 by (apply byte_split; lia).
  assert (Z.shiftr v 16 = b2 + 2 ^ 8 * b3) as E2 by (change 16 with (8 + 8); rewrite <- Z.shiftr_shiftr, E1 by lia; apply byte_split; lia).
  assert (Z.shiftr v 24 = b3) as E3 by (change 24 with (16 + 8); rewrite <- Z.shiftr_shiftr, E2 by lia; apply byte_split; lia).
  rewrite E1, E2, E3. subst v. rewrite !Hlow by lia. by rewrite u8_small.
Qed.

Lemma wp_push_words c len : forall k n room l w a Q, writing n (k + room) l len c (io w) -> Z.of_nat (length l) + 4 * Z.of_nat k <= len ->
  0 <= a -> a + 4 * Z.of_nat k < 2 ^ 32 ->
  (forall h, writing n room (l ++ bytes (ram w) a (4 * k)) len c h -> Q tt (with_io w h)) -> wp (push_words host k a) Q w.
Proof.
  induction k as [|k IH]; intros n room l w a Q Hw Hlen Ha Htop HQ; cbn [push_words].
  - apply mwp_ret. replace w with (with_io w (io w)) by (by destruct w). apply HQ. by rewrite app_nil_r.
  - apply mwp_bind. eapply wp_of_run; [reflexivity|]. cbn beta. apply mwp_bind, wp_wt. rewrite u32_small by lia.
    apply (IH n room (l ++ unword (ld32 (ram w) a))); [apply ctl_push; [exact Hw|lia]|rewrite length_app; cbn [unword length]; lia|lia|lia|].
    intros h Hh. apply HQ. replace (4 * S k)%nat with (4 + 4 * k)%nat by lia. rewrite bytes_app, <- unword_bytes, app_assoc. exact Hh.
Qed.

(** The loop writes everything; [h] is the state behind the last word. *)
Lemma wp_write_loop c c' len all fuel : takes c all = Some c' -> forall n room l todo w a Q, writing n room l len c (io w) -> all = l ++ bytes (ram w) a (Z.to_nat todo) ->
  Z.of_nat (length l) + todo = len -> 0 <= todo -> todo mod 4 = 0 -> 0 <= a -> a + todo < 2 ^ 32 -> Z.of_nat n + todo / 4 <= Z.of_nat fuel ->
  (forall n' room' h h0, (n' <= n)%nat -> writing n' room' all len c h0 -> h = (status h0).2 -> Q ((status h0).1, 0) (with_io w h)) ->
  wp (s ← rd host r_status; write_loop host fuel s a todo) Q w.
Proof.
  intros Ht. induction fuel as [|fuel IH]; intros n room l todo w a Q Hw Hall Hlen Hpos H4 Ha Htop Hf HQ; apply mwp_bind, wp_rd; cbn [write_loop].
  all: destruct (Z.eqb_spec todo 0) as [-> |Hne].
  1, 3: rewrite orb_true_r; apply mwp_ret; cbn [Z.to_nat bytes] in Hall; rewrite app_nil_r in Hall; subst all; by apply (HQ n room _ (io w)).
  - exfalso. assert (1 <= todo / 4) by (apply Z.div_le_lower_bound; [lia|]; pose proof (Z.div_mod todo 4); lia). lia.
  - pose proof (Z.div_mod todo 4 ltac:(lia)) as Hdm. rewrite H4, Z.add_0_r in Hdm.
    destruct (ctl_room n room l len c _ Hw ltac:(lia)) as [He Hcase]. rewrite He. cbn [orb]. destruct Hcase as [ [-> Hw']|[-> (n' & -> & Hw')] ].
    + cbn zeta. set (k := if Z.of_nat SDI_FIFO_BURST_SIZE * 4 <=? todo then SDI_FIFO_BURST_SIZE else Z.to_nat (todo / 4)).
      assert ((0 < k <= SDI_FIFO_BURST_SIZE)%nat /\ 4 * Z.of_nat k <= todo) as [Hk Hk4]
        by (subst k; change (Z.of_nat SDI_FIFO_BURST_SIZE * 4) with 32; change SDI_FIFO_BURST_SIZE with 8%nat; case_bools; lia). clearbody k.
      apply mwp_bind. apply (wp_push_words c len k n (SDI_FIFO_BURST_SIZE - k) l); [|lia|lia|lia|].
      { replace (k + (SDI_FIFO_BURST_SIZE - k))%nat with SDI_FIFO_BURST_SIZE by lia. exact Hw'. }
      intros h Hh. cbn [ram with_io] in Hh. rewrite u32_small by lia. assert (todo - 4 * Z.of_nat k = 4 * (todo / 4 - Z.of_nat k)) as Hrest by lia.
      apply (IH n (SDI_FIFO_BURST_SIZE - k)%nat (l ++ bytes (ram w) a (4 * k))); [exact Hh| | | | | | | |].
      * rewrite Hall, <- app_assoc. f_equal. replace (Z.to_nat todo) with (4 * k + Z.to_nat (todo - 4 * Z.of_nat k))%nat by lia. rewrite bytes_app. cbn [ram with_io]. do 2 f_equal. lia.
      * rewrite length_app, length_bytes. lia.
      * lia.
      * rewrite Hrest, Z.mul_comm. apply Z.mod_mul. lia.
      * lia.
      * lia.
      * rewrite Hrest, (Z.mul_comm 4), Z.div_mul by lia. lia.
      * done.
    + cbn zeta. apply mwp_bind. apply mwp_ret. change (4 * Z.of_nat 0) with 0. rewrite Z.add_0_r, Z.sub_0_r, u32_small by lia.
      apply (IH n' room l); [exact Hw'|done|done|done|done|done|done|lia|]. intros n2 room' h h0 Hn2. apply HQ. lia.
Qed.

Lemma wp_sent_loop c c' l len fuel : takes c l = Some c' -> Z.of_nat (length l) = len -> forall n room h w Q, writing n room l len c h -> io w = (status h).2 -> (n <= fuel)%nat ->
  (forall s h', has s WR_ERR = false -> ready c' (cleared host SDI_ICR_MASK h') -> Q s (with_io w h')) ->
  wp (end_loop host fuel (Z.lor WR_ERR SDI_STA_DBCKEND) (status h).1) Q w.
Proof.
  intros Ht Hl. induction fuel as [|fuel IH]; intros n room h w Q Hw Hio Hn HQ; destruct (ctl_sent n room l len c h c' Hw Hl Ht) as [He [ [Hd Hend]|(Hd & n' & -> & Hw')] ];
    cbn [end_loop]; rewrite has_lor, He, Hd; cbn [orb]; try lia.
  1, 2: apply mwp_ret; replace w with (with_io w (status h).2) by (rewrite <- Hio; by destruct w); by apply HQ.
  apply mwp_bind, wp_rd. rewrite Hio. apply (IH n' room); [done|done|lia|]. intros s h'. apply HQ.
Qed.

Lemma no_write_error s : has s WR_ERR = false -> has s SDI_STA_DTIMEOUT = false /\ has s SDI_STA_DCRCFAIL = false.
Proof. unfold WR_ERR. rewrite has_lor. intros H. by apply orb_false_iff in H as [-> ->]. Qed.

Lemma wp_write_bytes c c' w a nb bs Q : writing polls 0 [] (nb * bs) c (io w) -> takes c (bytes (ram w) a (Z.to_nat (nb * bs))) = Some c' ->
  0 < nb * bs < 2 ^ 16 -> (nb * bs) mod 4 = 0 -> 0 <= a -> a + nb * bs < 2 ^ 32 ->
  (forall h, ready c' h -> Q 0 (with_io w h)) -> wp (write_bytes host patience a nb bs) Q w.
Proof.
  intros Hw Ht Hlen H4 Ha Htop HQ. unfold write_bytes. cbv zeta. rewrite u32_small by lia.
  apply wp_assoc, mwp_bind. eapply (wp_write_loop c c' (nb * bs) _ patience Ht polls 0 []); [exact Hw|done|cbn; lia|lia|done|done|done| |].
  { assert (nb * bs / 4 <= 2 ^ 14) by (apply Z.div_le_upper_bound; lia). lia. }
  intros n' room' h h0 Hn' Hw' ->. cbn beta iota. apply mwp_bind.
  apply (wp_sent_loop c c' (bytes (ram w) a (Z.to_nat (nb * bs))) (nb * bs) patience Ht ltac:(rewrite length_bytes; lia) n' room' h0); [done|done|lia|].
  intros s h' He Hend. destruct (no_write_error s He) as (-> & ->). apply mwp_bind, wp_wt, mwp_ret. cbn [negb Z.eqb]. by apply HQ.
Qed.

Lemma data_control_out t : has (data_control host t) SDI_DCTRL_DTEN = true /\ has (data_control host t) SDI_DCTRL_DTDIR_IN = false.
Proof.
  unfold data_control. cbv zeta. rewrite !lor_has. split; [by rewrite orb_true_r|].
  change (has SDI_DCTRL_DTEN SDI_DCTRL_DTDIR_IN || has SDI_DCTRL_BUSYMODE SDI_DCTRL_DTDIR_IN) with false. rewrite orb_false_r.
  change SDI_DCTRL_DTDIR_IN with (2 ^ 1). destruct (negb (version2 host)).
  - unfold has. rewrite <- Z.land_assoc. change (Z.land SDI_DCTRL_DBLKSIZE_MASK (2 ^ 1)) with 0. by rewrite Z.land_0_r.
  - rewrite status_bit by lia. unfold u32, wrap. rewrite Z.mod_pow2_bits_low by lia. apply Z.shiftl_spec_low. by vm_compute.
Qed.

Lemma driver_write p cmd t w c r c1 c2 : ready c (io w) -> 0 <= cmdidx cmd < 64 -> cmdidx cmd <> MMC_CMD_ALL_SEND_CID ->
  cmdidx cmd <> MMC_CMD_SET_RELATIVE_ADDR -> has (resp_type cmd) MMC_RSP_PRESENT = true -> send_ok t ->
  answer c (cmdidx cmd) (cmdarg cmd) = Some (r, c1) -> takes c1 (bytes (ram w) (buf t) (Z.to_nat (blocks t * blocksize t))) = Some c2 ->
  wp (host_request host patience p cmd (Some t)) (fun a w' => a = (0, answered cmd r) /\ exists h, w' = with_io w h /\ ready c2 h) w.
Proof.
  intros Hr Hi H2 H3 Hp (Hfl & Hlen & H4 & Hlo & Hhi) E Et. cbn [host_request]. unfold do_data_transfer. cbv zeta.
  do 2 apply mwp_bind, wp_wt. apply mwp_bind, wp_delay. rewrite u32_small by lia. rewrite Hfl. change (has MMC_DATA_WRITE MMC_DATA_READ) with false.
  change (has MMC_DATA_WRITE MMC_DATA_WRITE) with true. cbn iota. apply mwp_bind. apply wp_do_command.
  apply (wp_wait cmd _ r (loaded (blocks t * blocksize t) c1)).
  - apply (ctl_answer_loaded c _ cmd); [|done|done|done]. apply (ctl_preset c _ (blocks t * blocksize t) Hr Hlen).
  - intros h i. apply ctl_response_loaded.
  - by apply (answer_length c (cmdidx cmd) (cmdarg cmd) r c1).
  - intros h Hld. cbn beta iota. rewrite answered_idx, (proj2 (Z.eqb_neq _ _) H2), (proj2 (Z.eqb_neq _ _) H3). cbn [andb Z.eqb].
    apply mwp_bind, mwp_ret, mwp_bind, mwp_ret, mwp_ret. cbn [negb]. cbn beta iota. apply mwp_bind, wp_wt, mwp_bind. destruct (data_control_out t) as [Hen Hdir].
    apply (wp_write_bytes c1 c2); [by apply ctl_start|done|done|done|done|done|]. intros h' Hr'. apply mwp_ret. split; [done|]. by exists h'.
Qed.

Lemma driver_silent p cmd w c : has (resp_type cmd) MMC_RSP_PRESENT = true -> ready c (io w) -> 0 <= cmdidx cmd < 64 ->
  answer c (cmdidx cmd) (cmdarg cmd) = None ->
  wp (host_request host patience p cmd None) (fun a w' => a = (- ETIMEDOUT, cmd) /\ exists h, w' = with_io w h /\ ready c h) w.
Proof.
  intros Hp Hr Hi E. cbn [host_request]. apply wp_do_command. unfold wait_for_command_end. cbv zeta. fold (mask_of cmd). apply mwp_bind.
  eapply wp_poll; [exact (ctl_silent c _ cmd Hr Hi Hp E)|lia|]. intros s h [Ht Hr']. apply mwp_bind, wp_wt. rewrite mask_ctimeout, Ht. apply mwp_ret.
  cbn beta iota. change (- ETIMEDOUT =? 0) with false. cbn [andb]. apply mwp_bind, mwp_ret, mwp_bind, mwp_ret, mwp_ret. split; [done|]. by exists (cleared host (mask_of cmd) h).
Qed.

(** ** The clock *)

Context (Hpower : Z.land (pwr_init host) 3 = 3).
Context (Hclock : 0 < clock_max host /\ 2 * clock_max host <= clock_in host < 2 ^ 31 /\ clock_in host / clock_max host < Z.of_nat patience).

Lemma wp_div32 a b Q w : b <> 0 -> Q (a / b) w -> wp (div32 a b) Q w.
Proof. intros Hb HQ. unfold div32. by rewrite (proj2 (Z.eqb_neq _ _) Hb). Qed.

(** The loop ends at the first divider that is slow enough. *)
Lemma wp_clkdiv_loop clk Q w : 0 < clk -> forall fuel k, 0 <= k -> k <= clock_in host / clk -> clock_in host / clk - k <= Z.of_nat fuel ->
  (forall k', k <= k' -> k' <= clock_in host / clk -> clock_in host / (k' + 2) <= clk ->
     (forall j, k <= j < k' -> clk < clock_in host / (j + 2)) -> Q (k', clock_in host / (k' + 2)) w) ->
  wp (clkdiv_loop host fuel k (clock_in host / (k + 2)) clk) Q w.
Proof.
  clear Hpat Hpower. intros Hclk. assert (clock_in host / clk < 2 ^ 31) as Hq by (apply Z.div_lt_upper_bound; nia).
  assert (forall k, 0 <= k -> clk < clock_in host / (k + 2) -> k + 2 <= clock_in host / clk) as Hslow.
  { intros k Hk Hlt. apply Z.div_le_lower_bound; [lia|]. pose proof (Z.mul_div_le (clock_in host) (k + 2) ltac:(lia)). nia. }
  induction fuel as [|fuel IH]; intros k Hk Hkq Hf HQ; cbn [clkdiv_loop]; destruct (Z.ltb_spec clk (clock_in host / (k + 2))) as [Hlt|Hge]; cbn [negb].
  2, 4: apply mwp_ret; apply HQ; [lia|lia|lia|intros; lia].
  - pose proof (Hslow k Hk Hlt). lia.
  - pose proof (Hslow k Hk Hlt). cbv zeta. rewrite (u32_small (k + 1)) by lia. apply mwp_bind. rewrite u32_small by lia. apply wp_div32; [lia|]. apply IH; [lia|lia|lia|].
    intros k' H1 H2 H3 H4. apply HQ; [lia|done|done|]. intros j Hj. destruct (Z.eq_dec j k) as [-> |]; [done|apply H4; lia].
Qed.

(** The divider register for a clock: the smallest that is slow enough, cut to eight bits. *)
Lemma wp_clock_divider p d w Q : devices w !! p = Some d -> 0 < val d clock < 2 ^ 32 -> f_max (cfg d) = clock_max host ->
  (forall k d', 0 <= k <= 255 -> frame [clock] d d' -> val d' clock = clock_in host / (k + 2) ->
     (clock_in host / 257 <= Z.min (val d clock) (clock_max host) -> val d' clock <= Z.min (val d clock) (clock_max host)) ->
     (forall j, 0 <= j < k -> Z.min (val d clock) (clock_max host) * (j + 2) < clock_in host) ->
     Q k (World (<[p:=d']> (devices w)) (cur_dev_num w) (io w) (ram w))) -> wp (clock_divider host patience p) Q w.
Proof.
  clear Hpat Hpower. destruct Hclock as (Hm & Hin & Hp). assert (2 <= clock_in host / clock_max host) by (apply Z.div_le_lower_bound; lia). intros Hd Hck Hfm HQ. unfold clock_divider. apply mwp_bind. eapply wp_dev; [exact Hd|]. rewrite Hfm.
  set (clk := Z.min (val d clock) (clock_max host)).
  assert (forall k w' d1, 0 <= k -> k <= clock_in host / clk -> clock_in host / clk - k <= Z.of_nat patience -> frame [clock] d d1 -> val d1 clock = clk ->
    (forall j, 0 <= j < k -> clk * (j + 2) < clock_in host) ->
    w' = World (<[p:=d1]> (devices w)) (cur_dev_num w) (io w) (ram w) -> wp (clk ← get p clock;
      t ← div32 (clock_in host) (u32 (k + 2));
      '(clkdiv, _) ← clkdiv_loop host patience k t clk;
      let clkdiv := if SDI_CLKCR_CLKDIV_MASK <? clkdiv then SDI_CLKCR_CLKDIV_MASK else clkdiv in
      t ← div32 (clock_in host) (u32 (clkdiv + 2));
      set p clock t;; mret clkdiv) Q w') as Hrest.
  { intros k w' d1 Hk Hkq Hf F Hc Hbefore ->. assert (0 < clk) as Hclk by lia. assert (clock_in host / clk < 2 ^ 31) as Hq
      by (apply Z.div_lt_upper_bound; nia).
    assert (<[p:=d1]> (devices w) !! p = Some d1) as Hd1 by (apply list_lookup_insert_eq; by eapply lookup_lt_Some).
    apply mwp_bind. eapply wp_get; [exact Hd1|]. rewrite Hc. apply mwp_bind. rewrite u32_small by lia. apply wp_div32; [lia|]. apply mwp_bind.
    apply wp_clkdiv_loop; [done|done|done|done|]. intros k' H1 H2 H3 H4. cbn beta iota zeta.
    set (k2 := if SDI_CLKCR_CLKDIV_MASK <? k' then SDI_CLKCR_CLKDIV_MASK else k').
    assert (0 <= k2 <= 255 /\ k2 <= k' /\ (k2 = k' \/ k2 = 255)) as (Hk2 & Hk2' & Hk2c) by (subst k2; unfold SDI_CLKCR_CLKDIV_MASK; case_bools; lia).
    apply mwp_bind. rewrite u32_small by lia. apply wp_div32; [lia|]. apply mwp_bind. eapply wp_set; [exact Hd1|]. apply mwp_ret. cbn [devices with_devices cur_dev_num io ram].
    rewrite list_insert_insert_eq. apply HQ; [done| |done| |].
    - destruct F as [V C]. split; [|done]. intros g Hg. cbn in *. destruct g; try done; by apply V.
    - cbn. intros Hle. destruct Hk2c as [-> | ->]; [done|]. change (255 + 2) with 257. done.
    - intros j Hj. destruct (Z.lt_ge_cases j k) as [Hj2|Hj2]; [apply Hbefore; lia|]. pose proof (H4 j ltac:(lia)) as Hj3.
      pose proof (Z.mul_div_le (clock_in host) (j + 2) ltac:(lia)). nia. }
  apply mwp_bind. destruct (Z.leb_spec (clock_max host) (val d clock)) as [Hle|Hlt].
  - apply mwp_bind. eapply wp_set; [exact Hd|]. apply mwp_ret. assert (clk = clock_max host) as Ec by (subst clk; lia).
    apply (Hrest 0 _ (set_val d clock (clock_max host))); [lia|apply Z.div_pos; lia|rewrite Ec; lia| |by rewrite Ec|intros; lia|done].
    split; [|done]. intros g Hg. cbn in *. destruct g; done.
  - assert (clk = val d clock) as Ec by (subst clk; lia). assert (2 <= clock_in host / clk) as Hq by (apply Z.div_le_lower_bound; lia).
    assert (clock_in host / clk < 2 ^ 31) by (apply Z.div_lt_upper_bound; nia).
    apply mwp_bind, wp_div32; [lia|]. rewrite <- Ec. rewrite u32_small by lia. apply mwp_ret.
    apply (Hrest _ _ d); [lia|lia|lia|done|done| |].
    + intros j Hj. pose proof (Z.mul_div_le (clock_in host) clk ltac:(lia)). nia.
    + rewrite list_insert_id by done. by destruct w.
Qed.

(** ** The driver works *)

Lemma clken_kept v k : has v SDI_CLKCR_CLKEN = true -> has (Z.lor (Z.land v (u32 (Z.lnot SDI_CLKCR_CLKDIV_MASK))) k) SDI_CLKCR_CLKEN = true.
Proof. intros H. rewrite lor_has, land_submask by done. by rewrite H. Qed.
Lemma clken_kept_width v k : has v SDI_CLKCR_CLKEN = true -> has (Z.lor (Z.land v (u32 (Z.lnot SDI_CLKCR_WIDBUS_MASK))) k) SDI_CLKCR_CLKEN = true.
Proof. intros H. rewrite lor_has, land_submask by done. by rewrite H. Qed.

Lemma driver_ios p d w c : devices w !! p = Some d -> ready c (io w) -> 0 <= val d clock < 2 ^ 32 -> f_max (cfg d) = clock_max host ->
  wp (host_set_ios host patience p) (fun a w' => a = 0 /\ exists d' h, w' = World (<[p:=d']> (devices w)) (cur_dev_num w) h (ram w) /\ ready c h /\
    frame [clock] d d' /\ 0 <= val d' clock < 2 ^ 32) w.
Proof.
  intros Hd Hr Hck Hfm. destruct Hclock as (Hm & Hin & Hp). unfold host_set_ios. apply mwp_bind. eapply wp_reads; [exact (ctl_clock c _ Hr)|]. intros v h Hv Hr1.
  apply mwp_bind. eapply wp_dev; [exact Hd|]. apply mwp_bind.
  assert (forall v' d1 w1, has v' SDI_CLKCR_CLKEN = true -> frame [clock] d d1 -> 0 <= val d1 clock < 2 ^ 32 -> w1 = World (<[p:=d1]> (devices w)) (cur_dev_num w) h (ram w) ->
    wp (let sdi_clkcr := if negb (val d bus_width =? 0) then
          Z.lor (Z.land v' (u32 (Z.lnot SDI_CLKCR_WIDBUS_MASK))) (bus_width_bits (val d bus_width)) else v' in
        wt host sdi_clkcr r_clock;; m_udelay CLK_CHANGE_DELAY;; mret 0)
      (fun a w' => a = 0 /\ exists d' h, w' = World (<[p:=d']> (devices w)) (cur_dev_num w) h (ram w) /\ ready c h /\ frame [clock] d d' /\ 0 <= val d' clock < 2 ^ 32) w1) as Hrest.
  { intros v' d1 w1 Hv' F1 Hc1 ->. cbv zeta. apply mwp_bind, wp_wt, mwp_bind, wp_delay, mwp_ret. split; [done|]. eexists d1, _. split; [done|]. split; [|done].
    apply ctl_delay, ctl_set_clock; [done|]. case_match; [by apply clken_kept_width|done]. }
  destruct (Z.eqb_spec (val d clock) 0) as [E|E]; cbn [negb].
  - apply mwp_ret. apply (Hrest v d); [done|done|done|by apply (same_device w)].
  - apply mwp_bind. apply (wp_clock_divider p d); [done|lia|done|]. intros k d' Hk F Hc _ _. apply mwp_ret. apply (Hrest _ d'); [by apply clken_kept|done| |done].
    rewrite Hc. split; [apply Z.div_pos; lia|]. apply Z.div_lt_upper_bound; lia.
Qed.

Definition pl180_works : Works (HO := arm_pl180_mmci_ops host patience).
Proof.
  unshelve refine {| linked := ready; cfg_ok g := f_max g = clock_max host |}.
  - intros p cmd w d c r c' Hd Hr Hpr Hi _ E. destruct (wp_run _ _ _ (driver_cmd p cmd w d c r c' Hd Hr Hpr Hi E)) as (a & w' & Erun & -> & d' & h & -> & H). by exists d', h.
  - intros p cmd w c Hp Hr Hi _ E.
    assert (has (resp_type cmd) MMC_RSP_PRESENT = true) as Hp' by (unfold has; by rewrite (proj2 (Z.eqb_neq _ _) Hp)).
    destruct (wp_run _ _ _ (driver_silent p cmd w c Hp' Hr Hi E)) as (a & w' & Erun & -> & h & -> & H). by exists h.
  - intros p cmd t w c r c' l Hr Hi _ H2 H3 Hp Ht E Es Hl.
    assert (has (resp_type cmd) MMC_RSP_PRESENT = true) as Hp' by (unfold has; by rewrite (proj2 (Z.eqb_neq _ _) Hp)).
    destruct (wp_run _ _ _ (driver_read p cmd t w c r c' l Hr Hi H2 H3 Hp' Ht E Es Hl)) as (a & w' & Erun & -> & h & m & -> & H). by exists h, m.
  - intros p cmd t w c r c1 c2 Hr Hi _ H2 H3 Hp Ht E Et.
    assert (has (resp_type cmd) MMC_RSP_PRESENT = true) as Hp' by (unfold has; by rewrite (proj2 (Z.eqb_neq _ _) Hp)).
    destruct (wp_run _ _ _ (driver_write p cmd t w c r c1 c2 Hr Hi H2 H3 Hp' Ht E Et)) as (a & w' & Erun & -> & h & -> & H). by exists h.
  - intros f p w d c [= <-] Hd Hr Hck Hg. destruct (wp_run _ _ _ (driver_ios p d w c Hd Hr Hck Hg)) as (a & w' & Erun & -> & d' & h & -> & H). by exists d', h.
  - intros f p w c [= <-] Hr. eexists. split; [reflexivity|]. apply ctl_set_power; [done|]. exact Hpower.
  - intros c n h. apply ctl_delay.
  - intros c n h. apply ctl_timer.
Defined.

End Driver.

End SdHost.
