(* ===== verification/SdBoot.v ===== *)
(** * SdBoot: the SD card from power-on to the blocks of a partition

    [mmc_initialize] registers the controller of the board, [mmc_get_dev] starts the card, [mmc_bread] reads it: the
    pieces of Mmc.v, Pl180.v, SdInit.v and SdHost.v together, with the search for a partition table (disk/part.c,
    disk/part_dos.c) on the running device.  A card that was started is a block device in the sense of Blk.v, which
    the file system layer is proved against.  The last part is a card and a controller that follow the interfaces. *)

From stdpp Require Import base list option.
From Stdlib Require Import ZifyBool.
From S2P Require Import Prelude Cmem Blk Ext4 Part Fs MmcTypes Mmc Pl180 SdCard SdInit SdWrite SdHost.
Import MmcTypes Mmc SdCard SdInit SdWrite SdHost.
Import Pl180.

Module SdBoot.

(** ** Partition tables on a device *)

Section Tables.
Context {PF : Platform} {HO : MmcHost} (stack : Z).

(** [part_test_dos]: the buffer is on the stack.  The members [sig_type] and [mbr_sig] are left out. *)
Definition block_type : M Z := fun w => t ← Part.test_block_type (bytes (ram w) stack 512); Some (t, w).
Definition part_test_dos (p : nat) : M Z :=
  n ← mmc_bread p 0 1 stack;
  if negb (n =? 1) then mret (-1) else
  t ← block_type;
  mret (if negb (t =? Part.DOS_MBR) then -1 else 0).

(** A driver: the type of its tables and its test. *)
Definition driver : Type := Z * (nat -> M Z).
Definition dos : driver := (Part.PART_TYPE_DOS, part_test_dos).

Fixpoint test_loop (l : list driver) (p : nat) : M unit :=
  match l with
  | [] => mret tt
  | (part_type, test) :: l => ret ← test p; if ret =? 0 then set p bd_part_type part_type else test_loop l p
  end.

Definition part_init (drivers : list driver) (p : nat) : M unit :=
  set p bd_part_type Part.PART_TYPE_UNKNOWN;; test_loop drivers p.

End Tables.

Lemma read_back m a disk b n : bytes (wr m a (bytes disk b n)) a n = bytes disk b n.
Proof.
  rewrite <- (length_bytes disk b n) at 2. apply bytes_wr. apply Forall_lookup. intros i x Hx. assert (i < n)%nat as Hi by (rewrite <- (length_bytes disk b n); by eapply lookup_lt_Some).
  rewrite bytes_lookup in Hx by done. injection Hx as <-. apply ld_range.
Qed.

(** The device as the layers above see it: a read through [buffer]. *)
Definition to_blk_desc {PF : Platform} {HO : MmcHost} (p : nat) (buffer : Z) (w : world) (d : mmc) : Part.blk_desc := {|
  Part.bd_if_type := val d bd_if_type; Part.bd_devnum := val d bd_devnum; Part.bd_part_type := val d bd_part_type;
  Part.bd_type := val d bd_type; Part.bd_lba := val d bd_lba; Part.bd_blksz := val d bd_blksz; Part.bd_log2blksz := val d bd_log2blksz;
  Part.bd_dread s n := match mmc_bread p s n buffer w with
                       | Some (r, w') => (r, bytes (ram w') buffer (Z.to_nat (n * 512)))
                       | None => (0, []) end
|}.

(** ** The search for a table *)

Section Search.
Context {PF : Platform} {HO : MmcHost} {CA : Card} {WO : Works} (sd : sd_info) {SC : SdCard sd} (stack : Z).
Context (Hstack : 0 <= stack /\ stack + 512 < 2 ^ 32) (Hsized : sd_sized sd) (Hblocks : 0 < sd_blocks sd).

(** A test that reads blocks into the buffer and changes nothing else. *)
Definition only_reads (x : driver) : Prop := forall (WA : Watch) l p d c w Q, free stack 512 -> st l p d c w -> registered l p d -> in_phase Tran c -> started sd d ->
  (forall v c' w', st l p d c' w' -> in_phase Tran c' -> Q v w') -> wp (x.2 p) Q w.

Lemma block_type_total l : length l = 512%nat -> exists t, Part.test_block_type l = Some t.
Proof.
  intros Hl. unfold Part.test_block_type, Part.magic_ok.
  assert (forall k, 0 <= k < 512 -> exists v, Ext4.le8 l k = Some v) as H8.
  { intros k Hk. unfold Ext4.le8. apply lookup_lt_is_Some_2. lia. }
  destruct (H8 Part.DOS_PART_MAGIC_OFFSET) as [a ->]; [by vm_compute|]. destruct (H8 (Part.DOS_PART_MAGIC_OFFSET + 1)) as [b ->]; [by vm_compute|]. cbn [mbind option_bind].
  destruct (negb _); [by eexists|]. unfold Part.table_entry, Part.le32_to_int. cbv zeta.
  destruct (H8 (Part.DOS_PART_TBL_OFFSET + 16 * 0)) as [x ->]; [by vm_compute|]. destruct (H8 (Part.DOS_PART_TBL_OFFSET + 16 * 0 + 4)) as [y ->]; [by vm_compute|].
  destruct (Ext4.le32_some l (Part.DOS_PART_TBL_OFFSET + 16 * 0 + 8)) as [z ->]; [by vm_compute|rewrite Hl; apply Nat.leb_le; by vm_compute|].
  destruct (Ext4.le32_some l (Part.DOS_PART_TBL_OFFSET + 16 * 0 + 12)) as [u ->]; [by vm_compute|rewrite Hl; apply Nat.leb_le; by vm_compute|]. by eexists.
Qed.

Lemma dos_only_reads : only_reads (dos stack).
Proof.
  intros WA l p d c w Q Hfree H Hr Hc Hd HQ. cbn [snd dos]. unfold part_test_dos. apply mwp_bind.
  apply (wp_mmc_bread sd l p d c w 0 1 stack); [done|done|done|done|done|lia|lia|lia|lia|lia|done|]. intros c' w' H' Hc' _. change (negb (1 =? 1)) with false. cbn iota.
  destruct (block_type_total (bytes (ram w') stack 512)) as [t Ht]; [apply length_bytes|].
  apply mwp_bind. eapply wp_of_run; [unfold block_type; rewrite Ht; reflexivity|]. by apply (HQ _ c').
Qed.

Lemma part_init_reads {WA : Watch} drivers : free stack 512 -> Forall only_reads drivers -> forall l p d c w Q, st l p d c w -> registered l p d -> in_phase Tran c -> started sd d ->
  (forall d' c' w', st l p d' c' w' -> in_phase Tran c' -> frame [bd_part_type] d d' -> Q tt w') -> wp (part_init drivers p) Q w.
Proof.
  intros Hfree Hd l p d c w Q H Hr Hc Hs HQ. unfold part_init. apply mwp_bind, (wp_set_st _ _ _ H). clear H. intros w0 H _.
  set (d0 := set_val d bd_part_type Part.PART_TYPE_UNKNOWN) in *. assert (frame [bd_part_type] d d0) as F by (by apply frame_set).
  assert (registered l p d0) as Hr0 by (by apply (registered_frame _ _ _ _ _ F)).
  assert (started sd d0) as Hs0 by (by apply (started_frame sd _ _ _ F)).
  clearbody d0. clear Hr Hs w. revert c w0 H Hc. induction Hd as [|[t test] ds Ht Hd IH]; intros c w0 H Hc; cbn [test_loop].
  - apply mwp_ret. by apply (HQ d0 c).
  - apply mwp_bind. apply (Ht WA l p d0 c w0); [done|done|done|done|done|]. intros v c' w' H' Hc'. destruct (v =? 0); [|by apply (IH c' w')].
    apply (wp_set_st _ _ _ H'). intros w2 H2 _. apply (HQ _ c' w2 H2 Hc'). by apply frame_set.
Qed.

End Search.

(** ** The clock *)

Section Clock.
Context {PF : Platform} (host : pl180_mmc_host) (patience : nat).
Context (Hclock : 0 < clock_max host /\ 2 * clock_max host <= clock_in host < 2 ^ 31 /\ clock_in host / clock_max host < Z.of_nat patience).

Lemma divider_bits v k : 0 <= k <= 255 -> Z.land (Z.lor (Z.land v (u32 (Z.lnot SDI_CLKCR_CLKDIV_MASK))) k) 255 = k.
Proof.
  intros Hk. rewrite Z.land_lor_distr_l, <- Z.land_assoc. change (Z.land (u32 (Z.lnot SDI_CLKCR_CLKDIV_MASK)) 255) with 0. rewrite Z.land_0_r, Z.lor_0_l.
  change 255 with (Z.ones 8). rewrite Z.land_ones by lia. apply Z.mod_small. lia.
Qed.

Lemma width_bits v width : Z.land (Z.lor (Z.land v (u32 (Z.lnot SDI_CLKCR_WIDBUS_MASK))) (bus_width_bits width)) 255 = Z.land v 255.
Proof.
  rewrite Z.land_lor_distr_l, <- Z.land_assoc. change (Z.land (u32 (Z.lnot SDI_CLKCR_WIDBUS_MASK)) 255) with 255.
  assert (Z.land (bus_width_bits width) 255 = 0) as -> by (unfold bus_width_bits; by repeat case_match). apply Z.lor_0_r.
Qed.

(** the clock of the bus: [host_set_ios] stores the divider in the low byte of the clock register and the clock that
    results, input / (divider + 2), in the device.  It is not above the clock that was asked for nor above the host's limit
    where eight bits can express that at all, and with every smaller divider the clock would be above it. *)
Theorem set_ios_clock p d w : devices w !! p = Some d -> 0 < val d clock < 2 ^ 32 -> f_max (cfg d) = clock_max host ->
  let want := Z.min (val d clock) (clock_max host) in
  exists k v d' h, host_set_ios host patience p w =
      Some (0, World (<[p:=d']> (devices w)) (cur_dev_num w) (udelay CLK_CHANGE_DELAY (writel v (base host + r_clock) h)) (ram w)) /\
    Z.land v 255 = k /\ frame [clock] d d' /\ val d' clock = clock_in host / (k + 2) /\
    (clock_in host / 257 <= want -> val d' clock <= want) /\ forall j, 0 <= j < k -> want * (j + 2) < clock_in host.
Proof.
  intros Hd Hc Hf want.
  assert (wp (host_set_ios host patience p) (fun a w' => a = 0 /\ exists k v d' h,
      w' = World (<[p:=d']> (devices w)) (cur_dev_num w) (udelay CLK_CHANGE_DELAY (writel v (base host + r_clock) h)) (ram w) /\
      Z.land v 255 = k /\ frame [clock] d d' /\ val d' clock = clock_in host / (k + 2) /\
      (clock_in host / 257 <= want -> val d' clock <= want) /\ forall j, 0 <= j < k -> want * (j + 2) < clock_in host) w) as Hwp.
  { unfold host_set_ios. apply mwp_bind, wp_rd. apply mwp_bind. eapply wp_dev; [exact Hd|]. rewrite (proj2 (Z.eqb_neq (val d clock) 0)) by lia. cbn [negb]. do 2 apply mwp_bind.
    apply (wp_clock_divider host patience Hclock p d); [done|done|done|]. intros k d' Hk F E1 E2 E3. apply mwp_ret. cbv zeta.
    apply mwp_bind, wp_wt, mwp_bind, wp_delay, mwp_ret. split; [done|]. eexists k, _, d', _. split; [reflexivity|]. split_and!; [|done..].
    destruct (negb _); [rewrite width_bits|]; by apply divider_bits. }
  destruct (wp_run _ _ _ Hwp) as (a & w' & E & -> & k & v & d' & h & -> & Hrest). by exists k, v, d', h.
Qed.

End Clock.

(** ** No card *)

Section Empty.
Context {PF : Platform} {HO : MmcHost} {CA : Card} {WO : Works}.

(** Nobody answers; the reset command asks for no answer. *)
Definition silent (c : card) : Prop := (exists r, answer c 0 0 = Some (r, c)) /\ forall idx arg, idx <> 0 -> answer c idx arg = None.

Lemma wp_silent_st {l p d c w} cmd Q : st l p d c w -> silent c -> 0 < cmdidx cmd < 64 -> 0 <= cmdarg cmd < 2 ^ 32 -> Z.land (resp_type cmd) MMC_RSP_PRESENT <> 0 ->
  (forall w', st l p d c w' -> Q (- ETIMEDOUT, cmd) w') -> wp (mmc_send_cmd p cmd None) Q w.
Proof.
  intros H [_ Hs] Hi Ha Hp HQ. assert (answer c (cmdidx cmd) (cmdarg cmd) = None) as En by (apply Hs; lia).
  destruct (works_silent p cmd w c Hp (st_link _ _ _ _ _ H) ltac:(lia) Ha En) as (h & E & Hl).
  eapply wp_of_run; [exact E|]. apply HQ. by apply (st_io _ _ _ c).
Qed.

Ltac unanswered :=
  match goal with H : st _ _ _ _ ?w, Hs : silent _ |- wp (mmc_send_cmd _ _ None) _ ?w =>
    apply (wp_silent_st _ _ H Hs); [small| |done|]; [..|clear H; let w' := fresh "w" in intros w' H; cbn beta iota zeta]
  end.

(** After a command that timed out. *)
Ltac failed := unfold try_; change (negb (- ETIMEDOUT =? 0)) with true; cbn iota.

Lemma wp_idle_silent l p d c w Q : silent c -> st l p d c w -> (forall w', st l p d c w' -> Q 0 w') -> wp (mmc_go_idle p) Q w.
Proof.
  intros [ [r Hr] _] H HQ. unfold mmc_go_idle. do 2 wstep. wstep. command Hr; [small|]. do 3 wstep. by apply HQ.
Qed.

Lemma wp_get_op_cond_silent l p d c w Q : st l p d c w -> silent c -> untouched d -> host_init <> None ->
  (forall d' w', st l p d' c w' -> val d' has_init = 0 -> val d' init_in_progress = 0 -> Q (- EOPNOTSUPP) w') -> wp (mmc_get_op_cond p) Q w.
Proof.
  intros H Hs [Hi Hip _ _ _ Hl Hc Hg] Hinit HQ. unfold mmc_get_op_cond. do 2 wstep. rewrite Hi. cbn [Z.eqb negb]. do 2 wstep. unfold mmc_power_cycle.
  do 2 wstep. set (d0 := set_val d quirks _) in *.
  apply (wp_set_clock _ _ _ _ _ 0 true _ H); [lia|done|]. clear H. intros d1 wa H F1 Hc1. cbn beta. do 3 wstep. destruct host_init as [f|] eqn:Ei; [|done].
  wstep. eapply wp_of_run; [reflexivity|]. cbn beta. wstep.
  match type of H with st _ _ _ _ ?w' => destruct (works_init f p w' c Ei (st_link _ _ _ _ _ H)) as (h & E & Hl') end.
  eapply wp_of_run; [exact E|]. cbn beta. apply (st_io _ _ _ _ c _ h) in H; [|done]. go_on. do 2 wstep. wstep.
  pose proof (frame_cfg _ _ _ F1) as G1. change (cfg d0) with (cfg d) in G1.
  apply (wp_initial_state _ _ _ _ _ _ H); [cbn; by rewrite (frame_val _ _ _ F1 legacy_speed eq_refl)|done|cbn; by rewrite G1|].
  clear H. intros d2 wb H F2 Hc2 Hd2. cbn beta. wstep. apply (wp_idle_silent _ _ _ _ _ _ Hs H). clear H. intros wc H. go_on. do 2 wstep. wstep.
  unfold mmc_send_if_cond. do 2 wstep. wstep. unanswered; [cbn [cmdarg new_cmd]; destruct (_ =? 0); small|]. failed. wstep. wstep.
  unfold sd_send_op_cond. change 1000%nat with (S 999). cbn [op_cond_loop]. do 2 wstep. unanswered; [small|]. failed. do 2 wstep.
  rewrite Z.eqb_refl. unfold mmc_send_op_cond. do 2 wstep. apply (wp_idle_silent _ _ _ _ _ _ Hs H). clear H. intros wd H. wstep. unfold mmc_send_op_cond_iter. do 2 wstep. wstep.
  unanswered; [small|]. failed. wstep. failed. wstep. failed. wstep.
  apply (HQ _ _ H); cbn; [rewrite (frame_val _ _ _ F2 has_init eq_refl)|rewrite (frame_val _ _ _ F2 init_in_progress eq_refl)]; cbn;
    [by rewrite (frame_val _ _ _ F1 has_init eq_refl)|by rewrite (frame_val _ _ _ F1 init_in_progress eq_refl)].
Qed.

End Empty.

(** ** The board *)

Section Board.
Context {PF : Platform} {CA : Card} {CT : Controller board_host} (patience : nat) (Hpat : Z.of_nat polls + 2 ^ 14 < Z.of_nat patience).

Lemma board_power : Z.land (pwr_init board_host) 3 = 3.
Proof. reflexivity. Qed.

Lemma board_clock : 0 < clock_max board_host /\ 2 * clock_max board_host <= clock_in board_host < 2 ^ 31 /\ clock_in board_host / clock_max board_host < Z.of_nat patience.
Proof. split_and!; try (by vm_compute). change (clock_in board_host / clock_max board_host) with 16. lia. Qed.

#[local] Instance ops : MmcHost := arm_pl180_mmci_ops board_host patience.
#[local] Instance board_works : Works := pl180_works board_host patience Hpat board_power board_clock.

(** What [arm_pl180_mmci_init] registers. *)
Definition board_device : mmc :=
  set_val (set_val (set_val (set_val (set_val (set_val (fresh (host_config board_host)) dsr_imp 0) dsr 0xffffffff)
    bd_if_type IF_TYPE_MMC) bd_removable 1) bd_devnum 0) bd_part_type 0.

Lemma board_untouched : untouched board_device.
Proof. split; try done; by vm_compute. Qed.

Lemma wp_initialize c w Q : wired c (io w) ->
  (forall w', st [board_device] 0 board_device c w' -> ram w' = ram w -> Q (0, true) w') -> wp (mmc_initialize (cpu_mmc_init true true) false) Q w.
Proof.
  intros Hw HQ. unfold mmc_initialize, cpu_mmc_init, arm_pl180_mmci_init. cbn [negb]. apply mwp_bind. eapply wp_of_run; [reflexivity|]. do 2 apply mwp_bind.
  apply mwp_bind, wp_wt, mwp_bind, wp_wt, mwp_bind, wp_delay, mwp_bind, wp_rd, mwp_bind, wp_wt, mwp_bind.
  eapply wp_of_run; [reflexivity|]. apply mwp_ret. cbn iota beta. apply mwp_ret, mwp_bind. eapply wp_of_run; [reflexivity|]. apply mwp_ret. apply HQ; [|done].
  split; [done|cbn; lia| |by intros x []]. cbn [io]. apply ctl_set_mask, ctl_mask. by apply ctl_power_up.
Qed.

(** C14: with an empty slot [mmc_get_dev] gives up with -EOPNOTSUPP instead of waiting, and the device is left as one that
    was never started, so that a later call tries again. *)
Theorem empty_slot malloc part_init stack fuel c w : silent c -> wired c (io w) ->
  exists w1 w2 d, mmc_initialize (cpu_mmc_init true true) false w = Some ((0, true), w1) /\
    mmc_get_dev malloc part_init stack fuel 0 w1 = Some (inl (- EOPNOTSUPP), w2) /\ devices w2 = [d] /\ val d has_init = 0 /\ val d init_in_progress = 0.
Proof.
  intros Hs Hw. destruct (wp_run _ _ _ (wp_initialize c w (fun a w1 => a = (0, true) /\ st [board_device] 0 board_device c w1) Hw ltac:(done))) as (a & w1 & E1 & -> & H1).
  assert (wp (mmc_get_dev malloc part_init stack fuel 0) (fun a w2 => a = inl (- EOPNOTSUPP) /\ exists d, devices w2 = [d] /\ val d has_init = 0 /\ val d init_in_progress = 0) w1) as H2.
  { unfold mmc_get_dev. apply mwp_bind. eapply wp_of_run; [unfold find_mmc_device; rewrite (st_dev _ _ _ _ _ H1); reflexivity|]. cbn beta iota. apply mwp_bind.
    unfold mmc_init. do 2 wstep. change (negb (val board_device has_init =? 0)) with false. cbn iota. do 2 wstep. wstep. change (val board_device init_in_progress =? 0) with true. cbn iota.
    unfold mmc_start_init. do 4 wstep. wstep. unfold mmc_getcd. cbn [getcd ops arm_pl180_mmci_ops]. wstep. change (1 =? 0) with false. cbn [host_init ops arm_pl180_mmci_ops orb]. wstep.
    eapply (wp_get_op_cond_silent _ _ _ _ _ _ H1 Hs); [|done|].
    { destruct board_untouched. by split. }
    intros d w' H Hi Hp. change (- EOPNOTSUPP =? 0) with false. cbn iota. wstep. wstep. wstep. change (- EOPNOTSUPP =? 0) with false. cbn iota. do 2 wstep.
    split; [done|]. exists d. by rewrite (st_dev _ _ _ _ _ H). }
  destruct (wp_run _ _ _ H2) as (b & w2 & E2 & -> & d & E3 & E4 & E5). by exists w1, w2, d.
Qed.

(** *** With a card *)

Context (sd : sd_info) {SC : SdCard sd} (malloc : Z -> bool) (stack : Z) (drivers : list driver).

(** Room for the buffers on the stack, and a card whose description is consistent. *)
Record board_ok : Prop := {
  b_stack : 0 <= stack /\ stack + 512 < 2 ^ 32;
  b_sized : sd_sized sd;
  b_csd : csd_ok sd;
  b_scr : length (sd_scr sd) = 8%nat;
}.

Context (Hboard : board_ok) (Hdrivers : Forall (only_reads sd stack) drivers).

Abbreviation get_dev fuel := (mmc_get_dev malloc (part_init drivers) stack fuel 0).
Abbreviation boots w fuel w' := (exists w1, mmc_initialize (cpu_mmc_init true true) false w = Some ((0, true), w1) /\ get_dev fuel w1 = Some (inr 0%nat, w')).

(** The state of the device in use. *)
Definition in_use (w : world) : Prop := exists d c, online sd [board_device] 0 d c w.

Lemma card_starts c w fuel : wired c (io w) -> plugged c -> exists w', boots w fuel w' /\ in_use w'.
Proof.
  intros Hw Hpl. destruct (wp_run _ _ _ (wp_initialize c w (fun a w1 => a = (0, true) /\ st [board_device] 0 board_device c w1) Hw ltac:(done))) as (a & w1 & E1 & -> & H1).
  assert (wp (get_dev fuel) (fun a w' => a = inr 0%nat /\ in_use w') w1) as H2.
  { unfold mmc_get_dev. apply mwp_bind. eapply wp_of_run; [unfold find_mmc_device; rewrite (st_dev _ _ _ _ _ H1); reflexivity|]. cbn beta iota. apply mwp_bind.
    apply (wp_mmc_init sd malloc (part_init drivers) stack (b_stack Hboard) (free_no_watch _ _)
             (part_init_reads sd stack drivers (free_no_watch _ _) Hdrivers) (b_sized Hboard) (b_csd Hboard) (b_scr Hboard) fuel [board_device] 0 board_device c w1); [done|exact Hpl|exact board_untouched|done|done|done|done|].
    intros d' c' w' Hon. apply mwp_ret. split; [done|]. by exists d', c'. }
  destruct (wp_run _ _ _ H2) as (b & w2 & E2 & -> & H3). exists w2. split; [by exists w1|done].
Qed.

(** Reads of the card that end before the address space does. *)
Definition readable (start n dst : Z) : Prop := 0 <= start /\ 0 < n /\ start + n <= sd_blocks sd /\ 0 <= dst /\ dst + n * 512 < 2 ^ 32.

Lemma in_use_read w start n dst : in_use w -> readable start n dst -> exists w', mmc_bread 0 start n dst w = Some (n, w') /\ in_use w' /\
  mem_eq (ram w') (wr (ram w) dst (bytes (sd_disk sd) (start * 512) (Z.to_nat (n * 512)))).
Proof.
  intros (d & c & [H Hc Hs Hi Hb Hr Hag Hnu Hhw]) (H1 & H2 & H3 & H4 & H5).
  assert (wp (mmc_bread 0 start n dst) (fun a w' => a = n /\ in_use w' /\
    mem_eq (ram w') (wr (ram w) dst (bytes (sd_disk sd) (start * 512) (Z.to_nat (n * 512))))) w) as Hw.
  { apply (wp_mmc_bread sd [board_device] 0 d c w start n dst); [done|done|done|done|apply (b_sized Hboard)|done|done|done|done|done|apply free_no_watch|].
    intros c' w' H' Hc' Hm. split_and!; [done| |done]. by exists d, c'. }
  destruct (wp_run _ _ _ Hw) as (a & w' & E & -> & ? & ?). by exists w'.
Qed.


(** C11: from power-on to data: [mmc_initialize] registers the board's controller, [mmc_get_dev] identifies an SD card of
    either addressing and starts it, and [mmc_bread] then returns the number of blocks that was asked for with exactly
    the card's bytes in the destination, however many transfers the controller's limit makes of them, and the rest of
    the memory as it was. *)
Theorem card_reads c w fuel start n dst : wired c (io w) -> plugged c -> readable start n dst ->
  exists w1 w2 w3, mmc_initialize (cpu_mmc_init true true) false w = Some ((0, true), w1) /\ get_dev fuel w1 = Some (inr 0%nat, w2) /\
    mmc_bread 0 start n dst w2 = Some (n, w3) /\
    bytes (ram w3) dst (Z.to_nat (n * 512)) = bytes (sd_disk sd) (start * 512) (Z.to_nat (n * 512)) /\
    forall a, a < dst \/ dst + n * 512 <= a -> ld (ram w3) a = ld (ram w2) a.
Proof.
  intros Hw Hpl Hr. destruct (card_starts c w fuel Hw Hpl) as (w2 & (w1 & E1 & E2) & Hu). destruct (in_use_read w2 start n dst Hu Hr) as (w3 & E3 & _ & Hm).
  exists w1, w2, w3. split_and!; [done|done|done| |].
  - transitivity (bytes (wr (ram w2) dst (bytes (sd_disk sd) (start * 512) (Z.to_nat (n * 512)))) dst (Z.to_nat (n * 512))); [by apply bytes_ext|].
    apply read_back.
  - intros a Ha. rewrite Hm, ld_wr, length_bytes. destruct Hr as (_ & Hn & _). replace ((dst <=? a) && (a <? dst + Z.of_nat (Z.to_nat (n * 512)))) with false by lia. done.
Qed.

(** States after any number of reads. *)
Inductive after_reads : world -> world -> Prop :=
  | no_read w : after_reads w w
  | one_read w w1 w2 start n dst : readable start n dst -> mmc_bread 0 start n dst w = Some (n, w1) -> after_reads w1 w2 -> after_reads w w2.

Lemma after_reads_in_use w w' : after_reads w w' -> in_use w -> in_use w'.
Proof.
  induction 1 as [|w w1 w2 start n dst Hr E _ IH]; [done|]. intros Hu. apply IH. destruct (in_use_read w start n dst Hu Hr) as (w' & E' & Hu' & _). congruence.
Qed.

(** C12: a card that was started is a block device as the file system layer needs it: in every state that later reads
    lead to, the descriptor gives, for each partition inside the card, the blocks of the card. *)
Theorem card_is_block_device c w fuel buffer info : wired c (io w) -> plugged c -> 0 <= Part.dp_start info -> 0 < Part.dp_size info ->
  Part.dp_start info + Part.dp_size info <= sd_blocks sd -> 0 <= buffer -> buffer + Part.dp_size info * 512 < 2 ^ 32 ->
  exists w1 w2, mmc_initialize (cpu_mmc_init true true) false w = Some ((0, true), w1) /\ get_dev fuel w1 = Some (inr 0%nat, w2) /\
    forall w', after_reads w2 w' -> exists d, devices w' !! 0%nat = Some d /\ Blk.good (Fs.to_partition (to_blk_desc 0 buffer w' d) info) (sd_disk sd).
Proof.
  intros Hw Hpl Hs Hn He Hb Htop. destruct (card_starts c w fuel Hw Hpl) as (w2 & (w1 & E1 & E2) & Hu). exists w1, w2. split_and!; [done|done|].
  intros w' Ha. pose proof (after_reads_in_use _ _ Ha Hu) as Hu'. destruct Hu' as (d & c' & Hon). exists d. split; [by apply (st_lookup _ _ _ _ _ (on_st _ _ _ _ _ _ Hon))|].
  destruct (on_blksz _ _ _ _ _ _ Hon) as [_ Hlog]. pose proof (sized_blocks _ (b_sized Hboard)) as Hsz.
  split; cbn [Fs.to_partition Blk.log2blksz Blk.start Blk.size Blk.blk_dread to_blk_desc Part.bd_log2blksz Part.bd_dread]; [rewrite Hlog; lia|done|done|lia|].
  intros s n Hs1 Hn1 He1. unfold Blk.blksz. cbn [Blk.log2blksz Fs.to_partition to_blk_desc Part.bd_log2blksz]. rewrite Hlog. change (2 ^ 9) with 512.
  destruct (in_use_read w' s n buffer) as (w3 & E3 & _ & Hm); [by exists d, c'|split_and!; lia|]. rewrite E3. f_equal.
  transitivity (bytes (wr (ram w') buffer (bytes (sd_disk sd) (s * 512) (Z.to_nat (n * 512)))) buffer (Z.to_nat (n * 512))); [by apply bytes_ext|]. apply read_back.
Qed.

(** A read that goes beyond the end of the card is refused: [mmc_bread] returns 0 and neither the card, the device nor
    the memory is touched.  The sum is one of 32 bits in the code, hence the last hypothesis. *)
Lemma in_use_beyond w start n dst : in_use w -> 0 <= start -> 0 <= n -> sd_blocks sd < start + n < 2 ^ 32 -> mmc_bread 0 start n dst w = Some (0, w).
Proof.
  intros (d & c & Hon) Hs Hn Hend. pose proof (on_st _ _ _ _ _ _ Hon) as H. pose proof (on_started _ _ _ _ _ _ Hon) as Hst.
  assert (find_mmc_device (val d bd_devnum) w = Some (Some 0%nat, w)) as Hfind.
  { unfold find_mmc_device. by rewrite (st_dev _ _ _ _ _ H), (on_registered _ _ _ _ _ _ Hon). }
  assert (wp (mmc_bread 0 start n dst) (fun a w' => a = 0 /\ w' = w) w) as Hwp.
  { unfold mmc_bread. do 2 wstep. destruct (Z.eqb_spec n 0); [by wstep|].
    apply mwp_bind. eapply wp_of_run; [exact Hfind|]. cbn beta iota. apply mwp_bind. unfold blk_dselect_hwpart. do 2 wstep. rewrite (s_type _ _ Hst), Z.eqb_refl.
    unfold mmc_select_hwpartp. do 2 wstep. apply mwp_bind. eapply wp_of_run; [exact Hfind|]. cbn beta iota. do 2 wstep. rewrite Z.eqb_refl. wstep. cbn [Z.ltb Z.compare].
    do 2 wstep. rewrite (s_lba _ _ Hst), u32_small by lia. replace (sd_blocks sd <? start + n) with true by lia. by wstep. }
  destruct (wp_run _ _ _ Hwp) as (a & w' & E & -> & ->). done.
Qed.

Lemma read_beyond_end c w fuel : wired c (io w) -> plugged c ->
  exists w1 w2, mmc_initialize (cpu_mmc_init true true) false w = Some ((0, true), w1) /\ get_dev fuel w1 = Some (inr 0%nat, w2) /\
    forall w' start n dst, after_reads w2 w' -> 0 <= start -> 0 <= n -> sd_blocks sd < start + n < 2 ^ 32 -> mmc_bread 0 start n dst w' = Some (0, w').
Proof.
  intros Hw Hpl. destruct (card_starts c w fuel Hw Hpl) as (w2 & (w1 & E1 & E2) & Hu). exists w1, w2. split_and!; [done|done|].
  intros w' start n dst Ha. apply in_use_beyond. by apply (after_reads_in_use w2).
Qed.

End Board.

(** ** Writing *)

Section Writing.
Context {PF : Platform} {CA : Card} {CT : Controller board_host} (patience : nat) (Hpat : Z.of_nat polls + 2 ^ 14 < Z.of_nat patience).
Context (sd : sd_info) {SW : SdWriter sd} (disk : mem) (malloc : Z -> bool) (stack : Z) (drivers : list driver).

#[local] Existing Instance ops.
#[local] Existing Instance board_works.
Abbreviation card_with m := (with_disk sd m).

Context (Hboard : board_ok (card_with disk) stack) (Hdrivers : Forall (only_reads (WO := board_works patience Hpat) (card_with disk) stack) drivers).

Lemma started_disk m d : started (card_with m) d <-> started sd d.
Proof. split; intros []; by split. Qed.

Lemma board_disk m : board_ok (card_with m) stack.
Proof. destruct Hboard as [H1 [H2 H3] [H4 H5 H6] H7]. by split. Qed.

Lemma in_use_write w m start n src fuel : in_use patience Hpat (card_with m) w -> readable sd start n src ->
  exists w', mmc_bwrite (HO := ops patience) malloc (part_init drivers) stack fuel 0 start n src w = Some (n, w') /\ ram w' = ram w /\
    in_use patience Hpat (card_with (wr m (start * 512) (bytes (ram w) src (Z.to_nat (n * 512))))) w'.
Proof.
  intros (d & c & [H Hc Hs Hi Hb Hr Hag Hnu Hhw]) (H1 & H2 & H3 & H4 & H5). pose proof (proj1 (started_disk m d) Hs) as Hs'.
  assert (sd_sized sd) as Hsz by (destruct (b_sized _ _ Hboard); by split).
  assert (wp (mmc_bwrite (HO := ops patience) malloc (part_init drivers) stack fuel 0 start n src) (fun a w' => a = n /\ ram w' = ram w /\
    in_use patience Hpat (card_with (wr m (start * 512) (bytes (ram w) src (Z.to_nat (n * 512))))) w') w) as Hw.
  { apply (wp_mmc_bwrite (WO := board_works patience Hpat) sd Hsz malloc (part_init drivers) stack fuel [board_device] 0 d c w m start n src); [done..|].
    intros c' w' H' Hm Hc'. split_and!; [done|done|]. exists d, c'. split; [done|done| |done|done|done|done|done|done]. by apply started_disk. }
  destruct (wp_run _ _ _ Hw) as (a & w' & E & -> & ? & ?). by exists w'.
Qed.

(** A write beyond the end of the card fails, but the transfers that end before are made. *)
Lemma in_use_cut w m start n src fuel : in_use patience Hpat (card_with m) w -> 0 <= start -> 0 < n -> sd_blocks sd < start + n < 2 ^ 32 -> 0 <= src -> src + n * 512 < 2 ^ 32 ->
  exists w', mmc_bwrite (HO := ops patience) malloc (part_init drivers) stack fuel 0 start n src w = Some (0, w') /\ ram w' = ram w /\
    in_use patience Hpat (card_with (wr m (start * 512) (bytes (ram w) src (Z.to_nat (stored_blocks sd (b_max (host_config board_host)) start * 512))))) w'.
Proof.
  intros (d & c & [H Hc Hs Hi Hb Hr Hag Hnu Hhw]) H1 H2 H3 H4 H5. pose proof (proj1 (started_disk m d) Hs) as Hs'.
  assert (cfg d = host_config board_host) as Hcfg by (unfold numbered in Hnu; cbn in Hnu; congruence).
  assert (sd_sized sd) as Hsz by (destruct (b_sized _ _ Hboard); by split).
  assert (wp (mmc_bwrite (HO := ops patience) malloc (part_init drivers) stack fuel 0 start n src) (fun a w' => a = 0 /\ ram w' = ram w /\
    in_use patience Hpat (card_with (wr m (start * 512) (bytes (ram w) src (Z.to_nat (stored_blocks sd (b_max (host_config board_host)) start * 512))))) w') w) as Hw.
  { apply (wp_mmc_bwrite_cut (WO := board_works patience Hpat) sd Hsz malloc (part_init drivers) stack fuel [board_device] 0 d c w m start n src); [done..|]. rewrite Hcfg.
    intros c' w' H' Hm Hc'. split_and!; [done|done|]. exists d, c'. split; [done|done| |done|done|done|done|done|done]. by apply started_disk. }
  destruct (wp_run _ _ _ Hw) as (a & w' & E & -> & ? & ?). by exists w'.
Qed.

(** C13: what is written is read back: on a card that was started, [mmc_bwrite] stores the blocks from memory, in as many
    transfers as the controller's limit makes of them, and returns their number without a change to memory; an
    [mmc_bread] of any range after it finds the card's old contents with exactly those blocks replaced. *)
Theorem card_stores c w fuel start n src s k dst : wired c (io w) -> plugged (sd := card_with disk) c -> readable sd start n src -> readable sd s k dst ->
  exists w1 w2 w3 w4, mmc_initialize (HO := ops patience) (cpu_mmc_init true true) false w = Some ((0, true), w1) /\
    mmc_get_dev (HO := ops patience) malloc (part_init drivers) stack fuel 0 w1 = Some (inr 0%nat, w2) /\
    mmc_bwrite (HO := ops patience) malloc (part_init drivers) stack fuel 0 start n src w2 = Some (n, w3) /\ ram w3 = ram w2 /\
    mmc_bread (HO := ops patience) 0 s k dst w3 = Some (k, w4) /\
    bytes (ram w4) dst (Z.to_nat (k * 512)) =
      bytes (wr disk (start * 512) (bytes (ram w2) src (Z.to_nat (n * 512)))) (s * 512) (Z.to_nat (k * 512)).
Proof.
  intros Hw Hpl Hwr Hrd. destruct (card_starts patience Hpat (card_with disk) malloc stack drivers Hboard Hdrivers c w fuel Hw Hpl) as (w2 & (w1 & E1 & E2) & Hu).
  destruct (in_use_write w2 disk start n src fuel Hu Hwr) as (w3 & E3 & Hm3 & Hu3).
  destruct (in_use_read patience Hpat (card_with (wr disk (start * 512) (bytes (ram w2) src (Z.to_nat (n * 512))))) stack (board_disk _) w3 s k dst Hu3 Hrd) as (w4 & E4 & _ & Hm4).
  exists w1, w2, w3, w4. split_and!; [done..|]. rewrite (bytes_ext _ _ _ _ (fun a _ => Hm4 a)). apply read_back.
Qed.

End Writing.

End SdBoot.
