(* ===== verification/MmcCmd.v ===== *)
(** * MmcCmd: the command [mmc]

    U-Boot's cmd/mmc.c as the board is configured (writing and hardware partitioning, no RPMB, no eMMC boot, no sparse
    images), with [print_size] of lib/display_options.c, [print_mmc_devices] of drivers/mmc/mmc_legacy.c and the printing
    of partition tables of disk/part.c and disk/part_dos.c.  The state holds what the commands change: the devices with
    the hardware and the memory, the current device and the text these files print. *)

From stdpp Require Import base list option strings.
From Stdlib Require Import ZifyBool.
From S2P Require Import Prelude Cmem Carray Strto Part Command MmcTypes Mmc SdCard SdInit SdWrite SdHost SdBoot Emmc.
Import Carray MmcTypes Mmc SdCard SdInit SdWrite SdHost SdBoot Emmc.

Module MmcCmd.

(** ** Text *)

Definition nl : list Z := [10].
Definition udec (v : Z) : list Z := Strto.print_base 10 v.
(** [%d] of a 32-bit value *)
Definition dec (v : Z) : list Z := let s := sgn 32 v in if s <? 0 then [45] ++ udec (- s) else udec s.
Definition hex (v : Z) : list Z := Strto.print_base 16 v.
Definition pad_left (n : nat) (s : list Z) : list Z := replicate (n - length s) 32 ++ s.
Definition pad_right (n : nat) (s : list Z) : list Z := s ++ replicate (n - length s) 32.

(** [print_size]: the letter of the unit and its shift, or none below 1 KiB. *)
Definition names : list Z := Eval vm_compute in lit "EPTGMK".
Fixpoint unit_loop (l : list Z) (d size : Z) : option (Z * Z) :=
  match l with
  | [] => None
  | c :: l => if negb (Z.shiftr size d =? 0) then Some (c, d) else unit_loop l (d - 10) size
  end.
(** The number before the point and the digit behind it. *)
Definition round_size (size d : Z) : Z * Z :=
  let n := u32 (Z.shiftr size d) in
  let f := Z.land size (Z.shiftl 1 d - 1) in
  if f =? 0 then (n, 0) else
  let m := u32 (Z.shiftr (u64 (10 * f + Z.shiftl 1 (d - 1))) d) in
  if 10 <=? m then (u32 (n + 1), m - 10) else (n, m).
Definition print_size (size : Z) (s : list Z) : list Z :=
  match unit_loop names (10 * 6) size with
  | None => udec size ++ lit " Bytes" ++ s
  | Some (c, d) =>
    let '(n, m) := round_size size d in
    udec n ++ (if negb (m =? 0) then lit "." ++ udec m else []) ++ lit " " ++ [c] ++ lit "iB" ++ s
  end.

(** [mmc_mode_name] *)
Definition mode_names : list (list Z) := Eval vm_compute in map lit
  ["MMC legacy"; "SD Legacy"; "MMC High Speed (26MHz)"; "SD High Speed (50MHz)"; "MMC High Speed (52MHz)"; "MMC DDR52 (52MHz)";
   "UHS SDR12 (25MHz)"; "UHS SDR25 (50MHz)"; "UHS SDR50 (100MHz)"; "UHS DDR50 (50MHz)"; "UHS SDR104 (208MHz)"; "HS200 (200MHz)"]%string.
Definition mmc_mode_name (mode : Z) : list Z := if MMC_MODES_END <=? mode then lit "Unknown mode" else nth (Z.to_nat mode) mode_names [].

Definition EXTRACT_SDMMC_MAJOR_VERSION (x : Z) : Z := Z.land (Z.shiftr x 16) 0xff.
Definition EXTRACT_SDMMC_MINOR_VERSION (x : Z) : Z := Z.land (Z.shiftr x 8) 0xff.
Definition EXTRACT_SDMMC_CHANGE_VERSION (x : Z) : Z := Z.land x 0xff.

(** The part of [print_mmcinfo] about an eMMC. *)
Definition print_gp (d : mmc) (has_enh : bool) (i : Z) : list Z :=
  let is_enh := has_enh && negb (Z.land (val d part_attr) (EXT_CSD_ENH_GP i) =? 0) in
  let c := nth (Z.to_nat i) (capacity_gp d) 0 in
  if c =? 0 then [] else
  lit "GP" ++ dec (i + 1) ++ lit " Capacity: " ++ print_size c (if is_enh then lit " ENH" else []) ++
  (if negb (Z.land (val d wr_rel_set) (EXT_CSD_WR_DATA_REL_GP i) =? 0) then lit " WRREL" ++ nl else nl).
Definition print_emmc (d : mmc) : list Z :=
  let has_enh := negb (Z.land (val d part_support) ENHNCD_SUPPORT =? 0) in
  let usr_enh := has_enh && negb (Z.land (val d part_attr) EXT_CSD_ENH_USR =? 0) in
  let enh_nl := if has_enh then lit " ENH" ++ nl else nl in
  lit "HC WP Group Size: " ++ print_size (u64 (Z.shiftl (val d hc_wp_grp_size) 9)) nl ++
  lit "User Capacity: " ++ print_size (val d capacity_user) (if usr_enh then lit " ENH" else []) ++
  (if negb (Z.land (val d wr_rel_set) EXT_CSD_WR_DATA_REL_USR =? 0) then lit " WRREL" ++ nl else nl) ++
  (if usr_enh then lit "User Enhanced Start: " ++ print_size (val d enh_user_start) nl ++ lit "User Enhanced Size: " ++ print_size (val d enh_user_size) nl else []) ++
  lit "Boot Capacity: " ++ print_size (val d capacity_boot) enh_nl ++
  lit "RPMB Capacity: " ++ print_size (val d capacity_rpmb) enh_nl ++
  concat (map (print_gp d has_enh) [0; 1; 2; 3]).

(** [print_mmcinfo]; the two calls of [mmc_dump_capabilities] print debugging output only. *)
Definition print_mmcinfo (d : mmc) : list Z :=
  let c i := nth i (cid d) 0 in let change := EXTRACT_SDMMC_CHANGE_VERSION (val d version) in
  lit "Device: " ++ cfg_name (cfg d) ++ nl ++
  lit "Manufacturer ID: " ++ hex (Z.shiftr (c 0%nat) 24) ++ nl ++
  lit "OEM: " ++ hex (Z.land (Z.shiftr (c 0%nat) 8) 0xffff) ++ nl ++
  lit "Name: " ++ [Z.land (c 0%nat) 0xff; Z.shiftr (c 1%nat) 24; Z.land (Z.shiftr (c 1%nat) 16) 0xff; Z.land (Z.shiftr (c 1%nat) 8) 0xff; Z.land (c 1%nat) 0xff] ++ lit " " ++ nl ++
  lit "Bus Speed: " ++ dec (val d clock) ++ nl ++
  lit "Mode : " ++ mmc_mode_name (val d selected_mode) ++ nl ++
  lit "Rd Block Len: " ++ dec (val d read_bl_len) ++ nl ++
  (if IS_SD d then lit "SD" else lit "MMC") ++ lit " version " ++ dec (EXTRACT_SDMMC_MAJOR_VERSION (val d version)) ++ lit "." ++
  dec (EXTRACT_SDMMC_MINOR_VERSION (val d version)) ++ (if negb (change =? 0) then lit "." ++ dec change else []) ++ nl ++
  lit "High Capacity: " ++ (if negb (val d high_capacity =? 0) then lit "Yes" else lit "No") ++ nl ++
  lit "Capacity: " ++ print_size (val d capacity) nl ++
  lit "Bus Width: " ++ dec (val d bus_width) ++ lit "-bit" ++ (if negb (val d ddr_mode =? 0) then lit " DDR" else []) ++ nl ++
  lit "Erase Group Size: " ++ print_size (u64 (Z.shiftl (val d erase_grp_size) 9)) nl ++
  (if negb (IS_SD d) && (MMC_VERSION_4_41 <=? val d version) then print_emmc d else []).

(** [print_mmc_devices] *)
Fixpoint print_devices (separator : Z) (l : list mmc) : list Z :=
  match l with
  | [] => []
  | m :: l =>
    cfg_name (cfg m) ++ lit ": " ++ dec (val m bd_devnum) ++
    (if negb (val m has_init =? 0) then lit " (" ++ (if IS_SD m then lit "SD" else lit "eMMC") ++ lit ")" else []) ++
    (match l with [] => [] | _ => [separator] ++ (if negb (separator =? 10) then lit " " else []) end) ++ print_devices separator l
  end.
Definition print_mmc_devices (separator : Z) (l : list mmc) : list Z := print_devices separator l ++ nl.

(** ** The state of the commands *)

Section Commands.
Context {PF : Platform} {HO : MmcHost}.

Record state := State { wd : world; curr_device : Z; out : list Z }.
Definition C (A : Type) : Type := state -> option (A * state).
#[global] Instance C_ret : MRet C := fun A a s => Some (a, s).
#[global] Instance C_bind : MBind C := fun A B k m s => '(a, s) ← m s; k a s.

Definition lift {A} (m : M A) : C A := fun s => '(a, w) ← m (wd s); Some (a, State w (curr_device s) (out s)).
Definition puts (t : list Z) : C unit := fun s => Some (tt, State (wd s) (curr_device s) (out s ++ t)).
Definition current : C Z := fun s => Some (curr_device s, s).
Definition set_current (n : Z) : C unit := fun s => Some (tt, State (wd s) n (out s)).
Definition out_of_fuel {A} : C A := fun _ => None.

(** [simple_strtoul] of an argument; the number only. *)
Definition number (t : list Z) (base : Z) : Z := match Part.strtoul t base with Some (v, _) => v | None => 0 end.
Definition arg (argv : list (list Z)) (i : nat) : list Z := nth i argv [].
Definition equals (t : list Z) (s : string) : bool := bool_decide (t = lit s).

(** ** Printing a partition table *)

Context (malloc : Z -> bool) (stack : Z) (fuel : nat).

(** A sector in a buffer of its own; [None] when it cannot be read. *)
Definition read_sector (p : nat) (sector : Z) : C (option (list Z)) :=
  n ← lift (mmc_bread p sector 1 stack);
  if negb (n =? 1) then mret None else lift (fun w => Some (Some (bytes (ram w) stack 512), w)).

Definition print_one_part (pt : Part.dos_partition) (ext_part_sector part_num disksig : Z) : list Z :=
  pad_left 3 (dec part_num) ++ [9] ++ pad_right 10 (udec (u32 (ext_part_sector + Part.start4 pt))) ++ [9] ++ pad_right 10 (udec (Part.size4 pt)) ++ [9] ++
  Part.pad_hex 8 disksig ++ lit "-" ++ Part.pad_hex 2 part_num ++ [9] ++ Part.pad_hex 2 (Part.sys_ind pt) ++
  (if Part.is_extended (Part.sys_ind pt) then lit " Extd" else []) ++ (if Part.is_bootable pt then lit " Boot" else []) ++ nl.

(** The first loop of [print_partition_extended]: the lines and the number behind the table. *)
Fixpoint print_table (table : list Part.dos_partition) (ext_part_sector part_num disksig : Z) : list Z * Z :=
  match table with
  | [] => ([], part_num)
  | pt :: table =>
    let t := Part.sys_ind pt in
    let line := if negb (t =? 0) && ((ext_part_sector =? 0) || negb (Part.is_extended t)) then print_one_part pt ext_part_sector part_num disksig else [] in
    let '(lines, part_num) := print_table table ext_part_sector
      (if (ext_part_sector =? 0) || (negb (t =? 0) && negb (Part.is_extended t)) then part_num + 1 else part_num) disksig in
    (line ++ lines, part_num)
  end.

Fixpoint print_partition_extended (depth : nat) (p : nat) (ext_part_sector relative part_num disksig : Z) : C unit :=
  match depth with
  | O => out_of_fuel
  | S depth =>
    b ← read_sector p ext_part_sector;
    match b with
    | None =>
      num ← lift (get p bd_devnum);
      puts (lit "** Can't read partition table on " ++ dec num ++ lit ":" ++ udec ext_part_sector ++ lit " **" ++ nl)
    | Some buffer =>
      t ← lift (of_option (Part.test_block_type buffer));
      if negb (t =? Part.DOS_MBR) then
        puts (lit "bad MBR sector signature 0x" ++ Part.pad_hex 2 (nth 510 buffer 0) ++ Part.pad_hex 2 (nth 511 buffer 0) ++ nl)
      else
        disksig ← (if ext_part_sector =? 0 then lift (of_option (Part.le32_to_int buffer Part.DOS_PART_DISKSIG_OFFSET)) else mret disksig);
        table ← lift (of_option (mapM (Part.table_entry buffer) [0; 1; 2; 3]));
        let '(lines, part_num) := print_table table ext_part_sector part_num disksig in
        puts lines;;
        (fix follow (l : list Part.dos_partition) : C unit :=
           match l with
           | [] => mret tt
           | pt :: l =>
             (if Part.is_extended (Part.sys_ind pt) then
                let lba_start := u32 (Part.start4 pt + relative) in
                print_partition_extended depth p lba_start (if ext_part_sector =? 0 then lba_start else relative) part_num disksig
              else mret tt);;
             follow l
           end) table
    end
  end.

Definition part_print_dos (p : nat) : C unit :=
  puts (lit "Part" ++ [9] ++ lit "Start Sector" ++ [9] ++ lit "Num Sectors" ++ [9] ++ lit "UUID" ++ [9; 9] ++ lit "Type" ++ nl);;
  print_partition_extended fuel p 0 0 1 0.

(** A driver of partition tables with its name and its printing. *)
Record part_driver := { pd_driver : driver; pd_name : list Z; pd_print : option (nat -> C unit) }.
Definition dos_table : part_driver := {| pd_driver := dos stack; pd_name := lit "DOS"; pd_print := Some part_print_dos |}.

Context (drivers : list part_driver).

(** [part_driver_lookup_type] *)
Fixpoint lookup_by_test (l : list part_driver) (p : nat) : M (option part_driver) :=
  match l with
  | [] => mret None
  | x :: l => ret ← (pd_driver x).2 p; if ret =? 0 then set p bd_part_type (pd_driver x).1;; mret (Some x) else lookup_by_test l p
  end.
Definition part_driver_lookup_type (p : nat) : M (option part_driver) :=
  t ← get p bd_part_type;
  if t =? Part.PART_TYPE_UNKNOWN then lookup_by_test drivers p else mret (List.find (fun x => t =? (pd_driver x).1) drivers).

(** [print_part_header]; the names of interface types of this file. *)
Definition if_type_name (t : Z) : list Z :=
  if t =? Part.IF_TYPE_IDE then lit "IDE" else if t =? Part.IF_TYPE_SATA then lit "SATA" else if t =? Part.IF_TYPE_SCSI then lit "SCSI" else
  if t =? Part.IF_TYPE_ATAPI then lit "ATAPI" else if t =? Part.IF_TYPE_USB then lit "USB" else if t =? Part.IF_TYPE_DOC then lit "DOC" else
  if t =? Part.IF_TYPE_MMC then lit "MMC" else if t =? 9 then lit "HOST" else if t =? 10 then lit "NVMe" else lit "UNKNOWN".
Definition print_part_header (type : list Z) (d : mmc) : list Z :=
  nl ++ lit "Partition Map for " ++ if_type_name (val d bd_if_type) ++ lit " device " ++ dec (val d bd_devnum) ++ lit "  --   Partition Type: " ++ type ++ nl ++ nl.

Definition part_print (p : nat) : C unit :=
  drv ← lift (part_driver_lookup_type p);
  d ← lift (dev p);
  match drv with
  | None => puts (lit "## Unknown partition table type " ++ hex (val d bd_part_type) ++ nl)
  | Some x => puts (print_part_header (pd_name x) d);; match pd_print x with Some f => f p | None => mret tt end
  end.

(** ** The subcommands *)

Abbreviation m_init := (mmc_init malloc (SdBoot.part_init (map pd_driver drivers)) stack fuel).
Abbreviation m_get_dev := (mmc_get_dev malloc (SdBoot.part_init (map pd_driver drivers)) stack fuel).
Abbreviation m_bwrite := (mmc_bwrite malloc (SdBoot.part_init (map pd_driver drivers)) stack fuel).
Abbreviation m_berase := (mmc_berase malloc (SdBoot.part_init (map pd_driver drivers)) stack fuel).

Definition get_mmc_num : M Z := fun w => Some (cur_dev_num w, w).

Definition init_mmc_device (num : Z) (force_init : bool) : C (option nat) :=
  m ← lift (find_mmc_device num);
  match m with
  | None => puts (lit "no mmc device at slot " ++ hex (u32 num) ++ nl);; mret None
  | Some p =>
    (if force_init then lift (set p has_init 0) else mret tt);;
    ret ← lift (m_init p);
    mret (if negb (ret =? 0) then None else Some p)
  end.

(** [if (curr_device < 0)]: the first device, or the failure [k] *)
Definition choose_device (k : C Z) (go : C Z) : C Z :=
  cur ← current;
  if cur <? 0 then
    num ← lift get_mmc_num;
    if 0 <? num then set_current 0;; go else puts (lit "No MMC device available" ++ nl);; k
  else go.

Definition do_mmcinfo (flag : Z) (argv : list (list Z)) : C Z :=
  choose_device (mret 1) (
    cur ← current;
    m ← init_mmc_device cur false;
    match m with
    | None => mret Command.CMD_RET_FAILURE
    | Some p => d ← lift (dev p); puts (print_mmcinfo d);; mret Command.CMD_RET_SUCCESS
    end).

(** The line before a transfer, the one after it and the result. *)
Definition announce (what : string) (cur blk cnt : Z) : list Z :=
  nl ++ lit "MMC " ++ lit what ++ lit ": dev # " ++ dec cur ++ lit ", block # " ++ dec blk ++ lit ", count " ++ dec cnt ++ lit " ... ".
Definition report (what : string) (n cnt : Z) : C Z :=
  puts (dec n ++ lit " blocks " ++ lit what ++ lit ": " ++ (if n =? cnt then lit "OK" else lit "ERROR") ++ nl);;
  mret (if n =? cnt then Command.CMD_RET_SUCCESS else Command.CMD_RET_FAILURE).

(** [blk_dread], [blk_dwrite] and [blk_derase] without a block cache are the functions of the device. *)
Definition do_mmc_read (flag : Z) (argv : list (list Z)) : C Z :=
  if negb (length argv =? 4)%nat then mret Command.CMD_RET_USAGE else
  let addr := number (arg argv 1) 16 in let blk := number (arg argv 2) 16 in let cnt := number (arg argv 3) 16 in
  cur ← current;
  m ← init_mmc_device cur false;
  match m with
  | None => mret Command.CMD_RET_FAILURE
  | Some p => puts (announce "read" cur blk cnt);; n ← lift (mmc_bread p blk cnt addr); report "read" n cnt
  end.

(** [if (mmc_getwp(mmc) == 1)] *)
Definition unless_protected (p : nat) (k : C Z) : C Z :=
  prot ← lift (mmc_getwp p);
  if prot =? 1 then puts (lit "Error: card is write protected!" ++ nl);; mret Command.CMD_RET_FAILURE else k.

Definition do_mmc_write (flag : Z) (argv : list (list Z)) : C Z :=
  if negb (length argv =? 4)%nat then mret Command.CMD_RET_USAGE else
  let addr := number (arg argv 1) 16 in let blk := number (arg argv 2) 16 in let cnt := number (arg argv 3) 16 in
  cur ← current;
  m ← init_mmc_device cur false;
  match m with
  | None => mret Command.CMD_RET_FAILURE
  | Some p => puts (announce "write" cur blk cnt);; unless_protected p (n ← lift (m_bwrite p blk cnt addr); report "written" n cnt)
  end.

Definition do_mmc_erase (flag : Z) (argv : list (list Z)) : C Z :=
  if negb (length argv =? 3)%nat then mret Command.CMD_RET_USAGE else
  let blk := number (arg argv 1) 16 in let cnt := number (arg argv 2) 16 in
  cur ← current;
  m ← init_mmc_device cur false;
  match m with
  | None => mret Command.CMD_RET_FAILURE
  | Some p => puts (announce "erase" cur blk cnt);; unless_protected p (n ← lift (m_berase p blk cnt); report "erased" n cnt)
  end.

Definition do_mmc_rescan (flag : Z) (argv : list (list Z)) : C Z :=
  cur ← current;
  m ← init_mmc_device cur true;
  mret (match m with None => Command.CMD_RET_FAILURE | Some _ => Command.CMD_RET_SUCCESS end).

(** [blk_get_devnum_by_type] gives the descriptor of the driver of this file. *)
Definition do_mmc_part (flag : Z) (argv : list (list Z)) : C Z :=
  cur ← current;
  m ← init_mmc_device cur false;
  match m with
  | None => mret Command.CMD_RET_FAILURE
  | Some _ =>
    r ← lift (m_get_dev cur);
    known ← (match r with inl _ => mret None | inr p => t ← lift (get p bd_type); mret (if negb (t =? Part.DEV_TYPE_UNKNOWN) then Some p else None) end);
    match known with
    | Some p => part_print p;; mret Command.CMD_RET_SUCCESS
    | None => puts (lit "get mmc type error!" ++ nl);; mret Command.CMD_RET_FAILURE
    end
  end.

(** The rest of [do_mmc_dev] behind its arguments. *)
Definition select_dev (num part : Z) : C Z :=
  m ← init_mmc_device num true;
  match m with
  | None => mret Command.CMD_RET_FAILURE
  | Some p =>
    ret ← lift (blk_select_hwpart_devnum malloc (SdBoot.part_init (map pd_driver drivers)) stack fuel num part);
    puts (lit "switch to partitions #" ++ dec part ++ lit ", " ++ (if ret =? 0 then lit "OK" else lit "ERROR") ++ nl);;
    if negb (ret =? 0) then mret 1 else
    set_current num;;
    d ← lift (dev p);
    puts (if val d part_config =? MMCPART_NOAVAILABLE then lit "mmc" ++ dec num ++ lit " is current device" ++ nl
          else lit "mmc" ++ dec num ++ lit "(part " ++ dec (val d bd_hwpart) ++ lit ") is current device" ++ nl);;
    mret Command.CMD_RET_SUCCESS
  end.
Definition do_mmc_dev (flag : Z) (argv : list (list Z)) : C Z :=
  cur ← current;
  match length argv with
  | 1%nat => select_dev cur 0
  | 2%nat => select_dev (sgn 32 (number (arg argv 1) 10)) 0
  | 3%nat =>
    let part := sgn 32 (number (arg argv 2) 10) in
    if PART_ACCESS_MASK <? part then
      puts (lit "#part_num shouldn't be larger than " ++ dec PART_ACCESS_MASK ++ nl);; mret Command.CMD_RET_FAILURE
    else select_dev (sgn 32 (number (arg argv 1) 10)) part
  | _ => mret Command.CMD_RET_USAGE
  end.

Definition do_mmc_list (flag : Z) (argv : list (list Z)) : C Z :=
  l ← lift (fun w => Some (devices w, w)); puts (print_mmc_devices 10 l);; mret Command.CMD_RET_SUCCESS.

Definition do_mmc_setdsr (flag : Z) (argv : list (list Z)) : C Z :=
  if negb (length argv =? 2)%nat then mret Command.CMD_RET_USAGE else
  let v := number (arg argv 1) 16 in
  cur ← current;
  m ← lift (find_mmc_device cur);
  match m with
  | None => puts (lit "no mmc device at slot " ++ hex (u32 cur) ++ nl);; mret Command.CMD_RET_FAILURE
  | Some p =>
    ret ← lift (mmc_set_dsr p v);
    puts (lit "set dsr " ++ (if ret =? 0 then lit "OK, force rescan" else lit "ERROR") ++ nl);;
    if negb (ret =? 0) then mret ret else
    lift (set p has_init 0);;
    r ← lift (m_init p);
    mret (if negb (r =? 0) then Command.CMD_RET_FAILURE else Command.CMD_RET_SUCCESS)
  end.

(** ** Hardware partitions *)

(** [parse_hwpart_user]: what is behind its arguments and the user area; [None] for -1. *)
Definition wrrel_value (t : list Z) : option bool := if equals t "on" then Some true else if equals t "off" then Some false else None.
Fixpoint user_loop (l : list (list Z)) (u : user_conf) : option (list (list Z) * user_conf) :=
  match l with
  | a :: l' =>
    if equals a "enh" then
      match l' with
      | x :: y :: l'' => user_loop l'' (User (number x 10) (number y 10) (u_wr_rel_change u) (u_wr_rel_set u))
      | _ => None
      end
    else if equals a "wrrel" then
      match l' with
      | x :: l'' => match wrrel_value x with Some b => user_loop l'' (User (u_enh_start u) (u_enh_size u) true b) | None => None end
      | [] => None
      end
    else Some (l, u)
  | [] => Some ([], u)
  end.
Definition parse_hwpart_user (l : list (list Z)) : option (list (list Z) * user_conf) := user_loop l (User 0 0 false false).

(** [parse_hwpart_gp] *)
Fixpoint gp_options (l : list (list Z)) (g : gp_conf) : option (list (list Z) * gp_conf) :=
  match l with
  | a :: l' =>
    if equals a "enh" then gp_options l' (Gp (g_size g) true (g_wr_rel_change g) (g_wr_rel_set g))
    else if equals a "wrrel" then
      match l' with
      | x :: l'' => match wrrel_value x with Some b => gp_options l'' (Gp (g_size g) (g_enhanced g) true b) | None => None end
      | [] => None
      end
    else Some (l, g)
  | [] => Some ([], g)
  end.
Definition parse_hwpart_gp (l : list (list Z)) : option (list (list Z) * gp_conf) :=
  match l with
  | x :: ((_ :: _) as rest) => gp_options rest (Gp (number x 10) false false false)
  | _ => None
  end.

(** The loop of [do_mmc_hwpartition] over its arguments; [None] for a usage error.  Each round takes an argument. *)
Definition gp_index (a : list Z) : option nat :=
  match a with [103; 112; c] => if (49 <=? c) && (c <=? 52) then Some (Z.to_nat (c - 49)) else None | _ => None end.
Fixpoint conf_loop (n : nat) (l : list (list Z)) (conf : mmc_hwpart_conf) (mode : mmc_hwpart_conf_mode) : option (mmc_hwpart_conf * mmc_hwpart_conf_mode) :=
  match n, l with
  | _, [] => Some (conf, mode)
  | O, _ => None
  | S n, a :: l =>
    if equals a "user" then '(l, u) ← parse_hwpart_user l; conf_loop n l (HwConf u (gp_part conf)) mode else
    match gp_index a with
    | Some pidx => '(l, g) ← parse_hwpart_gp l; conf_loop n l (HwConf (conf_user conf) (<[pidx:=g]> (gp_part conf))) mode
    | None =>
      if equals a "check" then conf_loop n l conf MMC_HWPART_CONF_CHECK
      else if equals a "set" then conf_loop n l conf MMC_HWPART_CONF_SET
      else if equals a "complete" then conf_loop n l conf MMC_HWPART_CONF_COMPLETE
      else None
    end
  end.
Definition no_gp : gp_conf := Gp 0 false false false.
Definition parse_conf (l : list (list Z)) : option (mmc_hwpart_conf * mmc_hwpart_conf_mode) :=
  conf_loop (length l) l (HwConf (User 0 0 false false) [no_gp; no_gp; no_gp; no_gp]) MMC_HWPART_CONF_CHECK.

Definition on_off (b : bool) : list Z := if b then lit "on" else lit "off".
Definition print_gp_conf (pidx : Z) (g : gp_conf) : list Z :=
  (if negb (g_size g =? 0) then
     [9] ++ lit "GP" ++ dec (pidx + 1) ++ lit " Capacity: " ++ print_size (u64 (Z.shiftl (g_size g) 9)) (if g_enhanced g then lit " ENH" ++ nl else nl)
   else [9] ++ lit "No GP" ++ dec (pidx + 1) ++ lit " partition" ++ nl) ++
  (if g_wr_rel_change g then [9] ++ lit "GP" ++ dec (pidx + 1) ++ lit " write reliability: " ++ on_off (g_wr_rel_set g) ++ nl else []).
Definition print_conf (conf : mmc_hwpart_conf) : list Z :=
  let u := conf_user conf in
  lit "Partition configuration:" ++ nl ++
  (if negb (u_enh_size u =? 0) then
     [9] ++ lit "User Enhanced Start: " ++ print_size (u64 (Z.shiftl (u_enh_start u) 9)) nl ++
     [9] ++ lit "User Enhanced Size: " ++ print_size (u64 (Z.shiftl (u_enh_size u) 9)) nl
   else [9] ++ lit "No enhanced user data area" ++ nl) ++
  (if u_wr_rel_change u then [9] ++ lit "User partition write reliability: " ++ on_off (u_wr_rel_set u) ++ nl else []) ++
  concat (imap (fun i g => print_gp_conf (Z.of_nat i) g) (gp_part conf)).

Definition do_mmc_hwpartition (flag : Z) (argv : list (list Z)) : C Z :=
  cur ← current;
  m ← init_mmc_device cur false;
  match m with
  | None => mret Command.CMD_RET_FAILURE
  | Some p =>
    match parse_conf (tail argv) with
    | None => mret Command.CMD_RET_USAGE
    | Some (conf, mode) =>
      puts (print_conf conf);;
      r ← lift (mmc_hwpart_config stack p conf mode);
      if r =? 0 then
        puts (match mode with MMC_HWPART_CONF_COMPLETE => lit "Partitioning successful, power-cycle to make effective" ++ nl | _ => [] end);;
        mret Command.CMD_RET_SUCCESS
      else puts (lit "Failed!" ++ nl);; mret Command.CMD_RET_FAILURE
    end
  end.

(** ** The command *)

Definition MKENT (name : string) (maxargs rep : Z) (f : Z -> list (list Z) -> C Z) : Command.cmd_tbl state :=
  {| Command.name := lit name; Command.maxargs := maxargs; Command.repeatable := rep; Command.cmd := f; Command.usage := Some []; Command.help := Some [];
     Command.complete := None |}.

Definition cmd_mmc : list (Command.cmd_tbl state) :=
  [MKENT "info" 1 0 do_mmcinfo; MKENT "read" 4 1 do_mmc_read; MKENT "write" 4 0 do_mmc_write; MKENT "erase" 3 0 do_mmc_erase; MKENT "rescan" 1 1 do_mmc_rescan;
   MKENT "part" 1 1 do_mmc_part; MKENT "dev" 3 0 do_mmc_dev; MKENT "list" 1 1 do_mmc_list; MKENT "hwpartition" 28 0 do_mmc_hwpartition; MKENT "setdsr" 2 0 do_mmc_setdsr].

(** A missing [argv[1]] is a null pointer, for which [find_cmd_tbl] finds nothing. *)
Definition do_mmcops (flag : Z) (argv : list (list Z)) : C Z :=
  match a ← argv !! 1%nat; Command.find_cmd_tbl a cmd_mmc with
  | None => mret Command.CMD_RET_USAGE
  | Some cp =>
    let argv := tail argv in
    if Command.maxargs cp <? Z.of_nat (length argv) then mret Command.CMD_RET_USAGE else
    if (flag =? Command.CMD_FLAG_REPEAT) && (Command.repeatable cp =? 0) then mret Command.CMD_RET_SUCCESS else
    choose_device (mret Command.CMD_RET_FAILURE) (Command.cmd cp flag argv)
  end.

End Commands.

(** ** Arguments of [mmc hwpartition] *)

Lemma user_loop_shorter n : forall l u l' u', (length l <= n)%nat -> user_loop l u = Some (l', u') -> (length l' <= length l)%nat.
Proof.
  induction n as [|n IH]; intros l u l' u' Hn; destruct l as [|a l]; cbn [user_loop length] in *; try (intros [= <- <-]; cbn; lia); [lia|].
  repeat case_match; subst; try done; try (intros [= <- <-]; cbn; lia); intros E; apply IH in E; cbn in *; lia.
Qed.

Lemma gp_options_shorter n : forall l g l' g', (length l <= n)%nat -> gp_options l g = Some (l', g') -> (length l' <= length l)%nat.
Proof.
  induction n as [|n IH]; intros l g l' g' Hn; destruct l as [|a l]; cbn [gp_options length] in *; try (intros [= <- <-]; cbn; lia); [lia|].
  repeat case_match; subst; try done; try (intros [= <- <-]; cbn; lia); intros E; apply IH in E; cbn in *; lia.
Qed.

Lemma parse_gp_shorter l l' g : parse_hwpart_gp l = Some (l', g) -> (length l' <= length l)%nat.
Proof.
  destruct l as [|x [|y l] ]; [done|done|]. unfold parse_hwpart_gp. intros E. apply (gp_options_shorter (length (y :: l))) in E; [|done]. cbn [length] in *. lia.
Qed.

(** One round for each argument is enough: more rounds give the same result. *)
Lemma conf_loop_enough n : forall k l conf mode, (length l <= n)%nat -> (length l <= k)%nat -> conf_loop n l conf mode = conf_loop k l conf mode.
Proof.
  induction n as [|n IH]; intros k l conf mode Hn Hk; destruct l as [|a l]; try (by destruct k); cbn [length] in *; [lia|]. destruct k as [|k]; [lia|]. cbn [conf_loop].
  destruct (equals a "user").
  - destruct (parse_hwpart_user l) as [ [l' u]|] eqn:E; [|done]. cbn [mbind option_bind]. apply (user_loop_shorter (length l)) in E; [|done]. apply IH; lia.
  - destruct (gp_index a) as [i|]; [|repeat case_match; try done; apply IH; lia].
    destruct (parse_hwpart_gp l) as [ [l' g]|] eqn:E; [|done]. cbn [mbind option_bind]. apply parse_gp_shorter in E. apply IH; lia.
Qed.

(** A partition whose size is the last argument is refused, although everything behind the size is optional. *)
Lemma hwpartition_gp_last a t : gp_index a <> None -> parse_conf [a; t] = None.
Proof.
  intros Ha. unfold parse_conf. cbn [length conf_loop]. destruct (gp_index a) eqn:E; [|done]. assert (equals a "user" = false) as ->; [|done].
  unfold equals. apply bool_decide_eq_false_2. intros ->. by vm_compute in E.
Qed.

(** [print_size] rounds to the nearest tenth of the unit. *)
Lemma unit_loop_unit l : forall d size, 0 <= size < 2 ^ (d + 10) -> 0 < d - 10 * (Z.of_nat (length l) - 1) -> 
  match unit_loop l d size with Some (_, d') => d - 10 * (Z.of_nat (length l) - 1) <= d' <= d /\ 2 ^ d' <= size < 2 ^ (d' + 10) | None => l = [] \/ size < 2 ^ (d + 10 - 10 * Z.of_nat (length l)) end.
Proof.
  induction l as [|c l IH]; intros d size Hs Hd; cbn [unit_loop length] in *; [by left|]. rewrite Z.shiftr_div_pow2 by lia.
  destruct (Z.eqb_spec (size / 2 ^ d) 0) as [E|E]; cbn [negb].
  - assert (0 < 2 ^ d) by (apply Z.pow_pos_nonneg; lia). apply Z.div_small_iff in E; [|lia]. destruct l as [|c' l]; [right; cbn [length]; replace (d + 10 - 10 * Z.of_nat 1) with d by lia; lia|].
    specialize (IH (d - 10) size). replace (d - 10 + 10) with d in IH by lia. specialize (IH ltac:(lia) ltac:(cbn [length] in *; lia)).
    destruct (unit_loop (c' :: l) (d - 10) size) as [ [? d']|]; cbn [length] in *; [split; [lia|apply IH]|]. right. destruct IH as [IH|IH]; [done|].
    replace (d + 10 - 10 * Z.of_nat (S (S (length l)))) with (d - 10 * Z.of_nat (S (length l))) by lia. done.
  - split; [lia|]. split; [|lia]. destruct (Z.le_gt_cases (2 ^ d) size); [done|]. destruct E. apply Z.div_small. lia.
Qed.

Lemma round_size_nearest size d n m : 10 <= d <= 60 -> 2 ^ d <= size < 2 ^ (d + 10) -> round_size size d = (n, m) ->
  0 <= m < 10 /\ Z.abs (10 * size - (10 * n + m) * 2 ^ d) <= 2 ^ (d - 1).
Proof.
  intros Hd Hu. unfold round_size. replace (Z.shiftl 1 d - 1) with (Z.ones d) by (rewrite Z.ones_equiv, Z.shiftl_1_l; lia). rewrite Z.land_ones, !Z.shiftr_div_pow2, Z.shiftl_1_l by lia.
  assert (2 ^ d = 2 * 2 ^ (d - 1)) as Ed by (rewrite <- Z.pow_succ_r by lia; f_equal; lia). assert (0 < 2 ^ (d - 1)) as Hp by (apply Z.pow_pos_nonneg; lia).
  assert (2 ^ (d + 10) = 2 ^ d * 1024) as Eu by (rewrite Z.pow_add_r; lia). assert (2 ^ d <= 2 ^ 60) as Hmax by (apply Z.pow_le_mono_r; lia).
  pose proof (Z.div_mod size (2 ^ d) ltac:(lia)) as Edm. pose proof (Z.mod_pos_bound size (2 ^ d) ltac:(lia)) as Hf.
  set (q := size / 2 ^ d) in *. set (f := size mod 2 ^ d) in *. assert (0 <= q < 1024) as Hq by nia. rewrite (u32_small q) by lia.
  destruct (Z.eqb_spec f 0) as [E0|E0]; [intros [= <- <-]; split; [lia|]; replace (10 * size - (10 * q + 0) * 2 ^ d) with 0 by lia; lia|].
  rewrite u64_small by lia. set (x := (10 * f + 2 ^ (d - 1)) / 2 ^ d).
  pose proof (Z.div_mod (10 * f + 2 ^ (d - 1)) (2 ^ d) ltac:(lia)) as Ex. pose proof (Z.mod_pos_bound (10 * f + 2 ^ (d - 1)) (2 ^ d) ltac:(lia)) as Hx. fold x in Ex.
  assert (0 <= x <= 10) as Rx by nia. rewrite (u32_small x) by lia.
  destruct (Z.leb_spec 10 x); intros [= <- <-]; [rewrite u32_small by lia|]; split; try lia; apply Z.abs_le; nia.
Qed.

(** Every 64-bit size is printed in bytes below 1 KiB, else to the nearest tenth of the largest unit it reaches. *)
Lemma print_size_rounds size s : 0 <= size < 2 ^ 64 ->
  (size < 1024 /\ print_size size s = udec size ++ lit " Bytes" ++ s) \/
  exists n m c d, 10 <= d <= 60 /\ 2 ^ d <= size /\ 0 <= m < 10 /\ Z.abs (10 * size - (10 * n + m) * 2 ^ d) <= 2 ^ (d - 1) /\
    print_size size s = udec n ++ (if negb (m =? 0) then lit "." ++ udec m else []) ++ lit " " ++ [c] ++ lit "iB" ++ s.
Proof.
  intros Hs. unfold print_size. pose proof (unit_loop_unit names (10 * 6) size) as H. change (10 * 6 - 10 * (Z.of_nat (length names) - 1)) with 10 in H.
  specialize (H ltac:(change (10 * 6 + 10) with 70; lia) ltac:(lia)). destruct (unit_loop names (10 * 6) size) as [ [c d]|].
  - right. destruct H as [Hd Hu]. destruct (round_size size d) as [n m] eqn:E. destruct (round_size_nearest size d n m ltac:(lia) Hu E) as [Hm Hn]. exists n, m, c, d.
    split; [lia|]. split; [apply Hu|]. by split; [|split].
  - left. destruct H as [H|H]; [done|]. change (10 * 6 + 10 - 10 * Z.of_nat (length names)) with 10 in H. split; [lia|done].
Qed.

End MmcCmd.
