(* ===== verification/MmcSession.v ===== *)
(** * MmcSession: the command [mmc] on a card that works

    The subcommands of MmcCmd.v on the board with an SD card that was started: sessions of [mmc read], [mmc write],
    [mmc rescan], [mmc dev], [mmc info] and [mmc list] in any order implement a store of blocks. *)

From stdpp Require Import base list option strings.
From Stdlib Require Import ZifyBool.
From S2P Require Import Prelude Cmem Carray Strto Part Command MmcTypes Mmc Pl180 SdCard SdInit SdWrite SdHost SdBoot Emmc MmcCmd.
Import Carray MmcTypes Mmc SdCard SdInit SdWrite SdHost SdBoot MmcCmd.
Import Pl180.

Module MmcSession.

Lemma cmd_bind {PF : Platform} {A B} (m : C A) (k : A -> C B) s a s' : m s = Some (a, s') -> (m ≫= k) s = k a s'.
Proof. unfold mbind, C_bind. by intros ->. Qed.

Lemma run_lift {PF : Platform} {A} (m : M A) s a w : m (wd s) = Some (a, w) -> lift m s = Some (a, State w (curr_device s) (out s)).
Proof. unfold lift. by intros ->. Qed.

Lemma number_prints v : 0 <= v < 2 ^ 32 -> number (hex v) 16 = v.
Proof. intros Hv. unfold number, hex. by rewrite Part.strtoul_prints. Qed.

Section Session.
Context {PF : Platform} {CA : Card} {CT : Controller board_host} (patience : nat) (Hpat : Z.of_nat polls + 2 ^ 14 < Z.of_nat patience).
Context (sd : sd_info) {SW : SdWriter sd} (malloc : Z -> bool) (stack : Z) (fuel : nat).

#[local] Existing Instance ops.
#[local] Existing Instance board_works.

Context (drivers : list (part_driver (PF := PF))).
Abbreviation card_with m := (with_disk sd m).
Context (Hboard : forall m, board_ok (card_with m) stack) (Hdrivers : forall m, Forall (only_reads (WO := board_works patience Hpat) (card_with m) stack) (map pd_driver drivers)).

Abbreviation in_use m w := (SdBoot.in_use patience Hpat (card_with m) w).
Abbreviation mmc argv := (do_mmcops (HO := ops patience) malloc stack fuel drivers 0 argv).
Abbreviation init num force := (init_mmc_device (HO := ops patience) malloc stack fuel drivers num force).

(** ** The device *)

Lemma in_use_find m w : in_use m w -> find_mmc_device 0 w = Some (Some 0%nat, w).
Proof.
  intros (d & c & Hon). unfold find_mmc_device. rewrite (st_dev _ _ _ _ _ (on_st _ _ _ _ _ _ Hon)). pose proof (on_number _ _ _ _ _ _ Hon) as E. cbn in E.
  injection E as E. cbn. by rewrite <- E.
Qed.

Lemma init_started m s : in_use m (wd s) -> init 0 false s = Some (Some 0%nat, s).
Proof.
  intros Hu. unfold init_mmc_device. rewrite (cmd_bind _ _ _ _ _ (run_lift _ _ _ _ (in_use_find m _ Hu))). cbn [mret C_ret].
  destruct Hu as (d & c & Hon). destruct s as [w cur o]. cbn [wd curr_device out] in *.
  rewrite (cmd_bind _ _ _ tt (State w cur o)) by done. rewrite (cmd_bind _ _ _ 0 (State w cur o)); [done|].
  apply run_lift. unfold mmc_init, dev, mbind, M_bind. cbn. rewrite (st_lookup _ _ _ _ _ (on_st _ _ _ _ _ _ Hon)). cbn. by rewrite (on_init _ _ _ _ _ _ Hon).
Qed.

(** A memory that differs in the driver's buffer only. *)
Definition same_outside (r r' : mem) : Prop := forall x, x < stack \/ stack + 512 <= x -> ld r' x = ld r x.

Lemma init_again m s : in_use m (wd s) ->
  exists w, init 0 true s = Some (Some 0%nat, State w (curr_device s) (out s)) /\ in_use m w /\ same_outside (ram (wd s)) (ram w).
Proof.
  intros Hu. unfold init_mmc_device. rewrite (cmd_bind _ _ _ _ _ (run_lift _ _ _ _ (in_use_find m _ Hu))). destruct Hu as (d & c & [H Hc Hs Hi Hb Hr Hag Hnu Hhw]). destruct s as [w cur o]. cbn [wd curr_device out] in *.
  assert (wp (set 0 has_init 0;; mmc_init (HO := ops patience) malloc (SdBoot.part_init (map pd_driver drivers)) stack fuel 0) (fun a w' => a = 0 /\ in_use m w' /\ same_outside (ram w) (ram w')) w) as Hw.
  { apply (st_watch no_watch (outside stack 512 (ram w))) in H; [|by intros x Hx]. do 2 wstep. destruct (Hboard m) as [B1 B2 B3 B4].
    pose proof (free_outside stack 512 (ram w)) as Hfree.
    apply (wp_mmc_init (WO := board_works patience Hpat) (card_with m) malloc (SdBoot.part_init (map pd_driver drivers)) stack B1 Hfree (part_init_reads (card_with m) stack _ Hfree (Hdrivers m)) B2 B3 B4 fuel [board_device] 0 _ c w0 _ H);
      [by apply (sd_here Tran)|done|done|done|done|done|].
    intros d' c' w' Hon. split_and!; [done| |exact (st_kept _ _ _ _ _ (on_st _ _ _ _ _ _ Hon))]. exists d', c'. by apply (online_watch _ _ _ _ _ _ _ _ Hon); intros x []. }
  destruct (wp_run _ _ _ Hw) as (a & w' & E & -> & Hu' & Hk). exists w'. split; [|done].
  unfold mbind, M_bind in E. destruct (set 0 has_init 0 w) as [ [u w1]|] eqn:E1; [|done]. cbn in E.
  rewrite (cmd_bind _ _ _ u (State w1 cur o)) by (by apply (run_lift _ (State w cur o))). rewrite (cmd_bind _ _ _ 0 (State w' cur o)) by (by apply (run_lift _ (State w1 cur o))). done.
Qed.

(** ** Sessions *)

Inductive op := Read (addr blk cnt : Z) | Write (addr blk cnt : Z) | Rescan | Dev | Info | List.

Definition words (o : op) : list (list Z) := lit "mmc" ::
  match o with
  | Read a b n => [lit "read"; hex a; hex b; hex n]
  | Write a b n => [lit "write"; hex a; hex b; hex n]
  | Rescan => [lit "rescan"] | Dev => [lit "dev"; lit "0"] | Info => [lit "info"] | List => [lit "list"]
  end.

(** Transfers inside the address space; they may go beyond the end of the card. *)
Definition valid (o : op) : Prop :=
  match o with
  | Read a b n | Write a b n => 0 <= b /\ 0 < n /\ b + n < 2 ^ 32 /\ 0 <= a /\ a + n * 512 < 2 ^ 32
  | _ => True
  end.

Definition result (o : op) : Z :=
  match o with
  | Read _ b n | Write _ b n => if b + n <=? sd_blocks sd then Command.CMD_RET_SUCCESS else Command.CMD_RET_FAILURE
  | _ => Command.CMD_RET_SUCCESS
  end.

(** The blocks that a write beyond the end stores: those of the transfers, of the controller's limit each, before the end. *)
Definition stored_before_end (b : Z) : Z := stored_blocks sd (b_max (host_config board_host)) b.

(** A store of blocks and a memory.  A restart of the card uses the driver's buffer on the stack. *)
Inductive op_spec : op -> mem * mem -> mem * mem -> Prop :=
  | spec_read a b n m r r' : b + n <= sd_blocks sd -> mem_eq r' (wr r a (bytes m (b * 512) (Z.to_nat (n * 512)))) -> op_spec (Read a b n) (m, r) (m, r')
  | spec_beyond a b n m r : sd_blocks sd < b + n -> op_spec (Read a b n) (m, r) (m, r)
  | spec_write a b n m r : b + n <= sd_blocks sd -> op_spec (Write a b n) (m, r) (wr m (b * 512) (bytes r a (Z.to_nat (n * 512))), r)
  | spec_cut a b n m r : sd_blocks sd < b + n -> op_spec (Write a b n) (m, r) (wr m (b * 512) (bytes r a (Z.to_nat (stored_before_end b * 512))), r)
  | spec_restart o m r r' : o = Rescan \/ o = Dev -> same_outside r r' -> op_spec o (m, r) (m, r')
  | spec_show o m r : o = Info \/ o = List -> op_spec o (m, r) (m, r).

Inductive session_spec : list op -> mem * mem -> mem * mem -> Prop :=
  | session_nil x : session_spec [] x x
  | session_cons o l x y z : op_spec o x y -> session_spec l y z -> session_spec (o :: l) x z.

(** The commands one after the other; the results. *)
Fixpoint session (l : list op) (s : state) : option (list Z * state) :=
  match l with
  | [] => Some ([], s)
  | o :: l => '(r, s) ← mmc (words o) s; '(rs, s) ← session l s; Some (r :: rs, s)
  end.

(** The current device is the card's, or none was chosen yet. *)
Definition selectable (s : state) : Prop := curr_device s = 0 \/ (curr_device s < 0 /\ 0 < cur_dev_num (wd s)).
Definition selected (s : state) : state := State (wd s) 0 (out s).

Lemma run_choose k go s : selectable s -> choose_device k go s = go (selected s).
Proof.
  destruct s as [w cur o]. intros [E|[E Hn] ]; cbn [curr_device wd] in *; unfold choose_device, mbind, C_bind, current; cbn.
  - by subst cur.
  - replace (cur <? 0) with true by lia. cbn. replace (0 <? cur_dev_num w) with true by lia. done.
Qed.

(** What one command does. *)
Definition does (o : op) (s : state) (m : mem) : Prop := exists s' m', mmc (words o) s = Some (result o, s') /\ curr_device s' = 0 /\
  in_use m' (wd s') /\ op_spec o (m, ram (wd s)) (m', ram (wd s')).

(** Reading and reporting, after the device was found. *)
Lemma run_report what n cnt s : exists t, report what n cnt s = Some (if n =? cnt then Command.CMD_RET_SUCCESS else Command.CMD_RET_FAILURE, State (wd s) (curr_device s) (out s ++ t)).
Proof. unfold report, mbind, C_bind. by eexists. Qed.

Lemma run_mmc a rest cp s : selectable s -> Command.find_cmd_tbl a (cmd_mmc (HO := ops patience) malloc stack fuel drivers) = Some cp ->
  Z.of_nat (S (length rest)) <= Command.maxargs cp -> mmc (lit "mmc" :: a :: rest) s = Command.cmd cp 0 (a :: rest) (selected s).
Proof.
  intros Hs E Hm. unfold do_mmcops. change ((lit "mmc" :: a :: rest) !! 1%nat) with (Some a). cbn [mbind option_bind]. rewrite E. cbn [tail length].
  replace (Command.maxargs cp <? Z.of_nat (S (length rest))) with false by lia. cbn [Z.eqb Command.CMD_FLAG_REPEAT andb]. by apply run_choose.
Qed.

Lemma does_read a b n s m : selectable s -> in_use m (wd s) -> valid (Read a b n) -> does (Read a b n) s m.
Proof.
  intros Hs Hu (H1 & H2 & H3 & H4 & H5). unfold does, words. erewrite run_mmc; [|exact Hs|reflexivity|done]. cbn [Command.cmd MKENT].
  unfold do_mmc_read. cbn [length Nat.eqb negb arg nth]. rewrite !number_prints by lia.
  rewrite (cmd_bind _ _ _ 0 (selected s)) by done. rewrite (cmd_bind _ _ _ _ _ (init_started m (selected s) Hu)).
  rewrite (cmd_bind _ _ _ tt (State (wd s) 0 (out s ++ announce "read" 0 b n))) by done. set (s1 := State _ 0 _). cbn [result].
  destruct (Z.leb_spec (b + n) (sd_blocks sd)) as [Hin|Hout].
  - destruct (in_use_read patience Hpat (card_with m) stack (Hboard m) (wd s) b n a Hu) as (w' & E & Hu' & Hm'); [by split_and!|].
    rewrite (cmd_bind _ _ _ _ _ (run_lift _ s1 _ _ E)). destruct (run_report "read" n n (State w' (curr_device s1) (out s1))) as [t ->]. rewrite Z.eqb_refl.
    eexists _, m. split_and!; [done|done|done|]. by apply spec_read.
  - rewrite (cmd_bind _ _ _ _ _ (run_lift _ s1 _ _ (in_use_beyond patience Hpat (card_with m) (wd s) b n a Hu ltac:(lia) ltac:(lia) ltac:(cbn; lia)))).
    destruct (run_report "read" 0 n (State (wd s) (curr_device s1) (out s1))) as [t ->]. rewrite (proj2 (Z.eqb_neq 0 n)) by lia.
    eexists _, m. split_and!; [done|done|done|]. by apply spec_beyond.
Qed.

Lemma does_write a b n s m : selectable s -> in_use m (wd s) -> valid (Write a b n) -> does (Write a b n) s m.
Proof.
  intros Hs Hu (H1 & H2 & H3 & H4 & H5).
  unfold does, words. erewrite run_mmc; [|exact Hs|reflexivity|done]. cbn [Command.cmd MKENT].
  unfold do_mmc_write. cbn [length Nat.eqb negb arg nth]. rewrite !number_prints by lia.
  rewrite (cmd_bind _ _ _ 0 (selected s)) by done. rewrite (cmd_bind _ _ _ _ _ (init_started m (selected s) Hu)).
  rewrite (cmd_bind _ _ _ tt (State (wd s) 0 (out s ++ announce "write" 0 b n))) by done. set (s1 := State _ 0 _). unfold unless_protected.
  rewrite (cmd_bind _ _ _ 0 s1) by done. change (0 =? 1) with false. cbn iota.
  cbn [result]. destruct (Z.leb_spec (b + n) (sd_blocks sd)) as [Hin|Hout].
  - destruct (in_use_write patience Hpat sd m malloc stack (map pd_driver drivers) (Hboard m) (wd s) m b n a fuel Hu) as (w' & E & Hram & Hu'); [by split_and!|].
    rewrite (cmd_bind _ _ _ _ _ (run_lift _ s1 _ _ E)). destruct (run_report "written" n n (State w' (curr_device s1) (out s1))) as [t ->]. rewrite Z.eqb_refl.
    eexists _, _. split_and!; [done|done|exact Hu'|]. cbn [wd]. rewrite Hram. by apply spec_write.
  - destruct (in_use_cut patience Hpat sd m malloc stack (map pd_driver drivers) (Hboard m) (wd s) m b n a fuel Hu) as (w' & E & Hram & Hu'); [lia..|].
    rewrite (cmd_bind _ _ _ _ _ (run_lift _ s1 _ _ E)). destruct (run_report "written" 0 n (State w' (curr_device s1) (out s1))) as [t ->].
    rewrite (proj2 (Z.eqb_neq 0 n)) by lia. eexists _, _. split_and!; [done|done|exact Hu'|]. cbn [wd]. rewrite Hram. by apply spec_cut.
Qed.

Lemma does_rescan s m : selectable s -> in_use m (wd s) -> does Rescan s m.
Proof.
  intros Hs Hu. unfold does, words. erewrite run_mmc; [|exact Hs|reflexivity|done]. cbn [Command.cmd MKENT]. unfold do_mmc_rescan.
  rewrite (cmd_bind _ _ _ 0 (selected s)) by done. destruct (init_again m (selected s) Hu) as (w' & E & Hu' & Hk). rewrite (cmd_bind _ _ _ _ _ E).
  eexists _, m. split_and!; [done|done|done|]. apply spec_restart; [by left|exact Hk].
Qed.

Lemma select_hwpart m w : in_use m w -> blk_select_hwpart_devnum (HO := ops patience) malloc (SdBoot.part_init (map pd_driver drivers)) stack fuel 0 0 w = Some (0, w).
Proof.
  intros Hu. pose proof (in_use_find m w Hu) as Hf. destruct Hu as (d & c & Hon). pose proof (on_st _ _ _ _ _ _ Hon) as H. pose proof (on_number _ _ _ _ _ _ Hon) as En. cbn in En. injection En as En.
  assert (wp (blk_select_hwpart_devnum (HO := ops patience) malloc (SdBoot.part_init (map pd_driver drivers)) stack fuel 0 0) (fun a w' => a = 0 /\ w' = w) w) as Hw.
  { unfold blk_select_hwpart_devnum, mmc_get_dev. do 2 wstep. eapply wp_of_run; [exact Hf|]. cbn beta iota. wstep. unfold mmc_init. do 2 wstep. rewrite (on_init _ _ _ _ _ _ Hon).
    change (negb (1 =? 0)) with true. cbn iota. do 2 wstep. change (negb (0 =? 0)) with false. cbn iota. unfold mmc_select_hwpartp. do 2 wstep. rewrite <- En. wstep.
    eapply wp_of_run; [exact Hf|]. cbn beta iota. do 2 wstep. rewrite (on_hwpart _ _ _ _ _ _ Hon). change (0 =? 0) with true. cbn iota. by wstep. }
  destruct (wp_run _ _ _ Hw) as (a & w' & E & -> & ->). done.
Qed.

Lemma does_dev s m : selectable s -> in_use m (wd s) -> does Dev s m.
Proof.
  intros Hs Hu. unfold does, words. erewrite run_mmc; [|exact Hs|reflexivity|done]. cbn [Command.cmd MKENT]. unfold do_mmc_dev.
  rewrite (cmd_bind _ _ _ 0 (selected s)) by done. cbn [length]. change (sgn 32 (number (arg [lit "dev"; lit "0"] 1) 10)) with 0. unfold select_dev.
  destruct (init_again m (selected s) Hu) as (w' & E & Hu' & Hk). rewrite (cmd_bind _ _ _ _ _ E).
  rewrite (cmd_bind _ _ _ _ _ (run_lift _ (State w' _ _) _ _ (select_hwpart m w' Hu'))). pose proof Hu' as (d & c & Hon).
  pose proof (st_lookup _ _ _ _ _ (on_st _ _ _ _ _ _ Hon)) as Hd. cbn [curr_device out selected].
  rewrite (cmd_bind _ _ _ tt (State w' 0 _)) by reflexivity. change (negb (0 =? 0)) with false. cbn iota. rewrite (cmd_bind _ _ _ tt (State w' 0 _)) by reflexivity.
  rewrite (cmd_bind _ _ _ d (State w' 0 _)) by (apply (run_lift _ (State w' 0 _)); unfold dev; cbn [wd]; by rewrite Hd).
  eexists _, m. split_and!; [reflexivity|done|done|]. apply spec_restart; [by right|exact Hk].
Qed.

Lemma does_info s m : selectable s -> in_use m (wd s) -> does Info s m.
Proof.
  intros Hs Hu. unfold does, words. erewrite run_mmc; [|exact Hs|reflexivity|done]. cbn [Command.cmd MKENT]. unfold do_mmcinfo.
  rewrite (run_choose _ _ (selected s)) by (by left). rewrite (cmd_bind _ _ _ 0 (selected s)) by done. rewrite (cmd_bind _ _ _ _ _ (init_started m (selected s) Hu)).
  pose proof Hu as (d & c & Hon). pose proof (st_lookup _ _ _ _ _ (on_st _ _ _ _ _ _ Hon)) as Hd.
  rewrite (cmd_bind _ _ _ d (selected s)) by (apply (run_lift _ (selected s)); unfold dev; cbn [wd selected]; by rewrite Hd).
  eexists _, m. split_and!; [reflexivity|done|done|]. apply spec_show. by left.
Qed.

Lemma does_list s m : selectable s -> in_use m (wd s) -> does List s m.
Proof.
  intros Hs Hu. unfold does, words. erewrite run_mmc; [|exact Hs|reflexivity|done]. cbn [Command.cmd MKENT]. unfold do_mmc_list.
  rewrite (cmd_bind _ _ _ (devices (wd s)) (selected s)) by done. eexists _, m. split_and!; [reflexivity|done|done|]. apply spec_show. by right.
Qed.

Lemma does_op o s m : selectable s -> in_use m (wd s) -> valid o -> does o s m.
Proof. intros Hs Hu Hv. destruct o; [by apply does_read|by apply does_write|by apply does_rescan|by apply does_dev|by apply does_info|by apply does_list]. Qed.

(** C15: the command [mmc] is a store of blocks: on the board with an SD card that was started, every session of [mmc read],
    [mmc write], [mmc rescan], [mmc dev 0], [mmc info] and [mmc list], in any order and number, with transfers that stay in
    the address space, runs to its end with the card in use.  Each command returns success, except a transfer beyond the
    end of the card, which fails: a read then changes nothing, a write stores the leading transfers that end before the
    card does (each is as long as the controller allows) and no other block.  What the session leaves on the card and in
    memory is what these operations on a plain store of blocks leave; [mmc rescan] and [mmc dev 0] also use the driver's
    512 bytes of buffer on the stack and change no other byte of the memory. *)
Theorem mmc_session_refines l s m : selectable s -> in_use m (wd s) -> Forall valid l ->
  exists s' m', session l s = Some (map result l, s') /\ in_use m' (wd s') /\ session_spec l (m, ram (wd s)) (m', ram (wd s')).
Proof.
  intros Hs Hu Hv. revert s m Hs Hu. induction Hv as [|o l Ho Hl IH]; intros s m Hs Hu; cbn [session map].
  - exists s, m. split_and!; [done|done|constructor].
  - destruct (does_op o s m Hs Hu Ho) as (s1 & m1 & -> & Hc & Hu1 & H1). cbn [mbind option_bind]. destruct (IH s1 m1) as (s2 & m2 & -> & Hu2 & H2); [by left|done|].
    cbn [mbind option_bind]. exists s2, m2. split_and!; [done|done|]. by eapply session_cons.
Qed.

End Session.

End MmcSession.
