(* ===== verification/SdDemo.v ===== *)
(** * SdDemo: a controller and a card

    The registers of the PL180 as far as the driver uses them, with any card behind them, and a card of 1024 blocks: the
    interfaces [Controller] of SdHost.v and [SdCard] of SdCard.v have implementations, so the theorems of SdBoot.v
    apply, and the programs run on them. *)

From stdpp Require Import base list option.
From Stdlib Require Import ZifyBool.
From S2P Require Import Prelude Cmem Blk Part Fs MmcTypes Mmc Pl180 SdCard SdInit SdWrite SdHost SdBoot.
Import MmcTypes Mmc SdCard SdInit SdWrite SdHost SdBoot.
Import Pl180.

Module SdDemo.

(** ** The controller *)

Section Simulation.
Context {CA : Card}.

(** [s_rx] holds the bytes of a transfer that were not read yet, [s_tx] those that were written. *)
Record sim := Sim {
  s_card : card; s_power : Z; s_clock : Z; s_arg : Z; s_len : Z; s_armed : bool; s_resp : list Z; s_flags : Z; s_rx : option (list Z); s_tx : option (list Z)
}.

Definition sim_on (h : sim) : bool := (Z.land (s_power h) 3 =? 3) && has (s_clock h) SDI_CLKCR_CLKEN.

(** The status register: the flags, data or room in the FIFO, the end of the data. *)
Definition sim_status (h : sim) : Z :=
  Z.lor (s_flags h) (Z.lor (match s_rx h with None => 0 | Some [] => SDI_STA_DBCKEND | Some _ => SDI_STA_RXDAVL end)
    (match s_tx h with None => 0 | Some l => if Z.of_nat (length l) <? s_len h then SDI_STA_TXFIFOBW else SDI_STA_DBCKEND end)).

Definition sim_readl (a : Z) (h : sim) : Z * sim :=
  let r := a - base board_host in
  if r =? r_power then (s_power h, h) else
  if r =? r_clock then (s_clock h, h) else
  if r =? r_status then (sim_status h, h) else
  if r =? r_response 0 then (nth 0 (s_resp h) 0, h) else
  if r =? r_response 1 then (nth 1 (s_resp h) 0, h) else
  if r =? r_response 2 then (nth 2 (s_resp h) 0, h) else
  if r =? r_response 3 then (nth 3 (s_resp h) 0, h) else
  if r =? r_fifo then
    match s_rx h with
    | Some (b0 :: b1 :: b2 :: b3 :: l) =>
      (word b0 b1 b2 b3, Sim (s_card h) (s_power h) (s_clock h) (s_arg h) (s_len h) (s_armed h) (s_resp h) (s_flags h) (Some l) (s_tx h))
    | _ => (0, h)
    end
  else (0, h).

(** A command: the card's answer, and its data when the data path was armed. *)
Definition sim_command (v : Z) (h : sim) : sim :=
  if negb (sim_on h) then h else
  match answer (s_card h) (Z.land v 63) (s_arg h) with
  | None => Sim (s_card h) (s_power h) (s_clock h) (s_arg h) (s_len h) false (s_resp h) (if has v SDI_CMD_WAITRESP then SDI_STA_CTIMEOUT else SDI_STA_CMDSENT) None (s_tx h)
  | Some (r, c) =>
    Sim c (s_power h) (s_clock h) (s_arg h) (s_len h) false r (if has v SDI_CMD_WAITRESP then SDI_STA_CMDREND else SDI_STA_CMDSENT)
      (if s_armed h then sends (s_card h) (Z.land v 63) (s_arg h) (s_len h) else None) (s_tx h)
  end.

Definition sim_writel (v a : Z) (h : sim) : sim :=
  let r := a - base board_host in
  if r =? r_power then Sim (s_card h) v (s_clock h) (s_arg h) (s_len h) (s_armed h) (s_resp h) (s_flags h) (s_rx h) (s_tx h) else
  if r =? r_clock then Sim (s_card h) (s_power h) v (s_arg h) (s_len h) (s_armed h) (s_resp h) (s_flags h) (s_rx h) (s_tx h) else
  if r =? r_argument then Sim (s_card h) (s_power h) (s_clock h) v (s_len h) (s_armed h) (s_resp h) (s_flags h) (s_rx h) (s_tx h) else
  if r =? r_datalength then Sim (s_card h) (s_power h) (s_clock h) (s_arg h) v (s_armed h) (s_resp h) (s_flags h) (s_rx h) (s_tx h) else
  if r =? r_datactrl then
    Sim (s_card h) (s_power h) (s_clock h) (s_arg h) (s_len h) (has v SDI_DCTRL_DTEN && has v SDI_DCTRL_DTDIR_IN) (s_resp h) (s_flags h) (s_rx h)
      (if has v SDI_DCTRL_DTEN && negb (has v SDI_DCTRL_DTDIR_IN) then Some [] else s_tx h) else
  if r =? r_fifo then
    Sim (s_card h) (s_power h) (s_clock h) (s_arg h) (s_len h) (s_armed h) (s_resp h) (s_flags h) (s_rx h)
      (match s_tx h with Some l => Some (l ++ unword v) | None => None end) else
  if r =? r_status_clear then
    let fin := match s_tx h with Some l => if s_len h <=? Z.of_nat (length l) then takes (s_card h) l else None | None => None end in
    Sim (if has v SDI_STA_DBCKEND then default (s_card h) fin else s_card h) (s_power h) (s_clock h) (s_arg h) (s_len h) (s_armed h) (s_resp h)
      (Z.land (s_flags h) (Z.lnot v))
      (if has v SDI_STA_DBCKEND then match s_rx h with Some [] => None | x => x end else s_rx h)
      (if has v SDI_STA_DBCKEND then match fin with Some _ => None | None => s_tx h end else s_tx h) else
  if r =? r_command then sim_command v h else h.

#[global] Instance sim_platform : Platform := {| hw := sim; readl := sim_readl; writel := sim_writel; udelay _ h := h; get_timer _ h := (0, h) |}.

(** No flag is set; the data path, and whether the controller is on. *)
Record calm (c : card) (armed : bool) (rx tx : option (list Z)) (h : sim) : Prop := {
  calm_card : s_card h = c; calm_flags : s_flags h = 0; calm_armed : s_armed h = armed; calm_rx : s_rx h = rx; calm_tx : s_tx h = tx
}.

Record on (c : card) (armed : bool) (rx tx : option (list Z)) (h : sim) : Prop := {
  on_calm : calm c armed rx tx h; on_power : Z.land (s_power h) 3 = 3; on_clock : has (s_clock h) SDI_CLKCR_CLKEN = true
}.

Lemma on_is_on c a rx tx h : on c a rx tx h -> sim_on h = true.
Proof. intros [_ Hp Hc]. unfold sim_on. by rewrite Hp, Hc. Qed.

Lemma command_index cmd : 0 <= cmdidx cmd < 64 -> Z.land (command_word cmd) 63 = cmdidx cmd.
Proof.
  intros Hi. unfold command_word. cbv zeta.
  assert (forall f, Z.land f 63 = 0 -> forall x, Z.land (Z.lor x f) 63 = Z.land x 63) as Hf.
  { intros f E x. by rewrite Z.land_lor_distr_l, E, Z.lor_0_r. }
  assert (Z.land (Z.lor (Z.land (cmdidx cmd) SDI_CMD_CMDINDEX_MASK) SDI_CMD_CPSMEN) 63 = cmdidx cmd) as E.
  { rewrite Hf, <- Z.land_assoc by done. change (Z.land SDI_CMD_CMDINDEX_MASK 63) with (Z.ones 6). rewrite Z.land_ones by lia. apply Z.mod_small. lia. }
  repeat case_match; rewrite ?(Hf SDI_CMD_LONGRESP), ?(Hf SDI_CMD_WAITRESP) by done; done.
Qed.

Lemma command_waits cmd : 0 <= cmdidx cmd < 64 -> proper_cmd cmd = true -> has (command_word cmd) SDI_CMD_WAITRESP = has (resp_type cmd) MMC_RSP_PRESENT.
Proof.
  intros Hi Hp. unfold proper_cmd in Hp.
  assert (has (resp_type cmd) MMC_RSP_PRESENT = negb (resp_type cmd =? 0)) as ->.
  { unfold has. destruct (Z.eqb_spec (resp_type cmd) 0) as [-> |]; [done|]. by rewrite orb_false_l in Hp. }
  assert (has (Z.lor (Z.land (cmdidx cmd) SDI_CMD_CMDINDEX_MASK) SDI_CMD_CPSMEN) SDI_CMD_WAITRESP = false) as E.
  { change SDI_CMD_WAITRESP with (2 ^ 6). rewrite status_bit by lia. rewrite Z.lor_spec, Z.land_spec.
    rewrite (Z.bits_above_log2 (cmdidx cmd) 6); [done|lia|]. destruct (Z.eq_dec (cmdidx cmd) 0) as [-> |]; [done|]. apply Z.log2_lt_pow2; lia. }
  unfold command_word. cbv zeta. destruct (Z.eqb_spec (resp_type cmd) 0); cbn [negb]; [done|].
  change SDI_CMD_WAITRESP with (2 ^ 6) in *. destruct (has (resp_type cmd) MMC_RSP_136); rewrite status_bit by lia; rewrite !Z.lor_spec; cbn; by rewrite ?orb_true_r.
Qed.

(** After [issue]. *)
Lemma sim_issue cmd h : 0 <= cmdidx cmd < 64 -> issue board_host cmd h = sim_command (command_word cmd)
  (Sim (s_card h) (s_power h) (s_clock h) (cmdarg cmd) (s_len h) (s_armed h) (s_resp h) (s_flags h) (s_rx h) (s_tx h)).
Proof. done. Qed.

(** The state behind a command that was answered; [rx] is what the card sends. *)
Lemma sim_answered c a h cmd r c' rx : on c a None None h -> 0 <= cmdidx cmd < 64 -> proper_cmd cmd = true -> answer c (cmdidx cmd) (cmdarg cmd) = Some (r, c') ->
  (if a then sends c (cmdidx cmd) (cmdarg cmd) (s_len h) else None) = rx -> rx <> Some [] ->
  shows board_host 0 (mask_of cmd) (fun s h' => good_status cmd s /\ (on c' false rx None (cleared board_host (mask_of cmd) h') /\ s_len (cleared board_host (mask_of cmd) h') = s_len h) /\
    s_resp (cleared board_host (mask_of cmd) h') = r) (issue board_host cmd h).
Proof.
  intros Hon Hi Hp E Erx Hne. rewrite sim_issue by done. destruct Hon as [ [Ec Ef Ea Er Et] Hpw Hck]. unfold sim_command.
  change (sim_on (Sim _ _ _ _ _ _ _ _ _ _)) with (sim_on h). rewrite (on_is_on c a None None h) by done. cbn [negb s_card s_arg s_armed s_len s_tx].
  rewrite command_index, Ec, E, Ea, Erx, Et, command_waits by done.
  left. unfold mask_of, good_status. destruct (has (resp_type cmd) MMC_RSP_PRESENT); destruct rx as [ [|b l]|]; done.
Qed.

Lemma sim_silent c h cmd : on c false None None h -> 0 <= cmdidx cmd < 64 -> has (resp_type cmd) MMC_RSP_PRESENT = true -> answer c (cmdidx cmd) (cmdarg cmd) = None ->
  shows board_host 0 (mask_of cmd) (fun s h' => has s SDI_STA_CTIMEOUT = true /\ on c false None None (cleared board_host (mask_of cmd) h')) (issue board_host cmd h).
Proof.
  intros Hon Hi Hp E. rewrite sim_issue by done. destruct Hon as [ [Ec Ef Ea Er Et] Hpw Hck]. unfold sim_command.
  change (sim_on (Sim _ _ _ _ _ _ _ _ _ _)) with (sim_on h). rewrite (on_is_on c false None None h) by done. cbn [negb s_card s_arg s_armed s_len s_tx].
  rewrite command_index, Ec, E, Et, command_waits, Hp by (done || (unfold proper_cmd; unfold has in Hp; by rewrite Hp, orb_true_r)).
  left. unfold mask_of. rewrite Hp. split; [done|]. split; [done|]. by split.
Qed.

Lemma sim_fifo h b0 b1 b2 b3 l : s_rx h = Some (b0 :: b1 :: b2 :: b3 :: l) -> readl (base board_host + r_fifo) h =
  (word b0 b1 b2 b3, Sim (s_card h) (s_power h) (s_clock h) (s_arg h) (s_len h) (s_armed h) (s_resp h) (s_flags h) (Some l) (s_tx h)).
Proof.
  intros Hr. transitivity (match s_rx h with
    | Some (b0 :: b1 :: b2 :: b3 :: l) => (word b0 b1 b2 b3, Sim (s_card h) (s_power h) (s_clock h) (s_arg h) (s_len h) (s_armed h) (s_resp h) (s_flags h) (Some l) (s_tx h))
    | _ => (0, h) end); [done|]. by rewrite Hr.
Qed.

(** Clearing everything behind a transfer. *)
Lemma sim_clear h : cleared board_host SDI_ICR_MASK h =
  let fin := match s_tx h with Some l => if s_len h <=? Z.of_nat (length l) then takes (s_card h) l else None | None => None end in
  Sim (default (s_card h) fin) (s_power h) (s_clock h) (s_arg h) (s_len h) (s_armed h) (s_resp h) (Z.land (s_flags h) (Z.lnot SDI_ICR_MASK))
    (match s_rx h with Some [] => None | x => x end) (match fin with Some _ => None | None => s_tx h end).
Proof. done. Qed.

#[global] Instance sim_controller : Controller board_host.
Proof.
  unshelve refine {| wired c h := calm c false None None h; ready c h := on c false None None h; armed len c h := on c true None None h /\ s_len h = len /\ 0 < len;
    receiving n l c h := on c false (Some l) None h; loaded len c h := on c false None None h /\ s_len h = len;
    writing n room l len c h := on c false None (Some l) h /\ s_len h = len; response_of := s_resp; polls := 0%nat |}.
  - intros c h pw ck [? ? ? ? ?] Hpw Hck. by split.
  - done.
  - done.
  - done.
  - done.
  - intros c h [? ? ?]. by split.
  - intros c v h [ [? ? ? ? ?] ? ?] Hv. by split.
  - intros c h [? ? ?]. by split.
  - intros c v h [ [? ? ? ? ?] ? ?] Hv. by split.
  - intros c h i Hon Hi. assert (i = 0 \/ i = 1 \/ i = 2 \/ i = 3) as [-> |[-> |[-> | ->] ] ] by lia; by split.
  - intros c h cmd r c' Hon Hp Hi E. eapply shows_mono; [by apply (sim_answered c false h cmd r c' None)|]. by intros s h' (? & [? _] & ?).
  - intros c h cmd. apply sim_silent.
  - intros c h len ctrl [ [? ? ? ? ?] ? ?] Hlen H1 H2. split; [|split; [done|lia] ]. split; [|done|done].
    split; [done|done|change (has ctrl SDI_DCTRL_DTEN && has ctrl SDI_DCTRL_DTDIR_IN = true); by rewrite H1, H2|done|].
    change ((if has ctrl SDI_DCTRL_DTEN && negb (has ctrl SDI_DCTRL_DTDIR_IN) then Some [] else s_tx h) = None). by rewrite H1, H2.
  - intros c h cmd len r c' l (Hon & Hl & Hpos) Hi Hp E Es Hlen. eapply shows_mono; [apply (sim_answered c true h cmd r c' (Some l)); [done|done| |done| |]|by intros s h' (? & [? _] & ?)].
    + unfold proper_cmd. unfold has in Hp. by rewrite Hp, orb_true_r.
    + by rewrite Hl.
    + intros [= ->]. cbn in Hlen. lia.
  - intros n l c h i Hon Hi. assert (i = 0 \/ i = 1 \/ i = 2 \/ i = 3) as [-> |[-> |[-> | ->] ] ] by lia; by split.
  - intros n b0 b1 b2 b3 l c h [ [? Hf ? Hr Ht] ? ?]. change (readl (base board_host + r_status) h) with (sim_status h, h).
    assert (sim_status h = SDI_STA_RXDAVL) as -> by (unfold sim_status; by rewrite Hf, Hr, Ht). split; [done|]. left. split; [done|].
    cbn [snd]. unfold reads. rewrite (sim_fifo h b0 b1 b2 b3 l Hr). split; [done|]. by split.
  - intros n c h [ [? Hf ? Hr Ht] ? ?]. change (readl (base board_host + r_status) h) with (sim_status h, h).
    assert (sim_status h = SDI_STA_DBCKEND) as -> by (unfold sim_status; by rewrite Hf, Hr, Ht). split; [done|]. left. split; [done|]. cbn [snd]. rewrite sim_clear, Hr, Hf, Ht.
    by split.
  - intros c h len [ [? ? ? ? ?] ? ?] Hlen. by split.
  - intros c h cmd len r c' [Hon Hl] Hi Hp E. eapply shows_mono; [apply (sim_answered c false h cmd r c' None); [done|done| |done|done|done]|].
    + unfold proper_cmd. unfold has in Hp. by rewrite Hp, orb_true_r.
    + intros s h' (? & [? ->] & ?). done.
  - intros len c h i [Hon Hl] Hi. assert (i = 0 \/ i = 1 \/ i = 2 \/ i = 3) as [-> |[-> |[-> | ->] ] ] by lia; by split.
  - intros c h len ctrl [ [ [? ? ? ? ?] ? ?] Hl] H1 H2. split; [|done]. split; [|done|done].
    split; [done|done|change (has ctrl SDI_DCTRL_DTEN && has ctrl SDI_DCTRL_DTDIR_IN = false); by rewrite H1, H2|done|].
    change ((if has ctrl SDI_DCTRL_DTEN && negb (has ctrl SDI_DCTRL_DTDIR_IN) then Some [] else s_tx h) = Some []). by rewrite H1, H2.
  - intros n room l len c h [ [ [? Hf ? Hr Ht] ? ?] Hl] Hlt. change (readl (base board_host + r_status) h) with (sim_status h, h).
    assert (sim_status h = SDI_STA_TXFIFOBW) as -> by (unfold sim_status; rewrite Hf, Hr, Ht, Hl; by replace (Z.of_nat (length l) <? len) with true by lia).
    split; [done|]. left. split; [done|]. by split.
  - intros n room l len c h v [ [ [? Hf ? Hr Ht] ? ?] Hl] Hlt. split; [|done]. split; [|done|done]. split; [done|done|done|done|].
    change ((match s_tx h with Some l => Some (l ++ unword v) | None => None end) = Some (l ++ unword v)). by rewrite Ht.
  - intros n room l len c h c' [ [ [Hc Hf ? Hr Ht] ? ?] Hl] Hlen Etk. change (readl (base board_host + r_status) h) with (sim_status h, h).
    assert (sim_status h = SDI_STA_DBCKEND) as -> by (unfold sim_status; rewrite Hf, Hr, Ht, Hl; by replace (Z.of_nat (length l) <? len) with false by lia).
    split; [done|]. left. split; [done|]. cbn [snd]. rewrite sim_clear, Ht, Hl. replace (len <=? Z.of_nat (length l)) with true by lia. rewrite Hc, Etk, Hf, Hr. by split.
Defined.

End Simulation.

(** ** The card *)

Definition demo_disk : mem := fun a => 7 * a + a / 512.

(** A high-capacity card of 1024 blocks. *)
Definition demo : sd_info := Sd demo_disk 1024 true [0x1d414453; 0x44202020; 0x20100000; 0x12340045] [0x400e0032; 0x5b590000; 0; 0] 0x4567 [2; 0x35; 0x80; 0; 0; 0; 0; 0].

(** [in_app] after CMD55; the contents; the block from which on data is expected. *)
Record state := State { at_phase : phase; in_app : bool; stored : mem; expected : option Z }.

Definition r1 : list Z := [0x900; 0; 0; 0].

Definition demo_answer (c : state) (idx arg : Z) : option (list Z * state) :=
  let next ph := State ph false (stored c) None in
  if idx =? 0 then Some (r1, next (Idle 1)) else
  if idx =? 55 then Some (r1, State (at_phase c) true (stored c) None) else
  match at_phase c, in_app c with
  | Idle n, false => if idx =? 8 then Some ([arg; 0; 0; 0], next (Idle n)) else None
  | Idle n, true =>
    if idx =? 41 then match n with O => Some ([0xc0ff8000; 0; 0; 0], next Ready) | S n => Some ([0x00ff8000; 0; 0; 0], next (Idle n)) end
    else None
  | Ready, _ => if idx =? 2 then Some (sd_cid demo, next Ident) else None
  | Ident, _ => if idx =? 3 then Some ([0x45670500; 0; 0; 0], next Stby) else None
  | Stby, _ => if idx =? 9 then Some (sd_csd demo, next Stby) else if idx =? 7 then Some (r1, next Tran) else None
  | Tran, _ =>
    if (idx =? 24) || (idx =? 25) then Some (r1, State Tran false (stored c) (Some arg))
    else Some (r1, next (if idx =? 18 then Sending else Tran))
  | Sending, _ => if idx =? 12 then Some (r1, next Tran) else None
  end.

Definition demo_sends (c : state) (idx arg n : Z) : option (list Z) :=
  if idx =? 51 then Some (sd_scr demo) else
  if (idx =? 17) || (idx =? 18) then Some (bytes (stored c) (arg * 512) (Z.to_nat n)) else Some (replicate (Z.to_nat n) 0).

Definition demo_takes (c : state) (l : list Z) : option state :=
  b ← expected c; Some (State (at_phase c) false (wr (stored c) (b * 512) l) None).

Lemma demo_lengths c idx arg r c' : demo_answer c idx arg = Some (r, c') -> length r = 4%nat.
Proof. unfold demo_answer. repeat case_match; by intros [= <- <-]. Qed.

Lemma demo_bytes c idx arg n l : demo_sends c idx arg n = Some l -> Forall (fun b => 0 <= b < 256) l.
Proof.
  unfold demo_sends. repeat case_match; intros [= <-].
  - repeat (apply Forall_cons_iff; split; [by vm_compute|]). by apply List.Forall_nil.
  - apply bytes_range.
  - apply Forall_replicate. lia.
Qed.

Definition demo_card : Card :=
  {| card := state; answer := demo_answer; sends := demo_sends; takes := demo_takes; answer_length := demo_lengths; sends_bytes := demo_bytes |}.

(** With any contents the card follows the specification. *)
Definition demo_contents (m : mem) : @SdCard demo_card (with_disk demo m).
Proof.
  unshelve refine (@Build_SdCard demo_card (with_disk demo m) (fun c => stored c = m) (fun ph c => c = State ph false m None) (fun ph c => c = State ph true m None) _ _ _ _ _ _ _ _ _ _ _ _ _ _ _ _ _ _ _).
  - by intros ph c ->.
  - intros c <-. eexists r1, _, 1%nat. split_and!; [reflexivity|lia|done].
  - intros n c ->. eexists _, _. by split_and!.
  - intros n c ->. eexists _, _. by split_and!.
  - intros [|n] c arg -> _ _ _; eexists _, _; (split; [reflexivity|]); [left|right]; [done|]. split; [done|]. by exists n.
  - intros c ->. by eexists.
  - intros c arg -> _. eexists _, _. by split_and!.
  - intros c ->. by eexists.
  - intros c ->. eexists _, _. by split_and!.
  - intros c ->. eexists _, _. by split_and!.
  - intros c ->. eexists _, _. by split_and!.
  - intros c ->. eexists _, _, _. by split_and!.
  - intros c ->. eexists _, _. by split_and!.
  - intros c ->. eexists _, _, _. by split_and!.
  - intros c ->. eexists _, _, _. split_and!; [done|done|done|done| |done]. apply Forall_replicate. lia.
  - intros c ->. eexists _, _. by split_and!.
  - intros c b -> Hb. eexists _, _. by split_and!.
  - intros c b n -> _ _ _. eexists _, _. by split_and!.
  - intros c ->. eexists _, _. by split_and!.
Defined.
Definition demo_writer : @SdWriter demo_card demo.
Proof.
  unshelve refine (@Build_SdWriter demo_card demo demo_contents _ _ _).
  - intros m c b -> Hb. eexists _, _. split; [reflexivity|]. intros l _ _. by eexists.
  - intros m c b n -> _ _ _. eexists _, _. split; [reflexivity|]. intros l _ _. by eexists _, _, _.
  - intros m c ->. eexists _, _. by split_and!.
Defined.

Definition demo_sd : @SdCard demo_card demo := demo_contents demo_disk.

Lemma demo_sized : sd_sized demo.
Proof. split; [cbn; lia|done]. Qed.

Lemma demo_csd : csd_ok demo.
Proof. split; by vm_compute. Qed.

(** ** The board with this card *)

Definition rounds : nat := Z.to_nat 20000.
Definition the_stack : Z := 0x1000.

Lemma rounds_enough {CA : Card} : Z.of_nat polls + 2 ^ 14 < Z.of_nat rounds.
Proof. unfold rounds. rewrite Z2Nat.id; by vm_compute. Qed.

Section Demo.
#[local] Existing Instance demo_card.
#[local] Existing Instance demo_sd.

Lemma demo_board : board_ok demo the_stack.
Proof. split; [by vm_compute|exact demo_sized|exact demo_csd|done]. Qed.

Lemma demo_drivers : Forall (only_reads (WO := board_works rounds rounds_enough) demo the_stack) [dos (HO := ops rounds) the_stack].
Proof. apply Forall_cons_iff. split; [|by apply List.Forall_nil]. apply dos_only_reads; [by vm_compute|exact demo_sized|done]. Qed.

(** Power-on: the card may be in any state. *)
Definition in_slot : card := State Sending true demo_disk None.
Definition power_on : world := World [] 0 (Sim in_slot 0 0 0 0 false [] 0 None None) (fun _ => 0).

Lemma power_on_wired : wired in_slot (io power_on).
Proof. by split. Qed.

Lemma card_reads_witness : exists w1 w2 w3, mmc_initialize (HO := ops rounds) (cpu_mmc_init true true) false power_on = Some ((0, true), w1) /\
  mmc_get_dev (HO := ops rounds) (fun _ => true) (part_init [dos (HO := ops rounds) the_stack]) the_stack 1 0 w1 = Some (inr 0%nat, w2) /\
  mmc_bread (HO := ops rounds) 0 5 200 0x10000 w2 = Some (200, w3) /\
  bytes (ram w3) 0x10000 (Z.to_nat (200 * 512)) = bytes demo_disk (5 * 512) (Z.to_nat (200 * 512)) /\
  forall a, a < 0x10000 \/ 0x10000 + 200 * 512 <= a -> ld (ram w3) a = ld (ram w2) a.
Proof.
  apply (card_reads rounds rounds_enough demo (fun _ => true) the_stack _ demo_board demo_drivers in_slot); [exact power_on_wired|done|]. unfold readable. cbn. lia.
Defined.

(** A partition of 1000 blocks. *)
Definition demo_part : Part.disk_partition :=
  {| Part.dp_start := 24; Part.dp_size := 1000; Part.dp_blksz := 512; Part.dp_name := []; Part.dp_type := []; Part.dp_bootable := false; Part.dp_uuid := []; Part.dp_sys_ind := 0 |}.

Lemma card_is_block_device_witness : exists w1 w2, mmc_initialize (HO := ops rounds) (cpu_mmc_init true true) false power_on = Some ((0, true), w1) /\
  mmc_get_dev (HO := ops rounds) (fun _ => true) (part_init [dos (HO := ops rounds) the_stack]) the_stack 1 0 w1 = Some (inr 0%nat, w2) /\
  forall w', after_reads rounds demo w2 w' -> exists d, devices w' !! 0%nat = Some d /\
    Blk.good (Fs.to_partition (to_blk_desc (HO := ops rounds) 0 0x10000 w' d) demo_part) demo_disk.
Proof.
  apply (card_is_block_device rounds rounds_enough demo (fun _ => true) the_stack _ demo_board demo_drivers in_slot); [exact power_on_wired|done|by vm_compute..].
Defined.

Lemma read_beyond_end_witness : exists w1 w2, mmc_initialize (HO := ops rounds) (cpu_mmc_init true true) false power_on = Some ((0, true), w1) /\
  mmc_get_dev (HO := ops rounds) (fun _ => true) (part_init [dos (HO := ops rounds) the_stack]) the_stack 1 0 w1 = Some (inr 0%nat, w2) /\
  mmc_bread (HO := ops rounds) 0 1000 25 0x10000 w2 = Some (0, w2).
Proof.
  destruct (read_beyond_end rounds rounds_enough demo (fun _ => true) the_stack _ demo_board demo_drivers in_slot power_on 1 power_on_wired eq_refl) as (w1 & w2 & E1 & E2 & H).
  exists w1, w2. split_and!; [exact E1|exact E2|]. apply H; [apply no_read|lia|lia|by vm_compute].
Defined.

Lemma card_stores_witness : exists w1 w2 w3 w4, mmc_initialize (HO := ops rounds) (cpu_mmc_init true true) false power_on = Some ((0, true), w1) /\
  mmc_get_dev (HO := ops rounds) (fun _ => true) (part_init [dos (HO := ops rounds) the_stack]) the_stack 1 0 w1 = Some (inr 0%nat, w2) /\
  mmc_bwrite (HO := ops rounds) (fun _ => true) (part_init [dos (HO := ops rounds) the_stack]) the_stack 1 0 5 200 0x10000 w2 = Some (200, w3) /\ ram w3 = ram w2 /\
  mmc_bread (HO := ops rounds) 0 4 10 0x40000 w3 = Some (10, w4) /\
  bytes (ram w4) 0x40000 (Z.to_nat (10 * 512)) =
    bytes (wr demo_disk (5 * 512) (bytes (ram w2) 0x10000 (Z.to_nat (200 * 512)))) (4 * 512) (Z.to_nat (10 * 512)).
Proof.
  apply (card_stores rounds rounds_enough demo (SW := demo_writer) demo_disk (fun _ => true) the_stack _ demo_board demo_drivers in_slot);
    [exact power_on_wired|done|unfold readable; cbn; lia|unfold readable; cbn; lia].
Defined.

(** The program runs: the card is started and two blocks are read. *)
Example demo_run :
  match mmc_initialize (HO := ops rounds) (cpu_mmc_init true true) false power_on with
  | Some (_, w1) =>
    match mmc_get_dev (HO := ops rounds) (fun _ => true) (part_init [dos (HO := ops rounds) the_stack]) the_stack 1 0 w1 with
    | Some (inr p, w2) =>
      match mmc_bread (HO := ops rounds) p 1 1 0x10000 w2 with
      | Some (n, w3) => n = 1 /\ bytes (ram w3) 0x10000 8 = bytes demo_disk 512 8 /\ map (fun d => (val d bd_lba, val d clock, val d rca)) (devices w3) = [(1024, 6250000, 0x4567)]
      | None => False
      end
    | _ => False
    end
  | None => False
  end.
Proof. vm_compute. split_and!; reflexivity. Qed.

(** Two blocks are written and read back into another place. *)
Example demo_write_run :
  match mmc_initialize (HO := ops rounds) (cpu_mmc_init true true) false power_on with
  | Some (_, w1) =>
    match mmc_get_dev (HO := ops rounds) (fun _ => true) (part_init [dos (HO := ops rounds) the_stack]) the_stack 1 0 w1 with
    | Some (inr p, w2) =>
      let w2 := with_ram w2 (wr (ram w2) 0x10000 [1; 2; 3; 4; 5]) in
      match mmc_bwrite (HO := ops rounds) (fun _ => true) (part_init [dos (HO := ops rounds) the_stack]) the_stack 1 p 7 2 0x10000 w2 with
      | Some (n, w3) =>
        match mmc_bread (HO := ops rounds) p 7 1 0x20000 w3 with
        | Some (k, w4) => n = 2 /\ k = 1 /\ bytes (ram w4) 0x20000 6 = [1; 2; 3; 4; 5; 0]
        | None => False
        end
      | None => False
      end
    | _ => False
    end
  | None => False
  end.
Proof. vm_compute. split_and!; reflexivity. Qed.

(** ** A clock *)

Definition clock_device : mmc := set_val board_device clock 25000000.

Lemma set_ios_clock_witness : exists k v d' h, host_set_ios board_host rounds 0 (World [clock_device] 0 (io power_on) (ram power_on)) =
    Some (0, World [d'] 0 (udelay CLK_CHANGE_DELAY (writel v (base board_host + r_clock) h)) (ram power_on)) /\
  Z.land v 255 = k /\ frame [clock] clock_device d' /\ val d' clock = clock_in board_host / (k + 2) /\
  (clock_in board_host / 257 <= 6250000 -> val d' clock <= 6250000) /\ forall j, 0 <= j < k -> 6250000 * (j + 2) < clock_in board_host.
Proof.
  apply (set_ios_clock board_host rounds (board_clock rounds rounds_enough) 0 clock_device (World [clock_device] 0 (io power_on) (ram power_on))); [done|by vm_compute|done].
Defined.

End Demo.

(** ** An empty slot *)

Definition nobody : Card.
Proof.
  refine {| card := unit; answer _ idx _ := if idx =? 0 then Some ([0; 0; 0; 0], tt) else None; sends _ _ _ _ := None; takes _ _ := None |}.
  - intros _ idx _ r c'. by case_match; intros [= <- _].
  - done.
Defined.

Section Nobody.
#[local] Existing Instance nobody.

Definition nobody_there : world := World [] 0 (Sim tt 0 0 0 0 false [] 0 None None) (fun _ => 0).

Lemma nobody_silent : silent tt.
Proof. split; [by eexists|]. intros idx arg Hi. cbn. by rewrite (proj2 (Z.eqb_neq _ _) Hi). Qed.

Lemma empty_slot_witness : exists w1 w2 d, mmc_initialize (HO := ops rounds) (cpu_mmc_init true true) false nobody_there = Some ((0, true), w1) /\
  mmc_get_dev (HO := ops rounds) (fun _ => true) (fun _ => mret tt) the_stack 1 0 w1 = Some (inl (- EOPNOTSUPP), w2) /\ devices w2 = [d] /\ val d has_init = 0 /\ val d init_in_progress = 0.
Proof.
  apply (empty_slot (CA := nobody) rounds rounds_enough (fun _ => true) (fun _ => mret tt) the_stack 1 tt);
    [exact nobody_silent|by split].
Defined.

End Nobody.

End SdDemo.
