(* ===== verification/EmmcDemo.v ===== *)
(** * EmmcDemo: an eMMC behind the controller of the board

    A card that follows [EmmcCard] of Emmc.v in the simulated controller of SdDemo.v: the theorems of Emmc.v apply, and
    the partitioning runs. *)

From stdpp Require Import base list option.
From Stdlib Require Import ZifyBool.
From S2P Require Import Prelude Cmem MmcTypes Mmc Pl180 SdCard SdHost SdBoot SdDemo Emmc.
Import MmcTypes Mmc SdCard SdHost SdBoot SdDemo Emmc.
Import Pl180.

Module EmmcDemo.

(** The state of the card is its register. *)
Definition emmc_answer (e : list Z) (idx arg : Z) : option (list Z * list Z) :=
  if idx =? 6 then Some (r1, put e (Z.land (Z.shiftr arg 16) 255) (Z.land (Z.shiftr arg 8) 255)) else
  if (idx =? 8) || (idx =? 13) then Some (r1, e) else None.

Definition emmc : Card.
Proof.
  refine {| card := list Z; answer := emmc_answer; sends e idx _ n := if (idx =? 8) && (n =? 512) then Some (map u8 e) else None; takes _ _ := None |}.
  - unfold emmc_answer. intros e idx arg r e'. by repeat case_match; intros [= <- _].
  - intros e idx _ n l. case_match; [|done]. intros [= <-]. apply Forall_map, Forall_forall. intros x _. apply u8_range.
Defined.

Lemma switch_fields i v : 0 <= i < 256 -> 0 <= v < 256 ->
  let a := Z.lor (Z.lor (Z.shiftl MMC_SWITCH_MODE_WRITE_BYTE 24) (Z.shiftl i 16)) (Z.shiftl v 8) in
  Z.land (Z.shiftr a 16) 255 = i /\ Z.land (Z.shiftr a 8) 255 = v.
Proof.
  intros Hi Hv. cbv zeta. change 255 with (Z.ones 8). rewrite !Z.shiftr_lor, !Z.land_lor_distr_l, !Z.shiftr_shiftl_l by lia.
  change (24 - 16) with 8. change (16 - 16) with 0. change (24 - 8) with 16. change (16 - 8) with 8. change (8 - 8) with 0. change (8 - 16) with (Z.opp 8). rewrite Z.shiftl_opp_r.
  rewrite !Z.land_ones, !Z.shiftl_mul_pow2, !Z.shiftr_div_pow2, !Z.mul_1_r by lia. rewrite (Z.mod_small i), (Z.mod_small v), (Z.div_small v) by lia. split.
  - change ((MMC_SWITCH_MODE_WRITE_BYTE * 2 ^ 8) mod 2 ^ 8) with 0. change (0 mod 2 ^ 8) with 0. by rewrite Z.lor_0_l, Z.lor_0_r.
  - change ((MMC_SWITCH_MODE_WRITE_BYTE * 2 ^ 16) mod 2 ^ 8) with 0. rewrite Z.mod_mul by lia. done.
Qed.

Definition emmc_ok : @EmmcCard emmc 1.
Proof.
  unshelve refine (@Build_EmmcCard emmc 1 (fun e c => c = e /\ length e = 512%nat /\ Forall (fun b => 0 <= b < 256) e) _ _ _ _).
  - by intros e c (_ & ? & ?).
  - intros e c (-> & Hl & Hb). exists r1, e. split_and!; [done| |done|done|done]. cbn. f_equal. rewrite <- (map_id e) at 2. apply map_ext_Forall. exact (List.Forall_impl _ (fun x Hx => wrap_small 8 x Hx) Hb).
  - intros e c i v (-> & Hl & Hb) Hv Hi. assert (0 <= i < 256) as Ri by (unfold partition_byte, EXT_CSD_ERASE_GROUP_DEF in Hi; lia).
    destruct (switch_fields i v Ri Hv) as [E1 E2]. exists r1, (put e i v). split_and!; [cbn; unfold emmc_answer; by rewrite E1, E2|done|by rewrite length_put|]. by apply Forall_insert.
  - intros e c (-> & Hl & Hb). exists r1, e. by split_and!.
Defined.

(** An eMMC of version 5.1 with groups of 8 MiB, 200 of which may be enhanced. *)
Definition demo_csd : list Z := foldl (fun e '(i, v) => put e i v) (replicate 512 0)
  [(EXT_CSD_REV, 8); (EXT_CSD_PARTITIONING_SUPPORT, 3); (EXT_CSD_HC_ERASE_GRP_SIZE, 1); (EXT_CSD_HC_WP_GRP_SIZE, 16); (EXT_CSD_MAX_ENH_SIZE_MULT, 200);
   (EXT_CSD_WR_REL_PARAM, 1); (EXT_CSD_WR_REL_SET, 31)].

(** 16 MiB of the user area and the first partition of 8 MiB are enhanced; the second has 24 MiB and gives up reliability. *)
Definition demo_conf : mmc_hwpart_conf :=
  HwConf (User 16384 32768 false false) [Gp 16384 true false false; Gp 49152 false true false; Gp 0 false false false; Gp 0 false false false].

Definition demo_emmc : mmc :=
  set_val (set_val (set_val (set_val (set_val (set_val board_device version MMC_VERSION_5_1) rca 1) high_capacity 1) part_support 3) hc_wp_grp_size 16384) has_init 1.

Section Demo.
#[local] Existing Instance emmc.
#[local] Existing Instance emmc_ok.

Definition with_card (e : list Z) : world := World [demo_emmc] 1 (Sim e 3 SDI_CLKCR_CLKEN 0 0 false [] 0 None None) (fun _ => 0).

Lemma demo_st e : length e = 512%nat -> Forall (fun b => 0 <= b < 256) e ->
  emmc_st (WO := board_works rounds rounds_enough) 1 [demo_emmc] 0 demo_emmc e e (with_card e).
Proof. intros Hl Hb. split; [|done|done]. split; [done|by apply Nat.ltb_lt| |by intros x []]. by split. Qed.

Lemma demo_csd_bytes : length demo_csd = 512%nat /\ Forall (fun b => 0 <= b < 256) demo_csd.
Proof. split; [done|]. apply (bool_decide_eq_true_1 _). by vm_compute. Qed.

Lemma demo_conf_ok : conf_ok demo_conf.
Proof. split; [done| |by vm_compute..]. apply (bool_decide_eq_true_1 _). by vm_compute. Qed.

Lemma demo_fits : fits demo_emmc demo_csd demo_conf.
Proof.
  split; [by vm_compute|by vm_compute|by vm_compute|by vm_compute| |by left; vm_compute|by vm_compute|by right; vm_compute|done].
  apply (bool_decide_eq_true_1 _). by vm_compute.
Qed.

Lemma partitions_survive_witness : exists w1 c1 e1,
  mmc_hwpart_config (HO := ops rounds) the_stack 0 demo_conf MMC_HWPART_CONF_COMPLETE (with_card demo_csd) = Some (0, w1) /\
  linked (Works := board_works rounds rounds_enough) c1 (io w1) /\ holds e1 c1 /\ completed e1 = true /\
  forall l2 p2 d2 c2 w2, emmc_st (WO := board_works rounds rounds_enough) 1 l2 p2 d2 (put e1 EXT_CSD_ERASE_GROUP_DEF 0) c2 w2 -> IS_SD d2 = false ->
    MMC_VERSION_4 <= val d2 version -> val d2 high_capacity = val demo_emmc high_capacity ->
    exists w3 d3, mmc_startup_v4 (HO := ops rounds) (fun _ => true) the_stack p2 w2 = Some (0, w3) /\ devices w3 !! p2 = Some d3 /\
      capacity_gp d3 = [8388608; 25165824; 0; 0] /\ val d3 enh_user_size = 16777216 /\ (32768 <> 0 -> val d3 enh_user_start = 8388608).
Proof.
  apply (partitions_survive (WO := board_works rounds rounds_enough) 1 the_stack ltac:(split; by vm_compute) (fun _ => true) [demo_emmc] 0 demo_emmc demo_csd demo_csd (with_card demo_csd) demo_conf);
    [by apply demo_st; apply demo_csd_bytes|exact demo_conf_ok|exact demo_fits|by vm_compute|by vm_compute|by vm_compute|done].
Defined.

Lemma hwpart_all_or_nothing_witness : exists r w1 c1 e1,
  mmc_hwpart_config (HO := ops rounds) the_stack 0 demo_conf MMC_HWPART_CONF_CHECK (with_card demo_csd) = Some (r, w1) /\
  linked (Works := board_works rounds rounds_enough) c1 (io w1) /\ holds e1 c1 /\ (r = 0 <-> fits demo_emmc demo_csd demo_conf) /\
  (r <> 0 \/ MMC_HWPART_CONF_CHECK = MMC_HWPART_CONF_CHECK -> e1 = demo_csd) /\
  (r = 0 -> MMC_HWPART_CONF_CHECK <> MMC_HWPART_CONF_CHECK -> result_of MMC_HWPART_CONF_CHECK demo_emmc demo_conf demo_csd e1).
Proof.
  apply (hwpart_all_or_nothing (WO := board_works rounds rounds_enough) 1 the_stack ltac:(split; by vm_compute) [demo_emmc] 0 demo_emmc demo_csd demo_csd (with_card demo_csd) demo_conf);
    [by apply demo_st; apply demo_csd_bytes|exact demo_conf_ok|by vm_compute].
Defined.

(** The program runs: the card is divided and started again. *)
Example demo_partition_run :
  match mmc_hwpart_config (HO := ops rounds) the_stack 0 demo_conf MMC_HWPART_CONF_COMPLETE (with_card demo_csd) with
  | Some (r, w1) =>
    match mmc_startup_v4 (HO := ops rounds) (fun _ => true) the_stack 0 (with_card (s_card (io w1))) with
    | Some (r2, w2) => r = 0 /\ r2 = 0 /\ map capacity_gp (devices w2) = [ [8388608; 25165824; 0; 0] ] /\
        map (fun d => (val d enh_user_size, val d enh_user_start, val d part_attr, val d wr_rel_set)) (devices w2) = [(16777216, 8388608, 3, 27)]
    | None => False
    end
  | None => False
  end.
Proof. vm_compute. split_and!; reflexivity. Qed.

End Demo.

End EmmcDemo.
