(* ===== verification/MmcDemo.v ===== *)
(** * MmcDemo: sessions with the command [mmc]

    The command of MmcCmd.v on the simulated board with the SD card of SdDemo.v and with the eMMC of EmmcDemo.v: the
    theorem of MmcSession.v applies, and the commands run and print. *)

From stdpp Require Import base list option strings.
From Stdlib Require Import ZifyBool.
From S2P Require Import Prelude Cmem Carray Part Command MmcTypes Mmc Pl180 SdCard SdInit SdWrite SdHost SdBoot SdDemo Emmc EmmcDemo MmcCmd MmcSession.
Import Carray MmcTypes Mmc SdCard SdInit SdWrite SdHost SdBoot SdDemo MmcCmd MmcSession.
Import Pl180.

Module MmcDemo.

Section Sd.
#[local] Existing Instance demo_card.
#[local] Existing Instance demo_writer.

Definition tables : list part_driver := [dos_table (HO := ops rounds) the_stack 4].

Lemma board_any m : board_ok (with_disk demo m) the_stack.
Proof. destruct demo_board as [? [? ?] [? ? ?] ?]. split; [done|by split|by split|done]. Qed.

Lemma drivers_any m : Forall (only_reads (WO := board_works rounds rounds_enough) (with_disk demo m) the_stack) (map pd_driver tables).
Proof. apply Forall_cons_iff. split; [|by apply List.Forall_nil]. apply dos_only_reads; [by vm_compute|apply board_any|done]. Qed.

Definition demo_ops : list op := [Write 0x10000 7 2; Rescan; Read 0x20000 6 4; Read 0x20000 1000 100; Write 0x10000 800 300; Dev; Info; List; Read 0x30000 7 1].

Lemma mmc_session_refines_witness : exists w s' m',
  session (PF := sim_platform) rounds (fun _ => true) the_stack 4 tables demo_ops (State w 0 []) = Some ([0; 0; 0; 1; 1; 0; 0; 0; 0], s') /\
  in_use rounds rounds_enough (with_disk demo m') (wd s') /\ session_spec demo the_stack demo_ops (demo_disk, ram w) (m', ram (wd s')).
Proof.
  destruct (card_starts rounds rounds_enough (with_disk demo demo_disk) (fun _ => true) the_stack _ (board_any _) (drivers_any _) in_slot power_on 4 power_on_wired ltac:(done)) as (w & _ & Hu).
  exists w. apply (mmc_session_refines rounds rounds_enough demo (fun _ => true) the_stack 4 tables board_any drivers_any demo_ops (State w 0 []) demo_disk);
    [by left|exact Hu|]. repeat (apply Forall_cons_iff; split; [cbn; unfold readable; cbn; lia || done|]). by apply List.Forall_nil.
Defined.

(** From power-on: the card is started by the first command, which chooses the device. *)
Definition shell (l : list (list Z)) (s : state) : option (Z * state) := do_mmcops (HO := ops rounds) (fun _ => true) the_stack 4 tables 0 l s.

Example demo_session :
  match mmc_initialize (HO := ops rounds) (cpu_mmc_init true true) false power_on with
  | Some (_, w1) =>
    match shell (map lit ["mmc"; "info"]%string) (State w1 (-1) []) with
    | Some (r, s) => r = 0 /\ curr_device s = 0 /\ out s =
        lit "Device: MMC" ++ nl ++ lit "Manufacturer ID: 1d" ++ nl ++ lit "OEM: 4144" ++ nl ++ lit "Name: SD    " ++ nl ++ lit "Bus Speed: 6250000" ++ nl ++
        lit "Mode : SD Legacy" ++ nl ++ lit "Rd Block Len: 512" ++ nl ++ lit "SD version 3.0" ++ nl ++ lit "High Capacity: Yes" ++ nl ++ lit "Capacity: 512 KiB" ++ nl ++
        lit "Bus Width: 1-bit" ++ nl ++ lit "Erase Group Size: 512 Bytes" ++ nl
    | None => False
    end
  | None => False
  end.
Proof. vm_compute. split_and!; reflexivity. Qed.

End Sd.

(** ** An eMMC is divided by a command *)

Section Emmc.
#[local] Existing Instance EmmcDemo.emmc.

Definition divide : list (list Z) :=
  map lit ["mmc"; "hwpartition"; "user"; "enh"; "16384"; "32768"; "gp1"; "16384"; "enh"; "gp2"; "49152"; "wrrel"; "off"; "complete"]%string.

Example demo_parse : parse_conf (drop 2 divide) = Some (EmmcDemo.demo_conf, MMC_HWPART_CONF_COMPLETE).
Proof. reflexivity. Qed.

Example demo_divide :
  match do_mmcops (HO := ops rounds) (fun _ => true) the_stack 4 [] 0 divide (State (EmmcDemo.with_card EmmcDemo.demo_csd) 0 []) with
  | Some (r, s) => r = 0 /\ Emmc.completed (s_card (io (wd s))) = true /\ out s =
      lit "Partition configuration:" ++ nl ++ [9] ++ lit "User Enhanced Start: 8 MiB" ++ nl ++ [9] ++ lit "User Enhanced Size: 16 MiB" ++ nl ++
      [9] ++ lit "GP1 Capacity: 8 MiB ENH" ++ nl ++ [9] ++ lit "GP2 Capacity: 24 MiB" ++ nl ++ [9] ++ lit "GP2 write reliability: off" ++ nl ++
      [9] ++ lit "No GP3 partition" ++ nl ++ [9] ++ lit "No GP4 partition" ++ nl ++ lit "Partitioning successful, power-cycle to make effective" ++ nl
  | None => False
  end.
Proof. vm_compute. split_and!; reflexivity. Qed.

End Emmc.

End MmcDemo.
